(* ===== verification/_CoqProject ===== *)
-Q . S2P
Prelude.v
ListSeq.v
ListPtr.v
ListLoops.v
Bitmap.v
Hash.v
Arith64.v
Strings.v
Stdio.v
Ustar.v
Rtc.v
Intq.v
Input.v
Vga.v
Interrupt.v
Vaddr.v
Palloc.v
Malloc.v
Thread.v
Synch.v
Timer.v
Sched.v
Locks.v
Reach.v
Priority.v
Disk.v
Partition.v
Random.v
Inode.v
Directory.v
FsInv.v
FileInv.v
DirInv.v
Filesys.v
FsSpec.v
FsBoot.v
Fsutil.v
Sorting.v
Pagedir.v
Paging.v
Vm.v
VmInv.v
VmData.v
VmLoad.v
VmUser.v
Process.v
ProcArgs.v
ProcLoad.v
ProcStart.v
Wait.v
Syscall.v
SysMem.v
SysRw.v
SysFault.v
