(* ===== verification/Prelude.v ===== *)
(** * A verification development for the Pintos kernel of EC440Pintos-OSNAP

    Pintos is a small kernel for the 80x86: threads with a priority scheduler, user processes
    with demand paging, a file system on block devices, and the drivers and library routines
    below them.  The C sources are under [src/src]; file names in this development are
    relative to it.

    ** Parts of the program and files of the development

    Each component is a [Module] of the file that is named after it.  A C function is a
    definition of the same name; a loop or a part of a function that is translated on its own
    has a name of its own, and a [struct] is a [Record].

    - Library.  [ListPtr]: [lib/kernel/list.c] on a heap of links; [ListSeq] and [ListLoops]
      relate it to sequences, which the clients of the lists use.  [Bitmap]:
      [lib/kernel/bitmap.c] (the two operations on files are in [Inode]).  [Hash]:
      [lib/kernel/hash.c].  [Arith64]: [lib/arithmetic.c] and [threads/fixed.h].  [Strings]:
      [lib/string.c].  [Stdio]: [lib/stdio.c], [atoi] of [lib/stdlib.c], and the part of
      [lib/kernel/console.c] that [printf] runs through.  [Sorting]: the rest of
      [lib/stdlib.c].  [Ustar]: [lib/ustar.c].  [Random]: [lib/random.c].
    - Memory.  [Vaddr]: [threads/vaddr.h], [threads/pte.h].  [Palloc]: [threads/palloc.c].
      [Malloc]: [threads/malloc.c], over the class [PageAllocator] that [Palloc] implements.
    - Threads.  [Thread]: [threads/thread.c].  [Synch]: [threads/synch.c].  [Timer]:
      [devices/timer.c].  [Sched] and [Locks] have the invariants, [Reach] the transition
      system of the kernel, [Priority] what the scheduler guarantees about time and
      priorities.
    - Devices.  [Rtc]: [devices/rtc.c].  [Intq]: [devices/intq.c].  [Input]:
      [devices/input.c], [devices/kbd.c], [devices/serial.c].  [Vga]: [devices/vga.c].
      [Disk]: [devices/block.c].  [Partition]: [devices/partition.c].
    - Processor.  [Interrupt]: [threads/interrupt.c], [exception_init] of
      [userprog/exception.c] and, in [Module Gdt], [userprog/gdt.c].  [Paging]: [paging_init]
      of [threads/init.c].
    - File system.  [Inode]: [filesys/inode.c], [filesys/file.c], [filesys/free-map.c].
      [Directory]: [filesys/directory.c], [filesys/filesys.c].  [FsInv], [FileInv], [DirInv]
      and [Filesys] have the invariants, [FsSpec] the abstract file system, [FsBoot]
      formatting and mounting.  [Fsutil]: [filesys/fsutil.c].
    - Virtual memory.  [Pagedir]: [userprog/pagedir.c] with the control register and the
      translation cache of the processor.  [Vm]: [vm/swap.c], [vm/frame.c], [vm/page.c],
      [vm/mmap.c] and [page_fault] of [userprog/exception.c].  [VmInv], [VmData], [VmLoad]
      and [VmUser] have the invariant and its consequences for user programs.
    - Processes.  [Process]: [userprog/process.c]; [ProcArgs], [ProcLoad] and [ProcStart]
      are about it.  [Wait]: the records that parents and children share.  [Syscall]:
      [userprog/syscall.c]; [SysMem], [SysRw] and [SysFault] are about it.

    The state of a component contains the state of the components it calls: [Vm.vm] has the
    memory and page directories ([Pagedir.mmu], which has [Palloc]'s pools), the file system
    ([Inode.fs], which has the [Disk.block]) and the swap device; [Syscall.kst] adds the
    console and the process records.

    ** How code is translated

    Kernel operations return [res]: a value, a panic (a failed [ASSERT], a [PANIC], or an
    access to memory that is not there) or the exhaustion of the bound of a loop.
    Machine integers are [Z], wrapped where C wraps them ([u8], [u16], [u32], [u64], [s32],
    [s64]).  Memory is a map from addresses to bytes or words, or an array where only offsets
    matter.  Operations that run with interrupts off, or under a lock that makes them atomic,
    are functions on the state; code that other threads can interrupt is a step relation on
    the statements of the code ([Reach], [Wait], [Intq]).

    ** What the theorems show

    - Threads ([Reach]): in every reachable state every operation that a thread may begin or
      go on with succeeds; a lock has one owner; no thread is lost.  [Priority]: the ready
      list is sorted, donation reaches along chains of locks, sleepers wake on time.
    - Memory: [palloc] and [malloc] hand out disjoint blocks and take them back.
    - Files: the file system refines the abstract one of [FsSpec], and what it holds survives
      unmounting and mounting, and a copy to and from an archive.
    - Virtual memory: the translation cache is coherent with the page directory; user memory
      behaves like a flat array of bytes whatever is evicted and loaded again; eviction finds
      a frame.
    - Processes: a command line becomes a process with the segments of the executable and the
      arguments on its stack; [wait] returns the status of the child; [read] and [write] move
      bytes between files and user memory.
    - Processor: an interrupt runs the handler that was registered for it; after
      [paging_init] the memory of the machine is mapped, the text of the kernel read-only, and
      the invariants of the virtual memory system hold.
    - Devices: interrupt queues are queues; the input buffer and the serial port lose nothing;
      the display shows the last lines of what was printed; partitions are found.
    - Library: lists, bitmaps, hash tables, division, formatted output, sorting and archive
      headers compute what their mathematical counterparts do.
    - Errors: schedules and inputs for which the code fails, where it does.

    ** Bounds

    A loop over a structure is a fixpoint on the structure.  Other loops take a bound, and a
    theorem or lemma shows that a bound computed from the input is enough: the number of
    links of a heap for lists, the length of a string or of a format, the number of bits of a
    bitmap, twice the number of frames for the clock, 64 for the interrupt queue.  The loops
    that wait for hardware ([putc_poll], [rtc_get_time]) take the bound that the hardware
    promises.

    ** Not modelled

    - Assembly: [threads/start.S], [threads/loader.S], [threads/switch.S],
      [threads/intr-stubs.S].  A switch of threads is a change of the current thread.
    - The rest of [threads/init.c] calls the initialization routines in turn and parses the
      command line of the kernel; [userprog/tss.c] stores a stack pointer for the processor.
      The saving and restoring of registers around [intr_handler] is assembly.
    - [devices/ide.c], [devices/pit.c], [devices/speaker.c], [devices/shutdown.c] program
      hardware whose behaviour is not in the sources; a disk is the array of its bytes.
    - Interference between threads inside the file system and the virtual memory system: each
      operation is atomic.  The code relies on [file_lock] and other locks for this.
    - [sema_self_test], statistics, and the calibration of busy waiting in [devices/timer.c].
    - User programs and host utilities: [examples], [lib/user], [utils]. *)

From stdpp Require Export base tactics option list list_numbers numbers gmap sorting.
From Stdlib Require Export ZArith Lia.

#[export] Set Default Goal Selector "!".
Global Open Scope Z_scope.

(** ** Outcomes

    A kernel operation ends in one of three ways: it returns, it stops the
    kernel (a failed [ASSERT], a [PANIC], a [NOT_REACHED] or an access to memory
    that is not there), or the bound that the model puts on a loop is too small.
    The last outcome belongs to the model, not to the code: for each loop
    modelled with a bound there is a theorem that it does not occur. *)

Inductive res (A : Type) : Type :=
  | Ok (x : A)
  | Panic
  | Fuel.
Arguments Ok {A} x.
Arguments Panic {A}.
Arguments Fuel {A}.

#[export] Instance res_ret : MRet res := λ A x, Ok x.
#[export] Instance res_bind : MBind res := λ A B k m,
  match m with Ok x => k x | Panic => Panic | Fuel => Fuel end.
#[export] Instance res_fmap : FMap res := λ A B f m,
  match m with Ok x => Ok (f x) | Panic => Panic | Fuel => Fuel end.

Declare Scope kernel_scope.
Delimit Scope kernel_scope with kernel.
Global Open Scope kernel_scope.

(** [ASSERT (b);] followed by the rest of the function. *)
Notation "'ASSERT' b ';;' k" := (if b%Z then k else Panic)
  (at level 100, b at level 99, k at level 200, right associativity,
   format "'[v' 'ASSERT'  b  ';;' '/' k ']'") : kernel_scope.

(** Reading a location that may be absent. *)
Definition from_opt {A} (o : option A) : res A :=
  match o with Some x => Ok x | None => Panic end.

Definition is_ok {A} (r : res A) : bool :=
  match r with Ok _ => true | _ => false end.

Lemma bind_ret {A B} (x : A) (k : A → res B) : (Ok x ≫= k) = k x.
Proof. done. Qed.
Lemma bind_Ok {A B} (m : res A) (k : A → res B) (y : B) :
  m ≫= k = Ok y ↔ ∃ x, m = Ok x ∧ k x = Ok y.
Proof. destruct m; simpl; [naive_solver|split; [done|by intros (?&?&?)]..]. Qed.

Lemma from_opt_Ok {A} (o : option A) x : from_opt o = Ok x ↔ o = Some x.
Proof. destruct o; naive_solver. Qed.

(** ** Machine integers

    [size_t], [unsigned], [uint32_t] and pointers are 32 bits wide on the
    target, [int] and [off_t] are 32-bit two's complement. *)

Definition u8 (z : Z) : Z := z mod 2 ^ 8.
Definition u16 (z : Z) : Z := z mod 2 ^ 16.
Definition u32 (z : Z) : Z := z mod 2 ^ 32.
Definition u64 (z : Z) : Z := z mod 2 ^ 64.
Definition s32 (z : Z) : Z := (z + 2 ^ 31) mod 2 ^ 32 - 2 ^ 31.
Definition s64 (z : Z) : Z := (z + 2 ^ 63) mod 2 ^ 64 - 2 ^ 63.

Lemma u8_small z : 0 ≤ z < 2 ^ 8 → u8 z = z.
Proof. apply Z.mod_small. Qed.
Lemma u32_small z : 0 ≤ z < 2 ^ 32 → u32 z = z.
Proof. apply Z.mod_small. Qed.
Lemma u64_small z : 0 ≤ z < 2 ^ 64 → u64 z = z.
Proof. apply Z.mod_small. Qed.
Lemma u8_range z : 0 ≤ u8 z < 2 ^ 8.
Proof. apply Z.mod_pos_bound. lia. Qed.
Lemma u32_range z : 0 ≤ u32 z < 2 ^ 32.
Proof. apply Z.mod_pos_bound. lia. Qed.
Lemma u64_range z : 0 ≤ u64 z < 2 ^ 64.
Proof. apply Z.mod_pos_bound. lia. Qed.
Lemma s32_small z : - 2 ^ 31 ≤ z < 2 ^ 31 → s32 z = z.
Proof. intros. unfold s32. rewrite Z.mod_small; lia. Qed.
Lemma s32_range z : - 2 ^ 31 ≤ s32 z < 2 ^ 31.
Proof.
  unfold s32. pose proof (Z.mod_pos_bound (z + 2 ^ 31) (2 ^ 32)). lia.
Qed.
Lemma s64_small z : - 2 ^ 63 ≤ z < 2 ^ 63 → s64 z = z.
Proof. intros. unfold s64. rewrite Z.mod_small; lia. Qed.

(** The value when [k] multiples of the modulus have to be added. *)
Lemma u32_wrap k z : 0 ≤ z + k * 2 ^ 32 < 2 ^ 32 → u32 z = z + k * 2 ^ 32.
Proof. intros. unfold u32. by rewrite <- (Z.mod_small (z + k * 2 ^ 32) (2 ^ 32)), Z.mod_add. Qed.
Lemma u64_wrap k z : 0 ≤ z + k * 2 ^ 64 < 2 ^ 64 → u64 z = z + k * 2 ^ 64.
Proof. intros. unfold u64. by rewrite <- (Z.mod_small (z + k * 2 ^ 64) (2 ^ 64)), Z.mod_add. Qed.
Lemma s32_wrap k z : - 2 ^ 31 ≤ z + k * 2 ^ 32 < 2 ^ 31 → s32 z = z + k * 2 ^ 32.
Proof.
  intros. unfold s32. rewrite <- (Z.mod_add _ k) by lia. rewrite Z.mod_small; lia.
Qed.

Lemma u8_add x y : u8 (u8 x + y) = u8 (x + y).
Proof. apply Zplus_mod_idemp_l. Qed.
Lemma u32_add x y : u32 (u32 x + y) = u32 (x + y).
Proof. apply Zplus_mod_idemp_l. Qed.
Lemma u16_small z : 0 ≤ z < 2 ^ 16 → u16 z = z.
Proof. apply Z.mod_small. Qed.
Lemma u16_range z : 0 ≤ u16 z < 2 ^ 16.
Proof. apply Z.mod_pos_bound. lia. Qed.

#[global] Opaque u8 u16 u32 u64 s32 s64.

Create Rewrite HintDb machine.
#[export] Hint Rewrite u8_small u32_small u64_small s32_small s64_small
  using lia : machine.
Ltac machine := autorewrite with machine.

(** ** Automation *)

(** Opens the binds, assertions and option reads of a hypothesis about an
    outcome, one step at a time. *)
Ltac res_step :=
  match goal with
  | H : Ok _ = Ok _ |- _ => injection H as H; subst
  | H : Ok _ = Panic |- _ => discriminate H
  | H : Panic = Ok _ |- _ => discriminate H
  | H : Fuel = Ok _ |- _ => discriminate H
  | H : _ ≫= _ = Ok _ |- _ => apply bind_Ok in H as (? & ? & ?)
  | H : from_opt _ = Ok _ |- _ => apply from_opt_Ok in H
  | H : mret _ = Ok _ |- _ => unfold mret, res_ret in H
  | H : (if ?b then _ else Panic) = Ok _ |- _ =>
      let E := fresh "E" in destruct b eqn:E; [| discriminate H]
  end.
Ltac res_inv := repeat (res_step; simpl in * ); simplify_eq/=.

(** Turns boolean tests on integers into propositions. *)
Ltac zbool :=
  repeat match goal with
  | H : _ && _ = true |- _ => apply andb_true_iff in H as [? ?]
  | H : _ || _ = false |- _ => apply orb_false_iff in H as [? ?]
  | H : negb _ = true |- _ => apply negb_true_iff in H
  | H : negb _ = false |- _ => apply negb_false_iff in H
  | H : (_ <? _) = true |- _ => apply Z.ltb_lt in H
  | H : (_ <? _) = false |- _ => apply Z.ltb_ge in H
  | H : (_ <=? _) = true |- _ => apply Z.leb_le in H
  | H : (_ <=? _) = false |- _ => apply Z.leb_gt in H
  | H : (_ =? _) = true |- _ => apply Z.eqb_eq in H
  | H : (_ =? _) = false |- _ => apply Z.eqb_neq in H
  end.

(** Case analysis on the outermost boolean test of the goal. *)
Ltac zcase :=
  match goal with
  | |- context [if ?b then _ else _] =>
      let E := fresh "E" in destruct b eqn:E; zbool
  end.

(** ** Bits *)

Lemma testbit_above n w k : 0 ≤ w < 2 ^ n → 0 ≤ n ≤ k → Z.testbit w k = false.
Proof. intros. rewrite <- (Z.mod_small w (2 ^ n)), Z.mod_pow2_bits_high by lia. done. Qed.

Lemma bits_range n w : 0 ≤ n → (∀ k, n ≤ k → Z.testbit w k = false) → 0 ≤ w < 2 ^ n.
Proof.
  intros Hn Hk. assert (E : w = w mod 2 ^ n).
  { apply Z.bits_inj'. intros k H0. destruct (Z.ltb_spec k n).
    - by rewrite Z.mod_pow2_bits_low by lia.
    - by rewrite Z.mod_pow2_bits_high, Hk by lia. }
  rewrite E. apply Z.mod_pos_bound. lia.
Qed.

Lemma lxor_range n a b : 0 ≤ n → 0 ≤ a < 2 ^ n → 0 ≤ b < 2 ^ n → 0 ≤ Z.lxor a b < 2 ^ n.
Proof.
  intros Hn Ha Hb. apply bits_range; [done|]. intros k Hk.
  by rewrite Z.lxor_spec, !(testbit_above n) by lia.
Qed.
Lemma lor_range n a b : 0 ≤ n → 0 ≤ a < 2 ^ n → 0 ≤ b < 2 ^ n → 0 ≤ Z.lor a b < 2 ^ n.
Proof.
  intros Hn Ha Hb. apply bits_range; [done|]. intros k Hk.
  by rewrite Z.lor_spec, !(testbit_above n) by lia.
Qed.
Lemma land_range n a b : 0 ≤ n → 0 ≤ a < 2 ^ n → 0 ≤ Z.land a b < 2 ^ n.
Proof.
  intros Hn Ha. apply bits_range; [done|]. intros k Hk.
  by rewrite Z.land_spec, (testbit_above n) by lia.
Qed.

(** ** Shared lemmas on lists *)

Section lists.
Context {A : Type}.
Implicit Types (l k : list A) (x y : A).

Lemma NoDup_middle l k x :
  NoDup (l ++ x :: k) ↔ (x ∉ l) ∧ (x ∉ k) ∧ NoDup (l ++ k).
Proof. rewrite <- Permutation_middle, NoDup_cons, elem_of_app. naive_solver. Qed.

Lemma lookup_middle_Z l k x (i : Z) :
  i = Z.of_nat (length l) → (l ++ x :: k) !! Z.to_nat i = Some x.
Proof. intros ->. rewrite Nat2Z.id. apply list_lookup_middle. done. Qed.

Lemma elem_of_concat (ls : list (list A)) x : x ∈ concat ls ↔ ∃ l, x ∈ l ∧ l ∈ ls.
Proof.
  induction ls as [|l ls IH]; simpl.
  - split; [by intros ?%not_elem_of_nil|by intros (l & _ & ?%not_elem_of_nil)].
  - rewrite elem_of_app, IH. split.
    + intros [?|(k & ? & ?)]; [exists l|exists k]; by rewrite elem_of_cons; auto.
    + intros (k & ? & [->|?]%elem_of_cons); eauto.
Qed.

Lemma filter_Forall (P : A → Prop) `{!∀ x, Decision (P x)} l : Forall P l → filter P l = l.
Proof. induction 1 as [|x l Hx _ IH]; [done|]. by rewrite filter_cons_True, IH. Qed.

Lemma filter_none (P : A → Prop) `{!∀ x, Decision (P x)} l :
  Forall (λ x, ¬ P x) l → filter P l = [].
Proof. induction 1 as [|x l Hx _ IH]; [done|]. by rewrite filter_cons_False. Qed.

Lemma concat_filter_fmap (P : A → Prop) `{!∀ x, Decision (P x)} (ls : list (list A)) :
  concat (filter P <$> ls) = filter P (concat ls).
Proof. induction ls as [|l ls IH]; csimpl; [done|]. by rewrite filter_app, IH. Qed.

Lemma concat_replicate_nil n : concat (replicate n []) = @nil A.
Proof. by induction n. Qed.

End lists.

(** ** Ranges of arrays

    [slice i n l] is the range of [n] elements of array [l] from index [i] on, and
    [splice i xs l] is [l] with [xs] stored there. *)

Notation Zlength l := (Z.of_nat (length l)).

Section ranges.
Context {A : Type}.
Implicit Types (l xs : list A) (i j n : Z).

Definition slice i n l : list A := take (Z.to_nat n) (drop (Z.to_nat i) l).
Definition splice i xs l : list A :=
  take (Z.to_nat i) l ++ xs ++ drop (Z.to_nat i + length xs) l.

Lemma length_slice i n l : 0 ≤ i → 0 ≤ n → i + n ≤ Zlength l → Zlength (slice i n l) = n.
Proof. intros. unfold slice. rewrite length_take, length_drop. lia. Qed.

Lemma length_splice i xs l :
  0 ≤ i → i + Zlength xs ≤ Zlength l → length (splice i xs l) = length l.
Proof. intros. unfold splice. rewrite !length_app, length_take, length_drop. lia. Qed.

Lemma lookup_slice i n l (k : nat) :
  0 ≤ i → slice i n l !! k = if decide (Z.of_nat k < n) then l !! Z.to_nat (i + Z.of_nat k) else None.
Proof.
  intros. unfold slice. destruct (decide _).
  - rewrite lookup_take_lt, lookup_drop by lia. f_equal. lia.
  - by rewrite lookup_take_ge by lia.
Qed.

Lemma lookup_splice i xs l (k : nat) :
  0 ≤ i → i + Zlength xs ≤ Zlength l →
  splice i xs l !! k = if decide (i ≤ Z.of_nat k < i + Zlength xs) then xs !! Z.to_nat (Z.of_nat k - i)
                       else l !! k.
Proof.
  intros. unfold splice. assert (Hl : length (take (Z.to_nat i) l) = Z.to_nat i).
  { rewrite length_take. lia. }
  destruct (decide _).
  - rewrite lookup_app_r by lia. rewrite Hl, lookup_app_l by lia. f_equal. lia.
  - destruct (decide (Z.of_nat k < i)).
    + rewrite lookup_app_l, lookup_take_lt by lia. done.
    + rewrite !lookup_app_r by lia. rewrite Hl, lookup_drop. f_equal. lia.
Qed.

Lemma slice_all n l : n = Zlength l → slice 0 n l = l.
Proof. intros ->. unfold slice. simpl. rewrite drop_0, Nat2Z.id. by apply take_ge. Qed.

Lemma slice_slice i n j m l : 0 ≤ i → 0 ≤ j → j + m ≤ n → slice j m (slice i n l) = slice (i + j) m l.
Proof.
  intros. apply list_eq. intros k. rewrite !lookup_slice by lia.
  destruct (decide (Z.of_nat k < m)); [|done]. rewrite decide_True by lia. f_equal. lia.
Qed.

Lemma slice_app i n m l : 0 ≤ i → 0 ≤ n → 0 ≤ m → slice i n l ++ slice (i + n) m l = slice i (n + m) l.
Proof.
  intros. unfold slice.
  replace (Z.to_nat (n + m)) with (Z.to_nat n + Z.to_nat m)%nat by lia.
  rewrite <- take_take_drop, drop_drop. f_equal. f_equal. f_equal. lia.
Qed.

Lemma slice_splice_same i xs l :
  0 ≤ i → i + Zlength xs ≤ Zlength l → slice i (Zlength xs) (splice i xs l) = xs.
Proof.
  intros. apply list_eq. intros k. rewrite lookup_slice by lia. destruct (decide _).
  - rewrite lookup_splice, decide_True by lia. f_equal. lia.
  - by rewrite lookup_ge_None_2 by lia.
Qed.

Lemma slice_splice_eq i n xs l :
  n = Zlength xs → 0 ≤ i → i + n ≤ Zlength l → slice i n (splice i xs l) = xs.
Proof. intros -> ??. by apply slice_splice_same. Qed.

Lemma slice_splice_other i n j xs l :
  0 ≤ i → 0 ≤ j → j + Zlength xs ≤ Zlength l → i + n ≤ j ∨ j + Zlength xs ≤ i →
  slice i n (splice j xs l) = slice i n l.
Proof.
  intros. apply list_eq. intros k. rewrite !lookup_slice by lia.
  destruct (decide _); [|done]. rewrite lookup_splice, decide_False by lia. done.
Qed.

(** A range that contains the one stored to. *)
Lemma slice_splice_inside i n j xs l :
  0 ≤ i ≤ j → j + Zlength xs ≤ i + n → i + n ≤ Zlength l →
  slice i n (splice j xs l) = splice (j - i) xs (slice i n l).
Proof.
  intros. assert (Zlength (slice i n l) = n) by (apply length_slice; lia).
  apply list_eq. intros k. rewrite lookup_slice, (lookup_splice (j - i)) by lia.
  destruct (decide (Z.of_nat k < n)).
  - rewrite lookup_splice by lia. destruct (decide (j ≤ _ < _)).
    + rewrite decide_True by lia. f_equal. lia.
    + rewrite decide_False, lookup_slice, decide_True by lia. done.
  - rewrite decide_False by lia. symmetry. apply lookup_ge_None_2. lia.
Qed.

Lemma splice_splice_inside i xs j ys l :
  0 ≤ i → 0 ≤ j → i + Zlength xs ≤ Zlength l → j + Zlength ys ≤ Zlength xs →
  splice i (splice j ys xs) l = splice (i + j) ys (splice i xs l).
Proof.
  intros. assert (length (splice j ys xs) = length xs) by (apply length_splice; lia).
  assert (length (splice i xs l) = length l) by (apply length_splice; lia).
  apply list_eq. intros k. rewrite !lookup_splice by lia.
  destruct (decide (i ≤ _ < i + Zlength (splice j ys xs))).
  - destruct (decide (j ≤ _ < _)).
    + rewrite decide_True by lia. f_equal. lia.
    + rewrite decide_False, decide_True by lia. done.
  - rewrite !decide_False by lia. done.
Qed.

(** Storing back what is there changes nothing. *)
Lemma splice_slice i n l : 0 ≤ i → 0 ≤ n → i + n ≤ Zlength l → splice i (slice i n l) l = l.
Proof.
  intros. assert (Zlength (slice i n l) = n) by (apply length_slice; lia).
  apply list_eq. intros k. rewrite lookup_splice by lia. destruct (decide _); [|done].
  rewrite lookup_slice, decide_True by lia. f_equal. lia.
Qed.

Lemma splice_app i xs ys l :
  0 ≤ i → i + Zlength xs + Zlength ys ≤ Zlength l →
  splice (i + Zlength xs) ys (splice i xs l) = splice i (xs ++ ys) l.
Proof.
  intros. assert (length (splice i xs l) = length l) by (apply length_splice; lia).
  apply list_eq. intros k. rewrite !lookup_splice by (rewrite ?length_app; lia). rewrite length_app.
  destruct (decide (i + Zlength xs ≤ _ < _)).
  - rewrite decide_True by lia. rewrite lookup_app_r by lia. f_equal. lia.
  - destruct (decide (i ≤ _ < i + Zlength xs)).
    + rewrite decide_True by lia. by rewrite lookup_app_l by lia.
    + by rewrite decide_False by lia.
Qed.

Lemma splice_nil i l : splice i [] l = l.
Proof. unfold splice. simpl. rewrite Nat.add_0_r. apply take_drop. Qed.

Lemma splice_comm i xs j ys l :
  0 ≤ i → 0 ≤ j → i + Zlength xs ≤ Zlength l → j + Zlength ys ≤ Zlength l →
  i + Zlength xs ≤ j ∨ j + Zlength ys ≤ i →
  splice i xs (splice j ys l) = splice j ys (splice i xs l).
Proof.
  intros. assert (length (splice i xs l) = length l) by (apply length_splice; lia).
  assert (length (splice j ys l) = length l) by (apply length_splice; lia).
  apply list_eq. intros k. rewrite !lookup_splice by lia.
  destruct (decide (i ≤ _ < _)); [by rewrite decide_False by lia|done].
Qed.

End ranges.
