(* ===== verification/ListSeq.v ===== *)
(** * Sequence-level meaning of the list routines

    The ordered-list routines of [lib/kernel/list.c] ([list_insert_ordered],
    [find_end_of_run], [inplace_merge], [list_sort], [list_unique], [list_max],
    [list_min]) as functions on Rocq lists.  [ListPtr] shows that the pointer
    code computes these functions; the components above the list library
    (scheduler, semaphores, frame table) are modelled with them. *)

From S2P Require Import Prelude.

(** What a comparison function must satisfy: [list_less_func] is documented as
    "A is less than B", so a strict weak order. *)
Class StrictWeak {A} (less : A → A → bool) : Prop := {
  less_asym a b : less a b = true → less b a = false;
  less_negtrans a b c : less b a = false → less c b = false → less c a = false
}.

Lemma less_irrefl {A} (less : A → A → bool) `{!StrictWeak less} a : less a a = false.
Proof. destruct (less a a) eqn:E; [|done]. by rewrite (less_asym a a E) in E. Qed.

#[export] Instance ltb_strict_weak : StrictWeak Z.ltb.
Proof. split; intros *; rewrite ?Z.ltb_lt, ?Z.ltb_ge; lia. Qed.

Section seq.
Context {A : Type} (less : A → A → bool).
Implicit Types (x y : A) (l k : list A).

(** [x] may stand before [y]. *)
Definition le_of x y : Prop := less y x = false.
Definition sorted l : Prop := StronglySorted le_of l.

#[export] Instance le_of_dec x y : Decision (le_of x y).
Proof. unfold le_of. apply _. Defined.

(** [list_insert_ordered]: before the first element that the new one is less
    than, or at the end. *)
Fixpoint insert_ordered x l : list A :=
  match l with
  | [] => [x]
  | y :: l' => if less x y then x :: y :: l' else y :: insert_ordered x l'
  end.

(** [find_end_of_run]: the rest of the run that [x] starts, and what follows. *)
Fixpoint run_from x l : list A * list A :=
  match l with
  | [] => ([], [])
  | y :: l' =>
      if less y x then ([], l)
      else let '(r, rest) := run_from y l' in (y :: r, rest)
  end.

(** [inplace_merge]. *)
Fixpoint merge l : list A → list A :=
  match l with
  | [] => λ k, k
  | a :: l' =>
      fix merge_aux k :=
        match k with
        | [] => a :: l'
        | b :: k' =>
            if negb (less b a) then a :: merge l' k else b :: merge_aux k'
        end
  end.

(** One pass of [list_sort] over the list: the list it leaves and the number of
    runs it outputs. *)
Fixpoint sort_pass (fuel : nat) l : list A * nat :=
  match fuel, l with
  | S n, a :: l' =>
      let '(r1, rest) := run_from a l' in
      match rest with
      | [] => (a :: r1, 1%nat)
      | b :: rest' =>
          let '(r2, rest2) := run_from b rest' in
          let '(out, cnt) := sort_pass n rest2 in
          (merge (a :: r1) (b :: r2) ++ out, S cnt)
      end
  | _, _ => ([], 0%nat)
  end.

(** [list_sort]: passes until at most one run is output. *)
Fixpoint sort_passes (fuel : nat) l : list A :=
  match fuel with
  | O => l
  | S n =>
      let '(out, cnt) := sort_pass (length l) l in
      if (1 <? cnt)%nat then sort_passes n out else out
  end.

Definition list_sort_seq l : list A := sort_passes (S (length l)) l.

(** [list_unique]: the elements kept, and the elements removed in order. *)
Fixpoint unique_from x l : list A * list A :=
  match l with
  | [] => ([x], [])
  | y :: l' =>
      if negb (less x y) && negb (less y x)
      then let '(ks, ds) := unique_from x l' in (ks, y :: ds)
      else let '(ks, ds) := unique_from y l' in (x :: ks, ds)
  end.

(** [list_max] and [list_min] on a nonempty list. *)
Definition max_from x l : A := foldl (λ m e, if less m e then e else m) x l.
Definition min_from x l : A := foldl (λ m e, if less e m then e else m) x l.

(** ** Facts that need no hypothesis on the comparison *)

Lemma insert_ordered_perm x l : insert_ordered x l ≡ₚ x :: l.
Proof.
  induction l as [|y l IH]; simpl; [done|].
  destruct (less x y); [done|]. rewrite IH. apply Permutation_swap.
Qed.

Lemma insert_ordered_length x l : length (insert_ordered x l) = S (length l).
Proof. by rewrite insert_ordered_perm. Qed.

Lemma elem_of_insert_ordered x y l : y ∈ insert_ordered x l ↔ y = x ∨ y ∈ l.
Proof. by rewrite insert_ordered_perm, elem_of_cons. Qed.

(** The position that [list_insert_ordered] finds. *)
Lemma insert_ordered_split x l :
  ∃ l1 l2, l = l1 ++ l2 ∧ insert_ordered x l = l1 ++ x :: l2
    ∧ Forall (λ y, less x y = false) l1
    ∧ match l2 with [] => True | y :: _ => less x y = true end.
Proof.
  induction l as [|y l (l1 & l2 & -> & E & Hf & Hh)]; simpl.
  - by exists [], [].
  - destruct (less x y) eqn:Exy; [by exists [], (y :: l1 ++ l2)|].
    exists (y :: l1), l2. rewrite E. split_and!; auto.
Qed.

Lemma run_from_app x l : let '(r, rest) := run_from x l in l = r ++ rest.
Proof.
  revert x; induction l as [|y l IH]; intros x; simpl; [done|].
  destruct (less y x); [done|]. specialize (IH y).
  destruct (run_from y l). by subst.
Qed.

(** A run stops only at the end or at a descent. *)
Lemma run_from_stop x l r rest :
  run_from x l = (r, rest) →
  match rest with [] => True | y :: _ => less y (default x (last r)) = true end.
Proof.
  revert x r; induction l as [|y l IH]; intros x r; simpl; [by intros [= <- <-]|].
  destruct (less y x) eqn:E; [by intros [= <- <-]|].
  destruct (run_from y l) as [r' rest'] eqn:Er. intros [= <- <-].
  specialize (IH y r' Er). destruct rest' as [|z rest']; [done|].
  rewrite last_cons. by destruct (last r').
Qed.

Lemma merge_nil_r l : merge l [] = l.
Proof. by destruct l. Qed.

Lemma merge_cons a l b k :
  merge (a :: l) (b :: k) =
    if negb (less b a) then a :: merge l (b :: k) else b :: merge (a :: l) k.
Proof. done. Qed.

#[local] Arguments merge : simpl never.

Lemma merge_perm l k : merge l k ≡ₚ l ++ k.
Proof.
  revert k; induction l as [|a l IHl]; intros k; [done|].
  induction k as [|b k IHk]; [by rewrite merge_nil_r, app_nil_r|].
  rewrite merge_cons. destruct (negb (less b a)).
  - by rewrite IHl.
  - rewrite IHk.
    by rewrite <- (Permutation_middle (a :: l) k b).
Qed.

Lemma sort_pass_perm n l :
  (length l ≤ n)%nat → (sort_pass n l).1 ≡ₚ l.
Proof.
  revert l; induction n as [|n IH]; intros [|a l] Hn; simpl in *; try done; try lia.
  pose proof (run_from_app a l) as H1. destruct (run_from a l) as [r1 rest].
  destruct rest as [|b rest]; simpl; [by rewrite H1, app_nil_r|].
  pose proof (run_from_app b rest) as H2. destruct (run_from b rest) as [r2 rest2].
  specialize (IH rest2). destruct (sort_pass n rest2) as [out cnt]; simpl in *.
  rewrite IH by (subst; rewrite !length_app in *; simpl in *;
    rewrite length_app in *; lia).
  rewrite (merge_perm (a :: r1) (b :: r2)). subst.
  simpl. by rewrite <- app_assoc.
Qed.

Lemma sort_passes_perm n l : sort_passes n l ≡ₚ l.
Proof.
  revert l; induction n as [|n IH]; intros l; [done|]. simpl.
  pose proof (sort_pass_perm (length l) l ltac:(lia)) as H.
  destruct (sort_pass (length l) l) as [out cnt]; simpl in *.
  destruct (1 <? cnt)%nat; [|done]. by rewrite IH.
Qed.

Lemma list_sort_perm l : list_sort_seq l ≡ₚ l.
Proof. apply sort_passes_perm. Qed.

(** ** Facts that need a strict weak order *)

Context `{!StrictWeak less}.

#[export] Instance le_of_trans : Transitive le_of.
Proof. intros x y z. unfold le_of. apply less_negtrans. Qed.

#[export] Instance le_of_total : Total le_of.
Proof.
  intros x y. unfold le_of. destruct (less y x) eqn:E; [right|by left].
  by apply less_asym.
Qed.

Lemma le_of_refl x : le_of x x.
Proof. by destruct (total le_of x x). Qed.

Lemma less_le_of x y : less x y = true → le_of x y.
Proof. apply less_asym. Qed.

Lemma sorted_cons_inv x l : sorted (x :: l) → sorted l ∧ Forall (le_of x) l.
Proof. by inversion 1. Qed.

(** The order of a list follows from that of its neighbours. *)
Lemma sorted_cons_cons x y l :
  le_of x y → sorted (y :: l) → sorted (x :: y :: l).
Proof.
  intros Hxy [Hs Hf]%sorted_cons_inv. constructor; [by constructor|].
  constructor; [done|]. eapply Forall_impl; [exact Hf|].
  intros z Hz. by transitivity y.
Qed.

Lemma insert_ordered_sorted x l : sorted l → sorted (insert_ordered x l).
Proof.
  induction l as [|y l IH]; intros Hs; simpl.
  { by repeat constructor. }
  destruct (less x y) eqn:E.
  - apply sorted_cons_cons; [by apply less_le_of|done].
  - apply sorted_cons_inv in Hs as [Hs Hf]. constructor; [by apply IH|].
    rewrite insert_ordered_perm. by constructor.
Qed.

Lemma run_from_sorted x l r rest : run_from x l = (r, rest) → sorted (x :: r).
Proof.
  revert x r; induction l as [|y l IH]; intros x r; simpl.
  { intros [= <- <-]. by repeat constructor. }
  destruct (less y x) eqn:E; [intros [= <- <-]; by repeat constructor|].
  destruct (run_from y l) as [r' rest'] eqn:Er. intros [= <- <-].
  apply sorted_cons_cons; [done|]. by apply (IH y r').
Qed.

Lemma merge_sorted l k : sorted l → sorted k → sorted (merge l k).
Proof.
  revert k; induction l as [|a l IHl]; intros k Hl Hk; [done|].
  induction k as [|b k IHk]; [by rewrite merge_nil_r|].
  pose proof (sorted_cons_inv _ _ Hl) as [Hl' Ha].
  pose proof (sorted_cons_inv _ _ Hk) as [Hk' Hb].
  rewrite merge_cons. destruct (less b a) eqn:E; cbn [negb].
  - constructor; [by apply IHk|]. rewrite merge_perm, Forall_app. split; [|done].
    constructor; [by apply less_le_of|]. eapply Forall_impl; [exact Ha|].
    intros z Hz. transitivity a; [by apply less_le_of|done].
  - constructor; [by apply IHl|]. rewrite merge_perm, Forall_app. split; [done|].
    constructor; [done|]. eapply Forall_impl; [exact Hb|].
    intros z Hz. by transitivity b.
Qed.

(** The number of runs of a list. *)
Fixpoint descents x l : nat :=
  match l with
  | [] => 0%nat
  | y :: l' => ((if less y x then 1 else 0) + descents y l')%nat
  end.
Definition runs l : nat := match l with [] => 0%nat | x :: l' => S (descents x l') end.

Lemma descents_le x l : (descents x l ≤ length l)%nat.
Proof. revert x; induction l as [|y l IH]; intros x; simpl; [lia|].
  specialize (IH y). destruct (less y x); lia. Qed.

Lemma runs_le l : (runs l ≤ length l)%nat.
Proof. destruct l; simpl; [lia|]. pose proof (descents_le a l). lia. Qed.

Lemma descents_app x l k :
  (descents x (l ++ k) ≤ descents x l + runs k)%nat.
Proof.
  revert x; induction l as [|y l IH]; intros x; simpl.
  - destruct k as [|z k]; simpl; [lia|]. destruct (less z x); lia.
  - specialize (IH y). lia.
Qed.

Lemma runs_app l k : (runs (l ++ k) ≤ runs l + runs k)%nat.
Proof. destruct l as [|x l]; simpl; [lia|]. pose proof (descents_app x l k). lia. Qed.

Lemma runs_sorted l : sorted l → (runs l ≤ 1)%nat.
Proof.
  destruct l as [|x l]; simpl; [lia|].
  revert x; induction l as [|y l IH]; intros x Hs; simpl; [lia|].
  apply sorted_cons_inv in Hs as [Hs Hf]. apply Forall_inv in Hf.
  unfold le_of in Hf. rewrite Hf. by apply IH.
Qed.

Lemma runs_run_from x l r rest :
  run_from x l = (r, rest) → runs (x :: l) = S (runs rest).
Proof.
  revert x r; induction l as [|y l IH]; intros x r; simpl; [by intros [= <- <-]|].
  destruct (less y x) eqn:E; [by intros [= <- <-]|].
  destruct (run_from y l) as [r' rest'] eqn:Er. intros [= <- <-].
  by rewrite <- (IH y r' Er).
Qed.

(** A pass halves the number of runs, rounding up, and leaves at most as many
    runs as it counts. *)
Lemma sort_pass_runs n l out cnt :
  (length l ≤ n)%nat → sort_pass n l = (out, cnt) →
  (2 * cnt ≤ runs l + 1)%nat ∧ (runs out ≤ cnt)%nat ∧
  (l ≠ [] → cnt ≠ 0%nat) ∧ ((cnt ≤ 1)%nat → sorted out).
Proof.
  revert l out cnt; induction n as [|n IH]; intros [|a l] out cnt Hn;
    [intros [= <- <-]; simpl; split_and!; [lia|lia|done|constructor]
    |simpl in Hn; lia
    |intros [= <- <-]; simpl; split_and!; [lia|lia|done|constructor]|].
  cbn [sort_pass length] in *. destruct (run_from a l) as [r1 rest] eqn:E1.
  pose proof (run_from_app a l) as A1. rewrite E1 in A1.
  pose proof (runs_run_from _ _ _ _ E1) as R1.
  pose proof (run_from_sorted _ _ _ _ E1) as S1.
  destruct rest as [|b rest].
  { intros [= <- <-]. rewrite R1. pose proof (runs_sorted _ S1). simpl in *.
    split_and!; [lia|lia|done|done]. }
  destruct (run_from b rest) as [r2 rest2] eqn:E2.
  pose proof (run_from_app b rest) as A2. rewrite E2 in A2.
  pose proof (runs_run_from _ _ _ _ E2) as R2.
  pose proof (run_from_sorted _ _ _ _ E2) as S2.
  destruct (sort_pass n rest2) as [out' cnt'] eqn:E3. intros [= <- <-].
  destruct (IH rest2 out' cnt') as (I1 & I2 & I3 & I4); [|done|].
  { subst. rewrite !length_app in Hn. simpl in Hn. rewrite length_app in Hn. lia. }
  pose proof (merge_sorted _ _ S1 S2) as SM.
  pose proof (runs_app (merge (a :: r1) (b :: r2)) out') as RM.
  pose proof (runs_sorted _ SM). rewrite R1, R2.
  split_and!; [lia|etrans; [exact RM|lia]|done|].
  intros Hc. destruct cnt'; [|lia].
  assert (rest2 = []) as -> by (destruct rest2; [done|]; by destruct I3).
  assert (out' = []) as -> by (destruct n; by simpl in E3; simplify_eq).
  rewrite app_nil_r. exact SM.
Qed.

Lemma sort_passes_sorted n l :
  (runs l ≤ n)%nat → sorted (sort_passes (S n) l).
Proof.
  revert l; induction n as [|n IH]; intros l Hn.
  { destruct l; [constructor|simpl in Hn; lia]. }
  cbn [sort_passes]. destruct (sort_pass (length l) l) as [out cnt] eqn:E.
  destruct (sort_pass_runs (length l) l out cnt) as (H1 & H2 & _ & H4); [lia|done|].
  destruct (Nat.ltb_spec 1 cnt); [|apply H4; lia]. apply IH. lia.
Qed.

(** The bounds on the loops do not matter once they are large enough. *)
Lemma sort_pass_fuel n m l :
  (length l ≤ n)%nat → (length l ≤ m)%nat → sort_pass n l = sort_pass m l.
Proof.
  revert m l; induction n as [|n IH]; intros m [|a l] Hn Hm; simpl in Hn;
    try lia; try by destruct m.
  destruct m as [|m]; simpl in Hm; [lia|]. cbn [sort_pass].
  pose proof (run_from_app a l) as A1. destruct (run_from a l) as [r1 [|b rest]]; [done|].
  pose proof (run_from_app b rest) as A2. destruct (run_from b rest) as [r2 rest2].
  rewrite (IH m rest2); [done|..]; subst; rewrite length_app in *; simpl in *;
    rewrite length_app in *; lia.
Qed.

Lemma sort_passes_fuel n m l :
  (runs l ≤ n)%nat → (runs l ≤ m)%nat → sort_passes (S n) l = sort_passes (S m) l.
Proof.
  revert m l; induction n as [|n IH]; intros m l Hn Hm.
  { destruct l; [by destruct m|simpl in Hn; lia]. }
  cbn [sort_passes]. destruct (sort_pass (length l) l) as [out cnt] eqn:E.
  destruct (sort_pass_runs (length l) l out cnt) as (H1 & H2 & _ & _); [lia|done|].
  destruct (Nat.ltb_spec 1 cnt); [|done].
  destruct m as [|m]; [lia|]. apply IH; lia.
Qed.

Lemma list_sort_sorted l : sorted (list_sort_seq l).
Proof. apply sort_passes_sorted, runs_le. Qed.

(** ** Stability *)

Definition eqv x y : Prop := less x y = false ∧ less y x = false.
#[export] Instance eqv_dec x y : Decision (eqv x y).
Proof. unfold eqv. apply _. Defined.

(** Nothing at or after [a] is equivalent to what is less than [a]. *)
Lemma eqv_sorted_none x b l :
  eqv x b → Forall (λ a, less b a = true) l → filter (eqv x) l = [].
Proof.
  intros [Hxb Hbx]. induction 1 as [|a l Ha _ IH]; [done|].
  rewrite filter_cons_False; [done|]. intros [Hxa Hax].
  assert (less b a = false); [|congruence].
  by apply (less_negtrans a x b).
Qed.

Lemma less_le_of_trans x y z : less x y = true → le_of y z → less x z = true.
Proof.
  intros Hxy Hyz. destruct (less x z) eqn:E; [done|].
  assert (less x y = false); [|congruence]. by apply (less_negtrans y z x).
Qed.

Lemma merge_stable x l k :
  sorted l → sorted k → filter (eqv x) (merge l k) = filter (eqv x) (l ++ k).
Proof.
  revert k; induction l as [|a l IHl]; intros k Hl Hk; [done|].
  induction k as [|b k IHk]; [by rewrite merge_nil_r, app_nil_r|].
  pose proof (sorted_cons_inv _ _ Hl) as [Hl' Ha].
  pose proof (sorted_cons_inv _ _ Hk) as [Hk' _].
  rewrite merge_cons. destruct (less b a) eqn:E; cbn [negb].
  - specialize (IHk Hk'). rewrite (filter_app _ (a :: l)).
    rewrite (filter_app _ (a :: l)) in IHk. destruct (decide (eqv x b)) as [Hb|Hb].
    + rewrite !(filter_cons_True _ b) by done. rewrite IHk.
      rewrite (eqv_sorted_none x b (a :: l) Hb); [done|].
      constructor; [done|]. eapply Forall_impl; [exact Ha|].
      intros z Hz. by eapply less_le_of_trans.
    + by rewrite !(filter_cons_False _ b) by done.
  - rewrite !filter_cons. rewrite IHl by done. done.
Qed.

Lemma sort_pass_stable x n l :
  (length l ≤ n)%nat → filter (eqv x) (sort_pass n l).1 = filter (eqv x) l.
Proof.
  revert l; induction n as [|n IH]; intros [|a l] Hn; simpl in Hn; try done; try lia.
  cbn [sort_pass]. destruct (run_from a l) as [r1 rest] eqn:E1.
  pose proof (run_from_app a l) as A1. rewrite E1 in A1.
  destruct rest as [|b rest]; [by rewrite A1, app_nil_r|].
  destruct (run_from b rest) as [r2 rest2] eqn:E2.
  pose proof (run_from_app b rest) as A2. rewrite E2 in A2.
  specialize (IH rest2). destruct (sort_pass n rest2) as [out cnt]; simpl in *.
  rewrite filter_app, merge_stable
    by eauto using run_from_sorted.
  rewrite IH by (subst; rewrite !length_app in Hn; simpl in Hn;
    rewrite length_app in Hn; lia).
  subst. rewrite <- filter_app. simpl. by rewrite <- app_assoc.
Qed.

Lemma list_sort_stable x l : filter (eqv x) (list_sort_seq l) = filter (eqv x) l.
Proof.
  unfold list_sort_seq. generalize (S (length l)). intros n.
  revert l; induction n as [|n IH]; intros l; [done|]. cbn [sort_passes].
  pose proof (sort_pass_stable x (length l) l ltac:(lia)) as H.
  destruct (sort_pass (length l) l) as [out cnt]; simpl in H.
  destruct (1 <? cnt)%nat; [by rewrite IH|done].
Qed.

(** A sorted list is left alone. *)
Lemma list_sort_id l : sorted l → list_sort_seq l = l.
Proof.
  intros Hs. unfold list_sort_seq. cbn [sort_passes].
  destruct l as [|a l]; [done|]. cbn [length sort_pass].
  assert (run_from a l = (l, [])) as ->; [|done].
  revert a Hs; induction l as [|y l IH]; intros a Hs; [done|]. simpl.
  apply sorted_cons_inv in Hs as [Hs Hf]. apply Forall_inv in Hf.
  unfold le_of in Hf. by rewrite Hf, IH.
Qed.

(** The front of a sorted list bounds the others; the front of
    [list_sort_seq l] is therefore a least element. *)
Lemma sorted_head_le x y l : sorted (x :: l) → y ∈ x :: l → le_of x y.
Proof.
  intros [_ Hf]%sorted_cons_inv [->|Hy]%elem_of_cons; [apply le_of_refl|].
  rewrite Forall_forall in Hf. auto.
Qed.

Lemma max_from_spec x l :
  max_from x l ∈ x :: l ∧ Forall (λ y, less (max_from x l) y = false) (x :: l).
Proof.
  unfold max_from. revert x; induction l as [|y l IH]; intros x; simpl.
  { split; [set_solver|]. constructor; [apply le_of_refl|done]. }
  destruct (less x y) eqn:E.
  - destruct (IH y) as [Hin Hf]. split; [set_solver|].
    constructor; [|done]. apply Forall_inv in Hf.
    by apply (less_negtrans x y); [apply less_asym|].
  - destruct (IH x) as [Hin Hf]. apply Forall_cons in Hf as [Hx Hf].
    split; [set_solver|]. constructor; [done|]. constructor; [|done].
    by apply (less_negtrans y x).
Qed.

Lemma min_from_spec x l :
  min_from x l ∈ x :: l ∧ Forall (λ y, less y (min_from x l) = false) (x :: l).
Proof.
  unfold min_from. revert x; induction l as [|y l IH]; intros x; simpl.
  { split; [set_solver|]. constructor; [apply le_of_refl|done]. }
  destruct (less y x) eqn:E.
  - destruct (IH y) as [Hin Hf]. split; [set_solver|].
    constructor; [|done]. apply Forall_inv in Hf.
    apply (less_negtrans _ y); [done|by apply less_asym].
  - destruct (IH x) as [Hin Hf]. apply Forall_cons in Hf as [Hx Hf].
    split; [set_solver|]. constructor; [done|]. constructor; [|done].
    by apply (less_negtrans _ x).
Qed.

End seq.

Arguments sorted {_} less l.
Arguments le_of {_} less x y.
