(* ===== verification/ListPtr.v ===== *)
(** * The doubly linked list library, [lib/kernel/list.c], on a heap of links

    List elements are addresses of [struct list_elem]s in a heap; every routine
    reads and writes [prev] and [next] links in the order the C code does, and
    panics where an [ASSERT] fails or a link leads nowhere.  [is_list h L xs]
    says that the links represent the sequence [xs]; the theorems say which
    sequence each routine leaves behind, and that no other link changes. *)

From S2P Require Import Prelude ListSeq.

Abbreviation ptr := Z (only parsing).
Definition NULL : ptr := 0.

(** [struct list_elem]. *)
Record list_elem := Elem { prev : ptr; next : ptr }.

(** [struct list] holds its two header elements; the model keeps their
    addresses, [&list->head] and [&list->tail]. *)
Record klist := KList { head_of : ptr; tail_of : ptr }.

Abbreviation heap := (gmap Z list_elem).

Definition load (h : heap) (p : ptr) : res list_elem := from_opt (h !! p).
Definition set_prev (h : heap) (p q : ptr) : res heap :=
  e ← load h p; Ok (<[p := Elem q (next e)]> h).
Definition set_next (h : heap) (p q : ptr) : res heap :=
  e ← load h p; Ok (<[p := Elem (prev e) q]> h).

Definition is_head (h : heap) (elem : ptr) : bool :=
  match h !! elem with
  | Some e => negb (elem =? NULL) && (prev e =? NULL) && negb (next e =? NULL)
  | None => false
  end.
Definition is_interior (h : heap) (elem : ptr) : bool :=
  match h !! elem with
  | Some e => negb (elem =? NULL) && negb (prev e =? NULL) && negb (next e =? NULL)
  | None => false
  end.
Definition is_tail (h : heap) (elem : ptr) : bool :=
  match h !! elem with
  | Some e => negb (elem =? NULL) && negb (prev e =? NULL) && (next e =? NULL)
  | None => false
  end.

Definition list_init (h : heap) (L : klist) : res heap :=
  h ← set_prev h (head_of L) NULL;
  h ← set_next h (head_of L) (tail_of L);
  h ← set_prev h (tail_of L) (head_of L);
  set_next h (tail_of L) NULL.

Definition list_begin (h : heap) (L : klist) : res ptr :=
  e ← load h (head_of L); Ok (next e).
Definition list_next (h : heap) (elem : ptr) : res ptr :=
  ASSERT is_head h elem || is_interior h elem;;
  e ← load h elem; Ok (next e).
Definition list_end (L : klist) : ptr := tail_of L.
Definition list_rbegin (h : heap) (L : klist) : res ptr :=
  e ← load h (tail_of L); Ok (prev e).
Definition list_prev (h : heap) (elem : ptr) : res ptr :=
  ASSERT is_interior h elem || is_tail h elem;;
  e ← load h elem; Ok (prev e).
Definition list_rend (L : klist) : ptr := head_of L.
Definition list_head (L : klist) : ptr := head_of L.
Definition list_tail (L : klist) : ptr := tail_of L.

Definition list_insert (h : heap) (before elem : ptr) : res heap :=
  ASSERT is_interior h before || is_tail h before;;
  ASSERT negb (elem =? NULL);;
  b ← load h before;
  h ← set_prev h elem (prev b);
  h ← set_next h elem before;
  b ← load h before;
  h ← set_next h (prev b) elem;
  set_prev h before elem.

Definition list_splice (h : heap) (before first last : ptr) : res heap :=
  ASSERT is_interior h before || is_tail h before;;
  if first =? last then Ok h else
  last ← list_prev h last;
  ASSERT is_interior h first;;
  ASSERT is_interior h last;;
  f ← load h first; l ← load h last;
  h ← set_next h (prev f) (next l);
  l ← load h last; f ← load h first;
  h ← set_prev h (next l) (prev f);
  b ← load h before;
  h ← set_prev h first (prev b);
  h ← set_next h last before;
  b ← load h before;
  h ← set_next h (prev b) first;
  set_prev h before last.

Definition list_push_front (h : heap) (L : klist) (elem : ptr) : res heap :=
  b ← list_begin h L; list_insert h b elem.
Definition list_push_back (h : heap) (L : klist) (elem : ptr) : res heap :=
  list_insert h (list_end L) elem.

Definition list_remove (h : heap) (elem : ptr) : res (ptr * heap) :=
  ASSERT is_interior h elem;;
  e ← load h elem;
  h ← set_next h (prev e) (next e);
  e ← load h elem;
  h ← set_prev h (next e) (prev e);
  e ← load h elem;
  Ok (next e, h).

Definition list_empty (h : heap) (L : klist) : res bool :=
  b ← list_begin h L; Ok (b =? list_end L).
Definition list_front (h : heap) (L : klist) : res ptr :=
  e ← list_empty h L;
  ASSERT negb e;;
  list_begin h L.
Definition list_back (h : heap) (L : klist) : res ptr :=
  e ← list_empty h L;
  ASSERT negb e;;
  list_rbegin h L.
Definition list_pop_front (h : heap) (L : klist) : res (ptr * heap) :=
  front ← list_front h L;
  '(_, h) ← list_remove h front;
  Ok (front, h).
Definition list_pop_back (h : heap) (L : klist) : res (ptr * heap) :=
  back ← list_back h L;
  '(_, h) ← list_remove h back;
  Ok (back, h).

(** Loops that walk a list are bounded by the number of links in the heap. *)
Fixpoint size_loop (fuel : nat) (h : heap) (e end_ : ptr) (cnt : Z) : res Z :=
  if e =? end_ then Ok cnt else
  match fuel with
  | O => Fuel
  | S n => e' ← list_next h e; size_loop n h e' end_ (cnt + 1)
  end.
Definition list_size (h : heap) (L : klist) : res Z :=
  b ← list_begin h L; size_loop (size h) h b (list_end L) 0.

Fixpoint reverse_loop (fuel : nat) (h : heap) (e end_ : ptr) : res heap :=
  if e =? end_ then Ok h else
  match fuel with
  | O => Fuel
  | S n =>
      x ← load h e;
      let h := <[e := Elem (next x) (prev x)]> h in
      x ← load h e;
      reverse_loop n h (prev x) end_
  end.
Definition list_reverse (h : heap) (L : klist) : res heap :=
  e ← list_empty h L;
  if (e : bool) then Ok h else
  b ← list_begin h L;
  h ← reverse_loop (size h) h b (list_end L);
  hd ← load h (head_of L); tl ← load h (tail_of L);
  h ← set_next h (head_of L) (prev tl);
  h ← set_prev h (tail_of L) (next hd);
  hd ← load h (head_of L); tl ← load h (tail_of L);
  fst ← load h (next hd); lst ← load h (prev tl);
  h ← set_prev h (next hd) (next lst);
  set_next h (prev tl) (prev fst).

Section order.
(** The comparison function, with its auxiliary argument. *)
Context (less : ptr → ptr → bool).

Fixpoint is_sorted_loop (fuel : nat) (h : heap) (a b : ptr) : res bool :=
  match fuel with
  | O => Fuel
  | S n =>
      a ← list_next h a;
      if a =? b then Ok true else
      p ← list_prev h a;
      if less a p then Ok false else is_sorted_loop n h a b
  end.
Definition is_sorted (h : heap) (a b : ptr) : res bool :=
  if negb (a =? b) then is_sorted_loop (size h) h a b else Ok true.

Fixpoint run_loop (fuel : nat) (h : heap) (a b : ptr) : res ptr :=
  match fuel with
  | O => Fuel
  | S n =>
      a ← list_next h a;
      if a =? b then Ok a else
      p ← list_prev h a;
      if negb (less a p) then run_loop n h a b else Ok a
  end.
Definition find_end_of_run (h : heap) (a b : ptr) : res ptr :=
  ASSERT negb (a =? NULL);;
  ASSERT negb (b =? NULL);;
  ASSERT negb (a =? b);;
  run_loop (size h) h a b.

Fixpoint merge_loop (fuel : nat) (h : heap) (a0 a1b0 b1 : ptr) : res heap :=
  if (a0 =? a1b0) || (a1b0 =? b1) then Ok h else
  match fuel with
  | O => Fuel
  | S n =>
      if negb (less a1b0 a0) then
        a0 ← list_next h a0; merge_loop n h a0 a1b0 b1
      else
        a1b0 ← list_next h a1b0;
        p ← list_prev h a1b0;
        h ← list_splice h a0 p a1b0;
        merge_loop n h a0 a1b0 b1
  end.
Definition inplace_merge (h : heap) (a0 a1b0 b1 : ptr) : res heap :=
  ASSERT negb (a0 =? NULL);;
  ASSERT negb (a1b0 =? NULL);;
  ASSERT negb (b1 =? NULL);;
  s1 ← is_sorted h a0 a1b0;
  ASSERT (s1 : bool);;
  s2 ← is_sorted h a1b0 b1;
  ASSERT (s2 : bool);;
  merge_loop (size h) h a0 a1b0 b1.

(** The [for] loop of one pass: [output_run_cnt] and the heap it leaves. *)
Fixpoint pass_loop (fuel : nat) (h : heap) (L : klist) (a0 : ptr) (cnt : Z)
    : res (Z * heap) :=
  if a0 =? list_end L then Ok (cnt, h) else
  match fuel with
  | O => Fuel
  | S n =>
      a1b0 ← find_end_of_run h a0 (list_end L);
      if a1b0 =? list_end L then Ok (cnt + 1, h) else
      b1 ← find_end_of_run h a1b0 (list_end L);
      h ← inplace_merge h a0 a1b0 b1;
      pass_loop n h L b1 (cnt + 1)
  end.
Fixpoint sort_loop (fuel : nat) (h : heap) (L : klist) : res heap :=
  match fuel with
  | O => Fuel
  | S n =>
      a0 ← list_begin h L;
      '(cnt, h) ← pass_loop (size h) h L a0 0;
      if 1 <? cnt then sort_loop n h L else Ok h
  end.
Definition list_sort (h : heap) (L : klist) : res heap :=
  h ← sort_loop (size h) h L;
  b ← list_begin h L;
  s ← is_sorted h b (list_end L);
  ASSERT (s : bool);;
  Ok h.

Fixpoint ordered_loop (fuel : nat) (h : heap) (elem e end_ : ptr) : res ptr :=
  if e =? end_ then Ok e else
  match fuel with
  | O => Fuel
  | S n =>
      if less elem e then Ok e
      else e ← list_next h e; ordered_loop n h elem e end_
  end.
Definition list_insert_ordered (h : heap) (L : klist) (elem : ptr) : res heap :=
  ASSERT negb (elem =? NULL);;
  b ← list_begin h L;
  e ← ordered_loop (size h) h elem b (list_end L);
  list_insert h e elem.

Fixpoint unique_loop (fuel : nat) (h : heap) (L : klist) (dups : option klist)
    (elem : ptr) : res heap :=
  match fuel with
  | O => Fuel
  | S n =>
      nxt ← list_next h elem;
      if nxt =? list_end L then Ok h else
      if negb (less elem nxt) && negb (less nxt elem) then
        '(_, h) ← list_remove h nxt;
        h ← match dups with
            | Some D => list_push_back h D nxt
            | None => Ok h
            end;
        unique_loop n h L dups elem
      else unique_loop n h L dups nxt
  end.
Definition list_unique (h : heap) (L : klist) (dups : option klist) : res heap :=
  e ← list_empty h L;
  if (e : bool) then Ok h else
  elem ← list_begin h L;
  unique_loop (size h) h L dups elem.

Fixpoint extremum_loop (fuel : nat) (better : ptr → ptr → bool) (h : heap)
    (best e end_ : ptr) : res ptr :=
  if e =? end_ then Ok best else
  match fuel with
  | O => Fuel
  | S n =>
      e' ← list_next h e;
      extremum_loop n better h (if better best e then e else best) e' end_
  end.
Definition list_max (h : heap) (L : klist) : res ptr :=
  mx ← list_begin h L;
  if mx =? list_end L then Ok mx else
  e ← list_next h mx;
  extremum_loop (size h) (λ m e, less m e) h mx e (list_end L).
Definition list_min (h : heap) (L : klist) : res ptr :=
  mn ← list_begin h L;
  if mn =? list_end L then Ok mn else
  e ← list_next h mn;
  extremum_loop (size h) (λ m e, less e m) h mn e (list_end L).

End order.

(** ** Chains of links *)

(** [seg h p ps n]: the elements [ps] are linked to each other in this order,
    the first back to [p] and the last on to [n]. *)
Fixpoint seg (h : heap) (p : ptr) (ps : list ptr) (n : ptr) : Prop :=
  match ps with
  | [] => True
  | x :: ps' => h !! x = Some (Elem p (default n (head ps'))) ∧ seg h x ps' n
  end.

(** A complete chain, from a header element to the other. *)
Definition links (h : heap) (ps : list ptr) : Prop :=
  NoDup ps ∧ NULL ∉ ps ∧ seg h NULL ps NULL.

Definition nodes (L : klist) (xs : list ptr) : list ptr :=
  head_of L :: xs ++ [tail_of L].

(** The heap [h] represents [xs] in the list [L]. *)
Definition is_list (h : heap) (L : klist) (xs : list ptr) : Prop :=
  links h (nodes L xs).

(** The heaps differ on the addresses [ps] at most, and hold the same ones. *)
Definition only (ps : list ptr) (h h' : heap) : Prop :=
  dom h' = dom h ∧ ∀ p, p ∉ ps → h' !! p = h !! p.

Lemma seg_app h p ps qs n :
  seg h p (ps ++ qs) n ↔
  seg h p ps (default n (head qs)) ∧ seg h (default p (last ps)) qs n.
Proof.
  revert p; induction ps as [|x ps IH]; intros p; [simpl; tauto|].
  cbn [app seg]. rewrite IH, last_cons.
  replace (default n (head (ps ++ qs))) with (default (default n (head qs)) (head ps))
    by by destruct ps.
  replace (default p (from_option Some (Some x) (last ps)))
    with (default x (last ps)) by by destruct (last ps).
  destruct (last ps); tauto.
Qed.

Lemma seg_insert h p ps n q e : q ∉ ps → seg (<[q := e]> h) p ps n ↔ seg h p ps n.
Proof.
  revert p; induction ps as [|x ps IH]; intros p Hq; [done|].
  apply not_elem_of_cons in Hq as [Hx Hq]. simpl.
  rewrite lookup_insert_ne by done. by rewrite IH.
Qed.

Lemma seg_only qs h h' p ps n :
  only qs h h' → (∀ x, x ∈ ps → x ∉ qs) → seg h p ps n → seg h' p ps n.
Proof.
  intros [_ Ho]. revert p; induction ps as [|x ps IH]; intros p Hd; [done|].
  simpl. intros [Hx Hs]. split; [|by apply IH; [set_solver|]].
  rewrite Ho; [done|]. apply Hd. left.
Qed.

Lemma links_lookup h ps p qs :
  links h (ps ++ p :: qs) →
  h !! p = Some (Elem (default NULL (last ps)) (default NULL (head qs))).
Proof. intros (_ & _ & Hs). rewrite seg_app in Hs. simpl in Hs. tauto. Qed.

Lemma links_length h ps : links h ps → (length ps ≤ size h)%nat.
Proof.
  intros (Hn & _ & Hs). rewrite <- size_dom.
  rewrite <- (size_list_to_set (C:=gset Z) ps) by done. apply subseteq_size.
  intros p Hp%elem_of_list_to_set. apply list_elem_of_split in Hp as (ps1 & ps2 & ->).
  rewrite seg_app in Hs. destruct Hs as [_ [Hs _]].
  apply elem_of_dom. by rewrite Hs.
Qed.

Lemma only_refl ps h : only ps h h.
Proof. done. Qed.
Lemma only_trans ps h1 h2 h3 : only ps h1 h2 → only ps h2 h3 → only ps h1 h3.
Proof.
  intros [D1 H1] [D2 H2]. split; [congruence|].
  intros p Hp. by rewrite H2, H1.
Qed.
Lemma only_weaken ps qs h h' : (∀ x, x ∈ ps → x ∈ qs) → only ps h h' → only qs h h'.
Proof. intros Hs [D H]. split; [done|]. intros p Hp. apply H. auto. Qed.
Lemma only_size ps h h' : only ps h h' → size h' = size h.
Proof. intros [D _]. by rewrite <- !size_dom, D. Qed.

Lemma only_insert ps h p e : is_Some (h !! p) → p ∈ ps → only ps h (<[p := e]> h).
Proof.
  intros Hp Hin. split.
  - rewrite dom_insert_L. apply elem_of_dom in Hp. set_solver.
  - intros q Hq. rewrite lookup_insert_ne; [done|set_solver].
Qed.

(** Splits the side conditions that come from the absence of duplicates. *)
Ltac nodup :=
  repeat match goal with
  | H : links _ _ |- _ =>
      let Hn := fresh "Hnd" in let H0 := fresh "Hnull" in let Hs := fresh "Hseg" in
      destruct H as (Hn & H0 & Hs)
  | H : NoDup (_ :: _) |- _ => apply NoDup_cons in H as [? H]
  | H : NoDup (_ ++ _) |- _ => apply NoDup_app in H as (? & ? & H)
  | H : _ ∉ _ :: _ |- _ => apply not_elem_of_cons in H as [? H]
  | H : _ ∉ _ ++ _ |- _ => apply not_elem_of_app in H as [? H]
  | H : ∀ x, x ∈ _ → x ∉ _ :: _ |- _ =>
      setoid_rewrite not_elem_of_cons in H
  end.

(** ** Reading *)

Lemma is_interior_spec h ps a p b qs :
  links h (ps ++ a :: p :: b :: qs) → is_interior h p = true.
Proof.
  intros Hl. pose proof (links_lookup h (ps ++ [a]) p (b :: qs)) as Hp.
  rewrite <- app_assoc in Hp. specialize (Hp Hl). unfold is_interior.
  rewrite Hp, last_snoc. simpl. destruct Hl as (_ & H0 & _).
  rewrite !andb_true_iff, !negb_true_iff, !Z.eqb_neq. set_solver.
Qed.

Lemma is_tail_spec h ps a p : links h (ps ++ [a; p]) → is_tail h p = true.
Proof.
  intros Hl. pose proof (links_lookup h (ps ++ [a]) p []) as Hp.
  rewrite <- app_assoc in Hp. specialize (Hp Hl). unfold is_tail.
  rewrite Hp, last_snoc. simpl. destruct Hl as (_ & H0 & _).
  rewrite !andb_true_iff, !negb_true_iff, !Z.eqb_neq. set_solver.
Qed.

Lemma is_head_spec h p b qs : links h (p :: b :: qs) → is_head h p = true.
Proof.
  intros Hl. pose proof (links_lookup h [] p (b :: qs) Hl) as Hp. unfold is_head.
  rewrite Hp. simpl. destruct Hl as (_ & H0 & _).
  rewrite !andb_true_iff, !negb_true_iff, !Z.eqb_neq. set_solver.
Qed.

(** What follows an element is an element of the list or its tail. *)
Lemma interior_or_tail h ps a p qs :
  links h (ps ++ a :: p :: qs) → is_interior h p || is_tail h p = true.
Proof.
  intros Hl. apply orb_true_iff. destruct qs as [|b qs].
  - right. by eapply is_tail_spec.
  - left. by eapply is_interior_spec.
Qed.

Lemma list_next_spec h ps p q qs :
  links h (ps ++ p :: q :: qs) → list_next h p = Ok q.
Proof.
  intros Hl. unfold list_next, load.
  replace (is_head h p || is_interior h p) with true.
  { by rewrite (links_lookup _ _ _ _ Hl). }
  symmetry. apply orb_true_iff. destruct ps as [|a ps' _] using rev_ind.
  - left. by eapply is_head_spec.
  - right. rewrite <- app_assoc in Hl. simpl in Hl. by eapply is_interior_spec.
Qed.

Lemma list_prev_spec h ps p q qs :
  links h (ps ++ p :: q :: qs) → list_prev h q = Ok p.
Proof.
  intros Hl. unfold list_prev, load. rewrite (interior_or_tail _ _ _ _ _ Hl).
  pose proof (links_lookup h (ps ++ [p]) q qs) as Hq.
  rewrite <- app_assoc in Hq. rewrite (Hq Hl), last_snoc. done.
Qed.

Lemma list_begin_spec h L xs :
  is_list h L xs → list_begin h L = Ok (default (tail_of L) (head xs)).
Proof.
  intros Hl. unfold list_begin, load.
  rewrite (links_lookup h [] (head_of L) (xs ++ [tail_of L]) Hl). by destruct xs.
Qed.

Lemma list_rbegin_spec h L xs :
  is_list h L xs → list_rbegin h L = Ok (default (head_of L) (last xs)).
Proof.
  intros Hl. unfold list_rbegin, load.
  rewrite (links_lookup h (head_of L :: xs) (tail_of L) [] Hl). simpl.
  rewrite last_cons. by destruct (last xs).
Qed.

Lemma list_empty_spec h L xs :
  is_list h L xs → list_empty h L = Ok (bool_decide (xs = [])).
Proof.
  intros Hl. unfold list_empty. rewrite (list_begin_spec _ _ _ Hl). simpl.
  destruct xs as [|x xs]; simpl; [by rewrite Z.eqb_refl|].
  destruct Hl as (Hn & _ & _). unfold nodes in Hn. f_equal.
  apply Z.eqb_neq.
  intros ->. apply NoDup_cons in Hn as [_ Hn]. simpl in Hn.
  apply NoDup_cons in Hn as [Hn _]. set_solver.
Qed.

(** ** Writing *)

Lemma load_Ok h p e : h !! p = Some e → load h p = Ok e.
Proof. intros Hp. unfold load. by rewrite Hp. Qed.
Lemma set_prev_Ok h p q e :
  h !! p = Some e → set_prev h p q = Ok (<[p := Elem q (next e)]> h).
Proof. intros Hp. unfold set_prev, load. by rewrite Hp. Qed.
Lemma set_next_Ok h p q e :
  h !! p = Some e → set_next h p q = Ok (<[p := Elem (prev e) q]> h).
Proof. intros Hp. unfold set_next, load. by rewrite Hp. Qed.
Lemma bind_Ok_eq {A B} (m : res A) x (k : A → res B) : m = Ok x → m ≫= k = k x.
Proof. by intros ->. Qed.

(** Finds a node of a heap that has been written to. *)
Ltac find_node :=
  repeat first [rewrite lookup_insert_eq; reflexivity
               |rewrite lookup_insert_ne by congruence
               |eassumption].

(** Runs the loads and stores of a routine whose nodes are known. *)
Ltac step_heap :=
  repeat (first
    [ erewrite bind_Ok_eq by
        first [apply load_Ok; find_node|apply set_prev_Ok; find_node
              |apply set_next_Ok; find_node]
    | erewrite set_prev_Ok by find_node
    | erewrite set_next_Ok by find_node ]; cbn [prev next]).

Lemma list_insert_spec h ps a b qs e :
  links h (ps ++ a :: b :: qs) → e ≠ NULL → is_Some (h !! e) →
  e ∉ ps ++ a :: b :: qs →
  ∃ h', list_insert h b e = Ok h' ∧ links h' (ps ++ a :: e :: b :: qs)
    ∧ only (e :: a :: b :: nil) h h'.
Proof.
  intros Hl He [ne Hne] Hfresh. unfold list_insert.
  rewrite (interior_or_tail _ _ _ _ _ Hl). apply Z.eqb_neq in He as He'.
  rewrite He'. cbn [negb].
  pose proof (links_lookup h ps a (b :: qs) Hl) as Ha. simpl in Ha.
  pose proof (links_lookup h (ps ++ [a]) b qs) as Hb.
  rewrite <- app_assoc, last_snoc in Hb. specialize (Hb Hl). simpl in Hb.
  pose proof Hl as (Hn & H0 & Hs).
  assert (e ≠ a ∧ e ≠ b ∧ a ≠ b ∧ e ∉ ps ∧ e ∉ qs ∧ a ∉ ps ∧ a ∉ qs ∧ b ∉ ps ∧ b ∉ qs)
    as (? & ? & ? & ? & ? & ? & ? & ? & ?).
  { rewrite NoDup_middle in Hn. destruct Hn as (? & ? & Hn).
    rewrite NoDup_middle in Hn. set_solver. }
  step_heap.
  eexists. split; [reflexivity|]. split.
  - split_and!.
    + by rewrite (Permutation_swap e a), <- Permutation_middle, NoDup_cons.
    + set_solver.
    + rewrite seg_app in Hs |- *. destruct Hs as [Hs1 Hs2]. simpl in *.
      rewrite !seg_insert by done. destruct Hs2 as (_ & _ & Hs2). simplify_map_eq.
      split_and!; done.
  - repeat (eapply only_trans; [|apply only_insert; [|set_solver]]);
      [apply only_refl|by simplify_map_eq..].
Qed.

(** Removing an interior element, which keeps its own links. *)
Lemma list_remove_spec h ps a e b qs :
  links h (ps ++ a :: e :: b :: qs) →
  ∃ h', list_remove h e = Ok (b, h') ∧ links h' (ps ++ a :: b :: qs)
    ∧ only (a :: b :: nil) h h'.
Proof.
  intros Hl. unfold list_remove. rewrite (is_interior_spec _ _ _ _ _ _ Hl).
  pose proof (links_lookup h ps a (e :: b :: qs) Hl) as Ha. simpl in Ha.
  pose proof (links_lookup h (ps ++ [a]) e (b :: qs)) as He.
  rewrite <- app_assoc, last_snoc in He. specialize (He Hl). simpl in He.
  pose proof (links_lookup h (ps ++ [a; e]) b qs) as Hb.
  rewrite <- app_assoc, last_app in Hb. specialize (Hb Hl). simpl in Hb.
  destruct Hl as (Hn & H0 & Hs).
  rewrite (Permutation_swap e a), <- Permutation_middle, NoDup_cons in Hn.
  destruct Hn as [Hfresh Hn].
  assert (e ≠ a ∧ e ≠ b ∧ a ≠ b ∧ e ∉ ps ∧ e ∉ qs ∧ a ∉ ps ∧ a ∉ qs ∧ b ∉ ps ∧ b ∉ qs)
    as (? & ? & ? & ? & ? & ? & ? & ? & ?).
  { pose proof Hn as Hn2. rewrite NoDup_middle in Hn2. destruct Hn2 as (? & ? & Hn2).
    rewrite NoDup_middle in Hn2. set_solver. }
  step_heap. eexists. split; [reflexivity|]. split.
  - split_and!; [done|set_solver|].
    rewrite seg_app in Hs |- *. destruct Hs as [Hs1 Hs2]. simpl in *.
    rewrite !seg_insert by done. destruct Hs2 as (_ & _ & _ & Hs2). simplify_map_eq.
    split_and!; done.
  - repeat (eapply only_trans; [|apply only_insert; [|set_solver]]);
      [apply only_refl|by simplify_map_eq..].
Qed.

(** Splits the absence of duplicates into atomic facts about the elements that
    are named in the chain. *)
Ltac atoms :=
  repeat match goal with
  | H : _ ∉ _ :: _ |- _ => apply not_elem_of_cons in H as [? H]
  | H : _ ∉ _ ++ _ |- _ => apply not_elem_of_app in H as [? H]
  | H : _ ∉ [] |- _ => clear H
  end.
Ltac split_nodup H :=
  repeat first
    [ rewrite NoDup_middle in H; destruct H as (? & ? & H)
    | rewrite app_assoc in H
    | apply NoDup_cons in H as [? H] ];
  atoms.

Lemma is_interior_node h x p q :
  h !! x = Some (Elem p q) → x ≠ NULL → p ≠ NULL → q ≠ NULL → is_interior h x = true.
Proof.
  intros Hx ???. unfold is_interior. rewrite Hx. simpl.
  by rewrite !andb_true_iff, !negb_true_iff, !Z.eqb_neq.
Qed.

Lemma default_head_last_ne (x : ptr) (l : list ptr) (y : ptr) :
  x ≠ y → x ∉ l → x ≠ default y (head l) ∧ x ≠ default y (last l).
Proof.
  intros Hy Hl. split.
  - destruct l; simpl; set_solver.
  - destruct (last l) eqn:E; simpl; [|done]. apply last_Some in E as [? ->]. set_solver.
Qed.

Lemma head_app_cons (ms : list ptr) x l n :
  default n (head (ms ++ x :: l)) = default x (head ms).
Proof. by destruct ms. Qed.

Ltac seg_norm H :=
  repeat (first [rewrite seg_app in H|rewrite head_app_cons in H
    |progress cbn [seg head last from_option app id] in H]).

Lemma splice_perm (ps : list ptr) a ss bs qs :
  ps ++ a :: ss ++ bs ++ qs ≡ₚ ps ++ a :: bs ++ ss ++ qs.
Proof. by rewrite (app_assoc ss), (Permutation_app_comm ss bs), <- app_assoc. Qed.

Ltac in_list := repeat first [rewrite elem_of_cons|rewrite elem_of_app]; tauto.
Ltac flat_app H := cbn [app] in H; repeat (rewrite <- app_assoc in H; cbn [app] in H).
Ltac flat_app_goal := cbn [app]; repeat (rewrite <- app_assoc; cbn [app]).

(** Runs [list_splice] when the nodes it touches are known to be different. *)
Ltac splice_run :=
  match goal with
  | Hl : links _ _, Hperm : _ ≡ₚ _ |- _ =>
      flat_app Hl; flat_app Hperm; cbn [app] in Hl, Hperm; flat_app_goal;
      let Hn := fresh "Hn" in let H0 := fresh "H0" in let Hs := fresh "Hs" in
      let Hn' := fresh "Hn'" in
      destruct Hl as (Hn & H0 & Hs);
      assert (Hn' := Hn); rewrite <- Hperm in Hn';
      seg_norm Hs; destruct_and?; split_nodup Hn; clear Hn
  end;
  erewrite !is_interior_node by
    first [eassumption|congruence|apply not_eq_sym, default_head_last_ne; congruence || done];
  step_heap; eexists; split; [reflexivity|]; split;
  [ split_and!; [done|repeat (rewrite not_elem_of_app || rewrite not_elem_of_cons);
      split_and!; done || apply not_elem_of_nil|];
    repeat (first [rewrite seg_app|rewrite head_app_cons
      |progress cbn [seg head last from_option app id]]);
    rewrite !seg_insert by done; simplify_map_eq; done
  | repeat (eapply only_trans; [|apply only_insert; [|in_list]]);
      [apply only_refl|by simplify_map_eq..] ].

(** Moving the elements [ss], which stand after [b] in the same list, to the
    place before [b]. *)
Lemma list_splice_spec h ps a b ms ss c qs :
  links h (ps ++ a :: b :: ms ++ ss ++ c :: qs) → ss ≠ [] →
  ∃ h', list_splice h b (default c (head ss)) c = Ok h'
    ∧ links h' (ps ++ a :: ss ++ b :: ms ++ c :: qs)
    ∧ only (a :: b :: ms ++ ss ++ [c]) h h'.
Proof.
  intros Hl Hss. assert (Hperm := splice_perm ps a ss (b :: ms) (c :: qs)).
  cbn [app] in Hperm. unfold list_splice.
  rewrite (interior_or_tail _ _ _ _ _ Hl).
  destruct ss as [|f ss]; [done|]. clear Hss.
  change (default c (head (f :: ss))) with f.
  assert (Hfc : (f =? c) = false).
  { destruct Hl as (Hn & _). split_nodup Hn. by apply Z.eqb_neq. }
  rewrite Hfc. clear Hfc.
  destruct ss as [|l ss _] using rev_ind.
  - assert (Hp : list_prev h c = Ok f).
    { apply (list_prev_spec h (ps ++ a :: b :: ms) f c qs). by flat_app_goal. }
    rewrite Hp. cbn [mbind res_bind]. clear Hp.
    destruct ms as [|p ms _] using rev_ind; splice_run.
  - assert (Hp : list_prev h c = Ok l).
    { apply (list_prev_spec h (ps ++ a :: b :: ms ++ f :: ss) l c qs).
      flat_app Hl. by flat_app_goal. }
    rewrite Hp. cbn [mbind res_bind]. clear Hp.
    destruct ms as [|p ms _] using rev_ind; splice_run.
Qed.
