(* ===== verification/ListLoops.v ===== *)
(** * The loops of [lib/kernel/list.c] compute the sequence-level functions

    For each routine that walks a list: it terminates within the number of
    links of the heap, no assertion of it fails, and it leaves the sequence that
    [ListSeq] computes. *)

From S2P Require Import Prelude ListSeq ListPtr.

(** ** Positions in a chain *)

Lemma links_next h ps x xs c qs :
  links h (ps ++ x :: xs ++ c :: qs) → list_next h x = Ok (default c (head xs)).
Proof.
  intros Hl. destruct xs as [|y xs]; simpl in *; eapply list_next_spec; exact Hl.
Qed.

Lemma links_prev h ps x y qs :
  links h (ps ++ x :: y :: qs) → list_prev h y = Ok x.
Proof. apply list_prev_spec. Qed.

(** An element before [c] is not [c]. *)
Lemma links_ne h ps x xs c qs :
  links h (ps ++ x :: xs ++ c :: qs) → (x =? c) = false.
Proof. intros (Hn & _). split_nodup Hn. by apply Z.eqb_neq. Qed.

Lemma links_nonnull h ps x qs : links h (ps ++ x :: qs) → (x =? NULL) = false.
Proof. intros (_ & H0 & _). apply Z.eqb_neq. set_solver. Qed.

Lemma links_only ps qs h h' :
  only qs h h' → (∀ x, x ∈ ps → x ∉ qs) → links h ps → links h' ps.
Proof.
  intros Ho Hd (Hn & H0 & Hs). split_and!; [done..|]. by eapply seg_only.
Qed.

Lemma cons_app_assoc {A} (ps : list A) x qs : (ps ++ [x]) ++ qs = ps ++ x :: qs.
Proof. by rewrite <- app_assoc. Qed.

(** ** Size *)

Lemma size_loop_spec n h ps xs c qs cnt :
  links h (ps ++ xs ++ c :: qs) → (length xs ≤ n)%nat →
  size_loop n h (default c (head xs)) c cnt = Ok (cnt + Z.of_nat (length xs)).
Proof.
  revert n ps cnt; induction xs as [|x xs IH]; intros n ps cnt Hl Hn.
  { destruct n; simpl; rewrite Z.eqb_refl; f_equal; lia. }
  destruct n as [|n]; [simpl in Hn; lia|]. cbn [head from_option size_loop app] in *.
  unfold id. rewrite (links_ne _ _ _ _ _ _ Hl), (links_next _ _ _ _ _ _ Hl).
  cbn [mbind res_bind]. rewrite <- cons_app_assoc in Hl.
  rewrite (IH n (ps ++ [x])); [f_equal; simpl; lia|done|simpl in Hn; lia].
Qed.

Theorem list_size_spec h L xs :
  is_list h L xs → list_size h L = Ok (Z.of_nat (length xs)).
Proof.
  intros Hl. unfold list_size. rewrite (list_begin_spec _ _ _ Hl).
  cbn [mbind res_bind].
  rewrite (size_loop_spec _ h [head_of L] xs (tail_of L) []); [f_equal; lia|done|].
  apply links_length in Hl. unfold nodes in Hl. simpl in Hl.
  rewrite length_app in Hl. lia.
Qed.

Lemma is_list_length h L xs : is_list h L xs → (length xs + 2 ≤ size h)%nat.
Proof.
  intros Hl%links_length. unfold nodes in Hl. simpl in Hl.
  rewrite length_app in Hl. simpl in Hl. lia.
Qed.

(** ** Insertion at the ends, removal at the ends *)

Theorem list_push_front_spec h L xs e :
  is_list h L xs → e ≠ NULL → is_Some (h !! e) → e ∉ nodes L xs →
  ∃ h', list_push_front h L e = Ok h' ∧ is_list h' L (e :: xs)
    ∧ only (e :: nodes L xs) h h'.
Proof.
  intros Hl He Hs Hn. unfold list_push_front. rewrite (list_begin_spec _ _ _ Hl).
  cbn [mbind res_bind]. unfold is_list, nodes in *.
  destruct xs as [|x xs]; cbn [head from_option app id] in *.
  - destruct (list_insert_spec h [] (head_of L) (tail_of L) [] e) as (h' & -> & ? & Ho);
      [done..|]. exists h'. split_and!; [done..|].
    eapply only_weaken; [|exact Ho]. set_solver.
  - destruct (list_insert_spec h [] (head_of L) x (xs ++ [tail_of L]) e)
      as (h' & -> & ? & Ho); [done..|]. exists h'. split_and!; [done..|].
    eapply only_weaken; [|exact Ho]. set_solver.
Qed.

Theorem list_push_back_spec h L xs e :
  is_list h L xs → e ≠ NULL → is_Some (h !! e) → e ∉ nodes L xs →
  ∃ h', list_push_back h L e = Ok h' ∧ is_list h' L (xs ++ [e])
    ∧ only (e :: nodes L xs) h h'.
Proof.
  intros Hl He Hs Hn. unfold list_push_back, list_end, is_list, nodes in *.
  destruct xs as [|x xs _] using rev_ind; cbn [app] in *.
  - destruct (list_insert_spec h [] (head_of L) (tail_of L) [] e) as (h' & -> & ? & Ho);
      [done..|]. exists h'. split_and!; [done..|].
    eapply only_weaken; [|exact Ho]. set_solver.
  - rewrite <- app_assoc, app_comm_cons in Hl, Hn.
    destruct (list_insert_spec h (head_of L :: xs) x (tail_of L) [] e)
      as (h' & -> & ? & Ho); [done..|]. exists h'. split_and!; [done| |].
    + by rewrite <- !app_assoc.
    + eapply only_weaken; [|exact Ho]. set_solver.
Qed.

Theorem list_pop_front_spec h L x xs :
  is_list h L (x :: xs) →
  ∃ h', list_pop_front h L = Ok (x, h') ∧ is_list h' L xs
    ∧ only (nodes L (x :: xs)) h h'.
Proof.
  intros Hl. unfold list_pop_front, list_front. rewrite (list_empty_spec _ _ _ Hl).
  cbn [mbind res_bind]. rewrite bool_decide_eq_false_2 by done.
  cbn [negb]. rewrite (list_begin_spec _ _ _ Hl).
  cbn [mbind res_bind head from_option id].
  assert (∃ b qs, xs ++ [tail_of L] = b :: qs) as (b & qs & E)
    by (destruct xs; simpl; eauto).
  unfold is_list, nodes in *. cbn [app] in *. rewrite E in *.
  destruct (list_remove_spec h [] (head_of L) x b qs Hl) as (h' & -> & ? & Ho).
  exists h'. split_and!; [done..|]. eapply only_weaken; [|exact Ho]. set_solver.
Qed.

Theorem list_pop_back_spec h L x xs :
  is_list h L (xs ++ [x]) →
  ∃ h', list_pop_back h L = Ok (x, h') ∧ is_list h' L xs
    ∧ only (nodes L (xs ++ [x])) h h'.
Proof.
  intros Hl. unfold list_pop_back, list_back. rewrite (list_empty_spec _ _ _ Hl).
  cbn [mbind res_bind]. rewrite bool_decide_eq_false_2 by by destruct xs.
  cbn [negb]. rewrite (list_rbegin_spec _ _ _ Hl), last_snoc.
  cbn [mbind res_bind head from_option id]. unfold is_list, nodes in *.
  assert (∃ a ps, head_of L :: xs = ps ++ [a]) as (a & ps & E).
  { destruct (exists_last (l:=head_of L :: xs)) as (ps & a & ->); [done|]. eauto. }
  rewrite !app_comm_cons in *. rewrite E in *. flat_app Hl. flat_app_goal.
  destruct (list_remove_spec h ps a x (tail_of L) [] Hl) as (h' & -> & ? & Ho).
  exists h'. split_and!; [done..|]. eapply only_weaken; [|exact Ho]. set_solver.
Qed.

(** ** Runs and sortedness *)

Section order.
Context (less : Z → Z → bool).

Lemma is_sorted_loop_spec n h ps a xs c qs :
  links h (ps ++ a :: xs ++ c :: qs) → (length xs < n)%nat →
  is_sorted_loop less n h a c = Ok (descents less a xs =? 0)%nat.
Proof.
  revert n ps a; induction xs as [|x xs IH]; intros n ps a Hl Hn;
    (destruct n as [|n]; [lia|]); cbn [is_sorted_loop].
  { rewrite (links_next _ _ _ [] _ _ Hl). simpl. by rewrite Z.eqb_refl. }
  rewrite (links_next _ _ _ (x :: xs) _ _ Hl). cbn [mbind res_bind head from_option id].
  cbn [app] in Hl.
  rewrite <- cons_app_assoc in Hl. rewrite (links_ne _ _ _ _ _ _ Hl).
  rewrite cons_app_assoc in Hl. rewrite (links_prev _ _ _ _ _ Hl).
  cbn [mbind res_bind descents]. destruct (less x a); [done|].
  rewrite <- cons_app_assoc in Hl. rewrite (IH _ _ _ Hl) by (simpl in Hn; lia). done.
Qed.

Lemma is_sorted_spec h ps xs c qs :
  links h (ps ++ xs ++ c :: qs) →
  is_sorted less h (default c (head xs)) c = Ok (runs less xs <=? 1)%nat.
Proof.
  intros Hl. unfold is_sorted. destruct xs as [|a xs]; simpl; [by rewrite Z.eqb_refl|].
  cbn [app] in Hl. unfold id. rewrite (links_ne _ _ _ _ _ _ Hl). cbn [negb].
  rewrite (is_sorted_loop_spec _ _ _ _ _ _ _ Hl).
  - f_equal. by destruct (descents less a xs).
  - apply links_length in Hl. rewrite !length_app in Hl. simpl in Hl.
    rewrite length_app in Hl. simpl in Hl. lia.
Qed.

Lemma run_loop_spec n h ps a xs c qs r rest :
  links h (ps ++ a :: xs ++ c :: qs) → (length xs < n)%nat →
  run_from less a xs = (r, rest) →
  run_loop less n h a c = Ok (default c (head rest)).
Proof.
  revert n ps a r; induction xs as [|x xs IH]; intros n ps a r Hl Hn Hr;
    (destruct n as [|n]; [lia|]); cbn [run_loop].
  { rewrite (links_next _ _ _ [] _ _ Hl). simpl in *. simplify_eq.
    by rewrite Z.eqb_refl. }
  rewrite (links_next _ _ _ (x :: xs) _ _ Hl). cbn [mbind res_bind head from_option id].
  cbn [app] in Hl.
  rewrite <- cons_app_assoc in Hl. rewrite (links_ne _ _ _ _ _ _ Hl).
  rewrite cons_app_assoc in Hl. rewrite (links_prev _ _ _ _ _ Hl).
  cbn [mbind res_bind run_from] in *. destruct (less x a); cbn [negb].
  { by simplify_eq. }
  destruct (run_from less x xs) as [r' rest'] eqn:Er. simplify_eq.
  rewrite <- cons_app_assoc in Hl. by apply (IH n _ x r' Hl); [simpl in Hn; lia|].
Qed.

Lemma find_end_of_run_spec h ps a xs c qs r rest :
  links h (ps ++ a :: xs ++ c :: qs) → run_from less a xs = (r, rest) →
  find_end_of_run less h a c = Ok (default c (head rest)).
Proof.
  intros Hl Hr. unfold find_end_of_run.
  rewrite (links_nonnull _ _ _ _ Hl), (links_ne _ _ _ _ _ _ Hl).
  rewrite app_comm_cons, app_assoc in Hl. rewrite (links_nonnull _ _ _ _ Hl).
  rewrite <- app_assoc in Hl. cbn [negb].
  apply (run_loop_spec (size h) h ps a xs c qs r rest Hl); [|done]. apply links_length in Hl. rewrite length_app in Hl. simpl in Hl.
  rewrite length_app in Hl. simpl in Hl. lia.
Qed.

(** ** Merging in place *)

Lemma merge_loop_spec n h ps xs ys c qs :
  links h (ps ++ xs ++ ys ++ c :: qs) → ps ≠ [] →
  (length xs + length ys ≤ n)%nat →
  ∃ h', merge_loop less n h (default (default c (head ys)) (head xs))
          (default c (head ys)) c = Ok h'
    ∧ links h' (ps ++ merge less xs ys ++ c :: qs)
    ∧ only (ps ++ xs ++ ys ++ c :: qs) h h'.
Proof.
  revert h ps xs ys; induction n as [|n IH]; intros h ps xs ys Hl Hps Hn.
  { destruct xs, ys; simpl in Hn; try lia. simpl.
    rewrite Z.eqb_refl. simpl. eauto using only_refl. }
  destruct xs as [|a xs].
  { simpl. rewrite Z.eqb_refl. simpl. eauto using only_refl. }
  destruct ys as [|b ys].
  { cbn [merge_loop head from_option id]. rewrite Z.eqb_refl, orb_true_r.
    rewrite merge_nil_r. eauto using only_refl. }
  cbn [merge_loop head from_option id]. cbn [app] in Hl.
  rewrite (links_ne h ps a xs b (ys ++ c :: qs)) by done.
  rewrite (links_ne h (ps ++ a :: xs) b ys c qs) by by rewrite <- app_assoc.
  cbn [orb]. rewrite merge_cons. destruct (less b a) eqn:E; cbn [negb].
  - rewrite (links_next h (ps ++ a :: xs) b ys c qs) by by rewrite <- app_assoc.
    cbn [mbind res_bind].
    assert (Hb : list_prev h (default c (head ys)) = Ok b).
    { destruct ys as [|y ys]; simpl; eapply (links_prev h (ps ++ a :: xs));
        rewrite <- app_assoc; exact Hl. }
    rewrite Hb. cbn [mbind res_bind]. clear Hb.
    destruct (exists_last Hps) as (ps' & p & ->).
    assert (∃ d ds, ys ++ c :: qs = d :: ds ∧ default c (head ys) = d) as (d & ds & Ed & ->)
      by (destruct ys; simpl; eauto).
    destruct (list_splice_spec h ps' p a xs [b] d ds) as (h1 & Hs & Hl1 & Ho1); [|done|].
    { rewrite <- Ed. rewrite <- app_assoc in Hl. exact Hl. }
    cbn [head from_option id] in Hs. rewrite Hs. cbn [mbind res_bind].
    rewrite <- Ed in Hl1. cbn [app] in Hl1.
    destruct (IH h1 (ps' ++ [p; b]) (a :: xs) ys) as (h2 & Hm & Hl2 & Ho2).
    { rewrite <- app_assoc. exact Hl1. }
    { by destruct ps'. }
    { simpl in *. lia. }
    exists h2. split_and!.
    + rewrite <- Hm. cbn [head from_option id]. f_equal. by destruct ys; simplify_eq/=.
    + rewrite <- app_assoc in Hl2 |- *. exact Hl2.
    + eapply only_trans; (eapply only_weaken; [|eassumption]).
      * assert (Hd : d ∈ ys ++ c :: qs) by (rewrite Ed; constructor).
        clear -Hd. set_solver.
      * clear. set_solver.
  - rewrite (links_next h ps a xs b (ys ++ c :: qs)) by done. cbn [mbind res_bind].
    rewrite <- cons_app_assoc in Hl.
    destruct (IH h (ps ++ [a]) xs (b :: ys)) as (h2 & Hm & Hl2 & Ho2).
    { exact Hl. }
    { by destruct ps. }
    { simpl in *. lia. }
    exists h2. split_and!; [exact Hm| |].
    + by rewrite cons_app_assoc in Hl2.
    + by rewrite cons_app_assoc in Ho2.
Qed.

Context `{!StrictWeak less}.

Lemma inplace_merge_spec h ps a xs b ys c qs :
  links h (ps ++ (a :: xs) ++ (b :: ys) ++ c :: qs) → ps ≠ [] →
  sorted less (a :: xs) → sorted less (b :: ys) →
  ∃ h', inplace_merge less h a b c = Ok h'
    ∧ links h' (ps ++ merge less (a :: xs) (b :: ys) ++ c :: qs)
    ∧ only (ps ++ (a :: xs) ++ (b :: ys) ++ c :: qs) h h'.
Proof.
  intros Hl Hps Hxs Hys. unfold inplace_merge.
  rewrite (links_nonnull h ps a _ Hl).
  assert (Hl2 := Hl). rewrite app_assoc in Hl2. rewrite (links_nonnull h _ b _ Hl2).
  assert (Hl3 := Hl2). rewrite app_assoc in Hl3. rewrite (links_nonnull h _ c _ Hl3).
  cbn [negb].
  pose proof (is_sorted_spec h ps (a :: xs) b (ys ++ c :: qs) Hl) as S1.
  cbn [head from_option id] in S1. rewrite S1. cbn [mbind res_bind].
  rewrite (proj2 (Nat.leb_le _ _)) by by apply runs_sorted.
  pose proof (is_sorted_spec h _ (b :: ys) c qs Hl2) as S2.
  cbn [head from_option id] in S2. rewrite S2. cbn [mbind res_bind].
  rewrite (proj2 (Nat.leb_le _ _)) by by apply runs_sorted.
  apply (merge_loop_spec (size h) h ps (a :: xs) (b :: ys) c qs Hl Hps).
  apply links_length in Hl. rewrite !length_app in Hl. simpl in *. lia.
Qed.

Lemma pass_loop_spec n h L ps xs cnt out k :
  links h (ps ++ xs ++ [tail_of L]) → ps ≠ [] → (length xs ≤ n)%nat →
  sort_pass less n xs = (out, k) →
  ∃ h', pass_loop less n h L (default (tail_of L) (head xs)) cnt
          = Ok (cnt + Z.of_nat k, h')
    ∧ links h' (ps ++ out ++ [tail_of L])
    ∧ only (ps ++ xs ++ [tail_of L]) h h'.
Proof.
  revert h ps xs cnt out k; induction n as [|n IH]; intros h ps xs cnt out k Hl Hps Hn.
  { destruct xs; [|simpl in Hn; lia]. intros [= <- <-]. simpl. unfold id, list_end.
    rewrite Z.eqb_refl. exists h. rewrite Z.add_0_r. eauto using only_refl. }
  destruct xs as [|a xs].
  { intros [= <- <-]. simpl. unfold id, list_end. rewrite Z.eqb_refl. exists h.
    rewrite Z.add_0_r. eauto using only_refl. }
  cbn [sort_pass pass_loop head from_option id]. unfold list_end. cbn [app] in Hl.
  rewrite (links_ne h ps a xs (tail_of L) [] Hl).
  destruct (run_from less a xs) as [r1 rest] eqn:E1.
  rewrite (find_end_of_run_spec h ps a xs _ [] r1 rest Hl E1). cbn [mbind res_bind].
  pose proof (run_from_app less a xs) as A1. rewrite E1 in A1.
  pose proof (run_from_sorted _ _ _ _ _ E1) as S1.
  destruct rest as [|b rest].
  { intros [= <- <-]. cbn [head from_option id]. rewrite Z.eqb_refl. exists h.
    rewrite app_nil_r in A1. subst. eauto using only_refl. }
  cbn [head from_option id]. subst xs.
  rewrite <- app_assoc in Hl. cbn [app] in Hl.
  assert (Hl2 := Hl). rewrite app_comm_cons, app_assoc in Hl2.
  rewrite (links_ne h _ b rest (tail_of L) [] Hl2).
  destruct (run_from less b rest) as [r2 rest2] eqn:E2.
  rewrite (find_end_of_run_spec h _ b rest _ [] r2 rest2 Hl2 E2). cbn [mbind res_bind].
  pose proof (run_from_app less b rest) as A2. rewrite E2 in A2.
  pose proof (run_from_sorted _ _ _ _ _ E2) as S2. subst rest. clear Hl2.
  destruct (sort_pass less n rest2) as [out' k'] eqn:E3. intros Hout.
  assert (∃ d ds, rest2 ++ [tail_of L] = d :: ds ∧ default (tail_of L) (head rest2) = d)
    as (d & ds & Ed & Ed') by (destruct rest2; simpl; eauto).
  rewrite <- app_assoc in Hl. rewrite Ed in Hl.
  destruct (inplace_merge_spec h ps a r1 b r2 d ds Hl Hps S1 S2) as (h1 & Hm & Hl1 & Ho1).
  rewrite Ed', Hm. cbn [mbind res_bind]. rewrite <- Ed, app_assoc in Hl1.
  destruct (IH h1 (ps ++ merge less (a :: r1) (b :: r2)) rest2 (cnt + 1) out' k')
    as (h2 & Hp & Hl2 & Ho2); [done|by destruct ps| |done|].
  { simpl in Hn. rewrite length_app in Hn. simpl in Hn. rewrite length_app in Hn. lia. }
  assert (out = merge less (a :: r1) (b :: r2) ++ out' ∧ k = S k') as [-> ->]
    by by split; congruence.
  exists h2. rewrite <- Ed', Hp. split_and!.
  - f_equal. f_equal. lia.
  - by rewrite <- !app_assoc in *.
  - eapply only_trans; (eapply only_weaken; [|eassumption]).
    + rewrite <- Ed. intros x. rewrite !elem_of_app, !elem_of_cons, !elem_of_app.
      rewrite !elem_of_cons, !elem_of_app. tauto.
    + intros x. rewrite <- app_assoc, merge_perm.
      rewrite !elem_of_app, !elem_of_cons, !elem_of_app, !elem_of_cons, !elem_of_app. tauto.
Qed.

Lemma sort_loop_S n h L :
  sort_loop less (S n) h L =
    (a0 ← list_begin h L;
     '(cnt, h) ← pass_loop less (size h) h L a0 0;
     if 1 <? cnt then sort_loop less n h L else Ok h).
Proof. done. Qed.

Lemma sort_passes_S n xs :
  sort_passes less (S n) xs =
    let '(out, cnt) := sort_pass less (length xs) xs in
    if (1 <? cnt)%nat then sort_passes less n out else out.
Proof. done. Qed.

Lemma sort_loop_spec n h L xs :
  is_list h L xs → (runs less xs ≤ n)%nat →
  ∃ h', sort_loop less (S n) h L = Ok h'
    ∧ is_list h' L (sort_passes less (S n) xs) ∧ only (nodes L xs) h h'.
Proof.
  revert h xs; induction n as [|n IH]; intros h xs Hl Hn; rewrite sort_loop_S, sort_passes_S;
    rewrite (list_begin_spec _ _ _ Hl); cbn [mbind res_bind];
    pose proof (is_list_length _ _ _ Hl) as Hlen;
    destruct (sort_pass less (length xs) xs) as [out k] eqn:Ep;
    destruct (sort_pass_runs less (length xs) xs out k) as (R1 & R2 & _); try done;
    (destruct (pass_loop_spec (size h) h L [head_of L] xs 0 out k) as (h1 & -> & Hl1 & Ho1);
      [done|done|lia|rewrite <- Ep; apply sort_pass_fuel; lia|]);
    cbn [mbind res_bind].
  { assert (k = 0)%nat as -> by lia. exists h1. done. }
  destruct (Nat.ltb_spec 1 k) as [Hk|Hk].
  - rewrite (proj2 (Z.ltb_lt _ _)) by lia.
    destruct (IH h1 out) as (h2 & -> & Hl2 & Ho2); [done|lia|].
    exists h2. split_and!; [done..|]. eapply only_trans; [exact Ho1|].
    eapply only_weaken; [|exact Ho2].
    pose proof (sort_pass_perm less (length xs) xs ltac:(lia)) as Hp.
    rewrite Ep in Hp. simpl in Hp. unfold nodes. intros x.
    by rewrite !elem_of_cons, !elem_of_app, Hp.
  - rewrite (proj2 (Z.ltb_ge _ _)) by lia. exists h1. done.
Qed.

(** C15: [list_sort] terminates without failing an assertion and leaves the list
    holding the same elements in nondecreasing order, equivalent elements in
    their original order, and touches no link outside the list. *)
Theorem list_sort_correct h L xs :
  is_list h L xs →
  ∃ h' ys, list_sort less h L = Ok h' ∧ is_list h' L ys
    ∧ ys ≡ₚ xs ∧ sorted less ys
    ∧ (∀ x, filter (eqv less x) ys = filter (eqv less x) xs)
    ∧ only (nodes L xs) h h'.
Proof.
  intros Hl. pose proof (is_list_length _ _ _ Hl) as Hlen.
  pose proof (runs_le less xs) as Hr. unfold list_sort.
  destruct (size h) as [|n] eqn:Es; [lia|].
  destruct (sort_loop_spec n h L xs Hl) as (h' & -> & Hl' & Ho); [lia|].
  rewrite (sort_passes_fuel less n (length xs) xs) in Hl' by lia.
  cbn [mbind res_bind]. rewrite (list_begin_spec _ _ _ Hl'). cbn [mbind res_bind].
  pose proof (list_sort_sorted less xs) as Hs. unfold list_end.
  rewrite (is_sorted_spec h' [head_of L] _ (tail_of L) [] Hl'). cbn [mbind res_bind].
  pose proof (runs_sorted less _ Hs) as H1. apply Nat.leb_le in H1.
  unfold list_sort_seq in H1. rewrite H1.
  exists h', (list_sort_seq less xs).
  split_and!; [done..|apply list_sort_perm|done| |done].
  intros x. by apply list_sort_stable.
Qed.

(** ** Ordered insertion *)

Lemma ordered_loop_spec n h ps xs c qs e :
  links h (ps ++ xs ++ c :: qs) → (length xs ≤ n)%nat →
  ∃ l1 l2, xs = l1 ++ l2 ∧ insert_ordered less e xs = l1 ++ e :: l2
    ∧ ordered_loop less n h e (default c (head xs)) c = Ok (default c (head l2)).
Proof.
  revert n ps; induction xs as [|x xs IH]; intros n ps Hl Hn.
  { exists [], []. split_and!; [done..|]. destruct n; simpl; by rewrite Z.eqb_refl. }
  destruct n as [|n]; [simpl in Hn; lia|]. cbn [app] in Hl.
  cbn [ordered_loop insert_ordered head from_option id].
  rewrite (links_ne _ _ _ _ _ _ Hl). destruct (less e x).
  { by exists [], (x :: xs). }
  rewrite (links_next _ _ _ _ _ _ Hl). cbn [mbind res_bind].
  rewrite <- cons_app_assoc in Hl. destruct (IH n _ Hl) as (l1 & l2 & -> & -> & ->).
  { simpl in Hn. lia. }
  by exists (x :: l1), l2.
Qed.

(** [list_insert_ordered] inserts before the first element that the new one is
    less than. *)
Theorem list_insert_ordered_spec h L xs e :
  is_list h L xs → e ≠ NULL → is_Some (h !! e) → e ∉ nodes L xs →
  ∃ h', list_insert_ordered less h L e = Ok h'
    ∧ is_list h' L (insert_ordered less e xs) ∧ only (e :: nodes L xs) h h'.
Proof.
  intros Hl He Hs Hn. unfold list_insert_ordered.
  assert ((e =? NULL) = false) as -> by by apply Z.eqb_neq. cbn [negb]. rewrite (list_begin_spec _ _ _ Hl). cbn [mbind res_bind].
  pose proof (is_list_length _ _ _ Hl) as Hlen.
  destruct (ordered_loop_spec (size h) h [head_of L] xs (tail_of L) [] e Hl)
    as (l1 & l2 & -> & -> & Ho); [lia|]. unfold list_end. rewrite Ho. cbn [mbind res_bind].
  assert (∃ b qs, l2 ++ [tail_of L] = b :: qs ∧ default (tail_of L) (head l2) = b)
    as (b & qs & Eb & ->) by (destruct l2; simpl; eauto).
  assert (∃ a ps, head_of L :: l1 = ps ++ [a]) as (a & ps & Ea).
  { destruct (exists_last (l:=head_of L :: l1)) as (ps & a & ->); [done|]. eauto. }
  assert (En : nodes L (l1 ++ l2) = ps ++ a :: b :: qs).
  { unfold nodes. rewrite <- app_assoc, Eb, app_comm_cons, Ea. by flat_app_goal. }
  unfold is_list in *. rewrite En in *.
  destruct (list_insert_spec h ps a b qs e) as (h' & -> & Hl' & Ho');
    [done..|].
  exists h'. split_and!; [done| |].
  - unfold nodes. rewrite <- app_assoc. cbn [app]. rewrite Eb, app_comm_cons, Ea.
    flat_app_goal. done.
  - eapply only_weaken; [|exact Ho']. clear. set_solver.
Qed.

(** ** Extrema *)

Lemma extremum_loop_spec n better h ps xs c qs best :
  links h (ps ++ xs ++ c :: qs) → (length xs ≤ n)%nat →
  extremum_loop n better h best (default c (head xs)) c
    = Ok (foldl (λ m e, if better m e then e else m) best xs).
Proof.
  revert n ps best; induction xs as [|x xs IH]; intros n ps best Hl Hn.
  { destruct n; simpl; by rewrite Z.eqb_refl. }
  destruct n as [|n]; [simpl in Hn; lia|]. cbn [app] in Hl.
  cbn [extremum_loop head from_option id foldl].
  rewrite (links_ne _ _ _ _ _ _ Hl), (links_next _ _ _ _ _ _ Hl). cbn [mbind res_bind].
  rewrite <- cons_app_assoc in Hl. rewrite (IH n _ _ Hl); [done|simpl in Hn; lia].
Qed.

Lemma extremum_setup h L x xs :
  is_list h L (x :: xs) →
  (x =? tail_of L) = false ∧ list_next h x = Ok (default (tail_of L) (head xs))
  ∧ links h ([head_of L; x] ++ xs ++ [tail_of L]) ∧ (length xs ≤ size h)%nat.
Proof.
  intros Hl. pose proof (is_list_length _ _ _ Hl). unfold is_list, nodes in Hl.
  cbn [app] in Hl. split_and!; [|..|done|simpl in *; lia].
  - by apply (links_ne h [head_of L] x xs _ []).
  - by apply (links_next h [head_of L] x xs _ []).
Qed.

(** [list_max] returns the earliest element that no element exceeds, and the
    tail of an empty list; [list_min] likewise. *)
Theorem list_max_spec h L xs :
  is_list h L xs →
  list_max less h L = Ok (match xs with [] => tail_of L | x :: l => max_from less x l end).
Proof.
  intros Hl. unfold list_max, list_end. rewrite (list_begin_spec _ _ _ Hl).
  cbn [mbind res_bind]. destruct xs as [|x xs]; simpl; [by rewrite Z.eqb_refl|].
  apply extremum_setup in Hl as (Hne & Hnx & Hl & Hlen). unfold id.
  rewrite Hne, Hnx. simpl. by rewrite (extremum_loop_spec _ _ h _ xs _ [] x Hl).
Qed.

Theorem list_min_spec h L xs :
  is_list h L xs →
  list_min less h L = Ok (match xs with [] => tail_of L | x :: l => min_from less x l end).
Proof.
  intros Hl. unfold list_min, list_end. rewrite (list_begin_spec _ _ _ Hl).
  cbn [mbind res_bind]. destruct xs as [|x xs]; simpl; [by rewrite Z.eqb_refl|].
  apply extremum_setup in Hl as (Hne & Hnx & Hl & Hlen). unfold id.
  rewrite Hne, Hnx. simpl. by rewrite (extremum_loop_spec _ _ h _ xs _ [] x Hl).
Qed.

(** ** Removing duplicates *)

(** The list [D] that collects duplicates is another list of the same heap. *)
Definition dups_list (h : heap) (dups : option klist) (avoid ds : list Z) : Prop :=
  match dups with
  | None => True
  | Some D => is_list h D ds ∧ ∀ x, x ∈ nodes D ds → x ∉ avoid
  end.

Lemma unique_loop_spec n h L dups ps x xs ds :
  links h (ps ++ x :: xs ++ [tail_of L]) →
  dups_list h dups (ps ++ x :: xs ++ [tail_of L]) ds → (length xs < n)%nat →
  ∃ h', unique_loop less n h L dups x = Ok h'
    ∧ links h' (ps ++ (unique_from less x xs).1 ++ [tail_of L])
    ∧ dups_list h' dups (ps ++ (unique_from less x xs).1 ++ [tail_of L])
        (ds ++ (unique_from less x xs).2).
Proof.
  revert h ps x xs ds; induction n as [|n IH]; intros h ps x xs ds Hl Hd Hn; [lia|].
  cbn [unique_loop]. rewrite (links_next _ _ _ _ _ _ Hl). cbn [mbind res_bind].
  destruct xs as [|y xs]; cbn [head from_option id unique_from].
  { unfold list_end. rewrite Z.eqb_refl. exists h. simpl in *.
    rewrite app_nil_r. done. }
  cbn [app] in Hl, Hd. unfold list_end.
  rewrite (links_ne h (ps ++ [x]) y xs (tail_of L) []) by by rewrite <- app_assoc.
  destruct (negb (less x y) && negb (less y x)).
  - assert (∃ b qs, xs ++ [tail_of L] = b :: qs) as (b & qs & Eb)
      by (destruct xs; simpl; eauto).
    rewrite Eb in Hl, Hd. assert (Hy : is_Some (h !! y) ∧ y ≠ NULL).
    { rewrite <- cons_app_assoc in Hl. split; [rewrite (links_lookup _ _ _ _ Hl); eauto|].
      destruct Hl as (_ & H0 & _). clear -H0. set_solver. }
    assert (Hyf : y ∉ ps ++ x :: b :: qs).
    { destruct Hl as (Hnd & _). rewrite (Permutation_swap y x), <- Permutation_middle in Hnd.
      by apply NoDup_cons in Hnd as []. }
    destruct (list_remove_spec h ps x y b qs Hl) as (h1 & -> & Hl1 & Ho1).
    cbn [mbind res_bind]. destruct dups as [D|].
    + destruct Hd as [HD Hdis].
      assert (HD1 : is_list h1 D ds).
      { eapply links_only; [exact Ho1| |exact HD]. intros z Hz Hin.
        apply (Hdis z Hz). clear -Hin. set_solver. }
      assert (Hy1 : is_Some (h1 !! y)).
      { apply elem_of_dom. destruct Ho1 as [-> _]. apply elem_of_dom, Hy. }
      destruct (list_push_back_spec h1 D ds y HD1) as (h2 & -> & HD2 & Ho2);
        [apply Hy|done|intros Hin; apply (Hdis y Hin); clear; set_solver|].
      cbn [mbind res_bind].
      assert (Hl2 : links h2 (ps ++ x :: xs ++ [tail_of L])).
      { rewrite Eb. eapply links_only; [exact Ho2| |exact Hl1].
        intros z Hz [->|Hz']%elem_of_cons; [done|].
        apply (Hdis z Hz'). clear -Hz. set_solver. }
      destruct (IH h2 ps x xs (ds ++ [y]) Hl2) as (h' & -> & Hl' & Hd').
      { split; [done|]. rewrite Eb. intros z Hz Hin.
        assert (z = y ∨ z ∈ nodes D ds) as [->|Hz']
          by (clear -Hz; unfold nodes in *; set_solver); [done|].
        apply (Hdis z Hz'). clear -Hin. set_solver. }
      { simpl in Hn. lia. }
      exists h'. destruct (unique_from less x xs) as [ks dd]. simpl in *.
      by rewrite <- app_assoc in Hd'.
    + cbn [mbind res_bind]. rewrite <- Eb in Hl1.
      destruct (IH h1 ps x xs ds Hl1) as (h' & -> & Hl' & _); [done|simpl in Hn; lia|].
      exists h'. destruct (unique_from less x xs) as [ks dd]. simpl in *. done.
  - rewrite <- cons_app_assoc in Hl, Hd.
    destruct (IH h (ps ++ [x]) y xs ds Hl Hd) as (h' & -> & Hl' & Hd');
      [simpl in Hn; lia|].
    exists h'. destruct (unique_from less y xs) as [ks dd]. simpl in *.
    rewrite <- app_assoc in Hl', Hd'. done.
Qed.

(** [list_unique] keeps the first element of each group of adjacent equivalent
    elements and appends the others to [duplicates], in order. *)
Theorem list_unique_spec h L dups xs ds :
  is_list h L xs → dups_list h dups (nodes L xs) ds →
  let u := match xs with [] => ([], []) | x :: l => unique_from less x l end in
  ∃ h', list_unique less h L dups = Ok h' ∧ is_list h' L u.1
    ∧ dups_list h' dups (nodes L u.1) (ds ++ u.2).
Proof.
  intros Hl Hd. unfold list_unique. rewrite (list_empty_spec _ _ _ Hl).
  cbn [mbind res_bind]. destruct xs as [|x xs].
  { rewrite bool_decide_eq_true_2 by done. exists h. simpl. by rewrite app_nil_r. }
  rewrite bool_decide_eq_false_2 by done. rewrite (list_begin_spec _ _ _ Hl).
  cbn [mbind res_bind head from_option id].
  apply (unique_loop_spec (size h) h L dups [head_of L] x xs ds Hl Hd).
  apply is_list_length in Hl. simpl in Hl. lia.
Qed.

End order.

(** ** Initialization and reversal *)

Theorem list_init_spec h L :
  head_of L ≠ NULL → tail_of L ≠ NULL → head_of L ≠ tail_of L →
  is_Some (h !! head_of L) → is_Some (h !! tail_of L) →
  ∃ h', list_init h L = Ok h' ∧ is_list h' L [] ∧ only [head_of L; tail_of L] h h'.
Proof.
  intros Hh Ht Hne [eh Hh'] [et Ht']. unfold list_init. step_heap.
  eexists. split; [reflexivity|]. split.
  - unfold is_list, nodes, links. cbn [app]. split_and!.
    + apply NoDup_cons. split; [|apply NoDup_singleton]. clear -Hne. set_solver.
    + clear -Hh Ht. set_solver.
    + simpl. by simplify_map_eq.
  - repeat (eapply only_trans; [|apply only_insert; [|in_list]]);
      [apply only_refl|by simplify_map_eq..].
Qed.

Definition flip (e : list_elem) : list_elem := Elem (next e) (prev e).

Lemma reverse_loop_spec n h ps xs c qs :
  links h (ps ++ xs ++ c :: qs) → (length xs ≤ n)%nat →
  ∃ h', reverse_loop n h (default c (head xs)) c = Ok h'
    ∧ (∀ x, x ∈ xs → h' !! x = flip <$> h !! x) ∧ only xs h h'.
Proof.
  intros Hl Hn.
  assert (Hs : seg h (default NULL (last ps)) xs c).
  { destruct Hl as (_ & _ & Hs). seg_norm Hs. tauto. }
  assert (Hnd : NoDup xs ∧ c ∉ xs).
  { destruct Hl as (Hnd & _). rewrite !app_assoc, NoDup_middle in Hnd.
    destruct Hnd as (Hc & _ & Hnd). rewrite !NoDup_app in Hnd. clear -Hc Hnd. set_solver. }
  destruct Hnd as [Hnd Hc]. clear Hl. revert Hs. generalize (default NULL (last ps)).
  clear ps qs. revert n h Hn; induction xs as [|x xs IH]; intros n h Hn p Hs.
  { exists h. split_and!; [destruct n; simpl; by rewrite Z.eqb_refl|set_solver|done]. }
  destruct n as [|n]; [simpl in Hn; lia|]. destruct Hs as [Hx Hs].
  apply NoDup_cons in Hnd as [Hx' Hnd]. apply not_elem_of_cons in Hc as [Hcx Hc].
  cbn [reverse_loop head from_option id].
  rewrite (proj2 (Z.eqb_neq x c)) by done. unfold load. rewrite Hx.
  cbn [from_opt mbind res_bind prev next]. rewrite lookup_insert_eq.
  cbn [from_opt mbind res_bind prev].
  destruct (IH Hnd Hc n (<[x := Elem (default c (head xs)) p]> h)
    ltac:(simpl in Hn; lia) x) as (h' & -> & Hf & Ho).
  { by apply seg_insert. }
  exists h'. split_and!; [done| |].
  - intros y [->|Hy]%elem_of_cons.
    + destruct Ho as [_ ->]; [|done]. rewrite lookup_insert_eq, Hx. done.
    + rewrite Hf by done. rewrite lookup_insert_ne; [done|]. by intros ->.
  - eapply only_trans; [apply only_insert; [by rewrite Hx|constructor]|].
    eapply only_weaken; [|exact Ho]. intros y Hy. by constructor.
Qed.

(** Flipping the links of a chain reverses it. *)
Lemma seg_flip h h' p xs n :
  seg h p xs n → (∀ x, x ∈ xs → h' !! x = flip <$> h !! x) → seg h' n (reverse xs) p.
Proof.
  revert p; induction xs as [|x xs IH]; intros p; [done|]. intros [Hx Hs] Hf.
  rewrite reverse_cons, seg_app. split.
  - apply IH; [done|]. intros y Hy. apply Hf. by constructor.
  - simpl. rewrite Hf by constructor. rewrite Hx. simpl. split; [|done].
    unfold flip. simpl. by rewrite last_reverse.
Qed.

(** Redirecting the two ends of a chain. *)
Lemma seg_set_ends h p xs n p' n' :
  seg h p xs n → NoDup xs → xs ≠ [] →
  ∃ e1 e2, h !! default n (head xs) = Some e1 ∧ prev e1 = p
    ∧ h !! default p (last xs) = Some e2 ∧ next e2 = n
    ∧ ∃ h', (h1 ← set_prev h (default n (head xs)) p';
             set_next h1 (default p (last xs)) n') = Ok h'
    ∧ seg h' p' xs n' ∧ only xs h h'.
Proof.
  intros Hs Hnd Hne. destruct xs as [|f xs]; [done|]. clear Hne.
  destruct xs as [|l xs _] using rev_ind.
  - destruct Hs as [Hf _]. simpl in Hf. simpl. unfold id. eexists _, _.
    split_and!; try exact Hf; [done..|]. step_heap. eexists. split; [reflexivity|].
    split; [by simplify_map_eq|].
    repeat (eapply only_trans; [|apply only_insert; [|in_list]]);
      [apply only_refl|by simplify_map_eq..].
  - rewrite app_comm_cons, last_snoc. cbn [head from_option id app].
    seg_norm Hs. destruct Hs as (Hf & Hs & Hl & _). split_nodup Hnd. eexists _, _.
    split_and!; [exact Hf|done|exact Hl|done|]. step_heap. eexists. split; [reflexivity|].
    split.
    + repeat (first [rewrite seg_app|rewrite head_app_cons
        |progress cbn [seg head last from_option app id]]).
      rewrite !seg_insert by done. by simplify_map_eq.
    + repeat (eapply only_trans; [|apply only_insert; [|in_list]]);
        [apply only_refl|by simplify_map_eq..].
Qed.

(** [list_reverse] reverses the list. *)
Theorem list_reverse_spec h L xs :
  is_list h L xs →
  ∃ h', list_reverse h L = Ok h' ∧ is_list h' L (reverse xs) ∧ only (nodes L xs) h h'.
Proof.
  intros Hl. unfold list_reverse. rewrite (list_empty_spec _ _ _ Hl).
  cbn [mbind res_bind]. destruct (decide (xs = [])) as [->|Hne].
  { rewrite bool_decide_eq_true_2 by done. exists h. eauto using only_refl. }
  rewrite bool_decide_eq_false_2 by done. rewrite (list_begin_spec _ _ _ Hl).
  cbn [mbind res_bind]. pose proof (is_list_length _ _ _ Hl) as Hlen. unfold list_end.
  destruct (reverse_loop_spec (size h) h [head_of L] xs (tail_of L) [] Hl)
    as (h1 & -> & Hf & Ho1); [lia|]. cbn [mbind res_bind].
  pose proof Hl as (Hnd & H0 & Hs). unfold nodes in Hnd, H0, Hs.
  seg_norm Hs. destruct Hs as (Hh & Hs & Ht & _).
  assert (Hs1 := seg_flip h h1 _ xs _ Hs Hf).
  apply NoDup_cons in Hnd as [Hhx Hnd]. apply not_elem_of_app in Hhx as [Hhx Hht].
  apply not_elem_of_cons in Hht as [Hht _].
  rewrite NoDup_middle, app_nil_r in Hnd. destruct Hnd as (Htx & _ & Hnd).
  pose proof Ho1 as [_ Hk]. rewrite <- (Hk (head_of L)) in Hh by done.
  rewrite <- (Hk (tail_of L)) in Ht by done.
  step_heap.
  assert (Hr : reverse xs ≠ []). { intros E%(f_equal reverse). by rewrite reverse_involutive in E. }
  set (h2 := <[tail_of L := _]> _).
  assert (Hs2 : seg h2 (tail_of L) (reverse xs) (head_of L)).
  { apply seg_insert; [by rewrite elem_of_reverse|].
    apply seg_insert; [by rewrite elem_of_reverse|done]. }
  destruct (seg_set_ends h2 _ _ _ (head_of L) (tail_of L) Hs2)
    as (e1 & e2 & He1 & Hp1 & He2 & Hn2 & h3 & Hset & Hs3 & Ho3);
    [by rewrite reverse_Permutation|done|].
  rewrite head_reverse, last_reverse in *.
  rewrite !(load_Ok _ _ _ He1). cbn [mbind res_bind].
  rewrite !(load_Ok _ _ _ He2). cbn [mbind res_bind]. rewrite Hp1, Hn2.
  exists h3. split_and!; [exact Hset| |].
  - pose proof Ho3 as [_ Hk3]. unfold is_list, nodes, links. split_and!.
    + destruct Hl as (Hn & _). by rewrite reverse_Permutation.
    + by rewrite reverse_Permutation.
    + assert (Hd : ∀ x, x ∉ xs → h3 !! x = h2 !! x).
      { intros x Hx. apply Hk3. by rewrite elem_of_reverse. }
      cbn [seg]. rewrite Hd by done. unfold h2. rewrite lookup_insert_ne, lookup_insert_eq by done.
      split.
      * do 2 f_equal. rewrite <- head_reverse. by destruct (reverse xs).
      * rewrite seg_app. split; [done|]. cbn [seg]. rewrite Hd by done. unfold h2.
        rewrite lookup_insert_eq. split; [|done]. rewrite last_reverse.
        do 2 f_equal. by destruct xs.
  - assert (Hsub : ∀ x, x ∈ xs → x ∈ nodes L xs) by (unfold nodes; set_solver).
    eapply only_trans; [eapply only_weaken; [exact Hsub|exact Ho1]|].
    eapply only_trans.
    + eapply (only_trans _ _ (<[head_of L := _]> h1)).
      * apply only_insert; [by rewrite Hh|unfold nodes; in_list].
      * apply (only_insert _ _ (tail_of L)); [|unfold nodes; in_list].
        rewrite lookup_insert_ne by done. by rewrite Ht.
    + eapply only_weaken; [|exact Ho3]. intros x. rewrite elem_of_reverse. apply Hsub.
Qed.

(** A list of three elements, stored out of order. *)
Definition demo_list : klist := KList 10 11.
Definition demo_heap : heap :=
  {[ 10 := Elem 0 3; 3 := Elem 10 1; 1 := Elem 3 2; 2 := Elem 1 11; 11 := Elem 2 0 ]}.

Lemma demo_is_list : is_list demo_heap demo_list [3; 1; 2].
Proof.
  split_and!; [apply (bool_decide_unpack _); by vm_compute..|].
  cbn. repeat split; by vm_compute.
Qed.

Lemma list_sort_correct_witness :
  is_list demo_heap demo_list [3; 1; 2] ∧
  ∃ h' ys, list_sort Z.ltb demo_heap demo_list = Ok h' ∧ is_list h' demo_list ys
    ∧ ys ≡ₚ [3; 1; 2] ∧ sorted Z.ltb ys
    ∧ (∀ x, filter (eqv Z.ltb x) ys = filter (eqv Z.ltb x) [3; 1; 2])
    ∧ only (nodes demo_list [3; 1; 2]) demo_heap h'.
Proof.
  split; [exact demo_is_list|].
  exact (list_sort_correct Z.ltb demo_heap demo_list [3; 1; 2] demo_is_list).
Defined.
