(* ===== verification/Bitmap.v ===== *)
(** * Bitmaps, [lib/kernel/bitmap.c]

    A bitmap is an array of 32-bit elements that simulates an array of bits.
    [bit b i] is the bit numbered [i]; the theorems say what each routine does to
    the bits, with [size_t] arithmetic modulo 2^32. *)

From S2P Require Import Prelude.

(** [lib/round.h]. *)
Definition ROUND_UP (x step : Z) : Z := u32 (u32 (x + step - 1) / step * step).
Definition DIV_ROUND_UP (x step : Z) : Z := u32 (x + step - 1) / step.
Definition ROUND_DOWN (x step : Z) : Z := x / step * step.

Module Bitmap.

Definition ELEM_BITS : Z := 32.
Definition BITMAP_ERROR : Z := 2 ^ 32 - 1.

Record bitmap := Bm { bit_cnt : Z; bits : list Z }.

Definition elem_idx (bit_idx : Z) : Z := bit_idx / ELEM_BITS.
Definition bit_mask (bit_idx : Z) : Z := u32 (Z.shiftl 1 (bit_idx mod ELEM_BITS)).
Definition elem_cnt (cnt : Z) : Z := DIV_ROUND_UP cnt ELEM_BITS.
Definition byte_cnt (cnt : Z) : Z := u32 (4 * elem_cnt cnt).
Definition last_mask (b : bitmap) : Z :=
  let last_bits := bit_cnt b mod ELEM_BITS in
  if negb (last_bits =? 0) then u32 (u32 (Z.shiftl 1 last_bits) - 1) else u32 (-1).

Definition bitmap_size (b : bitmap) : Z := bit_cnt b.

(** [b->bits[idx]], read and written. *)
Definition word (b : bitmap) (idx : Z) : res Z := from_opt (bits b !! Z.to_nat idx).
Definition set_word (b : bitmap) (idx w : Z) : bitmap :=
  Bm (bit_cnt b) (<[Z.to_nat idx := w]> (bits b)).

Definition bitmap_mark (b : bitmap) (bit_idx : Z) : res bitmap :=
  let idx := elem_idx bit_idx in
  let mask := bit_mask bit_idx in
  w ← word b idx; Ok (set_word b idx (Z.lor w mask)).
Definition bitmap_reset (b : bitmap) (bit_idx : Z) : res bitmap :=
  let idx := elem_idx bit_idx in
  let mask := bit_mask bit_idx in
  w ← word b idx; Ok (set_word b idx (Z.land w (u32 (Z.lnot mask)))).
Definition bitmap_flip (b : bitmap) (bit_idx : Z) : res bitmap :=
  let idx := elem_idx bit_idx in
  let mask := bit_mask bit_idx in
  w ← word b idx; Ok (set_word b idx (Z.lxor w mask)).
Definition bitmap_set (b : bitmap) (idx : Z) (value : bool) : res bitmap :=
  ASSERT idx <? bit_cnt b;;
  if value then bitmap_mark b idx else bitmap_reset b idx.
Definition bitmap_test (b : bitmap) (idx : Z) : res bool :=
  ASSERT idx <? bit_cnt b;;
  w ← word b (elem_idx idx);
  Ok (negb (Z.land w (bit_mask idx) =? 0)).

(** [for (i = 0; i < cnt; i++)]: [n] iterations are left, the counter is [i]. *)
Fixpoint set_loop (n : nat) (b : bitmap) (start i : Z) (value : bool) : res bitmap :=
  match n with
  | O => Ok b
  | S n' => b ← bitmap_set b (u32 (start + i)) value; set_loop n' b start (i + 1) value
  end.
Definition bitmap_set_multiple (b : bitmap) (start cnt : Z) (value : bool) : res bitmap :=
  ASSERT start <=? bit_cnt b;;
  ASSERT u32 (start + cnt) <=? bit_cnt b;;
  set_loop (Z.to_nat cnt) b start 0 value.
Definition bitmap_set_all (b : bitmap) (value : bool) : res bitmap :=
  bitmap_set_multiple b 0 (bitmap_size b) value.

Fixpoint count_loop (n : nat) (b : bitmap) (start i : Z) (value : bool) (acc : Z) : res Z :=
  match n with
  | O => Ok acc
  | S n' =>
      t ← bitmap_test b (u32 (start + i));
      count_loop n' b start (i + 1) value (if Bool.eqb t value then acc + 1 else acc)
  end.
Definition bitmap_count (b : bitmap) (start cnt : Z) (value : bool) : res Z :=
  ASSERT start <=? bit_cnt b;;
  ASSERT u32 (start + cnt) <=? bit_cnt b;;
  count_loop (Z.to_nat cnt) b start 0 value 0.

Fixpoint contains_loop (n : nat) (b : bitmap) (start i : Z) (value : bool) : res bool :=
  match n with
  | O => Ok false
  | S n' =>
      t ← bitmap_test b (u32 (start + i));
      if Bool.eqb t value then Ok true else contains_loop n' b start (i + 1) value
  end.
Definition bitmap_contains (b : bitmap) (start cnt : Z) (value : bool) : res bool :=
  ASSERT start <=? bit_cnt b;;
  ASSERT u32 (start + cnt) <=? bit_cnt b;;
  contains_loop (Z.to_nat cnt) b start 0 value.

Definition bitmap_any (b : bitmap) (start cnt : Z) : res bool :=
  bitmap_contains b start cnt true.
Definition bitmap_none (b : bitmap) (start cnt : Z) : res bool :=
  negb <$> bitmap_contains b start cnt true.
Definition bitmap_all (b : bitmap) (start cnt : Z) : res bool :=
  negb <$> bitmap_contains b start cnt false.

(** [for (i = start; i <= last; i++)]: [n] values of [i] are left. *)
Fixpoint scan_loop (n : nat) (b : bitmap) (i cnt : Z) (value : bool) : res Z :=
  match n with
  | O => Ok BITMAP_ERROR
  | S n' =>
      c ← bitmap_contains b i cnt (negb value);
      if negb c then Ok i else scan_loop n' b (i + 1) cnt value
  end.
Definition bitmap_scan (b : bitmap) (start cnt : Z) (value : bool) : res Z :=
  ASSERT start <=? bit_cnt b;;
  if cnt <=? bit_cnt b then
    let last := bit_cnt b - cnt in
    scan_loop (Z.to_nat (last + 1 - start)) b start cnt value
  else Ok BITMAP_ERROR.

Definition bitmap_scan_and_flip (b : bitmap) (start cnt : Z) (value : bool)
    : res (Z * bitmap) :=
  idx ← bitmap_scan b start cnt value;
  if negb (idx =? BITMAP_ERROR) then
    b ← bitmap_set_multiple b idx cnt (negb value); Ok (idx, b)
  else Ok (idx, b).

(** [bitmap_create]: the results of the two allocations are arguments, the
    second with the contents that the memory happens to have. *)
Definition bitmap_create (mem1 : bool) (mem2 : option (list Z)) (cnt : Z)
    : res (option bitmap) :=
  if mem1 then
    match mem2 with
    | Some junk => Some <$> bitmap_set_all (Bm cnt junk) false
    | None => if cnt =? 0 then Some <$> bitmap_set_all (Bm cnt []) false else Ok None
    end
  else Ok None.
Definition bitmap_buf_size (cnt : Z) : Z := u32 (8 + byte_cnt cnt).
Definition bitmap_create_in_buf (cnt : Z) (junk : list Z) (block_size : Z) : res bitmap :=
  ASSERT bitmap_buf_size cnt <=? block_size;;
  bitmap_set_all (Bm cnt junk) false.
Definition bitmap_file_size (b : bitmap) : Z := byte_cnt (bit_cnt b).

(** ** Well-formed bitmaps and their bits *)

Definition wf (b : bitmap) : Prop :=
  0 ≤ bit_cnt b < 2 ^ 32 - 32 ∧ Z.of_nat (length (bits b)) = elem_cnt (bit_cnt b)
  ∧ Forall (λ w, 0 ≤ w < 2 ^ 32) (bits b).

Definition bit (b : bitmap) (i : Z) : bool :=
  Z.testbit (default 0 (bits b !! Z.to_nat (i / 32))) (i mod 32).

(** All bits from [start] up to [start + cnt] have the value [v]. *)
Definition all_bits (b : bitmap) (start cnt : Z) (v : bool) : Prop :=
  ∀ j, start ≤ j < start + cnt → bit b j = v.

Lemma wf_word b i :
  wf b → 0 ≤ i < bit_cnt b →
  ∃ w, bits b !! Z.to_nat (i / 32) = Some w ∧ 0 ≤ w < 2 ^ 32 ∧ bit b i = Z.testbit w (i mod 32).
Proof.
  intros (Hb & Hl & Hf) Hi. unfold elem_cnt, DIV_ROUND_UP, ELEM_BITS in Hl.
  rewrite u32_small in Hl by lia.
  assert (Hlt : (Z.to_nat (i / 32) < length (bits b))%nat).
  { pose proof (Z.div_pos i 32). assert (i / 32 < Z.of_nat (length (bits b))); [|lia].
    rewrite Hl. apply Z.div_lt_upper_bound; [lia|].
    pose proof (Z.mul_succ_div_gt (bit_cnt b + 32 - 1) 32). lia. }
  apply lookup_lt_is_Some in Hlt as [w Hw]. exists w. rewrite Forall_lookup in Hf.
  split_and!; try (by eapply Hf); [done|]. unfold bit. by rewrite Hw.
Qed.

Lemma bit_mask_pow i : bit_mask i = 2 ^ (i mod 32).
Proof.
  unfold bit_mask, ELEM_BITS. rewrite Z.shiftl_1_l. apply u32_small.
  pose proof (Z.mod_pos_bound i 32). split; [apply Z.pow_nonneg; lia|].
  apply Z.pow_lt_mono_r; lia.
Qed.

Lemma testbit_land_pow w k : 0 ≤ k → negb (Z.land w (2 ^ k) =? 0) = Z.testbit w k.
Proof.
  intros Hk. destruct (Z.testbit w k) eqn:E.
  - apply negb_true_iff, Z.eqb_neq. intros H0.
    apply (f_equal (λ z, Z.testbit z k)) in H0.
    rewrite Z.land_spec, E, Z.pow2_bits_true, Z.bits_0 in H0 by lia. done.
  - apply negb_false_iff, Z.eqb_eq. apply Z.bits_inj'. intros n Hn.
    rewrite Z.land_spec, Z.bits_0. destruct (decide (n = k)) as [->|]; [by rewrite E|].
    by rewrite Z.pow2_bits_false, andb_false_r by lia.
Qed.

Theorem bitmap_test_spec b i :
  wf b → 0 ≤ i →
  bitmap_test b i = if i <? bit_cnt b then Ok (bit b i) else Panic.
Proof.
  intros Hwf Hi. unfold bitmap_test. destruct (Z.ltb_spec i (bit_cnt b)); [|done].
  destruct (wf_word b i) as (w & Hw & _ & Hbit); [done|lia|].
  unfold word, elem_idx, ELEM_BITS. rewrite Hw. simpl.
  rewrite bit_mask_pow, testbit_land_pow, Hbit; [done|].
  apply Z.mod_pos_bound. lia.
Qed.

(** Writing one word changes the bits of that word only. *)
Lemma bit_set_word b i w v :
  wf b → 0 ≤ i < bit_cnt b → 0 ≤ w < 2 ^ 32 →
  (∀ k, 0 ≤ k < 32 → Z.testbit w k =
    if k =? i mod 32 then v else bit b (i / 32 * 32 + k)) →
  wf (set_word b (i / 32) w) ∧
  ∀ j, 0 ≤ j → bit (set_word b (i / 32) w) j = if j =? i then v else bit b j.
Proof.
  intros Hwf Hi Hw Hk. destruct (wf_word b i) as (w0 & Hw0 & _); [done|lia|].
  destruct Hwf as (Hb & Hl & Hf). apply lookup_lt_Some in Hw0. split.
  - split_and!; simpl; [lia..| |].
    + by rewrite length_insert.
    + by apply Forall_insert.
  - intros j Hj. unfold bit at 1. simpl.
    pose proof (Z.div_mod i 32). pose proof (Z.div_mod j 32).
    pose proof (Z.mod_pos_bound i 32). pose proof (Z.mod_pos_bound j 32).
    destruct (decide (j / 32 = i / 32)) as [E|E].
    + rewrite E, list_lookup_insert_eq by done. simpl. rewrite Hk by lia.
      replace (i / 32 * 32 + j mod 32) with j by lia.
      destruct (Z.eqb_spec j i), (Z.eqb_spec (j mod 32) (i mod 32)); try done;
        subst; lia.
    + rewrite list_lookup_insert_ne.
      * destruct (Z.eqb_spec j i); [by subst|]. done.
      * pose proof (Z.div_pos i 32). pose proof (Z.div_pos j 32). lia.
Qed.

Lemma bit_in_word b i k :
  wf b → 0 ≤ i < bit_cnt b → 0 ≤ k < 32 →
  ∀ w, bits b !! Z.to_nat (i / 32) = Some w → bit b (i / 32 * 32 + k) = Z.testbit w k.
Proof.
  intros _ Hi Hk w Hw. unfold bit.
  rewrite Z.div_add_l, (Z.div_small k), Z.add_0_r, Hw by lia. simpl.
  by rewrite Z.add_comm, Z.mod_add, (Z.mod_small k) by lia.
Qed.

(** The element that [bitmap_mark] ([v] true) or [bitmap_reset] stores. *)
Definition put_bit (w k : Z) (v : bool) : Z :=
  if v then Z.lor w (2 ^ k) else Z.land w (u32 (Z.lnot (2 ^ k))).

Lemma put_bit_testbit w k v j :
  0 ≤ w < 2 ^ 32 → 0 ≤ k < 32 → 0 ≤ j →
  Z.testbit (put_bit w k v) j = if j =? k then v else Z.testbit w j.
Proof.
  intros Hw Hk Hj. unfold put_bit. destruct v.
  - rewrite Z.lor_spec, Z.pow2_bits_eqb, (Z.eqb_sym k) by lia.
    destruct (j =? k); [apply orb_true_r|apply orb_false_r].
  - rewrite Z.land_spec. with_strategy transparent [u32] unfold u32.
    destruct (Z.ltb_spec j 32).
    + rewrite Z.mod_pow2_bits_low, Z.lnot_spec, Z.pow2_bits_eqb, (Z.eqb_sym k) by lia.
      destruct (j =? k); [apply andb_false_r|apply andb_true_r].
    + rewrite (testbit_above 32), (proj2 (Z.eqb_neq j k)) by lia. done.
Qed.

Lemma put_bit_range w k v :
  0 ≤ w < 2 ^ 32 → 0 ≤ k < 32 → 0 ≤ put_bit w k v < 2 ^ 32.
Proof.
  intros Hw Hk. apply bits_range; [lia|]. intros j Hj.
  by rewrite put_bit_testbit, (proj2 (Z.eqb_neq j k)), (testbit_above 32) by lia.
Qed.

Theorem bitmap_set_spec b i v :
  wf b → 0 ≤ i < bit_cnt b →
  ∃ b', bitmap_set b i v = Ok b' ∧ wf b' ∧ bit_cnt b' = bit_cnt b
    ∧ ∀ j, 0 ≤ j → bit b' j = if j =? i then v else bit b j.
Proof.
  intros Hwf Hi. destruct (wf_word b i) as (w & Hw & Hr & _); [done|lia|].
  pose proof (Z.mod_pos_bound i 32).
  destruct (bit_set_word b i (put_bit w (i mod 32) v) v) as [Hwf' Hbit];
    [done|done|by apply put_bit_range; lia| |].
  { intros k Hk. rewrite put_bit_testbit by lia. by rewrite (bit_in_word b i k Hwf Hi Hk w Hw). }
  exists (set_word b (i / 32) (put_bit w (i mod 32) v)). split_and!; [|done..].
  unfold bitmap_set. rewrite (proj2 (Z.ltb_lt _ _)) by lia.
  unfold bitmap_mark, bitmap_reset, word, elem_idx, ELEM_BITS. rewrite Hw. simpl.
  rewrite bit_mask_pow. by destruct v.
Qed.

Theorem bitmap_flip_spec b i :
  wf b → 0 ≤ i < bit_cnt b →
  ∃ b', bitmap_flip b i = Ok b' ∧ wf b' ∧ bit_cnt b' = bit_cnt b
    ∧ ∀ j, 0 ≤ j → bit b' j = if j =? i then negb (bit b i) else bit b j.
Proof.
  intros Hwf Hi. destruct (wf_word b i) as (w & Hw & Hr & Hbi); [done|lia|].
  pose proof (Z.mod_pos_bound i 32).
  assert (Hx : ∀ k, 0 ≤ k → Z.testbit (Z.lxor w (2 ^ (i mod 32))) k =
    if k =? i mod 32 then negb (bit b i) else Z.testbit w k).
  { intros k Hk. rewrite Z.lxor_spec, Z.pow2_bits_eqb, (Z.eqb_sym (i mod 32)) by lia.
    destruct (Z.eqb_spec k (i mod 32)) as [->|]; [|apply xorb_false_r].
    rewrite Hbi. apply xorb_true_r. }
  assert (E : Z.lxor w (2 ^ (i mod 32)) = put_bit w (i mod 32) (negb (bit b i))).
  { apply Z.bits_inj'. intros k Hk. by rewrite Hx, put_bit_testbit by lia. }
  destruct (bit_set_word b i (Z.lxor w (2 ^ (i mod 32))) (negb (bit b i))) as [Hwf' Hbit];
    [done|done|rewrite E; apply put_bit_range; lia| |].
  { intros k Hk. rewrite Hx by lia. by rewrite (bit_in_word b i k Hwf Hi Hk w Hw). }
  eexists. split_and!; [|apply Hwf'|done|apply Hbit].
  unfold bitmap_flip, word, elem_idx, ELEM_BITS. rewrite Hw. simpl. by rewrite bit_mask_pow.
Qed.

(** ** Groups of bits *)

Lemma set_loop_spec n v : ∀ b start i,
  wf b → 0 ≤ start → 0 ≤ i → start + i + Z.of_nat n ≤ bit_cnt b →
  ∃ b', set_loop n b start i v = Ok b' ∧ wf b' ∧ bit_cnt b' = bit_cnt b
    ∧ ∀ j, 0 ≤ j → bit b' j =
        if (start + i <=? j) && (j <? start + i + Z.of_nat n) then v else bit b j.
Proof.
  induction n as [|n IH]; intros b start i Hwf Hs Hi Hle.
  { exists b. split_and!; try done. intros j Hj.
    destruct (Z.leb_spec (start + i) j), (Z.ltb_spec j (start + i + Z.of_nat 0)); done || lia. }
  pose proof (proj1 Hwf).
  destruct (bitmap_set_spec b (start + i) v) as (b1 & H1 & Hwf1 & Hc1 & Hb1); [done|lia|].
  destruct (IH b1 start (i + 1)) as (b2 & H2 & Hwf2 & Hc2 & Hb2); [done|lia..|].
  exists b2. simpl. rewrite u32_small, H1 by lia. simpl. split_and!; [done|done|congruence|].
  intros j Hj. rewrite Hb2, Hb1 by done.
  destruct (Z.leb_spec (start + (i + 1)) j), (Z.leb_spec (start + i) j), (Z.eqb_spec j (start + i)),
    (Z.ltb_spec j (start + (i + 1) + Z.of_nat n)), (Z.ltb_spec j (start + i + Z.of_nat (S n)));
    done || lia.
Qed.

Theorem bitmap_set_multiple_spec b start cnt v :
  wf b → 0 ≤ start → 0 ≤ cnt → start + cnt ≤ bit_cnt b →
  ∃ b', bitmap_set_multiple b start cnt v = Ok b' ∧ wf b' ∧ bit_cnt b' = bit_cnt b
    ∧ ∀ j, 0 ≤ j → bit b' j = if (start <=? j) && (j <? start + cnt) then v else bit b j.
Proof.
  intros Hwf Hs Hc Hle. pose proof (proj1 Hwf). unfold bitmap_set_multiple.
  rewrite u32_small by lia. rewrite !(proj2 (Z.leb_le _ _)) by lia.
  destruct (set_loop_spec (Z.to_nat cnt) v b start 0) as (b' & H1 & H2 & H3 & H4);
    [done|lia..|].
  exists b'. split_and!; [done..|]. intros j Hj. rewrite H4 by done.
  by rewrite Z2Nat.id, Z.add_0_r by lia.
Qed.

Lemma contains_loop_spec n v : ∀ b start i,
  wf b → 0 ≤ start → 0 ≤ i → start + i + Z.of_nat n ≤ bit_cnt b →
  ∃ r, contains_loop n b start i v = Ok r ∧
    (r = false ↔ all_bits b (start + i) (Z.of_nat n) (negb v)).
Proof.
  induction n as [|n IH]; intros b start i Hwf Hs Hi Hle; pose proof (proj1 Hwf).
  { exists false. split; [done|]. split; [|done]. intros _ j Hj. lia. }
  simpl. rewrite u32_small, bitmap_test_spec by (done || lia).
  rewrite (proj2 (Z.ltb_lt _ _)) by lia. simpl.
  destruct (Bool.eqb_spec (bit b (start + i)) v) as [E|E].
  - exists true. split; [done|]. split; [done|]. intros Ha.
    assert (v = negb v) by (rewrite <- E at 1; apply Ha; lia). by destruct v.
  - destruct (IH b start (i + 1)) as (r & -> & Hr); [done|lia..|]. exists r. split; [done|].
    rewrite Hr. split; intros Ha j Hj.
    + destruct (decide (j = start + i)) as [->|]; [|apply Ha; lia].
      by destruct (bit b (start + i)), v.
    + apply Ha. lia.
Qed.

Theorem bitmap_contains_spec b start cnt v :
  wf b → 0 ≤ start → 0 ≤ cnt → start + cnt ≤ bit_cnt b →
  ∃ r, bitmap_contains b start cnt v = Ok r ∧ (r = false ↔ all_bits b start cnt (negb v)).
Proof.
  intros Hwf Hs Hc Hle. pose proof (proj1 Hwf). unfold bitmap_contains.
  rewrite u32_small by lia. rewrite !(proj2 (Z.leb_le _ _)) by lia.
  destruct (contains_loop_spec (Z.to_nat cnt) v b start 0) as (r & H1 & H2); [done|lia..|].
  exists r. split; [done|]. by rewrite H2, Z2Nat.id, Z.add_0_r by lia.
Qed.

(** [bitmap_none] and [bitmap_all] decide what their names say. *)
Theorem bitmap_none_all_spec b start cnt (v : bool) :
  wf b → 0 ≤ start → 0 ≤ cnt → start + cnt ≤ bit_cnt b →
  ∃ r, (if v then bitmap_all b start cnt else bitmap_none b start cnt) = Ok r
    ∧ (r = true ↔ all_bits b start cnt v).
Proof.
  intros Hwf Hs Hc Hle.
  destruct (bitmap_contains_spec b start cnt (negb v)) as (r & H1 & H2); [done..|].
  exists (negb r). rewrite negb_involutive in H2. rewrite negb_true_iff, H2. split; [|done].
  unfold bitmap_all, bitmap_none. destruct v; simpl in H1; by rewrite H1.
Qed.

(** How many of the [n] bits from [start] on have the value [v]. *)
Fixpoint count_bits (b : bitmap) (start : Z) (n : nat) (v : bool) : Z :=
  match n with
  | O => 0
  | S n' => (if Bool.eqb (bit b start) v then 1 else 0) + count_bits b (start + 1) n' v
  end.

Lemma count_loop_spec n v : ∀ b start i acc,
  wf b → 0 ≤ start → 0 ≤ i → start + i + Z.of_nat n ≤ bit_cnt b →
  count_loop n b start i v acc = Ok (acc + count_bits b (start + i) n v).
Proof.
  induction n as [|n IH]; intros b start i acc Hwf Hs Hi Hle; pose proof (proj1 Hwf); simpl.
  { by rewrite Z.add_0_r. }
  rewrite u32_small, bitmap_test_spec by (done || lia).
  rewrite (proj2 (Z.ltb_lt _ _)) by lia. simpl. rewrite IH by (done || lia).
  rewrite Z.add_assoc. f_equal. destruct (Bool.eqb _ _); lia.
Qed.

(** ** Searching *)

Lemma scan_loop_spec n v : ∀ b i cnt,
  wf b → 0 ≤ i → 0 ≤ cnt → i + Z.of_nat n + cnt ≤ bit_cnt b + 1 →
  ∃ r, scan_loop n b i cnt v = Ok r ∧
    ((i ≤ r < i + Z.of_nat n ∧ all_bits b r cnt v ∧ ∀ j, i ≤ j < r → ¬ all_bits b j cnt v)
     ∨ (r = BITMAP_ERROR ∧ ∀ j, i ≤ j < i + Z.of_nat n → ¬ all_bits b j cnt v)).
Proof.
  induction n as [|n IH]; intros b i cnt Hwf Hi Hc Hle.
  { exists BITMAP_ERROR. split; [done|]. right. split; [done|]. lia. }
  simpl. destruct (bitmap_contains_spec b i cnt (negb v)) as (r & -> & Hr); [done|lia..|].
  rewrite negb_involutive in Hr. simpl. destruct r; simpl.
  - assert (Hno : ¬ all_bits b i cnt v) by (intros Ha; apply Hr in Ha; done).
    destruct (IH b (i + 1) cnt) as (r & -> & Hcase); [done|lia..|].
    exists r. split; [done|]. destruct Hcase as [(Hr1 & Hr2 & Hr3)|[Hr1 Hr2]]; [left|right].
    + split_and!; [lia..|done|]. intros j Hj.
      destruct (decide (j = i)) as [->|]; [done|]. apply Hr3. lia.
    + split; [done|]. intros j Hj. destruct (decide (j = i)) as [->|]; [done|]. apply Hr2. lia.
  - exists i. split; [done|]. left. split_and!; [lia..|by apply Hr|]. lia.
Qed.

(** [bitmap_scan] returns the least start of a group of [cnt] bits of value [v]
    at or after [start], and [BITMAP_ERROR] when there is none. *)
Theorem bitmap_scan_spec b start cnt v :
  wf b → 0 ≤ start ≤ bit_cnt b → 0 ≤ cnt →
  ∃ r, bitmap_scan b start cnt v = Ok r ∧
    ((start ≤ r ∧ r + cnt ≤ bit_cnt b ∧ all_bits b r cnt v
      ∧ ∀ j, start ≤ j < r → ¬ all_bits b j cnt v)
     ∨ (r = BITMAP_ERROR ∧ ∀ j, start ≤ j → j + cnt ≤ bit_cnt b → ¬ all_bits b j cnt v)).
Proof.
  intros Hwf Hs Hc. unfold bitmap_scan. rewrite (proj2 (Z.leb_le _ _)) by lia.
  destruct (Z.leb_spec cnt (bit_cnt b));
    [destruct (Z.leb_spec start (bit_cnt b - cnt))|].
  - destruct (scan_loop_spec (Z.to_nat (bit_cnt b - cnt + 1 - start)) v b start cnt)
      as (r & -> & Hcase); [done|lia..|].
    exists r. split; [done|].
    destruct Hcase as [(Hr1 & Hr2 & Hr3)|[Hr1 Hr2]]; [left|right].
    + split_and!; [lia..|done|done].
    + split; [done|]. intros j Hj Hj'. apply Hr2. lia.
  - replace (Z.to_nat _) with 0%nat by lia. exists BITMAP_ERROR. split; [done|]. right.
    split; [done|]. lia.
  - exists BITMAP_ERROR. split; [done|]. right. split; [done|]. lia.
Qed.

(** What an allocator gets from [bitmap_scan_and_flip]: either the least free
    group at or after [start], now taken and nothing else changed, or
    [BITMAP_ERROR] with the bitmap unchanged, and then no group is free. *)
Lemma scan_and_flip_spec b start cnt v :
  wf b → 0 ≤ start ≤ bit_cnt b → 0 ≤ cnt →
  ∃ r b', bitmap_scan_and_flip b start cnt v = Ok (r, b') ∧ wf b' ∧ bit_cnt b' = bit_cnt b ∧
    ((r ≠ BITMAP_ERROR ∧ start ≤ r ∧ r + cnt ≤ bit_cnt b ∧ all_bits b r cnt v
      ∧ (∀ j, start ≤ j < r → ¬ all_bits b j cnt v)
      ∧ ∀ j, 0 ≤ j → bit b' j = if (r <=? j) && (j <? r + cnt) then negb v else bit b j)
     ∨ (r = BITMAP_ERROR ∧ b' = b
        ∧ ∀ j, start ≤ j → j + cnt ≤ bit_cnt b → ¬ all_bits b j cnt v)).
Proof.
  intros Hwf Hs Hc. pose proof (proj1 Hwf). unfold bitmap_scan_and_flip.
  destruct (bitmap_scan_spec b start cnt v) as (r & -> & Hcase); [done..|]. simpl.
  destruct Hcase as [(Hr1 & Hr2 & Hr3 & Hr4)|[-> Hr]].
  - rewrite (proj2 (Z.eqb_neq r BITMAP_ERROR)) by (unfold BITMAP_ERROR; lia). simpl.
    destruct (bitmap_set_multiple_spec b r cnt (negb v)) as (b' & -> & H2 & H3 & H4);
      [done|lia..|].
    exists r, b'. simpl. split_and!; [done..|]. left.
    split_and!; try done. unfold BITMAP_ERROR. lia.
  - exists BITMAP_ERROR, b. split_and!; [done..|]. by right.
Qed.

(** A fresh bitmap has all its bits clear, whatever the memory held. *)
Theorem bitmap_create_spec cnt junk :
  wf (Bm cnt junk) →
  ∃ b, bitmap_create true (Some junk) cnt = Ok (Some b) ∧ wf b ∧ bit_cnt b = cnt
    ∧ ∀ j, 0 ≤ j < cnt → bit b j = false.
Proof.
  intros Hwf. unfold bitmap_create, bitmap_set_all, bitmap_size. pose proof (proj1 Hwf) as Hc.
  destruct (bitmap_set_multiple_spec (Bm cnt junk) 0 cnt false) as (b & H1 & H2 & H3 & H4);
    [done|simpl in *; lia..|].
  exists b. change (bit_cnt (Bm cnt junk)) with cnt. rewrite H1. split_and!; [done..|].
  intros j Hj. rewrite H4 by lia. by rewrite (proj2 (Z.leb_le _ _)), (proj2 (Z.ltb_lt _ _)) by lia.
Qed.

(** Asked for an empty group, the search answers [start]. *)
Theorem bitmap_scan_empty b start v :
  wf b → 0 ≤ start ≤ bit_cnt b → bitmap_scan b start 0 v = Ok start.
Proof.
  intros Hwf Hs. destruct (bitmap_scan_spec b start 0 v) as (r & -> & Hcase); [done|lia..|].
  assert (He : all_bits b start 0 v) by (intros j Hj; lia).
  destruct Hcase as [(Hr1 & _ & _ & Hr)|[_ Hr]].
  - destruct (decide (r = start)) as [->|]; [done|]. destruct (Hr start); [lia|done].
  - destruct (Hr start); [lia..|done].
Qed.



End Bitmap.
