(* ===== verification/Hash.v ===== *)
(** * Hash tables, [lib/kernel/hash.c]

    A table is an array of buckets, each a list of elements.  An element is a
    pointer to an embedded [struct hash_elem]; the lists of the buckets are the
    sequences that [ListPtr] and [ListLoops] prove the kernel's lists to be.
    [malloc] may fail in [rehash]: its outcome is an argument.

    The table refines a set of elements, no two of them equal under the table's
    comparison, whatever [rehash] does.  [Dictionary] is the interface that the
    supplemental page table uses. *)

From S2P Require Import Prelude ListSeq.

Module Hash.

(** Equal elements have the same hash, which is an [unsigned]. *)
Class HashLaws {E} (hash : E → Z) (less : E → E → bool) := {
  hash_less_strict :: StrictWeak less;
  hash_range x : 0 ≤ hash x < 2 ^ 32;
  hash_eqv x y : eqv less x y → hash x = hash y
}.

Record table (E : Type) := Tbl {
  elem_cnt : Z;
  bucket_cnt : Z;
  buckets : list (list E)
}.
Arguments Tbl {E} _ _ _.
Arguments elem_cnt {E} _.
Arguments bucket_cnt {E} _.
Arguments buckets {E} _.

Definition turn_off_least_1bit (x : Z) : Z := Z.land x (u32 (x - 1)).
Definition is_power_of_2 (x : Z) : bool := negb (x =? 0) && (turn_off_least_1bit x =? 0).

Definition MIN_ELEMS_PER_BUCKET : Z := 1.
Definition BEST_ELEMS_PER_BUCKET : Z := 2.
Definition MAX_ELEMS_PER_BUCKET : Z := 4.

(** [while (!is_power_of_2 (new_bucket_cnt)) ...]. *)
Fixpoint power_loop (fuel : nat) (x : Z) : res Z :=
  match fuel with
  | O => Fuel
  | S fuel =>
      if negb (is_power_of_2 x) then power_loop fuel (turn_off_least_1bit x) else Ok x
  end.

(** [hash_bytes], [hash_string] and [hash_int]: Fowler-Noll-Vo. *)
Definition FNV_32_PRIME : Z := 16777619.
Definition FNV_32_BASIS : Z := 2166136261.
Definition fnv_step (hash byte : Z) : Z := Z.lxor (u32 (hash * FNV_32_PRIME)) byte.
Definition hash_bytes (buf : list Z) : Z := foldl fnv_step FNV_32_BASIS buf.
Fixpoint hash_string_loop (hash : Z) (s : list Z) : res Z :=
  match s with
  | [] => Panic
  | c :: s => if negb (c =? 0) then hash_string_loop (fnv_step hash c) s else Ok hash
  end.
Definition hash_string (s : list Z) : res Z := hash_string_loop FNV_32_BASIS s.
(** The bytes of a 32-bit integer in memory, least significant first. *)
Definition int_bytes (i : Z) : list Z :=
  [u8 i; u8 (Z.shiftr i 8); u8 (Z.shiftr i 16); u8 (Z.shiftr i 24)].
Definition hash_int (i : Z) : Z := hash_bytes (int_bytes (u32 i)).

Section ops.
Context {E : Type} `{EqDecision E} (hash : E → Z) (less : E → E → bool).

Definition find_bucket (h : table E) (e : E) : Z :=
  Z.land (hash e) (u32 (bucket_cnt h - 1)).
Definition bucket_at (bs : list (list E)) (i : Z) : res (list E) :=
  from_opt (bs !! Z.to_nat i).
Definition push_front (bs : list (list E)) (i : Z) (e : E) : res (list (list E)) :=
  b ← bucket_at bs i; Ok (<[Z.to_nat i := e :: b]> bs).

Fixpoint find_elem (bucket : list E) (e : E) : option E :=
  match bucket with
  | [] => None
  | hi :: bucket => if negb (less hi e) && negb (less e hi) then Some hi else find_elem bucket e
  end.

(** [elem_cnt++] and [list_push_front]; [elem_cnt--] and [list_remove]. *)
Definition insert_elem (h : table E) (bucket : Z) (e : E) : res (table E) :=
  bs ← push_front (buckets h) bucket e;
  Ok (Tbl (u32 (elem_cnt h + 1)) (bucket_cnt h) bs).
Definition remove_elem (h : table E) (e : E) : table E :=
  Tbl (u32 (elem_cnt h - 1)) (bucket_cnt h) (filter (λ x, x ≠ e) <$> buckets h).

(** Moving the elements of the old buckets, in order, into the new ones. *)
Fixpoint move_bucket (h : table E) (old_bucket : list E) : res (table E) :=
  match old_bucket with
  | [] => Ok h
  | e :: rest =>
      bs ← push_front (buckets h) (find_bucket h e) e;
      move_bucket (Tbl (elem_cnt h) (bucket_cnt h) bs) rest
  end.
Fixpoint move_buckets (h : table E) (old : list (list E)) : res (table E) :=
  match old with
  | [] => Ok h
  | b :: rest => h ← move_bucket h b; move_buckets h rest
  end.

Definition rehash (mem : bool) (h : table E) : res (table E) :=
  let old_buckets := buckets h in
  let old_bucket_cnt := bucket_cnt h in
  let new_bucket_cnt := elem_cnt h / BEST_ELEMS_PER_BUCKET in
  let new_bucket_cnt := if new_bucket_cnt <? 4 then 4 else new_bucket_cnt in
  new_bucket_cnt ← power_loop 33 new_bucket_cnt;
  if new_bucket_cnt =? old_bucket_cnt then Ok h else
  if negb mem then Ok h else
  move_buckets (Tbl (elem_cnt h) new_bucket_cnt (replicate (Z.to_nat new_bucket_cnt) []))
    old_buckets.

(** [hash_clear]: the destructor, if any, sees each element in bucket order. *)
Definition hash_clear {St} (destructor : option (E → St → St)) (h : table E) (st : St)
    : table E * St :=
  (Tbl 0 (bucket_cnt h) ((λ _, []) <$> buckets h),
   match destructor with
   | Some d => foldl (foldl (λ st e, d e st)) st (buckets h)
   | None => st
   end).
(** [hash_init]; [buckets] of fresh memory are initialised by [hash_clear]. *)
Definition hash_init (mem : bool) : option (table E) :=
  let h := Tbl 0 4 (replicate 4 []) in
  if mem then Some (fst (hash_clear None h ())) else None.
Definition hash_destroy {St} (destructor : option (E → St → St)) (h : table E) (st : St) : St :=
  match destructor with
  | Some _ => snd (hash_clear destructor h st)
  | None => st
  end.

Definition hash_insert (mem : bool) (h : table E) (new : E) : res (table E * option E) :=
  let i := find_bucket h new in
  bucket ← bucket_at (buckets h) i;
  let old := find_elem bucket new in
  h ← (if old is None then insert_elem h i new else Ok h);
  h ← rehash mem h;
  Ok (h, old).
Definition hash_replace (mem : bool) (h : table E) (new : E) : res (table E * option E) :=
  let i := find_bucket h new in
  bucket ← bucket_at (buckets h) i;
  let old := find_elem bucket new in
  let h := if old is Some o then remove_elem h o else h in
  h ← insert_elem h i new;
  h ← rehash mem h;
  Ok (h, old).
Definition hash_find (h : table E) (e : E) : res (option E) :=
  bucket ← bucket_at (buckets h) (find_bucket h e);
  Ok (find_elem bucket e).
Definition hash_delete (mem : bool) (h : table E) (e : E) : res (table E * option E) :=
  bucket ← bucket_at (buckets h) (find_bucket h e);
  match find_elem bucket e with
  | Some found => h ← rehash mem (remove_elem h found); Ok (h, Some found)
  | None => Ok (h, None)
  end.
Definition hash_apply {St} (action : E → St → St) (h : table E) (st : St) : St :=
  foldl (foldl (λ st e, action e st)) st (buckets h).

(** An iterator stands before an element of a bucket: the [elem] field points to
    the bucket's head for position 0. *)
Record hash_iterator := It { it_bucket : Z; it_pos : Z; it_cur : option E }.
Definition hash_first : hash_iterator := It 0 0 None.
Fixpoint next_loop (fuel : nat) (h : table E) (bucket pos : Z) : res hash_iterator :=
  match fuel with
  | O => Fuel
  | S fuel =>
      b ← bucket_at (buckets h) bucket;
      match b !! Z.to_nat pos with
      | Some e => Ok (It bucket (pos + 1) (Some e))
      | None =>
          if bucket_cnt h <=? bucket + 1 then Ok (It (bucket + 1) 0 None)
          else next_loop fuel h (bucket + 1) 0
      end
  end.
Definition hash_next (h : table E) (i : hash_iterator) : res hash_iterator :=
  next_loop (S (length (buckets h))) h (it_bucket i) (it_pos i).
Definition hash_cur (i : hash_iterator) : option E := it_cur i.
Definition hash_size (h : table E) : Z := elem_cnt h.
Definition hash_empty (h : table E) : bool := elem_cnt h =? 0.

End ops.

(** ** Powers of two *)

Lemma turn_off_small x : 0 < x < 2 ^ 32 → turn_off_least_1bit x = Z.land x (x - 1).
Proof. intros. unfold turn_off_least_1bit. by rewrite u32_small by lia. Qed.

(** [is_power_of_2] decides what it says. *)
Lemma is_power_of_2_spec x : 0 < x < 2 ^ 32 → is_power_of_2 x = true ↔ x = 2 ^ Z.log2 x.
Proof.
  intros Hx. unfold is_power_of_2. rewrite turn_off_small, (proj2 (Z.eqb_neq x 0)) by lia.
  simpl. rewrite Z.eqb_eq. pose proof (Z.log2_spec x). pose proof (Z.log2_nonneg x). split.
  - intros Hl. destruct (decide (x = 2 ^ Z.log2 x)) as [|Hne]; [done|]. exfalso.
    assert (Hl1 : Z.log2 (x - 1) = Z.log2 x) by (apply Z.log2_unique; lia).
    apply (f_equal (λ z, Z.testbit z (Z.log2 x))) in Hl.
    rewrite Z.land_spec, Z.bit_log2, <- Hl1, Z.bit_log2, Z.bits_0 in Hl
      by (rewrite ?Hl1; lia). done.
  - intros Hp. rewrite Hp at 1 2.
    replace (2 ^ Z.log2 x - 1) with (Z.ones (Z.log2 x)) by (rewrite Z.ones_equiv; lia).
    rewrite Z.land_ones by lia. apply Z.mod_same. lia.
Qed.

(** Turning off the lowest bit keeps the highest one and clears one more low bit. *)
Lemma turn_off_log2 x :
  0 < x < 2 ^ 32 → is_power_of_2 x = false →
  0 < turn_off_least_1bit x < 2 ^ 32 ∧ Z.log2 (turn_off_least_1bit x) = Z.log2 x.
Proof.
  intros Hx Hp. rewrite turn_off_small by lia.
  assert (Hne : x ≠ 2 ^ Z.log2 x).
  { intros E. apply is_power_of_2_spec in E; [|done]. congruence. }
  pose proof (Z.log2_spec x). pose proof (Z.log2_nonneg x).
  assert (Hl1 : Z.log2 (x - 1) = Z.log2 x) by (apply Z.log2_unique; lia).
  assert (Hbit : Z.testbit (Z.land x (x - 1)) (Z.log2 x) = true).
  { rewrite Z.land_spec, Z.bit_log2 by lia. rewrite <- Hl1. apply Z.bit_log2. lia. }
  assert (Hpos : 0 < Z.land x (x - 1)).
  { assert (0 ≤ Z.land x (x - 1)) by (apply Z.land_nonneg; lia).
    destruct (decide (Z.land x (x - 1) = 0)) as [E|]; [|lia].
    rewrite E, Z.bits_0 in Hbit. done. }
  assert (Hle : Z.log2 (Z.land x (x - 1)) ≤ Z.log2 x).
  { etrans; [apply Z.log2_land; lia|]. lia. }
  assert (Hge : Z.log2 x ≤ Z.log2 (Z.land x (x - 1))).
  { destruct (Z.le_gt_cases (Z.log2 x) (Z.log2 (Z.land x (x - 1)))) as [|Hlt]; [done|].
    rewrite Z.bits_above_log2 in Hbit by lia. done. }
  assert (Hx32 : Z.log2 x < 32) by (apply Z.log2_lt_pow2; lia).
  split; [split; [done|]|lia]. apply Z.log2_lt_pow2; lia.
Qed.

Lemma turn_off_low x a :
  0 < x < 2 ^ 32 → 0 ≤ a → (∀ j, 0 ≤ j < a → Z.testbit x j = false) →
  ∀ j, 0 ≤ j < a + 1 → Z.testbit (turn_off_least_1bit x) j = false.
Proof.
  intros Hx Ha Hlow j Hj. rewrite turn_off_small, Z.land_spec by lia.
  destruct (decide (j < a)); [by rewrite Hlow by lia|]. replace j with a by lia.
  destruct (Z.testbit x a) eqn:Hb; [|done]. simpl.
  assert (Hm : x mod 2 ^ a = 0).
  { apply Z.bits_inj'. intros i Hi. rewrite Z.bits_0. destruct (decide (i < a)).
    - rewrite Z.mod_pow2_bits_low by lia. apply Hlow. lia.
    - apply Z.mod_pow2_bits_high. lia. }
  rewrite Z.testbit_eqb in Hb |- * by lia. apply Z.eqb_eq in Hb. apply Z.eqb_neq.
  pose proof (Z.div_mod x (2 ^ a)). pose proof (Z.pow_pos_nonneg 2 a).
  assert (E : (x - 1) / 2 ^ a = x / 2 ^ a - 1).
  { symmetry. apply (Z.div_unique _ _ _ (2 ^ a - 1)); lia. }
  rewrite E. pose proof (Z.div_mod (x / 2 ^ a) 2). pose proof (Z.div_mod (x / 2 ^ a - 1) 2). lia.
Qed.

(** The loop of [rehash] ends at the greatest power of two that is not greater:
    after [a] steps the [a] lowest bits are clear, so 32 steps are enough. *)
Lemma power_loop_spec fuel : ∀ x a,
  0 < x < 2 ^ 32 → 0 ≤ a → 32 ≤ a + Z.of_nat fuel →
  (∀ j, 0 ≤ j < a → Z.testbit x j = false) →
  power_loop (S fuel) x = Ok (2 ^ Z.log2 x).
Proof.
  induction fuel as [|fuel IH]; intros x a Hx Ha Hf Hlow; simpl.
  - exfalso. assert (Hl : Z.log2 x < 32) by (apply Z.log2_lt_pow2; lia).
    pose proof (Z.log2_nonneg x). pose proof (Z.bit_log2 x) as Hb. rewrite Hlow in Hb by lia.
    specialize (Hb ltac:(lia)). done.
  - destruct (is_power_of_2 x) eqn:Hp; simpl.
    + apply is_power_of_2_spec in Hp; [|done]. by rewrite <- Hp.
    + destruct (turn_off_log2 x Hx Hp) as [Hx' <-].
      apply (IH _ (a + 1)); [done|lia..|]. by apply turn_off_low.
Qed.

(** ** Well-formed tables *)

Section spec.
Context {E : Type} `{EqDecision E} (hash : E → Z) (less : E → E → bool).
Context `{!HashLaws hash less}.
Implicit Types (h : table E) (e x y : E) (l : list E) (bs : list (list E)).

Definition elems h : list E := concat (buckets h).

(** Each element is in the bucket that its hash selects. *)
Definition placed h : Prop :=
  (∃ k, 2 ≤ k < 32 ∧ bucket_cnt h = 2 ^ k)
  ∧ Z.of_nat (length (buckets h)) = bucket_cnt h
  ∧ ∀ i b e, buckets h !! i = Some b → e ∈ b → Z.of_nat i = find_bucket hash h e.

Definition wf h : Prop :=
  placed h ∧ elem_cnt h = Z.of_nat (length (elems h)) ∧ elem_cnt h < 2 ^ 32
  ∧ NoDup (elems h) ∧ ∀ x y, x ∈ elems h → y ∈ elems h → eqv less x y → x = y.

Lemma find_bucket_range h e :
  placed h → ∃ b, buckets h !! Z.to_nat (find_bucket hash h e) = Some b
    ∧ 0 ≤ find_bucket hash h e < bucket_cnt h.
Proof.
  intros ((k & Hk & Hc) & Hl & _). pose proof (hash_range e).
  pose proof (Z.pow_pos_nonneg 2 k). pose proof (Z.pow_lt_mono_r 2 k 32).
  assert (Hr : 0 ≤ find_bucket hash h e < bucket_cnt h).
  { unfold find_bucket. rewrite Hc, u32_small by lia.
    replace (2 ^ k - 1) with (Z.ones k) by (rewrite Z.ones_equiv; lia).
    rewrite Z.land_ones by lia. apply Z.mod_pos_bound. lia. }
  destruct (lookup_lt_is_Some_2 (buckets h) (Z.to_nat (find_bucket hash h e))) as [b Hb];
    [lia|]. by exists b.
Qed.

Lemma concat_insert_perm bs i b e :
  bs !! i = Some b → concat (<[i := e :: b]> bs) ≡ₚ e :: concat bs.
Proof.
  intros Hi. pose proof (lookup_lt_Some _ _ _ Hi).
  rewrite insert_take_drop by done. rewrite <- (take_drop_middle bs i b) at 3 by done.
  rewrite !concat_app. simpl. by rewrite <- Permutation_middle.
Qed.

Lemma push_front_spec h e :
  placed h → ∃ bs, push_front (buckets h) (find_bucket hash h e) e = Ok bs
    ∧ concat bs ≡ₚ e :: elems h ∧ ∀ c, placed (Tbl c (bucket_cnt h) bs).
Proof.
  intros Hp. destruct (find_bucket_range h e Hp) as (b & Hb & Hr).
  unfold push_front, bucket_at. rewrite Hb. simpl. eexists. split; [done|].
  split; [by apply concat_insert_perm|]. destruct Hp as (Hk & Hl & Hplace). intros c.
  split_and!; simpl; [done|by rewrite length_insert|]. intros i b' e' Hi He'.
  change (find_bucket hash _ e') with (find_bucket hash h e').
  apply list_lookup_insert_Some in Hi as [(<- & <- & _)|[_ Hi]]; [|by eapply Hplace].
  apply elem_of_cons in He' as [->|He']; [lia|]. by eapply Hplace.
Qed.

Lemma move_bucket_spec l : ∀ h,
  placed h → ∃ h', move_bucket hash h l = Ok h' ∧ placed h' ∧ elem_cnt h' = elem_cnt h
    ∧ bucket_cnt h' = bucket_cnt h ∧ elems h' ≡ₚ l ++ elems h.
Proof.
  induction l as [|e l IH]; intros h Hp; simpl; [by exists h|].
  destruct (push_front_spec h e Hp) as (bs & -> & Hperm & Hp'). simpl.
  destruct (IH _ (Hp' (elem_cnt h))) as (h' & -> & H1 & H2 & H3 & H4).
  exists h'. split_and!; [done..|]. rewrite H4. unfold elems at 1. simpl.
  rewrite Hperm. by rewrite <- Permutation_middle.
Qed.

Lemma move_buckets_spec bs : ∀ h,
  placed h → ∃ h', move_buckets hash h bs = Ok h' ∧ placed h' ∧ elem_cnt h' = elem_cnt h
    ∧ bucket_cnt h' = bucket_cnt h ∧ elems h' ≡ₚ concat bs ++ elems h.
Proof.
  induction bs as [|b bs IH]; intros h Hp; simpl; [by exists h|].
  destruct (move_bucket_spec b h Hp) as (h1 & -> & Hp1 & Hc1 & Hb1 & He1). simpl.
  destruct (IH h1 Hp1) as (h2 & -> & Hp2 & Hc2 & Hb2 & He2).
  exists h2. split_and!; [done|done|congruence..|]. rewrite He2, He1.
  rewrite !app_assoc. by rewrite (Permutation_app_comm (concat bs)).
Qed.

(** The number of buckets that [rehash] aims at. *)
Definition ideal_buckets (elem_cnt : Z) : Z := 2 ^ Z.log2 (Z.max 4 (elem_cnt / 2)).

Lemma ideal_buckets_pow n :
  0 ≤ n < 2 ^ 32 → ∃ k, 2 ≤ k < 32 ∧ ideal_buckets n = 2 ^ k.
Proof.
  intros Hn. exists (Z.log2 (Z.max 4 (n / 2))). split; [|done]. split.
  - change 2 with (Z.log2 4) at 1. apply Z.log2_le_mono. lia.
  - assert (n / 2 < 2 ^ 31) by (apply Z.div_lt_upper_bound; lia).
    apply Z.log2_lt_pow2; lia.
Qed.

Lemma wf_perm h h' :
  wf h → placed h' → elem_cnt h' = elem_cnt h → elems h' ≡ₚ elems h → wf h'.
Proof.
  intros (_ & Hc & Hb & Hn & Hu) Hp He Hperm. split_and!; [done|..].
  - by rewrite He, Hc, Hperm.
  - by rewrite He.
  - by rewrite Hperm.
  - intros x y. rewrite !Hperm. apply Hu.
Qed.

(** [rehash] keeps the elements and gives the table its ideal number of buckets
    if it gets the memory. *)
Lemma rehash_spec mem h :
  wf h → ∃ h', rehash hash mem h = Ok h' ∧ wf h' ∧ elems h' ≡ₚ elems h
    ∧ bucket_cnt h' = if mem then ideal_buckets (elem_cnt h) else bucket_cnt h.
Proof.
  intros Hwf. pose proof Hwf as (Hp & Hc & Hb & Hn & Hu). unfold rehash.
  assert (Hmax : (if elem_cnt h / BEST_ELEMS_PER_BUCKET <? 4 then 4
    else elem_cnt h / BEST_ELEMS_PER_BUCKET) = Z.max 4 (elem_cnt h / 2)).
  { unfold BEST_ELEMS_PER_BUCKET. destruct (Z.ltb_spec (elem_cnt h / 2) 4); lia. }
  rewrite Hmax. assert (elem_cnt h / 2 < 2 ^ 31) by (apply Z.div_lt_upper_bound; lia).
  rewrite (power_loop_spec 32 _ 0) by lia. fold (ideal_buckets (elem_cnt h)). simpl.
  destruct (Z.eqb_spec (ideal_buckets (elem_cnt h)) (bucket_cnt h)) as [Ei|Ei].
  { exists h. split_and!; [done..|]. destruct mem; congruence. }
  destruct mem; simpl; [|by exists h].
  destruct (ideal_buckets_pow (elem_cnt h)) as (k & Hk & Hik); [lia|].
  pose proof (Z.pow_pos_nonneg 2 k).
  destruct (move_buckets_spec (buckets h)
    (Tbl (elem_cnt h) (ideal_buckets (elem_cnt h))
       (replicate (Z.to_nat (ideal_buckets (elem_cnt h))) []))) as (h' & -> & H1 & H2 & H3 & H4).
  { split_and!; simpl; [by exists k|rewrite length_replicate; lia|].
    intros i b e Hi. apply lookup_replicate in Hi as [-> _]. by intros ?%not_elem_of_nil. }
  simpl in *. assert (Hperm : elems h' ≡ₚ elems h).
  { rewrite H4. unfold elems at 1. simpl.
    by rewrite concat_replicate_nil, app_nil_r. }
  exists h'. split_and!; [done|by apply (wf_perm h)|done..].
Qed.

(** ** What the operations do to the elements *)

Lemma find_elem_spec l e :
  match find_elem less l e with
  | Some x => x ∈ l ∧ eqv less x e
  | None => ∀ x, x ∈ l → ¬ eqv less x e
  end.
Proof.
  induction l as [|x l IH]; simpl; [by intros x ?%not_elem_of_nil|].
  destruct (less x e) eqn:E1, (less e x) eqn:E2; simpl;
    try (split; [by left|done]).
  all: destruct (find_elem less l e); [by split; [right; apply IH|apply IH]|].
  all: intros y [->|Hy]%elem_of_cons; [|by apply IH].
  all: intros []; congruence.
Qed.

(** The search of the bucket that the hash selects is a search of the table. *)
Lemma find_spec h e :
  placed h → ∃ b, bucket_at (buckets h) (find_bucket hash h e) = Ok b ∧
  match find_elem less b e with
  | Some x => x ∈ elems h ∧ eqv less x e
  | None => ∀ x, x ∈ elems h → ¬ eqv less x e
  end.
Proof.
  intros Hp. destruct (find_bucket_range h e Hp) as (b & Hb & Hr). exists b.
  unfold bucket_at. rewrite Hb. split; [done|]. pose proof (find_elem_spec b e) as Hs.
  destruct (find_elem less b e) as [x|].
  - destruct Hs as [Hx Heq]. split; [|done]. apply elem_of_concat.
    exists b. split; [done|]. by apply list_elem_of_lookup_2 in Hb.
  - intros x Hx Heq. apply elem_of_concat in Hx as (b' & Hx & Hb').
    apply list_elem_of_lookup in Hb' as [i Hi].
    destruct Hp as (_ & _ & Hplace). pose proof (Hplace i b' x Hi Hx) as Hi'.
    assert (E1 : find_bucket hash h x = find_bucket hash h e).
    { unfold find_bucket. by rewrite (hash_eqv (less:=less) x e). }
    rewrite E1 in Hi'. rewrite <- Hi', Nat2Z.id in Hb. simplify_eq. by apply (Hs x).
Qed.

Lemma insert_elem_spec h e :
  wf h → elem_cnt h < 2 ^ 32 - 1 → (∀ x, x ∈ elems h → ¬ eqv less x e) →
  ∃ h', insert_elem h (find_bucket hash h e) e = Ok h' ∧ wf h' ∧ elems h' ≡ₚ e :: elems h.
Proof.
  intros (Hp & Hc & Hb & Hn & Hu) Hlt Hnew.
  destruct (push_front_spec h e Hp) as (bs & Hbs & Hperm & Hp').
  unfold insert_elem. rewrite Hbs. simpl. eexists. split; [done|]. split; [|done].
  rewrite u32_small by lia. split_and!; [apply Hp'|..]; unfold elems; simpl.
  - rewrite Hperm. simpl. lia.
  - lia.
  - rewrite Hperm. constructor; [|done]. intros He. apply (Hnew e He).
    split; apply (less_irrefl less).
  - intros x y. rewrite Hperm. rewrite !elem_of_cons.
    intros [->|Hx] [->|Hy] Heq; [done|..|by apply Hu].
    + destruct (Hnew y Hy). by destruct Heq.
    + by destruct (Hnew x Hx).
Qed.

Lemma remove_elem_cnt h x :
  wf h → x ∈ elems h → elem_cnt (remove_elem h x) = elem_cnt h - 1.
Proof.
  intros (_ & Hc & Hb & _) Hx. simpl. apply u32_small.
  destruct (elems h); [by apply not_elem_of_nil in Hx|]. simpl in Hc. lia.
Qed.

Lemma remove_elem_spec h x :
  wf h → x ∈ elems h → wf (remove_elem h x) ∧ x :: elems (remove_elem h x) ≡ₚ elems h.
Proof.
  intros (Hp & Hc & Hb & Hn & Hu) Hx.
  assert (Hperm : x :: elems (remove_elem h x) ≡ₚ elems h).
  { unfold elems, remove_elem. simpl. rewrite concat_filter_fmap. fold (elems h).
    apply list_elem_of_split in Hx as (l1 & l2 & Hs). rewrite Hs in Hn |- *.
    apply NoDup_middle in Hn as (H1 & H2 & _). rewrite filter_app, filter_cons_False by auto.
    rewrite !filter_Forall by (apply Forall_forall; intros z Hz ->; done).
    by rewrite <- Permutation_middle. }
  split; [|done]. pose proof (Permutation_length Hperm) as Hlen.
  change (length (x :: elems (remove_elem h x))) with (S (length (elems (remove_elem h x)))) in Hlen.
  assert (Hcnt : elem_cnt (remove_elem h x) = elem_cnt h - 1) by by apply remove_elem_cnt.
  split_and!.
  - destruct Hp as (Hk & Hl & Hplace). split_and!; simpl; [done|by rewrite length_fmap|].
    intros i b e Hi He. apply list_lookup_fmap_Some in Hi as (b0 & -> & Hb0).
    apply list_elem_of_filter in He as [_ He]. by eapply (Hplace i b0).
  - lia.
  - lia.
  - rewrite <- Hperm in Hn. by apply NoDup_cons in Hn as [_ ?].
  - intros y z Hy Hz. apply Hu; rewrite <- Hperm; by right.
Qed.

(** ** Refinement: a table of keyed elements is a finite map *)

Section keyed.
Context {K : Type} `{Countable K} (key : E → K).
Context (key_eqv : ∀ x y, eqv less x y ↔ key x = key y).
Implicit Types (m : gmap K E).

Definition represents h m : Prop :=
  wf h ∧ ∀ k e, m !! k = Some e ↔ e ∈ elems h ∧ key e = k.

Lemma represents_map_to_list h m :
  represents h m → map_to_list m ≡ₚ (λ e, (key e, e)) <$> elems h.
Proof.
  intros [(_ & _ & _ & Hn & _) Hm]. apply NoDup_Permutation.
  - apply NoDup_map_to_list.
  - apply NoDup_fmap_2; [|done]. intros x y. congruence.
  - intros [k e]. rewrite elem_of_map_to_list, Hm, list_elem_of_fmap. split.
    + intros [He <-]. by exists e.
    + intros (e' & [= -> ->] & He). done.
Qed.

Lemma represents_size h m : represents h m → elem_cnt h = Z.of_nat (size m).
Proof.
  intros Hr. rewrite <- length_map_to_list, (represents_map_to_list h m Hr), length_fmap.
  by destruct Hr as [(_ & Hc & _) _].
Qed.

Lemma represents_elems h m : represents h m → elems h ≡ₚ (map_to_list m).*2.
Proof.
  intros Hr. rewrite (represents_map_to_list h m Hr), <- list_fmap_compose.
  by rewrite list_fmap_id.
Qed.

(** The bucket search agrees with the lookup. *)
Lemma find_lookup h m e :
  represents h m → ∃ b, bucket_at (buckets h) (find_bucket hash h e) = Ok b
    ∧ find_elem less b e = m !! key e.
Proof.
  intros [Hwf Hm]. destruct (find_spec h e (proj1 Hwf)) as (b & Hb & Hs).
  exists b. split; [done|]. destruct (find_elem less b e) as [x|].
  - symmetry. apply Hm. split; [apply Hs|]. apply key_eqv, Hs.
  - destruct (m !! key e) as [x|] eqn:Hx; [|done]. apply Hm in Hx as [Hx Hk].
    destruct (Hs x Hx). by apply key_eqv.
Qed.

Lemma represents_perm h h' m :
  represents h m → wf h' → elems h' ≡ₚ elems h → represents h' m.
Proof. intros [_ Hm] Hwf Hp. split; [done|]. intros k e. by rewrite Hp. Qed.

Lemma represents_insert h h' m e :
  represents h m → wf h' → elems h' ≡ₚ e :: elems h → m !! key e = None →
  represents h' (<[key e := e]> m).
Proof.
  intros [_ Hm] Hwf Hp He. split; [done|]. intros k x.
  rewrite lookup_insert_Some, Hp, elem_of_cons, Hm. split.
  - intros [[<- <-]|[_ [Hx Hk]]]; auto.
  - intros [[->|Hx] Hk]; [by left|]. right. split; [|done]. intros Hke.
    assert (m !! key e = Some x) by (apply Hm; by rewrite Hk). congruence.
Qed.

Lemma represents_delete h m x :
  represents h m → x ∈ elems h → represents (remove_elem h x) (delete (key x) m).
Proof.
  intros [Hwf Hm] Hx. destruct (remove_elem_spec h x Hwf Hx) as [Hwf' Hp].
  split; [done|]. intros k e. rewrite lookup_delete_Some, Hm, <- Hp, elem_of_cons.
  assert (Hnew : x ∉ elems (remove_elem h x)).
  { destruct Hwf as (_ & _ & _ & Hn & _). rewrite <- Hp in Hn. by apply NoDup_cons in Hn as [? _]. }
  destruct Hwf as (_ & _ & _ & _ & Hu). split.
  - intros [Hne [[->|He] Hk]]; [by destruct Hne|done].
  - intros [He Hk]. split; [|by split; [right|]]. intros Hkx. apply Hnew.
    rewrite (Hu x e) at 1; [done|done|rewrite <- Hp; by right|]. apply key_eqv. congruence.
Qed.

Lemma rehash_represents mem h m :
  represents h m → ∃ h', rehash hash mem h = Ok h' ∧ represents h' m.
Proof.
  intros Hr. destruct (rehash_spec mem h (proj1 Hr)) as (h' & Hh & Hwf & Hp & _).
  exists h'. split; [done|]. by apply (represents_perm h).
Qed.

Lemma find_represents h m e :
  represents h m → hash_find hash less h e = Ok (m !! key e).
Proof.
  intros Hr. destruct (find_lookup h m e Hr) as (b & Hb & Hf).
  unfold hash_find. rewrite Hb. simpl. by rewrite Hf.
Qed.

Lemma insert_elem_represents h m e :
  represents h m → elem_cnt h < 2 ^ 32 - 1 → m !! key e = None →
  ∃ h', insert_elem h (find_bucket hash h e) e = Ok h' ∧ represents h' (<[key e := e]> m).
Proof.
  intros Hr Hc He. destruct (insert_elem_spec h e) as (h' & Hh & Hwf & Hp).
  - apply Hr.
  - done.
  - intros x Hx Heq. apply key_eqv in Heq.
    assert (m !! key e = Some x) by (by apply Hr). congruence.
  - exists h'. split; [done|]. by apply (represents_insert h).
Qed.

Lemma insert_represents mem h m e :
  represents h m → elem_cnt h < 2 ^ 32 - 1 →
  ∃ h', hash_insert hash less mem h e = Ok (h', m !! key e) ∧
    represents h' (if m !! key e is Some _ then m else <[key e := e]> m).
Proof.
  intros Hr Hc. destruct (find_lookup h m e Hr) as (b & Hb & Hf).
  unfold hash_insert. rewrite Hb. simpl. rewrite Hf. destruct (m !! key e) as [x|] eqn:He.
  - destruct (rehash_represents mem h m Hr) as (h' & Hh & Hr'). exists h'. simpl.
    by rewrite Hh.
  - destruct (insert_elem_represents h m e Hr Hc He) as (h1 & -> & Hr1). simpl.
    destruct (rehash_represents mem h1 _ Hr1) as (h' & -> & Hr'). by exists h'.
Qed.

Lemma delete_represents mem h m e :
  represents h m → ∃ h', hash_delete hash less mem h e = Ok (h', m !! key e)
    ∧ represents h' (delete (key e) m).
Proof.
  intros Hr. destruct (find_lookup h m e Hr) as (b & Hb & Hf).
  unfold hash_delete. rewrite Hb. simpl. rewrite Hf. destruct (m !! key e) as [x|] eqn:He.
  - apply Hr in He as [Hx Hk]. pose proof (represents_delete h m x Hr Hx) as Hr1.
    destruct (rehash_represents mem _ _ Hr1) as (h' & -> & Hr'). exists h'. simpl.
    by rewrite Hk in Hr'.
  - exists h. by rewrite delete_id.
Qed.

Lemma replace_represents mem h m e :
  represents h m → elem_cnt h < 2 ^ 32 - 1 →
  ∃ h', hash_replace hash less mem h e = Ok (h', m !! key e) ∧ represents h' (<[key e := e]> m).
Proof.
  intros Hr Hc. destruct (find_lookup h m e Hr) as (b & Hb & Hf).
  unfold hash_replace. rewrite Hb. simpl. rewrite Hf. destruct (m !! key e) as [x|] eqn:He.
  - apply Hr in He as [Hx Hk]. pose proof (represents_delete h m x Hr Hx) as Hr1.
    destruct (insert_elem_represents (remove_elem h x) _ e Hr1) as (h1 & Hh1 & Hr2).
    { rewrite (remove_elem_cnt h x); [lia|apply Hr|done]. }
    { by rewrite Hk, lookup_delete_eq. }
    change (find_bucket hash (remove_elem h x) e) with (find_bucket hash h e) in Hh1.
    rewrite Hh1. simpl. rewrite Hk, insert_delete_eq in Hr2.
    destruct (rehash_represents mem h1 _ Hr2) as (h' & -> & Hr'). by exists h'.
  - destruct (insert_elem_represents h m e Hr Hc He) as (h1 & -> & Hr1). simpl.
    destruct (rehash_represents mem h1 _ Hr1) as (h' & -> & Hr'). by exists h'.
Qed.

End keyed.
End spec.

(** ** Iteration *)

Section iteration.
Context {E : Type}.
Implicit Types (h : table E) (bs : list (list E)).

(** The idiom of the comment of [hash_first]: [hash_next] until it returns null,
    collecting the elements. *)
Fixpoint iterate (fuel : nat) h (i : hash_iterator) : res (list E) :=
  match fuel with
  | O => Fuel
  | S fuel =>
      i ← hash_next h i;
      match hash_cur i with
      | Some e => rest ← iterate fuel h i; Ok (e :: rest)
      | None => Ok []
      end
  end.

(** What is still to come at position [p] of bucket [i]. *)
Definition to_come bs (i p : nat) : list E :=
  drop p (default [] (bs !! i)) ++ concat (drop (S i) bs).

Lemma next_loop_spec fuel : ∀ h (i p : nat),
  Z.of_nat (length (buckets h)) = bucket_cnt h →
  (i < length (buckets h))%nat → (length (buckets h) - i < fuel)%nat →
  ∃ it, next_loop fuel h (Z.of_nat i) (Z.of_nat p) = Ok it ∧
  match to_come (buckets h) i p with
  | [] => it_cur it = None
  | e :: rest => it_cur it = Some e ∧ ∃ i' p' : nat, (i' < length (buckets h))%nat ∧
      it_bucket it = Z.of_nat i' ∧ it_pos it = Z.of_nat p' ∧ rest = to_come (buckets h) i' p'
  end.
Proof.
  induction fuel as [|fuel IH]; intros h i p Hl Hi Hf; [lia|]. simpl.
  destruct (lookup_lt_is_Some_2 (buckets h) i Hi) as [b Hb].
  unfold bucket_at. rewrite (Nat2Z.id i), Hb. simpl. rewrite (Nat2Z.id p).
  assert (Et : to_come (buckets h) i p = drop p b ++ concat (drop (S i) (buckets h)))
    by (unfold to_come; by rewrite Hb).
  rewrite Et. clear Et. destruct (b !! p) as [e|] eqn:He.
  - eexists. split; [done|]. rewrite (drop_S b e p He). simpl. split; [done|].
    exists i, (S p). split_and!; [done|done|lia|]. unfold to_come. by rewrite Hb.
  - apply lookup_ge_None in He. rewrite drop_ge by done. simpl.
    destruct (Z.leb_spec (bucket_cnt h) (Z.of_nat i + 1)).
    + eexists. split; [done|]. by rewrite (drop_ge (buckets h)) by lia.
    + destruct (IH h (S i) O) as (it & Hit & Hm); [done|lia..|].
      exists it. split; [by rewrite <- Hit; f_equal; lia|].
      destruct (lookup_lt_is_Some_2 (buckets h) (S i)) as [b' Hb']; [lia|].
      rewrite (drop_S (buckets h) b' (S i) Hb').
      assert (Et : to_come (buckets h) (S i) 0 = b' ++ concat (drop (S (S i)) (buckets h)))
        by (unfold to_come; by rewrite Hb').
      by rewrite Et in Hm.
Qed.

Lemma iterate_spec fuel : ∀ h (i p : nat) it,
  Z.of_nat (length (buckets h)) = bucket_cnt h → (i < length (buckets h))%nat →
  it_bucket it = Z.of_nat i → it_pos it = Z.of_nat p →
  (length (to_come (buckets h) i p) < fuel)%nat →
  iterate fuel h it = Ok (to_come (buckets h) i p).
Proof.
  induction fuel as [|fuel IH]; intros h i p it Hl Hi Hb Hp Hf; [lia|]. simpl.
  destruct (next_loop_spec (S (length (buckets h))) h i p) as (it' & Hn & Hm); [done|lia..|].
  unfold hash_next. rewrite Hb, Hp, Hn. simpl. unfold hash_cur.
  destruct (to_come (buckets h) i p) as [|e rest]; [by rewrite Hm|].
  destruct Hm as (-> & i' & p' & Hi' & Hb' & Hp' & ->). simpl in Hf.
  by rewrite (IH h i' p') by (done || lia).
Qed.

(** Iterating over a table visits each element exactly once. *)
Theorem iterate_elems h :
  Z.of_nat (length (buckets h)) = bucket_cnt h → 0 < bucket_cnt h →
  iterate (S (length (elems h))) h hash_first = Ok (elems h).
Proof.
  intros Hl Hc. assert (E0 : to_come (buckets h) 0 0 = elems h).
  { unfold to_come, elems. destruct (buckets h); simpl in *; [lia|done]. }
  rewrite <- E0. apply iterate_spec; [done|lia|done|done|lia].
Qed.

(** [hash_apply], [hash_clear] and [hash_destroy] visit the elements in the same
    order. *)
Lemma apply_elems {St} (action : E → St → St) h st :
  hash_apply action h st = foldl (λ st e, action e st) st (elems h).
Proof.
  unfold hash_apply, elems. revert st.
  induction (buckets h) as [|b bs IH]; intros st; simpl; [done|]. by rewrite foldl_app, IH.
Qed.

Lemma destroy_elems {St} (action : E → St → St) h st :
  hash_destroy (Some action) h st = foldl (λ st e, action e st) st (elems h).
Proof. apply apply_elems. Qed.

End iteration.

(** [hash_string] hashes the bytes before the terminator. *)
Theorem hash_string_bytes s rest :
  Forall (λ c, c ≠ 0) s → hash_string (s ++ 0 :: rest) = Ok (hash_bytes s).
Proof.
  unfold hash_string, hash_bytes. generalize FNV_32_BASIS as b.
  induction s as [|c s IH]; intros b Hs; simpl; [done|].
  apply Forall_cons in Hs as [Hc Hs]. rewrite (proj2 (Z.eqb_neq c 0)) by done. simpl. by apply IH.
Qed.

(** ** The interface of a dictionary

    What a client may rely on: a table that represents a finite map from keys to
    elements, whichever way the allocations in it end. *)
Class Dictionary (T E K : Type) `{Countable K} := {
  d_key : E → K;
  d_model : T → gmap K E → Prop;
  d_init : bool → option T;
  d_find : T → K → res (option E);
  d_insert : bool → T → E → res (T * option E);
  d_delete : bool → T → K → res (T * option E);
  d_elems : T → list E;
  d_init_ok : ∃ t, d_init true = Some t ∧ d_model t ∅;
  d_find_ok t m k : d_model t m → d_find t k = Ok (m !! k);
  d_insert_ok mem t m e :
    d_model t m → Z.of_nat (size m) < 2 ^ 32 - 1 →
    ∃ t', d_insert mem t e = Ok (t', m !! d_key e) ∧
      d_model t' (if m !! d_key e is Some _ then m else <[d_key e := e]> m);
  d_delete_ok mem t m k :
    d_model t m → ∃ t', d_delete mem t k = Ok (t', m !! k) ∧ d_model t' (delete k m);
  d_elems_ok t m : d_model t m → d_elems t ≡ₚ (map_to_list m).*2
}.

Section instance.
Context {E K : Type} `{EqDecision E} `{Countable K}.
Context (hash : E → Z) (less : E → E → bool) `{!HashLaws hash less}.
Context (key : E → K) (probe : K → E).
Context (key_eqv : ∀ x y, eqv less x y ↔ key x = key y).
Context (probe_key : ∀ k, key (probe k) = k).

Lemma init_represents : ∃ h : table E, hash_init true = Some h ∧ represents hash less key h ∅.
Proof.
  eexists. split; [done|]. split.
  - split; [split_and!|split_and!]; simpl.
    + by exists 2.
    + done.
    + intros i b e Hb He. change (((λ _, []) <$> replicate 4 (@nil E)) !! i = Some b) in Hb.
      apply list_lookup_fmap_Some in Hb as (? & -> & _). by apply not_elem_of_nil in He.
    + done.
    + lia.
    + constructor.
    + by intros x y ?%not_elem_of_nil.
  - intros k e. rewrite lookup_empty. split; [done|]. by intros [?%not_elem_of_nil _].
Qed.

(** A client looks up and deletes with an element made up for its key, as
    [spt_find] does with an entry on its stack. *)
Program Definition hash_dictionary : Dictionary (table E) E K := {|
  d_key := key;
  d_model := represents hash less key;
  d_init := hash_init;
  d_find t k := hash_find hash less t (probe k);
  d_insert := hash_insert hash less;
  d_delete mem t k := hash_delete hash less mem t (probe k);
  d_elems := elems
|}.
Next Obligation. apply init_represents. Qed.
Next Obligation.
  intros t m k Hr. simpl. rewrite (find_represents _ _ key key_eqv t m) by done.
  by rewrite probe_key.
Qed.
Next Obligation.
  intros mem t m e Hr Hs. apply (insert_represents hash less key); [done..|].
  by rewrite (represents_size hash less key t m).
Qed.
Next Obligation.
  intros mem t m k Hr. simpl.
  destruct (delete_represents hash less key key_eqv mem t m (probe k) Hr) as (h' & Hd & Hr').
  rewrite probe_key in Hd, Hr'. by exists h'.
Qed.
Next Obligation. intros t m Hr. by apply (represents_elems hash less key). Qed.

End instance.

Lemma fnv_step_range hash c : 0 ≤ c < 2 ^ 8 → 0 ≤ fnv_step hash c < 2 ^ 32.
Proof. intros. apply lxor_range; [lia|apply u32_range|lia]. Qed.

Lemma hash_bytes_range buf : Forall (λ c, 0 ≤ c < 2 ^ 8) buf → 0 ≤ hash_bytes buf < 2 ^ 32.
Proof.
  unfold hash_bytes. assert (0 ≤ FNV_32_BASIS < 2 ^ 32) by (unfold FNV_32_BASIS; lia).
  revert H. generalize FNV_32_BASIS as b.
  induction buf as [|c buf IH]; intros b Hb; [done|].
  intros [Hc Hf]%Forall_cons. simpl. apply IH; [|done]. by apply fnv_step_range.
Qed.

Lemma hash_int_range i : 0 ≤ hash_int i < 2 ^ 32.
Proof. apply hash_bytes_range. unfold int_bytes. repeat constructor; apply u8_range. Qed.

#[export] Instance hash_int_laws : HashLaws hash_int Z.ltb.
Proof.
  split; [apply _|apply hash_int_range|]. intros x y [? ?]. zbool. f_equal. lia.
Qed.

Section claims.
Context {E K : Type} `{EqDecision E} `{Countable K}.
Context (hash : E → Z) (less : E → E → bool) `{!HashLaws hash less}.
Context (key : E → K).

(** C16: a hash table refines a finite map.  For a table that represents [m],
    whatever the allocations in [rehash] return: [hash_find] is the lookup,
    [hash_insert] adds the element unless its key is bound, [hash_replace]
    overwrites, [hash_delete] removes; each returns the previous binding, none
    fails, and the result again represents the updated map (so its buckets are a
    power of two, each element is in the bucket of its hash, and [elem_cnt] is
    the size). *)
Theorem hash_table_refines_map mem (h : table E) (m : gmap K E) (e : E) :
  (∀ x y, eqv less x y ↔ key x = key y) →
  represents hash less key h m → elem_cnt h < 2 ^ 32 - 1 →
  hash_find hash less h e = Ok (m !! key e) ∧
  (∃ h', hash_insert hash less mem h e = Ok (h', m !! key e) ∧
    represents hash less key h' (if m !! key e is Some _ then m else <[key e := e]> m)) ∧
  (∃ h', hash_replace hash less mem h e = Ok (h', m !! key e) ∧
    represents hash less key h' (<[key e := e]> m)) ∧
  (∃ h', hash_delete hash less mem h e = Ok (h', m !! key e) ∧
    represents hash less key h' (delete (key e) m)) ∧
  hash_size h = Z.of_nat (size m).
Proof.
  intros Hk Hr Hc. split_and!.
  - by apply find_represents.
  - by apply insert_represents.
  - by apply replace_represents.
  - by apply delete_represents.
  - by apply (represents_size hash less key).
Qed.

End claims.

(** The empty table and the element 7. *)
Lemma hash_table_refines_map_witness :
  ∃ h h' : table Z, hash_init true = Some h ∧
    hash_insert hash_int Z.ltb true h 7 = Ok (h', None) ∧
    represents hash_int Z.ltb (λ x : Z, x) h' {[ 7 := 7 ]}.
Proof.
  destruct (init_represents hash_int Z.ltb (λ x : Z, x)) as (h & Hi & Hr).
  exists h. refine (match hash_table_refines_map hash_int Z.ltb (λ x : Z, x) true h ∅ 7 _ Hr _ with
    conj _ (conj (ex_intro _ h' (conj H1 H2)) _) => ex_intro _ h' (conj Hi (conj H1 H2)) end).
  - intros x y. split; [intros [? ?]; zbool; lia|]. intros ->. split; by apply Z.ltb_ge.
  - injection Hi as <-. simpl. lia.
Defined.

End Hash.
