(* ===== verification/Arith64.v ===== *)
(** * 64-bit division and fixed-point arithmetic

    [lib/arithmetic.c] divides 64-bit integers with the 32-bit [divl]
    instruction; [threads/fixed.h] represents the load average and the
    recent CPU time of the 4.4BSD scheduler. *)

From S2P Require Import Prelude.

Module Arith64.

(** The [divl] instruction traps on a zero divisor and on a quotient that does
    not fit in 32 bits. *)
Definition divl (n d : Z) : res Z :=
  if d =? 0 then Panic else
  let q := n / d in
  if q <? 2 ^ 32 then Ok q else Panic.

Definition nlz (x : Z) : Z :=
  let n := 0 in
  let '(n, x) := if x <=? 0x0000FFFF then (n + 16, u32 (Z.shiftl x 16)) else (n, x) in
  let '(n, x) := if x <=? 0x00FFFFFF then (n + 8, u32 (Z.shiftl x 8)) else (n, x) in
  let '(n, x) := if x <=? 0x0FFFFFFF then (n + 4, u32 (Z.shiftl x 4)) else (n, x) in
  let '(n, x) := if x <=? 0x3FFFFFFF then (n + 2, u32 (Z.shiftl x 2)) else (n, x) in
  if x <=? 0x7FFFFFFF then n + 1 else n.

Definition udiv64 (n d : Z) : res Z :=
  if Z.shiftr d 32 =? 0 then
    let b := 2 ^ 32 in
    let n1 := u32 (Z.shiftr n 32) in
    let n0 := u32 n in
    let d0 := u32 d in
    if d0 =? 0 then Panic else
    q ← divl (u64 (b * (n1 mod d0) + n0)) d0;
    Ok (u64 (q + b * (n1 / d0)))
  else if n <? d then Ok 0
  else
    let d1 := u32 (Z.shiftr d 32) in
    let s := nlz d1 in
    q ← divl (Z.shiftr n 1) (u32 (Z.shiftr (u64 (Z.shiftl d s)) 32));
    let q := Z.shiftr q (31 - s) in
    Ok (if u64 (n - u64 (u64 (q - 1) * d)) <? d then u64 (q - 1) else q).

(** The declared result type is [uint32_t]. *)
Definition umod64 (n d : Z) : res Z := q ← udiv64 n d; Ok (u32 (n - d * q)).

Definition sdiv64 (n d : Z) : res Z :=
  let n_abs := if 0 <=? n then u64 n else u64 (- u64 n) in
  let d_abs := if 0 <=? d then u64 d else u64 (- u64 d) in
  q_abs ← udiv64 n_abs d_abs;
  Ok (if Bool.eqb (n <? 0) (d <? 0) then s64 q_abs else s64 (- s64 q_abs)).

(** The declared result type is [int32_t]. *)
Definition smod64 (n d : Z) : res Z := q ← sdiv64 n d; Ok (s32 (n - d * q)).

Definition divdi3 (n d : Z) : res Z := sdiv64 n d.
Definition moddi3 (n d : Z) : res Z := smod64 n d.
Definition udivdi3 (n d : Z) : res Z := udiv64 n d.
Definition umoddi3 (n d : Z) : res Z := umod64 n d.

(** ** [nlz] counts the leading zeros *)

Lemma nlz_spec x :
  0 < x < 2 ^ 32 → 0 ≤ nlz x ≤ 31 ∧ 2 ^ (31 - nlz x) ≤ x < 2 ^ (32 - nlz x).
Proof.
  intros Hx. unfold nlz. rewrite !Z.shiftl_mul_pow2 by lia.
  destruct (Z.leb_spec x 0x0000FFFF); [rewrite (u32_small (x * _)) by lia|];
  (match goal with |- context [?a <=? 0x00FFFFFF] => destruct (Z.leb_spec a 0x00FFFFFF) end);
    rewrite ?Z.shiftl_mul_pow2, ?(u32_small (_ * 2 ^ 8)) by lia;
  (match goal with |- context [?a <=? 0x0FFFFFFF] => destruct (Z.leb_spec a 0x0FFFFFFF) end);
    rewrite ?Z.shiftl_mul_pow2, ?(u32_small (_ * 2 ^ 4)) by lia;
  (match goal with |- context [?a <=? 0x3FFFFFFF] => destruct (Z.leb_spec a 0x3FFFFFFF) end);
    rewrite ?Z.shiftl_mul_pow2, ?(u32_small (_ * 2 ^ 2)) by lia;
  (match goal with |- context [?a <=? 0x7FFFFFFF] => destruct (Z.leb_spec a 0x7FFFFFFF) end);
  simpl; lia.
Qed.

(** ** Divisors below 2^32

    The proof in the comment of [udiv64]: the high and the low half of the
    dividend are divided in turn. *)

Lemma udiv64_small n d :
  0 ≤ n < 2 ^ 64 → 0 < d < 2 ^ 32 → udiv64 n d = Ok (n / d).
Proof.
  intros Hn Hd. unfold udiv64. rewrite !Z.shiftr_div_pow2 by lia.
  rewrite (Z.div_small d) by lia. simpl (0 =? 0). cbv iota.
  assert (Hn1 : 0 ≤ n / 2 ^ 32 < 2 ^ 32).
  { split; [apply Z.div_pos; lia|apply Z.div_lt_upper_bound; lia]. }
  rewrite (u32_small d), (u32_small (n / 2 ^ 32)), (proj2 (Z.eqb_neq d 0)) by lia.
  with_strategy transparent [u32] unfold u32. set (n1 := n / 2 ^ 32) in *.
  set (n0 := n mod 2 ^ 32). pose proof (Z.div_mod n (2 ^ 32)) as Hdm. fold n1 n0 in Hdm.
  assert (Hn0 : 0 ≤ n0 < 2 ^ 32) by (apply Z.mod_pos_bound; lia).
  pose proof (Z.div_mod n1 d). pose proof (Z.mod_pos_bound n1 d).
  assert (Hb : 2 ^ 32 * (n1 mod d) + n0 < 2 ^ 32 * d) by nia.
  assert (Hq : (2 ^ 32 * (n1 mod d) + n0) / d < 2 ^ 32) by (apply Z.div_lt_upper_bound; lia).
  rewrite u64_small by lia. unfold divl.
  rewrite (proj2 (Z.eqb_neq d 0)), (proj2 (Z.ltb_lt _ _)) by lia. simpl.
  assert (E : n / d = (2 ^ 32 * (n1 mod d) + n0) / d + 2 ^ 32 * (n1 / d)).
  { rewrite <- Z.div_add by lia. f_equal. nia. }
  rewrite <- E, u64_small; [done|]. split; [apply Z.div_pos; lia|].
  apply Z.div_lt_upper_bound; nia.
Qed.

(** ** Larger divisors

    The quotient of [n] by the divisor with its low [k] bits cleared is at most
    one too large. *)

Lemma truncated_divisor n d k :
  0 ≤ n < 2 ^ 64 → 1 ≤ k ≤ 32 → 2 ^ (31 + k) ≤ d →
  let D := d / 2 ^ k * 2 ^ k in
  n / d ≤ n / D ≤ n / d + 1.
Proof.
  intros Hn Hk Hd D. pose proof (Z.pow_pos_nonneg 2 k) as Hp.
  pose proof (Z.mod_pos_bound d (2 ^ k)) as Ht. pose proof (Z.div_mod d (2 ^ k)) as Hdm.
  set (t := d mod 2 ^ k) in *. assert (HD : d = D + t) by (unfold D; lia).
  assert (HD31 : 2 ^ 31 ≤ d / 2 ^ k).
  { apply Z.div_le_lower_bound; [lia|]. rewrite <- Z.pow_add_r by lia.
    by rewrite Z.add_comm. }
  assert (HDk : 2 ^ 31 * 2 ^ k ≤ D) by (unfold D; nia).
  assert (Hkey : n * t < D * d).
  { assert (H2 : n * t ≤ 2 ^ 64 * (2 ^ k - 1)) by nia.
    assert (H3 : (2 ^ 31 * 2 ^ k) * (2 ^ 31 * 2 ^ k) ≤ D * d) by nia.
    destruct (decide (k = 1)) as [->|]; [|assert (2 ^ 2 ≤ 2 ^ k) by (apply Z.pow_le_mono_r; lia)];
      nia. }
  split.
  - apply Z.div_le_compat_l; lia.
  - assert (Hq : n / D * D ≤ n) by (pose proof (Z.mul_div_le n D); lia).
    assert (Hqd : (n / D - 1) * d < n) by nia.
    assert (n / D - 1 ≤ n / d); [|lia].
    apply Z.div_le_lower_bound; lia.
Qed.

(** The estimate that [udiv64] computes for a divisor of 33 bits or more. *)
Lemma udiv64_estimate n d :
  0 ≤ n < 2 ^ 64 → 2 ^ 32 ≤ d < 2 ^ 64 →
  let s := nlz (u32 (Z.shiftr d 32)) in
  ∃ q, divl (Z.shiftr n 1) (u32 (Z.shiftr (u64 (Z.shiftl d s)) 32)) = Ok q ∧
    Z.shiftr q (31 - s) = n / (d / 2 ^ (32 - s) * 2 ^ (32 - s)) ∧ 1 ≤ 32 - s ≤ 32
    ∧ 2 ^ (31 + (32 - s)) ≤ d.
Proof.
  intros Hn Hd. assert (Hd1 : 0 < d / 2 ^ 32 < 2 ^ 32).
  { split; [apply Z.div_str_pos; lia|apply Z.div_lt_upper_bound; lia]. }
  rewrite (Z.shiftr_div_pow2 d), (u32_small (d / 2 ^ 32)) by lia.
  destruct (nlz_spec (d / 2 ^ 32) Hd1) as [Hs Hr]. set (s := nlz (d / 2 ^ 32)) in *.
  cbv zeta. pose proof (Z.mul_div_le d (2 ^ 32)). pose proof (Z.mul_succ_div_gt d (2 ^ 32)).
  assert (Hlo : 2 ^ (31 + (32 - s)) ≤ d).
  { replace (31 + (32 - s)) with (32 + (31 - s)) by lia. rewrite Z.pow_add_r by lia. nia. }
  assert (Hhi : d * 2 ^ s < 2 ^ 64).
  { assert (d < 2 ^ 32 * 2 ^ (32 - s)) by nia.
    assert (2 ^ (32 - s) * 2 ^ s = 2 ^ 32) by (rewrite <- Z.pow_add_r by lia; f_equal; lia).
    pose proof (Z.pow_pos_nonneg 2 s). nia. }
  rewrite Z.shiftl_mul_pow2, (u64_small (d * 2 ^ s)), (Z.shiftr_div_pow2 (d * 2 ^ s)) by nia.
  assert (E : d * 2 ^ s / 2 ^ 32 = d / 2 ^ (32 - s)).
  { replace (2 ^ 32) with (2 ^ (32 - s) * 2 ^ s) by (rewrite <- Z.pow_add_r by lia; f_equal; lia).
    apply Z.div_mul_cancel_r; lia. }
  rewrite E. set (dd := d / 2 ^ (32 - s)) in *.
  assert (Hdd : 2 ^ 31 ≤ dd).
  { apply Z.div_le_lower_bound; [lia|]. rewrite <- Z.pow_add_r by lia.
    by replace (32 - s + 31) with (31 + (32 - s)) by lia. }
  assert (dd < 2 ^ 32) by (rewrite <- E; apply Z.div_lt_upper_bound; lia).
  rewrite u32_small, Z.shiftr_div_pow2 by lia. unfold divl.
  rewrite (proj2 (Z.eqb_neq dd 0)) by lia.
  assert (n / 2 ^ 1 < 2 ^ 63) by (apply Z.div_lt_upper_bound; lia).
  rewrite (proj2 (Z.ltb_lt _ _)) by (apply Z.div_lt_upper_bound; nia).
  eexists. split_and!; [done| |lia|lia|done].
  rewrite Z.shiftr_div_pow2, !Z.div_div by lia. f_equal.
  replace (32 - s) with (1 + (31 - s)) by lia. rewrite (Z.pow_add_r 2 1) by lia. lia.
Qed.

Lemma udiv64_large n d :
  0 ≤ n < 2 ^ 64 → 2 ^ 32 ≤ d < 2 ^ 64 → udiv64 n d = Ok (n / d).
Proof.
  intros Hn Hd. unfold udiv64.
  assert (0 < Z.shiftr d 32) by (rewrite Z.shiftr_div_pow2 by lia; apply Z.div_str_pos; lia).
  rewrite (proj2 (Z.eqb_neq _ _)) by lia.
  destruct (Z.ltb_spec n d); [by rewrite Z.div_small by lia|]. cbv zeta.
  destruct (udiv64_estimate n d) as (q & -> & Hq & Hk & Hp); [lia..|]. simpl. rewrite Hq.
  pose proof (truncated_divisor n d _ Hn Hk Hp) as Ht. cbv zeta in Ht.
  set (k := 32 - nlz (u32 (Z.shiftr d 32))) in *. set (e := n / (d / 2 ^ k * 2 ^ k)) in *.
  pose proof (Z.mul_div_le n d). pose proof (Z.mul_succ_div_gt n d).
  assert (1 ≤ n / d) by (apply Z.div_le_lower_bound; lia).
  assert (n / d < 2 ^ 32) by (apply Z.div_lt_upper_bound; nia).
  rewrite (u64_small (e - 1)), (u64_small ((e - 1) * d)), u64_small by nia.
  destruct (Z.ltb_spec (n - (e - 1) * d) d); f_equal; nia.
Qed.

Lemma udiv64_spec n d : 0 ≤ n < 2 ^ 64 → 0 < d < 2 ^ 64 → udiv64 n d = Ok (n / d).
Proof.
  intros. destruct (decide (d < 2 ^ 32)); [apply udiv64_small|apply udiv64_large]; lia.
Qed.

(** C20: [udiv64], and so [__udivdi3], computes the quotient of any two unsigned
    64-bit integers and never traps, except that a zero divisor traps. *)
Theorem udiv64_correct n d :
  0 ≤ n < 2 ^ 64 → 0 ≤ d < 2 ^ 64 →
  udivdi3 n d = if d =? 0 then Panic else Ok (n / d).
Proof.
  intros Hn Hd. unfold udivdi3. destruct (Z.eqb_spec d 0) as [->|].
  - done.
  - apply udiv64_spec; lia.
Qed.

Lemma udiv64_correct_witness :
  udivdi3 (2 ^ 64 - 1) (2 ^ 33 + 3) = Ok (2 ^ 31 - 1).
Proof. rewrite (udiv64_correct (2 ^ 64 - 1) (2 ^ 33 + 3)); [reflexivity|lia|lia]. Defined.

Lemma abs_u64 n :
  - 2 ^ 63 ≤ n < 2 ^ 63 → (if 0 <=? n then u64 n else u64 (- u64 n)) = Z.abs n.
Proof.
  intros Hn. destruct (Z.leb_spec 0 n); [rewrite u64_small; lia|].
  rewrite (u64_wrap 1 n), (u64_wrap 1) by lia. lia.
Qed.

(** Truncated division by absolute values and signs. *)
Lemma quot_by_abs n d :
  d ≠ 0 → Z.quot n d = if Bool.eqb (n <? 0) (d <? 0) then Z.abs n / Z.abs d
                       else - (Z.abs n / Z.abs d).
Proof.
  intros Hd. rewrite <- Z.quot_div_nonneg by lia.
  destruct (Z.ltb_spec n 0), (Z.ltb_spec d 0); simpl.
  - rewrite (Z.abs_neq n), (Z.abs_neq d), Z.quot_opp_opp by lia. done.
  - rewrite (Z.abs_neq n), (Z.abs_eq d), Z.quot_opp_l by lia. lia.
  - rewrite (Z.abs_eq n), (Z.abs_neq d), Z.quot_opp_r by lia. lia.
  - by rewrite (Z.abs_eq n), (Z.abs_eq d) by lia.
Qed.

Lemma sdiv64_spec n d :
  - 2 ^ 63 ≤ n < 2 ^ 63 → - 2 ^ 63 ≤ d < 2 ^ 63 → d ≠ 0 → n ≠ - 2 ^ 63 ∨ d ≠ -1 →
  sdiv64 n d = Ok (Z.quot n d).
Proof.
  intros Hn Hd Hd0 Hov. unfold sdiv64. rewrite !abs_u64, udiv64_spec by lia. simpl. f_equal.
  rewrite quot_by_abs by done.
  assert (0 ≤ Z.abs n / Z.abs d) by (apply Z.div_pos; lia).
  assert (Hle : Z.abs n / Z.abs d ≤ Z.abs n) by (apply Z.div_le_upper_bound; nia).
  destruct (decide (Z.abs n / Z.abs d = 2 ^ 63)) as [E|].
  - assert (En : n = - 2 ^ 63) by lia. subst n.
    assert (Ed : Z.abs d = 1).
    { pose proof (Z.mul_div_le (Z.abs (- 2 ^ 63)) (Z.abs d)). nia. }
    assert (d = 1) by lia. subst d. reflexivity.
  - rewrite (s64_small (Z.abs n / Z.abs d)), s64_small by lia. done.
Qed.

(** C34: the signed and the remainder routines.  [__divdi3] is C's truncated
    division except for the one quotient that does not fit.  The remainders are
    reduced to 32 bits on the way out: [__umoddi3] is right exactly when the
    remainder fits in 32 bits, and [__moddi3] when it fits in an [int32_t]. *)
Theorem division_routines_correct n d un ud :
  - 2 ^ 63 ≤ n < 2 ^ 63 → - 2 ^ 63 ≤ d < 2 ^ 63 → d ≠ 0 → n ≠ - 2 ^ 63 ∨ d ≠ -1 →
  0 ≤ un < 2 ^ 64 → 0 < ud < 2 ^ 64 →
  divdi3 n d = Ok (Z.quot n d) ∧
  moddi3 n d = Ok (s32 (Z.rem n d)) ∧
  umoddi3 un ud = Ok (u32 (un mod ud)) ∧
  (moddi3 n d = Ok (Z.rem n d) ↔ - 2 ^ 31 ≤ Z.rem n d < 2 ^ 31) ∧
  (umoddi3 un ud = Ok (un mod ud) ↔ un mod ud < 2 ^ 32).
Proof.
  intros Hn Hd Hd0 Hov Hun Hud. unfold divdi3, moddi3, umoddi3, smod64, umod64.
  rewrite sdiv64_spec, udiv64_spec by done. simpl.
  replace (n - d * Z.quot n d) with (Z.rem n d) by (pose proof (Z.quot_rem' n d); lia).
  replace (un - ud * (un / ud)) with (un mod ud) by (pose proof (Z.div_mod un ud); lia).
  pose proof (Z.mod_pos_bound un ud). split_and!; [done..| |].
  - split; [intros [= <-]; apply s32_range|]. intros. by rewrite s32_small.
  - split; [intros [= <-]; apply u32_range|]. intros. by rewrite u32_small by lia.
Qed.

(** A remainder of 2^33 comes out as 0. *)
Lemma division_routines_correct_witness :
  divdi3 (-7) 2 = Ok (-3) ∧ umoddi3 (2 ^ 33) (2 ^ 34) = Ok 0.
Proof.
  destruct (division_routines_correct (-7) 2 (2 ^ 33) (2 ^ 34)) as (H1 & _ & H2 & _);
    [lia..|]. split; [exact H1|exact H2].
Defined.

End Arith64.

(** ** Fixed-point numbers, [threads/fixed.h]

    17.15 signed fixed point in an [int]. *)

Module Fixed.

Definition FP_SHIFT_AMOUNT : Z := 15.
Definition FP_CONST (A : Z) : Z := s32 (Z.shiftl A FP_SHIFT_AMOUNT).
Definition FP_ADD (A B : Z) : Z := s32 (A + B).
Definition FP_ADD_MIX (A B : Z) : Z := s32 (A + s32 (Z.shiftl B FP_SHIFT_AMOUNT)).
Definition FP_SUB (A B : Z) : Z := s32 (A - B).
Definition FP_SUB_MIX (A B : Z) : Z := s32 (A - s32 (Z.shiftl B FP_SHIFT_AMOUNT)).
Definition FP_MULT_MIX (A B : Z) : Z := s32 (A * B).
Definition FP_DIV_MIX (A B : Z) : Z := s32 (Z.quot A B).
Definition FP_MULT (A B : Z) : Z := s32 (Z.shiftr (s64 (A * B)) FP_SHIFT_AMOUNT).
Definition FP_DIV (A B : Z) : Z := s32 (Z.quot (s64 (Z.shiftl A FP_SHIFT_AMOUNT)) B).
Definition FP_INT_PART (A : Z) : Z := Z.shiftr A FP_SHIFT_AMOUNT.
Definition FP_ROUND (A : Z) : Z :=
  if 0 <=? A then Z.shiftr (s32 (A + Z.shiftl 1 (FP_SHIFT_AMOUNT - 1))) FP_SHIFT_AMOUNT
  else Z.shiftr (s32 (A - Z.shiftl 1 (FP_SHIFT_AMOUNT - 1))) FP_SHIFT_AMOUNT.

(** The nearest integer, halves away from zero. *)
Definition nearest (A : Z) : Z :=
  if 0 <=? A then (A + 2 ^ 14) / 2 ^ 15 else - ((- A + 2 ^ 14) / 2 ^ 15).

(** [FP_ROUND] rounds a non-negative number to the nearest integer, halves
    up; a negative number comes out one too small unless it is exactly half way
    between two integers, because [>>] rounds down, not toward zero. *)
Theorem FP_ROUND_spec A :
  - 2 ^ 31 + 2 ^ 14 ≤ A < 2 ^ 31 - 2 ^ 14 →
  FP_ROUND A = if (0 <=? A) || ((- A + 2 ^ 14) mod 2 ^ 15 =? 0) then nearest A
               else nearest A - 1.
Proof.
  intros HA. unfold FP_ROUND, nearest, FP_SHIFT_AMOUNT. change (Z.shiftl 1 (15 - 1)) with 16384.
  rewrite !Z.shiftr_div_pow2 by lia.
  destruct (Z.leb_spec 0 A); cbn [orb]; rewrite s32_small by lia; [done|].
  replace (A - 16384) with (- (- A + 2 ^ 14)) by lia.
  destruct (Z.eqb_spec ((- A + 2 ^ 14) mod 2 ^ 15) 0).
  - by rewrite Z.div_opp_l_z by (done || lia).
  - by rewrite Z.div_opp_l_nz by (done || lia).
Qed.

(** -1.0 rounds to -2. *)
Lemma FP_ROUND_spec_witness : FP_ROUND (-32768) = -2.
Proof. rewrite (FP_ROUND_spec (-32768)); [reflexivity|lia]. Defined.

(** Products and quotients are exact up to one unit in the last place. *)
Lemma FP_MULT_spec A B :
  - 2 ^ 63 ≤ A * B < 2 ^ 63 → - 2 ^ 31 ≤ A * B / 2 ^ 15 < 2 ^ 31 →
  FP_MULT A B = A * B / 2 ^ 15.
Proof.
  intros H1 H2. unfold FP_MULT, FP_SHIFT_AMOUNT.
  by rewrite s64_small, Z.shiftr_div_pow2, s32_small by lia.
Qed.

Lemma FP_DIV_spec A B :
  - 2 ^ 31 ≤ A < 2 ^ 31 → - 2 ^ 31 ≤ Z.quot (A * 2 ^ 15) B < 2 ^ 31 →
  FP_DIV A B = Z.quot (A * 2 ^ 15) B.
Proof.
  intros HA H. unfold FP_DIV, FP_SHIFT_AMOUNT.
  by rewrite Z.shiftl_mul_pow2, s64_small, s32_small by lia.
Qed.

End Fixed.
