(* ===== verification/Strings.v ===== *)
(** * Strings and memory blocks, [lib/string.c]

    Memory is a finite map from addresses to bytes; reading or writing an
    address outside it is a fault.  The null pointer is 0.  Loops that run to a
    terminator take a bound; the theorems show that a bound above the length of
    the string is enough. *)

From S2P Require Import Prelude.

Abbreviation mem := (gmap Z Z).

Definition ld (m : mem) (a : Z) : res Z := from_opt (m !! a).
Definition st (m : mem) (a v : Z) : res mem :=
  match m !! a with Some _ => Ok (<[a := v]> m) | None => Panic end.

Module Strings.

(** [while (size-- > 0) *dst++ = *src++;] and the loop that runs downward. *)
Fixpoint copy_up (n : nat) (m : mem) (dst src : Z) : res (mem * Z) :=
  match n with
  | O => Ok (m, dst)
  | S n => c ← ld m src; m ← st m dst c; copy_up n m (dst + 1) (src + 1)
  end.
Fixpoint copy_down (n : nat) (m : mem) (dst src : Z) : res (mem * Z) :=
  match n with
  | O => Ok (m, dst)
  | S n => c ← ld m (src - 1); m ← st m (dst - 1) c; copy_down n m (dst - 1) (src - 1)
  end.

Definition memcpy (m : mem) (dst_ src_ size : Z) : res (mem * Z) :=
  ASSERT negb (dst_ =? 0) || (size =? 0);;
  ASSERT negb (src_ =? 0) || (size =? 0);;
  '(m, _) ← copy_up (Z.to_nat size) m dst_ src_;
  Ok (m, dst_).

Definition memmove (m : mem) (dst_ src_ size : Z) : res (mem * Z) :=
  ASSERT negb (dst_ =? 0) || (size =? 0);;
  ASSERT negb (src_ =? 0) || (size =? 0);;
  if dst_ <? src_ then copy_up (Z.to_nat size) m dst_ src_
  else copy_down (Z.to_nat size) m (dst_ + size) (src_ + size).

Fixpoint memcmp_loop (n : nat) (m : mem) (a b : Z) : res Z :=
  match n with
  | O => Ok 0
  | S n =>
      x ← ld m a; y ← ld m b;
      if negb (x =? y) then Ok (if y <? x then 1 else -1)
      else memcmp_loop n m (a + 1) (b + 1)
  end.
Definition memcmp (m : mem) (a b size : Z) : res Z :=
  ASSERT negb (a =? 0) || (size =? 0);;
  ASSERT negb (b =? 0) || (size =? 0);;
  memcmp_loop (Z.to_nat size) m a b.

Fixpoint strcmp_loop (fuel : nat) (m : mem) (a b : Z) : res Z :=
  match fuel with
  | O => Fuel
  | S fuel =>
      x ← ld m a; y ← ld m b;
      if negb (x =? 0) && (x =? y) then strcmp_loop fuel m (a + 1) (b + 1)
      else Ok (if x <? y then -1 else if y <? x then 1 else 0)
  end.
Definition strcmp (fuel : nat) (m : mem) (a b : Z) : res Z :=
  ASSERT negb (a =? 0);;
  ASSERT negb (b =? 0);;
  strcmp_loop fuel m a b.

Fixpoint memchr_loop (n : nat) (m : mem) (block ch : Z) : res Z :=
  match n with
  | O => Ok 0
  | S n => x ← ld m block; if x =? ch then Ok block else memchr_loop n m (block + 1) ch
  end.
Definition memchr (m : mem) (block ch_ size : Z) : res Z :=
  ASSERT negb (block =? 0) || (size =? 0);;
  memchr_loop (Z.to_nat size) m block (u8 ch_).

Fixpoint strchr_loop (fuel : nat) (m : mem) (string c : Z) : res Z :=
  match fuel with
  | O => Fuel
  | S fuel =>
      x ← ld m string;
      if x =? c then Ok string else if x =? 0 then Ok 0
      else strchr_loop fuel m (string + 1) c
  end.
Definition strchr (fuel : nat) (m : mem) (string c_ : Z) : res Z :=
  ASSERT negb (string =? 0);;
  strchr_loop fuel m string (u8 c_).

(** [strcspn] ([want] false: stop at a member) and [strspn] ([want] true: stop at
    a character that is none). *)
Fixpoint span_loop (fuel f' : nat) (m : mem) (string set length : Z) (want : bool) : res Z :=
  match fuel with
  | O => Fuel
  | S fuel =>
      x ← ld m (string + length);
      if negb (x =? 0) then
        p ← strchr f' m set x;
        if Bool.eqb (negb (p =? 0)) want then span_loop fuel f' m string set (length + 1) want
        else Ok length
      else Ok length
  end.
Definition strcspn (fuel : nat) (m : mem) (string stop : Z) : res Z :=
  span_loop fuel fuel m string stop 0 false.
Definition strspn (fuel : nat) (m : mem) (string skip : Z) : res Z :=
  span_loop fuel fuel m string skip 0 true.

Fixpoint strpbrk_loop (fuel f' : nat) (m : mem) (string stop : Z) : res Z :=
  match fuel with
  | O => Fuel
  | S fuel =>
      x ← ld m string;
      if negb (x =? 0) then
        p ← strchr f' m stop x;
        if negb (p =? 0) then Ok string else strpbrk_loop fuel f' m (string + 1) stop
      else Ok 0
  end.
Definition strpbrk (fuel : nat) (m : mem) (string stop : Z) : res Z :=
  strpbrk_loop fuel fuel m string stop.

Fixpoint strrchr_loop (fuel : nat) (m : mem) (string c p : Z) : res Z :=
  match fuel with
  | O => Fuel
  | S fuel =>
      x ← ld m string;
      if negb (x =? 0) then strrchr_loop fuel m (string + 1) c (if x =? c then string else p)
      else Ok p
  end.
Definition strrchr (fuel : nat) (m : mem) (string c_ : Z) : res Z :=
  strrchr_loop fuel m string (u8 c_) 0.

Fixpoint strlen_loop (fuel : nat) (m : mem) (string p : Z) : res Z :=
  match fuel with
  | O => Fuel
  | S fuel =>
      x ← ld m p;
      if negb (x =? 0) then strlen_loop fuel m string (p + 1) else Ok (p - string)
  end.
Definition strlen (fuel : nat) (m : mem) (string : Z) : res Z :=
  ASSERT negb (string =? 0);;
  strlen_loop fuel m string string.

Fixpoint strnlen_loop (fuel : nat) (m : mem) (string length maxlen : Z) : res Z :=
  match fuel with
  | O => Fuel
  | S fuel =>
      x ← ld m (string + length);
      if negb (x =? 0) && (length <? maxlen) then strnlen_loop fuel m string (length + 1) maxlen
      else Ok length
  end.
Definition strnlen (fuel : nat) (m : mem) (string maxlen : Z) : res Z :=
  strnlen_loop fuel m string 0 maxlen.

(** [for (i = 0; i <= haystack_len - needle_len; i++)]. *)
Fixpoint strstr_loop (n : nat) (m : mem) (haystack needle i needle_len : Z) : res Z :=
  match n with
  | O => Ok 0
  | S n =>
      c ← memcmp m (haystack + i) needle needle_len;
      if c =? 0 then Ok (haystack + i) else strstr_loop n m haystack needle (i + 1) needle_len
  end.
Definition strstr (fuel : nat) (m : mem) (haystack needle : Z) : res Z :=
  haystack_len ← strlen fuel m haystack;
  needle_len ← strlen fuel m needle;
  if needle_len <=? haystack_len then
    strstr_loop (Z.to_nat (haystack_len - needle_len + 1)) m haystack needle 0 needle_len
  else Ok 0.

(** [strtok_r]: the first loop returns [inr] when no token is left. *)
Fixpoint skip_delims (fuel f' : nat) (m : mem) (s delimiters : Z) : res (Z + Z) :=
  match fuel with
  | O => Fuel
  | S fuel =>
      x ← ld m s;
      p ← strchr f' m delimiters x;
      if negb (p =? 0) then
        if x =? 0 then Ok (inr s) else skip_delims fuel f' m (s + 1) delimiters
      else Ok (inl s)
  end.
Fixpoint skip_token (fuel f' : nat) (m : mem) (s delimiters : Z) : res Z :=
  match fuel with
  | O => Fuel
  | S fuel =>
      x ← ld m s;
      p ← strchr f' m delimiters x;
      if p =? 0 then skip_token fuel f' m (s + 1) delimiters else Ok s
  end.
(** Returns the memory, the token and the new [*save_ptr]. *)
Definition strtok_r (fuel : nat) (m : mem) (s delimiters save_ptr : Z) : res (mem * Z * Z) :=
  ASSERT negb (delimiters =? 0);;
  let s := if s =? 0 then save_ptr else s in
  ASSERT negb (s =? 0);;
  r ← skip_delims fuel fuel m s delimiters;
  match r with
  | inr s => Ok (m, 0, s)
  | inl token =>
      s ← skip_token fuel fuel m token delimiters;
      x ← ld m s;
      if negb (x =? 0) then m ← st m s 0; Ok (m, token, s + 1) else Ok (m, token, s)
  end.

Fixpoint memset_loop (n : nat) (m : mem) (dst value : Z) : res mem :=
  match n with
  | O => Ok m
  | S n => m ← st m dst (u8 value); memset_loop n m (dst + 1) value
  end.
Definition memset (m : mem) (dst_ value size : Z) : res (mem * Z) :=
  ASSERT negb (dst_ =? 0) || (size =? 0);;
  m ← memset_loop (Z.to_nat size) m dst_ value;
  Ok (m, dst_).

Definition strlcpy (fuel : nat) (m : mem) (dst src size : Z) : res (mem * Z) :=
  ASSERT negb (dst =? 0);;
  ASSERT negb (src =? 0);;
  src_len ← strlen fuel m src;
  if 0 <? size then
    let dst_len := size - 1 in
    let dst_len := if src_len <? dst_len then src_len else dst_len in
    '(m, _) ← memcpy m dst src dst_len;
    m ← st m (dst + dst_len) 0;
    Ok (m, src_len)
  else Ok (m, src_len).

Definition strlcat (fuel : nat) (m : mem) (dst src size : Z) : res (mem * Z) :=
  ASSERT negb (dst =? 0);;
  ASSERT negb (src =? 0);;
  src_len ← strlen fuel m src;
  dst_len ← strlen fuel m dst;
  if (0 <? size) && (dst_len <? size) then
    let copy_cnt := size - dst_len - 1 in
    let copy_cnt := if src_len <? copy_cnt then src_len else copy_cnt in
    '(m, _) ← memcpy m (dst + dst_len) src copy_cnt;
    m ← st m (dst + dst_len + copy_cnt) 0;
    Ok (m, u32 (src_len + dst_len))
  else Ok (m, u32 (src_len + dst_len)).

(** ** Bytes and strings in memory *)

Fixpoint bytes_at (m : mem) (a : Z) (l : list Z) : Prop :=
  match l with
  | [] => True
  | c :: l => m !! a = Some c ∧ bytes_at m (a + 1) l
  end.

(** A C string: no byte of [s] is null, a null byte follows. *)
Definition str_at (m : mem) (a : Z) (s : list Z) : Prop :=
  a ≠ 0 ∧ Forall (λ c, 0 < c < 2 ^ 8) s ∧ bytes_at m a (s ++ [0]).

(** [m'] differs from [m] at most in the [n] addresses from [a] on. *)
Definition same_but (m m' : mem) (a n : Z) : Prop :=
  ∀ x, x < a ∨ a + n ≤ x → m' !! x = m !! x.

Definition writable (m : mem) (a n : Z) : Prop := ∀ x, a ≤ x < a + n → is_Some (m !! x).

Lemma bytes_at_app m a l k :
  bytes_at m a (l ++ k) ↔ bytes_at m a l ∧ bytes_at m (a + Z.of_nat (length l)) k.
Proof.
  revert a. induction l as [|c l IH]; intros a; simpl.
  - rewrite Z.add_0_r. naive_solver.
  - rewrite IH. replace (a + 1 + Z.of_nat (length l)) with (a + Z.of_nat (S (length l))) by lia.
    naive_solver.
Qed.

Lemma bytes_at_ext m m' a l :
  (∀ x, a ≤ x < a + Z.of_nat (length l) → m' !! x = m !! x) → bytes_at m a l → bytes_at m' a l.
Proof.
  revert a. induction l as [|c l IH]; intros a Heq; simpl in *; [done|]. intros [Hc Hl].
  split; [rewrite Heq by lia; done|]. apply IH; [|done]. intros x Hx. apply Heq. lia.
Qed.

Lemma bytes_at_store m a l x v :
  x < a ∨ a + Z.of_nat (length l) ≤ x → bytes_at m a l → bytes_at (<[x := v]> m) a l.
Proof. intros Hx. apply bytes_at_ext. intros y Hy. apply lookup_insert_ne. lia. Qed.

Lemma bytes_at_writable m a l : bytes_at m a l → writable m a (Z.of_nat (length l)).
Proof.
  revert a. induction l as [|c l IH]; intros a Hl x Hx; simpl in *; [lia|].
  destruct Hl as [Hc Hl]. destruct (decide (x = a)) as [->|]; [by exists c|].
  apply (IH (a + 1) Hl). lia.
Qed.

Lemma st_ok m a v : is_Some (m !! a) → st m a v = Ok (<[a := v]> m).
Proof. intros [c Hc]. unfold st. by rewrite Hc. Qed.

Lemma writable_store m a n x v : writable m a n → writable (<[x := v]> m) a n.
Proof.
  intros Hw y Hy. destruct (decide (y = x)) as [->|].
  - rewrite lookup_insert_eq. done.
  - rewrite lookup_insert_ne by done. by apply Hw.
Qed.

(** ** Copies *)

Lemma copy_up_spec l : ∀ m dst src,
  bytes_at m src l → writable m dst (Z.of_nat (length l)) →
  dst ≤ src ∨ src + Z.of_nat (length l) ≤ dst →
  ∃ m', copy_up (length l) m dst src = Ok (m', dst + Z.of_nat (length l))
    ∧ bytes_at m' dst l ∧ same_but m m' dst (Z.of_nat (length l)).
Proof.
  induction l as [|c l IH]; intros m dst src Hl Hw Hd; simpl in *.
  { exists m. by rewrite Z.add_0_r. }
  destruct Hl as [Hc Hl]. unfold ld at 1. rewrite Hc. simpl.
  rewrite st_ok by (apply Hw; lia). simpl.
  destruct (IH (<[dst := c]> m) (dst + 1) (src + 1)) as (m' & -> & Hb & Hs).
  - apply bytes_at_store; [lia|done].
  - apply writable_store. intros x Hx. apply Hw. lia.
  - lia.
  - exists m'. split_and!.
    + do 2 f_equal. lia.
    + rewrite Hs by lia. apply lookup_insert_eq.
    + done.
    + intros x Hx. rewrite Hs by lia. apply lookup_insert_ne. lia.
Qed.

Lemma copy_down_spec l : ∀ m dst src,
  bytes_at m src l → writable m dst (Z.of_nat (length l)) →
  src ≤ dst ∨ dst + Z.of_nat (length l) ≤ src →
  ∃ m', copy_down (length l) m (dst + Z.of_nat (length l)) (src + Z.of_nat (length l))
      = Ok (m', dst)
    ∧ bytes_at m' dst l ∧ same_but m m' dst (Z.of_nat (length l)).
Proof.
  induction l as [|c l IH] using rev_ind; intros m dst src Hl Hw Hd.
  { exists m. simpl. by rewrite Z.add_0_r. }
  apply bytes_at_app in Hl as [Hl [Hc _]]. rewrite length_app in *. simpl length in *.
  rewrite Nat.add_1_r in *. cbn [copy_down].
  set (n := Z.of_nat (length l)) in *.
  replace (src + Z.of_nat (S (length l)) - 1) with (src + n) by lia.
  replace (dst + Z.of_nat (S (length l)) - 1) with (dst + n) by lia.
  unfold ld at 1. rewrite Hc. simpl. rewrite st_ok by (apply Hw; lia). simpl.
  destruct (IH (<[dst + n := c]> m) dst src) as (m' & -> & Hb & Hs).
  - apply bytes_at_store; [lia|done].
  - apply writable_store. intros x Hx. apply Hw. lia.
  - lia.
  - exists m'. split_and!; [done| |].
    + apply bytes_at_app. split; [done|]. split; [|done].
      rewrite Hs by lia. apply lookup_insert_eq.
    + intros x Hx. rewrite Hs by lia. apply lookup_insert_ne. lia.
Qed.

Lemma memcpy_spec m dst src l :
  dst ≠ 0 → src ≠ 0 → bytes_at m src l → writable m dst (Z.of_nat (length l)) →
  dst ≤ src ∨ src + Z.of_nat (length l) ≤ dst →
  ∃ m', memcpy m dst src (Z.of_nat (length l)) = Ok (m', dst)
    ∧ bytes_at m' dst l ∧ same_but m m' dst (Z.of_nat (length l)).
Proof.
  intros Hd Hs Hl Hw Ho. unfold memcpy.
  rewrite (proj2 (Z.eqb_neq dst 0)), (proj2 (Z.eqb_neq src 0)) by done. simpl. rewrite Nat2Z.id.
  destruct (copy_up_spec l m dst src) as (m' & -> & H1 & H2); [done..|]. by exists m'.
Qed.

(** [memmove] copies the block whether or not source and destination overlap,
    and changes nothing outside the destination; its result is the destination
    only when the destination does not lie below the source: otherwise the loop
    has advanced the pointer that it returns to the end of the block. *)
Theorem memmove_correct m dst src l :
  dst ≠ 0 → src ≠ 0 → bytes_at m src l → writable m dst (Z.of_nat (length l)) →
  ∃ m', memmove m dst src (Z.of_nat (length l))
      = Ok (m', if dst <? src then dst + Z.of_nat (length l) else dst)
    ∧ bytes_at m' dst l ∧ same_but m m' dst (Z.of_nat (length l)).
Proof.
  intros Hd Hs Hl Hw. unfold memmove.
  rewrite (proj2 (Z.eqb_neq dst 0)), (proj2 (Z.eqb_neq src 0)) by done. simpl. rewrite Nat2Z.id.
  destruct (Z.ltb_spec dst src).
  - apply copy_up_spec; [done..|lia].
  - apply copy_down_spec; [done..|lia].
Qed.

(** Moving "abc" up and down by one byte. *)
Definition abc : mem := {[ 8 := 120; 9 := 97; 10 := 98; 11 := 99; 12 := 0 ]}.
Lemma memmove_correct_witness :
  (∃ m, memmove abc 10 9 3 = Ok (m, 10) ∧ bytes_at m 10 [97; 98; 99]) ∧
  (∃ m, memmove abc 8 9 3 = Ok (m, 11) ∧ bytes_at m 8 [97; 98; 99]).
Proof.
  split.
  - destruct (memmove_correct abc 10 9 [97; 98; 99]) as (m & H1 & H2 & _);
      [done|done|by vm_compute| |by exists m].
    apply (bytes_at_writable abc 10 [98; 99; 0]). by vm_compute.
  - destruct (memmove_correct abc 8 9 [97; 98; 99]) as (m & H1 & H2 & _);
      [done|done|by vm_compute| |by exists m].
    apply (bytes_at_writable abc 8 [120; 97; 98]). by vm_compute.
Defined.

(** ** Strings *)

Lemma str_at_ext m m' a s :
  (∀ x, a ≤ x ≤ a + Z.of_nat (length s) → m' !! x = m !! x) → str_at m a s → str_at m' a s.
Proof.
  intros Hx (Ha & Hs & Hb). split_and!; [done..|]. apply (bytes_at_ext m); [|done].
  intros x. rewrite length_app. simpl. intros ?. apply Hx. lia.
Qed.

(** The loops walk along the bytes of a string whose start may be anywhere. *)
Definition tail_at (m : mem) (a : Z) (s : list Z) : Prop :=
  Forall (λ c, 0 < c < 2 ^ 8) s ∧ bytes_at m a (s ++ [0]).

Lemma tail_at_nil m a : tail_at m a [] → m !! a = Some 0.
Proof. by intros (_ & ? & _). Qed.
Lemma tail_at_cons m a c s :
  tail_at m a (c :: s) → m !! a = Some c ∧ 0 < c < 2 ^ 8 ∧ tail_at m (a + 1) s.
Proof. intros [[Hc Hs]%Forall_cons [Hb Hl]]. done. Qed.
Lemma str_at_tail m a s : str_at m a s → tail_at m a s.
Proof. by intros (_ & ? & ?). Qed.

Ltac walk :=
  match goal with
  | H : tail_at _ _ [] |- _ => apply tail_at_nil in H; unfold ld at 1; rewrite H; simpl
  | H : tail_at _ _ (_ :: _) |- _ =>
      let Hc := fresh "Hc" in
      apply tail_at_cons in H as (Hc & ? & H); unfold ld at 1; rewrite Hc; simpl;
      rewrite ?(proj2 (Z.eqb_neq _ 0)) by lia; simpl
  end.

Lemma strlen_loop_spec s : ∀ fuel m a p,
  tail_at m p s → (length s < fuel)%nat →
  strlen_loop fuel m a p = Ok (p + Z.of_nat (length s) - a).
Proof.
  induction s as [|c s IH]; intros [|fuel] m a p Ht Hf; simpl in *; try lia; walk.
  - f_equal. lia.
  - rewrite IH by (done || lia). f_equal. lia.
Qed.

Theorem strlen_spec fuel m a s :
  str_at m a s → (length s < fuel)%nat → strlen fuel m a = Ok (Z.of_nat (length s)).
Proof.
  intros Hs Hf. unfold strlen. rewrite (proj2 (Z.eqb_neq a 0)) by apply Hs. simpl.
  rewrite (strlen_loop_spec s) by (apply Hf || by apply str_at_tail). f_equal. lia.
Qed.

(** Lexicographic order as a [strcmp] result. *)
Fixpoint lex (s t : list Z) : Z :=
  match s, t with
  | [], [] => 0
  | [], _ => -1
  | _, [] => 1
  | x :: s, y :: t => if x <? y then -1 else if y <? x then 1 else lex s t
  end.

Lemma lex_eq s t : lex s t = 0 ↔ s = t.
Proof.
  revert t. induction s as [|x s IH]; intros [|y t]; simpl; try done.
  destruct (Z.ltb_spec x y), (Z.ltb_spec y x).
  - lia.
  - split; [done|]. intros [= -> ->]. lia.
  - split; [done|]. intros [= -> ->]. lia.
  - rewrite IH. split; [intros ->; f_equal; lia|by intros [= -> ->]].
Qed.

Lemma strcmp_loop_spec s : ∀ t fuel m a b,
  tail_at m a s → tail_at m b t → (length s < fuel)%nat →
  strcmp_loop fuel m a b = Ok (lex s t).
Proof.
  induction s as [|x s IH]; intros [|y t] [|fuel] m a b Ha Hb Hf; simpl in *; try lia.
  - do 2 walk. done.
  - do 2 walk. by rewrite (proj2 (Z.ltb_lt 0 y)) by lia.
  - do 2 walk. by rewrite (proj2 (Z.ltb_ge x 0)), (proj2 (Z.ltb_lt 0 x)) by lia.
  - do 2 walk. destruct (Z.eqb_spec x y) as [->|].
    + rewrite Z.ltb_irrefl. apply IH; [done..|lia].
    + by destruct (Z.ltb_spec x y), (Z.ltb_spec y x); try lia.
Qed.

(** [strcmp] decides equality and orders strings lexicographically. *)
Theorem strcmp_spec fuel m a b s t :
  str_at m a s → str_at m b t → (length s < fuel)%nat → strcmp fuel m a b = Ok (lex s t).
Proof.
  intros Ha Hb Hf. unfold strcmp.
  rewrite (proj2 (Z.eqb_neq a 0)), (proj2 (Z.eqb_neq b 0)) by (apply Ha || apply Hb). simpl.
  apply strcmp_loop_spec; [by apply str_at_tail..|done].
Qed.

(** [strchr] finds the first occurrence, the terminator included. *)
Lemma strchr_loop_spec s : ∀ fuel m a c,
  0 < a → tail_at m a s → (length s < fuel)%nat →
  ∃ p, strchr_loop fuel m a c = Ok p ∧ (p = 0 ↔ c ∉ s ++ [0]) ∧ (p = 0 ∨ a ≤ p).
Proof.
  induction s as [|x s IH]; intros [|fuel] m a c Ha Ht Hf; simpl in *; try lia.
  - apply tail_at_nil in Ht. unfold ld. rewrite Ht. cbn -[Z.eqb].
    destruct (Z.eqb_spec 0 c) as [<-|].
    + exists a. split_and!; [done| |lia]. split; [lia|]. intros []. by left.
    + exists 0. split_and!; [done| |by left]. split; [|done]. intros _.
      rewrite elem_of_cons. by intros [->|?%not_elem_of_nil].
  - apply tail_at_cons in Ht as (Hx & Hx0 & Ht). unfold ld. rewrite Hx. simpl.
    destruct (Z.eqb_spec x c) as [->|].
    + exists a. split_and!; [done| |lia]. split; [lia|]. intros []. by left.
    + rewrite (proj2 (Z.eqb_neq x 0)) by lia.
      destruct (IH fuel m (a + 1) c) as (p & Hp & Hz & Hge); [lia|done|lia|].
      exists p. split_and!; [done| |lia]. rewrite Hz, elem_of_cons. naive_solver.
Qed.

Lemma strchr_spec fuel m a s c :
  0 < a → str_at m a s → (length s < fuel)%nat → 0 ≤ c < 2 ^ 8 →
  ∃ p, strchr fuel m a c = Ok p ∧ (p =? 0) = bool_decide (c ∉ s ++ [0]).
Proof.
  intros Ha Hs Hf Hc. unfold strchr. rewrite (proj2 (Z.eqb_neq a 0)) by lia. simpl.
  rewrite u8_small by done.
  destruct (strchr_loop_spec s fuel m a c) as (p & Hp & Hz & _); [done|by apply str_at_tail|done|].
  exists p. split; [done|]. destruct (Z.eqb_spec p 0).
  - symmetry. apply bool_decide_eq_true. by apply Hz.
  - symmetry. apply bool_decide_eq_false. by rewrite <- Hz.
Qed.

(** [strlcpy] into a buffer of [size] bytes that does not overlap the source: the
    first [size - 1] characters and a terminator; the result is the length of the
    source. *)
Theorem strlcpy_spec fuel m dst src s size :
  str_at m src s → dst ≠ 0 → writable m dst size → (length s < fuel)%nat → 0 < size →
  dst + size ≤ src ∨ src + Z.of_nat (length s) < dst →
  ∃ m', strlcpy fuel m dst src size = Ok (m', Z.of_nat (length s))
    ∧ str_at m' dst (take (Z.to_nat (size - 1)) s) ∧ same_but m m' dst size.
Proof.
  intros Hs Hd Hw Hf Hsz Ho. unfold strlcpy.
  rewrite (proj2 (Z.eqb_neq dst 0)), (proj2 (Z.eqb_neq src 0)) by (done || apply Hs). simpl.
  rewrite (strlen_spec fuel m src s) by done. simpl. rewrite (proj2 (Z.ltb_lt 0 size)) by done.
  set (t := take (Z.to_nat (size - 1)) s).
  assert (Hlen : Z.of_nat (length t) = Z.min (size - 1) (Z.of_nat (length s))).
  { unfold t. rewrite length_take. lia. }
  replace (if Z.of_nat (length s) <? size - 1 then Z.of_nat (length s) else size - 1)
    with (Z.of_nat (length t))
    by (rewrite Hlen; destruct (Z.ltb_spec (Z.of_nat (length s)) (size - 1)); lia).
  destruct Hs as (Hs0 & Hall & Hb). apply bytes_at_app in Hb as [Hb _].
  rewrite <- (take_drop (Z.to_nat (size - 1)) s) in Hb. fold t in Hb.
  apply bytes_at_app in Hb as [Hb _].
  destruct (memcpy_spec m dst src t) as (m1 & -> & H1 & H2);
    [done..|intros x Hx; apply Hw; lia|lia|]. simpl.
  rewrite st_ok by (rewrite H2 by lia; apply Hw; lia). simpl. eexists. split; [done|]. split.
  - split_and!; [done|by apply Forall_take|]. apply bytes_at_app. split.
    + apply bytes_at_store; [lia|done].
    + split; [apply lookup_insert_eq|done].
  - intros x Hx. rewrite lookup_insert_ne by lia. apply H2. lia.
Qed.

(** ** Tokens *)

Section tokens.
Context (ds : list Z).
Implicit Types (s t : list Z).

(** The maximal substrings without delimiters, with a token [cur] begun. *)
Fixpoint tokens_from (cur s : list Z) : list (list Z) :=
  match s with
  | [] => if cur is [] then [] else [cur]
  | c :: s =>
      if decide (c ∈ ds) then (if cur is [] then tokens_from [] s else cur :: tokens_from [] s)
      else tokens_from (cur ++ [c]) s
  end.
Definition tokens s : list (list Z) := tokens_from [] s.

Fixpoint drop_delims s : list Z :=
  match s with
  | [] => []
  | c :: s' => if decide (c ∈ ds) then drop_delims s' else s
  end.
Fixpoint span_token s : list Z * list Z :=
  match s with
  | [] => ([], [])
  | c :: s' =>
      if decide (c ∈ ds) then ([], s)
      else let '(t, r) := span_token s' in (c :: t, r)
  end.

Lemma tokens_drop s : tokens s = tokens (drop_delims s).
Proof.
  unfold tokens. induction s as [|c s IH]; simpl; [done|].
  destruct (decide (c ∈ ds)) eqn:E; [done|]. simpl. by rewrite E.
Qed.

Lemma tokens_span s : ∀ cur t r,
  span_token s = (t, r) → cur ++ t ≠ [] →
  tokens_from cur s = (cur ++ t) :: tokens (tail r).
Proof.
  induction s as [|c s IH]; intros cur t r Hs Hne; simpl in *.
  - injection Hs as <- <-. rewrite app_nil_r in *. by destruct cur.
  - destruct (decide (c ∈ ds)).
    + injection Hs as <- <-. rewrite app_nil_r in *. by destruct cur.
    + destruct (span_token s) as [t' r'] eqn:E. injection Hs as <- <-.
      rewrite (IH _ t' r'); [by rewrite <- app_assoc|done|by destruct cur].
Qed.

Lemma span_token_app s t r : span_token s = (t, r) → s = t ++ r ∧ Forall (λ c, c ∉ ds) t.
Proof.
  revert t r. induction s as [|c s IH]; intros t r Hs; simpl in *.
  - by injection Hs as <- <-.
  - destruct (decide (c ∈ ds)); [by injection Hs as <- <-|].
    destruct (span_token s) as [t' r'] eqn:E. injection Hs as <- <-.
    destruct (IH t' r') as [-> Hf]; [done|]. split; [done|]. by constructor.
Qed.

Lemma drop_delims_suffix s : ∃ k, s = k ++ drop_delims s.
Proof.
  induction s as [|c s [k Hk]]; simpl; [by exists []|].
  destruct (decide (c ∈ ds)); [|by exists []]. exists (c :: k). simpl. by rewrite <- Hk.
Qed.

Lemma drop_delims_head s c r : drop_delims s = c :: r → c ∉ ds.
Proof.
  induction s as [|x s IH]; simpl; [done|].
  destruct (decide (x ∈ ds)); [done|]. by intros [= -> ->].
Qed.

Context (fuel : nat) (d : Z) (Hd : 0 < d) (Hfuel : (length ds < fuel)%nat).

Lemma strchr_delim m c :
  str_at m d ds → 0 ≤ c < 2 ^ 8 →
  ∃ p, strchr fuel m d c = Ok p ∧ (p =? 0) = bool_decide (c ≠ 0 ∧ c ∉ ds).
Proof.
  intros Hds Hc. destruct (strchr_spec fuel m d ds c) as (p & Hp & Hz); [done..|].
  exists p. split; [done|]. rewrite Hz. apply bool_decide_ext.
  rewrite elem_of_app, list_elem_of_singleton. tauto.
Qed.

Lemma skip_delims_spec s : ∀ f m a,
  str_at m d ds → tail_at m a s → (length s < f)%nat →
  skip_delims f fuel m a d =
    Ok (if drop_delims s is [] then inr (a + Z.of_nat (length s))
        else inl (a + Z.of_nat (length s - length (drop_delims s)))).
Proof.
  induction s as [|c s IH]; intros [|f] m a Hds Ht Hf; simpl in *; try lia.
  - apply tail_at_nil in Ht. unfold ld. rewrite Ht. simpl.
    destruct (strchr_delim m 0 Hds) as (p & -> & Hp); [lia|]. simpl. rewrite Hp. simpl.
    by rewrite Z.add_0_r.
  - apply tail_at_cons in Ht as (Hc & Hr & Ht). unfold ld. rewrite Hc. simpl.
    destruct (strchr_delim m c Hds) as (p & -> & Hp); [lia|]. simpl. rewrite Hp.
    rewrite (proj2 (Z.eqb_neq c 0)) by lia. destruct (decide (c ∈ ds)) as [Hin|Hin].
    + rewrite bool_decide_eq_false_2 by tauto. simpl. rewrite IH by (done || lia).
      destruct (drop_delims_suffix s) as [k Hk]. apply (f_equal length) in Hk.
      rewrite length_app in Hk. destruct (drop_delims s); do 2 f_equal; simpl in *; lia.
    + rewrite bool_decide_eq_true_2 by (split; [lia|done]). simpl. do 2 f_equal. lia.
Qed.

Lemma skip_token_spec s : ∀ f m a t r,
  str_at m d ds → tail_at m a s → (length s < f)%nat → span_token s = (t, r) →
  skip_token f fuel m a d = Ok (a + Z.of_nat (length t)).
Proof.
  induction s as [|c s IH]; intros [|f] m a t r Hds Ht Hf Hs; simpl in *; try lia.
  - apply tail_at_nil in Ht. unfold ld. rewrite Ht. simpl.
    destruct (strchr_delim m 0 Hds) as (p & -> & Hp); [lia|]. simpl. rewrite Hp. simpl.
    injection Hs as <- <-. simpl. by rewrite Z.add_0_r.
  - apply tail_at_cons in Ht as (Hc & Hr & Ht). unfold ld. rewrite Hc. simpl.
    destruct (strchr_delim m c Hds) as (p & -> & Hp); [lia|]. simpl. rewrite Hp.
    destruct (decide (c ∈ ds)) as [Hin|Hin].
    + rewrite bool_decide_eq_false_2 by tauto. injection Hs as <- <-. simpl.
      by rewrite Z.add_0_r.
    + rewrite bool_decide_eq_true_2 by (split; [lia|done]).
      destruct (span_token s) as [t' r'] eqn:E. injection Hs as <- <-.
      rewrite (IH _ _ _ t' r') by (done || lia). simpl. f_equal. lia.
Qed.

Lemma tail_at_drop m a k s : tail_at m a (k ++ s) → tail_at m (a + Z.of_nat (length k)) s.
Proof.
  intros [Hf Hb]. rewrite <- app_assoc in Hb. apply bytes_at_app in Hb as [_ Hb].
  apply Forall_app in Hf as [_ Hf]. done.
Qed.

(** One call that starts (or resumes) at [a], where [s] is left. *)
Lemma strtok_r_spec m a s save :
  str_at m d ds → 0 < a → str_at m a s → (length s < fuel)%nat →
  (drop_delims s = [] ∧ strtok_r fuel m a d save = Ok (m, 0, a + Z.of_nat (length s))) ∨
  ∃ k t r m' save', s = k ++ t ++ r ∧ t ≠ [] ∧ tokens s = t :: tokens (tail r) ∧
    strtok_r fuel m a d save = Ok (m', a + Z.of_nat (length k), save') ∧
    save' = a + Z.of_nat (length k + length t) + Z.of_nat (length r - length (tail r)) ∧
    m' = (if r is [] then m else <[a + Z.of_nat (length k + length t) := 0]> m).
Proof.
  intros Hds Ha Hs Hf. unfold strtok_r.
  rewrite (proj2 (Z.eqb_neq d 0)), !(proj2 (Z.eqb_neq a 0)) by lia. simpl.
  apply str_at_tail in Hs.
  rewrite (skip_delims_spec s) by done. simpl.
  destruct (drop_delims_suffix s) as [k Hk].
  destruct (drop_delims s) as [|c s'] eqn:Hdr; [by left|]. right.
  destruct (span_token (c :: s')) as [t r] eqn:Hsp.
  pose proof (span_token_app _ _ _ Hsp) as [Happ _].
  assert (Ht : t ≠ []).
  { simpl in Hsp. rewrite decide_False in Hsp by (by eapply drop_delims_head).
    destruct (span_token s'). by injection Hsp as <- <-. }
  assert (Hlk : (length s - length (c :: s') = length k)%nat).
  { rewrite Hk, length_app. simpl. lia. }
  rewrite Hlk. rewrite Hk in Hs. pose proof (tail_at_drop m a k _ Hs) as Hs'.
  rewrite (skip_token_spec _ _ _ _ t r Hds Hs') by (done || rewrite Hk, length_app in Hf; simpl in *; lia).
  simpl. rewrite Happ in Hs'. pose proof (tail_at_drop _ _ t r Hs') as Hr.
  exists k, t, r. rewrite Nat2Z.inj_add, Z.add_assoc.
  assert (Htok : tokens s = t :: tokens (tail r)).
  { rewrite tokens_drop, Hdr. by apply (tokens_span (c :: s') [] t r). }
  destruct r as [|x r]; [walk|walk]; simpl.
  - eexists m, _. rewrite Happ in Hk. split_and!; [done..|lia|done].
  - rewrite st_ok by by eexists. simpl. eexists _, _. rewrite Happ in Hk.
    split_and!; [done..|lia|done].
Qed.

Lemma strtok_r_resume m a save : a ≠ 0 → strtok_r fuel m 0 d a = strtok_r fuel m a d save.
Proof. intros Ha. unfold strtok_r. simpl. by rewrite !(proj2 (Z.eqb_neq a 0)) by done. Qed.

(** What one successful call leaves: the token as a string of its own, the rest
    of the text as the string to resume at, and the delimiters. *)
Lemma strtok_r_strings m a s k t r :
  str_at m d ds → 0 < a → str_at m a s → s = k ++ t ++ r →
  a + Z.of_nat (length s) < d ∨ d + Z.of_nat (length ds) < a →
  let e := a + Z.of_nat (length k + length t) in
  let m' := if r is [] then m else <[e := 0]> m in
  let save' := e + Z.of_nat (length r - length (tail r)) in
  str_at m' d ds ∧ str_at m' (a + Z.of_nat (length k)) t ∧ str_at m' save' (tail r)
  ∧ same_but m m' a (Z.of_nat (length s)).
Proof.
  intros Hds Ha (Ha0 & Hall & Hb) -> Hdis e m' save'.
  rewrite !length_app in Hdis. rewrite <- !app_assoc in Hb.
  apply bytes_at_app in Hb as [Hk Hb]. apply bytes_at_app in Hb as [Ht Hr].
  apply Forall_app in Hall as [_ Hall]. apply Forall_app in Hall as [Hft Hfr].
  replace (a + Z.of_nat (length k) + Z.of_nat (length t)) with e in Hr by lia.
  destruct r as [|x r].
  - subst m' save'. simpl. split_and!.
    + done.
    + split_and!; [lia|done|]. apply bytes_at_app. split; [done|]. simpl in *.
      by replace (a + Z.of_nat (length k) + Z.of_nat (length t)) with e by lia.
    + rewrite Z.add_0_r. split_and!; [lia|done|done].
    + done.
  - subst m' save'. simpl in *. apply Forall_cons in Hfr as [Hx Hfr]. destruct Hr as [Hx' Hr].
    split_and!.
    + apply (str_at_ext m); [|done]. intros y Hy. apply lookup_insert_ne. lia.
    + split_and!; [lia|done|]. apply bytes_at_app. split.
      * apply bytes_at_store; [lia|done].
      * split; [|done]. replace (a + Z.of_nat (length k) + Z.of_nat (length t)) with e by lia.
        apply lookup_insert_eq.
    + replace (e + Z.of_nat (S (length r) - length r)) with (e + 1) by lia.
      split_and!; [lia|done|]. apply bytes_at_store; [lia|done].
    + intros y Hy. apply lookup_insert_ne. rewrite !length_app in Hy. simpl in Hy. lia.
Qed.

(** The loop of the comment of [strtok_r] and of [parse_args]: the first call
    gets the string, the others a null pointer. *)
Fixpoint tokenize (n : nat) (m : mem) (s save : Z) : res (mem * list Z) :=
  match n with
  | O => Fuel
  | S n =>
      '(m, token, save) ← strtok_r fuel m s d save;
      if token =? 0 then Ok (m, []) else
      '(m, ps) ← tokenize n m 0 save;
      Ok (m, token :: ps)
  end.

Lemma tokenize_spec n : ∀ m a s p0 save,
  str_at m d ds → 0 < a → str_at m a s → (length s < fuel)%nat → (length s < n)%nat →
  a + Z.of_nat (length s) < d ∨ d + Z.of_nat (length ds) < a →
  (p0 = a ∨ p0 = 0 ∧ save = a) →
  ∃ m' ps, tokenize n m p0 save = Ok (m', ps) ∧ Forall2 (str_at m') ps (tokens s)
    ∧ same_but m m' a (Z.of_nat (length s)).
Proof.
  induction n as [|n IH]; intros m a s p0 save Hds Ha Hs Hf Hn Hdis Hp0; [lia|].
  assert (Hcall : strtok_r fuel m p0 d save = strtok_r fuel m a d save).
  { destruct Hp0 as [->|[-> ->]]; [done|]. apply strtok_r_resume. lia. }
  cbn [tokenize]. rewrite Hcall.
  destruct (strtok_r_spec m a s save) as [[Hnil ->]|(k & t & r & m1 & save1 & Hk & Ht & Htok & -> & Hsv & Hm1)];
    [done..| |]; simpl.
  - exists m, []. rewrite tokens_drop, Hnil. by split_and!.
  - rewrite (proj2 (Z.eqb_neq _ 0)) by lia.
    destruct (strtok_r_strings m a s k t r Hds Ha Hs Hk Hdis) as (H1 & H2 & H3 & H4).
    rewrite <- Hm1 in H1, H2, H3, H4. rewrite <- Hsv in H3.
    assert (Hlt : (0 < length t)%nat) by (destruct t; [done|simpl; lia]).
    assert (Hls : length s = (length k + length t + length r)%nat)
      by (rewrite Hk, !length_app; lia).
    assert (Hlr : (length (tail r) ≤ length r)%nat) by (destruct r; simpl; lia).
    destruct (IH m1 save1 (tail r) 0 save1) as (m' & ps & -> & Hps & Hsame);
      [done|lia|done|lia|lia|lia|by right|]. simpl.
    exists m', (a + Z.of_nat (length k) :: ps). split_and!; [done| |].
    + rewrite Htok. constructor; [|done]. apply (str_at_ext m1); [|done].
      intros y Hy. apply Hsame. destruct r; simpl in *; lia.
    + intros y Hy. rewrite Hsame by lia. apply H4. lia.
Qed.

(** calling [strtok_r] until it returns null yields, in order, a pointer to
    each maximal substring without delimiters, and in the final memory each of
    them is a null-terminated string of its own; nothing outside the text
    changes.  Bounds above the lengths of the text and of the delimiters are
    enough. *)
Theorem strtok_r_tokens m a s :
  str_at m d ds → 0 < a → str_at m a s → (length s < fuel)%nat →
  a + Z.of_nat (length s) < d ∨ d + Z.of_nat (length ds) < a →
  ∃ m' ps, tokenize (S (length s)) m a 0 = Ok (m', ps) ∧ Forall2 (str_at m') ps (tokens s)
    ∧ same_but m m' a (Z.of_nat (length s)).
Proof. intros. apply tokenize_spec; [done..|lia|done|by left]. Qed.

End tokens.

(** The text " ab c" at address 1, delimiters " " at address 9. *)
Definition text_mem : mem :=
  {[ 1 := 32; 2 := 97; 3 := 98; 4 := 32; 5 := 99; 6 := 0; 9 := 32; 10 := 0 ]}.
Lemma strtok_r_tokens_witness :
  ∃ m' ps, tokenize 10 9 6 text_mem 1 0 = Ok (m', ps)
    ∧ Forall2 (str_at m') ps [[97; 98]; [99]] ∧ same_but text_mem m' 1 5.
Proof.
  apply (strtok_r_tokens [32] 10 9 ltac:(lia) ltac:(simpl; lia) text_mem 1 [32; 97; 98; 32; 99]).
  - split_and!; [lia|repeat constructor; lia|by vm_compute].
  - lia.
  - split_and!; [lia|repeat constructor; lia|by vm_compute].
  - simpl. lia.
  - simpl. lia.
Defined.

End Strings.
