(* ===== verification/Stdio.v ===== *)
(** * Formatted output, [lib/stdio.c], and [atoi] of [lib/stdlib.c]

    [__vprintf] hands each character to a function that the caller supplies; here that
    function is a state transformer, and the functions that print are parametric in the
    state.  Arguments are the words that the caller pushed: 64-bit arguments take two.  A
    format is a list of characters without its terminator. *)

From Stdlib Require Import Ascii String.
From S2P Require Import Prelude Strings.

Module Stdio.
Import Strings.

(** ** Characters, [lib/ctype.h] *)

Definition code (a : ascii) : Z := Z.of_N (N_of_ascii a).
Arguments code a%_char_scope.
Fixpoint chars (s : string) : list Z :=
  match s with
  | EmptyString => []
  | String a s => code a :: chars s
  end.
Arguments chars s%_string_scope.

Definition isdigit (c : Z) : bool := (code "0" <=? c) && (c <=? code "9").
Definition isspace (c : Z) : bool :=
  (c =? code " ") || (c =? 12) || (c =? 10) || (c =? 13) || (c =? 9) || (c =? 11).
Definition isprint (c : Z) : bool := (32 <=? c) && (c <? 127).

(** The character that [format] points to: 0 at the end. *)
Definition at_ (format : list Z) : Z := hd 0 format.

(** ** Conversions *)

Definition MINUS : Z := 1.
Definition PLUS : Z := 2.
Definition SPACE : Z := 4.
Definition POUND : Z := 8.
Definition ZERO : Z := 16.
Definition GROUP : Z := 32.
Definition has (flags f : Z) : bool := negb (Z.land flags f =? 0).

Inductive arg_type := CHAR | SHORT | INT | INTMAX | LONG | LONGLONG | PTRDIFFT | SIZET.

Record printf_conversion := Conversion { flags : Z; width : Z; precision : Z; type : arg_type }.

Record integer_base := Base { base : Z; digits : list Z; xchar : Z; group : Z }.
Definition base_d : integer_base := Base 10 (chars "0123456789") 0 3.
Definition base_o : integer_base := Base 8 (chars "01234567") 0 3.
Definition base_x : integer_base := Base 16 (chars "0123456789abcdef") (code "x") 4.
Definition base_X : integer_base := Base 16 (chars "0123456789ABCDEF") (code "X") 4.

(** [va_arg] for a 32-bit and a 64-bit type: the unsigned value. *)
Definition va_arg (args : list Z) : res (Z * list Z) :=
  match args with
  | w :: args => Ok (u32 w, args)
  | [] => Panic
  end.
Definition va_arg64 (args : list Z) : res (Z * list Z) :=
  match args with
  | lo :: hi :: args => Ok (u32 lo + 2 ^ 32 * u32 hi, args)
  | _ => Panic
  end.

Definition s8 (x : Z) : Z := let y := u8 x in if y <? 2 ^ 7 then y else y - 2 ^ 8.
Definition s16 (x : Z) : Z := let y := u16 x in if y <? 2 ^ 15 then y else y - 2 ^ 16.

(** *** Parsing *)

Definition flag_of (c : Z) : option Z :=
  if c =? code "-" then Some MINUS
  else if c =? code "+" then Some PLUS
  else if c =? code " " then Some SPACE
  else if c =? code "#" then Some POUND
  else if c =? code "0" then Some ZERO
  else if c =? code "'" then Some GROUP
  else None.
Fixpoint parse_flags (format : list Z) (flags : Z) : Z * list Z :=
  match format with
  | c :: format' =>
      match flag_of c with
      | Some f => parse_flags format' (Z.lor flags f)
      | None => (flags, format)
      end
  | [] => (flags, [])
  end.
Fixpoint parse_number (format : list Z) (n : Z) : Z * list Z :=
  match format with
  | c :: format' => if isdigit c then parse_number format' (s32 (n * 10 + c - code "0")) else (n, format)
  | [] => (n, [])
  end.
Definition parse_type (format : list Z) : arg_type * list Z :=
  let c := at_ format in
  if c =? code "h" then
    if at_ (tl format) =? code "h" then (CHAR, tl (tl format)) else (SHORT, tl format)
  else if c =? code "j" then (INTMAX, tl format)
  else if c =? code "l" then
    if at_ (tl format) =? code "l" then (LONGLONG, tl (tl format)) else (LONG, tl format)
  else if c =? code "t" then (PTRDIFFT, tl format)
  else if c =? code "z" then (SIZET, tl format)
  else (INT, format).

Definition parse_conversion (format : list Z) (args : list Z)
    : res (printf_conversion * list Z * list Z) :=
  let '(fl, format) := parse_flags format 0 in
  let fl := if has fl MINUS then Z.ldiff fl ZERO else fl in
  let fl := if has fl PLUS then Z.ldiff fl SPACE else fl in
  '(w, format, args) ← (if at_ format =? code "*" then
      '(w, args) ← va_arg args; Ok (s32 w, tl format, args)
    else let '(w, format) := parse_number format 0 in Ok (w, format, args));
  let '(w, fl) := if w <? 0 then (s32 (- w), Z.lor fl MINUS) else (w, fl) in
  '(p, format, args) ← (if at_ format =? code "." then
      let format := tl format in
      '(p, format, args) ← (if at_ format =? code "*" then
          '(p, args) ← va_arg args; Ok (s32 p, tl format, args)
        else let '(p, format) := parse_number format 0 in Ok (p, format, args));
      Ok (if p <? 0 then -1 else p, format, args)
    else Ok (-1, format, args));
  let fl := if 0 <=? p then Z.ldiff fl ZERO else fl in
  let '(ty, format) := parse_type format in
  Ok (Conversion fl w p ty, format, args).

(** *** Output *)

Section output.
Context {St : Type} (output : Z → St → res St) (rd : St → mem).

Fixpoint output_dup (n : nat) (ch : Z) (s : St) : res St :=
  match n with
  | O => Ok s
  | S n => s ← output ch s; output_dup n ch s
  end.
Fixpoint output_list (l : list Z) (s : St) : res St :=
  match l with
  | [] => Ok s
  | c :: l => s ← output c s; output_list l s
  end.

(** [*cp++ = ch] in a buffer of 64 characters. *)
Definition put (buf : list Z) (ch : Z) : res (list Z) :=
  ASSERT Zlength buf <? 64;; Ok (buf ++ [ch]).
Fixpoint digit_loop (n : nat) (b : integer_base) (fl value digit_cnt : Z) (buf : list Z) : res (list Z) :=
  match n with
  | O => Fuel
  | S n =>
      if 0 <? value then
        buf ← (if has fl GROUP && (0 <? digit_cnt) && (digit_cnt mod group b =? 0) then put buf (code ",") else Ok buf);
        d ← from_opt (digits b !! Z.to_nat (value mod base b));
        buf ← put buf d;
        digit_loop n b fl (value / base b) (digit_cnt + 1) buf
      else Ok buf
  end.
Fixpoint zero_loop (n : nat) (precision : Z) (buf : list Z) : res (list Z) :=
  match n with
  | O => Ok buf
  | S n =>
      if (Zlength buf <? precision) && (Zlength buf <? 63) then
        buf ← put buf (code "0"); zero_loop n precision buf
      else Ok buf
  end.

(** The loops run at most 64 times: a value has at most 64 digits, and the buffer 63
    characters after the second one. *)
Definition format_integer (value : Z) (is_signed negative : bool) (b : integer_base) (c : printf_conversion) (s : St)
    : res St :=
  let sign := if is_signed then
                if has (flags c) PLUS then if negative then code "-" else code "+"
                else if has (flags c) SPACE then if negative then code "-" else code " "
                else if negative then code "-" else 0
              else 0 in
  let x := if has (flags c) POUND && negb (value =? 0) then xchar b else 0 in
  buf ← digit_loop 65 b (flags c) value 0 [];
  let precision := if precision c <? 0 then 1 else precision c in
  buf ← zero_loop 64 precision buf;
  buf ← (if has (flags c) POUND && (base b =? 8) && (bool_decide (buf = []) || negb (default 0 (last buf) =? code "0"))
         then put buf (code "0") else Ok buf);
  let pad_cnt := s32 (width c - Zlength buf - (if negb (x =? 0) then 2 else 0) - (if negb (sign =? 0) then 1 else 0)) in
  let pad_cnt := Z.to_nat (if pad_cnt <? 0 then 0 else pad_cnt) in
  s ← (if Z.land (flags c) (Z.lor MINUS ZERO) =? 0 then output_dup pad_cnt (code " ") s else Ok s);
  s ← (if negb (sign =? 0) then output sign s else Ok s);
  s ← (if negb (x =? 0) then s ← output (code "0") s; output x s else Ok s);
  s ← (if has (flags c) ZERO then output_dup pad_cnt (code "0") s else Ok s);
  s ← output_list (reverse buf) s;
  if has (flags c) MINUS then output_dup pad_cnt (code " ") s else Ok s.

(** A string that is printed: in memory, or a constant or variable of [__vprintf]. *)
Inductive cstring := At (a : Z) | Lit (l : list Z).
Fixpoint string_loop (n : nat) (str : cstring) (i : Z) (s : St) : res St :=
  match n with
  | O => Ok s
  | S n =>
      c ← (match str with At a => ld (rd s) (a + i) | Lit l => from_opt (l !! Z.to_nat i) end);
      s ← output c s;
      string_loop n str (i + 1) s
  end.
Definition format_string (str : cstring) (length : Z) (c : printf_conversion) (s : St) : res St :=
  s ← (if (length <? width c) && negb (has (flags c) MINUS) then
         output_dup (Z.to_nat (s32 (width c - length))) (code " ") s else Ok s);
  s ← string_loop (Z.to_nat length) str 0 s;
  if (length <? width c) && has (flags c) MINUS then
    output_dup (Z.to_nat (s32 (width c - length))) (code " ") s else Ok s.

(** The value of a signed and of an unsigned integer conversion. *)
Definition signed_arg (ty : arg_type) (args : list Z) : res (Z * list Z) :=
  match ty with
  | CHAR => '(w, args) ← va_arg args; Ok (s8 w, args)
  | SHORT => '(w, args) ← va_arg args; Ok (s16 w, args)
  | INT | LONG | PTRDIFFT => '(w, args) ← va_arg args; Ok (s32 w, args)
  | INTMAX | LONGLONG => '(w, args) ← va_arg64 args; Ok (s64 w, args)
  | SIZET =>
      '(w, args) ← va_arg args;
      Ok (if (2 ^ 32 - 1) / 2 <? w then w - (2 ^ 32 - 1) - 1 else w, args)
  end.
Definition unsigned_arg (ty : arg_type) (args : list Z) : res (Z * list Z) :=
  match ty with
  | CHAR => '(w, args) ← va_arg args; Ok (u8 w, args)
  | SHORT => '(w, args) ← va_arg args; Ok (u16 w, args)
  | INT | LONG | SIZET => va_arg args
  | INTMAX | LONGLONG => va_arg64 args
  | PTRDIFFT => '(w, args) ← va_arg args; Ok (Z.land (u64 (s32 w)) (Z.lor (Z.shiftl (2 ^ 31 - 1) 1) 1), args)
  end.

(** [strnlen]; [fuel] bounds the length of strings. *)
Definition cstring_len (fuel : nat) (str : cstring) (maxlen : Z) (s : St) : res Z :=
  match str with
  | At a => strnlen fuel (rd s) a maxlen
  | Lit l => Ok (Z.min (Zlength l) maxlen)
  end.

(** [n] bounds the characters of the format and of the formats of [__printf]. *)
Fixpoint __vprintf (n fuel : nat) (format args : list Z) (s : St) : res St :=
  match n with
  | O => Fuel
  | S n =>
      match format with
      | [] => Ok s
      | ch :: format =>
          if negb (ch =? code "%") then s ← output ch s; __vprintf n fuel format args s else
          if at_ format =? code "%" then s ← output (code "%") s; __vprintf n fuel (tl format) args s else
          '(c, format, args) ← parse_conversion format args;
          let ch := at_ format in
          '(s, args) ← (
            if (ch =? code "d") || (ch =? code "i") then
              '(value, args) ← signed_arg (type c) args;
              s ← format_integer (u64 (if value <? 0 then - value else value)) true (value <? 0) base_d c s;
              Ok (s, args)
            else if ch =? code "o" then
              '(value, args) ← unsigned_arg (type c) args;
              s ← format_integer value false false base_o c s; Ok (s, args)
            else if ch =? code "u" then
              '(value, args) ← unsigned_arg (type c) args;
              s ← format_integer value false false base_d c s; Ok (s, args)
            else if ch =? code "x" then
              '(value, args) ← unsigned_arg (type c) args;
              s ← format_integer value false false base_x c s; Ok (s, args)
            else if ch =? code "X" then
              '(value, args) ← unsigned_arg (type c) args;
              s ← format_integer value false false base_X c s; Ok (s, args)
            else if ch =? code "c" then
              '(w, args) ← va_arg args;
              s ← format_string (Lit [u8 w]) 1 c s; Ok (s, args)
            else if ch =? code "s" then
              '(a, args) ← va_arg args;
              let str := if a =? 0 then Lit (chars "(null)") else At a in
              len ← cstring_len fuel str (u32 (precision c)) s;
              s ← format_string str (s32 len) c s; Ok (s, args)
            else if ch =? code "p" then
              '(p, args) ← va_arg args;
              s ← format_integer p false false base_x (Conversion POUND (width c) (precision c) (type c)) s;
              Ok (s, args)
            else if existsb (Z.eqb ch) (chars "feEgGn") then
              s ← __vprintf n fuel (chars "<<no %%%c in kernel>>") [ch] s; Ok (s, args)
            else
              s ← __vprintf n fuel (chars "<<no %%%c conversion>>") [ch] s; Ok (s, args));
          (** [format++] *)
          match format with
          | [] => Panic
          | _ :: format => __vprintf n fuel format args s
          end
      end
  end.

End output.

(** Characters of the format, and of the longer of the two inner formats. *)
Definition steps (format : list Z) : nat := length format + 32.

(** *** [snprintf] *)

Record vsnprintf_aux := Aux { p : Z; length_ : Z; max_length : Z; amem : mem }.
Definition vsnprintf_helper (ch : Z) (aux : vsnprintf_aux) : res vsnprintf_aux :=
  let n := length_ aux in
  if n <? max_length aux then
    m ← st (amem aux) (p aux) ch;
    Ok (Aux (p aux + 1) (s32 (n + 1)) (max_length aux) m)
  else Ok (Aux (p aux) (s32 (n + 1)) (max_length aux) (amem aux)).
Definition vsnprintf (fuel : nat) (m : mem) (buffer buf_size : Z) (format args : list Z) : res (mem * Z) :=
  let aux := Aux buffer 0 (s32 (if 0 <? buf_size then buf_size - 1 else 0)) m in
  aux ← __vprintf vsnprintf_helper amem (steps format) fuel format args aux;
  m ← (if 0 <? buf_size then st (amem aux) (p aux) 0 else Ok (amem aux));
  Ok (m, length_ aux).
Definition snprintf := vsnprintf.

(** *** The console *)

(** What has been written; the strings that are printed are in [cmem]. *)
Record vprintf_aux := Con { written : list Z; char_cnt : Z; cmem : mem }.
Definition vprintf_helper (c : Z) (aux : vprintf_aux) : res vprintf_aux :=
  Ok (Con (written aux ++ [c]) (s32 (char_cnt aux + 1)) (cmem aux)).
Definition vprintf (fuel : nat) (m : mem) (console format args : list Z) : res (list Z * Z) :=
  aux ← __vprintf vprintf_helper cmem (steps format) fuel format args (Con console 0 m);
  Ok (written aux, char_cnt aux).
Definition printf := vprintf.

Definition say (console : list Z) (format : string) (args : list Z) : res (list Z) :=
  fst <$> printf 0 ∅ console (chars format) args.

(** *** [hex_dump] and [print_human_readable_size] *)

(** The same text [n] times. *)
Fixpoint say_n (n : nat) (console : list Z) (format : string) : res (list Z) :=
  match n with
  | O => Ok console
  | S n => console ← say console format []; say_n n console format
  end.
Definition per_line : Z := 16.
(** The bytes of a line, [i] being the column. *)
Fixpoint dump_bytes (buf : list Z) (i : Z) (console : list Z) : res (list Z) :=
  match buf with
  | [] => Ok console
  | b :: buf =>
      console ← say console "%02hhx%c" [b; if i =? per_line / 2 - 1 then code "-" else code " "];
      dump_bytes buf (i + 1) console
  end.
Fixpoint dump_ascii (buf : list Z) (console : list Z) : res (list Z) :=
  match buf with
  | [] => Ok console
  | b :: buf => console ← say console "%c" [if isprint b then b else code "."]; dump_ascii buf console
  end.
(** The buffer holds the bytes that are left. *)
Fixpoint hex_dump (fuel : nat) (console : list Z) (ofs : Z) (buf : list Z) (ascii : bool) : res (list Z) :=
  match fuel with
  | O => Fuel
  | S fuel =>
      let size := Zlength buf in
      if 0 <? size then
        let start := ofs mod per_line in
        let end_ := if size <? per_line - start then start + size else per_line in
        let n := end_ - start in
        let line := take (Z.to_nat n) buf in
        console ← say console "%08jx  " [ofs / per_line * per_line; 0];
        console ← say_n (Z.to_nat start) console "   ";
        console ← dump_bytes line start console;
        console ← (if ascii then
            console ← say_n (Z.to_nat (per_line - end_)) console "   ";
            console ← say console "|" [];
            console ← say_n (Z.to_nat start) console " ";
            console ← dump_ascii line console;
            console ← say_n (Z.to_nat (per_line - end_)) console " ";
            say console "|" []
          else Ok console);
        console ← (fst <$> printf 0 ∅ console [10] []);
        hex_dump fuel console (u32 (ofs + n)) (drop (Z.to_nat n) buf) ascii
      else Ok console
  end.

(** A string constant in memory. *)
Fixpoint place (a : Z) (l : list Z) : mem :=
  match l with
  | [] => {[ a := 0 ]}
  | c :: l => <[ a := c ]> (place (a + 1) l)
  end.

(** [fp] is [f] followed by [rest]. *)
Fixpoint scale (size : Z) (f : string) (rest : list string) : Z * string :=
  match rest with
  | [] => (size, f)
  | g :: rest => if 1024 <=? size then scale (size / 1024) g rest else (size, f)
  end.
Definition print_human_readable_size (console : list Z) (size : Z) : res (list Z) :=
  if size =? 1 then say console "1 byte" [] else
  let '(size, f) := scale size "bytes" ["kB"; "MB"; "GB"; "TB"]%string in
  fst <$> printf (S (String.length f)) (place 1 (chars f)) console (chars "%llu %s")
            [u32 size; size / 2 ^ 32; 1].

(** ** [atoi] *)

Fixpoint skip_space (fuel : nat) (m : mem) (s : Z) : res Z :=
  match fuel with
  | O => Fuel
  | S fuel => c ← ld m s; if isspace c then skip_space fuel m (s + 1) else Ok s
  end.
Fixpoint atoi_loop (fuel : nat) (m : mem) (s value : Z) : res Z :=
  match fuel with
  | O => Fuel
  | S fuel =>
      c ← ld m s;
      if isdigit c then atoi_loop fuel m (s + 1) (s32 (value * 10 - (c - code "0"))) else Ok value
  end.
Definition atoi (fuel : nat) (m : mem) (s : Z) : res Z :=
  ASSERT negb (s =? 0);;
  s ← skip_space fuel m s;
  c ← ld m s;
  let '(negative, s) := if c =? code "+" then (false, s + 1)
                        else if c =? code "-" then (true, s + 1) else (false, s) in
  value ← atoi_loop fuel m s 0;
  Ok (if negb negative then s32 (- value) else value).

(** ** Printing to different places

    What is printed does not depend on where it goes: two ways of handling a character that
    keep a relation between their states are driven alike. *)

(** When the first computation returns, so does the second, with a related result. *)
Definition follows {A B} (Q : A → B → Prop) (m1 : res A) (m2 : res B) : Prop :=
  ∀ x1, m1 = Ok x1 → ∃ x2, m2 = Ok x2 ∧ Q x1 x2.

Lemma follows_bind {A A' B B'} (P : A → A' → Prop) (Q : B → B' → Prop) m1 m2 k1 k2 :
  follows P m1 m2 → (∀ x1 x2, P x1 x2 → follows Q (k1 x1) (k2 x2)) → follows Q (m1 ≫= k1) (m2 ≫= k2).
Proof. intros Hm Hk y (x&Ex&Ey)%bind_Ok. destruct (Hm _ Ex) as (x2&->&Hx). by apply (Hk _ _ Hx). Qed.
Lemma follows_same {A B B'} (Q : B → B' → Prop) (m : res A) k1 k2 :
  (∀ x, follows Q (k1 x) (k2 x)) → follows Q (m ≫= k1) (m ≫= k2).
Proof. intros Hk. apply (follows_bind eq); [by intros ? ->; eauto|]. by intros x _ <-. Qed.
Lemma follows_ret {A B} (Q : A → B → Prop) x y : Q x y → follows Q (Ok x) (Ok y).
Proof. by intros H ? [= <-]; eauto. Qed.

Section follow.
Context {S1 S2 : Type} (out1 : Z → S1 → res S1) (out2 : Z → S2 → res S2) (rd1 : S1 → mem) (rd2 : S2 → mem).
Context (R : S1 → S2 → Prop).
Hypothesis Hout : ∀ c s1 s2, R s1 s2 → follows R (out1 c s1) (out2 c s2).
Hypothesis Hrd : ∀ s1 s2, R s1 s2 → rd1 s1 ⊆ rd2 s2.

Lemma output_dup_follows n ch : ∀ s1 s2, R s1 s2 → follows R (output_dup out1 n ch s1) (output_dup out2 n ch s2).
Proof.
  induction n as [|n IH]; intros s1 s2 HR; simpl; [by apply follows_ret|].
  eapply follows_bind; [by apply Hout|]. auto.
Qed.
Lemma output_list_follows l : ∀ s1 s2, R s1 s2 → follows R (output_list out1 l s1) (output_list out2 l s2).
Proof.
  induction l as [|c l IH]; intros s1 s2 HR; simpl; [by apply follows_ret|].
  eapply follows_bind; [by apply Hout|]. auto.
Qed.

Lemma ld_follows s1 s2 a : R s1 s2 → follows eq (ld (rd1 s1) a) (ld (rd2 s2) a).
Proof.
  intros HR x E%from_opt_Ok. exists x. split; [|done].
  apply from_opt_Ok. by eapply lookup_weaken; [|by apply Hrd].
Qed.
Lemma string_loop_follows n str : ∀ i s1 s2, R s1 s2 →
  follows R (string_loop out1 rd1 n str i s1) (string_loop out2 rd2 n str i s2).
Proof.
  induction n as [|n IH]; intros i s1 s2 HR; simpl; [by apply follows_ret|].
  eapply (follows_bind eq).
  - destruct str; [by apply ld_follows|]. intros ? ->; eauto.
  - intros c _ <-. eapply follows_bind; [by apply Hout|]. auto.
Qed.
Lemma strnlen_follows s1 s2 fuel a maxlen : R s1 s2 →
  follows eq (strnlen fuel (rd1 s1) a maxlen) (strnlen fuel (rd2 s2) a maxlen).
Proof.
  intros HR. unfold strnlen. generalize 0. induction fuel as [|fuel IH]; intros i; simpl; [done|].
  eapply (follows_bind eq); [by apply ld_follows|]. intros c _ <-.
  destruct (_ && _); [apply IH|]. by apply follows_ret.
Qed.

Local Ltac follow :=
  repeat first
    [ match goal with |- follows _ (if ?b then _ else _) (if ?b then _ else _) => destruct b end
    | apply follows_ret; [auto]
    | apply output_dup_follows; [assumption]
    | apply output_list_follows; [assumption]
    | apply string_loop_follows; [assumption]
    | apply Hout; [assumption]
    | apply follows_same; intros ?
    | eapply (follows_bind R); [|intros ? ? ?] ].

Lemma format_integer_follows value sg neg b c s1 s2 : R s1 s2 →
  follows R (format_integer out1 value sg neg b c s1) (format_integer out2 value sg neg b c s2).
Proof. intros HR. unfold format_integer. follow. Qed.
Lemma format_string_follows str len c s1 s2 : R s1 s2 →
  follows R (format_string out1 rd1 str len c s1) (format_string out2 rd2 str len c s2).
Proof. intros HR. unfold format_string. follow. Qed.

Lemma vprintf_follows n fuel : ∀ format args s1 s2, R s1 s2 →
  follows R (__vprintf out1 rd1 n fuel format args s1) (__vprintf out2 rd2 n fuel format args s2).
Proof.
  induction n as [|n IH]; intros format args s1 s2 HR; cbn [__vprintf]; [done|].
  destruct format as [|ch format]; [by apply follows_ret|].
  destruct (negb _); [by follow; apply IH|]. destruct (_ =? _); [by follow; apply IH|].
  apply follows_same. intros [[c format'] args'].
  eapply (follows_bind (λ x y, R x.1 y.1 ∧ x.2 = y.2)).
  - repeat match goal with |- follows _ (if ?b then _ else _) (if ?b then _ else _) => destruct b end.
    all: try (apply follows_same; intros [w args'']).
    all: try (eapply follows_bind; [by apply format_integer_follows|]; intros ? ? ?; by apply follows_ret).
    all: try (eapply follows_bind; [by apply format_string_follows|]; intros ? ? ?; by apply follows_ret).
    all: try (eapply follows_bind; [by apply IH|]; intros ? ? ?; by apply follows_ret).
    eapply (follows_bind eq); [|intros len _ <-].
    + destruct (w =? 0); simpl; [by intros ? ->; eauto|by apply strnlen_follows].
    + eapply follows_bind; [by apply format_string_follows|]. intros ? ? ?. by apply follows_ret.
  - intros [t1 a1] [t2 a2] [HR' [= ->]]. destruct format'; [done|]. by apply IH.
Qed.

End follow.

(** The text that a format denotes.  A function that prints it counts its characters in an
    [int]. *)
Definition emit (c : Z) (l : list Z) : res (list Z) := ASSERT Zlength l <? 2 ^ 31 - 1;; Ok (l ++ [c]).
Definition text (fuel : nat) (m : mem) (format args : list Z) : res (list Z) :=
  __vprintf emit (λ _, m) (steps format) fuel format args [].

(** Memory without the [n] bytes at [a]. *)
Definition outside (m : mem) (a n : Z) : mem := filter (λ kv, kv.1 < a ∨ a + n ≤ kv.1) m.

Lemma emit_Ok c l l' : emit c l = Ok l' → l' = l ++ [c] ∧ Zlength l + 1 < 2 ^ 31.
Proof. unfold emit. destruct (Z.ltb_spec (Zlength l) (2 ^ 31 - 1)); [|done]. intros [= <-]. split; [done|lia]. Qed.

Lemma same_but_outside m m' a n : same_but m m' a n → outside m a n ⊆ m'.
Proof.
  intros Hs. apply map_subseteq_spec. intros x c [Hx Hc]%map_lookup_filter_Some. rewrite Hs; done.
Qed.

(** What the state of [vsnprintf] has in common with the text so far. *)
Record stored (m : mem) (buffer size : Z) (t : list Z) (aux : vsnprintf_aux) : Prop := {
  st_len : length_ aux = Zlength t;
  st_max : max_length aux = size - 1;
  st_pos : p aux = buffer + Z.min (Zlength t) (size - 1);
  st_bytes : bytes_at (amem aux) buffer (take (Z.to_nat (size - 1)) t);
  st_same : same_but m (amem aux) buffer size;
  st_room : writable (amem aux) buffer size
}.

Lemma helper_follows m buffer size c t aux :
  0 < size → stored m buffer size t aux → follows (stored m buffer size) (emit c t) (vsnprintf_helper c aux).
Proof.
  intros Hsize [El Em Ep Hb Hs Hw] t' [-> Ht]%emit_Ok. unfold vsnprintf_helper. rewrite El, Em.
  rewrite s32_small by lia. destruct (Z.ltb_spec (Zlength t) (size - 1)).
  - rewrite st_ok by (apply Hw; lia). simpl. eexists; split; [done|].
    split; simpl; rewrite ?length_app; simpl; try done; try lia.
    + rewrite take_ge in Hb by lia. rewrite take_ge by (rewrite length_app; simpl; lia).
      apply bytes_at_app. split; [apply bytes_at_store; [lia|done]|].
      simpl. rewrite Ep, Z.min_l by lia. by rewrite lookup_insert_eq.
    + intros x Hx. rewrite lookup_insert_ne by lia. by apply Hs.
    + by apply writable_store.
  - eexists; split; [done|].
    split; simpl; rewrite ?length_app; simpl; try done; try lia.
    by rewrite take_app_le by lia.
Qed.

Lemma printf_text fuel m format args t console :
  text fuel m format args = Ok t → printf fuel m console format args = Ok (console ++ t, Zlength t).
Proof.
  intros Et.
  assert (follows (λ t aux, aux = Con (console ++ t) (Zlength t) m) (text fuel m format args)
    (__vprintf vprintf_helper cmem (steps format) fuel format args (Con console 0 m))) as F.
  { unfold text. apply vprintf_follows; [|by intros s1 _ ->|by rewrite app_nil_r].
    intros c s1 _ -> t' [-> Ht]%emit_Ok. eexists; split; [done|]. simpl.
    rewrite s32_small, length_app, app_assoc by lia. simpl. f_equal. lia. }
  destruct (F _ Et) as (aux&E&->). unfold printf, vprintf. by rewrite E.
Qed.

Lemma text_mono fuel m m' format args t :
  m ⊆ m' → text fuel m format args = Ok t → text fuel m' format args = Ok t.
Proof.
  intros Hm Et.
  assert (follows eq (text fuel m format args) (text fuel m' format args)) as F.
  { unfold text. apply vprintf_follows; [|done..]. intros c s1 _ <- s' E. eauto. }
  by destruct (F _ Et) as (t'&->&<-).
Qed.

Lemma snprintf_store fuel m buffer size format args t :
  0 < size < 2 ^ 31 → writable m buffer size →
  text fuel (outside m buffer size) format args = Ok t →
  ∃ m', snprintf fuel m buffer size format args = Ok (m', Zlength t)
    ∧ bytes_at m' buffer (take (Z.to_nat (size - 1)) t ++ [0]) ∧ same_but m m' buffer size.
Proof.
  intros Hsize Hw Et. unfold snprintf, vsnprintf. rewrite (proj2 (Z.ltb_lt 0 size)), s32_small by lia.
  assert (follows (stored m buffer size) (text fuel (outside m buffer size) format args)
    (__vprintf vsnprintf_helper amem (steps format) fuel format args (Aux buffer 0 (size - 1) m))) as F.
  { unfold text. apply vprintf_follows.
    - intros c s1 s2. apply helper_follows. lia.
    - intros s1 s2 [_ _ _ _ Hs _]. by apply same_but_outside.
    - split; simpl; try done; try lia. by rewrite take_nil. }
  destruct (F _ Et) as (aux&->&[El Em Ep Hb Hs Hr]).
  simpl. rewrite st_ok by (apply Hr; lia). simpl. rewrite El. eexists; split; [done|]. split.
  - apply bytes_at_app. rewrite length_take. split; [apply bytes_at_store; [rewrite length_take; lia|done]|].
    simpl. replace (buffer + _) with (p aux) by lia. by rewrite lookup_insert_eq.
  - intros x Hx. rewrite lookup_insert_ne by lia. by apply Hs.
Qed.


Definition demo_mem : mem := place 64 (chars "world") ∪ place 16 (chars "buffer!").

(** ** Decimal numbers *)

Definition is_digit (c : Z) : Prop := 48 ≤ c ≤ 57.

(** The number with the digits [ds], the last digit first. *)
Fixpoint dec (ds : list Z) : Z :=
  match ds with
  | [] => 0
  | c :: ds => (c - 48) + 10 * dec ds
  end.

Lemma digit_at v : ∃ d, digits base_d !! Z.to_nat (v mod 10) = Some d ∧ is_digit d ∧ d - 48 = v mod 10.
Proof.
  pose proof (Z.mod_pos_bound v 10 ltac:(lia)) as Hv.
  exists (v mod 10 + 48). unfold is_digit. split; [|lia].
  assert (v mod 10 = 0 ∨ v mod 10 = 1 ∨ v mod 10 = 2 ∨ v mod 10 = 3 ∨ v mod 10 = 4 ∨ v mod 10 = 5 ∨ v mod 10 = 6
    ∨ v mod 10 = 7 ∨ v mod 10 = 8 ∨ v mod 10 = 9) as Hd by lia.
  by destruct_or! Hd; rewrite Hd.
Qed.

Lemma put_ok buf c : Zlength buf < 64 → put buf c = Ok (buf ++ [c]).
Proof. intros H. unfold put. by rewrite (proj2 (Z.ltb_lt _ _) H). Qed.

Lemma digit_loop_dec fl k : has fl GROUP = false → ∀ n v cnt buf, (k < n)%nat → 0 ≤ v < 10 ^ Z.of_nat k →
  Zlength buf + Z.of_nat k ≤ 64 →
  ∃ ds, digit_loop n base_d fl v cnt buf = Ok (buf ++ ds)
    ∧ Forall is_digit ds ∧ dec ds = v ∧ (length ds ≤ k)%nat ∧ (0 < v → ds ≠ []).
Proof.
  intros Hfl. induction k as [|k IH]; intros [|n] v cnt buf Hn Hv Hb; try lia; cbn [digit_loop].
  { simpl in Hv. exists []. rewrite (proj2 (Z.ltb_ge 0 v)), app_nil_r by lia. repeat split; try done; simpl; lia. }
  destruct (Z.ltb_spec 0 v).
  - rewrite Hfl. cbn [andb mbind res_bind]. change (base base_d) with 10.
    destruct (digit_at v) as (d&->&Hd&Ed). cbn [from_opt mbind res_bind]. rewrite put_ok by lia. cbn [mbind res_bind].
    pose proof (Z.div_mod v 10 ltac:(lia)). rewrite Nat2Z.inj_succ, Z.pow_succ_r in Hv by lia.
    destruct (IH n (v / 10) (cnt + 1) (buf ++ [d])) as (ds&->&Hds&Eds&Hlen&_).
    + lia.
    + split; [apply Z.div_pos; lia|apply Z.div_lt_upper_bound; lia].
    + rewrite length_app. simpl. lia.
    + exists (d :: ds). rewrite <- app_assoc. repeat split; try done; simpl; try lia. by constructor.
  - exists []. rewrite app_nil_r. repeat split; try done; simpl; lia.
Qed.

(** The digits that [%d] prints for the absolute value [v], last digit first. *)
Lemma decimal_buffer v : 0 ≤ v ≤ 2 ^ 31 →
  ∃ ds, (buf ← digit_loop 65 base_d 0 v 0 []; zero_loop 64 1 buf) = Ok ds
    ∧ Forall is_digit ds ∧ dec ds = v ∧ 1 ≤ Zlength ds ≤ 10.
Proof.
  intros Hv. destruct (digit_loop_dec 0 10 eq_refl 65 v 0 []) as (ds&->&Hds&Ev&Hl&Hne); [lia|simpl; lia|simpl; lia|].
  cbn [mbind res_bind app]. destruct ds as [|d ds].
  - exists [48]. split; [done|]. simpl in Ev. repeat split; try done; simpl; try lia. by repeat constructor.
  - exists (d :: ds). split; [|repeat split; try done; simpl in *; lia].
    cbn [zero_loop]. by rewrite (proj2 (Z.ltb_ge (Zlength (d :: ds)) 1)) by (simpl; lia).
Qed.

Lemma emit_ok c t : Zlength t < 2 ^ 31 - 1 → emit c t = Ok (t ++ [c]).
Proof. intros H. unfold emit. by rewrite (proj2 (Z.ltb_lt _ _) H). Qed.
Lemma emit_list l : ∀ t, Zlength t + Zlength l < 2 ^ 31 → output_list emit l t = Ok (t ++ l).
Proof.
  induction l as [|c l IH]; intros t Ht; cbn [output_list]; [by rewrite app_nil_r|].
  rewrite emit_ok by (simpl in Ht; lia). cbn [mbind res_bind].
  rewrite IH, <- app_assoc; [done|]. rewrite length_app. simpl in *. lia.
Qed.

(** One [%d] without options. *)
Lemma vprintf_d {St} (out : Z → St → res St) rd n fuel rest w args s :
  __vprintf out rd (S n) fuel (code "%" :: code "d" :: rest) (w :: args) s =
  (let value := s32 (u32 w) in
   s ← format_integer out (u64 (if value <? 0 then - value else value)) true (value <? 0) base_d
         (Conversion 0 0 (-1) INT) s;
   __vprintf out rd n fuel rest args s).
Proof.
  assert (parse_conversion (code "d" :: rest) (w :: args) = Ok (Conversion 0 0 (-1) INT, code "d" :: rest, w :: args))
    as E by reflexivity.
  cbn [__vprintf at_ hd]. rewrite E. cbn [mbind res_bind]. change (type _) with INT.
  change (signed_arg INT (w :: args)) with (Ok (s32 (u32 w), args)).
  change (negb (code "%" =? code "%")) with false. change (code "d" =? code "%") with false.
  change ((code "d" =? code "d") || _) with true. cbv iota. cbn [mbind res_bind].
  by destruct (format_integer _ _ _ _ _ _).
Qed.

Lemma s32_u32 z : - 2 ^ 31 ≤ z < 2 ^ 31 → s32 (u32 z) = z.
Proof.
  intros Hz. destruct (decide (0 ≤ z)).
  - rewrite u32_small by lia. by apply s32_small.
  - rewrite (u32_wrap 1) by lia. rewrite (s32_wrap (-1)); lia.
Qed.

Lemma format_decimal v neg t : 0 ≤ v ≤ 2 ^ 31 → Zlength t < 2 ^ 30 →
  ∃ ds, format_integer emit v true neg base_d (Conversion 0 0 (-1) INT) t
    = Ok (t ++ (if neg then [code "-"] else []) ++ reverse ds)
    ∧ Forall is_digit ds ∧ dec ds = v ∧ 1 ≤ Zlength ds ≤ 10.
Proof.
  intros Hv Ht. destruct (decimal_buffer v) as (ds&E&Hds&Ev&Hl); [done|].
  exists ds. split; [|done]. apply bind_Ok in E as (buf&E1&E2).
  unfold format_integer. cbn [flags width precision]. change (has 0 _) with false.
  rewrite E1. cbn [mbind res_bind]. change (-1 <? 0) with true. cbv iota. rewrite E2. cbn [mbind res_bind].
  assert (∀ k, 0 ≤ k ≤ 1 → Z.to_nat (if s32 (0 - Zlength ds - 0 - k) <? 0 then 0 else s32 (0 - Zlength ds - 0 - k)) = O)
    as Hpad by (intros k Hk; by rewrite s32_small, (proj2 (Z.ltb_lt _ 0)) by lia).
  destruct neg; cbn -[emit output_list s32 reverse Z.of_nat Z.sub length];
    change (negb (code "-" =? 0)) with true; change (Z.land 0 _ =? 0) with true; cbv iota;
    rewrite Hpad by lia; cbn [output_dup mbind res_bind].
  - rewrite emit_ok by lia. cbn [mbind res_bind]. rewrite emit_list by (rewrite length_app, length_reverse; simpl; lia).
    by rewrite <- app_assoc.
  - by rewrite emit_list by (rewrite length_reverse; lia).
Qed.

Lemma text_decimal fuel m z : - 2 ^ 31 ≤ z < 2 ^ 31 →
  ∃ ds, text fuel m (chars "%d") [u32 z] = Ok ((if z <? 0 then [code "-"] else []) ++ reverse ds)
    ∧ Forall is_digit ds ∧ dec ds = Z.abs z ∧ 1 ≤ Zlength ds ≤ 10.
Proof.
  intros Hz. destruct (format_decimal (Z.abs z) (z <? 0) []) as (ds&E&Hds); [lia|simpl; lia|].
  exists ds. split; [|done]. unfold text. change (steps _) with (S (S 32)). change (chars "%d") with [code "%"; code "d"].
  rewrite vprintf_d. rewrite u32_small by apply u32_range. rewrite s32_u32 by done. cbv zeta.
  replace (u64 _) with (Z.abs z) by (destruct (Z.ltb_spec z 0); rewrite u64_small; lia).
  rewrite E. reflexivity.
Qed.

(** ** Strings *)

Lemma place_at l : ∀ a, bytes_at (place a l) a (l ++ [0]).
Proof.
  induction l as [|c l IH]; intros a; cbn [place app bytes_at]; [by rewrite lookup_singleton_eq|].
  split; [apply lookup_insert_eq|]. apply bytes_at_store; [lia|apply IH].
Qed.
Lemma bytes_at_lookup m l : ∀ a j c, bytes_at m a l → l !! j = Some c → m !! (a + Z.of_nat j) = Some c.
Proof.
  induction l as [|x l IH]; intros a j c Hb Hj; [done|]. destruct Hb as [Hx Hb]. destruct j as [|j]; simpl in Hj.
  - injection Hj as <-. by rewrite Z.add_0_r.
  - rewrite <- (IH (a + 1) j c Hb Hj). f_equal. lia.
Qed.

Lemma strnlen_spec m a s i : bytes_at m a (s ++ [0]) → Forall (λ c, c ≠ 0) s → (i ≤ length s)%nat → Zlength s < 2 ^ 31 →
  ∀ fuel, (length s < i + fuel)%nat → strnlen_loop fuel m a (Z.of_nat i) (2 ^ 32 - 1) = Ok (Zlength s).
Proof.
  intros Hb Hs Hi Hl fuel. revert i Hi. induction fuel as [|fuel IH]; intros i Hi Hf; [lia|]. cbn [strnlen_loop].
  destruct (decide (i = length s)) as [->|Hne].
  - unfold ld. rewrite (bytes_at_lookup m (s ++ [0]) a (length s) 0 Hb) by (rewrite lookup_app_r, Nat.sub_diag by lia; done). done.
  - destruct (lookup_lt_is_Some_2 s i) as [c Hc]; [lia|]. unfold ld.
    rewrite (bytes_at_lookup m (s ++ [0]) a i c Hb) by (by apply lookup_app_l_Some). cbn [from_opt mbind res_bind].
    rewrite Forall_lookup in Hs. rewrite (proj2 (Z.eqb_neq c 0)) by (by apply (Hs i)). rewrite (proj2 (Z.ltb_lt _ _)) by lia. cbn [negb andb].
    replace (Z.of_nat i + 1) with (Z.of_nat (S i)) by lia. apply IH; lia.
Qed.

Lemma string_emit m a s : bytes_at m a (s ++ [0]) → ∀ k i t, (i + k = length s)%nat → Zlength t + Z.of_nat k < 2 ^ 31 →
  string_loop emit (λ _, m) k (At a) (Z.of_nat i) t = Ok (t ++ drop i s).
Proof.
  intros Hb. induction k as [|k IH]; intros i t Hi Ht; cbn [string_loop].
  - by rewrite drop_ge, app_nil_r by lia.
  - destruct (lookup_lt_is_Some_2 s i) as [c Hc]; [lia|]. unfold ld. rewrite (bytes_at_lookup m (s ++ [0]) a i c Hb) by (by apply lookup_app_l_Some).
    cbn [from_opt mbind res_bind]. rewrite emit_ok by lia. cbn [mbind res_bind]. replace (Z.of_nat i + 1) with (Z.of_nat (S i)) by lia.
    rewrite IH by (rewrite ?length_app; simpl; lia). by rewrite <- app_assoc, (drop_S s c i).
Qed.

Lemma vprintf_plain rd l : ∀ n fuel args t, (length l < n)%nat → Forall (λ c, c ≠ 37) l → Zlength t + Zlength l < 2 ^ 31 →
  __vprintf emit rd n fuel l args t = Ok (t ++ l).
Proof.
  induction l as [|c l IH]; intros [|n] fuel args t Hn Hl Ht; simpl in Hn; try lia; cbn [__vprintf]; [by rewrite app_nil_r|].
  apply Forall_cons in Hl as [Hc Hl]. change (code "%") with 37. rewrite (proj2 (Z.eqb_neq c 37)) by done. cbn [negb].
  rewrite emit_ok by (simpl in Ht; lia). cbn [mbind res_bind]. rewrite IH by (rewrite ?length_app; simpl in *; done || lia). by rewrite <- app_assoc.
Qed.

(** One [%s] without options. *)
Lemma vprintf_s n fuel m a s rest args t :
  bytes_at m a (s ++ [0]) → Forall (λ c, 0 < c < 2 ^ 8) s → 0 < a < 2 ^ 32 → (length s < fuel)%nat → Zlength t + Zlength s < 2 ^ 31 →
  __vprintf emit (λ _, m) (S n) fuel (code "%" :: code "s" :: rest) (a :: args) t = __vprintf emit (λ _, m) n fuel rest args (t ++ s).
Proof.
  intros Hb Hs Ha Hf Hl. cbn [__vprintf at_ hd].
  assert (parse_conversion (code "s" :: rest) (a :: args) = Ok (Conversion 0 0 (-1) INT, code "s" :: rest, a :: args)) as -> by reflexivity.
  cbn [mbind res_bind at_ hd]. change (negb (code "%" =? code "%")) with false. change (code "s" =? code "%") with false.
  change ((code "s" =? code "d") || _) with false. change (code "s" =? code "o") with false. change (code "s" =? code "u") with false.
  change (code "s" =? code "x") with false. change (code "s" =? code "X") with false. change (code "s" =? code "c") with false.
  change (code "s" =? code "s") with true. cbv iota. change (va_arg (a :: args)) with (Ok (u32 a, args)). cbn [mbind res_bind]. rewrite u32_small by lia.
  rewrite (proj2 (Z.eqb_neq a 0)) by lia. cbn [cstring_len precision]. change (u32 (-1)) with (2 ^ 32 - 1).
  unfold strnlen.
  assert (Hs' : Forall (λ c, c ≠ 0) s) by (eapply Forall_impl; [exact Hs|]; intros; simpl in *; lia).
  pose proof (strnlen_spec m a s 0 Hb Hs' ltac:(lia) ltac:(lia) fuel ltac:(lia)) as El. change (Z.of_nat 0) with 0 in El. rewrite El. cbn [mbind res_bind].
  unfold format_string. cbn [width flags]. rewrite s32_small by lia. rewrite (proj2 (Z.ltb_ge (Zlength s) 0)) by lia. cbn [andb mbind res_bind].
  rewrite Nat2Z.id. pose proof (string_emit m a s Hb (length s) 0 t ltac:(lia) ltac:(lia)) as Ee. change (Z.of_nat 0) with 0 in Ee. rewrite Ee. cbn [mbind res_bind]. by rewrite drop_0.
Qed.

(** A string and more text. *)
Lemma text_s fuel m a s rest :
  bytes_at m a (s ++ [0]) → Forall (λ c, 0 < c < 2 ^ 8) s → 0 < a < 2 ^ 32 → (length s < fuel)%nat → Forall (λ c, c ≠ 37) rest →
  Zlength s + Zlength rest < 2 ^ 31 → text fuel m (code "%" :: code "s" :: rest) [a] = Ok (s ++ rest).
Proof.
  intros Hb Hs Ha Hf Hr Hl. unfold text. change (steps _) with (S (S (length rest + 32))). set (k := S (length rest + 32)).
  rewrite (vprintf_s _ _ _ _ s) by (done || simpl; lia). apply vprintf_plain; [unfold k; lia|done|simpl; lia].
Qed.

(** A string and a number after it. *)
Lemma text_sd fuel m a s z :
  bytes_at m a (s ++ [0]) → Forall (λ c, 0 < c < 2 ^ 8) s → 0 < a < 2 ^ 32 → (length s < fuel)%nat → 0 ≤ z < 2 ^ 31 →
  Zlength s < 2 ^ 30 →
  ∃ ds, text fuel m (chars "%s%d") [a; u32 z] = Ok (s ++ reverse ds) ∧ Forall is_digit ds ∧ dec ds = z.
Proof.
  intros Hb Hs Ha Hf Hz Hl. destruct (format_decimal z false s) as (ds & E & Hds & Ed & _); [lia|lia|].
  exists ds. split; [|done]. unfold text. change (steps _) with (S (S 34)). change (chars "%s%d") with [code "%"; code "s"; code "%"; code "d"].
  rewrite (vprintf_s _ _ _ _ s) by (done || simpl; lia). rewrite vprintf_d. rewrite u32_small by apply u32_range. rewrite s32_u32 by lia. cbv zeta.
  rewrite (proj2 (Z.ltb_ge z 0)) by lia. rewrite u64_small by lia. rewrite app_nil_l, E. reflexivity.
Qed.

(** *** [atoi] *)

Definition num (l : list Z) (x : Z) : Z := fold_left (λ v c, v * 10 - (c - 48)) l x.

Lemma num_le l : ∀ x, Forall is_digit l → x ≤ 0 → num l x ≤ x.
Proof.
  induction l as [|c l IH]; intros x Hl Hx; simpl; [lia|]. apply Forall_cons in Hl as [Hc Hl].
  unfold is_digit in Hc. specialize (IH (x * 10 - (c - 48)) Hl ltac:(lia)). unfold num in *. lia.
Qed.
Lemma num_reverse ds : num (reverse ds) 0 = - dec ds.
Proof.
  induction ds as [|c ds IH]; simpl; [done|]. rewrite reverse_cons. unfold num in *.
  rewrite fold_left_app, IH. simpl. lia.
Qed.

Lemma isdigit_spec c : isdigit c = true ↔ is_digit c.
Proof. unfold isdigit, is_digit. change (code "0") with 48. change (code "9") with 57. zbool. lia. Qed.

Lemma atoi_loop_spec l : ∀ fuel m s x, bytes_at m s (l ++ [0]) → Forall is_digit l → (length l < fuel)%nat →
  x ≤ 0 → - 2 ^ 31 ≤ num l x → atoi_loop fuel m s x = Ok (num l x).
Proof.
  induction l as [|c l IH]; intros [|fuel] m s x Hb Hl Hf Hx Hn; simpl in Hf; try lia; cbn [atoi_loop].
  - destruct Hb as [Hb _]. unfold ld. by rewrite Hb.
  - destruct Hb as [Hc Hb]. apply Forall_cons in Hl as [Hd Hl]. unfold ld. rewrite Hc. cbn [from_opt mbind res_bind].
    rewrite (proj2 (isdigit_spec c) Hd). change (code "0") with 48. change (num (c :: l) x) with (num l (x * 10 - (c - 48))) in *.
    unfold is_digit in Hd. pose proof (num_le l (x * 10 - (c - 48)) Hl ltac:(lia)).
    rewrite s32_small by lia. apply IH; try done; lia.
Qed.

Lemma ld_ok m s c : m !! s = Some c → ld m s = Ok c.
Proof. intros E. unfold ld. by rewrite E. Qed.
Lemma skip_none fuel m s c : m !! s = Some c → isspace c = false → skip_space (S fuel) m s = Ok s.
Proof. intros E Ec. cbn [skip_space]. rewrite (ld_ok _ _ _ E). cbn [mbind res_bind]. by rewrite Ec. Qed.

Lemma atoi_decimal m s z ds :
  s ≠ 0 → bytes_at m s (((if z <? 0 then [code "-"] else []) ++ reverse ds) ++ [0]) →
  - 2 ^ 31 ≤ z < 2 ^ 31 → Forall is_digit ds → dec ds = Z.abs z → 1 ≤ Zlength ds ≤ 10 → atoi 12 m s = Ok z.
Proof.
  intros Hs Hb Hz Hds Ev Hl. unfold atoi. rewrite (proj2 (Z.eqb_neq s 0) Hs). cbn [negb].
  assert (Hr : Forall is_digit (reverse ds)) by (by apply Forall_reverse).
  assert (Hlr : length (reverse ds) = length ds) by apply length_reverse.
  assert (Hn : num (reverse ds) 0 = - Z.abs z) by (rewrite num_reverse; lia).
  assert (∀ s', bytes_at m s' (reverse ds ++ [0]) → atoi_loop 12 m s' 0 = Ok (- Z.abs z)) as Hloop.
  { intros s' H'. rewrite (atoi_loop_spec (reverse ds)); try done; try lia. by rewrite Hn. }
  destruct (Z.ltb_spec z 0).
  - destruct Hb as [Hc Hb]. rewrite (skip_none _ _ _ _ Hc) by done. cbn [mbind res_bind].
    rewrite (ld_ok _ _ _ Hc). cbn [mbind res_bind].
    change (code "-" =? code "+") with false. change (code "-" =? code "-") with true. cbv iota.
    rewrite Hloop by done. cbn [mbind res_bind negb]. f_equal. lia.
  - destruct (reverse ds) as [|c l] eqn:El; [simpl in Hlr; lia|]. apply Forall_cons in Hr as [Hc _].
    pose proof Hb as Hb'. destruct Hb' as [Hc' _]. unfold is_digit in Hc. 
    rewrite (skip_none _ _ _ _ Hc') by (unfold isspace; change (code " ") with 32; zbool; lia). cbn [mbind res_bind].
    rewrite (ld_ok _ _ _ Hc'). cbn [mbind res_bind]. change (code "+") with 43. change (code "-") with 45.
    rewrite (proj2 (Z.eqb_neq c 43)), (proj2 (Z.eqb_neq c 45)) by lia.
    rewrite Hloop by done. cbn [mbind res_bind negb]. rewrite s32_small; f_equal; lia.
Qed.

(** an [int] that [snprintf] writes with [%d], into a buffer of 12 characters, is the
    [int] that [atoi] reads from the buffer. *)
Theorem print_atoi m buffer z :
  - 2 ^ 31 ≤ z < 2 ^ 31 → buffer ≠ 0 → writable m buffer 12 →
  ∃ m' n, snprintf 0 m buffer 12 (chars "%d") [u32 z] = Ok (m', n)
    ∧ 1 ≤ n ≤ 11 ∧ same_but m m' buffer 12 ∧ atoi 12 m' buffer = Ok z.
Proof.
  intros Hz Hb Hw. destruct (text_decimal 0 (outside m buffer 12) z Hz) as (ds&Et&Hds&Ev&Hl).
  destruct (snprintf_store 0 m buffer 12 _ _ _ ltac:(lia) Hw Et) as (m'&Es&Hm&Hsame).
  assert (Hlen : length ((if z <? 0 then [code "-"] else []) ++ reverse ds)
    = ((if (z <? 0)%Z then 1 else 0) + length ds)%nat)
    by (rewrite length_app, length_reverse; by destruct (z <? 0)).
  rewrite take_ge in Hm by (rewrite Hlen; destruct (z <? 0); lia).
  eexists m', _. split; [exact Es|]. rewrite Hlen. split; [destruct (z <? 0); lia|]. split; [done|].
  by eapply atoi_decimal.
Qed.
Lemma print_atoi_witness :
  ∃ m' n, snprintf 0 (place 16 (replicate 11 0)) 16 12 (chars "%d") [u32 (-440)] = Ok (m', n)
    ∧ 1 ≤ n ≤ 11 ∧ same_but (place 16 (replicate 11 0)) m' 16 12 ∧ atoi 12 m' 16 = Ok (-440).
Proof.
  apply (print_atoi (place 16 (replicate 11 0)) 16 (-440)); [lia..|].
  intros x Hx. assert (x ∈ seqZ 16 12) as Hx' by (apply elem_of_seqZ; lia). clear Hx. revert x Hx'.
  apply Forall_forall. by vm_compute; repeat constructor; eexists.
Defined.

End Stdio.
