(* ===== verification/Ustar.v ===== *)
(** * Archive headers, [lib/ustar.c]

    A header is an array of 512 characters; file names are strings without their
    terminator. *)

From Stdlib Require Import Ascii String.
From S2P Require Import Prelude Strings Stdio.

Module Ustar.
Import Strings Stdio.

(** ** The header *)

Definition USTAR_HEADER_SIZE : Z := 512.

(** The fields of [struct ustar_header] that the code uses: their offsets and sizes. *)
Record field := Field { ofs : Z; size : Z }.
Definition name : field := Field 0 100.
Definition mode : field := Field 100 8.
Definition uid : field := Field 108 8.
Definition gid : field := Field 116 8.
Definition size_ : field := Field 124 12.
Definition mtime : field := Field 136 12.
Definition chksum : field := Field 148 8.
Definition typeflag : field := Field 156 1.
Definition magic : field := Field 257 6.
Definition version : field := Field 263 2.
Definition uname : field := Field 265 32.
Definition gname : field := Field 297 32.
Definition prefix : field := Field 345 155.

Definition get (f : field) (h : list Z) : list Z := slice (ofs f) (size f) h.

(** [enum ustar_type] *)
Definition USTAR_REGULAR : Z := 48.
Definition USTAR_DIRECTORY : Z := 53.
Definition USTAR_EOF : Z := -1.

Fixpoint chksum_loop (l : list Z) (i sum : Z) : Z :=
  match l with
  | [] => sum
  | c :: l =>
      let in_chksum_field := (ofs chksum <=? i) && (i <? ofs chksum + size chksum) in
      chksum_loop l (i + 1) (u32 (sum + (if in_chksum_field then code " " else c)))
  end.
Definition calculate_chksum (h : list Z) : Z := chksum_loop h 0 0.

(** ** File names *)

(** [!memcmp (s, p, strlen (p))] *)
Definition starts_with (p s : list Z) : bool := bool_decide (take (length p) s = p).
(** [strchr (file_name, '/') + 1] *)
Fixpoint after_slash (s : list Z) : option (list Z) :=
  match s with
  | [] => None
  | c :: s => if c =? code "/" then Some s else after_slash s
  end.
Definition antisocial (s : list Z) : bool :=
  (at_ s =? code "/") || starts_with (chars "./") s || starts_with (chars "../") s.
Fixpoint strip_loop (n : nat) (file_name : list Z) : res (list Z) :=
  match n with
  | O => Fuel
  | S n =>
      if antisocial file_name then s ← from_opt (after_slash file_name); strip_loop n s else Ok file_name
  end.
(** Each turn of the loop makes the name shorter. *)
Definition strip_antisocial_prefixes (file_name : list Z) : res (list Z) :=
  s ← strip_loop (S (length file_name)) file_name;
  Ok (if bool_decide (s = []) || bool_decide (s = chars "..") then chars "." else s).

(** ** Making a header *)

(** [strlcpy] and [snprintf] into a field. *)
Definition strlcpy_field (f : field) (s h : list Z) : list Z := splice (ofs f) (take (Z.to_nat (size f - 1)) s ++ [0]) h.
Definition snprintf_field (f : field) (format : string) (arg : Z) (h : list Z) : res (list Z) :=
  '(m, _) ← snprintf O (map_seqZ 0 h) (ofs f) (size f) (chars format) [arg];
  from_opt (mapM (λ i, m !! i) (seqZ 0 USTAR_HEADER_SIZE)).

(** [memset (h, 0, sizeof *h)] *)
Definition zero_header : list Z := replicate (Z.to_nat USTAR_HEADER_SIZE) 0.

Definition ustar_make_header (console file_name : list Z) (type sz : Z) (header : list Z) : res (bool * list Z * list Z) :=
  ASSERT (type =? USTAR_REGULAR) || (type =? USTAR_DIRECTORY);;
  file_name ← strip_antisocial_prefixes file_name;
  if 99 <? Zlength file_name then
    '(console, _) ← printf (S (length file_name)) (place 1 file_name) console (chars "%s: file name too long" ++ [10]) [1];
    Ok (false, header, console)
  else
  let h := strlcpy_field name file_name zero_header in
  h ← snprintf_field mode "%07o" (if type =? USTAR_REGULAR then 420 else 493) h;
  let h := strlcpy_field uid (chars "0000000") h in
  let h := strlcpy_field gid (chars "0000000") h in
  h ← snprintf_field size_ "%011o" (u32 sz) h;
  h ← snprintf_field mtime "%011o" 1136102400 h;
  let h := splice (ofs typeflag) [type] h in
  let h := strlcpy_field magic (chars "ustar") h in
  let h := splice (ofs version) [code "0"; code "0"] h in
  let h := strlcpy_field gname (chars "root") h in
  let h := strlcpy_field uname (chars "root") h in
  h ← snprintf_field chksum "%07o" (calculate_chksum h) h;
  Ok (true, h, console).

(** ** Parsing a header *)

Fixpoint octal_loop (s : list Z) (ofs value : Z) : option Z :=
  match s with
  | [] => None
  | c :: s =>
      if (code "0" <=? c) && (c <=? code "7") then
        if (2 ^ 32 - 1) / 8 <? value then None else octal_loop s (ofs + 1) (u32 (c - code "0" + value * 8))
      else if (c =? code " ") || (c =? 0) then if 0 <? ofs then Some value else None
      else None
  end.
Definition parse_octal_field (f : field) (h : list Z) : option Z := octal_loop (get f h) 0 0.

Definition is_all_zeros (block : list Z) : bool := forallb (Z.eqb 0) block.

(** The string at the start of an array. *)
Fixpoint cstr (l : list Z) : list Z :=
  match l with
  | [] => []
  | c :: l => if c =? 0 then [] else c :: cstr l
  end.

(** A file name, a type and a size, or an error message. *)
Inductive parsed := Parsed (file_name : option (list Z)) (type sz : Z) | Bad (error : string).

Definition byte_at (f : field) (i : nat) (h : list Z) : Z := default 0 (get f h !! i).
Definition ustar_parse_header (header : list Z) : res parsed :=
  if is_all_zeros header then Ok (Parsed None USTAR_EOF 0) else
  let h := header in
  if negb (bool_decide (get magic h = chars "ustar" ++ [0])) then Ok (Bad "not a ustar archive") else
  if negb (byte_at version 0 h =? code "0") || negb (byte_at version 1 h =? code "0") then Ok (Bad "invalid ustar version") else
  match parse_octal_field chksum h with
  | None => Ok (Bad "corrupt chksum field")
  | Some sum =>
      if negb (sum =? calculate_chksum h) then Ok (Bad "checksum mismatch") else
      if negb (byte_at name 99 h =? 0) || negb (byte_at prefix 0 h =? 0) then Ok (Bad "file name too long") else
      let type := byte_at typeflag 0 h in
      if negb (type =? USTAR_REGULAR) && negb (type =? USTAR_DIRECTORY) then Ok (Bad "unimplemented file type") else
      let success size_ul :=
        file_name ← strip_antisocial_prefixes (cstr (get name h));
        Ok (Parsed (Some file_name) type (s32 size_ul)) in
      if type =? USTAR_REGULAR then
        match parse_octal_field size_ h with
        | None => Ok (Bad "corrupt file size field")
        | Some size_ul => if 2 ^ 31 - 1 <? size_ul then Ok (Bad "file too large") else success size_ul
        end
      else success 0
  end.

(** ** Names *)

(** A name that [strip_antisocial_prefixes] leaves alone. *)
Definition social (s : list Z) : Prop := antisocial s = false ∧ s ≠ [] ∧ s ≠ chars "..".

Lemma antisocial_slash s : antisocial s = true → ∃ s', after_slash s = Some s' ∧ (length s' < length s)%nat ∧ ∀ P, Forall P s → Forall P s'.
Proof.
  unfold antisocial, starts_with. intros H.
  apply orb_true_iff in H as [[H|H]%orb_true_iff|H].
  - destruct s as [|c s]; [done|]. apply Z.eqb_eq in H. simpl in H. subst c. exists s. split; [done|]. split; [simpl; lia|].
    by intros P [_ ?]%Forall_cons.
  - apply bool_decide_eq_true in H. destruct s as [|c [|d s]]; [discriminate H..|]. injection H as -> ->. exists s. split; [done|]. split; [simpl; lia|].
    by intros P [_ [_ ?]%Forall_cons]%Forall_cons.
  - apply bool_decide_eq_true in H. destruct s as [|c [|d [|e s]]]; [discriminate H..|]. injection H as -> -> ->. exists s. split; [done|]. split; [simpl; lia|].
    by intros P [_ [_ [_ ?]%Forall_cons]%Forall_cons]%Forall_cons.
Qed.

Lemma strip_loop_spec n : ∀ s, (length s < n)%nat →
  ∃ s', strip_loop n s = Ok s' ∧ antisocial s' = false ∧ (length s' ≤ length s)%nat ∧ ∀ P, Forall P s → Forall P s'.
Proof.
  induction n as [|n IH]; intros s Hn; [lia|]. cbn [strip_loop]. destruct (antisocial s) eqn:Ea.
  - destruct (antisocial_slash s Ea) as (s1 & -> & Hl & Hp). cbn [from_opt mbind res_bind].
    destruct (IH s1) as (s' & E & Ha & Hl' & Hp'); [lia|]. exists s'. split; [done|]. split; [done|]. split; [lia|]. auto.
  - exists s. auto.
Qed.

Lemma strip_spec s :
  ∃ s', strip_antisocial_prefixes s = Ok s' ∧ social s' ∧ Zlength s' ≤ Z.max 1 (Zlength s)
    ∧ (Forall (λ c, 0 < c < 2 ^ 8) s → Forall (λ c, 0 < c < 2 ^ 8) s').
Proof.
  destruct (strip_loop_spec (S (length s)) s) as (s' & E & Ha & Hl & Hp); [lia|]. unfold strip_antisocial_prefixes. rewrite E. cbn [mbind res_bind].
  destruct (bool_decide_reflect (s' = [])) as [|H1]; [|destruct (bool_decide_reflect (s' = chars "..")) as [|H2]]; simpl.
  - exists [46]. split; [done|]. split; [done|]. split; [simpl; lia|]. intros _. by repeat constructor.
  - exists [46]. split; [done|]. split; [done|]. split; [simpl; lia|]. intros _. by repeat constructor.
  - exists s'. split; [done|]. split; [done|]. split; [lia|auto].
Qed.
Lemma strip_social s : social s → strip_antisocial_prefixes s = Ok s.
Proof.
  intros (Ha & H1 & H2). unfold strip_antisocial_prefixes. cbn [strip_loop]. rewrite Ha. cbn [mbind res_bind].
  by rewrite !bool_decide_eq_false_2.
Qed.

(** ** Octal numbers *)

(** The last [k] octal digits, the last one first. *)
Fixpoint oct (k : nat) (v : Z) : list Z :=
  match k with
  | O => []
  | S k => 48 + v mod 8 :: oct k (v / 8)
  end.
Lemma length_oct k v : length (oct k v) = k.
Proof. revert v. induction k as [|k IH]; intros v; simpl; [done|]. by rewrite IH. Qed.
Lemma oct_zero k : oct k 0 = replicate k 48.
Proof. induction k as [|k IH]; [done|]. cbn [oct replicate]. change (0 / 8) with 0. by rewrite IH. Qed.
Lemma octal_digit v : digits base_o !! Z.to_nat (v mod 8) = Some (48 + v mod 8).
Proof.
  pose proof (Z.mod_pos_bound v 8 ltac:(lia)) as Hv.
  assert (v mod 8 = 0 ∨ v mod 8 = 1 ∨ v mod 8 = 2 ∨ v mod 8 = 3 ∨ v mod 8 = 4 ∨ v mod 8 = 5 ∨ v mod 8 = 6 ∨ v mod 8 = 7) as Hd by lia.
  by destruct_or! Hd; rewrite Hd.
Qed.

Lemma digit_loop_oct fl k : has fl GROUP = false → ∀ n v cnt buf, (k < n)%nat → 0 ≤ v < 8 ^ Z.of_nat k → Zlength buf + Z.of_nat k ≤ 64 →
  ∃ j, (j ≤ k)%nat ∧ digit_loop n base_o fl v cnt buf = Ok (buf ++ oct j v) ∧ oct k v = oct j v ++ replicate (k - j) 48.
Proof.
  intros Hfl. induction k as [|k IH]; intros [|n] v cnt buf Hn Hv Hb; try lia; cbn [digit_loop].
  { simpl in Hv. exists O. by rewrite (proj2 (Z.ltb_ge 0 v)), app_nil_r by lia. }
  destruct (Z.ltb_spec 0 v).
  - rewrite Hfl. cbn [andb mbind res_bind]. change (base base_o) with 8. rewrite octal_digit. cbn [from_opt mbind res_bind].
    rewrite put_ok by lia. cbn [mbind res_bind]. rewrite Nat2Z.inj_succ, Z.pow_succ_r in Hv by lia.
    destruct (IH n (v / 8) (cnt + 1) (buf ++ [48 + v mod 8])) as (j & Hj & -> & E).
    + lia.
    + split; [apply Z.div_pos; lia|apply Z.div_lt_upper_bound; lia].
    + rewrite length_app. simpl. lia.
    + exists (S j). split; [lia|]. split; [by rewrite <- app_assoc|]. cbn [oct]. by rewrite E.
  - assert (v = 0) as -> by lia. exists O. rewrite app_nil_r. split; [lia|]. split; [done|]. by rewrite oct_zero, Nat.sub_0_r.
Qed.

Lemma emit_dup n c : ∀ t, Zlength t + Z.of_nat n < 2 ^ 31 → output_dup emit n c t = Ok (t ++ replicate n c).
Proof.
  induction n as [|n IH]; intros t Ht; cbn [output_dup replicate]; [by rewrite app_nil_r|].
  rewrite emit_ok by lia. cbn [mbind res_bind]. rewrite IH by (rewrite length_app; simpl; lia). by rewrite <- app_assoc.
Qed.

(** A number with leading zeros. *)
Lemma format_octal w v : (1 ≤ w ≤ 11)%nat → 0 ≤ v < 8 ^ Z.of_nat w →
  format_integer emit v false false base_o (Conversion ZERO (Z.of_nat w) (-1) INT) [] = Ok (reverse (oct w v)).
Proof.
  intros Hw Hv. destruct (digit_loop_oct ZERO w eq_refl 65 v 0 []) as (j & Hj & E1 & Eo); [lia|done|simpl; lia|]. cbn [app] in E1.
  assert (Hz : ∃ i, (j ≤ i ≤ w)%nat ∧ zero_loop 64 1 (oct j v) = Ok (oct j v ++ replicate (i - j) 48)).
  { destruct j as [|j]; [exists 1%nat; split; [lia|done]|]. exists (S j). split; [lia|]. cbn [zero_loop].
    rewrite (proj2 (Z.ltb_ge (Zlength (oct (S j) v)) 1)) by (rewrite length_oct; lia). by rewrite Nat.sub_diag, app_nil_r. }
  destruct Hz as (i & Hi & E2). set (buf := oct j v ++ replicate (i - j) 48) in *.
  assert (Hlen : Zlength buf = Z.of_nat i) by (unfold buf; rewrite length_app, length_oct, length_replicate; lia).
  assert (Eb : oct w v = buf ++ replicate (w - i) 48).
  { rewrite Eo. unfold buf. rewrite <- app_assoc, <- replicate_add. do 2 f_equal. lia. }
  unfold format_integer. cbn [flags width precision]. change (has ZERO PLUS) with false. change (has ZERO POUND) with false.
  change (has ZERO ZERO) with true. change (has ZERO MINUS) with false. change (Z.land ZERO (Z.lor MINUS ZERO) =? 0) with false.
  change (negb (0 =? 0)) with false. cbn [andb]. rewrite E1. cbn [mbind res_bind]. change (-1 <? 0) with true. cbv iota. rewrite E2. cbn [mbind res_bind].
  change (negb (0 =? 0)) with false. cbv iota. cbn [mbind res_bind].
  assert (s32 (Z.of_nat w - Zlength buf - 0 - 0) = Z.of_nat (w - i)) as -> by (rewrite s32_small; lia).
  rewrite (proj2 (Z.ltb_ge (Z.of_nat (w - i)) 0)), Nat2Z.id by lia. cbn [mbind res_bind].
  rewrite emit_dup by (simpl; lia). cbn [mbind res_bind app]. rewrite emit_list by (rewrite length_replicate, length_reverse; lia). cbn [mbind res_bind].
  by rewrite Eb, reverse_app, reverse_replicate.
Qed.

(** One octal conversion at the end of a format. *)
Lemma vprintf_o {St} (out : Z → St → res St) rd n fuel f fl w v s :
  parse_conversion f [v] = Ok (Conversion fl w (-1) INT, [code "o"], [v]) → (at_ f =? code "%") = false →
  __vprintf out rd (S (S n)) fuel (code "%" :: f) [v] s = format_integer out (u32 v) false false base_o (Conversion fl w (-1) INT) s.
Proof.
  intros E Hp. set (k := S n). cbn [__vprintf]. rewrite Hp, E. cbn [mbind res_bind type]. change (negb (code "%" =? code "%")) with false. cbv iota.
  cbn [at_ hd]. change ((code "o" =? code "d") || (code "o" =? code "i")) with false. change (code "o" =? code "o") with true. cbv iota.
  change (unsigned_arg INT [v]) with (Ok (u32 v, @nil Z)). cbn [mbind res_bind].
  destruct (format_integer _ _ _ _ _ _ _); reflexivity.
Qed.

Lemma text_octal7 m v : 0 ≤ v < 8 ^ 7 → text O m (chars "%07o") [v] = Ok (reverse (oct 7 v)).
Proof.
  intros Hv. unfold text. change (steps _) with (S (S 34)). change (chars "%07o") with (code "%" :: chars "07o").
  rewrite (vprintf_o _ _ _ _ _ ZERO 7), u32_small by (reflexivity || lia). by apply (format_octal 7); [lia|].
Qed.
Lemma text_octal11 m v : 0 ≤ v < 2 ^ 32 → text O m (chars "%011o") [v] = Ok (reverse (oct 11 v)).
Proof.
  intros Hv. unfold text. change (steps _) with (S (S 35)). change (chars "%011o") with (code "%" :: chars "011o").
  rewrite (vprintf_o _ _ _ _ _ ZERO 11), u32_small by (reflexivity || lia). apply (format_octal 11); [lia|]. simpl. lia.
Qed.

(** [snprintf] of a number that fills the field. *)
Lemma snprintf_field_spec f format arg h t :
  Zlength h = 512 → 0 ≤ ofs f → 0 < size f → ofs f + size f ≤ 512 → (∀ m, text O m (chars format) [arg] = Ok t) → Zlength t = size f - 1 →
  snprintf_field f format arg h = Ok (splice (ofs f) (t ++ [0]) h).
Proof.
  intros Hh H0 H1 H2 Ht Hlen. unfold snprintf_field.
  assert (Hlk : ∀ i, 0 ≤ i < 512 → is_Some ((map_seqZ 0 h : mem) !! i)).
  { intros i Hi. rewrite lookup_map_seqZ, option_guard_True, Z.sub_0_r by lia. apply lookup_lt_is_Some. lia. }
  destruct (snprintf_store O (map_seqZ 0 h) (ofs f) (size f) (chars format) [arg] t) as (m' & -> & Hb & Hs); [lia| |done|].
  { intros x Hx. apply Hlk. lia. }
  cbn [mbind res_bind]. rewrite take_ge in Hb by lia.
  assert (Hm : mapM (λ i, m' !! i) (seqZ 0 USTAR_HEADER_SIZE) = Some (splice (ofs f) (t ++ [0]) h)); [|by rewrite Hm].
  assert (Hl : length (splice (ofs f) (t ++ [0]) h) = length h) by (apply length_splice; rewrite ?length_app; simpl; lia).
  apply mapM_Some, Forall2_same_length_lookup_2; [rewrite length_seqZ; unfold USTAR_HEADER_SIZE; lia|].
  intros j x y Hx Hy. apply lookup_seqZ in Hx as [-> Hj]. unfold USTAR_HEADER_SIZE in Hj.
  rewrite lookup_splice in Hy by (rewrite ?length_app; simpl; lia). destruct (decide _) as [Hd|Hd].
  - replace (0 + Z.of_nat j) with (ofs f + Z.of_nat (Z.to_nat (Z.of_nat j - ofs f))) by lia.
    by apply (bytes_at_lookup m' (t ++ [0])).
  - rewrite Hs by (rewrite length_app in Hd; simpl in Hd; lia). rewrite lookup_map_seqZ, option_guard_True by lia. rewrite <- Hy. f_equal. lia.
Qed.

(** ** Parsing numbers *)

Definition is_octal (c : Z) : Prop := 48 ≤ c ≤ 55.
Lemma oct_digits k : ∀ v, Forall is_octal (oct k v).
Proof.
  induction k as [|k IH]; intros v; constructor; [|apply IH]. pose proof (Z.mod_pos_bound v 8 ltac:(lia)). unfold is_octal. lia.
Qed.

Definition oct_value (l : list Z) (x : Z) : Z := fold_left (λ v c, c - 48 + v * 8) l x.
Lemma oct_value_oct k v : 0 ≤ v < 8 ^ Z.of_nat k → oct_value (reverse (oct k v)) 0 = v.
Proof.
  revert v. induction k as [|k IH]; intros v Hv; cbn [oct]; [simpl in Hv; cbn; lia|].
  rewrite Nat2Z.inj_succ, Z.pow_succ_r in Hv by lia. rewrite reverse_cons. unfold oct_value in *. rewrite fold_left_app, IH.
  - cbn [fold_left]. pose proof (Z.div_mod v 8 ltac:(lia)). lia.
  - split; [apply Z.div_pos; lia|apply Z.div_lt_upper_bound; lia].
Qed.
Lemma oct_value_ge l : ∀ x, Forall is_octal l → 0 ≤ x → x ≤ oct_value l x.
Proof.
  induction l as [|c l IH]; intros x Hl Hx; cbn; [lia|]. apply Forall_cons in Hl as [Hc Hl]. unfold is_octal in Hc.
  specialize (IH (c - 48 + x * 8) Hl ltac:(lia)). unfold oct_value in IH. lia.
Qed.

Lemma octal_loop_spec l rest : ∀ i x, Forall is_octal l → 0 ≤ x → oct_value l x < 2 ^ 32 → 0 < i + Zlength l → 0 ≤ i →
  octal_loop (l ++ 0 :: rest) i x = Some (oct_value l x).
Proof.
  induction l as [|c l IH]; intros i x Hl Hx Hv Hi Hi'; cbn [app octal_loop].
  - simpl in Hi. change ((code "0" <=? 0) && (0 <=? code "7")) with false. change ((0 =? code " ") || (0 =? 0)) with true. cbv iota.
    by rewrite (proj2 (Z.ltb_lt 0 i)) by lia.
  - apply Forall_cons in Hl as [Hc Hl]. unfold is_octal in Hc. change (code "0") with 48. change (code "7") with 55.
    rewrite (proj2 (Z.leb_le 48 c)), (proj2 (Z.leb_le c 55)) by lia. cbn [andb].
    change (oct_value (c :: l) x) with (oct_value l (c - 48 + x * 8)) in *. pose proof (oct_value_ge l (c - 48 + x * 8) Hl ltac:(lia)).
    change ((2 ^ 32 - 1) / 8) with 536870911. rewrite (proj2 (Z.ltb_ge 536870911 x)), u32_small by lia. apply IH; try done; lia.
Qed.

Lemma parse_octal_spec f h k v :
  get f h = reverse (oct (S k) v) ++ [0] → 0 ≤ v < 8 ^ Z.of_nat (S k) → v < 2 ^ 32 → parse_octal_field f h = Some v.
Proof.
  intros E Hv Hv'. unfold parse_octal_field. rewrite E, octal_loop_spec; rewrite ?oct_value_oct by done; try done; try lia.
  - apply Forall_reverse, oct_digits.
  - rewrite length_reverse, length_oct. lia.
Qed.

(** ** The checksum *)

Lemma chksum_loop_ext l : ∀ l' i sum, length l' = length l →
  (∀ j, ¬ (ofs chksum ≤ i + Z.of_nat j < ofs chksum + size chksum) → l' !! j = l !! j) → chksum_loop l' i sum = chksum_loop l i sum.
Proof.
  induction l as [|c l IH]; intros [|c' l'] i sum Hl He; try done. cbn [chksum_loop]. injection Hl as Hl.
  assert ((if (ofs chksum <=? i) && (i <? ofs chksum + size chksum) then code " " else c')
    = (if (ofs chksum <=? i) && (i <? ofs chksum + size chksum) then code " " else c)) as ->.
  { destruct (Z.leb_spec (ofs chksum) i), (Z.ltb_spec i (ofs chksum + size chksum)); try done; simpl;
      by (injection (He O ltac:(lia)) as ->). }
  apply IH; [done|]. intros j Hj. apply (He (S j)). lia.
Qed.
Lemma chksum_loop_range l : ∀ i sum, Forall (λ c, 0 ≤ c < 2 ^ 8) l → 0 ≤ sum → sum + 255 * Zlength l < 2 ^ 32 →
  0 ≤ chksum_loop l i sum ≤ sum + 255 * Zlength l.
Proof.
  induction l as [|c l IH]; intros i sum Hl Hs Hb; cbn [chksum_loop]; [simpl; lia|]. apply Forall_cons in Hl as [Hc Hl].
  set (x := if _ && _ then _ else _). assert (0 ≤ x < 256) by (unfold x; destruct (_ && _); [by compute|lia]).
  assert (Zlength (c :: l) = 1 + Zlength l) as E by (simpl; lia). rewrite E in *. rewrite u32_small by lia.
  specialize (IH (i + 1) (sum + x) Hl ltac:(lia) ltac:(lia)). lia.
Qed.
Lemma calculate_chksum_field xs h : Zlength h = 512 → Zlength xs = 8 → calculate_chksum (splice (ofs chksum) xs h) = calculate_chksum h.
Proof.
  intros Hh Hx. apply chksum_loop_ext; [apply length_splice; simpl; lia|]. intros j Hj. rewrite lookup_splice by (simpl; lia).
  rewrite decide_False; [done|]. rewrite Hx. simpl in *. lia.
Qed.

(** ** Headers as lists of fields *)

Definition put_all (ps : list (field * list Z)) (h : list Z) : list Z := fold_left (λ h p, splice (ofs p.1) p.2 h) ps h.

(** A field of the header with bytes that fit into it. *)
Definition fits (p : field * list Z) : Prop :=
  0 ≤ ofs p.1 ∧ ofs p.1 + size p.1 ≤ 512 ∧ Zlength p.2 ≤ size p.1 ∧ Forall (λ c, 0 ≤ c < 2 ^ 8) p.2.
Definition apart (f g : field) : Prop := ofs f + size f ≤ ofs g ∨ ofs g + size g ≤ ofs f.

Lemma put_all_ok ps : ∀ h, Zlength h = 512 → Forall (λ c, 0 ≤ c < 2 ^ 8) h → Forall fits ps →
  Zlength (put_all ps h) = 512 ∧ Forall (λ c, 0 ≤ c < 2 ^ 8) (put_all ps h).
Proof.
  induction ps as [|[f xs] ps IH]; intros h Hh Hb Hps; [done|]. apply Forall_cons in Hps as [(H1 & H2 & H3 & H4) Hps]. simpl in *.
  apply IH; [rewrite length_splice; lia| |done].
  unfold splice. rewrite !Forall_app. split_and!; [by apply Forall_take|done|by apply Forall_drop].
Qed.
Lemma get_put_other g ps : ∀ h, 0 ≤ ofs g → Zlength h = 512 → Forall fits ps → Forall (λ p, apart g p.1) ps → get g (put_all ps h) = get g h.
Proof.
  induction ps as [|[f xs] ps IH]; intros h Hg Hh Hps Hap; [done|]. apply Forall_cons in Hps as [(H1 & H2 & H3 & H4) Hps].
  apply Forall_cons in Hap as [Ha Hap]. unfold apart in Ha. simpl in *. unfold put_all in *. cbn [fold_left fst snd].
  rewrite IH; [|done|rewrite length_splice; lia|done|done]. unfold get. apply slice_splice_other; lia.
Qed.
Lemma get_put_same g xs ps1 ps2 h :
  Zlength h = 512 → Forall fits (ps1 ++ (g, xs) :: ps2) → Forall (λ p, apart g p.1) ps2 → Zlength xs = size g →
  get g (put_all (ps1 ++ (g, xs) :: ps2) h) = xs.
Proof.
  intros Hh Hps Hap Hx. apply Forall_app in Hps as [Hps1 [Hf Hps2]%Forall_cons]. destruct Hf as (H1 & H2 & _ & _). simpl in *.
  unfold put_all. rewrite fold_left_app. cbn [fold_left fst snd]. fold (put_all ps1 h).
  assert (Hl : Zlength (put_all ps1 h) = 512).
  { clear -Hh Hps1. revert h Hh. induction Hps1 as [|[f ys] ps (H1 & H2 & H3 & _) _ IH]; intros h Hh; [done|]. simpl in *.
    apply IH. rewrite length_splice; lia. }
  fold (put_all ps2 (splice (ofs g) xs (put_all ps1 h))).
  rewrite get_put_other; [|done|rewrite length_splice; lia|done|done]. unfold get. rewrite <- Hx. apply slice_splice_same; lia.
Qed.

(** The fields that [ustar_make_header] fills before the checksum. *)
Definition fields (s : list Z) (type sz time : Z) : list (field * list Z) :=
  [(name, s ++ replicate (100 - length s) 0); (mode, reverse (oct 7 (if type =? USTAR_REGULAR then 420 else 493)) ++ [0]);
   (uid, chars "0000000" ++ [0]); (gid, chars "0000000" ++ [0]); (size_, reverse (oct 11 (u32 sz)) ++ [0]);
   (mtime, reverse (oct 11 time) ++ [0]); (typeflag, [type]); (magic, chars "ustar" ++ [0]); (version, [48; 48]);
   (gname, chars "root" ++ [0]); (uname, chars "root" ++ [0])].

Lemma zero_header_ok : Zlength zero_header = 512 ∧ Forall (λ c, 0 ≤ c < 2 ^ 8) zero_header ∧ ∀ j, (j < 512)%nat → zero_header !! j = Some 0.
Proof. split; [done|]. split; [by apply Forall_replicate|]. intros j Hj. by apply lookup_replicate_2. Qed.
Opaque zero_header.

Section header.
Context (s : list Z) (type sz time : Z).
Context (Hs : Forall (λ c, 0 < c < 2 ^ 8) s) (Hlen : Zlength s ≤ 99) (Hty : type = USTAR_REGULAR ∨ type = USTAR_DIRECTORY).
Let h0 := put_all (fields s type sz time) zero_header.

Lemma octal_bytes k v : Forall (λ c, 0 ≤ c < 2 ^ 8) (reverse (oct k v) ++ [0]).
Proof.
  apply Forall_app. split; [|by repeat constructor]. apply Forall_reverse. eapply Forall_impl; [apply oct_digits|]. unfold is_octal. intros; simpl in *; lia.
Qed.

Lemma octal_fits f k v : 0 ≤ ofs f → ofs f + size f ≤ 512 → Z.of_nat k + 1 ≤ size f → fits (f, reverse (oct k v) ++ [0]).
Proof.
  intros H1 H2 H3. split_and!; cbn [fst snd]; try done; [rewrite length_app, length_reverse, length_oct; simpl; lia|apply octal_bytes].
Qed.

Lemma fields_fit : Forall fits (fields s type sz time).
Proof.
  assert (Hname : fits (name, s ++ replicate (100 - length s) 0)).
  { split_and!; simpl; try lia; [rewrite length_app, length_replicate; lia|]. apply Forall_app. split; [|by apply Forall_replicate].
    eapply Forall_impl; [exact Hs|]. intros; simpl in *; lia. }
  assert (Hlit : ∀ f l, 0 ≤ ofs f → ofs f + size f ≤ 512 → Zlength l ≤ size f → forallb (λ c, (0 <=? c) && (c <? 256)) l = true → fits (f, l)).
  { intros f l H1 H2 H3 H4. split_and!; try done. simpl. apply Forall_forall. intros c Hc%list_elem_of_In. rewrite forallb_forall in H4.
    specialize (H4 c Hc). zbool. lia. }
  unfold fields. repeat (apply Forall_cons; split); try apply Forall_nil; try (apply octal_fits; simpl; lia); try (apply Hlit; done); try exact Hname; try exact I.
  by destruct Hty as [-> | ->]; apply Hlit.
Qed.

Lemma header_ok : Zlength h0 = 512 ∧ Forall (λ c, 0 ≤ c < 2 ^ 8) h0.
Proof. apply put_all_ok; [apply zero_header_ok..|apply fields_fit]. Qed.

Lemma strlcpy_name : strlcpy_field name s zero_header = splice (ofs name) (s ++ replicate (100 - length s) 0) zero_header.
Proof.
  destruct zero_header_ok as (Hz & _ & Hl). set (zs := replicate (100 - length s) 0).
  assert (Hzs : length zs = (100 - length s)%nat) by apply length_replicate.
  assert (Hlz : ∀ j, (j < 100 - length s)%nat → zs !! j = Some 0) by (intros j Hj; by apply lookup_replicate_2). clearbody zs.
  unfold strlcpy_field. cbn [ofs size name]. rewrite take_ge by lia. apply list_eq. intros j.
  rewrite !lookup_splice by (rewrite ?length_app; simpl; lia). rewrite !length_app, Hzs. cbn [length].
  destruct (decide (0 ≤ Z.of_nat j < 0 + Z.of_nat (length s + (100 - length s)))) as [H1|H1]; [|by rewrite decide_False by lia].
  destruct (decide (Z.of_nat j < Zlength s)) as [H2|H2].
  - rewrite decide_True by lia. by rewrite !lookup_app_l by lia.
  - rewrite (lookup_app_r s zs) by lia. rewrite Hlz by lia. destruct (decide _) as [H3|H3]; [|by apply Hl; lia].
    rewrite lookup_app_r by lia. by replace (_ - _)%nat with O by lia.
Qed.

(** What [ustar_make_header] leaves in the buffer. *)
Definition made : list Z := put_all (fields s type sz time ++ [(chksum, reverse (oct 7 (calculate_chksum h0)) ++ [0])]) zero_header.

Lemma put_step h ps f format v k :
  h = put_all ps zero_header → Forall fits ps → fits (f, reverse (oct k v) ++ [0]) → size f = Z.of_nat k + 1 →
  (∀ m, text O m (chars format) [v] = Ok (reverse (oct k v))) →
  snprintf_field f format v h = Ok (put_all (ps ++ [(f, reverse (oct k v) ++ [0])]) zero_header).
Proof.
  intros -> Hps (H1 & H2 & _ & _) Hk Ht. cbn [fst snd] in *. rewrite (snprintf_field_spec f format v _ (reverse (oct k v))); try done; try lia.
  - unfold put_all. by rewrite fold_left_app.
  - apply put_all_ok; [apply zero_header_ok..|done].
  - rewrite length_reverse, length_oct. lia.
Qed.

Lemma splice_put f xs ps h : splice (ofs f) xs (put_all ps h) = put_all (ps ++ [(f, xs)]) h.
Proof. unfold put_all. by rewrite fold_left_app. Qed.
Lemma strlcpy_put f l ps h : Zlength l ≤ size f - 1 → strlcpy_field f l (put_all ps h) = put_all (ps ++ [(f, l ++ [0])]) h.
Proof. intros Hl. unfold strlcpy_field. by rewrite take_ge, splice_put by lia. Qed.

Lemma make_header_eq console file_name junk :
  time = 1136102400 → strip_antisocial_prefixes file_name = Ok s → ustar_make_header console file_name type sz junk = Ok (true, made, console).
Proof.
  intros Et Es. unfold ustar_make_header. rewrite <- Et, Es. cbn [mbind res_bind]. rewrite (proj2 (Z.ltb_ge 99 (Zlength s))) by lia.
  assert ((type =? USTAR_REGULAR) || (type =? USTAR_DIRECTORY) = true) as -> by (by destruct Hty as [-> | ->]).
  pose proof fields_fit as Hfit. pose proof (proj1 (Forall_lookup _ _) Hfit) as Hlk. rewrite strlcpy_name.
  change zero_header with (put_all [] zero_header) at 1. rewrite splice_put.
  erewrite (put_step _ _ mode "%07o" _ 7);
    [|reflexivity|exact (Forall_take _ 1 _ Hfit)|exact (Hlk 1%nat _ eq_refl)|done|intros m; apply text_octal7; destruct (type =? USTAR_REGULAR); lia].
  rewrite bind_ret. rewrite !strlcpy_put by done.
  erewrite (put_step _ _ size_ "%011o" (u32 sz) 11);
    [|reflexivity|exact (Forall_take _ 4 _ Hfit)|exact (Hlk 4%nat _ eq_refl)|done|intros m; apply text_octal11, u32_range].
  rewrite bind_ret.
  erewrite (put_step _ _ mtime "%011o" time 11);
    [|reflexivity|exact (Forall_take _ 5 _ Hfit)|exact (Hlk 5%nat _ eq_refl)|done|intros m; apply text_octal11; lia].
  rewrite bind_ret. rewrite splice_put, strlcpy_put, splice_put, !strlcpy_put by done.
  change [code "0"; code "0"] with [48; 48]. change (put_all _ zero_header) with h0.
  destruct header_ok as [Hl Hb]. pose proof (chksum_loop_range h0 0 0 Hb) as Hc. rewrite Hl in Hc. fold (calculate_chksum h0) in Hc.
  rewrite (put_step h0 (fields s type sz time) chksum "%07o" (calculate_chksum h0) 7); [rewrite bind_ret; reflexivity|reflexivity|done|by apply octal_fits|done|intros m; apply text_octal7; lia].
Qed.

Lemma made_fit : Forall fits (fields s type sz time ++ [(chksum, reverse (oct 7 (calculate_chksum h0)) ++ [0])]).
Proof.
  apply Forall_app. split; [apply fields_fit|]. by apply Forall_singleton, octal_fits.
Qed.
(** Field number [i] of the header that has been made. *)
Lemma made_get i f xs :
  fields s type sz time !! i = Some (f, xs) → Zlength xs = size f →
  Forall (λ p, apart f p.1) (drop (S i) (fields s type sz time) ++ [(chksum, @nil Z)]) → get f made = xs.
Proof.
  intros Hi Hx Hap. unfold made. pose proof made_fit as Hfit. rewrite <- (take_drop_middle _ _ _ Hi) in Hfit at 1 |- *.
  rewrite <- app_assoc in Hfit |- *. cbn [app] in *. apply get_put_same; [apply zero_header_ok|exact Hfit| |done].
  apply Forall_app in Hap as [Hap1 Hap2]. apply Forall_app. split; [done|]. apply Forall_cons in Hap2 as [Hap2 _]. constructor; [exact Hap2|constructor].
Qed.

Lemma cstr_app l k : Forall (λ c, 0 < c < 2 ^ 8) l → cstr (l ++ 0 :: k) = l.
Proof.
  induction l as [|c l IH]; intros Hl; cbn [app cstr]; [done|]. apply Forall_cons in Hl as [Hc Hl].
  rewrite (proj2 (Z.eqb_neq c 0)) by lia. by rewrite IH.
Qed.

Local Ltac aparts := repeat (apply List.Forall_cons; [unfold apart; cbn [fst ofs size name mode uid gid size_ mtime chksum typeflag magic version uname gname prefix]; lia|]); apply List.Forall_nil.

Lemma made_parse : social s → - 2 ^ 31 ≤ sz < 2 ^ 31 →
  ustar_parse_header made =
    Ok (if (type =? USTAR_REGULAR) && (sz <? 0) then Bad "file too large"
        else Parsed (Some s) type (if type =? USTAR_REGULAR then sz else 0)).
Proof.
  intros Hsoc Hsz. destruct header_ok as [Hl Hb].
  assert (Emagic : get magic made = chars "ustar" ++ [0]).
  { apply (made_get 7); [done|done|]. aparts. }
  assert (Ever : get version made = [48; 48]) by (apply (made_get 8); [done|done|]; aparts).
  assert (Ename : get name made = s ++ replicate (100 - length s) 0).
  { apply (made_get 0); [done| |]; [rewrite length_app, length_replicate; simpl; lia|]. aparts. }
  assert (Etype : get typeflag made = [type]) by (apply (made_get 6); [done|done|]; aparts).
  assert (Esize : get size_ made = reverse (oct 11 (u32 sz)) ++ [0]).
  { apply (made_get 4); [done|by rewrite length_app, length_reverse, length_oct|]. aparts. }
  assert (Echk : get chksum made = reverse (oct 7 (calculate_chksum h0)) ++ [0]).
  { apply (get_put_same chksum _ (fields s type sz time) []); [apply zero_header_ok|exact made_fit|constructor|].
    by rewrite length_app, length_reverse, length_oct. }
  assert (Esum : calculate_chksum made = calculate_chksum h0).
  { unfold made. rewrite <- splice_put. fold h0. apply calculate_chksum_field; [done|by rewrite length_app, length_reverse, length_oct]. }
  pose proof (chksum_loop_range h0 0 0 Hb) as Hc. rewrite Hl in Hc. change (chksum_loop h0 0 0) with (calculate_chksum h0) in Hc.
  assert (Epre : byte_at prefix 0 made = 0).
  { unfold byte_at, made. rewrite get_put_other; [|done|apply zero_header_ok|exact made_fit|].
    - unfold get. rewrite lookup_slice by done. cbn [ofs size prefix]. rewrite decide_True by done. by rewrite (proj2 (proj2 zero_header_ok)) by lia.
    - unfold fields. cbn [app]. aparts. }
  assert (Enul : byte_at name 99 made = 0).
  { unfold byte_at. rewrite Ename, lookup_app_r, lookup_replicate_2 by lia. done. }
  assert (Ezero : is_all_zeros made = false).
  { apply not_true_is_false. intros Hz. unfold is_all_zeros in Hz. rewrite forallb_forall in Hz.
    assert (get magic made !! 0%nat = Some 117) as H117 by (by rewrite Emagic). unfold get in H117. rewrite lookup_slice, decide_True in H117 by done.
    apply list_elem_of_lookup_2, list_elem_of_In, Hz in H117. done. }
  unfold ustar_parse_header. rewrite Ezero, Emagic, bool_decide_eq_true_2 by done. cbn [negb].
  unfold byte_at at 1 2. rewrite Ever. change (negb (default 0 ([48; 48] !! 0%nat) =? code "0") || negb (default 0 ([48; 48] !! 1%nat) =? code "0")) with false.
  cbv iota. rewrite (parse_octal_spec chksum made 6 (calculate_chksum h0)) by (done || simpl; lia). rewrite Esum, Z.eqb_refl. cbn [negb].
  rewrite Enul, Epre. cbn [negb orb Z.eqb]. unfold byte_at at 1. rewrite Etype. cbn [lookup list_lookup default from_option id].
  unfold byte_at. rewrite Etype. cbn [lookup list_lookup default from_option id].
  assert (negb (type =? USTAR_REGULAR) && negb (type =? USTAR_DIRECTORY) = false) as -> by (by destruct Hty as [E|E]; rewrite E).
  assert (Ecstr : cstr (get name made) = s).
  { rewrite Ename. destruct (100 - length s)%nat as [|k] eqn:Ek; [lia|]. cbn [replicate]. by apply cstr_app. }
  rewrite Ecstr, (strip_social s Hsoc). cbn [mbind res_bind]. destruct (type =? USTAR_REGULAR); [|done].
  rewrite (parse_octal_spec size_ made 10 (u32 sz)); [|done|pose proof (u32_range sz); simpl; lia|apply u32_range]. cbn [andb].
  destruct (Z.ltb_spec sz 0) as [Hneg|Hpos].
  - rewrite (u32_wrap 1) by lia. by rewrite (proj2 (Z.ltb_lt _ _)) by lia.
  - rewrite u32_small by lia. rewrite (proj2 (Z.ltb_ge _ _)) by lia. by rewrite s32_small by lia.
Qed.

End header.

(** C27: [ustar_make_header] and [ustar_parse_header] are inverse to each other.  The name that
    is stored is harmless: it does not start with a slash, "./" or "../", and is not "..".
    A header for a name of at most 99 characters parses again to that name, the type and
    the size, or as too large if the size was negative; longer names are reported and nothing is stored. *)
Theorem ustar_roundtrip console file_name type sz junk :
  Forall (λ c, 0 < c < 2 ^ 8) file_name → Zlength file_name < 2 ^ 30 → type = USTAR_REGULAR ∨ type = USTAR_DIRECTORY → - 2 ^ 31 ≤ sz < 2 ^ 31 →
  ∃ s, strip_antisocial_prefixes file_name = Ok s ∧ social s ∧
    if decide (Zlength s ≤ 99) then
      ∃ h, ustar_make_header console file_name type sz junk = Ok (true, h, console) ∧ Zlength h = USTAR_HEADER_SIZE ∧
        ustar_parse_header h =
          Ok (if (type =? USTAR_REGULAR) && (sz <? 0) then Bad "file too large"
              else Parsed (Some s) type (if type =? USTAR_REGULAR then sz else 0))
    else ustar_make_header console file_name type sz junk = Ok (false, junk, console ++ s ++ chars ": file name too long" ++ [10]).
Proof.
  intros Hf Hl Hty Hsz. destruct (strip_spec file_name) as (s & Es & Hsoc & Hsl & Hs). exists s. split; [done|]. split; [done|].
  destruct (decide (Zlength s ≤ 99)) as [H99|H99].
  - exists (made s type sz 1136102400). split; [by apply make_header_eq; auto|]. split; [|by apply made_parse; auto].
    apply put_all_ok; [apply zero_header_ok..|by apply made_fit; auto].
  - unfold ustar_make_header. assert ((type =? USTAR_REGULAR) || (type =? USTAR_DIRECTORY) = true) as -> by (by destruct Hty as [-> | ->]).
    rewrite Es. cbn [mbind res_bind]. rewrite (proj2 (Z.ltb_lt 99 (Zlength s))) by lia.
    erewrite printf_text; [reflexivity|]. apply (text_s _ _ 1 s (chars ": file name too long" ++ [10])); [apply place_at|auto|lia|lia| |simpl; lia].
    by repeat constructor.
Qed.

Lemma ustar_roundtrip_witness :
  ∃ h, ustar_make_header [] (chars "../../etc/passwd") USTAR_REGULAR 1234 [] = Ok (true, h, []) ∧
    ustar_parse_header h = Ok (Parsed (Some (chars "etc/passwd")) USTAR_REGULAR 1234).
Proof.
  destruct (ustar_roundtrip [] (chars "../../etc/passwd") USTAR_REGULAR 1234 []) as (s & Es & _ & H).
  - by repeat constructor.
  - simpl. lia.
  - by left.
  - lia.
  - vm_compute in Es. injection Es as <-. destruct H as (h & E1 & _ & E2). exists h. split; [exact E1|exact E2].
Defined.

End Ustar.
