(* ===== verification/Rtc.v ===== *)
(** * The real-time clock, [devices/rtc.c] *)

From S2P Require Import Prelude.

Module Rtc.

Definition RTC_REG_SEC : Z := 0.
Definition RTC_REG_MIN : Z := 2.
Definition RTC_REG_HOUR : Z := 4.
Definition RTC_REG_MDAY : Z := 7.
Definition RTC_REG_MON : Z := 8.
Definition RTC_REG_YEAR : Z := 9.

Definition bcd_to_bin (x : Z) : Z := Z.land x 0x0f + Z.shiftr x 4 * 10.

(** The chip: the byte that register [index] holds when it is read for the [n]-th time. *)
Section chip.
Context (inb : nat → Z → Z).

Definition cmos_read (n : nat) (index : Z) : Z := u8 (inb n index).

(** Second, minute, hour, day, month and year, read until the second does not change. *)
Fixpoint read_clock (fuel n : nat) : res (Z * Z * Z * Z * Z * Z) :=
  match fuel with
  | O => Fuel
  | S fuel =>
      let sec := bcd_to_bin (cmos_read n RTC_REG_SEC) in
      let min := bcd_to_bin (cmos_read (n + 1) RTC_REG_MIN) in
      let hour := bcd_to_bin (cmos_read (n + 2) RTC_REG_HOUR) in
      let mday := bcd_to_bin (cmos_read (n + 3) RTC_REG_MDAY) in
      let mon := bcd_to_bin (cmos_read (n + 4) RTC_REG_MON) in
      let year := bcd_to_bin (cmos_read (n + 5) RTC_REG_YEAR) in
      if negb (sec =? bcd_to_bin (cmos_read (n + 6) RTC_REG_SEC)) then read_clock fuel (n + 7)
      else Ok (sec, min, hour, mday, mon, year)
  end.

Definition days_per_month : list Z := [31; 28; 31; 30; 31; 30; 31; 31; 30; 31; 30; 31].

(** [for (i = 1; i <= mon; i++)]; reading behind the table is a fault. *)
Fixpoint month_loop (n : nat) (i time : Z) : res Z :=
  match n with
  | O => Ok time
  | S n => d ← from_opt (days_per_month !! Z.to_nat (i - 1)); month_loop n (i + 1) (u32 (time + d * 24 * 60 * 60))
  end.

Definition rtc_get_time (fuel : nat) : res Z :=
  '(sec, min, hour, mday, mon, year) ← read_clock fuel 0;
  let year := if year <? 70 then year + 100 else year in
  let year := year - 70 in
  let time := u32 (s32 ((year * 365 + Z.quot (year - 1) 4) * 24 * 60 * 60)) in
  time ← month_loop (Z.to_nat mon) 1 time;
  let time := if (2 <? mon) && (Z.rem year 4 =? 0) then u32 (time + 24 * 60 * 60) else time in
  let time := u32 (time + (mday - 1) * 24 * 60 * 60) in
  let time := u32 (time + hour * 60 * 60) in
  let time := u32 (time + min * 60) in
  Ok (u32 (time + sec)).
End chip.

(** ** The calendar *)

Definition leap_year (y : Z) : bool := (y mod 4 =? 0) && (negb (y mod 100 =? 0) || (y mod 400 =? 0)).
Definition month_length (y m : Z) : Z := nth (Z.to_nat (m - 1)) days_per_month 0 + (if (m =? 2) && leap_year y then 1 else 0).
Definition sum (f : Z → Z) (l : list Z) : Z := foldr Z.add 0 (f <$> l).

(** Days from the beginning of 1970 to the first of month [m] of year [y]. *)
Definition days_before (y m : Z) : Z :=
  sum (λ y, if leap_year y then 366 else 365) (seqZ 1970 (y - 1970)) + sum (month_length y) (seqZ 1 (m - 1)).

Record date := Date { year : Z; month : Z; day : Z; hour : Z; minute : Z; second : Z }.
Definition unix_time (d : date) : Z :=
  (days_before (year d) (month d) + (day d - 1)) * 86400 + hour d * 3600 + minute d * 60 + second d.

Definition valid (d : date) : Prop :=
  1970 ≤ year d ≤ 2037 ∧ 1 ≤ month d ≤ 12 ∧ 1 ≤ day d ≤ month_length (year d) (month d)
  ∧ 0 ≤ hour d < 24 ∧ 0 ≤ minute d < 60 ∧ 0 ≤ second d < 60.

(** Two decimal digits. *)
Definition bcd (x : Z) : Z := x / 10 * 16 + x mod 10.
(** The registers show the date from the [n]-th reading on. *)
Definition shows (inb : nat → Z → Z) (n : nat) (d : date) : Prop := ∀ k, (n ≤ k)%nat →
  inb k RTC_REG_SEC = bcd (second d) ∧ inb k RTC_REG_MIN = bcd (minute d) ∧ inb k RTC_REG_HOUR = bcd (hour d)
  ∧ inb k RTC_REG_MDAY = bcd (day d) ∧ inb k RTC_REG_MON = bcd (month d) ∧ inb k RTC_REG_YEAR = bcd (year d mod 100).

Lemma bcd_spec x : 0 ≤ x < 100 → bcd_to_bin (u8 (bcd x)) = x.
Proof.
  intros Hx. assert (E : forallb (λ x, bcd_to_bin (u8 (bcd x)) =? x) (seqZ 0 100) = true) by (vm_compute; reflexivity).
  rewrite forallb_forall in E. apply Z.eqb_eq, E, list_elem_of_In, elem_of_seqZ. lia.
Qed.

(** The days of the months [i], ..., [i + n - 1], without leap years. *)
Definition month_sum (n : nat) (i : Z) : Z := sum (λ m, nth (Z.to_nat (m - 1)) days_per_month 0) (seqZ i (Z.of_nat n)).
Lemma month_loop_spec n : ∀ i t, 1 ≤ i → i + Z.of_nat n ≤ 13 → month_loop n i (u32 t) = Ok (u32 (t + month_sum n i * 86400)).
Proof.
  induction n as [|n IH]; intros i t Hi Hn; cbn [month_loop].
  - change (month_sum 0 i) with 0. do 2 f_equal. lia.
  - destruct (lookup_lt_is_Some_2 days_per_month (Z.to_nat (i - 1))) as [d Hd]; [change (length days_per_month) with 12%nat; lia|]. rewrite Hd. cbn [from_opt mbind res_bind].
    rewrite u32_add, IH by lia. unfold month_sum, sum. rewrite (seqZ_cons i) by lia. replace (Z.pred (Z.of_nat (S n))) with (Z.of_nat n) by lia.
    cbn [fmap list_fmap foldr]. rewrite (nth_lookup_Some _ _ 0 d Hd). do 2 f_equal. rewrite <- Z.add_1_r. lia.
Qed.

(** The days that [rtc_get_time] counts up to the first of a month, and those that there are. *)
Definition counted (y m : Z) : Z :=
  (y * 365 + Z.quot (y - 1) 4) + month_sum (Z.to_nat m) 1 + (if (2 <? m) && (Z.rem y 4 =? 0) then 1 else 0).
Lemma counted_off y m : 1970 ≤ y ≤ 2037 → 1 ≤ m ≤ 12 →
  27 ≤ counted (y - 1970) m - days_before y m ≤ 32 ∧ 0 ≤ days_before y m ≤ 24806.
Proof.
  intros Hy Hm. assert (E : forallb (λ y, forallb (λ m, (27 <=? counted (y - 1970) m - days_before y m) && (counted (y - 1970) m - days_before y m <=? 32)
    && (0 <=? days_before y m) && (days_before y m <=? 24806))
    (seqZ 1 12)) (seqZ 1970 68) = true) by (vm_compute; reflexivity).
  rewrite forallb_forall in E. specialize (E y). rewrite forallb_forall in E.
  assert (Hi : (27 <=? counted (y - 1970) m - days_before y m) && (counted (y - 1970) m - days_before y m <=? 32) && (0 <=? days_before y m)
    && (days_before y m <=? 24806) = true) by (apply E; apply list_elem_of_In, elem_of_seqZ; lia). zbool. lia.
Qed.

(** [rtc_get_time] does not return the time that its comment promises, for any date from 1970 to
    2037: it counts all days of the current month, and leap years in the wrong places, so
    that it is 27 to 32 days ahead. *)
Theorem rtc_get_time_ahead inb d fuel :
  valid d → shows inb 0 d → ∃ e, 27 ≤ e ≤ 32 ∧ rtc_get_time inb (S fuel) = Ok (unix_time d + e * 86400).
Proof.
  intros (Hy & Hm & Hd & Hh & Hmi & Hs) Hsh. destruct (counted_off (year d) (month d) Hy Hm) as [He Hb].
  exists (counted (year d - 1970) (month d) - days_before (year d) (month d)). split; [done|].
  assert (Hml : month_length (year d) (month d) ≤ 32).
  { unfold month_length. assert (nth (Z.to_nat (month d - 1)) days_per_month 0 ≤ 31); [|destruct (_ && _); lia].
    assert (Hf : Forall (λ x, x ≤ 31) days_per_month) by (repeat constructor; lia).
    destruct (nth_in_or_default (Z.to_nat (month d - 1)) days_per_month 0) as [Hin| ->]; [|lia].
    rewrite Forall_forall in Hf. by apply Hf, list_elem_of_In. }
  assert (Ec : read_clock inb (S fuel) 0 = Ok (second d, minute d, hour d, day d, month d, year d mod 100)).
  { cbn [read_clock]. unfold cmos_read. cbn [Nat.add].
    destruct (Hsh 0%nat ltac:(lia)) as (E1 & _), (Hsh 1%nat ltac:(lia)) as (_ & E2 & _), (Hsh 2%nat ltac:(lia)) as (_ & _ & E3 & _),
      (Hsh 3%nat ltac:(lia)) as (_ & _ & _ & E4 & _), (Hsh 4%nat ltac:(lia)) as (_ & _ & _ & _ & E5 & _),
      (Hsh 5%nat ltac:(lia)) as (_ & _ & _ & _ & _ & E6), (Hsh 6%nat ltac:(lia)) as (E7 & _).
    rewrite E1, E2, E3, E4, E5, E6, E7. pose proof (Z.mod_pos_bound (year d) 100 ltac:(lia)).
    rewrite !bcd_spec by lia. by rewrite Z.eqb_refl. }
  unfold rtc_get_time. rewrite Ec. cbn [mbind res_bind].
  assert (Ey : (if year d mod 100 <? 70 then year d mod 100 + 100 else year d mod 100) - 70 = year d - 1970).
  { pose proof (Z.div_mod (year d) 100 ltac:(lia)). pose proof (Z.mod_pos_bound (year d) 100 ltac:(lia)). destruct (Z.ltb_spec (year d mod 100) 70); lia. }
  rewrite Ey. set (y := year d - 1970). assert (Hq : 0 ≤ Z.quot (y - 1) 4 ≤ 17) by (unfold y; Z.to_euclidean_division_equations; lia).
  rewrite s32_small by (unfold y in *; lia).
  rewrite month_loop_spec by lia. cbn [mbind res_bind]. unfold counted, unix_time. fold y.
  set (q := Z.quot (y - 1) 4). set (ms := month_sum (Z.to_nat (month d)) 1). unfold counted in He. fold y q ms in He.
  revert He. destruct ((2 <? month d) && (Z.rem y 4 =? 0)); intros He; do 3 (rewrite <- ?Z.add_assoc, ?u32_add); rewrite u32_small by lia; f_equal; lia.
Qed.

Definition demo_date : date := Date 2024 2 29 23 59 58.
Lemma rtc_get_time_ahead_witness :
  unix_time demo_date = 1709251198 ∧ ∃ e, 27 ≤ e ≤ 32 ∧
    rtc_get_time (λ _ r, if r =? 0 then 0x58 else if r =? 2 then 0x59 else if r =? 4 then 0x23 else if r =? 7 then 0x29 else if r =? 8 then 2 else 0x24) 1
    = Ok (unix_time demo_date + e * 86400).
Proof.
  split; [vm_compute; reflexivity|]. apply rtc_get_time_ahead.
  - split_and!; vm_compute; congruence.
  - intros k _. vm_compute. split_and!; reflexivity.
Defined.

End Rtc.
