(* ===== verification/Intq.v ===== *)
(** * Interrupt queues, [devices/intq.c]

    A circular buffer of bytes that threads and interrupt handlers share.  The operations
    run with interrupts off; a thread that finds the queue empty blocks, first on the lock
    of the queue and then until a byte arrives. *)

From S2P Require Import Prelude.

Module Intq.

(** ** The queue *)

Definition INTQ_BUFSIZE : Z := 64.

(** [not_full] and [not_empty] are the threads that wait, or 0.  The lock is modelled with the
    threads, below. *)
Record intq := Queue { not_full : Z; not_empty : Z; buf : list Z; head : Z; tail : Z }.

Definition intq_init (junk : list Z) : intq := Queue 0 0 junk 0 0.
Definition next (pos : Z) : Z := Z.rem (pos + 1) INTQ_BUFSIZE.
Definition intq_empty (q : intq) : bool := head q =? tail q.
Definition intq_full (q : intq) : bool := next (head q) =? tail q.

(** [signal (q, &q->not_full)] and [signal (q, &q->not_empty)]: the thread that is to be
    unblocked, if not 0. *)
Definition signal_not_full (q : intq) : res (Z * intq) :=
  ASSERT negb (intq_full q);;
  Ok (not_full q, Queue 0 (not_empty q) (buf q) (head q) (tail q)).
Definition signal_not_empty (q : intq) : res (Z * intq) :=
  ASSERT negb (intq_empty q);;
  Ok (not_empty q, Queue (not_full q) 0 (buf q) (head q) (tail q)).
(** [wait (q, &q->not_empty)] and [wait (q, &q->not_full)] up to the call of [thread_block]. *)
Definition wait_not_empty (q : intq) (t : Z) : res intq :=
  ASSERT intq_empty q;;
  Ok (Queue (not_full q) t (buf q) (head q) (tail q)).
Definition wait_not_full (q : intq) (t : Z) : res intq :=
  ASSERT intq_full q;;
  Ok (Queue t (not_empty q) (buf q) (head q) (tail q)).

(** [intq_getc] and [intq_putc] behind their loops, and in interrupt handlers, where the loop is an
    assertion. *)
Definition take_byte (q : intq) : res (Z * Z * intq) :=
  byte ← from_opt (buf q !! Z.to_nat (tail q));
  '(woken, q) ← signal_not_full (Queue (not_full q) (not_empty q) (buf q) (head q) (next (tail q)));
  Ok (byte, woken, q).
Definition add_byte (q : intq) (byte : Z) : res (Z * intq) :=
  ASSERT (0 <=? head q) && (head q <? Zlength (buf q));;
  signal_not_empty (Queue (not_full q) (not_empty q) (<[Z.to_nat (head q) := byte]> (buf q)) (next (head q)) (tail q)).
Definition intq_getc (q : intq) : res (Z * Z * intq) := ASSERT negb (intq_empty q);; take_byte q.
Definition intq_putc (q : intq) (byte : Z) : res (Z * intq) := ASSERT negb (intq_full q);; add_byte q byte.

(** ** Its contents *)

Record queue_ok (q : intq) : Prop := {
  qo_buf : Zlength (buf q) = INTQ_BUFSIZE;
  qo_head : 0 ≤ head q < INTQ_BUFSIZE;
  qo_tail : 0 ≤ tail q < INTQ_BUFSIZE
}.
Definition used (q : intq) : Z := (head q - tail q) mod INTQ_BUFSIZE.
Definition byte_at (q : intq) (i : Z) : Z := nth (Z.to_nat ((tail q + i) mod INTQ_BUFSIZE)) (buf q) 0.
(** The bytes, the oldest first. *)
Definition contents (q : intq) : list Z := byte_at q <$> seqZ 0 (used q).

Lemma next_mod p : 0 ≤ p < INTQ_BUFSIZE → next p = (p + 1) mod INTQ_BUFSIZE.
Proof. intros Hp. unfold next. apply Z.rem_mod_nonneg; unfold INTQ_BUFSIZE in *; lia. Qed.
Lemma next_range p : 0 ≤ p < INTQ_BUFSIZE → 0 ≤ next p < INTQ_BUFSIZE.
Proof. intros Hp. rewrite next_mod by done. by apply Z.mod_pos_bound. Qed.
Lemma length_contents q : queue_ok q → Zlength (contents q) = used q.
Proof. intros Hq. unfold contents. rewrite length_fmap, length_seqZ. pose proof (Z.mod_pos_bound (head q - tail q) INTQ_BUFSIZE ltac:(done)). unfold used in *. lia. Qed.

Lemma empty_spec q : queue_ok q → intq_empty q = bool_decide (contents q = []).
Proof.
  intros [_ Hh Ht]. unfold intq_empty, contents, used, INTQ_BUFSIZE in *. destruct (Z.eqb_spec (head q) (tail q)) as [->|Hne].
  - by rewrite Z.sub_diag.
  - rewrite bool_decide_eq_false_2; [done|]. intros E%(f_equal length). rewrite length_fmap, length_seqZ in E. simpl in E.
    Z.to_euclidean_division_equations; lia.
Qed.
Lemma full_spec q : queue_ok q → intq_full q = (Zlength (contents q) =? INTQ_BUFSIZE - 1).
Proof.
  intros Hq. rewrite length_contents by done. destruct Hq as [_ Hh Ht]. unfold intq_full, used. rewrite next_mod by done. unfold INTQ_BUFSIZE in *.
  apply eq_true_iff_eq. rewrite !Z.eqb_eq. split; intros; Z.to_euclidean_division_equations; lia.
Qed.

Lemma take_byte_spec q : queue_ok q → contents q ≠ [] →
  ∃ c l q', contents q = c :: l ∧ take_byte q = Ok (c, not_full q, q') ∧ queue_ok q' ∧ contents q' = l
    ∧ not_full q' = 0 ∧ not_empty q' = not_empty q.
Proof.
  intros Hq Hne. pose proof (length_contents q Hq) as Hl. pose proof Hq as [Hb Hh Ht].
  assert (Hu : 0 < used q < INTQ_BUFSIZE).
  { pose proof (Z.mod_pos_bound (head q - tail q) INTQ_BUFSIZE ltac:(done)). unfold used in *. destruct (contents q); [done|]. simpl in Hl. lia. }
  set (q' := Queue 0 (not_empty q) (buf q) (head q) (next (tail q))).
  assert (Hq' : queue_ok q') by (split; [done|done|by apply next_range]).
  assert (Eu : used q' = used q - 1).
  { unfold used, q'. cbn [head tail]. rewrite next_mod by done. unfold used, INTQ_BUFSIZE in *. Z.to_euclidean_division_equations; lia. }
  assert (Ec : contents q = byte_at q 0 :: contents q').
  { unfold contents. rewrite seqZ_cons, Eu by lia. cbn [fmap list_fmap]. apply (f_equal (cons _)).
    change (Z.succ 0) with (1 + 0). rewrite <- (fmap_add_seqZ 1 0). replace (Z.pred (used q)) with (used q - 1) by lia.
    rewrite <- list_fmap_compose. apply list_fmap_ext. intros i x Hx. unfold compose, byte_at, q'. cbn [tail buf]. rewrite next_mod by done.
    rewrite Zplus_mod_idemp_l. do 3 f_equal. lia. }
  exists (byte_at q 0), (contents q'), q'. split; [done|]. split; [|done]. unfold take_byte.
  assert (Hlk : buf q !! Z.to_nat (tail q) = Some (byte_at q 0)).
  { unfold byte_at. rewrite Z.add_0_r, Z.mod_small by done. destruct (lookup_lt_is_Some_2 (buf q) (Z.to_nat (tail q))) as [x Hx]; [lia|].
    by rewrite (nth_lookup_Some _ _ 0 x Hx). }
  rewrite Hlk. cbn [from_opt mbind res_bind]. unfold signal_not_full. fold q'.
  assert (intq_full (Queue (not_full q) (not_empty q) (buf q) (head q) (next (tail q))) = false) as ->; [|done].
  change (intq_full q' = false). rewrite full_spec, length_contents, Eu by done. unfold INTQ_BUFSIZE in *. apply Z.eqb_neq. lia.
Qed.

Lemma add_byte_spec q c : queue_ok q → Zlength (contents q) < INTQ_BUFSIZE - 1 →
  ∃ q', add_byte q c = Ok (not_empty q, q') ∧ queue_ok q' ∧ contents q' = contents q ++ [c]
    ∧ not_full q' = not_full q ∧ not_empty q' = 0.
Proof.
  intros Hq Hl. rewrite length_contents in Hl by done. pose proof Hq as [Hb Hh Ht].
  set (b' := <[Z.to_nat (head q) := c]> (buf q)). set (q' := Queue (not_full q) 0 b' (next (head q)) (tail q)).
  assert (Hq' : queue_ok q') by (split; [unfold q', b'; simpl; by rewrite length_insert|by apply next_range|done]).
  assert (Hu : 0 ≤ used q) by (by apply Z.mod_pos_bound).
  assert (Eu : used q' = used q + 1).
  { unfold used, q' in *. cbn [head tail]. rewrite next_mod by done. unfold INTQ_BUFSIZE in *. Z.to_euclidean_division_equations; lia. }
  assert (Ehd : (tail q + used q) mod INTQ_BUFSIZE = head q).
  { unfold used. rewrite Zplus_mod_idemp_r. replace (tail q + (head q - tail q)) with (head q) by lia. by apply Z.mod_small. }
  assert (Ec : contents q' = contents q ++ [c]).
  { unfold contents. rewrite Eu, seqZ_app, fmap_app by lia. f_equal.
    - apply list_fmap_ext. intros i x [-> Hi]%lookup_seqZ. unfold byte_at, q', b'. cbn [tail buf].
      rewrite !nth_lookup, list_lookup_insert_ne; [done|]. intros E. pose proof (Z.mod_pos_bound (tail q + (0 + Z.of_nat i)) INTQ_BUFSIZE ltac:(done)).
      assert (Em : (tail q + Z.of_nat i) mod INTQ_BUFSIZE = (tail q + used q) mod INTQ_BUFSIZE) by (rewrite Ehd; rewrite Z.add_0_l in *; lia).
      unfold INTQ_BUFSIZE in *. Z.to_euclidean_division_equations; lia.
    - assert (seqZ (0 + used q) 1 = [used q]) as -> by (rewrite seqZ_cons, seqZ_nil by lia; f_equal; lia).
      cbn [fmap list_fmap]. f_equal. unfold byte_at, q', b'. cbn [tail buf]. rewrite Ehd, nth_lookup, list_lookup_insert_eq by lia. done. }
  exists q'. split; [|done]. unfold add_byte. rewrite (proj2 (Z.leb_le 0 (head q))), (proj2 (Z.ltb_lt (head q) (Zlength (buf q)))) by lia. cbn [andb].
  unfold signal_not_empty. fold b'. assert (intq_empty (Queue (not_full q) (not_empty q) b' (next (head q)) (tail q)) = false) as ->; [|done].
  change (intq_empty q' = false). rewrite empty_spec, Ec by done. apply bool_decide_eq_false_2. by intros [_ ?]%app_eq_nil.
Qed.

(** ** Readers

    Several threads call [intq_getc] while interrupts add bytes.  Interrupts are off in
    [intq_getc], so a thread runs until it blocks, except that [lock_release] may let
    another thread run. *)

Inductive pc :=
  | Out       (* not in [intq_getc] *)
  | Test      (* about to test whether the queue is empty *)
  | Queued    (* blocked in [lock_acquire] *)
  | Acquire   (* unblocked there, about to try again *)
  | Asleep    (* blocked in [wait] *)
  | Woken.    (* unblocked there, about to release the lock *)
#[global] Instance pc_eq : EqDecision pc.
Proof. solve_decision. Defined.

(** [holder] is the thread that holds the lock, or 0; [sent] are the bytes that were added and
    [got] those that were removed, with the thread. *)
Record sys := Sys { queue : intq; holder : Z; readers : gmap Z pc; sent : list Z; got : list (Z * Z) }.

Definition goto (s : sys) (t : Z) (p : pc) : sys := Sys (queue s) (holder s) (<[t := p]> (readers s)) (sent s) (got s).
(** [lock_acquire (&q->lock); wait (q, &q->not_empty);] *)
Definition acquire (s : sys) (t : Z) : res sys :=
  if holder s =? 0 then
    q ← wait_not_empty (queue s) t;
    Ok (Sys q t (<[t := Asleep]> (readers s)) (sent s) (got s))
  else Ok (goto s t Queued).
(** The loop of [intq_getc], and what follows it. *)
Definition test (s : sys) (t : Z) : res sys :=
  if intq_empty (queue s) then acquire s t
  else
    '(byte, _, q) ← take_byte (queue s);
    Ok (Sys q (holder s) (<[t := Out]> (readers s)) (sent s) (got s ++ [(t, byte)])).

(** [Run t u]: thread [t] goes on; [u] is the thread that [lock_release] unblocks. *)
Inductive event := Call (t : Z) | Put (c : Z) | Run (t u : Z).
Definition step (s : sys) (e : event) : option (res sys) :=
  match e with
  | Call t => if decide (readers s !! t = Some Out) then Some (test s t) else None
  | Put c =>
      if intq_full (queue s) then None else
      Some ('(woken, q) ← intq_putc (queue s) c;
            let r := if woken =? 0 then readers s else <[woken := Woken]> (readers s) in
            Ok (Sys q (holder s) r (sent s ++ [c]) (got s)))
  | Run t u =>
      match readers s !! t with
      | Some Test => Some (test s t)
      | Some Acquire => Some (acquire s t)
      | Some Woken =>
          let s' := Sys (queue s) 0 (<[t := Test]> (readers s)) (sent s) (got s) in
          if decide (readers s !! u = Some Queued) then Some (Ok (goto s' u Acquire))
          else if decide (map_Exists (λ _ p, p = Queued) (readers s)) then None else Some (Ok s')
      | _ => None
      end
  end.

Fixpoint runs (s : sys) (l : list event) : option (res sys) :=
  match l with
  | [] => Some (Ok s)
  | e :: l => match step s e with Some (Ok s) => runs s l | r => r end
  end.

(** The queue and the threads [ts], none of which has called [intq_getc] yet. *)
Definition start (junk : list Z) (ts : gset Z) : sys := Sys (intq_init junk) 0 (gset_to_gmap Out ts) [] [].
Inductive reachable (junk : list Z) (ts : gset Z) : sys → Prop :=
  | reach_start : reachable junk ts (start junk ts)
  | reach_step s e s' : reachable junk ts s → step s e = Some (Ok s') → reachable junk ts s'.

Record sys_ok (ts : gset Z) (s : sys) : Prop := {
  so_queue : queue_ok (queue s);
  so_fifo : (snd <$> got s) ++ contents (queue s) = sent s;
  so_domain t p : readers s !! t = Some p → t ∈ ts;
  so_asleep t : readers s !! t = Some Asleep ↔ not_empty (queue s) = t ∧ t ≠ 0;
  so_waits : not_empty (queue s) ≠ 0 → contents (queue s) = [];
  so_holder t : readers s !! t = Some Asleep ∨ readers s !! t = Some Woken ↔ holder s = t ∧ t ≠ 0
}.

Lemma start_ok junk ts : Zlength junk = INTQ_BUFSIZE → sys_ok ts (start junk ts).
Proof.
  intros Hj. assert (Hout : ∀ t p, readers (start junk ts) !! t = Some p → t ∈ ts ∧ p = Out).
  { intros t p [H1 H2]%lookup_gset_to_gmap_Some. done. }
  split; try done.
  - by intros t p [? _]%Hout.
  - intros t. split; [by intros [_ ?]%Hout|]. intros [<- H]. by simpl in H.
  - intros t. split; [by intros [[_ ?]%Hout|[_ ?]%Hout]|]. intros [<- H]. by simpl in H.
Qed.

Section steps.
Context (ts : gset Z) (H0 : 0 ∉ ts).

(** No thread sleeps while the lock is free. *)
Lemma free_lock s : sys_ok ts s → holder s = 0 → not_empty (queue s) = 0.
Proof.
  intros H Hh. destruct (decide (not_empty (queue s) = 0)) as [|Hne]; [done|].
  assert (readers s !! not_empty (queue s) = Some Asleep) as Ha by (by apply (so_asleep _ _ H)).
  destruct (proj1 (so_holder _ _ H _) (or_introl Ha)). congruence.
Qed.

(** A thread moves to a place where it neither sleeps nor holds the lock. *)
Lemma goto_ok s t p p' : sys_ok ts s → readers s !! t = Some p → p ≠ Asleep → p ≠ Woken → p' ≠ Asleep → p' ≠ Woken → sys_ok ts (goto s t p').
Proof.
  intros [Q F D A W L] Ht H1 H2 H3 H4. split; try done; cbn [readers goto queue holder].
  - intros u q [[<- _]|[_ ?]]%lookup_insert_Some; eauto.
  - intros u. rewrite <- A. destruct (decide (u = t)) as [->|Hne]; [rewrite lookup_insert_eq, Ht; split; congruence|by rewrite lookup_insert_ne].
  - intros u. rewrite <- L. destruct (decide (u = t)) as [->|Hne]; [rewrite lookup_insert_eq, Ht; split; intros [?|?]; congruence|by rewrite lookup_insert_ne].
Qed.

Lemma acquire_ok s t p : sys_ok ts s → readers s !! t = Some p → p ≠ Asleep → p ≠ Woken →
  match acquire s t with
  | Ok s' => sys_ok ts s'
  | Panic => contents (queue s) ≠ []
  | Fuel => False
  end.
Proof.
  intros H Ht H1 H2. unfold acquire. destruct (Z.eqb_spec (holder s) 0) as [Eh|Eh]; [|by apply (goto_ok s t p)].
  pose proof (free_lock s H Eh) as En. pose proof H as [Q F D A W L]. unfold wait_not_empty. rewrite (empty_spec _ Q).
  destruct (bool_decide_reflect (contents (queue s) = [])) as [E|E]; [|done]. cbn [mbind res_bind].
  assert (t ≠ 0) by (intros ->; by apply D in Ht).
  assert (Hno : ∀ u, readers s !! u ≠ Some Asleep ∧ readers s !! u ≠ Some Woken).
  { intros u. split; intros Hu; [destruct (proj1 (L u) (or_introl Hu))|destruct (proj1 (L u) (or_intror Hu))]; congruence. }
  split; cbn [readers queue holder not_empty sent got]; try done.
  - destruct Q. by split.
  - intros u q [[<- _]|[_ ?]]%lookup_insert_Some; eauto.
  - intros u. destruct (decide (u = t)) as [->|Hne]; [rewrite lookup_insert_eq; split; [by intros _|done]|].
    rewrite lookup_insert_ne by done. split; [by intros ?%Hno|]. intros [? _]. congruence.
  - intros u. destruct (decide (u = t)) as [->|Hne]; [rewrite lookup_insert_eq; split; [by intros _|by left]|].
    rewrite lookup_insert_ne by done. split; [by intros [?%Hno|?%Hno]|]. intros [? _]. congruence.
Qed.

Lemma test_ok s t p : sys_ok ts s → readers s !! t = Some p → p ≠ Asleep → p ≠ Woken → ∃ s', test s t = Ok s' ∧ sys_ok ts s'.
Proof.
  intros H Ht H1 H2. unfold test. rewrite (empty_spec _ (so_queue _ _ H)).
  destruct (bool_decide_reflect (contents (queue s) = [])) as [E|E].
  - pose proof (acquire_ok s t p H Ht H1 H2) as Ha. destruct (acquire s t) as [s'| |]; [by exists s'|done|done].
  - destruct (take_byte_spec (queue s) (so_queue _ _ H) E) as (c & l & q' & Ec & -> & Q' & El & Enf & Ene). cbn [mbind res_bind]. eexists. split; [done|].
    pose proof (goto_ok s t p Out H Ht H1 H2 ltac:(done) ltac:(done)) as [_ _ D A _ L]. destruct H as [Q F _ _ W _].
    split; cbn [queue readers holder sent got]; try done.
    + rewrite fmap_app, <- app_assoc, El. simpl. by rewrite <- F, Ec.
    + intros u. by rewrite A, Ene.
    + rewrite Ene. intros Hn. apply W in Hn. congruence.
Qed.

Lemma put_byte_ok s c : sys_ok ts s → intq_full (queue s) = false → ∃ s', step s (Put c) = Some (Ok s') ∧ sys_ok ts s'.
Proof.
  intros H Hf. pose proof H as [Q F D A W L]. cbn [step]. rewrite Hf. rewrite full_spec in Hf by done. apply Z.eqb_neq in Hf.
  assert (Hl : Zlength (contents (queue s)) < INTQ_BUFSIZE - 1).
  { rewrite length_contents in * by done. pose proof (Z.mod_pos_bound (head (queue s) - tail (queue s)) INTQ_BUFSIZE ltac:(done)). unfold used, INTQ_BUFSIZE in *. lia. }
  unfold intq_putc. rewrite full_spec, (proj2 (Z.eqb_neq _ _)) by done. cbn [negb].
  destruct (add_byte_spec (queue s) c Q Hl) as (q' & -> & Q' & Ec & Enf & Ene). cbn [mbind res_bind]. eexists. split; [done|].
  split; cbn [queue readers holder sent got]; try done.
  - rewrite Ec, app_assoc. by rewrite F.
  - intros t p. destruct (Z.eqb_spec (not_empty (queue s)) 0) as [E|E]; [apply D|]. intros [[<- _]|[_ ?]]%lookup_insert_Some; [|eauto].
    apply (D _ Asleep). by apply A.
  - intros t. rewrite Ene. destruct (Z.eqb_spec (not_empty (queue s)) 0) as [E|E]; [rewrite A, E; done|].
    destruct (decide (t = not_empty (queue s))) as [->|Hne]; [rewrite lookup_insert_eq; split; [done|intros []; congruence]|].
    rewrite lookup_insert_ne by done. rewrite A. split; intros []; congruence.
  - intros t. rewrite <- L. destruct (Z.eqb_spec (not_empty (queue s)) 0) as [E|E]; [done|].
    destruct (decide (t = not_empty (queue s))) as [->|Hne]; [|by rewrite lookup_insert_ne].
    rewrite lookup_insert_eq. split; [intros _; left; by apply A|by right].
Qed.

Lemma release_ok s t : sys_ok ts s → readers s !! t = Some Woken →
  sys_ok ts (Sys (queue s) 0 (<[t := Test]> (readers s)) (sent s) (got s)).
Proof.
  intros [Q F D A W L] Ht. destruct (proj1 (L t) (or_intror Ht)) as [Eh Ht0].
  split; cbn [queue readers holder sent got]; try done.
  - intros u q [[<- _]|[_ ?]]%lookup_insert_Some; eauto.
  - intros u. rewrite <- A. destruct (decide (u = t)) as [->|Hne]; [rewrite lookup_insert_eq, Ht; split; congruence|by rewrite lookup_insert_ne].
  - intros u. split; [|intros []; congruence]. destruct (decide (u = t)) as [->|Hne]; [rewrite lookup_insert_eq; intros [?|?]; congruence|].
    rewrite lookup_insert_ne by done. intros [E _]%L. congruence.
Qed.

(** A step keeps the invariant, or a thread has come back from [lock_acquire] too late. *)
Lemma step_ok s e r : sys_ok ts s → step s e = Some r →
  (∃ s', r = Ok s' ∧ sys_ok ts s') ∨ (r = Panic ∧ ∃ t u, e = Run t u ∧ readers s !! t = Some Acquire ∧ contents (queue s) ≠ []).
Proof.
  intros H E. destruct e as [t|c|t u]; cbn [step] in E.
  - destruct (decide _) as [Ht|]; [|done]. injection E as <-. left. destruct (test_ok s t Out H Ht) as (s' & -> & Hs); [done|done|by exists s'].
  - left. destruct (intq_full (queue s)) eqn:Ef; [done|]. destruct (put_byte_ok s c H Ef) as (s' & Es & Hs). cbn [step] in Es. rewrite Ef in Es.
    exists s'. split; [congruence|done].
  - destruct (readers s !! t) as [[]|] eqn:Ht; try done.
    + injection E as <-. left. destruct (test_ok s t Test H Ht) as (s' & -> & Hs); [done|done|by exists s'].
    + injection E as <-. pose proof (acquire_ok s t Acquire H Ht) as Ha. destruct (acquire s t) as [s'| |].
      * left. exists s'. split; [done|by apply Ha].
      * right. split; [done|]. exists t, u. split; [done|]. split; [done|by apply Ha].
      * by destruct Ha.
    + pose proof (release_ok s t H Ht) as Hr. left. destruct (decide (readers s !! u = Some Queued)) as [Hu|].
      * injection E as <-. eexists. split; [done|]. apply (goto_ok _ u Queued); try done. cbn [readers]. by rewrite lookup_insert_ne by congruence.
      * destruct (decide _); [done|]. injection E as <-. by eexists.
Qed.

Lemma reachable_ok junk s : Zlength junk = INTQ_BUFSIZE → reachable junk ts s → sys_ok ts s.
Proof.
  intros Hj. induction 1 as [|s e s' _ IH Hs]; [by apply start_ok|].
  destruct (step_ok s e (Ok s') IH Hs) as [(s2 & [= <-] & ?)|[? _]]; done.
Qed.

(** Only a thread that is not alone waits for the lock. *)
Definition contended (s : sys) : Prop :=
  ∀ t, readers s !! t = Some Queued ∨ readers s !! t = Some Acquire → ∃ u, u ∈ ts ∧ u ≠ t.

Lemma contended_insert s t p : contended s → (p ≠ Queued ∧ p ≠ Acquire ∨ ∃ u, u ∈ ts ∧ u ≠ t) →
  ∀ q h se g, contended (Sys q h (<[t := p]> (readers s)) se g).
Proof.
  intros C Hp q h se g u. cbn [readers]. destruct (decide (u = t)) as [->|Hne]; [|rewrite lookup_insert_ne by done; apply C].
  rewrite lookup_insert_eq. intros Hq. destruct Hp as [[? ?]|?]; [destruct Hq; congruence|done].
Qed.
Lemma acquire_contended s t p s' : sys_ok ts s → contended s → readers s !! t = Some p → p ≠ Asleep → p ≠ Woken → acquire s t = Ok s' → contended s'.
Proof.
  intros H C Ht H1 H2 E. unfold acquire in E. destruct (Z.eqb_spec (holder s) 0) as [_|Eh].
  - apply bind_Ok in E as (q & _ & [= <-]). by apply contended_insert; [|left].
  - injection E as <-. apply contended_insert; [done|]. right. exists (holder s).
    assert (Hh : readers s !! holder s = Some Asleep ∨ readers s !! holder s = Some Woken) by (by apply (so_holder _ _ H)).
    split; [destruct Hh; by eapply (so_domain _ _ H)|]. intros Eq. rewrite Eq in Hh. destruct Hh; congruence.
Qed.
Lemma test_contended s t p s' : sys_ok ts s → contended s → readers s !! t = Some p → p ≠ Asleep → p ≠ Woken → test s t = Ok s' → contended s'.
Proof.
  intros H C Ht H1 H2 E. unfold test in E. destruct (intq_empty (queue s)); [by eapply acquire_contended|].
  apply bind_Ok in E as ([[c w] q] & _ & [= <-]). by apply contended_insert; [|left].
Qed.
Lemma step_contended s e s' : sys_ok ts s → contended s → step s e = Some (Ok s') → contended s'.
Proof.
  intros H C E. destruct e as [t|c|t u]; cbn [step] in E.
  - destruct (decide _) as [Ht|]; [|done]. injection E as E. by eapply (test_contended s t Out).
  - destruct (intq_full (queue s)); [done|]. injection E as E. apply bind_Ok in E as ([w q] & _ & [= <-]).
    destruct (w =? 0); [exact C|]. by apply contended_insert; [|left].
  - destruct (readers s !! t) as [[]|] eqn:Ht; try done.
    + injection E as E. by eapply (test_contended s t Test).
    + injection E as E. by eapply (acquire_contended s t Acquire).
    + assert (Hr : contended (Sys (queue s) 0 (<[t := Test]> (readers s)) (sent s) (got s))) by (by apply contended_insert; [|left]).
      destruct (decide (readers s !! u = Some Queued)) as [Hu|].
      * injection E as <-. apply (contended_insert _ u Acquire Hr). right. by apply (C u); left.
      * destruct (decide _); [done|]. by injection E as <-.
Qed.
Lemma reachable_contended junk s : Zlength junk = INTQ_BUFSIZE → reachable junk ts s → contended s.
Proof.
  intros Hj. induction 1 as [|s e s' Hr IH Hs].
  - intros t. cbn [readers start]. by intros [[_ ?]%lookup_gset_to_gmap_Some|[_ ?]%lookup_gset_to_gmap_Some].
  - eapply step_contended; [|exact IH|exact Hs]. by eapply reachable_ok.
Qed.
End steps.

(** C24: an interrupt queue is a queue of at most 63 bytes, for any number of threads that read from it
    while interrupts add to it: what has been read, followed by what is in the queue, is
    what has been added.  No thread sleeps while there is something to read.  With a single
    reader no assertion ever fails. *)
Theorem intq_fifo junk ts s :
  Zlength junk = INTQ_BUFSIZE → 0 ∉ ts → reachable junk ts s →
  (snd <$> got s) ++ contents (queue s) = sent s ∧ Zlength (contents (queue s)) < INTQ_BUFSIZE
  ∧ (∀ t, readers s !! t = Some Asleep → contents (queue s) = [])
  ∧ ∀ e, step s e ≠ Some Fuel ∧ ((∀ t u, t ∈ ts → u ∈ ts → t = u) → step s e ≠ Some Panic).
Proof.
  intros Hj H0 Hr. pose proof (reachable_ok ts H0 junk s Hj Hr) as H. pose proof H as [Q F D A W L]. split; [done|]. split.
  { rewrite length_contents by done. by apply Z.mod_pos_bound. }
  split; [intros t [Hn Ht]%A; apply W; congruence|].
  intros e. split; [|intros Hone]; intros E; destruct (step_ok ts H0 s e _ H E) as [(s' & ? & _)|[? (t & u & -> & Ht & _)]]; try done.
  destruct (reachable_contended ts H0 junk s Hj Hr t (or_intror Ht)) as (v & Hv & Hne). apply Hne, Hone; [done|]. by eapply D.
Qed.

Lemma intq_fifo_witness :
  ∃ s, runs (start (replicate 64 7) {[1]}) [Call 1; Put 97; Put 98; Run 1 0; Run 1 0; Put 99] = Some (Ok s)
    ∧ got s = [(1, 97)] ∧ (snd <$> got s) ++ contents (queue s) = [97; 98; 99].
Proof.
  assert (E : match runs (start (replicate 64 7) {[1]}) [Call 1; Put 97; Put 98; Run 1 0; Run 1 0; Put 99] with
    | Some (Ok s) => bool_decide (got s = [(1, 97)]) && bool_decide (sent s = [97; 98; 99]) | _ => false end = true) by (vm_compute; reflexivity).
  destruct (runs _ _) as [[s| |]|] eqn:Er; try discriminate E. exists s.
  apply andb_true_iff in E as [E1%bool_decide_eq_true E2%bool_decide_eq_true]. split; [reflexivity|]. split; [exact E1|]. rewrite <- E2.
  apply (intq_fifo (replicate 64 7) {[1]}); [reflexivity|by apply not_elem_of_singleton|].
  assert (Hreach : ∀ l s0, reachable (replicate 64 7) {[1]} s0 → runs s0 l = Some (Ok s) → reachable (replicate 64 7) {[1]} s).
  { clear. induction l as [|e l IH]; intros s0 H0 El; cbn [runs] in El; [congruence|].
    destruct (step s0 e) as [[s1| |]|] eqn:Es; try done. by eapply IH; [eapply reach_step|]. }
  by eapply Hreach; [apply reach_start|].
Defined.

(** two threads that read the keyboard bring the kernel down.  Both find the queue empty, and
    the second one blocks in [lock_acquire]; when it gets the lock, [wait] asserts that the queue
    is still empty, but bytes have arrived.  It does not even have to run before the first
    reader takes its byte, if two bytes arrive. *)
Theorem two_readers_panic :
  runs (start (replicate 64 0) {[1; 2]}) [Call 1; Call 2; Put 97; Run 1 2; Run 2 0] = Some Panic
  ∧ runs (start (replicate 64 0) {[1; 2]}) [Call 1; Call 2; Put 97; Put 98; Run 1 2; Run 1 0; Run 2 0] = Some Panic.
Proof. split; vm_compute; reflexivity. Qed.

End Intq.
