(* ===== verification/Input.v ===== *)
(** * The keyboard, the serial port and the input buffer

    [devices/input.c], [devices/kbd.c] and [devices/serial.c].  Ports are read from a stream
    of values, and what is written to them is recorded. *)

From Stdlib Require Import Ascii String.
From S2P Require Import Prelude Strings Stdio Intq.

Module Input.
Import Stdio Intq.

(** ** The devices *)

Inductive serial_mode := UNINIT | POLL | QUEUE.

Definition IO_BASE : Z := 0x3f8.
Definition RBR_REG : Z := IO_BASE + 0.
Definition THR_REG : Z := IO_BASE + 0.
Definition IER_REG : Z := IO_BASE + 1.
Definition LS_REG : Z := IO_BASE + 0.
Definition MS_REG : Z := IO_BASE + 1.
Definition IIR_REG : Z := IO_BASE + 2.
Definition FCR_REG : Z := IO_BASE + 2.
Definition LCR_REG : Z := IO_BASE + 3.
Definition MCR_REG : Z := IO_BASE + 4.
Definition LSR_REG : Z := IO_BASE + 5.
Definition IER_RECV : Z := 0x01.
Definition IER_XMIT : Z := 0x02.
Definition LCR_N81 : Z := 0x03.
Definition LCR_DLAB : Z := 0x80.
Definition MCR_OUT2 : Z := 0x08.
Definition LSR_DR : Z := 0x01.
Definition LSR_THRE : Z := 0x20.

(** The static variables of [kbd.c]. *)
Record keyboard := Keyboard {
  left_shift : bool; right_shift : bool; left_alt : bool; right_alt : bool;
  left_ctrl : bool; right_ctrl : bool; caps_lock : bool; key_cnt : Z
}.

(** [buffer] is the one of [input.c], [mode] and [txq] those of [serial.c].  [ins] are the values
    that ports return, [outs] the ports and values written. *)
Record dev := Dev {
  buffer : intq; mode : serial_mode; txq : intq; kbd : keyboard;
  ins : nat → Z; pos : nat; outs : list (Z * Z)
}.
Definition set_buffer (d : dev) (q : intq) : dev := Dev q (mode d) (txq d) (kbd d) (ins d) (pos d) (outs d).
Definition set_mode (d : dev) (m : serial_mode) : dev := Dev (buffer d) m (txq d) (kbd d) (ins d) (pos d) (outs d).
Definition set_txq (d : dev) (q : intq) : dev := Dev (buffer d) (mode d) q (kbd d) (ins d) (pos d) (outs d).
Definition set_kbd (d : dev) (k : keyboard) : dev := Dev (buffer d) (mode d) (txq d) k (ins d) (pos d) (outs d).
Definition inb (d : dev) (port : Z) : Z * dev :=
  (u8 (ins d (pos d)), Dev (buffer d) (mode d) (txq d) (kbd d) (ins d) (S (pos d)) (outs d)).
Definition outb (d : dev) (port v : Z) : dev := Dev (buffer d) (mode d) (txq d) (kbd d) (ins d) (pos d) (outs d ++ [(port, v)]).

(** ** Input *)

Definition input_init (junk : list Z) (d : dev) : dev := set_buffer d (intq_init junk).
Definition input_full (d : dev) : bool := intq_full (buffer d).

Definition write_ier (d : dev) : dev :=
  let ier := 0 in
  let ier := if negb (intq_empty (txq d)) then Z.lor ier IER_XMIT else ier in
  let ier := if negb (input_full d) then Z.lor ier IER_RECV else ier in
  outb d IER_REG ier.
Definition serial_notify (d : dev) : dev := match mode d with QUEUE => write_ier d | _ => d end.

(** The thread that is unblocked is the first component. *)
Definition input_putc (d : dev) (key : Z) : res (Z * dev) :=
  ASSERT negb (input_full d);;
  '(woken, q) ← intq_putc (buffer d) key;
  Ok (woken, serial_notify (set_buffer d q)).
(** When the buffer is not empty. *)
Definition input_getc (d : dev) : res (Z * dev) :=
  '(key, _, q) ← intq_getc (buffer d);
  Ok (key, serial_notify (set_buffer d q)).

(** ** The keyboard *)

Definition invariant_keymap : list (Z * list Z) :=
  [(0x01, [27]); (0x0e, [8]); (0x0f, 9 :: chars "QWERTYUIOP"); (0x1c, [13]); (0x1e, chars "ASDFGHJKL"); (0x2c, chars "ZXCVBNM");
   (0x37, chars "*"); (0x39, chars " "); (0x53, [127])].
Definition unshifted_keymap : list (Z * list Z) :=
  [(0x02, chars "1234567890-="); (0x1a, chars "[]"); (0x27, chars ";'`"); (0x2b, chars "\"); (0x33, chars ",./")].
Definition shifted_keymap : list (Z * list Z) :=
  [(0x02, chars "!@#$%^&*()_+"); (0x1a, chars "{}"); (0x27, [code ":"; 34; code "~"]); (0x2b, chars "|"); (0x33, chars "<>?")].

Fixpoint map_key (k : list (Z * list Z)) (scancode : Z) : option Z :=
  match k with
  | [] => None
  | (first_scancode, cs) :: k =>
      if (first_scancode <=? scancode) && (scancode <? first_scancode + Zlength cs) then cs !! Z.to_nat (scancode - first_scancode)
      else map_key k scancode
  end.
Definition tolower (c : Z) : Z := if (code "A" <=? c) && (c <=? code "Z") then c - code "A" + code "a" else c.

Definition set_caps (k : keyboard) (b : bool) : keyboard :=
  Keyboard (left_shift k) (right_shift k) (left_alt k) (right_alt k) (left_ctrl k) (right_ctrl k) b (key_cnt k).
Definition count_key (k : keyboard) : keyboard :=
  Keyboard (left_shift k) (right_shift k) (left_alt k) (right_alt k) (left_ctrl k) (right_ctrl k) (caps_lock k) (s64 (key_cnt k + 1)).
(** The table of shift keys. *)
Definition set_shift (k : keyboard) (code : Z) (b : bool) : keyboard :=
  let '(Keyboard ls rs la ra lc rc cl n) := k in
  if code =? 0x2a then Keyboard b rs la ra lc rc cl n
  else if code =? 0x36 then Keyboard ls b la ra lc rc cl n
  else if code =? 0x38 then Keyboard ls rs b ra lc rc cl n
  else if code =? 0xe038 then Keyboard ls rs la b lc rc cl n
  else if code =? 0x1d then Keyboard ls rs la ra b rc cl n
  else if code =? 0xe01d then Keyboard ls rs la ra lc b cl n
  else k.

(** The machine reboots, or goes on. *)
Definition keyboard_interrupt (d : dev) : res (option dev) :=
  let k := kbd d in
  let shift := left_shift k || right_shift k in
  let alt := left_alt k || right_alt k in
  let ctrl := left_ctrl k || right_ctrl k in
  let '(code, d) := inb d 0x60 in
  let '(code, d) := if code =? 0xe0 then let '(c, d) := inb d 0x60 in (Z.lor (Z.shiftl code 8) c, d) else (code, d) in
  let release := negb (Z.land code 0x80 =? 0) in
  let code := Z.land code (2 ^ 32 - 1 - 0x80) in
  if code =? 0x3a then Ok (Some (if negb release then set_kbd d (set_caps k (negb (caps_lock k))) else d)) else
  match (match map_key invariant_keymap code with
         | Some c => Some c
         | None => if negb shift then map_key unshifted_keymap code else map_key shifted_keymap code
         end) with
  | Some c =>
      if negb release then
        if (c =? 127) && ctrl && alt then Ok None else
        let c := if ctrl && (0x40 <=? c) && (c <? 0x60) then c - 0x40
                 else if Bool.eqb shift (caps_lock k) then tolower c else c in
        let c := if alt then u8 (c + 0x80) else c in
        if negb (input_full d) then
          '(_, d) ← input_putc (set_kbd d (count_key k)) c;
          Ok (Some d)
        else Ok (Some d)
      else Ok (Some d)
  | None => Ok (Some (set_kbd d (set_shift k code (negb release))))
  end.

(** ** The serial port *)

Definition set_serial (d : dev) (bps : Z) : res dev :=
  let base_rate := Z.quot 1843200 16 in
  let divisor := u16 (Z.quot base_rate bps) in
  ASSERT (300 <=? bps) && (bps <=? 115200);;
  let d := outb d LCR_REG (Z.lor LCR_N81 LCR_DLAB) in
  let d := outb d LS_REG (Z.land divisor 0xff) in
  let d := outb d MS_REG (Z.shiftr divisor 8) in
  Ok (outb d LCR_REG LCR_N81).
Definition init_poll (junk : list Z) (d : dev) : res dev :=
  ASSERT match mode d with UNINIT => true | _ => false end;;
  let d := outb d IER_REG 0 in
  let d := outb d FCR_REG 0 in
  d ← set_serial d 9600;
  let d := outb d MCR_REG MCR_OUT2 in
  Ok (set_mode (set_txq d (intq_init junk)) POLL).
Definition serial_init_queue (junk : list Z) (d : dev) : res dev :=
  d ← match mode d with UNINIT => init_poll junk d | _ => Ok d end;
  ASSERT match mode d with POLL => true | _ => false end;;
  Ok (write_ier (set_mode d QUEUE)).

(** The port becomes ready after some reads; [fuel] bounds them. *)
Fixpoint putc_poll (fuel : nat) (d : dev) (byte : Z) : res dev :=
  match fuel with
  | O => Fuel
  | S fuel =>
      let '(lsr, d) := inb d LSR_REG in
      if Z.land lsr LSR_THRE =? 0 then putc_poll fuel d byte else Ok (outb d THR_REG byte)
  end.

(** [off]: interrupts were off.  The result is false when thread [t] blocks because the queue is
    full. *)
Definition serial_putc (fuel : nat) (junk : list Z) (off : bool) (t : Z) (d : dev) (byte : Z) : res (bool * dev) :=
  match mode d with
  | QUEUE =>
      d ← (if off && intq_full (txq d) then
             '(c, _, q) ← intq_getc (txq d);
             putc_poll fuel (set_txq d q) c
           else Ok d);
      if intq_full (txq d) then
        q ← wait_not_full (txq d) t;
        Ok (false, set_txq d q)
      else
        '(_, q) ← intq_putc (txq d) byte;
        Ok (true, write_ier (set_txq d q))
  | m =>
      d ← match m with UNINIT => init_poll junk d | _ => Ok d end;
      d ← putc_poll fuel d byte;
      Ok (true, d)
  end.
Fixpoint serial_flush (n fuel : nat) (d : dev) : res dev :=
  match n with
  | O => Fuel
  | S n =>
      if negb (intq_empty (txq d)) then
        '(c, _, q) ← intq_getc (txq d);
        d ← putc_poll fuel (set_txq d q) c;
        serial_flush n fuel d
      else Ok d
  end.

Fixpoint receive_loop (n : nat) (d : dev) : res dev :=
  match n with
  | O => Fuel
  | S n =>
      if input_full d then Ok d else
      let '(lsr, d) := inb d LSR_REG in
      if Z.land lsr LSR_DR =? 0 then Ok d else
      let '(c, d) := inb d RBR_REG in
      '(_, d) ← input_putc d c;
      receive_loop n d
  end.
Fixpoint transmit_loop (n : nat) (d : dev) : res dev :=
  match n with
  | O => Fuel
  | S n =>
      if intq_empty (txq d) then Ok d else
      let '(lsr, d) := inb d LSR_REG in
      if Z.land lsr LSR_THRE =? 0 then Ok d else
      '(c, _, q) ← intq_getc (txq d);
      transmit_loop n (outb (set_txq d q) THR_REG c)
  end.
(** Each loop moves at most 63 bytes. *)
Definition serial_interrupt (d : dev) : res dev :=
  let '(_, d) := inb d IIR_REG in
  d ← receive_loop 64 d;
  d ← transmit_loop 64 d;
  Ok (write_ier d).

(** ** Invariants *)

(** What was last written to the interrupt enable register, and the bytes that were written to
    the transmitter; [set_serial] uses the same port for the clock divisor. *)
Definition ier (d : dev) : option Z := snd <$> last (filter (λ p, p.1 = IER_REG) (outs d)).
Definition sent_bytes (d : dev) : list Z := snd <$> filter (λ p, p.1 = THR_REG) (outs d).

Definition wanted_ier (d : dev) : Z :=
  Z.lor (if decide (contents (txq d) = []) then 0 else IER_XMIT)
        (if decide (Zlength (contents (buffer d)) = INTQ_BUFSIZE - 1) then 0 else IER_RECV).

Record dev_ok (d : dev) : Prop := {
  do_buffer : queue_ok (buffer d);
  do_txq : queue_ok (txq d);
  do_mode : mode d = QUEUE;
  do_ier : ier d = Some (wanted_ier d)
}.

Lemma write_ier_spec d : queue_ok (buffer d) → queue_ok (txq d) → mode d = QUEUE →
  dev_ok (write_ier d) ∧ sent_bytes (write_ier d) = sent_bytes d.
Proof.
  intros Hb Ht Hm. split; [split; try done|].
  - unfold write_ier, ier, outb. cbn [outs]. rewrite filter_app, filter_cons_True, filter_nil by done. rewrite last_snoc. simpl. f_equal.
    unfold wanted_ier. cbn [txq buffer]. rewrite empty_spec by done. unfold input_full. rewrite full_spec by done.
    destruct (decide (contents (txq d) = [])), (decide (Zlength (contents (buffer d)) = INTQ_BUFSIZE - 1)) as [E|E];
      rewrite ?bool_decide_eq_true_2, ?bool_decide_eq_false_2, ?(proj2 (Z.eqb_eq _ _) E), ?(proj2 (Z.eqb_neq _ _) E) by done; done.
  - unfold write_ier, sent_bytes, outb. cbn [outs]. rewrite filter_app, filter_cons_False, filter_nil by done. by rewrite app_nil_r.
Qed.

Lemma input_putc_spec d c : queue_ok (buffer d) → queue_ok (txq d) → mode d = QUEUE → input_full d = false →
  ∃ w d', input_putc d c = Ok (w, d') ∧ dev_ok d' ∧ contents (buffer d') = contents (buffer d) ++ [c]
    ∧ txq d' = txq d ∧ sent_bytes d' = sent_bytes d ∧ ins d' = ins d ∧ kbd d' = kbd d ∧ pos d' = pos d.
Proof.
  intros Hb Ht Hm Hf. unfold input_putc, intq_putc. unfold input_full in *. rewrite Hf. cbn [negb].
  rewrite full_spec in Hf by done. apply Z.eqb_neq in Hf.
  assert (Hl : Zlength (contents (buffer d)) < INTQ_BUFSIZE - 1).
  { rewrite length_contents in * by done. pose proof (Z.mod_pos_bound (head (buffer d) - tail (buffer d)) INTQ_BUFSIZE ltac:(done)).
    unfold used, INTQ_BUFSIZE in *. lia. }
  destruct (add_byte_spec (buffer d) c Hb Hl) as (q' & -> & Q' & Ec & _). cbn [mbind res_bind].
  unfold serial_notify. cbn [mode set_buffer]. rewrite Hm. destruct (write_ier_spec (set_buffer d q')) as [Hok Hs]; [done|done|done|].
  exists (not_empty (buffer d)), (write_ier (set_buffer d q')). split; [done|]. split; [done|]. by rewrite <- Ec.
Qed.

(** The bytes that the port delivers to a handler with room for [n]: the status, then the byte. *)
Fixpoint received (n : nat) (r : nat → Z) (pos : nat) : list Z :=
  match n with
  | O => []
  | S n => if Z.land (u8 (r pos)) LSR_DR =? 0 then [] else u8 (r (S pos)) :: received n r (S (S pos))
  end.
Definition room (d : dev) : nat := Z.to_nat (INTQ_BUFSIZE - 1 - Zlength (contents (buffer d))).

Lemma receive_loop_spec n : ∀ d, queue_ok (buffer d) → queue_ok (txq d) → mode d = QUEUE → INTQ_BUFSIZE - Zlength (contents (buffer d)) ≤ Z.of_nat n →
  ∃ d', receive_loop n d = Ok d' ∧ queue_ok (buffer d') ∧ txq d' = txq d ∧ mode d' = QUEUE
    ∧ contents (buffer d') = contents (buffer d) ++ received (room d) (ins d) (pos d)
    ∧ sent_bytes d' = sent_bytes d ∧ ins d' = ins d.
Proof.
  induction n as [|n IH]; intros d Hb Ht Hm Hn.
  { rewrite length_contents in Hn by done. pose proof (Z.mod_pos_bound (head (buffer d) - tail (buffer d)) INTQ_BUFSIZE ltac:(done)). unfold used in *. lia. }
  cbn [receive_loop]. destruct (input_full d) eqn:Ef.
  { exists d. unfold room. unfold input_full in Ef. rewrite full_spec in Ef by done. apply Z.eqb_eq in Ef. rewrite Ef, Z.sub_diag. by rewrite app_nil_r. }
  assert (Er : room d = S (room d - 1)).
  { unfold room. unfold input_full in Ef. rewrite full_spec in Ef by done. apply Z.eqb_neq in Ef. rewrite length_contents in * by done.
    pose proof (Z.mod_pos_bound (head (buffer d) - tail (buffer d)) INTQ_BUFSIZE ltac:(done)). unfold used, INTQ_BUFSIZE in *. lia. }
  rewrite Er. cbn [received]. unfold inb at 1. destruct (Z.land _ LSR_DR =? 0); [eexists; split; [done|]; cbn [buffer txq mode outs ins]; by rewrite app_nil_r|].
  cbn [inb]. set (d1 := Dev _ _ _ _ _ _ _). set (c := u8 _).
  destruct (input_putc_spec d1 c Hb Ht Hm Ef) as (w & d2 & -> & [Hb2 Ht2 Hm2 _] & Ec & Et & Es & Ei & _ & Ep). cbn [mbind res_bind].
  destruct (IH d2) as (d' & -> & Hb' & Et' & Hm' & Ec' & Es' & Ei'); [done|done|done|rewrite Ec, length_app; simpl; lia|].
  exists d'. split; [done|]. split; [done|]. split; [by rewrite Et', Et|]. split; [done|]. split; [|by rewrite Es', Es, Ei', Ei].
  rewrite Ec', Ec, <- app_assoc, Ei, Ep. unfold d1, c. cbn [ins pos app]. do 3 f_equal.
  unfold room. rewrite Ec, length_app. simpl length. unfold d1. cbn [buffer]. lia.
Qed.

Lemma transmit_loop_spec n : ∀ d, queue_ok (buffer d) → queue_ok (txq d) → mode d = QUEUE → Zlength (contents (txq d)) < Z.of_nat n →
  ∃ d' tx, transmit_loop n d = Ok d' ∧ buffer d' = buffer d ∧ queue_ok (txq d') ∧ mode d' = QUEUE ∧ contents (txq d) = tx ++ contents (txq d')
    ∧ sent_bytes d' = sent_bytes d ++ tx ∧ ins d' = ins d.
Proof.
  induction n as [|n IH]; intros d Hb Ht Hm Hn; [lia|]. cbn [transmit_loop]. rewrite empty_spec by done.
  destruct (bool_decide_reflect (contents (txq d) = [])) as [Ee|Ee]; [exists d, []; by rewrite app_nil_r|].
  unfold inb. destruct (Z.land _ LSR_THRE =? 0); [eexists _, []; split; [done|]; by rewrite app_nil_r|]. set (d1 := Dev _ _ _ _ _ _ _).
  unfold intq_getc. change (txq d1) with (txq d). rewrite empty_spec, bool_decide_eq_false_2 by done. cbn [negb].
  destruct (take_byte_spec (txq d) Ht Ee) as (c & l & q' & Ec & -> & Q' & El & _). cbn [mbind res_bind].
  destruct (IH (outb (set_txq d1 q') THR_REG c)) as (d' & tx & -> & Eb & Q2 & Hm' & Ec' & Es & Ei); [done|done|done|cbn [txq outb set_txq]; rewrite El; rewrite Ec in Hn; simpl in Hn; lia|].
  cbn [txq outb set_txq] in Ec'. exists d', (c :: tx). split; [done|]. split; [done|]. split; [done|]. split; [done|]. split; [by rewrite Ec, <- El, Ec'|].
  split; [|done]. rewrite Es. unfold sent_bytes, outb. cbn [outs set_txq]. rewrite filter_app, filter_cons_True, filter_nil, fmap_app, <- app_assoc by done. done.
Qed.

Lemma serial_interrupt_spec d : dev_ok d →
  ∃ d' tx, serial_interrupt d = Ok d' ∧ dev_ok d' ∧ contents (buffer d') = contents (buffer d) ++ received (room d) (ins d) (S (pos d))
    ∧ contents (txq d) = tx ++ contents (txq d') ∧ sent_bytes d' = sent_bytes d ++ tx ∧ ins d' = ins d.
Proof.
  intros [Hb Ht Hm _]. unfold serial_interrupt, inb. set (d0 := Dev _ _ _ _ _ _ _).
  destruct (receive_loop_spec 64 d0 Hb Ht Hm) as (d1 & -> & Hb1 & Et1 & Hm1 & Ec1 & Es1 & Ei1); [unfold INTQ_BUFSIZE; lia|]. cbn [mbind res_bind].
  assert (Ht1 : queue_ok (txq d1)) by (by rewrite Et1).
  destruct (transmit_loop_spec 64 d1 Hb1 Ht1 Hm1) as (d2 & tx & -> & Eb2 & Ht2 & Hm2 & Ec2 & Es2 & Ei2).
  { rewrite length_contents by done. pose proof (Z.mod_pos_bound (head (txq d1) - tail (txq d1)) INTQ_BUFSIZE ltac:(done)). unfold used, INTQ_BUFSIZE in *. lia. }
  cbn [mbind res_bind]. destruct (write_ier_spec d2) as [Hok Hs]; [by rewrite Eb2|done|done|].
  exists (write_ier d2), tx. split; [done|]. split; [done|]. cbn [buffer write_ier outb txq ins]. rewrite Eb2, Hs, Es2, Es1, Ei2, Ei1.
  rewrite Et1 in Ec2. done.
Qed.

(** The invariant does not depend on the keyboard and on what ports will return. *)
Lemma ok_same d d' : dev_ok d → buffer d' = buffer d → txq d' = txq d → mode d' = mode d → outs d' = outs d → dev_ok d'.
Proof. intros [H1 H2 H3 H4] Eb Et Em Eo. split; unfold wanted_ier, ier in *; rewrite ?Eb, ?Et, ?Em, ?Eo; done. Qed.

Lemma keyboard_interrupt_spec d : dev_ok d →
  ∃ o, keyboard_interrupt d = Ok o ∧
    match o with
    | Some d' => dev_ok d' ∧ (∃ l, Zlength l ≤ 1 ∧ contents (buffer d') = contents (buffer d) ++ l)
        ∧ txq d' = txq d ∧ sent_bytes d' = sent_bytes d ∧ ins d' = ins d
    | None => True
    end.
Proof.
  intros H.
  assert (Hsame : ∀ d', buffer d' = buffer d → txq d' = txq d → mode d' = mode d → outs d' = outs d → ins d' = ins d →
    dev_ok d' ∧ (∃ l, Zlength l ≤ 1 ∧ contents (buffer d') = contents (buffer d) ++ l) ∧ txq d' = txq d ∧ sent_bytes d' = sent_bytes d ∧ ins d' = ins d).
  { intros d' Eb Et Em Eo Ei. split; [by apply (ok_same d)|]. split; [exists []; by rewrite Eb, app_nil_r|]. unfold sent_bytes. by rewrite Eo. }
  unfold keyboard_interrupt. set (k := kbd d). unfold inb at 1.
  assert (Hrd : ∃ cd d1, (if u8 (ins d (pos d)) =? 0xe0 then let '(c, d2) := inb (Dev (buffer d) (mode d) (txq d) (kbd d) (ins d) (S (pos d)) (outs d)) 0x60 in
      (Z.lor (Z.shiftl (u8 (ins d (pos d))) 8) c, d2) else (u8 (ins d (pos d)), Dev (buffer d) (mode d) (txq d) (kbd d) (ins d) (S (pos d)) (outs d)))
    = (cd, d1) ∧ buffer d1 = buffer d ∧ txq d1 = txq d ∧ mode d1 = mode d ∧ outs d1 = outs d ∧ ins d1 = ins d).
  { destruct (_ =? 0xe0); eexists _, _; split; [reflexivity|done|reflexivity|done]. }
  destruct Hrd as (cd & d1 & -> & Eb & Et & Em & Eo & Ei). set (code := Z.land cd _). set (release := negb (Z.land cd 0x80 =? 0)).
  pose proof (Hsame d1 Eb Et Em Eo Ei) as Hd. pose proof (λ k', Hsame (set_kbd d1 k') Eb Et Em Eo Ei) as Hk.
  destruct (code =? 0x3a); [eexists; split; [done|]; destruct (negb release); [apply Hk|apply Hd]|].
  destruct (match map_key invariant_keymap code with Some c => Some c | None => _ end) as [c|]; [|eexists; split; [done|]; apply Hk].
  destruct (negb release); [|eexists; split; [done|]; apply Hd]. destruct (_ && _ && _); [by eexists|]. set (c' := if _ || _ then u8 _ else _).
  destruct (input_full d1) eqn:Ef; cbn [negb]; [eexists; split; [done|]; apply Hd|].
  destruct H as [H1 H2 H3 H4].
  destruct (input_putc_spec (set_kbd d1 (count_key k)) c') as (w & d' & -> & Hok & Ec & Et' & Es & Ei' & _); cbn [buffer txq mode set_kbd]; [by rewrite Eb|by rewrite Et|by rewrite Em|exact Ef|].
  cbn [mbind res_bind]. eexists. split; [done|]. split; [done|]. cbn [buffer txq set_kbd ins] in *. rewrite Et', Ei'. split; [|split; [done|]].
  - exists [c']. split; [done|]. by rewrite Ec, Eb.
  - split; [|done]. rewrite Es. unfold sent_bytes. cbn [outs set_kbd]. by rewrite Eo.
Qed.

Lemma input_getc_spec d : dev_ok d → contents (buffer d) ≠ [] →
  ∃ c l d', contents (buffer d) = c :: l ∧ input_getc d = Ok (c, d') ∧ dev_ok d' ∧ contents (buffer d') = l
    ∧ txq d' = txq d ∧ sent_bytes d' = sent_bytes d ∧ ins d' = ins d.
Proof.
  intros [H1 H2 H3 H4] Hne. unfold input_getc, intq_getc. rewrite empty_spec, bool_decide_eq_false_2 by done. cbn [negb].
  destruct (take_byte_spec (buffer d) H1 Hne) as (c & l & q' & Ec & -> & Q' & El & _). cbn [mbind res_bind].
  unfold serial_notify. cbn [mode set_buffer]. rewrite H3. destruct (write_ier_spec (set_buffer d q')) as [Hok Hs]; [done|done|done|].
  exists c, l, (write_ier (set_buffer d q')). done.
Qed.

(** The transmitter becomes ready within [fuel] reads of its status. *)
Definition uart_ready (fuel : nat) (r : nat → Z) : Prop := ∀ n, ∃ k, (k < fuel)%nat ∧ Z.land (u8 (r (n + k)%nat)) LSR_THRE ≠ 0.

Lemma putc_poll_spec k : ∀ fuel d c, (k < fuel)%nat → Z.land (u8 (ins d (pos d + k)%nat)) LSR_THRE ≠ 0 →
  ∃ d', putc_poll fuel d c = Ok d' ∧ buffer d' = buffer d ∧ txq d' = txq d ∧ mode d' = mode d ∧ outs d' = outs d ++ [(THR_REG, c)] ∧ ins d' = ins d.
Proof.
  induction k as [|k IH]; intros [|fuel] d c Hf Hr; try lia; cbn [putc_poll inb].
  - rewrite Nat.add_0_r in Hr. rewrite (proj2 (Z.eqb_neq _ _) Hr). by eexists.
  - destruct (Z.land _ LSR_THRE =? 0); [|by eexists]. set (d1 := Dev _ _ _ _ _ _ _).
    destruct (IH fuel d1 c) as (d' & -> & Eb & Et & Em & Eo & Ei); [lia| |by eexists].
    unfold d1. cbn [ins pos]. by replace (S (pos d) + k)%nat with (pos d + S k)%nat by lia.
Qed.

Lemma serial_putc_spec fuel junk off t d c : uart_ready fuel (ins d) → dev_ok d →
  ∃ ok d', serial_putc fuel junk off t d c = Ok (ok, d') ∧ dev_ok d' ∧ buffer d' = buffer d ∧ ins d' = ins d
    ∧ sent_bytes d' ++ contents (txq d') = sent_bytes d ++ contents (txq d) ++ (if ok : bool then [c] else []) ∧ (off = true → ok = true).
Proof.
  intros Hr H. pose proof H as [H1 H2 H3 H4]. unfold serial_putc. rewrite H3.
  assert (Hpoll : ∃ d1, (if off && intq_full (txq d) then '(c, _, q) ← intq_getc (txq d); putc_poll fuel (set_txq d q) c else Ok d) = Ok d1
    ∧ buffer d1 = buffer d ∧ queue_ok (txq d1) ∧ mode d1 = QUEUE ∧ ins d1 = ins d ∧ sent_bytes d1 ++ contents (txq d1) = sent_bytes d ++ contents (txq d)
    ∧ (off = true → intq_full (txq d1) = false) ∧ (off = false → d1 = d)).
  { destruct (off && intq_full (txq d)) eqn:Eo.
    - apply andb_true_iff in Eo as [-> Ef]. assert (Hne : contents (txq d) ≠ []).
      { rewrite full_spec in Ef by done. intros E. by rewrite E in Ef. }
      unfold intq_getc. rewrite empty_spec, bool_decide_eq_false_2 by done. cbn [negb].
      destruct (take_byte_spec (txq d) H2 Hne) as (b & l & q' & Ec & -> & Q' & El & _). cbn [mbind res_bind].
      destruct (Hr (pos d)) as (k & Hk & Hrd). destruct (putc_poll_spec k fuel (set_txq d q') b Hk Hrd) as (d1 & -> & Eb & Et & Em & Eo & Ei).
      exists d1. split; [done|]. split; [done|]. cbn [txq set_txq buffer mode ins outs] in *. split; [by rewrite Et|]. split; [by rewrite Em|]. split; [done|].
      split; [|split; [|done]].
      + unfold sent_bytes. rewrite Eo, Et, El, Ec, filter_app, filter_cons_True, filter_nil, fmap_app, <- app_assoc by done. done.
      + intros _. rewrite full_spec in Ef |- * by (by rewrite ?Et). apply Z.eqb_eq in Ef. rewrite Et, El. rewrite Ec in Ef. simpl in Ef. apply Z.eqb_neq. lia.
    - exists d. split; [done|]. split; [done|]. split; [done|]. split; [done|]. split; [done|]. split; [done|]. split; [|done]. by intros ->. }
  destruct Hpoll as (d1 & -> & Eb & Ht1 & Hm1 & Ei & Esc & Hoff & Hon). cbn [mbind res_bind].
  destruct (intq_full (txq d1)) eqn:Ef1.
  - destruct off; [by specialize (Hoff eq_refl)|]. pose proof (Hon eq_refl) as Hd1. subst d1. unfold wait_not_full. rewrite Ef1. cbn [mbind res_bind]. eexists false, _. split; [done|].
    set (q := Queue t _ _ _ _). assert (Eq : contents q = contents (txq d)) by done. split.
    { destruct H2. by split. }
    split; [done|]. split; [done|]. split; [|done]. by rewrite app_nil_r.
  - unfold intq_putc. rewrite Ef1. cbn [negb]. rewrite full_spec in Ef1 by done. apply Z.eqb_neq in Ef1.
    destruct (add_byte_spec (txq d1) c Ht1) as (q' & -> & Q' & Ec & _).
    { rewrite length_contents in * by done. pose proof (Z.mod_pos_bound (head (txq d1) - tail (txq d1)) INTQ_BUFSIZE ltac:(done)). unfold used, INTQ_BUFSIZE in *. lia. }
    cbn [mbind res_bind]. destruct (write_ier_spec (set_txq d1 q')) as [Hok Hs]; [cbn [buffer set_txq]; by rewrite Eb|done|done|].
    eexists true, _. split; [done|]. split; [done|]. split; [done|]. split; [done|]. split; [|done]. rewrite Hs. cbn [txq write_ier outb set_txq].
    rewrite Ec. change (sent_bytes (set_txq d1 q')) with (sent_bytes d1). by rewrite !app_assoc, Esc, <- app_assoc.
Qed.

(** ** Everything that happens to the devices *)

(** An interrupt of the keyboard or of the serial port, a thread that reads a key, and a thread
    that prints a byte, with interrupts off or on. *)
Inductive io_event := Key | Line | Getc | Putc (off : bool) (t byte : Z).
(** The devices, the bytes that have been accepted for output, those that have come in, and the
    keys that have been read. *)
Record io := Io { iodev : dev; accepted : list Z; arrived : list Z; read : list Z }.
Definition io_step (fuel : nat) (x : io) (e : io_event) : res io :=
  let '(Io d acc arr rd) := x in
  match e with
  | Key =>
      o ← keyboard_interrupt d;
      let d' := default d o in
      Ok (Io d' acc (arr ++ drop (length (contents (buffer d))) (contents (buffer d'))) rd)
  | Line => d' ← serial_interrupt d; Ok (Io d' acc (arr ++ received (room d) (ins d) (S (pos d))) rd)
  | Getc => if intq_empty (buffer d) then Ok x else '(c, d) ← input_getc d; Ok (Io d acc arr (rd ++ [c]))
  | Putc off t c => '(ok, d) ← serial_putc fuel [] off t d c; Ok (Io d (if ok : bool then acc ++ [c] else acc) arr rd)
  end.
Fixpoint io_steps (fuel : nat) (x : io) (es : list io_event) : res io :=
  match es with
  | [] => Ok x
  | e :: es => x ← io_step fuel x e; io_steps fuel x es
  end.

(** What is sent and queued has been accepted, and what is read and queued has come in. *)
Record io_ok (fuel : nat) (x : io) : Prop := {
  io_dev : dev_ok (iodev x);
  io_ready : uart_ready fuel (ins (iodev x));
  io_out : sent_bytes (iodev x) ++ contents (txq (iodev x)) = accepted x;
  io_in : read x ++ contents (buffer (iodev x)) = arrived x
}.

Lemma io_step_ok fuel x e : io_ok fuel x → ∃ x', io_step fuel x e = Ok x' ∧ io_ok fuel x'.
Proof.
  destruct x as [d acc arr rd]. intros [H Hr Ho Hi]. cbn [iodev accepted arrived read] in *. destruct e as [| | |off t c]; cbn [io_step].
  - destruct (keyboard_interrupt_spec d H) as (o & -> & Hk). cbn [mbind res_bind]. destruct o as [d'|]; cbn [default from_option id].
    + destruct Hk as (Hok & (l & _ & Ec) & Et & Es & Ei). eexists. split; [done|]. split; cbn [iodev accepted arrived read]; [done|by rewrite Ei|by rewrite Es, Et|].
      rewrite Ec, drop_app_length, app_assoc. by rewrite Hi.
    + eexists. split; [done|]. rewrite drop_all, app_nil_r. by split.
  - destruct (serial_interrupt_spec d H) as (d' & tx & -> & Hok & Ec & Et & Es & Ei). cbn [mbind res_bind]. eexists. split; [done|].
    split; cbn [iodev accepted arrived read]; [done|by rewrite Ei|by rewrite Es, <- Ho, Et, app_assoc|by rewrite Ec, app_assoc, Hi].
  - rewrite empty_spec by apply H. destruct (bool_decide_reflect (contents (buffer d) = [])) as [E|E]; [eexists; split; [done|]; by split|].
    destruct (input_getc_spec d H E) as (c & l & d' & Ec & -> & Hok & El & Et & Es & Ei). cbn [mbind res_bind]. eexists. split; [done|].
    split; cbn [iodev accepted arrived read]; [done|by rewrite Ei|by rewrite Es, Et|by rewrite El, <- Hi, Ec, <- app_assoc].
  - destruct (serial_putc_spec fuel [] off t d c Hr H) as (ok & d' & -> & Hok & Eb & Ei & Es & _). cbn [mbind res_bind]. eexists. split; [done|].
    split; cbn [iodev accepted arrived read]; [done|by rewrite Ei| |by rewrite Eb].
    rewrite Es, app_assoc, Ho. destruct ok; [done|by rewrite app_nil_r].
Qed.

Lemma io_steps_ok fuel es : ∀ x, io_ok fuel x → ∃ x', io_steps fuel x es = Ok x' ∧ io_ok fuel x'.
Proof.
  induction es as [|e es IH]; intros x Hx; cbn [io_steps]; [by exists x|].
  destruct (io_step_ok fuel x e Hx) as (x1 & -> & H1). cbn [mbind res_bind]. by apply IH.
Qed.


(** A port that is always ready, and the keys A, B with shift, and C; 12 is the clock divisor. *)
Definition demo_kbd : keyboard := Keyboard false false false false false false false 0.
Definition demo_ins (l : list Z) (n : nat) : Z := nth n l 0x20.
Definition demo_dev (l : list Z) : res dev :=
  serial_init_queue (replicate 64 0) (input_init (replicate 64 0) (Dev (intq_init []) UNINIT (intq_init []) demo_kbd (demo_ins l) 0 [])).

(** Every printable character of ASCII can be typed, with or without the left shift key. *)
Definition typed (shift : bool) (scancode : Z) : option Z :=
  let d := Dev (intq_init (replicate 64 0)) POLL (intq_init []) (Keyboard shift false false false false false false 0) (λ _, scancode) 0 [] in
  match keyboard_interrupt d with Ok (Some d) => hd_error (contents (buffer d)) | _ => None end.
Lemma types_ascii c : 32 ≤ c < 127 → ∃ shift scancode, typed shift scancode = Some c.
Proof.
  intros Hc. assert (E : forallb (λ c, existsb (λ k, bool_decide (typed false k = Some c) || bool_decide (typed true k = Some c)) (seqZ 1 88)) (seqZ 32 95) = true)
    by (vm_compute; reflexivity).
  rewrite forallb_forall in E. specialize (E c). rewrite existsb_exists in E. destruct E as (k & _ & E); [apply list_elem_of_In, elem_of_seqZ; lia|].
  apply orb_true_iff in E as [E|E]; apply bool_decide_eq_true in E; eauto.
Qed.

End Input.
