(* ===== verification/Vga.v ===== *)
(** * The text display, [devices/vga.c]

    The frame buffer is an array of 25 rows of 80 cells, each a character and an attribute;
    writing outside it is a fault. *)

From S2P Require Import Prelude Bitmap.

Module Vga.

Definition COL_CNT : Z := 80.
Definition ROW_CNT : Z := 25.
Definition GRAY_ON_BLACK : Z := 0x07.

(** [hw] is the position of the hardware cursor, [beeps] counts calls of [speaker_beep]. *)
Record vga := Vga { cx : Z; cy : Z; fb : list (Z * Z); inited : bool; hw : Z; beeps : Z }.
Definition set_cursor (v : vga) (x y : Z) : vga := Vga x y (fb v) (inited v) (hw v) (beeps v).
Definition set_fb (v : vga) (l : list (Z * Z)) : vga := Vga (cx v) (cy v) l (inited v) (hw v) (beeps v).

(** [fb[y][x][0] = c; fb[y][x][1] = GRAY_ON_BLACK;] *)
Definition store (v : vga) (y x c : Z) : res vga :=
  ASSERT (0 <=? y) && (y <? ROW_CNT) && (0 <=? x) && (x <? COL_CNT);;
  Ok (set_fb v (<[Z.to_nat (COL_CNT * y + x) := (u8 c, GRAY_ON_BLACK)]> (fb v))).

(** The loop of [clear_row] from column [x] on. *)
Fixpoint clear_loop (n : nat) (v : vga) (y x : Z) : res vga :=
  match n with
  | O => Ok v
  | S n => v ← store v y x 32; clear_loop n v y (x + 1)
  end.
Definition clear_row (v : vga) (y : Z) : res vga := clear_loop (Z.to_nat COL_CNT) v y 0.

(** The high byte goes to register 0x0e, the low byte to register 0x0f. *)
Definition move_cursor (v : vga) : vga :=
  let cp := u16 (cx v + COL_CNT * cy v) in
  let high := Z.lor 0x0e (Z.land cp 0xff00) in
  let low := Z.lor 0x0f (u16 (Z.shiftl cp 8)) in
  Vga (cx v) (cy v) (fb v) (inited v) (Z.lor (Z.land high 0xff00) (Z.shiftr low 8)) (beeps v).
Definition find_cursor (v : vga) : Z * Z :=
  let cp := u16 (Z.shiftl (u8 (Z.shiftr (hw v) 8)) 8) in
  let cp := Z.lor cp (u8 (hw v)) in
  (Z.rem cp COL_CNT, Z.quot cp COL_CNT).

Fixpoint cls_loop (n : nat) (v : vga) (y : Z) : res vga :=
  match n with
  | O => Ok v
  | S n => v ← clear_row v y; cls_loop n v (y + 1)
  end.
Definition cls (v : vga) : res vga :=
  v ← cls_loop (Z.to_nat ROW_CNT) v 0;
  Ok (move_cursor (set_cursor v 0 0)).

(** [memmove (&fb[0], &fb[1], sizeof fb[0] * (ROW_CNT - 1))] *)
Definition scroll (v : vga) : vga := set_fb v (splice 0 (slice COL_CNT (COL_CNT * (ROW_CNT - 1)) (fb v)) (fb v)).
Definition newline (v : vga) : res vga :=
  let v := set_cursor v 0 (cy v + 1) in
  if ROW_CNT <=? cy v then clear_row (scroll (set_cursor v (cx v) (ROW_CNT - 1))) (ROW_CNT - 1) else Ok v.

Definition init (v : vga) : vga :=
  if negb (inited v) then let '(x, y) := find_cursor v in Vga x y (fb v) true (hw v) (beeps v) else v.

Definition vga_putc (v : vga) (c : Z) : res vga :=
  let v := init v in
  v ← (if c =? 10 then newline v
       else if c =? 12 then cls v
       else if c =? 8 then Ok (if 0 <? cx v then set_cursor v (cx v - 1) (cy v) else v)
       else if c =? 13 then Ok (set_cursor v 0 (cy v))
       else if c =? 9 then
         let v := set_cursor v (ROUND_UP (cx v + 1) 8) (cy v) in
         if COL_CNT <=? cx v then newline v else Ok v
       else if c =? 7 then Ok (Vga (cx v) (cy v) (fb v) (inited v) (hw v) (beeps v + 1))
       else
         v ← store v (cy v) (cx v) c;
         let v := set_cursor v (cx v + 1) (cy v) in
         if COL_CNT <=? cx v then newline v else Ok v);
  Ok (move_cursor v).

Fixpoint vga_puts (v : vga) (l : list Z) : res vga :=
  match l with
  | [] => Ok v
  | c :: l => v ← vga_putc v c; vga_puts v l
  end.

(** ** Paper

    What a printer with endless paper would do.  The paper is all that was ever on the
    screen, at least 25 rows; the head is in one of the last 25. *)

Abbreviation row := (list (Z * Z)).
Definition blank : row := replicate (Z.to_nat COL_CNT) (32, GRAY_ON_BLACK).
Record paper := Paper { rows : list row; px : Z; py : Z }.

Definition feed (p : paper) : paper :=
  if py p + 1 <? Zlength (rows p) then Paper (rows p) 0 (py p + 1) else Paper (rows p ++ [blank]) 0 (py p + 1).
Definition type_char (p : paper) (c : Z) : paper :=
  Paper (alter (λ r, <[Z.to_nat (px p) := (u8 c, GRAY_ON_BLACK)]> r) (Z.to_nat (py p)) (rows p)) (px p + 1) (py p).
Definition wrap (p : paper) : paper := if COL_CNT <=? px p then feed p else p.
Definition print (p : paper) (c : Z) : paper :=
  if c =? 10 then feed p
  else if c =? 12 then
    let n := Zlength (rows p) - ROW_CNT in
    Paper (take (Z.to_nat n) (rows p) ++ replicate (Z.to_nat ROW_CNT) blank) 0 n
  else if c =? 8 then (if 0 <? px p then Paper (rows p) (px p - 1) (py p) else p)
  else if c =? 13 then Paper (rows p) 0 (py p)
  else if c =? 9 then wrap (Paper (rows p) ((px p / 8 + 1) * 8) (py p))
  else if c =? 7 then p
  else wrap (type_char p c).

(** The screen shows the last 25 rows. *)
Definition window (p : paper) : list row := drop (Z.to_nat (Zlength (rows p) - ROW_CNT)) (rows p).

Record shows (p : paper) (v : vga) : Prop := {
  sh_rows : Forall (λ r, length r = Z.to_nat COL_CNT) (rows p);
  sh_len : ROW_CNT ≤ Zlength (rows p);
  sh_fb : fb v = concat (window p);
  sh_x : cx v = px p ∧ 0 ≤ px p < COL_CNT;
  sh_y : py p = cy v + (Zlength (rows p) - ROW_CNT) ∧ 0 ≤ cy v < ROW_CNT;
  sh_init : inited v = true
}.

(** ** Rows of an array *)

Section rows.
Context (n : nat).
Implicit Types W : list row.

Lemma length_rows W : Forall (λ r, length r = n) W → length (concat W) = (n * length W)%nat.
Proof. induction 1 as [|r W Hr _ IH]; simpl; [lia|]. rewrite length_app, IH, Hr. lia. Qed.
Lemma drop_rows k W : Forall (λ r, length r = n) W → drop (n * k) (concat W) = concat (drop k W).
Proof.
  intros H. revert k. induction H as [|r W Hr _ IH]; intros k; [cbn [concat]; by rewrite !drop_nil|]. destruct k as [|k]; [by rewrite Nat.mul_0_r, !drop_0|].
  cbn [concat drop]. rewrite <- IH, drop_app_ge by lia. f_equal. lia.
Qed.
Lemma insert_rows c W : ∀ y x, Forall (λ r, length r = n) W → (y < length W)%nat → (x < n)%nat →
  <[(n * y + x)%nat := c]> (concat W) = concat (alter (λ r, <[x := c]> r) y W).
Proof.
  induction W as [|r W IH]; intros y x H Hy Hx; [simpl in Hy; lia|]. apply Forall_cons in H as [Hr H]. destruct y as [|y]; cbn [concat].
  - rewrite Nat.mul_0_r. cbn [Nat.add]. change (alter _ 0%nat (r :: W)) with (<[x := c]> r :: W). cbn [concat]. by rewrite insert_app_l by lia.
  - change (alter _ (S y) (r :: W)) with (r :: alter (λ r, <[x := c]> r) y W). cbn [concat].
    rewrite insert_app_r_alt by lia. f_equal. rewrite <- IH by (done || simpl in Hy; lia). f_equal. lia.
Qed.
End rows.

Lemma drop_alter {A} (f : A → A) k i (l : list A) : drop k (alter f (k + i)%nat l) = alter f i (drop k l).
Proof.
  apply list_eq. intros j. rewrite lookup_drop. destruct (decide (j = i)) as [->|Hne].
  - by rewrite !list_lookup_alter_eq, lookup_drop.
  - rewrite !list_lookup_alter_ne, lookup_drop by lia. done.
Qed.

(** ** The screen *)

Abbreviation width := (Z.to_nat COL_CNT).
Definition well_formed (W : list row) : Prop := Forall (λ r, length r = width) W ∧ length W = Z.to_nat ROW_CNT.

Lemma alter_rows (f : row → row) (W : list row) y :
  (∀ r, length r = width → length (f r) = width) → Forall (λ r, length r = width) W → Forall (λ r, length r = width) (alter f y W).
Proof. intros Hf H. apply Forall_alter; [done|]. intros r _ Hr. by apply Hf. Qed.

Lemma store_rows W v y x c : well_formed W → fb v = concat W → 0 ≤ y < ROW_CNT → 0 ≤ x < COL_CNT →
  store v y x c = Ok (set_fb v (concat (alter (λ r, <[Z.to_nat x := (u8 c, GRAY_ON_BLACK)]> r) (Z.to_nat y) W))).
Proof.
  intros [Hr Hl] Ef Hy Hx. unfold store. assert ((0 <=? y) && (y <? ROW_CNT) && (0 <=? x) && (x <? COL_CNT) = true) as -> by (zbool; lia).
  f_equal. f_equal. rewrite Ef. rewrite <- (insert_rows width) by (done || unfold COL_CNT, ROW_CNT in *; lia). f_equal. unfold COL_CNT in *. lia.
Qed.

Lemma clear_loop_rows n : ∀ W v y x, well_formed W → fb v = concat W → 0 ≤ y < ROW_CNT → 0 ≤ x → x + Z.of_nat n = COL_CNT →
  clear_loop n v y x = Ok (set_fb v (concat (alter (λ r, take (Z.to_nat x) r ++ replicate n (32, GRAY_ON_BLACK)) (Z.to_nat y) W))).
Proof.
  induction n as [|n IH]; intros W v y x HW Ef Hy Hx Hn; cbn [clear_loop].
  - assert (alter (λ r, take (Z.to_nat x) r ++ replicate 0 (32, GRAY_ON_BLACK)) (Z.to_nat y) W = W) as ->.
    { transitivity (alter id (Z.to_nat y) W); [|by apply list_alter_id]. apply list_alter_ext; [|done]. intros r Hr. simpl.
      rewrite app_nil_r. apply take_ge. destruct HW as [HW _]. rewrite Forall_lookup in HW. rewrite (HW _ _ Hr). lia. }
    rewrite <- Ef. by destruct v.
  - rewrite (store_rows W) by (done || lia). cbn [mbind res_bind]. set (W' := alter _ (Z.to_nat y) W).
    assert (HW' : well_formed W').
    { destruct HW as [H1 H2]. split; [|unfold W'; by rewrite length_alter]. apply alter_rows; [|done]. intros r. by rewrite length_insert. }
    rewrite (IH W') by (done || lia). f_equal. unfold set_fb. f_equal. f_equal. unfold W'. rewrite list_alter_alter_eq. apply list_alter_ext; [|done].
    intros r Hr. unfold compose. destruct HW as [HW _]. rewrite Forall_lookup in HW. specialize (HW _ _ Hr). simpl in HW.
    replace (Z.to_nat (x + 1)) with (S (Z.to_nat x)) by lia. rewrite u8_small by lia.
    rewrite (take_S_r _ _ (32, GRAY_ON_BLACK)) by (apply list_lookup_insert_eq; rewrite HW; lia).
    rewrite take_insert_ge, <- app_assoc by lia. done.
Qed.
Lemma clear_row_rows W v y : well_formed W → fb v = concat W → 0 ≤ y < ROW_CNT →
  clear_row v y = Ok (set_fb v (concat (<[Z.to_nat y := blank]> W))).
Proof.
  intros HW Ef Hy. unfold clear_row. rewrite (clear_loop_rows _ W) by (done || unfold COL_CNT; lia). do 3 f_equal.
  apply list_eq. intros j. destruct (decide (j = Z.to_nat y)) as [->|Hne].
  - rewrite list_lookup_alter_eq, list_lookup_insert_eq by (destruct HW as [_ ->]; unfold ROW_CNT in *; lia).
    destruct (lookup_lt_is_Some_2 W (Z.to_nat y)) as [r ->]; [destruct HW as [_ ->]; unfold ROW_CNT in *; lia|]. done.
  - by rewrite list_lookup_alter_ne, list_lookup_insert_ne.
Qed.

Lemma insert_well_formed W i r : well_formed W → length r = width → well_formed (<[i := r]> W).
Proof. intros [H1 H2] Hr. split; [by apply Forall_insert|by rewrite length_insert]. Qed.

Lemma cls_loop_rows n : ∀ W v y, well_formed W → fb v = concat W → 0 ≤ y → y + Z.of_nat n = ROW_CNT → (∀ j, (j < Z.to_nat y)%nat → W !! j = Some blank) →
  cls_loop n v y = Ok (set_fb v (concat (replicate (Z.to_nat ROW_CNT) blank))).
Proof.
  induction n as [|n IH]; intros W v y HW Ef Hy Hn Hb; cbn [cls_loop].
  - assert (W = replicate (Z.to_nat ROW_CNT) blank) as <-.
    { symmetry. apply replicate_as_Forall. destruct HW as [_ HW]. split; [done|]. apply Forall_lookup. intros j r Hj.
      rewrite Hb in Hj; [congruence|]. apply lookup_lt_Some in Hj. lia. }
    rewrite <- Ef. by destruct v.
  - rewrite (clear_row_rows W) by (done || lia). cbn [mbind res_bind]. rewrite (IH (<[Z.to_nat y := blank]> W)); [done|by apply insert_well_formed|done|lia|lia|].
    intros j Hj. destruct (decide (j = Z.to_nat y)) as [->|]; [rewrite list_lookup_insert_eq; [done|destruct HW as [_ ->]; lia]|].
    rewrite list_lookup_insert_ne by done. apply Hb. lia.
Qed.

Lemma scroll_rows W r v : well_formed (r :: W) → fb v = concat (r :: W) → ∃ r', scroll v = set_fb v (concat (W ++ [r'])) ∧ well_formed (W ++ [r']).
Proof.
  intros HW Ef. destruct HW as [HW Hl]. pose proof HW as HW0. apply Forall_cons in HW as [Hr HW]. simpl in Hl.
  destruct (lookup_lt_is_Some_2 (r :: W) 24%nat) as [r' Hr']; [simpl; unfold ROW_CNT in Hl; lia|]. exists r'.
  assert (Hd : drop 24 (r :: W) = [r']).
  { rewrite (drop_S _ _ _ Hr'). f_equal. apply drop_ge. simpl. unfold ROW_CNT in Hl. lia. }
  split.
  - unfold scroll. f_equal. unfold splice, slice. rewrite Ef. cbn [concat]. rewrite drop_app_length' by done.
    assert (Hlen : length (concat W) = Z.to_nat (COL_CNT * (ROW_CNT - 1))).
    { rewrite (length_rows width) by done. unfold COL_CNT, ROW_CNT in *. lia. }
    rewrite (take_ge (concat W)) by (rewrite Hlen; done). change (Z.to_nat 0) with O. rewrite take_0, Nat.add_0_l, Hlen. cbn [app].
    change (r ++ concat W) with (concat (r :: W)). replace (Z.to_nat (COL_CNT * (ROW_CNT - 1))) with (width * 24)%nat by (unfold COL_CNT, ROW_CNT; lia).
    rewrite (drop_rows width) by done. rewrite Hd, concat_app. done.
  - split; [|rewrite length_app; simpl; unfold ROW_CNT in *; lia]. apply Forall_app. split; [done|]. apply Forall_singleton.
    rewrite Forall_lookup in HW0. by apply (HW0 24%nat).
Qed.

(** ** The printer *)

Lemma shows_wf p v : shows p v → well_formed (window p).
Proof.
  intros [Hr Hl _ _ _ _]. split; [by apply Forall_drop|]. unfold window. rewrite length_drop. unfold ROW_CNT in *. lia.
Qed.

Lemma newline_spec p v : shows p v → ∃ v', newline v = Ok v' ∧ shows (feed p) v'.
Proof.
  intros H. pose proof (shows_wf p v H) as HW. destruct H as [Hr Hl Hf [Hx Hx'] [Hy Hy'] Hi]. unfold newline, feed. cbn [cy set_cursor].
  destruct (Z.leb_spec ROW_CNT (cy v + 1)) as [Hb|Hb].
  - rewrite (proj2 (Z.ltb_ge (py p + 1) _)) by lia. set (v1 := set_cursor _ _ _).
    destruct (window p) as [|r W] eqn:EW; [by destruct HW as [_ HW]|].
    destruct (scroll_rows W r v1 HW Hf) as (r' & -> & HW'). rewrite (clear_row_rows (W ++ [r'])) by done. eexists. split; [done|].
    assert (Hlen : length W = 24%nat) by (destruct HW as [_ HW]; simpl in HW; unfold ROW_CNT in HW; lia).
    split; cbn [rows px py].
    + apply Forall_app. split; [done|]. by apply Forall_singleton.
    + rewrite length_app. simpl. lia.
    + cbn [fb set_fb]. f_equal. replace (Z.to_nat (ROW_CNT - 1)) with (length W) by (unfold ROW_CNT; lia).
      rewrite insert_app_r_alt, Nat.sub_diag by lia. cbn [insert list_insert]. unfold window. cbn [rows]. rewrite length_app.
      replace (Z.to_nat (Z.of_nat (length (rows p) + length [blank]) - ROW_CNT)) with (S (Z.to_nat (Zlength (rows p) - ROW_CNT))) by (simpl; lia).
      rewrite drop_app_le by (unfold ROW_CNT in *; lia). f_equal. unfold window in EW.
      replace (S (Z.to_nat (Zlength (rows p) - ROW_CNT))) with (Z.to_nat (Zlength (rows p) - ROW_CNT) + 1)%nat by lia. by rewrite <- drop_drop, EW.
    + split; [done|]. done.
    + cbn [cy set_fb scroll v1 set_cursor]. rewrite length_app. simpl. unfold ROW_CNT in *. lia.
    + done.
  - rewrite (proj2 (Z.ltb_lt (py p + 1) _)) by lia. eexists. split; [done|]. split; cbn [rows px py cx cy set_cursor fb inited]; try done; lia.
Qed.

Lemma wrap_spec p v : shows (Paper (rows p) 0 (py p)) (set_cursor v 0 (cy v)) → cx v = px p → 0 ≤ px p ≤ COL_CNT →
  ∃ v', (if COL_CNT <=? cx v then newline v else Ok v) = Ok v' ∧ shows (wrap p) v'.
Proof.
  intros H Ex Hx. unfold wrap. rewrite Ex. destruct (Z.leb_spec COL_CNT (px p)).
  - destruct (newline_spec _ _ H) as (v' & E & Hs). exists v'. split; [exact E|exact Hs].
  - exists v. split; [done|]. destruct H as [Hr Hl Hf _ Hy Hi]. split; try done. split; [done|lia].
Qed.

Lemma print_spec p v c : shows p v →
  ∃ v', vga_putc v c = Ok (move_cursor v') ∧ shows (print p c) v'.
Proof.
  intros H. pose proof (shows_wf p v H) as HW. pose proof H as [Hr Hl Hf [Hx Hx'] [Hy Hy'] Hi]. unfold vga_putc, print, init. rewrite Hi. cbn [negb].
  destruct (c =? 10); [destruct (newline_spec p v H) as (v' & -> & Hs); by exists v'|].
  destruct (c =? 12).
  { unfold cls. rewrite (cls_loop_rows _ (window p)) by (done || unfold ROW_CNT; lia). cbn [mbind res_bind]. eexists. split; [done|].
    split; cbn [rows px py cx cy set_cursor move_cursor fb inited set_fb]; try done.
    - apply Forall_app. split; [by apply Forall_take|]. by apply Forall_replicate.
    - rewrite length_app, length_replicate. lia.
    - unfold window. cbn [rows]. rewrite length_app, length_take, length_replicate. rewrite drop_app_length'; [done|].
      rewrite length_take. unfold ROW_CNT in *. lia.
    - rewrite length_app, length_take, length_replicate. unfold ROW_CNT in *. lia. }
  destruct (c =? 8).
  { rewrite Hx. eexists. split; [done|]. destruct (Z.ltb_spec 0 (px p)); [|done]. split; cbn [rows px py cx cy set_cursor fb inited]; try done; lia. }
  destruct (c =? 13); [eexists; split; [done|]; split; cbn [rows px py cx cy set_cursor fb inited]; done|].
  destruct (c =? 9).
  { assert (E8 : ROUND_UP (cx v + 1) 8 = (px p / 8 + 1) * 8).
    { unfold ROUND_UP. rewrite Hx. unfold COL_CNT in *. rewrite (u32_small (px p + 1 + 8 - 1)) by lia.
      replace (px p + 1 + 8 - 1) with (px p + 1 * 8) by lia. rewrite Z.div_add by lia. apply u32_small. Z.to_euclidean_division_equations; lia. }
    destruct (wrap_spec (Paper (rows p) ((px p / 8 + 1) * 8) (py p)) (set_cursor v (ROUND_UP (cx v + 1) 8) (cy v))) as (v' & E & Hs).
    - split; cbn [rows px py cx cy set_cursor fb inited]; done.
    - done.
    - cbn [px]. unfold COL_CNT in *. Z.to_euclidean_division_equations; lia.
    - rewrite E. by exists v'. }
  destruct (c =? 7); [eexists; split; [done|]; by split|].
  rewrite (store_rows (window p)) by (done || lia). cbn [mbind res_bind].
  set (v1 := set_fb v _). destruct (wrap_spec (type_char p c) (set_cursor v1 (cx v + 1) (cy v))) as (v' & E & Hs).
  - unfold type_char. split; cbn [rows px py cx cy set_cursor fb inited]; try done.
    + apply alter_rows; [|done]. intros r. by rewrite length_insert.
    + by rewrite length_alter.
    + unfold v1. cbn [fb set_fb]. f_equal. unfold window. cbn [rows]. rewrite length_alter, Hx.
      replace (Z.to_nat (py p)) with (Z.to_nat (Zlength (rows p) - ROW_CNT) + Z.to_nat (cy v))%nat by lia. by rewrite drop_alter.
    + rewrite length_alter. done.
  - cbn [cx set_cursor px type_char]. lia.
  - cbn [px type_char]. lia.
  - unfold v1 in E. cbn [cx cy set_fb set_cursor] in E. unfold v1. cbn [cx cy set_fb set_cursor]. rewrite E. by exists v'.
Qed.

(** The hardware cursor. *)
Lemma cursor_spec v : 0 ≤ cx v < COL_CNT → 0 ≤ cy v < ROW_CNT → hw (move_cursor v) = cx v + COL_CNT * cy v.
Proof.
  intros Hx Hy. assert (E : forallb (λ cp, Z.lor (Z.land (Z.lor 0x0e (Z.land (u16 cp) 0xff00)) 0xff00) (Z.shiftr (Z.lor 0x0f (u16 (Z.shiftl (u16 cp) 8))) 8) =? cp)
    (seqZ 0 2000) = true) by (vm_compute; reflexivity).
  rewrite forallb_forall in E. unfold move_cursor. cbn [hw]. apply Z.eqb_eq, E, list_elem_of_In, elem_of_seqZ. unfold COL_CNT, ROW_CNT in *. lia.
Qed.

(** C26: the display shows the last 25 lines of what has been printed on endless paper, with lines
    broken at column 80; nothing is written outside the frame buffer, and the hardware
    cursor is where the next character will go. *)
Theorem vga_shows_paper p v l :
  shows p v → l ≠ [] →
  ∃ v', vga_puts v l = Ok v' ∧ shows (fold_left print l p) v' ∧ fb v' = concat (window (fold_left print l p)) ∧ hw v' = cx v' + COL_CNT * cy v'.
Proof.
  intros H Hl. revert p v H. induction l as [|c l IH]; intros p v H; [done|]. cbn [vga_puts fold_left].
  destruct (print_spec p v c H) as (v1 & -> & H1). cbn [mbind res_bind].
  assert (H1' : shows (print p c) (move_cursor v1)) by (destruct H1; by split).
  destruct l as [|c' l]; [|by apply IH].
  exists (move_cursor v1). split; [done|]. split; [exact H1'|]. split; [apply H1'|]. destruct H1 as [_ _ _ [Ex Hx] [_ Hy] _]. exact (cursor_spec v1 ltac:(lia) Hy).
Qed.

Definition demo_paper : paper := Paper (replicate 25 blank) 0 24.
Definition demo_vga : vga := Vga 0 24 (replicate 2000 (32, GRAY_ON_BLACK)) true 1920 0.
Lemma vga_shows_paper_witness :
  ∃ v', vga_puts demo_vga [72; 105; 10; 9; 33] = Ok v' ∧ hw v' = cx v' + COL_CNT * cy v'
    ∧ fb v' = concat (window (fold_left print [72; 105; 10; 9; 33] demo_paper))
    ∧ match vga_puts demo_vga [72; 105; 10; 9; 33] with
      | Ok v => (hw v =? 1929) && bool_decide (fb v !! 1840%nat = Some (72, GRAY_ON_BLACK)) && bool_decide (fb v !! 1928%nat = Some (33, GRAY_ON_BLACK))
      | _ => false end = true.
Proof.
  destruct (vga_shows_paper demo_paper demo_vga [72; 105; 10; 9; 33]) as (v' & E & _ & Hf & Hh).
  - split; [by apply Forall_replicate|vm_compute; congruence|vm_compute; reflexivity|split; [reflexivity|vm_compute; split; congruence]|split; [vm_compute; reflexivity|vm_compute; split; congruence]|reflexivity].
  - discriminate.
  - exists v'. split; [exact E|]. split; [exact Hh|]. split; [exact Hf|]. vm_compute. reflexivity.
Defined.

End Vga.
