(* ===== verification/Interrupt.v ===== *)
(** * Interrupts and segments, [threads/interrupt.c] and [userprog/gdt.c]

    The interrupt descriptor table, the registration of handlers, and what happens from the
    arrival of an interrupt to the return from it.  The processor reads the descriptors as
    its manual says.  Handlers are functions on the state; the addresses of the assembly
    stubs, one for each vector, are a parameter. *)

From Stdlib Require Import String.
From S2P Require Import Prelude.

(** The low bits of a word and the bits above them. *)
Lemma lor_add n a b : 0 ≤ n → 0 ≤ b < 2 ^ n → Z.lor (a * 2 ^ n) b = a * 2 ^ n + b.
Proof.
  intros Hn Hb. symmetry. apply Z.add_nocarry_lor. apply Z.bits_inj'. intros i Hi. rewrite Z.land_spec, Z.bits_0, <- Z.shiftl_mul_pow2 by lia.
  destruct (Z.ltb_spec i n); [by rewrite Z.shiftl_spec_low|]. by rewrite (testbit_above n b) by lia; rewrite andb_false_r.
Qed.

Module Interrupt.

Definition SEL_KCSEG : Z := 0x08.
Definition INTR_CNT : Z := 256.
Definition PIC0_CTRL : Z := 0x20.
Definition PIC0_DATA : Z := 0x21.
Definition PIC1_CTRL : Z := 0xa0.
Definition PIC1_DATA : Z := 0xa1.

Inductive intr_level := INTR_OFF | INTR_ON.

(** [eif] is the interrupt flag of the processor, [outs] what was written to ports, [yields] the number of
    calls of [thread_yield], and [reports] the unexpected interrupts that were printed. *)
Record intr := Intr {
  idt : list Z; intr_handlers : list Z; intr_names : list string; unexpected_cnt : list Z;
  in_external_intr : bool; yield_on_return : bool; eif : bool; outs : list (Z * Z); yields : nat; reports : list Z
}.
Definition set_if (s : intr) (b : bool) : intr :=
  Intr (idt s) (intr_handlers s) (intr_names s) (unexpected_cnt s) (in_external_intr s) (yield_on_return s) b (outs s) (yields s) (reports s).
Definition set_external (s : intr) (b : bool) : intr :=
  Intr (idt s) (intr_handlers s) (intr_names s) (unexpected_cnt s) b (yield_on_return s) (eif s) (outs s) (yields s) (reports s).
Definition set_yield (s : intr) (b : bool) : intr :=
  Intr (idt s) (intr_handlers s) (intr_names s) (unexpected_cnt s) (in_external_intr s) b (eif s) (outs s) (yields s) (reports s).
Definition outb (s : intr) (port data : Z) : intr :=
  Intr (idt s) (intr_handlers s) (intr_names s) (unexpected_cnt s) (in_external_intr s) (yield_on_return s) (eif s) (outs s ++ [(port, data)]) (yields s) (reports s).
Definition count_yield (s : intr) : intr :=
  Intr (idt s) (intr_handlers s) (intr_names s) (unexpected_cnt s) (in_external_intr s) (yield_on_return s) (eif s) (outs s) (S (yields s)) (reports s).

Definition intr_context (s : intr) : bool := in_external_intr s.
Definition intr_get_level (s : intr) : intr_level := if eif s then INTR_ON else INTR_OFF.
Definition intr_enable (s : intr) : res (intr_level * intr) := ASSERT negb (intr_context s);; Ok (intr_get_level s, set_if s true).
Definition intr_disable (s : intr) : res (intr_level * intr) := Ok (intr_get_level s, set_if s false).
Definition intr_set_level (s : intr) (l : intr_level) : res (intr_level * intr) :=
  match l with INTR_ON => intr_enable s | INTR_OFF => intr_disable s end.
Definition intr_yield_on_return (s : intr) : res intr := ASSERT intr_context s;; Ok (set_yield s true).

Definition pic_init (s : intr) : intr :=
  fold_left (λ s o, outb s o.1 o.2)
    [(PIC0_DATA, 0xff); (PIC1_DATA, 0xff);
     (PIC0_CTRL, 0x11); (PIC0_DATA, 0x20); (PIC0_DATA, 0x04); (PIC0_DATA, 0x01);
     (PIC1_CTRL, 0x11); (PIC1_DATA, 0x28); (PIC1_DATA, 0x02); (PIC1_DATA, 0x01);
     (PIC0_DATA, 0x00); (PIC1_DATA, 0x00)] s.
Definition pic_end_of_interrupt (s : intr) (irq : Z) : res intr :=
  ASSERT (0x20 <=? irq) && (irq <? 0x30);;
  let s := outb s 0x20 0x20 in
  Ok (if 0x28 <=? irq then outb s 0xa0 0x20 else s).

Definition make_gate (function dpl type : Z) : res Z :=
  ASSERT negb (function =? 0);;
  ASSERT (0 <=? dpl) && (dpl <=? 3);;
  ASSERT (0 <=? type) && (type <=? 15);;
  let e0 := Z.lor (Z.land function 0xffff) (Z.shiftl SEL_KCSEG 16) in
  let e1 := Z.lor (Z.lor (Z.lor (Z.lor (Z.land function 0xffff0000) (Z.shiftl 1 15)) (Z.shiftl dpl 13)) (Z.shiftl 0 12)) (Z.shiftl type 8) in
  Ok (Z.lor e0 (Z.shiftl e1 32)).
Definition make_intr_gate (function dpl : Z) : res Z := make_gate function dpl 14.
Definition make_trap_gate (function dpl : Z) : res Z := make_gate function dpl 15.

Section stubs.
(** [intr_stubs], and what the function at an address does. *)
Context (intr_stubs : Z → Z) (run : Z → intr → res intr).

Fixpoint idt_loop (n : nat) (i : Z) : res (list Z) :=
  match n with
  | O => Ok []
  | S n => g ← make_intr_gate (intr_stubs i) 0; l ← idt_loop n (i + 1); Ok (g :: l)
  end.
Definition exception_names : list string :=
  ["#DE Divide Error"; "#DB Debug Exception"; "NMI Interrupt"; "#BP Breakpoint Exception"; "#OF Overflow Exception";
   "#BR BOUND Range Exceeded Exception"; "#UD Invalid Opcode Exception"; "#NM Device Not Available Exception";
   "#DF Double Fault Exception"; "Coprocessor Segment Overrun"; "#TS Invalid TSS Exception"; "#NP Segment Not Present";
   "#SS Stack Fault Exception"; "#GP General Protection Exception"; "#PF Page-Fault Exception"; "unknown";
   "#MF x87 FPU Floating-Point Error"; "#AC Alignment Check Exception"; "#MC Machine-Check Exception";
   "#XF SIMD Floating-Point Exception"]%string.
Definition intr_init (s : intr) : res intr :=
  let s := pic_init s in
  l ← idt_loop (Z.to_nat INTR_CNT) 0;
  Ok (Intr l (intr_handlers s) (exception_names ++ replicate 236 "unknown"%string) (unexpected_cnt s) (in_external_intr s) (yield_on_return s)
        (eif s) (outs s) (yields s) (reports s)).

Definition register_handler (s : intr) (vec_no dpl : Z) (level : intr_level) (handler : Z) (name : string) : res intr :=
  h ← from_opt (intr_handlers s !! Z.to_nat vec_no);
  ASSERT h =? 0;;
  g ← match level with INTR_ON => make_trap_gate (intr_stubs vec_no) dpl | INTR_OFF => make_intr_gate (intr_stubs vec_no) dpl end;
  Ok (Intr (<[Z.to_nat vec_no := g]> (idt s)) (<[Z.to_nat vec_no := handler]> (intr_handlers s)) (<[Z.to_nat vec_no := name]> (intr_names s))
        (unexpected_cnt s) (in_external_intr s) (yield_on_return s) (eif s) (outs s) (yields s) (reports s)).
Definition intr_register_ext (s : intr) (vec_no handler : Z) (name : string) : res intr :=
  ASSERT (0x20 <=? vec_no) && (vec_no <=? 0x2f);;
  register_handler s vec_no 0 INTR_OFF handler name.
Definition intr_register_int (s : intr) (vec_no dpl : Z) (level : intr_level) (handler : Z) (name : string) : res intr :=
  ASSERT (vec_no <? 0x20) || (0x2f <? vec_no);;
  register_handler s vec_no dpl level handler name.

Definition unexpected_interrupt (s : intr) (vec_no : Z) : res intr :=
  c ← from_opt (unexpected_cnt s !! Z.to_nat vec_no);
  let n := u32 (c + 1) in
  Ok (Intr (idt s) (intr_handlers s) (intr_names s) (<[Z.to_nat vec_no := n]> (unexpected_cnt s)) (in_external_intr s) (yield_on_return s) (eif s)
        (outs s) (yields s) (if Z.land n (u32 (n - 1)) =? 0 then reports s ++ [vec_no] else reports s)).

Definition intr_handler (s : intr) (vec_no : Z) : res intr :=
  let external := (0x20 <=? vec_no) && (vec_no <? 0x30) in
  s ← (if external then
         ASSERT match intr_get_level s with INTR_OFF => true | INTR_ON => false end;;
         ASSERT negb (intr_context s);;
         Ok (set_yield (set_external s true) false)
       else Ok s);
  handler ← from_opt (intr_handlers s !! Z.to_nat vec_no);
  s ← (if negb (handler =? 0) then run handler s
       else if (vec_no =? 0x27) || (vec_no =? 0x2f) then Ok s
       else unexpected_interrupt s vec_no);
  if external then
    ASSERT match intr_get_level s with INTR_OFF => true | INTR_ON => false end;;
    ASSERT intr_context s;;
    s ← pic_end_of_interrupt (set_external s false) vec_no;
    Ok (if yield_on_return s then count_yield s else s)
  else Ok s.

(** ** The processor *)

Definition gate_offset (g : Z) : Z := Z.lor (Z.land g 0xffff) (Z.shiftl (Z.land (Z.shiftr g 48) 0xffff) 16).
Definition gate_selector (g : Z) : Z := Z.land (Z.shiftr g 16) 0xffff.
Definition gate_present (g : Z) : bool := Z.testbit g 47.
Definition gate_dpl (g : Z) : Z := Z.land (Z.shiftr g 45) 3.
Definition gate_type (g : Z) : Z := Z.land (Z.shiftr g 40) 0x1f.

(** The vector of the stub at an address. *)
Definition stub_at (a : Z) : option Z := List.find (λ v, intr_stubs v =? a) (seqZ 0 256).

(** An interrupt, from an [int] instruction if [software], in ring [cpl]: no result is a general
    protection fault.  An interrupt gate turns interrupts off, and the return restores the flag. *)
Definition deliver (s : intr) (vec : Z) (software : bool) (cpl : Z) : res (option intr) :=
  g ← from_opt (idt s !! Z.to_nat vec);
  if negb (gate_present g) || negb (gate_selector g =? SEL_KCSEG) then Panic else
  if software && (gate_dpl g <? cpl) then Ok None else
  v ← from_opt (stub_at (gate_offset g));
  t ← intr_handler (if gate_type g =? 14 then set_if s false else s) v;
  Ok (Some (set_if t (eif s))).

End stubs.

Lemma make_gate_spec f dpl type : 0 < f < 2 ^ 32 → 0 ≤ dpl ≤ 3 → 0 ≤ type ≤ 15 →
  ∃ g, make_gate f dpl type = Ok g ∧ gate_offset g = f ∧ gate_selector g = SEL_KCSEG ∧ gate_present g = true ∧ gate_dpl g = dpl ∧ gate_type g = type.
Proof.
  intros Hf Hd Ht. unfold make_gate. rewrite (proj2 (Z.eqb_neq f 0)), !(proj2 (Z.leb_le _ _)) by lia. cbn [negb andb].
  eexists. split; [reflexivity|]. set (hi := f / 2 ^ 16). set (lo := f mod 2 ^ 16).
  assert (Ef : f = hi * 2 ^ 16 + lo) by (unfold hi, lo; pose proof (Z.div_mod f (2 ^ 16)); lia).
  assert (Hl : 0 ≤ lo < 2 ^ 16) by (unfold lo; by apply Z.mod_pos_bound). assert (Hh : 0 ≤ hi < 2 ^ 16) by (unfold hi; Z.to_euclidean_division_equations; lia).
  assert (E0 : Z.lor (Z.land f 0xffff) (Z.shiftl SEL_KCSEG 16) = 8 * 2 ^ 16 + lo).
  { change 0xffff with (Z.ones 16). rewrite Z.land_ones by lia. fold lo. rewrite Z.lor_comm. unfold SEL_KCSEG. rewrite Z.shiftl_mul_pow2 by lia. by apply lor_add. }
  assert (E1 : Z.lor (Z.lor (Z.lor (Z.lor (Z.land f 0xffff0000) (Z.shiftl 1 15)) (Z.shiftl dpl 13)) (Z.shiftl 0 12)) (Z.shiftl type 8)
    = hi * 2 ^ 16 + (2 ^ 15 + dpl * 2 ^ 13 + type * 2 ^ 8)).
  { assert (Em : Z.land f 0xffff0000 = hi * 2 ^ 16).
    { change 0xffff0000 with (Z.shiftl (Z.ones 16) 16). rewrite Ef at 1. apply Z.bits_inj'. intros i Hi. rewrite Z.land_spec, <- (Z.shiftl_mul_pow2 hi) by lia.
      destruct (Z.ltb_spec i 16); [by rewrite !Z.shiftl_spec_low, andb_false_r by lia|]. rewrite !Z.shiftl_spec by lia. rewrite Z.shiftl_mul_pow2 by lia.
      destruct (Z.ltb_spec i 32).
      - rewrite Z.ones_spec_low, andb_true_r by lia. rewrite <- lor_add, Z.lor_spec, (testbit_above 16 lo), orb_false_r, <- Z.shiftl_mul_pow2, Z.shiftl_spec by lia. done.
      - rewrite Z.ones_spec_high, andb_false_r by lia. by rewrite (testbit_above 16 hi) by lia. }
    rewrite Em, <- !Z.lor_assoc, lor_add.
    - f_equal. assert (Hc : dpl = 0 ∨ dpl = 1 ∨ dpl = 2 ∨ dpl = 3) by lia.
      assert (Hc' : type ∈ seqZ 0 16) by (apply elem_of_seqZ; lia). change (seqZ 0 16) with [0;1;2;3;4;5;6;7;8;9;10;11;12;13;14;15] in Hc'.
      rewrite !elem_of_cons in Hc'. destruct Hc as [->|[->|[->| ->]]]; repeat (destruct Hc' as [->|Hc']; [reflexivity|]); by apply not_elem_of_nil in Hc'.
    - lia.
    - apply lor_range; [lia|by compute|]. apply lor_range; [lia|rewrite Z.shiftl_mul_pow2; lia|]. apply lor_range; [lia|by compute|rewrite Z.shiftl_mul_pow2; lia]. }
  rewrite E0, E1, Z.lor_comm, Z.shiftl_mul_pow2, lor_add by lia. set (w := _ + _).
  assert (Ew : w = ((hi * 2 + 1) * 4 + dpl) * 2 ^ 45 + type * 2 ^ 40 + 8 * 2 ^ 16 + lo) by (unfold w; lia). clearbody w.
  unfold gate_offset, gate_selector, gate_present, gate_dpl, gate_type. change 0xffff with (Z.ones 16). change 3 with (Z.ones 2). change 0x1f with (Z.ones 5).
  rewrite !Z.land_ones, !Z.shiftr_div_pow2, Z.shiftl_mul_pow2 by lia. rewrite (Z.lor_comm (w mod _)), lor_add by (try apply Z.mod_pos_bound; lia).
  split; [|split; [|split; [|split]]].
  - rewrite Ef. f_equal; [f_equal|]; rewrite Ew; clear -Hd Ht Hl Hh; Z.to_euclidean_division_equations; lia.
  - rewrite Ew. clear -Hd Ht Hl Hh. unfold SEL_KCSEG. Z.to_euclidean_division_equations; lia.
  - apply Z.testbit_true; [lia|]. rewrite Ew. clear -Hd Ht Hl Hh. Z.to_euclidean_division_equations; lia.
  - rewrite Ew. clear -Hd Ht Hl Hh. Z.to_euclidean_division_equations; lia.
  - rewrite Ew. clear -Hd Ht Hl Hh. Z.to_euclidean_division_equations; lia.
Qed.

(** ** Registrations *)

Inductive registration := Ext (vec handler : Z) (name : string) | Int (vec dpl : Z) (level : intr_level) (handler : Z) (name : string).
Definition vec_of (r : registration) : Z := match r with Ext v _ _ | Int v _ _ _ _ => v end.
Definition dpl_of (r : registration) : Z := match r with Ext _ _ _ => 0 | Int _ d _ _ _ => d end.
Definition level_of (r : registration) : intr_level := match r with Ext _ _ _ => INTR_OFF | Int _ _ l _ _ => l end.
Definition handler_of (r : registration) : Z := match r with Ext _ h _ | Int _ _ _ h _ => h end.
Definition external (vec : Z) : bool := (0x20 <=? vec) && (vec <? 0x30).
Definition find_reg (l : list registration) (vec : Z) : option registration := List.find (λ r, vec_of r =? vec) l.

(** The registrations of the exceptions, of the timer, the keyboard and the serial port, and of the system
    calls; [kill], [page_fault] and the others are the addresses of the handlers. *)
Definition exception_init (kill page_fault : Z) : list registration :=
  [Int 3 3 INTR_ON kill "#BP Breakpoint Exception"; Int 4 3 INTR_ON kill "#OF Overflow Exception";
   Int 5 3 INTR_ON kill "#BR BOUND Range Exceeded Exception";
   Int 0 0 INTR_ON kill "#DE Divide Error"; Int 1 0 INTR_ON kill "#DB Debug Exception";
   Int 6 0 INTR_ON kill "#UD Invalid Opcode Exception"; Int 7 0 INTR_ON kill "#NM Device Not Available Exception";
   Int 11 0 INTR_ON kill "#NP Segment Not Present"; Int 12 0 INTR_ON kill "#SS Stack Fault Exception";
   Int 13 0 INTR_ON kill "#GP General Protection Exception"; Int 16 0 INTR_ON kill "#MF x87 FPU Floating-Point Error";
   Int 19 0 INTR_ON kill "#XF SIMD Floating-Point Exception"; Int 14 0 INTR_OFF page_fault "#PF Page-Fault Exception"]%string.
Definition boot_registrations (timer keyboard serial kill page_fault syscall : Z) : list registration :=
  [Ext 0x20 timer "8254 Timer"; Ext 0x21 keyboard "8042 Keyboard"]%string ++ exception_init kill page_fault
  ++ [Int 0x30 3 INTR_ON syscall "syscall"; Ext 0x24 serial "serial"]%string.

Section dispatch.
Context (intr_stubs : Z → Z) (run : Z → intr → res intr).
Context (Hstubs : ∀ v, 0 ≤ v < 256 → 0 < intr_stubs v < 2 ^ 32).
Context (Hinj : ∀ v w, 0 ≤ v < 256 → 0 ≤ w < 256 → intr_stubs v = intr_stubs w → v = w).

Definition register (s : intr) (r : registration) : res intr :=
  match r with
  | Ext v h n => intr_register_ext intr_stubs s v h n
  | Int v d l h n => intr_register_int intr_stubs s v d l h n
  end.
Fixpoint register_all (s : intr) (l : list registration) : res intr :=
  match l with [] => Ok s | r :: l => s ← register s r; register_all s l end.

(** What the descriptor for [vec] says when [r] is registered for it. *)
Definition gate_for (vec : Z) (r : option registration) (g : Z) : Prop :=
  gate_offset g = intr_stubs vec ∧ gate_selector g = SEL_KCSEG ∧ gate_present g = true
  ∧ gate_dpl g = from_option dpl_of 0 r ∧ gate_type g = match from_option level_of INTR_OFF r with INTR_ON => 15 | INTR_OFF => 14 end.

(** The tables say what has been registered. *)
Record represents (s : intr) (l : list registration) : Prop := {
  rp_handlers vec : 0 ≤ vec < 256 → intr_handlers s !! Z.to_nat vec = Some (from_option handler_of 0 (find_reg l vec));
  rp_gate vec : 0 ≤ vec < 256 → ∃ g, idt s !! Z.to_nat vec = Some g ∧ gate_for vec (find_reg l vec) g;
  rp_ext r : r ∈ l → if external (vec_of r) then dpl_of r = 0 ∧ level_of r = INTR_OFF else True;
  rp_context : in_external_intr s = false
}.

Lemma stub_at_spec v : 0 ≤ v < 256 → stub_at intr_stubs (intr_stubs v) = Some v.
Proof.
  intros Hv. unfold stub_at. destruct (List.find _ (seqZ 0 256)) as [w|] eqn:E.
  - apply List.find_some in E as [Hw E]. apply list_elem_of_In, elem_of_seqZ in Hw. apply Z.eqb_eq in E. f_equal. apply Hinj; done || lia.
  - pose proof (List.find_none _ _ E v) as Hn. cbv beta in Hn. rewrite Z.eqb_refl in Hn. destruct (Bool.diff_true_false). apply Hn, list_elem_of_In, elem_of_seqZ. lia.
Qed.

Lemma idt_loop_spec n : ∀ i, 0 ≤ i → i + Z.of_nat n ≤ 256 →
  ∃ l, idt_loop intr_stubs n i = Ok l ∧ length l = n ∧ ∀ k : nat, (k < n)%nat → ∃ g, l !! k = Some g ∧ gate_for (i + Z.of_nat k) None g.
Proof.
  induction n as [|n IH]; intros i Hi Hn; cbn [idt_loop]; [exists []; split; [done|]; split; [done|lia]|].
  destruct (make_gate_spec (intr_stubs i) 0 14) as (g & Eg & H1 & H2 & H3 & H4 & H5); [apply Hstubs; lia|lia|lia|].
  unfold make_intr_gate. rewrite Eg. cbn [mbind res_bind]. destruct (IH (i + 1)) as (l & -> & Hl & Hk); [lia|lia|]. cbn [mbind res_bind].
  exists (g :: l). split; [done|]. split; [by rewrite <- Hl|]. intros [|k] Hlt; [exists g; by rewrite Z.add_0_r|].
  destruct (Hk k ltac:(lia)) as (g' & Hg' & Hf). exists g'. split; [done|]. by replace (i + Z.of_nat (S k)) with (i + 1 + Z.of_nat k) by lia.
Qed.

Lemma intr_init_spec s : intr_handlers s = replicate 256 0 → in_external_intr s = false → ∃ s', intr_init intr_stubs s = Ok s' ∧ represents s' [].
Proof.
  intros Hh Hc. unfold intr_init. destruct (idt_loop_spec 256 0) as (l & El & Hl & Hg); [lia|lia|]. change (Z.to_nat INTR_CNT) with 256%nat. rewrite El. cbn [mbind res_bind].
  eexists. split; [done|]. split; cbn [intr_handlers idt in_external_intr].
  - intros vec Hv. change (intr_handlers (pic_init s)) with (intr_handlers s). rewrite Hh, lookup_replicate_2 by lia. done.
  - intros vec Hv. destruct (Hg (Z.to_nat vec)) as (g & E & Hf); [lia|]. exists g. split; [done|]. by replace (0 + Z.of_nat (Z.to_nat vec)) with vec in Hf by lia.
  - intros r Hr. by apply not_elem_of_nil in Hr.
  - done.
Qed.

Lemma find_snoc l r vec : find_reg (l ++ [r]) vec = match find_reg l vec with Some r' => Some r' | None => if vec_of r =? vec then Some r else None end.
Proof. induction l as [|x l IH]; [done|]. unfold find_reg in *. cbn [List.find app]. by destruct (vec_of x =? vec). Qed.
Lemma find_reg_in l vec r : find_reg l vec = Some r → r ∈ l ∧ vec_of r = vec.
Proof. intros E. apply List.find_some in E as [H1 H2]. split; [by apply list_elem_of_In|by apply Z.eqb_eq]. Qed.

Lemma register_handler_spec s l r s' : represents s l → 0 ≤ vec_of r < 256 → handler_of r ≠ 0 → (∀ x, x ∈ l → handler_of x ≠ 0) →
  (if external (vec_of r) then dpl_of r = 0 ∧ level_of r = INTR_OFF else True) →
  (∃ name, register_handler intr_stubs s (vec_of r) (dpl_of r) (level_of r) (handler_of r) name = Ok s') → represents s' (l ++ [r]).
Proof.
  intros H Hv Hh Hl He (name & E). unfold register_handler in E. rewrite (rp_handlers _ _ H) in E by done. cbn [from_opt mbind res_bind] in E.
  assert (Hn : find_reg l (vec_of r) = None).
  { destruct (find_reg l (vec_of r)) as [x|] eqn:Ex; [|done]. cbn [from_option] in E. apply find_reg_in in Ex as [Hx _].
    by rewrite (proj2 (Z.eqb_neq _ 0) (Hl _ Hx)) in E. }
  rewrite Hn in E. cbn [from_option] in E. rewrite Z.eqb_refl in E. apply bind_Ok in E as (g & Eg & E). injection E as <-.
  set (ty := match level_of r with INTR_ON => 15 | INTR_OFF => 14 end).
  assert (Hg : make_gate (intr_stubs (vec_of r)) (dpl_of r) ty = Ok g) by (unfold ty; by destruct (level_of r)).
  assert (Hd : 0 ≤ dpl_of r ≤ 3).
  { unfold make_gate in Hg. destruct (negb _); [|done]. destruct (andb _ _) eqn:Ed in Hg; [|done]. apply andb_true_iff in Ed as [E1%Z.leb_le E2%Z.leb_le]. lia. }
  destruct (make_gate_spec (intr_stubs (vec_of r)) (dpl_of r) ty) as (g' & Eg' & Hf); [by apply Hstubs|done|unfold ty; by destruct (level_of r)|].
  rewrite Hg in Eg'. injection Eg' as <-. split; cbn [intr_handlers idt in_external_intr].
  - intros vec Hr. rewrite find_snoc. destruct (decide (vec = vec_of r)) as [->|Hne].
    + rewrite Hn, Z.eqb_refl. rewrite list_lookup_insert_eq; [done|]. apply lookup_lt_Some with (from_option handler_of 0 (find_reg l (vec_of r))). by apply H.
    + rewrite list_lookup_insert_ne, (rp_handlers _ _ H) by (done || lia). rewrite (proj2 (Z.eqb_neq _ _)) by done. by destruct (find_reg l vec).
  - intros vec Hr. rewrite find_snoc. destruct (decide (vec = vec_of r)) as [->|Hne].
    + rewrite Hn, Z.eqb_refl. exists g. split; [|exact Hf]. apply list_lookup_insert_eq. destruct (rp_gate _ _ H (vec_of r) Hr) as (? & Hx & _). by apply lookup_lt_Some in Hx.
    + rewrite (proj2 (Z.eqb_neq _ _)) by done. rewrite list_lookup_insert_ne by lia. destruct (rp_gate _ _ H vec Hr) as (g' & Hx & Hy). exists g'. split; [done|]. by destruct (find_reg l vec).
  - intros x Hx. apply elem_of_app in Hx as [Hx|Hx]; [by apply H|]. apply list_elem_of_singleton in Hx as ->. done.
  - apply H.
Qed.

Lemma register_spec s l r s' : represents s l → 0 ≤ vec_of r < 256 → handler_of r ≠ 0 → (∀ x, x ∈ l → handler_of x ≠ 0) →
  register s r = Ok s' → represents s' (l ++ [r]).
Proof.
  intros H Hv Hh Hl E. destruct r as [v h n|v d lv h n]; cbn [register vec_of handler_of] in *.
  - unfold intr_register_ext in E. destruct (andb _ _) eqn:Ea in E; [|done]. eapply register_handler_spec; try done; [by destruct (external _)|by exists n].
  - unfold intr_register_int in E. destruct (orb _ _) eqn:Eo in E; [|done]. eapply register_handler_spec; try done; [|by exists n].
    cbn [vec_of]. unfold external. destruct (Z.leb_spec 0x20 v), (Z.ltb_spec v 0x30); cbn [andb]; try done.
    apply orb_true_iff in Eo as [Eo%Z.ltb_lt|Eo%Z.ltb_lt]; lia.
Qed.

Lemma register_all_spec rs : ∀ s l s', represents s l → Forall (λ r, 0 ≤ vec_of r < 256 ∧ handler_of r ≠ 0) (l ++ rs) →
  register_all s rs = Ok s' → represents s' (l ++ rs).
Proof.
  induction rs as [|r rs IH]; intros s l s' H Hf E; cbn [register_all] in E; [injection E as <-; by rewrite app_nil_r|].
  apply bind_Ok in E as (s1 & E1 & E). replace (l ++ r :: rs) with ((l ++ [r]) ++ rs) in * by (by rewrite <- app_assoc).
  apply (IH s1); [|done|done]. apply Forall_app in Hf as [Hf _]. rewrite Forall_forall in Hf. apply (register_spec s l r s1); try done.
  - apply (Hf r). apply elem_of_app. right. by left.
  - apply (Hf r). apply elem_of_app. right. by left.
  - intros x Hx. apply (Hf x). apply elem_of_app. by left.
Qed.

(** ** From the interrupt to the return *)

Lemma deliver_spec s l vec software cpl : represents s l → 0 ≤ vec < 256 →
  deliver intr_stubs run s vec software cpl =
  if software && (from_option dpl_of 0 (find_reg l vec) <? cpl) then Ok None
  else t ← intr_handler run (match from_option level_of INTR_OFF (find_reg l vec) with INTR_ON => s | INTR_OFF => set_if s false end) vec;
       Ok (Some (set_if t (eif s))).
Proof.
  intros H Hv. destruct (rp_gate _ _ H vec Hv) as (g & Eg & E1 & E2 & E3 & E4 & E5). unfold deliver. rewrite Eg. cbn [from_opt mbind res_bind].
  rewrite E1, E2, E3, E4, E5, Z.eqb_refl. cbn [negb orb]. destruct (software && _); [done|]. rewrite stub_at_spec by done. cbn [from_opt mbind res_bind].
  by destruct (from_option level_of INTR_OFF (find_reg l vec)).
Qed.

(** The state in which the handler of an external interrupt runs, and the one after it. *)
Definition entered (s : intr) : intr := set_yield (set_external (set_if s false) true) false.
Definition acknowledged (t : intr) (vec : Z) : intr :=
  let t := outb (set_external t false) 0x20 0x20 in if 0x28 <=? vec then outb t 0xa0 0x20 else t.
Definition returned (t : intr) (vec : Z) (level : bool) : intr :=
  set_if (if yield_on_return t then count_yield (acknowledged t vec) else acknowledged t vec) level.

Lemma external_handler s vec h t : external vec = true → in_external_intr s = false → intr_handlers s !! Z.to_nat vec = Some h → h ≠ 0 →
  run h (entered s) = Ok t → eif t = false → in_external_intr t = true →
  (t ← intr_handler run (set_if s false) vec; Ok (Some (set_if t (eif s)))) = Ok (Some (returned t vec (eif s))).
Proof.
  intros Hx Hc Hh Hne Hr Hif Hin. unfold intr_handler. unfold external in Hx. rewrite Hx. cbn [set_if eif intr_get_level intr_context in_external_intr].
  unfold intr_get_level, intr_context. cbn [eif set_if in_external_intr]. rewrite Hc. cbn [negb mbind res_bind]. fold (entered s).
  change (intr_handlers (entered s)) with (intr_handlers s). rewrite Hh. cbn [from_opt mbind res_bind]. rewrite (proj2 (Z.eqb_neq h 0)) by done. cbn [negb].
  rewrite Hr. cbn [mbind res_bind]. rewrite Hif, Hin. unfold pic_end_of_interrupt. rewrite Hx. cbn [mbind res_bind].
  unfold returned, acknowledged. destruct (0x28 <=? vec); cbn [yield_on_return outb set_external]; by destruct (yield_on_return t).
Qed.

(** C14: interrupt dispatch.  After [intr_init] and any registrations that do not fail, an interrupt
    finds its descriptor, its stub and the handler that was registered for it.  A program in
    ring 3 can only raise interrupts that were registered for ring 3.  The handler of an external
    interrupt runs with interrupts off and [intr_context] true; when it returns, the controllers
    are told, and the thread yields exactly if the handler asked for it; the handler of an
    internal one runs with interrupts on if it was registered so and they were on before. *)
Theorem interrupt_dispatch s0 rs s vec software cpl :
  intr_handlers s0 = replicate 256 0 → in_external_intr s0 = false → Forall (λ r, 0 ≤ vec_of r < 256 ∧ handler_of r ≠ 0) rs →
  (s1 ← intr_init intr_stubs s0; register_all s1 rs) = Ok s → 0 ≤ vec < 256 →
  (deliver intr_stubs run s vec software cpl = Ok None ↔ software = true ∧ from_option dpl_of 0 (find_reg rs vec) < cpl)
  ∧ (∀ r t, find_reg rs vec = Some r → external vec = true → run (handler_of r) (entered s) = Ok t → eif t = false → in_external_intr t = true →
       deliver intr_stubs run s vec false cpl = Ok (Some (returned t vec (eif s))))
  ∧ (∀ r, find_reg rs vec = Some r → external vec = false → software = false ∨ cpl ≤ dpl_of r →
       deliver intr_stubs run s vec software cpl =
       t ← run (handler_of r) (set_if s (match level_of r with INTR_ON => eif s | INTR_OFF => false end)); Ok (Some (set_if t (eif s)))).
Proof.
  intros Hh Hc Hrs E Hv. destruct (intr_init_spec s0 Hh Hc) as (s1 & E1 & H1). rewrite E1 in E. cbn [mbind res_bind] in E.
  pose proof (register_all_spec rs s1 [] s H1 Hrs E) as H. cbn [app] in H. split; [|split].
  - rewrite (deliver_spec s rs) by done. destruct software; cbn [andb].
    + destruct (Z.ltb_spec (from_option dpl_of 0 (find_reg rs vec)) cpl); [done|]. split; [|lia]. by destruct (intr_handler _ _ _).
    + split; [|by intros [? _]]. by destruct (intr_handler _ _ _).
  - intros r t Hf Hx Hr Hif Hin. rewrite (deliver_spec s rs) by done. cbn [andb]. destruct (find_reg_in _ _ _ Hf) as [Hrin Hvec].
    pose proof (rp_ext _ _ H r Hrin) as He. rewrite Hvec, Hx in He. destruct He as [_ He]. rewrite Hf. cbn [from_option]. rewrite He.
    apply (external_handler s vec (handler_of r)); try done; [apply H|rewrite (rp_handlers _ _ H), Hf by done; done|].
    rewrite Forall_forall in Hrs. by apply Hrs.
  - intros r Hf Hx Hsw. rewrite (deliver_spec s rs) by done. rewrite Hf. cbn [from_option].
    assert (software && (dpl_of r <? cpl) = false) as ->.
    { destruct Hsw as [->|Hle]; [done|]. rewrite (proj2 (Z.ltb_ge _ _)) by done. apply andb_false_r. }
    assert (Hhr : ∀ b, intr_handler run (set_if s b) vec = run (handler_of r) (set_if s b)).
    { intros b. unfold intr_handler. unfold external in Hx. rewrite Hx. cbn [mbind res_bind]. change (intr_handlers (set_if s b)) with (intr_handlers s).
      rewrite (rp_handlers _ _ H), Hf by done. cbn [from_opt from_option mbind res_bind]. destruct (find_reg_in _ _ _ Hf) as [Hrin _]. rewrite Forall_forall in Hrs.
      rewrite (proj2 (Z.eqb_neq _ 0)) by (by apply Hrs). cbn [negb]. by destruct (run _ _). }
    destruct (level_of r); [by rewrite Hhr|]. replace s with (set_if s (eif s)) at 1 by (by destruct s). by rewrite Hhr.
Qed.

End dispatch.

(** The registrations of the kernel; the timer asks for a yield. *)
Definition demo_stubs (v : Z) : Z := 0xc0021000 + 16 * v.
Definition demo_run (h : Z) (s : intr) : res intr := if h =? 1 then intr_yield_on_return s else Ok s.
Definition demo_boot : intr := Intr [] (replicate 256 0) [] (replicate 256 0) false false true [] 0 [].
Definition demo_regs : list registration := boot_registrations 1 2 3 4 5 6.
Lemma interrupt_dispatch_witness :
  ∃ s, (s1 ← intr_init demo_stubs demo_boot; register_all demo_stubs s1 demo_regs) = Ok s
    ∧ deliver demo_stubs demo_run s 0x20 true 3 = Ok None
    ∧ (∃ t, deliver demo_stubs demo_run s 0x20 false 3 = Ok (Some (returned t 0x20 true)) ∧ yield_on_return t = true)
    ∧ deliver demo_stubs demo_run s 0x30 true 3 ≠ Ok None.
Proof.
  assert (Hs : ∀ v, 0 ≤ v < 256 → 0 < demo_stubs v < 2 ^ 32) by (intros v Hv; unfold demo_stubs; lia).
  assert (Hi : ∀ v w, 0 ≤ v < 256 → 0 ≤ w < 256 → demo_stubs v = demo_stubs w → v = w) by (intros v w Hv Hw; unfold demo_stubs; lia).
  assert (Hr : Forall (λ r, 0 ≤ vec_of r < 256 ∧ handler_of r ≠ 0) demo_regs) by (repeat (apply List.Forall_cons; [cbn; lia|]); constructor).
  assert (Hb : match (s1 ← intr_init demo_stubs demo_boot; register_all demo_stubs s1 demo_regs) with Ok s => eif s | _ => false end = true) by (vm_compute; reflexivity).
  destruct (s1 ← intr_init demo_stubs demo_boot; register_all demo_stubs s1 demo_regs) as [s| |] eqn:E; [|discriminate Hb..].
  exists s. split; [reflexivity|].
  destruct (interrupt_dispatch demo_stubs demo_run Hs Hi demo_boot demo_regs s 0x20 true 3 eq_refl eq_refl Hr E ltac:(lia)) as (H1 & H2 & _).
  destruct (interrupt_dispatch demo_stubs demo_run Hs Hi demo_boot demo_regs s 0x30 true 3 eq_refl eq_refl Hr E ltac:(lia)) as (H3 & _).
  split; [apply H1; split; [reflexivity|vm_compute; reflexivity]|]. split.
  - exists (set_yield (entered s) true). split; [|reflexivity].
    pose proof (H2 (Ext 0x20 1 "8254 Timer") (set_yield (entered s) true) eq_refl eq_refl eq_refl eq_refl eq_refl) as E20. rewrite Hb in E20. exact E20.
  - intros H. apply H3 in H as [_ H]. vm_compute in H. discriminate H.
Defined.

(** ** Unexpected interrupts *)

Fixpoint unexpected (n : nat) (s : intr) (vec : Z) : res intr :=
  match n with O => Ok s | S n => s ← unexpected_interrupt s vec; unexpected n s vec end.

Lemma power_of_2 n : 0 < n < 2 ^ 32 → Z.land n (u32 (n - 1)) = 0 ↔ Z.log2 (n - 1) < Z.log2 n ∨ n = 1.
Proof.
  intros Hn. rewrite u32_small by lia. set (k := Z.log2 n). pose proof (Z.log2_spec n ltac:(lia)) as Hk. fold k in Hk. assert (0 ≤ k) by apply Z.log2_nonneg.
  destruct (decide (n = 2 ^ k)) as [En|En].
  - split.
    + intros _. destruct (decide (k = 0)) as [E|]; [right; by rewrite En, E|]. left. apply Z.log2_lt_pow2; [|lia].
      assert (2 ^ 1 ≤ 2 ^ k) by (apply Z.pow_le_mono_r; lia). lia.
    + intros _. rewrite En. replace (2 ^ k - 1) with (Z.ones k) by (by rewrite Z.ones_equiv). rewrite Z.land_ones by done. by apply Z.mod_same, Z.pow_nonzero.
  - assert (Hl : Z.log2 (n - 1) = k) by (apply Z.log2_unique; [done|]; lia). split.
    + intros H0. exfalso. assert (Hb : Z.testbit (Z.land n (n - 1)) k = true); [|by rewrite H0, Z.bits_0 in Hb].
      rewrite Z.land_spec. unfold k at 1. rewrite Z.bit_log2 by lia. rewrite <- Hl. apply Z.bit_log2. lia.
    + intros [H0| ->]; [lia|]. by destruct En.
Qed.

(** The first [n] unexpected interrupts of a kind give rise to [log2 n + 1] messages. *)
Lemma unexpected_reports n s vec : 0 < Z.of_nat n < 2 ^ 32 → 0 ≤ vec → unexpected_cnt s !! Z.to_nat vec = Some 0 →
  ∃ s', unexpected n s vec = Ok s' ∧ Zlength (reports s') = Zlength (reports s) + Z.log2 (Z.of_nat n) + 1.
Proof.
  intros Hn Hv Hc.
  assert (Hgen : ∀ k s c, unexpected_cnt s !! Z.to_nat vec = Some c → 0 ≤ c → c + Z.of_nat k < 2 ^ 32 → ∃ s', unexpected k s vec = Ok s'
    ∧ Zlength (reports s') + (if c =? 0 then 0 else Z.log2 c + 1) = Zlength (reports s) + (if c + Z.of_nat k =? 0 then 0 else Z.log2 (c + Z.of_nat k) + 1)).
  { clear. induction k as [|k IH]; intros s c Hc H0 Hk; cbn [unexpected]; [exists s; by rewrite Z.add_0_r|].
    unfold unexpected_interrupt. rewrite Hc. cbn [from_opt mbind res_bind]. rewrite u32_small by lia. set (s1 := Intr _ _ _ _ _ _ _ _ _ _).
    destruct (IH s1 (c + 1)) as (s' & -> & E); [unfold s1; cbn [unexpected_cnt]; apply list_lookup_insert_eq; by apply lookup_lt_Some in Hc|lia|lia|].
    exists s'. split; [done|]. replace (c + Z.of_nat (S k)) with (c + 1 + Z.of_nat k) by lia. rewrite (proj2 (Z.eqb_neq (c + 1) 0)) in E by lia.
    assert (Er : Zlength (reports s1) = Zlength (reports s) + if Z.land (c + 1) (u32 (c + 1 - 1)) =? 0 then 1 else 0).
    { unfold s1. cbn [reports]. destruct (_ =? 0); [rewrite length_app; simpl; lia|lia]. }
    pose proof (power_of_2 (c + 1) ltac:(lia)) as Hp. replace (c + 1 - 1) with c in Hp by lia. destruct (Z.eqb_spec (Z.land (c + 1) (u32 c)) 0) as [Ep|Ep]; replace (c + 1 - 1) with c in Er by lia.
    - rewrite Ep in Er. cbn [Z.eqb] in Er. apply Hp in Ep as [Hlt|H1].
      + pose proof (Z.log2_succ_le c). replace (Z.succ c) with (c + 1) in * by lia. destruct (Z.eqb_spec c 0) as [->|]; [done|]. lia.
      + assert (c = 0) as -> by lia. change (Z.log2 (0 + 1)) with 0 in E. change (0 =? 0) with true in *. cbv iota in *. lia.
    - rewrite (proj2 (Z.eqb_neq _ 0) Ep) in Er. destruct (Z.eqb_spec c 0) as [->|]; [by destruct Ep|].
      assert (Z.log2 (c + 1) = Z.log2 c); [|lia]. pose proof (Z.log2_le_mono c (c + 1)). destruct (decide (Z.log2 c < Z.log2 (c + 1))); [by destruct Ep; apply Hp; left|lia]. }
  destruct (Hgen n s 0 Hc) as (s' & E & Hr); [lia|lia|]. exists s'. split; [done|]. rewrite Z.eqb_refl, (proj2 (Z.eqb_neq (0 + Z.of_nat n) 0)) in Hr by lia. rewrite Z.add_0_l in Hr. lia.
Qed.

End Interrupt.

(** ** Segments *)

Module Gdt.

Definition SEL_UCSEG : Z := 0x1b.
Definition SEL_UDSEG : Z := 0x23.
Definition SEL_TSS : Z := 0x28.

Definition make_seg_desc (base limit class type dpl granularity : Z) : res Z :=
  ASSERT limit <=? 0xfffff;;
  ASSERT (class =? 0) || (class =? 1);;
  ASSERT (0 <=? type) && (type <=? 15);;
  ASSERT (0 <=? dpl) && (dpl <=? 3);;
  ASSERT (granularity =? 0) || (granularity =? 1);;
  let e0 := Z.lor (Z.land limit 0xffff) (u32 (Z.shiftl base 16)) in
  let e1 := Z.lor (Z.lor (Z.lor (Z.lor (Z.lor (Z.lor (Z.lor (Z.lor
              (Z.land (Z.shiftr base 16) 0xff) (Z.shiftl type 8)) (Z.shiftl class 12)) (Z.shiftl dpl 13)) (Z.shiftl 1 15))
              (Z.land limit 0xf0000)) (Z.shiftl 1 22)) (Z.shiftl granularity 23)) (Z.land base 0xff000000) in
  Ok (Z.lor e0 (Z.shiftl e1 32)).
Definition make_code_desc (dpl : Z) : res Z := make_seg_desc 0 0xfffff 1 10 dpl 1.
Definition make_data_desc (dpl : Z) : res Z := make_seg_desc 0 0xfffff 1 2 dpl 1.
Definition make_tss_desc (laddr : Z) : res Z := make_seg_desc laddr 0x67 0 9 0 0.

(** The table, by the index of the selector; [tss] is what [tss_get] returns. *)
Definition gdt_init (tss : Z) : res (list Z) :=
  kc ← make_code_desc 0;
  kd ← make_data_desc 0;
  uc ← make_code_desc 3;
  ud ← make_data_desc 3;
  t ← make_tss_desc tss;
  Ok [0; kc; kd; uc; ud; t].

(** The processor's reading of a descriptor. *)
Definition seg_base (d : Z) : Z := Z.lor (Z.land (Z.shiftr d 16) 0xffffff) (Z.shiftl (Z.land (Z.shiftr d 56) 0xff) 24).
Definition seg_limit (d : Z) : Z := Z.lor (Z.land d 0xffff) (Z.shiftl (Z.land (Z.shiftr d 48) 0xf) 16).
Definition seg_type (d : Z) : Z := Z.land (Z.shiftr d 40) 0x1f.
Definition seg_dpl (d : Z) : Z := Z.land (Z.shiftr d 45) 3.
Definition seg_present (d : Z) : bool := Z.testbit d 47.
(** The highest offset in the segment. *)
Definition seg_end (d : Z) : Z := if Z.testbit d 55 then seg_limit d * 4096 + 4095 else seg_limit d.

Lemma make_seg_desc_value base limit class type dpl gran :
  0 ≤ base < 2 ^ 32 → 0 ≤ limit ≤ 0xfffff → class = 0 ∨ class = 1 → 0 ≤ type ≤ 15 → 0 ≤ dpl ≤ 3 → gran = 0 ∨ gran = 1 →
  make_seg_desc base limit class type dpl gran =
  Ok (((((((((base / 2 ^ 24 * 2 + gran) * 2 + 1) * 2 ^ 6 + limit / 2 ^ 16) * 2 + 1) * 4 + dpl) * 2 + class) * 2 ^ 4 + type) * 2 ^ 8 + base / 2 ^ 16 mod 2 ^ 8) * 2 ^ 32
      + (base mod 2 ^ 16 * 2 ^ 16 + limit mod 2 ^ 16)).
Proof.
  intros Hb Hl Hc Ht Hd Hg. unfold make_seg_desc. rewrite !(proj2 (Z.leb_le _ _)) by lia.
  assert ((class =? 0) || (class =? 1) = true) as -> by (by destruct Hc as [->| ->]). assert ((gran =? 0) || (gran =? 1) = true) as -> by (by destruct Hg as [->| ->]). cbn [andb].
  f_equal. rewrite Z.lor_comm. rewrite Z.shiftl_mul_pow2 by lia.
  set (b3 := base / 2 ^ 24). set (b2 := base / 2 ^ 16 mod 2 ^ 8). set (b1 := base mod 2 ^ 16). set (l2 := limit / 2 ^ 16). set (l1 := limit mod 2 ^ 16).
  assert (R : 0 ≤ b3 < 2 ^ 8 ∧ 0 ≤ b2 < 2 ^ 8 ∧ 0 ≤ b1 < 2 ^ 16 ∧ 0 ≤ l2 < 2 ^ 4 ∧ 0 ≤ l1 < 2 ^ 16 ∧ base = (b3 * 2 ^ 8 + b2) * 2 ^ 16 + b1 ∧ limit = l2 * 2 ^ 16 + l1).
  { unfold b3, b2, b1, l2, l1. Z.to_euclidean_division_equations; lia. }
  assert (E0 : Z.lor (Z.land limit 0xffff) (u32 (Z.shiftl base 16)) = b1 * 2 ^ 16 + l1).
  { change 0xffff with (Z.ones 16). rewrite Z.land_ones, Z.lor_comm, Z.shiftl_mul_pow2 by lia. fold l1. rewrite (u32_wrap (- (b3 * 2 ^ 8 + b2))) by lia.
    replace (base * 2 ^ 16 + _) with (b1 * 2 ^ 16) by lia. apply lor_add; lia. }
  assert (E1 : Z.lor (Z.lor (Z.lor (Z.lor (Z.lor (Z.lor (Z.lor (Z.lor
              (Z.land (Z.shiftr base 16) 0xff) (Z.shiftl type 8)) (Z.shiftl class 12)) (Z.shiftl dpl 13)) (Z.shiftl 1 15))
              (Z.land limit 0xf0000)) (Z.shiftl 1 22)) (Z.shiftl gran 23)) (Z.land base 0xff000000)
    = Z.lor (b3 * 2 ^ 24) (Z.lor (gran * 2 ^ 23) (Z.lor (1 * 2 ^ 22) (Z.lor (l2 * 2 ^ 16) (Z.lor (1 * 2 ^ 15) (Z.lor (dpl * 2 ^ 13) (Z.lor (class * 2 ^ 12) (Z.lor (type * 2 ^ 8) b2)))))))).
  { assert (Hh : ∀ x n k h, 0 ≤ n → 0 ≤ k → 0 ≤ x < 2 ^ (n + k) → h = x / 2 ^ n → Z.land x (Z.shiftl (Z.ones k) n) = h * 2 ^ n).
    { intros x n k h Hn Hk Hx ->. rewrite <- Z.shiftl_mul_pow2, <- Z.shiftr_div_pow2 by lia. apply Z.bits_inj'. intros i Hi. rewrite Z.land_spec.
      destruct (Z.ltb_spec i n); [by rewrite !Z.shiftl_spec_low, andb_false_r by lia|]. rewrite !Z.shiftl_spec, Z.shiftr_spec by lia. replace (i - n + n) with i by lia.
      destruct (Z.ltb_spec (i - n) k); [by rewrite Z.ones_spec_low, andb_true_r by lia|]. rewrite (testbit_above (n + k) x) by lia. done. }
    change 0xf0000 with (Z.shiftl (Z.ones 4) 16). change 0xff000000 with (Z.shiftl (Z.ones 8) 24). change 0xff with (Z.ones 8).
    rewrite (Hh limit 16 4 l2), (Hh base 24 8 b3) by (done || lia). rewrite Z.land_ones, Z.shiftr_div_pow2, !Z.shiftl_mul_pow2 by lia. fold b2.
    apply Z.bits_inj'. intros i _. rewrite !Z.lor_spec. clear.
    generalize (Z.testbit b2 i) (Z.testbit (type * 2 ^ 8) i) (Z.testbit (class * 2 ^ 12) i) (Z.testbit (dpl * 2 ^ 13) i) (Z.testbit (1 * 2 ^ 15) i)
      (Z.testbit (l2 * 2 ^ 16) i) (Z.testbit (1 * 2 ^ 22) i) (Z.testbit (gran * 2 ^ 23) i) (Z.testbit (b3 * 2 ^ 24) i). by repeat intros []. }
  rewrite E0, E1. clear E0 E1. assert (0 ≤ class ≤ 1 ∧ 0 ≤ gran ≤ 1) by lia.
  rewrite (lor_add 8 type), (lor_add 12 class), (lor_add 13 dpl), (lor_add 15 1), (lor_add 16 l2), (lor_add 22 1), (lor_add 23 gran), (lor_add 24 b3) by lia.
  rewrite lor_add by lia. lia.
Qed.

Lemma make_seg_desc_spec base limit class type dpl gran :
  0 ≤ base < 2 ^ 32 → 0 ≤ limit ≤ 0xfffff → class = 0 ∨ class = 1 → 0 ≤ type ≤ 15 → 0 ≤ dpl ≤ 3 → gran = 0 ∨ gran = 1 →
  ∃ d, make_seg_desc base limit class type dpl gran = Ok d ∧ seg_base d = base ∧ seg_limit d = limit ∧ seg_type d = class * 16 + type ∧ seg_dpl d = dpl
    ∧ seg_present d = true ∧ Z.testbit d 55 = (gran =? 1).
Proof.
  intros Hb Hl Hc Ht Hd Hg. eexists. split; [by apply make_seg_desc_value|]. set (d := _ + _).
  set (b3 := base / 2 ^ 24). set (b2 := base / 2 ^ 16 mod 2 ^ 8). set (b1 := base mod 2 ^ 16). set (l2 := limit / 2 ^ 16). set (l1 := limit mod 2 ^ 16).
  assert (R : 0 ≤ b3 < 2 ^ 8 ∧ 0 ≤ b2 < 2 ^ 8 ∧ 0 ≤ b1 < 2 ^ 16 ∧ 0 ≤ l2 < 2 ^ 4 ∧ 0 ≤ l1 < 2 ^ 16 ∧ base = (b3 * 2 ^ 8 + b2) * 2 ^ 16 + b1 ∧ limit = l2 * 2 ^ 16 + l1).
  { unfold b3, b2, b1, l2, l1. Z.to_euclidean_division_equations; lia. }
  assert (Ed : d = ((((((((b3 * 2 + gran) * 2 + 1) * 2 ^ 6 + l2) * 2 + 1) * 4 + dpl) * 2 + class) * 2 ^ 4 + type) * 2 ^ 8 + b2) * 2 ^ 32 + (b1 * 2 ^ 16 + l1)) by reflexivity.
  clearbody d b3 b2 b1 l2 l1. assert (0 ≤ class ≤ 1 ∧ 0 ≤ gran ≤ 1) by lia. unfold seg_base, seg_limit, seg_type, seg_dpl, seg_present.
  change 0xffffff with (Z.ones 24). change 0xffff with (Z.ones 16). change 0xff with (Z.ones 8). change 0xf with (Z.ones 4). change 0x1f with (Z.ones 5). change 3 with (Z.ones 2).
  rewrite !Z.land_ones, !Z.shiftr_div_pow2, !Z.shiftl_mul_pow2 by lia.
  rewrite (Z.lor_comm (d / 2 ^ 16 mod _)), (Z.lor_comm (d mod _)), !lor_add by (try apply Z.mod_pos_bound; lia).
  split_and!.
  - destruct R as (R1 & R2 & R3 & R4 & R5 & -> & _). subst d. clear Hb Hl. Z.to_euclidean_division_equations; lia.
  - destruct R as (R1 & R2 & R3 & R4 & R5 & _ & ->). subst d. clear Hb Hl. Z.to_euclidean_division_equations; lia.
  - subst d. clear Hb Hl. Z.to_euclidean_division_equations; lia.
  - subst d. clear Hb Hl. Z.to_euclidean_division_equations; lia.
  - apply Z.testbit_true; [lia|]. subst d. clear Hb Hl. Z.to_euclidean_division_equations; lia.
  - destruct Hg as [->| ->]; [apply Z.testbit_false; [lia|]|apply Z.testbit_true; [lia|]]; subst d; clear Hb Hl; Z.to_euclidean_division_equations; lia.
Qed.

(** The segments of the kernel and of user programs cover all 4 GB, and the selectors of user
    programs lead to descriptors of ring 3; the task state segment is the one of [tss]. *)
Lemma gdt_init_spec tss : 0 ≤ tss < 2 ^ 32 →
  ∃ kc kd uc ud t, gdt_init tss = Ok [0; kc; kd; uc; ud; t]
    ∧ (∀ d, d ∈ [kc; kd; uc; ud] → seg_base d = 0 ∧ seg_end d = 2 ^ 32 - 1 ∧ seg_present d = true)
    ∧ seg_dpl kc = 0 ∧ seg_dpl kd = 0 ∧ seg_dpl uc = 3 ∧ seg_dpl ud = 3 ∧ Z.land SEL_UCSEG 3 = 3 ∧ Z.land SEL_UDSEG 3 = 3
    ∧ seg_base t = tss ∧ seg_end t = 0x67 ∧ seg_type t = 9.
Proof.
  intros Ht. unfold gdt_init. destruct (make_seg_desc_spec tss 0x67 0 9 0 0) as (t & Et & H1 & H2 & H3 & _ & _ & H4); [lia..|].
  unfold make_tss_desc. rewrite Et. eexists _, _, _, _, t. split; [reflexivity|]. split; [|repeat (split; [reflexivity|])].
  - intros d Hd. rewrite !elem_of_cons in Hd. destruct Hd as [->|[->|[->|[->|Hd]]]]; [split; [|split]; vm_compute; reflexivity..|by apply not_elem_of_nil in Hd].
  - unfold seg_end. rewrite H4, H2. done.
Qed.

End Gdt.
