(* ===== verification/Vaddr.v ===== *)
(** * Virtual addresses and page table entries, [threads/vaddr.h], [threads/pte.h]

    Addresses are 32-bit unsigned integers. *)

From S2P Require Import Prelude.

Definition BITMASK (SHIFT CNT : Z) : Z :=
  u32 (Z.shiftl (u32 (u32 (Z.shiftl 1 CNT) - 1)) SHIFT).
Definition PGSHIFT : Z := 0.
Definition PGBITS : Z := 12.
Definition PGSIZE : Z := 4096.
Definition PGMASK : Z := BITMASK PGSHIFT PGBITS.

Definition pg_ofs (va : Z) : Z := Z.land va PGMASK.
Definition pg_no (va : Z) : Z := Z.shiftr va PGBITS.
Definition pg_round_up (va : Z) : Z := Z.land (u32 (va + PGSIZE - 1)) (u32 (Z.lnot PGMASK)).
Definition pg_round_down (va : Z) : Z := Z.land va (u32 (Z.lnot PGMASK)).

Definition PHYS_BASE : Z := 0xc0000000.
Definition is_user_vaddr (vaddr : Z) : bool := vaddr <? PHYS_BASE.
Definition is_kernel_vaddr (vaddr : Z) : bool := PHYS_BASE <=? vaddr.
Definition ptov (paddr : Z) : res Z :=
  ASSERT paddr <? PHYS_BASE;; Ok (u32 (paddr + PHYS_BASE)).
Definition vtop (vaddr : Z) : res Z :=
  ASSERT is_kernel_vaddr vaddr;; Ok (u32 (vaddr - PHYS_BASE)).

Definition PTSHIFT : Z := PGBITS.
Definition PTBITS : Z := 10.
Definition PTMASK : Z := BITMASK PTSHIFT PTBITS.
Definition PDSHIFT : Z := PTSHIFT + PTBITS.
Definition pt_no (va : Z) : Z := Z.shiftr (Z.land va PTMASK) PTSHIFT.
Definition pd_no (va : Z) : Z := Z.shiftr va PDSHIFT.

Definition PTE_FLAGS : Z := 0xfff.
Definition PTE_ADDR : Z := 0xfffff000.
Definition PTE_P : Z := 0x1.
Definition PTE_W : Z := 0x2.
Definition PTE_U : Z := 0x4.
Definition PTE_A : Z := 0x20.
Definition PTE_D : Z := 0x40.

Definition pde_create (pt : Z) : res Z :=
  ASSERT pg_ofs pt =? 0;;
  p ← vtop pt; Ok (Z.lor (Z.lor (Z.lor p PTE_U) PTE_P) PTE_W).
Definition pde_get_pt (pde : Z) : res Z :=
  ASSERT negb (Z.land pde PTE_P =? 0);; ptov (Z.land pde PTE_ADDR).
Definition pte_create_kernel (page : Z) (writable : bool) : res Z :=
  ASSERT pg_ofs page =? 0;;
  p ← vtop page; Ok (Z.lor (Z.lor p PTE_P) (if writable then PTE_W else 0)).
Definition pte_create_user (page : Z) (writable : bool) : res Z :=
  p ← pte_create_kernel page writable; Ok (Z.lor p PTE_U).
Definition pte_get_page (pte : Z) : res Z := ptov (Z.land pte PTE_ADDR).

(** ** The arithmetic of pages *)

Lemma pg_ofs_mod va : pg_ofs va = va mod PGSIZE.
Proof. unfold pg_ofs. change PGMASK with (Z.ones 12). by rewrite Z.land_ones by lia. Qed.
Lemma pg_no_div va : pg_no va = va / PGSIZE.
Proof. unfold pg_no, PGBITS. by rewrite Z.shiftr_div_pow2 by lia. Qed.

(** Clearing the low [n] bits of a 32-bit word. *)
Lemma land_high n a :
  0 ≤ n ≤ 32 → 0 ≤ a < 2 ^ 32 → Z.land a (2 ^ 32 - 2 ^ n) = a / 2 ^ n * 2 ^ n.
Proof.
  intros Hn Ha. rewrite <- Z.shiftl_mul_pow2, <- Z.shiftr_div_pow2 by lia.
  replace (2 ^ 32 - 2 ^ n) with (Z.shiftl (Z.ones (32 - n)) n).
  2:{ rewrite Z.shiftl_mul_pow2, Z.ones_equiv by lia.
      replace (2 ^ 32) with (2 ^ (32 - n) * 2 ^ n)
        by (rewrite <- Z.pow_add_r by lia; f_equal; lia). lia. }
  apply Z.bits_inj'. intros k Hk. rewrite Z.land_spec, !Z.shiftl_spec by lia.
  destruct (Z.ltb_spec k n).
  - rewrite !(Z.testbit_neg_r _ (k - n)) by lia. apply andb_false_r.
  - rewrite Z.shiftr_spec by lia. replace (k - n + n) with k by lia.
    destruct (Z.ltb_spec k 32).
    + rewrite Z.ones_spec_low by lia. apply andb_true_r.
    + by rewrite (testbit_above 32) by lia.
Qed.

Lemma pg_round_down_spec va : 0 ≤ va < 2 ^ 32 → pg_round_down va = va - va mod PGSIZE.
Proof.
  intros Hva. unfold pg_round_down. change (u32 (Z.lnot PGMASK)) with (2 ^ 32 - 2 ^ 12).
  rewrite land_high by lia. unfold PGSIZE. change (2 ^ 12) with 4096.
  pose proof (Z.div_mod va 4096). lia.
Qed.
Lemma pg_round_down_split va :
  0 ≤ va < 2 ^ 32 → va = pg_round_down va + pg_ofs va ∧ pg_ofs (pg_round_down va) = 0
    ∧ 0 ≤ pg_ofs va < PGSIZE ∧ 0 ≤ pg_round_down va ≤ va.
Proof.
  intros Hva. rewrite pg_round_down_spec, !pg_ofs_mod by done.
  unfold PGSIZE. pose proof (Z.mod_pos_bound va 4096). pose proof (Z.mod_le va 4096).
  assert ((va - va mod 4096) mod 4096 = 0) by (by rewrite Zminus_mod, Z.mod_mod, Z.sub_diag).
  lia.
Qed.
Lemma pg_round_up_spec va :
  0 ≤ va ≤ 2 ^ 32 - PGSIZE →
  pg_ofs (pg_round_up va) = 0 ∧ va ≤ pg_round_up va < va + PGSIZE.
Proof.
  unfold PGSIZE. intros Hva. unfold pg_round_up, PGSIZE. rewrite u32_small by lia.
  change (Z.land (va + 4096 - 1) (u32 (Z.lnot PGMASK))) with (pg_round_down (va + 4096 - 1)).
  destruct (pg_round_down_split (va + 4096 - 1)) as (H1 & H2 & H3 & H4); [lia|].
  unfold PGSIZE in *. lia.
Qed.
(** Above the last page boundary the rounding wraps around to zero. *)
Lemma pg_round_up_wrap va : 2 ^ 32 - PGSIZE < va < 2 ^ 32 → pg_round_up va = 0.
Proof.
  unfold PGSIZE. intros Hva. unfold pg_round_up, PGSIZE. rewrite (u32_wrap (-1)) by lia.
  change (Z.land (va + 4096 - 1 + -1 * 2 ^ 32) (u32 (Z.lnot PGMASK)))
    with (pg_round_down (va + 4096 - 1 + -1 * 2 ^ 32)).
  rewrite pg_round_down_spec, Z.mod_small by (unfold PGSIZE; lia). lia.
Qed.

(** Physical memory is mapped one to one above [PHYS_BASE]. *)
Lemma ptov_vtop p : 0 ≤ p < 2 ^ 32 - PHYS_BASE → ∃ v, ptov p = Ok v ∧ vtop v = Ok p ∧ v = p + PHYS_BASE.
Proof.
  unfold ptov, vtop, is_kernel_vaddr, PHYS_BASE. intros Hp. exists (p + 0xc0000000).
  rewrite (proj2 (Z.ltb_lt _ _)), (proj2 (Z.leb_le _ _)), !u32_small by lia.
  split_and!; [done| |done]. f_equal. lia.
Qed.
Lemma vtop_ptov v : PHYS_BASE ≤ v < 2 ^ 32 → ∃ p, vtop v = Ok p ∧ ptov p = Ok v ∧ p = v - PHYS_BASE.
Proof.
  intros Hv. destruct (ptov_vtop (v - PHYS_BASE)) as (w & H1 & H2 & H3);
    [unfold PHYS_BASE in *; lia|]. exists (v - PHYS_BASE).
  replace w with v in * by lia. done.
Qed.

(** An address is its page directory index, page table index and offset. *)
Lemma pt_no_spec va : 0 ≤ va < 2 ^ 32 → pt_no va = va / 2 ^ 12 mod 2 ^ 10.
Proof.
  intros Hva. unfold pt_no, PTSHIFT, PGBITS. change PTMASK with (Z.shiftl (Z.ones 10) 12).
  rewrite Z.shiftr_land.
  rewrite Z.shiftr_shiftl_l, Z.shiftl_0_r by lia.
  by rewrite Z.land_ones, Z.shiftr_div_pow2 by lia.
Qed.
Lemma pd_no_spec va : pd_no va = va / 2 ^ 22.
Proof. unfold pd_no. change PDSHIFT with 22. by rewrite Z.shiftr_div_pow2 by lia. Qed.

Lemma vaddr_decompose va :
  0 ≤ va < 2 ^ 32 → va = pd_no va * 2 ^ 22 + pt_no va * 2 ^ 12 + pg_ofs va
    ∧ 0 ≤ pd_no va < 1024 ∧ 0 ≤ pt_no va < 1024.
Proof.
  intros Hva. rewrite pt_no_spec, pd_no_spec, pg_ofs_mod by done. unfold PGSIZE.
  pose proof (Z.div_mod va (2 ^ 12)). pose proof (Z.div_mod (va / 2 ^ 12) (2 ^ 10)).
  rewrite Z.div_div in * by lia. change (2 ^ 12 * 2 ^ 10) with (2 ^ 22) in *.
  pose proof (Z.mod_pos_bound (va / 2 ^ 12) (2 ^ 10)).
  assert (0 ≤ va / 2 ^ 22 < 1024)
    by (split; [apply Z.div_pos; lia|apply Z.div_lt_upper_bound; lia]).
  change 4096 with (2 ^ 12). lia.
Qed.
