(* ===== verification/Palloc.v ===== *)
(** * The page allocator, [threads/palloc.c]

    Two pools of pages, each with a bitmap of the pages in use.  The lock of a
    pool makes its bitmap search atomic; the model is sequential. [ram] is the
    contents of memory, as far as the allocator fills it. *)

From S2P Require Import Prelude Bitmap Vaddr.

Module Palloc.
Import Bitmap.

Definition PAL_ASSERT : Z := 1.
Definition PAL_ZERO : Z := 2.
Definition PAL_USER : Z := 4.
Definition flag (flags bit : Z) : bool := negb (Z.land flags bit =? 0).

Record pool := Pool { used_map : bitmap; base : Z }.
Record palloc := Pal { kernel_pool : pool; user_pool : pool; ram : Z → Z }.

Definition fill (ram : Z → Z) (a v n : Z) : Z → Z :=
  λ x, if (a <=? x) && (x <? a + n) then v else ram x.

Definition set_pool (s : palloc) (user : bool) (p : pool) : palloc :=
  if user then Pal (kernel_pool s) p (ram s) else Pal p (user_pool s) (ram s).
Definition get_pool (s : palloc) (user : bool) : pool :=
  if user then user_pool s else kernel_pool s.

Definition page_from_pool (p : pool) (page : Z) : bool :=
  let page_no := pg_no page in
  let start_page := pg_no (base p) in
  let end_page := u32 (start_page + bitmap_size (used_map p)) in
  (start_page <=? page_no) && (page_no <? end_page).

(** [junk] is what the memory of the bitmap held before. *)
Definition init_pool (base : Z) (page_cnt : Z) (junk : list Z) : res pool :=
  let bm_pages := DIV_ROUND_UP (bitmap_buf_size page_cnt) PGSIZE in
  if page_cnt <? bm_pages then Panic else
  let page_cnt := page_cnt - bm_pages in
  b ← bitmap_create_in_buf page_cnt junk (u32 (bm_pages * PGSIZE));
  Ok (Pool b (u32 (base + bm_pages * PGSIZE))).

Definition palloc_init (init_ram_pages user_page_limit : Z) (junk1 junk2 : list Z)
    (ram : Z → Z) : res palloc :=
  free_start ← ptov (1024 * 1024);
  free_end ← ptov (u32 (init_ram_pages * PGSIZE));
  let free_pages := u32 (free_end - free_start) / PGSIZE in
  let user_pages := free_pages / 2 in
  let user_pages := if user_page_limit <? user_pages then user_page_limit else user_pages in
  let kernel_pages := free_pages - user_pages in
  kp ← init_pool free_start kernel_pages junk1;
  up ← init_pool (u32 (free_start + kernel_pages * PGSIZE)) user_pages junk2;
  Ok (Pal kp up ram).

Definition palloc_get_multiple (s : palloc) (flags page_cnt : Z) : res (Z * palloc) :=
  let user := flag flags PAL_USER in
  let p := get_pool s user in
  if page_cnt =? 0 then Ok (0, s) else
  '(page_idx, b) ← bitmap_scan_and_flip (used_map p) 0 page_cnt false;
  let s := set_pool s user (Pool b (base p)) in
  let pages := if negb (page_idx =? BITMAP_ERROR) then u32 (base p + u32 (PGSIZE * page_idx))
               else 0 in
  if negb (pages =? 0) then
    if flag flags PAL_ZERO then
      Ok (pages, Pal (kernel_pool s) (user_pool s) (fill (ram s) pages 0 (u32 (PGSIZE * page_cnt))))
    else Ok (pages, s)
  else if flag flags PAL_ASSERT then Panic else Ok (pages, s).
Definition palloc_get_page (s : palloc) (flags : Z) : res (Z * palloc) :=
  palloc_get_multiple s flags 1.

Definition palloc_free_multiple (s : palloc) (pages page_cnt : Z) : res palloc :=
  ASSERT pg_ofs pages =? 0;;
  if (pages =? 0) || (page_cnt =? 0) then Ok s else
  user ← (if page_from_pool (kernel_pool s) pages then Ok false
          else if page_from_pool (user_pool s) pages then Ok true
          else Panic);
  let p := get_pool s user in
  let page_idx := pg_no pages - pg_no (base p) in
  let s := Pal (kernel_pool s) (user_pool s) (fill (ram s) pages 0xcc (u32 (PGSIZE * page_cnt))) in
  all ← bitmap_all (used_map p) page_idx page_cnt;
  ASSERT (all : bool);;
  b ← bitmap_set_multiple (used_map p) page_idx page_cnt false;
  Ok (set_pool s user (Pool b (base p))).
Definition palloc_free_page (s : palloc) (page : Z) : res palloc :=
  palloc_free_multiple s page 1.

(** ** Well-formed pools *)

(** Pages [base, base + cnt * PGSIZE) lie in kernel memory. *)
Definition pool_wf (p : pool) : Prop :=
  wf (used_map p) ∧ PHYS_BASE ≤ base p ∧ base p mod PGSIZE = 0
  ∧ base p + PGSIZE * bit_cnt (used_map p) ≤ 2 ^ 32 - PGSIZE.

Definition pool_end (p : pool) : Z := base p + PGSIZE * bit_cnt (used_map p).

(** The pools do not touch: the bitmap of the user pool lies between them. *)
Definition inv (s : palloc) : Prop :=
  pool_wf (kernel_pool s) ∧ pool_wf (user_pool s)
  ∧ pool_end (kernel_pool s) < base (user_pool s).

(** The page at [a] is allocated from pool [p]. *)
Definition pool_used (p : pool) (a : Z) : Prop :=
  a mod PGSIZE = 0 ∧ base p ≤ a < pool_end p
  ∧ bit (used_map p) ((a - base p) / PGSIZE) = true.
Definition used (s : palloc) (a : Z) : Prop :=
  pool_used (kernel_pool s) a ∨ pool_used (user_pool s) a.

(** The [n] pages from [p] on. *)
Definition in_group (p n a : Z) : Prop :=
  p ≤ a < p + PGSIZE * n ∧ a mod PGSIZE = 0.

Lemma page_idx_eq b p :
  b mod PGSIZE = 0 → p mod PGSIZE = 0 → b + PGSIZE * ((p - b) / PGSIZE) = p.
Proof.
  unfold PGSIZE. intros Hb Hp. pose proof (Z.div_mod b 4096). pose proof (Z.div_mod p 4096).
  replace (p - b) with ((p / 4096 - b / 4096) * 4096) by lia. rewrite Z.div_mul by lia. lia.
Qed.

Lemma page_no_sub b p :
  b mod PGSIZE = 0 → p mod PGSIZE = 0 → pg_no p - pg_no b = (p - b) / PGSIZE.
Proof.
  unfold PGSIZE. intros Hb Hp. rewrite !pg_no_div. unfold PGSIZE.
  pose proof (Z.div_mod b 4096). pose proof (Z.div_mod p 4096).
  replace (p - b) with ((p / 4096 - b / 4096) * 4096) by lia. by rewrite Z.div_mul by lia.
Qed.

Lemma page_from_pool_spec p a :
  pool_wf p → a mod PGSIZE = 0 → 0 ≤ a < 2 ^ 32 →
  page_from_pool p a = (base p <=? a) && (a <? pool_end p).
Proof.
  intros (Hwf & Hb & Hal & Hend) Ha Hr. unfold page_from_pool, pool_end, bitmap_size.
  pose proof (proj1 Hwf) as Hc. rewrite !pg_no_div. unfold PGSIZE, PHYS_BASE in *.
  pose proof (Z.div_mod (base p) 4096). pose proof (Z.div_mod a 4096).
  rewrite u32_small by lia.
  destruct (Z.leb_spec (base p) a), (Z.ltb_spec a (base p + 4096 * bit_cnt (used_map p))),
    (Z.leb_spec (base p / 4096) (a / 4096)),
    (Z.ltb_spec (a / 4096) (base p / 4096 + bit_cnt (used_map p))); simpl; done || lia.
Qed.

(** ** One pool *)

Lemma pool_used_range p a :
  pool_wf p → a mod PGSIZE = 0 → base p ≤ a < pool_end p →
  0 ≤ (a - base p) / PGSIZE < bit_cnt (used_map p) ∧ base p + PGSIZE * ((a - base p) / PGSIZE) = a.
Proof.
  intros (_ & _ & Hal & _) Ha Hr. pose proof (page_idx_eq (base p) a Hal Ha).
  unfold pool_end, PGSIZE in *. lia.
Qed.

(** Rewriting the bits of a group of pages. *)
Lemma pool_used_set p b idx n (v : bool) :
  pool_wf p → 0 ≤ idx → 0 ≤ n → idx + n ≤ bit_cnt (used_map p) → bit_cnt b = bit_cnt (used_map p) →
  (∀ j, 0 ≤ j → bit b j = if (idx <=? j) && (j <? idx + n) then v else bit (used_map p) j) →
  ∀ a, pool_used (Pool b (base p)) a ↔
    if v then pool_used p a ∨ in_group (base p + PGSIZE * idx) n a
    else pool_used p a ∧ ¬ in_group (base p + PGSIZE * idx) n a.
Proof.
  intros Hwf Hi Hn Hle Hcnt Hbit a. unfold pool_used, pool_end. simpl. rewrite Hcnt.
  fold (pool_end p).
  destruct (decide (a mod PGSIZE = 0 ∧ base p ≤ a < pool_end p)) as [[Ha Hr]|Hno].
  - destruct (pool_used_range p a Hwf Ha Hr) as [Hj Hja]. rewrite Hbit by lia.
    set (j := (a - base p) / PGSIZE) in *.
    assert (Hgrp : in_group (base p + PGSIZE * idx) n a ↔ idx ≤ j < idx + n).
    { unfold in_group. rewrite <- Hja in Ha |- *. unfold PGSIZE in *. split; [lia|].
      intros ?. split; [lia|done]. }
    destruct (Z.leb_spec idx j), (Z.ltb_spec j (idx + n)), v; simpl; rewrite Hgrp; naive_solver lia.
  - assert (Hgrp : ¬ in_group (base p + PGSIZE * idx) n a).
    { intros [Hr Ha]. apply Hno. split; [done|]. unfold pool_end, PGSIZE in *. lia. }
    destruct v; naive_solver.
Qed.

Lemma pool_alloc p n :
  pool_wf p → 0 < n →
  ∃ idx b, bitmap_scan_and_flip (used_map p) 0 n false = Ok (idx, b)
    ∧ pool_wf (Pool b (base p)) ∧ bit_cnt b = bit_cnt (used_map p) ∧
  ((idx = BITMAP_ERROR ∧ b = used_map p
    ∧ ∀ a, base p ≤ a → a mod PGSIZE = 0 → a + PGSIZE * n ≤ pool_end p →
        ∃ x, in_group a n x ∧ pool_used p x)
   ∨ (idx ≠ BITMAP_ERROR ∧ 0 ≤ idx ∧ idx + n ≤ bit_cnt (used_map p)
      ∧ (∀ a, in_group (base p + PGSIZE * idx) n a → ¬ pool_used p a)
      ∧ ∀ a, pool_used (Pool b (base p)) a ↔
          pool_used p a ∨ in_group (base p + PGSIZE * idx) n a)).
Proof.
  intros Hwf Hn. pose proof Hwf as (Hb & Hb1 & Hb2 & Hb3).
  pose proof (proj1 Hb) as Hc.
  destruct (scan_and_flip_spec (used_map p) 0 n false) as (idx & b & H1 & H2 & H3 & Hcase);
    [done|lia..|].
  exists idx, b. split_and!; [done|by split_and!; simpl; rewrite ?H3|done|].
  destruct Hcase as [(Hi1 & Hi2 & Hi3 & Hfree & _ & Hset)|(-> & -> & Hnone)]; [right|left].
  - split_and!; [done|lia|lia| |].
    + intros a [Hr Ha] (_ & Hr' & Hbit).
      destruct (pool_used_range p a Hwf Ha Hr') as [Hj Hja].
      rewrite Hfree in Hbit; [done|]. unfold PGSIZE in *. lia.
    + apply (pool_used_set p b idx n true); [done|lia..|done|done].
  - split_and!; [done..|]. intros a Ha Hal Hend.
    destruct (decide (n ≤ 0)); [lia|]. pose proof (page_idx_eq (base p) a Hb2 Hal) as Hja.
    set (j := (a - base p) / PGSIZE) in *.
    assert (Hj : 0 ≤ j ∧ j + n ≤ bit_cnt (used_map p)) by (unfold pool_end, PGSIZE in *; lia).
    destruct (Exists_dec (λ i, bit (used_map p) (j + i) = true) (seqZ 0 n)) as [Hex|Hex].
    + apply Exists_exists in Hex as (i & Hi & Hbit). apply elem_of_seqZ in Hi.
      exists (a + PGSIZE * i). unfold in_group, pool_used, pool_end in *.
      assert (Hm : (a + PGSIZE * i) mod PGSIZE = 0) by (by rewrite Z.mul_comm, Z.mod_add).
      assert (Hidx : (a + PGSIZE * i - base p) / PGSIZE = j + i).
      { replace (a + PGSIZE * i - base p) with ((j + i) * PGSIZE) by lia. by rewrite Z.div_mul. }
      rewrite Hidx. unfold PGSIZE in *. split_and!; try done; lia.
    + destruct (Hnone j); [lia..|]. intros i Hi. apply not_true_is_false. intros Hbit.
      apply Hex, Exists_exists. exists (i - j). split; [apply elem_of_seqZ; lia|].
      by replace (j + (i - j)) with i by lia.
Qed.

Lemma pool_release p a n :
  pool_wf p → base p ≤ a → a mod PGSIZE = 0 → 0 < n → a + PGSIZE * n ≤ pool_end p →
  (∀ x, in_group a n x → pool_used p x) →
  ∃ b, bitmap_all (used_map p) (pg_no a - pg_no (base p)) n = Ok true
    ∧ bitmap_set_multiple (used_map p) (pg_no a - pg_no (base p)) n false = Ok b
    ∧ pool_wf (Pool b (base p)) ∧ bit_cnt b = bit_cnt (used_map p)
    ∧ ∀ x, pool_used (Pool b (base p)) x ↔ pool_used p x ∧ ¬ in_group a n x.
Proof.
  intros Hwf Ha Hal Hn Hend Hall. pose proof Hwf as (Hb & Hb1 & Hb2 & Hb3).
  pose proof (proj1 Hb) as Hc. rewrite page_no_sub by done.
  pose proof (page_idx_eq (base p) a Hb2 Hal) as Hja. set (j := (a - base p) / PGSIZE) in *.
  assert (Hj : 0 ≤ j ∧ j + n ≤ bit_cnt (used_map p)) by (unfold pool_end, PGSIZE in *; lia).
  destruct (bitmap_none_all_spec (used_map p) j n true) as (r & Hr & Hrt); [done|lia..|].
  assert (r = true) as ->.
  { apply Hrt. intros i Hi. destruct (Hall (base p + PGSIZE * i)) as (_ & _ & Hbit).
    - unfold in_group. rewrite <- Hja. split; [unfold PGSIZE; lia|].
      by rewrite Z.mul_comm, Z.mod_add.
    - replace (base p + PGSIZE * i - base p) with (i * PGSIZE) in Hbit by lia.
      by rewrite Z.div_mul in Hbit. }
  destruct (bitmap_set_multiple_spec (used_map p) j n false) as (b & H1 & H2 & H3 & H4);
    [done|lia..|].
  exists b. split_and!; [done|done|by split_and!; simpl; rewrite ?H3|done|]. rewrite <- Hja.
  apply (pool_used_set p b j n false); [done|lia..|done|done].
Qed.

(** ** The allocator *)

Lemma inv_pool s user : inv s → pool_wf (get_pool s user).
Proof. intros (Hk & Hu & _). by destruct user. Qed.

Lemma used_get_pool s user a : pool_used (get_pool s user) a → used s a.
Proof. unfold used. destruct user; simpl; auto. Qed.

(** A page of one pool is not a page of the other. *)
Lemma used_in_pool s user a :
  inv s → base (get_pool s user) ≤ a < pool_end (get_pool s user) →
  used s a → pool_used (get_pool s user) a.
Proof.
  intros (Hk & Hu & Hd) Ha [H|H]; destruct user; simpl in *; try done;
    destruct H as (_ & Hr & _); lia.
Qed.

Lemma set_pool_same s user :
  set_pool s user (Pool (used_map (get_pool s user)) (base (get_pool s user))) = s.
Proof. by destruct s as [[] []], user. Qed.

Lemma inv_set_pool s user b :
  inv s → pool_wf (Pool b (base (get_pool s user))) →
  bit_cnt b = bit_cnt (used_map (get_pool s user)) →
  inv (set_pool s user (Pool b (base (get_pool s user)))).
Proof.
  intros (Hk & Hu & Hd) Hb Hc. unfold inv, pool_end in *.
  destruct user; simpl in *; split_and!; try done; lia.
Qed.

Lemma used_set_pool s user b (P : Z → Prop) :
  (∀ a, pool_used (Pool b (base (get_pool s user))) a ↔ pool_used (get_pool s user) a ∨ P a) →
  ∀ a, used (set_pool s user (Pool b (base (get_pool s user)))) a ↔ used s a ∨ P a.
Proof. intros H a. specialize (H a). unfold used. destruct user; simpl in *; tauto. Qed.

Lemma used_unset_pool s user b (P : Z → Prop) :
  inv s → (∀ a, P a → base (get_pool s user) ≤ a < pool_end (get_pool s user)) →
  (∀ a, pool_used (Pool b (base (get_pool s user))) a ↔ pool_used (get_pool s user) a ∧ ¬ P a) →
  ∀ a, used (set_pool s user (Pool b (base (get_pool s user)))) a ↔ used s a ∧ ¬ P a.
Proof.
  intros (Hk & Hu & Hd) HP H a. specialize (H a). specialize (HP a). unfold used.
  assert (Hout : P a → ¬ pool_used (get_pool s (negb user)) a).
  { intros HPa (_ & Hr & _). specialize (HP HPa). destruct user; simpl in *; lia. }
  destruct user; simpl in *; tauto.
Qed.

(** What a successful allocation is: a fresh group of pages of the pool. *)
Definition fresh_group (s s' : palloc) (user : bool) (pages n : Z) : Prop :=
  inv s' ∧ 0 < pages ∧ pages mod PGSIZE = 0
  ∧ base (get_pool s user) ≤ pages ∧ pages + PGSIZE * n ≤ pool_end (get_pool s user)
  ∧ (∀ a, in_group pages n a → ¬ used s a)
  ∧ (∀ a, used s' a ↔ used s a ∨ in_group pages n a).

Lemma get_multiple_spec s flags n :
  inv s → 0 < n < 2 ^ 32 →
  let user := flag flags PAL_USER in
  (∃ pages s', palloc_get_multiple s flags n = Ok (pages, s')
    ∧ fresh_group s s' user pages n
    ∧ ram s' = (if flag flags PAL_ZERO then fill (ram s) pages 0 (PGSIZE * n) else ram s))
  ∨ ((∀ a, base (get_pool s user) ≤ a → a mod PGSIZE = 0 →
        a + PGSIZE * n ≤ pool_end (get_pool s user) → ∃ x, in_group a n x ∧ used s x)
     ∧ palloc_get_multiple s flags n = if flag flags PAL_ASSERT then Panic else Ok (0, s)).
Proof.
  intros Hinv Hn user. pose proof (inv_pool s user Hinv) as Hwf.
  unfold palloc_get_multiple. fold user. rewrite (proj2 (Z.eqb_neq n 0)) by lia.
  destruct (pool_alloc (get_pool s user) n) as (idx & b & -> & Hwf' & Hc & Hcase); [done|lia|].
  simpl. destruct Hwf as (Hb & Hb1 & Hb2 & Hb3). pose proof (proj1 Hb).
  destruct Hcase as [(-> & -> & Hnone)|(Hi & Hi0 & Hle & Hfree & Hused)]; [right|left].
  - rewrite Z.eqb_refl. simpl. split.
    + intros a H1 H2 H3. destruct (Hnone a H1 H2 H3) as (x & Hx & Hu).
      exists x. split; [done|]. by apply (used_get_pool s user).
    + destruct (flag flags PAL_ASSERT); [done|]. by rewrite set_pool_same.
  - rewrite (proj2 (Z.eqb_neq idx BITMAP_ERROR)) by done. simpl.
    set (pages := base (get_pool s user) + PGSIZE * idx) in *.
    assert (Hr : 0 < pages ∧ pages + PGSIZE * n ≤ pool_end (get_pool s user)
      ∧ 0 ≤ PGSIZE * idx < 2 ^ 32 ∧ 0 ≤ pages < 2 ^ 32 ∧ 0 ≤ PGSIZE * n < 2 ^ 32).
    { unfold pages, pool_end, PHYS_BASE, PGSIZE in *. lia. }
    rewrite (u32_small (PGSIZE * idx)) by lia. fold pages.
    rewrite (u32_small pages), (u32_small (PGSIZE * n)) by lia.
    rewrite (proj2 (Z.eqb_neq pages 0)) by lia. simpl.
    set (s1 := set_pool s user (Pool b (base (get_pool s user)))).
    assert (Hs1 : fresh_group s s1 user pages n).
    { split_and!.
      - by apply inv_set_pool.
      - lia.
      - unfold pages. by rewrite Z.mul_comm, Z.mod_add.
      - unfold pages, PGSIZE. lia.
      - lia.
      - intros a Ha Hua. apply (Hfree a Ha). apply used_in_pool; [done| |done].
        destruct Ha as [Ha _]. unfold pages, PGSIZE in *. lia.
      - by apply used_set_pool. }
    destruct (flag flags PAL_ZERO).
    + eexists _, _. split; [done|]. split; [apply Hs1|]. unfold s1. by destruct user.
    + eexists _, _. split; [done|]. split; [apply Hs1|]. unfold s1. by destruct user.
Qed.

Lemma in_group_head p n : 0 < n → p mod PGSIZE = 0 → in_group p n p.
Proof. intros. split; [unfold PGSIZE; lia|done]. Qed.

(** A run of allocated pages lies in one pool: the pools do not touch. *)
Lemma group_in_pool s p n :
  inv s → 0 < n → p mod PGSIZE = 0 → (∀ x, in_group p n x → used s x) →
  ∃ user, base (get_pool s user) ≤ p ∧ p + PGSIZE * n ≤ pool_end (get_pool s user)
    ∧ ∀ x, in_group p n x → pool_used (get_pool s user) x.
Proof.
  intros Hinv Hn Hp Hall. set (l := p + PGSIZE * (n - 1)).
  assert (Hl : in_group p n l).
  { unfold l. split; [unfold PGSIZE; lia|]. by rewrite Z.mul_comm, Z.mod_add. }
  pose proof (Hall p (in_group_head p n Hn Hp)) as Hup. pose proof (Hall l Hl) as Hul.
  assert (Hpl : p ≤ l) by (unfold l, PGSIZE; lia).
  pose proof Hinv as ((Hbk & Hk1 & Hk2 & Hk3) & (Hbu & Hu1 & Hu2 & Hu3) & Hd).
  assert (Hend : ∀ q, q mod PGSIZE = 0 → ∀ k, k mod PGSIZE = 0 → k < q → k + PGSIZE ≤ q).
  { unfold PGSIZE. intros q Hq k Hk Hlt. pose proof (Z.div_mod q 4096).
    pose proof (Z.div_mod k 4096). lia. }
  assert (Hpe : ∀ q, base q mod PGSIZE = 0 → pool_end q mod PGSIZE = 0).
  { intros q Hq. unfold pool_end. by rewrite Z.mul_comm, Z.mod_add. }
  assert (Hgap : ¬ (p < base (user_pool s) ≤ l)).
  { intros Hx. set (g := base (user_pool s) - PGSIZE).
    assert (Hg : in_group p n g).
    { pose proof (Hend (base (user_pool s)) Hu2 p Hp). unfold g, l in *. split.
      - unfold PGSIZE in *. lia.
      - by rewrite Zminus_mod, Hu2. }
    pose proof (Hend (base (user_pool s)) Hu2 (pool_end (kernel_pool s)) (Hpe _ Hk2) Hd).
    destruct (Hall g Hg) as [(_ & Hr & _)|(_ & Hr & _)]; unfold g, PGSIZE in *; lia. }
  assert (Huser : ∃ user, base (get_pool s user) ≤ p ∧ l < pool_end (get_pool s user)).
  { destruct Hup as [(_ & Hr & _)|(_ & Hr & _)], Hul as [(_ & Hr' & _)|(_ & Hr' & _)].
    - exists false. simpl. lia.
    - exists false. simpl in *. lia.
    - exists true. simpl. lia.
    - exists true. simpl. lia. }
  destruct Huser as (user & H1 & H2). exists user. split; [done|].
  assert (H3 : l + PGSIZE ≤ pool_end (get_pool s user)).
  { apply Hend; [|apply Hl|done]. destruct user; by apply Hpe. }
  split; [unfold l, PGSIZE in *; lia|]. intros x Hx. apply used_in_pool; [done| |by apply Hall].
  destruct Hx as [Hx _]. unfold l, PGSIZE in *. lia.
Qed.

Lemma free_multiple_spec s p n :
  inv s → 0 < n < 2 ^ 32 → 0 < p → p mod PGSIZE = 0 → (∀ x, in_group p n x → used s x) →
  ∃ s', palloc_free_multiple s p n = Ok s' ∧ inv s'
    ∧ (∀ x, used s' x ↔ used s x ∧ ¬ in_group p n x)
    ∧ ram s' = fill (ram s) p 0xcc (PGSIZE * n).
Proof.
  intros Hinv Hn Hp0 Hp Hall. pose proof Hinv as (Hk & Hu & Hd).
  destruct (group_in_pool s p n) as (user & H1 & H2 & H3); [done|lia|done|done|].
  assert (Hlt : 0 ≤ p < 2 ^ 32 ∧ 0 ≤ PGSIZE * n < 2 ^ 32).
  { pose proof (inv_pool s user Hinv) as (_ & ? & _ & ?). unfold pool_end, PHYS_BASE, PGSIZE in *.
    lia. }
  destruct Hlt as [Hlt Hlt']. unfold palloc_free_multiple.
  rewrite pg_ofs_mod, Hp, (proj2 (Z.eqb_neq p 0)), (proj2 (Z.eqb_neq n 0)) by lia. simpl.
  rewrite !page_from_pool_spec by done.
  assert (Hsel : (if (base (kernel_pool s) <=? p) && (p <? pool_end (kernel_pool s)) then Ok false
     else if (base (user_pool s) <=? p) && (p <? pool_end (user_pool s)) then Ok true
     else Panic) = Ok user).
  { assert (p < pool_end (get_pool s user)) by (unfold PGSIZE in *; lia).
    destruct user; simpl in *.
    - rewrite (proj2 (Z.ltb_ge p _)), andb_false_r by lia.
      by rewrite (proj2 (Z.leb_le _ _)), (proj2 (Z.ltb_lt _ _)) by lia.
    - by rewrite (proj2 (Z.leb_le _ _)), (proj2 (Z.ltb_lt _ _)) by lia. }
  rewrite Hsel. simpl.
  destruct (pool_release (get_pool s user) p n) as (b & -> & -> & Hwf & Hc & Hus);
    [by apply inv_pool|done|done|lia|done|done|]. simpl. rewrite u32_small by lia.
  eexists. split; [done|]. split_and!.
  - pose proof (inv_set_pool s user b Hinv Hwf Hc) as Hi. by destruct user.
  - pose proof (used_unset_pool s user b (in_group p n) Hinv) as Hx.
    intros x. rewrite <- Hx; [by destruct user|intros a [Ha _]; lia|done].
  - by destruct user.
Qed.

(** Freeing a page that is not allocated fails the assertion. *)
Lemma free_unused s p :
  inv s → 0 < p < 2 ^ 32 → p mod PGSIZE = 0 → ¬ used s p → palloc_free_page s p = Panic.
Proof.
  intros Hinv Hr Hp Hu. unfold palloc_free_page, palloc_free_multiple.
  rewrite pg_ofs_mod, Hp, (proj2 (Z.eqb_neq p 0)) by lia. simpl.
  pose proof Hinv as (Hk & Hus & Hd). rewrite !page_from_pool_spec by (done || lia).
  assert (Hone : ∀ user, base (get_pool s user) ≤ p < pool_end (get_pool s user) →
    bitmap_all (used_map (get_pool s user)) (pg_no p - pg_no (base (get_pool s user))) 1 = Ok false).
  { intros user Hpr. pose proof (inv_pool s user Hinv) as Hwf.
    pose proof Hwf as (Hb & _ & Hb2 & _). rewrite page_no_sub by done.
    destruct (pool_used_range _ p Hwf Hp Hpr) as [Hj _].
    destruct (bitmap_none_all_spec (used_map (get_pool s user))
      ((p - base (get_pool s user)) / PGSIZE) 1 true) as (r & Hr' & Hrt); [done|lia..|].
    rewrite Hr'. f_equal. apply not_true_is_false. intros ->. apply Hu, (used_get_pool s user).
    split_and!; [done|lia..|]. apply Hrt; [done|lia]. }
  destruct ((base (kernel_pool s) <=? p) && (p <? pool_end (kernel_pool s))) eqn:E1;
    [|destruct ((base (user_pool s) <=? p) && (p <? pool_end (user_pool s))) eqn:E2; [|done]];
    zbool; simpl.
  - specialize (Hone false). simpl in Hone. by rewrite Hone by lia.
  - specialize (Hone true). simpl in Hone. by rewrite Hone by lia.
Qed.

(** ** Initialisation *)

Lemma bitmap_buf_pages cnt :
  0 ≤ cnt < 2 ^ 20 →
  1 ≤ DIV_ROUND_UP (bitmap_buf_size cnt) PGSIZE < 2 ^ 20
  ∧ bitmap_buf_size cnt ≤ DIV_ROUND_UP (bitmap_buf_size cnt) PGSIZE * PGSIZE.
Proof.
  intros Hc. unfold bitmap_buf_size, byte_cnt, elem_cnt, DIV_ROUND_UP, PGSIZE, ELEM_BITS.
  rewrite (u32_small (cnt + 32 - 1)) by lia.
  assert (0 ≤ (cnt + 32 - 1) / 32 < 2 ^ 20)
    by (split; [apply Z.div_pos; lia|apply Z.div_lt_upper_bound; lia]).
  set (w := (cnt + 32 - 1) / 32) in *. rewrite (u32_small (4 * w)), (u32_small (8 + 4 * w)) by lia.
  rewrite u32_small by lia. pose proof (Z.div_mod (8 + 4 * w + 4096 - 1) 4096).
  pose proof (Z.mod_pos_bound (8 + 4 * w + 4096 - 1) 4096). lia.
Qed.

Lemma bitmap_buf_mono c c' : 0 ≤ c ≤ c' → c' < 2 ^ 20 → bitmap_buf_size c ≤ bitmap_buf_size c'.
Proof.
  intros Hc Hc'. unfold bitmap_buf_size, byte_cnt, elem_cnt, DIV_ROUND_UP, ELEM_BITS.
  rewrite (u32_small (c + 32 - 1)), (u32_small (c' + 32 - 1)) by lia.
  assert (0 ≤ (c + 32 - 1) / 32 ≤ (c' + 32 - 1) / 32)
    by (split; [apply Z.div_pos; lia|apply Z.div_le_mono; lia]).
  assert ((c' + 32 - 1) / 32 < 2 ^ 20) by (apply Z.div_lt_upper_bound; lia).
  rewrite !u32_small by (rewrite ?u32_small by lia; lia). lia.
Qed.

(** The memory of the bitmap, as words: enough of them for [cnt] bits. *)
Definition buffer (cnt : Z) (junk : list Z) : Prop :=
  Z.of_nat (length junk) = elem_cnt cnt ∧ Forall (λ w, 0 ≤ w < 2 ^ 32) junk.

Lemma init_pool_spec b cnt junk :
  PHYS_BASE ≤ b → b mod PGSIZE = 0 → 0 ≤ cnt < 2 ^ 20 → b + PGSIZE * cnt ≤ 2 ^ 32 - PGSIZE →
  let bm := DIV_ROUND_UP (bitmap_buf_size cnt) PGSIZE in
  bm ≤ cnt → buffer (cnt - bm) junk →
  ∃ p, init_pool b cnt junk = Ok p ∧ pool_wf p ∧ base p = b + PGSIZE * bm
    ∧ pool_end p = b + PGSIZE * cnt ∧ ∀ a, ¬ pool_used p a.
Proof.
  intros Hb Hal Hc Hend bm Hbm [Hj1 Hj2].
  destruct (bitmap_buf_pages cnt Hc) as [Hp1 Hp2]. fold bm in Hp1, Hp2.
  unfold init_pool. fold bm. rewrite (proj2 (Z.ltb_ge cnt bm)) by lia.
  assert (Hwf : wf (Bm (cnt - bm) junk)) by (split_and!; simpl; [lia|lia|done|done]).
  assert (Hu : 0 ≤ bm * PGSIZE < 2 ^ 32 ∧ 0 ≤ b + bm * PGSIZE < 2 ^ 32).
  { clear Hp2. clearbody bm. unfold PGSIZE, PHYS_BASE in *. lia. }
  unfold bitmap_create_in_buf. rewrite (u32_small (bm * PGSIZE)) by lia.
  rewrite (proj2 (Z.leb_le _ _)).
  2:{ pose proof (bitmap_buf_mono (cnt - bm) cnt). unfold PGSIZE in *. lia. }
  unfold bitmap_set_all, bitmap_size. simpl bit_cnt.
  destruct (bitmap_set_multiple_spec (Bm (cnt - bm) junk) 0 (cnt - bm) false)
    as (b' & -> & H2 & H3 & H4); [done|simpl; lia..|]. simpl in *.
  rewrite u32_small by lia.
  eexists. split; [done|]. unfold pool_wf, pool_end. simpl. rewrite H3. split_and!.
  - done.
  - unfold PGSIZE in *. lia.
  - by rewrite Z.mod_add.
  - unfold PGSIZE in *. lia.
  - unfold PGSIZE. lia.
  - unfold PGSIZE. lia.
  - intros a (Ha & Hr & Hbit). unfold pool_end in Hr. simpl in *. rewrite H3 in Hr.
    assert (Hidx : 0 ≤ (a - (b + bm * PGSIZE)) / PGSIZE < cnt - bm).
    { split; [apply Z.div_pos; [lia|done]|apply Z.div_lt_upper_bound; [done|lia]]. }
    rewrite H4, (proj2 (Z.leb_le _ _)), (proj2 (Z.ltb_lt _ _)) in Hbit by lia. done.
Qed.

(** C18: with the pools in order, [palloc_get_multiple] either returns a group of
    [n] pages of the requested pool, page aligned and not null, none of which was
    in use and all of which are afterwards (zeroed if [PAL_ZERO] is given), or no
    such group is free and it returns null, or panics if [PAL_ASSERT] is given.
    Freeing the group gives back exactly its pages.  Freeing a page that is not
    in use panics. *)
Theorem palloc_correct s flags n :
  inv s → 0 < n < 2 ^ 32 →
  let user := flag flags PAL_USER in
  ((∃ pages s', palloc_get_multiple s flags n = Ok (pages, s')
     ∧ fresh_group s s' user pages n
     ∧ (∀ x, ram s' x = if flag flags PAL_ZERO && (pages <=? x) && (x <? pages + PGSIZE * n)
                        then 0 else ram s x)
     ∧ ∃ s'', palloc_free_multiple s' pages n = Ok s'' ∧ inv s'' ∧ ∀ a, used s'' a ↔ used s a)
   ∨ ((∀ a, base (get_pool s user) ≤ a → a mod PGSIZE = 0 →
         a + PGSIZE * n ≤ pool_end (get_pool s user) → ∃ x, in_group a n x ∧ used s x)
      ∧ palloc_get_multiple s flags n = if flag flags PAL_ASSERT then Panic else Ok (0, s)))
  ∧ ∀ p, 0 < p < 2 ^ 32 → p mod PGSIZE = 0 → ¬ used s p → palloc_free_page s p = Panic.
Proof.
  intros Hinv Hn user. split; [|intros p; by apply free_unused].
  destruct (get_multiple_spec s flags n Hinv Hn) as [(pages & s' & H1 & H2 & H3)|H]; [left|by right].
  exists pages, s'. split_and!; [done|done| |].
  - intros x. rewrite H3. destruct (flag flags PAL_ZERO); done.
  - destruct H2 as (Hi & Hp0 & Hp & _ & _ & Hfree & Hus).
    destruct (free_multiple_spec s' pages n) as (s'' & Hf & Hi' & Hu' & _); [done..| |].
    + intros x Hx. apply Hus. by right.
    + exists s''. split_and!; [done..|]. intros a. rewrite Hu', Hus.
      specialize (Hfree a). tauto.
Qed.

(** Two pools of forty pages. *)
Definition demo_pools : palloc :=
  Pal (Pool (Bm 40 [31; 2]) (PHYS_BASE + 0x100000))
      (Pool (Bm 40 [0; 0]) (PHYS_BASE + 0x200000)) (λ _, 7).
Lemma demo_inv : inv demo_pools.
Proof.
  assert (Hwf : ∀ w1 w2, 0 ≤ w1 < 2 ^ 32 → 0 ≤ w2 < 2 ^ 32 → wf (Bm 40 [w1; w2])).
  { intros w1 w2 H1 H2. split_and!; [simpl; lia|simpl; lia|by vm_compute|]. simpl.
    by rewrite !Forall_cons, Forall_nil. }
  unfold inv, pool_wf, pool_end, demo_pools, PHYS_BASE, PGSIZE. simpl.
  split; [|split]; [split; [apply Hwf; lia|split_and!; [lia|reflexivity|lia]]..|lia].
Qed.
Lemma palloc_correct_witness :
  palloc_free_page demo_pools (PHYS_BASE + 0x105000) = Panic.
Proof.
  apply (palloc_correct demo_pools 0 1 demo_inv); [lia|unfold PHYS_BASE; lia|reflexivity|].
  intros [(_ & _ & H)|(_ & [H _] & _)]; [vm_compute in H; discriminate H|].
  simpl in H. unfold PHYS_BASE in H. lia.
Defined.

(** [palloc_init] divides memory above 1 MB into two pools that satisfy the
    invariant, with every page free, provided that each pool has room for its
    bitmap and memory does not reach the last page of the address space. *)
Lemma palloc_init_spec ram_pages limit junk1 junk2 ram :
  256 < ram_pages < 2 ^ 18 → 0 ≤ limit →
  let free_pages := ram_pages - 256 in
  let user_pages := Z.min limit (free_pages / 2) in
  let kernel_pages := free_pages - user_pages in
  let bk := DIV_ROUND_UP (bitmap_buf_size kernel_pages) PGSIZE in
  let bu := DIV_ROUND_UP (bitmap_buf_size user_pages) PGSIZE in
  bk ≤ kernel_pages → bu ≤ user_pages →
  buffer (kernel_pages - bk) junk1 → buffer (user_pages - bu) junk2 →
  ∃ s, palloc_init ram_pages limit junk1 junk2 ram = Ok s ∧ inv s ∧ (∀ a, ¬ used s a)
    ∧ base (kernel_pool s) = PHYS_BASE + 2 ^ 20 + PGSIZE * bk ∧ pool_end (kernel_pool s) = PHYS_BASE + 2 ^ 20 + PGSIZE * kernel_pages
    ∧ pool_end (user_pool s) = PHYS_BASE + PGSIZE * ram_pages.
Proof.
  intros Hram Hlim free_pages user_pages kernel_pages bk bu Hbk Hbu Hj1 Hj2.
  assert (Hu : 0 ≤ user_pages ≤ free_pages ∧ free_pages < 2 ^ 18).
  { unfold user_pages, free_pages. pose proof (Z.div_pos (ram_pages - 256) 2).
    assert ((ram_pages - 256) / 2 ≤ ram_pages - 256) by (apply Z.div_le_upper_bound; lia). lia. }
  unfold palloc_init. rewrite u32_small by (unfold PGSIZE; lia).
  destruct (ptov_vtop (1024 * 1024)) as (fs & -> & _ & ->); [unfold PHYS_BASE; lia|].
  destruct (ptov_vtop (ram_pages * PGSIZE)) as (fe & -> & _ & ->); [unfold PHYS_BASE, PGSIZE; lia|].
  cbn [mbind res_bind].
  rewrite (u32_small (ram_pages * PGSIZE + PHYS_BASE - _)) by (unfold PGSIZE; lia).
  replace ((ram_pages * PGSIZE + PHYS_BASE - (1024 * 1024 + PHYS_BASE)) / PGSIZE) with free_pages.
  2:{ unfold free_pages, PGSIZE. apply Z.div_unique_exact; lia. }
  replace (if limit <? free_pages / 2 then limit else free_pages / 2) with user_pages.
  2:{ unfold user_pages. destruct (Z.ltb_spec limit (free_pages / 2)); lia. }
  fold kernel_pages.
  assert (Hk : 0 ≤ kernel_pages ≤ free_pages ∧ kernel_pages + user_pages = free_pages)
    by (unfold kernel_pages; lia).
  destruct (init_pool_spec (1024 * 1024 + PHYS_BASE) kernel_pages junk1)
    as (kp & -> & Hk1 & Hk2 & Hk3 & Hk4);
    [unfold PHYS_BASE, PGSIZE in *; lia || done..|done|done|]. cbn [mbind res_bind].
  rewrite u32_small by (unfold PHYS_BASE, PGSIZE; lia).
  assert (Hal : (1024 * 1024 + PHYS_BASE + kernel_pages * PGSIZE) mod PGSIZE = 0)
    by (by rewrite Z.mod_add).
  destruct (init_pool_spec (1024 * 1024 + PHYS_BASE + kernel_pages * PGSIZE) user_pages junk2)
    as (up & -> & Hu1 & Hu2 & Hu3 & Hu4);
    [unfold PHYS_BASE, PGSIZE in *; lia || done..|done|done|]. cbn [mbind res_bind].
  destruct (bitmap_buf_pages user_pages) as [Hbu1 _]; [lia|].
  eexists. split; [done|]. unfold inv. simpl. split_and!; [done|done| | | | |].
  - rewrite Hk3, Hu2. fold bu. fold bu in Hbu1. clearbody bu. unfold PGSIZE. lia.
  - intros a [H|H]; [by apply (Hk4 a)|by apply (Hu4 a)].
  - rewrite Hk2. fold bk. lia.
  - rewrite Hk3. lia.
  - rewrite Hu3. unfold free_pages, PGSIZE in *. lia.
Qed.

(** ** The interface of a page allocator

    What [malloc] relies on, with kernel pages only. *)
Class PageAllocator (T : Type) := {
  pa_inv : T → Prop;
  pa_used : T → Z → Prop;
  pa_get : T → Z → res (Z * T);
  pa_free : T → Z → Z → res T;
  pa_get_zero t : pa_get t 0 = Ok (0, t);
  pa_get_ok t n :
    pa_inv t → 0 < n < 2 ^ 32 →
    pa_get t n = Ok (0, t) ∨
    ∃ p t', pa_get t n = Ok (p, t') ∧ pa_inv t' ∧ 0 < p ∧ p mod PGSIZE = 0
      ∧ p + PGSIZE * n ≤ 2 ^ 32 - PGSIZE
      ∧ (∀ a, in_group p n a → ¬ pa_used t a)
      ∧ (∀ a, pa_used t' a ↔ pa_used t a ∨ in_group p n a);
  pa_free_ok t p n :
    pa_inv t → 0 < n < 2 ^ 32 → 0 < p → p mod PGSIZE = 0 → (∀ x, in_group p n x → pa_used t x) →
    ∃ t', pa_free t p n = Ok t' ∧ pa_inv t'
      ∧ ∀ x, pa_used t' x ↔ pa_used t x ∧ ¬ in_group p n x
}.

#[export] Program Instance palloc_allocator : PageAllocator palloc := {|
  pa_inv := inv;
  pa_used := used;
  pa_get s n := palloc_get_multiple s 0 n;
  pa_free := palloc_free_multiple
|}.
Next Obligation. done. Qed.
Next Obligation.
  intros s n Hinv Hn. simpl.
  destruct (get_multiple_spec s 0 n Hinv Hn) as [(p & s' & H1 & H2 & _)|[_ H]]; [right|by left].
  destruct H2 as (Hi & Hp0 & Hp & _ & Hend & Hfree & Hus). exists p, s'. split_and!; try done.
  pose proof (inv_pool s false Hinv) as (_ & _ & _ & ?). unfold pool_end in *. simpl in *. lia.
Qed.
Next Obligation.
  intros s p n Hinv Hn Hp0 Hp Hall. simpl.
  destruct (free_multiple_spec s p n Hinv Hn Hp0 Hp Hall) as (s' & H1 & H2 & H3 & _).
  by exists s'.
Qed.

End Palloc.
