(* ===== verification/Malloc.v ===== *)
(** * The block allocator, [threads/malloc.c]

    Blocks of up to 1 kB come from pages cut into blocks of one size; larger ones
    are groups of pages.  The page allocator is any [PageAllocator].  The free
    list of a descriptor is the sequence of addresses of its blocks; [arenas]
    holds the arena headers, by page; [mem] is the contents of the blocks.  A
    header is found by its magic number: a page without an arena has none, since
    the page allocator overwrites the pages that it gets back. *)

From S2P Require Import Prelude Bitmap Vaddr Palloc.

Module Malloc.
Import Palloc.

Definition ARENA_SIZE : Z := 12.

Record desc := Desc { block_size : Z; blocks_per_arena : Z; free_list : list Z }.
(** [a_desc] is the index of the owning descriptor, [None] for a big block. *)
Record arena := Arena { a_desc : option nat; free_cnt : Z }.

Section ops.
Context {T : Type} `{!PageAllocator T}.

Record heap := Heap {
  descs : list desc;
  arenas : gmap Z arena;
  pages : T;
  mem : Z → Z
}.

(** [for (block_size = 16; block_size < PGSIZE / 2; block_size *= 2)]. *)
Fixpoint init_loop (fuel : nat) (size : Z) (ds : list desc) : res (list desc) :=
  match fuel with
  | O => Fuel
  | S fuel =>
      if size <? PGSIZE / 2 then
        ASSERT Z.of_nat (S (length ds)) <=? 10;;
        init_loop fuel (u32 (size * 2)) (ds ++ [Desc size ((PGSIZE - ARENA_SIZE) / size) []])
      else Ok ds
  end.
Definition malloc_init (t : T) (m : Z → Z) : res heap :=
  ds ← init_loop 8 16 []; Ok (Heap ds ∅ t m).

Definition arena_to_block (h : heap) (a idx : Z) : res Z :=
  ASSERT negb (a =? 0);;
  ar ← from_opt (arenas h !! a);
  i ← from_opt (a_desc ar);
  d ← from_opt (descs h !! i);
  ASSERT idx <? blocks_per_arena d;;
  Ok (u32 (a + ARENA_SIZE + idx * block_size d)).

Definition block_to_arena (h : heap) (b : Z) : res (Z * arena) :=
  let a := pg_round_down b in
  ASSERT negb (a =? 0);;
  ar ← from_opt (arenas h !! a);
  match a_desc ar with
  | Some i =>
      d ← from_opt (descs h !! i);
      ASSERT u32 (pg_ofs b - ARENA_SIZE) mod block_size d =? 0;;
      Ok (a, ar)
  | None => ASSERT pg_ofs b =? ARENA_SIZE;; Ok (a, ar)
  end.

(** The index of the first descriptor whose blocks are large enough. *)
Fixpoint find_desc (ds : list desc) (size : Z) : option nat :=
  match ds with
  | [] => None
  | d :: ds => if size <=? block_size d then Some O else S <$> find_desc ds size
  end.

Definition set_free_list (h : heap) (i : nat) (l : list Z) : heap :=
  Heap (alter (λ d, Desc (block_size d) (blocks_per_arena d) l) i (descs h))
    (arenas h) (pages h) (mem h).
Definition set_arena (h : heap) (a : Z) (ar : arena) : heap :=
  Heap (descs h) (<[a := ar]> (arenas h)) (pages h) (mem h).
Definition set_pages (h : heap) (t : T) : heap := Heap (descs h) (arenas h) t (mem h).

(** [for (i = 0; i < d->blocks_per_arena; i++) list_push_back (...)]: [n] blocks
    are left. *)
Fixpoint push_blocks (n : nat) (h : heap) (a idx : Z) (i : nat) : res heap :=
  match n with
  | O => Ok h
  | S n =>
      b ← arena_to_block h a idx;
      d ← from_opt (descs h !! i);
      push_blocks n (set_free_list h i (free_list d ++ [b])) a (idx + 1) i
  end.
(** [for (i = 0; i < d->blocks_per_arena; i++) list_remove (...)]. *)
Fixpoint remove_blocks (n : nat) (h : heap) (a idx : Z) (i : nat) : res heap :=
  match n with
  | O => Ok h
  | S n =>
      b ← arena_to_block h a idx;
      d ← from_opt (descs h !! i);
      remove_blocks n (set_free_list h i (filter (λ x, x ≠ b) (free_list d))) a (idx + 1) i
  end.

Definition malloc_big (h : heap) (size : Z) : res (Z * heap) :=
  let page_cnt := DIV_ROUND_UP (u32 (size + ARENA_SIZE)) PGSIZE in
  '(a, t) ← pa_get (pages h) page_cnt;
  if a =? 0 then Ok (0, set_pages h t) else
  Ok (u32 (a + ARENA_SIZE), set_arena (set_pages h t) a (Arena None page_cnt)).

(** [list_pop_front] and the decrement of the arena's count. *)
Definition take_block (h : heap) (i : nat) : res (Z * heap) :=
  d ← from_opt (descs h !! i);
  match free_list d with
  | [] => Panic
  | b :: l =>
      let h := set_free_list h i l in
      '(a, ar) ← block_to_arena h b;
      Ok (b, set_arena h a (Arena (a_desc ar) (u32 (free_cnt ar - 1))))
  end.

Definition malloc (h : heap) (size : Z) : res (Z * heap) :=
  if size =? 0 then Ok (0, h) else
  match find_desc (descs h) size with
  | None => malloc_big h size
  | Some i =>
      d ← from_opt (descs h !! i);
      if bool_decide (free_list d = []) then
        '(a, t) ← pa_get (pages h) 1;
        if a =? 0 then Ok (0, set_pages h t) else
        let h := set_arena (set_pages h t) a (Arena (Some i) (blocks_per_arena d)) in
        h ← push_blocks (Z.to_nat (blocks_per_arena d)) h a 0 i;
        take_block h i
      else take_block h i
  end.

Definition fill_mem (h : heap) (a v n : Z) : heap :=
  Heap (descs h) (arenas h) (pages h) (fill (mem h) a v n).
Definition copy_mem (h : heap) (dst src n : Z) : heap :=
  Heap (descs h) (arenas h) (pages h)
    (λ x, if (dst <=? x) && (x <? dst + n) then mem h (src + (x - dst)) else mem h x).

Definition calloc (h : heap) (a b : Z) : res (Z * heap) :=
  let size := u32 (a * b) in
  if (size <? a) || (size <? b) then Ok (0, h) else
  '(p, h) ← malloc h size;
  if negb (p =? 0) then Ok (p, fill_mem h p 0 size) else Ok (p, h).

Definition block_size_of (h : heap) (block : Z) : res Z :=
  '(a, ar) ← block_to_arena h block;
  match a_desc ar with
  | Some i => d ← from_opt (descs h !! i); Ok (block_size d)
  | None => Ok (u32 (PGSIZE * free_cnt ar - pg_ofs block))
  end.

Definition free (h : heap) (p : Z) : res heap :=
  if negb (p =? 0) then
    '(a, ar) ← block_to_arena h p;
    match a_desc ar with
    | Some i =>
        d ← from_opt (descs h !! i);
        let h := fill_mem h p 0xcc (block_size d) in
        let h := set_free_list h i (p :: free_list d) in
        let cnt := u32 (free_cnt ar + 1) in
        let h := set_arena h a (Arena (Some i) cnt) in
        if blocks_per_arena d <=? cnt then
          ASSERT cnt =? blocks_per_arena d;;
          h ← remove_blocks (Z.to_nat (blocks_per_arena d)) h a 0 i;
          t ← pa_free (pages h) a 1;
          Ok (Heap (descs h) (delete a (arenas h)) t (mem h))
        else Ok h
    | None =>
        t ← pa_free (pages h) a (free_cnt ar);
        Ok (Heap (descs h) (delete a (arenas h)) t (mem h))
    end
  else Ok h.

Definition realloc (h : heap) (old_block new_size : Z) : res (Z * heap) :=
  if new_size =? 0 then h ← free h old_block; Ok (0, h) else
  '(new_block, h) ← malloc h new_size;
  if negb (old_block =? 0) && negb (new_block =? 0) then
    old_size ← block_size_of h old_block;
    let min_size := if new_size <? old_size then new_size else old_size in
    h ← free (copy_mem h new_block old_block min_size) old_block;
    Ok (new_block, h)
  else Ok (new_block, h).

End ops.
Arguments heap T : clear implicits.

(** ** Blocks in an arena *)

Definition desc_ok (i : nat) (d : desc) : Prop :=
  (i < 7)%nat ∧ block_size d = 16 * 2 ^ Z.of_nat i ∧ blocks_per_arena d = 4084 / block_size d.

Lemma desc_ok_facts i d :
  desc_ok i d → 16 ≤ block_size d ≤ 1024 ∧ 3 ≤ blocks_per_arena d ≤ 255
    ∧ blocks_per_arena d * block_size d ≤ 4084.
Proof.
  intros (Hi & Hs & Hb). rewrite Hb, Hs.
  do 7 (destruct i as [|i]; [vm_compute; intuition congruence|]). lia.
Qed.

(** [b] is a block of the arena at page [a]. *)
Definition is_block (d : desc) (a b : Z) : Prop :=
  ∃ k, 0 ≤ k < blocks_per_arena d ∧ b = a + ARENA_SIZE + k * block_size d.

Definition blocks_of (d : desc) (a : Z) : list Z :=
  (λ k, a + ARENA_SIZE + k * block_size d) <$> seqZ 0 (blocks_per_arena d).

Lemma elem_of_blocks_of d a b : b ∈ blocks_of d a ↔ is_block d a b.
Proof.
  unfold blocks_of, is_block. rewrite list_elem_of_fmap. split.
  - intros (k & -> & Hk%elem_of_seqZ). exists k. split; [lia|done].
  - intros (k & Hk & ->). exists k. split; [done|]. apply elem_of_seqZ. lia.
Qed.
Lemma NoDup_blocks_of i d a : desc_ok i d → NoDup (blocks_of d a).
Proof.
  intros Hd%desc_ok_facts. apply NoDup_fmap_2; [|apply NoDup_seqZ]. intros k k' Hk. nia.
Qed.
Lemma length_blocks_of i d a :
  desc_ok i d → Z.of_nat (length (blocks_of d a)) = blocks_per_arena d.
Proof.
  intros Hd%desc_ok_facts. unfold blocks_of. rewrite length_fmap, length_seqZ. lia.
Qed.

Lemma is_block_page i d a b :
  desc_ok i d → 0 < a → a mod PGSIZE = 0 → a + PGSIZE ≤ 2 ^ 32 → is_block d a b →
  pg_round_down b = a ∧ pg_ofs b = b - a ∧ a + ARENA_SIZE ≤ b ∧ b + block_size d ≤ a + PGSIZE.
Proof.
  intros Hd%desc_ok_facts Ha Hal Hend (k & Hk & ->). unfold ARENA_SIZE, PGSIZE in *.
  assert (0 ≤ k * block_size d ∧ k * block_size d + block_size d ≤ 4084) by nia.
  assert (Hmod : (a + 12 + k * block_size d) mod 4096 = 12 + k * block_size d).
  { rewrite <- Z.add_assoc, Z.add_mod, Hal, Z.add_0_l, Z.mod_mod by lia. apply Z.mod_small. lia. }
  rewrite pg_round_down_spec, pg_ofs_mod by lia. unfold PGSIZE. rewrite Hmod. lia.
Qed.

Section spec.
Context {T : Type} `{!PageAllocator T}.
Implicit Types (h : heap T).

Definition arena_pages (ar : arena) : Z :=
  match a_desc ar with Some _ => 1 | None => free_cnt ar end.

Definition arena_ok h (a : Z) (ar : arena) : Prop :=
  0 < a ∧ a mod PGSIZE = 0 ∧ 0 < arena_pages ar ∧ a + PGSIZE * arena_pages ar ≤ 2 ^ 32 - PGSIZE
  ∧ ∀ x, in_group a (arena_pages ar) x → pa_used (pages h) x.

(** The free blocks of the arena at page [a]. *)
Definition free_in (d : desc) (a : Z) : list Z :=
  filter (λ b, pg_round_down b = a) (free_list d).

(** The invariant, without the clause that no arena is entirely free. *)
Record winv h : Prop := {
  winv_pages : pa_inv (pages h);
  winv_descs : length (descs h) = 7%nat ∧ ∀ i d, descs h !! i = Some d → desc_ok i d;
  winv_arena a ar : arenas h !! a = Some ar → arena_ok h a ar;
  winv_disj a ar a' ar' x :
    arenas h !! a = Some ar → arenas h !! a' = Some ar' →
    in_group a (arena_pages ar) x → in_group a' (arena_pages ar') x → a = a';
  winv_free i d :
    descs h !! i = Some d →
    NoDup (free_list d) ∧ ∀ b, b ∈ free_list d →
      ∃ a ar, arenas h !! a = Some ar ∧ a_desc ar = Some i ∧ is_block d a b;
  winv_cnt a ar i :
    arenas h !! a = Some ar → a_desc ar = Some i →
    ∃ d, descs h !! i = Some d ∧ free_cnt ar = Z.of_nat (length (free_in d a))
}.

(** Some block of the arena at page [a] is in use. *)
Definition busy h (a : Z) : Prop :=
  ∀ ar i d, arenas h !! a = Some ar → a_desc ar = Some i → descs h !! i = Some d →
    free_cnt ar < blocks_per_arena d.

Definition inv h : Prop := winv h ∧ ∀ a, busy h a.

(** [b] is a block in use, of [n] bytes. *)
Definition live h (b n : Z) : Prop :=
  ∃ ar, arenas h !! pg_round_down b = Some ar ∧
  match a_desc ar with
  | Some i => ∃ d, descs h !! i = Some d ∧ is_block d (pg_round_down b) b
      ∧ b ∉ free_list d ∧ n = block_size d
  | None => b = pg_round_down b + ARENA_SIZE ∧ n = PGSIZE * free_cnt ar - ARENA_SIZE
  end.

Lemma winv_arena_block h a ar i d b :
  winv h → arenas h !! a = Some ar → a_desc ar = Some i → descs h !! i = Some d →
  is_block d a b →
  pg_round_down b = a ∧ pg_ofs b = b - a ∧ a + ARENA_SIZE ≤ b ∧ b + block_size d ≤ a + PGSIZE.
Proof.
  intros Hw Ha Hd Hi Hb. destruct (winv_arena h Hw a ar Ha) as (H0 & Hal & Hn & Hend & _).
  unfold arena_pages in *. rewrite Hd in *.
  apply (is_block_page i); [by apply (winv_descs h Hw)|done|done|unfold PGSIZE in *; lia|done].
Qed.

(** The free blocks of an arena are distinct blocks of it. *)
Lemma free_in_blocks h a ar i d :
  winv h → arenas h !! a = Some ar → a_desc ar = Some i → descs h !! i = Some d →
  NoDup (free_in d a) ∧ ∀ b, b ∈ free_in d a → is_block d a b.
Proof.
  intros Hw Ha Hd Hi. destruct (winv_free h Hw i d Hi) as [Hn Hf]. split.
  - by apply NoDup_filter.
  - intros b [Hp Hb]%list_elem_of_filter. destruct (Hf b Hb) as (a' & ar' & Ha' & Hd' & Hbl).
    pose proof (winv_arena_block h a' ar' i d b Hw Ha' Hd' Hi Hbl) as [Hp' _].
    congruence.
Qed.

Lemma free_in_le h a ar i d :
  winv h → arenas h !! a = Some ar → a_desc ar = Some i → descs h !! i = Some d →
  Z.of_nat (length (free_in d a)) ≤ blocks_per_arena d.
Proof.
  intros Hw Ha Hd Hi. destruct (free_in_blocks h a ar i d) as [Hn Hf]; [done..|].
  rewrite <- (length_blocks_of i d a) by by apply (winv_descs h Hw).
  apply Nat2Z.inj_le, submseteq_length, NoDup_submseteq; [done|].
  intros b Hb. apply elem_of_blocks_of. by apply Hf.
Qed.

(** Blocks in use do not overlap. *)
Lemma live_disjoint h b n b' n' :
  winv h → live h b n → live h b' n' → b ≠ b' → b + n ≤ b' ∨ b' + n' ≤ b.
Proof.
  intros Hw (ar & Ha & Hb) (ar' & Ha' & Hb') Hne.
  assert (Hspan : ∀ x m r, arenas h !! pg_round_down x = Some r →
    match a_desc r with
    | Some i => ∃ d, descs h !! i = Some d ∧ is_block d (pg_round_down x) x
        ∧ x ∉ free_list d ∧ m = block_size d
    | None => x = pg_round_down x + ARENA_SIZE ∧ m = PGSIZE * free_cnt r - ARENA_SIZE
    end → pg_round_down x ≤ x ∧ x + m ≤ pg_round_down x + PGSIZE * arena_pages r ∧ 0 ≤ m).
  { intros x m r Hr Hm. destruct (winv_arena h Hw _ _ Hr) as (H0 & _ & Hn & _).
    unfold arena_pages in *. destruct (a_desc r) as [i|] eqn:E.
    - destruct Hm as (d & Hd & Hbl & _ & ->).
      pose proof (winv_arena_block h _ _ i d x Hw Hr E Hd Hbl).
      pose proof (desc_ok_facts i d ltac:(by apply (winv_descs h Hw))). unfold ARENA_SIZE in *. lia.
    - destruct Hm as [Hx ->]. unfold ARENA_SIZE, PGSIZE in *. lia. }
  pose proof (Hspan b n ar Ha Hb) as (Hs1 & Hs2 & _).
  pose proof (Hspan b' n' ar' Ha' Hb') as (Hs3 & Hs4 & _). clear Hspan.
  destruct (decide (pg_round_down b = pg_round_down b')) as [E|E].
  - rewrite E in *. rewrite Ha in Ha'. injection Ha' as <-.
    destruct (a_desc ar) as [i|]; [|lia].
    destruct Hb as (d & Hd & (k & Hk & Hbk) & _ & ->).
    destruct Hb' as (d' & Hd' & (k' & Hk' & Hbk') & _ & ->). rewrite Hd in Hd'. injection Hd' as <-.
    pose proof (desc_ok_facts i d ltac:(by apply (winv_descs h Hw))).
    destruct (Z.lt_total k k') as [|[->|]]; [left; nia|lia|right; nia].
  - destruct (winv_arena h Hw _ _ Ha) as (_ & Hal & _).
    destruct (winv_arena h Hw _ _ Ha') as (_ & Hal' & _).
    destruct (Z.lt_total (pg_round_down b) (pg_round_down b')) as [Hlt|[|Hlt]]; [left|done|right].
    + destruct (Z.le_gt_cases (pg_round_down b + PGSIZE * arena_pages ar) (pg_round_down b'))
        as [|Hgt]; [lia|]. destruct E.
      apply (winv_disj h Hw _ _ _ _ (pg_round_down b') Ha Ha'); [split; [lia|done]|].
      apply in_group_head; [|done]. by apply (winv_arena h Hw _ _ Ha').
    + destruct (Z.le_gt_cases (pg_round_down b' + PGSIZE * arena_pages ar') (pg_round_down b))
        as [|Hgt]; [lia|]. destruct E.
      apply (winv_disj h Hw _ _ _ _ (pg_round_down b) Ha Ha'); [|split; [lia|done]].
      apply in_group_head; [|done]. by apply (winv_arena h Hw _ _ Ha).
Qed.

(** ** Changing the free list of one descriptor *)

Definition with_list (d : desc) (l : list Z) : desc :=
  Desc (block_size d) (blocks_per_arena d) l.

Lemma lookup_set_free_list h i l j d :
  descs (set_free_list h i l) !! j = Some d ↔
  ∃ d0, descs h !! j = Some d0 ∧ d = if decide (i = j) then with_list d0 l else d0.
Proof.
  simpl. destruct (decide (i = j)) as [->|].
  - rewrite list_lookup_alter_eq, fmap_Some. done.
  - rewrite list_lookup_alter_ne by done. naive_solver.
Qed.

(** The state after the free list of descriptor [i] becomes [l] and the count of
    the arena at [a] becomes [c]. *)
Definition update h (i : nat) (l : list Z) (a c : Z) : heap T :=
  set_arena (set_free_list h i l) a (Arena (Some i) c).

Lemma winv_update h i d a ar l :
  winv h → descs h !! i = Some d → arenas h !! a = Some ar → a_desc ar = Some i →
  NoDup l →
  (∀ b, b ∈ l → ∃ a ar, arenas h !! a = Some ar ∧ a_desc ar = Some i ∧ is_block d a b) →
  (∀ a', a' ≠ a → length (filter (λ b, pg_round_down b = a') l) = length (free_in d a')) →
  winv (update h i l a (Z.of_nat (length (filter (λ b, pg_round_down b = a) l)))).
Proof.
  intros Hw Hd Ha Hi Hn Hbl Hoth. split.
  - apply (winv_pages h Hw).
  - destruct (winv_descs h Hw) as [Hlen Hok]. split; [by simpl; rewrite length_alter|].
    intros j d' (d0 & Hd0 & ->)%lookup_set_free_list. destruct (decide (i = j)); [|by apply Hok].
    by apply (Hok j d0).
  - intros x r Hx. simpl in Hx. apply lookup_insert_Some in Hx as [[<- <-]|[_ Hx]].
    + pose proof (winv_arena h Hw a ar Ha) as Hok. unfold arena_ok, arena_pages in *.
      by rewrite Hi in Hok.
    + apply (winv_arena h Hw x r Hx).
  - intros x r x' r' y Hx Hx' Hy Hy'. simpl in Hx, Hx'.
    assert (Hold : ∀ z s, <[a := Arena (Some i) (Z.of_nat (length (filter (λ b, pg_round_down b = a) l)))]>
      (arenas h) !! z = Some s → ∃ s0, arenas h !! z = Some s0 ∧ arena_pages s0 = arena_pages s).
    { intros z s [[<- <-]|[_ Hz]]%lookup_insert_Some; [|by exists s].
      exists ar. split; [done|]. unfold arena_pages. by rewrite Hi. }
    destruct (Hold x r Hx) as (s & Hs & Es), (Hold x' r' Hx') as (s' & Hs' & Es').
    rewrite <- Es in Hy. rewrite <- Es' in Hy'. by apply (winv_disj h Hw x s x' s' y).
  - assert (Hmap : ∀ x r j, arenas h !! x = Some r → a_desc r = Some j →
      ∃ x' r', arenas (update h i l a (Z.of_nat (length (filter (λ b, pg_round_down b = a) l)))) !! x'
        = Some r' ∧ a_desc r' = Some j ∧ x' = x).
    { intros x r j Hx Hj. simpl. destruct (decide (x = a)) as [->|].
      - eexists a, _. rewrite lookup_insert_eq. split_and!; [done|simpl; congruence|done].
      - exists x, r. by rewrite lookup_insert_ne. }
    intros j d' (d0 & Hd0 & ->)%lookup_set_free_list. destruct (decide (i = j)) as [<-|].
    + simpl. split; [done|]. intros b Hb. rewrite Hd in Hd0. injection Hd0 as <-.
      destruct (Hbl b Hb) as (x & r & Hx & Hr & Hk).
      destruct (Hmap x r i Hx Hr) as (x' & r' & H1 & H2 & ->). by exists x, r'.
    + destruct (winv_free h Hw j d0 Hd0) as [Hn0 Hf]. split; [done|]. intros b Hb.
      destruct (Hf b Hb) as (x & r & Hx & Hr & Hk).
      destruct (Hmap x r j Hx Hr) as (x' & r' & H1 & H2 & ->). by exists x, r'.
  - intros x r j Hx Hj. simpl in Hx.
    apply lookup_insert_Some in Hx as [[<- <-]|[Hne Hx]]; simpl in *.
    + injection Hj as <-. exists (with_list d l). rewrite list_lookup_alter_eq, Hd. done.
    + destruct (winv_cnt h Hw x r j Hx Hj) as (d0 & Hd0 & Hc).
      destruct (decide (i = j)) as [<-|].
      * rewrite Hd in Hd0. injection Hd0 as <-. exists (with_list d l).
        rewrite list_lookup_alter_eq, Hd. split; [done|]. rewrite Hc. f_equal. symmetry.
        by apply Hoth.
      * exists d0. by rewrite list_lookup_alter_ne.
Qed.

Lemma live_update h i d a ar l c x n :
  descs h !! i = Some d → arenas h !! a = Some ar → a_desc ar = Some i →
  live (update h i l a c) x n ↔
  ∃ r, arenas h !! pg_round_down x = Some r ∧
  match a_desc r with
  | Some j => ∃ d0, descs h !! j = Some d0 ∧ is_block d0 (pg_round_down x) x
      ∧ x ∉ (if decide (i = j) then l else free_list d0) ∧ n = block_size d0
  | None => x = pg_round_down x + ARENA_SIZE ∧ n = PGSIZE * free_cnt r - ARENA_SIZE
  end.
Proof.
  intros Hd Ha Hi. unfold live.
  assert (Hmatch : ∀ j, (∃ d', descs (update h i l a c) !! j = Some d' ∧
      is_block d' (pg_round_down x) x ∧ x ∉ free_list d' ∧ n = block_size d') ↔
    ∃ d0, descs h !! j = Some d0 ∧ is_block d0 (pg_round_down x) x
      ∧ x ∉ (if decide (i = j) then l else free_list d0) ∧ n = block_size d0).
  { intros j. split.
    - intros (d' & (d0 & Hd0 & ->)%lookup_set_free_list & H1 & H2 & H3).
      exists d0. by destruct (decide (i = j)).
    - intros (d0 & Hd0 & H1 & H2 & H3). eexists. split; [by apply lookup_set_free_list; eauto|].
      by destruct (decide (i = j)). }
  destruct (decide (pg_round_down x = a)) as [E|E].
  - rewrite E. simpl. rewrite lookup_insert_eq. split.
    + intros (r & [= <-] & Hr). exists ar. split; [done|]. rewrite Hi. rewrite <- E.
      apply Hmatch. by rewrite E.
    + intros (r & Hr & Hx). rewrite Ha in Hr. injection Hr as <-. rewrite Hi in Hx.
      eexists. split; [done|]. simpl. rewrite <- E in Hx. apply Hmatch in Hx. by rewrite E in Hx.
  - simpl. rewrite lookup_insert_ne by done. f_equiv. intros r.
    destruct (a_desc r) as [j|]; [|done]. by rewrite Hmatch.
Qed.

Lemma block_to_arena_spec h a ar i d b :
  winv h → arenas h !! a = Some ar → a_desc ar = Some i → descs h !! i = Some d →
  is_block d a b → block_to_arena h b = Ok (a, ar).
Proof.
  intros Hw Ha Hi Hd Hb.
  destruct (winv_arena_block h a ar i d b Hw Ha Hi Hd Hb) as (Hp & Ho & Hlo & Hhi).
  destruct (winv_arena h Hw a ar Ha) as (H0 & _).
  pose proof (desc_ok_facts i d ltac:(by apply (winv_descs h Hw))).
  unfold block_to_arena. rewrite Hp, (proj2 (Z.eqb_neq a 0)) by lia. simpl. rewrite Ha. simpl.
  rewrite Hi, Hd. simpl. rewrite Ho. destruct Hb as (k & Hk & ->).
  replace (a + ARENA_SIZE + k * block_size d - a - ARENA_SIZE) with (k * block_size d) by lia.
  rewrite u32_small, Z.mod_mul by nia. done.
Qed.

Lemma filter_cons_length (a b : Z) l :
  Z.of_nat (length (filter (λ x, pg_round_down x = a) (b :: l))) =
  Z.of_nat (length (filter (λ x, pg_round_down x = a) l)) + (if decide (pg_round_down b = a) then 1 else 0).
Proof.
  destruct (decide (pg_round_down b = a)).
  - rewrite filter_cons_True by done. simpl. lia.
  - rewrite filter_cons_False by done. lia.
Qed.

(** Taking the first block of a free list. *)
Lemma take_block_spec h i d b l :
  winv h → descs h !! i = Some d → free_list d = b :: l →
  ∃ h', take_block h i = Ok (b, h') ∧ winv h' ∧ (∀ n, ¬ live h b n)
    ∧ (∀ x n, live h' x n ↔ live h x n ∨ x = b ∧ n = block_size d)
    ∧ ((∀ a, a ≠ pg_round_down b → busy h a) → ∀ a, busy h' a).
Proof.
  intros Hw Hd Hl. destruct (winv_free h Hw i d Hd) as [Hn Hf]. rewrite Hl in Hn, Hf.
  destruct (Hf b) as (a & ar & Ha & Hi & Hb); [by left|]. apply NoDup_cons in Hn as [Hbl Hn].
  destruct (winv_arena_block h a ar i d b Hw Ha Hi Hd Hb) as (Hp & _).
  destruct (winv_cnt h Hw a ar i Ha Hi) as (d' & Hd' & Hc). rewrite Hd in Hd'. injection Hd' as <-.
  unfold free_in in Hc. rewrite Hl, filter_cons_length, decide_True in Hc by done.
  pose proof (free_in_le h a ar i d Hw Ha Hi Hd) as Hle. unfold free_in in Hle.
  rewrite Hl, filter_cons_length, decide_True in Hle by done.
  pose proof (desc_ok_facts i d ltac:(by apply (winv_descs h Hw))) as Hok.
  exists (update h i l a (Z.of_nat (length (filter (λ b, pg_round_down b = a) l)))).
  assert (Htake : take_block h i = Ok (b, update h i l a
      (Z.of_nat (length (filter (λ b, pg_round_down b = a) l))))).
  { unfold take_block. rewrite Hd. simpl. rewrite Hl.
    assert (Hb2 : block_to_arena (set_free_list h i l) b = block_to_arena h b).
    { unfold block_to_arena. simpl. rewrite Hp, Ha. simpl. rewrite Hi.
      rewrite list_lookup_alter_eq, Hd. done. }
    rewrite Hb2, (block_to_arena_spec h a ar i d) by done. simpl. rewrite Hi. unfold update.
    rewrite u32_small by lia. do 4 f_equal. lia. }
  split_and!.
  - done.
  - apply (winv_update h i d a ar); [done..| |].
    + intros x Hx. apply Hf. by right.
    + intros a' Ha'. unfold free_in. rewrite Hl, filter_cons_False by congruence. done.
  - intros n (r & Hr & Hx). rewrite Hp, Ha in Hr. injection Hr as <-. rewrite Hi in Hx.
    destruct Hx as (d0 & Hd0 & _ & Hnot & _). rewrite Hd in Hd0. injection Hd0 as <-.
    apply Hnot. rewrite Hl. by left.
  - intros x n. rewrite (live_update h i d a ar l) by done. unfold live. split.
    + intros (r & Hr & Hx). destruct (decide (x = b)) as [->|Hne].
      * right. rewrite Hp, Ha in Hr. injection Hr as <-. rewrite Hi in Hx.
        destruct Hx as (d0 & Hd0 & _ & _ & ->). rewrite Hd in Hd0. by injection Hd0 as <-.
      * left. exists r. split; [done|]. destruct (a_desc r) as [j|]; [|done].
        destruct Hx as (d0 & Hd0 & H1 & H2 & H3). exists d0. split_and!; [done..| |done].
        destruct (decide (i = j)) as [<-|]; [|done]. rewrite Hd in Hd0. injection Hd0 as <-.
        rewrite Hl. by apply not_elem_of_cons.
    + intros [(r & Hr & Hx)|[-> ->]].
      * exists r. split; [done|]. destruct (a_desc r) as [j|]; [|done].
        destruct Hx as (d0 & Hd0 & H1 & H2 & H3). exists d0. split_and!; [done..| |done].
        destruct (decide (i = j)) as [<-|]; [|done]. rewrite Hd in Hd0. injection Hd0 as <-.
        rewrite Hl in H2. by apply not_elem_of_cons in H2 as [_ ?].
      * exists ar. rewrite Hp, Ha, Hi. split; [done|]. exists d. by rewrite decide_True.
  - intros Hbusy x r j dj Hx Hj Hdj. simpl in Hx.
    apply lookup_set_free_list in Hdj as (d0 & Hd0 & ->).
    apply lookup_insert_Some in Hx as [[<- <-]|[Hne Hx]].
    + simpl in *. injection Hj as <-. rewrite decide_True by done. rewrite Hd in Hd0.
      injection Hd0 as <-. simpl. lia.
    + pose proof (Hbusy x ltac:(congruence) r j d0 Hx Hj Hd0). by destruct (decide (i = j)).
Qed.

(** Putting a block in use back on the free list. *)
Lemma give_block_spec h i d a ar p n :
  winv h → live h p n → arenas h !! a = Some ar → pg_round_down p = a →
  a_desc ar = Some i → descs h !! i = Some d →
  let h' := update h i (p :: free_list d) a (free_cnt ar + 1) in
  winv h' ∧ (∀ x m, live h' x m ↔ live h x m ∧ x ≠ p) ∧ 0 ≤ free_cnt ar
    ∧ free_cnt ar + 1 ≤ blocks_per_arena d
    ∧ is_block d a p.
Proof.
  intros Hw (r & Hr & Hp) Ha <- Hi Hd h'. rewrite Ha in Hr. injection Hr as <-. rewrite Hi in Hp.
  destruct Hp as (d0 & Hd0 & Hblk & Hnot & Hn). rewrite Hd in Hd0. injection Hd0 as <-.
  destruct (winv_cnt h Hw _ ar i Ha Hi) as (d' & Hd' & Hc). rewrite Hd in Hd'. injection Hd' as <-.
  destruct (winv_free h Hw i d Hd) as [Hnd Hf].
  assert (Hcnt : free_cnt ar + 1 =
    Z.of_nat (length (filter (λ b, pg_round_down b = pg_round_down p) (p :: free_list d)))).
  { rewrite filter_cons_length, decide_True by done. unfold free_in in Hc. lia. }
  assert (Hw' : winv h').
  { unfold h'. rewrite Hcnt. apply (winv_update h i d _ ar); [done..|by constructor| |].
    - intros b [->|Hb]%elem_of_cons; [by eexists _, _|by apply Hf].
    - intros a' Ha'. unfold free_in. by rewrite filter_cons_False by congruence. }
  split_and!; [done| |lia| |done].
  - intros x m. unfold h'. rewrite (live_update h i d _ ar) by done. unfold live. split.
    + intros (r & Hr & Hx). assert (Hne : x ≠ p).
      { intros ->. rewrite Ha in Hr. injection Hr as <-. rewrite Hi in Hx.
        destruct Hx as (d0 & Hd0 & _ & Hnp & _). rewrite decide_True in Hnp by done.
        apply Hnp. by left. }
      split; [|done]. exists r. split; [done|]. destruct (a_desc r) as [j|]; [|done].
      destruct Hx as (d0 & Hd0 & H1 & H2 & H3). exists d0. split_and!; [done..| |done].
      destruct (decide (i = j)) as [<-|]; [|done]. rewrite Hd in Hd0. injection Hd0 as <-.
      by apply not_elem_of_cons in H2 as [_ ?].
    + intros [(r & Hr & Hx) Hne]. exists r. split; [done|]. destruct (a_desc r) as [j|]; [|done].
      destruct Hx as (d0 & Hd0 & H1 & H2 & H3). exists d0. split_and!; [done..| |done].
      destruct (decide (i = j)) as [<-|]; [|done]. rewrite Hd in Hd0. injection Hd0 as <-.
      by apply not_elem_of_cons.
  - assert (Hal : arenas h' !! pg_round_down p = Some (Arena (Some i) (free_cnt ar + 1)))
      by (unfold h'; simpl; apply lookup_insert_eq).
    assert (Hdl : descs h' !! i = Some (with_list d (p :: free_list d)))
      by (unfold h'; simpl; by rewrite list_lookup_alter_eq, Hd).
    pose proof (free_in_le h' _ _ i _ Hw' Hal eq_refl Hdl) as Hle.
    unfold free_in in Hle. simpl in Hle. by rewrite <- Hcnt in Hle.
Qed.

(** ** New arenas and arenas given back *)

Lemma set_free_list_insert h i d l :
  descs h !! i = Some d →
  set_free_list h i l = Heap (<[i := with_list d l]> (descs h)) (arenas h) (pages h) (mem h).
Proof.
  intros Hd. unfold set_free_list. f_equal. apply list_eq. intros j.
  destruct (decide (i = j)) as [<-|].
  - rewrite list_lookup_alter_eq, Hd, list_lookup_insert_eq; [done|]. by eapply lookup_lt_Some.
  - by rewrite list_lookup_alter_ne, list_lookup_insert_ne by done.
Qed.

Lemma set_free_list_twice h i d l l' :
  descs h !! i = Some d → set_free_list (set_free_list h i l) i l' = set_free_list h i l'.
Proof.
  intros Hd. unfold set_free_list. simpl. f_equal. apply list_eq. intros j.
  destruct (decide (i = j)) as [<-|].
  - by rewrite !list_lookup_alter_eq, Hd.
  - by rewrite !list_lookup_alter_ne by done.
Qed.

Lemma set_free_list_same h i d :
  descs h !! i = Some d → set_free_list h i (free_list d) = h.
Proof.
  intros Hd. rewrite (set_free_list_insert h i d) by done. destruct h, d. simpl in *. f_equal.
  by apply list_insert_id.
Qed.

Lemma arena_to_block_spec h a ar i d k :
  descs h !! i = Some d → arenas h !! a = Some ar → a_desc ar = Some i → desc_ok i d →
  0 < a → a + PGSIZE ≤ 2 ^ 32 → 0 ≤ k < blocks_per_arena d →
  arena_to_block h a k = Ok (a + ARENA_SIZE + k * block_size d).
Proof.
  intros Hd Ha Hi Hok%desc_ok_facts H0 Hend Hk. unfold arena_to_block.
  rewrite (proj2 (Z.eqb_neq a 0)), Ha by lia. simpl. rewrite Hi. simpl. rewrite Hd. simpl.
  rewrite (proj2 (Z.ltb_lt k _)) by lia. f_equal. apply u32_small.
  unfold ARENA_SIZE, PGSIZE in *. nia.
Qed.

Definition blocks_from (d : desc) (a k : Z) (n : nat) : list Z :=
  (λ k, a + ARENA_SIZE + k * block_size d) <$> seqZ k (Z.of_nat n).

Lemma blocks_from_S d a k n :
  blocks_from d a k (S n) = (a + ARENA_SIZE + k * block_size d) :: blocks_from d a (k + 1) n.
Proof.
  unfold blocks_from. rewrite seqZ_cons by lia. simpl. do 2 f_equal; f_equal; lia.
Qed.

Lemma push_blocks_spec n : ∀ h a ar i d k,
  descs h !! i = Some d → arenas h !! a = Some ar → a_desc ar = Some i → desc_ok i d →
  0 < a → a + PGSIZE ≤ 2 ^ 32 → 0 ≤ k → k + Z.of_nat n ≤ blocks_per_arena d →
  push_blocks n h a k i = Ok (set_free_list h i (free_list d ++ blocks_from d a k n)).
Proof.
  induction n as [|n IH]; intros h a ar i d k Hd Ha Hi Hok H0 Hend Hk Hle; cbn [push_blocks].
  - unfold blocks_from. simpl. by rewrite app_nil_r, (set_free_list_same h i d).
  - rewrite (arena_to_block_spec h a ar i d) by (done || lia). simpl. rewrite Hd. simpl.
    rewrite (IH _ a ar i (with_list d (free_list d ++ [a + ARENA_SIZE + k * block_size d])));
      [|by simpl; rewrite list_lookup_alter_eq, Hd|done..|lia|simpl; lia].
    rewrite (set_free_list_twice h i d) by done. simpl. rewrite blocks_from_S.
    by rewrite <- app_assoc.
Qed.

Lemma remove_blocks_spec n : ∀ h a ar i d k,
  descs h !! i = Some d → arenas h !! a = Some ar → a_desc ar = Some i → desc_ok i d →
  0 < a → a + PGSIZE ≤ 2 ^ 32 → 0 ≤ k → k + Z.of_nat n ≤ blocks_per_arena d →
  remove_blocks n h a k i =
    Ok (set_free_list h i (filter (λ x, x ∉ blocks_from d a k n) (free_list d))).
Proof.
  induction n as [|n IH]; intros h a ar i d k Hd Ha Hi Hok H0 Hend Hk Hle; cbn [remove_blocks].
  - unfold blocks_from. simpl. rewrite filter_Forall, (set_free_list_same h i d); [done|done|].
    apply Forall_forall. intros x _. apply not_elem_of_nil.
  - rewrite (arena_to_block_spec h a ar i d) by (done || lia). simpl. rewrite Hd. simpl.
    set (b := a + ARENA_SIZE + k * block_size d).
    rewrite (IH _ a ar i (with_list d (filter (λ x, x ≠ b) (free_list d))));
      [|by simpl; rewrite list_lookup_alter_eq, Hd|done..|lia|simpl; lia].
    rewrite (set_free_list_twice h i d) by done. simpl. do 2 f_equal.
    rewrite list_filter_filter. apply list_filter_iff. intros x.
    rewrite blocks_from_S. fold b. rewrite not_elem_of_cons. unfold blocks_from. simpl. tauto.
Qed.

Lemma blocks_from_all d a : 0 ≤ blocks_per_arena d →
  blocks_from d a 0 (Z.to_nat (blocks_per_arena d)) = blocks_of d a.
Proof. intros. unfold blocks_from, blocks_of. by rewrite Z2Nat.id. Qed.

(** A fresh page has no arena yet. *)
Lemma fresh_no_arena h a n :
  winv h → 0 < n → a mod PGSIZE = 0 → (∀ x, in_group a n x → ¬ pa_used (pages h) x) →
  ∀ a' ar, arenas h !! a' = Some ar → ∀ x, in_group a n x → ¬ in_group a' (arena_pages ar) x.
Proof.
  intros Hw Hn Hal Hfree a' ar Ha' x Hx Hx'. apply (Hfree x Hx).
  destruct (winv_arena h Hw a' ar Ha') as (_ & _ & _ & _ & Hu). by apply Hu.
Qed.

(** Adding an arena on fresh pages keeps what does not concern free lists. *)
Lemma new_arena_pages h a ar t :
  winv h → pa_inv t → 0 < a → a mod PGSIZE = 0 → 0 < arena_pages ar →
  a + PGSIZE * arena_pages ar ≤ 2 ^ 32 - PGSIZE →
  (∀ x, in_group a (arena_pages ar) x → ¬ pa_used (pages h) x) →
  (∀ x, pa_used t x ↔ pa_used (pages h) x ∨ in_group a (arena_pages ar) x) →
  arenas h !! a = None
  ∧ (∀ ds m x r, <[a := ar]> (arenas h) !! x = Some r →
       arena_ok (Heap ds (<[a := ar]> (arenas h)) t m) x r)
  ∧ (∀ x r x' r' y, <[a := ar]> (arenas h) !! x = Some r → <[a := ar]> (arenas h) !! x' = Some r' →
       in_group x (arena_pages r) y → in_group x' (arena_pages r') y → x = x').
Proof.
  intros Hw Ht H0 Hal Hn Hend Hfree Hus.
  pose proof (fresh_no_arena h a (arena_pages ar) Hw Hn Hal Hfree) as Hno.
  assert (Hnone : arenas h !! a = None).
  { destruct (arenas h !! a) as [r|] eqn:E; [|done].
    destruct (Hno a r E a); [by apply in_group_head|].
    destruct (winv_arena h Hw a r E) as (_ & _ & ? & _). by apply in_group_head. }
  split_and!; [done|..].
  - intros ds m x r [[<- <-]|[_ Hx]]%lookup_insert_Some.
    + split_and!; [done..|]. intros x Hx. apply Hus. by right.
    + destruct (winv_arena h Hw x r Hx) as (A & B & C & D & E). split_and!; [done..|].
      intros y Hy. apply Hus. left. by apply E.
  - intros x r x' r' y [[<- <-]|[_ Hx]]%lookup_insert_Some [[<- <-]|[_ Hx']]%lookup_insert_Some Hy Hy'.
    + done.
    + by destruct (Hno x' r' Hx' y Hy).
    + by destruct (Hno x r Hx y Hy').
    + by apply (winv_disj h Hw x r x' r' y).
Qed.

(** A big block. *)
Lemma new_big_spec h a n t :
  winv h → pa_inv t → 0 < a → a mod PGSIZE = 0 → 0 < n → a + PGSIZE * n ≤ 2 ^ 32 - PGSIZE →
  (∀ x, in_group a n x → ¬ pa_used (pages h) x) →
  (∀ x, pa_used t x ↔ pa_used (pages h) x ∨ in_group a n x) →
  let h' := set_arena (set_pages h t) a (Arena None n) in
  winv h' ∧ (∀ m, ¬ live h (a + ARENA_SIZE) m)
  ∧ (∀ x m, live h' x m ↔ live h x m ∨ x = a + ARENA_SIZE ∧ m = PGSIZE * n - ARENA_SIZE)
  ∧ ((∀ y, busy h y) → ∀ y, busy h' y).
Proof.
  intros Hw Ht H0 Hal Hn Hend Hfree Hus h'.
  destruct (new_arena_pages h a (Arena None n) t) as (Hnone & Hok & Hdis); [done..|].
  assert (Hpg : pg_round_down (a + ARENA_SIZE) = a).
  { unfold ARENA_SIZE, PGSIZE in *. rewrite pg_round_down_spec by lia. unfold PGSIZE.
    assert (E : (a + 12) mod 4096 = 12) by (by rewrite Z.add_mod, Hal by lia). lia. }
  assert (Hne : ∀ x r, arenas h !! x = Some r → x ≠ a) by (intros x r Hx ->; congruence).
  split_and!.
  - split; simpl; [done|apply (winv_descs h Hw)|apply Hok|apply Hdis|..].
    + intros i d Hd. destruct (winv_free h Hw i d Hd) as [Hnd Hf]. split; [done|].
      intros b Hb. destruct (Hf b Hb) as (x & r & Hx & Hr & Hk). exists x, r.
      rewrite lookup_insert_ne by (by apply not_eq_sym, (Hne x r)). done.
    + intros x r i [[<- <-]|[_ Hx]]%lookup_insert_Some Hi; [done|].
      by apply (winv_cnt h Hw x r i).
  - intros m (r & Hr & _). rewrite Hpg in Hr. congruence.
  - intros x m. unfold live. simpl. split.
    + intros (r & [[E <-]|[_ Hr]]%lookup_insert_Some & Hx).
      * right. simpl in Hx. rewrite <- E in Hx. done.
      * left. by exists r.
    + intros [(r & Hr & Hx)|[-> ->]].
      * exists r. split; [|done]. rewrite lookup_insert_ne by (by apply not_eq_sym, (Hne _ r)). done.
      * eexists. rewrite Hpg, lookup_insert_eq. done.
  - intros Hb x r i d Hx Hi Hd. simpl in Hx.
    apply lookup_insert_Some in Hx as [[<- <-]|[_ Hx]]; [done|].
    by apply (Hb x r i d).
Qed.

(** A page cut into blocks for a descriptor that has none left. *)
Lemma new_arena_spec h a i d t :
  winv h → pa_inv t → 0 < a → a mod PGSIZE = 0 → a + PGSIZE * 1 ≤ 2 ^ 32 - PGSIZE →
  (∀ x, in_group a 1 x → ¬ pa_used (pages h) x) →
  (∀ x, pa_used t x ↔ pa_used (pages h) x ∨ in_group a 1 x) →
  descs h !! i = Some d → free_list d = [] →
  let h' := set_free_list (set_arena (set_pages h t) a (Arena (Some i) (blocks_per_arena d))) i
              (blocks_of d a) in
  winv h' ∧ (∀ x m, live h' x m ↔ live h x m) ∧ (∀ y, y ≠ a → busy h y → busy h' y).
Proof.
  intros Hw Ht H0 Hal Hend Hfree Hus Hd Hl h'.
  destruct (new_arena_pages h a (Arena (Some i) (blocks_per_arena d)) t) as (Hnone & Hok & Hdis);
    [done..|].
  pose proof (proj2 (winv_descs h Hw) i d Hd) as Hdok.
  assert (Hne : ∀ x r, arenas h !! x = Some r → x ≠ a) by (intros x r Hx ->; congruence).
  assert (Hpg : ∀ b, b ∈ blocks_of d a → pg_round_down b = a).
  { intros b Hb%elem_of_blocks_of.
    apply (is_block_page i d a b Hdok H0 Hal); [unfold PGSIZE in *; lia|done]. }
  assert (Hdl : ∀ j dj, descs h' !! j = Some dj ↔ ∃ d0, descs h !! j = Some d0 ∧
    dj = if decide (i = j) then with_list d0 (blocks_of d a) else d0).
  { intros j dj. unfold h'. by rewrite lookup_set_free_list. }
  assert (Hcnt : Z.of_nat (length (filter (λ b, pg_round_down b = a) (blocks_of d a)))
    = blocks_per_arena d).
  { rewrite filter_Forall by (by apply Forall_forall). by apply (length_blocks_of i). }
  split_and!.
  - split; simpl; [done|split|apply Hok|apply Hdis|..].
    + rewrite length_alter. apply (winv_descs h Hw).
    + intros j dj (d0 & Hd0 & ->)%Hdl. pose proof (proj2 (winv_descs h Hw) j d0 Hd0).
      by destruct (decide (i = j)).
    + intros j dj (d0 & Hd0 & ->)%Hdl. destruct (decide (i = j)) as [<-|].
      * rewrite Hd in Hd0. injection Hd0 as <-. simpl. split; [by apply (NoDup_blocks_of i)|].
        intros b Hb. eexists a, _. rewrite lookup_insert_eq. split_and!; [done..|].
        by apply elem_of_blocks_of.
      * destruct (winv_free h Hw j d0 Hd0) as [Hnd Hf]. split; [done|].
        intros b Hb. destruct (Hf b Hb) as (x & r & Hx & Hr & Hk). exists x, r.
        rewrite lookup_insert_ne by (by apply not_eq_sym, (Hne x r)). done.
    + intros x r j [[<- <-]|[Hxa Hx]]%lookup_insert_Some Hj.
      * simpl in *. injection Hj as <-. exists (with_list d (blocks_of d a)). split.
        -- apply Hdl. exists d. by rewrite decide_True.
        -- unfold free_in. simpl. by rewrite Hcnt.
      * destruct (winv_cnt h Hw x r j Hx Hj) as (d0 & Hd0 & Hc). destruct (decide (i = j)) as [<-|].
        -- rewrite Hd in Hd0. injection Hd0 as <-. exists (with_list d (blocks_of d a)).
           split; [apply Hdl; exists d; by rewrite decide_True|]. rewrite Hc. unfold free_in.
           simpl. rewrite (filter_none _ (blocks_of d a)); [by rewrite Hl|].
           apply Forall_forall. intros b Hb. rewrite (Hpg b Hb). done.
        -- exists d0. split; [|done]. apply Hdl. exists d0. by rewrite decide_False.
  - intros x m. unfold live. change (arenas h') with
      (<[a := Arena (Some i) (blocks_per_arena d)]> (arenas h)). split.
    + intros (r & [[E <-]|[Hxa Hr]]%lookup_insert_Some & Hx); simpl in Hx.
      * destruct Hx as (dj & (d0 & Hd0 & ->)%Hdl & Hb & Hnot & _).
        rewrite decide_True in Hb, Hnot by done. rewrite Hd in Hd0. injection Hd0 as <-.
        destruct Hnot. apply elem_of_blocks_of. by rewrite E.
      * exists r. split; [done|]. destruct (a_desc r) as [j|]; [|done].
        destruct Hx as (dj & (d0 & Hd0 & ->)%Hdl & Hb & Hnot & ->). exists d0.
        destruct (decide (i = j)) as [<-|]; [|done]. rewrite Hd in Hd0. injection Hd0 as <-.
        rewrite Hl. split_and!; [done..|apply not_elem_of_nil|done].
    + intros (r & Hr & Hx). exists r. simpl.
      rewrite lookup_insert_ne by (by apply not_eq_sym, (Hne _ r)). split; [done|].
      destruct (a_desc r) as [j|]; [|done]. destruct Hx as (d0 & Hd0 & Hb & Hnot & ->).
      eexists. split; [apply Hdl; by exists d0|]. destruct (decide (i = j)) as [<-|]; [|done].
      rewrite Hd in Hd0. injection Hd0 as <-. split_and!; [done| |done].
      intros Hin%Hpg. by apply (Hne _ r Hr).
  - intros y Hy Hb r j dj Hx Hj (d0 & Hd0 & ->)%Hdl. simpl in Hx.
    apply lookup_insert_Some in Hx as [[E _]|[_ Hx]]; [congruence|].
    specialize (Hb r j d0 Hx Hj Hd0). by destruct (decide (i = j)).
Qed.

(** An arena all of whose blocks are free goes back to the page allocator. *)
Lemma drop_arena_spec h a i d t c :
  winv h → arenas h !! a = Some (Arena (Some i) c) → descs h !! i = Some d →
  c = blocks_per_arena d → pa_inv t →
  (∀ x, pa_used t x ↔ pa_used (pages h) x ∧ ¬ in_group a 1 x) →
  let h1 := set_free_list h i (filter (λ x, x ∉ blocks_of d a) (free_list d)) in
  let h' := Heap (descs h1) (delete a (arenas h1)) t (mem h1) in
  winv h' ∧ (∀ x m, live h' x m ↔ live h x m) ∧ (∀ y, y ≠ a → busy h y → busy h' y).
Proof.
  intros Hw Ha Hd Hc Ht Hus h1 h'. set (ar := Arena (Some i) c) in *.
  destruct (free_in_blocks h a ar i d Hw Ha eq_refl Hd) as [Hnd Hfb].
  destruct (winv_cnt h Hw a ar i Ha eq_refl) as (d' & Hd' & Hcnt). rewrite Hd in Hd'.
  injection Hd' as <-. pose proof (proj2 (winv_descs h Hw) i d Hd) as Hdok.
  assert (Hall : ∀ b, is_block d a b → b ∈ free_list d).
  { intros b Hb. assert (Hin : b ∈ free_in d a); [|by apply list_elem_of_filter in Hin as [_ ?]].
    assert (Hperm : free_in d a ≡ₚ blocks_of d a).
    { apply submseteq_length_Permutation.
      - apply NoDup_submseteq; [done|]. intros x Hx. by apply elem_of_blocks_of, Hfb.
      - apply Nat2Z.inj_le. rewrite (length_blocks_of i) by done. simpl in Hcnt. lia. }
    rewrite Hperm. by apply elem_of_blocks_of. }
  assert (Hpg : ∀ b, is_block d a b → pg_round_down b = a).
  { intros b Hb. by apply (winv_arena_block h a ar i d b). }
  assert (Hdl : ∀ j dj, descs h' !! j = Some dj ↔ ∃ d0, descs h !! j = Some d0 ∧
    dj = if decide (i = j) then with_list d0 (filter (λ x, x ∉ blocks_of d a) (free_list d)) else d0).
  { intros j dj. change (descs h') with (descs h1). unfold h1. by rewrite lookup_set_free_list. }
  assert (Hfilt : ∀ b x r, arenas h !! x = Some r → a_desc r = Some i → is_block d x b → x ≠ a →
    b ∉ blocks_of d a).
  { intros b x r Hx Hr Hb Hxa Hin%elem_of_blocks_of%Hpg.
    destruct (winv_arena_block h x r i d b Hw Hx Hr Hd Hb) as [? _]. congruence. }
  split_and!.
  - split; simpl; [done|split|..].
    + rewrite length_alter. apply (winv_descs h Hw).
    + intros j dj (d0 & Hd0 & ->)%Hdl. pose proof (proj2 (winv_descs h Hw) j d0 Hd0).
      by destruct (decide (i = j)).
    + intros x r [Hxa Hx]%lookup_delete_Some.
      destruct (winv_arena h Hw x r Hx) as (A & B & C & D & E). split_and!; [done..|].
      intros y Hy. apply Hus. split; [by apply E|]. intros Hy'.
      destruct Hxa. by apply (winv_disj h Hw a ar x r y Ha Hx).
    + intros x r x' r' y [_ Hx]%lookup_delete_Some [_ Hx']%lookup_delete_Some.
      by apply (winv_disj h Hw).
    + intros j dj (d0 & Hd0 & ->)%Hdl. destruct (winv_free h Hw j d0 Hd0) as [Hn0 Hf].
      destruct (decide (i = j)) as [<-|].
      * simpl. rewrite Hd in Hd0. injection Hd0 as <-. split; [by apply NoDup_filter|].
        intros b [Hnot Hb]%list_elem_of_filter. destruct (Hf b Hb) as (x & r & Hx & Hr & Hk).
        exists x, r. split; [|done]. apply lookup_delete_Some. split; [|done]. intros <-.
        apply Hnot. by apply elem_of_blocks_of.
      * split; [done|]. intros b Hb. destruct (Hf b Hb) as (x & r & Hx & Hr & Hk).
        exists x, r. split; [|done]. apply lookup_delete_Some. split; [|done].
        intros <-. rewrite Ha in Hx. injection Hx as <-. simpl in Hr. congruence.
    + intros x r j [Hxa Hx]%lookup_delete_Some Hj.
      destruct (winv_cnt h Hw x r j Hx Hj) as (d0 & Hd0 & Hcx). eexists.
      split; [apply Hdl; by exists d0|]. rewrite Hcx. do 2 f_equal. unfold free_in.
      destruct (decide (i = j)) as [<-|]; [|done]. simpl. rewrite Hd in Hd0. injection Hd0 as <-.
      rewrite list_filter_filter. apply list_filter_iff. intros b. split; [|by intros [? _]].
      intros Hb. split; [done|]. intros Hin%elem_of_blocks_of%Hpg. congruence.
  - intros x m. unfold live. change (arenas h') with (delete a (arenas h)). split.
    + intros (r & [Hxa Hr]%lookup_delete_Some & Hx). exists r. split; [done|].
      destruct (a_desc r) as [j|] eqn:Ej; [|done].
      destruct Hx as (dj & (d0 & Hd0 & ->)%Hdl & Hb & Hnot & ->). exists d0.
      destruct (decide (i = j)) as [<-|]; [|done]. rewrite Hd in Hd0. injection Hd0 as <-.
      split_and!; [done..| |done]. intros Hin. apply Hnot. simpl. apply list_elem_of_filter.
      split; [|done]. by apply (Hfilt x _ r Hr Ej Hb).
    + intros (r & Hr & Hx). assert (Hxa : a ≠ pg_round_down x).
      { intros E. rewrite <- E, Ha in Hr. injection Hr as <-. simpl in Hx. rewrite <- E in Hx.
        destruct Hx as (d0 & Hd0 & Hb & Hnot & _). rewrite Hd in Hd0. injection Hd0 as <-.
        by apply Hnot, Hall. }
      exists r. split; [by apply lookup_delete_Some|]. destruct (a_desc r) as [j|]; [|done].
      destruct Hx as (d0 & Hd0 & Hb & Hnot & ->). eexists. split; [apply Hdl; by exists d0|].
      destruct (decide (i = j)) as [<-|]; [|done]. rewrite Hd in Hd0. injection Hd0 as <-.
      split_and!; [done| |done]. simpl. by intros [_ ?]%list_elem_of_filter.
  - intros y Hy Hb r j dj Hx Hj (d0 & Hd0 & ->)%Hdl. simpl in Hx.
    apply lookup_delete_Some in Hx as [_ Hx].
    specialize (Hb r j d0 Hx Hj Hd0). by destruct (decide (i = j)).
Qed.

(** ** [malloc] and [free] *)

Lemma find_desc_spec ds size :
  match find_desc ds size with
  | Some i => ∃ d, ds !! i = Some d ∧ size ≤ block_size d
  | None => ∀ d, d ∈ ds → block_size d < size
  end.
Proof.
  induction ds as [|d ds IH]; simpl; [by intros d ?%not_elem_of_nil|].
  destruct (Z.leb_spec size (block_size d)); [by exists d|].
  destruct (find_desc ds size) as [i|]; simpl; [done|].
  intros d' [->|Hd']%elem_of_cons; [lia|by apply IH].
Qed.

(** Contents of memory do not matter to the invariant. *)
Definition with_mem h (m : Z → Z) : heap T := Heap (descs h) (arenas h) (pages h) m.
Lemma inv_with_mem h m : winv h → winv (with_mem h m).
Proof. intros []. by split. Qed.

Lemma set_pages_same h : set_pages h (pages h) = h.
Proof. by destruct h. Qed.

(** What [malloc] may answer: null, or a block that was not in use, is now, and
    is large enough unless the size wraps around. *)
Definition malloc_result h (size p : Z) (h' : heap T) : Prop :=
  inv h' ∧
  ((p = 0 ∧ h' = h) ∨
   ∃ n, 0 < p ∧ (size < 2 ^ 32 - 4107 → size ≤ n) ∧ (∀ m, ¬ live h p m)
     ∧ ∀ x m, live h' x m ↔ live h x m ∨ x = p ∧ m = n).

Lemma malloc_big_spec h size :
  inv h → 0 < size < 2 ^ 32 → ∃ p h', malloc_big h size = Ok (p, h') ∧ malloc_result h size p h'.
Proof.
  intros [Hw Hb] Hs. unfold malloc_big. set (n := DIV_ROUND_UP (u32 (size + ARENA_SIZE)) PGSIZE).
  assert (Hn : 0 ≤ n < 2 ^ 32 ∧ (size < 2 ^ 32 - 4107 → size ≤ PGSIZE * n - ARENA_SIZE)).
  { unfold n, DIV_ROUND_UP, ARENA_SIZE, PGSIZE. pose proof (u32_range (u32 (size + 12) + 4096 - 1)).
    split.
    - split; [apply Z.div_pos; lia|apply Z.div_lt_upper_bound; lia].
    - intros ?. rewrite (u32_small (size + 12)), u32_small by lia.
      pose proof (Z.div_mod (size + 12 + 4096 - 1) 4096).
      pose proof (Z.mod_pos_bound (size + 12 + 4096 - 1) 4096). lia. }
  clearbody n. destruct (decide (n = 0)) as [->|Hn0].
  { rewrite pa_get_zero. simpl. rewrite set_pages_same. exists 0, h. split; [done|].
    split; [by split|by left]. }
  destruct (pa_get_ok (pages h) n) as [->|(a & t & -> & Ht & H0 & Hal & Hend & Hfree & Hus)];
    [apply (winv_pages h Hw)|lia|..]; simpl.
  { rewrite set_pages_same. exists 0, h. split; [done|]. split; [by split|by left]. }
  rewrite (proj2 (Z.eqb_neq a 0)), u32_small by (unfold ARENA_SIZE, PGSIZE in *; lia).
  destruct (new_big_spec h a n t) as (H1 & H2 & H3 & H4); [done..|lia|done|done|done|].
  eexists _, _. split; [done|]. split; [by split; [|apply H4]|]. right.
  exists (PGSIZE * n - ARENA_SIZE). split_and!; [unfold ARENA_SIZE; lia|by apply Hn|done|done].
Qed.

Lemma malloc_spec h size :
  inv h → 0 < size < 2 ^ 32 → ∃ p h', malloc h size = Ok (p, h') ∧ malloc_result h size p h'.
Proof.
  intros [Hw Hb] Hs. unfold malloc. rewrite (proj2 (Z.eqb_neq size 0)) by lia.
  pose proof (find_desc_spec (descs h) size) as Hf.
  destruct (find_desc (descs h) size) as [i|]; [|by apply malloc_big_spec].
  destruct Hf as (d & Hd & Hsz). rewrite Hd. simpl.
  pose proof (proj2 (winv_descs h Hw) i d Hd) as Hdok. pose proof (desc_ok_facts i d Hdok) as Hfacts.
  destruct (free_list d) as [|b l] eqn:Hl.
  - rewrite bool_decide_eq_true_2 by done.
    destruct (pa_get_ok (pages h) 1) as [->|(a & t & -> & Ht & H0 & Hal & Hend & Hfree & Hus)];
      [apply (winv_pages h Hw)|lia|..]; simpl.
    { rewrite set_pages_same. exists 0, h. split; [done|]. split; [by split|by left]. }
    rewrite (proj2 (Z.eqb_neq a 0)) by lia.
    destruct (new_arena_spec h a i d t) as (Hw1 & Hl1 & Hb1); [done..|].
    rewrite (push_blocks_spec _ _ a (Arena (Some i) (blocks_per_arena d)) i d);
      [|done|apply lookup_insert_eq|done|done|done|unfold PGSIZE in *; lia|lia|lia].
    rewrite blocks_from_all, Hl by lia. simpl.
    set (h1 := set_free_list _ i (blocks_of d a)) in *.
    assert (Hd1 : descs h1 !! i = Some (with_list d (blocks_of d a)))
      by (unfold h1; simpl; by rewrite list_lookup_alter_eq, Hd).
    destruct (blocks_of d a) as [|b l] eqn:Hbl.
    { pose proof (length_blocks_of i d a Hdok) as Hlen. rewrite Hbl in Hlen. simpl in Hlen. lia. }
    assert (Hblk : is_block d a b) by (apply elem_of_blocks_of; rewrite Hbl; by left).
    destruct (is_block_page i d a b) as (Hp & _ & Hlo & _);
      [done..|unfold PGSIZE in *; lia|done|].
    destruct (take_block_spec h1 i _ b l Hw1 Hd1) as (h' & -> & Hw' & Hnl & Hlv & Hbz); [done|].
    exists b, h'. split; [done|]. split.
    { split; [done|]. apply Hbz. intros y Hy. apply Hb1; [congruence|done]. }
    right. exists (block_size d). split_and!; [unfold ARENA_SIZE in *; lia|lia| |].
    + intros m Hm. apply (Hnl m). by apply Hl1.
    + intros x m. by rewrite Hlv, Hl1.
  - rewrite bool_decide_eq_false_2 by done.
    destruct (winv_free h Hw i d Hd) as [_ Hff]. destruct (Hff b) as (a & ar & Ha & Hi & Hblk);
      [rewrite Hl; by left|].
    pose proof (winv_arena_block h a ar i d b Hw Ha Hi Hd Hblk) as (_ & _ & Hlo & _).
    destruct (winv_arena h Hw a ar Ha) as (H0 & _).
    destruct (take_block_spec h i d b l Hw Hd Hl) as (h' & -> & Hw' & Hnl & Hlv & Hbz).
    exists b, h'. split; [done|]. split; [split; [done|]; by apply Hbz|].
    right. exists (block_size d). split_and!; [unfold ARENA_SIZE in *; lia|lia|done|done].
Qed.

Lemma drop_big_spec h a n t :
  inv h → arenas h !! a = Some (Arena None n) → pa_inv t →
  (∀ x, pa_used t x ↔ pa_used (pages h) x ∧ ¬ in_group a n x) →
  let h' := Heap (descs h) (delete a (arenas h)) t (mem h) in
  inv h' ∧ ∀ x m, live h' x m ↔ live h x m ∧ pg_round_down x ≠ a.
Proof.
  intros [Hw Hb] Ha Ht Hus h'. split; [split|].
  - split; simpl; [done|apply (winv_descs h Hw)|..].
    + intros x r [Hxa Hx]%lookup_delete_Some.
      destruct (winv_arena h Hw x r Hx) as (A & B & C & D & E). split_and!; [done..|].
      intros y Hy. apply Hus. split; [by apply E|]. intros Hy'.
      destruct Hxa. by apply (winv_disj h Hw a _ x r y Ha Hx).
    + intros x r x' r' y [_ Hx]%lookup_delete_Some [_ Hx']%lookup_delete_Some.
      by apply (winv_disj h Hw).
    + intros i d Hd. destruct (winv_free h Hw i d Hd) as [Hn Hf]. split; [done|]. intros b Hbl.
      destruct (Hf b Hbl) as (x & r & Hx & Hr & Hk). exists x, r. split; [|done].
      apply lookup_delete_Some. split; [|done]. intros <-. by simplify_eq/=.
    + intros x r i [_ Hx]%lookup_delete_Some. by apply (winv_cnt h Hw).
  - intros y r i d Hx. simpl in Hx. apply lookup_delete_Some in Hx as [_ Hx].
    by apply (Hb y r i d).
  - intros x m. unfold live. simpl. split.
    + intros (r & [Hne Hr]%lookup_delete_Some & Hx). split; [by exists r|done].
    + intros [(r & Hr & Hx) Hne]. exists r. split; [|done]. by apply lookup_delete_Some.
Qed.

Lemma live_pos h p n : winv h → live h p n → 0 < p ∧ 0 < pg_round_down p.
Proof.
  intros Hw (ar & Ha & Hp). destruct (winv_arena h Hw _ _ Ha) as (H0 & _).
  destruct (a_desc ar) as [i|] eqn:E.
  - destruct Hp as (d & Hd & Hb & _). destruct (winv_arena_block h _ _ i d p Hw Ha E Hd Hb).
    unfold ARENA_SIZE in *. lia.
  - unfold ARENA_SIZE in *. lia.
Qed.

Lemma busy_update h i d l a c y :
  descs h !! i = Some d → (y ≠ a → busy h y) → (y = a → c < blocks_per_arena d) →
  busy (update h i l a c) y.
Proof.
  intros Hd Hother Hsame r j dj Hx Hj Hdj. simpl in Hx.
  apply lookup_set_free_list in Hdj as (d0 & Hd0 & ->).
  apply lookup_insert_Some in Hx as [[<- <-]|[Hne Hx]].
  - simpl in *. injection Hj as <-. rewrite decide_True by done. rewrite Hd in Hd0.
    injection Hd0 as <-. simpl. by apply Hsame.
  - pose proof (Hother (not_eq_sym Hne) r j d0 Hx Hj Hd0). by destruct (decide (i = j)).
Qed.

(** Freeing a block of an arena. *)
Lemma free_small h p n ar i :
  inv h → live h p n → arenas h !! pg_round_down p = Some ar → a_desc ar = Some i →
  ∃ h', free h p = Ok h' ∧ inv h' ∧ ∀ x m, live h' x m ↔ live h x m ∧ x ≠ p.
Proof.
  intros [Hw Hb] Hlive Ha Hi. destruct (live_pos h p n Hw Hlive) as [Hp0 Hpg0].
  set (a := pg_round_down p) in *.
  destruct (winv_cnt h Hw a ar i Ha Hi) as (d & Hd & _).
  pose proof (proj2 (winv_descs h Hw) i d Hd) as Hdok. pose proof (desc_ok_facts i d Hdok) as Hfacts.
  pose proof (winv_arena h Hw a ar Ha) as Haok. unfold arena_ok, arena_pages in Haok.
  rewrite Hi in Haok. destruct Haok as (H0 & Hal & _ & Hend & Husd).
  set (hm := fill_mem h p 0xcc (block_size d)).
  assert (Hwm : winv hm) by by apply inv_with_mem.
  destruct (give_block_spec hm i d a ar p n) as (Hw2 & Hl2 & Hc0 & Hcle & Hblk); [done..|].
  set (h2 := update hm i (p :: free_list d) a (free_cnt ar + 1)) in *.
  unfold free. rewrite (proj2 (Z.eqb_neq p 0)) by lia. simpl.
  rewrite (block_to_arena_spec h a ar i d) by done. simpl. rewrite Hi, Hd. simpl.
  rewrite u32_small by lia. fold hm. fold (update hm i (p :: free_list d) a (free_cnt ar + 1)).
  fold h2. destruct (Z.leb_spec (blocks_per_arena d) (free_cnt ar + 1)) as [Hge|Hlt].
  - rewrite (proj2 (Z.eqb_eq (free_cnt ar + 1) _)) by lia.
    assert (Ha2 : arenas h2 !! a = Some (Arena (Some i) (free_cnt ar + 1)))
      by (apply lookup_insert_eq).
    assert (Hd2 : descs h2 !! i = Some (with_list d (p :: free_list d)))
      by (unfold h2; simpl; by rewrite list_lookup_alter_eq, Hd).
    rewrite (remove_blocks_spec _ h2 a _ i _ 0 Hd2 Ha2);
      [|done|done|done|unfold PGSIZE in *; lia|lia|simpl; lia].
    simpl. destruct (pa_free_ok (pages h) a 1) as (t & Hft & Ht & Hus);
      [apply (winv_pages h Hw)|lia|done|done|done|].
    change (pages h2) with (pages h). rewrite Hft. simpl.
    destruct (drop_arena_spec h2 a i _ t (free_cnt ar + 1) Hw2 Ha2 Hd2) as (Hw3 & Hl3 & Hb3);
      [simpl; lia|done|done|].
    rewrite <- (blocks_from_all (with_list d (p :: free_list d)) a) in Hw3, Hl3, Hb3 by (simpl; lia).
    eexists. split; [done|]. split; [split; [exact Hw3|]|].
    + intros y. destruct (decide (y = a)) as [->|Hy].
      * intros r j dj Hx. simpl in Hx. by rewrite lookup_delete_eq in Hx.
      * apply Hb3; [done|]. apply (busy_update hm i d); [done|by intros _; apply Hb|done].
    + intros x m. etrans; [exact (Hl3 x m)|apply Hl2].
  - eexists. split; [done|]. split; [split; [exact Hw2|]|exact Hl2].
    intros y. apply (busy_update hm i d); [done|intros _; apply Hb|done].
Qed.

Lemma free_spec h p n :
  inv h → live h p n →
  ∃ h', free h p = Ok h' ∧ inv h' ∧ ∀ x m, live h' x m ↔ live h x m ∧ x ≠ p.
Proof.
  intros Hinv Hlive. pose proof Hlive as (ar & Ha & Hp).
  destruct (a_desc ar) as [i|] eqn:Hi; [by apply (free_small h p n ar i)|].
  destruct Hinv as [Hw Hb]. destruct Hp as [Hp Hn].
  destruct (live_pos h p n Hw Hlive) as [Hp0 Hpg0]. set (a := pg_round_down p) in *.
  destruct (winv_arena h Hw a ar Ha) as (H0 & Hal & Hn0 & Hend & Hus).
  unfold arena_pages in *. rewrite Hi in *. destruct ar as [o cnt]. simpl in *. subst o.
  assert (Hofs : pg_ofs p = ARENA_SIZE).
  { destruct (pg_round_down_split p) as [Hsp _]; [unfold ARENA_SIZE, PGSIZE in *; lia|].
    fold a in Hsp. lia. }
  unfold free. rewrite (proj2 (Z.eqb_neq p 0)) by lia. simpl.
  unfold block_to_arena. fold a. rewrite (proj2 (Z.eqb_neq a 0)) by lia. simpl. rewrite Ha. simpl.
  rewrite Hofs. simpl.
  destruct (pa_free_ok (pages h) a cnt) as (t & -> & Ht & Hut);
    [apply (winv_pages h Hw)|unfold PGSIZE in *; lia|done..|]. simpl.
  destruct (drop_big_spec h a cnt t (conj Hw Hb) Ha Ht Hut) as [Hi' Hl'].
  eexists. split; [done|]. split; [done|]. intros x m. rewrite Hl'. split.
  - intros [Hx Hne]. split; [done|]. by intros ->.
  - intros [Hx Hne]. split; [done|]. intros E. apply Hne. destruct Hx as (r & Hr & Hx).
    rewrite E, Ha in Hr. injection Hr as <-. simpl in Hx. rewrite E in Hx. lia.
Qed.

(** The initial heap. *)
Lemma malloc_init_spec t m :
  pa_inv t → ∃ h, malloc_init t m = Ok h ∧ inv h ∧ pages h = t ∧ ∀ p n, ¬ live h p n.
Proof.
  intros Ht. unfold malloc_init. destruct (init_loop 8 16 []) as [ds| |] eqn:Eds;
    vm_compute in Eds; try done. injection Eds as <-. eexists. split; [done|].
  split; [split|split; [done|by intros p n (ar & Har & _); simpl in Har; rewrite lookup_empty in Har]].
  - split; simpl; [done|split; [done|]|..].
    + intros i d Hd. do 7 (destruct i as [|i]; [injection Hd as <-; split_and!; [lia|done|done]|]).
      done.
    + intros a ar Ha. by rewrite lookup_empty in Ha.
    + intros a ar a' ar' x Ha. by rewrite lookup_empty in Ha.
    + intros i d Hd. assert (E : free_list d = []).
      { do 7 (destruct i as [|i]; [by injection Hd as <-|]). done. }
      rewrite E. split; [constructor|]. by intros b ?%not_elem_of_nil.
    + intros a ar i Ha. by rewrite lookup_empty in Ha.
  - intros a ar i d Ha. simpl in Ha. by rewrite lookup_empty in Ha.
Qed.

Lemma live_bound h p n : winv h → live h p n → p + n ≤ 2 ^ 32 - PGSIZE ∧ PGSIZE + ARENA_SIZE ≤ p.
Proof.
  intros Hw (ar & Ha & Hp).
  destruct (winv_arena h Hw _ _ Ha) as (H0 & Hal & Hn & Hend & _). unfold arena_pages in *.
  assert (PGSIZE ≤ pg_round_down p).
  { unfold PGSIZE in *. pose proof (Z.div_mod (pg_round_down p) 4096). lia. }
  destruct (a_desc ar) as [i|] eqn:E.
  - destruct Hp as (d & Hd & Hb & _ & ->).
    pose proof (winv_arena_block h _ _ i d p Hw Ha E Hd Hb). unfold ARENA_SIZE in *. lia.
  - destruct Hp as [Hp ->]. unfold ARENA_SIZE, PGSIZE in *. lia.
Qed.

Lemma live_unique h p n n' : live h p n → live h p n' → n = n'.
Proof.
  intros (r & Hr & H1) (r' & Hr' & H2). rewrite Hr in Hr'. injection Hr' as <-.
  destruct (a_desc r); [|lia].
  destruct H1 as (d & Hd & _ & _ & ->), H2 as (d' & Hd' & _ & _ & ->). congruence.
Qed.


(** the sizes are computed modulo 2^32.  A block that [malloc] returns for
    2^32 - 1 bytes is smaller than that, and so is one that [calloc] returns for
    65537 times 65537 bytes: the test for overflow does not catch it. *)
Theorem allocation_size_overflow h :
  inv h →
  (∀ p h', malloc h (2 ^ 32 - 1) = Ok (p, h') → p ≠ 0 → ∃ n, live h' p n ∧ n < 2 ^ 32 - 1) ∧
  (∀ p h', calloc h 65537 65537 = Ok (p, h') → p ≠ 0 → ∃ n, live h' p n ∧ n < 65537 * 65537).
Proof.
  intros Hinv.
  assert (Hgen : ∀ size p h', 0 < size < 2 ^ 32 → malloc h size = Ok (p, h') → p ≠ 0 →
    ∃ n, live h' p n ∧ n < 2 ^ 32 - 1).
  { intros size p h' Hs Hm Hp.
    destruct (malloc_spec h size Hinv Hs) as (q & g & Hm' & Hi' & Hcase). rewrite Hm in Hm'.
    injection Hm' as <- <-. destruct Hcase as [[? _]|(n & _ & _ & _ & Hlv)]; [done|].
    exists n. assert (Hl : live h' p n) by (apply Hlv; by right). split; [done|].
    pose proof (live_bound h' p n (proj1 Hi') Hl). unfold PGSIZE, ARENA_SIZE in *. lia. }
  split; [intros p h' Hm Hp; apply (Hgen (2 ^ 32 - 1)); [lia|done|done]|].
  intros p h' Hc Hp. unfold calloc in Hc. change (u32 (65537 * 65537)) with 131073 in Hc.
  simpl in Hc. apply bind_Ok in Hc as ([q g] & Hm & Hc). simpl in Hc.
  destruct (Z.eqb_spec q 0) as [->|Hq]; simpl in Hc; injection Hc as <- <-; [done|].
  destruct (Hgen 131073 q g) as (n & Hl & Hn); [lia|done|done|]. exists n. split; [done|lia].
Qed.

End spec.

(** The heap on two pools of forty pages. *)
Definition demo_heap : res (heap palloc) := malloc_init demo_pools (λ _, 0).

Lemma demo_heap_inv : ∃ h, demo_heap = Ok h ∧ inv h.
Proof.
  destruct (malloc_init_spec (T:=palloc) demo_pools (λ _, 0)) as (h & Hh & Hi & _ & _);
    [apply demo_inv|]. by exists h.
Qed.


Lemma allocation_size_overflow_witness :
  ∃ h h' p n, demo_heap = Ok h ∧ malloc h (2 ^ 32 - 1) = Ok (p, h') ∧ p ≠ 0
    ∧ live h' p n ∧ n < 2 ^ 32 - 1.
Proof.
  destruct demo_heap_inv as (h & Hh & Hi).
  assert (E2 : (h ← demo_heap; r ← malloc h (2 ^ 32 - 1); Ok (fst r)) = Ok (PHYS_BASE + 0x10500c))
    by (vm_compute; reflexivity).
  rewrite Hh in E2. simpl in E2.
  destruct (malloc h (2 ^ 32 - 1)) as [[p h']| |] eqn:E; [|discriminate E2..].
  injection E2 as ->.
  destruct (proj1 (allocation_size_overflow h Hi) _ h' E) as (n & Hl & Hn); [discriminate|].
  exists h, h', (PHYS_BASE + 0x10500c), n.
  split_and!; [exact Hh|exact E|discriminate|exact Hl|exact Hn].
Defined.

End Malloc.
