(* ===== verification/Thread.v ===== *)
(** * Threads and the scheduler, [threads/thread.c]

    Threads are identified by the address of their [struct thread]; a pointer
    that is not in the map fails [is_thread].  A thread that is switched out
    keeps, in [frames], what is left of the kernel operations it is in the middle
    of; the operations themselves are in [Synch] and [Timer].  Each function below
    is one atomic step: the source runs them with interrupts off, but for
    [thread_create], [thread_set_priority] and [thread_set_nice], where a timer
    interrupt in the middle is not modelled.  [allocate_tid] stands for the whole
    critical section of [tid_lock]. *)

From S2P Require Import Prelude ListSeq Arith64.

Module Thread.
Import Fixed.

Inductive thread_status := THREAD_RUNNING | THREAD_READY | THREAD_BLOCKED | THREAD_DYING.
#[export] Instance thread_status_eq_dec : EqDecision thread_status.
Proof. solve_decision. Defined.

Definition PRI_MIN : Z := 0.
Definition PRI_DEFAULT : Z := 31.
Definition PRI_MAX : Z := 63.
Definition TIME_SLICE : Z := 4.
Definition TID_ERROR : Z := -1.

(** What a thread has still to do in an operation that it has begun; the first
    frame is the innermost. *)
Inductive frame :=
  | FSemaDown (s : Z)            (* the loop of sema_down *)
  | FSemaUp (s : Z)              (* sema_up *)
  | FLockAcquire (l : Z)         (* lock_acquire, from the start *)
  | FLockDown (l : Z)            (* the sema_down of lock_acquire *)
  | FLockTaken (l : Z)           (* the rest of lock_acquire *)
  | FLockRelease (l : Z)         (* lock_release, from the start *)
  | FLockUp (l : Z)              (* the sema_up of lock_release *)
  | FCondWait (c l : Z)          (* cond_wait, from the start *)
  | FCondSignal (c l : Z)        (* cond_signal *)
  | FYield                       (* thread_yield *)
  | FSleep                       (* asleep in thread_sleep *)
  | FExit.                       (* thread_exit *)
#[export] Instance frame_eq_dec : EqDecision frame.
Proof. solve_decision. Defined.

Record thread := Thr {
  tid : Z;
  status : thread_status;
  priority : Z;
  base_priority : Z;
  donors : list Z;
  waiting_on : option Z;
  nice : Z;
  recent_cpu : Z;
  wakeup_tick : Z;
  user_pagedir : bool;
  frames : list frame
}.

Record semaphore := Sema { value : Z; waiters : list Z }.

(** The kernel's scheduling state.  The semaphore of the lock at address [l] is
    at address [l]; [conds] are the waiting lists of condition variables. *)
Record kernel := Kernel {
  threads : gmap Z thread;
  ready_list : list Z;
  all_list : list Z;
  sleeping_list : list Z;
  semas : gmap Z semaphore;
  holders : gmap Z (option Z);
  conds : gmap Z (list Z);
  cur : Z;
  idle_thread : Z;
  initial_thread : Z;
  next_tid : Z;
  thread_ticks : Z;
  idle_ticks : Z;
  kernel_ticks : Z;
  user_ticks : Z;
  thread_mlfqs : bool;
  load_avg : Z;
  ticks : Z;
  next_wakeup_tick : Z;
  in_intr : bool;
  yield_on_return : bool
}.

(** ** Access to the fields *)

Definition set_threads (k : kernel) (ts : gmap Z thread) : kernel :=
  Kernel ts (ready_list k) (all_list k) (sleeping_list k) (semas k) (holders k) (conds k)
    (cur k) (idle_thread k) (initial_thread k) (next_tid k) (thread_ticks k) (idle_ticks k)
    (kernel_ticks k) (user_ticks k) (thread_mlfqs k) (load_avg k) (ticks k)
    (next_wakeup_tick k) (in_intr k) (yield_on_return k).
Definition set_ready (k : kernel) (l : list Z) : kernel :=
  Kernel (threads k) l (all_list k) (sleeping_list k) (semas k) (holders k) (conds k)
    (cur k) (idle_thread k) (initial_thread k) (next_tid k) (thread_ticks k) (idle_ticks k)
    (kernel_ticks k) (user_ticks k) (thread_mlfqs k) (load_avg k) (ticks k)
    (next_wakeup_tick k) (in_intr k) (yield_on_return k).
Definition set_all (k : kernel) (l : list Z) : kernel :=
  Kernel (threads k) (ready_list k) l (sleeping_list k) (semas k) (holders k) (conds k)
    (cur k) (idle_thread k) (initial_thread k) (next_tid k) (thread_ticks k) (idle_ticks k)
    (kernel_ticks k) (user_ticks k) (thread_mlfqs k) (load_avg k) (ticks k)
    (next_wakeup_tick k) (in_intr k) (yield_on_return k).
Definition set_sleeping (k : kernel) (l : list Z) (next : Z) : kernel :=
  Kernel (threads k) (ready_list k) (all_list k) l (semas k) (holders k) (conds k)
    (cur k) (idle_thread k) (initial_thread k) (next_tid k) (thread_ticks k) (idle_ticks k)
    (kernel_ticks k) (user_ticks k) (thread_mlfqs k) (load_avg k) (ticks k)
    next (in_intr k) (yield_on_return k).
Definition set_semas (k : kernel) (s : gmap Z semaphore) : kernel :=
  Kernel (threads k) (ready_list k) (all_list k) (sleeping_list k) s (holders k) (conds k)
    (cur k) (idle_thread k) (initial_thread k) (next_tid k) (thread_ticks k) (idle_ticks k)
    (kernel_ticks k) (user_ticks k) (thread_mlfqs k) (load_avg k) (ticks k)
    (next_wakeup_tick k) (in_intr k) (yield_on_return k).
Definition set_holders (k : kernel) (h : gmap Z (option Z)) : kernel :=
  Kernel (threads k) (ready_list k) (all_list k) (sleeping_list k) (semas k) h (conds k)
    (cur k) (idle_thread k) (initial_thread k) (next_tid k) (thread_ticks k) (idle_ticks k)
    (kernel_ticks k) (user_ticks k) (thread_mlfqs k) (load_avg k) (ticks k)
    (next_wakeup_tick k) (in_intr k) (yield_on_return k).
Definition set_conds (k : kernel) (c : gmap Z (list Z)) : kernel :=
  Kernel (threads k) (ready_list k) (all_list k) (sleeping_list k) (semas k) (holders k) c
    (cur k) (idle_thread k) (initial_thread k) (next_tid k) (thread_ticks k) (idle_ticks k)
    (kernel_ticks k) (user_ticks k) (thread_mlfqs k) (load_avg k) (ticks k)
    (next_wakeup_tick k) (in_intr k) (yield_on_return k).
(** The switch: the running thread and the ticks of its time slice. *)
Definition set_cur (k : kernel) (t tks : Z) : kernel :=
  Kernel (threads k) (ready_list k) (all_list k) (sleeping_list k) (semas k) (holders k) (conds k)
    t (idle_thread k) (initial_thread k) (next_tid k) tks (idle_ticks k)
    (kernel_ticks k) (user_ticks k) (thread_mlfqs k) (load_avg k) (ticks k)
    (next_wakeup_tick k) (in_intr k) (yield_on_return k).
Definition set_next_tid (k : kernel) (n : Z) : kernel :=
  Kernel (threads k) (ready_list k) (all_list k) (sleeping_list k) (semas k) (holders k) (conds k)
    (cur k) (idle_thread k) (initial_thread k) n (thread_ticks k) (idle_ticks k)
    (kernel_ticks k) (user_ticks k) (thread_mlfqs k) (load_avg k) (ticks k)
    (next_wakeup_tick k) (in_intr k) (yield_on_return k).
Definition set_idle (k : kernel) (t : Z) : kernel :=
  Kernel (threads k) (ready_list k) (all_list k) (sleeping_list k) (semas k) (holders k) (conds k)
    (cur k) t (initial_thread k) (next_tid k) (thread_ticks k) (idle_ticks k)
    (kernel_ticks k) (user_ticks k) (thread_mlfqs k) (load_avg k) (ticks k)
    (next_wakeup_tick k) (in_intr k) (yield_on_return k).
Definition set_stats (k : kernel) (i kn u : Z) : kernel :=
  Kernel (threads k) (ready_list k) (all_list k) (sleeping_list k) (semas k) (holders k) (conds k)
    (cur k) (idle_thread k) (initial_thread k) (next_tid k) (thread_ticks k) i
    kn u (thread_mlfqs k) (load_avg k) (ticks k)
    (next_wakeup_tick k) (in_intr k) (yield_on_return k).
Definition set_load_avg (k : kernel) (la : Z) : kernel :=
  Kernel (threads k) (ready_list k) (all_list k) (sleeping_list k) (semas k) (holders k) (conds k)
    (cur k) (idle_thread k) (initial_thread k) (next_tid k) (thread_ticks k) (idle_ticks k)
    (kernel_ticks k) (user_ticks k) (thread_mlfqs k) la (ticks k)
    (next_wakeup_tick k) (in_intr k) (yield_on_return k).
Definition set_ticks (k : kernel) (tk : Z) : kernel :=
  Kernel (threads k) (ready_list k) (all_list k) (sleeping_list k) (semas k) (holders k) (conds k)
    (cur k) (idle_thread k) (initial_thread k) (next_tid k) (thread_ticks k) (idle_ticks k)
    (kernel_ticks k) (user_ticks k) (thread_mlfqs k) (load_avg k) tk
    (next_wakeup_tick k) (in_intr k) (yield_on_return k).
Definition set_intr (k : kernel) (ctx yor : bool) : kernel :=
  Kernel (threads k) (ready_list k) (all_list k) (sleeping_list k) (semas k) (holders k) (conds k)
    (cur k) (idle_thread k) (initial_thread k) (next_tid k) (thread_ticks k) (idle_ticks k)
    (kernel_ticks k) (user_ticks k) (thread_mlfqs k) (load_avg k) (ticks k)
    (next_wakeup_tick k) ctx yor.

Definition with_status (th : thread) (s : thread_status) : thread :=
  Thr (tid th) s (priority th) (base_priority th) (donors th) (waiting_on th) (nice th)
    (recent_cpu th) (wakeup_tick th) (user_pagedir th) (frames th).
Definition with_priority (th : thread) (p : Z) : thread :=
  Thr (tid th) (status th) p (base_priority th) (donors th) (waiting_on th) (nice th)
    (recent_cpu th) (wakeup_tick th) (user_pagedir th) (frames th).
Definition with_base (th : thread) (p : Z) : thread :=
  Thr (tid th) (status th) (priority th) p (donors th) (waiting_on th) (nice th)
    (recent_cpu th) (wakeup_tick th) (user_pagedir th) (frames th).
Definition with_donors (th : thread) (d : list Z) : thread :=
  Thr (tid th) (status th) (priority th) (base_priority th) d (waiting_on th) (nice th)
    (recent_cpu th) (wakeup_tick th) (user_pagedir th) (frames th).
Definition with_waiting (th : thread) (w : option Z) : thread :=
  Thr (tid th) (status th) (priority th) (base_priority th) (donors th) w (nice th)
    (recent_cpu th) (wakeup_tick th) (user_pagedir th) (frames th).
Definition with_cpu (th : thread) (n c : Z) : thread :=
  Thr (tid th) (status th) (priority th) (base_priority th) (donors th) (waiting_on th) n
    c (wakeup_tick th) (user_pagedir th) (frames th).
Definition with_wakeup (th : thread) (w : Z) : thread :=
  Thr (tid th) (status th) (priority th) (base_priority th) (donors th) (waiting_on th) (nice th)
    (recent_cpu th) w (user_pagedir th) (frames th).
Definition with_frames (th : thread) (fs : list frame) : thread :=
  Thr (tid th) (status th) (priority th) (base_priority th) (donors th) (waiting_on th) (nice th)
    (recent_cpu th) (wakeup_tick th) (user_pagedir th) fs.

Definition get (k : kernel) (t : Z) : res thread := from_opt (threads k !! t).
Definition upd (k : kernel) (t : Z) (f : thread → thread) : kernel :=
  set_threads k (alter f t (threads k)).
Definition prio (k : kernel) (t : Z) : Z :=
  match threads k !! t with Some th => priority th | None => 0 end.

(** ** Priorities *)

(** [thread_priority_comparison] on elements of the ready list and of waiting
    lists, which are linked through [elem]. *)
Definition thread_priority_comparison (k : kernel) (a b : Z) : bool := prio k b <? prio k a.

(** The same function on elements of donor lists, which are linked through
    [donor_elem]: [list_entry (a, struct thread, elem)] then points below the
    thread, and [stray d] is the integer that is found there for donor [d]. *)
Definition donor_comparison (stray : Z → Z) (a b : Z) : bool := stray b <? stray a.

Definition update_priority (stray : Z → Z) (k : kernel) (t : Z) : res kernel :=
  th ← get k t;
  let k := upd k t (λ th, with_priority th (base_priority th)) in
  match list_sort_seq (donor_comparison stray) (donors th) with
  | [] => Ok k
  | highest :: rest =>
      let k := upd k t (λ th, with_donors th (highest :: rest)) in
      d ← get k highest;
      th ← get k t;
      if priority th <? priority d then Ok (upd k t (λ th, with_priority th (priority d)))
      else Ok k
  end.

Definition mlfqs_priority_of (idle : Z) (t : Z) (th : thread) : Z :=
  if t =? idle then PRI_MIN else
  let pr := s32 (s32 (PRI_MAX - FP_INT_PART (FP_DIV_MIX (recent_cpu th) 4)) - s32 (nice th * 2)) in
  let pr := if PRI_MAX <? pr then PRI_MAX else pr in
  if pr <? PRI_MIN then PRI_MIN else pr.

(** ** The scheduler *)

Definition insert_ready (k : kernel) (t : Z) : kernel :=
  set_ready k (insert_ordered (thread_priority_comparison k) t (ready_list k)).

Definition next_thread_to_run (k : kernel) : Z * kernel :=
  match ready_list k with
  | [] => (idle_thread k, k)
  | t :: l => (t, set_ready k l)
  end.

Definition thread_schedule_tail (k : kernel) (prev : option Z) : res kernel :=
  let c := cur k in
  let k := set_cur (upd k c (λ th, with_status th THREAD_RUNNING)) c 0 in
  match prev with
  | None => Ok k
  | Some p =>
      pt ← get k p;
      if bool_decide (status pt = THREAD_DYING) && negb (p =? initial_thread k) then
        ASSERT negb (p =? c);;
        Ok (set_threads k (delete p (threads k)))
      else Ok k
  end.

Definition schedule (k : kernel) : res kernel :=
  let c := cur k in
  let '(next, k) := next_thread_to_run k in
  th ← get k c;
  ASSERT negb (bool_decide (status th = THREAD_RUNNING));;
  _ ← get k next;
  if negb (c =? next) then thread_schedule_tail (set_cur k next (thread_ticks k)) (Some c)
  else thread_schedule_tail k None.

Definition thread_current (k : kernel) : res thread :=
  th ← get k (cur k);
  ASSERT bool_decide (status th = THREAD_RUNNING);;
  Ok th.

Definition thread_block (k : kernel) : res kernel :=
  ASSERT negb (in_intr k);;
  _ ← thread_current k;
  schedule (upd k (cur k) (λ th, with_status th THREAD_BLOCKED)).

Definition thread_unblock (k : kernel) (t : Z) : res kernel :=
  th ← get k t;
  ASSERT bool_decide (status th = THREAD_BLOCKED);;
  let k := insert_ready k t in
  let k := upd k t (λ th, with_status th THREAD_READY) in
  if in_intr k then
    match ready_list k with
    | [] => Ok k
    | front :: _ =>
        c ← thread_current k;
        if priority c <? prio k front then Ok (set_intr k true true) else Ok k
    end
  else Ok k.

Definition thread_yield (k : kernel) : res kernel :=
  _ ← thread_current k;
  ASSERT negb (in_intr k);;
  let c := cur k in
  let k := if negb (c =? idle_thread k) then insert_ready k c else k in
  schedule (upd k c (λ th, with_status th THREAD_READY)).

Definition thread_exit (k : kernel) : res kernel :=
  ASSERT negb (in_intr k);;
  _ ← thread_current k;
  let c := cur k in
  let k := set_all k (filter (λ t, t ≠ c) (all_list k)) in
  schedule (upd k c (λ th, with_status th THREAD_DYING)).

(** [init_thread], without the name and the members of other components. *)
Definition init_thread (k : kernel) (t prio_arg : Z) : res kernel :=
  ASSERT negb (t =? 0);;
  ASSERT (PRI_MIN <=? prio_arg) && (prio_arg <=? PRI_MAX);;
  let blank := Thr 0 THREAD_BLOCKED 0 prio_arg [] None 0 0 0 false [] in
  th ← (if thread_mlfqs k then
          if t =? idle_thread k then Ok (with_priority blank PRI_MIN)
          else if t =? initial_thread k then
            Ok (with_priority blank (mlfqs_priority_of (idle_thread k) t blank))
          else
            c ← get k (cur k);
            let th := with_cpu blank (nice c) (recent_cpu c) in
            Ok (with_priority th (mlfqs_priority_of (idle_thread k) t th))
        else Ok (with_priority blank prio_arg));
  let k := set_threads k (<[t := th]> (threads k)) in
  Ok (set_all k (all_list k ++ [t])).

Definition allocate_tid (k : kernel) : Z * kernel := (next_tid k, set_next_tid k (next_tid k + 1)).

(** [thread_create]: [page] is what [palloc_get_page] returns, null if 0.  The
    result is the thread identifier; [true] asks for the [thread_yield] at the
    end, which the caller does next. *)
Definition thread_create (k : kernel) (page prio_arg : Z) : res (Z * kernel * bool) :=
  if page =? 0 then Ok (TID_ERROR, k, false) else
  k ← init_thread k page prio_arg;
  let '(id, k) := allocate_tid k in
  let k := upd k page (λ th, Thr id (status th) (priority th) (base_priority th) (donors th)
    (waiting_on th) (nice th) (recent_cpu th) (wakeup_tick th) (user_pagedir th) (frames th)) in
  k ← thread_unblock k page;
  c ← thread_current k;
  Ok (id, k, negb (thread_mlfqs k) && (priority c <? prio_arg)).

Definition front_exceeds (k : kernel) (p : Z) : bool :=
  match ready_list k with [] => false | front :: _ => p <? prio k front end.

Definition thread_set_priority (stray : Z → Z) (k : kernel) (new_priority : Z) : res kernel :=
  if thread_mlfqs k then Ok k else
  _ ← thread_current k;
  let k := upd k (cur k) (λ th, with_base th new_priority) in
  k ← update_priority stray k (cur k);
  if front_exceeds k (prio k (cur k)) then thread_yield k else Ok k.

Definition try_thread_yield (k : kernel) : res kernel :=
  c ← thread_current k;
  if front_exceeds k (priority c) then thread_yield k else Ok k.

Definition thread_ready_rearrange (k : kernel) (t : Z) : res kernel :=
  th ← get k t;
  ASSERT bool_decide (status th = THREAD_READY);;
  Ok (insert_ready (set_ready k (filter (λ x, x ≠ t) (ready_list k))) t).

(** ** The 4.4BSD scheduler *)

Definition thread_update_priority_mlfqs (k : kernel) (t : Z) : res kernel :=
  th ← get k t;
  let new_priority := mlfqs_priority_of (idle_thread k) t th in
  if negb (new_priority =? priority th) then
    let k := upd k t (λ th, with_priority th new_priority) in
    if bool_decide (status th = THREAD_READY) then thread_ready_rearrange k t else Ok k
  else Ok k.

Definition thread_set_nice (k : kernel) (n : Z) : res kernel :=
  _ ← thread_current k;
  let k := upd k (cur k) (λ th, with_cpu th n (recent_cpu th)) in
  k ← thread_update_priority_mlfqs k (cur k);
  try_thread_yield k.

Definition thread_get_load_avg (k : kernel) : Z := FP_ROUND (FP_MULT_MIX (load_avg k) 100).
Definition thread_get_recent_cpu (k : kernel) : res Z :=
  c ← thread_current k; Ok (FP_ROUND (FP_MULT_MIX (recent_cpu c) 100)).

Definition thread_mlfqs_tick (k : kernel) : res kernel :=
  _ ← thread_current k;
  let c := cur k in
  let k := if negb (c =? idle_thread k)
           then upd k c (λ th, with_cpu th (nice th) (FP_ADD_MIX (recent_cpu th) 1)) else k in
  k ← (if ticks k mod 4 =? 0 then thread_update_priority_mlfqs k c else Ok k);
  if front_exceeds k (prio k c) then Ok (set_intr k (in_intr k) true) else Ok k.

Definition thread_tick (k : kernel) : res kernel :=
  t ← thread_current k;
  let c := cur k in
  let k := if c =? idle_thread k then set_stats k (idle_ticks k + 1) (kernel_ticks k) (user_ticks k)
           else if user_pagedir t then set_stats k (idle_ticks k) (kernel_ticks k) (user_ticks k + 1)
           else set_stats k (idle_ticks k) (kernel_ticks k + 1) (user_ticks k) in
  let tt := u32 (thread_ticks k + 1) in
  let k := set_cur k c tt in
  let k := if TIME_SLICE <=? tt then set_intr k (in_intr k) true else k in
  if thread_mlfqs k then thread_mlfqs_tick k else Ok k.

(** The load average and the decay of [recent_cpu], once per second. *)
Definition new_load_avg (la ready_threads : Z) : Z :=
  let term1 := FP_DIV_MIX (FP_MULT_MIX la 59) 60 in
  let term2 := FP_DIV_MIX (FP_CONST ready_threads) 60 in
  FP_ADD term1 term2.
Definition decay (la : Z) : Z :=
  let two_la := FP_MULT_MIX la 2 in
  FP_DIV two_la (FP_ADD_MIX two_la 1).
Definition decay_cpu (coeff : Z) (th : thread) : thread :=
  with_cpu th (nice th) (FP_ADD (FP_MULT coeff (recent_cpu th)) (FP_CONST (nice th))).

Definition mlfqs_update_load_avg_and_recent_cpu_all (k : kernel) : res kernel :=
  _ ← thread_current k;
  let ready_threads := Z.of_nat (length (ready_list k)) in
  let ready_threads := if negb (cur k =? idle_thread k) then ready_threads + 1 else ready_threads in
  let k := set_load_avg k (new_load_avg (load_avg k) ready_threads) in
  let coeff := decay (load_avg k) in
  Ok (foldl (λ k t, if t =? idle_thread k then k else upd k t (decay_cpu coeff)) k (all_list k)).

Definition mlfqs_recompute_priority_all (k : kernel) : kernel :=
  let k := foldl (λ k t, if t =? idle_thread k then k
    else upd k t (λ th, with_priority th (mlfqs_priority_of (idle_thread k) t th))) k (all_list k) in
  match ready_list k with
  | [] => k
  | l => set_ready k (list_sort_seq (thread_priority_comparison k) l)
  end.

End Thread.
