(* ===== verification/Synch.v ===== *)
(** * Synchronization, [threads/synch.c]

    Semaphores, locks with priority donation and condition variables.  An
    operation that may sleep is cut where interrupts are on or where the thread
    may be switched out: [run_frame] executes the running thread up to the next
    such point, and the step relation interleaves the threads.  The source leaves
    interrupts on in [donate_priority] and [remove_priority]; here each is one
    atomic step, so an interrupt while they edit a donor list is not modelled. *)

From S2P Require Import Prelude ListSeq Thread.

Module Synch.
Import Thread.

Definition get_sema (k : kernel) (s : Z) : res semaphore := from_opt (semas k !! s).
Definition put_sema (k : kernel) (s : Z) (x : semaphore) : kernel :=
  set_semas k (<[s := x]> (semas k)).
Definition get_holder (k : kernel) (l : Z) : res (option Z) := from_opt (holders k !! l).
Definition put_holder (k : kernel) (l : Z) (h : option Z) : kernel :=
  set_holders k (<[l := h]> (holders k)).

(** ** Semaphores *)

Definition sema_init (k : kernel) (s v : Z) : kernel := put_sema k s (Sema v []).

(** The loop of [sema_down], up to the next time the thread sleeps: [true] when
    the semaphore has been decremented. *)
Definition sema_down (k : kernel) (s : Z) : res (kernel * bool) :=
  ASSERT negb (in_intr k);;
  x ← get_sema k s;
  if value x =? 0 then
    _ ← thread_current k;
    let w := insert_ordered (thread_priority_comparison k) (cur k) (waiters x) in
    k ← thread_block (put_sema k s (Sema (value x) w));
    Ok (k, false)
  else Ok (put_sema k s (Sema (u32 (value x - 1)) (waiters x)), true).

Definition sema_try_down (k : kernel) (s : Z) : res (kernel * bool) :=
  x ← get_sema k s;
  if 0 <? value x then Ok (put_sema k s (Sema (value x - 1) (waiters x)), true)
  else Ok (k, false).

(** [sema_up] up to the final yield, which is asked for by [true]. *)
Definition sema_up (k : kernel) (s : Z) : res (kernel * bool) :=
  x ← get_sema k s;
  match list_sort_seq (thread_priority_comparison k) (waiters x) with
  | [] => Ok (put_sema k s (Sema (u32 (value x + 1)) []), false)
  | t :: rest =>
      k ← thread_unblock (put_sema k s (Sema (value x) rest)) t;
      yield ← (if negb (in_intr k) then
                 c ← thread_current k; Ok (priority c <? prio k t)
               else Ok false);
      x ← get_sema k s;
      Ok (put_sema k s (Sema (u32 (value x + 1)) (waiters x)), yield)
  end.

(** ** Priority donation *)

(** The [while] loop of [donate_priority]; [depth] counts down from the limit of
    20. *)
Fixpoint donate_loop (depth : nat) (k : kernel) (p : Z) (cur_lock : option Z) : res kernel :=
  match depth with
  | O => Ok k
  | S depth =>
      match cur_lock with
      | None => Ok k
      | Some l =>
          h ← get_holder k l;
          match h with
          | None => Ok k
          | Some holder =>
              ht ← get k holder;
              if priority ht <? p then
                let k := upd k holder (λ th, with_priority th p) in
                match waiting_on ht with
                | Some l' => donate_loop depth k p (Some l')
                | None => Ok k
                end
              else Ok k
          end
      end
  end.

Definition donate_priority (stray : Z → Z) (k : kernel) (l : Z) : res kernel :=
  if thread_mlfqs k then Ok k else
  c ← thread_current k;
  let me := cur k in
  let k := upd k me (λ th, with_waiting th (Some l)) in
  k ← donate_loop 20 k (priority c) (Some l);
  h ← get_holder k l;
  match h with
  | None => Ok k
  | Some holder =>
      ht ← get k holder;
      Ok (upd k holder (λ th, with_donors th
            (insert_ordered (donor_comparison stray) me (donors ht))))
  end.

(** The loop of [remove_priority] over the donors that are left to visit. *)
Fixpoint remove_donors (k : kernel) (me l : Z) (ds : list Z) : res kernel :=
  match ds with
  | [] => Ok k
  | d :: ds =>
      dt ← get k d;
      if bool_decide (waiting_on dt = Some l) then
        let k := upd k me (λ th, with_donors th (filter (λ x, x ≠ d) (donors th))) in
        remove_donors (upd k d (λ th, with_waiting th None)) me l ds
      else remove_donors k me l ds
  end.

Definition remove_priority (stray : Z → Z) (k : kernel) (l : Z) : res kernel :=
  if thread_mlfqs k then Ok k else
  c ← thread_current k;
  k ← remove_donors k (cur k) l (donors c);
  update_priority stray k (cur k).

(** ** Locks *)

Definition lock_init (k : kernel) (l : Z) : kernel := sema_init (put_holder k l None) l 1.

Definition lock_held_by_current_thread (k : kernel) (l : Z) : res bool :=
  h ← get_holder k l;
  _ ← thread_current k;
  Ok (bool_decide (h = Some (cur k))).

(** [lock_acquire] before and after its [sema_down]. *)
Definition lock_acquire_begin (stray : Z → Z) (k : kernel) (l : Z) : res kernel :=
  ASSERT negb (in_intr k);;
  held ← lock_held_by_current_thread k l;
  ASSERT negb held;;
  if thread_mlfqs k then Ok k else
  h ← get_holder k l;
  if h is Some _ then donate_priority stray k l else Ok k.
Definition lock_acquire_end (k : kernel) (l : Z) : res kernel :=
  _ ← thread_current k;
  Ok (upd (put_holder k l (Some (cur k))) (cur k) (λ th, with_waiting th None)).

Definition lock_try_acquire (k : kernel) (l : Z) : res (kernel * bool) :=
  held ← lock_held_by_current_thread k l;
  ASSERT negb held;;
  '(k, success) ← sema_try_down k l;
  if (success : bool) then Ok (put_holder k l (Some (cur k)), true) else Ok (k, false).

(** [lock_release] before its [sema_up]. *)
Definition lock_release_begin (stray : Z → Z) (k : kernel) (l : Z) : res kernel :=
  held ← lock_held_by_current_thread k l;
  ASSERT (held : bool);;
  k ← remove_priority stray k l;
  Ok (put_holder k l None).

(** ** Condition variables

    A waiter is the address of the semaphore on the stack of the waiting
    thread. *)

Definition cond_init (k : kernel) (c : Z) : kernel := set_conds k (<[c := []]> (conds k)).

(** [cond_wait] before its [lock_release]; [w] is the waiter. *)
Definition cond_wait_begin (k : kernel) (c l w : Z) : res kernel :=
  ASSERT negb (in_intr k);;
  held ← lock_held_by_current_thread k l;
  ASSERT (held : bool);;
  ws ← from_opt (conds k !! c);
  Ok (set_conds (sema_init k w 0) (<[c := ws ++ [w]]> (conds k))).

(** The first thread that waits on semaphore [w]: [list_front] fails its
    assertion when there is none. *)
Definition front_waiter (k : kernel) (w : Z) : option Z :=
  x ← semas k !! w; head (waiters x).
Definition thread_semaphore_comparison (k : kernel) (a b : Z) : bool :=
  match front_waiter k a, front_waiter k b with
  | Some ta, Some tb => prio k tb <? prio k ta
  | _, _ => false
  end.

(** [list_sort] compares each element with a neighbour if there are at least
    two, so each of the semaphores needs a waiting thread then. *)
Definition cond_signal (k : kernel) (c l : Z) : res (kernel * bool) :=
  ASSERT negb (in_intr k);;
  held ← lock_held_by_current_thread k l;
  ASSERT (held : bool);;
  ws ← from_opt (conds k !! c);
  ASSERT bool_decide (length ws ≤ 1)%nat || forallb (λ w, bool_decide (is_Some (front_waiter k w))) ws;;
  match list_sort_seq (thread_semaphore_comparison k) ws with
  | [] => Ok (k, false)
  | w :: rest => sema_up (set_conds k (<[c := rest]> (conds k))) w
  end.

(** [cond_broadcast] signals until no waiter is left; [n] bounds the waiters. *)
Fixpoint cond_broadcast (n : nat) (k : kernel) (c l : Z) : res kernel :=
  match n with
  | O => Fuel
  | S n =>
      ws ← from_opt (conds k !! c);
      if bool_decide (ws = []) then Ok k else
      '(k, yield) ← cond_signal k c l;
      k ← (if (yield : bool) then thread_yield k else Ok k);
      cond_broadcast n k c l
  end.

End Synch.
