(* ===== verification/Timer.v ===== *)
(** * The timer, [devices/timer.c], and [thread_sleep] *)

From S2P Require Import Prelude ListSeq Thread.

Module Timer.
Import Thread.

Definition INT64_MAX : Z := 2 ^ 63 - 1.
Definition TIMER_FREQ : Z := 100.

Definition wakeup (k : kernel) (t : Z) : Z :=
  match threads k !! t with Some th => wakeup_tick th | None => 0 end.

Definition list_sleep_less_func (k : kernel) (a b : Z) : bool := wakeup k a <? wakeup k b.

(** [thread_sleep], up to the switch; the thread goes on in frame [FSleep]. *)
Definition thread_sleep (k : kernel) (tk : Z) : res kernel :=
  _ ← thread_current k;
  let t := cur k in
  if t =? idle_thread k then Ok k else
  let k := upd k t (λ th, with_frames (with_wakeup th tk) (FSleep :: frames th)) in
  let l := insert_ordered (list_sleep_less_func k) t (sleeping_list k) in
  let next := if tk <? next_wakeup_tick k then tk else next_wakeup_tick k in
  let k := set_sleeping k l next in
  schedule (upd k t (λ th, with_status th THREAD_BLOCKED)).

Definition timer_init (k : kernel) : kernel := set_sleeping k [] INT64_MAX.
Definition timer_ticks (k : kernel) : Z := ticks k.
Definition timer_elapsed (k : kernel) (before : Z) : Z := timer_ticks k - before.

Definition timer_sleep (k : kernel) (tks : Z) : res kernel :=
  if tks <=? 0 then Ok k else
  ASSERT negb (in_intr k);;
  thread_sleep k (timer_ticks k + tks).

(** [real_time_sleep]: [None] when the wait is shorter than a tick and is done by
    a busy loop. *)
Definition real_time_sleep (k : kernel) (num denom : Z) : res (option kernel) :=
  let tks := Z.quot (s64 (num * TIMER_FREQ)) denom in
  if 0 <? tks then Some <$> timer_sleep k tks else Ok None.
Definition timer_msleep (k : kernel) (ms : Z) : res (option kernel) := real_time_sleep k ms 1000.
Definition timer_usleep (k : kernel) (us : Z) : res (option kernel) :=
  real_time_sleep k us (1000 * 1000).
Definition timer_nsleep (k : kernel) (ns : Z) : res (option kernel) :=
  real_time_sleep k ns (1000 * 1000 * 1000).

(** The number of loops that [real_time_delay] waits. *)
Definition real_time_delay (loops_per_tick num denom : Z) : res Z :=
  ASSERT Z.rem denom 1000 =? 0;;
  Ok (Z.quot (s64 (Z.quot (s64 (loops_per_tick * num)) 1000 * TIMER_FREQ)) (Z.quot denom 1000)).

(** The [while] loop of [timer_interrupt]: at most each sleeper once. *)
Fixpoint wake_loop (n : nat) (k : kernel) : res kernel :=
  match sleeping_list k with
  | [] => Ok k
  | t :: l =>
      match n with
      | O => Fuel
      | S n =>
          if wakeup k t <=? ticks k then
            k ← thread_unblock (set_sleeping k l (next_wakeup_tick k)) t;
            wake_loop n k
          else Ok k
      end
  end.

Definition timer_interrupt (k : kernel) : res kernel :=
  let k := set_ticks k (ticks k + 1) in
  k ← thread_tick k;
  k ← (if next_wakeup_tick k <=? ticks k then
         k ← wake_loop (length (sleeping_list k)) k;
         Ok (match sleeping_list k with
             | t :: _ => set_sleeping k (sleeping_list k) (wakeup k t)
             | [] => set_sleeping k [] INT64_MAX
             end)
       else Ok k);
  if thread_mlfqs k && (ticks k mod TIMER_FREQ =? 0) then
    k ← mlfqs_update_load_avg_and_recent_cpu_all k;
    Ok (mlfqs_recompute_priority_all k)
  else Ok k.

(** [intr_handler] around the timer interrupt: the handler runs in interrupt
    context, and the thread yields afterwards if the handler asked for it. *)
Definition timer_tick (k : kernel) : res kernel :=
  k ← timer_interrupt (set_intr k true false);
  let k := set_intr k false (yield_on_return k) in
  if yield_on_return k then thread_yield k else Ok k.

End Timer.
