(* ===== verification/Sched.v ===== *)
(** * The queues of the scheduler

    [run_frame] runs the current thread to the next point where another thread
    may run.  [queues] is the invariant of the ready list, the waiting lists of the
    semaphores and the list of sleepers; the lemmas show that each operation that
    switches threads, wakes them or puts them to sleep succeeds and keeps it. *)

From S2P Require Import Prelude ListSeq Thread Synch Timer.

Module Sched.
Import Thread Synch Timer.

(** ** Running a thread *)

Definition set_frames (k : kernel) (fs : list frame) : kernel :=
  upd k (cur k) (λ th, with_frames th fs).

(** [w] is the address of the semaphore that [cond_wait] has on its stack. *)
Definition run_frame (stray : Z → Z) (w : Z) (k : kernel) : res kernel :=
  th ← thread_current k;
  match frames th with
  | [] => Ok k
  | f :: fs =>
      match f with
      | FSemaDown s =>
          '(k, done) ← sema_down k s;
          if (done : bool) then Ok (set_frames k fs) else Ok k
      | FSemaUp s =>
          '(k, yield) ← sema_up k s;
          Ok (set_frames k (if (yield : bool) then FYield :: fs else fs))
      | FLockAcquire l =>
          k ← lock_acquire_begin stray k l;
          Ok (set_frames k (FLockDown l :: fs))
      | FLockDown l =>
          '(k, done) ← sema_down k l;
          if (done : bool) then Ok (set_frames k (FLockTaken l :: fs)) else Ok k
      | FLockTaken l =>
          k ← lock_acquire_end k l;
          Ok (set_frames k fs)
      | FLockRelease l =>
          k ← lock_release_begin stray k l;
          Ok (set_frames k (FLockUp l :: fs))
      | FLockUp l =>
          '(k, yield) ← sema_up k l;
          Ok (set_frames k (if (yield : bool) then FYield :: fs else fs))
      | FCondWait c l =>
          k ← cond_wait_begin k c l w;
          Ok (set_frames k (FLockRelease l :: FSemaDown w :: FLockAcquire l :: fs))
      | FCondSignal c l =>
          '(k, yield) ← cond_signal k c l;
          Ok (set_frames k (if (yield : bool) then FYield :: fs else fs))
      | FYield => thread_yield (set_frames k fs)
      | FSleep => Ok (set_frames k fs)
      | FExit => thread_exit k
      end
  end.

(** ** Views of the state *)

Definition st (k : kernel) (t : Z) : option thread_status := status <$> threads k !! t.
Definition fr (k : kernel) (t : Z) : option (list frame) := frames <$> threads k !! t.

(** [t] waits in a [sema_down] of semaphore [s]. *)
Definition downs (k : kernel) (s t : Z) : Prop :=
  ∃ fs, fr k t = Some (FSemaDown s :: fs) ∨ fr k t = Some (FLockDown s :: fs).
Definition asleep (k : kernel) (t : Z) : Prop := ∃ fs, fr k t = Some (FSleep :: fs).

(** The queues: who is in them, and that nobody is lost.  [run] is the running
    thread, [None] in the middle of a switch. *)
Record queues (k : kernel) (run : option Z) : Prop := {
  q_run t : st k t = Some THREAD_RUNNING ↔ run = Some t;
  q_ready_nodup : NoDup (ready_list k);
  q_ready t : t ∈ ready_list k ↔ st k t = Some THREAD_READY ∧ t ≠ idle_thread k;
  q_wait_nodup s x : semas k !! s = Some x → NoDup (waiters x);
  q_wait s x t :
    semas k !! s = Some x → t ∈ waiters x → st k t = Some THREAD_BLOCKED ∧ downs k s t;
  q_sleep_nodup : NoDup (sleeping_list k);
  q_sleep t : t ∈ sleeping_list k → st k t = Some THREAD_BLOCKED ∧ asleep k t;
  q_blocked t :
    st k t = Some THREAD_BLOCKED →
    t = idle_thread k ∨ t ∈ sleeping_list k ∨ ∃ s x, semas k !! s = Some x ∧ t ∈ waiters x;
  q_dying t :
    st k t = Some THREAD_DYING → t ≠ idle_thread k ∧ (t = initial_thread k ∨ run = None ∧ t = cur k);
  q_idle : fr k (idle_thread k) = Some []
}.

Definition sinv (k : kernel) : Prop := queues k (Some (cur k)) ∧ in_intr k = false.

(** States with the same queues: only priorities, donors and the like differ. *)
Record same_queues (k k' : kernel) : Prop := {
  sq_st t : st k' t = st k t;
  sq_fr t : fr k' t = fr k t;
  sq_ready : ready_list k' ≡ₚ ready_list k;
  sq_sleep : sleeping_list k' = sleeping_list k;
  sq_semas : semas k' = semas k;
  sq_cur : cur k' = cur k;
  sq_idle : idle_thread k' = idle_thread k;
  sq_init : initial_thread k' = initial_thread k
}.

Lemma queues_same k k' run : same_queues k k' → queues k run → queues k' run.
Proof.
  intros [Hst Hfr Hr Hsl Hse Hc Hi Hin] []. split.
  - intros t. rewrite Hst. done.
  - by rewrite Hr.
  - intros t. by rewrite Hr, Hst, Hi.
  - intros s x. rewrite Hse. eauto.
  - intros s x t. rewrite Hse, Hst. unfold downs. rewrite Hfr. eauto.
  - by rewrite Hsl.
  - intros t. rewrite Hsl, Hst. unfold asleep. rewrite Hfr. eauto.
  - intros t. rewrite Hst, Hi, Hsl, Hse. eauto.
  - intros t. rewrite Hst, Hi, Hin, Hc. eauto.
  - by rewrite Hi, Hfr.
Qed.

(** Updates of a thread that change neither its status nor its frames. *)
Definition plain (f : thread → thread) : Prop :=
  ∀ th, status (f th) = status th ∧ frames (f th) = frames th.

Lemma st_upd k t f u :
  st (upd k t f) u = if decide (u = t) then status ∘ f <$> threads k !! t else st k u.
Proof.
  unfold st, upd. simpl. destruct (decide (u = t)) as [->|].
  - rewrite lookup_alter_eq. by destruct (threads k !! t).
  - by rewrite lookup_alter_ne.
Qed.
Lemma fr_upd k t f u :
  fr (upd k t f) u = if decide (u = t) then frames ∘ f <$> threads k !! t else fr k u.
Proof.
  unfold fr, upd. simpl. destruct (decide (u = t)) as [->|].
  - rewrite lookup_alter_eq. by destruct (threads k !! t).
  - by rewrite lookup_alter_ne.
Qed.

Lemma same_queues_upd k t f : plain f → same_queues k (upd k t f).
Proof.
  intros Hf. split; try done; intros u.
  - rewrite st_upd. destruct (decide (u = t)) as [->|]; [|done]. unfold st.
    destruct (threads k !! t) as [th|]; simpl; [|done]. by rewrite (proj1 (Hf th)).
  - rewrite fr_upd. destruct (decide (u = t)) as [->|]; [|done]. unfold fr.
    destruct (threads k !! t) as [th|]; simpl; [|done]. by rewrite (proj2 (Hf th)).
Qed.
#[export] Instance same_queues_refl : Reflexive same_queues.
Proof. by split. Qed.
#[export] Instance same_queues_trans : Transitive same_queues.
Proof.
  intros k1 k2 k3 [? ? P ? ? ? ? ?] [? ? Q ? ? ? ? ?]. split; try congruence. by rewrite Q, P.
Qed.

(** ** The switch *)

(** [k'] is [k] after a switch: the first ready thread runs, or the idle thread,
    and a dying thread that was switched out is gone. *)
Record switched (k k' : kernel) : Prop := {
  sw_threads t :
    threads k' !! t =
      if decide (t = cur k ∧ st k t = Some THREAD_DYING ∧ t ≠ initial_thread k) then None
      else if decide (t = cur k') then (λ th, with_status th THREAD_RUNNING) <$> threads k !! t
      else threads k !! t;
  sw_cur : cur k' = default (idle_thread k) (head (ready_list k));
  sw_ready : ready_list k' = tail (ready_list k);
  sw_sleep : sleeping_list k' = sleeping_list k;
  sw_semas : semas k' = semas k;
  sw_holders : holders k' = holders k;
  sw_conds : conds k' = conds k;
  sw_all : all_list k' = all_list k;
  sw_idle : idle_thread k' = idle_thread k;
  sw_init : initial_thread k' = initial_thread k;
  sw_intr : in_intr k' = in_intr k;
  sw_mlfqs : thread_mlfqs k' = thread_mlfqs k;
  sw_ticks : ticks k' = ticks k;
  sw_wake : next_wakeup_tick k' = next_wakeup_tick k
}.

Lemma next_exists k :
  queues k None → is_Some (threads k !! default (idle_thread k) (head (ready_list k))).
Proof.
  intros Hq. destruct (ready_list k) as [|t l] eqn:E; simpl.
  - pose proof (q_idle k None Hq) as Hi. unfold fr in Hi. by destruct (threads k !! idle_thread k).
  - destruct (proj1 (q_ready k None Hq t)) as [Hs _]; [rewrite E; by left|]. unfold st in Hs.
    by destruct (threads k !! t).
Qed.

Lemma schedule_switched k :
  queues k None → is_Some (threads k !! cur k) → ∃ k', schedule k = Ok k' ∧ switched k k'.
Proof.
  intros Hq [ct Hct]. destruct (next_exists k Hq) as [nt Hnt].
  set (next := default (idle_thread k) (head (ready_list k))) in *.
  assert (Hnr : status ct ≠ THREAD_RUNNING).
  { intros E. assert (st k (cur k) = Some THREAD_RUNNING) as Hx%(q_run k None Hq); [|done].
    unfold st. by rewrite Hct; simpl; rewrite E. }
  assert (Hnext : next_thread_to_run k = (next, set_ready k (tail (ready_list k)))).
  { unfold next_thread_to_run, next. destruct k as [? l]. by destruct l. }
  unfold schedule. rewrite Hnext. unfold get. cbn [threads set_ready]. rewrite Hct. simpl.
  rewrite bool_decide_eq_false_2 by done. simpl. rewrite Hnt. simpl.
  unfold thread_schedule_tail. destruct (Z.eqb_spec (cur k) next) as [Ec|Ec]; simpl.
  - eexists. split; [done|]. split; simpl; try done. intros t. rewrite decide_False.
    2:{ intros (-> & Hd & _). pose proof (q_dying k None Hq _ Hd) as [Hni _].
        destruct (ready_list k) as [|r l] eqn:El; [done|].
        destruct (proj1 (q_ready k None Hq r)) as [Hs _]; [rewrite El; by left|].
        unfold next in Ec. simpl in Ec. congruence. }
    destruct (decide (t = cur k)) as [->|].
    + by rewrite lookup_alter_eq.
    + by rewrite lookup_alter_ne.
  - unfold get. simpl. rewrite lookup_alter_ne, Hct by done. simpl.
    destruct (bool_decide_reflect (status ct = THREAD_DYING)) as [Hd|Hd]; simpl;
      [destruct (Z.eqb_spec (cur k) (initial_thread k)) as [Ei|Ei]; simpl|].
    + eexists. split; [done|]. split; simpl; try done. intros t.
      rewrite decide_False by (intros (-> & _ & ?); done).
      destruct (decide (t = next)) as [->|]; [by rewrite lookup_alter_eq|by rewrite lookup_alter_ne].
    + eexists. split; [done|]. split; simpl; try done. intros t.
      destruct (decide (t = cur k)) as [->|].
      * rewrite decide_True by (unfold st; rewrite Hct; simpl; rewrite Hd; done).
        apply lookup_delete_eq.
      * rewrite lookup_delete_ne by done. rewrite decide_False by (by intros [? _]).
        destruct (decide (t = next)) as [->|]; [by rewrite lookup_alter_eq|by rewrite lookup_alter_ne].
    + eexists. split; [done|]. split; simpl; try done. intros t.
      rewrite decide_False.
      2:{ intros (-> & Hx & _). unfold st in Hx. rewrite Hct in Hx. simpl in Hx. congruence. }
      destruct (decide (t = next)) as [->|]; [by rewrite lookup_alter_eq|by rewrite lookup_alter_ne].
Qed.

Section switched.
Context (k k' : kernel) (Hq : queues k None) (Hsw : switched k k').

Lemma sw_st t :
  st k' t = if decide (t = cur k ∧ st k t = Some THREAD_DYING ∧ t ≠ initial_thread k) then None
            else if decide (t = cur k') then Some THREAD_RUNNING else st k t.
Proof.
  unfold st at 1. rewrite (sw_threads k k' Hsw).
  destruct (decide _); [done|]. destruct (decide (t = cur k')) as [->|]; [|done].
  rewrite (sw_cur k k' Hsw). destruct (next_exists k Hq) as [th ->]. done.
Qed.

(** Only the frames of a dead thread disappear. *)
Lemma sw_fr t fs : fr k' t = Some fs → fr k t = Some fs.
Proof.
  unfold fr. rewrite (sw_threads k k' Hsw). destruct (decide _); [done|].
  destruct (decide (t = cur k')); [|done]. by destruct (threads k !! t).
Qed.
Lemma sw_fr_eq t : st k t ≠ Some THREAD_DYING → fr k' t = fr k t.
Proof.
  intros Hd. unfold fr. rewrite (sw_threads k k' Hsw). rewrite decide_False by naive_solver.
  destruct (decide (t = cur k')); [|done]. by destruct (threads k !! t).
Qed.

(** The thread that runs next was ready, or is the idle thread. *)
Lemma sw_next :
  (st k (cur k') = Some THREAD_READY ∧ cur k' ≠ idle_thread k
     ∧ ready_list k = cur k' :: ready_list k')
  ∨ cur k' = idle_thread k ∧ ready_list k = [] ∧ ready_list k' = [].
Proof.
  rewrite (sw_cur k k' Hsw), (sw_ready k k' Hsw).
  destruct (ready_list k) as [|t l] eqn:E; simpl; [by right|]. left.
  destruct (proj1 (q_ready k None Hq t)) as [Hs Hi]; [rewrite E; by left|]. done.
Qed.

Lemma sw_next_not_dying : st k (cur k') ≠ Some THREAD_DYING.
Proof.
  destruct sw_next as [(Hs & _)|(Hc & _)]; [congruence|]. rewrite Hc. intros Hd.
  by apply (q_dying k None Hq) in Hd as [? _].
Qed.

Lemma sw_st_other t :
  st k' t = Some THREAD_READY ∨ st k' t = Some THREAD_BLOCKED ∨ st k' t = Some THREAD_DYING →
  t ≠ cur k' ∧ st k' t = st k t.
Proof.
  rewrite sw_st. destruct (decide _); [naive_solver|]. destruct (decide (t = cur k')); naive_solver.
Qed.

Lemma sw_blocked t :
  st k t = Some THREAD_BLOCKED → t ≠ idle_thread k → st k' t = Some THREAD_BLOCKED.
Proof.
  intros Hb Hi. rewrite sw_st. rewrite decide_False by naive_solver.
  rewrite decide_False; [done|]. intros ->. destruct sw_next as [(Hs & _)|(Hc & _)]; congruence.
Qed.

Lemma queues_switched : queues k' (Some (cur k')).
Proof.
  assert (Hnidle : ∀ s t, downs k s t → t ≠ idle_thread k).
  { intros s t [fs Hd] ->. rewrite (q_idle k None Hq) in Hd. naive_solver. }
  assert (Hsidle : ∀ t, asleep k t → t ≠ idle_thread k).
  { intros t [fs Hd] ->. rewrite (q_idle k None Hq) in Hd. done. }
  pose proof sw_next as Hnext. pose proof (q_ready_nodup k None Hq) as Hnd. split.
  - intros t. rewrite sw_st. destruct (decide _) as [(-> & Hd & _)|Hn].
    + split; [done|]. intros [= E]. exfalso. apply sw_next_not_dying. by rewrite E.
    + destruct (decide (t = cur k')) as [->|Ht]; [done|]. rewrite (q_run k None Hq).
      split; [done|]. intros [= E]. done.
  - destruct Hnext as [(_ & _ & E)|(_ & _ & ->)]; [|constructor].
    rewrite E in Hnd. by apply NoDup_cons in Hnd as [_ ?].
  - intros t. rewrite (sw_idle k k' Hsw). split.
    + intros Ht. destruct Hnext as [(Hs & Hi & E)|(_ & _ & E)]; [|rewrite E in Ht; set_solver].
      assert (Hin : t ∈ ready_list k) by (rewrite E; by right).
      apply (q_ready k None Hq) in Hin as [Hst Hti]. split; [|done]. rewrite sw_st.
      rewrite decide_False by naive_solver. rewrite decide_False; [done|]. intros ->.
      rewrite E in Hnd. by apply NoDup_cons in Hnd as [? _].
    + intros [Hs Hi]. destruct (sw_st_other t) as [Hc Hst]; [by left|]. rewrite Hst in Hs.
      assert (Hin : t ∈ ready_list k) by (by apply (q_ready k None Hq)).
      destruct Hnext as [(_ & _ & E)|(_ & E & _)]; rewrite E in Hin;
        [by apply elem_of_cons in Hin as [?|?]|by apply not_elem_of_nil in Hin].
  - intros s x. rewrite (sw_semas k k' Hsw). apply (q_wait_nodup k None Hq).
  - intros s x t Hx Ht. rewrite (sw_semas k k' Hsw) in Hx.
    destruct (q_wait k None Hq s x t Hx Ht) as [Hb Hd]. split.
    + apply sw_blocked; [done|by apply (Hnidle s)].
    + unfold downs. rewrite sw_fr_eq by congruence. done.
  - rewrite (sw_sleep k k' Hsw). apply (q_sleep_nodup k None Hq).
  - intros t. rewrite (sw_sleep k k' Hsw). intros Ht.
    destruct (q_sleep k None Hq t Ht) as [Hb Ha]. split; [by apply sw_blocked; [|apply Hsidle]|].
    unfold asleep. rewrite sw_fr_eq by congruence. done.
  - intros t Hb. destruct (sw_st_other t) as [_ Hst]; [by right; left|]. rewrite Hst in Hb.
    rewrite (sw_idle k k' Hsw), (sw_sleep k k' Hsw), (sw_semas k k' Hsw).
    by apply (q_blocked k None Hq).
  - intros t Hd. destruct (sw_st_other t) as [_ Hst]; [by right; right|]. pose proof Hd as Hd'.
    rewrite Hst in Hd'. rewrite (sw_idle k k' Hsw), (sw_init k k' Hsw).
    destruct (q_dying k None Hq t Hd') as [Hi Hc]. split; [done|]. left.
    destruct (decide (t = initial_thread k)) as [|Hne]; [done|].
    destruct Hc as [|[_ ->]]; [done|]. rewrite sw_st, decide_True in Hd by done. done.
  - rewrite (sw_idle k k' Hsw). rewrite sw_fr_eq; [apply (q_idle k None Hq)|].
    intros Hd. by apply (q_dying k None Hq) in Hd as [? _].
Qed.

End switched.

(** ** Waking and sleeping *)

(** [k'] is [k] with the blocked thread [t] moved from its waiting list to the
    ready list. *)
Record woken (k k' : kernel) (t : Z) : Prop := {
  wk_st u : st k' u = if decide (u = t) then Some THREAD_READY else st k u;
  wk_fr u : fr k' u = fr k u;
  wk_ready : ready_list k' ≡ₚ t :: ready_list k;
  wk_waits s x' u :
    semas k' !! s = Some x' → ∃ x, semas k !! s = Some x ∧
      (NoDup (waiters x) → NoDup (waiters x')) ∧ (u ∈ waiters x' ↔ u ∈ waiters x ∧ u ≠ t);
  wk_dom s x : semas k !! s = Some x → is_Some (semas k' !! s);
  wk_sleep_nodup : NoDup (sleeping_list k) → NoDup (sleeping_list k');
  wk_sleep u : u ∈ sleeping_list k' ↔ u ∈ sleeping_list k ∧ u ≠ t;
  wk_cur : cur k' = cur k;
  wk_idle : idle_thread k' = idle_thread k;
  wk_init : initial_thread k' = initial_thread k
}.

Lemma queues_woken k k' run t :
  queues k run → st k t = Some THREAD_BLOCKED → t ≠ idle_thread k → woken k k' t → queues k' run.
Proof.
  intros Hq Hb Hi Hw. split.
  - intros u. rewrite (wk_st k k' t Hw). destruct (decide (u = t)) as [->|]; [|apply Hq].
    split; [done|]. intros Hr. apply (q_run k run Hq) in Hr. congruence.
  - rewrite (wk_ready k k' t Hw). constructor; [|apply Hq].
    rewrite (q_ready k run Hq). intros [? _]. congruence.
  - intros u. rewrite (wk_ready k k' t Hw), elem_of_cons, (q_ready k run Hq),
      (wk_st k k' t Hw), (wk_idle k k' t Hw). destruct (decide (u = t)) as [->|]; naive_solver.
  - intros s x' Hx'. destruct (wk_waits k k' t Hw s x' t Hx') as (x & Hx & Hn & _).
    by apply Hn, (q_wait_nodup k run Hq s).
  - intros s x' u Hx' Hu. destruct (wk_waits k k' t Hw s x' u Hx') as (x & Hx & _ & Hiff).
    destruct (proj1 Hiff Hu) as [Hux Hne]. destruct (q_wait k run Hq s x u Hx Hux) as [Hs Hd].
    rewrite (wk_st k k' t Hw), decide_False by done. split; [done|].
    unfold downs. by rewrite (wk_fr k k' t Hw).
  - apply (wk_sleep_nodup k k' t Hw), (q_sleep_nodup k run Hq).
  - intros u [Hu Hne]%(wk_sleep k k' t Hw). destruct (q_sleep k run Hq u Hu) as [Hs Ha].
    rewrite (wk_st k k' t Hw), decide_False by done. split; [done|].
    unfold asleep. by rewrite (wk_fr k k' t Hw).
  - intros u. rewrite (wk_st k k' t Hw). destruct (decide (u = t)) as [->|Hne]; [done|].
    intros Hs. rewrite (wk_idle k k' t Hw).
    destruct (q_blocked k run Hq u Hs) as [->|[Hu|(s & x & Hx & Hu)]]; [by left|right; left|right; right].
    + by apply (wk_sleep k k' t Hw).
    + destruct (wk_dom k k' t Hw s x Hx) as [x' Hx']. exists s, x'. split; [done|].
      destruct (wk_waits k k' t Hw s x' u Hx') as (x2 & Hx2 & _ & Hiff).
      rewrite Hx in Hx2. injection Hx2 as <-. by apply Hiff.
  - intros u. rewrite (wk_st k k' t Hw), (wk_idle k k' t Hw), (wk_init k k' t Hw), (wk_cur k k' t Hw).
    destruct (decide (u = t)); [done|]. apply Hq.
  - rewrite (wk_idle k k' t Hw), (wk_fr k k' t Hw). apply Hq.
Qed.

(** The views that the lock invariants depend on. *)
Definition wo (k : kernel) (t : Z) : option (option Z) := waiting_on <$> threads k !! t.
Definition dn (k : kernel) (t : Z) : option (list Z) := donors <$> threads k !! t.
Definition vl (k : kernel) (s : Z) : option Z := value <$> semas k !! s.

Record same_locks (k k' : kernel) : Prop := {
  sl_fr t : fr k' t = fr k t;
  sl_wo t : wo k' t = wo k t;
  sl_dn t : dn k' t = dn k t;
  sl_vl s : vl k' s = vl k s;
  sl_holders : holders k' = holders k;
  sl_conds : conds k' = conds k;
  sl_mlfqs : thread_mlfqs k' = thread_mlfqs k
}.
#[export] Instance same_locks_refl : Reflexive same_locks.
Proof. by split. Qed.
#[export] Instance same_locks_trans : Transitive same_locks.
Proof. intros k1 k2 k3 [] []. split; congruence. Qed.

Lemma view_upd {A} (g : thread → A) k t f u :
  (∀ th, g (f th) = g th) → g <$> threads (upd k t f) !! u = g <$> threads k !! u.
Proof.
  intros Hg. unfold upd. simpl. destruct (decide (u = t)) as [->|].
  - rewrite lookup_alter_eq. destruct (threads k !! t); simpl; [|done]. by rewrite Hg.
  - by rewrite lookup_alter_ne.
Qed.

Lemma same_locks_upd k t f :
  (∀ th, frames (f th) = frames th ∧ waiting_on (f th) = waiting_on th ∧ donors (f th) = donors th) →
  same_locks k (upd k t f).
Proof.
  intros Hf. split; try done; intros u; apply view_upd; intros th; apply (Hf th).
Qed.

Lemma same_locks_switched k k' :
  queues k None → switched k k' → (∀ t, st k t ≠ Some THREAD_DYING ∨ t = initial_thread k) →
  same_locks k k'.
Proof.
  intros Hq Hsw Hd.
  assert (Hth : ∀ {A} (g : thread → A) t, (∀ th s, g (with_status th s) = g th) →
    g <$> threads k' !! t = g <$> threads k !! t).
  { intros A g t Hg. rewrite (sw_threads k k' Hsw). rewrite decide_False by naive_solver.
    destruct (decide (t = cur k')); [|done]. destruct (threads k !! t); simpl; [|done]. by rewrite Hg. }
  split; try (intros t; by apply Hth); try apply Hsw.
  intros s. unfold vl. by rewrite (sw_semas k k' Hsw).
Qed.

Lemma queues_cur k : queues k (Some (cur k)) → st k (cur k) = Some THREAD_RUNNING.
Proof. intros Hq. by apply (q_run k _ Hq). Qed.

Lemma thread_current_ok k :
  st k (cur k) = Some THREAD_RUNNING →
  ∃ th, thread_current k = Ok th ∧ threads k !! cur k = Some th.
Proof.
  intros Hs. unfold st in Hs.
  unfold thread_current, get. destruct (threads k !! cur k) as [th|]; [|done]. simpl in *.
  injection Hs as Hs. exists th. by rewrite bool_decide_eq_true_2.
Qed.

Lemma thread_unblock_ok k t :
  st k (cur k) = Some THREAD_RUNNING → st k t = Some THREAD_BLOCKED →
  ∃ k' y, thread_unblock k t = Ok k' ∧
    k' = set_intr (upd (insert_ready k t) t (λ th, with_status th THREAD_READY)) (in_intr k) y.
Proof.
  intros Hq Hs. assert (Hne : t ≠ cur k) by congruence.
  unfold thread_unblock, get. unfold st in Hs.
  destruct (threads k !! t) as [th|] eqn:Hth; [|done]. simpl in Hs. injection Hs as Hs.
  cbn [from_opt mbind res_bind]. rewrite bool_decide_eq_true_2 by done. cbv zeta.
  set (k1 := upd (insert_ready k t) t (λ th, with_status th THREAD_READY)).
  assert (Hk1 : k1 = set_intr k1 (in_intr k) (yield_on_return k)) by (by destruct k).
  change (in_intr k1) with (in_intr k).
  destruct (in_intr k) eqn:Hin; [|by exists k1, (yield_on_return k)].
  destruct (ready_list k1) as [|front l]; [by exists k1, (yield_on_return k)|].
  destruct (thread_current_ok k Hq) as (c & Hc & Hcc).
  assert (Hcur : thread_current k1 = Ok c).
  { unfold thread_current, get, k1, upd. simpl. rewrite lookup_alter_ne, Hcc by done. simpl.
    unfold thread_current, get in Hc. rewrite Hcc in Hc. simpl in Hc. done. }
  rewrite Hcur. cbn [mbind res_bind]. destruct (priority c <? prio k1 front).
  - by exists (set_intr k1 true true), true.
  - by exists k1, (yield_on_return k).
Qed.

#[export] Instance thread_priority_strict k : StrictWeak (thread_priority_comparison k).
Proof.
  unfold thread_priority_comparison. split; intros *; rewrite ?Z.ltb_lt, ?Z.ltb_ge; lia.
Qed.

Lemma upd_views k t f :
  (∀ th, frames (f th) = frames th ∧ waiting_on (f th) = waiting_on th ∧ donors (f th) = donors th) →
  ∀ u, fr (upd k t f) u = fr k u ∧ wo (upd k t f) u = wo k u ∧ dn (upd k t f) u = dn k u.
Proof. intros Hf u. split_and!; apply view_upd; intros th; apply (Hf th). Qed.

(** The rest of the state that an operation on semaphore [s] leaves alone. *)
Record only_sema (k k' : kernel) (s v : Z) : Prop := {
  os_fr t : fr k' t = fr k t;
  os_wo t : wo k' t = wo k t;
  os_dn t : dn k' t = dn k t;
  os_vl s' : vl k' s' = if decide (s' = s) then Some v else vl k s';
  os_holders : holders k' = holders k;
  os_conds : conds k' = conds k;
  os_mlfqs : thread_mlfqs k' = thread_mlfqs k;
  os_intr : in_intr k' = in_intr k
}.

Lemma vl_put_sema k s x s' :
  vl (put_sema k s x) s' = if decide (s' = s) then Some (value x) else vl k s'.
Proof.
  unfold vl. simpl. destruct (decide (s' = s)) as [->|].
  - by rewrite lookup_insert_eq.
  - by rewrite lookup_insert_ne.
Qed.

(** The value of a semaphore does not matter to the queues. *)
Lemma queues_sema_value k run s x v :
  queues k run → semas k !! s = Some x → queues (put_sema k s (Sema v (waiters x))) run.
Proof.
  intros Hq Hx. split; simpl; try apply Hq.
  - intros s' x' [[<- <-]|[_ Hx']]%lookup_insert_Some;
      [by apply (q_wait_nodup k run Hq s x)|by apply (q_wait_nodup k run Hq s')].
  - intros s' x' u [[<- <-]|[_ Hx']]%lookup_insert_Some Hu;
      [by apply (q_wait k run Hq s x)|by apply (q_wait k run Hq s' x')].
  - intros u Hu. destruct (q_blocked k run Hq u Hu) as [|[|(s' & x' & Hx' & Hux)]];
      [by left|by right; left|right; right].
    destruct (decide (s' = s)) as [->|]; [|exists s', x'; by rewrite lookup_insert_ne].
    eexists s, _. rewrite lookup_insert_eq. split; [done|]. simpl. congruence.
Qed.

(** The state after [sema_up] has moved waiter [t]. *)
Lemma woken_sema_up k s x t rest b y v :
  queues k (Some (cur k)) → semas k !! s = Some x → waiters x ≡ₚ t :: rest →
  woken k (put_sema (set_intr (upd (insert_ready (put_sema k s (Sema (value x) rest)) t) t
    (λ th, with_status th THREAD_READY)) b y) s (Sema v rest)) t.
Proof.
  intros Hq Hx Hperm. assert (Hin : t ∈ waiters x) by (rewrite Hperm; by left).
  destruct (q_wait k _ Hq s x t Hx Hin) as [Hb Hd].
  split; simpl; try done.
  - intros u. etrans; [apply (st_upd (insert_ready (put_sema k s (Sema (value x) rest)) t))|].
    destruct (decide (u = t)); [|done]. unfold st in Hb. simpl.
    by destruct (threads k !! t).
  - intros u. apply (view_upd frames). done.
  - apply insert_ordered_perm.
  - intros s' x' u. rewrite insert_insert_eq. intros [[<- <-]|[Hne Hx']]%lookup_insert_Some.
    + exists x. split; [done|]. rewrite Hperm. simpl. split.
      * by intros [_ ?]%NoDup_cons.
      * pose proof (q_wait_nodup k _ Hq s x Hx) as Hn. rewrite Hperm in Hn.
        apply NoDup_cons in Hn as [Hn _]. rewrite elem_of_cons. split.
        -- intros Hu. split; [by right|]. by intros ->.
        -- by intros [[->|?] ?].
    + exists x'. split; [done|]. split; [done|]. split; [|by intros [? _]]. intros Hu.
      split; [done|]. intros ->. destruct (q_wait k _ Hq s' x' t Hx' Hu) as [_ [fs' Hd']].
      destruct Hd as [fs Hd]. naive_solver.
  - intros s' x' Hx'. rewrite insert_insert_eq. destruct (decide (s = s')) as [<-|].
    + by rewrite lookup_insert_eq.
    + by rewrite lookup_insert_ne, Hx'.
  - intros u. split; [|by intros [? _]]. intros Hu. split; [done|]. intros ->.
    destruct (q_sleep k _ Hq t Hu) as [_ [fs' Ha]]. destruct Hd as [fs Hd]. naive_solver.
Qed.

Lemma sema_up_ok k s x :
  queues k (Some (cur k)) → semas k !! s = Some x →
  ∃ k' y, sema_up k s = Ok (k', y) ∧ queues k' (Some (cur k')) ∧ cur k' = cur k
    ∧ only_sema k k' s (u32 (value x + 1)).
Proof.
  intros Hq Hx. unfold sema_up, get_sema. rewrite Hx. cbn [from_opt mbind res_bind].
  pose proof (list_sort_perm (thread_priority_comparison k) (waiters x)) as Hperm.
  destruct (list_sort_seq (thread_priority_comparison k) (waiters x)) as [|t rest].
  - apply Permutation_nil in Hperm. rewrite <- Hperm. eexists _, false. split; [done|].
    split_and!; [by apply queues_sema_value|done|]. split; try done. intros s'. apply vl_put_sema.
  - assert (Hin : t ∈ waiters x) by (rewrite <- Hperm; by left).
    destruct (q_wait k _ Hq s x t Hx Hin) as [Hb Hd].
    assert (Hti : t ≠ idle_thread k).
    { intros ->. destruct Hd as [fs Hd]. rewrite (q_idle k _ Hq) in Hd. naive_solver. }
    set (k1 := put_sema k s (Sema (value x) rest)).
    destruct (thread_unblock_ok k1 t) as (k2 & y & -> & Hk2); [exact (queues_cur k Hq)|done|].
    cbn [mbind res_bind].
    assert (Hx2 : semas k2 !! s = Some (Sema (value x) rest)).
    { rewrite Hk2. simpl. apply lookup_insert_eq. }
    assert (Hcur : ∃ c, thread_current k2 = Ok c).
    { destruct (thread_current_ok k2) as (c & Hc & _); [|by exists c].
      rewrite Hk2. change (st (upd (insert_ready k1 t) t (λ th, with_status th THREAD_READY)) (cur k)
        = Some THREAD_RUNNING). rewrite st_upd. pose proof (queues_cur k Hq) as Hc.
      rewrite decide_False by congruence. done. }
    assert (Hy : ∃ y, (if negb (in_intr k2) then c ← thread_current k2; Ok (priority c <? prio k2 t)
      else Ok false) = Ok y).
    { destruct Hcur as [c ->]. destruct (in_intr k2); simpl; eauto. }
    destruct Hy as [y' ->]. cbn [mbind res_bind]. rewrite Hx2. cbn [from_opt mbind res_bind].
    simpl. eexists _, y'. split; [done|].
    pose proof (woken_sema_up k s x t rest (in_intr k) y (u32 (value x + 1)) Hq Hx) as Hw.
    specialize (Hw ltac:(by rewrite Hperm)). rewrite Hk2. split_and!.
    + by apply (queues_woken k _ (Some (cur k)) t).
    + done.
    + split; try done; intros u; [by apply (view_upd frames (insert_ready k1 t))
        |by apply (view_upd waiting_on (insert_ready k1 t))
        |by apply (view_upd donors (insert_ready k1 t))|].
      rewrite vl_put_sema. destruct (decide (u = s)) as [->|]; [done|].
      etrans; [apply (vl_put_sema k s)|]. by rewrite decide_False.
Qed.

(** The running thread leaves the processor with status [new] and enters the
    queue that goes with it. *)
Lemma queues_leave k k' new :
  queues k (Some (cur k)) → new ≠ THREAD_RUNNING →
  (∀ u, st k' u = if decide (u = cur k) then Some new else st k u) →
  (∀ u, u ≠ cur k → fr k' u = fr k u) → fr k' (idle_thread k) = Some [] →
  cur k' = cur k → idle_thread k' = idle_thread k → initial_thread k' = initial_thread k →
  NoDup (ready_list k') →
  (∀ u, u ∈ ready_list k' ↔
     u ∈ ready_list k ∨ u = cur k ∧ new = THREAD_READY ∧ u ≠ idle_thread k) →
  (∀ s x', semas k' !! s = Some x' → NoDup (waiters x') ∧ ∀ u, u ∈ waiters x' →
     u = cur k ∧ new = THREAD_BLOCKED ∧ downs k' s u ∨ ∃ x, semas k !! s = Some x ∧ u ∈ waiters x) →
  (∀ s x u, semas k !! s = Some x → u ∈ waiters x → ∃ x', semas k' !! s = Some x' ∧ u ∈ waiters x') →
  NoDup (sleeping_list k') →
  (∀ u, u ∈ sleeping_list k' →
     u ∈ sleeping_list k ∨ u = cur k ∧ new = THREAD_BLOCKED ∧ asleep k' u) →
  (∀ u, u ∈ sleeping_list k → u ∈ sleeping_list k') →
  (new = THREAD_BLOCKED → cur k = idle_thread k ∨ cur k ∈ sleeping_list k'
     ∨ ∃ s x, semas k' !! s = Some x ∧ cur k ∈ waiters x) →
  (new = THREAD_DYING → cur k ≠ idle_thread k) →
  queues k' None.
Proof.
  intros Hq Hnew Hst Hfr Hidle Hc Hi Hin Hnr Hr Hw Hw' Hns Hs Hs' Hblk Hdy.
  pose proof (queues_cur k Hq) as Hrun. split.
  - intros u. rewrite Hst. split; [|done]. destruct (decide (u = cur k)) as [->|Hu]; [congruence|].
    intros Hu'. apply (q_run k _ Hq) in Hu'. congruence.
  - done.
  - intros u. rewrite Hr, (q_ready k _ Hq), Hst, Hi.
    destruct (decide (u = cur k)) as [->|]; naive_solver.
  - intros s x' Hx'. by apply (Hw s).
  - intros s x' u Hx' Hu. destruct (Hw s x' Hx') as [_ Hall]. rewrite Hst.
    destruct (Hall u Hu) as [(-> & -> & Hd)|(x & Hx & Hux)]; [by rewrite decide_True|].
    destruct (q_wait k _ Hq s x u Hx Hux) as [Hb Hd].
    assert (u ≠ cur k) by congruence. rewrite decide_False by done. split; [done|].
    unfold downs. by rewrite Hfr.
  - done.
  - intros u Hu. rewrite Hst. destruct (Hs u Hu) as [Hold|(-> & -> & Ha)]; [|by rewrite decide_True].
    destruct (q_sleep k _ Hq u Hold) as [Hb Ha]. assert (u ≠ cur k) by congruence.
    rewrite decide_False by done. split; [done|]. unfold asleep. by rewrite Hfr.
  - intros u. rewrite Hst, Hi. destruct (decide (u = cur k)) as [->|Hu]; [intros [= E]; auto|].
    intros Hb. destruct (q_blocked k _ Hq u Hb) as [|[|(s & x & Hx & Hux)]];
      [by left|right; left; auto|right; right].
    destruct (Hw' s x u Hx Hux) as (x' & Hx' & Hux'). by exists s, x'.
  - intros u. rewrite Hst, Hi, Hin, Hc. destruct (decide (u = cur k)) as [->|Hu].
    + intros [= E]. auto.
    + intros Hd. destruct (q_dying k _ Hq u Hd) as [? [?|[? _]]]; [auto|done].
  - by rewrite Hi.
Qed.

Definition become (s : thread_status) (th : thread) : thread := with_status th s.

Lemma st_become k t s u :
  is_Some (threads k !! t) → st (upd k t (become s)) u = if decide (u = t) then Some s else st k u.
Proof.
  intros [th Hth]. rewrite st_upd. destruct (decide (u = t)); [|done]. by rewrite Hth.
Qed.
Lemma views_become k t s u :
  fr (upd k t (become s)) u = fr k u ∧ wo (upd k t (become s)) u = wo k u
    ∧ dn (upd k t (become s)) u = dn k u.
Proof. split_and!; by apply view_upd. Qed.

Lemma same_locks_become k t s : same_locks k (upd k t (become s)).
Proof. by apply same_locks_upd. Qed.

Lemma cur_exists k : queues k (Some (cur k)) → is_Some (threads k !! cur k).
Proof.
  intros Hq%queues_cur. unfold st in Hq. by destruct (threads k !! cur k).
Qed.

(** No thread but the initial one stays dying once it is switched out. *)
Lemma no_dying k k' new :
  queues k (Some (cur k)) → new ≠ THREAD_DYING → initial_thread k' = initial_thread k →
  (∀ u, st k' u = if decide (u = cur k) then Some new else st k u) →
  ∀ t, st k' t ≠ Some THREAD_DYING ∨ t = initial_thread k'.
Proof.
  intros Hq Hn Hi Hst t. rewrite Hst. destruct (decide (t = cur k)); [left; congruence|].
  destruct (decide (st k t = Some THREAD_DYING)) as [Hd|]; [right|by left].
  rewrite Hi. destruct (q_dying k _ Hq t Hd) as [_ [|[? _]]]; done.
Qed.

(** ** [thread_yield] *)

(** The state in which a yielding thread calls [schedule]. *)
Definition yielding (k : kernel) : kernel :=
  upd (if negb (cur k =? idle_thread k) then insert_ready k (cur k) else k)
    (cur k) (become THREAD_READY).

Lemma yielding_views k :
  queues k (Some (cur k)) →
  (∀ u, st (yielding k) u = if decide (u = cur k) then Some THREAD_READY else st k u)
  ∧ (∀ u, fr (yielding k) u = fr k u) ∧ (∀ u, prio (yielding k) u = prio k u)
  ∧ same_locks k (yielding k).
Proof.
  intros Hq. destruct (cur_exists k Hq) as [th Hth]. unfold yielding.
  set (k1 := if negb (cur k =? idle_thread k) then insert_ready k (cur k) else k).
  assert (E1 : threads k1 = threads k) by (unfold k1; by destruct (negb _)).
  assert (L1 : same_locks k k1) by (unfold k1; by destruct (negb _)).
  split_and!.
  - intros u. rewrite st_become by (rewrite E1; by exists th). unfold st. by rewrite E1.
  - intros u. rewrite (proj1 (views_become _ _ _ u)). unfold fr. by rewrite E1.
  - intros u. unfold prio, upd. simpl. rewrite E1. destruct (decide (u = cur k)) as [->|].
    + by rewrite lookup_alter_eq, Hth.
    + by rewrite lookup_alter_ne.
  - etrans; [exact L1|apply same_locks_become].
Qed.

Lemma yielding_queues k : queues k (Some (cur k)) → queues (yielding k) None.
Proof.
  intros Hq. destruct (yielding_views k Hq) as (Hst & Hfr & _).
  assert (E : semas (yielding k) = semas k ∧ sleeping_list (yielding k) = sleeping_list k
    ∧ cur (yielding k) = cur k ∧ idle_thread (yielding k) = idle_thread k
    ∧ initial_thread (yielding k) = initial_thread k).
  { unfold yielding. by destruct (negb _). }
  destruct E as (E2 & E3 & E4 & E5 & E6).
  assert (Hready : NoDup (ready_list (yielding k)) ∧ ∀ u, u ∈ ready_list (yielding k) ↔
     u ∈ ready_list k ∨ u = cur k ∧ THREAD_READY = THREAD_READY ∧ u ≠ idle_thread k).
  { unfold yielding. pose proof (queues_cur k Hq) as Hrun.
    destruct (Z.eqb_spec (cur k) (idle_thread k)); simpl.
    - split; [apply Hq|]. intros u. naive_solver.
    - split.
      + rewrite insert_ordered_perm. constructor; [|apply Hq].
        rewrite (q_ready k _ Hq). intros [? _]. congruence.
      + intros u. rewrite elem_of_insert_ordered. naive_solver. }
  apply (queues_leave k _ THREAD_READY);
    [done|done|done|intros u _; apply Hfr|rewrite Hfr; apply Hq|done|done|done
    |apply Hready|apply Hready|..]; rewrite ?E2, ?E3; try done; try apply Hq; auto.
  - intros s x Hx. split; [by apply (q_wait_nodup k _ Hq s)|]. intros u Hu. right. by exists x.
  - eauto.
Qed.

Lemma thread_yield_switched k :
  sinv k → ∃ k', thread_yield k = Ok k' ∧ switched (yielding k) k'.
Proof.
  intros [Hq Hin]. destruct (thread_current_ok k) as (th & Hcur & Hth); [by apply queues_cur|].
  unfold thread_yield. rewrite Hcur, Hin. cbn [mbind res_bind negb].
  destruct (schedule_switched (yielding k) (yielding_queues k Hq)) as (k' & Hs & Hsw); [|by exists k'].
  assert (Hex : is_Some (st (yielding k) (cur k))).
  { rewrite (proj1 (yielding_views k Hq)), decide_True by done. done. }
  assert (E : cur (yielding k) = cur k) by (unfold yielding; by destruct (negb _)).
  rewrite E. unfold st in Hex. destruct (threads (yielding k) !! cur k); [done|by destruct Hex].
Qed.

Lemma thread_yield_ok k :
  sinv k → ∃ k', thread_yield k = Ok k' ∧ sinv k' ∧ same_locks k k'.
Proof.
  intros Hs. pose proof Hs as [Hq Hin]. destruct (thread_yield_switched k Hs) as (k' & Hk & Hsw).
  destruct (yielding_views k Hq) as (Hst & _ & _ & L).
  exists k'. split; [done|]. split.
  - split; [by apply (queues_switched (yielding k)); [apply yielding_queues|]|].
    rewrite (sw_intr _ k' Hsw). unfold yielding. by destruct (negb _).
  - etrans; [exact L|]. apply same_locks_switched; [by apply yielding_queues|done|].
    apply (no_dying k _ THREAD_READY); try done. unfold yielding. by destruct (negb _).
Qed.

(** ** [sema_down] *)

Lemma downs_not_idle k run s t : queues k run → downs k s t → t ≠ idle_thread k.
Proof. intros Hq [fs Hd] ->. rewrite (q_idle k run Hq) in Hd. naive_solver. Qed.

(** The running thread blocks on semaphore [s]. *)
Lemma block_on_sema k s x :
  sinv k → semas k !! s = Some x → downs k s (cur k) →
  ∃ k', thread_block (put_sema k s (Sema (value x)
      (insert_ordered (thread_priority_comparison k) (cur k) (waiters x)))) = Ok k'
    ∧ sinv k' ∧ same_locks k k'.
Proof.
  intros [Hq Hin] Hx Hd. set (w := insert_ordered _ _ _).
  set (k1 := put_sema k s (Sema (value x) w)).
  destruct (thread_current_ok k) as (th & Hcur & Hth); [by apply queues_cur|].
  unfold thread_block. change (thread_current k1) with (thread_current k).
  change (in_intr k1) with (in_intr k). rewrite Hin, Hcur. cbn [negb mbind res_bind].
  fold (become THREAD_BLOCKED). change (cur k1) with (cur k).
  set (k2 := upd k1 (cur k) (become THREAD_BLOCKED)).
  assert (Hst : ∀ u, st k2 u = if decide (u = cur k) then Some THREAD_BLOCKED else st k u).
  { intros u. unfold k2. rewrite st_become by by exists th. done. }
  assert (Hfr : ∀ u, fr k2 u = fr k u) by (intros u; apply (views_become k1 (cur k))).
  pose proof (queues_cur k Hq) as Hrun.
  assert (Hnotin : cur k ∉ waiters x).
  { intros Hc. destruct (q_wait k _ Hq s x _ Hx Hc) as [Hb _]. congruence. }
  assert (Hq2 : queues k2 None).
  { apply (queues_leave k k2 THREAD_BLOCKED);
      [done|done|done|intros u _; apply Hfr|rewrite Hfr; apply Hq|done|done|done|apply Hq|..].
    - intros u. naive_solver.
    - change (semas k2) with (<[s := Sema (value x) w]> (semas k)).
      intros s' x' [[<- <-]|[_ Hx']]%lookup_insert_Some; simpl.
      + split.
        * unfold w. rewrite insert_ordered_perm. constructor; [done|].
          by apply (q_wait_nodup k _ Hq s).
        * intros u [->|Hu]%elem_of_insert_ordered; [left|right; by exists x].
          split_and!; [done..|]. unfold downs. by rewrite Hfr.
      + split; [by apply (q_wait_nodup k _ Hq s')|]. intros u Hu. right. by exists x'.
    - intros s' x' u Hx' Hu. simpl. destruct (decide (s = s')) as [<-|].
      + eexists. rewrite lookup_insert_eq. split; [done|]. simpl. apply elem_of_insert_ordered.
        right. congruence.
      + exists x'. by rewrite lookup_insert_ne.
    - apply Hq.
    - intros u Hu. by left.
    - done.
    - intros _. right. right. eexists s, _. simpl. rewrite lookup_insert_eq. split; [done|].
      apply elem_of_insert_ordered. by left.
    - done. }
  destruct (schedule_switched k2 Hq2) as (k' & Hs & Hsw).
  { unfold k2, upd. simpl. rewrite lookup_alter_eq, Hth. by eexists. }
  exists k'. split; [done|]. split.
  - split; [by apply (queues_switched k2)|]. by rewrite (sw_intr k2 k' Hsw).
  - assert (E : same_locks k k1).
    { split; try done. intros s'. unfold k1. rewrite vl_put_sema. unfold vl.
      destruct (decide (s' = s)) as [->|]; [by rewrite Hx|done]. }
    etrans; [exact E|]. etrans; [apply (same_locks_become k1 (cur k) THREAD_BLOCKED)|].
    apply same_locks_switched; [done|done|]. by apply (no_dying k k2 THREAD_BLOCKED).
Qed.

Lemma sema_down_ok k s x :
  sinv k → semas k !! s = Some x → downs k s (cur k) →
  ∃ k' b, sema_down k s = Ok (k', b) ∧ sinv k' ∧
    (b = true ∧ value x ≠ 0 ∧ cur k' = cur k ∧ only_sema k k' s (u32 (value x - 1))
     ∨ b = false ∧ value x = 0 ∧ same_locks k k').
Proof.
  intros Hs Hx Hd. pose proof Hs as [Hq Hin].
  destruct (thread_current_ok k) as (th & Hcur & Hth); [by apply queues_cur|].
  unfold sema_down, get_sema. rewrite Hin, Hx. cbn [negb from_opt mbind res_bind].
  destruct (Z.eqb_spec (value x) 0) as [E|E].
  - rewrite Hcur. cbn [mbind res_bind].
    destruct (block_on_sema k s x Hs Hx Hd) as (k' & -> & Hs' & Hl).
    exists k', false. cbn [mbind res_bind]. split_and!; [done|apply Hs'..|by right].
  - eexists _, true. split; [done|]. split.
    + split; [|done]. by apply queues_sema_value.
    + left. split_and!; [done..|]. split; try done. intros s'. apply vl_put_sema.
Qed.

(** ** The other ways to leave the processor *)

(** The idle thread blocks. *)
Lemma idle_block_ok k :
  sinv k → cur k = idle_thread k → ∃ k', thread_block k = Ok k' ∧ sinv k' ∧ same_locks k k'.
Proof.
  intros [Hq Hin] Hidle.
  destruct (thread_current_ok k) as (th & Hcur & Hth); [by apply queues_cur|].
  unfold thread_block. rewrite Hin, Hcur. cbn [negb mbind res_bind].
  fold (become THREAD_BLOCKED). set (k2 := upd k (cur k) (become THREAD_BLOCKED)).
  assert (Hst : ∀ u, st k2 u = if decide (u = cur k) then Some THREAD_BLOCKED else st k u).
  { intros u. apply st_become. by exists th. }
  assert (Hfr : ∀ u, fr k2 u = fr k u) by (intros u; apply (views_become k (cur k))).
  assert (Hq2 : queues k2 None).
  { apply (queues_leave k k2 THREAD_BLOCKED);
      [done|done|done|intros u _; apply Hfr|rewrite Hfr; apply Hq|done|done|done|apply Hq|..];
      try (by auto).
    - naive_solver.
    - intros s x Hx. split; [by apply (q_wait_nodup k _ Hq s)|]. intros u Hu. right. by exists x.
    - intros s x u Hx Hu. by exists x.
    - apply Hq. }
  destruct (schedule_switched k2 Hq2) as (k' & Hs & Hsw).
  { unfold k2, upd. simpl. rewrite lookup_alter_eq, Hth. by eexists. }
  exists k'. split; [done|]. split.
  - split; [by apply (queues_switched k2)|]. by rewrite (sw_intr k2 k' Hsw).
  - etrans; [apply (same_locks_become k (cur k) THREAD_BLOCKED)|].
    apply same_locks_switched; [done|done|]. by apply (no_dying k k2 THREAD_BLOCKED).
Qed.

Lemma thread_exit_ok k :
  sinv k → cur k ≠ idle_thread k →
  ∃ k', thread_exit k = Ok k' ∧ sinv k' ∧ holders k' = holders k ∧ conds k' = conds k
    ∧ thread_mlfqs k' = thread_mlfqs k ∧ (∀ s, vl k' s = vl k s)
    ∧ ∀ t, fr k' t = fr k t ∧ wo k' t = wo k t ∧ dn k' t = dn k t
           ∨ t = cur k ∧ threads k' !! t = None.
Proof.
  intros [Hq Hin] Hni.
  destruct (thread_current_ok k) as (th & Hcur & Hth); [by apply queues_cur|].
  unfold thread_exit. rewrite Hin, Hcur. cbn [negb mbind res_bind].
  fold (become THREAD_DYING). set (k1 := set_all k _).
  set (k2 := upd k1 (cur k) (become THREAD_DYING)).
  assert (Hst : ∀ u, st k2 u = if decide (u = cur k) then Some THREAD_DYING else st k u).
  { intros u. apply (st_become k1). by exists th. }
  assert (Hfr : ∀ u, fr k2 u = fr k u) by (intros u; apply (views_become k1 (cur k))).
  assert (Hq2 : queues k2 None).
  { apply (queues_leave k k2 THREAD_DYING);
      [done|done|done|intros u _; apply Hfr|rewrite Hfr; apply Hq|done|done|done|apply Hq|..];
      try (by auto).
    - naive_solver.
    - intros s x Hx. split; [by apply (q_wait_nodup k _ Hq s)|]. intros u Hu. right. by exists x.
    - intros s x u Hx Hu. by exists x.
    - apply Hq. }
  destruct (schedule_switched k2 Hq2) as (k' & Hs & Hsw).
  { unfold k2, upd. simpl. rewrite lookup_alter_eq, Hth. by eexists. }
  exists k'. split; [done|]. split_and!.
  - split; [by apply (queues_switched k2)|]. by rewrite (sw_intr k2 k' Hsw).
  - by rewrite (sw_holders k2 k' Hsw).
  - by rewrite (sw_conds k2 k' Hsw).
  - by rewrite (sw_mlfqs k2 k' Hsw).
  - intros s. unfold vl. by rewrite (sw_semas k2 k' Hsw).
  - intros t. destruct (views_become k1 (cur k) THREAD_DYING t) as (E1 & E2 & E3).
    fold k2 in E1, E2, E3.
    pose proof (sw_threads k2 k' Hsw t) as E. destruct (decide _) as [[? _]|_]; [by right|left].
    change (fr k t) with (fr k1 t). change (wo k t) with (wo k1 t). change (dn k t) with (dn k1 t).
    rewrite <- E1, <- E2, <- E3. unfold fr, wo, dn. rewrite E.
    destruct (decide (t = cur k')); [|done]. by destruct (threads k2 !! t).
Qed.

(** The state in which [thread_sleep] calls [schedule]. *)
Definition going_to_sleep (k : kernel) (tk : Z) : kernel :=
  let k1 := upd k (cur k) (λ th, with_frames (with_wakeup th tk) (FSleep :: frames th)) in
  let l := insert_ordered (list_sleep_less_func k1) (cur k) (sleeping_list k1) in
  let next := if tk <? next_wakeup_tick k1 then tk else next_wakeup_tick k1 in
  upd (set_sleeping k1 l next) (cur k) (become THREAD_BLOCKED).

Lemma going_to_sleep_threads k tk th u :
  threads k !! cur k = Some th →
  threads (going_to_sleep k tk) !! u =
    if decide (u = cur k)
    then Some (with_status (with_frames (with_wakeup th tk) (FSleep :: frames th)) THREAD_BLOCKED)
    else threads k !! u.
Proof.
  intros Hth. unfold going_to_sleep, upd. simpl. destruct (decide (u = cur k)) as [->|].
  - by rewrite !lookup_alter_eq, Hth.
  - by rewrite !lookup_alter_ne.
Qed.

Lemma going_to_sleep_st k tk :
  is_Some (threads k !! cur k) →
  ∀ u, st (going_to_sleep k tk) u = if decide (u = cur k) then Some THREAD_BLOCKED else st k u.
Proof.
  intros [th Hth] u. unfold st. rewrite (going_to_sleep_threads k tk th u Hth).
  by destruct (decide (u = cur k)).
Qed.

Lemma going_to_sleep_queues k tk :
  queues k (Some (cur k)) → cur k ≠ idle_thread k → queues (going_to_sleep k tk) None.
Proof.
  intros Hq Hni. destruct (cur_exists k Hq) as [th Hth]. pose proof (queues_cur k Hq) as Hrun.
  pose proof (going_to_sleep_st k tk (cur_exists k Hq)) as Hst.
  assert (Hfr : ∀ u, fr (going_to_sleep k tk) u =
    if decide (u = cur k) then Some (FSleep :: frames th) else fr k u).
  { intros u. unfold fr. rewrite (going_to_sleep_threads k tk th u Hth). by destruct (decide (u = cur k)). }
  apply (queues_leave k _ THREAD_BLOCKED);
    [done|done|done|intros u Hu; by rewrite Hfr, decide_False
    |rewrite Hfr, decide_False by done; apply Hq|done|done|done|apply Hq|..].
  - naive_solver.
  - intros s x Hx. split; [by apply (q_wait_nodup k _ Hq s)|]. intros u Hu. right. by exists x.
  - intros s x u Hx Hu. by exists x.
  - simpl. rewrite insert_ordered_perm. constructor; [|apply Hq].
    intros Hc. destruct (q_sleep k _ Hq _ Hc) as [? _]. congruence.
  - simpl. intros u [->|Hu]%elem_of_insert_ordered; [right|by left]. split_and!; [done..|].
    exists (frames th). by rewrite Hfr, decide_True.
  - simpl. intros u Hu. apply elem_of_insert_ordered. by right.
  - intros _. right. left. simpl. apply elem_of_insert_ordered. by left.
  - done.
Qed.

Lemma thread_sleep_switched k tk :
  sinv k → cur k ≠ idle_thread k →
  ∃ k', thread_sleep k tk = Ok k' ∧ switched (going_to_sleep k tk) k'.
Proof.
  intros [Hq Hin] Hni.
  destruct (thread_current_ok k) as (th & Hcur & Hth); [by apply queues_cur|].
  unfold thread_sleep. rewrite Hcur. cbn [mbind res_bind]. rewrite (proj2 (Z.eqb_neq _ _)) by done.
  destruct (schedule_switched (going_to_sleep k tk)) as (k' & Hs & Hsw);
    [by apply going_to_sleep_queues| |by exists k'].
  change (cur (going_to_sleep k tk)) with (cur k).
  by rewrite (going_to_sleep_threads k tk th _ Hth), decide_True.
Qed.

Lemma thread_sleep_ok k tk :
  sinv k → cur k ≠ idle_thread k →
  ∃ k', thread_sleep k tk = Ok k' ∧ sinv k' ∧ holders k' = holders k ∧ conds k' = conds k
    ∧ thread_mlfqs k' = thread_mlfqs k ∧ (∀ s, vl k' s = vl k s)
    ∧ (∀ t, wo k' t = wo k t ∧ dn k' t = dn k t)
    ∧ ∀ t, fr k' t = if decide (t = cur k) then cons FSleep <$> fr k t else fr k t.
Proof.
  intros Hs Hni. pose proof Hs as [Hq Hin]. destruct (cur_exists k Hq) as [th Hth].
  destruct (thread_sleep_switched k tk Hs Hni) as (k' & Hk & Hsw).
  pose proof (going_to_sleep_queues k tk Hq Hni) as Hq2.
  assert (Hl : same_locks (going_to_sleep k tk) k').
  { apply same_locks_switched; [done|done|]. apply (no_dying k _ THREAD_BLOCKED); try done.
    apply going_to_sleep_st. by exists th. }
  assert (Hv : ∀ t, threads (going_to_sleep k tk) !! t = _)
    by (intros t; apply (going_to_sleep_threads k tk th t Hth)).
  exists k'. split; [done|]. split_and!.
  - split; [by apply (queues_switched (going_to_sleep k tk))|]. by rewrite (sw_intr _ k' Hsw).
  - by rewrite (sl_holders _ _ Hl).
  - by rewrite (sl_conds _ _ Hl).
  - by rewrite (sl_mlfqs _ _ Hl).
  - intros s. by rewrite (sl_vl _ _ Hl).
  - intros t. rewrite (sl_wo _ _ Hl), (sl_dn _ _ Hl). unfold wo, dn. rewrite Hv.
    destruct (decide (t = cur k)) as [->|]; [by rewrite Hth|done].
  - intros t. rewrite (sl_fr _ _ Hl). unfold fr. rewrite Hv.
    destruct (decide (t = cur k)) as [->|]; [by rewrite Hth|done].
Qed.

(** ** The timer interrupt *)

(** Changes that neither the queues nor the locks notice. *)
Record quiet (k k' : kernel) : Prop := {
  qt_queues : same_queues k k';
  qt_locks : same_locks k k';
  qt_intr : in_intr k' = in_intr k;
  qt_wakeup t : wakeup k' t = wakeup k t;
  qt_ticks : ticks k' = ticks k;
  qt_next : next_wakeup_tick k' = next_wakeup_tick k
}.
#[export] Instance quiet_refl : Reflexive quiet.
Proof. by split. Qed.
#[export] Instance quiet_trans : Transitive quiet.
Proof. intros k1 k2 k3 [] []. split; [by etrans|by etrans|congruence..]. Qed.

Lemma wakeup_upd k t f u : (∀ th, wakeup_tick (f th) = wakeup_tick th) → wakeup (upd k t f) u = wakeup k u.
Proof.
  intros Hf. unfold wakeup, upd. simpl. destruct (decide (u = t)) as [->|].
  - rewrite lookup_alter_eq. destruct (threads k !! t); simpl; [by rewrite Hf|done].
  - by rewrite lookup_alter_ne.
Qed.

Lemma quiet_upd k t f :
  plain f → (∀ th, waiting_on (f th) = waiting_on th ∧ donors (f th) = donors th
    ∧ wakeup_tick (f th) = wakeup_tick th) →
  quiet k (upd k t f).
Proof.
  intros Hp Hf. split; [by apply same_queues_upd| |done| |done|done].
  - apply same_locks_upd. intros th. split; [apply Hp|]. split; apply Hf.
  - intros u. apply wakeup_upd. apply Hf.
Qed.

Lemma quiet_cur k k' : quiet k k' → queues k (Some (cur k)) → queues k' (Some (cur k')).
Proof.
  intros [Hs _ _] Hq. rewrite (sq_cur k k' Hs). by apply (queues_same k).
Qed.

(** [thread_update_priority_mlfqs] on the running thread. *)
Lemma update_mlfqs_quiet k :
  queues k (Some (cur k)) → ∃ k', thread_update_priority_mlfqs k (cur k) = Ok k' ∧ quiet k k'.
Proof.
  intros Hq. pose proof (queues_cur k Hq) as Hrun. unfold st in Hrun.
  unfold thread_update_priority_mlfqs, get.
  destruct (threads k !! cur k) as [th|] eqn:Hth; [|done]. simpl in Hrun. injection Hrun as Hrun.
  cbn [from_opt mbind res_bind]. rewrite (bool_decide_eq_false_2 (status th = THREAD_READY)) by congruence.
  destruct (negb _); eexists; (split; [done|]); [|done]. by apply quiet_upd.
Qed.

Lemma thread_tick_quiet k :
  queues k (Some (cur k)) → ∃ k', thread_tick k = Ok k' ∧ quiet k k'.
Proof.
  intros Hq. destruct (thread_current_ok k) as (th & Hcur & Hth); [by apply queues_cur|].
  unfold thread_tick. rewrite Hcur. cbn [mbind res_bind].
  set (k1 := if cur k =? idle_thread k then _ else _). cbv zeta.
  assert (Q1 : quiet k k1) by (unfold k1; repeat case_match; done).
  assert (E1 : cur k1 = cur k) by (unfold k1; repeat case_match; done).
  set (k2 := set_cur k1 (cur k) _).
  assert (Q2 : quiet k k2).
  { etrans; [exact Q1|]. unfold k2. rewrite <- E1. done. }
  set (k3 := if TIME_SLICE <=? _ then _ else _).
  assert (Q3 : quiet k k3).
  { etrans; [exact Q2|]. unfold k3. case_match; done. }
  assert (E3 : cur k3 = cur k) by (unfold k3; case_match; done).
  destruct (thread_mlfqs k3); [|by exists k3].
  pose proof (quiet_cur _ _ Q3 Hq) as Hq3.
  destruct (thread_current_ok k3) as (th3 & Hcur3 & _); [by apply queues_cur|].
  unfold thread_mlfqs_tick. rewrite Hcur3. cbn [mbind res_bind].
  set (k4 := if negb _ then _ else _).
  assert (Q4 : quiet k3 k4) by (unfold k4; case_match; [by apply quiet_upd|done]).
  assert (E4 : cur k4 = cur k3) by (unfold k4; case_match; done).
  pose proof (quiet_cur _ _ Q4 Hq3) as Hq4. rewrite <- E4.
  assert (∃ k5, (if ticks k4 mod 4 =? 0 then thread_update_priority_mlfqs k4 (cur k4) else Ok k4)
    = Ok k5 ∧ quiet k4 k5) as (k5 & -> & Q5).
  { case_match; [by apply update_mlfqs_quiet|by exists k4]. }
  cbn [mbind res_bind].
  assert (Q : quiet k k5) by (etrans; [exact Q3|by etrans]).
  destruct (front_exceeds k5 _); eexists; (split; [done|]); [|done]. etrans; [exact Q|done].
Qed.

(** One turn of the loop that wakes the sleepers. *)
Lemma woken_sleeper k t l b y :
  queues k (Some (cur k)) → sleeping_list k = t :: l →
  woken k (set_intr (upd (insert_ready (set_sleeping k l (next_wakeup_tick k)) t) t
    (λ th, with_status th THREAD_READY)) b y) t.
Proof.
  intros Hq Hl. destruct (q_sleep k _ Hq t) as [Hb [fs Ha]]; [rewrite Hl; by left|].
  split; simpl; try done.
  - intros u. etrans; [apply (st_upd (insert_ready (set_sleeping k l (next_wakeup_tick k)) t))|].
    destruct (decide (u = t)); [|done]. unfold st in Hb. simpl. by destruct (threads k !! t).
  - intros u. by apply (view_upd frames).
  - apply insert_ordered_perm.
  - intros s x' u Hx'. exists x'. split; [done|]. split; [done|]. split; [|by intros [? _]].
    intros Hu. split; [done|]. intros ->. destruct (q_wait k _ Hq s x' t Hx' Hu) as [_ [fs' Hd]].
    naive_solver.
  - rewrite Hl. by intros [_ ?]%NoDup_cons.
  - intros u. pose proof (q_sleep_nodup k _ Hq) as Hn. rewrite Hl in *. rewrite elem_of_cons.
    apply NoDup_cons in Hn as [Hn _]. split.
    + intros Hu. split; [by right|]. by intros ->.
    + by intros [[->|?] ?].
Qed.

Lemma wake_loop_ok n k :
  queues k (Some (cur k)) → (length (sleeping_list k) ≤ n)%nat →
  ∃ k', wake_loop n k = Ok k' ∧ queues k' (Some (cur k')) ∧ same_locks k k'
    ∧ in_intr k' = in_intr k.
Proof.
  revert k. induction n as [|n IH]; intros k Hq Hn; simpl.
  - destruct (sleeping_list k); [by exists k|]. simpl in Hn. lia.
  - destruct (sleeping_list k) as [|t l] eqn:Hl; [by exists k|]. simpl in Hn.
    destruct (wakeup k t <=? ticks k); [|by exists k].
    destruct (q_sleep k _ Hq t) as [Hb [fs Ha]]; [rewrite Hl; by left|].
    set (k1 := set_sleeping k l (next_wakeup_tick k)).
    destruct (thread_unblock_ok k1 t) as (k2 & y & -> & Hk2); [exact (queues_cur k Hq)|done|].
    cbn [mbind res_bind].
    assert (Hti : t ≠ idle_thread k).
    { intros ->. rewrite (q_idle k _ Hq) in Ha. done. }
    pose proof (woken_sleeper k t l (in_intr k) y Hq Hl) as Hw.
    assert (Hq2 : queues k2 (Some (cur k2))).
    { rewrite Hk2. by apply (queues_woken k _ (Some (cur k)) t). }
    destruct (IH k2 Hq2) as (k' & -> & Hq' & Hl' & Hin').
    { rewrite Hk2. simpl. lia. }
    exists k'. split_and!; [done|done| |rewrite Hin', Hk2; done].
    etrans; [|exact Hl']. rewrite Hk2. split; try done; intros u;
      [by apply (view_upd frames (insert_ready k1 t))
      |by apply (view_upd waiting_on (insert_ready k1 t))
      |by apply (view_upd donors (insert_ready k1 t))].
Qed.

Lemma quiet_foldl (f : kernel → Z → kernel) l k :
  (∀ k t, quiet k (f k t)) → quiet k (foldl f k l).
Proof.
  intros Hf. revert k. induction l as [|t l IH]; intros k; [done|]. simpl. etrans; [apply Hf|apply IH].
Qed.

Lemma mlfqs_second_quiet k :
  queues k (Some (cur k)) →
  ∃ k', mlfqs_update_load_avg_and_recent_cpu_all k = Ok k' ∧ quiet k (mlfqs_recompute_priority_all k').
Proof.
  intros Hq. destruct (thread_current_ok k) as (th & Hcur & Hth); [by apply queues_cur|].
  unfold mlfqs_update_load_avg_and_recent_cpu_all. rewrite Hcur. cbn [mbind res_bind].
  eexists. split; [done|]. set (k1 := foldl _ _ _).
  assert (Q1 : quiet k k1).
  { etrans; [|apply quiet_foldl; intros k0 t; case_match; [done|by apply quiet_upd]]. done. }
  etrans; [exact Q1|]. unfold mlfqs_recompute_priority_all. set (k2 := foldl _ _ _).
  assert (Q2 : quiet k1 k2).
  { apply quiet_foldl. intros k0 t. case_match; [done|by apply quiet_upd]. }
  etrans; [exact Q2|]. destruct (ready_list k2) eqn:E; [done|]. rewrite <- E.
  split; try done. split; try done. simpl. apply list_sort_perm.
Qed.

Lemma timer_interrupt_ok k :
  queues k (Some (cur k)) →
  ∃ k', timer_interrupt k = Ok k' ∧ queues k' (Some (cur k')) ∧ same_locks k k'
    ∧ in_intr k' = in_intr k.
Proof.
  intros Hq. unfold timer_interrupt. set (k0 := set_ticks k (ticks k + 1)).
  assert (Hq0 : queues k0 (Some (cur k0))) by (by apply (queues_same k)).
  destruct (thread_tick_quiet k0 Hq0) as (k1 & -> & Q1). cbn [mbind res_bind].
  pose proof (quiet_cur _ _ Q1 Hq0) as Hq1.
  assert (∃ k2, (if next_wakeup_tick k1 <=? ticks k1 then
       k ← wake_loop (length (sleeping_list k1)) k1;
       Ok (match sleeping_list k with
           | t :: _ => set_sleeping k (sleeping_list k) (wakeup k t)
           | [] => set_sleeping k [] INT64_MAX
           end)
     else Ok k1) = Ok k2 ∧ queues k2 (Some (cur k2)) ∧ same_locks k1 k2 ∧ in_intr k2 = in_intr k1)
    as (k2 & -> & Hq2 & L2 & I2).
  { case_match; [|by exists k1]. destruct (wake_loop_ok _ k1 Hq1 (le_n _)) as (k2 & -> & Hq2 & L2 & I2).
    cbn [mbind res_bind]. eexists. split; [done|].
    destruct (sleeping_list k2) as [|t l] eqn:E; simpl;
      (split_and!; [apply (queues_same k2); [by split|done]|etrans; [exact L2|done]|done]). }
  cbn [mbind res_bind].
  assert (L : same_locks k k2) by (transitivity k0; [done|]; etrans; [apply Q1|done]).
  assert (I : in_intr k2 = in_intr k) by (rewrite I2, (qt_intr _ _ Q1); done).
  destruct (thread_mlfqs k2 && _); [|by exists k2].
  destruct (mlfqs_second_quiet k2 Hq2) as (k3 & -> & Q3). cbn [mbind res_bind].
  eexists. split; [done|]. split_and!; [by apply (quiet_cur k2)| |].
  - etrans; [exact L|apply Q3].
  - rewrite (qt_intr _ _ Q3). done.
Qed.

Lemma timer_tick_ok k :
  sinv k → ∃ k', timer_tick k = Ok k' ∧ sinv k' ∧ same_locks k k'.
Proof.
  intros [Hq Hin]. unfold timer_tick.
  destruct (timer_interrupt_ok (set_intr k true false)) as (k1 & -> & Hq1 & L1 & I1).
  { apply (queues_same k); [done|exact Hq]. }
  cbn [mbind res_bind]. cbv zeta. set (k2 := set_intr k1 false (yield_on_return k1)).
  assert (Hs2 : sinv k2) by (split; [by apply (queues_same k1)|done]).
  assert (L2 : same_locks k k2) by (etrans; [|etrans; [exact L1|]]; done).
  destruct (yield_on_return k2); [|by exists k2].
  destruct (thread_yield_ok k2 Hs2) as (k3 & -> & Hs3 & L3). exists k3. split_and!; [done|apply Hs3..|].
  by etrans.
Qed.

End Sched.
