(* ===== verification/Locks.v ===== *)
(** * The invariant of the locks

    Each lock is free, held, or in the hands of a thread that is about to store or
    has just cleared its [holder]; the operations that a thread has begun agree
    with the locks that it holds; and the donors of a thread wait for a lock that
    the thread holds.  The lemmas show that each frame of a thread runs without a
    failed assertion and keeps the invariant. *)

From S2P Require Import Prelude ListSeq Thread Synch Timer Sched.

Module Locks.
Import Thread Synch Timer Sched.

(** ** Definitions *)

Definition donor (k : kernel) (h d : Z) : Prop := ∃ ds, dn k h = Some ds ∧ d ∈ ds.

(** The lock that a thread takes or gives up at this moment. *)
Definition phase_of (fs : list frame) : option Z :=
  match fs with FLockTaken l :: _ | FLockUp l :: _ => Some l | _ => None end.
(** The lock that a thread waits for. *)
Definition waits_of (fs : list frame) : option Z :=
  match fs with FLockDown l :: _ | FLockTaken l :: _ => Some l | _ => None end.
(** Frames that are not the start of an operation. *)
Definition started (f : frame) : bool :=
  match f with FLockDown _ | FLockTaken _ | FLockUp _ | FSleep => true | _ => false end.

Definition phase (k : kernel) (l t : Z) : Prop := ∃ fs, fr k t = Some fs ∧ phase_of fs = Some l.

(** [t] owns lock [l]. *)
Definition own (k : kernel) (l t : Z) : Prop := holders k !! l = Some (Some t) ∨ phase k l t.

Definition held (k : kernel) (t : Z) : gset Z :=
  dom (filter (λ p : Z * option Z, p.2 = Some t) (holders k)).

(** The operations [fs] are legal for a thread that holds the locks [H]. *)
Fixpoint typed (k : kernel) (H : gset Z) (fs : list frame) : Prop :=
  match fs with
  | [] => True
  | f :: fs =>
      match f with
      | FSemaDown s | FSemaUp s => is_Some (vl k s) ∧ holders k !! s = None ∧ typed k H fs
      | FLockAcquire l | FLockDown l | FLockTaken l =>
          is_Some (holders k !! l) ∧ l ∉ H ∧ typed k (H ∪ {[l]}) fs
      | FLockRelease l => l ∈ H ∧ typed k (H ∖ {[l]}) fs
      | FLockUp l => is_Some (holders k !! l) ∧ l ∉ H ∧ typed k H fs
      | FCondWait c l | FCondSignal c l => is_Some (conds k !! c) ∧ l ∈ H ∧ typed k H fs
      | FYield | FSleep => typed k H fs
      | FExit => H = ∅ ∧ fs = []
      end
  end.

(** Lock [l] is free and its semaphore up, or it has one owner and its semaphore
    is down. *)
Definition lock_ok (k : kernel) (l : Z) : Prop :=
  (∀ u, phase k l u → holders k !! l = Some None) ∧
  (vl k l = Some 1 ∧ (∀ u, ¬ own k l u)
   ∨ vl k l = Some 0 ∧ ∃ t, is_Some (fr k t) ∧ ∀ u, own k l u ↔ u = t).

Record linv (k : kernel) : Prop := {
  l_lock l : is_Some (holders k !! l) → lock_ok k l;
  l_typed t fs : fr k t = Some fs → typed k (held k t) fs;
  l_tail t fs : fr k t = Some fs → Forall (λ f, started f = false) (tail fs);
  l_donor h d : donor k h d →
    thread_mlfqs k = false ∧ ∃ l, wo k d = Some (Some l) ∧ holders k !! l = Some (Some h);
  l_waiting t l : wo k t = Some (Some l) → ∃ fs, fr k t = Some fs ∧ waits_of fs = Some l;
  l_conds c ws w : conds k !! c = Some ws → w ∈ ws → is_Some (vl k w) ∧ holders k !! w = None
}.

(** ** Basic facts *)

Lemma elem_of_held k t l : l ∈ held k t ↔ holders k !! l = Some (Some t).
Proof.
  unfold held. rewrite elem_of_dom. split.
  - intros [h Hh]. apply map_lookup_filter_Some in Hh as [Hl Hp]. simpl in Hp. by subst.
  - intros Hl. exists (Some t). by apply map_lookup_filter_Some.
Qed.

(** What the legality of frames looks at may only grow. *)
Lemma typed_mono k k' H fs :
  (∀ l, holders k !! l = None → is_Some (vl k l) → holders k' !! l = None) →
  (∀ l, is_Some (holders k !! l) → is_Some (holders k' !! l)) →
  (∀ s, is_Some (vl k s) → is_Some (vl k' s)) →
  (∀ c, is_Some (conds k !! c) → is_Some (conds k' !! c)) →
  typed k H fs → typed k' H fs.
Proof.
  intros H1 H2 H3 H4. revert H. induction fs as [|f fs IH]; intros H; [done|].
  destruct f; simpl; naive_solver.
Qed.

(** Only the names of locks, not their holders, matter to the frames. *)
Lemma typed_holders k k' H fs :
  (∀ l, is_Some (holders k' !! l) ↔ is_Some (holders k !! l)) →
  (∀ s, is_Some (vl k s) → is_Some (vl k' s)) → (∀ c, is_Some (conds k !! c) → is_Some (conds k' !! c)) →
  typed k H fs → typed k' H fs.
Proof.
  intros Hd Hv Hc. apply typed_mono; [|intros l; apply Hd|done|done].
  intros l Hn _. apply eq_None_not_Some. by rewrite Hd, Hn.
Qed.

(** States whose locks look the same. *)
Record same_linv (k k' : kernel) : Prop := {
  se_fr t : fr k' t = fr k t;
  se_wo t : wo k' t = wo k t;
  se_dn h d : donor k' h d ↔ donor k h d;
  se_vl s : vl k' s = vl k s;
  se_holders : holders k' = holders k;
  se_conds : conds k' = conds k;
  se_mlfqs : thread_mlfqs k' = thread_mlfqs k
}.
Lemma same_locks_linv k k' : same_locks k k' → same_linv k k'.
Proof. intros [? ? Hd]. split; try done. intros h d. unfold donor. by rewrite Hd. Qed.
#[export] Instance same_linv_trans : Transitive same_linv.
Proof. intros k1 k2 k3 [? ? D1] [? ? D2]. split; try congruence. intros h d. by rewrite D2, D1. Qed.

Lemma held_eq k k' t : holders k' = holders k → held k' t = held k t.
Proof. unfold held. by intros ->. Qed.

Lemma linv_same k k' : same_linv k k' → linv k → linv k'.
Proof.
  intros [Hfr Hwo Hdn Hvl Hh Hc Hm] Hi.
  assert (Hph : ∀ l u, phase k' l u ↔ phase k l u) by (intros l u; unfold phase; by rewrite Hfr).
  split.
  - intros l. rewrite Hh. intros Hl. destruct (l_lock k Hi l Hl) as [E D]. unfold lock_ok, own in *.
    rewrite Hh, Hvl. setoid_rewrite Hph. setoid_rewrite Hfr. done.
  - intros t fs. rewrite Hfr, (held_eq k k' t Hh). intros Hf. apply (typed_holders k).
    + intros l. by rewrite Hh.
    + intros s. by rewrite Hvl.
    + intros c. by rewrite Hc.
    + by apply (l_typed k Hi).
  - intros t fs. rewrite Hfr. apply (l_tail k Hi).
  - intros h d Hd. apply Hdn, (l_donor k Hi) in Hd. by rewrite Hm, Hwo, Hh.
  - intros t l. rewrite Hwo, Hfr. apply (l_waiting k Hi).
  - intros c ws w. rewrite Hc, Hvl, Hh. apply (l_conds k Hi).
Qed.

Lemma not_started_heads fs :
  Forall (λ f, started f = false) fs → phase_of fs = None ∧ waits_of fs = None.
Proof. intros Hf. destruct fs as [|f fs]; [done|]. inv Hf. by destruct f. Qed.

(** ** A thread moves on *)

Section move.
Context (k k' : kernel) (c : Z) (fs0 fs' : list frame).
Context (Hfs : fr k c = Some fs0) (Hfs' : fr k' c = Some fs').
Context (Hfr : ∀ t, t ≠ c → fr k' t = fr k t).

Lemma phase_move l u :
  phase k' l u ↔ u = c ∧ phase_of fs' = Some l ∨ u ≠ c ∧ phase k l u.
Proof.
  unfold phase. destruct (decide (u = c)) as [->|Hu].
  - rewrite Hfs'. naive_solver.
  - rewrite Hfr by done. naive_solver.
Qed.
Lemma phase_here l : phase k l c ↔ phase_of fs0 = Some l.
Proof. unfold phase. rewrite Hfs. naive_solver. Qed.

Lemma exists_move t : is_Some (fr k t) → is_Some (fr k' t).
Proof. destruct (decide (t = c)) as [->|]; [by rewrite Hfs'|by rewrite Hfr]. Qed.

(** A lock that the step does not concern. *)
Lemma lock_ok_other l :
  phase_of fs0 ≠ Some l → phase_of fs' ≠ Some l →
  holders k' !! l = holders k !! l → vl k' l = vl k l → lock_ok k l → lock_ok k' l.
Proof.
  intros H0 H1 Hh Hv [E D].
  assert (Hph : ∀ u, phase k' l u ↔ phase k l u).
  { intros u. rewrite phase_move. destruct (decide (u = c)) as [->|]; [rewrite phase_here|]; naive_solver. }
  unfold lock_ok, own in *. rewrite Hh, Hv. setoid_rewrite Hph. split; [done|].
  destruct D as [|(? & t & Ht & Hu)]; [by left|right]. split; [done|]. exists t.
  split; [by apply exists_move|done].
Qed.

(** [l] is the lock that the step may concern. *)
Lemma linv_move l :
  linv k →
  (∀ m, m ≠ l → phase_of fs0 ≠ Some m) → (∀ m, m ≠ l → phase_of fs' ≠ Some m) →
  (∀ m, m ≠ l → holders k' !! m = holders k !! m) →
  (∀ m, m ≠ l → is_Some (holders k !! m) → vl k' m = vl k m) →
  (is_Some (holders k' !! l) ↔ is_Some (holders k !! l)) →
  (∀ s, is_Some (vl k s) → is_Some (vl k' s)) → (∀ d, is_Some (conds k !! d) → is_Some (conds k' !! d)) →
  (∀ d ws w, conds k' !! d = Some ws → w ∈ ws → is_Some (vl k' w) ∧ holders k !! w = None) →
  (is_Some (holders k' !! l) → lock_ok k' l) →
  (∀ t, t ≠ c → held k' t = held k t) →
  typed k' (held k' c) fs' → Forall (λ f, started f = false) (tail fs') →
  (∀ h d, donor k' h d →
    thread_mlfqs k' = false ∧ ∃ m, wo k' d = Some (Some m) ∧ holders k' !! m = Some (Some h)) →
  (∀ t m, wo k' t = Some (Some m) → t ≠ c ∧ wo k t = Some (Some m) ∨ t = c ∧ waits_of fs' = Some m) →
  linv k'.
Proof.
  intros Hi Hp0 Hp1 Hh Hv Hl Hvs Hcs Hc Hok Hheld Hty Htl Hdn Hwo.
  assert (Hdom : ∀ m, is_Some (holders k' !! m) ↔ is_Some (holders k !! m)).
  { intros m. destruct (decide (m = l)) as [->|]; [done|]. by rewrite Hh. }
  split.
  - intros m Hm. destruct (decide (m = l)) as [->|Hne]; [by apply Hok|].
    rewrite Hdom in Hm. apply lock_ok_other; auto. by apply (l_lock k Hi).
  - intros t fs. destruct (decide (t = c)) as [->|Hne]; [rewrite Hfs'; by intros [= <-]|].
    rewrite Hfr by done. intros Hf. rewrite Hheld by done.
    apply (typed_holders k); auto. by apply (l_typed k Hi).
  - intros t fs. destruct (decide (t = c)) as [->|Hne]; [rewrite Hfs'; by intros [= <-]|].
    rewrite Hfr by done. apply (l_tail k Hi).
  - done.
  - intros t m Hm. destruct (Hwo t m Hm) as [[Hne Ho]|[-> Hw]]; [|by exists fs'].
    rewrite Hfr by done. by apply (l_waiting k Hi).
  - intros d ws w Hd Hw. destruct (Hc d ws w Hd Hw) as [? Hn]. split; [done|].
    apply eq_None_not_Some. by rewrite Hdom, Hn.
Qed.

(** A step that concerns no lock. *)
Lemma linv_local :
  linv k → phase_of fs0 = None → phase_of fs' = None → waits_of fs0 = None →
  holders k' = holders k → thread_mlfqs k' = thread_mlfqs k →
  (∀ t, wo k' t = wo k t) → (∀ t, dn k' t = dn k t) →
  (∀ m, is_Some (holders k !! m) → vl k' m = vl k m) →
  (∀ s, is_Some (vl k s) → is_Some (vl k' s)) → (∀ d, is_Some (conds k !! d) → is_Some (conds k' !! d)) →
  (∀ d ws w, conds k' !! d = Some ws → w ∈ ws → is_Some (vl k' w) ∧ holders k !! w = None) →
  typed k' (held k c) fs' → Forall (λ f, started f = false) (tail fs') → linv k'.
Proof.
  intros Hi Hp0 Hp1 Hw0 Hh Hm Hwo Hdn Hv Hvs Hcs Hc Hty Htl.
  apply (linv_move 0); auto.
  - intros m _. by rewrite Hp0.
  - intros m _. by rewrite Hp1.
  - intros m _. by rewrite Hh.
  - by rewrite Hh.
  - intros Hl. rewrite Hh in Hl. apply lock_ok_other; [by rewrite Hp0|by rewrite Hp1|by rewrite Hh|auto|].
    by apply (l_lock k Hi).
  - intros t _. by apply held_eq.
  - by rewrite (held_eq k k').
  - intros h d [ds [Hd Hin]]. rewrite Hdn in Hd. rewrite Hm, Hwo, Hh. apply (l_donor k Hi). by exists ds.
  - intros t m Ht. rewrite Hwo in Ht. left. split; [|done]. intros ->.
    destruct (l_waiting k Hi c m Ht) as (fs & Hf & Hw). rewrite Hfs in Hf. injection Hf as <-. congruence.
Qed.

End move.

(** ** Frames of the running thread *)

Lemma fr_set_frames k fs t :
  is_Some (threads k !! cur k) → fr (set_frames k fs) t = if decide (t = cur k) then Some fs else fr k t.
Proof.
  intros [th Hth]. unfold set_frames. rewrite fr_upd. destruct (decide (t = cur k)); [|done].
  by rewrite Hth.
Qed.
Lemma views_set_frames k fs t :
  wo (set_frames k fs) t = wo k t ∧ dn (set_frames k fs) t = dn k t ∧ st (set_frames k fs) t = st k t.
Proof. split_and!; by apply view_upd. Qed.

Lemma sinv_set_frames k fs : sinv k → cur k ≠ idle_thread k → sinv (set_frames k fs).
Proof.
  intros [Hq Hin] Hc. split; [|done]. pose proof (queues_cur k Hq) as Hrun.
  assert (Hst : ∀ t, st (set_frames k fs) t = st k t) by (intros t; apply views_set_frames).
  assert (Hfr : ∀ t, t ≠ cur k → fr (set_frames k fs) t = fr k t).
  { intros t Ht. rewrite fr_set_frames by by apply cur_exists. by rewrite decide_False. }
  split; try apply Hq.
  - intros t. rewrite Hst. apply Hq.
  - intros t. rewrite Hst. apply Hq.
  - intros s x t Hx Ht. destruct (q_wait k _ Hq s x t Hx Ht) as [Hb Hd]. rewrite Hst. split; [done|].
    unfold downs. rewrite Hfr by congruence. done.
  - intros t Ht. destruct (q_sleep k _ Hq t Ht) as [Hb Ha]. rewrite Hst. split; [done|].
    unfold asleep. rewrite Hfr by congruence. done.
  - intros t. rewrite Hst. apply Hq.
  - intros t. rewrite Hst. apply Hq.
  - change (idle_thread (set_frames k fs)) with (idle_thread k). rewrite Hfr by done. apply Hq.
Qed.

Definition inv (k : kernel) : Prop := sinv k ∧ linv k.

Lemma frame_current k f fs :
  sinv k → fr k (cur k) = Some (f :: fs) →
  cur k ≠ idle_thread k ∧ ∃ th, thread_current k = Ok th ∧ frames th = f :: fs.
Proof.
  intros [Hq _] Hf. split.
  - intros E. rewrite E, (q_idle k _ Hq) in Hf. done.
  - destruct (thread_current_ok k) as (th & Hcur & Hth); [by apply queues_cur|]. exists th.
    split; [done|]. unfold fr in Hf. rewrite Hth in Hf. by injection Hf.
Qed.

(** The running thread changes a semaphore that is not part of a lock. *)
Lemma linv_sema k k1 s v fs0 fs' :
  linv k → queues k1 (Some (cur k1)) → cur k1 = cur k → only_sema k k1 s v → holders k !! s = None →
  fr k (cur k) = Some fs0 → phase_of fs0 = None → waits_of fs0 = None →
  phase_of fs' = None → typed k (held k (cur k)) fs' → Forall (λ f, started f = false) (tail fs') →
  linv (set_frames k1 fs').
Proof.
  intros Hi Hq1 Hcur Hos Hs Hfs Hp0 Hw0 Hp1 Hty Htl.
  assert (Hfr : ∀ t, fr (set_frames k1 fs') t = if decide (t = cur k) then Some fs' else fr k t).
  { intros t. rewrite fr_set_frames by by apply cur_exists. by rewrite Hcur, (os_fr _ _ _ _ Hos). }
  assert (Hvl : ∀ m, vl (set_frames k1 fs') m = if decide (m = s) then Some v else vl k m).
  { intros m. apply (os_vl _ _ _ _ Hos). }
  assert (Hsome : ∀ m, is_Some (vl k m) → is_Some (vl (set_frames k1 fs') m)).
  { intros m Hm. rewrite Hvl. by destruct (decide (m = s)). }
  assert (Hh : holders (set_frames k1 fs') = holders k) by apply (os_holders _ _ _ _ Hos).
  assert (Hc : conds (set_frames k1 fs') = conds k) by apply (os_conds _ _ _ _ Hos).
  apply (linv_local k (set_frames k1 fs') (cur k) fs0 fs'); auto.
  - by rewrite Hfr, decide_True.
  - intros t Ht. by rewrite Hfr, decide_False.
  - apply (os_mlfqs _ _ _ _ Hos).
  - intros t. rewrite (proj1 (views_set_frames _ _ _)). apply (os_wo _ _ _ _ Hos).
  - intros t. rewrite (proj1 (proj2 (views_set_frames _ _ _))). apply (os_dn _ _ _ _ Hos).
  - intros m Hm. rewrite Hvl, decide_False; [done|]. intros ->. rewrite Hs in Hm. by destruct Hm.
  - intros d. by rewrite Hc.
  - intros d ws w. rewrite Hc. intros Hd Hw. destruct (l_conds k Hi d ws w Hd Hw). auto.
  - apply (typed_holders k); [|auto| |done]; intros d; [by rewrite Hh|by rewrite Hc].
Qed.

Lemma frame_not_idle k f fs :
  queues k (Some (cur k)) → fr k (cur k) = Some (f :: fs) → cur k ≠ idle_thread k.
Proof. intros Hq Hf E. rewrite E, (q_idle k _ Hq) in Hf. done. Qed.

(** The running thread replaces its frames and touches nothing else. *)
Lemma linv_set_frames k fs0 fs' :
  inv k → fr k (cur k) = Some fs0 → phase_of fs0 = None → waits_of fs0 = None →
  phase_of fs' = None → typed k (held k (cur k)) fs' → Forall (λ f, started f = false) (tail fs') →
  linv (set_frames k fs').
Proof.
  intros [[Hq _] Hi] Hf Hp0 Hw0 Hp1 Hty Htl. apply (linv_local k _ (cur k) fs0 fs'); auto; try done.
  - rewrite fr_set_frames by by apply cur_exists. by rewrite decide_True.
  - intros t Ht. rewrite fr_set_frames by by apply cur_exists. by rewrite decide_False.
  - intros t. apply views_set_frames.
  - intros t. apply views_set_frames.
  - apply (l_conds k Hi).
  - by apply (typed_holders k).
Qed.

Lemma linv_set_conds k c ws :
  linv k → (∀ w, w ∈ ws → is_Some (vl k w) ∧ holders k !! w = None) →
  linv (set_conds k (<[c := ws]> (conds k))).
Proof.
  intros Hi Hws. destruct Hi as [H1 H2 H3 H4 H5 H6]. split; try done.
  - intros t fs Hf. apply (typed_holders k); [done..| |by apply H2]. intros d [y Hd]. simpl.
    destruct (decide (d = c)) as [->|]; [by rewrite lookup_insert_eq|by rewrite lookup_insert_ne, Hd].
  - intros d ws' w'. simpl. intros [[<- <-]|[_ Hd]]%lookup_insert_Some Hw; [by apply Hws|by eapply H6].
Qed.

Lemma queues_new_sema k run s v :
  queues k run → semas k !! s = None → queues (sema_init k s v) run.
Proof.
  intros Hq Hs. split; try apply Hq; simpl.
  - intros s' x' [[<- <-]|[_ Hx']]%lookup_insert_Some; [constructor|by apply (q_wait_nodup k run Hq s')].
  - intros s' x' u [[<- <-]|[_ Hx']]%lookup_insert_Some Hu; [by apply not_elem_of_nil in Hu|].
    by apply (q_wait k run Hq s' x').
  - intros u Hu. destruct (q_blocked k run Hq u Hu) as [|[|(s' & x' & Hx' & Hux)]];
      [by left|by right; left|right; right].
    exists s', x'. rewrite lookup_insert_ne by congruence. done.
Qed.

Lemma fresh_not_lock k s : linv k → semas k !! s = None → holders k !! s = None.
Proof.
  intros Hi Hs. apply eq_None_not_Some. intros Hl. destruct (l_lock k Hi s Hl) as [_ [[Hv _]|[Hv _]]];
    unfold vl in Hv; by rewrite Hs in Hv.
Qed.

Lemma held_ok k l :
  sinv k → l ∈ held k (cur k) → lock_held_by_current_thread k l = Ok true.
Proof.
  intros [Hq _] Hl. destruct (thread_current_ok k) as (th & Hcur & Hth); [by apply queues_cur|].
  unfold lock_held_by_current_thread, get_holder. apply elem_of_held in Hl. rewrite Hl, Hcur.
  cbn [from_opt mbind res_bind]. by rewrite bool_decide_eq_true_2.
Qed.
Lemma not_held_ok k l :
  sinv k → is_Some (holders k !! l) → l ∉ held k (cur k) → lock_held_by_current_thread k l = Ok false.
Proof.
  intros [Hq _] [h Hh] Hl. destruct (thread_current_ok k) as (th & Hcur & Hth); [by apply queues_cur|].
  unfold lock_held_by_current_thread, get_holder. rewrite elem_of_held, Hh in Hl. rewrite Hh, Hcur.
  cbn [from_opt mbind res_bind]. rewrite bool_decide_eq_false_2; [done|]. congruence.
Qed.

(** Starts a proof about the frame at the head. *)
Ltac frame_start Hf :=
  match goal with
  | Hinv : inv ?k |- _ =>
      intros Hf; let Hs := fresh "Hs" in let Hi := fresh "Hi" in
      pose proof Hinv as [Hs Hi];
      let th := fresh "th" in let Hcur := fresh "Hcur" in let Hth := fresh "Hth" in
      destruct (frame_current k _ _ Hs Hf) as (Hni & th & Hcur & Hth);
      unfold run_frame; rewrite Hcur; cbn [mbind res_bind]; rewrite Hth;
      pose proof (l_typed k Hi _ _ Hf) as Hty; pose proof (l_tail k Hi _ _ Hf) as Htl; simpl in Hty, Htl
  end.

(** [cond_signal] sorts the waiters by the threads that sleep on them: with two or
    more waiters each must have got as far as its [sema_down]. *)
Definition signal_ready (k : kernel) (c : Z) : bool :=
  match conds k !! c with
  | Some ws => bool_decide (length ws ≤ 1)%nat || forallb (λ w, bool_decide (is_Some (front_waiter k w))) ws
  | None => false
  end.

Section frames.
Context (stray : Z → Z) (w : Z) (k : kernel) (fs : list frame) (Hinv : inv k).

Lemma tail_not_started : Forall (λ f, started f = false) fs → Forall (λ f, started f = false) (tail fs).
Proof. by destruct 1. Qed.

Lemma run_sema_down s :
  fr k (cur k) = Some (FSemaDown s :: fs) → ∃ k', run_frame stray w k = Ok k' ∧ inv k'.
Proof.
  frame_start Hf. destruct Hty as ([v Hv] & Hl & Hty).
  unfold vl in Hv. destruct (semas k !! s) as [x|] eqn:Hx; [|done].
  destruct (sema_down_ok k s x Hs Hx) as (k1 & b & -> & Hs1 & Hb).
  { exists fs. by left. }
  cbn [mbind res_bind].
  destruct Hb as [(-> & _ & Hc & Hos)|(-> & _ & Hlk)]; eexists; (split; [done|]).
  - split.
    + apply sinv_set_frames; [done|]. apply (frame_not_idle k1 (FSemaDown s) fs); [apply Hs1|].
      by rewrite (os_fr _ _ _ _ Hos), Hc.
    + apply (linv_sema k k1 s _ (FSemaDown s :: fs) fs Hi (proj1 Hs1) Hc Hos Hl Hf); auto.
      * by apply not_started_heads.
      * by apply tail_not_started.
  - split; [done|]. by apply (linv_same k); [apply same_locks_linv|].
Qed.

(** What [sema_up] leaves to the caller: a yield, if a waiter goes first. *)
Lemma sema_up_frames k0 s x fs0 :
  inv k0 → semas k0 !! s = Some x → holders k0 !! s = None → fr k0 (cur k0) = Some fs0 → fs0 ≠ [] →
  phase_of fs0 = None → waits_of fs0 = None → typed k0 (held k0 (cur k0)) fs →
  Forall (λ f, started f = false) fs →
  ∃ k' y, sema_up k0 s = Ok (k', y)
    ∧ inv (set_frames k' (if (y : bool) then FYield :: fs else fs)).
Proof.
  intros [Hs Hi] Hx Hl Hf Hne Hp0 Hw0 Hty Htl.
  destruct (sema_up_ok k0 s x (proj1 Hs) Hx) as (k1 & b & -> & Hq1 & Hc & Hos).
  exists k1, b. split; [done|]. split.
  - apply sinv_set_frames; [split; [done|]|].
    + rewrite (os_intr _ _ _ _ Hos). apply Hs.
    + destruct fs0 as [|f fs0]; [done|]. apply (frame_not_idle k1 f fs0); [done|].
      by rewrite (os_fr _ _ _ _ Hos), Hc.
  - apply (linv_sema k0 k1 s _ fs0 _ Hi Hq1 Hc Hos Hl Hf); auto; destruct b; auto.
    + by apply not_started_heads.
    + by apply tail_not_started.
Qed.

Lemma run_sema_up s :
  fr k (cur k) = Some (FSemaUp s :: fs) → ∃ k', run_frame stray w k = Ok k' ∧ inv k'.
Proof.
  frame_start Hf. destruct Hty as ([v Hv] & Hl & Hty).
  unfold vl in Hv. destruct (semas k !! s) as [x|] eqn:Hx; [|done].
  destruct (sema_up_frames k s x (FSemaUp s :: fs)) as (k1 & y & -> & Hi1); try done.
  by eexists.
Qed.

Lemma run_cond_signal c l :
  fr k (cur k) = Some (FCondSignal c l :: fs) → signal_ready k c = true →
  ∃ k', run_frame stray w k = Ok k' ∧ inv k'.
Proof.
  frame_start Hf. intros Hr. destruct Hty as ([ws Hws] & Hl & Hty). unfold signal_ready in Hr.
  unfold cond_signal. rewrite (proj2 Hs), (held_ok k l Hs Hl). cbn [negb mbind res_bind].
  rewrite Hws in *. cbn [from_opt mbind res_bind]. rewrite Hr.
  pose proof (list_sort_perm (thread_semaphore_comparison k) ws) as Hperm.
  destruct (list_sort_seq (thread_semaphore_comparison k) ws) as [|w0 rest].
  - cbn [mbind res_bind]. eexists. split; [done|]. split; [by apply sinv_set_frames|].
    apply (linv_set_frames k (FCondSignal c l :: fs)); auto; [by apply not_started_heads|].
    by apply tail_not_started.
  - set (k1 := set_conds k (<[c := rest]> (conds k))).
    assert (Hin : ∀ w', w' ∈ w0 :: rest → is_Some (vl k w') ∧ holders k !! w' = None).
    { intros w' Hw'. apply (l_conds k Hi c ws); [done|]. by rewrite <- Hperm. }
    destruct (Hin w0) as [[v Hv] Hn]; [by left|]. unfold vl in Hv.
    destruct (semas k !! w0) as [x|] eqn:Hx; [|done].
    destruct (sema_up_frames k1 w0 x (FCondSignal c l :: fs)) as (k2 & y & -> & Hi2); try done.
    + split; [split; [|apply Hs]; by apply (queues_same k); [|apply Hs]|].
      apply linv_set_conds; [done|]. intros w' Hw'. apply Hin. by right.
    + apply (typed_holders k); try done. intros d [y Hd]. simpl.
      destruct (decide (d = c)) as [->|]; [by rewrite lookup_insert_eq|by rewrite lookup_insert_ne, Hd].
    + cbn [mbind res_bind]. by eexists.
Qed.

Lemma run_yield :
  fr k (cur k) = Some (FYield :: fs) → ∃ k', run_frame stray w k = Ok k' ∧ inv k'.
Proof.
  frame_start Hf. assert (Hi1 : linv (set_frames k fs)).
  { apply (linv_set_frames k (FYield :: fs)); auto; [by apply not_started_heads|by apply tail_not_started]. }
  destruct (thread_yield_ok (set_frames k fs)) as (k' & -> & Hs' & Hl'); [by apply sinv_set_frames|].
  exists k'. split; [done|]. split; [done|]. by apply (linv_same (set_frames k fs)); [apply same_locks_linv|].
Qed.

Lemma run_sleep :
  fr k (cur k) = Some (FSleep :: fs) → ∃ k', run_frame stray w k = Ok k' ∧ inv k'.
Proof.
  frame_start Hf. eexists. split; [done|]. split; [by apply sinv_set_frames|].
  apply (linv_set_frames k (FSleep :: fs)); auto; [by apply not_started_heads|by apply tail_not_started].
Qed.

Lemma run_cond_wait c l :
  fr k (cur k) = Some (FCondWait c l :: fs) → semas k !! w = None →
  ∃ k', run_frame stray w k = Ok k' ∧ inv k'.
Proof.
  frame_start Hf. intros Hw. destruct Hty as ([ws Hws] & Hl & Hty).
  unfold cond_wait_begin. rewrite (proj2 Hs), (held_ok k l Hs Hl). cbn [negb mbind res_bind].
  rewrite Hws. cbn [from_opt mbind res_bind]. eexists. split; [done|].
  pose proof (fresh_not_lock k w Hi Hw) as Hwl.
  set (k1 := set_conds (sema_init k w 0) (<[c := ws ++ [w]]> (conds k))).
  set (fs' := FLockRelease l :: FSemaDown w :: FLockAcquire l :: fs).
  assert (Hq1 : queues k1 (Some (cur k1))).
  { apply (queues_same (sema_init k w 0)); [done|]. apply queues_new_sema; [apply Hs|done]. }
  assert (Hvl : ∀ m, vl (set_frames k1 fs') m = if decide (m = w) then Some 0 else vl k m)
    by (intros m; apply (vl_put_sema k)).
  assert (Hvs : ∀ m, is_Some (vl k m) → is_Some (vl (set_frames k1 fs') m)).
  { intros m Hm. rewrite Hvl. by destruct (decide (m = w)). }
  assert (Hcs : ∀ d, is_Some (conds k !! d) → is_Some (conds (set_frames k1 fs') !! d)).
  { intros d [y Hd]. simpl.
    destruct (decide (d = c)) as [->|]; [by rewrite lookup_insert_eq|by rewrite lookup_insert_ne, Hd]. }
  split; [apply sinv_set_frames; [split; [done|apply Hs]|done]|].
  apply (linv_local k _ (cur k) (FCondWait c l :: fs) fs'); auto; try done.
  - rewrite fr_set_frames by by apply cur_exists. by rewrite decide_True.
  - intros t Ht. rewrite fr_set_frames by by apply cur_exists. by rewrite decide_False.
  - intros t. apply (views_set_frames k1).
  - intros t. apply (views_set_frames k1).
  - intros m Hm. rewrite Hvl, decide_False; [done|]. intros ->. rewrite Hwl in Hm. by destruct Hm.
  - intros d ws' w' Hd Hw'. simpl in Hd. apply lookup_insert_Some in Hd as [[<- <-]|[_ Hd]].
    + apply elem_of_app in Hw' as [Hw'|Hw'%list_elem_of_singleton]; [|subst w'].
      * destruct (l_conds k Hi c ws w' Hws Hw'). auto.
      * by rewrite Hvl, decide_True.
    + destruct (l_conds k Hi d ws' w' Hd Hw'). auto.
  - simpl. split; [done|]. split; [by rewrite Hvl, decide_True|]. split; [done|].
    split; [exists (Some (cur k)); by apply elem_of_held|]. split; [set_solver|].
    replace (held k (cur k) ∖ {[l]} ∪ {[l]}) with (held k (cur k)).
    2:{ apply set_eq. intros m. destruct (decide (m = l)) as [->|]; set_solver. }
    by apply (typed_holders k).
  - simpl. repeat constructor. done.
Qed.

End frames.

(** ** Donation *)

(** Everything but priorities, donors and [waiting_on] is the same. *)
Record same_rest (k k' : kernel) : Prop := {
  sr_queues : same_queues k k';
  sr_fr t : fr k' t = fr k t;
  sr_vl s : vl k' s = vl k s;
  sr_holders : holders k' = holders k;
  sr_conds : conds k' = conds k;
  sr_mlfqs : thread_mlfqs k' = thread_mlfqs k;
  sr_intr : in_intr k' = in_intr k
}.
#[export] Instance same_rest_refl : Reflexive same_rest.
Proof. by split. Qed.
#[export] Instance same_rest_trans : Transitive same_rest.
Proof. intros k1 k2 k3 [] []. split; try congruence. by etrans. Qed.
Lemma same_rest_upd k t f : plain f → same_rest k (upd k t f).
Proof. intros Hf. split; try done; [by apply same_queues_upd|]. intros u. apply view_upd. apply Hf. Qed.

Lemma wo_upd k t f u :
  wo (upd k t f) u = if decide (u = t) then waiting_on ∘ f <$> threads k !! t else wo k u.
Proof.
  unfold wo, upd. simpl. destruct (decide (u = t)) as [->|].
  - rewrite lookup_alter_eq. by destruct (threads k !! t).
  - by rewrite lookup_alter_ne.
Qed.
Lemma dn_upd k t f u :
  dn (upd k t f) u = if decide (u = t) then donors ∘ f <$> threads k !! t else dn k u.
Proof.
  unfold dn, upd. simpl. destruct (decide (u = t)) as [->|].
  - rewrite lookup_alter_eq. by destruct (threads k !! t).
  - by rewrite lookup_alter_ne.
Qed.
Lemma wo_keep k t f u : (∀ th, waiting_on (f th) = waiting_on th) → wo (upd k t f) u = wo k u.
Proof. apply view_upd. Qed.
Lemma donor_keep k t f h d : (∀ th, donors (f th) = donors th) → donor (upd k t f) h d ↔ donor k h d.
Proof. intros Hf. unfold donor, dn. by rewrite (view_upd donors) by done. Qed.
Lemma donor_upd k t f h d th :
  threads k !! t = Some th →
  donor (upd k t f) h d ↔ if decide (h = t) then d ∈ donors (f th) else donor k h d.
Proof.
  intros Hth. unfold donor. rewrite dn_upd, Hth. simpl. destruct (decide (h = t)); [|done].
  naive_solver.
Qed.
Lemma donor_here k t th d : threads k !! t = Some th → donor k t d ↔ d ∈ donors th.
Proof. intros Hth. unfold donor, dn. rewrite Hth. naive_solver. Qed.

Lemma wo_exists k t o : wo k t = Some o → ∃ th, threads k !! t = Some th ∧ waiting_on th = o.
Proof. unfold wo. destruct (threads k !! t) as [th|]; [|done]. intros [= <-]. by exists th. Qed.

(** Donation only follows pointers to locks and threads that exist. *)
Lemma donate_loop_ok n k p o :
  (∀ l, o = Some l → is_Some (holders k !! l)) →
  (∀ l t, holders k !! l = Some (Some t) → is_Some (threads k !! t)) →
  (∀ t l, wo k t = Some (Some l) → is_Some (holders k !! l)) →
  ∃ k', donate_loop n k p o = Ok k' ∧ same_rest k k' ∧ (∀ t, wo k' t = wo k t)
    ∧ (∀ h d, donor k' h d ↔ donor k h d) ∧ dom (threads k') = dom (threads k).
Proof.
  revert k o. induction n as [|n IH]; intros k o Ho Hh Hw; simpl; [by exists k|].
  destruct o as [l|]; [|by exists k]. unfold get_holder.
  destruct (Ho l eq_refl) as [h Hl]. rewrite Hl. cbn [from_opt mbind res_bind].
  destruct h as [t|]; [|by exists k]. destruct (Hh l t Hl) as [th Hth]. unfold get. rewrite Hth.
  cbn [from_opt mbind res_bind]. destruct (priority th <? p); [|by exists k].
  set (k1 := upd k t (λ th, with_priority th p)).
  assert (R1 : same_rest k k1) by (by apply same_rest_upd).
  assert (W1 : ∀ t, wo k1 t = wo k t) by (intros u; by apply wo_keep).
  assert (D1 : ∀ h d, donor k1 h d ↔ donor k h d) by (intros u d; by apply donor_keep).
  assert (E1 : dom (threads k1) = dom (threads k)) by apply dom_alter_L.
  destruct (waiting_on th) as [l'|] eqn:Hwt; [|by exists k1].
  destruct (IH k1 (Some l')) as (k' & -> & R & W & D & E).
  - intros l0 [= <-]. apply (Hw t). unfold wo. by rewrite Hth; simpl; rewrite Hwt.
  - intros l0 u Hu. apply elem_of_dom. rewrite E1. apply elem_of_dom. by apply (Hh l0).
  - intros u l0. rewrite W1. apply Hw.
  - exists k'. split; [done|]. split; [by etrans|]. split_and!.
    + intros u. by rewrite W, W1.
    + intros u d. by rewrite D, D1.
    + by rewrite E.
Qed.

Lemma update_priority_ok stray k t :
  is_Some (threads k !! t) → (∀ d, donor k t d → is_Some (threads k !! d)) →
  ∃ k', update_priority stray k t = Ok k' ∧ same_rest k k' ∧ (∀ u, wo k' u = wo k u)
    ∧ (∀ h d, donor k' h d ↔ donor k h d).
Proof.
  intros [th Hth] Hd. unfold update_priority, get. rewrite Hth. cbn [from_opt mbind res_bind]. cbv zeta.
  set (k1 := upd k t _).
  assert (R1 : same_rest k k1) by (by apply same_rest_upd).
  assert (W1 : ∀ t, wo k1 t = wo k t) by (intros u; by apply wo_keep).
  assert (D1 : ∀ h d, donor k1 h d ↔ donor k h d) by (intros u d; by apply donor_keep).
  pose proof (list_sort_perm (donor_comparison stray) (donors th)) as Hperm.
  destruct (list_sort_seq _ _) as [|hi rest]; [by exists k1|].
  set (k2 := upd k1 t (λ th, with_donors th (hi :: rest))).
  assert (R2 : same_rest k k2) by (etrans; [exact R1|by apply same_rest_upd]).
  assert (W2 : ∀ t, wo k2 t = wo k t) by (intros u; rewrite <- W1; by apply wo_keep).
  assert (D2 : ∀ h d, donor k2 h d ↔ donor k h d).
  { intros h d. rewrite <- D1. unfold k2. erewrite donor_upd.
    2:{ unfold k1, upd. simpl. by rewrite lookup_alter_eq, Hth. }
    destruct (decide (h = t)) as [->|]; [|done]. rewrite D1, (donor_here k t th d Hth). simpl.
    by rewrite Hperm. }
  assert (Hex : ∀ u, is_Some (threads k !! u) → is_Some (threads k2 !! u)).
  { intros u. unfold k2, k1, upd. simpl. by rewrite !lookup_alter_is_Some. }
  destruct (Hex hi) as [dt Hdt].
  { apply Hd, (donor_here k t th hi Hth). rewrite <- Hperm. by left. }
  destruct (Hex t) as [tt Htt]; [by exists th|].
  rewrite Hdt. cbn [from_opt mbind res_bind]. rewrite Htt. cbn [from_opt mbind res_bind].
  destruct (priority tt <? priority dt); eexists; (split; [done|]); [|done].
  split; [etrans; [exact R2|by apply same_rest_upd]|]. split.
  - intros u. rewrite <- W2. by apply wo_keep.
  - intros h d. rewrite <- D2. by apply donor_keep.
Qed.

Lemma remove_donors_ok k me l ds :
  is_Some (threads k !! me) → Forall (λ d, is_Some (threads k !! d)) ds →
  ∃ k', remove_donors k me l ds = Ok k' ∧ same_rest k k'
    ∧ (∀ t, wo k' t = if decide (wo k t = Some (Some l) ∧ t ∈ ds) then Some None else wo k t)
    ∧ (∀ h d, donor k' h d ↔ donor k h d ∧ ¬ (h = me ∧ d ∈ ds ∧ wo k d = Some (Some l)))
    ∧ dom (threads k') = dom (threads k).
Proof.
  revert k. induction ds as [|d ds IH]; intros k [mt Hme] Hds; simpl.
  - exists k. split_and!; [done|done| | |done].
    + intros t. rewrite decide_False; [done|]. by intros [_ ?%not_elem_of_nil].
    + intros h d. split; [|by intros [? _]]. intros Hd. split; [done|].
      by intros (_ & ?%not_elem_of_nil & _).
  - apply Forall_cons in Hds as [[dt Hdt] Hds]. unfold get. rewrite Hdt. cbn [from_opt mbind res_bind].
    destruct (bool_decide_reflect (waiting_on dt = Some l)) as [Hw|Hw].
    + set (k1 := upd k me (λ th, with_donors th (filter (λ x, x ≠ d) (donors th)))).
      set (k2 := upd k1 d (λ th, with_waiting th None)).
      assert (E2 : dom (threads k2) = dom (threads k)) by (simpl; by rewrite !dom_alter_L).
      assert (Hex : ∀ u, is_Some (threads k2 !! u) ↔ is_Some (threads k !! u))
        by (intros u; by rewrite <- !elem_of_dom, E2).
      destruct (IH k2) as (k' & -> & R & W & D & E).
      { by apply Hex. } { eapply Forall_impl; [exact Hds|]. intros u. apply Hex. }
      assert (W2 : ∀ u, wo k2 u = if decide (u = d) then Some None else wo k u).
      { intros u. unfold k2. rewrite wo_upd. destruct (decide (u = d)) as [->|].
        - unfold k1, upd. simpl. destruct (decide (d = me)) as [->|].
          + by rewrite lookup_alter_eq, Hme.
          + by rewrite lookup_alter_ne, Hdt.
        - by apply wo_keep. }
      assert (Hwd : wo k d = Some (Some l)) by (unfold wo; by rewrite Hdt; simpl; rewrite Hw).
      exists k'. split; [done|]. split; [|split; [|split]].
      * assert (R1 : same_rest k k1) by (by apply same_rest_upd).
        assert (R2 : same_rest k1 k2) by (by apply same_rest_upd).
        etrans; [exact R1|]. by etrans.
      * intros u. rewrite W, W2. destruct (decide (u = d)) as [->|Hu].
        -- rewrite decide_False by naive_solver. rewrite decide_True; [done|]. split; [done|by left].
        -- apply decide_ext. rewrite elem_of_cons. naive_solver.
      * intros h x. rewrite D. unfold k2. rewrite donor_keep by done. unfold k1.
        rewrite (donor_upd k me _ h x mt Hme). simpl. rewrite elem_of_cons. fold k1 k2.
        rewrite W2. destruct (decide (h = me)) as [->|Hh].
        -- rewrite list_elem_of_filter, (donor_here k me mt x Hme).
           destruct (decide (x = d)) as [->|]; naive_solver.
        -- destruct (decide (x = d)); naive_solver.
      * by rewrite E.
    + destruct (IH k) as (k' & -> & R & W & D & E); [by exists mt|done|].
      assert (Hwd : wo k d ≠ Some (Some l)) by (unfold wo; rewrite Hdt; simpl; congruence).
      exists k'. split; [done|]. split; [done|]. split; [|split; [|done]].
      * intros u. rewrite W. apply decide_ext. rewrite elem_of_cons.
        destruct (decide (u = d)) as [->|]; naive_solver.
      * intros h x. rewrite D, elem_of_cons. destruct (decide (x = d)) as [->|]; naive_solver.
Qed.

(** ** The frames of [lock_acquire] and [lock_release] *)

Lemma linv_exists k l t : linv k → holders k !! l = Some (Some t) → is_Some (threads k !! t).
Proof.
  intros Hi Hl. destruct (l_lock k Hi l) as [_ D]; [by exists (Some t)|].
  assert (Ho : own k l t) by (by left).
  destruct D as [[_ Hn]|(_ & u & [fs Hu] & Hown)]; [by apply Hn in Ho|].
  apply Hown in Ho as ->. unfold fr in Hu. by destruct (threads k !! u).
Qed.
Lemma wo_lock k t l : linv k → wo k t = Some (Some l) → is_Some (holders k !! l).
Proof.
  intros Hi Hw. destruct (l_waiting k Hi t l Hw) as (fs & Hf & Hl).
  pose proof (l_typed k Hi t fs Hf) as Hty. destruct fs as [|f fs]; [done|].
  destruct f; try done; simpl in *; injection Hl as <-; apply Hty.
Qed.

Lemma acquire_begin_ok stray k l fs :
  inv k → fr k (cur k) = Some (FLockAcquire l :: fs) →
  ∃ k1, lock_acquire_begin stray k l = Ok k1 ∧ same_rest k k1
    ∧ (∀ t, t ≠ cur k → wo k1 t = wo k t) ∧ (wo k1 (cur k) = wo k (cur k) ∨ wo k1 (cur k) = Some (Some l))
    ∧ (∀ h d, donor k1 h d → donor k h d ∨
         d = cur k ∧ thread_mlfqs k = false ∧ wo k1 d = Some (Some l) ∧ holders k !! l = Some (Some h)).
Proof.
  intros [Hs Hi] Hf. destruct (l_typed k Hi _ _ Hf) as (Hl & Hnh & _).
  unfold lock_acquire_begin. rewrite (proj2 Hs), (not_held_ok k l Hs Hl Hnh). cbn [negb mbind res_bind].
  assert (Hkeep : ∃ k1, Ok k = Ok k1 ∧ same_rest k k1
    ∧ (∀ t, t ≠ cur k → wo k1 t = wo k t) ∧ (wo k1 (cur k) = wo k (cur k) ∨ wo k1 (cur k) = Some (Some l))
    ∧ (∀ h d, donor k1 h d → donor k h d ∨
         d = cur k ∧ thread_mlfqs k = false ∧ wo k1 d = Some (Some l) ∧ holders k !! l = Some (Some h))).
  { exists k. split_and!; auto; done. }
  destruct (thread_mlfqs k) eqn:Hm; [done|]. unfold get_holder. destruct Hl as [h Hh]. rewrite Hh.
  cbn [from_opt mbind res_bind]. destruct h as [t|]; [|by rewrite <- Hm, Hh in *]. clear Hkeep.
  unfold donate_priority. rewrite Hm. destruct Hs as [Hq Hin].
  destruct (thread_current_ok k) as (ct & Hcur & Hct); [by apply queues_cur|]. rewrite Hcur.
  cbn [mbind res_bind]. set (k1 := upd k (cur k) _).
  assert (W1 : ∀ u, wo k1 u = if decide (u = cur k) then Some (Some l) else wo k u).
  { intros u. unfold k1. rewrite wo_upd. destruct (decide (u = cur k)); [by rewrite Hct|done]. }
  destruct (donate_loop_ok 20 k1 (priority ct) (Some l)) as (k2 & -> & R2 & W2 & D2 & E2).
  - intros l0 [= <-]. by exists (Some t).
  - intros l0 u Hu. apply lookup_alter_is_Some. by apply (linv_exists k l0).
  - intros u l0. rewrite W1. destruct (decide (u = cur k)); [by intros [= <-]|by apply wo_lock].
  - cbn [mbind res_bind]. unfold get_holder. rewrite (sr_holders _ _ R2). change (holders k1) with (holders k). rewrite Hh.
    cbn [from_opt mbind res_bind]. unfold get.
    destruct (threads k2 !! t) as [ht|] eqn:Hht.
    2:{ exfalso. assert (Hx : t ∉ dom (threads k2)) by (by apply not_elem_of_dom).
        apply Hx. rewrite E2. unfold k1, upd. simpl. rewrite dom_alter_L. apply elem_of_dom.
        by apply (linv_exists k l). }
    cbn [from_opt mbind res_bind]. eexists. split; [done|].
    assert (R1 : same_rest k k1) by (by apply same_rest_upd).
    split; [etrans; [exact R1|etrans; [exact R2|by apply same_rest_upd]]|]. split_and!.
    + intros u Hu. rewrite wo_keep, W2, W1 by done. by rewrite decide_False.
    + right. rewrite wo_keep, W2, W1 by done. by rewrite decide_True.
    + intros h d. rewrite (donor_upd k2 t _ h d ht Hht). simpl.
      assert (Hold : donor k2 h d ↔ donor k h d) by (rewrite D2; by apply donor_keep).
      destruct (decide (h = t)) as [->|]; [|by rewrite Hold; left].
      intros [->|Hd]%elem_of_insert_ordered.
      * right. split_and!; [done|done| |done]. rewrite wo_keep, W2, W1 by done. by rewrite decide_True.
      * left. apply Hold. by apply (donor_here k2 t ht d Hht).
Qed.

Lemma release_begin_ok stray k l fs :
  inv k → fr k (cur k) = Some (FLockRelease l :: fs) →
  ∃ k1, lock_release_begin stray k l = Ok (put_holder k1 l None) ∧ same_rest k k1
    ∧ (∀ t, wo k1 t = wo k t ∨ wo k1 t = Some None)
    ∧ (∀ h d, donor k1 h d → donor k h d ∧ wo k d ≠ Some (Some l) ∧ wo k1 d = wo k d).
Proof.
  intros [Hs Hi] Hf. destruct (l_typed k Hi _ _ Hf) as (Hl & _).
  unfold lock_release_begin. rewrite (held_ok k l Hs Hl). cbn [mbind res_bind].
  unfold remove_priority. destruct (thread_mlfqs k) eqn:Hm.
  { exists k. cbn [mbind res_bind]. split_and!; auto; try done. intros h d Hd.
    destruct (l_donor k Hi h d Hd) as [? _]. congruence. }
  destruct Hs as [Hq Hin].
  destruct (thread_current_ok k) as (ct & Hcur & Hct); [by apply queues_cur|]. rewrite Hcur.
  cbn [mbind res_bind].
  assert (Hex : ∀ h d, donor k h d → is_Some (threads k !! d)).
  { intros h d Hd. destruct (l_donor k Hi h d Hd) as (_ & m & Hw & _).
    destruct (wo_exists k d _ Hw) as (th & Hth & _). by exists th. }
  destruct (remove_donors_ok k (cur k) l (donors ct)) as (k1 & -> & R1 & W1 & D1 & E1).
  { by exists ct. }
  { apply Forall_forall. intros d Hd. apply (Hex (cur k)). by apply (donor_here k _ ct). }
  cbn [mbind res_bind]. rewrite (sq_cur _ _ (sr_queues _ _ R1)).
  assert (Hex1 : ∀ u, is_Some (threads k1 !! u) ↔ is_Some (threads k !! u)).
  { intros u. by rewrite <- !elem_of_dom, E1. }
  destruct (update_priority_ok stray k1 (cur k)) as (k2 & -> & R2 & W2 & D2).
  { apply Hex1. by exists ct. }
  { intros d [Hd _]%D1. apply Hex1. by apply (Hex (cur k)). }
  cbn [mbind res_bind]. exists k2. split; [done|]. split; [by etrans|]. split.
  - intros t. rewrite W2, W1. destruct (decide _); auto.
  - intros h d. rewrite D2, D1, W2, W1. intros [Hd Hn]. split; [done|].
    assert (Hne : wo k d ≠ Some (Some l)).
    { intros Hw. apply Hn. destruct (l_donor k Hi h d Hd) as (_ & m & Hm' & Hh).
      rewrite Hw in Hm'. injection Hm' as <-. apply elem_of_held in Hl. rewrite Hl in Hh.
      injection Hh as <-. split_and!; [done| |done].
      by apply (donor_here k (cur k) ct). }
    split; [done|]. by rewrite decide_False by naive_solver.
Qed.

Section lock_frames.
Context (stray : Z → Z) (w : Z) (k : kernel) (fs : list frame) (Hinv : inv k).

Lemma not_waiting t f m :
  linv k → fr k t = Some (f :: fs) → waits_of (f :: fs) = None → wo k t ≠ Some (Some m).
Proof.
  intros Hi Hf Hw Hm. destruct (l_waiting k Hi t m Hm) as (fs0 & Hf0 & Hw0).
  rewrite Hf in Hf0. injection Hf0 as <-. congruence.
Qed.

Lemma run_lock_acquire l :
  fr k (cur k) = Some (FLockAcquire l :: fs) → ∃ k', run_frame stray w k = Ok k' ∧ inv k'.
Proof.
  frame_start Hf. destruct Hty as (Hl & Hnh & Hty).
  destruct (acquire_begin_ok stray k l fs Hinv Hf) as (k1 & -> & R & W & Wc & D). cbn [mbind res_bind].
  eexists. split; [done|].
  pose proof (sr_queues _ _ R) as Q. pose proof (sq_cur _ _ Q) as Hc. pose proof (sr_holders _ _ R) as Hh.
  assert (Hs1 : sinv k1).
  { split; [rewrite Hc; apply (queues_same k); [done|apply Hs]|]. rewrite (sr_intr _ _ R). apply Hs. }
  split.
  { apply sinv_set_frames; [done|]. by rewrite Hc, (sq_idle _ _ Q). }
  assert (Hfr : ∀ t, fr (set_frames k1 (FLockDown l :: fs)) t =
    if decide (t = cur k) then Some (FLockDown l :: fs) else fr k t).
  { intros t. rewrite fr_set_frames by apply cur_exists, Hs1. by rewrite Hc, (sr_fr _ _ R). }
  assert (Hwo : ∀ t, wo (set_frames k1 (FLockDown l :: fs)) t = wo k1 t)
    by (intros t; apply views_set_frames).
  assert (Hvl : ∀ s, vl (set_frames k1 (FLockDown l :: fs)) s = vl k s) by apply (sr_vl _ _ R).
  assert (Hcd : conds (set_frames k1 (FLockDown l :: fs)) = conds k) by apply (sr_conds _ _ R).
  assert (Hhd : holders (set_frames k1 (FLockDown l :: fs)) = holders k) by done.
  assert (Hheld : ∀ t, held (set_frames k1 (FLockDown l :: fs)) t = held k t)
    by (intros t; by apply held_eq).
  assert (Hfs' : fr (set_frames k1 (FLockDown l :: fs)) (cur k) = Some (FLockDown l :: fs))
    by (by rewrite Hfr, decide_True).
  assert (Hfr' : ∀ t, t ≠ cur k → fr (set_frames k1 (FLockDown l :: fs)) t = fr k t)
    by (intros t Ht; by rewrite Hfr, decide_False).
  apply (linv_move k _ (cur k) _ (FLockDown l :: fs) Hf Hfs' Hfr' l); try done.
  - intros m _. by rewrite Hhd.
  - by rewrite Hhd.
  - intros s. by rewrite Hvl.
  - intros d. by rewrite Hcd.
  - intros d ws w'. rewrite Hcd, Hvl. apply (l_conds k Hi).
  - intros _. apply (lock_ok_other k _ (cur k) _ _ Hf Hfs' Hfr'); try done.
    + by rewrite Hhd.
    + by apply (l_lock k Hi).
  - rewrite Hheld. split; [by rewrite Hhd|]. split; [done|]. apply (typed_holders k); try done.
    + intros m. by rewrite Hhd.
    + intros s. by rewrite Hvl.
    + intros d. by rewrite Hcd.
  - intros h d. unfold donor. rewrite (proj1 (proj2 (views_set_frames _ _ _))). intros Hd.
    rewrite Hhd, Hwo. change (thread_mlfqs (set_frames k1 (FLockDown l :: fs))) with (thread_mlfqs k1).
    rewrite (sr_mlfqs _ _ R). destruct (D h d Hd) as [Hd'|(-> & Hm & Hw & Hlh)]; [|by eauto].
    destruct (l_donor k Hi h d Hd') as (Hm & m & Hw & Hlm). split; [done|]. exists m. split; [|done].
    rewrite W; [done|]. intros ->. by apply (not_waiting (cur k) (FLockAcquire l) m Hi Hf).
  - intros t m. rewrite Hwo. intros Hm. destruct (decide (t = cur k)) as [->|Ht]; [right|left; by rewrite <- W].
    split; [done|]. destruct Wc as [E|E]; [|simpl; congruence].
    exfalso. apply (not_waiting (cur k) (FLockAcquire l) m Hi Hf); [done|congruence].
Qed.

(** The views after an operation on the semaphore of lock [l]. *)
Lemma lock_sema_ok k1 l v f fs' :
  inv k → fr k (cur k) = Some (f :: fs) → queues k1 (Some (cur k1)) → cur k1 = cur k →
  only_sema k k1 l v → is_Some (holders k !! l) →
  (∀ m, m ≠ l → phase_of (f :: fs) ≠ Some m) → (∀ m, m ≠ l → phase_of fs' ≠ Some m) →
  lock_ok (set_frames k1 fs') l → typed k (held k (cur k)) fs' →
  Forall (λ f, started f = false) (tail fs') →
  (∀ m, wo k (cur k) = Some (Some m) → waits_of fs' = Some m) →
  inv (set_frames k1 fs').
Proof.
  intros [Hs Hi] Hf Hq1 Hc Hos Hl Hp0 Hp1 Hok Hty Htl Hwc.
  assert (Hs1 : sinv k1) by (split; [done|]; rewrite (os_intr _ _ _ _ Hos); apply Hs).
  split.
  { apply sinv_set_frames; [done|]. apply (frame_not_idle k1 f fs); [done|].
    by rewrite (os_fr _ _ _ _ Hos), Hc. }
  assert (Hh : holders (set_frames k1 fs') = holders k) by apply (os_holders _ _ _ _ Hos).
  assert (Hcd : conds (set_frames k1 fs') = conds k) by apply (os_conds _ _ _ _ Hos).
  assert (Hvl : ∀ m, vl (set_frames k1 fs') m = if decide (m = l) then Some v else vl k m)
    by apply (os_vl _ _ _ _ Hos).
  assert (Hvs : ∀ m, is_Some (vl k m) → is_Some (vl (set_frames k1 fs') m)).
  { intros m Hm. rewrite Hvl. by destruct (decide (m = l)). }
  assert (Hwo : ∀ t, wo (set_frames k1 fs') t = wo k t).
  { intros t. rewrite (proj1 (views_set_frames _ _ _)). apply (os_wo _ _ _ _ Hos). }
  apply (linv_move k _ (cur k) (f :: fs) fs') with (l := l); try done.
  - rewrite fr_set_frames by apply cur_exists, Hs1. by rewrite Hc, decide_True.
  - intros t Ht. rewrite fr_set_frames by apply cur_exists, Hs1.
    rewrite Hc, decide_False by done. apply (os_fr _ _ _ _ Hos).
  - intros m _. by rewrite Hh.
  - intros m Hm _. by rewrite Hvl, decide_False.
  - by rewrite Hh.
  - intros d. by rewrite Hcd.
  - intros d ws w' Hd Hw'. rewrite Hcd in Hd. destruct (l_conds k Hi d ws w' Hd Hw'). auto.
  - intros t _. by apply held_eq.
  - rewrite (held_eq k) by done. apply (typed_holders k); auto; [intros m; by rewrite Hh|].
    intros d. by rewrite Hcd.
  - intros h d. unfold donor. rewrite (proj1 (proj2 (views_set_frames _ _ _))), (os_dn _ _ _ _ Hos).
    rewrite Hwo, Hh. change (thread_mlfqs (set_frames k1 fs')) with (thread_mlfqs k1).
    rewrite (os_mlfqs _ _ _ _ Hos). apply (l_donor k Hi).
  - intros t m. rewrite Hwo. destruct (decide (t = cur k)) as [->|]; auto.
Qed.

Lemma lock_sema l : linv k → is_Some (holders k !! l) → ∃ x, semas k !! l = Some x.
Proof.
  intros Hi Hl. destruct (semas k !! l) as [x|] eqn:E; [by exists x|].
  rewrite (fresh_not_lock k l Hi E) in Hl. by destruct Hl.
Qed.

Lemma run_lock_down l :
  fr k (cur k) = Some (FLockDown l :: fs) → ∃ k', run_frame stray w k = Ok k' ∧ inv k'.
Proof.
  frame_start Hf. destruct Hty as (Hl & Hnh & Hty). destruct (lock_sema l Hi Hl) as [x Hx].
  destruct (sema_down_ok k l x Hs Hx) as (k1 & b & -> & Hs1 & Hb).
  { exists fs. by right. }
  cbn [mbind res_bind].
  destruct Hb as [(-> & Hv & Hc & Hos)|(-> & _ & Hlk)]; eexists; (split; [done|]).
  2:{ split; [done|]. by apply (linv_same k); [apply same_locks_linv|]. }
  destruct (l_lock k Hi l Hl) as [_ D].
  assert (Hfree : value x = 1 ∧ ∀ u, ¬ own k l u).
  { unfold vl in D. rewrite Hx in D. simpl in D. destruct D as [[[= ->] ?]|[[= E] _]]; done. }
  destruct Hfree as [Hv1 Hno]. rewrite Hv1 in Hos. change (u32 (1 - 1)) with 0 in Hos.
  assert (Hnone : holders k !! l = Some None).
  { destruct Hl as [[t|] Hl]; [|done]. exfalso. apply (Hno t). by left. }
  assert (Hfr : ∀ t, fr (set_frames k1 (FLockTaken l :: fs)) t =
    if decide (t = cur k) then Some (FLockTaken l :: fs) else fr k t).
  { intros t. rewrite fr_set_frames by apply cur_exists, Hs1. by rewrite Hc, (os_fr _ _ _ _ Hos). }
  apply (lock_sema_ok k1 l 0 (FLockDown l)); try done.
  - apply Hs1.
  - simpl. congruence.
  - assert (Hh : holders (set_frames k1 (FLockTaken l :: fs)) !! l = Some None).
    { simpl. by rewrite (os_holders _ _ _ _ Hos). }
    split; [done|right]. split.
    { etrans; [apply (os_vl _ _ _ _ Hos)|]. by rewrite decide_True. }
    exists (cur k). split; [by rewrite Hfr, decide_True|]. intros u. unfold own. rewrite Hh.
    unfold phase. rewrite Hfr. destruct (decide (u = cur k)) as [->|Hu].
    + split; [done|]. intros _. right. by eexists.
    + split; [|done]. intros [?|Hp]; [done|]. exfalso. apply (Hno u). by right.
  - intros m Hm. destruct (l_waiting k Hi _ _ Hm) as (fs0 & Hf0 & Hw0). rewrite Hf in Hf0.
    by injection Hf0 as <-.
Qed.

Lemma run_lock_up l :
  fr k (cur k) = Some (FLockUp l :: fs) → ∃ k', run_frame stray w k = Ok k' ∧ inv k'.
Proof.
  frame_start Hf. destruct Hty as (Hl & Hnh & Hty). destruct (lock_sema l Hi Hl) as [x Hx].
  destruct (sema_up_ok k l x (proj1 Hs) Hx) as (k1 & b & -> & Hq1 & Hc & Hos).
  cbn [mbind res_bind]. eexists; split; [done|]. destruct (l_lock k Hi l Hl) as [Hp D].
  assert (Hphase : phase k l (cur k)) by (by eexists).
  pose proof (Hp _ Hphase) as Hnone.
  assert (Hheld : value x = 0 ∧ ∀ u, phase k l u → u = cur k).
  { unfold vl in D. rewrite Hx in D. simpl in D.
    destruct D as [[_ Hno]|([= ->] & t & _ & Hown)]; [exfalso; apply (Hno (cur k)); by right|].
    split; [done|]. intros u Hu. transitivity t; [apply Hown; by right|]. symmetry. apply Hown. by right. }
  destruct Hheld as [Hv0 Hown]. rewrite Hv0 in Hos. change (u32 (0 + 1)) with 1 in Hos.
  set (fs' := if (b : bool) then FYield :: fs else fs).
  assert (Hp' : phase_of fs' = None ∧ Forall (λ f, started f = false) (tail fs')).
  { destruct b; [done|]. split; [by apply not_started_heads|by apply tail_not_started]. }
  apply (lock_sema_ok k1 l 1 (FLockUp l)); try done.
  - simpl. congruence.
  - intros m _. by rewrite (proj1 Hp').
  - assert (Hnp : ∀ u, ¬ phase (set_frames k1 fs') l u).
    { intros u (fs0 & Hf0 & Hl0). rewrite fr_set_frames in Hf0 by by apply cur_exists.
      rewrite Hc, (os_fr _ _ _ _ Hos) in Hf0. destruct (decide (u = cur k)) as [->|Hu].
      - injection Hf0 as <-. rewrite (proj1 Hp') in Hl0. done.
      - apply Hu, Hown. by exists fs0. }
    split; [by intros u ?%Hnp|left]. split.
    { etrans; [apply (os_vl _ _ _ _ Hos)|]. by rewrite decide_True. }
    intros u [Hh|Hu]; [|by apply (Hnp u)]. simpl in Hh. rewrite (os_holders _ _ _ _ Hos) in Hh. congruence.
  - by destruct b.
  - apply Hp'.
  - intros m Hm. exfalso. by apply (not_waiting (cur k) (FLockUp l) m Hi Hf).
Qed.

Lemma run_lock_taken l :
  fr k (cur k) = Some (FLockTaken l :: fs) → ∃ k', run_frame stray w k = Ok k' ∧ inv k'.
Proof.
  frame_start Hf. destruct Hty as (Hl & Hnh & Hty). unfold lock_acquire_end. rewrite Hcur.
  cbn [mbind res_bind]. eexists; split; [done|]. destruct (l_lock k Hi l Hl) as [Hp D].
  assert (Hphase : phase k l (cur k)) by (by eexists). pose proof (Hp _ Hphase) as Hnone.
  assert (Hlk : vl k l = Some 0 ∧ ∀ u, phase k l u → u = cur k).
  { destruct D as [[_ Hno]|(Hv & t & _ & Hown)]; [exfalso; apply (Hno (cur k)); by right|].
    split; [done|]. intros u Hu. transitivity t; [apply Hown; by right|]. symmetry. apply Hown. by right. }
  destruct Hlk as [Hv0 Hown].
  set (k1 := upd (put_holder k l (Some (cur k))) (cur k) (λ th, with_waiting th None)).
  destruct Hs as [Hq Hin]. destruct (cur_exists k Hq) as [ct Hct].
  assert (Hs1 : sinv k1).
  { split; [|done]. apply (queues_same k); [|done].
    etrans; [|by apply (same_queues_upd (put_holder k l (Some (cur k))))]. done. }
  assert (Hfr1 : ∀ t, fr k1 t = fr k t) by (intros t; by apply (view_upd frames)).
  assert (Hfr : ∀ t, fr (set_frames k1 fs) t = if decide (t = cur k) then Some fs else fr k t).
  { intros t. rewrite fr_set_frames by apply cur_exists, Hs1. by rewrite Hfr1. }
  assert (Hh : holders (set_frames k1 fs) = <[l := Some (cur k)]> (holders k)) by done.
  assert (Hwo : ∀ t, wo (set_frames k1 fs) t = if decide (t = cur k) then Some None else wo k t).
  { intros t. rewrite (proj1 (views_set_frames _ _ _)). etrans; [apply wo_upd|].
    destruct (decide (t = cur k)); [simpl; by rewrite Hct|done]. }
  assert (Hdom : ∀ m, is_Some (holders (set_frames k1 fs) !! m) ↔ is_Some (holders k !! m)).
  { intros m. rewrite Hh. destruct (decide (m = l)) as [->|];
      [by rewrite lookup_insert_eq|by rewrite lookup_insert_ne]. }
  assert (Hph : ∀ u, ¬ phase (set_frames k1 fs) l u).
  { intros u (fs0 & Hf0 & Hl0). rewrite Hfr in Hf0. destruct (decide (u = cur k)) as [->|Hu].
    - injection Hf0 as <-. rewrite (proj1 (not_started_heads fs Htl)) in Hl0. done.
    - apply Hu, Hown. by exists fs0. }
  split; [by apply sinv_set_frames|].
  apply (linv_move k _ (cur k) (FLockTaken l :: fs) fs) with (l := l); try done.
  - by rewrite Hfr, decide_True.
  - intros t Ht. by rewrite Hfr, decide_False.
  - simpl. congruence.
  - intros m _. by rewrite (proj1 (not_started_heads fs Htl)).
  - intros m Hm. rewrite Hh. by apply lookup_insert_ne.
  - intros d ws w' Hd Hw'. by apply (l_conds k Hi d ws).
  - intros _. split; [by intros u ?%Hph|right]. split; [done|]. exists (cur k).
    split; [by rewrite Hfr, decide_True|]. intros u. unfold own. rewrite Hh, lookup_insert_eq.
    split; [by intros [[= ->]|?%Hph]|]. intros ->. by left.
  - intros t Ht. apply set_eq. intros m. rewrite !elem_of_held, Hh.
    destruct (decide (m = l)) as [->|]; [|by rewrite lookup_insert_ne].
    rewrite lookup_insert_eq, Hnone. split; [congruence|done].
  - replace (held (set_frames k1 fs) (cur k)) with (held k (cur k) ∪ {[l]}).
    { apply (typed_holders k); try done. }
    apply set_eq. intros m. rewrite elem_of_union, elem_of_singleton, !elem_of_held, Hh.
    destruct (decide (m = l)) as [->|]; [rewrite lookup_insert_eq; naive_solver|].
    rewrite lookup_insert_ne by done. naive_solver.
  - by apply tail_not_started.
  - intros h d Hd. assert (Hd' : donor k h d).
    { unfold donor in *. rewrite (proj1 (proj2 (views_set_frames _ _ _))) in Hd.
      unfold dn, k1 in Hd. by rewrite (view_upd donors) in Hd. }
    destruct (l_donor k Hi h d Hd') as (Hm & m & Hw & Hlm). split; [done|]. exists m.
    assert (Hml : m ≠ l) by congruence. rewrite Hwo, Hh, lookup_insert_ne by done.
    rewrite decide_False; [done|]. intros ->.
    destruct (l_waiting k Hi _ _ Hw) as (fs0 & Hf0 & Hw0). rewrite Hf in Hf0. injection Hf0 as <-.
    simpl in Hw0. congruence.
  - intros t m. rewrite Hwo. destruct (decide (t = cur k)); [done|]. auto.
Qed.

Lemma run_lock_release l :
  fr k (cur k) = Some (FLockRelease l :: fs) → ∃ k', run_frame stray w k = Ok k' ∧ inv k'.
Proof.
  frame_start Hf. destruct Hty as (Hl & Hty). pose proof Hl as Hlh. apply elem_of_held in Hlh.
  destruct (release_begin_ok stray k l fs Hinv Hf) as (k0 & -> & R & W & D). cbn [mbind res_bind].
  eexists; split; [done|]. set (k1 := put_holder k0 l None). set (fs' := FLockUp l :: fs).
  pose proof (sr_queues _ _ R) as Q. pose proof (sq_cur _ _ Q) as Hc.
  destruct (l_lock k Hi l) as [Hp Do]; [by exists (Some (cur k))|].
  assert (Hlk : vl k l = Some 0 ∧ ∀ u, ¬ phase k l u).
  { split; [|intros u Hu; apply Hp in Hu; congruence].
    destruct Do as [[_ Hno]|[Hv _]]; [|done]. exfalso. apply (Hno (cur k)). by left. }
  destruct Hlk as [Hv0 Hnp].
  assert (Hs1 : sinv k1).
  { split; [|change (in_intr k0 = false); rewrite (sr_intr _ _ R); apply Hs].
    change (cur k1) with (cur k0). rewrite Hc.
    apply (queues_same k0); [done|]. apply (queues_same k); [done|apply Hs]. }
  assert (Hfr : ∀ t, fr (set_frames k1 fs') t = if decide (t = cur k) then Some fs' else fr k t).
  { intros t. rewrite fr_set_frames by apply cur_exists, Hs1. change (cur k1) with (cur k0).
    rewrite Hc. destruct (decide _); [done|]. apply (sr_fr _ _ R). }
  assert (Hh : holders (set_frames k1 fs') = <[l := None]> (holders k)).
  { change (<[l := None]> (holders k0) = <[l := None]> (holders k)). by rewrite (sr_holders _ _ R). }
  assert (Hwo : ∀ t, wo (set_frames k1 fs') t = wo k0 t) by (intros t; apply (views_set_frames k1)).
  assert (Hvl : ∀ s, vl (set_frames k1 fs') s = vl k s) by apply (sr_vl _ _ R).
  assert (Hcd : conds (set_frames k1 fs') = conds k) by apply (sr_conds _ _ R).
  assert (Hdom : ∀ m, is_Some (holders (set_frames k1 fs') !! m) ↔ is_Some (holders k !! m)).
  { intros m. rewrite Hh. destruct (decide (m = l)) as [->|];
      [by rewrite lookup_insert_eq, Hlh|by rewrite lookup_insert_ne]. }
  assert (Hph : ∀ u, phase (set_frames k1 fs') l u ↔ u = cur k).
  { intros u. unfold phase. rewrite Hfr. destruct (decide (u = cur k)) as [->|Hu].
    { split; [done|]. intros _. by exists fs'. }
    split; [|done]. intros Hu'. by apply Hnp in Hu'. }
  split.
  { apply sinv_set_frames; [done|]. change (cur k0 ≠ idle_thread k0). by rewrite Hc, (sq_idle _ _ Q). }
  apply (linv_move k _ (cur k) (FLockRelease l :: fs) fs') with (l := l); try done.
  - by rewrite Hfr, decide_True.
  - intros t Ht. by rewrite Hfr, decide_False.
  - simpl. congruence.
  - intros m Hm. rewrite Hh. by apply lookup_insert_ne.
  - intros s. by rewrite Hvl.
  - intros d. by rewrite Hcd.
  - intros d ws w'. rewrite Hcd, Hvl. apply (l_conds k Hi).
  - intros _. unfold lock_ok, own. rewrite Hh, lookup_insert_eq, Hvl. split; [done|right]. split; [done|].
    exists (cur k). split; [by rewrite Hfr, decide_True|]. intros u. rewrite Hph. naive_solver.
  - intros t Ht. apply set_eq. intros m. rewrite !elem_of_held, Hh.
    destruct (decide (m = l)) as [->|]; [|by rewrite lookup_insert_ne].
    rewrite lookup_insert_eq, Hlh. split; [done|congruence].
  - replace (held (set_frames k1 fs') (cur k)) with (held k (cur k) ∖ {[l]}).
    { split; [by apply Hdom; exists (Some (cur k))|]. split; [set_solver|].
      apply (typed_holders k); try done; [intros s; by rewrite Hvl|intros d; by rewrite Hcd]. }
    apply set_eq. intros m. rewrite elem_of_difference, elem_of_singleton, !elem_of_held, Hh.
    destruct (decide (m = l)) as [->|]; [rewrite lookup_insert_eq; naive_solver|].
    rewrite lookup_insert_ne by done. naive_solver.
  - intros h d Hd. assert (Hd' : donor k0 h d).
    { unfold donor in *. by rewrite (proj1 (proj2 (views_set_frames _ _ _))) in Hd. }
    destruct (D h d Hd') as (Hdk & Hne & Hwd). destruct (l_donor k Hi h d Hdk) as (Hm & m & Hw & Hlm).
    split; [by rewrite <- Hm; apply (sr_mlfqs _ _ R)|]. exists m.
    assert (Hml : m ≠ l) by congruence. by rewrite Hwo, Hh, lookup_insert_ne, Hwd.
  - intros t m. rewrite Hwo. intros Hm. left. assert (Hk : wo k t = Some (Some m)) by (destruct (W t); congruence).
    split; [|done]. intros ->. by apply (not_waiting (cur k) (FLockRelease l) m Hi Hf).
Qed.

Lemma run_exit :
  fr k (cur k) = Some (FExit :: fs) → ∃ k', run_frame stray w k = Ok k' ∧ inv k'.
Proof.
  frame_start Hf. destruct Hty as (Hempty & ->).
  destruct (thread_exit_ok k Hs Hni) as (k' & -> & Hs' & Hh & Hc & Hm & Hv & Hthr).
  exists k'. split; [done|]. split; [done|].
  assert (Hnl : ∀ l, holders k !! l ≠ Some (Some (cur k))).
  { intros l Hl. apply elem_of_held in Hl. set_solver. }
  assert (Hfr : ∀ t, t ≠ cur k → fr k' t = fr k t).
  { intros t Ht. destruct (Hthr t) as [(? & _)|[? _]]; done. }
  assert (Hgone : ∀ t, threads k' !! t = None → fr k' t = None ∧ wo k' t = None ∧ dn k' t = None).
  { intros t Ht. unfold fr, wo, dn. by rewrite Ht. }
  assert (Hsub : ∀ t fs0, fr k' t = Some fs0 → fr k t = Some fs0).
  { intros t fs0. destruct (Hthr t) as [(-> & _)|[_ (-> & _)%Hgone]]; done. }
  assert (Hph : ∀ l u, phase k' l u ↔ phase k l u).
  { intros l u. unfold phase. destruct (decide (u = cur k)) as [->|Hu]; [|by rewrite Hfr].
    split; intros (fs0 & Hf0 & Hl0); [by eauto|]. rewrite Hf in Hf0. by injection Hf0 as <-. }
  split.
  - intros l. rewrite Hh. intros Hl. destruct (l_lock k Hi l Hl) as [E D]. unfold lock_ok, own in *.
    rewrite Hh, Hv. setoid_rewrite Hph. split; [done|].
    destruct D as [D|(Hv0 & t & Ht & Hown)]; [by left|right]. split; [done|]. exists t. split; [|done].
    rewrite Hfr; [done|]. intros ->. destruct (proj2 (Hown (cur k)) eq_refl) as [Hx|(fs0 & Hf0 & Hl0)].
    + by apply (Hnl l).
    + rewrite Hf in Hf0. by injection Hf0 as <-.
  - intros t fs0 Hf0%Hsub. rewrite (held_eq k k') by done. apply (typed_holders k).
    + intros l. by rewrite Hh.
    + intros s. by rewrite Hv.
    + intros c. by rewrite Hc.
    + by apply (l_typed k Hi).
  - intros t fs0 Hf0%Hsub. by apply (l_tail k Hi t).
  - intros h d [ds [Hd Hin]]. assert (Hd' : donor k h d).
    { exists ds. split; [|done]. destruct (Hthr h) as [(_ & _ & E)|[_ (_ & _ & E)%Hgone]]; congruence. }
    destruct (l_donor k Hi h d Hd') as (Hmf & l & Hw & Hl). rewrite Hm, Hh. split; [done|]. exists l.
    split; [|done]. destruct (Hthr d) as [(_ & -> & _)|[-> _]]; [done|].
    exfalso. destruct (l_waiting k Hi _ _ Hw) as (fs0 & Hf0 & Hw0). rewrite Hf in Hf0. by injection Hf0 as <-.
  - intros t l Hw. destruct (Hthr t) as [(Ef & Ew & _)|[_ (_ & E & _)%Hgone]]; [|congruence].
    rewrite Ef. apply (l_waiting k Hi). congruence.
  - intros c ws w'. rewrite Hc, Hv, Hh. apply (l_conds k Hi).
Qed.

End lock_frames.

End Locks.
