(* ===== verification/Reach.v ===== *)
(** * The kernel as a state machine

    What may happen next in a running kernel: the current thread goes on with the
    operation that it is in, starts a new one, or the timer interrupts it.  Every
    such action succeeds (no assertion of [thread.c] and [synch.c] fails) and keeps
    the invariants of the queues and of the locks, so they hold in every state that
    the kernel reaches from [thread_start] on.

    [donate_priority] and [remove_priority] are one action each with the rest of
    the code around them; the source runs them with interrupts on. *)

From S2P Require Import Prelude ListSeq Thread Synch Timer Sched Locks.

Module Reach.
Import Thread Synch Timer Sched Locks.

(** ** Actions *)

Inductive action :=
  | ARun (w : Z)              (* the running thread executes the frame at the head *)
  | ACall (fs : list frame)   (* it starts operations *)
  | ATick                     (* the timer interrupts it *)
  | AIdle                     (* the idle thread blocks *)
  | ASleep (n : Z)            (* timer_sleep *)
  | ACreate (page p : Z)      (* thread_create, with the page that palloc gives *)
  | ASetPriority (p : Z)
  | ASetNice (n : Z)
  | ASemaInit (s v : Z)
  | ALockInit (l : Z)
  | ACondInit (c : Z).

Definition act (stray : Z → Z) (a : action) (k : kernel) : res kernel :=
  match a with
  | ARun w => run_frame stray w k
  | ACall fs => Ok (set_frames k fs)
  | ATick => timer_tick k
  | AIdle => thread_block k
  | ASleep n => timer_sleep k n
  | ACreate page p =>
      '(_, k, yield) ← thread_create k page p;
      Ok (if (yield : bool) then set_frames k [FYield] else k)
  | ASetPriority p => thread_set_priority stray k p
  | ASetNice n => thread_set_nice k n
  | ASemaInit s v => Ok (sema_init k s v)
  | ALockInit l => Ok (lock_init k l)
  | ACondInit c => Ok (cond_init k c)
  end.

(** The running thread is between two operations and is not the idle thread. *)
Definition at_rest (k : kernel) : Prop := fr k (cur k) = Some [] ∧ cur k ≠ idle_thread k.

(** When an action may happen: objects are initialised once, at an address of
    their own, and a thread respects the rules that [synch.c] states, that is, it
    does not acquire a lock that it holds, releases only locks that it holds, holds
    the lock of a condition variable that it uses and none when it exits. *)
Definition enabled (k : kernel) (a : action) : Prop :=
  match a with
  | ARun w =>
      semas k !! w = None ∧
      match fr k (cur k) with
      | Some (FCondSignal c _ :: _) => signal_ready k c = true
      | Some (_ :: _) => True
      | _ => False
      end
  | ACall fs =>
      at_rest k ∧ typed k (held k (cur k)) fs ∧ Forall (λ f, started f = false) fs
  | ATick => True
  | AIdle => cur k = idle_thread k
  | ASleep _ => at_rest k
  | ACreate page p => at_rest k ∧ threads k !! page = None ∧ PRI_MIN ≤ p ≤ PRI_MAX
  | ASetPriority _ | ASetNice _ => at_rest k
  | ASemaInit s _ => semas k !! s = None
  | ALockInit l => semas k !! l = None
  | ACondInit c => conds k !! c = None
  end.

#[export] Instance typed_dec k H fs : Decision (typed k H fs).
Proof.
  revert H. induction fs as [|f fs IH]; intros H; [by left|]. destruct f; simpl; apply _.
Defined.
#[export] Instance enabled_dec k a : Decision (enabled k a).
Proof.
  unfold enabled, at_rest.
  destruct a; try apply _. destruct (fr k (cur k)) as [[|[] fs]|]; apply _.
Defined.

(** A sequence of actions, each of which must be enabled. *)
Fixpoint exec (stray : Z → Z) (acts : list action) (k : kernel) : option kernel :=
  match acts with
  | [] => Some k
  | a :: acts =>
      if decide (enabled k a) then
        match act stray a k with Ok k' => exec stray acts k' | _ => None end
      else None
  end.

(** ** Start of the system *)

Definition thread_init (mlfqs : bool) (main : Z) : res kernel :=
  let k := Kernel ∅ [] [] [] ∅ ∅ ∅ main 0 main 1 0 0 0 0 mlfqs 0 0 INT64_MAX false false in
  k ← init_thread k main PRI_DEFAULT;
  let k := upd k main (λ th, with_status th THREAD_RUNNING) in
  let '(id, k) := allocate_tid k in
  Ok (upd k main (λ th, Thr id (status th) (priority th) (base_priority th) (donors th)
    (waiting_on th) (nice th) (recent_cpu th) (wakeup_tick th) (user_pagedir th) (frames th))).

(** The start of [idle]: up to the loop. *)
Definition idle_begin (k : kernel) (idle_started : Z) : kernel :=
  let k := set_idle k (cur k) in
  let k := upd k (cur k) (λ th, with_priority (with_cpu th 0 0) PRI_MIN) in
  set_frames k [FSemaUp idle_started].

(** [thread_start] of the initial thread, with the part of [idle] that it waits
    for; [page] is the page of the idle thread. *)
Definition thread_start (k : kernel) (page idle_started : Z) : res kernel :=
  let k := sema_init k idle_started 0 in
  '(_, k, _) ← thread_create k page PRI_MIN;
  k ← run_frame (λ _, 0) 0 (set_frames k [FSemaDown idle_started]);
  k ← run_frame (λ _, 0) 0 (idle_begin k idle_started);
  k ← run_frame (λ _, 0) 0 k;
  run_frame (λ _, 0) 0 k.

(** The initial thread sits at the top of the loader's page; the idle thread gets
    the first page of the kernel pool. *)
Definition main_page : Z := 0xc000e000.
Definition idle_page : Z := 0xc0101000.
Definition boot (mlfqs : bool) : res kernel :=
  k ← thread_init mlfqs main_page;
  thread_start k idle_page (main_page + 4080).

Inductive reachable (stray : Z → Z) (mlfqs : bool) : kernel → Prop :=
  | reach_boot k : boot mlfqs = Ok k → reachable stray mlfqs k
  | reach_act k a k' :
      reachable stray mlfqs k → enabled k a → act stray a k = Ok k' → reachable stray mlfqs k'.

(** ** Every action keeps the invariant *)

Lemma inv_same_locks k k' : inv k → sinv k' → same_locks k k' → inv k'.
Proof. intros [_ Hi] Hs Hl. split; [done|]. by apply (linv_same k); [apply same_locks_linv|]. Qed.

Lemma act_run stray k w :
  inv k → enabled k (ARun w) → ∃ k', run_frame stray w k = Ok k' ∧ inv k'.
Proof.
  intros Hinv (Hw & Hrun). destruct (fr k (cur k)) as [[|f fs]|] eqn:Hf; try done. destruct f.
  - by eapply run_sema_down.
  - by eapply run_sema_up.
  - by eapply run_lock_acquire.
  - by eapply run_lock_down.
  - by eapply run_lock_taken.
  - by eapply run_lock_release.
  - by eapply run_lock_up.
  - by eapply run_cond_wait.
  - by eapply run_cond_signal.
  - by eapply run_yield.
  - by eapply run_sleep.
  - by eapply run_exit.
Qed.

Lemma act_sleep k n : inv k → at_rest k → ∃ k', timer_sleep k n = Ok k' ∧ inv k'.
Proof.
  intros Hinv [Hf Hni]. pose proof Hinv as [Hs Hi]. unfold timer_sleep.
  destruct (n <=? 0); [by exists k|]. rewrite (proj2 Hs). cbn [negb mbind res_bind].
  destruct (thread_sleep_ok k (timer_ticks k + n) Hs Hni)
    as (k' & Hk & Hs' & Hh & Hc & Hm & Hv & Hwd & Hfr).
  exists k'. split; [done|]. split; [done|].
  apply (linv_local k k' (cur k) [] [FSleep]); try done.
  - rewrite Hfr, decide_True, Hf by done. done.
  - intros t Ht. by rewrite Hfr, decide_False.
  - intros t. apply Hwd.
  - intros t. apply Hwd.
  - intros s. by rewrite Hv.
  - intros c. by rewrite Hc.
  - intros c ws w. rewrite Hc, Hv. apply (l_conds k Hi).
Qed.

Lemma act_set_nice k n : inv k → ∃ k', thread_set_nice k n = Ok k' ∧ inv k'.
Proof.
  intros Hinv. pose proof Hinv as [[Hq Hin] Hi].
  destruct (thread_current_ok k) as (th & Hcur & Hth); [by apply queues_cur|].
  unfold thread_set_nice. rewrite Hcur. cbn [mbind res_bind].
  set (k1 := upd k (cur k) _).
  assert (Q1 : quiet k k1) by (by apply quiet_upd).
  pose proof (quiet_cur _ _ Q1 Hq) as Hq1. change (cur k) with (cur k1).
  destruct (update_mlfqs_quiet k1 Hq1) as (k2 & -> & Q2). cbn [mbind res_bind].
  assert (Q : quiet k k2) by by etrans. pose proof (quiet_cur _ _ Q Hq) as Hq2.
  assert (Hs2 : sinv k2) by (split; [done|]; by rewrite (qt_intr _ _ Q)).
  assert (Hi2 : inv k2) by (apply (inv_same_locks k); [done|done|apply Q]).
  destruct (thread_current_ok k2) as (th2 & Hcur2 & _); [by apply queues_cur|].
  unfold try_thread_yield. rewrite Hcur2. cbn [mbind res_bind].
  destruct (front_exceeds k2 _); [|by exists k2].
  destruct (thread_yield_ok k2 Hs2) as (k3 & -> & Hs3 & Hl3). exists k3. split; [done|].
  by apply (inv_same_locks k2).
Qed.

Lemma act_set_priority stray k p :
  inv k → ∃ k', thread_set_priority stray k p = Ok k' ∧ inv k'.
Proof.
  intros Hinv. pose proof Hinv as [[Hq Hin] Hi].
  destruct (thread_current_ok k) as (th & Hcur & Hth); [by apply queues_cur|].
  unfold thread_set_priority. destruct (thread_mlfqs k); [by exists k|]. rewrite Hcur.
  cbn [mbind res_bind]. set (k1 := upd k (cur k) _).
  assert (Hd : ∀ h d, donor k1 h d ↔ donor k h d) by (intros h d; by apply donor_keep).
  assert (Hex : ∀ u, is_Some (threads k1 !! u) ↔ is_Some (threads k !! u)).
  { intros u. apply lookup_alter_is_Some. }
  destruct (update_priority_ok stray k1 (cur k)) as (k2 & Hup & R & W & D).
  { apply Hex. by exists th. }
  { intros d Hdd. apply Hex. apply Hd, (l_donor k Hi) in Hdd as (_ & l & Hw & _).
    destruct (wo_exists _ _ _ Hw) as (dt & Hdt & _). by exists dt. }
  change (cur k1) with (cur k). rewrite Hup. cbn [mbind res_bind].
  assert (R1 : same_rest k k1) by (by apply same_rest_upd).
  assert (R2 : same_rest k k2) by by etrans.
  assert (Hi2 : inv k2).
  { split.
    - split; [|by rewrite (sr_intr _ _ R2)]. rewrite (sq_cur _ _ (sr_queues _ _ R2)).
      by apply (queues_same k); [apply R2|].
    - apply (linv_same k); [|done]. destruct R2 as [_ ? ? ? ? ? _]. split; try done.
      + intros t. rewrite W. by apply wo_keep.
      + intros h d. by rewrite D, Hd. }
  destruct (front_exceeds k2 _); [|by exists k2].
  destruct (thread_yield_ok k2 (proj1 Hi2)) as (k3 & -> & Hs3 & Hl3). exists k3. split; [done|].
  by apply (inv_same_locks k2).
Qed.

(** A new thread [t] is ready. *)
Section new_thread.
Context (k k' : kernel) (t : Z) (Ht : threads k !! t = None).
Context (Hst : ∀ u, st k' u = if decide (u = t) then Some THREAD_READY else st k u).
Context (Hfr : ∀ u, fr k' u = if decide (u = t) then Some [] else fr k u).

Lemma new_thread_queues run :
  queues k run → ready_list k' ≡ₚ t :: ready_list k → semas k' = semas k →
  sleeping_list k' = sleeping_list k → cur k' = cur k → idle_thread k' = idle_thread k →
  initial_thread k' = initial_thread k → queues k' run.
Proof.
  intros Hq Hr Hse Hsl Hc Hid Hin.
  assert (Hn : st k t = None ∧ fr k t = None) by (unfold st, fr; by rewrite Ht).
  destruct Hn as [Hn Hnf]. assert (Hti : t ≠ idle_thread k).
  { intros ->. rewrite (q_idle k _ Hq) in Hnf. done. }
  split.
  - intros u. rewrite Hst. destruct (decide (u = t)) as [->|]; [|apply Hq]. split; [done|].
    intros Hu. apply (q_run k _ Hq) in Hu. congruence.
  - rewrite Hr. constructor; [|apply Hq]. rewrite (q_ready k _ Hq). intros [? _]. congruence.
  - intros u. rewrite Hr, elem_of_cons, (q_ready k _ Hq), Hst, Hid.
    destruct (decide (u = t)) as [->|]; naive_solver.
  - rewrite Hse. apply Hq.
  - rewrite Hse. intros s x u Hx Hu. destruct (q_wait k _ Hq s x u Hx Hu) as [Hb Hd].
    assert (u ≠ t) by congruence. rewrite Hst, decide_False by done. split; [done|].
    unfold downs. by rewrite Hfr, decide_False.
  - rewrite Hsl. apply Hq.
  - rewrite Hsl. intros u Hu. destruct (q_sleep k _ Hq u Hu) as [Hb Ha].
    assert (u ≠ t) by congruence. rewrite Hst, decide_False by done. split; [done|].
    unfold asleep. by rewrite Hfr, decide_False.
  - intros u. rewrite Hst, Hid, Hsl, Hse. destruct (decide (u = t)); [done|]. apply Hq.
  - intros u. rewrite Hst, Hid, Hin, Hc. destruct (decide (u = t)); [done|]. apply Hq.
  - by rewrite Hid, Hfr, decide_False; [apply Hq|].
Qed.

Lemma new_thread_linv :
  linv k → (∀ u, wo k' u = if decide (u = t) then Some None else wo k u) →
  (∀ u, dn k' u = if decide (u = t) then Some [] else dn k u) →
  semas k' = semas k → holders k' = holders k → conds k' = conds k →
  thread_mlfqs k' = thread_mlfqs k → linv k'.
Proof.
  intros Hi Hwo Hdn Hse Hh Hc Hm.
  assert (Hnf : fr k t = None) by (unfold fr; by rewrite Ht).
  assert (Hv : ∀ s, vl k' s = vl k s) by (intros s; unfold vl; by rewrite Hse).
  assert (Hph : ∀ l u, phase k' l u ↔ phase k l u).
  { intros l u. unfold phase. rewrite Hfr. destruct (decide (u = t)) as [->|]; [|done].
    rewrite Hnf. naive_solver. }
  split.
  - intros l. rewrite Hh. intros Hl. destruct (l_lock k Hi l Hl) as [E D]. unfold lock_ok, own in *.
    rewrite Hh, Hv. setoid_rewrite Hph. split; [done|].
    destruct D as [D|(Hv0 & u & Hu & Hown)]; [by left|right]. split; [done|]. exists u. split; [|done].
    rewrite Hfr. by destruct (decide (u = t)).
  - intros u fs. rewrite Hfr. destruct (decide (u = t)); [by intros [= <-]|]. intros Hf.
    rewrite (held_eq k k') by done. apply (typed_holders k).
    + intros l. by rewrite Hh.
    + intros s. by rewrite Hv.
    + intros c. by rewrite Hc.
    + by apply (l_typed k Hi).
  - intros u fs. rewrite Hfr. destruct (decide (u = t)); [by intros [= <-]; constructor|].
    apply (l_tail k Hi).
  - intros h d [ds [Hd Hin]]. rewrite Hdn in Hd. destruct (decide (h = t)).
    { injection Hd as <-. by apply not_elem_of_nil in Hin. }
    destruct (l_donor k Hi h d) as (? & l & Hw & Hl); [by exists ds|]. rewrite Hm, Hh. split; [done|].
    exists l. split; [|done]. rewrite Hwo, decide_False; [done|]. intros ->.
    unfold wo in Hw. by rewrite Ht in Hw.
  - intros u l. rewrite Hwo, Hfr. destruct (decide (u = t)); [done|]. apply (l_waiting k Hi).
  - intros c ws w. rewrite Hc, Hv, Hh. apply (l_conds k Hi).
Qed.
End new_thread.

(** [init_thread] adds a blocked thread. *)
Lemma init_thread_ok k t p :
  t ≠ 0 → PRI_MIN ≤ p ≤ PRI_MAX → is_Some (threads k !! cur k) →
  ∃ th, init_thread k t p = Ok (set_all (set_threads k (<[t := th]> (threads k))) (all_list k ++ [t]))
    ∧ status th = THREAD_BLOCKED ∧ frames th = [] ∧ waiting_on th = None ∧ donors th = [].
Proof.
  intros Ht Hp [c Hc]. unfold init_thread.
  rewrite (proj2 (Z.eqb_neq t 0)) by done. cbn [negb].
  rewrite (proj2 (Z.leb_le PRI_MIN p)), (proj2 (Z.leb_le p PRI_MAX)) by apply Hp. cbn [andb]. cbv zeta.
  destruct (thread_mlfqs k); [|by eexists].
  destruct (t =? idle_thread k); [by eexists|]. destruct (t =? initial_thread k); [by eexists|].
  unfold get. rewrite Hc. by eexists.
Qed.

Lemma act_create k page p :
  inv k → at_rest k → threads k !! page = None → PRI_MIN ≤ p ≤ PRI_MAX →
  ∃ id k' y, thread_create k page p = Ok (id, k', y) ∧ inv k' ∧ at_rest k'.
Proof.
  intros Hinv Hrest Hpage Hp. pose proof Hinv as [[Hq Hin] Hi]. unfold thread_create.
  destruct (Z.eqb_spec page 0) as [E0|E0]; [by eexists _, _, _|].
  destruct (init_thread_ok k page p E0 Hp (cur_exists k Hq)) as (th & -> & Hb & Hf & Hw & Hd).
  cbn [mbind res_bind]. unfold allocate_tid. cbv zeta.
  set (k1 := set_next_tid _ _). set (f := λ th, Thr (next_tid _) _ _ _ _ _ _ _ _ _ _).
  set (k2 := upd k1 page f). pose proof (queues_cur k Hq) as Hrun.
  assert (Hne : cur k ≠ page) by (intros E; unfold st in Hrun; by rewrite E, Hpage in Hrun).
  assert (H2 : ∀ u, threads k2 !! u = if decide (u = page) then Some (f th) else threads k !! u).
  { intros u. unfold k2, upd. simpl. destruct (decide (u = page)) as [->|].
    - by rewrite lookup_alter_eq, lookup_insert_eq.
    - by rewrite lookup_alter_ne, lookup_insert_ne. }
  destruct (thread_unblock_ok k2 page) as (k3 & y & -> & Hk3).
  { unfold st. rewrite H2, decide_False by done. exact Hrun. }
  { unfold st. rewrite H2, decide_True by done. simpl. by rewrite Hb. }
  cbn [mbind res_bind].
  assert (H3 : ∀ u, threads k3 !! u =
    if decide (u = page) then Some (with_status (f th) THREAD_READY) else threads k !! u).
  { assert (E3 : threads k3 = alter (λ th, with_status th THREAD_READY) page (threads k2))
      by (by rewrite Hk3).
    intros u. rewrite E3. destruct (decide (u = page)) as [->|Hu].
    - by rewrite lookup_alter_eq, H2, decide_True.
    - by rewrite lookup_alter_ne, H2, decide_False. }
  assert (Hinv3 : inv k3).
  { split; [split|].
    - apply (new_thread_queues k k3 page Hpage); try (by rewrite Hk3).
      + intros u. unfold st. rewrite H3. by destruct (decide (u = page)).
      + intros u. unfold fr. rewrite H3. destruct (decide (u = page)); simpl; by rewrite ?Hf.
      + rewrite Hk3. apply insert_ordered_perm.
    - rewrite Hk3. exact Hin.
    - apply (new_thread_linv k k3 page Hpage); try done; try (by rewrite Hk3); intros u;
        unfold fr, wo, dn; rewrite H3; destruct (decide (u = page)); simpl; by rewrite ?Hf, ?Hw, ?Hd. }
  destruct (thread_current_ok k3) as (c & Hcur & _); [apply queues_cur, Hinv3|].
  rewrite Hcur. cbn [mbind res_bind]. eexists _, k3, _. split; [done|]. split; [done|].
  destruct Hrest as [Hr1 Hr2]. assert (Ec : cur k3 = cur k) by (by rewrite Hk3). split.
  - unfold fr. rewrite Ec, H3, decide_False by done. exact Hr1.
  - rewrite Hk3. exact Hr2.
Qed.

(** ** New objects *)

Lemma linv_new_sema k s v : linv k → semas k !! s = None → linv (sema_init k s v).
Proof.
  intros Hi Hs. pose proof (fresh_not_lock k s Hi Hs) as Hl.
  assert (Hv : ∀ m, is_Some (vl k m) → vl (sema_init k s v) m = vl k m).
  { intros m [z Hm]. etrans; [apply vl_put_sema|]. rewrite decide_False; [done|]. intros ->.
    unfold vl in Hm. by rewrite Hs in Hm. }
  destruct Hi as [H1 H2 H3 H4 H5 H6]. split; try done.
  - intros l Hll. destruct (H1 l Hll) as [E D]. split; [done|]. rewrite Hv; [done|].
    destruct D as [[-> _]|[-> _]]; done.
  - intros t fs Hf. apply (typed_holders k); [done| |done|by apply H2]. intros m Hm. by rewrite Hv.
  - intros c ws w Hc Hw. destruct (H6 c ws w Hc Hw) as [Hs' Hn]. split; [by rewrite Hv|done].
Qed.

Lemma linv_new_lock k l : linv k → semas k !! l = None → linv (lock_init k l).
Proof.
  intros Hi Hs. pose proof (fresh_not_lock k l Hi Hs) as Hl. pose proof (linv_new_sema k l 1 Hi Hs) as Hi1.
  unfold lock_init. change (linv (put_holder (sema_init k l 1) l None)).
  set (k1 := sema_init k l 1) in *. change (holders k) with (holders k1) in Hl.
  assert (Hv : vl k1 l = Some 1) by (etrans; [apply vl_put_sema|]; by rewrite decide_True).
  assert (Hfree : ∀ t fs, fr k t = Some fs → phase_of fs ≠ Some l).
  { intros t fs Hf Hp. pose proof (l_typed k Hi t fs Hf) as Hty. destruct fs as [|f fs]; [done|].
    destruct f; try done; injection Hp as ->; destruct Hty as [[y Hx] _];
      change (holders k1 !! l = Some y) in Hx; congruence. }
  split; try apply Hi1; simpl.
  - intros m Hm. destruct (decide (m = l)) as [->|Hne].
    + split; [by intros u (fs & Hf & Hp); destruct (Hfree u fs Hf)|]. left. split; [done|].
      intros u [Hu|(fs & Hf & Hp)]; [simpl in Hu; by rewrite lookup_insert_eq in Hu|by apply (Hfree u fs)].
    + rewrite lookup_insert_ne in Hm by done. pose proof (l_lock k1 Hi1 m Hm) as Hok.
      unfold lock_ok, own in *. simpl. by rewrite lookup_insert_ne.
  - intros t fs Hf. pose proof (l_typed k Hi t fs Hf) as Hty.
    replace (held (put_holder k1 l None) t) with (held k t).
    + apply (typed_mono k); [| | |done|done].
      * intros m Hm Hv'. simpl. rewrite lookup_insert_ne; [done|]. intros ->.
        unfold vl in Hv'. rewrite Hs in Hv'. by destruct Hv'.
      * intros m Hm. simpl. destruct (decide (m = l)) as [->|];
          [by rewrite lookup_insert_eq|by rewrite lookup_insert_ne].
      * intros s Hs'. change (is_Some (vl k1 s)). destruct (decide (s = l)) as [->|]; [by rewrite Hv|].
        unfold k1, sema_init. by rewrite vl_put_sema, decide_False.
    + apply set_eq. intros m. rewrite !elem_of_held. simpl.
      destruct (decide (m = l)) as [->|]; [|by rewrite lookup_insert_ne].
      rewrite lookup_insert_eq. change (holders k) with (holders k1). by rewrite Hl.
  - intros h d Hd. destruct (l_donor k Hi h d Hd) as (Hm & m & Hw & Hh). split; [done|]. exists m.
    split; [done|]. rewrite lookup_insert_ne; [done|]. intros <-. simpl in Hl. congruence.
  - intros c ws w Hc Hw. destruct (l_conds k1 Hi1 c ws w Hc Hw) as [Hx Hn]. split; [done|].
    rewrite lookup_insert_ne; [done|]. intros <-. destruct (l_conds k Hi c ws l Hc Hw) as [Hy _].
    unfold vl in Hy. rewrite Hs in Hy. by destruct Hy.
Qed.

(** ** Safety *)

Lemma act_inv stray k a : inv k → enabled k a → ∃ k', act stray a k = Ok k' ∧ inv k'.
Proof.
  intros Hinv He. pose proof Hinv as [Hs Hi]. destruct a as [w|fs| | |n|page p|p|n|s v|l|c]; simpl in *.
  - by apply act_run.
  - destruct He as ([Hf Hni] & Hty & Htl). eexists. split; [done|].
    split; [by apply sinv_set_frames|].
    apply (linv_set_frames k []); try done; [by apply not_started_heads|by apply tail_not_started].
  - destruct (timer_tick_ok k Hs) as (k' & -> & Hs' & Hl). exists k'. split; [done|].
    by apply (inv_same_locks k).
  - destruct (idle_block_ok k Hs He) as (k' & -> & Hs' & Hl). exists k'. split; [done|].
    by apply (inv_same_locks k).
  - by apply act_sleep.
  - destruct He as (Hrest & Hpage & Hp).
    destruct (act_create k page p Hinv Hrest Hpage Hp) as (id & k' & y & -> & Hinv' & [Hf' Hni']).
    cbn [mbind res_bind]. eexists. split; [done|]. destruct y; [|done].
    split; [apply sinv_set_frames; [apply Hinv'|done]|].
    by apply (linv_set_frames k' []).
  - by apply act_set_priority.
  - by apply act_set_nice.
  - eexists. split; [done|]. split; [|by apply linv_new_sema].
    split; [apply queues_new_sema; [apply Hs|done]|apply Hs].
  - eexists. split; [done|]. split; [|by apply linv_new_lock].
    split; [|apply Hs]. apply (queues_new_sema (put_holder k l None)); [|done].
    apply (queues_same k); [done|apply Hs].
  - eexists. split; [done|]. split; [split; [apply (queues_same k); [done|apply Hs]|apply Hs]|].
    apply linv_set_conds; [done|]. intros w Hw. by apply not_elem_of_nil in Hw.
Qed.

(** The state after the start, written out. *)
Definition booted (mlfqs : bool) : kernel :=
  Kernel
    {[ main_page := Thr 1 THREAD_RUNNING (if mlfqs then PRI_MAX else PRI_DEFAULT) PRI_DEFAULT
         [] None 0 0 0 false [];
       idle_page := Thr 2 THREAD_READY PRI_MIN PRI_MIN [] None 0 0 0 false [] ]}
    [] [main_page; idle_page] [] {[ main_page + 4080 := Sema 0 [] ]} ∅ ∅
    main_page idle_page main_page 3 0 0 0 0 mlfqs 0 0 INT64_MAX false false.

Lemma boot_booted mlfqs : boot mlfqs = Ok (booted mlfqs).
Proof. destruct mlfqs; vm_compute; reflexivity. Qed.

Lemma booted_thread mlfqs t th :
  threads (booted mlfqs) !! t = Some th →
  (t = main_page ∧ status th = THREAD_RUNNING ∨ t = idle_page ∧ status th = THREAD_READY)
  ∧ frames th = [] ∧ waiting_on th = None ∧ donors th = [].
Proof.
  simpl. intros [[<- <-]|[_ [<- <-]%lookup_singleton_Some]]%lookup_insert_Some; simpl; split; auto.
Qed.

Lemma booted_inv mlfqs : inv (booted mlfqs).
Proof.
  set (k := booted mlfqs).
  assert (Hst : ∀ t s, st k t = Some s → t = main_page ∧ s = THREAD_RUNNING ∨ t = idle_page ∧ s = THREAD_READY).
  { intros t s. unfold st. destruct (threads k !! t) as [th|] eqn:E; [|done]. intros [= <-].
    by apply booted_thread in E as [? _]. }
  assert (Hv : ∀ t fs, fr k t = Some fs → fs = []).
  { intros t fs. unfold fr. destruct (threads k !! t) as [th|] eqn:E; [|done]. intros [= <-].
    by apply booted_thread in E as (_ & ? & _). }
  split; [split; [split|done]|split].
  - intros t. split.
    + intros [[-> _]|[_ ?]]%Hst; done.
    + intros [= <-]. reflexivity.
  - constructor.
  - intros t. split; [by intros ?%not_elem_of_nil|]. intros [[[_ ?]|[-> _]]%Hst ?]; done.
  - intros s x Hx. unfold k in Hx. simpl in Hx. apply lookup_singleton_Some in Hx as [_ <-]. constructor.
  - intros s x t Hx Ht. unfold k in Hx. simpl in Hx. apply lookup_singleton_Some in Hx as [_ <-].
    by apply not_elem_of_nil in Ht.
  - constructor.
  - by intros t ?%not_elem_of_nil.
  - by intros t [[_ ?]|[_ ?]]%Hst.
  - by intros t [[_ ?]|[_ ?]]%Hst.
  - reflexivity.
  - by intros l [h Hl].
  - by intros t fs ->%Hv.
  - intros t fs ->%Hv. constructor.
  - intros h d (ds & Hd & Hin). unfold dn in Hd. destruct (threads k !! h) as [th|] eqn:E; [|done].
    apply booted_thread in E as (_ & _ & _ & E). injection Hd as <-. rewrite E in Hin.
    by apply not_elem_of_nil in Hin.
  - intros t l Hw. apply wo_exists in Hw as (th & E & Hw).
    apply booted_thread in E as (_ & _ & E & _). congruence.
  - done.
Qed.

Lemma reachable_inv stray mlfqs k : reachable stray mlfqs k → inv k.
Proof.
  induction 1 as [k Hb|k a k' _ IH He Ha].
  - rewrite boot_booted in Hb. injection Hb as <-. apply booted_inv.
  - destruct (act_inv stray k a IH He) as (k2 & Ha2 & Hi2). rewrite Ha in Ha2. by injection Ha2 as ->.
Qed.

Lemma exec_reachable stray mlfqs acts k k' :
  reachable stray mlfqs k → exec stray acts k = Some k' → reachable stray mlfqs k'.
Proof.
  revert k. induction acts as [|a acts IH]; intros k Hr; simpl; [by intros [= <-]|].
  destruct (decide (enabled k a)) as [He|]; [|done]. destruct (act stray a k) as [k1| |] eqn:Ha; [|done..].
  apply IH. by eapply reach_act.
Qed.
Lemma reachable_booted stray mlfqs : reachable stray mlfqs (booted mlfqs).
Proof. apply reach_boot, boot_booted. Qed.

(** ** Properties *)


(** C2: mutual exclusion.  In every reachable state a lock has at most one owner,
    a thread that [holder] names or that is about to store or has just cleared it;
    the semaphore of the lock is down exactly while there is an owner. *)
Theorem lock_mutual_exclusion stray mlfqs k l :
  reachable stray mlfqs k → is_Some (holders k !! l) →
  vl k l = Some 1 ∧ (∀ t, ¬ own k l t)
  ∨ vl k l = Some 0 ∧ ∃ t, is_Some (fr k t) ∧ ∀ u, own k l u ↔ u = t.
Proof. intros Hr Hl. by apply (l_lock k (proj2 (reachable_inv _ _ _ Hr)) l). Qed.

(** C3: no thread is lost.  In every reachable state exactly the current thread is
    running; a ready thread is in the ready list once, the idle thread apart; a
    blocked thread is the idle thread, is in the list of sleepers, or waits in the
    list of the one semaphore that it is downing. *)
Theorem no_thread_lost stray mlfqs k t s :
  reachable stray mlfqs k → st k t = Some s →
  match s with
  | THREAD_RUNNING => t = cur k
  | THREAD_READY => t ≠ idle_thread k → ∃ l1 l2, ready_list k = l1 ++ t :: l2 ∧ t ∉ l1 ∧ t ∉ l2
  | THREAD_BLOCKED =>
      t = idle_thread k ∨ t ∈ sleeping_list k ∧ asleep k t
      ∨ ∃ s x, semas k !! s = Some x ∧ t ∈ waiters x ∧ downs k s t
  | THREAD_DYING => t = initial_thread k
  end.
Proof.
  intros [[Hq _] _]%reachable_inv Hs. destruct s.
  - apply (q_run k _ Hq) in Hs. by injection Hs.
  - intros Hi. assert (Hin : t ∈ ready_list k) by (by apply (q_ready k _ Hq)).
    apply list_elem_of_split in Hin as (l1 & l2 & E). exists l1, l2. split; [done|].
    pose proof (q_ready_nodup k _ Hq) as Hn. rewrite E in Hn. apply NoDup_middle in Hn. naive_solver.
  - destruct (q_blocked k _ Hq t Hs) as [?|[Hsl|(s & x & Hx & Hin)]]; [by left|right; left|right; right].
    + split; [done|]. by apply (q_sleep k _ Hq).
    + exists s, x. destruct (q_wait k _ Hq s x t Hx Hin). done.
  - destruct (q_dying k _ Hq t Hs) as [_ [?|[? _]]]; done.
Qed.

(** ** Traces *)

(** Two threads and the initial one around a condition variable: the second waiter
    is preempted between [lock_release] and [sema_down]. *)
Definition race_trace : list action :=
  let r := ARun 5000 in
  [ALockInit 100; ACondInit 200; ACreate 8192 40; r;
   ACall [FLockAcquire 100; FCondWait 200 100]; r; r; r; ARun 5001; r; r; r;
   ACreate 12288 31; ACall [FYield]; r;
   ACall [FLockAcquire 100; FCondWait 200 100]; r; r; r; ARun 5002; r; r;
   ATick; ATick; ATick; ATick;
   ACall [FLockAcquire 100; FCondSignal 200 100]; r; r; r].

(** C38: [cond_signal] may fail an assertion although every thread keeps to the
    rules: a state is reachable in which the running thread holds the lock and
    signals, and the comparison of the waiters takes the front of an empty list. *)
Theorem cond_signal_race :
  ∃ k, reachable (λ _, 0) false k ∧ fr k (cur k) = Some [FCondSignal 200 100]
    ∧ holders k !! 100 = Some (Some (cur k)) ∧ run_frame (λ _, 0) 5000 k = Panic.
Proof.
  destruct (exec (λ _, 0) race_trace (booted false)) as [k|] eqn:E; [|by vm_compute in E].
  exists k. split; [eapply exec_reachable; [apply reachable_booted|exact E]|].
  vm_compute in E. injection E as <-. split_and!; vm_compute; reflexivity.
Qed.

(** The holder of a lock is in the ready list, behind a thread of higher priority,
    when the initial thread donates to it. *)
Definition donate_trace : list action :=
  let r := ARun 5000 in
  [ALockInit 100; ACreate 8192 32; r; ACall [FLockAcquire 100]; r; r; r; ASetPriority 10;
   ACreate 12288 20; ACall [FLockAcquire 100]; r].

(** donation to a ready thread does not move it in the ready list: a state is
    reachable in which the running thread blocks on a lock and the scheduler
    passes over the holder, which has the donated priority, for a thread of lower
    priority. *)
Theorem donation_leaves_ready_order :
  ∃ k k' t, reachable (λ _, 0) false k ∧ run_frame (λ _, 0) 5000 k = Ok k' ∧ cur k' ≠ cur k
    ∧ holders k' !! 100 = Some (Some t) ∧ t ∈ ready_list k' ∧ prio k' (cur k') < prio k' t.
Proof.
  destruct (exec (λ _, 0) donate_trace (booted false)) as [k|] eqn:E; [|by vm_compute in E].
  destruct (run_frame (λ _, 0) 5000 k) as [k'| |] eqn:E'.
  - exists k, k', 8192. split; [eapply exec_reachable; [apply reachable_booted|exact E]|].
    vm_compute in E. injection E as <-. vm_compute in E'. injection E' as <-.
    split_and!; [done|vm_compute; congruence|reflexivity|by left|reflexivity].
  - exfalso. vm_compute in E. injection E as <-. by vm_compute in E'.
  - exfalso. vm_compute in E. injection E as <-. by vm_compute in E'.
Qed.

(** The initial thread holds three locks, each with a donor, and releases one. *)
Definition donors_trace : list action :=
  let r := ARun 5000 in
  [ALockInit 100; ALockInit 101; ALockInit 102;
   ACall [FLockAcquire 100; FLockAcquire 101; FLockAcquire 102]; r; r; r; r; r; r; r; r; r;
   ACreate 8192 40; r; ACall [FLockAcquire 100]; r; r;
   ACreate 12288 50; r; ACall [FLockAcquire 101]; r; r;
   ACreate 16384 60; r; ACall [FLockAcquire 102]; r; r;
   ACall [FLockRelease 102]; r].

(** [update_priority] may miss the highest donor, because the donors are
    sorted by what lies before each thread in memory: for some contents of that
    memory a state is reachable in which a donor still waits for a lock that the
    running thread holds and has a higher priority than it. *)
Theorem donor_order_misses_highest :
  ∃ stray k d, reachable stray false k ∧ donor k (cur k) d ∧ prio k (cur k) < prio k d.
Proof.
  set (stray := λ t : Z, if t =? 8192 then 1 else 0). exists stray.
  destruct (exec stray donors_trace (booted false)) as [k|] eqn:E; [|by vm_compute in E].
  exists k, 12288. split; [eapply exec_reachable; [apply reachable_booted|exact E]|].
  vm_compute in E. injection E as <-. split; [|reflexivity].
  eexists. split; [reflexivity|]. by right; left.
Qed.

(** ** Witnesses *)

Definition demo_acts : list action :=
  [ALockInit 100; ACreate 8192 40; ARun 5000; ACall [FLockAcquire 100]; ARun 5000; ARun 5000].


Lemma lock_mutual_exclusion_witness :
  ∃ k, exec (λ _, 0) demo_acts (booted false) = Some k ∧
    (vl k 100 = Some 1 ∧ (∀ t, ¬ own k 100 t)
     ∨ vl k 100 = Some 0 ∧ ∃ t, is_Some (fr k t) ∧ ∀ u, own k 100 u ↔ u = t).
Proof.
  destruct (exec (λ _, 0) demo_acts (booted false)) as [k|] eqn:E; [|exfalso; vm_compute in E; discriminate].
  exists k. split; [done|]. apply (lock_mutual_exclusion (λ _, 0) false k 100).
  - exact (exec_reachable _ _ _ _ _ (reachable_booted _ _) E).
  - vm_compute in E. injection E as <-. eexists. reflexivity.
Defined.

Lemma no_thread_lost_witness :
  ∃ k, exec (λ _, 0) demo_acts (booted false) = Some k ∧
    (main_page ≠ idle_thread k → ∃ l1 l2, ready_list k = l1 ++ main_page :: l2
      ∧ main_page ∉ l1 ∧ main_page ∉ l2).
Proof.
  destruct (exec (λ _, 0) demo_acts (booted false)) as [k|] eqn:E; [|exfalso; vm_compute in E; discriminate].
  exists k. split; [done|]. apply (no_thread_lost (λ _, 0) false k main_page THREAD_READY).
  - exact (exec_reachable _ _ _ _ _ (reachable_booted _ _) E).
  - vm_compute in E. injection E as <-. reflexivity.
Defined.

End Reach.
