(* ===== verification/Priority.v ===== *)
(** * Priorities and time

    The ready list is sorted, and a thread that yields gives the processor to a
    thread of the highest priority; donation reaches every thread along a chain of
    locks; the 4.4BSD scheduler keeps priorities in range; sleepers wake on time. *)

From S2P Require Import Prelude ListSeq Arith64 Thread Synch Timer Sched Locks Reach.

Module Priority.
Import Fixed Thread Synch Timer Sched Locks Reach.

(** ** The ready list *)

Definition ready_sorted (k : kernel) : Prop := sorted (thread_priority_comparison k) (ready_list k).

Lemma sorted_prio k k' l :
  (∀ u, prio k' u = prio k u) → sorted (thread_priority_comparison k) l →
  sorted (thread_priority_comparison k') l.
Proof.
  intros Hp Hs. induction Hs as [|x l Hs IH Hf]; constructor; [done|].
  eapply Forall_impl; [exact Hf|]. intros y. unfold le_of, thread_priority_comparison. by rewrite !Hp.
Qed.

Lemma prio_switched k k' :
  switched k k' → (∀ t, st k t ≠ Some THREAD_DYING ∨ t = initial_thread k) →
  ∀ u, prio k' u = prio k u.
Proof.
  intros Hsw Hd u. unfold prio. rewrite (sw_threads k k' Hsw). rewrite decide_False by naive_solver.
  destruct (decide (u = cur k')); [|done]. by destruct (threads k !! u).
Qed.

(** The head of the ready list runs next. *)
Lemma switched_highest k k' :
  queues k None → switched k k' → (∀ u, prio k' u = prio k u) → ready_sorted k →
  ready_sorted k' ∧ (∀ t, t ∈ ready_list k → prio k t ≤ prio k' (cur k')).
Proof.
  intros Hq Hsw Hp Hs. unfold ready_sorted in *. rewrite (sw_ready k k' Hsw).
  destruct (sw_next k k' Hq Hsw) as [(_ & _ & E)|(_ & E & _)]; rewrite E in *; simpl.
  - split.
    + apply (sorted_prio k); [done|]. by apply sorted_cons_inv in Hs as [? _].
    + intros t Ht. pose proof (sorted_head_le _ _ _ _ Hs Ht) as Hle.
      unfold le_of, thread_priority_comparison in Hle. rewrite Hp. lia.
  - split; [constructor|]. by intros t ?%not_elem_of_nil.
Qed.

(** C32: [thread_yield] schedules by priority: if the ready list is sorted, it stays
    sorted, and the thread that runs after the call has a priority at least that of
    every ready thread and of the thread that yielded. *)
Theorem thread_yield_highest k :
  sinv k → ready_sorted k →
  ∃ k', thread_yield k = Ok k' ∧ ready_sorted k'
    ∧ (∀ t, t ∈ ready_list k' → prio k' t ≤ prio k' (cur k'))
    ∧ (cur k ≠ idle_thread k → prio k (cur k) ≤ prio k' (cur k')).
Proof.
  intros Hs Hsort. pose proof Hs as [Hq Hin].
  destruct (thread_yield_switched k Hs) as (k' & Hk & Hsw). exists k'. split; [done|].
  destruct (yielding_views k Hq) as (Hst & _ & Hp & _).
  assert (Hp' : ∀ u, prio k' u = prio (yielding k) u).
  { apply prio_switched; [done|]. apply (no_dying k _ THREAD_READY); try done.
    unfold yielding. by destruct (negb _). }
  assert (Hsy : ready_sorted (yielding k)).
  { apply (sorted_prio k); [done|]. unfold yielding. destruct (negb _); [|done].
    apply insert_ordered_sorted; [apply _|done]. }
  destruct (switched_highest _ k' (yielding_queues k Hq) Hsw Hp' Hsy) as [Hs' Hmax].
  split; [done|]. split.
  - intros t Ht. rewrite Hp'. apply Hmax.
    destruct (sw_next _ k' (yielding_queues k Hq) Hsw) as [(_ & _ & E)|(_ & _ & E)].
    + rewrite E. by right.
    + rewrite E in Ht. by apply not_elem_of_nil in Ht.
  - intros Hni. rewrite <- Hp. apply Hmax. unfold yielding.
    rewrite (proj2 (Z.eqb_neq _ _)) by done. simpl. apply elem_of_insert_ordered. by left.
Qed.

(** ** Nested donation *)

(** [t] waits for a lock that [h] holds. *)
Definition edge (k : kernel) (t h : Z) : Prop :=
  ∃ l, wo k t = Some (Some l) ∧ holders k !! l = Some (Some h).

(** Nobody waits for a thread of lower priority. *)
Definition nested (k : kernel) : Prop := ∀ t h, edge k t h → prio k t ≤ prio k h.

(** From lock [l] on, the chain of holders and of the locks that they wait for ends
    after at most [n] locks. *)
Fixpoint chain (n : nat) (k : kernel) (l : Z) : bool :=
  match n with
  | O => false
  | S n =>
      match holders k !! l with
      | Some (Some h) => match wo k h with Some (Some l') => chain n k l' | _ => true end
      | _ => true
      end
  end.

Lemma prio_upd k t p u :
  is_Some (threads k !! t) →
  prio (upd k t (λ th, with_priority th p)) u = if decide (u = t) then p else prio k u.
Proof.
  intros [th Hth]. unfold prio, upd. simpl. destruct (decide (u = t)) as [->|].
  - by rewrite lookup_alter_eq, Hth.
  - by rewrite lookup_alter_ne.
Qed.
Lemma prio_keep k t f u : (∀ th, priority (f th) = priority th) → prio (upd k t f) u = prio k u.
Proof.
  intros Hf. unfold prio, upd. simpl. destruct (decide (u = t)) as [->|].
  - rewrite lookup_alter_eq. destruct (threads k !! t); simpl; [by rewrite Hf|done].
  - by rewrite lookup_alter_ne.
Qed.

(** The loop of [donate_priority]: before each turn only the threads that wait for
    the lock of this turn may have a higher priority than its holder.  [c] is the
    donating thread, whose [waiting_on] is new. *)
Lemma donate_loop_nested n k0 k k' p l c :
  donate_loop n k p (Some l) = Ok k' → chain n k0 l = true →
  holders k = holders k0 → (∀ u, u ≠ c → wo k u = wo k0 u) → p ≤ prio k c →
  (∀ t h, edge k t h → prio k t ≤ prio k h ∨ wo k t = Some (Some l) ∧ prio k t ≤ p) →
  nested k' ∧ ∀ u, prio k u ≤ prio k' u.
Proof.
  revert k l. induction n as [|n IH]; intros k l Hl Hch Hh Hwo Hc Hedge; [done|].
  cbn [donate_loop] in Hl. cbn [chain] in Hch. unfold get_holder in Hl. rewrite Hh in Hl.
  destruct (holders k0 !! l) as [[h|]|] eqn:Elh; simpl in Hl; [| |done].
  2:{ injection Hl as <-. split; [|done]. intros t h' He.
      destruct (Hedge t h' He) as [?|[Hw _]]; [done|]. destruct He as (l2 & Hw2 & Hl2).
      rewrite Hw in Hw2. injection Hw2 as <-. congruence. }
  unfold get in Hl. destruct (threads k !! h) as [ht|] eqn:Eht; simpl in Hl; [|done].
  assert (Eph : prio k h = priority ht) by (unfold prio; by rewrite Eht).
  destruct (Z.ltb_spec (priority ht) p) as [Hlt|Hge].
  - assert (Hhc : h ≠ c) by (intros ->; lia).
    set (k1 := upd k h (λ th, with_priority th p)) in *.
    assert (P1 : ∀ u, prio k1 u = if decide (u = h) then p else prio k u).
    { intros u. apply prio_upd. by exists ht. }
    assert (Hmono : ∀ u, prio k u ≤ prio k1 u) by (intros u; rewrite P1; destruct (decide _); subst; lia).
    assert (W1 : ∀ u, wo k1 u = wo k u) by (intros u; by apply wo_keep).
    assert (Hedge1 : ∀ t u, edge k1 t u → prio k1 t ≤ prio k1 u ∨ t = h ∧ prio k1 t ≤ p).
    { intros t u (l2 & Hw2 & Hl2). rewrite W1 in Hw2. change (holders k1) with (holders k) in Hl2.
      destruct (decide (t = h)) as [->|Ht]; [right; rewrite P1, decide_True by done; lia|left].
      rewrite (P1 t), decide_False by done.
      destruct (Hedge t u) as [Ho|[Hw Ho]]; [by exists l2|pose proof (Hmono u); lia|].
      rewrite Hw in Hw2. injection Hw2 as <-. rewrite Hh, Elh in Hl2. injection Hl2 as <-.
      rewrite P1, decide_True by done. done. }
    rewrite <- (Hwo h Hhc) in Hch. unfold wo in Hch. rewrite Eht in Hch. simpl in Hch.
    destruct (waiting_on ht) as [l'|] eqn:Ew.
    + destruct (IH k1 l' Hl Hch) as [Hn Hm]; [done|intros u Hu; by rewrite W1, Hwo|..].
      * rewrite P1, decide_False by done. done.
      * intros t u He. destruct (Hedge1 t u He) as [?|[-> ?]]; [by left|right]. split; [|done].
        rewrite W1. unfold wo. by rewrite Eht; simpl; rewrite Ew.
      * split; [done|]. intros u. transitivity (prio k1 u); auto.
    + injection Hl as <-. split; [|done]. intros t u He. destruct (Hedge1 t u He) as [?|[-> _]]; [done|].
      destruct He as (l2 & Hw2 & _). rewrite W1 in Hw2. unfold wo in Hw2. rewrite Eht in Hw2.
      simpl in Hw2. congruence.
  - injection Hl as <-. split; [|done]. intros t u He. destruct (Hedge t u He) as [?|[Hw Hp]]; [done|].
    destruct He as (l2 & Hw2 & Hl2). rewrite Hw in Hw2. injection Hw2 as <-.
    rewrite Hh, Elh in Hl2. injection Hl2 as <-. lia.
Qed.


(** ** The 4.4BSD scheduler *)

Lemma mlfqs_priority_range idle t th : PRI_MIN ≤ mlfqs_priority_of idle t th ≤ PRI_MAX.
Proof. unfold mlfqs_priority_of, PRI_MIN, PRI_MAX. repeat case_match; lia. Qed.

(** The priority that the formula gives depends on neither the old priority nor
    the other threads. *)
Definition recomputed (idle t : Z) (th : thread) : thread :=
  with_priority th (mlfqs_priority_of idle t th).

Definition recompute_one (k : kernel) (t : Z) : kernel :=
  if t =? idle_thread k then k else upd k t (recomputed (idle_thread k) t).

Lemma recompute_foldl l k :
  let k' := foldl recompute_one k l in
  idle_thread k' = idle_thread k ∧ ready_list k' = ready_list k ∧
  ∀ t, threads k' !! t =
    if decide (t ∈ l ∧ t ≠ idle_thread k) then recomputed (idle_thread k) t <$> threads k !! t
    else threads k !! t.
Proof.
  revert k. induction l as [|x l IH]; intros k; cbn [foldl]; cbv zeta.
  { split_and!; [done..|]. intros t. destruct (decide _) as [[Hn _]|]; [|done].
    by apply not_elem_of_nil in Hn. }
  destruct (IH (recompute_one k x)) as (Hi & Hr & Ht).
  assert (Ei : idle_thread (recompute_one k x) = idle_thread k) by (unfold recompute_one; by destruct (_ =? _)).
  assert (Er : ready_list (recompute_one k x) = ready_list k) by (unfold recompute_one; by destruct (_ =? _)).
  rewrite Ei in *. rewrite Er in *. split_and!; [done..|]. intros t. rewrite Ht.
  unfold recompute_one. destruct (Z.eqb_spec x (idle_thread k)) as [->|Hx].
  - apply decide_ext. rewrite elem_of_cons. naive_solver.
  - unfold upd. simpl. destruct (decide (t = x)) as [->|Hne].
    + rewrite lookup_alter_eq.
      destruct (decide (x ∈ x :: l ∧ x ≠ idle_thread k)) as [_|Hn]; [|destruct Hn; split; [by left|done]].
      destruct (decide (x ∈ l ∧ x ≠ idle_thread k)); [|done]. by destruct (threads k !! x).
    + rewrite lookup_alter_ne by done. apply decide_ext. rewrite elem_of_cons. naive_solver.
Qed.

(** once per second every thread but the idle one gets the priority of the
    formula [PRI_MAX - recent_cpu / 4 - nice * 2], clamped to the legal range, and
    the ready list is sorted again, with the same threads in it. *)
Theorem mlfqs_recompute_priority_all_spec k :
  let k' := mlfqs_recompute_priority_all k in
  ready_sorted k' ∧ ready_list k' ≡ₚ ready_list k ∧
  ∀ t, t ∈ all_list k → t ≠ idle_thread k →
    threads k' !! t = recomputed (idle_thread k) t <$> threads k !! t
    ∧ (is_Some (threads k !! t) → PRI_MIN ≤ prio k' t ≤ PRI_MAX).
Proof.
  unfold mlfqs_recompute_priority_all. fold recompute_one. cbv zeta.
  change (foldl _ k (all_list k)) with (foldl recompute_one k (all_list k)).
  destruct (recompute_foldl (all_list k) k) as (_ & Hr & Ht). set (k1 := foldl _ _ _) in *.
  set (k2 := match ready_list k1 with [] => k1 | l => set_ready k1 (list_sort_seq _ l) end).
  assert (E : threads k2 = threads k1) by (unfold k2; by destruct (ready_list k1)).
  assert (Ep : ∀ u, prio k2 u = prio k1 u) by (intros u; unfold prio; by rewrite E).
  assert (Es : ready_list k2 = list_sort_seq (thread_priority_comparison k1) (ready_list k1)).
  { unfold k2. destruct (ready_list k1) eqn:El; [by rewrite El|done]. }
  split_and!.
  - unfold ready_sorted. rewrite Es. apply (sorted_prio k1); [done|]. apply list_sort_sorted. apply _.
  - by rewrite Es, list_sort_perm, Hr.
  - intros t Hin Hi. assert (Et : threads k2 !! t = recomputed (idle_thread k) t <$> threads k !! t).
    { by rewrite E, Ht, decide_True. }
    split; [done|]. intros [th Hth]. unfold prio. rewrite Et, Hth. simpl. apply mlfqs_priority_range.
Qed.

(** the load average and the decay factor do not overflow: with at most [R]
    threads, [R] at most 1000, the load average stays between 0 and [R], and the
    factor by which [recent_cpu] decays is at least 0 and below 1. *)
Theorem load_avg_bounded R la n :
  0 ≤ R ≤ 1000 → 0 ≤ la ≤ R * 2 ^ 15 → 0 ≤ n ≤ R →
  new_load_avg la n = Z.quot (la * 59) 60 + Z.quot (n * 2 ^ 15) 60
  ∧ 0 ≤ new_load_avg la n ≤ R * 2 ^ 15
  ∧ decay la = Z.quot (2 * la * 2 ^ 15) (2 * la + 2 ^ 15) ∧ 0 ≤ decay la < 2 ^ 15.
Proof.
  intros HR Hla Hn. unfold new_load_avg, decay, FP_MULT_MIX, FP_DIV_MIX, FP_CONST, FP_ADD, FP_ADD_MIX,
    FP_DIV, FP_SHIFT_AMOUNT. rewrite !Z.shiftl_mul_pow2 by lia. change (2 ^ 15) with 32768 in *.
  rewrite (s32_small (la * 59)), (s32_small (n * 32768)), (s32_small (la * 2)), (s32_small (1 * 32768)) by lia.
  rewrite (s32_small (la * 2 + 1 * 32768)) by lia. rewrite (s64_small (la * 2 * 32768)) by lia.
  rewrite !(Z.quot_div_nonneg) by lia.
  assert (H1 : 0 ≤ la * 59 / 60 ≤ la) by (split; [apply Z.div_pos; lia|apply Z.div_le_upper_bound; lia]).
  assert (H2 : 0 ≤ n * 32768 / 60 ≤ n * 32768) by (split; [apply Z.div_pos; lia|apply Z.div_le_upper_bound; lia]).
  assert (H3 : la * 59 / 60 + n * 32768 / 60 ≤ R * 32768).
  { pose proof (Z.mul_div_le (la * 59) 60). pose proof (Z.mul_div_le (n * 32768) 60). lia. }
  rewrite (s32_small (la * 59 / 60)), (s32_small (n * 32768 / 60)) by lia.
  rewrite (s32_small (la * 59 / 60 + n * 32768 / 60)) by lia.
  assert (H4 : 0 ≤ la * 2 * 32768 / (la * 2 + 1 * 32768) < 32768).
  { split; [apply Z.div_pos; lia|apply Z.div_lt_upper_bound; lia]. }
  rewrite s32_small by lia. split_and!; try lia.
  f_equal; lia.
Qed.

(** ** Sleepers *)

(** The sleepers are sorted by the time they wake at, which is in the future and
    not before [next_wakeup_tick]. *)
Definition punctual (k : kernel) : Prop :=
  sorted (list_sleep_less_func k) (sleeping_list k)
  ∧ ∀ t, t ∈ sleeping_list k → next_wakeup_tick k ≤ wakeup k t ∧ ticks k < wakeup k t.

#[export] Instance sleep_less_strict k : StrictWeak (list_sleep_less_func k).
Proof. unfold list_sleep_less_func. split; intros *; rewrite ?Z.ltb_lt, ?Z.ltb_ge; lia. Qed.

Lemma sorted_wakeup k k' l :
  (∀ u, u ∈ l → wakeup k' u = wakeup k u) → sorted (list_sleep_less_func k) l →
  sorted (list_sleep_less_func k') l.
Proof.
  intros Hw Hs. induction Hs as [|x l Hs IH Hf]; constructor.
  - apply IH. intros u Hu. apply Hw. by right.
  - apply Forall_forall. intros y Hy. rewrite Forall_forall in Hf. specialize (Hf y Hy).
    unfold le_of, list_sleep_less_func in *. rewrite !Hw by (by left || by right). done.
Qed.

Lemma sorted_wakeup_head k t l u : sorted (list_sleep_less_func k) (t :: l) → u ∈ t :: l → wakeup k t ≤ wakeup k u.
Proof.
  intros Hs Hu. pose proof (sorted_head_le _ _ _ _ Hs Hu) as Hle.
  unfold le_of, list_sleep_less_func in Hle. lia.
Qed.

Lemma sorted_filter (less : Z → Z → bool) (P : Z → Prop) `{!∀ x, Decision (P x)} l :
  sorted less l → sorted less (filter P l).
Proof.
  induction 1 as [|x l Hs IH Hf]; [constructor|]. rewrite filter_cons. destruct (decide (P x)); [|done].
  constructor; [done|]. apply Forall_forall. intros y [_ Hy]%list_elem_of_filter.
  rewrite Forall_forall in Hf. auto.
Qed.

(** The loop wakes exactly the sleepers whose time has come. *)
Lemma wake_loop_spec n k :
  queues k (Some (cur k)) → (length (sleeping_list k) ≤ n)%nat →
  sorted (list_sleep_less_func k) (sleeping_list k) →
  ∃ k', wake_loop n k = Ok k' ∧ queues k' (Some (cur k')) ∧ (∀ t, wakeup k' t = wakeup k t)
    ∧ ticks k' = ticks k
    ∧ sleeping_list k' = filter (λ t, ticks k < wakeup k t) (sleeping_list k)
    ∧ (∀ t, st k' t = if decide (t ∈ sleeping_list k ∧ wakeup k t ≤ ticks k)
                      then Some THREAD_READY else st k t).
Proof.
  revert k. induction n as [|n IH]; intros k Hq Hn Hs; simpl.
  { destruct (sleeping_list k) as [|t l] eqn:El; [|simpl in Hn; lia]. exists k. rewrite El.
    split_and!; [done..|]. intros t. rewrite decide_False; [done|]. by intros [?%not_elem_of_nil _]. }
  destruct (sleeping_list k) as [|t l] eqn:El; [|simpl in Hn].
  { exists k. rewrite El. split_and!; [done..|]. intros t. rewrite decide_False; [done|].
    by intros [?%not_elem_of_nil _]. }
  destruct (Z.leb_spec (wakeup k t) (ticks k)) as [Hle|Hgt].
  - destruct (q_sleep k _ Hq t) as [Hb [fs Ha]]; [rewrite El; by left|].
    set (k1 := set_sleeping k l (next_wakeup_tick k)).
    destruct (thread_unblock_ok k1 t) as (k2 & y & -> & Hk2); [exact (queues_cur k Hq)|done|].
    cbn [mbind res_bind]. assert (Hti : t ≠ idle_thread k).
    { intros ->. rewrite (q_idle k _ Hq) in Ha. done. }
    pose proof (woken_sleeper k t l (in_intr k) y Hq El) as Hw.
    assert (Hq2 : queues k2 (Some (cur k2))) by (rewrite Hk2; by apply (queues_woken k _ (Some (cur k)) t)).
    assert (W2 : ∀ u, wakeup k2 u = wakeup k u) by (intros u; rewrite Hk2; by apply (wakeup_upd (insert_ready k1 t))).
    assert (E2 : sleeping_list k2 = l ∧ ticks k2 = ticks k) by (by rewrite Hk2). destruct E2 as [E2 T2].
    assert (S2 : ∀ u, st k2 u = if decide (u = t) then Some THREAD_READY else st k u).
    { intros u. rewrite Hk2. apply (wk_st _ _ _ Hw). }
    apply sorted_cons_inv in Hs as Hs'; destruct Hs' as [Hsl _].
    destruct (IH k2 Hq2) as (k' & -> & Hq' & W' & T' & L' & S').
    { rewrite E2. lia. } { rewrite E2. by apply (sorted_wakeup k). }
    exists k'. split; [done|]. split; [done|]. split; [intros u; by rewrite W'|]. split; [by rewrite T'|].
    split.
    + rewrite filter_cons_False by lia. rewrite L', E2, T2. apply list_filter_iff. intros u. by rewrite W2.
    + intros u. rewrite S', S2, E2, T2, W2. pose proof (q_sleep_nodup k _ Hq) as Hnd. rewrite El in Hnd.
      apply NoDup_cons in Hnd as [Hnd _].
      destruct (decide (u = t)) as [->|Hu].
      * rewrite decide_False by naive_solver. rewrite decide_True; [done|]. split; [by left|lia].
      * apply decide_ext. rewrite elem_of_cons. naive_solver.
  - assert (Hall : ∀ u, u ∈ t :: l → ticks k < wakeup k u).
    { intros u Hu. pose proof (sorted_wakeup_head k t l u Hs Hu). lia. }
    exists k. split; [done|]. split; [done|]. split; [done|]. split; [done|]. split.
    + rewrite El. symmetry. apply filter_Forall. apply Forall_forall. exact Hall.
    + intros u. rewrite decide_False; [done|]. intros [Hu Hx]. specialize (Hall u Hu). lia.
Qed.

(** a thread goes to sleep until tick [tk]: it is blocked, in the list of
    sleepers with that time, and the list stays sorted with a right
    [next_wakeup_tick]. *)
Theorem thread_sleep_punctual k tk :
  sinv k → cur k ≠ idle_thread k → punctual k → ticks k < tk →
  ∃ k', thread_sleep k tk = Ok k' ∧ punctual k' ∧ ticks k' = ticks k
    ∧ sleeping_list k' ≡ₚ cur k :: sleeping_list k ∧ wakeup k' (cur k) = tk
    ∧ st k' (cur k) = Some THREAD_BLOCKED.
Proof.
  intros Hs Hni [Hsort Hall] Htk. pose proof Hs as [Hq _]. destruct (cur_exists k Hq) as [th Hth].
  destruct (thread_sleep_switched k tk Hs Hni) as (k' & Hk & Hsw).
  pose proof (going_to_sleep_queues k tk Hq Hni) as Hq2.
  pose proof (going_to_sleep_st k tk (cur_exists k Hq)) as Hst.
  set (k2 := going_to_sleep k tk) in *.
  assert (W2 : ∀ u, wakeup k2 u = if decide (u = cur k) then tk else wakeup k u).
  { intros u. unfold wakeup, k2. rewrite (going_to_sleep_threads k tk th u Hth). by destruct (decide _). }
  assert (W' : ∀ u, wakeup k' u = wakeup k2 u).
  { intros u. unfold wakeup. rewrite (sw_threads k2 k' Hsw). rewrite decide_False.
    - destruct (decide (u = cur k')); [|done]. by destruct (threads k2 !! u).
    - intros (Hu & Hd & Hx). by destruct (no_dying k k2 THREAD_BLOCKED Hq ltac:(done) eq_refl Hst u). }
  assert (Hnin : cur k ∉ sleeping_list k).
  { intros Hc. destruct (q_sleep k _ Hq _ Hc) as [? _]. pose proof (queues_cur k Hq). congruence. }
  assert (Ek1 : ∀ u, wakeup k2 u = wakeup (upd k (cur k)
    (λ th, with_frames (with_wakeup th tk) (FSleep :: frames th))) u).
  { intros u. unfold k2, going_to_sleep. cbv zeta. etrans; [by apply wakeup_upd|done]. }
  assert (El : sleeping_list k' ≡ₚ cur k :: sleeping_list k).
  { rewrite (sw_sleep k2 k' Hsw). apply insert_ordered_perm. }
  exists k'. split; [done|]. split; [split|].
  - rewrite (sw_sleep k2 k' Hsw). apply (sorted_wakeup (upd k (cur k)
      (λ th, with_frames (with_wakeup th tk) (FSleep :: frames th)))).
    + intros u _. by rewrite W', Ek1.
    + apply insert_ordered_sorted; [apply _|]. apply (sorted_wakeup k); [|done].
      intros u Hu. rewrite <- Ek1, W2, decide_False; [done|]. by intros ->.
  - intros u Hu. rewrite El in Hu. rewrite W', W2, (sw_wake k2 k' Hsw), (sw_ticks k2 k' Hsw). simpl.
    apply elem_of_cons in Hu as [->|Hu].
    + rewrite decide_True by done. destruct (Z.ltb_spec tk (next_wakeup_tick k)); lia.
    + rewrite decide_False by (by intros ->). destruct (Hall u Hu).
      destruct (Z.ltb_spec tk (next_wakeup_tick k)); lia.
  - split; [by rewrite (sw_ticks k2 k' Hsw)|]. split; [done|]. split; [by rewrite W', W2, decide_True|].
    apply (sw_blocked k2 k' Hq2 Hsw); [by rewrite Hst, decide_True|done].
Qed.

Lemma punctual_quiet k k' : quiet k k' → punctual k → punctual k'.
Proof.
  intros Q [Hs Hall]. unfold punctual. rewrite (sq_sleep _ _ (qt_queues _ _ Q)), (qt_ticks _ _ Q), (qt_next _ _ Q).
  split; [apply (sorted_wakeup k); [intros u _; apply (qt_wakeup _ _ Q)|done]|].
  intros t Ht. rewrite (qt_wakeup _ _ Q). auto.
Qed.

(** The statistics of the 4.4BSD scheduler do not touch the sleepers. *)
Lemma timer_tail_quiet k :
  queues k (Some (cur k)) →
  ∃ k', (if thread_mlfqs k && (ticks k mod TIMER_FREQ =? 0) then
           k1 ← mlfqs_update_load_avg_and_recent_cpu_all k; Ok (mlfqs_recompute_priority_all k1)
         else Ok k) = Ok k' ∧ quiet k k'.
Proof.
  intros Hq. destruct (_ && _); [|by exists k].
  destruct (mlfqs_second_quiet k Hq) as (k1 & -> & Q). cbn [mbind res_bind]. by eexists.
Qed.

(** The wakeup part of the interrupt, after [ticks] has advanced. *)
Lemma timer_wakes k :
  queues k (Some (cur k)) → sorted (list_sleep_less_func k) (sleeping_list k) →
  (∀ t, t ∈ sleeping_list k → next_wakeup_tick k ≤ wakeup k t) →
  ∃ k', (if next_wakeup_tick k <=? ticks k then
           k1 ← wake_loop (length (sleeping_list k)) k;
           Ok (match sleeping_list k1 with
               | t :: _ => set_sleeping k1 (sleeping_list k1) (wakeup k1 t)
               | [] => set_sleeping k1 [] INT64_MAX
               end)
         else Ok k) = Ok k'
    ∧ queues k' (Some (cur k')) ∧ ticks k' = ticks k ∧ punctual k'
    ∧ sleeping_list k' = filter (λ t, ticks k < wakeup k t) (sleeping_list k)
    ∧ (∀ t, t ∈ sleeping_list k → wakeup k t ≤ ticks k → st k' t = Some THREAD_READY).
Proof.
  intros Hq Hsort Hall. destruct (Z.leb_spec (next_wakeup_tick k) (ticks k)) as [Hle|Hgt].
  2:{ assert (Hfut : ∀ t, t ∈ sleeping_list k → ticks k < wakeup k t).
      { intros t Ht. specialize (Hall t Ht). lia. }
      exists k. split; [done|]. split; [done|]. split; [done|]. split; [split; auto|]. split.
      - symmetry. apply filter_Forall. by apply Forall_forall.
      - intros t Ht Hw. specialize (Hfut t Ht). lia. }
  destruct (wake_loop_spec _ k Hq (le_n _) Hsort) as (k1 & -> & Hq1 & W1 & T1 & L1 & S1).
  cbn [mbind res_bind]. set (k2 := match sleeping_list k1 with [] => _ | t :: _ => _ end).
  assert (Hs1 : sorted (list_sleep_less_func k1) (sleeping_list k1)).
  { rewrite L1. apply (sorted_wakeup k); [intros u _; apply W1|by apply sorted_filter]. }
  assert (F : sleeping_list k2 = sleeping_list k1 ∧ threads k2 = threads k1 ∧ ticks k2 = ticks k1
    ∧ same_queues k1 k2 ∧ (∀ t, t ∈ sleeping_list k2 → next_wakeup_tick k2 ≤ wakeup k1 t)).
  { unfold k2. destruct (sleeping_list k1) as [|t l] eqn:El; simpl; (split_and!; [done..|by split|]).
    - by intros t ?%not_elem_of_nil.
    - intros u Hu. by apply (sorted_wakeup_head k1 t l). }
  destruct F as (F1 & F2 & F3 & F4 & F5).
  assert (W2 : ∀ t, wakeup k2 t = wakeup k1 t) by (intros t; unfold wakeup; by rewrite F2).
  exists k2. split; [done|]. split; [rewrite (sq_cur _ _ F4); by apply (queues_same k1)|].
  split; [by rewrite F3|]. split; [split|split].
  - rewrite F1. apply (sorted_wakeup k1); [intros u _; apply W2|done].
  - intros t Ht. rewrite W2. split; [by apply F5|]. rewrite F1, L1 in Ht.
    apply list_elem_of_filter in Ht as [Ht _]. by rewrite F3, T1, W1.
  - by rewrite F1.
  - intros t Ht Hw. unfold st. rewrite F2. change (st k1 t = Some THREAD_READY). by rewrite S1, decide_True.
Qed.


(** ** Witnesses *)

(** A state that the kernel reaches. *)
Definition demo (acts : list action) : kernel := default (booted false) (exec (λ _, 0) acts (booted false)).
Lemma demo_reached_inv acts : is_Some (exec (λ _, 0) acts (booted false)) → inv (demo acts).
Proof.
  intros [k Hk]. apply (reachable_inv (λ _, 0) false). unfold demo. rewrite Hk.
  exact (exec_reachable _ _ _ _ _ (reachable_booted _ _) Hk).
Qed.

Definition demo_yield : kernel := demo [ACreate 8192 31; ACreate 12288 20].
Lemma thread_yield_highest_witness :
  ∃ k', thread_yield demo_yield = Ok k' ∧ ready_sorted k'
    ∧ (∀ t, t ∈ ready_list k' → prio k' t ≤ prio k' (cur k'))
    ∧ (cur demo_yield ≠ idle_thread demo_yield → prio demo_yield (cur demo_yield) ≤ prio k' (cur k')).
Proof.
  apply (thread_yield_highest demo_yield).
  - apply demo_reached_inv. vm_compute. eexists. reflexivity.
  - vm_compute. repeat constructor.
Defined.

(** Thread 8192 holds lock 100 and the initial thread is about to acquire it. *)
Definition demo_donate : kernel := demo (removelast donate_trace).

Lemma load_avg_bounded_witness :
  new_load_avg 32768 5 = 34951 ∧ 0 ≤ new_load_avg 32768 5 ≤ 10 * 2 ^ 15 ∧ decay 32768 = 21845.
Proof.
  destruct (load_avg_bounded 10 32768 5) as (E1 & E2 & E3 & _); [lia..|].
  rewrite E1 in *. rewrite E3. split; [reflexivity|]. split; [exact E2|reflexivity].
Defined.

(** One thread sleeps until tick 5 and the initial thread is awake. *)
Definition demo_sleep : kernel := demo [ACreate 8192 40; ARun 5000; ASleep 5].
Lemma demo_sleep_punctual : punctual demo_sleep.
Proof.
  split; [vm_compute; repeat constructor|]. intros t Ht.
  assert (E : sleeping_list demo_sleep = [8192]) by (vm_compute; reflexivity).
  rewrite E in Ht. apply list_elem_of_singleton in Ht as ->. vm_compute. split; congruence.
Qed.
Lemma thread_sleep_punctual_witness :
  ∃ k', thread_sleep demo_sleep 3 = Ok k' ∧ punctual k' ∧ ticks k' = ticks demo_sleep
    ∧ sleeping_list k' ≡ₚ cur demo_sleep :: sleeping_list demo_sleep
    ∧ wakeup k' (cur demo_sleep) = 3 ∧ st k' (cur demo_sleep) = Some THREAD_BLOCKED.
Proof.
  apply (thread_sleep_punctual demo_sleep 3).
  - apply demo_reached_inv. vm_compute. eexists. reflexivity.
  - vm_compute. congruence.
  - exact demo_sleep_punctual.
  - vm_compute. reflexivity.
Defined.

End Priority.
