(* ===== verification/Disk.v ===== *)
(** * Block devices, [devices/block.c], and bytes in memory

    A device is an array of bytes, sector [s] at offset [512 s]: the drivers behind
    [block_operations] talk to hardware that keeps what is written. *)

From S2P Require Import Prelude.

(** ** Little-endian integers *)

Fixpoint le_bytes (n : nat) (v : Z) : list Z :=
  match n with O => [] | S n => v mod 256 :: le_bytes n (v / 256) end.
Fixpoint le_value (l : list Z) : Z :=
  match l with [] => 0 | b :: l => b + 256 * le_value l end.

Definition byte (b : Z) : Prop := 0 ≤ b < 256.

Lemma length_le_bytes n v : length (le_bytes n v) = n.
Proof. revert v. induction n as [|n IH]; intros v; simpl; [done|]. by rewrite IH. Qed.

Lemma le_bytes_byte n v : Forall byte (le_bytes n v).
Proof.
  revert v. induction n as [|n IH]; intros v; simpl; constructor; [|apply IH].
  apply Z.mod_pos_bound. lia.
Qed.

Lemma le_value_bytes n v : 0 ≤ v < 256 ^ Z.of_nat n → le_value (le_bytes n v) = v.
Proof.
  revert v. induction n as [|n IH]; intros v Hv; simpl le_bytes; simpl le_value; [simpl in Hv; lia|].
  rewrite IH; [pose proof (Z.div_mod v 256); lia|].
  replace (Z.of_nat (S n)) with (1 + Z.of_nat n) in Hv by lia.
  rewrite Z.pow_add_r, Z.pow_1_r in Hv by lia.
  split; [apply Z.div_pos; lia|apply Z.div_lt_upper_bound; lia].
Qed.

Lemma le_bytes_value l : Forall byte l → le_bytes (length l) (le_value l) = l.
Proof.
  induction 1 as [|b l Hb Hl IH]; simpl; [done|]. unfold byte in Hb.
  replace (b + 256 * le_value l) with (b + le_value l * 256) by lia.
  rewrite Z.mod_add, Z.mod_small, Z.div_add, Z.div_small, Z.add_0_l by lia. by rewrite IH.
Qed.

Lemma le_value_range l : Forall byte l → 0 ≤ le_value l < 256 ^ Zlength l.
Proof.
  induction 1 as [|b l Hb Hl IH]; simpl le_value; [simpl; lia|]. unfold byte in Hb.
  replace (Zlength (b :: l)) with (1 + Zlength l) by (simpl length; lia).
  rewrite Z.pow_add_r, Z.pow_1_r by lia. lia.
Qed.

Module Disk.

Definition BLOCK_SECTOR_SIZE : Z := 512.

Inductive block_type :=
  | BLOCK_KERNEL | BLOCK_FILESYS | BLOCK_SCRATCH | BLOCK_SWAP | BLOCK_RAW | BLOCK_FOREIGN.
#[export] Instance block_type_eq_dec : EqDecision block_type.
Proof. solve_decision. Defined.

Record block := Block {
  name : list Z;
  type : block_type;
  size : Z;
  data : list Z;
  read_cnt : Z;
  write_cnt : Z
}.

Definition set_data (b : block) (d : list Z) : block :=
  Block (name b) (type b) (size b) d (read_cnt b) (u64 (write_cnt b + 1)).
Definition count_read (b : block) : block :=
  Block (name b) (type b) (size b) (data b) (u64 (read_cnt b + 1)) (write_cnt b).

Definition check_sector (b : block) (sector : Z) : bool := sector <? size b.

Definition block_read (b : block) (sector : Z) : res (list Z * block) :=
  ASSERT check_sector b sector;;
  Ok (slice (BLOCK_SECTOR_SIZE * sector) BLOCK_SECTOR_SIZE (data b), count_read b).

(** [buffer] is the sector that is written. *)
Definition block_write (b : block) (sector : Z) (buffer : list Z) : res block :=
  ASSERT check_sector b sector;;
  ASSERT negb (bool_decide (type b = BLOCK_FOREIGN));;
  Ok (set_data b (splice (BLOCK_SECTOR_SIZE * sector) buffer (data b))).

Definition block_size (b : block) : Z := size b.

(** The device has the bytes of all its sectors. *)
Definition block_ok (b : block) : Prop :=
  0 ≤ size b < 2 ^ 32 ∧ Zlength (data b) = BLOCK_SECTOR_SIZE * size b ∧ type b ≠ BLOCK_FOREIGN.

Lemma block_read_ok b s :
  block_ok b → 0 ≤ s < size b → block_read b s = Ok (slice (512 * s) 512 (data b), count_read b).
Proof. intros _ Hs. unfold block_read, check_sector. by rewrite (proj2 (Z.ltb_lt _ _)) by lia. Qed.

Lemma block_write_ok b s buf :
  block_ok b → 0 ≤ s < size b → block_write b s buf = Ok (set_data b (splice (512 * s) buf (data b))).
Proof.
  intros (_ & _ & Ht) Hs. unfold block_write, check_sector. rewrite (proj2 (Z.ltb_lt _ _)) by lia.
  by rewrite bool_decide_eq_false_2.
Qed.

Lemma block_ok_read b : block_ok b → block_ok (count_read b).
Proof. done. Qed.
Lemma block_ok_write b i buf :
  block_ok b → 0 ≤ i → i + Zlength buf ≤ Zlength (data b) → block_ok (set_data b (splice i buf (data b))).
Proof. intros (H1 & H2 & H3) Hi Hb. unfold block_ok. simpl. by rewrite length_splice. Qed.

(** ** The list of devices *)

Record registry := Registry {
  devices : gmap Z block;
  all_blocks : list Z;
  block_by_role : gmap Z Z
}.

Definition role_no (t : block_type) : Z :=
  match t with
  | BLOCK_KERNEL => 0 | BLOCK_FILESYS => 1 | BLOCK_SCRATCH => 2 | BLOCK_SWAP => 3
  | BLOCK_RAW => 4 | BLOCK_FOREIGN => 5
  end.
Definition BLOCK_ROLE_CNT : Z := 4.

Definition block_get_role (r : registry) (role : block_type) : res (option Z) :=
  ASSERT role_no role <? BLOCK_ROLE_CNT;;
  Ok (block_by_role r !! role_no role).
Definition block_set_role (r : registry) (role : block_type) (b : Z) : res registry :=
  ASSERT role_no role <? BLOCK_ROLE_CNT;;
  Ok (Registry (devices r) (all_blocks r) (<[role_no role := b]> (block_by_role r))).

Definition block_first (r : registry) : option Z := head (all_blocks r).

(** The element after the device at address [b] in the list. *)
Fixpoint after (b : Z) (l : list Z) : option Z :=
  match l with
  | [] => None
  | x :: l => if x =? b then head l else after b l
  end.
Definition block_next (r : registry) (b : Z) : option Z := after b (all_blocks r).

Definition has_name (r : registry) (nm : list Z) (b : Z) : bool :=
  match devices r !! b with Some d => bool_decide (name d = nm) | None => false end.
Definition block_get_by_name (r : registry) (nm : list Z) : option Z :=
  head (filter (λ b, has_name r nm b = true) (all_blocks r)).

(** [addr] is what [malloc] returns for the descriptor, null if 0; the name is cut
    to 15 characters by [strlcpy]. *)
Definition block_register (r : registry) (addr : Z) (nm : list Z) (t : block_type) (sz : Z)
    (contents : list Z) : res (Z * registry) :=
  if addr =? 0 then Panic else
  Ok (addr, Registry (<[addr := Block (take 15 nm) t sz contents 0 0]> (devices r))
              (all_blocks r ++ [addr]) (block_by_role r)).

(** Every device, by [block_first] and [block_next]. *)
Fixpoint probe (n : nat) (r : registry) (b : option Z) : list Z :=
  match n, b with
  | S n, Some b => b :: probe n r (block_next r b)
  | _, _ => []
  end.

Lemma after_middle l1 b l2 : NoDup (l1 ++ b :: l2) → after b (l1 ++ b :: l2) = head l2.
Proof.
  induction l1 as [|x l1 IH]; simpl; [by rewrite Z.eqb_refl|]. intros [Hx Hn]%NoDup_cons.
  rewrite (proj2 (Z.eqb_neq x b)); [by apply IH|]. intros ->. apply Hx.
  apply elem_of_app. right. by left.
Qed.

(** [block_first] and [block_next] visit the devices in the order in which they were
    registered. *)
Lemma probe_all r : NoDup (all_blocks r) → probe (length (all_blocks r)) r (block_first r) = all_blocks r.
Proof.
  intros Hn. unfold block_first.
  assert (G : ∀ l2 l1, all_blocks r = l1 ++ l2 → probe (length l2) r (head l2) = l2).
  { induction l2 as [|b l2 IH]; intros l1 E; [done|]. simpl. f_equal. unfold block_next.
    rewrite E in Hn |- *. rewrite after_middle by done. apply (IH (l1 ++ [b])). by rewrite <- app_assoc. }
  by apply (G _ []).
Qed.

End Disk.
