(* ===== verification/Partition.v ===== *)
(** * Disk partitions, [devices/partition.c]

    A partition is a range of sectors of another device.  What is printed about a device is
    recorded as a list of reports. *)

From Stdlib Require Import Ascii String.
From S2P Require Import Prelude Strings Stdio Disk.

Module Partition.
Import Stdio Disk.

(** ** Reading and writing *)

(** [struct partition], with the size that [block_register] is given. *)
Record partition := Part { part_name : list Z; part_type : block_type; start : Z; sectors : Z }.

(** The sector has been checked by [block_read] and [block_write] for the partition. *)
Definition partition_read (p : partition) (b : block) (sector : Z) : res (list Z * block) := block_read b (u32 (start p + sector)).
Definition partition_write (p : partition) (b : block) (sector : Z) (buffer : list Z) : res block :=
  block_write b (u32 (start p + sector)) buffer.

(** ** The partition table *)

Record partition_table_entry := Entry { etype : Z; offset : Z; esize : Z }.
Definition entry_of (l : list Z) : partition_table_entry :=
  Entry (le_value (slice 4 1 l)) (le_value (slice 8 4 l)) (le_value (slice 12 4 l)).
Definition partitions (pt : list Z) : list partition_table_entry :=
  (λ i, entry_of (slice (446 + 16 * i) 16 pt)) <$> [0; 1; 2; 3].
Definition signature (pt : list Z) : Z := le_value (slice 510 2 pt).

Inductive report :=
  | Table_past_end (sector : Z) | Invalid_signature | Invalid_extended (sector : Z) | Extended (sector : Z)
  | Starts_past_end (nr sector : Z) | Ends_past_end (nr end_ : Z) | No_partitions.

(** The device, the number of partitions so far, those that were registered, the reports, and the
    calls of [malloc] so far. *)
Record scan := Scan { dev : block; part_nr : Z; found : list partition; reports : list report; mallocs : nat }.
Definition set_dev (s : scan) (b : block) : scan := Scan b (part_nr s) (found s) (reports s) (mallocs s).
Definition add_report (s : scan) (r : report) : scan := Scan (dev s) (part_nr s) (found s) (reports s ++ [r]) (mallocs s).

Section supply.
(** Whether the [n]-th call of [malloc] succeeds. *)
Context (supply : nat → bool).

Definition kmalloc (s : scan) : res scan :=
  if supply (mallocs s) then Ok (Scan (dev s) (part_nr s) (found s) (reports s) (S (mallocs s))) else Panic.

Definition type_of (t : Z) : block_type :=
  if t =? 0x20 then BLOCK_KERNEL else if t =? 0x21 then BLOCK_FILESYS else if t =? 0x22 then BLOCK_SCRATCH
  else if t =? 0x23 then BLOCK_SWAP else BLOCK_FOREIGN.

(** [snprintf (name, sizeof name, "%s%d", block_name (block), part_nr)] *)
Definition name_of (b : block) (nr : Z) : res (list Z) :=
  t ← text (S (length (name b))) (place 1 (name b)) (chars "%s%d") [1; u32 nr];
  Ok (take 15 t).

(** [block_register] allocates the device's descriptor. *)
Definition found_partition (s : scan) (ty st sz : Z) : res scan :=
  let nr := part_nr s in
  if block_size (dev s) <=? st then Ok (add_report s (Starts_past_end nr st)) else
  if (u32 (st + sz) <? st) || (block_size (dev s) <? u32 (st + sz)) then Ok (add_report s (Ends_past_end nr (u32 (st + sz)))) else
  s ← kmalloc s;
  nm ← name_of (dev s) nr;
  s ← kmalloc s;
  Ok (Scan (dev s) nr (found s ++ [Part nm (type_of ty) st sz]) (reports s) (mallocs s)).

Definition is_extended (t : Z) : bool := (t =? 0x05) || (t =? 0x0f) || (t =? 0x85) || (t =? 0xc5).

(** The loop over the entries; [table] reads another table. *)
Fixpoint parse_loop (table : Z → Z → scan → res scan) (es : list partition_table_entry) (sector primary : Z) (s : scan) : res scan :=
  match es with
  | [] => Ok s
  | e :: es =>
      s ← (if (esize e =? 0) || (etype e =? 0) then Ok s
           else if is_extended (etype e) then
             let s := add_report s (Extended sector) in
             if sector =? 0 then table (offset e) (offset e) s
             else table (u32 (offset e + primary)) primary s
           else
             let s := Scan (dev s) (s32 (part_nr s + 1)) (found s) (reports s) (mallocs s) in
             found_partition s (etype e) (u32 (offset e + sector)) (esize e));
      parse_loop table es sector primary s
  end.
Fixpoint read_partition_table (fuel : nat) (sector primary_extended_sector : Z) (s : scan) : res scan :=
  match fuel with
  | O => Fuel
  | S fuel =>
      if block_size (dev s) <=? sector then Ok (add_report s (Table_past_end sector)) else
      s ← kmalloc s;
      '(pt, b) ← block_read (dev s) 0;
      let s := set_dev s b in
      if negb (signature pt =? 0xaa55) then
        Ok (add_report s (if primary_extended_sector =? 0 then Invalid_signature else Invalid_extended sector))
      else parse_loop (read_partition_table fuel) (partitions pt) sector primary_extended_sector s
  end.
Definition partition_scan (fuel : nat) (b : block) (calls : nat) : res scan :=
  s ← read_partition_table fuel 0 0 (Scan b 0 [] [] calls);
  Ok (if part_nr s =? 0 then add_report s No_partitions else s).

End supply.

(** ** A table without extended partitions *)

(** The sectors of the partition are sectors of the device. *)
Definition inside (p : partition) (b : block) : Prop := 0 ≤ start p ∧ 0 ≤ sectors p ∧ start p + sectors p ≤ size b.

Definition blank (e : partition_table_entry) : bool := (esize e =? 0) || (etype e =? 0).
Definition fits (b : block) (e : partition_table_entry) : bool := offset e + esize e <=? size b.

(** The entries that are partitions of the device, with their numbers: one that does not fit has
    a number too. *)
Fixpoint wanted (b : block) (nr : Z) (es : list partition_table_entry) : list (Z * partition_table_entry) :=
  match es with
  | [] => []
  | e :: es =>
      if blank e then wanted b nr es
      else if fits b e then (nr + 1, e) :: wanted b (nr + 1) es else wanted b (nr + 1) es
  end.
Definition registers (b : block) (w : Z * partition_table_entry) (p : partition) : Prop :=
  start p = offset w.2 ∧ sectors p = esize w.2 ∧ part_type p = type_of (etype w.2)
  ∧ ∃ ds, part_name p = take 15 (name b ++ reverse ds) ∧ Forall is_digit ds ∧ dec ds = w.1.

Definition entry_ok (e : partition_table_entry) : Prop := 0 ≤ offset e < 2 ^ 32 ∧ 0 ≤ esize e < 2 ^ 32.
Definition name_ok (b : block) : Prop := Zlength (name b) ≤ 15 ∧ Forall (λ c, 0 < c < 2 ^ 8) (name b).

Lemma name_of_ok b nr : name_ok b → 0 ≤ nr < 2 ^ 31 →
  ∃ ds, name_of b nr = Ok (take 15 (name b ++ reverse ds)) ∧ Forall is_digit ds ∧ dec ds = nr.
Proof.
  intros [Hl Hn] Hr. unfold name_of.
  destruct (text_sd (S (length (name b))) (place 1 (name b)) 1 (name b) nr) as (ds & E & Hds); [apply place_at|done|lia|lia|done|lia|].
  exists ds. split; [|done]. by rewrite E.
Qed.

#[local] Opaque name_of.

Section plain.
Context (supply : nat → bool) (Hsupply : ∀ n, supply n = true).

Lemma kmalloc_ok s : kmalloc supply s = Ok (Scan (dev s) (part_nr s) (found s) (reports s) (S (mallocs s))).
Proof. unfold kmalloc. by rewrite Hsupply. Qed.

Lemma end_check st sz n : 0 ≤ st < 2 ^ 32 → 0 ≤ sz < 2 ^ 32 → n < 2 ^ 32 →
  (u32 (st + sz) <? st) || (n <? u32 (st + sz)) = negb (st + sz <=? n).
Proof.
  intros Ho Hz Hn. destruct (Z.lt_ge_cases (st + sz) (2 ^ 32)).
  - rewrite u32_small by lia. rewrite (proj2 (Z.ltb_ge _ st)) by lia. by rewrite Z.ltb_antisym.
  - rewrite (u32_wrap (-1)) by lia. rewrite (proj2 (Z.ltb_lt _ st)) by lia. by rewrite (proj2 (Z.leb_gt _ _)) by lia.
Qed.

Lemma found_partition_fits s ty st sz : 0 ≤ st < 2 ^ 32 → 0 ≤ sz < 2 ^ 32 → size (dev s) < 2 ^ 32 → 0 < sz → st + sz ≤ size (dev s) →
  found_partition supply s ty st sz =
  (nm ← name_of (dev s) (part_nr s);
   Ok (Scan (dev s) (part_nr s) (found s ++ [Part nm (type_of ty) st sz]) (reports s) (S (S (mallocs s))))).
Proof.
  intros Ho Hz Hs Hp Hf. unfold found_partition, block_size. rewrite (proj2 (Z.leb_gt _ _)), end_check, (proj2 (Z.leb_le _ _)) by lia.
  rewrite kmalloc_ok. change (negb true) with false. cbv iota. rewrite bind_ret. simpl dev. simpl part_nr.
  destruct (name_of (dev s) (part_nr s)) as [nm| |]; [|reflexivity..].
  rewrite !bind_ret, kmalloc_ok. reflexivity.
Qed.

Lemma found_partition_spec s e : name_ok (dev s) → entry_ok e → 0 ≤ part_nr s < 2 ^ 31 → 0 ≤ size (dev s) < 2 ^ 32 → 0 < esize e →
  ∃ s' ps, found_partition supply s (etype e) (offset e) (esize e) = Ok s' ∧ dev s' = dev s ∧ part_nr s' = part_nr s
    ∧ found s' = found s ++ ps
    ∧ Forall2 (registers (dev s)) (if fits (dev s) e then [(part_nr s, e)] else []) ps.
Proof.
  intros Hn [Ho Hz] Hr Hs Hp. unfold fits. destruct (Z.leb_spec (offset e + esize e) (size (dev s))) as [Hf|Hf].
  - destruct (name_of_ok (dev s) (part_nr s) Hn Hr) as (ds & En & Hds). rewrite found_partition_fits, En by lia.
    eexists _, [_]. split; [reflexivity|]. split; [reflexivity|]. split; [reflexivity|]. split; [reflexivity|].
    apply Forall2_cons. split; [|constructor]. split; [reflexivity|]. split; [reflexivity|]. split; [reflexivity|]. by exists ds.
  - unfold found_partition, block_size.
    rewrite end_check, (proj2 (Z.leb_gt _ (size (dev s)))) by lia. cbn [negb].
    destruct (size (dev s) <=? offset e); (eexists _, []; split; [reflexivity|]; split; [reflexivity|]; split; [reflexivity|];
      split; [symmetry; apply app_nil_r|constructor]).
Qed.

Definition plain (e : partition_table_entry) : Prop := is_extended (etype e) = false ∨ esize e = 0.

Lemma parse_loop_plain table es : ∀ s, Forall entry_ok es → Forall plain es → name_ok (dev s) → 0 ≤ size (dev s) < 2 ^ 32 →
  0 ≤ part_nr s → part_nr s + Zlength es < 2 ^ 31 →
  ∃ s' ps, parse_loop supply table es 0 0 s = Ok s' ∧ dev s' = dev s ∧ found s' = found s ++ ps
    ∧ Forall2 (registers (dev s)) (wanted (dev s) (part_nr s) es) ps.
Proof.
  induction es as [|e es IH]; intros s He Hp Hn Hs Hr Hl; cbn [parse_loop wanted].
  { exists s, []. split; [done|]. split; [done|]. split; [by rewrite app_nil_r|constructor]. }
  apply Forall_cons in He as [He1 He]. apply Forall_cons in Hp as [Hp1 Hp]. cbn [length] in Hl.
  unfold blank. destruct ((esize e =? 0) || (etype e =? 0)) eqn:Eb; cbn [mbind res_bind]; [apply IH; done || lia|].
  apply orb_false_iff in Eb as [Ez%Z.eqb_neq _]. destruct Hp1 as [->|]; [|done]. cbv zeta. rewrite s32_small by lia.
  rewrite Z.add_0_r, u32_small by apply He1.
  destruct (found_partition_spec (Scan (dev s) (part_nr s + 1) (found s) (reports s) (mallocs s)) e) as (s1 & ps1 & -> & Hd & Hnr & Hf & Hw);
    [done|done|cbn [part_nr]; lia|done|destruct He1; lia|]. cbn [dev part_nr found] in Hd, Hnr, Hf, Hw. cbn [mbind res_bind].
  destruct (IH s1) as (s2 & ps2 & E2 & Hd2 & Hf2 & Hw2); try (rewrite ?Hd, ?Hnr; done || lia).
  exists s2, (ps1 ++ ps2). split; [exact E2|]. split; [congruence|]. split; [by rewrite Hf2, Hf, app_assoc|].
  rewrite Hd, Hnr in Hw2. destruct (fits (dev s) e); [by apply (Forall2_app (l1 := [_]))|]. apply Forall2_nil_inv_l in Hw. by subst.
Qed.

End plain.

Lemma partitions_ok pt : Forall byte pt → Forall entry_ok (partitions pt).
Proof.
  intros Hb. unfold partitions. apply Forall_fmap, Forall_true. intros i. unfold entry_ok, entry_of. cbn [offset esize].
  assert (∀ j l, Forall byte l → 0 ≤ le_value (slice j 4 l) < 2 ^ 32) as H.
  { intros j l Hl. pose proof (le_value_range (slice j 4 l)) as Hv. unfold slice in *.
    assert (256 ^ Zlength (take (Z.to_nat 4) (drop (Z.to_nat j) l)) ≤ 256 ^ 4) by (apply Z.pow_le_mono_r; [lia|]; rewrite length_take; lia).
    specialize (Hv ltac:(by apply Forall_take, Forall_drop)). lia. }
  split; apply H; unfold slice; by apply Forall_take, Forall_drop.
Qed.

Lemma registers_inside b nr es ps : 0 ≤ nr → Forall entry_ok es → Forall2 (registers b) (wanted b nr es) ps → Forall (λ p, inside p b) ps.
Proof.
  revert nr ps. induction es as [|e es IH]; intros nr ps Hn He; cbn [wanted]; [by intros ->%Forall2_nil_inv_l|].
  apply Forall_cons in He as [[Ho Hz] He]. destruct (blank e); [by apply IH|]. destruct (fits b e) eqn:Ef; [|apply IH; done || lia].
  intros (p & ps' & (Es & Ez & _) & Hps & ->)%Forall2_cons_inv_l. apply Forall_cons. split; [|apply (IH (nr + 1)); done || lia].
  apply Z.leb_le in Ef. cbn [snd] in Es, Ez. unfold inside. lia.
Qed.

(** C29: Scanning a device whose partition table has no extended partition ends, whatever else the
    table holds, and registers exactly the partitions that lie on the device, numbered in the
    order of the table; sector [k] of such a partition is a sector of the device, and reading
    and writing it does not fail. *)
Theorem partition_scan_correct supply b calls fuel pt :
  (∀ n, supply n = true) → name_ok b → block_ok b → 0 < size b → Forall byte (data b) →
  pt = slice 0 512 (data b) → signature pt = 0xaa55 → Forall plain (partitions pt) →
  ∃ s, partition_scan supply (S fuel) b calls = Ok s ∧ dev s = count_read b
    ∧ Forall2 (registers b) (wanted b 0 (partitions pt)) (found s)
    ∧ ∀ p k buf, p ∈ found s → 0 ≤ k < sectors p →
        partition_read p b k = Ok (slice (512 * (start p + k)) 512 (data b), count_read b)
        ∧ partition_write p b k buf = Ok (set_data b (splice (512 * (start p + k)) buf (data b))).
Proof.
  intros Hsup Hn Hok Hs Hb Ept Hsig Hplain. unfold partition_scan. cbn [read_partition_table dev]. unfold block_size.
  rewrite (proj2 (Z.leb_gt _ _)) by lia. rewrite (kmalloc_ok supply Hsup). cbn [mbind res_bind dev part_nr found reports mallocs].
  rewrite (block_read_ok b 0) by (done || lia). cbn [mbind res_bind]. change (512 * 0) with 0. rewrite <- Ept, Hsig, Z.eqb_refl. cbn [negb].
  assert (He : Forall entry_ok (partitions pt)) by (apply partitions_ok; subst pt; unfold slice; by apply Forall_take, Forall_drop).
  destruct (parse_loop_plain supply Hsup (read_partition_table supply fuel) (partitions pt) (set_dev (Scan b 0 [] [] (S calls)) (count_read b)))
    as (s & ps & -> & Hd & Hf & Hw); [done|done|done|apply Hok|done|done|]. cbn [set_dev dev part_nr found mallocs reports app] in Hd, Hf, Hw.
  cbn [mbind res_bind]. eexists. split; [done|].
  assert (∀ r, dev (if part_nr s =? 0 then add_report s r else s) = dev s ∧ found (if part_nr s =? 0 then add_report s r else s) = found s) as Hr
    by (intros; by destruct (part_nr s =? 0)). destruct (Hr No_partitions) as [-> ->].
  split; [done|]. rewrite Hf. split; [done|]. intros p k buf Hp Hk.
  pose proof (registers_inside _ _ _ _ (Z.le_refl 0) He Hw) as Hin. rewrite Forall_forall in Hin. destruct (Hin p Hp) as (H1 & H2 & H3). cbn [count_read size] in H3.
  destruct Hok as (Hok1 & Hok2). unfold partition_read, partition_write. rewrite u32_small by lia.
  split; [apply block_read_ok|apply block_write_ok]; done || lia.
Qed.

(** A device of four sectors whose table has one entry, for three sectors from [off]
    on. *)
Definition demo (ty off : Z) : block :=
  Block (chars "hda") BLOCK_RAW 4
    (replicate 446 0 ++ [0; 0; 0; 0; ty; 0; 0; 0] ++ le_bytes 4 off ++ le_bytes 4 3 ++ replicate 48 0 ++ [0x55; 0xaa] ++ replicate 1536 0) 0 0.
Lemma demo_ok ty off : 0 ≤ ty < 256 → 0 ≤ off < 256 → name_ok (demo ty off) ∧ block_ok (demo ty off) ∧ Forall byte (data (demo ty off)).
Proof.
  intros Ht Ho. split; [|split].
  - split; [vm_compute; discriminate|]. apply (bool_decide_unpack _). vm_compute. exact I.
  - split; [by vm_compute|]. split; [|done]. reflexivity.
  - cbn [demo data]. repeat apply Forall_app_2; try (apply Forall_replicate; unfold byte; lia).
    + repeat (apply List.Forall_cons; [unfold byte; lia|]). constructor.
    + apply le_bytes_byte.
    + apply le_bytes_byte.
    + repeat (apply List.Forall_cons; [unfold byte; lia|]). constructor.
Qed.

Lemma partition_scan_correct_witness :
  ∃ s, partition_scan (λ _, true) 1 (demo 0x21 1) 0 = Ok s
    ∧ (∀ p k buf, p ∈ found s → 0 ≤ k < sectors p →
        partition_read p (demo 0x21 1) k = Ok (slice (512 * (start p + k)) 512 (data (demo 0x21 1)), count_read (demo 0x21 1))
        ∧ partition_write p (demo 0x21 1) k buf = Ok (set_data (demo 0x21 1) (splice (512 * (start p + k)) buf (data (demo 0x21 1)))))
    ∧ found s = [Part (chars "hda1") BLOCK_FILESYS 1 3].
Proof.
  destruct (demo_ok 0x21 1) as (H1 & H2 & H3); [lia|lia|].
  destruct (partition_scan_correct (λ _, true) (demo 0x21 1) 0 0 (slice 0 512 (data (demo 0x21 1)))) as (s & E & _ & _ & H); [done|exact H1|exact H2|done|exact H3|done|vm_compute; reflexivity| |].
  - apply List.Forall_cons; [left; vm_compute; reflexivity|]. repeat (apply List.Forall_cons; [right; vm_compute; reflexivity|]). constructor.
  - exists s. split; [exact E|]. split; [exact H|].
    assert (Ef : match partition_scan (λ _, true) 1 (demo 0x21 1) 0 with Ok s => found s = [Part (chars "hda1") BLOCK_FILESYS 1 3] | _ => True end)
      by (vm_compute; reflexivity).
    rewrite E in Ef. exact Ef.
Defined.

(** ** Extended partitions *)

(** Where the first extended partition of the table begins. *)
Fixpoint first_extended (es : list partition_table_entry) : option Z :=
  match es with
  | [] => None
  | e :: es => if blank e then first_extended es else if is_extended (etype e) then Some (offset e) else first_extended es
  end.

Lemma kmalloc_dev supply s s' : kmalloc supply s = Ok s' → dev s' = dev s.
Proof. unfold kmalloc. destruct (supply (mallocs s)); [|done]. by intros [= <-]. Qed.
Lemma found_partition_dev supply s ty st sz s' : found_partition supply s ty st sz = Ok s' → dev s' = dev s.
Proof.
  unfold found_partition. destruct (_ <=? _); [by intros [= <-]|]. destruct (_ || _); [by intros [= <-]|]. intros E.
  apply bind_Ok in E as (s1 & E1%kmalloc_dev & E). apply bind_Ok in E as (nm & _ & E). apply bind_Ok in E as (s2 & E2%kmalloc_dev & E).
  injection E as <-. cbn [dev]. congruence.
Qed.

Lemma parse_loop_stuck supply table es X : ∀ sector primary s s',
  first_extended es = Some X → (sector ≠ 0 → primary = X) → 0 ≤ 2 * X < 2 ^ 32 →
  (∀ sec t t', dev t = dev s → sec = X ∨ sec = 2 * X → table sec X t ≠ Ok t') →
  parse_loop supply table es sector primary s ≠ Ok s'.
Proof.
  induction es as [|e es IH]; intros sector primary s s' Hx Hp HX Ht; [done|]. cbn [first_extended parse_loop] in *. unfold blank in Hx.
  intros E. apply bind_Ok in E as (s1 & E1 & E). revert E1.
  destruct ((esize e =? 0) || (etype e =? 0)); [intros [= <-]; by apply (IH sector primary s s') in E|].
  destruct (is_extended (etype e)).
  - injection Hx as ->. cbv zeta. destruct (Z.eqb_spec sector 0) as [|Hs]; intros E1.
    + by apply (Ht X _ s1) in E1; [|done|left].
    + rewrite (Hp Hs), u32_small in E1 by lia. apply (Ht (X + X) _ s1) in E1; [done|done|right; lia].
  - intros E1%found_partition_dev. cbn [dev] in E1. apply (IH sector primary s1 s') in E; [done|done|done|done|]. intros sec t t' Hd. apply Ht. congruence.
Qed.

Lemma table_stuck supply X pt fuel : 0 ≤ 2 * X < 2 ^ 32 → signature pt = 0xaa55 → first_extended (partitions pt) = Some X →
  ∀ sector primary s s', 2 * X < size (dev s) → slice 0 512 (data (dev s)) = pt → (sector ≠ 0 → primary = X) → sector < size (dev s) →
  read_partition_table supply fuel sector primary s ≠ Ok s'.
Proof.
  intros HX Hsig Hx. induction fuel as [|fuel IH]; intros sector primary s s' H2 Hpt Hp Hs; [done|]. cbn [read_partition_table]. unfold block_size.
  rewrite (proj2 (Z.leb_gt _ _)) by lia. intros E. apply bind_Ok in E as (s1 & E1%kmalloc_dev & E). rewrite E1 in E.
  unfold block_read, check_sector in E. rewrite (proj2 (Z.ltb_lt 0 _)) in E by lia. cbn [mbind res_bind] in E.
  change (BLOCK_SECTOR_SIZE * 0) with 0 in E. change BLOCK_SECTOR_SIZE with 512 in E. rewrite Hpt, Hsig in E. cbn [Z.eqb Pos.eqb negb] in E.
  apply (parse_loop_stuck supply _ _ X) in E; [done|done|done|done|]. intros sec t t' Hd Hsec. cbn [set_dev dev] in Hd.
  apply IH; rewrite ?Hd; cbn [count_read size data]; try done; destruct Hsec; lia.
Qed.



End Partition.
