(* ===== verification/Random.v ===== *)
(** * Random numbers, [lib/random.c]

    The stream cipher RC4 as a generator: an array [s] of 256 bytes and two indexes. *)

From S2P Require Import Prelude Disk.

Module Random.

Record rng := Rng { s : list Z; s_i : Z; s_j : Z; inited : bool }.

(** The bytes at two indexes of [s]. *)
Definition swap_byte (l : list Z) (i j : Z) : res (list Z) :=
  a ← from_opt (l !! Z.to_nat i);
  b ← from_opt (l !! Z.to_nat j);
  Ok (<[Z.to_nat j := a]> (<[Z.to_nat i := b]> l)).

Fixpoint seed_loop (n : nat) (seed l : list Z) (i j : Z) : res (list Z) :=
  match n with
  | O => Ok l
  | S n =>
      x ← from_opt (l !! Z.to_nat i);
      k ← from_opt (seed !! Z.to_nat (i mod 4));
      let j := u8 (j + (x + k)) in
      l ← swap_byte l i j;
      seed_loop n seed l (i + 1) j
  end.
Definition random_init (seed : Z) : res rng :=
  l ← seed_loop 256 (le_bytes 4 seed) (seqZ 0 256) 0 0;
  Ok (Rng l 0 0 true).

Fixpoint bytes_loop (n : nat) (r : rng) : res (list Z * rng) :=
  match n with
  | O => Ok ([], r)
  | S n =>
      let i := u8 (s_i r + 1) in
      x ← from_opt (s r !! Z.to_nat i);
      let j := u8 (s_j r + x) in
      l ← swap_byte (s r) i j;
      a ← from_opt (l !! Z.to_nat i);
      b ← from_opt (l !! Z.to_nat j);
      let k := u8 (a + b) in
      out ← from_opt (l !! Z.to_nat k);
      '(rest, r) ← bytes_loop n (Rng l i j (inited r));
      Ok (out :: rest, r)
  end.
Definition random_bytes (r : rng) (size : Z) : res (list Z * rng) :=
  r ← (if negb (inited r) then random_init 0 else Ok r);
  bytes_loop (Z.to_nat size) r.
Definition random_ulong (r : rng) : res (Z * rng) :=
  '(l, r) ← random_bytes r 4;
  Ok (le_value l, r).

(** ** The array is a permutation *)

Definition perm (l : list Z) : Prop := l ≡ₚ seqZ 0 256.

Lemma perm_lookup l i : perm l → 0 ≤ i < 256 → ∃ x, l !! Z.to_nat i = Some x ∧ 0 ≤ x < 256.
Proof.
  intros Hp Hi. assert (Hl : length l = 256%nat) by (rewrite (Permutation_length Hp), length_seqZ; done).
  destruct (lookup_lt_is_Some_2 l (Z.to_nat i)) as [x Hx]; [lia|]. exists x. split; [done|].
  apply list_elem_of_lookup_2 in Hx. unfold perm in Hp. rewrite Hp in Hx. apply elem_of_seqZ in Hx. lia.
Qed.

(** Exchanging two elements permutes a list. *)
Lemma swap_Permutation (l : list Z) i j a b : l !! i = Some a → l !! j = Some b → <[j := a]> (<[i := b]> l) ≡ₚ l.
Proof.
  intros Ea Eb. pose proof (lookup_lt_Some _ _ _ Ea). pose proof (lookup_lt_Some _ _ _ Eb). apply Permutation_inj. split; [by rewrite !length_insert|].
  exists (λ k, if decide (k = j) then i else if decide (k = i) then j else k). split.
  - intros x y. repeat case_decide; lia.
  - intros k. case_decide as H1; [subst; by rewrite list_lookup_insert_eq by (by rewrite length_insert)|]. rewrite list_lookup_insert_ne by done.
    case_decide as H2; [subst; by rewrite list_lookup_insert_eq|]. by rewrite list_lookup_insert_ne.
Qed.

Lemma swap_byte_perm l i j : perm l → 0 ≤ i < 256 → 0 ≤ j < 256 → ∃ l', swap_byte l i j = Ok l' ∧ perm l'.
Proof.
  intros Hp Hi Hj. destruct (perm_lookup l i Hp Hi) as (a & Ea & _), (perm_lookup l j Hp Hj) as (b & Eb & _).
  unfold swap_byte. rewrite Ea, Eb. cbn [from_opt mbind res_bind]. eexists. split; [done|]. unfold perm in *. by rewrite swap_Permutation.
Qed.

Lemma seed_loop_perm seed n : ∀ l i j, length seed = 4%nat → perm l → 0 ≤ i → i + Z.of_nat n ≤ 256 → ∃ l', seed_loop n seed l i j = Ok l' ∧ perm l'.
Proof.
  induction n as [|n IH]; intros l i j Hs Hp Hi Hn; cbn [seed_loop]; [by exists l|].
  destruct (perm_lookup l i Hp) as (x & -> & _); [lia|]. cbn [from_opt mbind res_bind].
  destruct (lookup_lt_is_Some_2 seed (Z.to_nat (i mod 4))) as [k ->]; [pose proof (Z.mod_pos_bound i 4); lia|]. cbn [from_opt mbind res_bind].
  destruct (swap_byte_perm l i (u8 (j + (x + k))) Hp) as (l' & -> & Hp'); [lia|apply u8_range|]. cbn [mbind res_bind]. apply IH; done || lia.
Qed.

Lemma bytes_loop_perm n : ∀ r, perm (s r) → ∃ l r', bytes_loop n r = Ok (l, r') ∧ length l = n ∧ Forall byte l ∧ perm (s r') ∧ inited r' = inited r.
Proof.
  induction n as [|n IH]; intros r Hp; cbn [bytes_loop]; [by exists [], r|].
  destruct (perm_lookup (s r) (u8 (s_i r + 1)) Hp (u8_range _)) as (x & -> & _). cbn [from_opt mbind res_bind].
  destruct (swap_byte_perm (s r) (u8 (s_i r + 1)) (u8 (s_j r + x)) Hp (u8_range _) (u8_range _)) as (l & -> & Hl). cbn [mbind res_bind].
  destruct (perm_lookup l (u8 (s_i r + 1)) Hl (u8_range _)) as (a & -> & _). cbn [from_opt mbind res_bind].
  destruct (perm_lookup l (u8 (s_j r + x)) Hl (u8_range _)) as (b & -> & _). cbn [from_opt mbind res_bind].
  destruct (perm_lookup l (u8 (a + b)) Hl (u8_range _)) as (out & -> & Ho). cbn [from_opt mbind res_bind].
  destruct (IH (Rng l (u8 (s_i r + 1)) (u8 (s_j r + x)) (inited r)) Hl) as (rest & r' & -> & H1 & H2 & H3 & H4). cbn [mbind res_bind].
  exists (out :: rest), r'. split; [done|]. split; [by rewrite <- H1|]. split; [by apply Forall_cons|done].
Qed.

(** the state of the generator stays a permutation of the 256 bytes, so that no index is ever out of
    range: after seeding with any number, or without seeding at all, any number of bytes can
    be drawn, and [random_ulong] returns an unsigned 32-bit number. *)
Theorem random_state_permutation (seeded : option Z) junk sizes :
  let start := match seeded with Some seed => random_init seed | None => Ok (Rng junk 0 0 false) end in
  ∃ r, foldl (λ m n, r ← m; '(_, r) ← random_bytes r n; Ok r) start sizes = Ok r
    ∧ (inited r = true → perm (s r)) ∧ ∃ v r', random_ulong r = Ok (v, r') ∧ 0 ≤ v < 2 ^ 32 ∧ perm (s r').
Proof.
  intros start.
  assert (Hinit : ∀ seed, ∃ r, random_init seed = Ok r ∧ perm (s r) ∧ inited r = true).
  { intros seed. destruct (seed_loop_perm (le_bytes 4 seed) 256 (seqZ 0 256) 0 0) as (l & E & Hp); [done|unfold perm; reflexivity|lia|lia|]. exists (Rng l 0 0 true). unfold random_init. by rewrite E. }
  assert (Hbytes : ∀ r n, (inited r = true → perm (s r)) → ∃ l r', random_bytes r n = Ok (l, r') ∧ length l = Z.to_nat n ∧ Forall byte l ∧ perm (s r') ∧ inited r' = true).
  { intros r n Hr. unfold random_bytes. destruct (inited r) eqn:Ei; cbn [negb].
    - cbn [mbind res_bind]. destruct (bytes_loop_perm (Z.to_nat n) r (Hr eq_refl)) as (l & r' & E & H1 & H2 & H3 & H4). exists l, r'. by rewrite H4.
    - destruct (Hinit 0) as (r0 & -> & Hp & E0). cbn [mbind res_bind]. destruct (bytes_loop_perm (Z.to_nat n) r0 Hp) as (l & r' & E & H1 & H2 & H3 & H4). exists l, r'. by rewrite H4. }
  assert (Hall : ∀ l r, (inited r = true → perm (s r)) →
    ∃ r', foldl (λ m n, r ← m; '(_, r) ← random_bytes r n; Ok r) (Ok r) l = Ok r' ∧ (inited r' = true → perm (s r'))).
  { induction l as [|n l IH]; intros r Hr; cbn [foldl]; [by exists r|]. cbn [mbind res_bind]. destruct (Hbytes r n Hr) as (o & r1 & -> & _ & _ & Hp & _). cbn [mbind res_bind]. by apply IH. }
  assert (Hstart : ∃ r, start = Ok r ∧ (inited r = true → perm (s r))).
  { unfold start. destruct seeded as [seed|]; [|by eexists]. destruct (Hinit seed) as (r & E & Hp & _). by exists r. }
  destruct Hstart as (r0 & -> & Hr0). destruct (Hall sizes r0 Hr0) as (r & -> & Hr). exists r. split; [done|]. split; [done|].
  destruct (Hbytes r 4 Hr) as (l & r' & E & Hl & Hb & Hp & _). exists (le_value l), r'. unfold random_ulong. rewrite E. split; [done|]. split; [|done].
  pose proof (le_value_range l Hb) as Hv. rewrite Hl in Hv. exact Hv.
Qed.

End Random.
