(* ===== verification/Inode.v ===== *)
(** * Inodes and files, [filesys/inode.c], [filesys/file.c], [filesys/free-map.c]

    The state of the file system: the device, the inodes and files in memory and
    the free map.  [malloc] is represented by its contract: it returns null or an
    address that is not in use, as [supply] decides. *)

From S2P Require Import Prelude Bitmap Disk.

Module Inode.
Import Bitmap Disk.

Definition INODE_MAGIC : Z := 0x494e4f44.

Record inode_disk := InodeDisk { start : Z; ilength : Z; magic : Z }.

(** The sector that holds an on-disk inode. *)
Definition encode (d : inode_disk) : list Z :=
  le_bytes 4 (start d) ++ le_bytes 4 (u32 (ilength d)) ++ le_bytes 4 (magic d) ++ replicate 500 0.
Definition decode (l : list Z) : inode_disk :=
  InodeDisk (le_value (slice 0 4 l)) (s32 (le_value (slice 4 4 l))) (le_value (slice 8 4 l)).

Record inode := Node {
  sector : Z;
  open_cnt : Z;
  removed : bool;
  deny_write_cnt : Z;
  idata : inode_disk
}.

Record file := File { finode : Z; pos : Z; deny_write : bool }.

Record fs := FS {
  fs_device : block;
  inodes : gmap Z inode;
  open_inodes : list Z;
  files : gmap Z file;
  free_map : bitmap;
  free_map_file : Z;
  supply : nat → bool;
  calls : nat
}.

Definition set_dev (s : fs) (b : block) : fs :=
  FS b (inodes s) (open_inodes s) (files s) (free_map s) (free_map_file s) (supply s) (calls s).
Definition set_inodes (s : fs) (m : gmap Z inode) (l : list Z) : fs :=
  FS (fs_device s) m l (files s) (free_map s) (free_map_file s) (supply s) (calls s).
Definition set_files (s : fs) (m : gmap Z file) : fs :=
  FS (fs_device s) (inodes s) (open_inodes s) m (free_map s) (free_map_file s) (supply s) (calls s).
Definition set_free_map (s : fs) (b : bitmap) : fs :=
  FS (fs_device s) (inodes s) (open_inodes s) (files s) b (free_map_file s) (supply s) (calls s).
Definition set_free_map_file (s : fs) (f : Z) : fs :=
  FS (fs_device s) (inodes s) (open_inodes s) (files s) (free_map s) f (supply s) (calls s).

(** [malloc] and [calloc]: null (0) or a new address. *)
Definition malloc (s : fs) : Z * fs :=
  (if supply s (calls s) then 16 * (Z.of_nat (calls s) + 1) else 0,
   FS (fs_device s) (inodes s) (open_inodes s) (files s) (free_map s) (free_map_file s)
      (supply s) (S (calls s))).

(** [DIV_ROUND_UP] in signed arithmetic, which wraps around near the largest
    [off_t]. *)
Definition bytes_to_sectors (sz : Z) : Z :=
  u32 (Z.quot (s32 (sz + BLOCK_SECTOR_SIZE - 1)) BLOCK_SECTOR_SIZE).

Definition inode_length (i : inode) : Z := ilength (idata i).
Definition inode_get_inumber (i : inode) : Z := sector i.

Definition byte_to_sector (i : inode) (p : Z) : Z :=
  if p <? ilength (idata i) then u32 (start (idata i) + Z.quot p BLOCK_SECTOR_SIZE) else u32 (-1).

(** ** Reading *)

(** The number of bytes that one turn of the loops transfers. *)
Definition chunk_size (i : inode) (sz offset : Z) : Z :=
  let inode_left := s32 (inode_length i - offset) in
  let sector_left := BLOCK_SECTOR_SIZE - Z.rem offset BLOCK_SECTOR_SIZE in
  let min_left := if inode_left <? sector_left then inode_left else sector_left in
  if sz <? min_left then sz else min_left.

(** [acc] is what has been read; each turn reads at least one byte. *)
Fixpoint read_loop (n : nat) (s : fs) (i : inode) (bounce sz offset : Z) (acc : list Z)
    : res (list Z * fs) :=
  match n with
  | O => Fuel
  | S n =>
      if sz <=? 0 then Ok (acc, s) else
      let sector_idx := byte_to_sector i offset in
      let sector_ofs := Z.rem offset BLOCK_SECTOR_SIZE in
      let chunk := chunk_size i sz offset in
      if chunk <=? 0 then Ok (acc, s) else
      if (sector_ofs =? 0) && (chunk =? BLOCK_SECTOR_SIZE) then
        '(buf, dev) ← block_read (fs_device s) sector_idx;
        read_loop n (set_dev s dev) i bounce (s32 (sz - chunk)) (s32 (offset + chunk)) (acc ++ buf)
      else
        let '(bounce, s) := if bounce =? 0 then malloc s else (bounce, s) in
        if bounce =? 0 then Ok (acc, s) else
        '(buf, dev) ← block_read (fs_device s) sector_idx;
        read_loop n (set_dev s dev) i bounce (s32 (sz - chunk)) (s32 (offset + chunk))
          (acc ++ slice sector_ofs chunk buf)
  end.

(** The bytes that are read, at most [sz] from [offset] on. *)
Definition inode_read_at (s : fs) (ip sz offset : Z) : res (list Z * fs) :=
  i ← from_opt (inodes s !! ip);
  read_loop (S (Z.to_nat sz)) s i 0 sz offset [].

(** ** Writing *)

(** [buf] is what is left to write; [written] counts. *)
Fixpoint write_loop (n : nat) (s : fs) (i : inode) (bounce sz offset : Z) (buf : list Z) (written : Z)
    : res (Z * fs) :=
  match n with
  | O => Fuel
  | S n =>
      if sz <=? 0 then Ok (written, s) else
      let sector_idx := byte_to_sector i offset in
      let sector_ofs := Z.rem offset BLOCK_SECTOR_SIZE in
      let sector_left := BLOCK_SECTOR_SIZE - sector_ofs in
      let chunk := chunk_size i sz offset in
      if chunk <=? 0 then Ok (written, s) else
      let next s bounce :=
        write_loop n s i bounce (s32 (sz - chunk)) (s32 (offset + chunk))
          (drop (Z.to_nat chunk) buf) (s32 (written + chunk)) in
      if (sector_ofs =? 0) && (chunk =? BLOCK_SECTOR_SIZE) then
        dev ← block_write (fs_device s) sector_idx (take (Z.to_nat chunk) buf);
        next (set_dev s dev) bounce
      else
        let '(bounce, s) := if bounce =? 0 then malloc s else (bounce, s) in
        if bounce =? 0 then Ok (written, s) else
        '(old, dev) ← (if (0 <? sector_ofs) || (chunk <? sector_left)
                       then block_read (fs_device s) sector_idx
                       else Ok (replicate (Z.to_nat BLOCK_SECTOR_SIZE) 0, fs_device s));
        dev ← block_write dev sector_idx (splice sector_ofs (take (Z.to_nat chunk) buf) old);
        next (set_dev s dev) bounce
  end.

Definition inode_write_at (s : fs) (ip : Z) (buf : list Z) (sz offset : Z) : res (Z * fs) :=
  i ← from_opt (inodes s !! ip);
  if negb (deny_write_cnt i =? 0) then Ok (0, s) else
  write_loop (S (Z.to_nat sz)) s i 0 sz offset buf 0.

(** ** Open inodes *)

Definition upd_inode (s : fs) (ip : Z) (f : inode → inode) : fs :=
  set_inodes s (alter f ip (inodes s)) (open_inodes s).

Definition inode_reopen (s : fs) (ip : Z) : fs :=
  upd_inode s ip (λ i, Node (sector i) (open_cnt i + 1) (removed i) (deny_write_cnt i) (idata i)).

(** The loop over [open_inodes]. *)
Fixpoint find_open (s : fs) (sec : Z) (l : list Z) : option Z :=
  match l with
  | [] => None
  | ip :: l =>
      match inodes s !! ip with
      | Some i => if sector i =? sec then Some ip else find_open s sec l
      | None => find_open s sec l
      end
  end.

Definition inode_open (s : fs) (sec : Z) : res (Z * fs) :=
  match find_open s sec (open_inodes s) with
  | Some ip => Ok (ip, inode_reopen s ip)
  | None =>
      let '(ip, s) := malloc s in
      if ip =? 0 then Ok (0, s) else
      '(buf, dev) ← block_read (fs_device s) sec;
      Ok (ip, set_dev (set_inodes s (<[ip := Node sec 1 false 0 (decode buf)]> (inodes s))
                         (ip :: open_inodes s)) dev)
  end.

Definition inode_remove (s : fs) (ip : Z) : res fs :=
  _ ← from_opt (inodes s !! ip);
  Ok (upd_inode s ip (λ i, Node (sector i) (open_cnt i) true (deny_write_cnt i) (idata i))).

Definition inode_deny_write (s : fs) (ip : Z) : res fs :=
  i ← from_opt (inodes s !! ip);
  ASSERT deny_write_cnt i + 1 <=? open_cnt i;;
  Ok (upd_inode s ip (λ i, Node (sector i) (open_cnt i) (removed i) (deny_write_cnt i + 1) (idata i))).
Definition inode_allow_write (s : fs) (ip : Z) : res fs :=
  i ← from_opt (inodes s !! ip);
  ASSERT 0 <? deny_write_cnt i;;
  ASSERT deny_write_cnt i <=? open_cnt i;;
  Ok (upd_inode s ip (λ i, Node (sector i) (open_cnt i) (removed i) (deny_write_cnt i - 1) (idata i))).

(** ** Files: positions *)

Definition file_read_at (s : fs) (f sz ofs : Z) : res (list Z * fs) :=
  fl ← from_opt (files s !! f); inode_read_at s (finode fl) sz ofs.
Definition file_write_at (s : fs) (f : Z) (buf : list Z) (sz ofs : Z) : res (Z * fs) :=
  fl ← from_opt (files s !! f); inode_write_at s (finode fl) buf sz ofs.

Definition upd_file (s : fs) (f : Z) (g : file → file) : fs := set_files s (alter g f (files s)).

Definition file_read (s : fs) (f sz : Z) : res (list Z * fs) :=
  fl ← from_opt (files s !! f);
  '(buf, s) ← inode_read_at s (finode fl) sz (pos fl);
  Ok (buf, upd_file s f (λ fl, File (finode fl) (s32 (pos fl + Zlength buf)) (deny_write fl))).
Definition file_write (s : fs) (f : Z) (buf : list Z) (sz : Z) : res (Z * fs) :=
  fl ← from_opt (files s !! f);
  '(n, s) ← inode_write_at s (finode fl) buf sz (pos fl);
  Ok (n, upd_file s f (λ fl, File (finode fl) (s32 (pos fl + n)) (deny_write fl))).

Definition file_deny_write (s : fs) (f : Z) : res fs :=
  fl ← from_opt (files s !! f);
  if deny_write fl then Ok s
  else inode_deny_write (upd_file s f (λ fl, File (finode fl) (pos fl) true)) (finode fl).
Definition file_allow_write (s : fs) (f : Z) : res fs :=
  fl ← from_opt (files s !! f);
  if deny_write fl then inode_allow_write (upd_file s f (λ fl, File (finode fl) (pos fl) false)) (finode fl)
  else Ok s.

Definition file_length (s : fs) (f : Z) : res Z :=
  fl ← from_opt (files s !! f); i ← from_opt (inodes s !! finode fl); Ok (inode_length i).
Definition file_seek (s : fs) (f new_pos : Z) : res fs :=
  _ ← from_opt (files s !! f);
  ASSERT 0 <=? new_pos;;
  Ok (upd_file s f (λ fl, File (finode fl) new_pos (deny_write fl))).
Definition file_tell (s : fs) (f : Z) : res Z :=
  fl ← from_opt (files s !! f); Ok (pos fl).

(** ** The free map *)

Definition FREE_MAP_SECTOR : Z := 0.
Definition ROOT_DIR_SECTOR : Z := 1.

(** The words of a bitmap as bytes in memory, and back. *)
Definition words_bytes (ws : list Z) : list Z := ws ≫= le_bytes 4.
Fixpoint bytes_words (n : nat) (l : list Z) : list Z :=
  match n with O => [] | S n => le_value (take 4 l) :: bytes_words n (drop 4 l) end.

Definition bitmap_write (s : fs) (b : bitmap) (f : Z) : res (bool * fs) :=
  let sz := byte_cnt (bit_cnt b) in
  '(n, s) ← file_write_at s f (words_bytes (bits b)) sz 0;
  Ok (n =? sz, s).

(** A short read leaves the rest of the words as they were. *)
Definition bitmap_read (s : fs) (b : bitmap) (f : Z) : res (bool * bitmap * fs) :=
  if 0 <? bit_cnt b then
    let sz := byte_cnt (bit_cnt b) in
    '(got, s) ← file_read_at s f sz 0;
    let ws := bytes_words (length (bits b)) (splice 0 got (words_bytes (bits b))) in
    let last := elem_cnt (bit_cnt b) - 1 in
    let b' := Bm (bit_cnt b) ws in
    w ← word b' last;
    Ok (Zlength got =? sz, set_word b' last (Z.land w (last_mask b')), s)
  else Ok (true, b, s).

(** [mem] are the two allocations of [bitmap_create]. *)
Definition free_map_init (s : fs) (mem1 : bool) (mem2 : option (list Z)) : res fs :=
  ob ← bitmap_create mem1 mem2 (block_size (fs_device s));
  match ob with
  | None => Panic
  | Some b =>
      b ← bitmap_mark b FREE_MAP_SECTOR;
      b ← bitmap_mark b ROOT_DIR_SECTOR;
      Ok (set_free_map s b)
  end.

(** [None] if no sectors could be allocated. *)
Definition free_map_allocate (s : fs) (cnt : Z) : res (option Z * fs) :=
  '(sec, b) ← bitmap_scan_and_flip (free_map s) 0 cnt false;
  let s := set_free_map s b in
  if negb (sec =? BITMAP_ERROR) && negb (free_map_file s =? 0) then
    '(ok, s) ← bitmap_write s (free_map s) (free_map_file s);
    if (ok : bool) then Ok (Some sec, s)
    else
      b ← bitmap_set_multiple (free_map s) sec cnt false;
      Ok (None, set_free_map s b)
  else Ok (if sec =? BITMAP_ERROR then None else Some sec, s).

Definition free_map_release (s : fs) (sec cnt : Z) : res fs :=
  all ← bitmap_all (free_map s) sec cnt;
  ASSERT (all : bool);;
  b ← bitmap_set_multiple (free_map s) sec cnt false;
  '(_, s) ← bitmap_write (set_free_map s b) b (free_map_file s);
  Ok s.

(** ** Creating and closing inodes *)

Fixpoint zero_sectors (n : nat) (b : block) (sec : Z) : res block :=
  match n with
  | O => Ok b
  | S n =>
      b ← block_write b (u32 sec) (replicate (Z.to_nat BLOCK_SECTOR_SIZE) 0);
      zero_sectors n b (sec + 1)
  end.

Definition inode_create (s : fs) (sec len : Z) : res (bool * fs) :=
  ASSERT 0 <=? len;;
  let '(p, s) := malloc s in
  if p =? 0 then Ok (false, s) else
  let sectors := bytes_to_sectors len in
  '(st, s) ← free_map_allocate s sectors;
  match st with
  | None => Ok (false, s)
  | Some st =>
      dev ← block_write (fs_device s) sec (encode (InodeDisk st len INODE_MAGIC));
      dev ← zero_sectors (Z.to_nat sectors) dev st;
      Ok (true, set_dev s dev)
  end.

(** The memory of the inode is not used any more once it is out of the list. *)
Definition inode_close (s : fs) (ip : Z) : res fs :=
  if ip =? 0 then Ok s else
  i ← from_opt (inodes s !! ip);
  let i := Node (sector i) (open_cnt i - 1) (removed i) (deny_write_cnt i) (idata i) in
  if open_cnt i =? 0 then
    let s := set_inodes s (delete ip (inodes s)) (filter (λ q, q ≠ ip) (open_inodes s)) in
    if removed i then
      s ← free_map_release s (sector i) 1;
      free_map_release s (start (idata i)) (bytes_to_sectors (ilength (idata i)))
    else Ok s
  else Ok (set_inodes s (<[ip := i]> (inodes s)) (open_inodes s)).

(** ** Opening and closing files *)

Definition file_open (s : fs) (ip : Z) : res (Z * fs) :=
  let '(f, s) := malloc s in
  if negb (ip =? 0) && negb (f =? 0) then
    Ok (f, set_files s (<[f := File ip 0 false]> (files s)))
  else s ← inode_close s ip; Ok (0, s).

Definition file_reopen (s : fs) (f : Z) : res (Z * fs) :=
  fl ← from_opt (files s !! f);
  file_open (inode_reopen s (finode fl)) (finode fl).

Definition file_close (s : fs) (f : Z) : res fs :=
  if f =? 0 then Ok s else
  s ← file_allow_write s f;
  fl ← from_opt (files s !! f);
  s ← inode_close s (finode fl);
  Ok (set_files s (delete f (files s))).

Definition free_map_open (s : fs) : res fs :=
  '(ip, s) ← inode_open s FREE_MAP_SECTOR;
  '(f, s) ← file_open s ip;
  let s := set_free_map_file s f in
  if f =? 0 then Panic else
  '(ok, b, s) ← bitmap_read s (free_map s) f;
  if (ok : bool) then Ok (set_free_map s b) else Panic.

Definition free_map_close (s : fs) : res fs := file_close s (free_map_file s).

Definition free_map_create (s : fs) : res fs :=
  '(ok, s) ← inode_create s FREE_MAP_SECTOR (bitmap_file_size (free_map s));
  if negb ok then Panic else
  '(ip, s) ← inode_open s FREE_MAP_SECTOR;
  '(f, s) ← file_open s ip;
  let s := set_free_map_file s f in
  if f =? 0 then Panic else
  '(ok, s) ← bitmap_write s (free_map s) f;
  if (ok : bool) then Ok s else Panic.

(** ** Reads and writes are transfers of ranges *)

(** The inode's data lies on the device. *)
Definition node_ok (b : block) (i : inode) : Prop :=
  0 ≤ start (idata i) ∧ 0 ≤ ilength (idata i) ≤ 2 ^ 31 - 512 ∧
  start (idata i) + (ilength (idata i) + 511) / 512 ≤ size b.

(** Every [malloc] from now on succeeds. *)
Definition mem_ok (s : fs) : Prop := ∀ n, (calls s ≤ n)%nat → supply s n = true.

(** The contents of the file. *)
Definition content (b : block) (i : inode) : list Z :=
  slice (512 * start (idata i)) (ilength (idata i)) (data b).

(** The number of bytes that a transfer of [sz] bytes at [offset] moves. *)
Definition avail (i : inode) (sz offset : Z) : Z := Z.max 0 (Z.min sz (inode_length i - offset)).

(** Two states that differ in the contents of the device, the number of accesses to
    it and the calls of [malloc] only. *)
Record same_but_data (s s' : fs) : Prop := {
  sd_inodes : inodes s' = inodes s;
  sd_open : open_inodes s' = open_inodes s;
  sd_files : files s' = files s;
  sd_map : free_map s' = free_map s;
  sd_map_file : free_map_file s' = free_map_file s;
  sd_supply : supply s' = supply s;
  sd_calls : (calls s ≤ calls s')%nat;
  sd_size : size (fs_device s') = size (fs_device s);
  sd_type : type (fs_device s') = type (fs_device s)
}.
#[export] Instance same_but_data_refl : Reflexive same_but_data.
Proof. by split. Qed.
#[export] Instance same_but_data_trans : Transitive same_but_data.
Proof. intros s1 s2 s3 [] []. split; try congruence. lia. Qed.

Lemma mem_ok_same s s' : same_but_data s s' → mem_ok s → mem_ok s'.
Proof. intros Hs Hm n Hn. rewrite (sd_supply _ _ Hs). apply Hm. pose proof (sd_calls _ _ Hs). lia. Qed.
Lemma node_ok_same s s' i :
  same_but_data s s' → node_ok (fs_device s) i → node_ok (fs_device s') i.
Proof. intros Hs. unfold node_ok. by rewrite (sd_size _ _ Hs). Qed.
Lemma block_ok_same s s' :
  same_but_data s s' → Zlength (data (fs_device s')) = Zlength (data (fs_device s)) →
  block_ok (fs_device s) → block_ok (fs_device s').
Proof. intros Hs Hl (H1 & H2 & H3). unfold block_ok. rewrite (sd_size _ _ Hs), (sd_type _ _ Hs), Hl. done. Qed.

Lemma malloc_same s : same_but_data s (malloc s).2 ∧ (mem_ok s → (malloc s).1 ≠ 0)
  ∧ fs_device (malloc s).2 = fs_device s.
Proof.
  split; [split; simpl; try done; lia|]. split; [|done]. intros Hm. simpl. rewrite Hm by lia. lia.
Qed.

Lemma sector_split o : 0 ≤ o → o = 512 * (o / 512) + o mod 512 ∧ 0 ≤ o mod 512 < 512.
Proof. intros Ho. pose proof (Z.div_mod o 512). pose proof (Z.mod_pos_bound o 512). lia. Qed.

(** One turn of the loops: which sector, where in it, how much. *)
Lemma chunk_spec b i sz offset :
  node_ok b i → size b < 2 ^ 32 → 0 < sz < 2 ^ 31 → 0 ≤ offset < 2 ^ 31 →
  let c := chunk_size i sz offset in
  c = Z.min sz (Z.min (inode_length i - offset) (512 - offset mod 512)) ∧
  Z.rem offset 512 = offset mod 512 ∧
  (0 < c → ∃ sec, byte_to_sector i offset = sec ∧ 0 ≤ sec < size b ∧
     512 * start (idata i) + offset = 512 * sec + offset mod 512 ∧ offset mod 512 + c ≤ 512 ∧
     offset + c ≤ inode_length i ∧ c ≤ sz).
Proof.
  intros (Hst & Hlen & Hfit) Hsize Hsz Hofs. unfold chunk_size, inode_length, BLOCK_SECTOR_SIZE.
  rewrite (s32_small (ilength (idata i) - offset)) by lia. rewrite Z.rem_mod_nonneg by lia.
  pose proof (sector_split offset (proj1 Hofs)) as [Hd Hm].
  assert (E : (if sz <? (if ilength (idata i) - offset <? 512 - offset mod 512
    then ilength (idata i) - offset else 512 - offset mod 512)
    then sz else if ilength (idata i) - offset <? 512 - offset mod 512
    then ilength (idata i) - offset else 512 - offset mod 512)
    = Z.min sz (Z.min (ilength (idata i) - offset) (512 - offset mod 512))).
  { repeat case_match; zbool; lia. }
  rewrite E. split; [done|]. split; [done|]. intros Hc.
  assert (Hsec : offset / 512 < (ilength (idata i) + 511) / 512).
  { apply Z.div_lt_upper_bound; [lia|].
    pose proof (Z.div_mod (ilength (idata i) + 511) 512). pose proof (Z.mod_pos_bound (ilength (idata i) + 511) 512). lia. }
  assert (0 ≤ offset / 512) by (apply Z.div_pos; lia).
  exists (start (idata i) + offset / 512). unfold byte_to_sector, BLOCK_SECTOR_SIZE.
  rewrite (proj2 (Z.ltb_lt _ _)) by lia. rewrite Z.quot_div_nonneg, u32_small by lia. lia.
Qed.

Lemma avail_step i sz offset c :
  0 < c → c ≤ sz → offset + c ≤ inode_length i →
  avail i sz offset = c + avail i (sz - c) (offset + c).
Proof. unfold avail. lia. Qed.
Lemma avail_stop b i sz offset :
  node_ok b i → size b < 2 ^ 32 → 0 < sz < 2 ^ 31 → 0 ≤ offset < 2 ^ 31 →
  chunk_size i sz offset ≤ 0 → avail i sz offset = 0.
Proof.
  intros Hi Hb Hsz Ho Hc. destruct (chunk_spec b i sz offset Hi Hb Hsz Ho) as (E & _ & _).
  pose proof (sector_split offset). unfold avail. lia.
Qed.

(** What the loop returns from state [s] on, with [sz] bytes left to read. *)
Definition read_result (s : fs) (i : inode) (bounce sz offset : Z) (acc : list Z)
    (r : res (list Z * fs)) : Prop :=
  ∃ m s', r = Ok (acc ++ slice (512 * start (idata i) + offset) m (data (fs_device s)), s')
    ∧ 0 ≤ m ≤ avail i sz offset ∧ (bounce ≠ 0 ∨ mem_ok s → m = avail i sz offset)
    ∧ same_but_data s s' ∧ data (fs_device s') = data (fs_device s).

Lemma read_result_stop s s1 i bounce sz offset acc :
  same_but_data s s1 → data (fs_device s1) = data (fs_device s) →
  (bounce ≠ 0 ∨ mem_ok s → avail i sz offset = 0) →
  read_result s i bounce sz offset acc (Ok (acc, s1)).
Proof.
  intros Hs1 Hd1 Ha. exists 0, s1. unfold slice. simpl. rewrite app_nil_r.
  split; [done|]. split; [unfold avail; lia|]. split; [|done]. intros Hm. symmetry. auto.
Qed.

Lemma read_result_step s s1 i bounce bounce1 sz offset c acc chunk r :
  0 ≤ start (idata i) → 0 ≤ offset → 0 < c → c ≤ sz → offset + c ≤ inode_length i →
  same_but_data s s1 → data (fs_device s1) = data (fs_device s) →
  (bounce ≠ 0 ∨ mem_ok s → bounce1 ≠ 0 ∨ mem_ok s1) →
  chunk = slice (512 * start (idata i) + offset) c (data (fs_device s)) →
  read_result s1 i bounce1 (sz - c) (offset + c) (acc ++ chunk) r → read_result s i bounce sz offset acc r.
Proof.
  intros Hst Ho Hc Hcs Hend Hs1 Hd1 Hbn -> (m & s' & -> & Hm & Hfull & Hs' & Hd').
  exists (c + m), s'. split.
  - f_equal. f_equal. rewrite Hd1, <- app_assoc. f_equal. rewrite Z.add_assoc. apply slice_app; lia.
  - rewrite (avail_step i sz offset c) by lia. split; [lia|]. split; [intros Hx; rewrite Hfull; auto; lia|].
    split; [by etrans|congruence].
Qed.

(** The bounce buffer: allocated once. *)
Lemma bounce_spec s bounce :
  let p := if bounce =? 0 then malloc s else (bounce, s) in
  same_but_data s p.2 ∧ fs_device p.2 = fs_device s ∧ (bounce ≠ 0 ∨ mem_ok s → p.1 ≠ 0).
Proof.
  destruct (malloc_same s) as (Hms & Hmm & Hmd).
  destruct (Z.eqb_spec bounce 0) as [->|]; cbv zeta; [|by split_and!; simpl; auto].
  split_and!; [done..|]. intros [?|?]; [done|auto].
Qed.

Lemma read_loop_spec n s i bounce sz offset acc :
  block_ok (fs_device s) → node_ok (fs_device s) i → 0 ≤ sz < 2 ^ 31 → 0 ≤ offset < 2 ^ 31 →
  (Z.to_nat sz < n)%nat →
  read_result s i bounce sz offset acc (read_loop n s i bounce sz offset acc).
Proof.
  revert s bounce sz offset acc. induction n as [|n IH]; intros s bounce sz offset acc Hb Hi Hsz Ho Hn; [lia|].
  cbn [read_loop]. destruct (Z.leb_spec sz 0) as [Hz|Hz].
  { apply read_result_stop; [done..|]. intros _. unfold avail. lia. }
  cbv zeta. unfold BLOCK_SECTOR_SIZE. set (c := chunk_size i sz offset).
  pose proof Hb as (Hsize & _ & _). pose proof Hi as (Hst & Hlen & _).
  destruct (chunk_spec (fs_device s) i sz offset Hi) as (_ & Er & Hc); [lia..|]. fold c in Hc.
  destruct (Z.leb_spec c 0) as [Hc0|Hc0].
  { apply read_result_stop; [done..|]. intros _. by apply (avail_stop (fs_device s)); try lia. }
  destruct (Hc Hc0) as (sec & -> & Hsec & Epos & Hin & Hend & Hcsz). rewrite Er.
  pose proof (sector_split offset (proj1 Ho)) as [_ Hmod].
  assert (offset + c < 2 ^ 31) by (unfold inode_length in Hend; lia).
  rewrite (s32_small (sz - c)), (s32_small (offset + c)) by lia.
  assert (Hrec : ∀ s1 bn acc, same_but_data s s1 → data (fs_device s1) = data (fs_device s) →
    read_result s1 i bn (sz - c) (offset + c) acc (read_loop n s1 i bn (sz - c) (offset + c) acc)).
  { intros s1 bn acc1 Hs1 Hd1. apply IH; [|by apply (node_ok_same s)|lia..].
    apply (block_ok_same s); [done|by rewrite Hd1|done]. }
  destruct ((offset mod 512 =? 0) && (c =? 512)) eqn:Efull; zbool.
  - rewrite block_read_ok by done. cbn [mbind res_bind].
    eapply read_result_step, Hrec; try done; try lia. f_equal; lia.
  - destruct (bounce_spec s bounce) as (Hs1 & Hd1 & Hbn).
    destruct (if bounce =? 0 then malloc s else (bounce, s)) as [bn s1]. simpl in Hs1, Hd1, Hbn.
    destruct (Z.eqb_spec bn 0) as [E0|E0].
    + apply read_result_stop; [done|by rewrite Hd1|]. intros Hx. by apply Hbn in Hx.
    + rewrite Hd1, block_read_ok by done. cbn [mbind res_bind].
      assert (Hs2 : same_but_data s (set_dev s1 (count_read (fs_device s)))).
      { etrans; [exact Hs1|]. by split; simpl; rewrite ?Hd1. }
      eapply read_result_step, Hrec; try done; try lia; auto.
      rewrite slice_slice by lia. f_equal. lia.
Qed.

(** [inode_read_at] terminates and returns the bytes of the file from [offset] on,
    as many as are asked for and exist; fewer only if the bounce buffer cannot be
    allocated.  It changes no data. *)
Lemma inode_read_at_spec s ip i sz offset :
  inodes s !! ip = Some i → block_ok (fs_device s) → node_ok (fs_device s) i →
  0 ≤ sz < 2 ^ 31 → 0 ≤ offset < 2 ^ 31 →
  ∃ m s', inode_read_at s ip sz offset = Ok (slice offset m (content (fs_device s) i), s')
    ∧ 0 ≤ m ≤ avail i sz offset ∧ (mem_ok s → m = avail i sz offset)
    ∧ same_but_data s s' ∧ data (fs_device s') = data (fs_device s).
Proof.
  intros Hip Hb Hi Hsz Ho. unfold inode_read_at. rewrite Hip. cbn [from_opt mbind res_bind].
  destruct (read_loop_spec (S (Z.to_nat sz)) s i 0 sz offset [] Hb Hi Hsz Ho) as (m & s' & E & Hm & Hf & Hs & Hd);
    [lia|]. exists m, s'. rewrite E. split.
  - f_equal. f_equal. simpl. unfold content. destruct (decide (m = 0)) as [->|].
    + done.
    + rewrite slice_slice; [done|destruct Hi; lia|lia|]. unfold avail, inode_length in Hm. lia.
  - split; [done|]. split; [auto|done].
Qed.

Lemma node_fits b i : node_ok b i → 512 * start (idata i) + ilength (idata i) ≤ 512 * size b.
Proof.
  intros (H1 & H2 & H3). pose proof (Z.div_mod (ilength (idata i) + 511) 512).
  pose proof (Z.mod_pos_bound (ilength (idata i) + 511) 512). lia.
Qed.

(** What the loop returns: the [m] bytes that it writes are stored in place. *)
Definition write_result (s : fs) (i : inode) (bounce sz offset : Z) (buf : list Z) (written : Z)
    (r : res (Z * fs)) : Prop :=
  ∃ m s', r = Ok (written + m, s')
    ∧ 0 ≤ m ≤ avail i sz offset ∧ (bounce ≠ 0 ∨ mem_ok s → m = avail i sz offset)
    ∧ same_but_data s s'
    ∧ data (fs_device s') =
        splice (512 * start (idata i) + offset) (take (Z.to_nat m) buf) (data (fs_device s)).

Lemma write_result_stop s s1 i bounce sz offset buf written :
  same_but_data s s1 → data (fs_device s1) = data (fs_device s) →
  (bounce ≠ 0 ∨ mem_ok s → avail i sz offset = 0) →
  write_result s i bounce sz offset buf written (Ok (written, s1)).
Proof.
  intros Hs1 Hd1 Ha. exists 0, s1. rewrite Z.add_0_r, Hd1. simpl. rewrite take_0, splice_nil.
  split; [done|]. split; [unfold avail; lia|]. split; [|done]. intros Hm. symmetry. auto.
Qed.

Lemma write_result_step s s1 i bounce bounce1 sz offset c buf written r :
  block_ok (fs_device s) → node_ok (fs_device s) i →
  0 ≤ offset → 0 < c → c ≤ sz → sz ≤ Zlength buf → offset + c ≤ inode_length i →
  same_but_data s s1 →
  data (fs_device s1) =
    splice (512 * start (idata i) + offset) (take (Z.to_nat c) buf) (data (fs_device s)) →
  (bounce ≠ 0 ∨ mem_ok s → bounce1 ≠ 0 ∨ mem_ok s1) →
  write_result s1 i bounce1 (sz - c) (offset + c) (drop (Z.to_nat c) buf) (written + c) r →
  write_result s i bounce sz offset buf written r.
Proof.
  intros Hb Hi Ho Hc Hcs Hbuf Hend Hs1 Hd1 Hbn (m & s' & -> & Hm & Hfull & Hs' & Hd').
  exists (c + m), s'. split; [f_equal; f_equal; lia|].
  rewrite (avail_step i sz offset c) by lia. split; [lia|]. split; [intros Hx; rewrite Hfull; auto; lia|].
  split; [by etrans|]. pose proof (node_fits _ _ Hi). pose proof Hi as (Hst & _ & _).
  destruct Hb as (_ & Hlen & _). unfold BLOCK_SECTOR_SIZE in Hlen.
  assert (Hl1 : Zlength (take (Z.to_nat c) buf) = c) by (rewrite length_take; lia).
  assert (Hl2 : Zlength (take (Z.to_nat m) (drop (Z.to_nat c) buf)) ≤ m) by (rewrite length_take; lia).
  rewrite Hd', Hd1. replace (512 * start (idata i) + (offset + c)) with
    (512 * start (idata i) + offset + Zlength (take (Z.to_nat c) buf)) by lia.
  rewrite splice_app; [|lia|unfold avail, inode_length in *; lia].
  replace (Z.to_nat (c + m)) with (Z.to_nat c + Z.to_nat m)%nat by lia. by rewrite take_take_drop.
Qed.

(** Writing a sector back with part of it changed. *)
Lemma write_sector_part b sec o xs :
  block_ok b → 0 ≤ sec < size b → 0 ≤ o → o + Zlength xs ≤ 512 →
  splice (512 * sec) (splice o xs (slice (512 * sec) 512 (data b))) (data b)
    = splice (512 * sec + o) xs (data b).
Proof.
  intros (_ & Hlen & _) Hsec Ho Hx. unfold BLOCK_SECTOR_SIZE in Hlen.
  assert (Hl : Zlength (slice (512 * sec) 512 (data b)) = 512) by (apply length_slice; lia).
  rewrite splice_splice_inside by lia. by rewrite splice_slice by lia.
Qed.

Lemma write_loop_spec n s i bounce sz offset buf written :
  block_ok (fs_device s) → node_ok (fs_device s) i → 0 ≤ sz < 2 ^ 31 → 0 ≤ offset < 2 ^ 31 →
  0 ≤ written → written + sz < 2 ^ 31 → sz ≤ Zlength buf → (Z.to_nat sz < n)%nat →
  write_result s i bounce sz offset buf written (write_loop n s i bounce sz offset buf written).
Proof.
  revert s bounce sz offset buf written.
  induction n as [|n IH]; intros s bounce sz offset buf written Hb Hi Hsz Ho Hw Hws Hbuf Hn; [lia|].
  cbn [write_loop]. destruct (Z.leb_spec sz 0) as [Hz|Hz].
  { apply write_result_stop; [done..|]. intros _. unfold avail. lia. }
  cbv zeta. unfold BLOCK_SECTOR_SIZE. set (c := chunk_size i sz offset).
  pose proof Hb as (Hsize & Hlen & _). pose proof Hi as (Hst & Hl & _).
  destruct (chunk_spec (fs_device s) i sz offset Hi) as (_ & Er & Hc); [lia..|]. fold c in Hc.
  destruct (Z.leb_spec c 0) as [Hc0|Hc0].
  { apply write_result_stop; [done..|]. intros _. by apply (avail_stop (fs_device s)); try lia. }
  destruct (Hc Hc0) as (sec & -> & Hsec & Epos & Hin & Hend & Hcsz). rewrite Er.
  pose proof (sector_split offset (proj1 Ho)) as [_ Hmod]. unfold BLOCK_SECTOR_SIZE in Hlen.
  assert (offset + c < 2 ^ 31) by (unfold inode_length in Hend; lia).
  rewrite (s32_small (sz - c)), (s32_small (offset + c)), (s32_small (written + c)) by lia.
  assert (Htk : Zlength (take (Z.to_nat c) buf) = c) by (rewrite length_take; lia).
  assert (Hrec : ∀ s1 bn, same_but_data s s1 → (bounce ≠ 0 ∨ mem_ok s → bn ≠ 0 ∨ mem_ok s1) →
    data (fs_device s1) = splice (512 * sec + offset mod 512) (take (Z.to_nat c) buf) (data (fs_device s)) →
    write_result s i bounce sz offset buf written
      (write_loop n s1 i bn (sz - c) (offset + c) (drop (Z.to_nat c) buf) (written + c))).
  { intros s1 bn Hs1 Hbn Hd1. rewrite <- Epos in Hd1.
    eapply (write_result_step s s1); try done; try lia.
    apply IH; [|by apply (node_ok_same s)|try lia..].
    - apply (block_ok_same s); [done| |done]. rewrite Hd1, length_splice; [done|lia|lia].
    - rewrite length_drop. lia. }
  destruct ((offset mod 512 =? 0) && (c =? 512)) eqn:Efull; zbool.
  - rewrite block_write_ok by done. cbn [mbind res_bind]. apply Hrec; [by split|auto|].
    simpl. f_equal; lia.
  - destruct (bounce_spec s bounce) as (Hs1 & Hd1 & Hbn).
    destruct (if bounce =? 0 then malloc s else (bounce, s)) as [bn s1]. simpl in Hs1, Hd1, Hbn.
    destruct (Z.eqb_spec bn 0) as [E0|E0].
    { apply write_result_stop; [done|by rewrite Hd1|]. intros Hx. by apply Hbn in Hx. }
    assert (Hpart : ((0 <? offset mod 512) || (c <? 512 - offset mod 512)) = true).
    { destruct (Z.ltb_spec 0 (offset mod 512)); [done|]. simpl. apply Z.ltb_lt.
      apply andb_false_iff in Efull as [?|?]; zbool; lia. }
    rewrite Hpart, Hd1, block_read_ok by done. cbn [mbind res_bind].
    rewrite block_write_ok by done. cbn [mbind res_bind]. apply Hrec; [|auto|].
    + etrans; [exact Hs1|]. by split; simpl; rewrite ?Hd1.
    + simpl. apply (write_sector_part (fs_device s)); try done; lia.
Qed.

(** [inode_write_at] terminates and stores the bytes of the buffer in the file from
    [offset] on, as many as fit before the end of the file; the rest of the file and
    of the device is as before.  If writes to the inode are denied, it does nothing
    and returns 0. *)
Lemma inode_write_at_spec s ip i buf sz offset :
  inodes s !! ip = Some i → block_ok (fs_device s) → node_ok (fs_device s) i →
  0 ≤ sz < 2 ^ 31 → 0 ≤ offset < 2 ^ 31 → sz ≤ Zlength buf →
  (deny_write_cnt i ≠ 0 → inode_write_at s ip buf sz offset = Ok (0, s)) ∧
  (deny_write_cnt i = 0 → ∃ m s', inode_write_at s ip buf sz offset = Ok (m, s')
    ∧ 0 ≤ m ≤ avail i sz offset ∧ (mem_ok s → m = avail i sz offset)
    ∧ same_but_data s s'
    ∧ data (fs_device s') =
        splice (512 * start (idata i) + offset) (take (Z.to_nat m) buf) (data (fs_device s))
    ∧ (0 < m → content (fs_device s') i = splice offset (take (Z.to_nat m) buf) (content (fs_device s) i))).
Proof.
  intros Hip Hb Hi Hsz Ho Hbuf. unfold inode_write_at. rewrite Hip. cbn [from_opt mbind res_bind].
  split; intros Hd; [by rewrite (proj2 (Z.eqb_neq _ _))|]. rewrite Hd. cbn [Z.eqb negb].
  destruct (write_loop_spec (S (Z.to_nat sz)) s i 0 sz offset buf 0) as (m & s' & -> & Hm & Hf & Hs & Hdat);
    [done..|lia|lia|done|lia|].
  exists m, s'. split; [done|]. split; [done|]. split; [auto|]. split; [done|]. split; [done|].
  intros Hm0. unfold content. rewrite Hdat. pose proof (node_fits _ _ Hi). pose proof Hi as (? & ? & _).
  destruct Hb as (_ & Hlen & _). unfold BLOCK_SECTOR_SIZE in Hlen.
  assert (Zlength (take (Z.to_nat m) buf) = m) by (rewrite length_take; unfold avail in Hm; lia).
  unfold avail, inode_length in Hm. rewrite slice_splice_inside by lia. f_equal. lia.
Qed.

(** ** The free map on disk *)

Lemma length_words_bytes ws : Zlength (words_bytes ws) = 4 * Zlength ws.
Proof.
  unfold words_bytes. induction ws as [|w ws IH]; [done|].
  rewrite bind_cons, length_app, length_le_bytes, length_cons. lia.
Qed.

Lemma bytes_words_bytes ws :
  Forall (λ w, 0 ≤ w < 2 ^ 32) ws → bytes_words (length ws) (words_bytes ws) = ws.
Proof.
  unfold words_bytes. induction 1 as [|w ws Hw Hws IH]; [done|].
  rewrite bind_cons. simpl length. cbn [bytes_words]. rewrite take_app_length', drop_app_length' by (by rewrite length_le_bytes).
  rewrite le_value_bytes; [by f_equal|]. change (256 ^ Z.of_nat 4) with (2 ^ 32). done.
Qed.

Lemma byte_cnt_wf b : wf b → byte_cnt (bit_cnt b) = Zlength (words_bytes (bits b)) ∧
  0 ≤ byte_cnt (bit_cnt b) < 2 ^ 30.
Proof.
  intros (Hb & Hl & _). rewrite length_words_bytes, Hl. unfold byte_cnt, elem_cnt, DIV_ROUND_UP, ELEM_BITS.
  rewrite (u32_small (bit_cnt b + 32 - 1)) by lia.
  assert (0 ≤ (bit_cnt b + 32 - 1) / 32 < 2 ^ 27).
  { split; [apply Z.div_pos; lia|apply Z.div_lt_upper_bound; lia]. }
  rewrite u32_small by lia. lia.
Qed.

(** The file that backs the free map. *)
Record map_file (s : fs) (i : inode) (fl : file) : Prop := {
  mf_file : files s !! free_map_file s = Some fl;
  mf_inode : inodes s !! finode fl = Some i;
  mf_deny : deny_write_cnt i = 0;
  mf_node : node_ok (fs_device s) i;
  mf_length : inode_length i = byte_cnt (bit_cnt (free_map s))
}.

Lemma bitmap_write_spec s i fl :
  block_ok (fs_device s) → wf (free_map s) → map_file s i fl →
  ∃ m s', bitmap_write s (free_map s) (free_map_file s) = Ok (m =? inode_length i, s')
    ∧ 0 ≤ m ≤ inode_length i ∧ (mem_ok s → m = inode_length i) ∧ same_but_data s s'
    ∧ data (fs_device s') = splice (512 * start (idata i)) (take (Z.to_nat m) (words_bytes (bits (free_map s))))
        (data (fs_device s)).
Proof.
  intros Hb Hwf [Hf Hip Hd Hi Hl]. destruct (byte_cnt_wf _ Hwf) as [Hlen Hsmall].
  unfold bitmap_write, file_write_at, inode_write_at. rewrite Hf. cbn [from_opt mbind res_bind].
  rewrite Hip. cbn [from_opt mbind res_bind]. rewrite Hd. cbn [Z.eqb negb].
  set (sz := byte_cnt (bit_cnt (free_map s))) in *.
  destruct (write_loop_spec (S (Z.to_nat sz)) s i 0 sz 0 (words_bytes (bits (free_map s))) 0)
    as (m & s' & -> & Hm & Hfull & Hs & Hdat); [done|done|lia..|].
  cbn [mbind res_bind]. rewrite Z.add_0_l. exists m, s'. rewrite Z.add_0_r in Hdat.
  assert (Ha : avail i sz 0 = sz) by (unfold avail; lia). rewrite Ha in *. rewrite Hl.
  split; [done|]. split; [lia|]. split; [intros Hx; apply Hfull; auto|]. done.
Qed.

Lemma last_mask_ones b :
  last_mask b = Z.ones (if bit_cnt b mod 32 =? 0 then 32 else bit_cnt b mod 32).
Proof.
  unfold last_mask, ELEM_BITS. destruct (Z.eqb_spec (bit_cnt b mod 32) 0) as [E|E]; cbn [negb].
  - by rewrite (u32_wrap 1) by lia.
  - assert (0 ≤ bit_cnt b mod 32 < 32) by (apply Z.mod_pos_bound; lia).
    assert (2 ^ (bit_cnt b mod 32) < 2 ^ 32) by (apply Z.pow_lt_mono_r; lia).
    assert (0 < 2 ^ (bit_cnt b mod 32)) by (apply Z.pow_pos_nonneg; lia).
    rewrite Z.shiftl_1_l, !u32_small by (rewrite ?u32_small; lia). rewrite Z.ones_equiv. lia.
Qed.

(** The bits of the last word that belong to the bitmap. *)
Lemma last_word_bits cnt j :
  0 ≤ j < cnt → j / 32 = (cnt + 31) / 32 - 1 → j mod 32 < (if cnt mod 32 =? 0 then 32 else cnt mod 32).
Proof.
  intros Hj Hq. pose proof (Z.div_mod j 32). pose proof (Z.mod_pos_bound j 32).
  pose proof (Z.div_mod cnt 32). pose proof (Z.mod_pos_bound cnt 32).
  destruct (Z.eqb_spec (cnt mod 32) 0) as [E|E]; [lia|].
  assert ((cnt + 31) / 32 = cnt / 32 + 1); [|lia].
  symmetry. apply (Z.div_unique _ _ _ (cnt mod 32 - 1)); lia.
Qed.

(** The free map survives a shutdown: a bitmap read from a file that holds the
    words of bitmap [b] has the bits of [b]. *)
Lemma bitmap_read_spec s b b0 f fl i :
  block_ok (fs_device s) → wf b → wf b0 → bit_cnt b0 = bit_cnt b → mem_ok s →
  files s !! f = Some fl → inodes s !! finode fl = Some i → node_ok (fs_device s) i →
  inode_length i = byte_cnt (bit_cnt b) → content (fs_device s) i = words_bytes (bits b) →
  ∃ b' s', bitmap_read s b0 f = Ok (true, b', s') ∧ wf b' ∧ bit_cnt b' = bit_cnt b
    ∧ same_but_data s s' ∧ data (fs_device s') = data (fs_device s)
    ∧ ∀ j, 0 ≤ j < bit_cnt b → bit b' j = bit b j.
Proof.
  intros Hb Hwf Hwf0 Hcnt Hmem Hf Hip Hi Hlen Hcont. unfold bitmap_read. rewrite Hcnt.
  destruct (Z.ltb_spec 0 (bit_cnt b)) as [Hpos|Hneg].
  2:{ exists b0, s. do 5 (split; [done|]). intros j Hj. lia. }
  destruct (byte_cnt_wf b Hwf) as [Hbc Hsm]. set (sz := byte_cnt (bit_cnt b)) in *.
  unfold file_read_at, inode_read_at. rewrite Hf. cbn [from_opt mbind res_bind].
  rewrite Hip. cbn [from_opt mbind res_bind].
  destruct (read_loop_spec (S (Z.to_nat sz)) s i 0 sz 0 [] Hb Hi) as (m & s' & -> & _ & Hm & Hs & Hd); [lia..|].
  rewrite (Hm (or_intror Hmem)). clear Hm m. assert (Ha : avail i sz 0 = sz) by (unfold avail; lia).
  rewrite Ha, Z.add_0_r. unfold content in Hcont. change (ilength (idata i)) with (inode_length i) in Hcont.
  rewrite Hlen in Hcont. rewrite Hcont. cbn [mbind res_bind app].
  destruct Hwf as (Hr & Hl & Hall). destruct Hwf0 as (_ & Hl0 & _). pose proof Hl as Hl'.
  assert (Hll : length (bits b0) = length (bits b)) by (rewrite Hcnt in Hl0; lia).
  assert (Es : splice 0 (words_bytes (bits b)) (words_bytes (bits b0)) = words_bytes (bits b)).
  { unfold splice. simpl. rewrite drop_ge, app_nil_r; [done|].
    pose proof (length_words_bytes (bits b)). pose proof (length_words_bytes (bits b0)). lia. }
  rewrite Es, Hll, bytes_words_bytes by done. rewrite <- Hbc, Z.eqb_refl.
  unfold elem_cnt, DIV_ROUND_UP, ELEM_BITS in Hl |- *. rewrite u32_small in Hl |- * by lia.
  replace (bit_cnt b + 32 - 1) with (bit_cnt b + 31) in Hl |- * by lia.
  set (last := (bit_cnt b + 31) / 32 - 1) in *.
  assert (Hlast : 0 ≤ last) by (unfold last; assert (1 ≤ (bit_cnt b + 31) / 32); [apply Z.div_le_lower_bound; lia|lia]).
  unfold word. simpl. destruct (lookup_lt_is_Some_2 (bits b) (Z.to_nat last)) as [w Hw]; [lia|].
  rewrite Hw. cbn [from_opt mbind res_bind]. eexists _, s'. split; [done|]. split; [|do 3 (split; [done|])].
  { split; [done|]. simpl. rewrite length_insert. split; [done|]. apply Forall_insert; [done|].
    pose proof (proj1 (Forall_lookup _ _) Hall _ _ Hw) as Hwr. simpl in Hwr.
    rewrite last_mask_ones. set (k := if _ =? _ then _ else _).
    assert (Hk : 0 ≤ k) by (unfold k; destruct (_ =? 0); [lia|apply Z.mod_pos_bound; lia]).
    rewrite Z.land_ones by done. assert (0 < 2 ^ k) by (by apply Z.pow_pos_nonneg).
    pose proof (Z.mod_pos_bound w (2 ^ k)). pose proof (Z.mod_le w (2 ^ k)). lia. }
  intros j Hj. unfold bit, set_word. simpl. destruct (decide (j / 32 = last)) as [E|E].
  - rewrite E, list_lookup_insert_eq by lia. rewrite Hw. simpl. rewrite last_mask_ones. simpl.
    rewrite Z.land_spec, Z.ones_spec_low, andb_true_r; [done|].
    split; [apply Z.mod_pos_bound; lia|]. by apply last_word_bits.
  - rewrite list_lookup_insert_ne; [done|]. assert (0 ≤ j / 32) by (apply Z.div_pos; lia). lia.
Qed.

End Inode.
