(* ===== verification/Directory.v ===== *)
(** * Directories and the file system, [filesys/directory.c], [filesys/filesys.c]

    A directory is a file of 20-byte entries.  Names are byte strings without the
    terminator; [dir] objects are values, since only their owner refers to them. *)

From S2P Require Import Prelude Bitmap Disk Inode.

Module Directory.
Import Bitmap Disk Inode.

Definition NAME_MAX : Z := 14.
Definition ENTRY_SIZE : Z := 20.

Record dir := Dir { dinode : Z; dpos : Z }.

Record dir_entry := Entry { inode_sector : Z; ename : list Z; in_use : bool }.

(** The 20 bytes of an entry in memory: sector, name and flag. *)
Definition entry_of (e : list Z) : dir_entry :=
  Entry (le_value (slice 0 4 e)) (slice 4 15 e) (negb (default 0 (e !! 19%nat) =? 0)).
Definition bytes_of (e : dir_entry) : list Z :=
  le_bytes 4 (inode_sector e) ++ ename e ++ [if in_use e then 1 else 0].

(** The C string in an array, [None] if it is not terminated there. *)
Fixpoint cstring (l : list Z) : option (list Z) :=
  match l with
  | [] => None
  | c :: l => if c =? 0 then Some [] else cons c <$> cstring l
  end.

(** [strlcpy (e.name, name, sizeof e.name)] for a name that fits. *)
Definition set_name (old name : list Z) : list Z := splice 0 (name ++ [0]) old.

Definition dir_create (s : fs) (sec entry_cnt : Z) : res (bool * fs) :=
  inode_create s sec (s32 (entry_cnt * ENTRY_SIZE)).

Definition dir_open (s : fs) (ip : Z) : res (option dir * fs) :=
  let '(d, s) := malloc s in
  if negb (ip =? 0) && negb (d =? 0) then Ok (Some (Dir ip 0), s)
  else s ← inode_close s ip; Ok (None, s).
Definition dir_open_root (s : fs) : res (option dir * fs) :=
  '(ip, s) ← inode_open s ROOT_DIR_SECTOR; dir_open s ip.
Definition dir_reopen (s : fs) (d : dir) : res (option dir * fs) :=
  dir_open (inode_reopen s (dinode d)) (dinode d).
Definition dir_close (s : fs) (d : option dir) : res fs :=
  match d with Some d => inode_close s (dinode d) | None => Ok s end.

(** The search loop of [lookup]: the entry and its offset. *)
Fixpoint lookup_loop (n : nat) (s : fs) (ip : Z) (name : list Z) (ofs : Z)
    : res (option (dir_entry * Z) * fs) :=
  match n with
  | O => Fuel
  | S n =>
      '(e, s) ← inode_read_at s ip ENTRY_SIZE ofs;
      if Zlength e =? ENTRY_SIZE then
        let e := entry_of e in
        if in_use e then
          str ← from_opt (cstring (ename e));
          if bool_decide (str = name) then Ok (Some (e, ofs), s)
          else lookup_loop n s ip name (ofs + ENTRY_SIZE)
        else lookup_loop n s ip name (ofs + ENTRY_SIZE)
      else Ok (None, s)
  end.

(** The number of entries of the file bounds the loops. *)
Definition entries (s : fs) (ip : Z) : nat :=
  match inodes s !! ip with Some i => S (Z.to_nat (inode_length i / ENTRY_SIZE)) | None => 1%nat end.

Definition lookup (s : fs) (d : dir) (name : list Z) : res (option (dir_entry * Z) * fs) :=
  lookup_loop (entries s (dinode d)) s (dinode d) name 0.

Definition dir_lookup (s : fs) (d : dir) (name : list Z) : res (Z * fs) :=
  '(r, s) ← lookup s d name;
  match r with
  | Some (e, _) => inode_open s (inode_sector e)
  | None => Ok (0, s)
  end.

(** The loop that looks for a free slot; [e] is the entry buffer on the stack. *)
Fixpoint slot_loop (n : nat) (s : fs) (ip : Z) (e : list Z) (ofs : Z) : res (list Z * Z * fs) :=
  match n with
  | O => Fuel
  | S n =>
      '(got, s) ← inode_read_at s ip ENTRY_SIZE ofs;
      let e := splice 0 got e in
      if Zlength got =? ENTRY_SIZE then
        if in_use (entry_of e) then slot_loop n s ip e (ofs + ENTRY_SIZE) else Ok (e, ofs, s)
      else Ok (e, ofs, s)
  end.

(** [junk] is what the uninitialised buffer holds. *)
Definition dir_add (s : fs) (d : dir) (name : list Z) (sec : Z) (junk : list Z) : res (bool * fs) :=
  if bool_decide (name = []) || (NAME_MAX <? Zlength name) then Ok (false, s) else
  '(r, s) ← lookup s d name;
  match r with
  | Some _ => Ok (false, s)
  | None =>
      '(e, ofs, s) ← slot_loop (entries s (dinode d)) s (dinode d) junk 0;
      let e := Entry sec (set_name (ename (entry_of e)) name) true in
      '(n, s) ← inode_write_at s (dinode d) (bytes_of e) ENTRY_SIZE ofs;
      Ok (n =? ENTRY_SIZE, s)
  end.

Definition dir_remove (s : fs) (d : dir) (name : list Z) : res (bool * fs) :=
  '(r, s) ← lookup s d name;
  match r with
  | None => Ok (false, s)
  | Some (e, ofs) =>
      '(ip, s) ← inode_open s (inode_sector e);
      if ip =? 0 then Ok (false, s) else
      let e := Entry (inode_sector e) (ename e) false in
      '(n, s) ← inode_write_at s (dinode d) (bytes_of e) ENTRY_SIZE ofs;
      if negb (n =? ENTRY_SIZE) then s ← inode_close s ip; Ok (false, s) else
      s ← inode_remove s ip;
      s ← inode_close s ip;
      Ok (true, s)
  end.

(** The name of the next entry in use, if any, and the directory with its new
    position. *)
Fixpoint readdir_loop (n : nat) (s : fs) (d : dir) : res (option (list Z) * dir * fs) :=
  match n with
  | O => Fuel
  | S n =>
      '(e, s) ← inode_read_at s (dinode d) ENTRY_SIZE (dpos d);
      if Zlength e =? ENTRY_SIZE then
        let d := Dir (dinode d) (s32 (dpos d + ENTRY_SIZE)) in
        let e := entry_of e in
        if in_use e then str ← from_opt (cstring (ename e)); Ok (Some str, d, s)
        else readdir_loop n s d
      else Ok (None, d, s)
  end.
Definition dir_readdir (s : fs) (d : dir) : res (option (list Z) * dir * fs) :=
  readdir_loop (entries s (dinode d)) s d.

(** ** The file system *)

Definition filesys_create (s : fs) (name : list Z) (initial_size : Z) (junk : list Z) : res (bool * fs) :=
  '(d, s) ← dir_open_root s;
  match d with
  | None => Ok (false, s)
  | Some d =>
      '(sec, s) ← free_map_allocate s 1;
      match sec with
      | None => s ← dir_close s (Some d); Ok (false, s)
      | Some sec =>
          '(ok, s) ← inode_create s sec initial_size;
          '(ok, s) ← (if (ok : bool) then dir_add s d name sec junk else Ok (false, s));
          s ← (if negb ok && negb (sec =? 0) then free_map_release s sec 1 else Ok s);
          s ← dir_close s (Some d);
          Ok (ok, s)
      end
  end.

Definition filesys_open (s : fs) (name : list Z) : res (Z * fs) :=
  '(d, s) ← dir_open_root s;
  '(ip, s) ← (match d with Some d => dir_lookup s d name | None => Ok (0, s) end);
  s ← dir_close s d;
  file_open s ip.

Definition filesys_remove (s : fs) (name : list Z) : res (bool * fs) :=
  '(d, s) ← dir_open_root s;
  '(ok, s) ← (match d with Some d => dir_remove s d name | None => Ok (false, s) end);
  s ← dir_close s d;
  Ok (ok, s).

Definition do_format (s : fs) : res fs :=
  s ← free_map_create s;
  '(ok, s) ← dir_create s ROOT_DIR_SECTOR 16;
  if negb ok then Panic else free_map_close s.

(** [filesys_init] on the device that has the role of the file system; [mem1] and
    [mem2] are the allocations of the free map. *)
Definition filesys_init (dev : option block) (sup : nat → bool) (mem1 : bool) (mem2 : option (list Z))
    (format : bool) : res fs :=
  match dev with
  | None => Panic
  | Some dev =>
      let s := FS dev ∅ [] ∅ (Bm 0 []) 0 sup 0 in
      s ← free_map_init s mem1 mem2;
      s ← (if format then do_format s else Ok s);
      free_map_open s
  end.
Definition filesys_done (s : fs) : res fs := free_map_close s.

End Directory.
