(* ===== verification/FsInv.v ===== *)
(** * The invariant of the file system

    [T] maps the sector of each inode on disk to the inode.  The invariant says that
    inodes and data of different files do not overlap, that the free map marks
    exactly the sectors of files (and those that an operation in progress has
    reserved), and that the inodes and files in memory agree with the disk and with
    each other.  Every operation on inodes and files keeps it and fails no
    assertion. *)

From S2P Require Import Prelude Bitmap Disk Inode.

Module FsInv.
Import Bitmap Disk Inode.

Definition sectors (d : inode_disk) : Z := (ilength d + 511) / 512.

Definition disk_ok (b : block) (d : inode_disk) : Prop :=
  0 ≤ start d ∧ 0 ≤ ilength d ≤ 2 ^ 31 - 512 ∧ start d + sectors d ≤ size b.

(** The sectors of the file whose inode [d] is in sector [sec]. *)
Definition owns (sec : Z) (d : inode_disk) (x : Z) : Prop :=
  x = sec ∨ start d ≤ x < start d + sectors d.

Definition sector_at (s : fs) (sec : Z) : list Z := slice (512 * sec) 512 (data (fs_device s)).
Definition file_data (s : fs) (d : inode_disk) : list Z := slice (512 * start d) (ilength d) (data (fs_device s)).

(** An address that [malloc] has returned. *)
Definition addr_ok (s : fs) (a : Z) : Prop := 0 < a ≤ 16 * Z.of_nat (calls s).

(** Files that have inode [ip] open, and those among them that deny writes. *)
Definition refs (s : fs) (ip : Z) : Z :=
  Z.of_nat (base.size (filter (λ p : Z * file, finode p.2 = ip) (files s))).
Definition denies (s : fs) (ip : Z) : Z :=
  Z.of_nat (base.size (filter (λ p : Z * file, finode p.2 = ip ∧ deny_write p.2 = true) (files s))).

(** [R] are reserved sectors; [X ip] counts the references to inode [ip] that are
    not files. *)
Record fs_ok (s : fs) (T : gmap Z inode_disk) (R : Z → Prop) (X : Z → Z) : Prop := {
  k_dev : block_ok (fs_device s);
  k_size : size (fs_device s) < 2 ^ 31;
  k_map : wf (free_map s);
  k_cnt : bit_cnt (free_map s) = size (fs_device s);
  k_disk sec d : T !! sec = Some d →
    0 ≤ sec < size (fs_device s) ∧ decode (sector_at s sec) = d ∧ disk_ok (fs_device s) d;
  k_used x : 0 ≤ x < size (fs_device s) →
    (bit (free_map s) x = true ↔ R x ∨ ∃ sec d, T !! sec = Some d ∧ owns sec d x);
  k_self sec d : T !! sec = Some d → ¬ (start d ≤ sec < start d + sectors d);
  k_disj sec d sec' d' x :
    T !! sec = Some d → T !! sec' = Some d' → owns sec d x → owns sec' d' x → sec = sec';
  k_res x : R x → 0 ≤ x < size (fs_device s) ∧ ∀ sec d, T !! sec = Some d → ¬ owns sec d x;
  k_node ip i : inodes s !! ip = Some i →
    addr_ok s ip ∧ ip ∈ open_inodes s ∧ T !! sector i = Some (idata i) ∧
    open_cnt i = refs s ip + X ip ∧ 0 < open_cnt i ∧ deny_write_cnt i = denies s ip;
  k_extra ip : 0 ≤ X ip ∧ (inodes s !! ip = None → X ip = 0);
  k_list ip : ip ∈ open_inodes s → is_Some (inodes s !! ip);
  k_nodup : NoDup (open_inodes s);
  k_uniq ip ip' i i' :
    inodes s !! ip = Some i → inodes s !! ip' = Some i' → sector i = sector i' → ip = ip';
  k_file f fl : files s !! f = Some fl → addr_ok s f ∧ is_Some (inodes s !! finode fl);
  k_mapf : ∃ i fl, map_file s i fl ∧ sector i = FREE_MAP_SECTOR ∧ removed i = false
}.

(** ** Ranges of sectors *)

Lemma node_disk_ok b i : node_ok b i ↔ disk_ok b (idata i).
Proof. done. Qed.

Lemma sectors_pos d : 0 ≤ ilength d → 0 ≤ sectors d ∧ ilength d ≤ 512 * sectors d.
Proof.
  intros Hl. unfold sectors. pose proof (Z.div_mod (ilength d + 511) 512).
  pose proof (Z.mod_pos_bound (ilength d + 511) 512). assert (0 ≤ (ilength d + 511) / 512); [apply Z.div_pos; lia|].
  lia.
Qed.

Lemma bytes_to_sectors_spec len : 0 ≤ len ≤ 2 ^ 31 - 512 → bytes_to_sectors len = (len + 511) / 512.
Proof.
  intros Hl. unfold bytes_to_sectors, BLOCK_SECTOR_SIZE. rewrite s32_small by lia.
  replace (len + 512 - 1) with (len + 511) by lia. rewrite Z.quot_div_nonneg by lia.
  assert (0 ≤ (len + 511) / 512 < 2 ^ 32).
  { split; [apply Z.div_pos; lia|apply Z.div_lt_upper_bound; lia]. }
  by apply u32_small.
Qed.
Lemma bytes_to_sectors_large len : 2 ^ 31 - 512 < len < 2 ^ 31 → 2 ^ 31 ≤ bytes_to_sectors len < 2 ^ 32.
Proof.
  intros Hl. unfold bytes_to_sectors, BLOCK_SECTOR_SIZE. split; [|apply u32_range].
  rewrite (s32_wrap (-1)) by lia. set (q := Z.quot _ 512).
  assert (Hq : - 2 ^ 22 ≤ q ≤ -1).
  { unfold q. replace (len + 512 - 1 + -1 * 2 ^ 32) with (- (2 ^ 32 - len - 511)) by lia.
    rewrite Z.quot_opp_l, Z.quot_div_nonneg by lia.
    assert (1 ≤ (2 ^ 32 - len - 511) / 512 ≤ 2 ^ 22); [|lia].
    split; [apply Z.div_le_lower_bound; lia|apply Z.div_le_upper_bound; lia]. }
  rewrite (u32_wrap 1) by lia. lia.
Qed.

(** Stores outside of a range of sectors. *)
Lemma sector_at_same s s' off xs sec :
  block_ok (fs_device s) → data (fs_device s') = splice off xs (data (fs_device s)) →
  0 ≤ sec → 0 ≤ off → off + Zlength xs ≤ 512 * size (fs_device s) →
  512 * sec + 512 ≤ off ∨ off + Zlength xs ≤ 512 * sec → sector_at s' sec = sector_at s sec.
Proof.
  intros (_ & Hl & _) Hd Hs Ho Hx Hdis. unfold sector_at, BLOCK_SECTOR_SIZE in *. rewrite Hd.
  apply slice_splice_other; lia.
Qed.
Lemma file_data_same s s' off xs d :
  block_ok (fs_device s) → data (fs_device s') = splice off xs (data (fs_device s)) →
  0 ≤ start d → 0 ≤ off → off + Zlength xs ≤ 512 * size (fs_device s) →
  512 * start d + ilength d ≤ off ∨ off + Zlength xs ≤ 512 * start d → file_data s' d = file_data s d.
Proof.
  intros (_ & Hl & _) Hd Hs Ho Hx Hdis. unfold file_data, BLOCK_SECTOR_SIZE in *. rewrite Hd.
  apply slice_splice_other; lia.
Qed.

(** ** Changes of the data *)

(** Writing to the device leaves the invariant alone if no inode is hit. *)
Lemma fs_ok_data s s' T R X :
  fs_ok s T R X → same_but_data s s' → Zlength (data (fs_device s')) = Zlength (data (fs_device s)) →
  (∀ sec d, T !! sec = Some d → sector_at s' sec = sector_at s sec) → fs_ok s' T R X.
Proof.
  intros Hk Hs Hl Hsec. destruct Hs as [E1 E2 E3 E4 E5 E6 E7 E8 E9].
  assert (Hrefs : ∀ ip, refs s' ip = refs s ip) by (intros ip; unfold refs; by rewrite E3).
  assert (Hden : ∀ ip, denies s' ip = denies s ip) by (intros ip; unfold denies; by rewrite E3).
  assert (Haddr : ∀ a, addr_ok s a → addr_ok s' a) by (unfold addr_ok; lia).
  split; rewrite ?E4, ?E8, ?E2; try apply Hk.
  - apply (block_ok_same s); [by split|done|apply Hk].
  - intros sec d Hd. rewrite (Hsec sec d Hd). unfold disk_ok. rewrite E8. by apply (k_disk _ _ _ _ Hk).
  - intros ip i. rewrite E1, Hrefs, Hden. intros Hip.
    destruct (k_node _ _ _ _ Hk ip i Hip) as (? & ? & ? & ? & ? & ?). auto 10.
  - intros ip. rewrite E1. apply (k_extra _ _ _ _ Hk).
  - intros ip. rewrite E1. apply (k_list _ _ _ _ Hk).
  - rewrite E1. apply (k_uniq _ _ _ _ Hk).
  - intros f fl. rewrite E3, E1. intros Hf. destruct (k_file _ _ _ _ Hk f fl Hf). auto.
  - destruct (k_mapf _ _ _ _ Hk) as (i & fl & [M1 M2 M3 M4 M5] & Hx). exists i, fl. split; [|done].
    split; [by rewrite E3, E5|by rewrite E1|done| |by rewrite E4].
    unfold node_ok. by rewrite E8.
Qed.

(** A file's own data does not overlap an inode or another file. *)
Lemma extent_disjoint s T R X sec d sec' d' :
  fs_ok s T R X → T !! sec = Some d → T !! sec' = Some d' →
  (512 * sec' + 512 ≤ 512 * start d ∨ 512 * (start d + sectors d) ≤ 512 * sec' ∨ sectors d = 0)
  ∧ (sec ≠ sec' → 512 * (start d' + sectors d') ≤ 512 * start d ∨ 512 * (start d + sectors d) ≤ 512 * start d'
       ∨ sectors d = 0 ∨ sectors d' = 0).
Proof.
  intros Hk Hd Hd'.
  destruct (k_disk _ _ _ _ Hk _ _ Hd) as (_ & _ & Hok). destruct (k_disk _ _ _ _ Hk _ _ Hd') as (_ & _ & Hok').
  pose proof (sectors_pos d (proj1 (proj1 (proj2 Hok)))). pose proof (sectors_pos d' (proj1 (proj1 (proj2 Hok')))).
  split.
  - destruct (decide (start d ≤ sec' < start d + sectors d)) as [Hin|]; [|lia]. exfalso.
    assert (E : sec' = sec).
    { apply (k_disj _ _ _ _ Hk sec' d' sec d sec'); auto; [by left|by right]. }
    subst. by apply (k_self _ _ _ _ Hk sec d).
  - intros Hne. destruct (decide (sectors d = 0)); [lia|]. destruct (decide (sectors d' = 0)); [lia|].
    destruct (Z.le_gt_cases (start d' + sectors d') (start d)); [lia|].
    destruct (Z.le_gt_cases (start d + sectors d) (start d')); [lia|]. exfalso. apply Hne.
    apply (k_disj _ _ _ _ Hk sec d sec' d' (Z.max (start d) (start d'))); auto; right; lia.
Qed.

(** [inode_write_at] through an open inode. *)
Lemma write_keeps s s' T R X sec d off xs :
  fs_ok s T R X → T !! sec = Some d → same_but_data s s' →
  data (fs_device s') = splice (512 * start d + off) xs (data (fs_device s)) →
  0 ≤ off → off + Zlength xs ≤ ilength d →
  fs_ok s' T R X ∧ ∀ sec' d', T !! sec' = Some d' → sec' ≠ sec → file_data s' d' = file_data s d'.
Proof.
  intros Hk Hd Hs Hdat Ho Hx. pose proof (k_dev _ _ _ _ Hk) as Hb.
  destruct (k_disk _ _ _ _ Hk _ _ Hd) as (Hsec & _ & (H0 & Hl & Hfit)).
  pose proof (sectors_pos d (proj1 Hl)) as [Hs0 Hsl].
  assert (Hlen : length (data (fs_device s')) = length (data (fs_device s))).
  { rewrite Hdat. destruct Hb as (_ & Hb & _). unfold BLOCK_SECTOR_SIZE in Hb. apply length_splice; lia. }
  split.
  - apply (fs_ok_data s); [done|done|lia|]. intros sec' d' Hd'.
    destruct (k_disk _ _ _ _ Hk _ _ Hd') as (Hsec' & _).
    destruct (extent_disjoint _ _ _ _ _ _ _ _ Hk Hd Hd') as [Hdis _].
    destruct (decide (xs = [])) as [->|]; [unfold sector_at; by rewrite Hdat, splice_nil|].
    assert (0 < Zlength xs) by (destruct xs; simpl; [done|lia]).
    eapply sector_at_same; [done|exact Hdat|lia..].
  - intros sec' d' Hd' Hne. destruct (k_disk _ _ _ _ Hk _ _ Hd') as (_ & _ & (H0' & Hl' & _)).
    pose proof (sectors_pos d' (proj1 Hl')) as [Hs0' Hsl'].
    destruct (extent_disjoint _ _ _ _ _ _ _ _ Hk Hd Hd') as [_ Hdis].
    destruct (decide (xs = [])) as [->|]; [unfold file_data; by rewrite Hdat, splice_nil|].
    assert (0 < Zlength xs) by (destruct xs; simpl; [done|lia]).
    destruct (decide (ilength d' = 0)) as [E0|].
    { unfold file_data, slice. by rewrite E0. }
    eapply file_data_same; [done|exact Hdat|lia..].
Qed.

(** ** The free map *)

(** New bits of the free map, and reservations that go with them. *)
Lemma fs_ok_map s T R R' X b :
  fs_ok s T R X → wf b → bit_cnt b = bit_cnt (free_map s) →
  (∀ x, 0 ≤ x < size (fs_device s) →
     (bit b x = true ↔ R' x ∨ ∃ sec d, T !! sec = Some d ∧ owns sec d x)) →
  (∀ x, R' x → 0 ≤ x < size (fs_device s) ∧ ∀ sec d, T !! sec = Some d → ¬ owns sec d x) →
  fs_ok (set_free_map s b) T R' X.
Proof.
  intros Hk Hwf Hc Hu Hr. split; simpl; try apply Hk; try done.
  - by rewrite Hc, (k_cnt _ _ _ _ Hk).
  - destruct (k_mapf _ _ _ _ Hk) as (i & fl & [M1 M2 M3 M4 M5] & Hx). exists i, fl. split; [|done].
    split; try done. simpl. by rewrite Hc.
Qed.

Lemma fs_ok_reserved_iff s T R R' X : fs_ok s T R X → (∀ x, R' x ↔ R x) → fs_ok s T R' X.
Proof.
  intros [H1 H2 H3 H4 H5 H6 H7 H8 H9 H10 H11 H12 H13 H14 H15 H16] E. split; try done.
  - intros x Hx. rewrite E. auto.
  - intros x Hx. apply H9. by apply E.
Qed.

Lemma fs_ok_extra_ext s T R X X' : fs_ok s T R X → (∀ ip, X' ip = X ip) → fs_ok s T R X'.
Proof.
  intros [H1 H2 H3 H4 H5 H6 H7 H8 H9 H10 H11 H12 H13 H14 H15 H16] E. split; try done.
  - intros ip i Hi. rewrite E. auto.
  - intros ip. rewrite E. auto.
Qed.

(** What an operation leaves alone: the contents of the files but the free map's,
    the open files, and how memory is supplied. *)
Definition kept_data (T : gmap Z inode_disk) (s s' : fs) : Prop :=
  ∀ sec d, T !! sec = Some d → sec ≠ FREE_MAP_SECTOR → file_data s' d = file_data s d.
(** The copy of the free map on the device is up to date. *)
Definition same_bits (b b' : bitmap) : Prop :=
  bit_cnt b = bit_cnt b' ∧ ∀ j, 0 ≤ j < bit_cnt b → bit b j = bit b' j.
Definition saved (T : gmap Z inode_disk) (s : fs) : Prop :=
  ∀ d, T !! FREE_MAP_SECTOR = Some d →
  ∃ b, wf b ∧ same_bits b (free_map s) ∧ file_data s d = words_bytes (bits b).
Record kept (T : gmap Z inode_disk) (s s' : fs) : Prop := {
  kp_data : kept_data T s s';
  kp_size : size (fs_device s') = size (fs_device s);
  kp_files : files s' = files s;
  kp_map_file : free_map_file s' = free_map_file s;
  kp_supply : supply s' = supply s;
  kp_calls : (calls s ≤ calls s')%nat;
  kp_saved : mem_ok s → saved T s → saved T s'
}.
Lemma mem_ok_kept T s s' : kept T s s' → mem_ok s → mem_ok s'.
Proof. intros Hs Hm n Hn. rewrite (kp_supply _ _ _ Hs). apply Hm. pose proof (kp_calls _ _ _ Hs). lia. Qed.
#[export] Instance kept_refl T : Reflexive (kept T).
Proof. by split. Qed.
#[export] Instance kept_trans T : Transitive (kept T).
Proof.
  intros s1 s2 s3 K1 K2. pose proof (mem_ok_kept _ _ _ K1). destruct K1 as [D1 ????? S1], K2 as [D2 ????? S2].
  split; try congruence; [|lia|auto]. intros sec d Hd Hne. rewrite (D2 sec d Hd Hne). by apply (D1 sec).
Qed.
Lemma kept_mono T T' s s' : T' ⊆ T → kept T s s' → kept T' s s'.
Proof.
  intros Hsub []. split; try done.
  - intros sec d Hd. by apply kp_data0, (lookup_weaken T').
  - intros Hm Hs d Hd. pose proof (lookup_weaken _ _ _ _ Hd Hsub) as HT.
    assert (Hs' : saved T s) by (intros d' Hd'; assert (d' = d) as -> by congruence; by apply Hs).
    by apply (kp_saved0 Hm Hs').
Qed.
Lemma kept_same T s s' : same_but_data s s' → data (fs_device s') = data (fs_device s) → kept T s s'.
Proof.
  intros [] Hd. split; try done.
  - intros sec d _ _. unfold file_data. by rewrite Hd.
  - intros _ Hs d HT. unfold file_data. rewrite Hd, sd_map0. by apply Hs.
Qed.
(** Saving the free map. *)
Lemma save_map_ok s T R X :
  fs_ok s T R X →
  ∃ ok s', bitmap_write s (free_map s) (free_map_file s) = Ok (ok, s') ∧ fs_ok s' T R X
    ∧ same_but_data s s' ∧ (mem_ok s → ok = true ∧ saved T s') ∧ kept_data T s s'.
Proof.
  intros Hk. destruct (k_mapf _ _ _ _ Hk) as (i & fl & Hmf & Hsec & _).
  pose proof (k_map _ _ _ _ Hk) as Hwf.
  destruct (bitmap_write_spec s i fl (k_dev _ _ _ _ Hk) Hwf Hmf) as (m & s' & -> & Hm & Hfull & Hs & Hd).
  destruct (k_node _ _ _ _ Hk _ _ (mf_inode _ _ _ Hmf)) as (_ & _ & HT & _). rewrite Hsec in HT.
  destruct (byte_cnt_wf _ Hwf) as [Hbc _]. pose proof (mf_length _ _ _ Hmf) as Hl.
  destruct (write_keeps s s' T R X FREE_MAP_SECTOR (idata i) 0
    (take (Z.to_nat m) (words_bytes (bits (free_map s)))) Hk HT Hs) as [Hk' Hkeep].
  { by rewrite Z.add_0_r. } { lia. } { rewrite length_take. unfold inode_length in Hm. lia. }
  eexists _, s'. split; [done|]. split; [done|]. split; [done|]. split.
  - intros Hmem. rewrite (Hfull Hmem), Z.eqb_refl. split; [done|]. intros d Hd'.
    assert (d = idata i) as -> by congruence. unfold file_data. rewrite Hd, (sd_map _ _ Hs), (Hfull Hmem).
    exists (free_map s). split; [done|]. split; [done|].
    destruct (k_disk _ _ _ _ Hk _ _ HT) as (_ & _ & (O1 & O2 & O3)). destruct (k_dev _ _ _ _ Hk) as (_ & Hb & _).
    unfold BLOCK_SECTOR_SIZE in Hb. pose proof (sectors_pos (idata i)). unfold inode_length in *.
    rewrite take_ge by lia. apply slice_splice_eq; lia.
  - intros sec d HT' Hne. by apply (Hkeep sec).
Qed.

Definition range (sec cnt : Z) (x : Z) : Prop := sec ≤ x < sec + cnt.

(** No sequence of [cnt] free sectors is left. *)
Definition full (s : fs) (cnt : Z) : Prop :=
  ∀ j, 0 ≤ j → j + cnt ≤ size (fs_device s) → ¬ all_bits (free_map s) j cnt false.

(** What [free_map_allocate] does when the map cannot be saved. *)
Lemma undo_allocate_ok s T R X sec cnt :
  fs_ok s T (λ x, R x ∨ range sec cnt x) X → 0 ≤ sec → 0 ≤ cnt → sec + cnt ≤ size (fs_device s) →
  (∀ x, range sec cnt x → ¬ R x) →
  ∃ b, bitmap_set_multiple (free_map s) sec cnt false = Ok b ∧ fs_ok (set_free_map s b) T R X.
Proof.
  intros Hk Hs0 Hc Hfit Hnew. pose proof (k_map _ _ _ _ Hk) as Hwf. pose proof (k_cnt _ _ _ _ Hk) as Hcnt.
  destruct (bitmap_set_multiple_spec (free_map s) sec cnt false) as (b & -> & Hwf2 & Hbc2 & Hbits);
    [done|lia..|]. exists b. split; [done|].
  apply (fs_ok_map s T (λ x, R x ∨ range sec cnt x)); [done|done|done| |].
  - intros x Hx. rewrite Hbits by lia. pose proof (k_used _ _ _ _ Hk x Hx) as Hu. unfold range in *.
    destruct (Z.leb_spec sec x) as [H1|H1]; destruct (Z.ltb_spec x (sec + cnt)) as [H2|H2]; cbn [andb];
      try (rewrite Hu; intuition lia).
    split; [done|]. intros [Hr|(sec' & d & Hd & Ho)]; [by destruct (Hnew x)|].
    destruct (k_res _ _ _ _ Hk x) as [_ Hr]; [by right|]. by destruct (Hr sec' d Hd).
  - intros x Hx. apply (k_res _ _ _ _ Hk). by left.
Qed.

Lemma free_map_allocate_ok s T R X cnt :
  fs_ok s T R X → 0 ≤ cnt →
  ∃ o s', free_map_allocate s cnt = Ok (o, s')
    ∧ kept T s s' ∧ inodes s' = inodes s
    ∧ match o with
      | None => fs_ok s' T R X ∧ (mem_ok s → full s cnt)
      | Some sec => fs_ok s' T (λ x, R x ∨ range sec cnt x) X ∧ 0 ≤ sec ∧ sec + cnt ≤ size (fs_device s)
          ∧ ∀ x, range sec cnt x → ¬ R x ∧ ∀ sec d, T !! sec = Some d → ¬ owns sec d x
      end.
Proof.
  intros Hk Hc. pose proof (k_map _ _ _ _ Hk) as Hwf. pose proof (k_cnt _ _ _ _ Hk) as Hcnt.
  destruct (scan_and_flip_spec (free_map s) 0 cnt false) as (r & b & E & Hwf' & Hbc & Hcase);
    [done|destruct Hwf; lia|done|].
  unfold free_map_allocate. rewrite E. cbn [mbind res_bind].
  destruct (k_mapf _ _ _ _ Hk) as (i & fl & Hmf & _).
  destruct (k_file _ _ _ _ Hk _ _ (mf_file _ _ _ Hmf)) as [Haddr _].
  destruct Hcase as [(Hr & Hr0 & Hfit & Hfree & _ & Hbits)|(-> & -> & Hnone)].
  2:{ rewrite Z.eqb_refl. cbn [negb andb]. exists None, (set_free_map s (free_map s)).
      split; [done|]. destruct s. simpl in *. split; [done|]. split; [done|]. split; [done|].
      intros _ j Hj0 Hj. apply Hnone; [lia|]. simpl in *. lia. }
  rewrite (proj2 (Z.eqb_neq r BITMAP_ERROR)) by done. cbn [negb andb].
  rewrite (proj2 (Z.eqb_neq (free_map_file (set_free_map s b)) 0)) by (simpl; unfold addr_ok in Haddr; lia).
  cbn [negb]. rewrite Hcnt in Hfit.
  assert (Hnew : ∀ x, range r cnt x → ¬ R x ∧ ∀ sec d, T !! sec = Some d → ¬ owns sec d x).
  { intros x Hx. assert (Hb : bit (free_map s) x ≠ true) by (rewrite (Hfree x Hx); done).
    unfold range in Hx. rewrite (k_used _ _ _ _ Hk x) in Hb by lia. split; [tauto|].
    intros sec d Hd Ho. apply Hb. right. by exists sec, d. }
  assert (Hk1 : fs_ok (set_free_map s b) T (λ x, R x ∨ range r cnt x) X).
  { apply (fs_ok_map s T R); [done|done|by rewrite Hbc| |].
    - intros x Hx. rewrite Hbits by lia. unfold range.
      destruct (Z.leb_spec r x); destruct (Z.ltb_spec x (r + cnt)); cbn [andb negb];
        try (rewrite (k_used _ _ _ _ Hk x) by lia); intuition lia.
    - intros x [Hx|Hx]; [by apply (k_res _ _ _ _ Hk)|]. split; [unfold range in Hx; lia|by apply Hnew]. }
  destruct (save_map_ok _ _ _ _ Hk1) as (ok & s' & E' & Hk' & Hs' & Hmem & Hkeep).
  change (free_map (set_free_map s b)) with b in E'.
  change (free_map_file (set_free_map s b)) with (free_map_file s) in E'. simpl. rewrite E'. cbn [mbind res_bind].
  pose proof (sd_size _ _ Hs') as Hsz. simpl in Hsz.
  assert (Hkept : kept T s s') by (destruct Hs'; split; try done; intros Hm _; by apply Hmem).
  pose proof (sd_inodes _ _ Hs') as Hi.
  destruct ok.
  { exists (Some r), s'. do 3 (split; [done|]). split; [done|]. split; [done|]. split; [lia|done]. }
  destruct (undo_allocate_ok s' T R X r cnt) as (b2 & -> & Hk2); [done..|lia| |].
  { intros x Hx. by apply Hnew. }
  cbn [mbind res_bind]. eexists None, _. split; [done|]. 
  assert (Hno : ¬ mem_ok s) by (intros Hm; by destruct (Hmem Hm)).
  split; [by destruct Hkept; split|]. split; [done|]. split; [done|]. intros Hm. by destruct Hno.
Qed.

Lemma free_map_release_ok s T R X sec cnt :
  fs_ok s T R X → 0 ≤ cnt → 0 ≤ sec → sec + cnt ≤ size (fs_device s) → (∀ x, range sec cnt x → R x) →
  ∃ s', free_map_release s sec cnt = Ok s' ∧ fs_ok s' T (λ x, R x ∧ ¬ range sec cnt x) X
    ∧ kept T s s' ∧ inodes s' = inodes s.
Proof.
  intros Hk Hc Hs0 Hfit Hres. pose proof (k_map _ _ _ _ Hk) as Hwf. pose proof (k_cnt _ _ _ _ Hk) as Hcnt.
  assert (Hall : all_bits (free_map s) sec cnt true).
  { intros x Hx. apply (k_used _ _ _ _ Hk); [lia|]. left. by apply Hres. }
  unfold free_map_release.
  destruct (bitmap_none_all_spec (free_map s) sec cnt true) as (v & -> & Hv); [done|lia..|].
  cbn [mbind res_bind]. rewrite (proj2 Hv) by done.
  destruct (bitmap_set_multiple_spec (free_map s) sec cnt false) as (b & -> & Hwf2 & Hbc2 & Hbits);
    [done|lia..|]. cbn [mbind res_bind].
  assert (Hk1 : fs_ok (set_free_map s b) T (λ x, R x ∧ ¬ range sec cnt x) X).
  { apply (fs_ok_map s T R); [done|done|done| |].
    - intros x Hx. rewrite Hbits by lia. unfold range.
      destruct (Z.leb_spec sec x) as [H1|H1]; destruct (Z.ltb_spec x (sec + cnt)) as [H2|H2]; cbn [andb];
        try (rewrite (k_used _ _ _ _ Hk x) by lia; intuition lia).
      split; [done|]. intros [[_ Hn]|(sec' & d & Hd & Ho)]; [lia|].
      destruct (k_res _ _ _ _ Hk x) as [_ Hr]; [by apply Hres|]. by destruct (Hr sec' d Hd).
    - intros x [Hx _]. by apply (k_res _ _ _ _ Hk). }
  destruct (save_map_ok _ _ _ _ Hk1) as (ok & s' & E' & Hk' & Hs' & Hmem & Hkeep). simpl in E'. rewrite E'.
  cbn [mbind res_bind]. exists s'. split; [done|]. split; [done|].
  split; [|apply (sd_inodes _ _ Hs')]. destruct Hs'. split; try done. intros Hm _. by apply Hmem.
Qed.

(** ** Creating an inode *)

Lemma length_encode d : Zlength (encode d) = 512.
Proof. unfold encode. rewrite !length_app, !length_le_bytes, length_replicate. lia. Qed.

Lemma decode_encode d :
  0 ≤ start d < 2 ^ 32 → - 2 ^ 31 ≤ ilength d < 2 ^ 31 → 0 ≤ magic d < 2 ^ 32 → decode (encode d) = d.
Proof.
  intros H1 H2 H3. unfold decode, encode, slice.
  change (Z.to_nat 4) with 4%nat. change (Z.to_nat 0) with 0%nat. change (Z.to_nat 8) with 8%nat.
  assert (L : ∀ v, length (le_bytes 4 v) = 4%nat) by (intros; apply length_le_bytes).
  rewrite drop_0, take_app_length' by done.
  rewrite drop_app_length' by done. rewrite take_app_length' by done.
  change 8%nat with (4 + 4)%nat. rewrite <- drop_drop, !drop_app_length' by done.
  rewrite take_app_length' by done.
  assert (Hp : 256 ^ Z.of_nat 4 = 2 ^ 32) by reflexivity.
  pose proof (u32_range (ilength d)).
  rewrite !le_value_bytes by (rewrite Hp; done). destruct d as [st len mg]. simpl in *. f_equal.
  destruct (decide (0 ≤ len)).
  - rewrite u32_small, s32_small by lia. done.
  - rewrite (u32_wrap 1), (s32_wrap (-1)) by lia. lia.
Qed.

Lemma zero_sectors_spec n b sec :
  block_ok b → size b < 2 ^ 31 → 0 ≤ sec → sec + Z.of_nat n ≤ size b →
  ∃ b', zero_sectors n b sec = Ok b' ∧ size b' = size b ∧ type b' = type b
    ∧ data b' = splice (512 * sec) (replicate (Z.to_nat (512 * Z.of_nat n)) 0) (data b).
Proof.
  revert b sec. induction n as [|n IH]; intros b sec Hb Hsz Hs Hn.
  { exists b. split; [done|]. split; [done|]. split; [done|].
    change (Z.to_nat (512 * Z.of_nat 0)) with 0%nat. cbn [replicate]. by rewrite splice_nil. }
  cbn [zero_sectors]. rewrite u32_small by lia. rewrite block_write_ok by (done || lia).
  cbn [mbind res_bind]. change (Z.to_nat BLOCK_SECTOR_SIZE) with 512%nat. set (z := replicate 512 0).
  assert (Hz : Zlength z = 512) by (unfold z; by rewrite length_replicate).
  pose proof Hb as (Hb1 & Hb2 & Hb3). unfold BLOCK_SECTOR_SIZE in Hb2.
  destruct (IH (set_data b (splice (512 * sec) z (data b))) (sec + 1)) as (b' & -> & E1 & E2 & E3).
  - apply block_ok_write; [done|lia|lia].
  - done.
  - lia.
  - simpl. lia.
  - exists b'. split; [done|]. split; [done|]. split; [done|]. rewrite E3. cbn [data set_data].
    replace (512 * (sec + 1)) with (512 * sec + Zlength z) by lia.
    rewrite splice_app by (rewrite ?length_replicate; lia).
    unfold z. rewrite <- replicate_add. do 2 f_equal. lia.
Qed.

(** A new file in the reserved sector [sec]. *)
Lemma fs_ok_insert s s' T R X sec d :
  fs_ok s T R X → R sec → disk_ok (fs_device s) d →
  (∀ x, start d ≤ x < start d + sectors d → R x) → ¬ (start d ≤ sec < start d + sectors d) →
  same_but_data s s' → Zlength (data (fs_device s')) = Zlength (data (fs_device s)) →
  (∀ sec' d', T !! sec' = Some d' → sector_at s' sec' = sector_at s sec') → decode (sector_at s' sec) = d →
  fs_ok s' (<[sec := d]> T) (λ x, R x ∧ ¬ owns sec d x) X.
Proof.
  intros Hk Hsec Hd Hext Hself Hs Hlen Hsame Hdec.
  pose proof (fs_ok_data s s' T R X Hk Hs Hlen Hsame) as Hk'.
  pose proof (sd_size _ _ Hs) as Hsz.
  assert (HR : ∀ x, owns sec d x → R x) by (intros x [->|?]; auto).
  assert (HT : T !! sec = None).
  { destruct (T !! sec) as [d'|] eqn:E; [|done]. destruct (k_res _ _ _ _ Hk sec Hsec) as [_ Hn].
    destruct (Hn sec d' E). by left. }
  destruct Hk' as [H1 H2 H3 H4 H5 H6 H7 H8 H9 H10 H11 H12 H13 H14 H15 H16]. split; try done.
  - intros sec' d' [[<- <-]|[Hne Hd']]%lookup_insert_Some; [|by apply H5].
    split; [by apply H9|]. split; [done|]. unfold disk_ok. by rewrite Hsz.
  - intros x Hx. rewrite H6 by done. split.
    + intros [Hr|(sec' & d' & Hd' & Ho)].
      * destruct (decide (x = sec)) as [->|]; [right; exists sec, d; rewrite lookup_insert_eq; by split; [|left]|].
        destruct (decide (start d ≤ x < start d + sectors d)); [right; exists sec, d; rewrite lookup_insert_eq; by split; [|right]|].
        left. split; [done|]. by intros [?|?].
      * right. exists sec', d'. rewrite lookup_insert_ne by congruence. done.
    + intros [[Hr _]|(sec' & d' & [[<- <-]|[Hne Hd']]%lookup_insert_Some & Ho)]; [by left|left; auto|].
      right. by exists sec', d'.
  - intros sec' d' [[<- <-]|[Hne Hd']]%lookup_insert_Some; [done|by apply H7].
  - intros s1 d1 s2 d2 x [[<- <-]|[Hne1 Hd1]]%lookup_insert_Some [[<- <-]|[Hne2 Hd2]]%lookup_insert_Some Ho1 Ho2;
      [done| | |by apply (H8 s1 d1 s2 d2 x)].
    + destruct (H9 x (HR x Ho1)) as [_ Hn]. by destruct (Hn s2 d2 Hd2).
    + destruct (H9 x (HR x Ho2)) as [_ Hn]. by destruct (Hn s1 d1 Hd1).
  - intros x [Hr Hno]. destruct (H9 x Hr) as [Hx Hn]. split; [done|].
    intros sec' d' [[<- <-]|[Hne Hd']]%lookup_insert_Some; [done|by apply Hn].
  - intros ip i Hip. destruct (H10 ip i Hip) as (? & ? & Ht & ?). rewrite lookup_insert_ne by congruence. done.
Qed.

(** The device after [inode_create] has written the inode and the zeros. *)
Section created.
Context (s s' : fs) (sec st n : Z) (d : inode_disk).
Context (Hb : block_ok (fs_device s)) (Hsec : 0 ≤ sec < size (fs_device s)).
Context (Hst : 0 ≤ st) (Hn : 0 ≤ n) (Hfit : st + n ≤ size (fs_device s)) (Hout : ¬ range st n sec).
Context (Hdata : data (fs_device s') = splice (512 * st) (replicate (Z.to_nat (512 * n)) 0)
  (splice (512 * sec) (encode d) (data (fs_device s)))).

Lemma created_lengths :
  Zlength (data (fs_device s)) = 512 * size (fs_device s)
  ∧ Zlength (splice (512 * sec) (encode d) (data (fs_device s))) = 512 * size (fs_device s)
  ∧ Zlength (replicate (Z.to_nat (512 * n)) 0) = 512 * n.
Proof.
  destruct Hb as (_ & Hl & _). unfold BLOCK_SECTOR_SIZE in Hl.
  rewrite length_splice by (rewrite ?length_encode; lia). rewrite length_replicate. lia.
Qed.

Lemma created_length : Zlength (data (fs_device s')) = Zlength (data (fs_device s)).
Proof. destruct created_lengths as (H1 & H2 & H3). rewrite Hdata, length_splice; lia. Qed.

(** Ranges of whole sectors outside. *)
Lemma created_slice i m :
  0 ≤ i → 0 ≤ m → i + m ≤ 512 * size (fs_device s) →
  i + m ≤ 512 * sec ∨ 512 * sec + 512 ≤ i → i + m ≤ 512 * st ∨ 512 * (st + n) ≤ i ∨ n = 0 →
  slice i m (data (fs_device s')) = slice i m (data (fs_device s)).
Proof.
  intros Hi Hm Him H1 H2. destruct created_lengths as (L1 & L2 & L3). rewrite Hdata.
  pose proof (length_encode d).
  destruct (decide (n = 0)) as [->|].
  - change (Z.to_nat (512 * 0)) with 0%nat. cbn [replicate]. rewrite splice_nil.
    apply slice_splice_other; lia.
  - rewrite slice_splice_other by lia. apply slice_splice_other; lia.
Qed.

Lemma created_inode : sector_at s' sec = encode d.
Proof.
  destruct created_lengths as (L1 & L2 & L3). unfold sector_at, range in *. rewrite Hdata.
  pose proof (length_encode d) as Le.
  assert (E : slice (512 * sec) 512 (splice (512 * sec) (encode d) (data (fs_device s))) = encode d).
  { apply slice_splice_eq; lia. }
  destruct (decide (n = 0)) as [->|].
  - change (Z.to_nat (512 * 0)) with 0%nat. cbn [replicate]. by rewrite splice_nil.
  - by rewrite slice_splice_other by lia.
Qed.

Lemma created_zeros m : 0 ≤ m ≤ 512 * n → slice (512 * st) m (data (fs_device s')) = replicate (Z.to_nat m) 0.
Proof.
  intros Hm. destruct created_lengths as (L1 & L2 & L3). rewrite Hdata.
  set (l := splice (512 * st) _ _).
  replace (512 * st) with (512 * st + 0) by lia. rewrite <- (slice_slice (512 * st) (512 * n)) by lia.
  replace (slice (512 * st) (512 * n) l) with (replicate (Z.to_nat (512 * n)) 0).
  - unfold slice. simpl. rewrite drop_0, take_replicate. f_equal. lia.
  - symmetry. apply slice_splice_eq; lia.
Qed.
End created.

Lemma fs_ok_malloc s T R X : fs_ok s T R X → fs_ok (malloc s).2 T R X.
Proof.
  intros Hk. destruct (malloc_same s) as (Hms & _ & Hmd).
  apply (fs_ok_data s); [done|done|by rewrite Hmd|]. intros. unfold sector_at. by rewrite Hmd.
Qed.

Lemma created_ok s s' T R X sec d :
  fs_ok s T R X → R sec → (∀ x, range (start d) (sectors d) x → R x) → ¬ range (start d) (sectors d) sec →
  disk_ok (fs_device s) d → magic d = INODE_MAGIC → same_but_data s s' →
  data (fs_device s') = splice (512 * start d) (replicate (Z.to_nat (512 * sectors d)) 0)
    (splice (512 * sec) (encode d) (data (fs_device s))) →
  fs_ok s' (<[sec := d]> T) (λ x, R x ∧ ¬ owns sec d x) X
  ∧ (∀ sec' d', T !! sec' = Some d' → file_data s' d' = file_data s d')
  ∧ file_data s' d = replicate (Z.to_nat (ilength d)) 0.
Proof.
  intros Hk Hsec Hext Hout Hok Hmg Hs Hdata. pose proof (k_dev _ _ _ _ Hk) as Hb.
  pose proof (k_size _ _ _ _ Hk) as Hz. destruct (k_res _ _ _ _ Hk sec Hsec) as [Hsr Hno].
  destruct Hok as (O1 & O2 & O3). pose proof (sectors_pos d (proj1 O2)) as [O4 O5].
  assert (Hdis : ∀ sec' d' x, T !! sec' = Some d' → range (start d) (sectors d) x → ¬ owns sec' d' x).
  { intros sec' d' x Hd' Hx. by apply (k_res _ _ _ _ Hk x (Hext x Hx)). }
  split; [|split].
  - apply (fs_ok_insert s); try done.
    + by apply (created_length s s' sec (start d) (sectors d) d).
    + intros sec' d' Hd'. destruct (k_disk _ _ _ _ Hk sec' d' Hd') as (D0 & _).
      specialize (Hno sec' d' Hd'). assert (sec' ≠ sec) by (intros ->; apply Hno; by left).
      assert (¬ range (start d) (sectors d) sec') by (intros Hx; apply (Hdis sec' d' sec' Hd' Hx); by left).
      unfold range in *. apply (created_slice s s' sec (start d) (sectors d) d); try done; lia.
    + rewrite (created_inode s s' sec (start d) (sectors d) d) by done.
      apply decode_encode; [lia|lia|by rewrite Hmg].
  - intros sec' d' Hd'. destruct (k_disk _ _ _ _ Hk sec' d' Hd') as (_ & _ & (D1 & D2 & D3)).
    pose proof (sectors_pos d' (proj1 D2)) as [D4 D5]. specialize (Hno sec' d' Hd').
    destruct (decide (ilength d' = 0)) as [E0|]; [unfold file_data, slice; by rewrite E0|].
    apply (created_slice s s' sec (start d) (sectors d) d); try done; try lia.
    + destruct (decide (start d' ≤ sec < start d' + sectors d')); [destruct Hno; by right|lia].
    + destruct (decide (sectors d = 0)); [lia|]. destruct (decide (start d + sectors d ≤ start d')); [lia|].
      destruct (decide (start d' + sectors d' ≤ start d)); [lia|]. exfalso.
      apply (Hdis sec' d' (Z.max (start d) (start d')) Hd'); [unfold range; lia|right; lia].
  - apply (created_zeros s s' sec (start d) (sectors d) d); try done; lia.
Qed.

Lemma inode_create_ok s T R X sec len :
  fs_ok s T R X → R sec → 0 ≤ len < 2 ^ 31 →
  ∃ ok s', inode_create s sec len = Ok (ok, s')
    ∧ kept T s s' ∧ inodes s' = inodes s
    ∧ if (ok : bool) then ∃ d, ilength d = len ∧ file_data s' d = replicate (Z.to_nat len) 0
           ∧ fs_ok s' (<[sec := d]> T) (λ x, R x ∧ x ≠ sec) X
      else fs_ok s' T R X ∧ (mem_ok s → full s (bytes_to_sectors len)).
Proof.
  intros Hk Hsec Hlen. unfold inode_create. rewrite (proj2 (Z.leb_le 0 len)) by lia.
  destruct (malloc_same s) as (Hms & Hmm & Hmd). pose proof (fs_ok_malloc s T R X Hk) as Hk1.
  destruct (malloc s) as [p s1]. simpl in Hms, Hmm, Hmd, Hk1.
  assert (K1 : kept T s s1) by (apply kept_same; congruence). pose proof (sd_inodes _ _ Hms) as Ei1.
  destruct (Z.eqb_spec p 0) as [->|Hp].
  { exists false, s1. do 4 (split; [done|]). intros Hm. by destruct (Hmm Hm). }
  destruct (free_map_allocate_ok s1 T R X (bytes_to_sectors len) Hk1) as
    (o & s2 & -> & K2 & Ei2 & Ho); [apply u32_range|].
  cbn [mbind res_bind]. assert (K3 : kept T s s2) by (by transitivity s1). destruct o as [st|].
  2:{ destruct Ho as [Hk2 Hfull]. exists false, s2. split; [done|]. split; [done|]. split; [congruence|].
      split; [done|]. intros Hm j Hj0 Hj. rewrite <- (sd_map _ _ Hms).
      apply Hfull; [by apply (mem_ok_same s)|done|by rewrite Hmd]. }
  destruct Ho as (Hk2 & Hst & Hfit & Hfresh).
  assert (Hsmall : len ≤ 2 ^ 31 - 512).
  { destruct (Z.le_gt_cases len (2 ^ 31 - 512)); [done|]. exfalso.
    pose proof (bytes_to_sectors_large len). pose proof (k_size _ _ _ _ Hk1). lia. }
  rewrite (bytes_to_sectors_spec len) in * by lia. set (d := InodeDisk st len INODE_MAGIC).
  change ((len + 511) / 512) with (sectors d) in *. change st with (start d) in Hk2, Hfit, Hfresh.
  pose proof (sectors_pos d (proj1 Hlen)) as [Hn _]. rewrite <- (kp_size _ _ _ K2) in Hfit.
  pose proof (k_dev _ _ _ _ Hk2) as Hb2. destruct (k_res _ _ _ _ Hk2 sec (or_introl Hsec)) as [Hsr _].
  rewrite block_write_ok by done. cbn [mbind res_bind]. set (b3 := set_data (fs_device s2) _).
  assert (Hb3 : block_ok b3).
  { apply block_ok_write; [done|lia|]. rewrite length_encode. destruct Hb2 as (_ & Hb2 & _).
    unfold BLOCK_SECTOR_SIZE in Hb2. lia. }
  pose proof (k_size _ _ _ _ Hk2) as Hz2.
  destruct (zero_sectors_spec (Z.to_nat (sectors d)) b3 st) as (b4 & -> & E1 & E2 & E3);
    [done|done|simpl in *; lia|simpl in *; lia|].
  cbn [mbind res_bind]. set (s4 := set_dev s2 b4).
  destruct (created_ok s2 s4 T _ X sec d Hk2) as (Hk4 & Hd4 & Hz4); try done.
  { by left. } { intros x Hx. by right. } { intros Hx. by destruct (Hfresh sec Hx). }
  { split; [done|]. split; [simpl in *; lia|done]. }
  { simpl. rewrite E3, Z2Nat.id by lia. done. }
  exists true, s4. split; [done|]. split; [|split; [simpl; congruence|]].
  { transitivity s2; [done|]. split; try done; [intros sec' d' Hd' _; by apply (Hd4 sec')|].
    intros _ Hs d' Hd'. rewrite (Hd4 _ d' Hd'). by apply Hs. }
  exists d. split; [done|]. split; [done|]. apply (fs_ok_reserved_iff _ _ _ _ _ Hk4). intros x. unfold owns. split.
  - intros [Hr Hne]. split; [by left|]. intros [?|Hx]; [done|]. by destruct (Hfresh x Hx).
  - intros [[Hr|Hx] Hno]; [split; [done|]; intros ->; apply Hno; by left|]. exfalso. apply Hno. by right.
Qed.

(** ** Inodes in memory *)

(** One reference more or less. *)
Definition bump (X : Z → Z) (ip n : Z) (q : Z) : Z := if decide (q = ip) then X q + n else X q.

Lemma refs_zero s ip :
  (∀ f fl, files s !! f = Some fl → finode fl ≠ ip) → refs s ip = 0 ∧ denies s ip = 0.
Proof.
  intros Hf. assert (E : ∀ (P : Z * file → Prop) `{!∀ p, Decision (P p)}, (∀ p, P p → finode p.2 = ip) →
    filter P (files s) = ∅).
  { intros P ? HP. apply map_empty. intros f. apply map_lookup_filter_None. right.
    intros fl Hfl Hp. by apply (Hf f fl Hfl), (HP (f, fl)). }
  unfold refs, denies. rewrite !E; [done|by intros p [? _]|done].
Qed.

Lemma denies_le s ip : 0 ≤ denies s ip ≤ refs s ip.
Proof.
  unfold refs, denies. split; [lia|]. apply inj_le, map_subseteq_size.
  apply map_filter_subseteq_ext. intros f fl _. simpl. tauto.
Qed.

(** States that differ in the counters of inode [ip] only. *)
Lemma fs_ok_inode s T R X ip i i' n :
  fs_ok s T R X → inodes s !! ip = Some i → sector i' = sector i → idata i' = idata i →
  open_cnt i' = open_cnt i + n → 0 < open_cnt i' → 0 ≤ X ip + n →
  deny_write_cnt i' = deny_write_cnt i → (sector i = FREE_MAP_SECTOR → removed i' = removed i) →
  fs_ok (set_inodes s (<[ip := i']> (inodes s)) (open_inodes s)) T R (bump X ip n).
Proof.
  intros Hk Hip E1 E2 E3 E4 E5 E6 E7. destruct Hk as [H1 H2 H3 H4 H5 H6 H7 H8 H9 H10 H11 H12 H13 H14 H15 H16].
  split; try done; simpl.
  - intros q j [[<- <-]|[Hne Hq]]%lookup_insert_Some.
    + destruct (H10 ip i Hip) as (A1 & A2 & A3 & A4 & A5 & A6). unfold bump. rewrite decide_True by done.
      rewrite E1, E2, E3, E6. split; [done|]. split; [done|]. split; [done|].
      change (refs (set_inodes s _ _) ip) with (refs s ip). split; [lia|]. split; [lia|]. done.
    + unfold bump. rewrite decide_False by done. by apply H10.
  - intros q. unfold bump. destruct (decide (q = ip)) as [->|]; [|rewrite lookup_insert_ne by done; apply H11].
    split; [done|]. by rewrite lookup_insert_eq.
  - intros q Hq. destruct (decide (q = ip)) as [->|]; [by rewrite lookup_insert_eq|].
    rewrite lookup_insert_ne by done. auto.
  - intros p q j j' [[<- <-]|[Hne1 Hp]]%lookup_insert_Some [[<- <-]|[Hne2 Hq]]%lookup_insert_Some Es; [done|..].
    + apply (H14 _ q i j'); congruence.
    + apply (H14 p _ j i); congruence.
    + by apply (H14 p q j j').
  - intros f fl Hf. destruct (H15 f fl Hf) as [? Hx]. split; [done|].
    destruct (decide (finode fl = ip)) as [->|]; [by rewrite lookup_insert_eq|by rewrite lookup_insert_ne].
  - destruct H16 as (im & fl & [M1 M2 M3 M4 M5] & Hx & Hr).
    destruct (decide (finode fl = ip)) as [E|].
    + rewrite E in M2. rewrite Hip in M2. injection M2 as <-. exists i', fl. split; [split|].
      * done.
      * simpl. by rewrite E, lookup_insert_eq.
      * congruence.
      * unfold node_ok in *. by rewrite E2.
      * simpl. rewrite <- M5. unfold inode_length. by rewrite E2.
      * split; [congruence|]. rewrite E7; done.
    + exists im, fl. split; [split; try done; simpl; by rewrite lookup_insert_ne|done].
Qed.

Lemma find_open_spec s sec l :
  match find_open s sec l with
  | Some ip => ip ∈ l ∧ ∃ i, inodes s !! ip = Some i ∧ sector i = sec
  | None => ∀ ip i, ip ∈ l → inodes s !! ip = Some i → sector i ≠ sec
  end.
Proof.
  induction l as [|ip l IH]; simpl; [by intros ip i ?%not_elem_of_nil|].
  destruct (inodes s !! ip) as [i|] eqn:E.
  - destruct (Z.eqb_spec (sector i) sec) as [Es|Es]; [split; [by left|by exists i]|].
    destruct (find_open s sec l) as [q|].
    + destruct IH as [? ?]. split; [by right|done].
    + intros q j [->|Hq]%elem_of_cons Hj; [congruence|by apply (IH q)].
  - destruct (find_open s sec l) as [q|].
    + destruct IH as [? ?]. split; [by right|done].
    + intros q j [->|Hq]%elem_of_cons Hj; [congruence|by apply (IH q)].
Qed.

Lemma alter_insert_Some {A} (f : A → A) (m : gmap Z A) i x : m !! i = Some x → alter f i m = <[i := f x]> m.
Proof.
  intros Hx. apply map_eq. intros j. destruct (decide (j = i)) as [->|].
  - by rewrite lookup_alter_eq, lookup_insert_eq, Hx.
  - by rewrite lookup_alter_ne, lookup_insert_ne.
Qed.

Lemma upd_inode_eq s ip f i :
  inodes s !! ip = Some i → upd_inode s ip f = set_inodes s (<[ip := f i]> (inodes s)) (open_inodes s).
Proof. intros Hi. unfold upd_inode. by rewrite (alter_insert_Some f _ _ i). Qed.

(** A new inode in memory, at a new address. *)
Lemma fs_ok_new_inode s T R X ip sec d :
  fs_ok s T R X → T !! sec = Some d → addr_ok s ip → inodes s !! ip = None →
  (∀ q i, inodes s !! q = Some i → sector i ≠ sec) →
  fs_ok (set_inodes s (<[ip := Node sec 1 false 0 d]> (inodes s)) (ip :: open_inodes s)) T R (bump X ip 1).
Proof.
  intros Hk HT Ha Hn Hsec. destruct Hk as [H1 H2 H3 H4 H5 H6 H7 H8 H9 H10 H11 H12 H13 H14 H15 H16].
  assert (Hr : refs s ip = 0 ∧ denies s ip = 0).
  { apply refs_zero. intros f fl Hf E. destruct (H15 f fl Hf) as [_ [? Hx]]. congruence. }
  split; try done; simpl.
  - intros q j [[<- <-]|[Hne Hq]]%lookup_insert_Some; simpl.
    + unfold bump. rewrite decide_True by done. rewrite (proj2 (H11 ip) Hn). destruct Hr as [Hr1 Hr2].
      change (refs (set_inodes s _ _) ip) with (refs s ip).
      change (denies (set_inodes s _ _) ip) with (denies s ip). split_and!; try done; [by left|lia..].
    + unfold bump. rewrite decide_False by done. destruct (H10 q j Hq) as (? & ? & ? & ? & ?).
      split_and!; try done; [by right|..]; naive_solver.
  - intros q. unfold bump. destruct (decide (q = ip)) as [->|]; [|rewrite lookup_insert_ne by done; apply H11].
    rewrite lookup_insert_eq. destruct (H11 ip). split; [lia|done].
  - intros q [->|Hq]%elem_of_cons; [by rewrite lookup_insert_eq|].
    rewrite lookup_insert_ne; [auto|]. intros ->. destruct (H12 q Hq). congruence.
  - constructor; [|done]. intros Hin. destruct (H12 ip Hin). congruence.
  - intros p q j j' [[<- <-]|[Hne1 Hp]]%lookup_insert_Some [[<- <-]|[Hne2 Hq]]%lookup_insert_Some Es; [done|..].
    + simpl in Es. by destruct (Hsec q j' Hq).
    + simpl in Es. by destruct (Hsec p j Hp).
    + by apply (H14 p q j j').
  - intros f fl Hf. destruct (H15 f fl Hf) as [? Hx]. split; [done|].
    rewrite lookup_insert_ne; [done|]. intros E. destruct Hx. congruence.
  - destruct H16 as (im & fl & [M1 M2 M3 M4 M5] & Hx). exists im, fl. split; [|done].
    split; try done. simpl. rewrite lookup_insert_ne; [done|]. congruence.
Qed.

(** The inode in memory that [inode_open] returns. *)
Definition opened (s s' : fs) (ip sec : Z) (d : inode_disk) : Prop :=
  ∃ i, inodes s' = <[ip := i]> (inodes s) ∧ sector i = sec ∧ idata i = d ∧
    match inodes s !! ip with
    | Some j => i = Node (sector j) (open_cnt j + 1) (removed j) (deny_write_cnt j) (idata j)
    | None => i = Node sec 1 false 0 d ∧ ∀ q j, inodes s !! q = Some j → sector j ≠ sec
    end.

Lemma inode_reopen_ok s T R X ip i :
  fs_ok s T R X → inodes s !! ip = Some i →
  fs_ok (inode_reopen s ip) T R (bump X ip 1) ∧ opened s (inode_reopen s ip) ip (sector i) (idata i).
Proof.
  intros Hk Hip. destruct (k_node _ _ _ _ Hk ip i Hip) as (_ & _ & _ & Hc & Hp & _).
  unfold inode_reopen. rewrite (upd_inode_eq s ip _ i) by done. split.
  - apply (fs_ok_inode s T R X ip i); simpl; try done; [lia|]. pose proof (proj1 (k_extra _ _ _ _ Hk ip)). lia.
  - eexists. split; [done|]. by rewrite Hip.
Qed.

Lemma inode_open_ok s T R X sec d :
  fs_ok s T R X → T !! sec = Some d →
  ∃ ip s', inode_open s sec = Ok (ip, s') ∧ kept T s s' ∧ free_map s' = free_map s ∧ (mem_ok s → ip ≠ 0)
    ∧ if decide (ip = 0) then fs_ok s' T R X ∧ inodes s' = inodes s
      else fs_ok s' T R (bump X ip 1) ∧ opened s s' ip sec d.
Proof.
  intros Hk HT. unfold inode_open. pose proof (find_open_spec s sec (open_inodes s)) as Hf.
  destruct (find_open s sec (open_inodes s)) as [ip|].
  - destruct Hf as [Hin (i & Hip & <-)]. destruct (k_node _ _ _ _ Hk ip i Hip) as (Ha & _ & HT' & _).
    exists ip, (inode_reopen s ip). split; [done|]. split; [by split|]. split; [done|].
    assert (Hne : ip ≠ 0) by (unfold addr_ok in Ha; lia). split; [done|]. rewrite decide_False by done.
    replace d with (idata i) by congruence. by apply inode_reopen_ok.
  - destruct (malloc_same s) as (Hms & Hmm & Hmd). pose proof (fs_ok_malloc s T R X Hk) as Hk1.
    assert (Efst : (malloc s).1 = 0 ∨ (malloc s).1 = 16 * (Z.of_nat (calls s) + 1)).
    { unfold malloc. simpl. destruct (supply s (calls s)); auto. }
    assert (Ecalls : calls (malloc s).2 = S (calls s)) by done.
    destruct (malloc s) as [ip s1]. simpl in Hms, Hmm, Hmd, Hk1, Efst, Ecalls.
    assert (K1 : kept T s s1) by (apply kept_same; congruence). pose proof (sd_inodes _ _ Hms) as E1.
    pose proof (sd_map _ _ Hms) as E4. destruct (Z.eqb_spec ip 0) as [->|Hne].
    { exists 0, s1. do 3 (split; [done|]). split; [exact Hmm|]. by rewrite decide_True. }
    destruct (k_disk _ _ _ _ Hk1 sec d HT) as (Hsr & Hdec & _).
    rewrite block_read_ok by (done || apply Hk1). cbn [mbind res_bind].
    change (slice (512 * sec) 512 (data (fs_device s1))) with (sector_at s1 sec). rewrite Hdec.
    assert (Hn : inodes s !! ip = None).
    { destruct (inodes s !! ip) as [i|] eqn:Ei; [|done]. exfalso.
      destruct (k_node _ _ _ _ Hk ip i Ei) as (Ha & _). unfold addr_ok in Ha. lia. }
    assert (Hall : ∀ q i, inodes s !! q = Some i → sector i ≠ sec).
    { intros q i Hq. destruct (k_node _ _ _ _ Hk q i Hq) as (_ & Hin & _). by apply (Hf q). }
    eexists ip, _. split; [done|]. split; [transitivity s1; [done|by split]|]. do 2 (split; [done|]).
    rewrite decide_False by done. split.
    + apply (fs_ok_data (set_inodes s1 (<[ip:=Node sec 1 false 0 d]> (inodes s1)) (ip :: open_inodes s1)));
        [|by split|done|done].
      apply fs_ok_new_inode; rewrite ?E1; try done. unfold addr_ok. lia.
    + exists (Node sec 1 false 0 d). simpl. rewrite E1, Hn. done.
Qed.

(** The last reference to an inode goes. *)
Lemma fs_ok_drop_inode s T R X ip i :
  fs_ok s T R X → inodes s !! ip = Some i → open_cnt i = 1 → X ip = 1 →
  fs_ok (set_inodes s (delete ip (inodes s)) (filter (λ q, q ≠ ip) (open_inodes s))) T R (bump X ip (-1))
  ∧ ∀ q j, inodes s !! q = Some j → q ≠ ip → sector j ≠ sector i.
Proof.
  intros Hk Hip Hc Hx. pose proof (k_uniq _ _ _ _ Hk) as Hu.
  split; [|intros q j Hq Hne Es; apply Hne; by apply (Hu q ip j i)].
  destruct Hk as [H1 H2 H3 H4 H5 H6 H7 H8 H9 H10 H11 H12 H13 H14 H15 H16].
  assert (Hnf : ∀ f fl, files s !! f = Some fl → finode fl ≠ ip).
  { intros f fl Hf E. destruct (H10 ip i Hip) as (_ & _ & _ & Hr & _).
    assert (Hz : refs s ip = 0) by lia. unfold refs in Hz.
    assert (Hs : base.size (filter (λ p : Z * file, finode p.2 = ip) (files s)) = 0%nat) by lia.
    apply map_size_empty_inv in Hs.
    assert (Hf' : filter (λ p : Z * file, finode p.2 = ip) (files s) !! f = Some fl)
      by (by apply map_lookup_filter_Some). rewrite Hs in Hf'. done. }
  split; try done; simpl.
  - intros q j [Hne Hq]%lookup_delete_Some. destruct (H10 q j Hq) as (A1 & A2 & A3 & A4 & A5 & A6).
    unfold bump. rewrite decide_False by done. split_and!; try done. apply list_elem_of_filter. done.
  - intros q. unfold bump. destruct (decide (q = ip)) as [->|Hq]; [split; [lia|]; intros _; lia|].
    rewrite lookup_delete_ne by done. apply H11.
  - intros q [Hne Hq]%list_elem_of_filter. rewrite lookup_delete_ne by done. auto.
  - by apply NoDup_filter.
  - intros p q j j' [_ Hp]%lookup_delete_Some [_ Hq]%lookup_delete_Some. by apply H14.
  - intros f fl Hf. destruct (H15 f fl Hf). split; [done|]. rewrite lookup_delete_ne; [done|].
    intros E. by apply (Hnf f fl Hf).
  - destruct H16 as (im & fl & [M1 M2 M3 M4 M5] & Hm). exists im, fl. split; [|done]. split; try done. simpl.
    rewrite lookup_delete_ne; [done|]. intros E. by apply (Hnf _ fl M1).
Qed.

(** A file that is not named and not open any more: its sectors are reserved. *)
Lemma fs_ok_delete s T R X sec d :
  fs_ok s T R X → T !! sec = Some d → (∀ q j, inodes s !! q = Some j → sector j ≠ sec) →
  fs_ok s (delete sec T) (λ x, R x ∨ owns sec d x) X.
Proof.
  intros [H1 H2 H3 H4 H5 H6 H7 H8 H9 H10 H11 H12 H13 H14 H15 H16] HT Hno. split; try done.
  - intros sec' d' [_ Hd]%lookup_delete_Some. auto.
  - intros x Hx. rewrite (H6 x Hx). split.
    + intros [?|(sec' & d' & Hd & Ho)]; [by left; left|]. destruct (decide (sec' = sec)) as [->|].
      * left. right. by simplify_eq.
      * right. exists sec', d'. by rewrite lookup_delete_ne.
    + intros [[?|Ho]|(sec' & d' & [_ Hd]%lookup_delete_Some & Ho)]; eauto 10.
  - intros sec' d' [_ Hd]%lookup_delete_Some. auto.
  - intros sec1 d1 sec2 d2 x [_ Hd1]%lookup_delete_Some [_ Hd2]%lookup_delete_Some. eauto.
  - intros x [Hr|Ho].
    + destruct (H9 x Hr) as [? Hx]. split; [done|]. intros sec' d' [_ Hd]%lookup_delete_Some. auto.
    + destruct (H5 sec d HT) as (D1 & _ & (D2 & D3 & D4)). split; [destruct Ho; lia|].
      intros sec' d' [Hne Hd]%lookup_delete_Some Ho'. apply Hne. by apply (H8 sec d sec' d' x).
  - intros ip i Hi. destruct (H10 ip i Hi) as (A1 & A2 & A3 & A4). split; [done|]. split; [done|].
    split; [|done]. rewrite lookup_delete_ne; [done|]. intros E. by destruct (Hno ip i Hi).
Qed.

(** Closing a reference that is not a file.  The last one of a removed file
    releases its sectors. *)
Definition closed_table (T : gmap Z inode_disk) (i : inode) : gmap Z inode_disk :=
  if decide (open_cnt i = 1 ∧ removed i = true) then delete (sector i) T else T.
Definition closed (s : fs) (ip : Z) (i : inode) : gmap Z inode :=
  if decide (open_cnt i = 1) then delete ip (inodes s)
  else <[ip := Node (sector i) (open_cnt i - 1) (removed i) (deny_write_cnt i) (idata i)]> (inodes s).

Lemma release_removed_ok s T R X sec d :
  fs_ok s T R X → T !! sec = Some d → (∀ q j, inodes s !! q = Some j → sector j ≠ sec) →
  ∃ s1 s', free_map_release s sec 1 = Ok s1 ∧ free_map_release s1 (start d) (bytes_to_sectors (ilength d)) = Ok s'
    ∧ kept (delete sec T) s s' ∧ fs_ok s' (delete sec T) R X ∧ inodes s' = inodes s.
Proof.
  intros Hk HT Hno. destruct (k_disk _ _ _ _ Hk _ _ HT) as (Hsr & _ & (D1 & D2 & D3)).
  pose proof (sectors_pos d (proj1 D2)) as [D4 _].
  pose proof (fs_ok_delete s T R _ sec d Hk HT Hno) as Hk2.
  destruct (free_map_release_ok s _ _ _ sec 1 Hk2) as (s2 & -> & Hk3 & K3 & E3); [lia..| |].
  { intros x Hr. right. left. unfold range in Hr. lia. }
  exists s2. rewrite (bytes_to_sectors_spec (ilength d)) by lia.
  change ((ilength d + 511) / 512) with (sectors d). pose proof (k_self _ _ _ _ Hk _ _ HT) as Hself.
  destruct (free_map_release_ok s2 _ _ _ (start d) (sectors d) Hk3) as (s3 & -> & Hk4 & K4 & E4);
    [done|done|by rewrite (kp_size _ _ _ K3)| |].
  { intros x Hr. unfold range in *. split; [right; right; lia|lia]. }
  exists s3. do 2 (split; [done|]). split; [by transitivity s2|]. split; [|congruence].
  apply (fs_ok_reserved_iff _ _ _ _ _ Hk4). intros x. unfold owns, range.
  pose proof (k_res _ _ _ _ Hk x) as Hr. split; [|intuition lia].
  intros Hx. destruct (Hr Hx) as [_ Hn]. specialize (Hn sec d HT). unfold owns in Hn. split; [split|]; [by left|..].
  - intros ?. apply Hn. left. lia.
  - intros ?. apply Hn. right. lia.
Qed.

Lemma inode_close_ok s T R X ip i :
  fs_ok s T R X → inodes s !! ip = Some i → 0 < X ip →
  ∃ s', inode_close s ip = Ok s' ∧ kept (closed_table T i) s s'
    ∧ fs_ok s' (closed_table T i) R (bump X ip (-1)) ∧ inodes s' = closed s ip i.
Proof.
  intros Hk Hip Hx. destruct (k_node _ _ _ _ Hk ip i Hip) as (Ha & _ & HT & Hc & Hp & _).
  unfold inode_close. rewrite (proj2 (Z.eqb_neq ip 0)) by (unfold addr_ok in Ha; lia).
  rewrite Hip. cbn [from_opt mbind res_bind open_cnt removed sector idata]. pose proof (denies_le s ip).
  unfold closed_table, closed. destruct (Z.eqb_spec (open_cnt i - 1) 0) as [H0|H0].
  - rewrite (decide_True (P := open_cnt i = 1)) by lia.
    destruct (fs_ok_drop_inode s T R X ip i) as [Hk1 Hno]; [done|done|lia|lia|].
    set (s1 := set_inodes _ _ _) in *. destruct (removed i) eqn:Hrm.
    + rewrite (decide_True (P := open_cnt i = 1 ∧ _)) by lia.
      destruct (release_removed_ok s1 T R _ (sector i) (idata i) Hk1 HT) as (s2 & s3 & -> & E & K & Hk3 & Ei).
      { intros q j Hq. change (delete ip (inodes s) !! q = Some j) in Hq.
        apply lookup_delete_Some in Hq as [Hne Hq]. by apply (Hno q). }
      cbn [mbind res_bind]. rewrite E. exists s3. split; [done|]. split; [|done]. transitivity s1; [by split|done].
    + rewrite decide_False by naive_solver. exists s1. split; [done|]. split; [by split|done].
  - rewrite !decide_False by lia. eexists. split; [done|]. split; [by split|].
    split; [|done]. apply (fs_ok_inode s T R X ip i); simpl; try done; lia.
Qed.

End FsInv.
