(* ===== verification/FileInv.v ===== *)
(** * Open files, [filesys/file.c]

    The invariant of the file system under the operations on open files: a file counts
    as one reference to its inode and as at most one denial of writes. *)

From S2P Require Import Prelude Bitmap Disk Inode FsInv.

Module FileInv.
Import Bitmap Disk Inode FsInv.

Definition count (P : bool) : Z := if P then 1 else 0.

(** ** Counting references *)

Section counting.
Context (P : Z * file → Prop) `{∀ p, Decision (P p)}.

Lemma count_insert (m : gmap Z file) f fl :
  m !! f = None →
  Z.of_nat (base.size (filter P (<[f := fl]> m)))
  = Z.of_nat (base.size (filter P m)) + count (bool_decide (P (f, fl))).
Proof.
  intros Hf. case_bool_decide.
  - rewrite map_filter_insert_True by done. rewrite map_size_insert_None; [simpl; lia|].
    apply map_lookup_filter_None. by left.
  - rewrite map_filter_insert_False by done. rewrite delete_id by done. simpl. lia.
Qed.
Lemma count_delete (m : gmap Z file) f fl :
  m !! f = Some fl →
  Z.of_nat (base.size (filter P (delete f m)))
  = Z.of_nat (base.size (filter P m)) - count (bool_decide (P (f, fl))).
Proof.
  intros Hf. rewrite <- (insert_delete_id m f fl Hf) at 2.
  rewrite count_insert by apply lookup_delete_eq. lia.
Qed.
Lemma count_update (m : gmap Z file) f fl fl' :
  m !! f = Some fl →
  Z.of_nat (base.size (filter P (<[f := fl']> m)))
  = Z.of_nat (base.size (filter P m)) - count (bool_decide (P (f, fl))) + count (bool_decide (P (f, fl'))).
Proof.
  intros Hf. rewrite <- insert_delete_eq. rewrite count_insert by apply lookup_delete_eq.
  by rewrite (count_delete m f fl).
Qed.
End counting.

Definition points (fl : file) (ip : Z) : Z := count (bool_decide (finode fl = ip)).
Definition denying (fl : file) (ip : Z) : Z := count (bool_decide (finode fl = ip ∧ deny_write fl = true)).

Lemma points_eq fl ip : finode fl = ip → points fl ip = 1.
Proof. intros. unfold points. by rewrite bool_decide_true. Qed.
Lemma points_ne fl ip : finode fl ≠ ip → points fl ip = 0 ∧ denying fl ip = 0.
Proof. intros. unfold points, denying. rewrite !bool_decide_false by naive_solver. done. Qed.
Lemma denying_eq fl ip : finode fl = ip → denying fl ip = count (deny_write fl).
Proof.
  intros E. unfold denying. destruct (deny_write fl) eqn:Ed; [by rewrite bool_decide_true|].
  rewrite bool_decide_false by naive_solver. done.
Qed.

Lemma refs_insert s f fl ip :
  files s !! f = None →
  refs (set_files s (<[f := fl]> (files s))) ip = refs s ip + points fl ip
  ∧ denies (set_files s (<[f := fl]> (files s))) ip = denies s ip + denying fl ip.
Proof.
  intros Hf. split; [exact (count_insert (λ p, finode p.2 = ip) (files s) f fl Hf)|].
  exact (count_insert (λ p, finode p.2 = ip ∧ deny_write p.2 = true) (files s) f fl Hf).
Qed.
Lemma refs_delete s f fl ip :
  files s !! f = Some fl →
  refs (set_files s (delete f (files s))) ip = refs s ip - points fl ip
  ∧ denies (set_files s (delete f (files s))) ip = denies s ip - denying fl ip.
Proof.
  intros Hf. split; [exact (count_delete (λ p, finode p.2 = ip) (files s) f fl Hf)|].
  exact (count_delete (λ p, finode p.2 = ip ∧ deny_write p.2 = true) (files s) f fl Hf).
Qed.
Lemma refs_update s f fl fl' ip :
  files s !! f = Some fl →
  refs (set_files s (<[f := fl']> (files s))) ip = refs s ip - points fl ip + points fl' ip
  ∧ denies (set_files s (<[f := fl']> (files s))) ip = denies s ip - denying fl ip + denying fl' ip.
Proof.
  intros Hf. split; [exact (count_update (λ p, finode p.2 = ip) (files s) f fl fl' Hf)|].
  exact (count_update (λ p, finode p.2 = ip ∧ deny_write p.2 = true) (files s) f fl fl' Hf).
Qed.

(** ** A new file, and one that goes *)

Lemma fs_ok_new_file s T R X f ip :
  fs_ok s T R X → 0 < X ip → addr_ok s f → files s !! f = None →
  fs_ok (set_files s (<[f := File ip 0 false]> (files s))) T R (bump X ip (-1)).
Proof.
  intros Hk Hx Ha Hf. assert (Hi : is_Some (inodes s !! ip)).
  { destruct (inodes s !! ip) eqn:E; [done|]. destruct (k_extra _ _ _ _ Hk ip) as [_ He]. specialize (He E). lia. }
  destruct Hk as [H1 H2 H3 H4 H5 H6 H7 H8 H9 H10 H11 H12 H13 H14 H15 H16]. split; try done; simpl.
  - intros q j Hq. destruct (H10 q j Hq) as (A1 & A2 & A3 & A4 & A5 & A6).
    destruct (refs_insert s f (File ip 0 false) q Hf) as [-> ->]. unfold bump.
    destruct (decide (q = ip)) as [->|].
    + rewrite points_eq, denying_eq by done. simpl. split_and!; try done; lia.
    + destruct (points_ne (File ip 0 false) q) as [-> ->]; [done|]. split_and!; try done; lia.
  - intros q. unfold bump. destruct (decide (q = ip)) as [->|]; [|apply H11].
    split; [lia|]. intros E. rewrite E in Hi. by destruct Hi.
  - intros g fl [[<- <-]|[_ Hg]]%lookup_insert_Some; [done|]. by apply H15.
  - destruct H16 as (im & fl & [M1 M2 M3 M4 M5] & Hm). exists im, fl. split; [|done]. split; try done. simpl.
    rewrite lookup_insert_ne; [done|]. congruence.
Qed.

Lemma fs_ok_drop_file s T R X f fl :
  fs_ok s T R X → files s !! f = Some fl → deny_write fl = false → f ≠ free_map_file s →
  fs_ok (set_files s (delete f (files s))) T R (bump X (finode fl) 1).
Proof.
  intros Hk Hf Hd Hne.
  destruct Hk as [H1 H2 H3 H4 H5 H6 H7 H8 H9 H10 H11 H12 H13 H14 H15 H16]. split; try done; simpl.
  - intros q j Hq. destruct (H10 q j Hq) as (A1 & A2 & A3 & A4 & A5 & A6).
    destruct (refs_delete s f fl q Hf) as [-> ->]. unfold bump.
    destruct (decide (q = finode fl)) as [->|].
    + rewrite points_eq, denying_eq, Hd by done. simpl. split_and!; try done; lia.
    + destruct (points_ne fl q) as [-> ->]; [done|]. split_and!; try done; lia.
  - intros q. unfold bump. destruct (decide (q = finode fl)) as [->|]; [|apply H11].
    destruct (H11 (finode fl)). split; [lia|]. intros E. destruct (H15 f fl Hf) as [_ [? Hx]]. congruence.
  - intros g gl [_ Hg]%lookup_delete_Some. by apply H15.
  - destruct H16 as (im & gl & [M1 M2 M3 M4 M5] & Hm). exists im, gl. split; [|done]. split; try done. simpl.
    by rewrite lookup_delete_ne.
Qed.

(** A change of position, or of the denial of writes together with the counter of the
    inode. *)
Lemma fs_ok_update_file s T R X f fl fl' i i' :
  fs_ok s T R X → files s !! f = Some fl → inodes s !! finode fl = Some i → finode fl' = finode fl →
  i' = Node (sector i) (open_cnt i) (removed i)
         (deny_write_cnt i + count (deny_write fl') - count (deny_write fl)) (idata i) →
  (sector i = FREE_MAP_SECTOR → deny_write fl' = deny_write fl) →
  fs_ok (set_inodes (set_files s (<[f := fl']> (files s))) (<[finode fl := i']> (inodes s)) (open_inodes s)) T R X.
Proof.
  intros Hk Hf Hi Ef -> Hmap.
  destruct Hk as [H1 H2 H3 H4 H5 H6 H7 H8 H9 H10 H11 H12 H13 H14 H15 H16]. split; try done; simpl.
  - intros q j [[<- <-]|[Hne Hq]]%lookup_insert_Some.
    + destruct (H10 _ _ Hi) as (A1 & A2 & A3 & A4 & A5 & A6). destruct (refs_update s f fl fl' (finode fl) Hf) as [E1 E2].
      change (refs (set_inodes _ _ _) _) with (refs (set_files s (<[f := fl']> (files s))) (finode fl)).
      change (denies (set_inodes _ _ _) _) with (denies (set_files s (<[f := fl']> (files s))) (finode fl)).
      rewrite E1, E2, !points_eq, !denying_eq by done. simpl. split_and!; try done; lia.
    + destruct (H10 q j Hq) as (A1 & A2 & A3 & A4 & A5 & A6). destruct (refs_update s f fl fl' q Hf) as [E1 E2].
      change (refs (set_inodes _ _ _) _) with (refs (set_files s (<[f := fl']> (files s))) q).
      change (denies (set_inodes _ _ _) _) with (denies (set_files s (<[f := fl']> (files s))) q).
      destruct (points_ne fl q) as [P1 P2]; [done|]. destruct (points_ne fl' q) as [P3 P4]; [congruence|].
      rewrite E1, E2, P1, P2, P3, P4. split_and!; try done; lia.
  - intros q. destruct (H11 q) as [? Hx]. split; [done|]. intros [? _]%lookup_insert_None. auto.
  - intros q Hq. destruct (decide (q = finode fl)) as [->|]; [by rewrite lookup_insert_eq|].
    rewrite lookup_insert_ne by done. auto.
  - intros p q j j' [[<- <-]|[Hn1 Hp]]%lookup_insert_Some [[<- <-]|[Hn2 Hq]]%lookup_insert_Some Es; [done|..].
    + by apply (H14 _ q i j').
    + by apply (H14 p _ j i).
    + by apply (H14 p q j j').
  - assert (Hd : ∀ q, is_Some (inodes s !! q) → is_Some (<[finode fl := Node (sector i) (open_cnt i) (removed i)
      (deny_write_cnt i + count (deny_write fl') - count (deny_write fl)) (idata i)]> (inodes s) !! q)).
    { intros q Hq. destruct (decide (q = finode fl)) as [->|]; [by rewrite lookup_insert_eq|by rewrite lookup_insert_ne]. }
    intros g gl [[<- <-]|[_ Hg]]%lookup_insert_Some.
    + destruct (H15 f fl Hf) as [? ?]. split; [done|]. apply Hd. by rewrite Ef.
    + destruct (H15 g gl Hg) as [? ?]. split; [done|]. by apply Hd.
  - destruct H16 as (im & gl & [M1 M2 M3 M4 M5] & Hs & Hr). destruct (decide (finode gl = finode fl)) as [E|E].
    + rewrite E, Hi in M2. injection M2 as <-. rewrite (Hmap Hs), Z.add_simpl_r.
      exists (Node (sector i) (open_cnt i) (removed i) (deny_write_cnt i) (idata i)), (if decide (f = free_map_file s) then fl' else gl). split; [split|by split].
      * simpl. destruct (decide (f = free_map_file s)) as [<-|]; [by rewrite lookup_insert_eq|by rewrite lookup_insert_ne].
      * simpl. replace (finode (if decide _ then fl' else gl)) with (finode fl) by (case_decide; congruence).
        by rewrite lookup_insert_eq.
      * simpl. lia.
      * done.
      * done.
    + exists im, gl. split; [split|done]; simpl; try done; [|by rewrite lookup_insert_ne].
      rewrite lookup_insert_ne; [done|]. intros ->. congruence.
Qed.

(** ** Operations that do not look at the table of files *)

Definition with_files {A} (F : gmap Z file) (r : res (A * fs)) : res (A * fs) :=
  '(a, s) ← r; Ok (a, set_files s F).

Lemma write_loop_files n F s i bounce sz offset buf written :
  write_loop n (set_files s F) i bounce sz offset buf written
  = with_files F (write_loop n s i bounce sz offset buf written).
Proof.
  revert s bounce sz offset buf written. induction n as [|n IH]; intros s bounce sz offset buf written; [done|].
  simpl. destruct (sz <=? 0); [done|]. destruct (chunk_size i sz offset <=? 0); [done|].
  destruct (_ && _).
  - destruct (block_write _ _ _); simpl; [|done|done]. rewrite <- IH. done.
  - destruct (bounce =? 0).
    + unfold malloc. simpl. destruct (_ =? 0); [done|]. destruct (if (_ : bool) then block_read _ _ else _) as [[old dev]| |];
        simpl; [|done|done]. destruct (block_write _ _ _); simpl; [|done|done]. rewrite <- IH. done.
    + destruct (bounce =? 0); [done|]. destruct (if (_ : bool) then block_read _ _ else _) as [[old dev]| |];
        simpl; [|done|done]. destruct (block_write _ _ _); simpl; [|done|done]. rewrite <- IH. done.
Qed.

Lemma inode_write_at_files F s ip buf sz offset :
  inode_write_at (set_files s F) ip buf sz offset = with_files F (inode_write_at s ip buf sz offset).
Proof.
  unfold inode_write_at. cbn [inodes set_files]. destruct (inodes s !! ip) as [i|]; cbn [from_opt mbind res_bind]; [|done].
  destruct (negb _); [done|]. apply write_loop_files.
Qed.

Lemma free_map_release_files F s sec cnt :
  F !! free_map_file s = files s !! free_map_file s →
  free_map_release (set_files s F) sec cnt = (s ← free_map_release s sec cnt; Ok (set_files s F)).
Proof.
  intros HF. unfold free_map_release. simpl. destruct (bitmap_all _ _ _) as [[]| |]; [|done..].
  destruct (bitmap_set_multiple _ _ _ _) as [b| |]; [|done..]. cbn [mbind res_bind].
  unfold bitmap_write, file_write_at. simpl. rewrite HF. destruct (files s !! free_map_file s) as [fl|]; [|done].
  cbn [from_opt mbind res_bind].
  change (set_free_map (set_files s F) b) with (set_files (set_free_map s b) F).
  rewrite inode_write_at_files. destruct (inode_write_at _ _ _ _ _) as [[n s']| |]; done.
Qed.

Lemma write_loop_frame n s i bounce sz offset buf written m s' :
  write_loop n s i bounce sz offset buf written = Ok (m, s') →
  files s' = files s ∧ free_map_file s' = free_map_file s.
Proof.
  revert s bounce sz offset buf written. induction n as [|n IH]; intros s bounce sz offset buf written; [done|].
  cbn [write_loop]. destruct (sz <=? 0); [intros; by simplify_eq|].
  destruct (chunk_size i sz offset <=? 0); [intros; by simplify_eq|]. destruct (_ && _).
  - destruct (block_write _ _ _); [|done|done]. cbn [mbind res_bind]. intros ?%IH. done.
  - destruct (if bounce =? 0 then malloc s else (bounce, s)) as [b s1] eqn:E.
    assert (files s1 = files s ∧ free_map_file s1 = free_map_file s) as [<- <-].
    { destruct (bounce =? 0); [|by simplify_eq]. unfold malloc in E. by simplify_eq. }
    destruct (b =? 0); [intros; by simplify_eq|].
    destruct (if (_ : bool) then block_read _ _ else _) as [[old dev]| |]; [|done|done]. cbn [mbind res_bind].
    destruct (block_write _ _ _); [|done|done]. cbn [mbind res_bind]. intros ?%IH. done.
Qed.

Lemma free_map_release_frame s sec cnt s' :
  free_map_release s sec cnt = Ok s' → files s' = files s ∧ free_map_file s' = free_map_file s.
Proof.
  unfold free_map_release. destruct (bitmap_all _ _ _) as [[]| |]; [|done..].
  cbn [mbind res_bind]. destruct (bitmap_set_multiple _ _ _ _) as [b| |]; [|done..]. cbn [mbind res_bind].
  unfold bitmap_write, file_write_at. simpl. destruct (files s !! _) as [fl|]; [|done].
  cbn [from_opt mbind res_bind]. unfold inode_write_at. destruct (inodes _ !! _) as [i|]; [|done].
  cbn [from_opt mbind res_bind]. destruct (negb _); [intros [= <-]; done|].
  destruct (write_loop _ _ _ _ _ _ _ _) as [[n s1]| |] eqn:E; [|done..]. cbn [mbind res_bind]. intros [= <-].
  by apply write_loop_frame in E.
Qed.

Lemma inode_close_files F s ip :
  F !! free_map_file s = files s !! free_map_file s →
  inode_close (set_files s F) ip = (s ← inode_close s ip; Ok (set_files s F)).
Proof.
  intros HF. unfold inode_close. destruct (ip =? 0); [done|]. simpl.
  destruct (inodes s !! ip) as [i|]; [|done]. cbn [from_opt mbind res_bind open_cnt removed].
  destruct (_ =? 0); [|done]. destruct (removed i); [|done].
  set (s1 := set_inodes s _ _). change (set_inodes (set_files s F) _ _) with (set_files s1 F).
  rewrite free_map_release_files by done. destruct (free_map_release s1 _ 1) as [s2| |] eqn:E; [|done..].
  cbn [mbind res_bind]. apply free_map_release_frame in E as [E1 E2].
  rewrite free_map_release_files; [done|]. by rewrite E1, E2.
Qed.

(** ** Opening and closing *)

Lemma upd_file_eq s f g fl :
  files s !! f = Some fl → upd_file s f g = set_files s (<[f := g fl]> (files s)).
Proof. intros Hf. unfold upd_file. by rewrite (alter_insert_Some g _ _ fl). Qed.

Lemma malloc_fresh s T R X :
  fs_ok s T R X → (malloc s).1 ≠ 0 →
  addr_ok (malloc s).2 (malloc s).1 ∧ files (malloc s).2 !! (malloc s).1 = None
  ∧ inodes (malloc s).2 !! (malloc s).1 = None.
Proof.
  intros Hk Hne.
  assert (E : (malloc s).1 = 16 * (Z.of_nat (calls s) + 1)).
  { unfold malloc in *. simpl in *. by destruct (supply s (calls s)). }
  assert (Hnew : ∀ a, addr_ok s a → a ≠ (malloc s).1) by (unfold addr_ok; lia).
  split; [unfold addr_ok; simpl in *; lia|]. split.
  - destruct (files s !! (malloc s).1) as [fl|] eqn:Ef; [|done]. exfalso.
    by apply (Hnew (malloc s).1); [apply (k_file _ _ _ _ Hk _ _ Ef)|].
  - destruct (inodes s !! (malloc s).1) as [i|] eqn:Ei; [|done]. exfalso.
    by apply (Hnew (malloc s).1); [apply (k_node _ _ _ _ Hk _ _ Ei)|].
Qed.

Lemma file_open_ok s T R X ip i :
  fs_ok s T R X → inodes s !! ip = Some i → 0 < X ip →
  ∃ f s', file_open s ip = Ok (f, s') ∧ (mem_ok s → f ≠ 0)
    ∧ if decide (f = 0)
      then kept (closed_table T i) s s' ∧ fs_ok s' (closed_table T i) R (bump X ip (-1)) ∧ inodes s' = closed s ip i
      else files s !! f = None ∧ kept T (set_files s (<[f := File ip 0 false]> (files s))) s'
        ∧ fs_ok s' T R (bump X ip (-1)) ∧ inodes s' = inodes s.
Proof.
  intros Hk Hip Hx. unfold file_open.
  destruct (malloc_same s) as (Hms & Hmm & Hmd). pose proof (fs_ok_malloc s T R X Hk) as Hk1.
  pose proof (malloc_fresh s T R X Hk) as Hfr. destruct (malloc s) as [f s1]. simpl in Hms, Hmm, Hmd, Hk1, Hfr.
  assert (K1 : ∀ T', kept T' s s1) by (intros; apply kept_same; congruence). pose proof (sd_inodes _ _ Hms) as E1.
  pose proof (sd_files _ _ Hms) as E2.
  assert (Hip0 : ip ≠ 0). { pose proof (k_node _ _ _ _ Hk ip i Hip) as [Ha _]. unfold addr_ok in Ha. lia. }
  rewrite (proj2 (Z.eqb_neq ip 0)) by done. cbn [negb andb].
  destruct (Z.eqb_spec f 0) as [->|Hf]; cbn [negb].
  - destruct (inode_close_ok s1 T R X ip i) as (s2 & -> & K2 & Hk2 & E3); [done|by rewrite E1|done|].
    cbn [mbind res_bind]. exists 0, s2. split; [done|]. split; [done|]. rewrite decide_True by done.
    split; [by transitivity s1|]. split; [done|]. rewrite E3. unfold closed. by rewrite E1.
  - destruct (Hfr Hf) as (Ha & Hn & _). eexists f, _. split; [done|]. split; [done|]. rewrite decide_False by done.
    split; [congruence|]. split; [|split; [by apply fs_ok_new_file|done]].
    destruct (K1 T). split; try done. simpl. congruence.
Qed.

(** The inode when file [fl] does not deny writes any more. *)
Definition allowed (i : inode) (fl : file) : inode :=
  Node (sector i) (open_cnt i) (removed i) (deny_write_cnt i - count (deny_write fl)) (idata i).

Lemma file_allow_write_ok s T R X f fl i :
  fs_ok s T R X → files s !! f = Some fl → inodes s !! finode fl = Some i → sector i ≠ FREE_MAP_SECTOR →
  ∃ s', file_allow_write s f = Ok s'
    ∧ kept T (set_files s (<[f := File (finode fl) (pos fl) false]> (files s))) s'
    ∧ fs_ok s' T R X ∧ inodes s' = <[finode fl := allowed i fl]> (inodes s).
Proof.
  intros Hk Hf Hi Hsec. unfold file_allow_write. rewrite Hf. cbn [from_opt mbind res_bind].
  destruct (k_node _ _ _ _ Hk _ _ Hi) as (_ & _ & _ & Hc & Hp & Hd). pose proof (denies_le s (finode fl)) as Hle.
  pose proof (fs_ok_update_file s T R X f fl (File (finode fl) (pos fl) false) i (allowed i fl) Hk Hf Hi) as Hk'.
  pose proof (proj1 (k_extra _ _ _ _ Hk (finode fl))).
  destruct (deny_write fl) eqn:Ed.
  - rewrite (upd_file_eq s f _ fl) by done. unfold inode_allow_write. cbn [inodes set_files]. rewrite Hi. cbn [from_opt mbind res_bind].
    assert (Hpos : 0 < denies s (finode fl)).
    { destruct (refs_delete s f fl (finode fl) Hf) as [_ E]. rewrite denying_eq, Ed in E by done. simpl in E.
      pose proof (denies_le (set_files s (delete f (files s))) (finode fl)). lia. }
    rewrite (proj2 (Z.ltb_lt 0 _)), (proj2 (Z.leb_le _ _)) by lia. eexists. split; [done|].
    rewrite (upd_inode_eq _ _ _ i) by done. split; [by split|].
    split; [|simpl; f_equal; unfold allowed; by rewrite Ed].
    replace (Node _ _ _ _ _) with (allowed i fl) by (unfold allowed; by rewrite Ed). apply Hk'; [done| |done].
    unfold allowed. simpl. by rewrite Ed, Z.add_0_r.
  - exists s. split; [done|].
    assert (Efl : File (finode fl) (pos fl) false = fl) by (rewrite <- Ed; by destruct fl).
    assert (Ei : allowed i fl = i) by (unfold allowed; rewrite Ed; simpl; rewrite Z.sub_0_r; by destruct i).
    rewrite Efl, Ei, !insert_id by done. split; [by split|done].
Qed.

Lemma file_close_ok s T R X f fl i :
  fs_ok s T R X → files s !! f = Some fl → inodes s !! finode fl = Some i → sector i ≠ FREE_MAP_SECTOR →
  ∃ s', file_close s f = Ok s'
    ∧ kept (closed_table T i) (set_files s (delete f (files s))) s'
    ∧ fs_ok s' (closed_table T i) R X ∧ inodes s' = closed s (finode fl) (allowed i fl).
Proof.
  intros Hk Hf Hi Hsec. unfold file_close.
  assert (Hf0 : f ≠ 0). { destruct (k_file _ _ _ _ Hk f fl Hf) as [Ha _]. unfold addr_ok in Ha. lia. }
  rewrite (proj2 (Z.eqb_neq f 0)) by done.
  destruct (file_allow_write_ok s T R X f fl i Hk Hf Hi Hsec) as (s1 & -> & K1 & Hk1 & E1). cbn [mbind res_bind].
  set (fl' := File (finode fl) (pos fl) false) in *.
  assert (Hf1 : files s1 !! f = Some fl') by (rewrite (kp_files _ _ _ K1); apply lookup_insert_eq).
  rewrite Hf1. cbn [from_opt mbind res_bind].
  assert (Hne : f ≠ free_map_file s1).
  { rewrite (kp_map_file _ _ _ K1). simpl. intros ->. destruct (k_mapf _ _ _ _ Hk) as (im & gl & [M1 M2 _ _ _] & Hs & _).
    congruence. }
  set (s2 := set_files s1 (delete f (files s1))).
  pose proof (fs_ok_drop_file s1 T R X f fl' Hk1 Hf1 eq_refl Hne) as Hk2. fold s2 in Hk2.
  assert (Hi1 : inodes s2 !! finode fl = Some (allowed i fl)) by (simpl; rewrite E1; apply lookup_insert_eq).
  destruct (inode_close_ok s2 T R _ (finode fl) (allowed i fl) Hk2 Hi1) as (s3 & E3 & K3 & Hk3 & E4).
  { unfold bump. rewrite decide_True by done. pose proof (proj1 (k_extra _ _ _ _ Hk1 (finode fl))). lia. }
  assert (Es : inode_close s1 (finode fl') = inode_close (set_files s2 (files s1)) (finode fl)) by (by destruct s1).
  rewrite Es, inode_close_files by (simpl; by rewrite lookup_delete_ne).
  rewrite E3. cbn [mbind res_bind].
  assert (Ef : delete f (files s1) = delete f (files s)).
  { rewrite (kp_files _ _ _ K1). simpl. apply delete_insert_eq. }
  assert (E5 : files s3 = delete f (files s)) by (rewrite (kp_files _ _ _ K3); done).
  eexists. split; [done|]. cbn [files set_files]. rewrite Ef.
  replace (set_files (set_files s3 (files s1)) (delete f (files s))) with s3 by (rewrite <- E5; by destruct s3).
  assert (Ec : closed_table T (allowed i fl) = closed_table T i) by done. rewrite Ec in *.
  split; [|split].
  - apply (kept_mono _ (closed_table T i)) in K1; [|unfold closed_table; case_decide; [apply delete_subseteq|done]].
    transitivity s2; [|done]. destruct K1. split; simpl in *; try done.
  - apply (fs_ok_extra_ext _ _ _ _ _ Hk3). intros q. unfold bump. simpl. case_decide; lia.
  - rewrite E4. unfold closed. simpl. rewrite E1, delete_insert_eq, insert_insert_eq. done.
Qed.

(** ** Reading, writing, seeking *)

Lemma fs_ok_move s T R X f fl p :
  fs_ok s T R X → files s !! f = Some fl →
  fs_ok (set_files s (<[f := File (finode fl) p (deny_write fl)]> (files s))) T R X.
Proof.
  intros Hk Hf. destruct (k_file _ _ _ _ Hk f fl Hf) as [_ [i Hi]].
  pose proof (fs_ok_update_file s T R X f fl (File (finode fl) p (deny_write fl)) i i Hk Hf Hi) as Hk'.
  rewrite (insert_id (inodes s)) in Hk' by done. apply Hk'; [done| |done]. simpl. rewrite Z.add_simpl_r. by destruct i.
Qed.

Lemma file_read_ok s T R X f fl i sz :
  fs_ok s T R X → files s !! f = Some fl → inodes s !! finode fl = Some i →
  0 ≤ pos fl < 2 ^ 31 → 0 ≤ sz < 2 ^ 31 →
  ∃ m s', file_read s f sz = Ok (slice (pos fl) m (file_data s (idata i)), s')
    ∧ 0 ≤ m ≤ avail i sz (pos fl) ∧ (mem_ok s → m = avail i sz (pos fl))
    ∧ kept T (set_files s (<[f := File (finode fl) (pos fl + m) (deny_write fl)]> (files s))) s'
    ∧ fs_ok s' T R X ∧ inodes s' = inodes s ∧ data (fs_device s') = data (fs_device s)
    ∧ free_map s' = free_map s.
Proof.
  intros Hk Hf Hi Hp Hsz. unfold file_read. rewrite Hf. cbn [from_opt mbind res_bind].
  destruct (k_node _ _ _ _ Hk _ _ Hi) as (_ & _ & HT & _). destruct (k_disk _ _ _ _ Hk _ _ HT) as (_ & _ & Hok).
  destruct (inode_read_at_spec s (finode fl) i sz (pos fl) Hi (k_dev _ _ _ _ Hk) Hok Hsz Hp)
    as (m & s1 & -> & Hm & Hfull & Hs & Hd).
  cbn [mbind res_bind]. change (content (fs_device s) i) with (file_data s (idata i)).
  assert (Hl : Zlength (slice (pos fl) m (file_data s (idata i))) = m).
  { destruct Hok as (O1 & O2 & O3). unfold avail, inode_length in Hm.
    destruct (decide (m = 0)) as [->|]; [done|]. destruct (k_dev _ _ _ _ Hk) as (_ & Hb & _).
    unfold BLOCK_SECTOR_SIZE in Hb. pose proof (sectors_pos (idata i)). fold (sectors (idata i)) in O3.
    apply length_slice; unfold file_data; rewrite ?length_slice; lia. }
  assert (Hpm : pos fl + m < 2 ^ 31).
  { destruct Hok as (_ & O2 & _). unfold avail, inode_length in Hm. lia. }
  exists m. eexists. split; [done|]. split; [done|]. split; [done|].
  assert (Hf1 : files s1 !! f = Some fl) by (by rewrite (sd_files _ _ Hs)).
  rewrite (upd_file_eq s1 f _ fl) by done. rewrite Hl, s32_small by lia.
  assert (Hk1 : fs_ok s1 T R X).
  { apply (fs_ok_data s); [done|done|by rewrite Hd|]. intros. unfold sector_at. by rewrite Hd. }
  split; [|split; [by apply fs_ok_move|destruct Hs; done]].
  pose proof (kept_same T s s1 Hs Hd) as []. split; try done. simpl. by rewrite (sd_files _ _ Hs).
Qed.

(** What [inode_write_at] does to the file system. *)
Lemma inode_write_ok s T R X ip i buf sz off :
  fs_ok s T R X → inodes s !! ip = Some i → 0 ≤ off < 2 ^ 31 → 0 ≤ sz < 2 ^ 31 → sz ≤ Zlength buf →
  ∃ m s', inode_write_at s ip buf sz off = Ok (m, s')
    ∧ 0 ≤ m ≤ avail i sz off
    ∧ (mem_ok s → m = if deny_write_cnt i =? 0 then avail i sz off else 0)
    ∧ (deny_write_cnt i ≠ 0 → m = 0)
    ∧ file_data s' (idata i) = splice off (take (Z.to_nat m) buf) (file_data s (idata i))
    ∧ (∀ sec d, T !! sec = Some d → sec ≠ sector i → file_data s' d = file_data s d)
    ∧ same_but_data s s' ∧ fs_ok s' T R X.
Proof.
  intros Hk Hi Hp Hsz Hbuf.
  destruct (k_node _ _ _ _ Hk _ _ Hi) as (_ & _ & HT & _). destruct (k_disk _ _ _ _ Hk _ _ HT) as (_ & _ & Hok).
  destruct (inode_write_at_spec s ip i buf sz off Hi (k_dev _ _ _ _ Hk) Hok Hsz Hp Hbuf) as [Hden Hall].
  destruct (Z.eqb_spec (deny_write_cnt i) 0) as [Ed|Ed].
  - destruct (Hall Ed) as (m & s1 & -> & Hm & Hfull & Hs & Hd & Hcont). exists m, s1. do 4 (split; [done|]).
    destruct (decide (m = 0)) as [->|Hne].
    + change (take (Z.to_nat 0) buf) with (@nil Z) in *. rewrite splice_nil in *.
      split; [unfold file_data; by rewrite Hd|]. split; [intros; unfold file_data; by rewrite Hd|].
      split; [done|]. apply (fs_ok_data s); [done|done|by rewrite Hd|]. intros. unfold sector_at. by rewrite Hd.
    + destruct (write_keeps s s1 T R X (sector i) (idata i) off (take (Z.to_nat m) buf) Hk HT Hs Hd) as [Hk1 Hkeep];
        [lia|rewrite length_take; unfold avail, inode_length in Hm; lia|].
      split; [apply Hcont; lia|done].
  - rewrite Hden by done. exists 0, s. split; [done|]. split; [unfold avail; lia|]. do 2 (split; [done|]).
    change (take (Z.to_nat 0) buf) with (@nil Z). by rewrite splice_nil.
Qed.

Lemma file_write_ok s T R X f fl i buf sz :
  fs_ok s T R X → files s !! f = Some fl → inodes s !! finode fl = Some i →
  0 ≤ pos fl < 2 ^ 31 → 0 ≤ sz < 2 ^ 31 → sz ≤ Zlength buf →
  ∃ m s', file_write s f buf sz = Ok (m, s')
    ∧ 0 ≤ m ≤ avail i sz (pos fl)
    ∧ (mem_ok s → m = if deny_write_cnt i =? 0 then avail i sz (pos fl) else 0)
    ∧ (deny_write_cnt i ≠ 0 → m = 0)
    ∧ file_data s' (idata i) = splice (pos fl) (take (Z.to_nat m) buf) (file_data s (idata i))
    ∧ (∀ sec d, T !! sec = Some d → sec ≠ sector i → file_data s' d = file_data s d)
    ∧ same_but_data (set_files s (<[f := File (finode fl) (pos fl + m) (deny_write fl)]> (files s))) s'
    ∧ fs_ok s' T R X.
Proof.
  intros Hk Hf Hi Hp Hsz Hbuf. unfold file_write. rewrite Hf. cbn [from_opt mbind res_bind].
  destruct (inode_write_ok s T R X (finode fl) i buf sz (pos fl) Hk Hi Hp Hsz Hbuf)
    as (m & s1 & -> & Hm & Hfull & Hden & Hdat & Hoth & Hs & Hk1). cbn [mbind res_bind].
  assert (Hav : 0 ≤ pos fl + m < 2 ^ 31).
  { destruct (k_node _ _ _ _ Hk _ _ Hi) as (_ & _ & HT & _). destruct (k_disk _ _ _ _ Hk _ _ HT) as (_ & _ & (_ & O2 & _)).
    unfold avail, inode_length in Hm. lia. }
  assert (Hf1 : files s1 !! f = Some fl) by (by rewrite (sd_files _ _ Hs)).
  exists m. eexists. split; [done|]. do 3 (split; [done|]).
  rewrite (upd_file_eq s1 f _ fl), s32_small by (done || lia).
  do 2 (split; [done|]). split; [|by apply fs_ok_move]. destruct Hs. split; try done. simpl. congruence.
Qed.

Definition denied (i : inode) (fl : file) : inode :=
  Node (sector i) (open_cnt i) (removed i) (deny_write_cnt i + 1 - count (deny_write fl)) (idata i).

Lemma file_deny_write_ok s T R X f fl i :
  fs_ok s T R X → files s !! f = Some fl → inodes s !! finode fl = Some i → sector i ≠ FREE_MAP_SECTOR →
  ∃ s', file_deny_write s f = Ok s'
    ∧ kept T (set_files s (<[f := File (finode fl) (pos fl) true]> (files s))) s'
    ∧ fs_ok s' T R X ∧ inodes s' = <[finode fl := denied i fl]> (inodes s).
Proof.
  intros Hk Hf Hi Hsec. unfold file_deny_write. rewrite Hf. cbn [from_opt mbind res_bind].
  destruct (k_node _ _ _ _ Hk _ _ Hi) as (_ & _ & _ & Hc & Hp & Hd).
  pose proof (fs_ok_update_file s T R X f fl (File (finode fl) (pos fl) true) i (denied i fl) Hk Hf Hi) as Hk'.
  pose proof (proj1 (k_extra _ _ _ _ Hk (finode fl))).
  destruct (deny_write fl) eqn:Ed.
  - exists s. split; [done|].
    assert (Efl : File (finode fl) (pos fl) true = fl) by (rewrite <- Ed; by destruct fl).
    assert (Ei : denied i fl = i) by (unfold denied; rewrite Ed; simpl; rewrite Z.add_simpl_r; by destruct i).
    rewrite Efl, Ei, !insert_id by done. split; [by split|done].
  - rewrite (upd_file_eq s f _ fl) by done. unfold inode_deny_write. cbn [inodes set_files]. rewrite Hi.
    cbn [from_opt mbind res_bind].
    assert (Hle : denies s (finode fl) + 1 ≤ refs s (finode fl)).
    { destruct (refs_update s f fl (File (finode fl) (pos fl) true) (finode fl) Hf) as [E1 E2].
      rewrite !denying_eq, Ed in E2 by done. rewrite !points_eq in E1 by done. simpl in E2.
      pose proof (denies_le (set_files s (<[f := File (finode fl) (pos fl) true]> (files s))) (finode fl)). lia. }
    rewrite (proj2 (Z.leb_le _ _)) by lia. eexists. split; [done|].
    rewrite (upd_inode_eq _ _ _ i) by done. split; [by split|].
    assert (Ei : Node (sector i) (open_cnt i) (removed i) (deny_write_cnt i + 1) (idata i) = denied i fl).
    { unfold denied. rewrite Ed. simpl. by rewrite Z.sub_0_r. }
    rewrite Ei. split; [|done]. apply Hk'; [done| |done]. unfold denied. by rewrite Ed.
Qed.

End FileInv.
