(* ===== verification/DirInv.v ===== *)
(** * Directories as maps from names to sectors

    The bytes of a directory file represent a finite map; [lookup], [dir_add] and
    [dir_remove] are lookup, insertion and deletion. *)

From S2P Require Import Prelude Bitmap Disk Inode Directory FsInv FileInv.

Module DirInv.
Import Bitmap Disk Inode Directory FsInv FileInv.

(** ** Entries *)

Definition slots (D : list Z) : Z := Zlength D / 20.
Definition slot (D : list Z) (k : Z) : dir_entry := entry_of (slice (20 * k) 20 D).

(** Slot [k] gives [name] to sector [sec]. *)
Definition gives (D : list Z) (k : Z) (name : list Z) (sec : Z) : Prop :=
  0 ≤ k < slots D ∧ in_use (slot D k) = true ∧ cstring (ename (slot D k)) = Some name
  ∧ inode_sector (slot D k) = sec.

Record dir_ok (D : list Z) (N : gmap (list Z) Z) : Prop := {
  dk_entry k : 0 ≤ k < slots D → in_use (slot D k) = true → ∃ name sec, gives D k name sec;
  dk_name name sec : N !! name = Some sec ↔ ∃ k, gives D k name sec;
  dk_uniq k k' name sec sec' : gives D k name sec → gives D k' name sec' → k = k'
}.

Lemma cstring_app name l : Forall (λ c, c ≠ 0) name → cstring (name ++ 0 :: l) = Some name.
Proof.
  induction 1 as [|c name Hc _ IH]; [done|]. simpl. rewrite (proj2 (Z.eqb_neq c 0)) by done. by rewrite IH.
Qed.

Lemma set_name_spec old name :
  Zlength old = 15 → Zlength name ≤ NAME_MAX → Forall (λ c, c ≠ 0) name →
  Zlength (set_name old name) = 15 ∧ cstring (set_name old name) = Some name.
Proof.
  intros Ho Hn Hz. unfold set_name, NAME_MAX in *. split.
  - rewrite length_splice; [done|lia|]. rewrite length_app. simpl. lia.
  - unfold splice. simpl. rewrite <- app_assoc. by apply cstring_app.
Qed.

Lemma length_bytes_of e : Zlength (ename e) = 15 → Zlength (bytes_of e) = 20.
Proof. intros He. unfold bytes_of. rewrite !length_app, length_le_bytes. simpl. lia. Qed.

Lemma entry_of_bytes e :
  0 ≤ inode_sector e < 2 ^ 32 → Zlength (ename e) = 15 → entry_of (bytes_of e) = e.
Proof.
  intros Hs Hn. destruct e as [sec nm u]. unfold entry_of, bytes_of, slice. cbn [inode_sector ename in_use] in *.
  change (Z.to_nat 0) with 0%nat. change (Z.to_nat 4) with 4%nat. rewrite drop_0. f_equal.
  - rewrite take_app_length' by (by rewrite length_le_bytes). by apply le_value_bytes.
  - rewrite drop_app_length' by (by rewrite length_le_bytes).
    apply take_app_length'. lia.
  - rewrite lookup_app_r by (rewrite length_le_bytes; lia). rewrite length_le_bytes.
    rewrite lookup_app_r by lia. replace (19 - 4 - length nm)%nat with 0%nat by lia. by destruct u.
Qed.

(** Storing an entry changes that slot only. *)
Lemma slot_store D k e :
  0 ≤ k < slots D → 0 ≤ inode_sector e < 2 ^ 32 → Zlength (ename e) = 15 →
  let D' := splice (20 * k) (bytes_of e) D in
  slots D' = slots D ∧ slot D' k = e ∧ ∀ k', 0 ≤ k' < slots D → k' ≠ k → slot D' k' = slot D k'.
Proof.
  intros Hk Hs Hn D'. pose proof (length_bytes_of e Hn) as Hl. unfold slots in *.
  assert (Hb : ∀ j, j < Zlength D / 20 → 20 * j + 20 ≤ Zlength D).
  { intros j Hj. pose proof (Z.mul_div_le (Zlength D) 20). lia. }
  assert (HD : Zlength D' = Zlength D) by (unfold D'; rewrite length_splice; specialize (Hb k); lia).
  split; [by rewrite HD|]. split.
  - unfold slot, D'. rewrite slice_splice_eq by (specialize (Hb k); lia). by apply entry_of_bytes.
  - intros k' Hk' Hne. unfold slot, D'. f_equal.
    pose proof (Hb k). pose proof (Hb k'). apply slice_splice_other; lia.
Qed.

Lemma gives_store D k e k' name sec :
  0 ≤ k < slots D → 0 ≤ inode_sector e < 2 ^ 32 → Zlength (ename e) = 15 →
  gives (splice (20 * k) (bytes_of e) D) k' name sec ↔
  if decide (k' = k) then in_use e = true ∧ cstring (ename e) = Some name ∧ inode_sector e = sec
  else gives D k' name sec.
Proof.
  intros Hk Hs Hn. destruct (slot_store D k e Hk Hs Hn) as (E1 & E2 & E3). unfold gives. rewrite E1.
  case_decide as Hkk; [subst; rewrite E2; tauto|].
  split; intros (Hr & ?); rewrite E3 in * by done; done.
Qed.

Lemma dir_ok_add D N k name sec old :
  dir_ok D N → 0 ≤ k < slots D → in_use (slot D k) = false → N !! name = None →
  0 ≤ sec < 2 ^ 32 → Zlength old = 15 → Zlength name ≤ NAME_MAX → Forall (λ c, c ≠ 0) name →
  dir_ok (splice (20 * k) (bytes_of (Entry sec (set_name old name) true)) D) (<[name := sec]> N).
Proof.
  intros [D1 D2 D3] Hk Hfree Hnew Hsec Hold Hlen Hz. destruct (set_name_spec old name Hold Hlen Hz) as [Hl Hc].
  set (e := Entry sec (set_name old name) true).
  assert (Hg : ∀ k' nm sc, gives (splice (20 * k) (bytes_of e) D) k' nm sc ↔
    if decide (k' = k) then nm = name ∧ sc = sec else gives D k' nm sc).
  { intros k' nm sc. rewrite gives_store by done. case_decide; [|done]. simpl. rewrite Hc. naive_solver. }
  destruct (slot_store D k e Hk Hsec Hl) as (E1 & E2 & E3). split.
  - rewrite E1. intros k' Hk' Hu. destruct (decide (k' = k)) as [->|Hne].
    + exists name, sec. apply Hg. by rewrite decide_True.
    + rewrite E3 in Hu by done. destruct (D1 k' Hk' Hu) as (nm & sc & H). exists nm, sc. apply Hg.
      by rewrite decide_False.
  - intros nm sc. rewrite lookup_insert_Some. setoid_rewrite Hg. split.
    + intros [[<- <-]|[Hne HN]]; [exists k; by rewrite decide_True|]. apply D2 in HN as [k' Hg'].
      exists k'. rewrite decide_False; [done|]. intros ->. destruct Hg' as (_ & Hu & _). congruence.
    + intros [k' Hg']. case_decide; [left; naive_solver|]. right.
      assert (HN : N !! nm = Some sc) by (apply D2; by exists k'). split; [congruence|done].
  - intros k1 k2 nm s1 s2. rewrite !Hg. repeat case_decide; subst; try done.
    + intros [-> ->] Hg2. assert (N !! name = Some s2) by (apply D2; by exists k2). congruence.
    + intros Hg1 [-> ->]. assert (N !! name = Some s1) by (apply D2; by exists k1). congruence.
    + apply D3.
Qed.

Lemma dir_ok_remove D N k name sec :
  dir_ok D N → gives D k name sec → 0 ≤ sec < 2 ^ 32 → Zlength D < 2 ^ 31 →
  dir_ok (splice (20 * k) (bytes_of (Entry sec (ename (slot D k)) false)) D) (delete name N).
Proof.
  intros [D1 D2 D3] Hk Hsec HD. pose proof Hk as (Hr & Hu & Hc & Hs).
  set (e := Entry sec (ename (slot D k)) false).
  assert (Hl : Zlength (ename e) = 15).
  { simpl. unfold slot, entry_of. simpl. unfold slots in Hr. pose proof (Z.mul_div_le (Zlength D) 20).
    apply length_slice; rewrite ?length_slice; lia. }
  assert (Hg : ∀ k' nm sc, gives (splice (20 * k) (bytes_of e) D) k' nm sc ↔ k' ≠ k ∧ gives D k' nm sc).
  { intros k' nm sc. rewrite gives_store by done. case_decide; [|naive_solver]. simpl. naive_solver. }
  destruct (slot_store D k e Hr Hsec Hl) as (E1 & E2 & E3). split.
  - rewrite E1. intros k' Hk' Hu'. destruct (decide (k' = k)) as [->|Hne]; [by rewrite E2 in Hu'|].
    rewrite E3 in Hu' by done. destruct (D1 k' Hk' Hu') as (nm & sc & H). exists nm, sc. by apply Hg.
  - intros nm sc. rewrite lookup_delete_Some. setoid_rewrite Hg. rewrite D2. split.
    + intros [Hne [k' Hg']]. exists k'. split; [|done]. intros ->. destruct Hg' as (_ & _ & Hc' & _). congruence.
    + intros (k' & Hne & Hg'). split; [|by exists k']. intros ->. by apply Hne, (D3 k' k nm sc sec).
  - intros k1 k2 nm s1 s2 [_ G1]%Hg [_ G2]%Hg. by apply (D3 k1 k2 nm s1 s2).
Qed.

(** ** Reading entries *)

Definition same_data (s s' : fs) : Prop := same_but_data s s' ∧ data (fs_device s') = data (fs_device s).
#[export] Instance same_data_refl : Reflexive same_data.
Proof. by split. Qed.
#[export] Instance same_data_trans : Transitive same_data.
Proof. intros s1 s2 s3 [A1 A2] [B1 B2]. split; [by transitivity s2|congruence]. Qed.

Lemma same_data_fs_ok s s' T R X : same_data s s' → fs_ok s T R X → fs_ok s' T R X.
Proof.
  intros [Hs Hd] Hk. apply (fs_ok_data s); [done|done|by rewrite Hd|]. intros. unfold sector_at. by rewrite Hd.
Qed.
Lemma same_data_file s s' d : same_data s s' → file_data s' d = file_data s d.
Proof. intros [_ Hd]. unfold file_data. by rewrite Hd. Qed.
Lemma same_data_kept s s' T : same_data s s' → kept T s s'.
Proof. intros [Hs Hd]. by apply kept_same. Qed.
Lemma same_data_mem s s' : same_data s s' → mem_ok s → mem_ok s'.
Proof. intros [Hs _]. by apply mem_ok_same. Qed.

Lemma length_file_data s T R X sec d :
  fs_ok s T R X → T !! sec = Some d → Zlength (file_data s d) = ilength d ∧ 0 ≤ ilength d < 2 ^ 31.
Proof.
  intros Hk HT. destruct (k_disk _ _ _ _ Hk _ _ HT) as (_ & _ & (O1 & O2 & O3)).
  destruct (k_dev _ _ _ _ Hk) as (_ & Hb & _). unfold BLOCK_SECTOR_SIZE in Hb.
  pose proof (sectors_pos d). split; [|lia]. apply length_slice; lia.
Qed.

Section reading.
Context (T : gmap Z inode_disk) (R : Z → Prop) (X : Z → Z) (ip : Z) (i : inode) (D : list Z).

(** The directory file is open and has contents [D]. *)
Definition dir_open_at (s : fs) : Prop :=
  fs_ok s T R X ∧ mem_ok s ∧ inodes s !! ip = Some i ∧ file_data s (idata i) = D.

Lemma dir_open_at_same s s' : same_data s s' → dir_open_at s → dir_open_at s'.
Proof.
  intros Hs (Hk & Hm & Hi & HD). split; [by apply (same_data_fs_ok s)|]. split; [by apply (same_data_mem s)|].
  split; [by rewrite (sd_inodes _ _ (proj1 Hs))|]. by rewrite (same_data_file s).
Qed.

Lemma dir_open_at_length s : dir_open_at s → Zlength D = ilength (idata i) ∧ Zlength D < 2 ^ 31.
Proof.
  intros (Hk & _ & Hi & <-). destruct (k_node _ _ _ _ Hk _ _ Hi) as (_ & _ & HT & _).
  pose proof (length_file_data s T R X _ _ Hk HT). lia.
Qed.

Lemma read_entry s k :
  dir_open_at s → 0 ≤ k ≤ slots D →
  ∃ e s', inode_read_at s ip ENTRY_SIZE (20 * k) = Ok (e, s') ∧ same_data s s'
    ∧ if decide (k < slots D) then e = slice (20 * k) 20 D ∧ Zlength e = 20 else Zlength e < 20.
Proof.
  intros Ho Hk. pose proof Ho as (Hok & Hm & Hi & HD). destruct (dir_open_at_length s Ho) as [HL HL2].
  destruct (k_node _ _ _ _ Hok _ _ Hi) as (_ & _ & HT & _). destruct (k_disk _ _ _ _ Hok _ _ HT) as (_ & _ & Hdk).
  pose proof (Z.mul_div_le (Zlength D) 20). pose proof (Z.mul_succ_div_gt (Zlength D) 20). unfold slots in *.
  destruct (inode_read_at_spec s ip i ENTRY_SIZE (20 * k) Hi (k_dev _ _ _ _ Hok) Hdk) as
    (m & s' & E & Hm1 & Hm2 & Hs & Hd); [unfold ENTRY_SIZE; lia|lia|].
  specialize (Hm2 Hm). unfold avail, inode_length, ENTRY_SIZE in *.
  change (content (fs_device s) i) with (file_data s (idata i)) in E. rewrite HD in E.
  eexists _, s'. split; [exact E|]. split; [done|]. case_decide.
  - assert (m = 20) as -> by lia. split; [done|]. apply length_slice; lia.
  - destruct (decide (m = 0)) as [->|]; [done|]. rewrite length_slice; lia.
Qed.

Lemma lookup_loop_ok N name n s k :
  dir_ok D N → dir_open_at s → 0 ≤ k ≤ slots D → (Z.to_nat (slots D - k) < n)%nat →
  ∃ r s', lookup_loop n s ip name (20 * k) = Ok (r, s') ∧ same_data s s'
    ∧ match r with
      | Some (e, ofs) => ∃ k', ofs = 20 * k' ∧ e = slot D k' ∧ gives D k' name (inode_sector e)
      | None => ∀ k' sec, k ≤ k' → ¬ gives D k' name sec
      end.
Proof.
  intros HN. revert s k. induction n as [|n IH]; intros s k Ho Hk Hn; [lia|]. cbn [lookup_loop].
  destruct (read_entry s k Ho Hk) as (e & s1 & -> & Hs1 & He). cbn [mbind res_bind]. unfold ENTRY_SIZE.
  assert (Hend : k = slots D → ∀ k' sec, k ≤ k' → ¬ gives D k' name sec).
  { intros Hks k' sec Hkk (? & _). lia. }
  case_decide as Hlt.
  2:{ rewrite (proj2 (Z.eqb_neq _ _)) by lia. exists None, s1. split; [done|]. split; [done|]. apply Hend. lia. }
  destruct He as [-> Hl]. rewrite (proj2 (Z.eqb_eq _ _)) by done. change (entry_of (slice (20 * k) 20 D)) with (slot D k).
  pose proof (dir_open_at_same s s1 Hs1 Ho) as Ho1. replace (20 * k + 20) with (20 * (k + 1)) by lia.
  destruct (IH s1 (k + 1) Ho1) as (r & s2 & E2 & Hs2 & Hr); [lia..|].
  assert (Hskip : (∀ sec, ¬ gives D k name sec) →
    match r with
    | Some (e, ofs) => ∃ k', ofs = 20 * k' ∧ e = slot D k' ∧ gives D k' name (inode_sector e)
    | None => ∀ k' sec, k ≤ k' → ¬ gives D k' name sec
    end).
  { intros Hno. destruct r as [[e ofs]|]; [done|]. intros k' sec Hkk. destruct (decide (k' = k)) as [->|]; [done|].
    apply Hr. lia. }
  destruct (in_use (slot D k)) eqn:Hu.
  - destruct (dk_entry _ _ HN k ltac:(lia) Hu) as (nm & sec & Hg). pose proof Hg as (_ & _ & Hc & Hsc). rewrite Hc.
    cbn [from_opt mbind res_bind]. case_bool_decide as Hnm.
    + subst nm. eexists _, s1. split; [done|]. split; [done|]. exists k. split; [done|]. split; [done|]. by rewrite Hsc.
    + exists r, s2. split; [done|]. split; [by transitivity s1|]. apply Hskip.
      intros sec' (_ & _ & Hc' & _). congruence.
  - exists r, s2. split; [done|]. split; [by transitivity s1|]. apply Hskip. intros sec' (_ & Hu' & _). congruence.
Qed.

Lemma lookup_ok N name p s :
  dir_ok D N → dir_open_at s →
  ∃ r s', lookup s (Dir ip p) name = Ok (r, s') ∧ same_data s s'
    ∧ match r with
      | Some (e, ofs) => ∃ k, ofs = 20 * k ∧ e = slot D k ∧ gives D k name (inode_sector e)
                           ∧ N !! name = Some (inode_sector e)
      | None => N !! name = None
      end.
Proof.
  intros HN Ho. pose proof Ho as (Hok & Hm & Hi & HD). destruct (dir_open_at_length s Ho) as [HL _].
  unfold lookup, entries. cbn [dinode]. rewrite Hi. unfold inode_length, ENTRY_SIZE. rewrite <- HL.
  destruct (lookup_loop_ok N name (S (Z.to_nat (slots D))) s 0 HN Ho) as (r & s' & E & Hs & Hr).
  { unfold slots. split; [lia|]. apply Z.div_pos; lia. } { lia. }
  exists r, s'. split; [done|]. split; [done|]. destruct r as [[e ofs]|].
  - destruct Hr as (k & -> & -> & Hg). exists k. do 3 (split; [done|]). apply (dk_name _ _ HN). by exists k.
  - destruct (N !! name) as [sec|] eqn:E1; [|done]. apply (dk_name _ _ HN) in E1 as [k Hg].
    exfalso. apply (Hr k sec); [|done]. destruct Hg. lia.
Qed.

(** The slot that [dir_add] chooses. *)
Lemma slot_loop_ok n s e k :
  dir_open_at s → 0 ≤ k ≤ slots D → (Z.to_nat (slots D - k) < n)%nat → Zlength e = 20 →
  ∃ e' k' s', slot_loop n s ip e (20 * k) = Ok (e', 20 * k', s') ∧ same_data s s' ∧ Zlength e' = 20
    ∧ k ≤ k' ≤ slots D ∧ (k' < slots D → in_use (slot D k') = false)
    ∧ ∀ j, k ≤ j < k' → in_use (slot D j) = true.
Proof.
  revert s e k. induction n as [|n IH]; intros s e k Ho Hk Hn He; [lia|]. cbn [slot_loop].
  destruct (read_entry s k Ho Hk) as (got & s1 & -> & Hs1 & Hg). cbn [mbind res_bind]. unfold ENTRY_SIZE.
  assert (Hle : Zlength (splice 0 got e) = 20) by (rewrite length_splice; [done|lia|case_decide; lia]).
  case_decide as Hlt.
  2:{ rewrite (proj2 (Z.eqb_neq _ _)) by lia. eexists _, k, s1. do 3 (split; [done|]). split; [lia|].
      split; [lia|]. intros; lia. }
  destruct Hg as [-> Hl]. rewrite (proj2 (Z.eqb_eq _ _)) by done.
  assert (Esp : splice 0 (slice (20 * k) 20 D) e = slice (20 * k) 20 D).
  { unfold splice. simpl. rewrite drop_ge, app_nil_r by lia. done. }
  rewrite Esp in *. change (entry_of (slice (20 * k) 20 D)) with (slot D k).
  destruct (in_use (slot D k)) eqn:Hu.
  - replace (20 * k + 20) with (20 * (k + 1)) by lia. pose proof (dir_open_at_same s s1 Hs1 Ho) as Ho1.
    destruct (IH s1 (slice (20 * k) 20 D) (k + 1) Ho1) as (e' & k' & s2 & E & Hs2 & H1 & H2 & H3 & H4); [lia..|].
    exists e', k', s2. split; [done|]. split; [by transitivity s1|]. split; [done|]. split; [lia|]. split; [done|].
    intros j Hj. destruct (decide (j = k)) as [->|]; [done|]. apply H4. lia.
  - eexists _, k, s1. do 3 (split; [done|]). split; [lia|]. split; [done|]. intros; lia.
Qed.

End reading.

(** ** Adding and removing names *)

Lemma dir_ok_tail D N xs :
  dir_ok D N → 20 * slots D + Zlength xs ≤ Zlength D → dir_ok (splice (20 * slots D) xs D) N.
Proof.
  intros HN Hx. assert (H0 : 0 ≤ slots D) by (apply Z.div_pos; lia).
  assert (E1 : slots (splice (20 * slots D) xs D) = slots D) by (unfold slots at 1; rewrite length_splice by lia; done).
  assert (E2 : ∀ k, 0 ≤ k < slots D → slot (splice (20 * slots D) xs D) k = slot D k).
  { intros k Hk. unfold slot. f_equal. apply slice_splice_other; lia. }
  assert (Hg : ∀ k nm sc, gives (splice (20 * slots D) xs D) k nm sc ↔ gives D k nm sc).
  { intros k nm sc. unfold gives. rewrite E1. split; intros (Hr & ?); rewrite E2 in * by done; done. }
  destruct HN as [D1 D2 D3]. split.
  - rewrite E1. intros k Hk Hu. rewrite E2 in Hu by done. setoid_rewrite Hg. auto.
  - intros nm sc. setoid_rewrite Hg. apply D2.
  - intros k k' nm sc sc'. rewrite !Hg. apply D3.
Qed.

(** Every slot is in use. *)
Definition dir_full (D : list Z) : Prop := ∀ k, 0 ≤ k < slots D → in_use (slot D k) = true.

Lemma slot_name_length e : Zlength e = 20 → Zlength (ename (entry_of e)) = 15.
Proof. intros He. unfold entry_of. simpl. apply length_slice; lia. Qed.

Lemma dir_add_ok T R X ip i D N s p name sec junk :
  dir_ok D N → dir_open_at T R X ip i D s → deny_write_cnt i = 0 → 0 ≤ sec < 2 ^ 32 →
  Forall (λ c, c ≠ 0) name → Zlength junk = 20 →
  ∃ ok s', dir_add s (Dir ip p) name sec junk = Ok (ok, s') ∧ same_but_data s s' ∧ fs_ok s' T R X
    ∧ (∀ sec d, T !! sec = Some d → sec ≠ sector i → file_data s' d = file_data s d)
    ∧ if (ok : bool)
      then name ≠ [] ∧ Zlength name ≤ NAME_MAX ∧ N !! name = None
        ∧ dir_ok (file_data s' (idata i)) (<[name := sec]> N)
      else dir_ok (file_data s' (idata i)) N
        ∧ (name = [] ∨ NAME_MAX < Zlength name ∨ is_Some (N !! name) ∨ dir_full D).
Proof.
  intros HN Ho Hdeny Hsec Hz Hjunk. pose proof Ho as (Hok & Hm & Hi & HD). unfold dir_add.
  case_bool_decide as Hnil; cbn [orb].
  { exists false, s. rewrite HD. do 4 (split; [done|]). split; [done|by left]. }
  destruct (Z.ltb_spec NAME_MAX (Zlength name)) as [Hlong|Hlen].
  { exists false, s. rewrite HD. do 4 (split; [done|]). split; [done|by right; left]. }
  destruct (lookup_ok T R X ip i D N name p s HN Ho) as (r & s1 & -> & Hs1 & Hr). cbn [mbind res_bind].
  destruct r as [[e ofs]|].
  { destruct Hr as (k & _ & _ & _ & HNk). exists false, s1. split; [done|]. split; [apply Hs1|].
    split; [by apply (same_data_fs_ok s)|]. split; [intros; by apply same_data_file|].
    rewrite (same_data_file s s1), HD by done. split; [done|]. do 2 right. by left. }
  pose proof (dir_open_at_same _ _ _ _ _ _ s s1 Hs1 Ho) as Ho1. pose proof (dir_open_at_length _ _ _ _ _ _ s1 Ho1) as [HL HL2].
  assert (Hsl : 0 ≤ slots D) by (apply Z.div_pos; lia). pose proof (Z.mul_div_le (Zlength D) 20) as Hmul.
  pose proof (Z.mul_succ_div_gt (Zlength D) 20) as Hmul2. fold (slots D) in Hmul, Hmul2.
  unfold entries. cbn [dinode]. rewrite (proj1 (proj2 (proj2 Ho1))).
  replace (inode_length i / ENTRY_SIZE) with (slots D) by (unfold slots; by rewrite HL).
  destruct (slot_loop_ok T R X ip i D (S (Z.to_nat (slots D))) s1 junk 0 Ho1) as
    (e & k & s2 & E2 & Hs2 & He & Hk & Hfree & Hused); [lia..|done|].
  change (20 * 0) with 0 in E2. rewrite E2. cbn [mbind res_bind].
  pose proof (dir_open_at_same _ _ _ _ _ _ s1 s2 Hs2 Ho1) as Ho2. pose proof Ho2 as (Hok2 & Hm2 & Hi2 & HD2).
  set (e' := Entry sec (set_name (ename (entry_of e)) name) true).
  assert (Hle : Zlength (bytes_of e') = 20).
  { apply length_bytes_of. simpl. by apply set_name_spec; [apply slot_name_length| |]. }
  destruct (inode_write_ok s2 T R X ip i (bytes_of e') ENTRY_SIZE (20 * k) Hok2 Hi2) as
    (m & s3 & -> & Hm3 & Hfull & _ & Hdat & Hoth & Hs3 & Hok3); [lia|done|by rewrite Hle|].
  cbn [mbind res_bind]. specialize (Hfull Hm2). rewrite Hdeny in Hfull. cbn [Z.eqb] in Hfull.
  rewrite HD2 in Hdat. unfold avail, inode_length, ENTRY_SIZE in *.
  assert (Hss : same_data s s2) by (by transitivity s1).
  assert (Hframe : same_but_data s s3 ∧ (∀ sec d, T !! sec = Some d → sec ≠ sector i → file_data s3 d = file_data s d)).
  { split; [transitivity s2; [apply Hss|done]|]. intros sec' d Hd Hne. rewrite (Hoth sec' d Hd Hne).
    by apply same_data_file. }
  destruct Hframe as [F1 F2]. exists (m =? 20), s3. do 4 (split; [done|]).
  destruct (decide (k < slots D)) as [Hlt|Hend].
  - assert (m = 20) as -> by lia. cbn [Z.eqb Pos.eqb]. do 3 (split; [done|]). rewrite Hdat.
    rewrite take_ge by lia. apply dir_ok_add; try done; [lia|auto|by apply slot_name_length].
  - assert (k = slots D) as -> by lia. rewrite (proj2 (Z.eqb_neq m 20)) by lia. split.
    + rewrite Hdat. apply dir_ok_tail; [done|]. rewrite length_take. lia.
    + do 3 right. intros j Hj. by apply Hused.
Qed.

Definition set_removed (i : inode) : inode := Node (sector i) (open_cnt i) true (deny_write_cnt i) (idata i).

Lemma remove_close_ok s T R X ip i :
  fs_ok s T R X → inodes s !! ip = Some i → 0 < X ip → sector i ≠ FREE_MAP_SECTOR →
  ∃ s1 s', inode_remove s ip = Ok s1 ∧ inode_close s1 ip = Ok s'
    ∧ kept (closed_table T (set_removed i)) s s' ∧ fs_ok s' (closed_table T (set_removed i)) R (bump X ip (-1))
    ∧ inodes s' = closed s ip (set_removed i).
Proof.
  intros Hk Hi Hx Hsec. unfold inode_remove. rewrite Hi. cbn [from_opt mbind res_bind].
  rewrite (upd_inode_eq s ip _ i) by done. change (Node _ _ true _ _) with (set_removed i).
  set (s1 := set_inodes s _ _). destruct (k_node _ _ _ _ Hk ip i Hi) as (_ & _ & _ & _ & Hp & _).
  assert (Hk1 : fs_ok s1 T R X).
  { apply (fs_ok_extra_ext _ _ _ (bump X ip 0)); [|intros q; unfold bump; case_decide; lia].
    apply (fs_ok_inode s T R X ip i); simpl; try done; lia. }
  destruct (inode_close_ok s1 T R X ip (set_removed i) Hk1) as (s2 & E2 & K2 & Hk2 & E3); [apply lookup_insert_eq|done|].
  exists s1, s2. do 2 (split; [done|]). split; [transitivity s1; [by split|done]|]. split; [done|].
  rewrite E3. unfold closed. simpl. by rewrite delete_insert_eq, insert_insert_eq.
Qed.

(** What becomes of the file in sector [sec] when it loses its name: it is deleted, or
    marked for deletion if it is open. *)
Definition unlinked (s s' : fs) (T T' : gmap Z inode_disk) (sec : Z) : Prop :=
  ((∀ q j, inodes s !! q = Some j → sector j ≠ sec) ∧ T' = delete sec T ∧ inodes s' = inodes s)
  ∨ ∃ q j, inodes s !! q = Some j ∧ sector j = sec ∧ T' = T ∧ inodes s' = <[q := set_removed j]> (inodes s).

Lemma opened_closed s s1 T R X ip sec d :
  fs_ok s T R X → opened s s1 ip sec d →
  ∃ i, inodes s1 !! ip = Some i ∧ sector i = sec ∧ idata i = d
    ∧ ∀ s2 s', inodes s2 = inodes s1 → inodes s' = closed s2 ip (set_removed i) →
        unlinked s s' T (closed_table T (set_removed i)) sec.
Proof.
  intros Hk (i & E1 & Hsec & Hd & Hcase). exists i. split; [rewrite E1; apply lookup_insert_eq|]. do 2 (split; [done|]).
  intros s2 s' E2 E3. unfold unlinked. rewrite E3. unfold closed, closed_table. rewrite E2, E1.
  destruct (inodes s !! ip) as [j|] eqn:Ej.
  - right. exists ip, j. destruct (k_node _ _ _ _ Hk ip j Ej) as (_ & _ & _ & _ & Hp & _).
    subst i. simpl in *. rewrite !decide_False by lia. do 3 (split; [done|]).
    rewrite insert_insert_eq. unfold set_removed. by rewrite Z.add_simpl_r.
  - left. destruct Hcase as [-> Hno]. split; [done|]. cbn [open_cnt removed sector set_removed].
    rewrite !decide_True by done. split; [done|]. by apply delete_insert_id.
Qed.

Lemma gives_name_length D k name sec : gives D k name sec → Zlength (ename (slot D k)) = 15 ∧ 20 * k + 20 ≤ Zlength D.
Proof.
  intros ((? & Hr) & _). unfold slots in Hr. pose proof (Z.mul_div_le (Zlength D) 20). split; [|lia].
  apply slot_name_length, length_slice; lia.
Qed.

(** The steps of [dir_remove] once it has found the entry. *)
Lemma remove_found_ok T R X ip i D N s k name sec d :
  dir_ok D N → dir_open_at T R X ip i D s → deny_write_cnt i = 0 → gives D k name sec →
  T !! sec = Some d → sec ≠ FREE_MAP_SECTOR → sec ≠ sector i → sector i ≠ FREE_MAP_SECTOR →
  ∃ ip2 s2 s3 s4 s' T', inode_open s sec = Ok (ip2, s2) ∧ ip2 ≠ 0
    ∧ inode_write_at s2 ip (bytes_of (Entry sec (ename (slot D k)) false)) ENTRY_SIZE (20 * k) = Ok (ENTRY_SIZE, s3)
    ∧ inode_remove s3 ip2 = Ok s4 ∧ inode_close s4 ip2 = Ok s'
    ∧ fs_ok s' T' R X ∧ unlinked s s' T T' sec ∧ dir_ok (file_data s' (idata i)) (delete name N)
    ∧ size (fs_device s') = size (fs_device s) ∧ files s' = files s ∧ free_map_file s' = free_map_file s
    ∧ supply s' = supply s ∧ (calls s ≤ calls s')%nat ∧ (saved T s → saved T' s')
    ∧ (∀ sec d, T' !! sec = Some d → sec ≠ FREE_MAP_SECTOR → sec ≠ sector i → file_data s' d = file_data s d).
Proof.
  intros HN Ho Hdeny Hg HTd Hn0 Hnd Hi0. pose proof Ho as (Hok & Hm & Hi & HD).
  destruct (dir_open_at_length _ _ _ _ _ _ s Ho) as [HL HL2].
  destruct (inode_open_ok s T R X sec d Hok HTd) as (ip2 & s2 & E2 & K2 & _ & Hne & Hk2).
  specialize (Hne Hm). rewrite decide_False in Hk2 by done. destruct Hk2 as [Hok2 Hop].
  pose proof (opened_closed s s2 T R X ip2 sec d Hok Hop) as (i2 & Hi2 & Hs2 & _ & Hun).
  assert (Hipne : ip2 ≠ ip).
  { intros ->. destruct Hop as (j & E & Hj & _ & Hc). rewrite Hi in Hc. subst j. simpl in Hj. congruence. }
  assert (Hi2' : inodes s2 !! ip = Some i).
  { destruct Hop as (j & E & _). rewrite E. by rewrite lookup_insert_ne. }
  assert (HDT : T !! sector i = Some (idata i)) by apply (k_node _ _ _ _ Hok _ _ Hi).
  pose proof (k_disk _ _ _ _ Hok sec d HTd) as (Hsr & _). pose proof (k_size _ _ _ _ Hok) as Hsz.
  destruct (gives_name_length D k name sec Hg) as [Hnl Hkl]. set (e := Entry sec (ename (slot D k)) false).
  pose proof (length_bytes_of e Hnl) as Hle. pose proof Hg as ((Hk0 & _) & _).
  destruct (inode_write_ok s2 T R _ ip i (bytes_of e) ENTRY_SIZE (20 * k) Hok2 Hi2') as
    (m & s3 & E3 & _ & Hm3 & _ & Hdat & Hoth & Hs3 & Hok3); [lia|done|by rewrite Hle|].
  specialize (Hm3 (mem_ok_kept _ _ _ K2 Hm)). rewrite Hdeny in Hm3. cbn [Z.eqb] in Hm3.
  assert (m = ENTRY_SIZE) as -> by (unfold avail, inode_length, ENTRY_SIZE in *; lia).
  rewrite (kp_data _ _ _ K2 _ _ HDT Hi0), HD, take_ge in Hdat by (rewrite <- (Nat2Z.id (length (bytes_of e))); rewrite Hle; done).
  destruct (remove_close_ok s3 T R _ ip2 i2 Hok3) as (s4 & s5 & E4 & E5 & K5 & Hok5 & Ei5).
  { by rewrite (sd_inodes _ _ Hs3). }
  { unfold bump. rewrite decide_True by done. pose proof (proj1 (k_extra _ _ _ _ Hok ip2)). lia. } { congruence. }
  set (T' := closed_table T (set_removed i2)) in *.
  assert (HT' : ∀ sec' d', T' !! sec' = Some d' → T !! sec' = Some d').
  { unfold T', closed_table. case_decide; [|done]. intros sec' d' [_ ?]%lookup_delete_Some. done. }
  assert (HDT' : T' !! sector i = Some (idata i)).
  { unfold T', closed_table. case_decide; [|done]. simpl. rewrite lookup_delete_ne; [done|congruence]. }
  exists ip2, s2, s3, s4, s5, T'. do 5 (split; [done|]).
  split. { apply (fs_ok_extra_ext _ _ _ _ _ Hok5). intros q. unfold bump. case_decide; lia. }
  split. { apply (Hun s3); [apply (sd_inodes _ _ Hs3)|done]. }
  split. { rewrite (kp_data _ _ _ K5 _ _ HDT' Hi0), Hdat. apply dir_ok_remove; try done; lia. }
  assert (Hsv : saved T s → saved T' s5).
  { intros Hsv. apply (kp_saved _ _ _ K5); [apply (mem_ok_same _ _ Hs3), (mem_ok_kept _ _ _ K2), Hm|].
    intros d0 Hd0. rewrite (Hoth _ d0 (HT' _ _ Hd0) (not_eq_sym Hi0)), (sd_map _ _ Hs3).
    by apply (kp_saved _ _ _ K2 Hm Hsv), HT'. }
  destruct K2 as [K1 K2' K3 K4 K5' K6 _], K5, Hs3. do 4 (split; [congruence|]). split; [lia|]. split; [done|].
  intros sec' d' Hd' H0 Hni. rewrite (kp_data0 sec' d' Hd' H0), (Hoth sec' d' (HT' _ _ Hd') Hni).
  by apply (K1 sec'); [apply HT'|].
Qed.

Lemma dir_remove_ok T R X ip i D N s p name :
  dir_ok D N → dir_open_at T R X ip i D s → deny_write_cnt i = 0 → sector i ≠ FREE_MAP_SECTOR →
  (∀ nm sec, N !! nm = Some sec → is_Some (T !! sec) ∧ sec ≠ FREE_MAP_SECTOR ∧ sec ≠ sector i) →
  ∃ ok s' T', dir_remove s (Dir ip p) name = Ok (ok, s') ∧ fs_ok s' T' R X
    ∧ size (fs_device s') = size (fs_device s) ∧ files s' = files s ∧ free_map_file s' = free_map_file s
    ∧ supply s' = supply s ∧ (calls s ≤ calls s')%nat ∧ (saved T s → saved T' s')
    ∧ (∀ sec d, T' !! sec = Some d → sec ≠ FREE_MAP_SECTOR → sec ≠ sector i → file_data s' d = file_data s d)
    ∧ if (ok : bool)
      then ∃ sec, N !! name = Some sec ∧ dir_ok (file_data s' (idata i)) (delete name N) ∧ unlinked s s' T T' sec
      else N !! name = None ∧ file_data s' (idata i) = D ∧ T' = T ∧ inodes s' = inodes s.
Proof.
  intros HN Ho Hdeny Hi0 HNT. unfold dir_remove.
  destruct (lookup_ok T R X ip i D N name p s HN Ho) as (r & s1 & -> & Hs1 & Hr). cbn [mbind res_bind].
  destruct (same_data_kept s s1 T Hs1) as [_ F1 F2 F3 F4 F5 F6]. specialize (F6 (proj1 (proj2 Ho))).
  pose proof (dir_open_at_same _ _ _ _ _ _ s s1 Hs1 Ho) as Ho1. destruct r as [[e ofs]|].
  - destruct Hr as (k & -> & -> & Hg & HNk). destruct (HNT _ _ HNk) as ([d HTd] & Hn0 & Hnd).
    destruct (remove_found_ok T R X ip i D N s1 k name _ d HN Ho1 Hdeny Hg HTd Hn0 Hnd Hi0) as
      (ip2 & s2 & s3 & s4 & s5 & T' & -> & Hne & E3 & E4 & E5 & Hok & Hun & HN' & G1 & G2 & G3 & G4 & G5 & Gs & G6).
    cbn [mbind res_bind]. rewrite (proj2 (Z.eqb_neq _ _)) by done. cbn [dinode].
    rewrite E3. cbn [mbind res_bind negb Z.eqb ENTRY_SIZE Pos.eqb]. rewrite E4. cbn [mbind res_bind].
    rewrite E5. cbn [mbind res_bind]. exists true, s5, T'. split; [done|]. split; [done|].
    do 4 (split; [congruence|]). split; [lia|]. split; [auto|]. split.
    + intros sec d' H1 H2 H3. rewrite (G6 sec d' H1 H2 H3). by apply same_data_file.
    + eexists. split; [done|]. split; [done|]. unfold unlinked. by rewrite <- (sd_inodes _ _ (proj1 Hs1)).
  - exists false, s1, T. split; [done|]. split; [apply Ho1|]. do 6 (split; [done|]).
    split; [intros; by apply same_data_file|]. split; [done|]. split; [apply Ho1|]. split; [done|]. apply Hs1.
Qed.

End DirInv.
