(* ===== verification/Filesys.v ===== *)
(** * The file system, [filesys/filesys.c]

    The file system as a whole: a map from names to files, and the contents of the
    files.  [fsys] is the invariant between operations; it holds after a format and is
    preserved by every operation on the file system and on open files. *)

From S2P Require Import Prelude Bitmap Disk Inode Directory FsInv FileInv DirInv.

Module Filesys.
Import Bitmap Disk Inode Directory FsInv FileInv DirInv.

(** ** The abstract file system *)

(** The contents of the files, by the sector of the inode. *)
Definition store (s : fs) (T : gmap Z inode_disk) : gmap Z (list Z) :=
  file_data s <$> delete ROOT_DIR_SECTOR (delete FREE_MAP_SECTOR T).

Definition no_extra (_ : Z) : Z := 0.

(** [N] are the names, [T] the files, [R] sectors that are in use but belong to no file. *)
Record fsys (s : fs) (N : gmap (list Z) Z) (T : gmap Z inode_disk) (R : Z → Prop) : Prop := {
  y_ok : fs_ok s T R no_extra;
  y_root : ∃ d, T !! ROOT_DIR_SECTOR = Some d ∧ dir_ok (file_data s d) N;
  y_name name sec : N !! name = Some sec →
    is_Some (T !! sec) ∧ sec ≠ FREE_MAP_SECTOR ∧ sec ≠ ROOT_DIR_SECTOR;
  y_inj name name' sec : N !! name = Some sec → N !! name' = Some sec → name = name';
  y_removed ip i : inodes s !! ip = Some i → removed i = true → ∀ name, N !! name ≠ Some (sector i);
  y_all sec : is_Some (T !! sec) → sec ≠ FREE_MAP_SECTOR → sec ≠ ROOT_DIR_SECTOR →
    (∃ name, N !! name = Some sec) ∨ ∃ ip i, inodes s !! ip = Some i ∧ sector i = sec ∧ removed i = true;
  y_file f fl i : files s !! f = Some fl → f ≠ free_map_file s → inodes s !! finode fl = Some i →
    sector i ≠ FREE_MAP_SECTOR ∧ sector i ≠ ROOT_DIR_SECTOR;
  y_pos f fl : files s !! f = Some fl → 0 ≤ pos fl < 2 ^ 31;
  y_mem : mem_ok s;
  y_saved : saved T s
}.

Lemma store_lookup s T sec xs :
  store s T !! sec = Some xs ↔
  sec ≠ FREE_MAP_SECTOR ∧ sec ≠ ROOT_DIR_SECTOR ∧ ∃ d, T !! sec = Some d ∧ xs = file_data s d.
Proof.
  unfold store. rewrite lookup_fmap_Some. setoid_rewrite lookup_delete_Some. setoid_rewrite lookup_delete_Some.
  naive_solver.
Qed.

Lemma store_same s s' T T' :
  (∀ sec d, T' !! sec = Some d → sec ≠ FREE_MAP_SECTOR → sec ≠ ROOT_DIR_SECTOR →
    T !! sec = Some d ∧ file_data s' d = file_data s d) →
  (∀ sec d, T !! sec = Some d → sec ≠ FREE_MAP_SECTOR → sec ≠ ROOT_DIR_SECTOR → T' !! sec = Some d) →
  store s' T' = store s T.
Proof.
  intros H1 H2. apply map_eq. intros sec. apply option_eq. intros xs. rewrite !store_lookup. split.
  - intros (Hf & Hr & d & HT & ->). destruct (H1 sec d HT Hf Hr) as [HT' E]. split; [done|]. split; [done|]. by exists d.
  - intros (Hf & Hr & d & HT & ->). pose proof (H2 sec d HT Hf Hr) as HT'. destruct (H1 sec d HT' Hf Hr) as [_ E].
    split; [done|]. split; [done|]. by exists d.
Qed.

Lemma store_insert s s' T sec d :
  sec ≠ FREE_MAP_SECTOR → sec ≠ ROOT_DIR_SECTOR →
  (∀ sec' d', T !! sec' = Some d' → sec' ≠ FREE_MAP_SECTOR → sec' ≠ ROOT_DIR_SECTOR → sec' ≠ sec →
    file_data s' d' = file_data s d') →
  store s' (<[sec := d]> T) = <[sec := file_data s' d]> (store s T).
Proof.
  intros Hf Hr Hd. apply map_eq. intros sec'. apply option_eq. intros xs. rewrite lookup_insert_Some, !store_lookup.
  setoid_rewrite lookup_insert_Some. split.
  - intros (Hf' & Hr' & d' & [[<- <-]|[Hne HT]] & ->); [by left|]. right. split; [done|].
    split; [done|]. split; [done|]. exists d'. split; [done|]. by rewrite (Hd sec').
  - intros [[<- <-]|[Hne (Hf' & Hr' & d' & HT & ->)]]; [naive_solver|].
    split; [done|]. split; [done|]. exists d'. split; [by right|]. by rewrite (Hd sec').
Qed.

Lemma store_delete s s' T sec :
  (∀ sec' d', T !! sec' = Some d' → sec' ≠ FREE_MAP_SECTOR → sec' ≠ ROOT_DIR_SECTOR → sec' ≠ sec →
    file_data s' d' = file_data s d') →
  store s' (delete sec T) = delete sec (store s T).
Proof.
  intros Hd. apply map_eq. intros sec'. apply option_eq. intros xs. rewrite lookup_delete_Some, !store_lookup.
  setoid_rewrite lookup_delete_Some. split.
  - intros (Hf' & Hr' & d' & [Hne HT] & ->). split; [done|]. split; [done|]. split; [done|]. exists d'.
    split; [done|]. by apply (Hd sec').
  - intros (Hne & Hf' & Hr' & d' & HT & ->). split; [done|]. split; [done|]. exists d'. split; [done|].
    symmetry. by apply (Hd sec').
Qed.

(** ** The root directory *)

(** Between operations nothing has the root directory open. *)
Lemma root_closed s N T R ip i : fsys s N T R → inodes s !! ip = Some i → sector i ≠ ROOT_DIR_SECTOR.
Proof.
  intros Hy Hi Hs. pose proof (y_ok _ _ _ _ Hy) as Hk.
  destruct (k_node _ _ _ _ Hk ip i Hi) as (_ & _ & _ & Hc & Hp & _). unfold no_extra in Hc.
  assert (Hr : refs s ip = 0 ∧ denies s ip = 0); [|lia]. apply refs_zero. intros f fl Hf E.
  destruct (decide (f = free_map_file s)) as [->|Hne].
  - destruct (k_mapf _ _ _ _ Hk) as (im & gl & [M1 M2 _ _ _] & Hm & _).
    assert (gl = fl) as -> by congruence. rewrite E, Hi in M2. injection M2 as <-. by rewrite Hs in Hm.
  - rewrite <- E in Hi. by destruct (y_file _ _ _ _ Hy f fl i Hf Hne Hi).
Qed.

Definition root_node (d : inode_disk) : inode := Node ROOT_DIR_SECTOR 1 false 0 d.

Lemma root_open_ok s N T R :
  fsys s N T R →
  ∃ ip s1 d, dir_open_root s = Ok (Some (Dir ip 0), s1) ∧ kept T s s1 ∧ free_map s1 = free_map s
    ∧ T !! ROOT_DIR_SECTOR = Some d ∧ dir_ok (file_data s d) N
    ∧ inodes s !! ip = None ∧ inodes s1 = <[ip := root_node d]> (inodes s)
    ∧ dir_open_at T R (bump no_extra ip 1) ip (root_node d) (file_data s d) s1.
Proof.
  intros Hy. pose proof (y_ok _ _ _ _ Hy) as Hk. pose proof (y_mem _ _ _ _ Hy) as Hm.
  destruct (y_root _ _ _ _ Hy) as (d & Hd & HN).
  destruct (inode_open_ok s T R no_extra ROOT_DIR_SECTOR d Hk Hd) as (ip & s1 & E & K1 & Ef & Hne & Hk1).
  specialize (Hne Hm). rewrite decide_False in Hk1 by done. destruct Hk1 as [Hk1 (i & Ei & Hs & Hdd & Hc)].
  assert (Hip : inodes s !! ip = None).
  { destruct (inodes s !! ip) as [j|] eqn:Ej; [|done]. exfalso. subst i. simpl in Hs.
    by apply (root_closed s N T R ip j). }
  rewrite Hip in Hc. destruct Hc as [-> _].
  unfold dir_open_root. rewrite E. cbn [mbind res_bind]. unfold dir_open.
  destruct (malloc_same s1) as (Hms & Hmm & Hmd). pose proof (fs_ok_malloc s1 T R _ Hk1) as Hk2.
  destruct (malloc s1) as [q s2]. simpl in Hms, Hmm, Hmd, Hk2.
  pose proof (mem_ok_kept _ _ _ K1 Hm) as Hm1. specialize (Hmm Hm1).
  rewrite (proj2 (Z.eqb_neq ip 0)), (proj2 (Z.eqb_neq q 0)) by done. cbn [negb andb].
  assert (Hss : same_data s1 s2) by (split; [done|by rewrite Hmd]).
  exists ip, s2, d. split; [done|]. split; [transitivity s1; [done|by apply same_data_kept]|].
  split; [by rewrite (sd_map _ _ Hms)|]. do 3 (split; [done|]). split; [by rewrite (sd_inodes _ _ Hms)|].
  split; [done|]. split; [by apply (same_data_mem s1)|].
  split; [rewrite (sd_inodes _ _ Hms), Ei; apply lookup_insert_eq|].
  simpl. rewrite (same_data_file s1 s2) by done. by apply (kp_data _ _ _ K1 ROOT_DIR_SECTOR).
Qed.

Lemma root_close_ok s T R ip d :
  fs_ok s T R (bump no_extra ip 1) → inodes s !! ip = Some (root_node d) →
  ∃ s', (∀ p, dir_close s (Some (Dir ip p)) = Ok s') ∧ kept T s s' ∧ fs_ok s' T R no_extra
    ∧ inodes s' = delete ip (inodes s).
Proof.
  intros Hk Hi. destruct (inode_close_ok s T R _ ip (root_node d) Hk Hi) as (s' & E & K & Hk' & Ei).
  { unfold bump. by rewrite decide_True. }
  exists s'. split; [done|]. split; [done|]. split; [|done].
  apply (fs_ok_extra_ext _ _ _ _ _ Hk'). intros q. unfold bump, no_extra. case_decide; lia.
Qed.

(** ** Opening a file *)

(** The inode in memory after one more [inode_open]. *)
Definition reopened (o : option inode) (i : inode) : Prop :=
  match o with
  | Some j => i = Node (sector j) (open_cnt j + 1) (removed j) (deny_write_cnt j) (idata j)
  | None => removed i = false
  end.

(** [filesys_open] up to the call of [file_open]. *)
Lemma lookup_file_ok s N T R name :
  fsys s N T R →
  ∃ ipr s1 s2 ip s', dir_open_root s = Ok (Some (Dir ipr 0), s1) ∧ dir_lookup s1 (Dir ipr 0) name = Ok (ip, s2)
    ∧ dir_close s2 (Some (Dir ipr 0)) = Ok s' ∧ kept T s s'
    ∧ match N !! name with
      | None => ip = 0 ∧ inodes s' = inodes s ∧ fs_ok s' T R no_extra
      | Some sec => ip ≠ 0 ∧ fs_ok s' T R (bump no_extra ip 1)
          ∧ ∃ i, inodes s' = <[ip := i]> (inodes s) ∧ sector i = sec ∧ reopened (inodes s !! ip) i
      end.
Proof.
  intros Hy. destruct (root_open_ok s N T R Hy) as (ipr & s1 & d & -> & K1 & Ef & Hd & HN & Hn & Ei & Ho).
  destruct (lookup_ok T R _ ipr (root_node d) (file_data s d) N name 0 s1 HN Ho) as (r & s2 & E & Hs & Hr).
  pose proof (dir_open_at_same _ _ _ _ _ _ _ _ Hs Ho) as (Hk2 & Hm2 & Hi2 & _). pose proof (sd_inodes _ _ (proj1 Hs)) as Ei2.
  assert (K2 : kept T s s2) by (transitivity s1; [done|by apply same_data_kept]).
  exists ipr, s1. unfold dir_lookup. rewrite E. cbn [mbind res_bind]. destruct r as [[e ofs]|].
  - destruct Hr as (k & _ & _ & _ & HNk). rewrite HNk. set (sec := inode_sector e) in *.
    destruct (y_name _ _ _ _ Hy name sec HNk) as ([dd Hdd] & Hn0 & Hn1).
    destruct (inode_open_ok s2 T R _ sec dd Hk2 Hdd) as (ip & s3 & -> & K3 & _ & Hne & Hk3).
    specialize (Hne Hm2). rewrite decide_False in Hk3 by done. destruct Hk3 as [Hk3 (i & Ei3 & Hsec & _ & Hc)].
    rewrite Ei2, Ei in Hc, Ei3.
    assert (Hipr : ip ≠ ipr).
    { intros ->. rewrite lookup_insert_eq in Hc. subst i. by apply Hn1. }
    assert (Hr : inodes s3 !! ipr = Some (root_node d)).
    { rewrite Ei3, lookup_insert_ne by done. apply lookup_insert_eq. }
    destruct (inode_close_ok s3 T R (bump (bump no_extra ipr 1) ip 1) ipr (root_node d) Hk3 Hr) as
      (s4 & E4 & K4 & Hk4 & Ei4).
    { unfold bump, no_extra. rewrite decide_False, decide_True by done. lia. }
    change (closed_table T (root_node d)) with T in *.
    exists s3, ip, s4. do 3 (split; [done|]). split; [transitivity s3; [by transitivity s2|done]|]. split; [done|].
    split. { apply (fs_ok_extra_ext _ _ _ _ _ Hk4). intros q. unfold bump, no_extra. repeat case_decide; lia. }
    exists i. split; [|split; [done|]].
    + rewrite Ei4. unfold closed. rewrite decide_True by done. rewrite Ei3, delete_insert_ne, delete_insert_id by done. done.
    + rewrite lookup_insert_ne in Hc by done. unfold reopened. destruct (inodes s !! ip); [done|]. by destruct Hc as [-> _].
  - rewrite Hr. destruct (root_close_ok s2 T R ipr d Hk2) as (s3 & E3 & K3 & Hk3 & Ei3); [done|].
    exists s2, 0, s3. do 2 (split; [done|]). split; [apply E3|]. split; [by transitivity s2|]. split; [done|].
    split; [|done]. rewrite Ei3, Ei2, Ei. by apply delete_insert_id.
Qed.

(** Names, files and sectors stay as they are; some inodes are opened, closed or their
    counters change, some files are opened, closed or move. *)
Lemma fsys_step s s' N T R R' :
  fsys s N T R → fs_ok s' T R' no_extra → mem_ok s' →
  (∃ d, T !! ROOT_DIR_SECTOR = Some d ∧ dir_ok (file_data s' d) N) →
  (∀ ip i, inodes s' !! ip = Some i → removed i = true → ∃ j, inodes s !! ip = Some j ∧ sector j = sector i ∧ removed j = true) →
  (∀ ip i, inodes s !! ip = Some i → removed i = true → ∃ j, inodes s' !! ip = Some j ∧ sector j = sector i ∧ removed j = true) →
  (∀ f fl i, files s' !! f = Some fl → f ≠ free_map_file s' → inodes s' !! finode fl = Some i →
    sector i ≠ FREE_MAP_SECTOR ∧ sector i ≠ ROOT_DIR_SECTOR) →
  (∀ f fl, files s' !! f = Some fl → 0 ≤ pos fl < 2 ^ 31) → saved T s' →
  fsys s' N T R'.
Proof.
  intros [Y1 Y2 Y3 Y4 Y5 Y6 Y7 Y8 Y9 Y10] Hk Hm Hroot Hrem Hrem' Hfile Hpos Hsv. split; try done.
  - intros ip i Hi Hr name. destruct (Hrem ip i Hi Hr) as (j & Hj & <- & Hrj). by apply (Y5 ip j).
  - intros sec HT H0 H1. destruct (Y6 sec HT H0 H1) as [?|(ip & i & Hi & <- & Hr)]; [by left|]. right.
    destruct (Hrem' ip i Hi Hr) as (j & Hj & ? & ?). by exists ip, j.
Qed.

Lemma fsys_same s s' N T R R' :
  fsys s N T R → fs_ok s' T R' no_extra → mem_ok s' →
  inodes s' = inodes s → files s' = files s → free_map_file s' = free_map_file s →
  (∃ d, T !! ROOT_DIR_SECTOR = Some d ∧ dir_ok (file_data s' d) N) → saved T s' → fsys s' N T R'.
Proof.
  intros Hy Hk Hm Ei Ef Em Hroot Hsv. apply (fsys_step s s' N T R); try done; rewrite ?Ei, ?Ef, ?Em; eauto.
  - apply (y_file _ _ _ _ Hy).
  - apply (y_pos _ _ _ _ Hy).
Qed.
Lemma kept_root s s' N T R :
  fsys s N T R → kept T s s' → ∃ d, T !! ROOT_DIR_SECTOR = Some d ∧ dir_ok (file_data s' d) N.
Proof.
  intros Hy K. destruct (y_root _ _ _ _ Hy) as (d & Hd & HN). exists d. split; [done|].
  by rewrite (kp_data _ _ _ K ROOT_DIR_SECTOR).
Qed.
Lemma fsys_kept s s' N T R R' :
  fsys s N T R → kept T s s' → inodes s' = inodes s → fs_ok s' T R' no_extra → fsys s' N T R'.
Proof.
  intros Hy K Ei Hk. apply (fsys_same s s' N T R); try done.
  - apply (mem_ok_kept _ _ _ K), (y_mem _ _ _ _ Hy).
  - apply (kp_files _ _ _ K).
  - apply (kp_map_file _ _ _ K).
  - by apply (kept_root s s' N T R).
  - apply (kp_saved _ _ _ K); apply Hy.
Qed.

Lemma kept_store s s' T : kept T s s' → store s' T = store s T.
Proof.
  intros K. apply store_same; [|done]. intros sec d Hd H0 _. split; [done|]. by apply (kp_data _ _ _ K sec).
Qed.

(** One more file is open. *)
Lemma fsys_new_file s s' N T R f ip i :
  fsys s N T R → kept T (set_files s (<[f := File ip 0 false]> (files s))) s' → fs_ok s' T R no_extra →
  inodes s' = <[ip := i]> (inodes s) → reopened (inodes s !! ip) i →
  sector i ≠ FREE_MAP_SECTOR → sector i ≠ ROOT_DIR_SECTOR → fsys s' N T R.
Proof.
  intros Hy K Hk Ei Hre H0 H1. pose proof (kp_files _ _ _ K) as Ef. pose proof (kp_map_file _ _ _ K) as Em.
  simpl in Ef, Em.
  assert (Hrem : ∀ q, q ≠ ip → inodes s' !! q = inodes s !! q) by (intros q ?; by rewrite Ei, lookup_insert_ne).
  assert (Hii : inodes s' !! ip = Some i) by (rewrite Ei; apply lookup_insert_eq).
  apply (fsys_step s s' N T R); try done.
  - apply (mem_ok_kept _ _ _ K), (y_mem _ _ _ _ Hy).
  - destruct (y_root _ _ _ _ Hy) as (dr & Hdr & HNr). exists dr. split; [done|].
    by rewrite (kp_data _ _ _ K ROOT_DIR_SECTOR).
  - intros q j Hq Hr. destruct (decide (q = ip)) as [->|Hne]; [|exists j; by rewrite <- Hrem].
    rewrite Hii in Hq. injection Hq as <-. unfold reopened in Hre. destruct (inodes s !! ip) as [j|]; [|congruence].
    exists j. by subst i.
  - intros q j Hq Hr. destruct (decide (q = ip)) as [->|Hne]; [|exists j; by rewrite Hrem].
    rewrite Hq in Hre. simpl in Hre. exists i. by subst i.
  - rewrite Ef, Em. intros g gl j [[<- <-]|[Hne Hg]]%lookup_insert_Some Hgne Hj.
    + simpl in Hj. by simplify_eq.
    + destruct (decide (finode gl = ip)) as [E|E]; [rewrite E in Hj; by simplify_eq|].
      rewrite Hrem in Hj by done. by apply (y_file _ _ _ _ Hy g gl).
  - rewrite Ef. intros g gl [[<- <-]|[Hne Hg]]%lookup_insert_Some; [simpl; lia|]. by apply (y_pos _ _ _ _ Hy g).
  - apply (kp_saved _ _ _ K); apply Hy.
Qed.

Lemma filesys_open_ok s N T R name :
  fsys s N T R →
  ∃ f s', filesys_open s name = Ok (f, s') ∧ fsys s' N T R ∧ store s' T = store s T
    ∧ free_map_file s' = free_map_file s
    ∧ match N !! name with
      | None => f = 0 ∧ files s' = files s ∧ inodes s' = inodes s
      | Some sec => f ≠ 0 ∧ files s !! f = None ∧ ∃ ip i, files s' = <[f := File ip 0 false]> (files s)
          ∧ inodes s' = <[ip := i]> (inodes s) ∧ sector i = sec ∧ reopened (inodes s !! ip) i
      end.
Proof.
  intros Hy. pose proof (y_mem _ _ _ _ Hy) as Hm.
  destruct (lookup_file_ok s N T R name Hy) as (ipr & s1 & s2 & ip & s3 & E1 & E2 & E3 & K3 & Hcase).
  unfold filesys_open. rewrite E1. cbn [mbind res_bind]. rewrite E2. cbn [mbind res_bind].
  rewrite E3. cbn [mbind res_bind]. pose proof (mem_ok_kept _ _ _ K3 Hm) as Hm3.
  destruct (N !! name) as [sec|] eqn:HNm.
  - destruct Hcase as (Hip & Hk3 & i & Ei & Hsec & Hre). destruct (y_name _ _ _ _ Hy name sec HNm) as (HTs & Hn0 & Hn1).
    destruct (file_open_ok s3 T R _ ip i Hk3) as (f & s4 & E4 & Hf & Hcase).
    { rewrite Ei. apply lookup_insert_eq. } { unfold bump. by rewrite decide_True. }
    specialize (Hf Hm3). rewrite decide_False in Hcase by done.
    destruct Hcase as (Hfn & K4 & Hk4 & Ei4). rewrite E4. exists f, s4. split; [done|].
    rewrite (kp_files _ _ _ K3) in Hfn, K4.
    assert (K5 : kept T (set_files s (<[f:=File ip 0 false]> (files s))) s4).
    { transitivity (set_files s3 (<[f:=File ip 0 false]> (files s))); [|done]. by destruct K3; split. }
    pose proof (kp_files _ _ _ K5) as Hff. simpl in Hff. rewrite Ei in Ei4.
    assert (Hk5 : fs_ok s4 T R no_extra).
    { apply (fs_ok_extra_ext _ _ _ _ _ Hk4). intros q. unfold bump, no_extra. case_decide; lia. }
    split; [|split; [exact (kept_store _ _ _ K5)|split; [exact (kp_map_file _ _ _ K5)|]]].
    2:{ split; [done|]. split; [done|]. by exists ip, i. }
    apply (fsys_new_file s s4 N T R f ip i); try done; by rewrite Hsec.
  - destruct Hcase as (-> & Ei & Hk3). unfold file_open. cbn [Z.eqb negb andb].
    destruct (malloc_same s3) as (Hms & Hmm & Hmd). pose proof (fs_ok_malloc s3 T R _ Hk3) as Hk4.
    destruct (malloc s3) as [q s4]. simpl in Hms, Hmm, Hmd, Hk4. cbn [inode_close Z.eqb mbind res_bind].
    assert (K4 : kept T s s4) by (transitivity s3; [done|apply kept_same; congruence]).
    assert (Ei4 : inodes s4 = inodes s) by (rewrite (sd_inodes _ _ Hms); done).
    exists 0, s4. split; [done|]. split; [|split; [by apply kept_store|split; [apply (kp_map_file _ _ _ K4)|]]].
    2:{ split; [done|]. split; [apply (kp_files _ _ _ K4)|done]. }
    by apply (fsys_kept s s4 N T R).
Qed.

(** ** Removing a file *)

Lemma unlinked_root s s1 s2 s3 T T' sec ipr d :
  inodes s !! ipr = None → inodes s1 = <[ipr := root_node d]> (inodes s) → sec ≠ ROOT_DIR_SECTOR →
  unlinked s1 s2 T T' sec → inodes s3 = delete ipr (inodes s2) →
  inodes s2 !! ipr = Some (root_node d) ∧ unlinked s s3 T T' sec.
Proof.
  intros Hn E1 Hsec [(Hno & -> & E2)|(q & j & Hq & Hj & -> & E2)] E3.
  - split; [rewrite E2, E1; apply lookup_insert_eq|]. left. split; [|split; [done|]].
    + intros q j Hq. apply (Hno q). rewrite E1. rewrite lookup_insert_ne; [done|]. congruence.
    + rewrite E3, E2, E1. by apply delete_insert_id.
  - assert (Hne : q ≠ ipr) by (intros ->; rewrite E1, lookup_insert_eq in Hq; injection Hq as <-; done).
    rewrite E1, lookup_insert_ne in Hq by done.
    split; [rewrite E2, lookup_insert_ne, E1 by done; apply lookup_insert_eq|]. right. exists q, j.
    do 3 (split; [done|]). rewrite E3, E2, E1, delete_insert_ne, delete_insert_id by done. done.
Qed.

Definition is_open (s : fs) (sec : Z) : Prop := ∃ q j, inodes s !! q = Some j ∧ sector j = sec.

(** The file system after a name has gone. *)
Lemma fsys_unlink s s' N T T' R name sec :
  fsys s N T R → N !! name = Some sec → unlinked s s' T T' sec → fs_ok s' T' R no_extra → mem_ok s' →
  (∃ d, T' !! ROOT_DIR_SECTOR = Some d ∧ dir_ok (file_data s' d) (delete name N)) →
  files s' = files s → free_map_file s' = free_map_file s → saved T' s' → fsys s' (delete name N) T' R.
Proof.
  intros [Y1 Y2 Y3 Y4 Y5 Y6 Y7 Y8 Y9 Y10] HN Hun Hk Hm Hroot Ef Em Hsv.
  assert (HT : ∀ sec', sec' ≠ sec → T' !! sec' = T !! sec').
  { intros sec' Hne. destruct Hun as [(_ & -> & _)|(q & j & _ & _ & -> & _)]; [by rewrite lookup_delete_ne|done]. }
  assert (Hi : ∀ q i, inodes s' !! q = Some i → ∃ j, inodes s !! q = Some j ∧ sector j = sector i
    ∧ (removed i = removed j ∨ sector i = sec)).
  { intros q i Hq. destruct Hun as [(_ & _ & Ei)|(q' & j & Hq' & <- & _ & Ei)]; rewrite Ei in Hq; [eauto|].
    apply lookup_insert_Some in Hq as [[<- <-]|[_ Hq]]; eauto. }
  split; try done.
  - intros nm sc [Hne HNn]%lookup_delete_Some. destruct (Y3 nm sc HNn) as ([dd Hdd] & ? & ?). split; [|done].
    rewrite HT; [done|]. intros ->. by apply Hne, (Y4 name nm sec).
  - intros n1 n2 sc [_ H1]%lookup_delete_Some [_ H2]%lookup_delete_Some. by apply (Y4 n1 n2 sc).
  - intros q i Hq Hr nm [Hne HNn]%lookup_delete_Some. destruct (Hi q i Hq) as (j & Hj & Es & [Er|Er]).
    + rewrite <- Es in HNn. by apply (Y5 q j Hj ltac:(congruence) nm).
    + rewrite Er in HNn. by apply Hne, (Y4 name nm sec).
  - intros sec' [d' Hd'] H0 H1. destruct (decide (sec' = sec)) as [->|Hne].
    + right. destruct Hun as [(_ & -> & _)|(q & j & Hq & <- & -> & Ei)]; [by rewrite lookup_delete_eq in Hd'|].
      exists q, (set_removed j). split; [rewrite Ei; apply lookup_insert_eq|done].
    + rewrite HT in Hd' by done. destruct (Y6 sec' (mk_is_Some _ _ Hd') H0 H1) as [[nm Hnm]|(q & i & Hq & <- & Hr)].
      * left. exists nm. rewrite lookup_delete_ne; [done|]. congruence.
      * right. destruct Hun as [(_ & _ & Ei)|(q' & j & Hq' & Hj & _ & Ei)]; rewrite Ei; [by exists q, i|].
        exists q, i. rewrite lookup_insert_ne; [done|]. congruence.
  - rewrite Ef, Em. intros f fl i Hf Hfm Hq. destruct (Hi _ _ Hq) as (j & Hj & <- & _). by apply (Y7 f fl j).
  - by rewrite Ef.
Qed.

Lemma filesys_remove_ok s N T R name :
  fsys s N T R →
  ∃ ok s', filesys_remove s name = Ok (ok, s') ∧ files s' = files s ∧ free_map_file s' = free_map_file s
    ∧ match N !! name with
      | None => ok = false ∧ fsys s' N T R ∧ store s' T = store s T ∧ inodes s' = inodes s
      | Some sec => ok = true ∧ ∃ T', fsys s' (delete name N) T' R ∧ unlinked s s' T T' sec
          ∧ (is_open s sec → store s' T' = store s T)
          ∧ (¬ is_open s sec → store s' T' = delete sec (store s T))
      end.
Proof.
  intros Hy. pose proof (y_mem _ _ _ _ Hy) as Hm.
  destruct (root_open_ok s N T R Hy) as (ipr & s1 & d & E1 & K1 & Ef & Hd & HN & Hn & Ei & Ho).
  assert (HNT : ∀ nm sec, N !! nm = Some sec → is_Some (T !! sec) ∧ sec ≠ FREE_MAP_SECTOR ∧ sec ≠ sector (root_node d))
    by apply (y_name _ _ _ _ Hy).
  destruct (dir_remove_ok T R _ ipr (root_node d) (file_data s d) N s1 0 name HN Ho eq_refl ltac:(done) HNT) as
    (ok & s2 & T' & E2 & Hk2 & F1 & F2 & F3 & F4 & F5 & Fs & F6 & Hcase).
  specialize (Fs (kp_saved _ _ _ K1 Hm (y_saved _ _ _ _ Hy))).
  unfold filesys_remove. rewrite E1. cbn [mbind res_bind]. rewrite E2. cbn [mbind res_bind]. destruct ok.
  - destruct Hcase as (sec & HNk & HN2 & Hun). destruct (y_name _ _ _ _ Hy name sec HNk) as (_ & Hn0 & Hn1).
    assert (Hr2 : inodes s2 !! ipr = Some (root_node d)).
    { by apply (unlinked_root s s1 s2 (set_inodes s2 (delete ipr (inodes s2)) []) T T' sec ipr d). }
    destruct (root_close_ok s2 T' R ipr d Hk2 Hr2) as (s3 & E3 & K3 & Hk3 & Ei3). rewrite E3. cbn [mbind res_bind].
    destruct (unlinked_root s s1 s2 s3 T T' sec ipr d Hn Ei Hn1 Hun Ei3) as [_ Hun3].
    assert (HT' : ∀ sec' d', T' !! sec' = Some d' → T !! sec' = Some d').
    { intros sec' d' Hd'. destruct Hun as [(_ & -> & _)|(q & j & _ & _ & -> & _)]; [|done].
      by apply lookup_delete_Some in Hd' as [_ ?]. }
    assert (Hroot : T' !! ROOT_DIR_SECTOR = Some d).
    { destruct Hun as [(_ & -> & _)|(q & j & _ & _ & -> & _)]; [by rewrite lookup_delete_ne|done]. }
    assert (Hdat : ∀ sec' d', T' !! sec' = Some d' → sec' ≠ FREE_MAP_SECTOR → sec' ≠ ROOT_DIR_SECTOR →
      file_data s3 d' = file_data s d').
    { intros sec' d' Hd' H0 H1. rewrite (kp_data _ _ _ K3 sec' d' Hd' H0), (F6 sec' d' Hd' H0 H1).
      apply (kp_data _ _ _ K1 sec'); [by apply HT'|done]. }
    assert (Efs : files s3 = files s) by (rewrite (kp_files _ _ _ K3), F2; apply (kp_files _ _ _ K1)).
    assert (Emf : free_map_file s3 = free_map_file s)
      by (rewrite (kp_map_file _ _ _ K3), F3; apply (kp_map_file _ _ _ K1)).
    exists true, s3. do 3 (split; [done|]). rewrite HNk. split; [done|]. exists T'. split.
    { apply (fsys_unlink s s3 N T T' R name sec); try done.
      - apply (mem_ok_kept _ _ _ K3). pose proof (mem_ok_kept _ _ _ K1 Hm) as Hm1.
        intros n Hl. rewrite F4. apply Hm1. lia.
      - exists d. split; [done|]. rewrite (kp_data _ _ _ K3 _ _ Hroot) by done. exact HN2.
      - apply (kp_saved _ _ _ K3); [|done]. intros n Hl. rewrite F4. apply (mem_ok_kept _ _ _ K1 Hm). lia. }
    split; [done|]. split.
    + intros (q & j & Hq & Hj). destruct Hun3 as [(Hno & _)|(q' & j' & _ & _ & -> & _)]; [by destruct (Hno q j)|].
      apply store_same; [|done]. intros sec' d' Hd' H0 H1. split; [done|]. by apply (Hdat sec').
    + intros Hno. destruct Hun3 as [(_ & -> & _)|(q' & j' & Hq & Hj & _)]; [|destruct Hno; by exists q', j'].
      apply store_delete. intros sec' d' Hd' H0 H1 Hne. apply (Hdat sec'); [|done..]. by rewrite lookup_delete_ne.
  - destruct Hcase as (HNk & HD & -> & Ei2). rewrite Ei in Ei2.
    destruct (root_close_ok s2 T R ipr d Hk2) as (s3 & E3 & K3 & Hk3 & Ei3); [rewrite Ei2; apply lookup_insert_eq|].
    rewrite E3. cbn [mbind res_bind]. exists false, s3. split; [done|]. rewrite HNk.
    assert (K : kept T s s3).
    { transitivity s2; [|done]. split; try (destruct K1; congruence); [|destruct K1; lia|done].
      intros sec' d' Hd' H0. destruct (decide (sec' = ROOT_DIR_SECTOR)) as [->|].
      - assert (d' = d) as -> by congruence. exact HD.
      - rewrite (F6 sec' d' Hd' H0) by done. by apply (kp_data _ _ _ K1 sec'). }
    assert (Ei4 : inodes s3 = inodes s) by (rewrite Ei3, Ei2; by apply delete_insert_id).
    split; [apply (kp_files _ _ _ K)|]. split; [apply (kp_map_file _ _ _ K)|]. split; [done|].
    split; [by apply (fsys_kept s s3 N T R)|]. split; [by apply kept_store|done].
Qed.

(** ** Creating a file *)

(** The file system after a new file has got a name. *)
Lemma fsys_link s s' N T R name sec d :
  fsys s N T R → T !! sec = None → N !! name = None → fs_ok s' (<[sec := d]> T) R no_extra →
  mem_ok s' → inodes s' = inodes s → files s' = files s → free_map_file s' = free_map_file s →
  (∃ dr, T !! ROOT_DIR_SECTOR = Some dr ∧ dir_ok (file_data s' dr) (<[name := sec]> N)) →
  saved (<[sec := d]> T) s' → fsys s' (<[name := sec]> N) (<[sec := d]> T) R.
Proof.
  intros [Y1 Y2 Y3 Y4 Y5 Y6 Y7 Y8 Y9 Y10] HT HN Hk Hm Ei Ef Em (dr & Hdr & Hroot) Hsv.
  assert (Hnew : ∀ nm, N !! nm ≠ Some sec).
  { intros nm Hnm. destruct (Y3 nm sec Hnm) as ([? ?] & _). congruence. }
  destruct (k_mapf _ _ _ _ Y1) as (im & fl & [_ M2 _ _ _] & Hms & _).
  destruct (k_node _ _ _ _ Y1 _ _ M2) as (_ & _ & HTm & _). rewrite Hms in HTm.
  assert (Hs0 : sec ≠ FREE_MAP_SECTOR) by congruence. assert (Hs1 : sec ≠ ROOT_DIR_SECTOR) by congruence.
  split; try done.
  - exists dr. by rewrite lookup_insert_ne.
  - intros nm sc [[<- <-]|[_ Hnm]]%lookup_insert_Some; [by rewrite lookup_insert_eq|].
    destruct (Y3 nm sc Hnm) as ([dd Hdd] & ?). split; [|done]. rewrite lookup_insert_ne; [done|]. congruence.
  - intros n1 n2 sc [[<- <-]|[_ H1]]%lookup_insert_Some [[<- E]|[_ H2]]%lookup_insert_Some; try done.
    + by destruct (Hnew n2).
    + subst sc. by destruct (Hnew n1).
    + by apply (Y4 n1 n2 sc).
  - rewrite Ei. intros q i Hq Hr nm [[<- E]|[_ Hnm]]%lookup_insert_Some.
    + destruct (k_node _ _ _ _ Y1 q i Hq) as (_ & _ & HTi & _). congruence.
    + by apply (Y5 q i Hq Hr nm).
  - rewrite Ei. intros sec' HT' H0 H1. destruct (decide (sec' = sec)) as [->|Hne].
    + left. exists name. apply lookup_insert_eq.
    + rewrite lookup_insert_ne in HT' by done. destruct (Y6 sec' HT' H0 H1) as [[nm Hnm]|?]; [|by right].
      left. exists nm. rewrite lookup_insert_ne; [done|]. congruence.
  - by rewrite Ei, Ef, Em.
  - by rewrite Ef.
Qed.

(** The device has no room for a file of [n] sectors: no sector for its inode, or once
    that one is taken, no [n] in a row. *)
Definition no_room (s : fs) (n : Z) : Prop :=
  full s 1 ∨ ∃ x, ∀ j, 0 ≤ j → j + n ≤ size (fs_device s) →
    ¬ ∀ y, j ≤ y < j + n → y ≠ x ∧ bit (free_map s) y = false.

Definition create_refused (s : fs) (N : gmap (list Z) Z) (T : gmap Z inode_disk) (name : list Z) (sz : Z) : Prop :=
  name = [] ∨ NAME_MAX < Zlength name ∨ is_Some (N !! name)
  ∨ (∃ d, T !! ROOT_DIR_SECTOR = Some d ∧ dir_full (file_data s d)) ∨ no_room s (bytes_to_sectors sz).

(** Allocating the sector of the inode and creating it. *)
Lemma create_inode_ok s T R X sz :
  fs_ok s T R X → mem_ok s → 0 ≤ sz < 2 ^ 31 →
  ∃ o s1, free_map_allocate s 1 = Ok (o, s1) ∧ kept T s s1 ∧ inodes s1 = inodes s ∧
    match o with
    | None => fs_ok s1 T R X ∧ no_room s (bytes_to_sectors sz)
    | Some sec => T !! sec = None ∧ ¬ R sec ∧ 0 ≤ sec < size (fs_device s) ∧
        ∃ ok s2, inode_create s1 sec sz = Ok (ok, s2) ∧ kept T s s2 ∧ inodes s2 = inodes s ∧
        if (ok : bool) then ∃ d, ilength d = sz ∧ file_data s2 d = replicate (Z.to_nat sz) 0
            ∧ fs_ok s2 (<[sec := d]> T) R X
        else fs_ok s2 T (λ x, R x ∨ x = sec) X ∧ no_room s (bytes_to_sectors sz)
    end.
Proof.
  intros Hk Hm Hsz. destruct (free_map_allocate_ok s T R X 1 Hk) as (o & s1 & -> & K1 & Ei1 & Ho); [lia|].
  exists o, s1. do 3 (split; [done|]). destruct o as [sec|].
  2:{ destruct Ho as [Hk1 Hf]. split; [done|]. left. auto. }
  destruct Ho as (Hk1 & H0 & Hfit & Hfresh). destruct (Hfresh sec) as [HnR HnT]; [unfold range; lia|].
  assert (HTn : T !! sec = None).
  { destruct (T !! sec) as [d|] eqn:E; [|done]. exfalso. apply (HnT sec d E). by left. }
  do 2 (split; [done|]). split; [lia|].
  destruct (inode_create_ok s1 T _ X sec sz Hk1) as (ok & s2 & -> & K2 & Ei2 & Hc); [right; unfold range; lia|done|].
  exists ok, s2. split; [done|]. split; [by transitivity s1|]. split; [congruence|]. destruct ok.
  - destruct Hc as (d & Hl & Hz & Hk2). exists d. do 2 (split; [done|]). apply (fs_ok_reserved_iff _ _ _ _ _ Hk2).
    intros x. unfold range. split; [intros Hx; split; [by left|congruence]|]. intros [[?|?] ?]; [done|lia].
  - destruct Hc as [Hk2 Hf]. split.
    { apply (fs_ok_reserved_iff _ _ _ _ _ Hk2). intros x. unfold range. intuition lia. }
    right. exists sec. intros j Hj0 Hj Hall. apply (Hf (mem_ok_kept _ _ _ K1 Hm) j Hj0).
    { by rewrite (kp_size _ _ _ K1). }
    intros y Hy. destruct (Hall y Hy) as [Hne Hb]. pose proof (k_used _ _ _ _ Hk y) as U. pose proof (k_used _ _ _ _ Hk1 y) as U1.
    rewrite (kp_size _ _ _ K1) in U1. destruct (bit (free_map s1) y); [|done]. exfalso.
    assert (0 ≤ y < size (fs_device s)) as Hyr by lia. specialize (U Hyr). specialize (U1 Hyr).
    destruct (proj1 U1 eq_refl) as [[Hr|Hr]|Ht].
    + rewrite Hb in U. discriminate (proj2 U (or_introl Hr)).
    + unfold range in Hr. lia.
    + rewrite Hb in U. discriminate (proj2 U (or_intror Ht)).
Qed.

(** What a failed [filesys_create] leaves reserved: the data sectors of the new inode
    if the name could not be added. *)
Definition leaked (R R' : Z → Prop) (sz : Z) : Prop :=
  (∀ x, R' x ↔ R x) ∨ ∃ st, ∀ x, R' x ↔ R x ∨ st ≤ x < st + (sz + 511) / 512.

(** The names and the contents of the files are as before. *)
Record steady (s s' : fs) (N : gmap (list Z) Z) (T : gmap Z inode_disk) : Prop := {
  st_data sec d : T !! sec = Some d → sec ≠ FREE_MAP_SECTOR → sec ≠ ROOT_DIR_SECTOR → file_data s' d = file_data s d;
  st_files : files s' = files s;
  st_map_file : free_map_file s' = free_map_file s;
  st_mem : mem_ok s';
  st_root : ∃ d, T !! ROOT_DIR_SECTOR = Some d ∧ dir_ok (file_data s' d) N;
  st_saved : saved T s'
}.
Lemma steady_kept s s' N T R : fsys s N T R → kept T s s' → steady s s' N T.
Proof.
  intros Hy K.
  split; [|apply K|apply K|apply (mem_ok_kept _ _ _ K), Hy|by apply (kept_root s s' N T R)|apply (kp_saved _ _ _ K); apply Hy].
  intros sec d Hd H0 _. by apply (kp_data _ _ _ K sec).
Qed.
Lemma steady_trans s s1 s2 N T : steady s s1 N T → kept T s1 s2 → steady s s2 N T.
Proof.
  intros [D1 D2 D3 D4 (d & Hd & HN) D6] K. split.
  - intros sec d' Hd' H0 H1. rewrite (kp_data _ _ _ K sec d') by done. by apply (D1 sec).
  - rewrite (kp_files _ _ _ K). done.
  - rewrite (kp_map_file _ _ _ K). done.
  - by apply (mem_ok_kept _ _ _ K).
  - exists d. split; [done|]. by rewrite (kp_data _ _ _ K ROOT_DIR_SECTOR).
  - by apply (kp_saved _ _ _ K).
Qed.

(** The end of a failed [filesys_create]. *)
Lemma create_failed s s1 N T R R' ipr d :
  fsys s N T R → steady s s1 N T → inodes s !! ipr = None → inodes s1 = <[ipr := root_node d]> (inodes s) →
  fs_ok s1 T R' (bump no_extra ipr 1) →
  ∃ s', (∀ p, dir_close s1 (Some (Dir ipr p)) = Ok s') ∧ inodes s' = inodes s ∧ files s' = files s
    ∧ free_map_file s' = free_map_file s ∧ fsys s' N T R' ∧ store s' T = store s T.
Proof.
  intros Hy Hst Hn Ei Hk. destruct (root_close_ok s1 T R' ipr d Hk) as (s2 & E & K & Hk2 & Ei2).
  { rewrite Ei. apply lookup_insert_eq. }
  pose proof (steady_trans s s1 s2 N T Hst K) as [D1 D2 D3 D4 D5 D6].
  assert (Ei3 : inodes s2 = inodes s) by (rewrite Ei2, Ei; by apply delete_insert_id).
  exists s2. do 4 (split; [done|]). split; [by apply (fsys_same s s2 N T R)|].
  apply store_same; [|done]. intros sec d' Hd' H0 H1. split; [done|]. by apply (D1 sec).
Qed.

(** Releasing the sector of an inode that could not be given a name. *)
Lemma release_inode_ok s T R X sec d :
  fs_ok s (<[sec := d]> T) R X → T !! sec = None → (∀ q j, inodes s !! q = Some j → sector j ≠ sec) →
  ∃ s' R', free_map_release s sec 1 = Ok s' ∧ kept T s s' ∧ inodes s' = inodes s ∧ fs_ok s' T R' X
    ∧ ∀ x, R' x ↔ R x ∨ start d ≤ x < start d + sectors d.
Proof.
  intros Hk HT Hno. pose proof (k_disk _ _ _ _ Hk sec d (lookup_insert_eq _ _ _)) as (Hsr & _ & _).
  pose proof (k_self _ _ _ _ Hk sec d (lookup_insert_eq _ _ _)) as Hself.
  pose proof (fs_ok_delete s (<[sec := d]> T) R X sec d Hk (lookup_insert_eq _ _ _) Hno) as Hk1.
  rewrite delete_insert_id in Hk1 by done.
  destruct (free_map_release_ok s T _ X sec 1 Hk1) as (s' & -> & Hk2 & K & Ei); [lia..| |].
  { intros x Hx. right. left. unfold range in Hx. lia. }
  eexists s', _. split; [done|]. split; [done|]. split; [done|]. split; [exact Hk2|].
  intros x. unfold range, owns. split; [intuition lia|]. intros [Hr|Hx].
  - split; [by left|]. intros Hx. assert (x = sec) as -> by lia.
    destruct (k_res _ _ _ _ Hk sec Hr) as [_ Hn]. apply (Hn sec d (lookup_insert_eq _ _ _)). by left.
  - split; [by right; right|]. intros Hx'. apply Hself. lia.
Qed.

(** Naming the new file. *)
Lemma create_named s s1 N T R ipr dr sec d name junk :
  fsys s N T R → kept T s s1 → inodes s !! ipr = None → inodes s1 = <[ipr := root_node dr]> (inodes s) →
  T !! ROOT_DIR_SECTOR = Some dr → T !! sec = None → 0 ≤ sec < 2 ^ 31 →
  fs_ok s1 (<[sec := d]> T) R (bump no_extra ipr 1) →
  Forall (λ c, c ≠ 0) name → Zlength junk = 20 →
  ∃ ok s2, dir_add s1 (Dir ipr 0) name sec junk = Ok (ok, s2) ∧ inodes s2 = <[ipr := root_node dr]> (inodes s) ∧
    if (ok : bool) then ∃ s', (∀ p, dir_close s2 (Some (Dir ipr p)) = Ok s') ∧ inodes s' = inodes s
        ∧ files s' = files s ∧ free_map_file s' = free_map_file s
        ∧ N !! name = None ∧ name ≠ [] ∧ Zlength name ≤ NAME_MAX ∧ fsys s' (<[name := sec]> N) (<[sec := d]> T) R
        ∧ store s' (<[sec := d]> T) = <[sec := file_data s1 d]> (store s T)
    else fs_ok s2 (<[sec := d]> T) R (bump no_extra ipr 1) ∧ steady s s2 N T
        ∧ (name = [] ∨ NAME_MAX < Zlength name ∨ is_Some (N !! name) ∨ dir_full (file_data s dr)).
Proof.
  intros Hy K1 Hn Ei Hd HTn Hsr Hk1 Hz Hj. pose proof (y_mem _ _ _ _ Hy) as Hm.
  destruct (y_root _ _ _ _ Hy) as (dr' & Hd' & HN). assert (dr' = dr) as -> by congruence.
  assert (HD : file_data s1 dr = file_data s dr) by (by apply (kp_data _ _ _ K1 ROOT_DIR_SECTOR)).
  assert (Ho : dir_open_at (<[sec := d]> T) R (bump no_extra ipr 1) ipr (root_node dr) (file_data s dr) s1).
  { split; [done|]. split; [by apply (mem_ok_kept _ _ _ K1)|]. split; [rewrite Ei; apply lookup_insert_eq|done]. }
  destruct (dir_add_ok _ R _ ipr (root_node dr) (file_data s dr) N s1 0 name sec junk HN Ho) as
    (ok & s2 & -> & Hs2 & Hk2 & Hdat & Hcase); try done; [lia|].
  assert (Ei2 : inodes s2 = <[ipr := root_node dr]> (inodes s)) by (by rewrite (sd_inodes _ _ Hs2)).
  assert (Hm2 : mem_ok s2) by (apply (mem_ok_same _ _ Hs2), (mem_ok_kept _ _ _ K1), Hm).
  exists ok, s2. split; [done|]. split; [done|].
  assert (Hne : ∀ sec' d', T !! sec' = Some d' → (<[sec := d]> T) !! sec' = Some d').
  { intros sec' d' HT'. rewrite lookup_insert_ne; [done|]. congruence. }
  assert (Hdat' : ∀ sec' d', T !! sec' = Some d' → sec' ≠ FREE_MAP_SECTOR → sec' ≠ ROOT_DIR_SECTOR →
    file_data s2 d' = file_data s d').
  { intros sec' d' HT' H0 H1. rewrite (Hdat sec' d') by (done || auto). by apply (kp_data _ _ _ K1 sec'). }
  assert (Hs0 : sec ≠ FREE_MAP_SECTOR).
  { pose proof (y_ok _ _ _ _ Hy) as Hk. destruct (k_mapf _ _ _ _ Hk) as (im & fl & [_ M2 _ _ _] & Hms & _).
    destruct (k_node _ _ _ _ Hk _ _ M2) as (_ & _ & HTm & _). congruence. }
  assert (Hsv : saved T s2).
  { intros d0 Hd0. rewrite (Hdat FREE_MAP_SECTOR d0) by (done || auto). rewrite (sd_map _ _ Hs2).
    by apply (kp_saved _ _ _ K1 Hm (y_saved _ _ _ _ Hy)). }
  destruct ok.
  - destruct Hcase as (Hnil & Hlen & HNn & HN2).
    destruct (root_close_ok s2 _ R ipr dr Hk2) as (s3 & E3 & K3 & Hk3 & Ei3); [rewrite Ei2; apply lookup_insert_eq|].
    assert (Ef : files s3 = files s).
    { rewrite (kp_files _ _ _ K3), (sd_files _ _ Hs2). apply K1. }
    assert (Em : free_map_file s3 = free_map_file s).
    { rewrite (kp_map_file _ _ _ K3), (sd_map_file _ _ Hs2). apply K1. }
    assert (Ei4 : inodes s3 = inodes s) by (rewrite Ei3, Ei2; by apply delete_insert_id).
    assert (Hs1 : sec ≠ ROOT_DIR_SECTOR) by congruence.
    exists s3. do 7 (split; [done|]). split.
    + apply (fsys_link s); try done; [by apply (mem_ok_kept _ _ _ K3)| |].
      * exists dr. split; [done|]. rewrite (kp_data _ _ _ K3 ROOT_DIR_SECTOR) by (done || auto). exact HN2.
      * apply (kp_saved _ _ _ K3 Hm2). intros d0 Hd0. rewrite lookup_insert_ne in Hd0 by done. by apply Hsv.
    + assert (Hnew : file_data s3 d = file_data s1 d).
      { rewrite (kp_data _ _ _ K3 sec) by (done || apply lookup_insert_eq). apply (Hdat sec); [apply lookup_insert_eq|done]. }
      rewrite <- Hnew. apply store_insert; [done|done|]. intros sec' d' HT' H0 H1 _.
      rewrite (kp_data _ _ _ K3 sec') by (done || auto). by apply (Hdat' sec').
  - destruct Hcase as [HN2 Hwhy]. split; [done|]. split; [|done]. split; try done.
    + rewrite (sd_files _ _ Hs2). apply K1.
    + rewrite (sd_map_file _ _ Hs2). apply K1.
    + exists dr. done.
Qed.

Lemma filesys_create_ok s N T R name sz junk :
  fsys s N T R → 0 ≤ sz < 2 ^ 31 → Forall (λ c, c ≠ 0) name → Zlength junk = 20 →
  ∃ ok s', filesys_create s name sz junk = Ok (ok, s')
    ∧ inodes s' = inodes s ∧ files s' = files s ∧ free_map_file s' = free_map_file s
    ∧ if (ok : bool)
      then ∃ sec d, T !! sec = None ∧ N !! name = None
        ∧ name ≠ [] ∧ Zlength name ≤ NAME_MAX ∧ fsys s' (<[name := sec]> N) (<[sec := d]> T) R
        ∧ store s' (<[sec := d]> T) = <[sec := replicate (Z.to_nat sz) 0]> (store s T)
      else create_refused s N T name sz ∧ ∃ R', leaked R R' sz ∧ fsys s' N T R' ∧ store s' T = store s T.
Proof.
  intros Hy Hsz Hz Hj. pose proof (y_mem _ _ _ _ Hy) as Hm.
  destruct (root_open_ok s N T R Hy) as (ipr & s1 & dr & E1 & K1 & Ef & Hd & HN & Hn & Ei & Ho).
  unfold filesys_create. rewrite E1. cbn [mbind res_bind].
  assert (Hroom : no_room s1 (bytes_to_sectors sz) → no_room s (bytes_to_sectors sz)).
  { unfold no_room, full. by rewrite Ef, (kp_size _ _ _ K1). }
  pose proof Ho as (Hk1 & Hm1 & Hi1 & HD1).
  destruct (create_inode_ok s1 T R _ sz Hk1 Hm1 Hsz) as (o & s2 & -> & K2 & Ei2 & Hcase). cbn [mbind res_bind].
  rewrite Ei in Ei2. destruct o as [sec|].
  2:{ destruct Hcase as [Hk2 Hno].
      destruct (create_failed s s2 N T R R ipr dr Hy) as (s3 & -> & ? & ? & ? & ? & ?); try done.
      { apply (steady_kept _ _ _ _ R Hy). by transitivity s1. }
      cbn [mbind res_bind]. exists false, s3. do 4 (split; [done|]). split; [do 4 right; auto|].
      exists R. split; [by left|done]. }
  destruct Hcase as (HTn & HnR & Hsr & ok & s3 & -> & K3 & Ei3 & Hcase). cbn [mbind res_bind]. rewrite Ei in Ei3.
  assert (K4 : kept T s s3) by (by transitivity s1).
  pose proof (y_ok _ _ _ _ Hy) as Hk. rewrite (kp_size _ _ _ K1) in Hsr. pose proof (k_size _ _ _ _ Hk) as Hzz.
  assert (Hs0 : sec =? 0 = false).
  { apply Z.eqb_neq. destruct (k_mapf _ _ _ _ Hk) as (im & fl & [_ M2 _ _ _] & Hms & _).
    destruct (k_node _ _ _ _ Hk _ _ M2) as (_ & _ & HTm & _). rewrite Hms in HTm. unfold FREE_MAP_SECTOR in HTm. congruence. }
  destruct ok.
  - destruct Hcase as (d & Hl & Hzero & Hk3).
    destruct (create_named s s3 N T R ipr dr sec d name junk Hy K4 Hn Ei3 Hd HTn) as (ok & s4 & -> & Ei4 & Hc);
      [lia|done..|]. cbn [mbind res_bind]. rewrite Hs0. destruct ok; cbn [negb andb].
    + destruct Hc as (s5 & E5 & ? & ? & ? & ? & ? & ? & ? & Hst). cbn [mbind res_bind]. rewrite E5. cbn [mbind res_bind].
      exists true, s5. do 4 (split; [done|]). exists sec, d. rewrite Hzero in Hst. done.
    + destruct Hc as (Hk4 & Hst & Hwhy).
      destruct (release_inode_ok s4 T R _ sec d Hk4 HTn) as (s5 & R5 & -> & K5 & Ei5 & Hk5 & HR5).
      { rewrite Ei4. intros q j [[<- <-]|[_ Hq]]%lookup_insert_Some; [simpl; congruence|].
        destruct (k_node _ _ _ _ Hk q j Hq) as (_ & _ & HTj & _). congruence. }
      cbn [mbind res_bind].
      destruct (create_failed s s5 N T R R5 ipr dr Hy) as (s6 & -> & ? & ? & ? & ? & ?); try done.
      { by apply (steady_trans s s4). } { by rewrite Ei5. }
      cbn [mbind res_bind]. exists false, s6. do 4 (split; [done|]). split.
      { destruct Hwhy as [?|[?|[?|?]]]; [by left|by right; left|by do 2 right; left|]. do 3 right. left. by exists dr. }
      exists R5. split; [|done]. right. exists (start d). unfold sectors in HR5. by rewrite Hl in HR5.
  - destruct Hcase as [Hk3 Hno]. cbn [mbind res_bind]. rewrite Hs0. cbn [negb andb].
    destruct (free_map_release_ok s3 T _ _ sec 1 Hk3) as (s4 & -> & Hk4 & K5 & Ei4);
      [lia|lia|rewrite (kp_size _ _ _ K4); lia|intros x Hx; right; unfold range in Hx; lia|].
    cbn [mbind res_bind].
    assert (Hk5 : fs_ok s4 T R (bump no_extra ipr 1)).
    { apply (fs_ok_reserved_iff _ _ _ _ _ Hk4). intros x. unfold range. split; [|intuition lia].
      intros Hx. split; [by left|]. intros ?. assert (x = sec) as -> by lia. done. }
    destruct (create_failed s s4 N T R R ipr dr Hy) as (s5 & -> & ? & ? & ? & ? & ?); try done.
    { apply (steady_kept s s4 N T R Hy). by transitivity s3. } { by rewrite Ei4. }
    cbn [mbind res_bind]. exists false, s5. do 4 (split; [done|]). split; [do 4 right; auto|].
    exists R. split; [by left|done].
Qed.

(** ** Closing a file *)

Lemma file_close_fsys s N T R f fl i :
  fsys s N T R → files s !! f = Some fl → f ≠ free_map_file s → inodes s !! finode fl = Some i →
  ∃ s', file_close s f = Ok s' ∧ fsys s' N (closed_table T i) R ∧ files s' = delete f (files s)
    ∧ free_map_file s' = free_map_file s ∧ inodes s' = closed s (finode fl) (allowed i fl)
    ∧ store s' (closed_table T i) =
        if decide (open_cnt i = 1 ∧ removed i = true) then delete (sector i) (store s T) else store s T.
Proof.
  intros Hy Hf Hm Hi. destruct (y_file _ _ _ _ Hy f fl i Hf Hm Hi) as [H0 H1].
  destruct (file_close_ok s T R no_extra f fl i (y_ok _ _ _ _ Hy) Hf Hi H0) as (s' & E & K & Hk & Ei).
  pose proof (kp_files _ _ _ K) as Ef. pose proof (kp_map_file _ _ _ K) as Em. simpl in Ef, Em.
  assert (Hq : ∀ q j, inodes s' !! q = Some j → ∃ j', inodes s !! q = Some j' ∧ sector j' = sector j ∧ removed j' = removed j).
  { intros q j Hj. rewrite Ei in Hj. unfold closed in Hj. case_decide.
    - apply lookup_delete_Some in Hj as [_ Hj]. eauto.
    - apply lookup_insert_Some in Hj as [[<- <-]|[_ Hj]]; [|eauto]. by exists i. }
  assert (HT : ∀ sec d, closed_table T i !! sec = Some d → T !! sec = Some d).
  { unfold closed_table. case_decide; [|done]. intros sec d [_ ?]%lookup_delete_Some. done. }
  exists s'. split; [done|]. split; [|do 3 (split; [done|])].
  - destruct (y_root _ _ _ _ Hy) as (dr & Hdr & HNr). split; [done| |..].
    + assert (Hdr' : closed_table T i !! ROOT_DIR_SECTOR = Some dr).
      { unfold closed_table. case_decide; [by rewrite lookup_delete_ne|done]. }
      exists dr. split; [done|]. by rewrite (kp_data _ _ _ K ROOT_DIR_SECTOR).
    + intros nm sec Hnm. destruct (y_name _ _ _ _ Hy nm sec Hnm) as (HTs & Hn). split; [|done].
      unfold closed_table. case_decide as Hc; [|done]. rewrite lookup_delete_ne; [done|]. intros <-.
      by apply (y_removed _ _ _ _ Hy (finode fl) i Hi (proj2 Hc) nm).
    + apply (y_inj _ _ _ _ Hy).
    + intros q j Hj Hr nm. destruct (Hq q j Hj) as (j' & Hj' & <- & Hr'). apply (y_removed _ _ _ _ Hy q j'); congruence.
    + intros sec [d Hd] Hs0 Hs1. pose proof (HT sec d Hd) as HTd.
      destruct (y_all _ _ _ _ Hy sec (mk_is_Some _ _ HTd) Hs0 Hs1) as [?|(q & j & Hj & <- & Hr)]; [by left|]. right.
      rewrite Ei. unfold closed. simpl (open_cnt _). destruct (decide (q = finode fl)) as [->|Hne].
      * assert (j = i) as -> by congruence. unfold closed_table in Hd. case_decide as Hc; case_decide as Hc'.
        -- by rewrite lookup_delete_eq in Hd.
        -- tauto.
        -- tauto.
        -- eexists (finode fl), _. rewrite lookup_insert_eq. done.
      * exists q, j. case_decide; [by rewrite lookup_delete_ne|by rewrite lookup_insert_ne].
    + rewrite Ef, Em. intros g gl j [_ Hg]%lookup_delete_Some Hgm Hj. destruct (Hq _ j Hj) as (j' & Hj' & <- & _).
      by apply (y_file _ _ _ _ Hy g gl j').
    + rewrite Ef. intros g gl [_ Hg]%lookup_delete_Some. by apply (y_pos _ _ _ _ Hy g).
    + apply (mem_ok_kept _ _ _ K). apply (y_mem _ _ _ _ Hy).
    + apply (kp_saved _ _ _ K); [apply (y_mem _ _ _ _ Hy)|]. intros d0 Hd0. by apply (y_saved _ _ _ _ Hy), HT.
  - unfold closed_table in *. case_decide as Hc.
    + apply store_delete. intros sec d Hd Hs0 Hs1 Hne. apply (kp_data _ _ _ K sec); [|done]. by rewrite lookup_delete_ne.
    + exact (kept_store _ _ _ K).
Qed.

End Filesys.
