(* ===== verification/FsSpec.v ===== *)
(** * Specification of the file system

    What the file system promises to its clients: a map from names to files, the
    contents of each file, and handles with a position.  Every operation of
    [filesys/filesys.c] and [filesys/file.c] refines a step of this specification. *)

From S2P Require Import Prelude Bitmap Disk Inode Directory FsInv FileInv DirInv Filesys.

Module FsSpec.
Import Bitmap Disk Inode Directory FsInv FileInv DirInv Filesys.

(** ** The abstract state *)

Record handle := Handle { hid : Z; hpos : Z; hdeny : bool }.
Record afs := AFS { anames : gmap (list Z) Z; astore : gmap Z (list Z); ahandles : gmap Z handle }.

Definition referred (a : afs) (id : Z) : Prop := ∃ f h, ahandles a !! f = Some h ∧ hid h = id.
Definition denied_id (a : afs) (id : Z) : Prop := ∃ f h, ahandles a !! f = Some h ∧ hid h = id ∧ hdeny h = true.
Definition named (a : afs) (id : Z) : Prop := ∃ name, anames a !! name = Some id.

Definition set_handle (a : afs) (f : Z) (h : handle) : afs := AFS (anames a) (astore a) (<[f := h]> (ahandles a)).

Inductive op :=
  | Create (name : list Z) (sz : Z) (junk : list Z)
  | Open (name : list Z)
  | Remove (name : list Z)
  | Close (f : Z)
  | Reopen (f : Z)
  | Read (f n : Z)
  | Write (f : Z) (buf : list Z) (n : Z)
  | Seek (f p : Z)
  | Tell (f : Z)
  | Length (f : Z)
  | Deny (f : Z)
  | Allow (f : Z).

Inductive out := Num (n : Z) | Bytes (l : list Z).

(** Bytes that a transfer at [p] in a file of length [len] moves. *)
Definition transfer (len p n : Z) : Z := Z.max 0 (Z.min n (len - p)).

(** [full] says that the device or the directory has no room for the file to be
    created. *)
Inductive astep (full : Prop) (a : afs) : op → out → afs → Prop :=
  | do_create name sz junk id :
      anames a !! name = None → name ≠ [] → Zlength name ≤ NAME_MAX → astore a !! id = None →
      astep full a (Create name sz junk) (Num 1)
        (AFS (<[name := id]> (anames a)) (<[id := replicate (Z.to_nat sz) 0]> (astore a)) (ahandles a))
  | no_create name sz junk :
      name = [] ∨ NAME_MAX < Zlength name ∨ is_Some (anames a !! name) ∨ full →
      astep full a (Create name sz junk) (Num 0) a
  | do_open name id f :
      anames a !! name = Some id → f ≠ 0 → ahandles a !! f = None →
      astep full a (Open name) (Num f) (set_handle a f (Handle id 0 false))
  | no_open name : anames a !! name = None → astep full a (Open name) (Num 0) a
  | do_remove name id st :
      anames a !! name = Some id → (referred a id → st = astore a) → (¬ referred a id → st = delete id (astore a)) →
      astep full a (Remove name) (Num 1) (AFS (delete name (anames a)) st (ahandles a))
  | no_remove name : anames a !! name = None → astep full a (Remove name) (Num 0) a
  | do_close f h st :
      let a' := AFS (anames a) (astore a) (delete f (ahandles a)) in
      ahandles a !! f = Some h → (referred a' (hid h) ∨ named a (hid h) → st = astore a) →
      (¬ referred a' (hid h) → ¬ named a (hid h) → st = delete (hid h) (astore a)) →
      astep full a (Close f) (Num 0) (AFS (anames a) st (delete f (ahandles a)))
  | do_reopen f h f' :
      ahandles a !! f = Some h → f' ≠ 0 → ahandles a !! f' = None →
      astep full a (Reopen f) (Num f') (set_handle a f' (Handle (hid h) 0 false))
  | do_read f h n xs m :
      ahandles a !! f = Some h → astore a !! hid h = Some xs → m = transfer (Zlength xs) (hpos h) n →
      astep full a (Read f n) (Bytes (slice (hpos h) m xs)) (set_handle a f (Handle (hid h) (hpos h + m) (hdeny h)))
  | do_write f h buf n xs m :
      ahandles a !! f = Some h → astore a !! hid h = Some xs →
      (denied_id a (hid h) → m = 0) → (¬ denied_id a (hid h) → m = transfer (Zlength xs) (hpos h) n) →
      astep full a (Write f buf n) (Num m)
        (AFS (anames a) (<[hid h := splice (hpos h) (take (Z.to_nat m) buf) xs]> (astore a))
          (<[f := Handle (hid h) (hpos h + m) (hdeny h)]> (ahandles a)))
  | do_seek f h p :
      ahandles a !! f = Some h → astep full a (Seek f p) (Num 0) (set_handle a f (Handle (hid h) p (hdeny h)))
  | do_tell f h : ahandles a !! f = Some h → astep full a (Tell f) (Num (hpos h)) a
  | do_length f h xs :
      ahandles a !! f = Some h → astore a !! hid h = Some xs → astep full a (Length f) (Num (Zlength xs)) a
  | do_deny f h :
      ahandles a !! f = Some h → astep full a (Deny f) (Num 0) (set_handle a f (Handle (hid h) (hpos h) true))
  | do_allow f h :
      ahandles a !! f = Some h → astep full a (Allow f) (Num 0) (set_handle a f (Handle (hid h) (hpos h) false)).

(** ** The operations of the code *)

Definition num (b : bool) : Z := if b then 1 else 0.

Definition exec (s : fs) (o : op) : res (out * fs) :=
  match o with
  | Create name sz junk => '(ok, s) ← filesys_create s name sz junk; Ok (Num (num ok), s)
  | Open name => '(f, s) ← filesys_open s name; Ok (Num f, s)
  | Remove name => '(ok, s) ← filesys_remove s name; Ok (Num (num ok), s)
  | Close f => s ← file_close s f; Ok (Num 0, s)
  | Reopen f => '(f', s) ← file_reopen s f; Ok (Num f', s)
  | Read f n => '(l, s) ← file_read s f n; Ok (Bytes l, s)
  | Write f buf n => '(m, s) ← file_write s f buf n; Ok (Num m, s)
  | Seek f p => s ← file_seek s f p; Ok (Num 0, s)
  | Tell f => p ← file_tell s f; Ok (Num p, s)
  | Length f => n ← file_length s f; Ok (Num n, s)
  | Deny f => s ← file_deny_write s f; Ok (Num 0, s)
  | Allow f => s ← file_allow_write s f; Ok (Num 0, s)
  end.

(** What the callers have to respect: handles are open, sizes and positions are not
    negative as [off_t], buffers are as long as they say. *)
Definition op_ok (a : afs) (o : op) : Prop :=
  match o with
  | Create name sz junk => 0 ≤ sz < 2 ^ 31 ∧ Forall (λ c, c ≠ 0) name ∧ Zlength junk = 20
  | Open _ | Remove _ => True
  | Close f | Reopen f | Tell f | Length f | Deny f | Allow f => is_Some (ahandles a !! f)
  | Read f n => is_Some (ahandles a !! f) ∧ 0 ≤ n < 2 ^ 31
  | Write f buf n => is_Some (ahandles a !! f) ∧ 0 ≤ n < 2 ^ 31 ∧ n ≤ Zlength buf
  | Seek f p => is_Some (ahandles a !! f) ∧ 0 ≤ p < 2 ^ 31
  end.

(** ** The abstraction *)

Definition handle_of (s : fs) (fl : file) : handle :=
  Handle (default 0 (sector <$> inodes s !! finode fl)) (pos fl) (deny_write fl).
Definition handles (s : fs) : gmap Z handle := handle_of s <$> delete (free_map_file s) (files s).

Definition abstracts (s : fs) (a : afs) : Prop :=
  ∃ T R, fsys s (anames a) T R ∧ astore a = store s T ∧ ahandles a = handles s.

(** No room, in terms of the code's state. *)
Definition no_space (s : fs) (sz : Z) : Prop :=
  no_room s (bytes_to_sectors sz)
  ∨ ∃ N T R d, fsys s N T R ∧ T !! ROOT_DIR_SECTOR = Some d ∧ dir_full (file_data s d).
Definition op_full (s : fs) (o : op) : Prop := match o with Create _ sz _ => no_space s sz | _ => False end.

Lemma handles_lookup s f h :
  handles s !! f = Some h ↔ f ≠ free_map_file s ∧ ∃ fl, files s !! f = Some fl ∧ h = handle_of s fl.
Proof.
  unfold handles. rewrite lookup_fmap_Some. setoid_rewrite lookup_delete_Some. naive_solver.
Qed.

(** A handle and what it stands for. *)
Lemma handle_open s N T R f h :
  fsys s N T R → handles s !! f = Some h →
  ∃ fl i d, f ≠ free_map_file s ∧ files s !! f = Some fl ∧ inodes s !! finode fl = Some i ∧ idata i = d
    ∧ T !! sector i = Some d ∧ sector i ≠ FREE_MAP_SECTOR ∧ sector i ≠ ROOT_DIR_SECTOR
    ∧ h = Handle (sector i) (pos fl) (deny_write fl)
    ∧ store s T !! sector i = Some (file_data s d) ∧ Zlength (file_data s d) = ilength d.
Proof.
  intros Hy Hh. pose proof (y_ok _ _ _ _ Hy) as Hk. apply handles_lookup in Hh as (Hne & fl & Hf & ->).
  destruct (k_file _ _ _ _ Hk f fl Hf) as [_ [i Hi]]. destruct (k_node _ _ _ _ Hk _ _ Hi) as (_ & _ & HT & _).
  destruct (y_file _ _ _ _ Hy f fl i Hf Hne Hi) as [H0 H1]. exists fl, i, (idata i).
  do 7 (split; [done|]). split; [unfold handle_of; by rewrite Hi|]. split; [|by apply (length_file_data s T R no_extra (sector i))].
  apply store_lookup. split; [done|]. split; [done|]. by exists (idata i).
Qed.

Lemma handles_insert s s' f fl :
  free_map_file s' = free_map_file s → f ≠ free_map_file s → files s' = <[f := fl]> (files s) →
  (∀ g gl, files s !! g = Some gl → g ≠ f → handle_of s' gl = handle_of s gl) →
  handles s' = <[f := handle_of s' fl]> (handles s).
Proof.
  intros Em Hf Ef Hh. apply map_eq. intros g. apply option_eq. intros h.
  rewrite lookup_insert_Some, !handles_lookup, Em, Ef. setoid_rewrite lookup_insert_Some. split.
  - intros (Hne & gl & [[<- <-]|[Hg Hgl]] & ->); [by left|]. right. split; [done|]. split; [done|].
    exists gl. split; [done|]. by apply (Hh g).
  - intros [[<- <-]|(Hne & Hm & gl & Hgl & ->)]; [split; [done|]; exists fl; split; [by left|done]|].
    split; [done|]. exists gl. split; [by right|]. symmetry. by apply (Hh g).
Qed.
Lemma handles_delete s s' f :
  free_map_file s' = free_map_file s → files s' = delete f (files s) →
  (∀ g gl, files s !! g = Some gl → g ≠ f → handle_of s' gl = handle_of s gl) →
  handles s' = delete f (handles s).
Proof.
  intros Em Ef Hh. apply map_eq. intros g. apply option_eq. intros h.
  rewrite lookup_delete_Some, !handles_lookup, Em, Ef. setoid_rewrite lookup_delete_Some. split.
  - intros (Hne & gl & [Hg Hgl] & ->). split; [done|]. split; [done|]. exists gl. split; [done|]. by apply (Hh g).
  - intros (Hne & Hm & gl & Hgl & ->). split; [done|]. exists gl. split; [done|]. symmetry. by apply (Hh g).
Qed.
Lemma handles_same s s' :
  free_map_file s' = free_map_file s → files s' = files s →
  (∀ g gl, files s !! g = Some gl → handle_of s' gl = handle_of s gl) → handles s' = handles s.
Proof.
  intros Em Ef Hh. unfold handles. rewrite Em, Ef. apply map_fmap_ext. intros g gl Hg.
  apply lookup_delete_Some in Hg as [_ Hg]. by apply (Hh g).
Qed.

Lemma handle_of_sector s s' fl ip :
  finode fl = ip → sector <$> inodes s' !! ip = sector <$> inodes s !! ip → handle_of s' fl = handle_of s fl.
Proof. intros <- E. unfold handle_of. by rewrite E. Qed.

(** Replacing the inode at [ip] by one of the same sector. *)
Lemma sector_insert s s' ip i q :
  inodes s' = <[ip := i]> (inodes s) → (∀ j, inodes s !! ip = Some j → sector j = sector i) →
  is_Some (inodes s !! q) → sector <$> inodes s' !! q = sector <$> inodes s !! q.
Proof.
  intros Ei Hs [j Hj]. rewrite Ei. destruct (decide (q = ip)) as [->|]; [|by rewrite lookup_insert_ne].
  rewrite lookup_insert_eq, Hj. simpl. f_equal. symmetry. auto.
Qed.

Lemma file_inode s N T R f fl : fsys s N T R → files s !! f = Some fl → is_Some (inodes s !! finode fl).
Proof. intros Hy Hf. by apply (k_file _ _ _ _ (y_ok _ _ _ _ Hy) f fl). Qed.

(** ** Reading and moving *)

(** A change of one handle's position or denial, with no change of names or contents. *)
Lemma fsys_move s s' N T R f fl fl' i' :
  fsys s N T R → files s !! f = Some fl → f ≠ free_map_file s → finode fl' = finode fl → 0 ≤ pos fl' < 2 ^ 31 →
  kept T (set_files s (<[f := fl']> (files s))) s' → fs_ok s' T R no_extra →
  inodes s' = <[finode fl := i']> (inodes s) →
  (∀ i, inodes s !! finode fl = Some i → sector i = sector i' ∧ removed i = removed i') →
  fsys s' N T R ∧ store s' T = store s T ∧ handles s' = <[f := Handle (sector i') (pos fl') (deny_write fl')]> (handles s).
Proof.
  intros Hy Hf Hm Efl Hpos K Hk Ei Hi'. destruct (file_inode s N T R f fl Hy Hf) as [i Hi].
  destruct (Hi' i Hi) as [Hsec Hrem]. pose proof (kp_files _ _ _ K) as Ef. pose proof (kp_map_file _ _ _ K) as Em.
  simpl in Ef, Em.
  assert (Hq : ∀ q j, inodes s' !! q = Some j → ∃ j', inodes s !! q = Some j' ∧ sector j' = sector j ∧ removed j' = removed j).
  { intros q j Hj. rewrite Ei in Hj. apply lookup_insert_Some in Hj as [[<- <-]|[_ Hj]]; eauto. }
  split; [|split].
  - apply (fsys_step s s' N T R); try done.
    + apply (mem_ok_kept _ _ _ K). apply (y_mem _ _ _ _ Hy).
    + destruct (y_root _ _ _ _ Hy) as (dr & Hdr & HNr). exists dr. split; [done|].
      by rewrite (kp_data _ _ _ K ROOT_DIR_SECTOR).
    + intros q j Hj Hr. destruct (Hq q j Hj) as (j' & ? & ? & ?). exists j'. split_and!; congruence.
    + intros q j Hj Hr. destruct (decide (q = finode fl)) as [->|].
      * exists i'. rewrite Ei, lookup_insert_eq. assert (j = i) as -> by congruence. split_and!; congruence.
      * exists j. by rewrite Ei, lookup_insert_ne.
    + intros g gl j Hg Hgm Hj. rewrite Em in Hgm. destruct (Hq _ j Hj) as (j' & Hj' & <- & _).
      rewrite Ef in Hg. apply lookup_insert_Some in Hg as [[<- <-]|[_ Hg]]; [|by apply (y_file _ _ _ _ Hy g gl j')].
      rewrite Efl in Hj'. by apply (y_file _ _ _ _ Hy f fl j').
    + intros g gl Hg. rewrite Ef in Hg. apply lookup_insert_Some in Hg as [[<- <-]|[_ Hg]]; [done|].
      by apply (y_pos _ _ _ _ Hy g).
    + apply (kp_saved _ _ _ K); [apply (y_mem _ _ _ _ Hy)|apply (y_saved _ _ _ _ Hy)].
  - exact (kept_store _ _ _ K).
  - rewrite (handles_insert s s' f fl'); [|done..|].
    + unfold handle_of. by rewrite Efl, Ei, lookup_insert_eq.
    + intros g gl Hg _. apply (handle_of_sector s s' gl (finode gl)); [done|].
      apply (sector_insert s s' (finode fl) i'); [done| |by apply (file_inode s N T R g)].
      intros j Hj. by apply Hi'.
Qed.

(** ** Refinement, operation by operation *)

Definition refines (s : fs) (a : afs) (o : op) : Prop :=
  ∃ r s' a', exec s o = Ok (r, s') ∧ astep (op_full s o) a o r a' ∧ abstracts s' a'.

Section refinement.
Context (s : fs) (a : afs) (T : gmap Z inode_disk) (R : Z → Prop).
Context (Hy : fsys s (anames a) T R) (Est : astore a = store s T) (Eh : ahandles a = handles s).

Lemma handle_open_a f :
  is_Some (ahandles a !! f) →
  ∃ fl i, f ≠ free_map_file s ∧ files s !! f = Some fl ∧ inodes s !! finode fl = Some i
    ∧ T !! sector i = Some (idata i) ∧ sector i ≠ FREE_MAP_SECTOR ∧ sector i ≠ ROOT_DIR_SECTOR
    ∧ ahandles a !! f = Some (Handle (sector i) (pos fl) (deny_write fl))
    ∧ astore a !! sector i = Some (file_data s (idata i)) ∧ Zlength (file_data s (idata i)) = ilength (idata i)
    ∧ 0 ≤ pos fl < 2 ^ 31.
Proof.
  intros [h Hh]. rewrite Eh in Hh. destruct (handle_open s _ T R f h Hy Hh) as (fl & i & d & H1 & H2 & H3 & <- & H4 & H5 & H6 & -> & H7 & H8).
  exists fl, i. rewrite Eh, Est. do 9 (split; [done|]). by apply (y_pos _ _ _ _ Hy f).
Qed.

(** A new state with one handle moved. *)
Lemma abstracts_move s' f fl fl' i i' :
  files s !! f = Some fl → f ≠ free_map_file s → inodes s !! finode fl = Some i →
  finode fl' = finode fl → 0 ≤ pos fl' < 2 ^ 31 →
  kept T (set_files s (<[f := fl']> (files s))) s' → fs_ok s' T R no_extra →
  inodes s' = <[finode fl := i']> (inodes s) → sector i = sector i' → removed i = removed i' →
  abstracts s' (set_handle a f (Handle (sector i) (pos fl') (deny_write fl'))).
Proof.
  intros Hf Hm Hi Efl Hpos K Hk Ei Hs Hr.
  destruct (fsys_move s s' (anames a) T R f fl fl' i' Hy Hf Hm Efl Hpos K Hk Ei) as (Hy' & Es & Ehh).
  { intros j Hj. assert (j = i) as -> by congruence. done. }
  exists T, R. split; [done|]. simpl. rewrite Es, Ehh, Eh, Hs. done.
Qed.

Lemma refines_read f n : op_ok a (Read f n) → refines s a (Read f n).
Proof.
  intros [Hf Hn]. destruct (handle_open_a f Hf) as (fl & i & Hm & Hfl & Hi & HT & H0 & H1 & Hh & Hxs & Hlen & Hpos).
  destruct (file_read_ok s T R no_extra f fl i n (y_ok _ _ _ _ Hy) Hfl Hi Hpos Hn) as
    (m & s' & E & Hm1 & Hm2 & K & Hk & Ei & Hd & _).
  specialize (Hm2 (y_mem _ _ _ _ Hy)). unfold refines. simpl. rewrite E. cbn [mbind res_bind].
  eexists _, s', _. split; [done|]. split.
  - apply (do_read _ a f _ n _ m Hh Hxs). rewrite Hlen. exact Hm2.
  - simpl. apply (abstracts_move s' f fl (File (finode fl) (pos fl + m) (deny_write fl)) i i); try done.
    + destruct (k_disk _ _ _ _ (y_ok _ _ _ _ Hy) _ _ HT) as (_ & _ & (_ & O2 & _)).
      unfold avail, inode_length in Hm1. simpl. lia.
    + rewrite Ei, insert_id; done.
Qed.

Lemma refines_seek f p : op_ok a (Seek f p) → refines s a (Seek f p).
Proof.
  intros [Hf Hp]. destruct (handle_open_a f Hf) as (fl & i & Hm & Hfl & Hi & HT & H0 & H1 & Hh & Hxs & Hlen & Hpos).
  unfold refines. simpl. unfold file_seek. rewrite Hfl. cbn [from_opt mbind res_bind].
  rewrite (proj2 (Z.leb_le 0 p)) by lia. cbn [mbind res_bind]. eexists _, _, _. split; [done|].
  split; [by apply (do_seek _ a f _ p Hh)|]. simpl. rewrite (upd_file_eq s f _ fl) by done.
  apply (abstracts_move _ f fl (File (finode fl) p (deny_write fl)) i i); try done.
  - by apply fs_ok_move, Hfl; apply (y_ok _ _ _ _ Hy).
  - simpl. by rewrite insert_id.
Qed.

Lemma refines_tell f : op_ok a (Tell f) → refines s a (Tell f).
Proof.
  intros Hf. destruct (handle_open_a f Hf) as (fl & i & Hm & Hfl & Hi & HT & H0 & H1 & Hh & Hxs & Hlen & Hpos).
  unfold refines. simpl. unfold file_tell. rewrite Hfl. cbn [from_opt mbind res_bind]. eexists _, s, a. split; [done|].
  split; [by apply (do_tell _ a f _ Hh)|]. by exists T, R.
Qed.

Lemma refines_length f : op_ok a (Length f) → refines s a (Length f).
Proof.
  intros Hf. destruct (handle_open_a f Hf) as (fl & i & Hm & Hfl & Hi & HT & H0 & H1 & Hh & Hxs & Hlen & Hpos).
  unfold refines. simpl. unfold file_length. rewrite Hfl. cbn [from_opt mbind res_bind]. rewrite Hi.
  cbn [from_opt mbind res_bind]. unfold inode_length. rewrite <- Hlen. eexists _, s, a. split; [done|].
  split; [by apply (do_length _ a f _ _ Hh)|]. by exists T, R.
Qed.

Lemma refines_deny f : op_ok a (Deny f) → refines s a (Deny f).
Proof.
  intros Hf. destruct (handle_open_a f Hf) as (fl & i & Hm & Hfl & Hi & HT & H0 & H1 & Hh & Hxs & Hlen & Hpos).
  destruct (file_deny_write_ok s T R no_extra f fl i (y_ok _ _ _ _ Hy) Hfl Hi H0) as (s' & E & K & Hk & Ei).
  unfold refines. simpl. rewrite E. cbn [mbind res_bind]. eexists _, s', _. split; [done|].
  split; [by apply (do_deny _ a f _ Hh)|]. simpl.
  by apply (abstracts_move s' f fl (File (finode fl) (pos fl) true) i (denied i fl)).
Qed.
Lemma refines_allow f : op_ok a (Allow f) → refines s a (Allow f).
Proof.
  intros Hf. destruct (handle_open_a f Hf) as (fl & i & Hm & Hfl & Hi & HT & H0 & H1 & Hh & Hxs & Hlen & Hpos).
  destruct (file_allow_write_ok s T R no_extra f fl i (y_ok _ _ _ _ Hy) Hfl Hi H0) as (s' & E & K & Hk & Ei).
  unfold refines. simpl. rewrite E. cbn [mbind res_bind]. eexists _, s', _. split; [done|].
  split; [by apply (do_allow _ a f _ Hh)|]. simpl.
  by apply (abstracts_move s' f fl (File (finode fl) (pos fl) false) i (allowed i fl)).
Qed.

(** Handles of one file share its inode. *)
Lemma handle_same_inode g h i ip :
  inodes s !! ip = Some i → ahandles a !! g = Some h → hid h = sector i →
  ∃ gl, g ≠ free_map_file s ∧ files s !! g = Some gl ∧ finode gl = ip ∧ hdeny h = deny_write gl.
Proof.
  intros Hi Hg Hid. destruct (handle_open_a g (mk_is_Some _ _ Hg)) as (gl & j & Hm & Hgl & Hj & HT & _ & _ & Hh & _).
  rewrite Hg in Hh. injection Hh as ->. simpl in Hid. exists gl. do 2 (split; [done|]). split; [|done].
  by apply (k_uniq _ _ _ _ (y_ok _ _ _ _ Hy) (finode gl) ip j i).
Qed.

Lemma file_handle g gl i :
  files s !! g = Some gl → inodes s !! finode gl = Some i → sector i ≠ FREE_MAP_SECTOR →
  g ≠ free_map_file s ∧ ahandles a !! g = Some (Handle (sector i) (pos gl) (deny_write gl)).
Proof.
  intros Hg Hi H0. assert (Hm : g ≠ free_map_file s).
  { intros ->. destruct (k_mapf _ _ _ _ (y_ok _ _ _ _ Hy)) as (im & fl & [M1 M2 _ _ _] & Hs & _). congruence. }
  split; [done|]. rewrite Eh. apply handles_lookup. split; [done|]. exists gl. split; [done|].
  unfold handle_of. by rewrite Hi.
Qed.

Lemma denied_iff i ip :
  inodes s !! ip = Some i → sector i ≠ FREE_MAP_SECTOR → denied_id a (sector i) ↔ deny_write_cnt i ≠ 0.
Proof.
  intros Hi H0. destruct (k_node _ _ _ _ (y_ok _ _ _ _ Hy) ip i Hi) as (_ & _ & _ & _ & _ & Hd). split.
  - intros (g & h & Hg & Hid & Hden). destruct (handle_same_inode g h i ip Hi Hg Hid) as (gl & _ & Hgl & Hfi & Hdd).
    rewrite Hd. destruct (refs_delete s g gl ip Hgl) as [_ E]. rewrite denying_eq, <- Hdd, Hden in E by done. simpl in E.
    pose proof (denies_le (set_files s (delete g (files s))) ip). lia.
  - intros Hne. rewrite Hd in Hne. unfold denies in Hne.
    destruct (map_choose (filter (λ p : Z * file, finode p.2 = ip ∧ deny_write p.2 = true) (files s))) as (g & gl & Hg).
    { intros E. rewrite E, map_size_empty in Hne. done. }
    apply map_lookup_filter_Some in Hg as [Hg [Hfi Hden]]. simpl in Hfi, Hden. rewrite <- Hfi in Hi.
    destruct (file_handle g gl i Hg Hi H0) as [_ Hh]. eexists g, _. split; [exact Hh|]. done.
Qed.

Lemma refines_write f buf n : op_ok a (Write f buf n) → refines s a (Write f buf n).
Proof.
  intros (Hf & Hn & Hb).
  destruct (handle_open_a f Hf) as (fl & i & Hm & Hfl & Hi & HT & H0 & H1 & Hh & Hxs & Hlen & Hpos).
  destruct (file_write_ok s T R no_extra f fl i buf n (y_ok _ _ _ _ Hy) Hfl Hi Hpos Hn Hb) as
    (m & s' & E & Hm1 & Hm2 & Hden & Hdat & Hoth & Hs & Hk).
  specialize (Hm2 (y_mem _ _ _ _ Hy)). unfold refines. simpl. rewrite E. cbn [mbind res_bind].
  eexists _, s', _. split; [done|]. split.
  - apply (do_write _ a f _ buf n _ m Hh Hxs); simpl.
    + intros Hd. apply Hden. by apply (denied_iff i (finode fl)).
    + intros Hd. rewrite (denied_iff i (finode fl)) in Hd by done. rewrite Hm2, Hlen.
      destruct (Z.eqb_spec (deny_write_cnt i) 0); [done|tauto].
  - pose proof (sd_inodes _ _ Hs) as Ei. pose proof (sd_files _ _ Hs) as Ef. pose proof (sd_map_file _ _ Hs) as Em.
    simpl in Ei, Ef, Em. set (fl' := File (finode fl) (pos fl + m) (deny_write fl)) in *.
    exists T, R. simpl. split; [|split].
    + apply (fsys_step s s' _ T R); try done; rewrite ?Ei, ?Ef, ?Em; eauto.
      * apply (mem_ok_same _ _ Hs). apply (y_mem _ _ _ _ Hy).
      * destruct (y_root _ _ _ _ Hy) as (dr & Hdr & HNr). exists dr. split; [done|].
        by rewrite (Hoth ROOT_DIR_SECTOR).
      * intros g gl j [[<- <-]|[_ Hg]]%lookup_insert_Some Hgm Hj; [by apply (y_file _ _ _ _ Hy f fl j)|].
        by apply (y_file _ _ _ _ Hy g gl j).
      * intros g gl [[<- <-]|[_ Hg]]%lookup_insert_Some; [|by apply (y_pos _ _ _ _ Hy g)].
        destruct (k_disk _ _ _ _ (y_ok _ _ _ _ Hy) _ _ HT) as (_ & _ & (_ & O2 & _)).
        unfold avail, inode_length in Hm1. simpl. lia.
      * intros d0 Hd0. rewrite (Hoth _ d0 Hd0 (not_eq_sym H0)), (sd_map _ _ Hs). by apply (y_saved _ _ _ _ Hy).
    + rewrite Est, <- Hdat. rewrite <- (insert_id T (sector i) (idata i)) at 2 by done. symmetry.
      apply store_insert; [done|done|]. intros sec d Hd _ _ Hne. by apply (Hoth sec).
    + rewrite Eh, (handles_insert s s' f fl'); [|done..|].
      * unfold handle_of. change (finode fl') with (finode fl). by rewrite Ei, Hi.
      * intros g gl Hg _. unfold handle_of. by rewrite Ei.
Qed.

(** ** Opening, closing, names *)

Lemma handles_new s' f ip i :
  files s !! f = None → files s' = <[f := File ip 0 false]> (files s) → free_map_file s' = free_map_file s →
  inodes s' = <[ip := i]> (inodes s) → reopened (inodes s !! ip) i →
  ahandles a !! f = None ∧ <[f := Handle (sector i) 0 false]> (ahandles a) = handles s'.
Proof.
  intros Hf Ef Em Ei Hre. rewrite Eh.
  assert (Hmf : f ≠ free_map_file s).
  { intros ->. destruct (k_mapf _ _ _ _ (y_ok _ _ _ _ Hy)) as (im & gl & [M1 _ _ _ _] & _). congruence. }
  split; [unfold handles; by rewrite lookup_fmap, lookup_delete_ne, Hf|].
  rewrite (handles_insert s s' f (File ip 0 false)); [|done..|].
  - unfold handle_of. simpl. by rewrite Ei, lookup_insert_eq.
  - intros g gl Hg _. apply (handle_of_sector s s' gl (finode gl)); [done|].
    apply (sector_insert s s' ip i); [done| |by apply (file_inode s (anames a) T R g)].
    intros j Hj. rewrite Hj in Hre. simpl in Hre. by subst i.
Qed.

Lemma refines_open name : refines s a (Open name).
Proof.
  destruct (filesys_open_ok s (anames a) T R name Hy) as (f & s' & E & Hy' & Es & Em & Hcase).
  unfold refines. simpl. rewrite E. cbn [mbind res_bind]. destruct (anames a !! name) as [sec|] eqn:HN.
  - destruct Hcase as (Hf & Hfn & ip & i & Ef & Ei & Hsec & Hre).
    destruct (y_name _ _ _ _ Hy name sec HN) as (_ & Hn0 & _).
    destruct (handles_new s' f ip i Hfn Ef Em Ei Hre) as (Hh & Hh').
    eexists _, s', _. split; [done|]. split; [by apply (do_open _ a name sec f HN)|].
    exists T, R. simpl. split; [done|]. split; [by rewrite Est|]. by rewrite <- Hsec.
  - destruct Hcase as (-> & Ef & Ei). eexists _, s', a. split; [done|]. split; [by apply no_open|].
    exists T, R. split; [done|]. split; [by rewrite Est|]. rewrite Eh. symmetry. apply handles_same; [done|done|].
    intros g gl _. unfold handle_of. by rewrite Ei.
Qed.

Lemma refines_reopen f : op_ok a (Reopen f) → refines s a (Reopen f).
Proof.
  intros Hf. destruct (handle_open_a f Hf) as (fl & i & Hm & Hfl & Hi & HT & H0 & H1 & Hh & Hxs & Hlen & Hpos).
  unfold refines. simpl. unfold file_reopen. rewrite Hfl. cbn [from_opt mbind res_bind].
  destruct (inode_reopen_ok s T R no_extra (finode fl) i (y_ok _ _ _ _ Hy) Hi) as [Hk1 (i1 & Ei1 & Hs1 & _ & Hc)].
  rewrite Hi in Hc. set (s1 := inode_reopen s (finode fl)) in *.
  assert (K1 : kept T s s1) by (by split).
  destruct (file_open_ok s1 T R _ (finode fl) i1 Hk1) as (f' & s' & E & Hf' & Hcase).
  { rewrite Ei1. apply lookup_insert_eq. } { unfold bump. by rewrite decide_True. }
  specialize (Hf' (y_mem _ _ _ _ Hy)). rewrite decide_False in Hcase by done. destruct Hcase as (Hfn & K & Hk & Ei).
  rewrite E. cbn [mbind res_bind]. rewrite Ei1 in Ei. change (files s1) with (files s) in *.
  assert (K' : kept T (set_files s (<[f' := File (finode fl) 0 false]> (files s))) s').
  { transitivity (set_files s1 (<[f' := File (finode fl) 0 false]> (files s))); [by split|done]. }
  pose proof (kp_files _ _ _ K') as Ef. pose proof (kp_map_file _ _ _ K') as Em. simpl in Ef, Em.
  assert (Hre : reopened (inodes s !! finode fl) i1) by (by rewrite Hi).
  destruct (handles_new s' f' (finode fl) i1 Hfn Ef Em Ei Hre) as (Hh' & Hh2). rewrite Hs1 in Hh2.
  eexists _, s', _. split; [done|]. split; [by apply (do_reopen _ a f _ f' Hh)|]. exists T, R. simpl.
  split; [|split; [rewrite Est; symmetry; exact (kept_store _ _ _ K')|done]].
  apply (fsys_new_file s s' _ T R f' (finode fl) i1); try done; [|by rewrite Hs1..].
  apply (fs_ok_extra_ext _ _ _ _ _ Hk). intros q. unfold bump, no_extra. case_decide; lia.
Qed.

Lemma handles_same_sectors s' :
  files s' = files s → free_map_file s' = free_map_file s →
  (∀ q, is_Some (inodes s !! q) → sector <$> inodes s' !! q = sector <$> inodes s !! q) → ahandles a = handles s'.
Proof.
  intros Ef Em Hs. rewrite Eh. symmetry. apply handles_same; [done|done|]. intros g gl Hg.
  apply (handle_of_sector s s' gl (finode gl)); [done|]. by apply Hs, (file_inode s (anames a) T R g).
Qed.

Lemma refines_create name sz junk : op_ok a (Create name sz junk) → refines s a (Create name sz junk).
Proof.
  intros (Hsz & Hz & Hj). destruct (filesys_create_ok s (anames a) T R name sz junk Hy Hsz Hz Hj) as
    (ok & s' & E & Ei & Ef & Em & Hcase).
  unfold refines. simpl. rewrite E. cbn [mbind res_bind].
  assert (Hh : ahandles a = handles s') by (apply handles_same_sectors; [done|done|]; by rewrite Ei).
  destruct ok.
  - destruct Hcase as (sec & d & HT & HN & Hnil & Hlen & Hy' & Es). eexists _, s', _. split; [done|]. split.
    + apply (do_create _ a name sz junk sec); try done. rewrite Est. apply eq_None_not_Some. intros [xs Hx].
      apply store_lookup in Hx as (_ & _ & d' & Hd' & _). congruence.
    + exists (<[sec := d]> T), R. simpl. by rewrite Est, Es.
  - destruct Hcase as (Hwhy & R' & _ & Hy' & Es). eexists _, s', a. split; [done|]. split.
    + apply no_create. destruct Hwhy as [?|[?|[?|[(d & Hd & Hfull)|?]]]]; [by left|by right; left|by right; right; left|..].
      * do 3 right. right. by exists (anames a), T, R, d.
      * do 3 right. by left.
    + exists T, R'. by rewrite Est, Es.
Qed.

Lemma referred_iff sec :
  sec ≠ FREE_MAP_SECTOR → sec ≠ ROOT_DIR_SECTOR → referred a sec ↔ is_open s sec.
Proof.
  intros H0 H1. split.
  - intros (f & h & Hh & <-). destruct (handle_open_a f (mk_is_Some _ _ Hh)) as (fl & i & _ & _ & Hi & _ & _ & _ & Hh' & _).
    rewrite Hh in Hh'. injection Hh' as ->. by exists (finode fl), i.
  - intros (q & i & Hi & <-). destruct (k_node _ _ _ _ (y_ok _ _ _ _ Hy) q i Hi) as (_ & _ & _ & Hc & Hp & _).
    unfold no_extra, refs in Hc.
    destruct (map_choose (filter (λ p : Z * file, finode p.2 = q) (files s))) as (g & gl & Hg).
    { intros E. rewrite E, map_size_empty in Hc. lia. }
    apply map_lookup_filter_Some in Hg as [Hg Hfi]. simpl in Hfi. rewrite <- Hfi in Hi.
    destruct (file_handle g gl i Hg Hi H0) as [_ Hh]. eexists g, _. split; [exact Hh|done].
Qed.

Lemma refines_remove name : refines s a (Remove name).
Proof.
  destruct (filesys_remove_ok s (anames a) T R name Hy) as (ok & s' & E & Ef & Em & Hcase).
  unfold refines. simpl. rewrite E. cbn [mbind res_bind]. destruct (anames a !! name) as [sec|] eqn:HN.
  - destruct Hcase as (-> & T' & Hy' & Hun & Hopen & Hclosed). destruct (y_name _ _ _ _ Hy name sec HN) as (_ & H0 & H1).
    eexists _, s', _. split; [done|]. split.
    + apply (do_remove _ a name sec (store s' T') HN); rewrite referred_iff, Est by done; done.
    + exists T', R. simpl. split; [done|]. split; [done|]. apply handles_same_sectors; [done|done|].
      intros q Hq. destruct Hun as [(_ & _ & Ei)|(q' & j & Hj & Hs & _ & Ei)]; [by rewrite Ei|].
      apply (sector_insert s s' q' (set_removed j)); [done| |done]. intros j' Hj'. by simplify_eq.
  - destruct Hcase as (-> & Hy' & Es & Ei). eexists _, s', a. split; [done|]. split; [by apply no_remove|].
    exists T, R. split; [done|]. split; [by rewrite Est|]. apply handles_same_sectors; [done|done|]. by rewrite Ei.
Qed.

(** How many files share an inode. *)
Lemma one_reference f fl i :
  files s !! f = Some fl → inodes s !! finode fl = Some i →
  open_cnt i = 1 ↔ ∀ g gl, files s !! g = Some gl → finode gl = finode fl → g = f.
Proof.
  intros Hf Hi. destruct (k_node _ _ _ _ (y_ok _ _ _ _ Hy) _ i Hi) as (_ & _ & _ & Hc & Hp & _). unfold no_extra in Hc.
  destruct (refs_delete s f fl (finode fl) Hf) as [E _]. rewrite points_eq in E by done. split.
  - intros H1 g gl Hg Hfi. destruct (decide (g = f)) as [|Hne]; [done|]. exfalso.
    destruct (refs_delete (set_files s (delete f (files s))) g gl (finode fl)) as [E2 _].
    { simpl. by rewrite lookup_delete_ne. }
    rewrite points_eq in E2 by done. simpl in E2.
    assert (0 ≤ refs (set_files (set_files s (delete f (files s))) (delete g (delete f (files s)))) (finode fl))
      by (unfold refs; lia). lia.
  - intros Hall. assert (Hz : refs (set_files s (delete f (files s))) (finode fl) = 0); [|lia].
    apply refs_zero. simpl. intros g gl [Hne Hg]%lookup_delete_Some Hfi. by apply Hne; symmetry; apply (Hall g gl).
Qed.

Lemma refines_close f : op_ok a (Close f) → refines s a (Close f).
Proof.
  intros Hf. destruct (handle_open_a f Hf) as (fl & i & Hm & Hfl & Hi & HT & H0 & H1 & Hh & Hxs & Hlen & Hpos).
  destruct (file_close_fsys s (anames a) T R f fl i Hy Hfl Hm Hi) as (s' & E & Hy' & Ef & Em & Ei & Es).
  pose proof (one_reference f fl i Hfl Hi) as Hone.
  unfold refines. simpl. rewrite E. cbn [mbind res_bind]. eexists _, s', _. split; [done|]. split.
  - apply (do_close _ a f _ (store s' (closed_table T i)) Hh); simpl; rewrite Est, Es.
    + intros Hor. rewrite decide_False; [done|]. intros [Hc Hr]. destruct Hor as [(g & h & Hg & Hid)|[nm Hnm]].
      * simpl in Hg. apply lookup_delete_Some in Hg as [Hne Hg].
        destruct (handle_same_inode g h i (finode fl) Hi Hg Hid) as (gl & _ & Hgl & Hfi & _).
        apply Hne. symmetry. by apply (proj1 Hone Hc g gl).
      * by apply (y_removed _ _ _ _ Hy (finode fl) i Hi Hr nm).
    + intros Hnr Hnn. rewrite decide_True; [done|]. split.
      * apply Hone. intros g gl Hg Hfi. destruct (decide (g = f)) as [|Hne]; [done|]. exfalso. apply Hnr.
        rewrite <- Hfi in Hi. destruct (file_handle g gl i Hg Hi H0) as [_ Hgh]. eexists g, _. simpl.
        rewrite lookup_delete_ne by done. split; [exact Hgh|done].
      * destruct (y_all _ _ _ _ Hy (sector i) (mk_is_Some _ _ HT) H0 H1) as [[nm Hnm]|(q & j & Hj & Hs & Hr)].
        { destruct Hnn. by exists nm. }
        assert (q = finode fl) as -> by (by apply (k_uniq _ _ _ _ (y_ok _ _ _ _ Hy) q (finode fl) j i)).
        congruence.
  - exists (closed_table T i), R. simpl. split; [done|]. split; [done|]. rewrite Eh. symmetry.
    apply (handles_delete s s' f); [done|done|]. intros g gl Hg Hne.
    apply (handle_of_sector s s' gl (finode gl)); [done|]. rewrite Ei. unfold closed. simpl (open_cnt _).
    destruct (decide (open_cnt i = 1)) as [Hc|Hc].
    + rewrite lookup_delete_ne; [done|]. intros Hfi. by apply Hne, (proj1 Hone Hc g gl).
    + destruct (decide (finode gl = finode fl)) as [->|]; [by rewrite lookup_insert_eq, Hi|by rewrite lookup_insert_ne].
Qed.

End refinement.

End FsSpec.
