(* ===== verification/FsBoot.v ===== *)
(** * Formatting, mounting and shutting down

    [filesys_init] with and without a format, and [filesys_done]: a formatted device
    holds an empty file system, and what is on the device survives a shutdown. *)

From S2P Require Import Prelude Bitmap Disk Inode Directory FsInv FileInv DirInv Filesys FsSpec.

Module FsBoot.
Import Bitmap Disk Inode Directory FsInv FileInv DirInv Filesys FsSpec.

(** ** What is on the device *)

(** The part of the invariant that does not depend on memory: files [T], reserved
    sectors [R] and the free map [b]. *)
Record layout (s : fs) (T : gmap Z inode_disk) (R : Z → Prop) (b : bitmap) : Prop := {
  od_dev : block_ok (fs_device s);
  od_size : size (fs_device s) < 2 ^ 31;
  od_map : wf b;
  od_cnt : bit_cnt b = size (fs_device s);
  od_disk sec d : T !! sec = Some d →
    0 ≤ sec < size (fs_device s) ∧ decode (sector_at s sec) = d ∧ disk_ok (fs_device s) d;
  od_used x : 0 ≤ x < size (fs_device s) → (bit b x = true ↔ R x ∨ ∃ sec d, T !! sec = Some d ∧ owns sec d x);
  od_self sec d : T !! sec = Some d → ¬ (start d ≤ sec < start d + sectors d);
  od_disj sec d sec' d' x :
    T !! sec = Some d → T !! sec' = Some d' → owns sec d x → owns sec' d' x → sec = sec';
  od_res x : R x → 0 ≤ x < size (fs_device s) ∧ ∀ sec d, T !! sec = Some d → ¬ owns sec d x
}.
(** The map is on the device as well. *)
Record on_disk (s : fs) (T : gmap Z inode_disk) (R : Z → Prop) (b : bitmap) : Prop := {
  od_layout :> layout s T R b;
  od_file : ∃ d b0, T !! FREE_MAP_SECTOR = Some d ∧ ilength d = byte_cnt (bit_cnt b)
    ∧ wf b0 ∧ same_bits b0 b ∧ file_data s d = words_bytes (bits b0)
}.

Lemma fs_ok_on_disk s T R X : fs_ok s T R X → saved T s → on_disk s T R (free_map s).
Proof.
  intros [H1 H2 H3 H4 H5 H6 H7 H8 H9 H10 H11 H12 H13 H14 H15 H16] Hsv. split; [done|].
  destruct H16 as (i & fl & [M1 M2 M3 M4 M5] & Hs & _). destruct (H10 _ _ M2) as (_ & _ & HT & _).
  rewrite Hs in HT. destruct (Hsv _ HT) as (b0 & ? & ? & ?). by exists (idata i), b0.
Qed.

Lemma on_disk_same s s' T R b :
  on_disk s T R b → size (fs_device s') = size (fs_device s) → type (fs_device s') = type (fs_device s) →
  data (fs_device s') = data (fs_device s) → on_disk s' T R b.
Proof.
  intros [[(B1 & B2 & B3) H2 H3 H4 H5 H6 H7 H8 H9] H10] Es Et Ed.
  assert (Hf : ∀ d, file_data s' d = file_data s d) by (intros; unfold file_data; by rewrite Ed).
  split; [split; unfold block_ok, disk_ok, sector_at; rewrite ?Es, ?Et, ?Ed; done|].
  destruct H10 as (d & b0 & ? & ? & ? & ? & E). exists d, b0. by rewrite Hf.
Qed.

(** ** Opening the free map *)

(** The file system just after it has been mounted. *)
Definition mounted (s : fs) (d : inode_disk) (ip : Z) : Prop :=
  inodes s = {[ip := Node FREE_MAP_SECTOR 1 false 0 d]} ∧ open_inodes s = [ip]
  ∧ files s = {[free_map_file s := File ip 0 false]}
  ∧ addr_ok s ip ∧ addr_ok s (free_map_file s).

Lemma mounted_refs s d ip q :
  mounted s d ip → refs s q = (if decide (q = ip) then 1 else 0) ∧ denies s q = 0.
Proof.
  intros (_ & _ & Ef & _). unfold refs, denies. rewrite Ef. destruct (decide (q = ip)) as [->|Hq].
  - rewrite map_filter_singleton_True by done. rewrite map_filter_singleton_False by naive_solver.
    by rewrite map_size_singleton, map_size_empty.
  - rewrite !map_filter_singleton_False by naive_solver. by rewrite map_size_empty.
Qed.

Lemma mounted_fs_ok s T R d ip :
  mounted s d ip → layout s T R (free_map s) → T !! FREE_MAP_SECTOR = Some d →
  ilength d = byte_cnt (bit_cnt (free_map s)) → fs_ok s T R no_extra.
Proof.
  intros Hm [H1 H2 H3 H4 H5 H6 H7 H8 H9] HT Hl. pose proof Hm as (Ei & Eo & Ef & Ha1 & Ha2).
  split; try done; rewrite ?Ei, ?Eo, ?Ef.
  - intros q i [<- <-]%lookup_singleton_Some. destruct (mounted_refs s d ip ip Hm) as [-> ->].
    rewrite decide_True by done. simpl. split_and!; try done. by left.
  - intros q ->%list_elem_of_singleton. by rewrite lookup_singleton_eq.
  - apply NoDup_singleton.
  - intros p q i i' [<- <-]%lookup_singleton_Some [<- <-]%lookup_singleton_Some. done.
  - intros f fl [<- <-]%lookup_singleton_Some. simpl. by rewrite lookup_singleton_eq.
  - exists (Node FREE_MAP_SECTOR 1 false 0 d), (File ip 0 false). split; [|done].
    destruct (H5 _ _ HT) as (_ & _ & Hdk). split; rewrite ?Ef, ?Ei; try done; by rewrite lookup_singleton_eq.
Qed.

Lemma inode_open_mount s d :
  block_ok (fs_device s) → 0 < size (fs_device s) → decode (sector_at s FREE_MAP_SECTOR) = d →
  open_inodes s = [] → mem_ok s →
  ∃ ip s', inode_open s FREE_MAP_SECTOR = Ok (ip, s') ∧ ip ≠ 0
    ∧ inodes s' = <[ip := Node FREE_MAP_SECTOR 1 false 0 d]> (inodes s) ∧ open_inodes s' = [ip]
    ∧ ip = 16 * Z.of_nat (calls s') ∧ calls s' = S (calls s)
    ∧ files s' = files s ∧ free_map s' = free_map s ∧ supply s' = supply s
    ∧ size (fs_device s') = size (fs_device s) ∧ type (fs_device s') = type (fs_device s)
    ∧ data (fs_device s') = data (fs_device s).
Proof.
  intros Hb Hsz Hdec Hop Hm. unfold inode_open, malloc. rewrite Hop. simpl find_open. cbv zeta beta iota.
  rewrite Hm by lia. set (ip := 16 * (Z.of_nat (calls s) + 1)).
  rewrite (proj2 (Z.eqb_neq ip 0)) by (unfold ip; lia).
  rewrite block_read_ok by (done || unfold FREE_MAP_SECTOR; simpl; lia). cbn [mbind res_bind fs_device].
  change (slice (512 * FREE_MAP_SECTOR) 512 (data (fs_device s))) with (sector_at s FREE_MAP_SECTOR). rewrite Hdec.
  eexists ip, _. split; [done|]. simpl. split; [unfold ip; lia|]. do 2 (split; [done|]).
  split; [unfold ip; lia|]. done.
Qed.

Lemma free_map_open_ok s T R b :
  on_disk s T R b → inodes s = ∅ → open_inodes s = [] → files s = ∅ → wf (free_map s) →
  bit_cnt (free_map s) = size (fs_device s) → mem_ok s →
  ∃ s' ip d, free_map_open s = Ok s' ∧ mounted s' d ip ∧ T !! FREE_MAP_SECTOR = Some d
    ∧ fs_ok s' T R no_extra ∧ saved T s' ∧ mem_ok s'
    ∧ data (fs_device s') = data (fs_device s).
Proof.
  intros Hod Ei Eo Ef Hwf Hcnt Hm. pose proof (od_file _ _ _ _ Hod) as (d & b0 & HT & Hlen & Hwf0 & Hb0 & Hdat).
  destruct (od_disk _ _ _ _ Hod _ _ HT) as (Hsr & Hdec & _).
  destruct (inode_open_mount s d (od_dev _ _ _ _ Hod) ltac:(lia) Hdec Eo Hm) as
    (ip & s1 & E1 & Hip & Ei1 & Eo1 & Eip & Ec1 & Ef1 & Em1 & Es1 & Ez1 & Et1 & Ed1).
  unfold free_map_open. rewrite E1. cbn [mbind res_bind].
  assert (Hm1 : mem_ok s1) by (intros n Hn; rewrite Es1; apply Hm; lia).
  unfold file_open, malloc. cbv zeta beta iota. rewrite Hm1 by lia. set (f := 16 * (Z.of_nat (calls s1) + 1)).
  rewrite (proj2 (Z.eqb_neq ip 0)), (proj2 (Z.eqb_neq f 0)) by (unfold f; lia). cbn [negb andb mbind res_bind].
  rewrite (proj2 (Z.eqb_neq f 0)) by (unfold f; lia).
  set (s2 := set_free_map_file _ f).
  assert (Hod2 : on_disk s2 T R b) by (by apply (on_disk_same s)).
  assert (Hm2 : mem_ok s2) by (intros n Hn; simpl in *; rewrite Es1; apply Hm; lia).
  destruct (od_disk _ _ _ _ Hod2 _ _ HT) as (_ & _ & Hdk).
  destruct (bitmap_read_spec s2 b0 (free_map s2) f (File ip 0 false) (Node FREE_MAP_SECTOR 1 false 0 d)) as
    (b' & s3 & -> & Hwf' & Hbc' & Hs3 & Hd3 & Hbits); try done.
  { apply (od_dev _ _ _ _ Hod2). } { simpl. by rewrite Em1. }
  { simpl. rewrite Em1, Hcnt, (proj1 Hb0). symmetry. apply (od_cnt _ _ _ _ Hod). }
  { apply lookup_insert_eq. } { simpl. rewrite Ei1. apply lookup_insert_eq. }
  { unfold inode_length. simpl. rewrite Hlen. f_equal. symmetry. apply (proj1 Hb0). }
  { rewrite <- Hdat. unfold content, file_data. simpl. by rewrite Ed1. }
  cbn [mbind res_bind]. exists (set_free_map s3 b'), ip, d. split; [done|].
  destruct Hs3 as [G1 G2 G3 G4 G5 G6 G7 G8 G9]. simpl in G1, G2, G3, G4, G5, G6, G7, G8, G9, Hd3.
  assert (Hsame : same_bits b' b).
  { destruct Hb0 as [B1 B2]. split; [congruence|]. intros j Hj. rewrite Hbits, B2 by lia. done. }
  assert (Hmt : mounted (set_free_map s3 b') d ip).
  { unfold mounted, addr_ok. simpl. rewrite G1, Ei1, Ei, G2, Eo1, G3, G5, Ef1, Ef. unfold f.
    split_and!; try done; lia. }
  assert (Hod3 : on_disk (set_free_map s3 b') T R b').
  { apply (on_disk_same s (set_free_map s3 b')) in Hod; [|simpl; congruence..]. destruct Hsame as [B1 B2].
    destruct Hod as [[D1 D2 D3 D4 D5 D6 D7 D8 D9] D10]. split; [split; try done; [congruence|]|].
    - intros x Hx. rewrite B2 by (simpl in Hx; rewrite B1, D4; done). auto.
    - rewrite B1. destruct Hb0 as [C1 C2]. exists d, b0. split; [done|]. split; [done|]. split; [done|].
      split; [|unfold file_data; simpl; by rewrite Hd3, Ed1].
      split; [congruence|]. intros j Hj. rewrite B2, C2 by lia. done. }
  split; [done|]. split; [done|]. split; [|split; [|split]].
  - apply (mounted_fs_ok _ T R d ip Hmt (od_layout _ _ _ _ Hod3) HT). rewrite Hlen. f_equal. symmetry. apply Hsame.
  - intros d' Hd'. assert (d' = d) as -> by congruence.
    destruct (od_file _ _ _ _ Hod3) as (d' & b1 & HT' & _ & ? & ? & ?). assert (d' = d) as -> by congruence. by exists b1.
  - intros n Hn. simpl in *. rewrite G6, Es1. apply Hm. lia.
  - simpl. congruence.
Qed.

Lemma mounted_fsys s N T R d ip :
  mounted s d ip → fs_ok s T R no_extra → saved T s → mem_ok s →
  (∃ dr, T !! ROOT_DIR_SECTOR = Some dr ∧ dir_ok (file_data s dr) N) →
  (∀ name sec, N !! name = Some sec → is_Some (T !! sec) ∧ sec ≠ FREE_MAP_SECTOR ∧ sec ≠ ROOT_DIR_SECTOR) →
  (∀ name name' sec, N !! name = Some sec → N !! name' = Some sec → name = name') →
  (∀ sec, is_Some (T !! sec) → sec ≠ FREE_MAP_SECTOR → sec ≠ ROOT_DIR_SECTOR → ∃ name, N !! name = Some sec) →
  fsys s N T R ∧ handles s = ∅.
Proof.
  intros (Ei & Eo & Ef & _) Hk Hsv Hm Hroot Hname Hinj Hall. split; [split; try done; rewrite ?Ei, ?Ef|].
  - intros q i [<- <-]%lookup_singleton_Some. done.
  - intros sec HT H0 H1. left. by apply Hall.
  - intros f fl i [<- <-]%lookup_singleton_Some. done.
  - intros f fl [<- <-]%lookup_singleton_Some. simpl. lia.
  - unfold handles. rewrite Ef, delete_singleton_eq. apply fmap_empty.
Qed.

(** ** Shutting down *)

(** [file_close] of the free map's own file only forgets it. *)
Lemma close_map_file s f fl i :
  files s !! f = Some fl → f ≠ 0 → deny_write fl = false → inodes s !! finode fl = Some i → finode fl ≠ 0 →
  removed i = false →
  file_close s f = Ok (set_files (set_inodes s (closed s (finode fl) i)
    (if decide (open_cnt i = 1) then filter (λ q, q ≠ finode fl) (open_inodes s) else open_inodes s))
    (delete f (files s))).
Proof.
  intros Hf Hf0 Hd Hi Hi0 Hr. unfold file_close. rewrite (proj2 (Z.eqb_neq f 0)) by done.
  unfold file_allow_write. rewrite Hf. cbn [from_opt mbind res_bind]. rewrite Hd. cbn [mbind res_bind]. rewrite Hf.
  cbn [from_opt mbind res_bind]. unfold inode_close. rewrite (proj2 (Z.eqb_neq _ 0)) by done. rewrite Hi.
  cbn [from_opt mbind res_bind open_cnt removed]. rewrite Hr. unfold closed.
  destruct (Z.eqb_spec (open_cnt i - 1) 0); [rewrite !decide_True by lia|rewrite !decide_False by lia];
    cbn [mbind res_bind]; rewrite ?Hr; done.
Qed.

Lemma filesys_done_ok s N T R :
  fsys s N T R →
  ∃ s', filesys_done s = Ok s' ∧ on_disk s' T R (free_map s')
    ∧ fs_device s' = fs_device s.
Proof.
  intros Hy. pose proof (y_ok _ _ _ _ Hy) as Hk. pose proof (fs_ok_on_disk s T R _ Hk (y_saved _ _ _ _ Hy)) as Hod.
  destruct (k_mapf _ _ _ _ Hk) as (i & fl & [M1 M2 M3 M4 M5] & Hs & Hr).
  destruct (k_file _ _ _ _ Hk _ _ M1) as [Ha _]. destruct (k_node _ _ _ _ Hk _ _ M2) as (Hb & _ & _ & _ & _ & Hd).
  assert (Hdw : deny_write fl = false).
  { destruct (deny_write fl) eqn:E; [|done]. destruct (refs_delete s _ fl (finode fl) M1) as [_ E2].
    rewrite denying_eq, E in E2 by done. simpl in E2.
    pose proof (denies_le (set_files s (delete (free_map_file s) (files s))) (finode fl)). lia. }
  unfold addr_ok in Ha, Hb. unfold filesys_done, free_map_close.
  rewrite (close_map_file s _ fl i) by (done || lia). eexists. split; [done|]. split; [|done].
  by apply (on_disk_same s).
Qed.

(** ** Mounting *)

(** Names that files on the device have. *)
Lemma on_disk_named (s : fs) (T : gmap Z inode_disk) (R : Z → Prop) (b : bitmap) (N : gmap (list Z) Z) :
  on_disk s T R b →
  (∀ name sec, N !! name = Some sec → is_Some (T !! sec)) → is_Some (T !! ROOT_DIR_SECTOR) →
  let keep sec := sec = FREE_MAP_SECTOR ∨ sec = ROOT_DIR_SECTOR ∨ sec ∈ (map_img (SA := gset Z) N) in
  ∃ T' R', on_disk s T' R' b ∧ ∀ sec d, T' !! sec = Some d ↔ T !! sec = Some d ∧ keep sec.
Proof.
  intros [[H1 H2 H3 H4 H5 H6 H7 H8 H9] H10] HN Hroot keep.
  assert (Hdec : ∀ sec, Decision (keep sec)) by (intros; unfold keep; apply _).
  set (T' := filter (λ p : Z * inode_disk, keep p.1) T).
  assert (HT' : ∀ sec d, T' !! sec = Some d ↔ T !! sec = Some d ∧ keep sec).
  { intros sec d. unfold T'. by rewrite map_lookup_filter_Some. }
  exists T', (λ x, R x ∨ ∃ sec d, T !! sec = Some d ∧ ¬ keep sec ∧ owns sec d x). split; [|done].
  split; [split; try done|].
  - intros sec d [Hd _]%HT'. auto.
  - intros x Hx. rewrite (H6 x Hx). split.
    + intros [?|(sec & d & Hd & Ho)]; [by left; left|]. destruct (Hdec sec).
      * right. exists sec, d. split; [by apply HT'|done].
      * left. right. by exists sec, d.
    + intros [[?|(sec & d & Hd & _ & Ho)]|(sec & d & [Hd _]%HT' & Ho)]; eauto 10.
  - intros sec d [Hd _]%HT'. auto.
  - intros sec d sec' d' x [Hd _]%HT' [Hd' _]%HT'. eauto.
  - intros x [Hr|(sec & d & Hd & Hk & Ho)].
    + destruct (H9 x Hr) as [? Hn]. split; [done|]. intros sec d [Hd _]%HT'. auto.
    + destruct (H5 sec d Hd) as (D1 & _ & (D2 & D3 & D4)). split; [destruct Ho; lia|].
      intros sec' d' [Hd' Hk']%HT' Ho'. apply Hk. by rewrite (H8 sec d sec' d' x).
  - destruct H10 as (d & b0 & Hd & H). exists d, b0. split; [|done]. apply HT'. split; [done|by left].
Qed.

(** The state in which [filesys_init] starts. *)
Definition cold (dev : block) (sup : nat → bool) (b : bitmap) : fs := FS dev ∅ [] ∅ b 0 sup 0.

Lemma bitmap_mark_spec b i :
  wf b → 0 ≤ i < bit_cnt b →
  ∃ b', bitmap_mark b i = Ok b' ∧ wf b' ∧ bit_cnt b' = bit_cnt b
    ∧ ∀ j, 0 ≤ j → bit b' j = (j =? i) || bit b j.
Proof.
  intros Hwf Hi. destruct (bitmap_set_spec b i true Hwf Hi) as (b' & E & ? & ? & Hb). unfold bitmap_set in E.
  rewrite (proj2 (Z.ltb_lt _ _)) in E by lia. exists b'. do 3 (split; [done|]). intros j Hj. rewrite Hb by done.
  by destruct (j =? i).
Qed.

Lemma free_map_init_ok dev sup junk :
  wf (Bm (size dev) junk) → 2 ≤ size dev →
  ∃ b, free_map_init (cold dev sup (Bm 0 [])) true (Some junk) = Ok (cold dev sup b)
    ∧ wf b ∧ bit_cnt b = size dev ∧ ∀ j, 0 ≤ j < size dev → bit b j = (j =? 0) || (j =? 1).
Proof.
  intros Hwf Hsz. unfold free_map_init, block_size. simpl fs_device.
  destruct (bitmap_create_spec (size dev) junk Hwf) as (b & -> & Hw & Hc & Hb). cbn [mbind res_bind].
  destruct (bitmap_mark_spec b FREE_MAP_SECTOR Hw) as (b1 & -> & Hw1 & Hc1 & Hb1); [unfold FREE_MAP_SECTOR; lia|].
  cbn [mbind res_bind].
  destruct (bitmap_mark_spec b1 ROOT_DIR_SECTOR Hw1) as (b2 & -> & Hw2 & Hc2 & Hb2); [unfold ROOT_DIR_SECTOR; lia|].
  exists b2. split; [done|]. split; [done|]. split; [lia|]. intros j Hj. rewrite Hb2, Hb1, Hb by lia.
  unfold FREE_MAP_SECTOR, ROOT_DIR_SECTOR. by destruct (j =? 0), (j =? 1).
Qed.

(** The files that have a name. *)
Definition named_files (a : afs) : gmap Z (list Z) :=
  filter (λ p : Z * list Z, p.1 ∈ map_img (SA := gset Z) (anames a)) (astore a).

(** C10: names and contents survive a shutdown.  After [filesys_done], mounting the
    same device again gives a file system with the same names, the contents of every
    named file as they were, and no open handles; files without a name are gone. *)
Theorem shutdown_mount s a sup junk :
  abstracts s a → (∀ n, sup n = true) → wf (Bm (size (fs_device s)) junk) →
  ∃ s1 s2, filesys_done s = Ok s1
    ∧ filesys_init (Some (fs_device s1)) sup true (Some junk) false = Ok s2
    ∧ abstracts s2 (AFS (anames a) (named_files a) ∅).
Proof.
  intros (T & R & Hy & Est & Eh) Hsup Hjunk. destruct (filesys_done_ok s _ T R Hy) as (s1 & E1 & Hod & Ed).
  exists s1. pose proof (y_root _ _ _ _ Hy) as (dr & Hdr & HNr).
  destruct (on_disk_named s1 T R (free_map s1) (anames a) Hod) as (T' & R' & Hod' & HT').
  { intros name sec Hn. by apply (y_name _ _ _ _ Hy name). } { done. }
  destruct (od_disk _ _ _ _ Hod _ _ Hdr) as (Hsr & _ & _). unfold ROOT_DIR_SECTOR in Hsr. rewrite Ed in Hsr.
  destruct (free_map_init_ok (fs_device s1) sup junk) as (b & E2 & Hw & Hc & _); [by rewrite Ed|rewrite Ed; lia|].
  destruct (free_map_open_ok (cold (fs_device s1) sup b) T' R' (free_map s1)) as
    (s2 & ip & d & E3 & Hmt & HTd & Hk & Hsv & Hm & Ed2); try done.
  { by apply (on_disk_same s1). } { intros n _. apply Hsup. }
  exists s2. split; [done|]. split.
  { unfold filesys_init. fold (cold (fs_device s1) sup (Bm 0 [])). rewrite E2. cbn [mbind res_bind]. exact E3. }
  assert (Hfd : ∀ d, file_data s2 d = file_data s d).
  { intros d'. unfold file_data. rewrite Ed2. simpl. by rewrite Ed. }
  assert (Hroot : T' !! ROOT_DIR_SECTOR = Some dr) by (apply HT'; auto).
  destruct (mounted_fsys s2 (anames a) T' R' d ip Hmt Hk Hsv Hm) as [Hy2 Hh2].
  - exists dr. by rewrite Hfd.
  - intros name sec Hn. destruct (y_name _ _ _ _ Hy name sec Hn) as ([d' Hd'] & ?). split; [|done].
    exists d'. apply HT'. split; [done|]. do 2 right. apply elem_of_map_img. by exists name.
  - apply (y_inj _ _ _ _ Hy).
  - intros sec [d' Hd'] H0 H1. apply HT' in Hd' as [_ [?|[?|Hk']]]; [done|done|]. by apply elem_of_map_img in Hk'.
  - exists T', R'. split; [done|]. simpl. split; [|done]. unfold named_files. rewrite Est.
    apply map_eq. intros sec. apply option_eq. intros xs. rewrite map_lookup_filter_Some, !store_lookup.
    simpl. split.
    + intros ((H0 & H1 & d' & Hd' & ->) & Hk'). do 2 (split; [done|]). exists d'. rewrite Hfd. split; [|done].
      apply HT'. auto.
    + intros (H0 & H1 & d' & [Hd' [?|[?|Hk']]]%HT' & ->); [done|done|]. split; [|done]. do 2 (split; [done|]).
      exists d'. by rewrite Hfd.
Qed.

(** ** Formatting *)

(** The free map leaves room for the root directory. *)
Lemma map_sectors cnt :
  4 ≤ cnt < 2 ^ 31 → 0 < byte_cnt cnt ≤ 2 ^ 31 - 512 ∧ 1 ≤ (byte_cnt cnt + 511) / 512 ≤ cnt - 3.
Proof.
  intros Hc. unfold byte_cnt, elem_cnt, DIV_ROUND_UP, ELEM_BITS. rewrite (u32_small (cnt + 32 - 1)) by lia.
  pose proof (Z.div_mod (cnt + 32 - 1) 32). pose proof (Z.mod_pos_bound (cnt + 32 - 1) 32).
  set (q := (cnt + 32 - 1) / 32) in *. rewrite u32_small by lia.
  pose proof (Z.div_mod (4 * q + 511) 512). pose proof (Z.mod_pos_bound (4 * q + 511) 512). lia.
Qed.

(** Creating the inode of the free map on an empty device. *)
Lemma create_map_inode dev sup b :
  block_ok dev → 4 ≤ size dev < 2 ^ 31 → (∀ n, sup n = true) → wf b → bit_cnt b = size dev →
  (∀ j, 0 ≤ j < size dev → bit b j = (j =? 0) || (j =? 1)) →
  ∃ s d, inode_create (cold dev sup b) FREE_MAP_SECTOR (bitmap_file_size b) = Ok (true, s)
    ∧ ilength d = byte_cnt (size dev) ∧ 2 ≤ start d ∧ start d + sectors d ≤ size dev
    ∧ (∃ dev' b', s = FS dev' ∅ [] ∅ b' 0 sup 1 ∧ size dev' = size dev ∧ block_ok dev' ∧ wf b' ∧ bit_cnt b' = size dev
       ∧ ∀ j, 0 ≤ j < size dev → bit b' j = true ↔ j = 1 ∨ owns FREE_MAP_SECTOR d j)
    ∧ sector_at s FREE_MAP_SECTOR = encode d ∧ decode (encode d) = d.
Proof.
  intros Hb Hsz Hsup Hwf Hcnt Hbits. unfold bitmap_file_size. rewrite Hcnt. set (len := byte_cnt (size dev)).
  destruct (map_sectors (size dev) Hsz) as [Hlen Hn]. fold len in Hlen, Hn. set (n := (len + 511) / 512) in *.
  unfold inode_create, malloc. rewrite (proj2 (Z.leb_le 0 len)) by lia. cbv zeta beta iota.
  rewrite Hsup. cbn [calls cold]. change (16 * (Z.of_nat 0 + 1) =? 0) with false. cbv iota.
  rewrite (bytes_to_sectors_spec len) by lia. fold n. unfold free_map_allocate. cbn [free_map cold].
  destruct (scan_and_flip_spec b 0 n false) as (st & b1 & -> & Hw1 & Hc1 & Hcase); [done|lia..|]. cbn [mbind res_bind].
  destruct Hcase as [(Hr & Hr0 & Hfit & Hfree & _ & Hb1)|(_ & _ & Hno)].
  2:{ destruct (Hno 2); [lia..|]. intros x Hx. rewrite Hbits by lia. destruct (Z.eqb_spec x 0), (Z.eqb_spec x 1); lia. }
  rewrite (proj2 (Z.eqb_neq st BITMAP_ERROR)) by done. cbn [negb andb free_map_file set_free_map cold Z.eqb].
  cbn [mbind res_bind fs_device set_free_map cold]. set (d := InodeDisk st len INODE_MAGIC).
  assert (Hst : 2 ≤ st).
  { pose proof (Hfree st) as H1. rewrite Hbits in H1 by lia. destruct (Z.eqb_spec st 0), (Z.eqb_spec st 1); simpl in H1; lia. }
  rewrite block_write_ok by (done || unfold FREE_MAP_SECTOR; lia). cbn [mbind res_bind].
  set (dev1 := set_data dev _). pose proof Hb as (B1 & B2 & B3). unfold BLOCK_SECTOR_SIZE in B2.
  assert (Hb1' : block_ok dev1).
  { apply block_ok_write; [done|unfold FREE_MAP_SECTOR; lia|]. rewrite length_encode. unfold FREE_MAP_SECTOR. lia. }
  destruct (zero_sectors_spec (Z.to_nat n) dev1 st) as (dev2 & -> & Z1 & Z2 & Z3); [done|simpl; lia|lia|simpl; lia|].
  cbn [mbind res_bind]. rewrite Z2Nat.id in Z3 by lia. simpl in Z1, Z2.
  set (s := set_dev _ dev2). set (s0 := cold dev sup b).
  assert (Hdat : data (fs_device s) = splice (512 * st) (replicate (Z.to_nat (512 * n)) 0)
    (splice (512 * FREE_MAP_SECTOR) (encode d) (data (fs_device s0)))) by exact Z3.
  assert (Hout : ¬ range st n FREE_MAP_SECTOR) by (unfold range, FREE_MAP_SECTOR; lia).
  exists s, d. split; [done|]. split; [done|]. split; [done|]. split; [unfold sectors; simpl; fold n; lia|].
  split; [|split].
  - exists dev2, b1. split; [done|]. split; [done|]. split.
    { split; [lia|]. split; [|congruence]. unfold BLOCK_SECTOR_SIZE.
      pose proof (created_length s0 s FREE_MAP_SECTOR st n d) as HL. simpl in HL. rewrite HL; try done.
      all: unfold FREE_MAP_SECTOR; simpl; lia. }
    split; [done|]. split; [congruence|]. intros j Hj. rewrite Hb1, Hbits by lia. unfold owns, sectors, FREE_MAP_SECTOR.
    simpl. fold n. destruct (Z.leb_spec st j), (Z.ltb_spec j (st + n)), (Z.eqb_spec j 0), (Z.eqb_spec j 1); simpl; intuition lia.
  - apply (created_inode s0 s FREE_MAP_SECTOR st n d); try done; unfold FREE_MAP_SECTOR; simpl; lia.
  - apply decode_encode; simpl; [lia|lia|done].
Qed.

Lemma free_map_create_ok dev sup b :
  block_ok dev → 4 ≤ size dev < 2 ^ 31 → (∀ n, sup n = true) → wf b → bit_cnt b = size dev →
  (∀ j, 0 ≤ j < size dev → bit b j = (j =? 0) || (j =? 1)) →
  ∃ s d ip, free_map_create (cold dev sup b) = Ok s ∧ mounted s d ip ∧ mem_ok s
    ∧ fs_ok s {[FREE_MAP_SECTOR := d]} (λ x, x = ROOT_DIR_SECTOR) no_extra
    ∧ saved {[FREE_MAP_SECTOR := d]} s ∧ size (fs_device s) = size dev
    ∧ 2 ≤ start d ∧ sectors d ≤ size dev - 3.
Proof.
  intros Hb Hsz Hsup Hwf Hcnt Hbits.
  destruct (create_map_inode dev sup b Hb Hsz Hsup Hwf Hcnt Hbits) as
    (s1 & d & E1 & Hl & Hst & Hfit & (dev1 & b1 & Es1 & Ez1 & Hb1 & Hw1 & Hc1 & Hbit1) & Hsec & Hdec).
  destruct (map_sectors (size dev) Hsz) as [Hlen Hn]. rewrite <- Hl in Hlen, Hn. fold (sectors d) in Hn.
  assert (Hm1 : mem_ok s1) by (subst s1; intros n _; apply Hsup).
  destruct (inode_open_mount s1 d) as (ip & s2 & E2 & Hip & Ei2 & Eo2 & Eip & Ec2 & Ef2 & Em2 & Eu2 & Ez2 & Et2 & Ed2);
    [by subst s1|subst s1; simpl; lia|by rewrite Hsec|by subst s1|done|].
  unfold free_map_create. change (free_map (cold dev sup b)) with b. rewrite E1. cbn [mbind res_bind negb].
  rewrite E2. cbn [mbind res_bind].
  assert (Hm2 : mem_ok s2) by (intros n _; rewrite Eu2; subst s1; apply Hsup).
  unfold file_open, malloc. cbv zeta beta iota. rewrite Hm2 by lia. set (f := 16 * (Z.of_nat (calls s2) + 1)).
  rewrite (proj2 (Z.eqb_neq ip 0)), (proj2 (Z.eqb_neq f 0)) by (unfold f; lia). cbn [negb andb mbind res_bind].
  rewrite (proj2 (Z.eqb_neq f 0)) by (unfold f; lia). set (s3 := set_free_map_file _ f).
  assert (Hmt : mounted s3 d ip).
  { unfold mounted, addr_ok. simpl. rewrite Ei2, Eo2, Ef2. subst s1. unfold f. split_and!; try done; lia. }
  assert (Hfd : free_map s3 = b1 ∧ size (fs_device s3) = size dev ∧ block_ok (fs_device s3)
    ∧ sector_at s3 FREE_MAP_SECTOR = encode d).
  { unfold sector_at in *. simpl. rewrite Em2, Ez2, Ed2. subst s1. simpl in *. split_and!; try done.
    destruct Hb1 as (? & ? & ?). unfold block_ok. by rewrite Ez2, Et2, Ed2. }
  destruct Hfd as (Fm & Fz & Fb & Fs).
  assert (Hlay : layout s3 {[FREE_MAP_SECTOR := d]} (λ x, x = ROOT_DIR_SECTOR) (free_map s3)).
  { rewrite Fm. split; rewrite ?Fz; try done; [lia|..].
    - intros sec d' [<- <-]%lookup_singleton_Some. rewrite Fs. split; [unfold FREE_MAP_SECTOR; lia|]. split; [done|].
      unfold disk_ok. rewrite Fz. lia.
    - intros x Hx. rewrite Hbit1 by done. split; [intros [->|?]; [by left|right]|].
      + exists FREE_MAP_SECTOR, d. by rewrite lookup_singleton_eq.
      + intros [->|(sec & d' & [<- <-]%lookup_singleton_Some & Ho)]; auto.
    - intros sec d' [<- <-]%lookup_singleton_Some. unfold FREE_MAP_SECTOR. lia.
    - intros sec d' sec' d'' x [<- _]%lookup_singleton_Some [<- _]%lookup_singleton_Some. done.
    - intros x ->. unfold ROOT_DIR_SECTOR. split; [lia|]. intros sec d' [<- <-]%lookup_singleton_Some.
      unfold owns, FREE_MAP_SECTOR. lia. }
  assert (Hk3 : fs_ok s3 {[FREE_MAP_SECTOR := d]} (λ x, x = ROOT_DIR_SECTOR) no_extra).
  { apply (mounted_fs_ok s3 _ _ d ip Hmt Hlay); [apply lookup_singleton_eq|]. by rewrite Fm, Hc1. }
  destruct (save_map_ok s3 _ _ _ Hk3) as (ok & s4 & E4 & Hk4 & Hs4 & Hsv & _).
  assert (Hm3 : mem_ok s3) by (intros n _; simpl; rewrite Eu2; subst s1; apply Hsup).
  destruct (Hsv Hm3) as [-> Hsv4]. change (free_map_file s3) with f in E4. rewrite E4. cbn [mbind res_bind].
  exists s4, d, ip. split; [done|]. destruct Hs4 as [G1 G2 G3 G4 G5 G6 G7 G8 G9].
  split; [|split; [|do 2 (split; [done|]); split; [congruence|lia]]].
  - destruct Hmt as (A1 & A2 & A3 & A4 & A5). unfold mounted, addr_ok in *. rewrite G1, G2, G3, G5.
    split_and!; try done; lia.
  - intros n Hn'. rewrite G6. simpl. rewrite Eu2. subst s1. apply Hsup.
Qed.

Lemma dir_ok_zeros n : dir_ok (replicate n 0) ∅.
Proof.
  assert (Hu : ∀ k, in_use (slot (replicate n 0) k) = false).
  { intros k. unfold slot, entry_of. simpl. destruct (slice (20 * k) 20 (replicate n 0) !! 19%nat) as [x|] eqn:E; [|done].
    unfold slice in E. apply lookup_take_Some in E as [E _]. rewrite lookup_drop in E.
    apply lookup_replicate in E as [-> _]. done. }
  assert (Hg : ∀ k name sec, ¬ gives (replicate n 0) k name sec).
  { intros k name sec (_ & Hu' & _). by rewrite Hu in Hu'. }
  split.
  - intros k _ Hk. by rewrite Hu in Hk.
  - intros name sec. rewrite lookup_empty. split; [done|]. intros [k Hk]. by destruct (Hg k name sec).
  - intros k k' name sec sec' Hk. by destruct (Hg k name sec).
Qed.

(** The root directory of a new file system. *)
Lemma format_root s d ip :
  mounted s d ip → mem_ok s → fs_ok s {[FREE_MAP_SECTOR := d]} (λ x, x = ROOT_DIR_SECTOR) no_extra →
  saved {[FREE_MAP_SECTOR := d]} s → 4 ≤ size (fs_device s) < 2 ^ 31 → 2 ≤ start d →
  sectors d ≤ size (fs_device s) - 3 →
  ∃ s' d1 R, dir_create s ROOT_DIR_SECTOR 16 = Ok (true, s')
    ∧ fs_ok s' (<[ROOT_DIR_SECTOR := d1]> {[FREE_MAP_SECTOR := d]}) R no_extra
    ∧ saved (<[ROOT_DIR_SECTOR := d1]> {[FREE_MAP_SECTOR := d]}) s'
    ∧ file_data s' d1 = replicate 320 0 ∧ inodes s' = inodes s
    ∧ kept {[FREE_MAP_SECTOR := d]} s s'.
Proof.
  intros Hmt Hm Hk Hsv Hsz Hst Hn. unfold dir_create, ENTRY_SIZE. change (16 * 20) with 320. rewrite s32_small by lia.
  destruct (inode_create_ok s _ _ _ ROOT_DIR_SECTOR 320 Hk eq_refl) as (ok & s1 & -> & K & Ei & Hc); [lia|].
  destruct ok.
  - destruct Hc as (d1 & Hl & Hz & Hk1). eexists s1, d1, _. split; [done|]. split; [exact Hk1|]. split; [|done].
    intros d' Hd'. rewrite lookup_insert_ne in Hd' by done. by apply (kp_saved _ _ _ K Hm Hsv).
  - exfalso. destruct Hc as [_ Hfull]. specialize (Hfull Hm). rewrite bytes_to_sectors_spec in Hfull by lia.
    change ((320 + 511) / 512) with 1 in Hfull. pose proof (k_disk _ _ _ _ Hk _ _ (lookup_singleton_eq _ _)) as (_ & _ & Hdk).
    pose proof (sectors_pos d (proj1 (proj1 (proj2 Hdk)))) as [Hs0 _].
    set (j := if decide (start d ≤ 2) then 2 + sectors d else 2).
    assert (Hj : 2 ≤ j < size (fs_device s) ∧ ¬ (start d ≤ j < start d + sectors d)) by (unfold j; case_decide; lia).
    apply (Hfull j); [lia..|]. intros x Hx. assert (x = j) as -> by lia.
    destruct (bit (free_map s) j) eqn:Eb; [|done]. exfalso. apply (k_used _ _ _ _ Hk) in Eb; [|lia].
    destruct Eb as [->|(sec & d' & [<- <-]%lookup_singleton_Some & [->|Ho])].
    + unfold ROOT_DIR_SECTOR in Hj. lia.
    + unfold FREE_MAP_SECTOR in Hj. lia.
    + lia.
Qed.

Lemma format_ok dev sup junk :
  block_ok dev → 4 ≤ size dev < 2 ^ 31 → (∀ n, sup n = true) → wf (Bm (size dev) junk) →
  ∃ s, filesys_init (Some dev) sup true (Some junk) true = Ok s ∧ abstracts s (AFS ∅ ∅ ∅).
Proof.
  intros Hb Hsz Hsup Hjunk. destruct (free_map_init_ok dev sup junk Hjunk) as (b & E1 & Hw & Hc & Hbits); [lia|].
  destruct (free_map_create_ok dev sup b Hb Hsz Hsup Hw Hc Hbits) as (s1 & d & ip & E2 & Hmt & Hm & Hk & Hsv & Ez & Hst & Hn).
  destruct (format_root s1 d ip Hmt Hm Hk Hsv) as (s2 & d1 & R & E3 & Hk2 & Hsv2 & Hz & Ei & K); [lia..|].
  set (T := <[ROOT_DIR_SECTOR := d1]> {[FREE_MAP_SECTOR := d]}) in *.
  destruct Hmt as (M1 & M2 & M3 & M4 & M5). rewrite M1 in Ei. pose proof (kp_files _ _ _ K) as Ef. rewrite M3 in Ef.
  pose proof (kp_map_file _ _ _ K) as Em. rewrite <- Em in Ef. unfold addr_ok in M4, M5.
  pose proof (close_map_file s2 (free_map_file s2) (File ip 0 false) (Node FREE_MAP_SECTOR 1 false 0 d)) as E4.
  rewrite Ef, Ei in E4. simpl finode in E4. rewrite !lookup_singleton_eq in E4. specialize (E4 eq_refl ltac:(lia) eq_refl eq_refl ltac:(lia) eq_refl).
  set (s3 := set_files _ _) in E4.
  assert (Hs3 : inodes s3 = ∅ ∧ open_inodes s3 = [] ∧ files s3 = ∅).
  { simpl. unfold closed. rewrite decide_True by done. rewrite Ei, !delete_singleton_eq. split; [done|]. split; [|done].
    pose proof (k_list _ _ _ _ Hk2) as Hl. rewrite Ei in Hl. clear -Hl.
    induction (open_inodes s2) as [|q l IH]; [done|]. rewrite filter_cons_False.
    - apply IH. intros q' Hq'. apply Hl. by right.
    - intros Hne. destruct (Hl q) as [x Hx]; [by left|]. apply lookup_singleton_Some in Hx as [-> _]. done. }
  destruct Hs3 as (G1 & G2 & G3).
  pose proof (fs_ok_on_disk s2 T R _ Hk2 Hsv2) as Hod2.
  assert (Hod3 : on_disk s3 T R (free_map s2)) by (by apply (on_disk_same s2)).
  pose proof (mem_ok_kept _ _ _ K Hm) as Hm2.
  destruct (free_map_open_ok s3 T R (free_map s2) Hod3 G1 G2 G3) as (s4 & ip' & d' & E5 & Hmt4 & HT4 & Hk4 & Hsv4 & Hm4 & Ed4);
    [apply (od_map _ _ _ _ Hod2)|apply (od_cnt _ _ _ _ Hod2)|done|].
  exists s4. split.
  { unfold filesys_init. fold (cold dev sup (Bm 0 [])). rewrite E1. cbn [mbind res_bind]. unfold do_format.
    rewrite E2. cbn [mbind res_bind]. rewrite E3. cbn [mbind res_bind negb]. unfold free_map_close. rewrite E4.
    cbn [mbind res_bind]. exact E5. }
  destruct (mounted_fsys s4 ∅ T R d' ip' Hmt4 Hk4 Hsv4 Hm4) as [Hy Hh].
  - exists d1. split; [apply lookup_insert_eq|]. replace (file_data s4 d1) with (replicate 320 0); [apply dir_ok_zeros|].
    rewrite <- Hz. unfold file_data. by rewrite Ed4.
  - done.
  - done.
  - intros sec [x Hx] H0 H1. unfold T in Hx. rewrite lookup_insert_ne in Hx by done.
    apply lookup_singleton_Some in Hx as [? _]. done.
  - exists T, R. split; [done|]. simpl. split; [|done]. unfold store, T.
    rewrite delete_insert_ne, delete_singleton_eq, delete_insert_eq, delete_empty by done. by rewrite fmap_empty.
Qed.

(** formatting gives an empty file system: on any device of at least four sectors,
    if memory is available, [filesys_init] with a format terminates without a panic and
    leaves a file system with no names, no files and no handles, ready for every
    operation. *)
Theorem format_empty dev sup junk :
  block_ok dev → 4 ≤ size dev < 2 ^ 31 → (∀ n, sup n = true) → wf (Bm (size dev) junk) →
  ∃ s, filesys_init (Some dev) sup true (Some junk) true = Ok s ∧ abstracts s (AFS ∅ ∅ ∅).
Proof. apply format_ok. Qed.

(** ** A small device *)

Definition demo_dev : block := Block [104; 100] BLOCK_FILESYS 16 (replicate 8192 7) 0 0.
Definition plenty (_ : nat) : bool := true.

Lemma demo_dev_ok : block_ok demo_dev ∧ wf (Bm (size demo_dev) [99]).
Proof.
  split; [split; [done|split; [by vm_compute|done]]|]. split; [done|]. split; [by vm_compute|].
  repeat constructor; done.
Qed.

Lemma format_empty_witness :
  ∃ s, filesys_init (Some demo_dev) plenty true (Some [99]) true = Ok s ∧ abstracts s (AFS ∅ ∅ ∅).
Proof.
  destruct demo_dev_ok as [H1 H2]. apply (format_empty demo_dev plenty [99]); [exact H1|split; vm_compute; congruence| |exact H2].
  intros n. reflexivity.
Defined.

Definition demo_fs : fs :=
  match filesys_init (Some demo_dev) plenty true (Some [99]) true with Ok s => s | _ => cold demo_dev plenty (Bm 0 []) end.

Lemma demo_fs_empty : abstracts demo_fs (AFS ∅ ∅ ∅).
Proof.
  destruct demo_dev_ok as [H1 H2]. unfold demo_fs.
  destruct (format_ok demo_dev plenty [99] H1) as (s & -> & Ha); [split; vm_compute; congruence|done|done|done].
Qed.

Lemma demo_fs_device : size (fs_device demo_fs) = 16.
Proof. vm_compute. reflexivity. Qed.

Lemma shutdown_mount_witness :
  ∃ s1 s2, filesys_done demo_fs = Ok s1
    ∧ filesys_init (Some (fs_device s1)) plenty true (Some [99]) false = Ok s2
    ∧ abstracts s2 (AFS ∅ (named_files (AFS ∅ ∅ ∅)) ∅).
Proof.
  apply (shutdown_mount demo_fs (AFS ∅ ∅ ∅) plenty [99]); [exact demo_fs_empty|intros n; reflexivity|].
  rewrite demo_fs_device. exact (proj2 demo_dev_ok).
Defined.

(** ** Every operation *)



(** ** Failures *)

Definition free_sectors (s : fs) : Z :=
  Z.of_nat (length (filter (λ j, bit (free_map s) (Z.of_nat j) = false) (seq 0 (Z.to_nat (size (fs_device s)))))).


(** the kernel panics on sizes and positions that are negative as [off_t]: creating
    a file of such a size, while a sector is free, and seeking to such a position fail
    an assertion. *)
Theorem negative_sizes_panic s N T R name sz junk :
  fsys s N T R → sz < 0 → ¬ full s 1 →
  filesys_create s name sz junk = Panic ∧ ∀ f fl p, files s !! f = Some fl → p < 0 → file_seek s f p = Panic.
Proof.
  intros Hy Hsz Hroom. split.
  - destruct (root_open_ok s N T R Hy) as (ipr & s1 & dr & E1 & K1 & Ef & _ & _ & _ & _ & (Hk1 & Hm1 & _)).
    unfold filesys_create. rewrite E1. cbn [mbind res_bind].
    destruct (free_map_allocate_ok s1 T R _ 1 Hk1) as (o & s2 & -> & _ & _ & Ho); [lia|]. cbn [mbind res_bind].
    destruct o as [sec|].
    + unfold inode_create. by rewrite (proj2 (Z.leb_gt 0 sz)).
    + destruct Hroom. destruct Ho as [_ Hf]. specialize (Hf Hm1). unfold full in *.
      by rewrite Ef, (kp_size _ _ _ K1) in Hf.
  - intros f fl p Hf Hp. unfold file_seek. rewrite Hf. cbn [from_opt mbind res_bind]. by rewrite (proj2 (Z.leb_gt 0 p)).
Qed.

Lemma negative_sizes_panic_witness :
  ∃ N T R, fsys demo_fs N T R ∧ filesys_create demo_fs [97] (-1) [] = Panic.
Proof.
  destruct demo_fs_empty as (T & R & Hy & _). exists ∅, T, R. split; [exact Hy|].
  apply (negative_sizes_panic demo_fs ∅ T R [97] (-1) [] Hy); [lia|].
  intros Hf. apply (Hf 10); [lia|rewrite demo_fs_device; lia|].
  intros x Hx. assert (x = 10) as -> by lia. vm_compute. reflexivity.
Defined.

End FsBoot.
