(* ===== verification/Fsutil.v ===== *)
(** * File system utilities, [filesys/fsutil.c]

    The actions of the kernel command line that move files between the file system and an
    archive on the scratch device.  An archive written by [fsutil_append] is unpacked by
    [fsutil_extract]. *)

From Stdlib Require Import Ascii String.
From S2P Require Import Prelude Vaddr Bitmap Strings Stdio Ustar Disk Inode Directory FsInv FileInv DirInv Filesys FsSpec FsBoot.

Module Fsutil.
Import Vaddr Bitmap Strings Stdio Ustar Disk Inode Directory FsInv FileInv DirInv Filesys FsSpec FsBoot.

(** ** The state

    The file system, the scratch device if there is one, the static variable [sector] of
    [fsutil_append] and of [fsutil_extract], and what has been printed. *)
Record util := Util { ufs : fs; scratch : option block; append_sector : Z; extract_sector : Z; console : list Z }.
Definition set_fs (u : util) (s : fs) : util := Util s (scratch u) (append_sector u) (extract_sector u) (console u).
Definition set_scratch (u : util) (b : block) : util := Util (ufs u) (Some b) (append_sector u) (extract_sector u) (console u).
Definition set_console (u : util) (c : list Z) : util := Util (ufs u) (scratch u) (append_sector u) (extract_sector u) c.

Definition say_line (u : util) (l : string) : res util :=
  c ← (fst <$> printf 0 ∅ (console u) (chars l ++ [10]) []); Ok (set_console u c).
Definition say_name (u : util) (before name : list Z) (after : string) : res util :=
  c ← (fst <$> printf (S (length name)) (place 1 name) (console u) (before ++ chars "%s" ++ chars after ++ [10]) [1]); Ok (set_console u c).

(** [block_read (src, sector++, ...)] and [block_write (dst, sector, ...)] on the scratch device. *)
Definition read_next (u : util) : res (list Z * util) :=
  b ← from_opt (scratch u);
  '(l, b) ← block_read b (extract_sector u);
  Ok (l, Util (ufs u) (Some b) (append_sector u) (u32 (extract_sector u + 1)) (console u)).
Definition write_scratch (u : util) (sec : Z) (buffer : list Z) : res util :=
  b ← from_opt (scratch u); b ← block_write b sec buffer; Ok (set_scratch u b).
Definition write_next (u : util) (buffer : list Z) : res util :=
  u ← write_scratch u (append_sector u) buffer;
  Ok (Util (ufs u) (scratch u) (u32 (append_sector u + 1)) (extract_sector u) (console u)).

(** ** Listing, printing and deleting *)

Fixpoint ls_loop (n : nat) (u : util) (d : dir) : res (dir * util) :=
  match n with
  | O => Fuel
  | S n =>
      '(name, d, s) ← dir_readdir (ufs u) d;
      let u := set_fs u s in
      match name with
      | Some name => u ← say_name u [] name ""; ls_loop n u d
      | None => Ok (d, u)
      end
  end.
Definition fsutil_ls (u : util) : res util :=
  u ← say_line u "Files in the root directory:";
  '(d, s) ← dir_open_root (ufs u);
  match d with
  | None => Panic
  | Some d =>
      '(d, u) ← ls_loop (entries s (dinode d)) (set_fs u s) d;
      s ← dir_close (ufs u) (Some d);
      say_line (set_fs u s) "End of listing."
  end.

(** [page] says whether [palloc_get_page] finds a page. *)
Fixpoint cat_loop (n : nat) (u : util) (f : Z) : res util :=
  match n with
  | O => Fuel
  | S n =>
      p ← file_tell (ufs u) f;
      '(l, s) ← file_read (ufs u) f PGSIZE;
      let u := set_fs u s in
      if Zlength l =? 0 then Ok u else
      c ← hex_dump (S (length l)) (console u) (u32 p) l true;
      cat_loop n (set_console u c) f
  end.
Definition fsutil_cat (u : util) (file_name : list Z) (page : bool) : res util :=
  u ← say_name u (chars "Printing '") file_name "' to the console...";
  '(f, s) ← filesys_open (ufs u) file_name;
  if f =? 0 then Panic else
  ASSERT page;;
  n ← file_length s f;
  u ← cat_loop (S (S (Z.to_nat n))) (set_fs u s) f;
  s ← file_close (ufs u) f;
  Ok (set_fs u s).

Definition fsutil_rm (u : util) (file_name : list Z) : res util :=
  u ← say_name u (chars "Deleting '") file_name "'...";
  '(ok, s) ← filesys_remove (ufs u) file_name;
  if negb ok then Panic else Ok (set_fs u s).

(** ** Extraction *)

Definition chunk (sz : Z) : Z := if BLOCK_SECTOR_SIZE <? sz then BLOCK_SECTOR_SIZE else sz.

Fixpoint extract_copy (n : nat) (u : util) (dst sz : Z) : res util :=
  if 0 <? sz then
    match n with
    | O => Fuel
    | S n =>
        '(l, u) ← read_next u;
        '(w, s) ← file_write (ufs u) dst l (chunk sz);
        if negb (w =? chunk sz) then Panic else
        extract_copy n (set_fs u s) dst (sz - chunk sz)
    end
  else Ok u.

(** [junk name] is what the entry of the directory for a new file holds behind the name. *)
Definition extract_file (u : util) (file_name : list Z) (sz : Z) (junk : list Z → list Z) : res util :=
  u ← say_name u (chars "Putting '") file_name "' into the file system...";
  '(ok, s) ← filesys_create (ufs u) file_name sz (junk file_name);
  if negb ok then Panic else
  '(dst, s) ← filesys_open s file_name;
  if dst =? 0 then Panic else
  u ← extract_copy (Z.to_nat sz) (set_fs u s) dst sz;
  s ← file_close (ufs u) dst;
  Ok (set_fs u s).

Fixpoint extract_loop (n : nat) (u : util) (junk : list Z → list Z) : res util :=
  match n with
  | O => Fuel
  | S n =>
      '(header, u) ← read_next u;
      p ← ustar_parse_header header;
      match p with
      | Bad _ => Panic
      | Parsed file_name type sz =>
          if type =? USTAR_EOF then Ok u else
          file_name ← from_opt file_name;
          u ← (if type =? USTAR_DIRECTORY then say_name u (chars "ignoring directory ") file_name ""
               else if type =? USTAR_REGULAR then extract_file u file_name sz junk
               else Ok u);
          extract_loop n u junk
      end
  end.

Definition fsutil_extract (u : util) (junk : list Z → list Z) : res util :=
  let '(header, s) := malloc (ufs u) in
  let '(data, s) := malloc s in
  if (header =? 0) || (data =? 0) then Panic else
  let u := set_fs u s in
  b ← from_opt (scratch u);
  u ← say_line u "Extracting ustar archive from scratch device into file system...";
  u ← extract_loop (S (Z.to_nat (size b))) u junk;
  u ← say_line u "Erasing ustar archive...";
  u ← write_scratch u 0 (replicate 512 0);
  write_scratch u 1 (replicate 512 0).

(** ** Appending *)

Fixpoint append_loop (n : nat) (u : util) (src sz : Z) : res util :=
  if 0 <? sz then
    match n with
    | O => Fuel
    | S n =>
        b ← from_opt (scratch u);
        if block_size b <=? append_sector u then Panic else
        '(l, s) ← file_read (ufs u) src (chunk sz);
        if negb (Zlength l =? chunk sz) then Panic else
        u ← write_next (set_fs u s) (l ++ replicate (Z.to_nat (BLOCK_SECTOR_SIZE - chunk sz)) 0);
        append_loop n u src (sz - chunk sz)
    end
  else Ok u.

(** [junk] is what the buffer holds at first, and [behind] the byte behind it. *)
Definition fsutil_append (u : util) (file_name junk : list Z) (behind : Z) : res util :=
  u ← say_name u (chars "Appending '") file_name "' to ustar archive on scratch device...";
  let '(buffer, s) := malloc (ufs u) in
  if buffer =? 0 then Panic else
  '(src, s) ← filesys_open s file_name;
  if src =? 0 then Panic else
  sz ← file_length s src;
  let u := set_fs u s in
  _ ← from_opt (scratch u);
  '(ok, h, c) ← ustar_make_header (console u) file_name USTAR_REGULAR sz junk;
  if negb ok then Panic else
  u ← write_next (set_console u c) h;
  u ← append_loop (Z.to_nat sz) u src sz;
  let zeros := replicate 512 0 in
  u ← write_scratch u (append_sector u) zeros;
  u ← write_scratch u (append_sector u) (drop 1 zeros ++ [behind]);
  s ← file_close (ufs u) src;
  Ok (set_fs u s).

Fixpoint append_all (u : util) (names : list (list Z)) (junk : list Z) : res util :=
  match names with
  | [] => Ok u
  | n :: names => u ← fsutil_append u n junk 0; append_all u names junk
  end.

(** ** Printing *)

Lemma vprintf_prefix rd l : ∀ n fuel rest args t, Forall (λ c, c ≠ 37) l → Zlength t + Zlength l < 2 ^ 31 →
  __vprintf emit rd (length l + n) fuel (l ++ rest) args t = __vprintf emit rd n fuel rest args (t ++ l).
Proof.
  induction l as [|c l IH]; intros n fuel rest args t Hl Ht; [by rewrite app_nil_r|]. cbn [app length Nat.add __vprintf].
  apply Forall_cons in Hl as [Hc Hl]. change (code "%") with 37. rewrite (proj2 (Z.eqb_neq c 37)) by done. cbn [negb].
  rewrite emit_ok by (simpl in Ht; lia). rewrite bind_ret. rewrite IH by (rewrite ?length_app; simpl in *; done || lia). by rewrite <- app_assoc.
Qed.

Definition plain (l : list Z) : Prop := Forall (λ c, c ≠ 37) l ∧ Zlength l < 1000.

Lemma say_line_ok u l : plain (chars l ++ [10]) → say_line u l = Ok (set_console u (console u ++ chars l ++ [10])).
Proof.
  intros [Hp Hl]. unfold say_line. erewrite printf_text; [reflexivity|]. unfold text, steps.
  rewrite vprintf_plain; [done|lia|done|simpl; lia].
Qed.

(** A name as the file system and the archive have it. *)
Definition name_ok (n : list Z) : Prop := Forall (λ c, 0 < c < 2 ^ 8) n ∧ Zlength n ≤ NAME_MAX ∧ social n.

Lemma say_name_ok u before name after :
  Forall (λ c, 0 < c < 2 ^ 8) name → Zlength name ≤ NAME_MAX → plain before → plain (chars after ++ [10]) →
  say_name u before name after = Ok (set_console u (console u ++ before ++ name ++ chars after ++ [10])).
Proof.
  intros Hn Hl [Hb Hbl] [Ha Hal]. unfold NAME_MAX in Hl. unfold say_name. erewrite printf_text; [reflexivity|].
  unfold text, steps. set (rest := chars after ++ [10]) in *.
  replace (length (before ++ chars "%s" ++ rest) + 32)%nat with (length before + S (length rest + 33))%nat by (rewrite !length_app; simpl; lia).
  rewrite vprintf_prefix by (done || simpl; lia). change (chars "%s" ++ rest) with (code "%" :: code "s" :: rest). cbn [app].
  rewrite (vprintf_s _ _ _ _ name) by (apply place_at || done || simpl; lia).
  rewrite vprintf_plain by (rewrite ?length_app; done || lia). by rewrite <- app_assoc.
Qed.

(** ** The operations of the file system *)

Definition holds (a : afs) (n xs : list Z) : Prop := ∃ id, anames a !! n = Some id ∧ astore a !! id = Some xs.

Lemma abstracts_malloc s a : abstracts s a → abstracts (malloc s).2 a ∧ (malloc s).1 ≠ 0.
Proof.
  intros (T & R & Hy & Es & Eh). pose proof (y_mem _ _ _ _ Hy) as Hm. split.
  - exists T, R. split; [|done]. apply (fsys_same s _ (anames a) T R); try done; [apply fs_ok_malloc, Hy|intros n Hn; apply Hm; simpl in Hn; lia|apply Hy|apply Hy].
  - unfold malloc. simpl. rewrite Hm by lia. lia.
Qed.

Lemma stored_length s a id xs : abstracts s a → astore a !! id = Some xs → Zlength xs ≤ 2 ^ 31 - 512.
Proof.
  intros (T & R & Hy & Es & Eh) H. rewrite Es in H. apply store_lookup in H as (H0 & H1 & d & HT & ->). pose proof (y_ok _ _ _ _ Hy) as Hk.
  destruct (k_disk _ _ _ _ Hk _ _ HT) as (_ & _ & (? & ? & ?)). pose proof (length_file_data s T R no_extra id d Hk HT). lia.
Qed.

(** The names and handles of a state refer to files that are stored. *)
Lemma abstracts_named s a n id : abstracts s a → anames a !! n = Some id → is_Some (astore a !! id).
Proof.
  intros (T & R & Hy & Es & Eh) H. destruct (y_name _ _ _ _ Hy _ _ H) as ([d Hd] & H0 & H1). rewrite Es. exists (file_data s d).
  apply store_lookup. eauto.
Qed.
Lemma abstracts_handle s a f h : abstracts s a → ahandles a !! f = Some h → is_Some (astore a !! hid h).
Proof.
  intros (T & R & Hy & Es & Eh) H. rewrite Eh in H. destruct (handle_open s _ T R f h Hy H) as (fl & i & d & _ & _ & _ & _ & _ & _ & _ & -> & Hs & _).
  rewrite Es. by exists (file_data s d).
Qed.

Section operations.
Context (s : fs) (a : afs) (Ha : abstracts s a).

Lemma open_ok n id :
  anames a !! n = Some id →
  ∃ f s', filesys_open s n = Ok (f, s') ∧ f ≠ 0 ∧ ahandles a !! f = None ∧ abstracts s' (set_handle a f (Handle id 0 false)).
Proof.
  intros Hn. destruct Ha as (T & R & Hy & Es & Eh). destruct (refines_open s a T R Hy Es Eh n) as (r & s' & a' & E & Hst & Ha'). simpl in E.
  destruct (filesys_open s n) as [[f s1]| |]; simplify_eq/=. inversion Hst; simplify_eq. by exists f, s'.
Qed.
Lemma length_ok f h xs : ahandles a !! f = Some h → astore a !! hid h = Some xs → file_length s f = Ok (Zlength xs).
Proof.
  intros Hf Hx. destruct Ha as (T & R & Hy & Es & Eh). destruct (refines_length s a T R Hy Es Eh f) as (r & s' & a' & E & Hst & Ha'); [by eexists|]. simpl in E.
  destruct (file_length s f) as [n| |]; simplify_eq/=. by inversion Hst; simplify_eq.
Qed.
Lemma tell_ok f h : ahandles a !! f = Some h → file_tell s f = Ok (hpos h).
Proof.
  intros Hf. destruct Ha as (T & R & Hy & Es & Eh). destruct (refines_tell s a T R Hy Es Eh f) as (r & s' & a' & E & Hst & Ha'); [by eexists|]. simpl in E.
  destruct (file_tell s f) as [n| |]; simplify_eq/=. by inversion Hst; simplify_eq.
Qed.
Lemma read_ok f h xs n :
  ahandles a !! f = Some h → astore a !! hid h = Some xs → 0 ≤ n < 2 ^ 31 →
  let m := transfer (Zlength xs) (hpos h) n in
  ∃ s', file_read s f n = Ok (slice (hpos h) m xs, s') ∧ abstracts s' (set_handle a f (Handle (hid h) (hpos h + m) (hdeny h))).
Proof.
  intros Hf Hx Hn m. destruct Ha as (T & R & Hy & Es & Eh). destruct (refines_read s a T R Hy Es Eh f n) as (r & s' & a' & E & Hst & Ha'); [split; [by eexists|done]|].
  simpl in E. destruct (file_read s f n) as [[l s1]| |]; simplify_eq/=. inversion Hst; simplify_eq. by exists s'.
Qed.
Lemma write_ok f h xs buf n :
  ahandles a !! f = Some h → astore a !! hid h = Some xs → 0 ≤ n < 2 ^ 31 → n ≤ Zlength buf → ¬ denied_id a (hid h) →
  let m := transfer (Zlength xs) (hpos h) n in
  ∃ s', file_write s f buf n = Ok (m, s')
    ∧ abstracts s' (AFS (anames a) (<[hid h := splice (hpos h) (take (Z.to_nat m) buf) xs]> (astore a)) (<[f := Handle (hid h) (hpos h + m) (hdeny h)]> (ahandles a))).
Proof.
  intros Hf Hx Hn Hb Hd m. destruct Ha as (T & R & Hy & Es & Eh).
  destruct (refines_write s a T R Hy Es Eh f buf n) as (r & s' & a' & E & Hst & Ha'); [split; [by eexists|done]|].
  simpl in E. destruct (file_write s f buf n) as [[l s1]| |]; simplify_eq/=. inversion Hst as [| | | | | | | | |????? m' ?? _ Hm| | | | |]; simplify_eq.
  rewrite (Hm Hd) in *. by exists s'.
Qed.
Lemma close_ok f h :
  ahandles a !! f = Some h → named a (hid h) → ∃ s', file_close s f = Ok s' ∧ abstracts s' (AFS (anames a) (astore a) (delete f (ahandles a))).
Proof.
  intros Hf Hn. destruct Ha as (T & R & Hy & Es & Eh). destruct (refines_close s a T R Hy Es Eh f) as (r & s' & a' & E & Hst & Ha'); [by eexists|]. simpl in E.
  destruct (file_close s f) as [s1| |]; simplify_eq/=. inversion Hst as [| | | | | |?? st a1 Hh Hst1 _| | | | | | | |]; simplify_eq. rewrite Hst1 in Ha' by auto. by exists s'.
Qed.
Lemma create_ok n sz junk :
  name_ok n → anames a !! n = None → 0 ≤ sz < 2 ^ 31 → Zlength junk = 20 →
  (∃ s' id, filesys_create s n sz junk = Ok (true, s') ∧ astore a !! id = None
    ∧ abstracts s' (AFS (<[n := id]> (anames a)) (<[id := replicate (Z.to_nat sz) 0]> (astore a)) (ahandles a)))
  ∨ ∃ s', filesys_create s n sz junk = Ok (false, s') ∧ no_space s sz.
Proof.
  intros (Hc & Hl & (_ & Hne & _)) Hn Hsz Hj. destruct Ha as (T & R & Hy & Es & Eh).
  destruct (refines_create s a T R Hy Es Eh n sz junk) as (r & s' & a' & E & Hst & Ha').
  { split; [done|]. split; [|done]. eapply Forall_impl; [exact Hc|]. intros; simpl in *; lia. }
  simpl in E. destruct (filesys_create s n sz junk) as [[ok s1]| |]; simplify_eq/=. destruct ok; inversion Hst as [|? ? ? Hwhy| | | | | | | | | | | | |]; simplify_eq.
  - left. by exists s', id.
  - right. exists s'. split; [done|]. destruct Hwhy as [?|[?|[[? ?]|?]]]; [done|lia|congruence|done].
Qed.
End operations.

(** ** The scratch device *)

(** The sectors before [append_sector] hold [l]. *)
Definition appended (u : util) (sz : Z) (l : list Z) : Prop :=
  ∃ b rest, scratch u = Some b ∧ block_ok b ∧ size b = sz ∧ Disk.data b = l ++ rest ∧ Zlength l = 512 * append_sector u.
(** The next sector is the end of an archive. *)
Definition zeros : list Z := replicate 512 0.
Definition ended (u : util) (l : list Z) : Prop := ∃ b rest, scratch u = Some b ∧ Disk.data b = l ++ zeros ++ rest.
(** The sectors from [extract_sector] on hold [l]. *)
Definition remaining (u : util) (sz : Z) (l : list Z) : Prop :=
  ∃ b pre, scratch u = Some b ∧ block_ok b ∧ size b = sz ∧ Disk.data b = pre ++ l ∧ Zlength pre = 512 * extract_sector u.
(** Nothing else has changed. *)
Definition same_rest (u u' : util) : Prop := ufs u' = ufs u ∧ console u' = console u ∧ extract_sector u' = extract_sector u.

Lemma zeros_sector : Zlength zeros = 512 ∧ drop 1 zeros ++ [0] = zeros.
Proof. done. Qed.
Opaque zeros.

Lemma write_scratch_ok u sz l buf :
  appended u sz l → Zlength buf = 512 → Zlength l + 512 ≤ 512 * sz →
  ∃ u' b rest, write_scratch u (append_sector u) buf = Ok u' ∧ appended u' sz l ∧ scratch u' = Some b ∧ Disk.data b = l ++ buf ++ rest
    ∧ append_sector u' = append_sector u ∧ same_rest u u'.
Proof.
  intros (b & rest & Hb & (Hs & Hd & Ht) & Hsz & El & Hl) Hbuf Hroom. unfold write_scratch. rewrite Hb. cbn [from_opt mbind res_bind].
  unfold block_write, check_sector. rewrite (proj2 (Z.ltb_lt _ _)) by lia. rewrite bool_decide_eq_false_2 by done. cbn [negb mbind res_bind].
  unfold BLOCK_SECTOR_SIZE in *. rewrite <- Hl. rewrite El in *. unfold splice. rewrite Nat2Z.id, take_app_length, drop_app_add by done.
  eexists _, _, (drop 512 rest). rewrite length_app in Hd.
  replace (length buf) with 512%nat by lia. split; [reflexivity|]. split; [|done].
  eexists _, (buf ++ drop 512 rest). cbn. split; [reflexivity|]. cbn. split; [|by rewrite Hl].
  split; [done|]. split; [|done]. cbn. rewrite !length_app, length_drop. unfold BLOCK_SECTOR_SIZE. lia.
Qed.

Lemma write_next_ok u sz l buf :
  appended u sz l → Zlength buf = 512 → Zlength l + 512 ≤ 512 * sz →
  ∃ u', write_next u buf = Ok u' ∧ appended u' sz (l ++ buf) ∧ same_rest u u'.
Proof.
  intros Ha Hb Hr. destruct (write_scratch_ok u sz l buf Ha Hb Hr) as (u' & b & rest & E & (b' & r' & Hs & Hok & Hsz & Hd & Hl) & Hs' & Hd' & Ep & Hrest).
  unfold write_next. rewrite E. cbn [mbind res_bind]. eexists. split; [reflexivity|]. split; [|done]. assert (b' = b) as -> by congruence.
  exists b, rest. cbn. split; [done|]. split; [done|]. split; [done|]. split; [by rewrite <- app_assoc|]. destruct Hok as [? _].
  rewrite u32_small by lia. rewrite length_app. lia.
Qed.

Lemma read_next_ok u sz x l :
  remaining u sz (x ++ l) → Zlength x = 512 → ∃ u', read_next u = Ok (x, u') ∧ remaining u' sz l ∧ ufs u' = ufs u ∧ console u' = console u.
Proof.
  intros (b & pre & Hb & (Hs & Hd & Ht) & Hsz & El & Hl) Hx. unfold read_next. rewrite Hb. cbn [from_opt mbind res_bind].
  unfold BLOCK_SECTOR_SIZE in *. rewrite El, !length_app in Hd. unfold block_read, check_sector. rewrite (proj2 (Z.ltb_lt _ _)) by lia. cbn [mbind res_bind].
  unfold BLOCK_SECTOR_SIZE. rewrite El, <- Hl. unfold slice. rewrite Nat2Z.id, drop_app_length, take_app_length' by lia.
  eexists. split; [reflexivity|]. split; [|done]. exists (count_read b), (pre ++ x). cbn. split; [done|].
  split. { split; [done|]. split; [|done]. cbn. rewrite El, !length_app. unfold BLOCK_SECTOR_SIZE. lia. }
  split; [done|]. split; [by rewrite El, <- app_assoc|]. rewrite u32_small by lia. rewrite length_app. lia.
Qed.

(** ** Whole sectors *)

Definition pad (xs : list Z) : list Z := xs ++ replicate (Z.to_nat ((- Zlength xs) mod 512)) 0.

Lemma length_pad xs : Zlength (pad xs) = 512 * ((Zlength xs + 511) / 512).
Proof. unfold pad. rewrite length_app, length_replicate. Z.to_euclidean_division_equations; lia. Qed.
Lemma chunk_range n : 0 < n → 0 < chunk n ≤ 512 ∧ chunk n ≤ n.
Proof. unfold chunk, BLOCK_SECTOR_SIZE. destruct (Z.ltb_spec 512 n); lia. Qed.
Lemma pad_chunk ys :
  0 < Zlength ys → let c := Z.to_nat (chunk (Zlength ys)) in
  pad ys = (take c ys ++ replicate (Z.to_nat (512 - chunk (Zlength ys))) 0) ++ pad (drop c ys).
Proof.
  intros H c. unfold c, chunk, BLOCK_SECTOR_SIZE, pad. destruct (Z.ltb_spec 512 (Zlength ys)).
  - rewrite Z.sub_diag. cbn [replicate]. change (Z.to_nat 0) with 0%nat. cbn [replicate]. rewrite app_nil_r, app_assoc, take_drop. do 3 f_equal.
    rewrite length_drop. Z.to_euclidean_division_equations; lia.
  - rewrite Nat2Z.id, take_ge, drop_all by lia. change (pad []) with (@nil Z). cbn. rewrite app_nil_r. do 3 f_equal. Z.to_euclidean_division_equations; lia.
Qed.

(** ** Appending a file *)

Lemma append_loop_ok n : ∀ u a src id deny xs1 ys l sz,
  (length ys ≤ n)%nat → abstracts (ufs u) a → ahandles a !! src = Some (Handle id (Zlength xs1) deny) → astore a !! id = Some (xs1 ++ ys) →
  appended u sz l → Zlength l + Zlength (pad ys) ≤ 512 * sz →
  ∃ u', append_loop n u src (Zlength ys) = Ok u' ∧ appended u' sz (l ++ pad ys)
    ∧ abstracts (ufs u') (set_handle a src (Handle id (Zlength (xs1 ++ ys)) deny)) ∧ console u' = console u ∧ extract_sector u' = extract_sector u.
Proof.
  induction n as [|n IH]; intros u a src id deny xs1 ys l sz Hn Ha Hh Hx Happ Hroom; destruct (decide (ys = [])) as [->|Hne].
  1, 3: exists u; rewrite !app_nil_r; split_and!; try done; unfold set_handle; rewrite insert_id by done; by destruct a.
  { destruct ys; simpl in Hn; [done|lia]. }
  assert (0 < Zlength ys) as Hpos by (destruct ys; [done|simpl; lia]). pose proof (chunk_range _ Hpos) as Hc. pose proof (pad_chunk ys Hpos) as Hp. cbv zeta in Hp.
  pose proof (stored_length _ _ _ _ Ha Hx) as Hlen. rewrite length_app in Hlen.
  cbn [append_loop]. rewrite (proj2 (Z.ltb_lt 0 _)) by done. pose proof Happ as (b & rest & Hb & Hbo & Hsz & Hd & Hl). rewrite Hb. cbn [from_opt mbind res_bind].
  assert (Hl1 : Zlength l + 512 ≤ 512 * sz) by (rewrite length_pad in Hroom; Z.to_euclidean_division_equations; lia).
  unfold block_size. rewrite (proj2 (Z.leb_gt _ _)) by lia.
  destruct (read_ok (ufs u) a Ha src _ (xs1 ++ ys) (chunk (Zlength ys)) Hh Hx ltac:(lia)) as (s' & Er & Ha'). cbn [hpos hid hdeny] in *.
  assert (transfer (Zlength (xs1 ++ ys)) (Zlength xs1) (chunk (Zlength ys)) = chunk (Zlength ys)) as Et by (unfold transfer; rewrite length_app; lia).
  rewrite Et in Er, Ha'. rewrite Er. cbn [mbind res_bind].
  assert (slice (Zlength xs1) (chunk (Zlength ys)) (xs1 ++ ys) = take (Z.to_nat (chunk (Zlength ys))) ys) as ->
    by (unfold slice; by rewrite Nat2Z.id, drop_app_length).
  set (c := Z.to_nat (chunk (Zlength ys))) in *. rewrite (length_take_le ys c) by lia. rewrite (proj2 (Z.eqb_eq _ _)) by lia. cbn [negb].
  destruct (write_next_ok (set_fs u s') sz l (take c ys ++ replicate (Z.to_nat (BLOCK_SECTOR_SIZE - chunk (Zlength ys))) 0)) as (u1 & E1 & Happ1 & (F1 & F2 & F3));
    [done|rewrite length_app, length_replicate, length_take; unfold BLOCK_SECTOR_SIZE; lia|done|].
  rewrite E1. cbn [mbind res_bind]. replace (Zlength ys - chunk (Zlength ys)) with (Zlength (drop c ys)) by (rewrite length_drop; lia).
  destruct (IH u1 (set_handle a src (Handle id (Zlength (xs1 ++ take c ys)) deny)) src id deny (xs1 ++ take c ys) (drop c ys) (l ++ take c ys ++ replicate (Z.to_nat (BLOCK_SECTOR_SIZE - chunk (Zlength ys))) 0) sz)
    as (u' & E & Happ' & Ha2 & Ec & Ex).
  - rewrite length_drop. lia.
  - rewrite F1. cbn. rewrite length_app, length_take_le by lia. by replace (Z.of_nat (length xs1 + c)) with (Zlength xs1 + chunk (Zlength ys)) by lia.
  - by cbn; rewrite lookup_insert_eq.
  - cbn. by rewrite <- app_assoc, take_drop.
  - done.
  - rewrite Hp in Hroom. unfold BLOCK_SECTOR_SIZE. rewrite !length_app in *. lia.
  - exists u'. split; [done|]. rewrite Hp. unfold BLOCK_SECTOR_SIZE in Happ'. rewrite <- (app_assoc l) in Happ'. split; [done|].
    rewrite <- (app_assoc xs1), take_drop in Ha2. unfold set_handle in Ha2. cbn in Ha2. rewrite insert_insert_eq in Ha2. by rewrite Ec, Ex, F2, F3.
Qed.

(** A header for the file. *)
Definition is_header (h n xs : list Z) : Prop := Zlength h = 512 ∧ ustar_parse_header h = Ok (Parsed (Some n) USTAR_REGULAR (Zlength xs)).

Lemma header_made c n xs junk : name_ok n → Zlength xs < 2 ^ 31 → ∃ h, ustar_make_header c n USTAR_REGULAR (Zlength xs) junk = Ok (true, h, c) ∧ is_header h n xs.
Proof.
  intros (Hn & Hl & Hs) Hx. unfold NAME_MAX in Hl. eexists. split; [apply (make_header_eq n _ _ 1136102400 Hn ltac:(lia) (or_introl eq_refl)); [done|by apply strip_social]|].
  split.
  - apply put_all_ok; [apply zero_header_ok..|]. apply (made_fit n _ _ _ Hn ltac:(lia) (or_introl eq_refl)).
  - rewrite (made_parse n _ _ _ Hn ltac:(lia) (or_introl eq_refl)) by (done || lia). by rewrite (proj2 (Z.ltb_ge (Zlength xs) 0)) by lia.
Qed.

Lemma close_opened s a f id p deny n :
  abstracts s (set_handle a f (Handle id p deny)) → anames a !! n = Some id → ahandles a !! f = None →
  ∃ s', file_close s f = Ok s' ∧ abstracts s' a.
Proof.
  intros Ha Hn Hf. destruct (close_ok s _ Ha f (Handle id p deny)) as (s' & E & Ha'); [by cbn; rewrite lookup_insert_eq|by exists n|].
  exists s'. split; [done|]. cbn in Ha'. rewrite delete_insert_id in Ha' by done. by destruct a.
Qed.

Ltac plain_text := split; [repeat constructor; done|done].

Lemma fsutil_append_ok u a n xs junk l sz :
  name_ok n → abstracts (ufs u) a → holds a n xs → appended u sz l → Zlength l + 512 + Zlength (pad xs) + 512 ≤ 512 * sz →
  ∃ u' h, fsutil_append u n junk 0 = Ok u' ∧ is_header h n xs ∧ appended u' sz (l ++ h ++ pad xs) ∧ ended u' (l ++ h ++ pad xs)
    ∧ abstracts (ufs u') a ∧ extract_sector u' = extract_sector u.
Proof.
  intros Hn Ha (id & Hid & Hxs) Happ Hroom. unfold fsutil_append. rewrite say_name_ok by (apply Hn || plain_text). rewrite bind_ret.
  destruct (abstracts_malloc _ _ Ha) as [Hm1 Hm0]. cbn [ufs set_console]. destruct (malloc (ufs u)) as [buffer s0]. cbn [fst snd] in *.
  rewrite (proj2 (Z.eqb_neq buffer 0)) by done. destruct (open_ok s0 a Hm1 n id Hid) as (f & s1 & E1 & Hf0 & Hfn & Ha1). rewrite E1, bind_ret.
  rewrite (proj2 (Z.eqb_neq f 0)) by done. rewrite (length_ok s1 _ Ha1 f _ xs (lookup_insert_eq _ _ _)) by done. rewrite bind_ret.
  pose proof (stored_length _ _ _ _ Ha Hxs) as Hlen. pose proof Happ as (b & rest & Hb & _). cbv zeta. cbn [scratch set_fs set_console console]. rewrite Hb. cbn [from_opt]. rewrite bind_ret.
  destruct (header_made (console u ++ chars "Appending '" ++ n ++ chars "' to ustar archive on scratch device..." ++ [10]) n xs junk Hn ltac:(lia)) as (h & Eh & Hh).
  rewrite Eh, bind_ret. cbn [negb].
  match goal with |- context [write_next ?u2 h] => destruct (write_next_ok u2 sz l h Happ (proj1 Hh) ltac:(lia)) as (u3 & E3 & Happ3 & (F1 & F2 & F3)) end.
  rewrite E3, bind_ret. cbn in F1, F3.
  destruct (append_loop_ok (Z.to_nat (Zlength xs)) u3 (set_handle a f (Handle id 0 false)) f id false [] xs (l ++ h) sz) as (u4 & E4 & Happ4 & Ha4 & _ & F4);
    [lia|by rewrite F1|by cbn; rewrite lookup_insert_eq|done|done|rewrite length_app; destruct Hh; lia|].
  rewrite E4, bind_ret. cbv zeta. change (replicate 512 0) with zeros. destruct zeros_sector as [Hz Hz1]. rewrite Hz1.
  assert (Hr4 : Zlength ((l ++ h) ++ pad xs) + 512 ≤ 512 * sz) by (rewrite !length_app; destruct Hh; lia).
  destruct (write_scratch_ok u4 sz _ zeros Happ4 Hz Hr4) as (u5 & b5 & r5 & E5 & Happ5 & _ & _ & P5 & (F5 & _ & F5')). rewrite E5, bind_ret.
  destruct (write_scratch_ok u5 sz _ zeros Happ5 Hz Hr4) as (u6 & b6 & r6 & E6 & Happ6 & Hb6 & Hd6 & P6 & (F6 & _ & F6')). rewrite E6, bind_ret.
  rewrite F6, F5. unfold set_handle in Ha4. cbn in Ha4. rewrite insert_insert_eq in Ha4.
  destruct (close_opened _ a f id _ _ n Ha4 Hid Hfn) as (s7 & E7 & Ha7). rewrite E7, bind_ret. rewrite <- (app_assoc l h) in Happ6, Hd6.
  eexists _, h. split; [reflexivity|]. split; [done|]. split; [done|]. split; [by exists b6, r6|]. split; [done|]. cbn. congruence.
Qed.

(** The files of an archive, each with its header and whole sectors. *)
Inductive archived : list (list Z * list Z) → list Z → Prop :=
  | archived_nil : archived [] []
  | archived_cons n xs files h e : is_header h n xs → archived files e → archived ((n, xs) :: files) (h ++ pad xs ++ e).
Definition archive_size (files : list (list Z * list Z)) : Z := foldr (λ f k, 512 + Zlength (pad f.2) + k) 512 files.

Lemma archive_size_pos files : 512 * (1 + Zlength files) ≤ archive_size files.
Proof. unfold archive_size. induction files as [|f files IH]; cbn [foldr length]; lia. Qed.

Lemma append_all_ok files junk : ∀ u a l sz,
  Forall (λ f, name_ok f.1 ∧ holds a f.1 f.2) files → abstracts (ufs u) a → appended u sz l → Zlength l + archive_size files ≤ 512 * sz →
  ∃ u' e, append_all u files.*1 junk = Ok u' ∧ archived files e ∧ appended u' sz (l ++ e) ∧ abstracts (ufs u') a
    ∧ extract_sector u' = extract_sector u ∧ (files ≠ [] ∨ ended u l → ended u' (l ++ e)).
Proof.
  induction files as [|[n xs] files IH]; intros u a l sz Hf Ha Happ Hroom.
  { exists u, []. rewrite app_nil_r. do 2 (split; [done || constructor|]). split_and!; try done. by intros [?|?]. }
  apply Forall_cons in Hf as [[Hn Hx] Hf]. cbn in Hn, Hx. pose proof (archive_size_pos files).
  change (archive_size _) with (512 + Zlength (pad xs) + archive_size files) in Hroom.
  destruct (fsutil_append_ok u a n xs junk l sz) as (u1 & h & E1 & Hh & Happ1 & Hend & Ha1 & F1); [exact Hn|exact Ha|exact Hx|exact Happ|lia|].
  destruct (IH u1 a (l ++ h ++ pad xs) sz) as (u2 & e & E2 & He & Happ2 & Ha2 & F2 & Hend2); [exact Hf|exact Ha1|exact Happ1|..].
  { rewrite !length_app. destruct Hh. lia. }
  rewrite fmap_cons. cbn [append_all fst]. rewrite E1, bind_ret. exists u2, (h ++ pad xs ++ e). split; [done|]. split; [by constructor|].
  rewrite <- !app_assoc in Happ2, Hend2. split_and!; [done|done|congruence|]. intros _. apply Hend2. by right.
Qed.

(** ** Extracting a file *)

Lemma not_denied_move a id f p st : ¬ denied_id a id → ¬ denied_id (AFS (anames a) st (<[f := Handle id p false]> (ahandles a))) id.
Proof.
  intros Hd (g & h & Hg & Hid & Hdeny). cbn in Hg. apply lookup_insert_Some in Hg as [[<- <-]|[_ Hg]]; [done|]. apply Hd. by exists g, h.
Qed.

Lemma fill_chunk ys zs c buf :
  (c ≤ length zs)%nat → (c ≤ length buf)%nat → take c buf = take c zs →
  splice (Zlength ys) (take c buf) (ys ++ replicate (length zs) 0) = (ys ++ take c zs) ++ replicate (length (drop c zs)) 0.
Proof.
  intros H1 H2 E. unfold splice. rewrite Nat2Z.id, take_app_length, drop_app_add, E, length_take_le, drop_replicate, length_drop by lia.
  by rewrite <- app_assoc.
Qed.

Lemma extract_copy_ok n : ∀ u a dst id ys zs l sz,
  (length zs ≤ n)%nat → abstracts (ufs u) a → ahandles a !! dst = Some (Handle id (Zlength ys) false) →
  astore a !! id = Some (ys ++ replicate (length zs) 0) → ¬ denied_id a id → remaining u sz (pad zs ++ l) →
  ∃ u', extract_copy n u dst (Zlength zs) = Ok u' ∧ remaining u' sz l
    ∧ abstracts (ufs u') (AFS (anames a) (<[id := ys ++ zs]> (astore a)) (<[dst := Handle id (Zlength (ys ++ zs)) false]> (ahandles a))).
Proof.
  induction n as [|n IH]; intros u a dst id ys zs l sz Hn Ha Hh Hx Hd Hr; destruct (decide (zs = [])) as [->|Hne].
  1, 3: exists u; rewrite app_nil_r in *; cbn in Hx; split_and!; try done; rewrite !insert_id by (done || by rewrite Hx, app_nil_r); by destruct a.
  { destruct zs; simpl in Hn; [done|lia]. }
  assert (0 < Zlength zs) as Hpos by (destruct zs; [done|simpl; lia]). pose proof (chunk_range _ Hpos) as Hc. pose proof (pad_chunk zs Hpos) as Hp. cbv zeta in Hp.
  pose proof (stored_length _ _ _ _ Ha Hx) as Hlen. rewrite length_app, length_replicate in Hlen.
  cbn [extract_copy]. rewrite (proj2 (Z.ltb_lt 0 _)) by done. set (c := Z.to_nat (chunk (Zlength zs))) in *. rewrite Hp, <- app_assoc in Hr.
  set (buf := take c zs ++ _) in Hr.
  assert (Hbuf : Zlength buf = 512) by (unfold buf; rewrite length_app, length_replicate, length_take; lia).
  assert (Htk : take c buf = take c zs) by (unfold buf; rewrite take_app_le, take_take, Nat.min_id by (rewrite length_take; lia); done).
  destruct (read_next_ok u sz buf _ Hr Hbuf) as (u1 & E1 & Hr1 & F1 & F1'). rewrite E1, bind_ret.
  rewrite <- F1 in Ha. destruct (write_ok (ufs u1) a Ha dst _ _ buf (chunk (Zlength zs)) Hh Hx ltac:(lia) ltac:(lia) Hd) as (s2 & E2 & Ha2). cbn [hpos hid hdeny] in *.
  assert (transfer (Zlength (ys ++ replicate (length zs) 0)) (Zlength ys) (chunk (Zlength zs)) = chunk (Zlength zs)) as Et
    by (unfold transfer; rewrite length_app, length_replicate; lia).
  rewrite Et in E2, Ha2. rewrite E2, bind_ret, Z.eqb_refl. cbn [negb]. fold c in Ha2. rewrite fill_chunk in Ha2 by (done || lia).
  replace (Zlength zs - chunk (Zlength zs)) with (Zlength (drop c zs)) by (rewrite length_drop; lia).
  destruct (IH (set_fs u1 s2) _ dst id (ys ++ take c zs) (drop c zs) l sz ltac:(rewrite length_drop; lia) Ha2) as (u' & E & Hr' & Ha').
  - cbn. rewrite lookup_insert_eq, length_app, length_take_le by lia. repeat f_equal. lia.
  - cbn. by rewrite lookup_insert_eq.
  - by apply not_denied_move.
  - done.
  - exists u'. split; [done|]. split; [done|]. cbn in Ha'. by rewrite !insert_insert_eq, <- app_assoc, take_drop in Ha'.
Qed.

(** The abstract file system with a file more. *)
Definition add_file (a : afs) (n xs : list Z) (id : Z) : afs := AFS (<[n := id]> (anames a)) (<[id := xs]> (astore a)) (ahandles a).

Lemma extract_file_ok u a n xs l sz junk :
  name_ok n → anames a !! n = None → Zlength xs < 2 ^ 31 → Zlength (junk n) = 20 → abstracts (ufs u) a → remaining u sz (pad xs ++ l) →
  (∃ u' id, extract_file u n (Zlength xs) junk = Ok u' ∧ remaining u' sz l ∧ astore a !! id = None ∧ abstracts (ufs u') (add_file a n xs id))
  ∨ (extract_file u n (Zlength xs) junk = Panic ∧ no_space (ufs u) (Zlength xs)).
Proof.
  intros Hn Hnone Hlen Hj Ha Hr. unfold extract_file. rewrite say_name_ok by (apply Hn || plain_text). rewrite bind_ret. cbn [ufs set_console].
  destruct (create_ok (ufs u) a Ha n (Zlength xs) (junk n) Hn Hnone ltac:(lia) Hj) as [(s1 & id & E1 & Hid & Ha1)|(s1 & E1 & Hfull)];
    rewrite E1, bind_ret; cbn [negb]; [left|by right].
  rewrite Nat2Z.id in Ha1. destruct (open_ok s1 _ Ha1 n id (lookup_insert_eq _ _ _)) as (f & s2 & E2 & Hf0 & Hfn & Ha2). rewrite E2, bind_ret.
  rewrite (proj2 (Z.eqb_neq f 0)) by done. cbn in Hfn.
  match goal with |- context [extract_copy _ ?u2 _ _] =>
    destruct (extract_copy_ok (Z.to_nat (Zlength xs)) u2 _ f id [] xs l sz ltac:(lia) Ha2) as (u3 & E3 & Hr3 & Ha3) end.
  - cbn. by rewrite lookup_insert_eq.
  - cbn. by rewrite lookup_insert_eq.
  - intros (g & h & Hg & Hgid & Hdeny). cbn in Hg. apply lookup_insert_Some in Hg as [[<- <-]|[_ Hg]]; [done|].
    destruct (abstracts_handle _ _ _ _ Ha Hg) as [ys Hys]. by rewrite Hgid, Hid in Hys.
  - done.
  - rewrite E3, bind_ret. cbn in Ha3. rewrite !insert_insert_eq in Ha3.
    destruct (close_opened _ (add_file a n xs id) f id _ _ n Ha3) as (s4 & E4 & Ha4); [by apply lookup_insert_eq|done|].
    rewrite E4, bind_ret. by exists (set_fs u3 s4), id.
Qed.

(** ** Extracting an archive *)

Inductive added (a : afs) : list (list Z * list Z) → afs → Prop :=
  | added_nil : added a [] a
  | added_cons n xs id files a' :
      anames a !! n = None → astore a !! id = None → added (add_file a n xs id) files a' → added a ((n, xs) :: files) a'.
(** The file system has these files in addition, and the same handles. *)
Definition has_more (a : afs) (files : list (list Z * list Z)) (a' : afs) : Prop :=
  (∀ n xs, holds a' n xs ↔ holds a n xs ∨ (n, xs) ∈ files) ∧ ahandles a' = ahandles a.

Lemma holds_add a n xs id m ys :
  anames a !! n = None → astore a !! id = None → (∀ m i, anames a !! m = Some i → is_Some (astore a !! i)) →
  holds (add_file a n xs id) m ys ↔ holds a m ys ∨ (m, ys) = (n, xs).
Proof.
  intros Hn Hid Hd. unfold holds, add_file. cbn [anames astore]. split.
  - intros (i & [[<- <-]|[Hm Hi]]%lookup_insert_Some & Hs); [rewrite lookup_insert_eq in Hs; by right; simplify_eq|]. left. exists i. split; [done|].
    rewrite lookup_insert_ne in Hs; [done|]. intros ->. destruct (Hd _ _ Hi). congruence.
  - intros [(i & Hi & Hs)|[= -> ->]]; [|by exists id; rewrite !lookup_insert_eq]. exists i. rewrite !lookup_insert_ne by congruence. done.
Qed.
Lemma added_more files : ∀ a a', (∀ m i, anames a !! m = Some i → is_Some (astore a !! i)) → added a files a' → has_more a files a'.
Proof.
  induction files as [|[n xs] files IH]; intros a a' Hd H; inversion H; simplify_eq.
  { split; [|done]. intros n xs. split; [by left|]. intros [?|?%elem_of_nil]; done. }
  destruct (IH (add_file a n xs id) a') as [Hh Hha]; [|done|].
  - cbn. intros m i [[<- <-]|[_ Hi]]%lookup_insert_Some; [by rewrite lookup_insert_eq|]. destruct (decide (i = id)) as [->|]; [by rewrite lookup_insert_eq|].
    rewrite lookup_insert_ne by done. by apply (Hd m).
  - split; [|done]. intros m ys. rewrite Hh, holds_add by done. rewrite elem_of_cons. naive_solver.
Qed.

(** Why an extraction fails: there is no room for some file after those before it. *)
Definition out_of_space (a : afs) (files : list (list Z * list Z)) : Prop :=
  ∃ pre f post a1 s1, files = pre ++ f :: post ∧ has_more a pre a1 ∧ abstracts s1 a1 ∧ no_space s1 (Zlength f.2).

Lemma extract_loop_ok junk sz l files : ∀ n u a e,
  (length files < n)%nat → archived files e → Forall (λ f, name_ok f.1 ∧ Zlength f.2 < 2 ^ 31 ∧ Zlength (junk f.1) = 20) files →
  NoDup files.*1 → Forall (λ f, anames a !! f.1 = None) files → abstracts (ufs u) a → remaining u sz (e ++ zeros ++ l) →
  (∃ u' a', extract_loop n u junk = Ok u' ∧ added a files a' ∧ abstracts (ufs u') a' ∧ remaining u' sz l)
  ∨ (extract_loop n u junk = Panic ∧ ∃ pre f post a1 s1, files = pre ++ f :: post ∧ added a pre a1 ∧ abstracts s1 a1 ∧ no_space s1 (Zlength f.2)).
Proof.
  induction files as [|[n xs] files IH]; intros k u a e Hk He Hf Hnd Hnew Ha Hr; destruct k as [|k]; simpl in Hk; try lia; cbn [extract_loop];
    inversion He as [|? ? ? h e0 [Hh Hp] He0]; simplify_eq.
  - cbn [app] in Hr. destruct (read_next_ok u sz zeros _ Hr (proj1 zeros_sector)) as (u1 & E1 & Hr1 & F1 & _). rewrite E1, bind_ret.
    assert (ustar_parse_header zeros = Ok (Parsed None USTAR_EOF 0)) as -> by (vm_compute; reflexivity). rewrite bind_ret. cbn [Z.eqb USTAR_EOF].
    left. exists u1, a. split; [done|]. split; [constructor|]. by rewrite F1.
  - rewrite <- !app_assoc in Hr. destruct (read_next_ok u sz h _ Hr Hh) as (u1 & E1 & Hr1 & F1 & _). rewrite E1, bind_ret, Hp, bind_ret.
    change (USTAR_REGULAR =? USTAR_EOF) with false. cbn [from_opt]. rewrite bind_ret. change (USTAR_REGULAR =? USTAR_DIRECTORY) with false. rewrite Z.eqb_refl. cbv iota.
    apply Forall_cons in Hf as [(Hn & Hl & Hj) Hf]. apply Forall_cons in Hnew as [Hnone Hnew]. rewrite fmap_cons in Hnd. apply NoDup_cons in Hnd as [Hni Hnd]. cbn [fst snd] in *.
    rewrite <- F1 in Ha. destruct (extract_file_ok u1 a n xs _ sz junk Hn Hnone Hl Hj Ha Hr1) as [(u2 & id & E2 & Hr2 & Hid & Ha2)|[E2 Hfull]].
    2: { right. rewrite E2. split; [done|]. exists [], (n, xs), files, a, (ufs u1). split_and!; [done|constructor|done|done]. }
    rewrite E2, bind_ret. destruct (IH k u2 (add_file a n xs id) e0) as [(u3 & a3 & E3 & Had & Ha3 & Hr3)|[E3 (pre & f & post & a1 & s1 & -> & Had & Ha1 & Hno)]]; try done; [lia| | |].
    + rewrite Forall_forall in *. intros f Hin. cbn. rewrite lookup_insert_ne; [by apply Hnew|]. intros ->. apply Hni. apply list_elem_of_fmap. by exists f.
    + left. exists u3, a3. split; [done|]. split; [by apply (added_cons a n xs id)|done].
    + right. split; [done|]. exists ((n, xs) :: pre), f, post, a1, s1. split; [done|]. split; [by apply (added_cons a n xs id)|done].
Qed.

Lemma fsutil_extract_ok v c sz e l junk files :
  2 ≤ sz → (length files < S (Z.to_nat sz))%nat → archived files e →
  Forall (λ f, name_ok f.1 ∧ Zlength f.2 < 2 ^ 31 ∧ Zlength (junk f.1) = 20) files → NoDup files.*1 → Forall (λ f, anames c !! f.1 = None) files →
  abstracts (ufs v) c → remaining v sz (e ++ zeros ++ l) →
  (∃ v' c', fsutil_extract v junk = Ok v' ∧ abstracts (ufs v') c' ∧ has_more c files c') ∨ (fsutil_extract v junk = Panic ∧ out_of_space c files).
Proof.
  intros Hsz Hn He Hf Hnd Hnew Hc Hr. unfold fsutil_extract. destruct (abstracts_malloc _ _ Hc) as [Hm1 Hm0].
  destruct (malloc (ufs v)) as [p1 s1]. cbn [fst snd] in *. destruct (abstracts_malloc _ _ Hm1) as [Hm2 Hm3]. destruct (malloc s1) as [p2 s2]. cbn [fst snd] in *.
  rewrite (proj2 (Z.eqb_neq p1 0)), (proj2 (Z.eqb_neq p2 0)) by done. cbn [orb]. cbv zeta. cbn [scratch set_fs].
  pose proof Hr as (b & pre & Hb & _ & Eb & _). rewrite Hb. cbn [from_opt]. rewrite bind_ret, Eb. rewrite say_line_ok by plain_text. rewrite bind_ret.
  assert (Hd : ∀ m i, anames c !! m = Some i → is_Some (astore c !! i)) by (intros m i; by apply (abstracts_named (ufs v))).
  match goal with |- context [extract_loop _ ?u _] =>
    destruct (extract_loop_ok junk sz l files (S (Z.to_nat sz)) u c e) as [(u' & c' & E & Hadd & Hc' & Hr')|[E (q & f & post & a1 & s3 & -> & Had & Ha1 & Hno)]]; try done end.
  - left. rewrite E, bind_ret, say_line_ok by plain_text. rewrite bind_ret. destruct Hr' as (b' & pre' & Hb' & (Hs' & _ & Ht') & Eb' & _).
    unfold write_scratch. cbn [scratch set_console set_scratch]. rewrite Hb'. cbn [from_opt]. rewrite bind_ret. unfold block_write, check_sector.
    rewrite (proj2 (Z.ltb_lt 0 _)), bool_decide_eq_false_2 by (done || lia). cbn [negb mbind res_bind]. cbn [scratch set_console set_scratch from_opt mbind res_bind].
    cbn [size type set_data]. rewrite (proj2 (Z.ltb_lt 1 _)), bool_decide_eq_false_2 by (done || lia). cbn [negb mbind res_bind].
    eexists _, c'. split; [reflexivity|]. split; [done|]. by apply added_more.
  - right. rewrite E. split; [done|]. exists q, f, post, a1, s3. split; [done|]. split; [by apply added_more|done].
Qed.

(** Any other byte behind the buffer makes the archive unreadable: its last sector is taken for a header. *)
Lemma end_marker_junk behind : behind ≠ 0 → ustar_parse_header (drop 1 zeros ++ [behind]) = Ok (Bad "not a ustar archive").
Proof.
  intros Hb. unfold ustar_parse_header.
  assert (is_all_zeros (drop 1 zeros ++ [behind]) = false) as ->.
  { apply not_true_is_false. intros H. unfold is_all_zeros in H. rewrite forallb_app in H. apply andb_prop in H as [_ H]. simpl in H. by destruct behind. }
  reflexivity.
Qed.


(** A file of 600 bytes is copied to the scratch device and from there into an empty file system. *)
Definition demo_src : fs := match filesys_create demo_fs [97; 98] 600 (replicate 20 1) with Ok (_, s) => s | _ => demo_fs end.
Definition demo_scratch : block := Block [] BLOCK_SCRATCH 8 (replicate 4096 7) 0 0.
Definition demo_util : util := Util demo_src (Some demo_scratch) 0 0 [].
Definition demo_target (b : option block) : util := Util demo_fs b 0 0 [].

Lemma demo_name_ok : name_ok [97; 98].
Proof. split; [by repeat constructor|]. by split. Qed.
Lemma demo_src_ok : ∃ a, abstracts demo_src a ∧ holds a [97; 98] (replicate 600 0).
Proof.
  destruct (create_ok demo_fs (AFS ∅ ∅ ∅) demo_fs_empty [97; 98] 600 (replicate 20 1) demo_name_ok) as [(s & id & E & _ & Ha)|(s & E & _)]; [done|lia|done|..].
  - unfold demo_src. rewrite E. eexists. split; [exact Ha|]. exists id. clear. cbn. by rewrite !lookup_insert_eq.
  - assert (match filesys_create demo_fs [97; 98] 600 (replicate 20 1) with Ok (true, _) => true | _ => false end = true) as Hc by (vm_compute; reflexivity).
    rewrite E in Hc. discriminate Hc.
Qed.
Lemma demo_extracts :
  match append_all demo_util [[97; 98]] [] with
  | Ok u => match fsutil_extract (demo_target (scratch u)) (λ _, replicate 20 1) with Ok _ => true | _ => false end
  | _ => false
  end = true.
Proof. vm_compute. reflexivity. Qed.


(** ** Deleting *)

(** [fsutil_rm] removes the name; what is stored goes with it unless the file is open. *)
Lemma fsutil_rm_ok u a n :
  name_ok n → abstracts (ufs u) a →
  match anames a !! n with
  | Some id => ∃ u' st, fsutil_rm u n = Ok u' ∧ abstracts (ufs u') (AFS (delete n (anames a)) st (ahandles a))
      ∧ (referred a id → st = astore a) ∧ (¬ referred a id → st = delete id (astore a))
  | None => fsutil_rm u n = Panic
  end.
Proof.
  intros Hn Ha. unfold fsutil_rm. rewrite say_name_ok by (apply Hn || plain_text). rewrite bind_ret. cbn [ufs set_console].
  destruct Ha as (T & R & Hy & Es & Eh). destruct (refines_remove (ufs u) a T R Hy Es Eh n) as (r & s' & a' & E & Hst & Ha'). simpl in E.
  destruct (filesys_remove (ufs u) n) as [[ok s1]| |]; simplify_eq/=.
  inversion Hst as [| | | |? id st Hid H1 H2|? Hnone| | | | | | | | |]; simplify_eq; destruct ok; simplify_eq/=.
  - rewrite Hid. by eexists _, st.
  - by rewrite Hnone.
Qed.

(** ** Printing a file *)

Lemma bind_ext {A B} (m : res A) (f g : A → res B) : (∀ x, f x = g x) → (x ← m; f x) = (x ← m; g x).
Proof. intros H. destruct m; [apply H|done..]. Qed.
Lemma bind_assoc {A B C} (m : res A) (f : A → res B) (g : B → res C) : (y ← (x ← m; f x); g y) = (x ← m; y ← f x; g y).
Proof. by destruct m. Qed.

(** The bound of [hex_dump] does not matter if it is large enough. *)
Lemma hex_dump_bound f1 : ∀ f2 c p l asc, (length l < f1)%nat → (length l < f2)%nat → hex_dump f1 c p l asc = hex_dump f2 c p l asc.
Proof.
  induction f1 as [|f1 IH]; intros [|f2] c p l asc H1 H2; try lia. cbn [hex_dump]. destruct (Z.ltb_spec 0 (Zlength l)) as [Hl|]; [|done].
  set (start := p mod per_line). set (end_ := if _ <? per_line - start then _ else _).
  assert (Hn : 1 ≤ end_ - start) by (unfold end_, start, per_line; destruct (Z.ltb_spec (Zlength l) (16 - p mod 16)); pose proof (Z.mod_pos_bound p 16); lia).
  do 5 (apply bind_ext; intros ?). apply IH; rewrite length_drop; lia.
Qed.

(** Whole lines come first. *)
Lemma hex_dump_app k : ∀ c p l1 l2 asc, p mod 16 = 0 → 0 ≤ p → p + Zlength l1 < 2 ^ 32 → length l1 = (16 * k)%nat →
  hex_dump (S (length (l1 ++ l2))) c p (l1 ++ l2) asc = (c ← hex_dump (S (length l1)) c p l1 asc; hex_dump (S (length l2)) c (p + Zlength l1) l2 asc).
Proof.
  induction k as [|k IH]; intros c p l1 l2 asc Hm Hp Hb Hl.
  { destruct l1; [|done]. cbn [app length]. by rewrite Z.add_0_r. }
  assert (Hl2 : Zlength (l1 ++ l2) = Zlength l1 + Zlength l2) by (rewrite length_app; lia).
  remember (λ c, hex_dump (S (length l2)) c (p + Zlength l1) l2 asc) as tail eqn:Et.
  cbn [hex_dump]. unfold per_line. rewrite !(proj2 (Z.ltb_lt 0 _)) by lia. rewrite Hm, Z.sub_0_r, !(proj2 (Z.ltb_ge _ 16)) by lia.
  change (Z.to_nat (16 - 0)) with 16%nat. rewrite take_app_le, drop_app_le by lia.
  do 5 (rewrite bind_assoc; apply bind_ext; intros ?). change (16 - 0) with 16. rewrite u32_small by lia. change (Z.to_nat 16) with 16%nat.
  rewrite (hex_dump_bound (length (l1 ++ l2)) (S (length (drop 16 l1 ++ l2)))) by (rewrite !length_app, length_drop; lia).
  rewrite (hex_dump_bound (length l1) (S (length (drop 16 l1)))) by (rewrite length_drop; lia).
  rewrite IH; [|rewrite Z.add_mod, Hm by lia; done|lia|rewrite length_drop; lia|rewrite length_drop; lia].
  rewrite Et. apply bind_ext. intros ?.
  replace (p + 16 + Zlength (drop 16 l1)) with (p + Zlength l1) by (rewrite length_drop; lia). reflexivity.
Qed.

Lemma cat_loop_ok n : ∀ s a f id deny xs1 ys,
  (length ys < n)%nat → abstracts s a → ahandles a !! f = Some (Handle id (Zlength xs1) deny) → astore a !! id = Some (xs1 ++ ys) →
  ys = [] ∨ Zlength xs1 mod PGSIZE = 0 →
  ∃ s', abstracts s' (set_handle a f (Handle id (Zlength (xs1 ++ ys)) deny)) ∧
    ∀ u, ufs u = s → cat_loop n u f = (c ← hex_dump (S (length ys)) (console u) (Zlength xs1) ys true; Ok (set_console (set_fs u s') c)).
Proof.
  induction n as [|n IH]; intros s a f id deny xs1 ys Hn Ha Hh Hx Hal; [lia|].
  pose proof (stored_length _ _ _ _ Ha Hx) as Hlen. rewrite length_app in Hlen.
  destruct (read_ok s a Ha f _ _ PGSIZE Hh Hx) as (s1 & Er & Ha1); [unfold PGSIZE; lia|]. cbn [hpos hid hdeny] in *.
  set (m := transfer _ _ _) in *.
  assert (Hm : m = Z.min PGSIZE (Zlength ys)) by (unfold m, transfer, PGSIZE; rewrite length_app; lia).
  assert (Esl : slice (Zlength xs1) m (xs1 ++ ys) = take (Z.to_nat m) ys) by (unfold slice; by rewrite Nat2Z.id, drop_app_length). rewrite Esl in Er.
  assert (Htk : Zlength (take (Z.to_nat m) ys) = m) by (rewrite length_take; unfold PGSIZE in *; lia).
  destruct (decide (ys = [])) as [->|Hne].
  { exists s1. replace (Zlength xs1 + m) with (Zlength (xs1 ++ [])) in Ha1 by (rewrite app_nil_r; cbn in Hm; unfold PGSIZE in *; lia). split; [done|].
    intros u <-. cbn [cat_loop]. rewrite (tell_ok _ a Ha f _ Hh), bind_ret, Er, bind_ret. rewrite take_nil. cbv zeta. change (Zlength [] =? 0) with true. cbv iota.
    assert (∀ c, hex_dump (S (length (@nil Z))) c (Zlength xs1) [] true = Ok c) as -> by reflexivity. rewrite bind_ret. by destruct u. }
  assert (0 < Zlength ys) as Hpos by (destruct ys; [done|simpl; lia]). destruct Hal as [?|Hal]; [done|].
  destruct (IH s1 _ f id deny (xs1 ++ take (Z.to_nat m) ys) (drop (Z.to_nat m) ys) ltac:(rewrite length_drop; unfold PGSIZE in *; lia) Ha1) as (s2 & Ha2 & E2).
  - cbn. rewrite lookup_insert_eq, length_app. do 2 f_equal. lia.
  - cbn. by rewrite <- app_assoc, take_drop.
  - destruct (decide (Zlength ys ≤ PGSIZE)); [left; apply drop_ge; lia|]. right. rewrite length_app, Nat2Z.inj_add, Htk, Hm, Z.min_l by lia.
    rewrite Z.add_mod, Hal by (unfold PGSIZE; lia). done.
  - exists s2. rewrite <- app_assoc, take_drop in Ha2. unfold set_handle in Ha2. cbn in Ha2. rewrite insert_insert_eq in Ha2. split; [done|].
    intros u <-. cbn [cat_loop]. rewrite (tell_ok _ a Ha f _ Hh), bind_ret, Er, bind_ret. cbv zeta. cbn [hpos]. rewrite Htk, (proj2 (Z.eqb_neq m 0)) by (unfold PGSIZE in *; lia).
    rewrite u32_small by lia. set (mn := Z.to_nat m) in *.
    transitivity (c ← hex_dump (S (length (take mn ys))) (console u) (Zlength xs1) (take mn ys) true; c ← hex_dump (S (length (drop mn ys))) c (Zlength xs1 + m) (drop mn ys) true;
      Ok (set_console (set_fs u s2) c)).
    + apply bind_ext. intros c. rewrite E2 by done. cbn [console set_console]. rewrite length_app, Nat2Z.inj_add, Htk. by apply bind_ext.
    + destruct (decide (Zlength ys ≤ PGSIZE)).
      * rewrite drop_ge, take_ge by lia. apply bind_ext. done.
      * rewrite <- bind_assoc, <- Htk. rewrite <- (hex_dump_app 256), take_drop; [done| |lia|lia|].
        -- unfold PGSIZE in Hal. Z.to_euclidean_division_equations; lia.
        -- rewrite length_take. unfold PGSIZE in *. lia.
Qed.

(** [fsutil_cat] prints what [hex_dump] prints of the whole contents, though it reads them page by page. *)
Lemma fsutil_cat_ok u a n xs :
  name_ok n → abstracts (ufs u) a → holds a n xs →
  ∃ s', abstracts s' a ∧
    fsutil_cat u n true =
      (c ← hex_dump (S (length xs)) (console u ++ chars "Printing '" ++ n ++ chars "' to the console..." ++ [10]) 0 xs true; Ok (set_console (set_fs u s') c)).
Proof.
  intros Hn Ha (id & Hid & Hxs). destruct (open_ok _ a Ha n id Hid) as (f & s1 & E1 & Hf0 & Hfn & Ha1).
  destruct (cat_loop_ok (S (S (length xs))) s1 _ f id false [] xs ltac:(lia) Ha1 (lookup_insert_eq _ _ _) Hxs (or_intror eq_refl)) as (s2 & Ha2 & E2).
  unfold set_handle in Ha2. cbn [ahandles anames astore] in Ha2. rewrite insert_insert_eq in Ha2.
  destruct (close_opened s2 a f id _ _ n Ha2 Hid Hfn) as (s3 & E3 & Ha3).
  exists s3. split; [done|]. unfold fsutil_cat. rewrite say_name_ok by (apply Hn || plain_text). rewrite bind_ret. cbn [ufs set_console]. rewrite E1, bind_ret.
  rewrite (proj2 (Z.eqb_neq f 0)) by done. rewrite (length_ok s1 _ Ha1 f _ xs (lookup_insert_eq _ _ _) Hxs), bind_ret, Nat2Z.id.
  rewrite E2 by done. rewrite bind_assoc. apply bind_ext. intros c. rewrite bind_ret. cbn [ufs set_console set_fs]. rewrite E3, bind_ret. reflexivity.
Qed.

(** ** Listing the directory *)

Definition entry_name (e : dir_entry) : option (list Z) := if in_use e then cstring (ename e) else None.
(** The names in the slots from [k] on. *)
Definition listing (D : list Z) (k : Z) : list (list Z) := omap (λ j, entry_name (slot D j)) (seqZ k (slots D - k)).

Lemma listing_end D : listing D (slots D) = [].
Proof. unfold listing. by rewrite Z.sub_diag. Qed.
Lemma listing_step D k : k < slots D → listing D k = match entry_name (slot D k) with Some n => [n] | None => [] end ++ listing D (k + 1).
Proof.
  intros Hk. unfold listing. rewrite seqZ_cons by lia. replace (slots D - (k + 1)) with (Z.pred (slots D - k)) by lia.
  change (Z.succ k) with (k + 1). cbn. by destruct (entry_name _).
Qed.

Section listing.
Context (T : gmap Z inode_disk) (R : Z → Prop) (X : Z → Z) (ip : Z) (i : inode) (D : list Z) (N : gmap (list Z) Z).
Context (HN : dir_ok D N).

Lemma entries_open s : dir_open_at T R X ip i D s → entries s ip = S (Z.to_nat (slots D)).
Proof.
  intros Ho. destruct (dir_open_at_length T R X ip i D s Ho) as [HL _]. unfold entries. destruct Ho as (_ & _ & -> & _).
  unfold inode_length, ENTRY_SIZE. by rewrite <- HL.
Qed.

Lemma readdir_loop_ok n : ∀ s k,
  dir_open_at T R X ip i D s → 0 ≤ k ≤ slots D → (Z.to_nat (slots D - k) < n)%nat →
  ∃ r d s', readdir_loop n s (Dir ip (20 * k)) = Ok (r, d, s') ∧ same_data s s' ∧
    match r with
    | Some nm => ∃ k', d = Dir ip (20 * k') ∧ k < k' ≤ slots D ∧ listing D k = nm :: listing D k'
    | None => listing D k = [] ∧ dinode d = ip
    end.
Proof.
  induction n as [|n IH]; intros s k Ho Hk Hn; [lia|]. cbn [readdir_loop dinode dpos].
  destruct (read_entry T R X ip i D s k Ho Hk) as (e & s1 & -> & Hs1 & He). rewrite bind_ret. unfold ENTRY_SIZE. case_decide as Hlt.
  2:{ rewrite (proj2 (Z.eqb_neq _ _)) by lia. eexists None, _, s1. split; [reflexivity|]. split; [done|]. replace k with (slots D) by lia. by rewrite listing_end. }
  destruct He as [-> Hl]. rewrite (proj2 (Z.eqb_eq _ _)) by done. change (entry_of (slice (20 * k) 20 D)) with (slot D k). cbv zeta.
  destruct (dir_open_at_length T R X ip i D s Ho) as [_ HL]. rewrite s32_small by (unfold slots in *; Z.to_euclidean_division_equations; lia).
  replace (20 * k + 20) with (20 * (k + 1)) by lia. rewrite (listing_step D k Hlt). unfold entry_name. destruct (in_use (slot D k)) eqn:Hu.
  - destruct (dk_entry _ _ HN k ltac:(lia) Hu) as (nm & sec & (_ & _ & Hc & _)). rewrite Hc. cbn [from_opt]. rewrite bind_ret.
    eexists (Some nm), _, s1. split; [reflexivity|]. split; [done|]. exists (k + 1). split; [done|]. split; [lia|done].
  - destruct (IH s1 (k + 1)) as (r & d & s2 & E & Hs2 & Hr); [by apply (dir_open_at_same _ _ _ _ _ _ s)|lia|lia|].
    exists r, d, s2. split; [done|]. split; [by transitivity s1|]. destruct r; [|done]. destruct Hr as (k' & ? & ? & ?). exists k'. split; [done|]. split; [lia|done].
Qed.

Definition printable (n : list Z) : Prop := Forall (λ c, 0 < c < 2 ^ 8) n ∧ Zlength n ≤ NAME_MAX.
Definition lines (ns : list (list Z)) : list Z := concat ((λ n, n ++ [10]) <$> ns).

Lemma ls_loop_ok n : ∀ u k,
  dir_open_at T R X ip i D (ufs u) → 0 ≤ k ≤ slots D → (Z.to_nat (slots D - k) < n)%nat → Forall printable (listing D k) →
  ∃ d u', ls_loop n u (Dir ip (20 * k)) = Ok (d, u') ∧ dinode d = ip ∧ same_data (ufs u) (ufs u') ∧ console u' = console u ++ lines (listing D k).
Proof.
  induction n as [|n IH]; intros u k Ho Hk Hn Hp; [lia|]. cbn [ls_loop]. unfold dir_readdir.
  cbn [dinode]. rewrite (entries_open _ Ho). destruct (readdir_loop_ok (S (Z.to_nat (slots D))) (ufs u) k Ho Hk) as (r & d & s1 & E & Hs & Hr); [lia|].
  rewrite E, bind_ret. cbv zeta. destruct r as [nm|].
  - destruct Hr as (k' & -> & Hk' & El). rewrite El in Hp |- *. apply Forall_cons in Hp as [[Hc Hl] Hp]. rewrite say_name_ok by (done || plain_text). rewrite bind_ret.
    match goal with |- context [ls_loop n ?v _] => destruct (IH v k') as (d & u' & E' & Hd & Hs' & Ec) end; [by apply (dir_open_at_same _ _ _ _ _ _ (ufs u))|lia|lia|done|].
    exists d, u'. split; [done|]. split; [done|]. split; [by transitivity s1|]. rewrite Ec. cbn [console set_console set_fs]. unfold lines. rewrite fmap_cons. cbn [concat app].
    by rewrite <- !app_assoc.
  - destruct Hr as [-> Hd]. exists d, (set_fs u s1). split; [done|]. split; [done|]. split; [done|]. cbn. by rewrite app_nil_r.
Qed.

Lemma listing_elem k nm : 0 ≤ k → nm ∈ listing D k ↔ ∃ j, k ≤ j ∧ ∃ sec, gives D j nm sec.
Proof.
  intros Hk. unfold listing. rewrite list_elem_of_omap. setoid_rewrite elem_of_seqZ. unfold entry_name, gives. split.
  - intros (j & Hj & E). exists j. split; [lia|]. exists (inode_sector (slot D j)). destruct (in_use (slot D j)); [|done]. split; [lia|done].
  - intros (j & Hj & sec & Hj' & Hu & Hc & _). exists j. rewrite Hu. split; [lia|done].
Qed.
Lemma listing_nodup n : ∀ k, 0 ≤ k ≤ slots D → (Z.to_nat (slots D - k) = n)%nat → NoDup (listing D k).
Proof.
  induction n as [|n IH]; intros k Hk Hn; [replace k with (slots D) by lia; rewrite listing_end; constructor|].
  rewrite listing_step by lia. unfold entry_name. specialize (IH (k + 1) ltac:(lia) ltac:(lia)). destruct (in_use (slot D k)) eqn:Hu; [|done].
  destruct (cstring (ename (slot D k))) as [nm|] eqn:Hc; [|done]. apply NoDup_cons. split; [|done]. rewrite listing_elem by lia. intros (j & Hj & sec & Hg).
  assert (j = k) by (apply (dk_uniq _ _ HN j k nm sec (inode_sector (slot D k))); [done|split; [lia|done]]). lia.
Qed.
End listing.

(** [fsutil_ls] prints every name of the directory once, each on a line, and changes nothing. *)
Lemma fsutil_ls_ok u a :
  abstracts (ufs u) a → (∀ n, is_Some (anames a !! n) → printable n) →
  ∃ u' ns, fsutil_ls u = Ok u' ∧ abstracts (ufs u') a ∧ NoDup ns ∧ (∀ n, n ∈ ns ↔ is_Some (anames a !! n))
    ∧ console u' = console u ++ chars "Files in the root directory:" ++ [10] ++ lines ns ++ chars "End of listing." ++ [10].
Proof.
  intros (T & R & Hy & Es & Eh) Hp. destruct (root_open_ok _ _ T R Hy) as (ip & s1 & d & E1 & K1 & Ef & Hd & HN & Hn & Ei & Ho).
  set (D := file_data (ufs u) d) in *. assert (0 ≤ slots D) as Hsl by (unfold slots; apply Z.div_pos; lia).
  assert (Hel : ∀ n, n ∈ listing D 0 ↔ is_Some (anames a !! n)).
  { intros n. rewrite listing_elem by lia. split.
    - intros (j & _ & sec & Hg). exists sec. apply (dk_name _ _ HN). by exists j.
    - intros [sec Hs]. apply (dk_name _ _ HN) in Hs as [j Hg]. exists j. split; [destruct Hg; lia|by exists sec]. }
  unfold fsutil_ls. rewrite say_line_ok by plain_text. rewrite bind_ret. cbn [ufs set_console]. rewrite E1, bind_ret. cbn [dinode].
  rewrite (entries_open _ _ _ _ _ _ _ Ho).
  match goal with |- context [ls_loop _ ?v _] =>
    destruct (ls_loop_ok T R _ ip (root_node d) D (anames a) HN (S (Z.to_nat (slots D))) v 0 Ho ltac:(lia) ltac:(lia)) as (d2 & u2 & E2 & Hd2 & Hs2 & Ec) end.
  { apply Forall_forall. intros n Hin. by apply Hp, Hel. }
  change (20 * 0) with 0 in E2. rewrite E2, bind_ret. cbn [ufs set_fs set_console] in Hs2.
  pose proof (dir_open_at_same _ _ _ _ _ _ _ _ Hs2 Ho) as (Hk2 & _ & Hi2 & _).
  destruct (root_close_ok (ufs u2) T R ip d Hk2 Hi2) as (s3 & E3 & K3 & Hk3 & Ei3). destruct d2 as [ip2 p2]. cbn in Hd2. subst ip2. rewrite E3, bind_ret, say_line_ok by plain_text.
  assert (K : kept T (ufs u) s3) by (transitivity s1; [done|]; transitivity (ufs u2); [by apply same_data_kept|done]).
  assert (Ei' : inodes s3 = inodes (ufs u)) by (rewrite Ei3, (sd_inodes _ _ (proj1 Hs2)), Ei; by apply delete_insert_id).
  eexists _, (listing D 0). split; [reflexivity|]. split; [|split; [by apply (listing_nodup D (anames a) HN (Z.to_nat (slots D))); lia|split; [done|]]].
  - exists T, R. cbn [ufs set_console set_fs]. split; [by apply (fsys_kept (ufs u) s3 _ T R)|]. split; [by rewrite Es, (kept_store _ _ _ K)|].
    rewrite Eh. symmetry. apply handles_same; [apply (kp_map_file _ _ _ K)|apply (kp_files _ _ _ K)|]. intros g gl _. unfold handle_of. by rewrite Ei'.
  - cbn [console set_console set_fs]. rewrite Ec. cbn [console set_console set_fs]. by rewrite <- !app_assoc.
Qed.

End Fsutil.
