(* ===== verification/Sorting.v ===== *)
(** * Sorting and searching arrays, [lib/stdlib.c]

    An array is its bytes; its elements have [size] bytes each and 1-based indexes as in
    the code.  The comparison function takes the bytes of two elements. *)

From S2P Require Import Prelude.

Module Sorting.

(** ** The routines *)

Section routines.
Context (size : Z) (compare : list Z → list Z → Z).

Definition elt (array : list Z) (i : Z) : list Z := slice ((i - 1) * size) size array.

Fixpoint swap_loop (n : nat) (array : list Z) (a b i : Z) : res (list Z) :=
  match n with
  | O => Ok array
  | S n =>
      t ← from_opt (array !! Z.to_nat (a + i));
      u ← from_opt (array !! Z.to_nat (b + i));
      swap_loop n (<[Z.to_nat (b + i) := t]> (<[Z.to_nat (a + i) := u]> array)) a b (i + 1)
  end.
Definition do_swap (array : list Z) (a_idx b_idx : Z) : res (list Z) :=
  swap_loop (Z.to_nat size) array (u32 ((a_idx - 1) * size)) (u32 ((b_idx - 1) * size)) 0.

Definition do_compare (array : list Z) (a_idx b_idx : Z) : Z := compare (elt array a_idx) (elt array b_idx).

(** The index moves down the heap, so the number of elements bounds the loop. *)
Fixpoint heapify_loop (n : nat) (array : list Z) (i cnt : Z) : res (list Z) :=
  match n with
  | O => Fuel
  | S n =>
      let left := u32 (2 * i) in
      let right := u32 (2 * i + 1) in
      let max := if (left <=? cnt) && (0 <? do_compare array left i) then left else i in
      let max := if (right <=? cnt) && (0 <? do_compare array right max) then right else max in
      if max =? i then Ok array
      else array ← do_swap array i max; heapify_loop n array max cnt
  end.
Definition heapify (array : list Z) (i cnt : Z) : res (list Z) := heapify_loop (S (Z.to_nat cnt)) array i cnt.

(** [for (i = cnt / 2; i > 0; i--)] *)
Fixpoint build_loop (i : nat) (array : list Z) (cnt : Z) : res (list Z) :=
  match i with
  | O => Ok array
  | S i' => array ← heapify array (Z.of_nat i) cnt; build_loop i' array cnt
  end.
(** [for (i = cnt; i > 1; i--)] *)
Fixpoint extract_loop (i : nat) (array : list Z) : res (list Z) :=
  match i with
  | O | S O => Ok array
  | S i' =>
      array ← do_swap array 1 (Z.of_nat i);
      array ← heapify array 1 (Z.of_nat i');
      extract_loop i' array
  end.

Definition sort (array : list Z) (cnt : Z) : res (list Z) :=
  ASSERT 0 <? size;;
  array ← build_loop (Z.to_nat (cnt / 2)) array cnt;
  extract_loop (Z.to_nat cnt) array.

(** The offset of a match in the array; [first] and [last] are offsets as well.  The
    range shrinks by at least one element. *)
Fixpoint search_loop (n : nat) (key array : list Z) (first last : Z) : res (option Z) :=
  match n with
  | O => Fuel
  | S n =>
      if first <? last then
        let range := (last - first) / size in
        let middle := first + range / 2 * size in
        let cmp := compare key (slice middle size array) in
        if cmp <? 0 then search_loop n key array first middle
        else if 0 <? cmp then search_loop n key array (middle + size) last
        else Ok (Some middle)
      else Ok None
  end.
Definition binary_search (key array : list Z) (cnt : Z) : res (option Z) :=
  search_loop (S (Z.to_nat cnt)) key array 0 (size * cnt).

End routines.

(** [qsort] and [bsearch] pass the comparison on through [compare_thunk]. *)
Definition compare_thunk (a b : list Z) (aux : list Z → list Z → Z) : Z := aux a b.
Definition qsort (array : list Z) (cnt size : Z) (compare : list Z → list Z → Z) : res (list Z) :=
  sort size (λ a b, compare_thunk a b compare) array cnt.
Definition bsearch (key array : list Z) (cnt size : Z) (compare : list Z → list Z → Z) : res (option Z) :=
  binary_search size (λ a b, compare_thunk a b compare) key array cnt.

(** ** Swapping *)

Lemma swap_loop_spec n array a b i :
  0 ≤ a → 0 ≤ b → 0 ≤ i → a + i + Z.of_nat n ≤ b + i ∨ b + i + Z.of_nat n ≤ a + i →
  a + i + Z.of_nat n ≤ Zlength array → b + i + Z.of_nat n ≤ Zlength array →
  ∃ array', swap_loop n array a b i = Ok array' ∧ length array' = length array
    ∧ ∀ p, 0 ≤ p → array' !! Z.to_nat p =
        if decide (a + i ≤ p < a + i + Z.of_nat n) then array !! Z.to_nat (p - a + b)
        else if decide (b + i ≤ p < b + i + Z.of_nat n) then array !! Z.to_nat (p - b + a)
        else array !! Z.to_nat p.
Proof.
  revert array i. induction n as [|n IH]; intros array i Ha Hb Hi Hdis Hla Hlb.
  { exists array. do 2 (split; [done|]). intros p Hp. by rewrite !decide_False by lia. }
  cbn [swap_loop]. destruct (lookup_lt_is_Some_2 array (Z.to_nat (a + i))) as [t Ht]; [lia|].
  destruct (lookup_lt_is_Some_2 array (Z.to_nat (b + i))) as [u Hu]; [lia|].
  rewrite Ht, Hu. cbn [from_opt mbind res_bind].
  set (array1 := <[Z.to_nat (b + i) := t]> (<[Z.to_nat (a + i) := u]> array)).
  assert (Hl1 : length array1 = length array) by (unfold array1; by rewrite !length_insert).
  destruct (IH array1 (i + 1)) as (array' & -> & Hl & Hp); [lia..|].
  exists array'. split; [done|]. split; [congruence|]. intros p Hp0. rewrite Hp by done.
  assert (H1 : ∀ q, 0 ≤ q → array1 !! Z.to_nat q =
    if decide (q = b + i) then Some t else if decide (q = a + i) then Some u else array !! Z.to_nat q).
  { intros q Hq. unfold array1. destruct (decide (q = b + i)) as [->|].
    - apply list_lookup_insert_eq. rewrite length_insert. lia.
    - rewrite list_lookup_insert_ne by lia. destruct (decide (q = a + i)) as [->|].
      + apply list_lookup_insert_eq. lia.
      + by rewrite list_lookup_insert_ne by lia. }
  destruct (decide (a + (i + 1) ≤ p < _)); [|destruct (decide (b + (i + 1) ≤ p < _))]; rewrite H1 by lia;
    repeat case_decide; try lia; rewrite <- ?Ht, <- ?Hu; try (f_equal; lia); done.
Qed.

(** What the callers promise of the comparison: it orders the elements. *)
Class Comparison (compare : list Z → list Z → Z) : Prop := {
  cmp_anti a b : compare a b < 0 ↔ 0 < compare b a;
  cmp_trans a b c : compare a b ≤ 0 → compare b c ≤ 0 → compare a c ≤ 0
}.

Section sorting.
Context (size : Z) (compare : list Z → list Z → Z).
Context (Hsize : 0 < size) `{!Comparison compare}.

(** An array of [cnt] elements that fits in memory. *)
Definition array_ok (array : list Z) (cnt : Z) : Prop :=
  0 ≤ cnt < 2 ^ 31 ∧ Zlength array = cnt * size ∧ cnt * size < 2 ^ 32.

Lemma do_swap_spec array cnt a b :
  array_ok array cnt → 1 ≤ a ≤ cnt → 1 ≤ b ≤ cnt → a ≠ b →
  ∃ array', do_swap size array a b = Ok array' ∧ array_ok array' cnt
    ∧ ∀ j, 1 ≤ j ≤ cnt →
        elt size array' j = elt size array (if decide (j = a) then b else if decide (j = b) then a else j).
Proof.
  intros (Hc & Hl & Hm) Ha Hb Hne. unfold do_swap.
  assert (Hr : ∀ j, 1 ≤ j ≤ cnt → 0 ≤ (j - 1) * size ∧ (j - 1) * size + size ≤ cnt * size).
  { intros j Hj. split; [apply Z.mul_nonneg_nonneg; lia|]. replace ((j - 1) * size + size) with (j * size) by lia.
    apply Z.mul_le_mono_nonneg_r; lia. }
  assert (Hd : ∀ i j, i ≠ j → (i - 1) * size + size ≤ (j - 1) * size ∨ (j - 1) * size + size ≤ (i - 1) * size).
  { intros i j Hij. replace ((i - 1) * size + size) with (i * size) by lia.
    replace ((j - 1) * size + size) with (j * size) by lia.
    destruct (Z.lt_total i j) as [?|[?|?]]; [left|done|right]; apply Z.mul_le_mono_nonneg_r; lia. }
  pose proof (Hr a Ha). pose proof (Hr b Hb). pose proof (Hd a b Hne). rewrite !u32_small by lia.
  destruct (swap_loop_spec (Z.to_nat size) array ((a - 1) * size) ((b - 1) * size) 0) as (array' & -> & Hl' & Hp); [lia..|].
  exists array'. split; [done|]. split; [split; [done|lia]|]. intros j Hj. unfold elt. apply list_eq. intros k.
  pose proof (Hr j Hj).
  destruct (decide (j = a)) as [->|Hja]; [|destruct (decide (j = b)) as [->|Hjb]]; rewrite !lookup_slice by lia;
    case_decide as Hk; try done; rewrite Hp by lia.
  - rewrite decide_True by lia. f_equal. lia.
  - rewrite decide_False, decide_True by lia. f_equal. lia.
  - pose proof (Hd j a Hja). pose proof (Hd j b Hjb). by rewrite !decide_False by lia.
Qed.

Notation le a b := (compare a b ≤ 0).

Lemma le_flip a b : 0 < compare a b → le b a.
Proof. intros H. apply (cmp_anti b a) in H. lia. Qed.
Lemma le_refl a : le a a.
Proof. destruct (Z.le_gt_cases (compare a a) 0); [done|]. by apply le_flip. Qed.

(** Elements [1 .. n] are a heap below the parents from [lo] on. *)
Definition heap_from (key : Z → list Z) (lo n : Z) : Prop :=
  ∀ j, 2 ≤ j ≤ n → lo ≤ j / 2 → le (key j) (key (j / 2)).

(** The same but for the children of [p]; these are below [p]'s parent. *)
Definition heap_but (key : Z → list Z) (lo n p : Z) : Prop :=
  (∀ j, 2 ≤ j ≤ n → lo ≤ j / 2 → j / 2 ≠ p → le (key j) (key (j / 2))) ∧
  (∀ j, 2 ≤ j ≤ n → lo ≤ p / 2 → j / 2 = p → le (key j) (key (p / 2))).

Definition swapped {A} (key : Z → A) (a b j : Z) : A :=
  key (if decide (j = a) then b else if decide (j = b) then a else j).

Lemma half_child j p : 2 ≤ j → 1 ≤ p → j / 2 = p ↔ j = 2 * p ∨ j = 2 * p + 1.
Proof. intros Hj Hp. pose proof (Z.div_mod j 2). pose proof (Z.mod_pos_bound j 2). lia. Qed.

(** One turn of [heapify]. *)
Lemma heap_but_step key lo n p m :
  1 ≤ p → 2 ≤ m ≤ n → m / 2 = p → lo ≤ p → heap_but key lo n p →
  (∀ j, 2 ≤ j ≤ n → j / 2 = p → le (key j) (key m)) → le (key p) (key m) →
  heap_but (swapped key p m) lo n m.
Proof.
  intros Hp Hm Hmp Hlo [H1 H2] Hmax Hpm. pose proof (half_child m p) as Hc.
  assert (Hpp : p / 2 < p) by (apply Z.div_lt; lia). assert (p / 2 ≠ m) by lia. assert (p ≠ m) by lia.
  assert (Hmm : m / 2 < m) by (apply Z.div_lt; lia).
  unfold swapped. split.
  - intros j Hj Hjl Hjm. assert (Hjj : j / 2 < j) by (apply Z.div_lt; lia).
    destruct (decide (j = p)) as [->|Hjp].
    + rewrite decide_False, decide_False by lia. by apply H2.
    + destruct (decide (j = m)) as [->|Hjm'].
      * rewrite decide_True by done. done.
      * destruct (decide (j / 2 = p)) as [Hjp2|Hjp2]; [by apply Hmax|]. rewrite decide_False by done. by apply H1.
  - intros j Hj Hjl Hjm. assert (Hjj : j / 2 < j) by (apply Z.div_lt; lia).
    rewrite (decide_False (P := j = p)), (decide_False (P := j = m)) by lia. rewrite (decide_True (P := m / 2 = p)) by done.
    rewrite <- Hjm. apply H1; lia.
Qed.

Lemma heap_but_done key lo n p :
  heap_but key lo n p → (∀ j, 2 ≤ j ≤ n → j / 2 = p → le (key j) (key p)) → heap_from key lo n.
Proof.
  intros [H1 _] H j Hj Hl. destruct (decide (j / 2 = p)) as [E|]; [rewrite E; by apply H|by apply H1].
Qed.

(** What [heapify] keeps: the elements, up to their order in [1 .. n]. *)
Record rearranged (array array' : list Z) (cnt n : Z) : Prop := {
  ra_ok : array_ok array' cnt;
  ra_rest j : n < j ≤ cnt → elt size array' j = elt size array j;
  ra_all (Q : list Z → Prop) :
    (∀ j, 1 ≤ j ≤ n → Q (elt size array j)) → ∀ j, 1 ≤ j ≤ n → Q (elt size array' j);
  ra_perm : (elt size array' <$> seqZ 1 cnt) ≡ₚ (elt size array <$> seqZ 1 cnt)
}.

Lemma rearranged_refl array cnt n : array_ok array cnt → rearranged array array cnt n.
Proof. by split. Qed.
Lemma rearranged_trans a1 a2 a3 cnt n n' :
  n' ≤ n ≤ cnt → rearranged a1 a2 cnt n → rearranged a2 a3 cnt n' → rearranged a1 a3 cnt n.
Proof.
  intros Hn [A1 A2 A3 A4] [B1 B2 B3 B4]. split.
  - done.
  - intros j Hj. rewrite B2 by lia. by apply A2.
  - intros Q HQ j Hj. destruct (decide (j ≤ n')).
    + apply (B3 Q); [|lia]. intros k Hk. apply (A3 Q HQ). lia.
    + rewrite B2 by lia. by apply (A3 Q HQ).
  - by rewrite B4.
Qed.

Lemma do_swap_rearranged array cnt n a b :
  array_ok array cnt → n ≤ cnt → 1 ≤ a ≤ n → 1 ≤ b ≤ n → a ≠ b →
  ∃ array', do_swap size array a b = Ok array' ∧ rearranged array array' cnt n
    ∧ ∀ j, 1 ≤ j ≤ cnt → elt size array' j = swapped (elt size array) a b j.
Proof.
  intros Hok Hn Ha Hb Hne. destruct (do_swap_spec array cnt a b Hok) as (array' & E & Hok' & Hj); [lia..|done|].
  exists array'. split; [done|]. split; [|done]. set (τ j := if decide (j = a) then b else if decide (j = b) then a else j).
  assert (Hinv : ∀ j, τ (τ j) = j) by (intros j; unfold τ; repeat case_decide; lia).
  assert (Hin : ∀ j, 1 ≤ j ≤ cnt → 1 ≤ τ j ≤ cnt) by (intros j ?; unfold τ; repeat case_decide; lia).
  split; [done| | |].
  - intros j Hjn. rewrite Hj by lia. by rewrite !decide_False by lia.
  - intros Q HQ j Hjn. rewrite Hj by lia. apply HQ. repeat case_decide; lia.
  - replace (elt size array' <$> seqZ 1 cnt) with (elt size array <$> (τ <$> seqZ 1 cnt)).
    + apply fmap_Permutation, NoDup_Permutation; [|apply NoDup_seqZ|].
      * apply NoDup_fmap_2; [|apply NoDup_seqZ]. intros x y Hxy. by rewrite <- (Hinv x), Hxy.
      * intros x. rewrite list_elem_of_fmap. setoid_rewrite elem_of_seqZ. split.
        -- intros (y & -> & Hy). pose proof (Hin y). lia.
        -- intros Hx. exists (τ x). rewrite Hinv. pose proof (Hin x). split; [done|lia].
    + rewrite <- list_fmap_compose. apply list_fmap_ext. intros k x Hx%list_elem_of_lookup_2.
      apply elem_of_seqZ in Hx. simpl. rewrite Hj by lia. done.
Qed.

Lemma heap_but_ext key key' lo n p :
  (∀ j, 1 ≤ j ≤ n → key' j = key j) → 1 ≤ lo → heap_but key lo n p → heap_but key' lo n p.
Proof.
  intros E Hlo [H1 H2].
  assert (Hh : ∀ j, 2 ≤ j ≤ n → 1 ≤ j / 2 ≤ n).
  { intros j Hj. pose proof (Z.div_mod j 2). pose proof (Z.mod_pos_bound j 2). lia. }
  split; intros j Hj Hl Hp.
  - pose proof (Hh j Hj). rewrite !E by lia. by apply H1.
  - pose proof (Hh j Hj). assert (p / 2 ≤ p) by (apply Z.div_le_upper_bound; lia). rewrite !E by lia. by apply H2.
Qed.

(** The index that [heapify] chooses. *)
Lemma largest_child key n p :
  1 ≤ p →
  let m1 := if (2 * p <=? n) && (0 <? compare (key (2 * p)) (key p)) then 2 * p else p in
  let m := if (2 * p + 1 <=? n) && (0 <? compare (key (2 * p + 1)) (key m1)) then 2 * p + 1 else m1 in
  (m = p ∨ 2 ≤ m ≤ n ∧ m / 2 = p) ∧ le (key p) (key m) ∧ ∀ j, 2 ≤ j ≤ n → j / 2 = p → le (key j) (key m).
Proof.
  intros Hp m1 m.
  assert (Hc : ∀ j, 2 ≤ j ≤ n → j / 2 = p → j = 2 * p ∨ j = 2 * p + 1) by (intros j Hj; apply half_child; lia).
  assert (H1 : (m1 = p ∨ m1 = 2 * p ∧ 2 * p ≤ n) ∧ le (key p) (key m1) ∧ (2 * p ≤ n → le (key (2 * p)) (key m1))).
  { unfold m1. destruct (Z.leb_spec (2 * p) n); destruct (Z.ltb_spec 0 (compare (key (2 * p)) (key p))); cbn [andb];
      (split; [lia|]); (split; [first [apply le_refl|by apply le_flip]|]); intros ?; first [apply le_refl|lia]. }
  destruct H1 as (Hm1 & Hp1 & Hl1).
  assert (Hhalf : ∀ j, j = 2 * p ∨ j = 2 * p + 1 → j / 2 = p) by (intros j Hj; apply half_child; lia).
  unfold m. destruct (Z.leb_spec (2 * p + 1) n) as [Hr|Hr]; cbn [andb].
  - destruct (Z.ltb_spec 0 (compare (key (2 * p + 1)) (key m1))) as [Hlt|Hge].
    + apply le_flip in Hlt. split; [right; split; [lia|apply Hhalf; lia]|]. split; [by apply (cmp_trans _ (key m1))|].
      intros j Hj Hjp. destruct (Hc j Hj Hjp) as [->| ->]; [|apply le_refl].
      apply (cmp_trans _ (key m1)); [apply Hl1; lia|done].
    + split; [destruct Hm1 as [?|[? ?]]; [by left|right; split; [lia|apply Hhalf; lia]]|]. split; [done|].
      intros j Hj Hjp. destruct (Hc j Hj Hjp) as [->| ->]; [apply Hl1; lia|done].
  - split; [destruct Hm1 as [?|[? ?]]; [by left|right; split; [lia|apply Hhalf; lia]]|]. split; [done|].
    intros j Hj Hjp. destruct (Hc j Hj Hjp) as [->| ->]; [apply Hl1; lia|lia].
Qed.

Lemma heapify_loop_spec fuel array cnt n lo p :
  array_ok array cnt → 0 ≤ n ≤ cnt → 1 ≤ lo ≤ p → p ≤ cnt → n - p < Z.of_nat fuel → (0 < fuel)%nat →
  heap_but (elt size array) lo n p →
  ∃ array', heapify_loop size compare fuel array p n = Ok array' ∧ rearranged array array' cnt n
    ∧ heap_from (elt size array') lo n.
Proof.
  revert array p. induction fuel as [|fuel IH]; intros array p Hok Hn Hlo Hp Hf Hf0 Hh; [lia|].
  cbn [heapify_loop]. pose proof Hok as (Hc & _). rewrite !u32_small by lia. unfold do_compare.
  pose proof (largest_child (elt size array) n p ltac:(lia)) as Hm. cbv zeta in Hm |- *.
  set (m := if (2 * p + 1 <=? n) && _ then _ else _) in *. destruct Hm as (Hm & Hpm & Hmax).
  destruct (Z.eqb_spec m p) as [E|Hne].
  - exists array. split; [done|]. split; [by apply rearranged_refl|]. apply (heap_but_done _ lo n p Hh).
    intros j Hj Hjp. rewrite <- E. by apply Hmax.
  - destruct Hm as [?|[Hmn Hmp]]; [done|]. assert (m / 2 < m) by (apply Z.div_lt; lia).
    destruct (do_swap_rearranged array cnt n p m Hok) as (array1 & -> & Hra & Hj); [lia..|]. cbn [mbind res_bind].
    destruct (IH array1 m (ra_ok _ _ _ _ Hra)) as (array' & E & Hra' & Hh'); [lia..| |].
    { apply (heap_but_ext (swapped (elt size array) p m)); [intros j Hjn; apply Hj; lia|lia|].
      apply heap_but_step; try done; lia. }
    exists array'. split; [done|]. split; [|done]. apply (rearranged_trans _ array1 _ _ _ n); [lia|done|done].
Qed.

Lemma heapify_spec array cnt n lo :
  array_ok array cnt → 0 ≤ n ≤ cnt → 1 ≤ lo ≤ cnt → heap_but (elt size array) lo n lo →
  ∃ array', heapify size compare array lo n = Ok array' ∧ rearranged array array' cnt n
    ∧ heap_from (elt size array') lo n.
Proof. intros Hok Hn Hlo Hh. apply heapify_loop_spec; try done; lia. Qed.

Lemma heap_but_lower key lo n : 1 ≤ lo → heap_from key (lo + 1) n → heap_but key lo n lo.
Proof.
  intros Hlo H. assert (lo / 2 < lo) by (apply Z.div_lt; lia). split; [|lia]. intros j Hj Hl Hne. apply H; lia.
Qed.

Lemma build_loop_spec i array cnt :
  array_ok array cnt → Z.of_nat i ≤ cnt → heap_from (elt size array) (Z.of_nat i + 1) cnt →
  ∃ array', build_loop size compare i array cnt = Ok array' ∧ rearranged array array' cnt cnt
    ∧ heap_from (elt size array') 1 cnt.
Proof.
  revert array. induction i as [|i IH]; intros array Hok Hi Hh; cbn [build_loop].
  { exists array. split; [done|]. split; [by apply rearranged_refl|done]. }
  destruct (heapify_spec array cnt cnt (Z.of_nat (S i)) Hok) as (array1 & -> & Hra & Hh1); [lia..| |].
  { apply heap_but_lower; [lia|done]. }
  destruct (IH array1 (ra_ok _ _ _ _ Hra)) as (array' & E & Hra' & Hh'); [lia|by replace (Z.of_nat i + 1) with (Z.of_nat (S i)) by lia|].
  exists array'. split; [done|]. split; [|done]. apply (rearranged_trans _ array1 _ _ _ cnt); [lia|done|done].
Qed.

Lemma heap_root key n j : heap_from key 1 n → 1 ≤ j ≤ n → le (key j) (key 1).
Proof.
  intros H. induction (Z.lt_wf 0 j) as [j _ IH]. intros Hj.
  destruct (decide (j = 1)) as [->|]; [apply le_refl|].
  assert (j / 2 < j) by (apply Z.div_lt; lia). assert (1 ≤ j / 2) by (apply Z.div_le_lower_bound; lia).
  apply (cmp_trans _ (key (j / 2))); [apply H|apply IH]; lia.
Qed.

(** The elements after the first [i] are in their final places. *)
Definition placed (key : Z → list Z) (i cnt : Z) : Prop :=
  ∀ a k, 1 ≤ a ≤ k → i < k ≤ cnt → le (key a) (key k).

Lemma extract_step array array1 array2 cnt i :
  2 ≤ i ≤ cnt → heap_from (elt size array) 1 i → placed (elt size array) i cnt →
  (∀ j, 1 ≤ j ≤ cnt → elt size array1 j = swapped (elt size array) 1 i j) →
  rearranged array1 array2 cnt (i - 1) → placed (elt size array2) (i - 1) cnt.
Proof.
  intros Hi Hh Hpl H1 [_ Hrest Hall _] a k Ha Hk.
  assert (Hi2 : elt size array2 i = elt size array 1).
  { rewrite Hrest, H1 by lia. unfold swapped. by rewrite decide_False, decide_True by lia. }
  assert (Hbelow : ∀ j x, 1 ≤ j < i → (∀ j', 1 ≤ j' ≤ i → le (elt size array j') x) → le (elt size array2 j) x).
  { intros j x Hj Hx. apply (Hall (λ y, le y x)); [|lia]. intros j' Hj'. rewrite H1 by lia.
    apply Hx. repeat case_decide; lia. }
  assert (Habove : ∀ j, i < j ≤ cnt → elt size array2 j = elt size array j).
  { intros j Hj. rewrite Hrest, H1 by lia. unfold swapped. by rewrite !decide_False by lia. }
  destruct (decide (k = i)) as [->|].
  - rewrite Hi2. destruct (decide (a = i)) as [->|]; [rewrite Hi2; apply le_refl|].
    apply Hbelow; [lia|]. intros j' Hj'. by apply (heap_root _ i).
  - rewrite (Habove k) by lia. destruct (Z.lt_total a i) as [?|[->|?]].
    + apply Hbelow; [lia|]. intros j' Hj'. apply Hpl; lia.
    + rewrite Hi2. apply Hpl; lia.
    + rewrite Habove by lia. apply Hpl; lia.
Qed.

Lemma extract_loop_spec i array cnt :
  array_ok array cnt → Z.of_nat i ≤ cnt → heap_from (elt size array) 1 (Z.of_nat i) →
  placed (elt size array) (Z.of_nat i) cnt →
  ∃ array', extract_loop size compare i array = Ok array' ∧ rearranged array array' cnt cnt
    ∧ placed (elt size array') 0 cnt.
Proof.
  revert array. induction i as [|i IH]; intros array Hok Hi Hh Hpl.
  { exists array. split; [done|]. split; [by apply rearranged_refl|done]. }
  destruct i as [|i].
  { exists array. split; [done|]. split; [by apply rearranged_refl|]. intros a k Ha Hk.
    destruct (decide (k = 1)) as [->|]; [replace a with 1 by lia; apply le_refl|apply Hpl; lia]. }
  change (extract_loop size compare (S (S i)) array) with
    (array ← do_swap size array 1 (Z.of_nat (S (S i)));
     array ← heapify size compare array 1 (Z.of_nat (S i)); extract_loop size compare (S i) array).
  set (n := Z.of_nat (S (S i))) in *. assert (En : Z.of_nat (S i) = n - 1) by lia.
  destruct (do_swap_rearranged array cnt n 1 n Hok) as (array1 & -> & Hra1 & Hj); [lia..|]. cbn [mbind res_bind].
  pose proof (ra_ok _ _ _ _ Hra1) as Hok1.
  destruct (heapify_spec array1 cnt (n - 1) 1 Hok1) as (array2 & E2 & Hra2 & Hh2); [lia..| |].
  { apply (heap_but_ext (swapped (elt size array) 1 n)); [intros j ?; apply Hj; lia|lia|]. apply heap_but_lower; [lia|].
    intros j Hj' Hl. assert (j / 2 < j) by (apply Z.div_lt; lia). unfold swapped.
    rewrite !decide_False by lia. apply Hh; lia. }
  rewrite En, E2. cbn [mbind res_bind]. rewrite En in IH.
  destruct (IH array2 (ra_ok _ _ _ _ Hra2)) as (array' & E & Hra' & Hpl'); [lia|done| |].
  { apply (extract_step array array1); [lia|done..]. }
  exists array'. split; [done|]. split; [|done].
  apply (rearranged_trans _ array2 _ _ _ cnt); [lia| |done].
  apply (rearranged_trans _ array1 _ _ _ (n - 1)); [lia| |done].
  destruct Hra1 as [Ha Hb Hc Hd]. split; [done|lia| |done].
  intros Q HQ j Hjc. rewrite Hj by lia. apply HQ. repeat case_decide; lia.
Qed.

Lemma sort_spec array cnt :
  array_ok array cnt →
  ∃ array', sort size compare array cnt = Ok array' ∧ rearranged array array' cnt cnt ∧ placed (elt size array') 0 cnt.
Proof.
  intros Hok. pose proof Hok as (Hc & _). unfold sort. rewrite (proj2 (Z.ltb_lt 0 size) Hsize). cbn [mbind res_bind].
  assert (0 ≤ cnt / 2 ≤ cnt) by (split; [apply Z.div_pos|apply Z.div_le_upper_bound]; lia).
  destruct (build_loop_spec (Z.to_nat (cnt / 2)) array cnt Hok) as (array1 & -> & Hra & Hh); [lia| |].
  { rewrite Z2Nat.id by lia. intros j Hj Hl. assert (j / 2 ≤ cnt / 2) by (apply Z.div_le_mono; lia). lia. }
  cbn [mbind res_bind].
  destruct (extract_loop_spec (Z.to_nat cnt) array1 cnt (ra_ok _ _ _ _ Hra)) as (array' & E & Hra' & Hpl);
    [lia|by rewrite Z2Nat.id by lia|intros a k Ha Hk; lia|].
  exists array'. split; [done|]. split; [|done]. apply (rearranged_trans _ array1 _ _ _ cnt); [lia|done|done].
Qed.

(** *** Searching *)

Lemma search_loop_spec fuel key array cnt f l :
  placed (elt size array) 0 cnt → 0 ≤ f ≤ l → l ≤ cnt → l - f < Z.of_nat fuel →
  (∀ j, 1 ≤ j ≤ cnt → compare key (elt size array j) = 0 → f < j ≤ l) →
  ∃ r, search_loop size compare fuel key array (f * size) (l * size) = Ok r ∧
    match r with
    | Some off => ∃ j, 1 ≤ j ≤ cnt ∧ off = (j - 1) * size ∧ compare key (elt size array j) = 0
    | None => ∀ j, 1 ≤ j ≤ cnt → compare key (elt size array j) ≠ 0
    end.
Proof.
  intros Hpl. revert f l. induction fuel as [|fuel IH]; intros f l Hf Hl Hfuel Hin; [lia|]. cbn [search_loop].
  destruct (Z.ltb_spec (f * size) (l * size)) as [Hlt|Hge].
  2: { exists None. split; [done|]. intros j Hj E. pose proof (Hin j Hj E). apply Z.mul_le_mono_pos_r in Hge; lia. }
  apply Z.mul_lt_mono_pos_r in Hlt; [|done].
  replace (l * size - f * size) with ((l - f) * size) by lia. rewrite Z.div_mul by lia. cbv zeta.
  set (h := (l - f) / 2). assert (Hh : 0 ≤ h < l - f) by (split; [apply Z.div_pos; lia|apply Z.div_lt; lia]).
  replace (f * size + h * size) with ((f + h) * size) by lia.
  change (slice ((f + h) * size) size array) with (elt size array (f + h + 1)) || (replace (slice ((f + h) * size) size array)
    with (elt size array (f + h + 1)) by (unfold elt; f_equal; lia)).
  set (m := elt size array (f + h + 1)).
  destruct (Z.ltb_spec (compare key m) 0) as [Hneg|Hnn]; [|destruct (Z.ltb_spec 0 (compare key m)) as [Hpos|Hz]].
  - apply IH; [lia..|]. intros j Hj E. pose proof (Hin j Hj E). split; [lia|].
    destruct (Z.le_gt_cases j (f + h)) as [|Hgt]; [done|]. apply cmp_anti in Hneg.
    assert (le m key); [|lia]. apply (cmp_trans _ (elt size array j)); [apply Hpl; lia|].
    destruct (Z.le_gt_cases (compare (elt size array j) key) 0) as [|G]; [done|]. apply Z.gt_lt in G || idtac. apply cmp_anti in G. lia.
  - replace ((f + h) * size + size) with ((f + h + 1) * size) by lia. apply IH; [lia..|].
    intros j Hj E. pose proof (Hin j Hj E). split; [|lia].
    destruct (Z.lt_ge_cases (f + h + 1) j) as [|Hle]; [done|].
    assert (le key m); [|lia]. apply (cmp_trans _ (elt size array j)); [lia|apply Hpl; lia].
  - exists (Some ((f + h) * size)). split; [done|]. exists (f + h + 1). split; [lia|]. split; [lia|]. fold m. lia.
Qed.

End sorting.

(** ** The library functions *)

(** C23: [qsort] returns, for an array of [cnt] elements of [size] bytes that fits in
    memory and a comparison that is an order: the result holds the same elements as often
    as before, in an order that the comparison never finds decreasing. *)
Theorem qsort_sorts array cnt size compare :
  Comparison compare → 0 < size → 0 ≤ cnt < 2 ^ 31 → Zlength array = cnt * size → cnt * size < 2 ^ 32 →
  ∃ array', qsort array cnt size compare = Ok array'
    ∧ Zlength array' = cnt * size
    ∧ elt size array' <$> seqZ 1 cnt ≡ₚ elt size array <$> seqZ 1 cnt
    ∧ ∀ i j, 1 ≤ i ≤ j → j ≤ cnt → compare (elt size array' i) (elt size array' j) ≤ 0.
Proof.
  intros HC Hs Hc Hl Hm. destruct (sort_spec size compare Hs array cnt) as (array' & E & [(_ & Hl' & _) _ _ Hp] & Hpl).
  { done. }
  exists array'. split; [done|]. split; [done|]. split; [done|]. intros i j Hi Hj. apply Hpl; lia.
Qed.

(** [bsearch] on an array that is in order returns the offset of an element that
    compares equal to the key when there is one, and a null pointer exactly when there is
    none. *)
Theorem bsearch_finds key array cnt size compare :
  Comparison compare → 0 < size → 0 ≤ cnt →
  (∀ i j, 1 ≤ i ≤ j → j ≤ cnt → compare (elt size array i) (elt size array j) ≤ 0) →
  ∃ r, bsearch key array cnt size compare = Ok r ∧
    match r with
    | Some off => ∃ j, 1 ≤ j ≤ cnt ∧ off = (j - 1) * size ∧ compare key (elt size array j) = 0
    | None => ∀ j, 1 ≤ j ≤ cnt → compare key (elt size array j) ≠ 0
    end.
Proof.
  intros HC Hs Hc Hpl. unfold bsearch, binary_search. rewrite (Z.mul_comm size).
  apply (search_loop_spec size compare Hs _ key array cnt 0 cnt); [intros a k Ha Hk; apply Hpl; lia|lia..].
Qed.

(** The order of one-byte elements, for the witnesses. *)
Definition byte_compare (a b : list Z) : Z := hd 0 a - hd 0 b.
#[global] Instance byte_comparison : Comparison byte_compare.
Proof. split; unfold byte_compare; lia. Qed.

Lemma qsort_sorts_witness :
  qsort [5; 3; 9; 3; 1] 5 1 byte_compare = Ok [1; 3; 3; 5; 9] ∧
  ∃ array', qsort [5; 3; 9; 3; 1] 5 1 byte_compare = Ok array'
    ∧ ∀ i j, 1 ≤ i ≤ j → j ≤ 5 → byte_compare (elt 1 array' i) (elt 1 array' j) ≤ 0.
Proof.
  split; [vm_compute; reflexivity|].
  destruct (qsort_sorts [5; 3; 9; 3; 1] 5 1 byte_compare) as (a & E & _ & _ & H); [exact _|lia..|done|lia|].
  exists a. done.
Defined.

Lemma bsearch_finds_witness :
  bsearch [3] [1; 3; 5; 9] 4 1 byte_compare = Ok (Some 1) ∧
  ∃ r, bsearch [4] [1; 3; 5; 9] 4 1 byte_compare = Ok r.
Proof.
  split; [vm_compute; reflexivity|].
  destruct (bsearch_finds [4] [1; 3; 5; 9] 4 1 byte_compare) as (r & E & _); [exact _|lia|lia| |].
  { intros i j Hi Hj.
    assert (i = 1 ∨ i = 2 ∨ i = 3 ∨ i = 4) as [->|[->|[->| ->]]] by lia;
    assert (j = 1 ∨ j = 2 ∨ j = 3 ∨ j = 4) as [->|[->|[->| ->]]] by lia; try lia; vm_compute; discriminate. }
  by exists r.
Defined.

End Sorting.
