(* ===== verification/Pagedir.v ===== *)
(** * Page directories, [userprog/pagedir.c]

    Page directories and page tables are words in the pages that [palloc] hands out.
    [mmu] adds to the page allocator what the processor holds: the page directory base
    register and the translation lookaside buffer, which caches the entries that the
    processor has used. *)

From S2P Require Import Prelude Bitmap Vaddr Palloc Disk.

(** ** Memory *)

Section memory.
Implicit Types (r : Z → Z) (a n : Z) (l : list Z).

Definition peek r a n : list Z := (λ i, r (a + i)) <$> seqZ 0 n.
Definition blit r a l : Z → Z :=
  λ x, if (a <=? x) && (x <? a + Zlength l) then default 0 (l !! Z.to_nat (x - a)) else r x.
(** A cell of memory is read as a byte. *)
Definition load32 r a : Z := le_value ((λ b, b mod 256) <$> peek r a 4).
Definition store32 r a (v : Z) : Z → Z := blit r a (le_bytes 4 v).

Lemma blit_in r a l x : a ≤ x < a + Zlength l → blit r a l x = default 0 (l !! Z.to_nat (x - a)).
Proof. intros Hx. unfold blit. by rewrite (proj2 (Z.leb_le _ _)), (proj2 (Z.ltb_lt _ _)) by lia. Qed.
Lemma blit_out r a l x : x < a ∨ a + Zlength l ≤ x → blit r a l x = r x.
Proof.
  intros Hx. unfold blit. destruct (Z.leb_spec a x), (Z.ltb_spec x (a + Zlength l)); simpl; done || lia.
Qed.

Lemma peek_ext r r' a n : (∀ x, a ≤ x < a + n → r' x = r x) → peek r' a n = peek r a n.
Proof.
  intros H. apply list_fmap_ext. intros i x Hx%list_elem_of_lookup_2. apply elem_of_seqZ in Hx. apply H. lia.
Qed.
Lemma length_peek r a n : 0 ≤ n → Zlength (peek r a n) = n.
Proof. intros. unfold peek. rewrite length_fmap, length_seqZ. lia. Qed.
Lemma lookup_peek r a n (i : nat) : Z.of_nat i < n → peek r a n !! i = Some (r (a + Z.of_nat i)).
Proof. intros Hi. unfold peek. rewrite list_lookup_fmap, lookup_seqZ_lt by lia. done. Qed.

Lemma peek_blit r a l n : n = Zlength l → peek (blit r a l) a n = l.
Proof.
  intros ->. apply list_eq. intros i. destruct (decide (i < length l)%nat).
  - rewrite lookup_peek, blit_in by lia. replace (Z.to_nat (a + Z.of_nat i - a)) with i by lia.
    by destruct (lookup_lt_is_Some_2 l i) as [x ->].
  - rewrite !lookup_ge_None_2; [done|lia|]. pose proof (length_peek (blit r a l) a (Zlength l)). lia.
Qed.
Lemma load32_ext r r' a : (∀ x, a ≤ x < a + 4 → r' x = r x) → load32 r' a = load32 r a.
Proof. intros H. unfold load32. f_equal. f_equal. by apply peek_ext. Qed.
Lemma load32_range r a : 0 ≤ load32 r a < 2 ^ 32.
Proof.
  pose proof (le_value_range ((λ b, b mod 256) <$> peek r a 4)) as H.
  rewrite length_fmap, length_peek in H by lia. apply H. apply Forall_fmap, Forall_true. intros i.
  by apply Z.mod_pos_bound.
Qed.
Lemma load32_store r a v : 0 ≤ v < 2 ^ 32 → load32 (store32 r a v) a = v.
Proof.
  intros Hv. unfold load32, store32. rewrite peek_blit by done.
  replace ((λ b, b mod 256) <$> le_bytes 4 v) with (le_bytes 4 v); [by apply le_value_bytes|].
  pose proof (le_bytes_byte 4 v) as H. induction H as [|b l Hb _ IH]; [done|]. csimpl. by rewrite <- IH, Z.mod_small by done.
Qed.
Lemma store32_out r a v x : x < a ∨ a + 4 ≤ x → store32 r a v x = r x.
Proof. intros Hx. by apply blit_out. Qed.
Lemma load32_store_ne r a a' v : a + 4 ≤ a' ∨ a' + 4 ≤ a → load32 (store32 r a v) a' = load32 r a'.
Proof. intros H. apply load32_ext. intros x Hx. apply store32_out. lia. Qed.

End memory.
#[global] Arguments peek : simpl never.
#[global] Arguments load32 : simpl never.
#[global] Arguments store32 : simpl never.
#[global] Arguments blit : simpl never.

Module Pagedir.
Import Palloc.

Record mmu := Mmu {
  pal : palloc;
  init_page_dir : Z;
  init_ram_pages : Z;
  cr3 : Z;
  tlb : gmap Z Z
}.
Definition mem (m : mmu) : Z → Z := ram (pal m).
Definition set_pal (m : mmu) (p : palloc) : mmu := Mmu p (init_page_dir m) (init_ram_pages m) (cr3 m) (tlb m).
Definition set_mem (m : mmu) (r : Z → Z) : mmu :=
  set_pal m (Pal (kernel_pool (pal m)) (user_pool (pal m)) r).

(** ** The operations *)

(** Loading the base register empties the lookaside buffer. *)
Definition pagedir_activate (m : mmu) (pd : Z) : res mmu :=
  let pd := if pd =? 0 then init_page_dir m else pd in
  p ← vtop pd; Ok (Mmu (pal m) (init_page_dir m) (init_ram_pages m) p ∅).
Definition active_pd (m : mmu) : res Z := ptov (cr3 m).
Definition invalidate_pagedir (m : mmu) (pd : Z) : res mmu :=
  a ← active_pd m; if a =? pd then pagedir_activate m pd else Ok m.

Definition pagedir_create (m : mmu) : res (Z * mmu) :=
  '(pd, p) ← palloc_get_page (pal m) 0;
  let m := set_pal m p in
  if negb (pd =? 0) then Ok (pd, set_mem m (blit (mem m) pd (peek (mem m) (init_page_dir m) PGSIZE)))
  else Ok (pd, m).

(** The [n] entries of a page table from [pte] on. *)
Fixpoint free_pages (n : nat) (m : mmu) (pte : Z) : res mmu :=
  match n with
  | O => Ok m
  | S n =>
      let e := load32 (mem m) pte in
      m ← (if flag e PTE_P then page ← pte_get_page e; p ← palloc_free_page (pal m) page; Ok (set_pal m p)
           else Ok m);
      free_pages n m (pte + 4)
  end.
(** The [n] entries of a page directory from [pde] on. *)
Fixpoint free_tables (n : nat) (m : mmu) (pde : Z) : res mmu :=
  match n with
  | O => Ok m
  | S n =>
      let e := load32 (mem m) pde in
      m ← (if flag e PTE_P then
             pt ← pde_get_pt e;
             m ← free_pages (Z.to_nat (PGSIZE / 4)) m pt;
             p ← palloc_free_page (pal m) pt;
             Ok (set_pal m p)
           else Ok m);
      free_tables n m (pde + 4)
  end.
Definition pagedir_destroy (m : mmu) (pd : Z) : res mmu :=
  if pd =? 0 then Ok m else
  ASSERT negb (pd =? init_page_dir m);;
  m ← free_tables (Z.to_nat (pd_no PHYS_BASE)) m pd;
  p ← palloc_free_page (pal m) pd;
  Ok (set_pal m p).

(** The address of the entry, null if 0. *)
Definition lookup_page (m : mmu) (pd vaddr : Z) (create : bool) : res (Z * mmu) :=
  ASSERT negb (pd =? 0);;
  ASSERT negb create || is_user_vaddr vaddr;;
  let pde := pd + 4 * pd_no vaddr in
  '(m, found) ← (if load32 (mem m) pde =? 0 then
      if create then
        '(pt, p) ← palloc_get_page (pal m) PAL_ZERO;
        let m := set_pal m p in
        if pt =? 0 then Ok (m, false) else
        e ← pde_create pt;
        Ok (set_mem m (store32 (mem m) pde e), true)
      else Ok (m, false)
    else Ok (m, true));
  if (found : bool) then pt ← pde_get_pt (load32 (mem m) pde); Ok (pt + 4 * pt_no vaddr, m)
  else Ok (0, m).

Definition pagedir_set_page (m : mmu) (pd upage kpage : Z) (writable : bool) : res (bool * mmu) :=
  ASSERT pg_ofs upage =? 0;;
  ASSERT pg_ofs kpage =? 0;;
  ASSERT is_user_vaddr upage;;
  p ← vtop kpage;
  ASSERT Z.shiftr p PTSHIFT <? init_ram_pages m;;
  ASSERT negb (pd =? init_page_dir m);;
  '(pte, m) ← lookup_page m pd upage true;
  if negb (pte =? 0) then
    ASSERT negb (flag (load32 (mem m) pte) PTE_P);;
    e ← pte_create_user kpage writable;
    Ok (true, set_mem m (store32 (mem m) pte e))
  else Ok (false, m).

Definition pagedir_get_page (m : mmu) (pd uaddr : Z) : res Z :=
  ASSERT is_user_vaddr uaddr;;
  '(pte, m) ← lookup_page m pd uaddr false;
  if negb (pte =? 0) && flag (load32 (mem m) pte) PTE_P then
    page ← pte_get_page (load32 (mem m) pte); Ok (page + pg_ofs uaddr)
  else Ok 0.

Definition pagedir_clear_page (m : mmu) (pd upage : Z) : res mmu :=
  ASSERT pg_ofs upage =? 0;;
  ASSERT is_user_vaddr upage;;
  '(pte, m) ← lookup_page m pd upage false;
  let e := load32 (mem m) pte in
  if negb (pte =? 0) && flag e PTE_P then
    invalidate_pagedir (set_mem m (store32 (mem m) pte (Z.land e (u32 (Z.lnot PTE_P))))) pd
  else Ok m.

Definition pagedir_is_dirty (m : mmu) (pd vpage : Z) : res bool :=
  '(pte, m) ← lookup_page m pd vpage false;
  Ok (negb (pte =? 0) && flag (load32 (mem m) pte) PTE_D).
Definition pagedir_is_accessed (m : mmu) (pd vpage : Z) : res bool :=
  '(pte, m) ← lookup_page m pd vpage false;
  Ok (negb (pte =? 0) && flag (load32 (mem m) pte) PTE_A).

(** [pagedir_set_dirty] and [pagedir_set_accessed] differ in the bit only. *)
Definition set_flag (bit : Z) (m : mmu) (pd vpage : Z) (on : bool) : res mmu :=
  '(pte, m) ← lookup_page m pd vpage false;
  if negb (pte =? 0) then
    let e := load32 (mem m) pte in
    if on then Ok (set_mem m (store32 (mem m) pte (Z.lor e bit)))
    else invalidate_pagedir (set_mem m (store32 (mem m) pte (Z.land e (u32 (Z.lnot bit))))) pd
  else Ok m.
Definition pagedir_set_dirty : mmu → Z → Z → bool → res mmu := set_flag PTE_D.
Definition pagedir_set_accessed : mmu → Z → Z → bool → res mmu := set_flag PTE_A.

(** ** The processor

    An access to a user address: an entry of the lookaside buffer is used if it allows
    the access (a write needs an entry that is marked dirty); otherwise the processor
    walks the tables, marks the entry accessed, and dirty on a write, and caches it.  No
    result is a page fault. *)
Definition allows (e : Z) (write : bool) : bool := flag e PTE_P && (negb write || flag e PTE_W).
Definition mmu_access (m : mmu) (va : Z) (write : bool) : option (Z * mmu) :=
  let vp := pg_no va in
  let hit := e ← tlb m !! vp; guard (allows e write && (negb write || flag e PTE_D));; Some e in
  match hit with
  | Some e => Some (Z.land e PTE_ADDR + PHYS_BASE + pg_ofs va, m)
  | None =>
      let pde := load32 (mem m) (cr3 m + PHYS_BASE + 4 * pd_no va) in
      if flag pde PTE_P then
        let pte := Z.land pde PTE_ADDR + PHYS_BASE + 4 * pt_no va in
        let e := load32 (mem m) pte in
        if allows e write then
          let e := Z.lor (Z.lor e PTE_A) (if write then PTE_D else 0) in
          Some (Z.land e PTE_ADDR + PHYS_BASE + pg_ofs va,
                Mmu (Pal (kernel_pool (pal m)) (user_pool (pal m)) (store32 (mem m) pte e))
                    (init_page_dir m) (init_ram_pages m) (cr3 m) (<[vp := e]> (tlb m)))
        else None
      else None
  end.

(** ** Flags and addresses of an entry *)

Lemma flag_testbit w k : 0 ≤ k → flag w (2 ^ k) = Z.testbit w k.
Proof.
  intros Hk. unfold flag. rewrite Z.land_comm. destruct (Z.testbit w k) eqn:E.
  - apply negb_true_iff, Z.eqb_neq. intros H.
    assert (H1 : Z.testbit (Z.land (2 ^ k) w) k = false) by (rewrite H; apply Z.bits_0).
    by rewrite Z.land_spec, Z.pow2_bits_true, E in H1.
  - apply negb_false_iff, Z.eqb_eq, Z.bits_inj'. intros i Hi. rewrite Z.land_spec, Z.bits_0.
    destruct (decide (i = k)) as [->|]; [by rewrite E, andb_false_r|]. by rewrite Z.pow2_bits_false by lia.
Qed.
Lemma flag_P w : flag w PTE_P = Z.testbit w 0.
Proof. by apply (flag_testbit w 0). Qed.
Lemma flag_W w : flag w PTE_W = Z.testbit w 1.
Proof. by apply (flag_testbit w 1). Qed.
Lemma flag_A w : flag w PTE_A = Z.testbit w 5.
Proof. by apply (flag_testbit w 5). Qed.
Lemma flag_D w : flag w PTE_D = Z.testbit w 6.
Proof. by apply (flag_testbit w 6). Qed.

Lemma mask_P : u32 (Z.lnot PTE_P) = 0xfffffffe.
Proof. reflexivity. Qed.
Lemma mask_A : u32 (Z.lnot PTE_A) = 0xffffffdf.
Proof. reflexivity. Qed.
Lemma mask_D : u32 (Z.lnot PTE_D) = 0xffffffbf.
Proof. reflexivity. Qed.

(** Tests of flags in words that are built with bit operations. *)
Ltac flags :=
  rewrite ?mask_P, ?mask_A, ?mask_D;
  rewrite ?flag_P, ?flag_W, ?flag_A, ?flag_D;
  repeat (rewrite ?Z.lor_spec, ?Z.land_spec);
  repeat match goal with |- context [Z.testbit ?c ?k] =>
    let c' := eval cbv delta [PTE_P PTE_W PTE_U PTE_A PTE_D] in c in
    lazymatch c' with Z0 => idtac | Zpos _ => idtac end;
    let v := eval vm_compute in (Z.testbit c' k) in change (Z.testbit c k) with v
  end; rewrite ?orb_false_r, ?orb_true_r, ?andb_true_r, ?andb_false_r.

(** The kernel address of the page that an entry refers to. *)
Definition page_at (e : Z) : Z := Z.land e PTE_ADDR + PHYS_BASE.

Lemma page_at_lor e f : Z.land f PTE_ADDR = 0 → page_at (Z.lor e f) = page_at e.
Proof. intros H. unfold page_at. by rewrite Z.land_lor_distr_l, H, Z.lor_0_r. Qed.
Lemma page_at_land e f : Z.land f PTE_ADDR = PTE_ADDR → page_at (Z.land e f) = page_at e.
Proof. intros H. unfold page_at. by rewrite <- Z.land_assoc, H. Qed.

Lemma aligned_land a : 0 ≤ a < 2 ^ 32 → a mod PGSIZE = 0 → Z.land a PTE_ADDR = a.
Proof.
  intros Ha Hm. change PTE_ADDR with (2 ^ 32 - 2 ^ 12). rewrite land_high by lia.
  pose proof (Z.div_mod a (2 ^ 12)). unfold PGSIZE in Hm. change (2 ^ 12) with 4096 in *. lia.
Qed.
Lemma page_at_aligned e : 0 ≤ e < 2 ^ 32 → page_at e mod PGSIZE = 0 ∧ PHYS_BASE ≤ page_at e.
Proof.
  intros He. unfold page_at. change PTE_ADDR with (2 ^ 32 - 2 ^ 12). rewrite land_high by lia.
  change PHYS_BASE with (786432 * PGSIZE). change (2 ^ 12) with PGSIZE.
  rewrite <- Z.mul_add_distr_r, Z.mod_mul by done.
  pose proof (Z.div_pos e PGSIZE). unfold PGSIZE in *. lia.
Qed.

(** A page of kernel memory. *)
Definition kpage_ok (k : Z) : Prop := k mod PGSIZE = 0 ∧ PHYS_BASE ≤ k ∧ k + PGSIZE ≤ 2 ^ 32.

Lemma kpage_vtop k : kpage_ok k → vtop k = Ok (k - PHYS_BASE) ∧ pg_ofs k = 0
  ∧ 0 ≤ k - PHYS_BASE < 2 ^ 30 ∧ (k - PHYS_BASE) mod PGSIZE = 0.
Proof.
  intros (Hm & Hk & Hk'). destruct (vtop_ptov k) as (p & -> & _ & ->); [unfold PGSIZE in *; lia|].
  split; [done|]. split; [by rewrite pg_ofs_mod|]. split; [unfold PHYS_BASE, PGSIZE in *; lia|].
  by rewrite Zminus_mod, Hm.
Qed.
Lemma ptov_page e : 0 ≤ e < 2 ^ 32 → page_at e < 2 ^ 32 → ptov (Z.land e PTE_ADDR) = Ok (page_at e).
Proof.
  intros He Hp. pose proof (land_range 32 e PTE_ADDR). destruct (ptov_vtop (Z.land e PTE_ADDR)) as (v & -> & _ & ->);
    [unfold page_at in Hp; lia|done].
Qed.

(** The entries that the kernel makes. *)
Definition user_entry (k : Z) (writable : bool) : Z :=
  Z.lor (Z.lor (Z.lor (k - PHYS_BASE) PTE_P) (if writable then PTE_W else 0)) PTE_U.
Definition table_entry (pt : Z) : Z := Z.lor (Z.lor (Z.lor (pt - PHYS_BASE) PTE_U) PTE_P) PTE_W.

Lemma entry_lor k f : kpage_ok k → 0 ≤ f < 2 ^ 12 →
  0 ≤ Z.lor (k - PHYS_BASE) f < 2 ^ 32 ∧ page_at (Z.lor (k - PHYS_BASE) f) = k.
Proof.
  intros Hk Hf. destruct (kpage_vtop k Hk) as (_ & _ & Hr & Hm). split; [apply lor_range; lia|].
  rewrite page_at_lor.
  - unfold page_at. rewrite aligned_land by (done || lia). lia.
  - change PTE_ADDR with (2 ^ 32 - 2 ^ 12). rewrite land_high, Z.div_small by lia. done.
Qed.
Lemma pte_create_user_spec k w : kpage_ok k →
  pte_create_user k w = Ok (user_entry k w) ∧ 0 ≤ user_entry k w < 2 ^ 32
  ∧ page_at (user_entry k w) = k ∧ flag (user_entry k w) PTE_P = true ∧ flag (user_entry k w) PTE_W = w
  ∧ flag (user_entry k w) PTE_D = false ∧ flag (user_entry k w) PTE_A = false.
Proof.
  intros Hk. destruct (kpage_vtop k Hk) as (E1 & E2 & Hr & Hm).
  assert (Ew : user_entry k w = Z.lor (k - PHYS_BASE) (Z.lor PTE_P (Z.lor (if w then PTE_W else 0) PTE_U))).
  { unfold user_entry. by rewrite <- !Z.lor_assoc. }
  assert (Hlow : ∀ i, 0 ≤ i < 12 → Z.testbit (k - PHYS_BASE) i = false).
  { intros i Hi. rewrite <- (Z.mod_pow2_bits_low _ 12) by lia. change (2 ^ 12) with PGSIZE. rewrite Hm. apply Z.bits_0. }
  split. { unfold pte_create_user, pte_create_kernel. by rewrite E2, E1. }
  rewrite Ew. destruct (entry_lor k (Z.lor PTE_P (Z.lor (if w then PTE_W else 0) PTE_U)) Hk) as [H1 H2].
  { destruct w; vm_compute; split; congruence. }
  split; [done|]. split; [done|]. rewrite flag_P, flag_W, flag_D, flag_A, !(Z.lor_spec (k - PHYS_BASE)), !Hlow by lia.
  by destruct w.
Qed.
Lemma pde_create_spec pt : kpage_ok pt →
  pde_create pt = Ok (table_entry pt) ∧ 0 < table_entry pt < 2 ^ 32
  ∧ page_at (table_entry pt) = pt ∧ flag (table_entry pt) PTE_P = true.
Proof.
  intros Hk. destruct (kpage_vtop pt Hk) as (E1 & E2 & Hr & Hm).
  split. { unfold pde_create. by rewrite E2, E1. }
  assert (Ew : table_entry pt = Z.lor (pt - PHYS_BASE) 7) by (unfold table_entry; by rewrite <- !Z.lor_assoc).
  assert (Hf : flag (table_entry pt) PTE_P = true).
  { rewrite Ew, flag_P, Z.lor_spec. apply orb_true_r. }
  rewrite Ew in *. destruct (entry_lor pt 7 Hk) as [H1 H2]; [lia|]. split; [|done].
  destruct (decide (Z.lor (pt - PHYS_BASE) 7 = 0)) as [E|]; [by rewrite E in Hf|lia].
Qed.

(** ** Page directories in memory *)

Definition page_of (a : Z) : Z := a - a mod PGSIZE.
Lemma page_of_spec p a : p mod PGSIZE = 0 → page_of a = p ↔ p ≤ a < p + PGSIZE.
Proof.
  intros Hp. unfold page_of. pose proof (Z.mod_pos_bound a PGSIZE). pose proof (Z.div_mod a PGSIZE). split.
  - unfold PGSIZE in *. lia.
  - intros Ha. assert (E : a mod PGSIZE = a - p); [|lia].
    replace a with (a - p + p / PGSIZE * PGSIZE) at 1.
    + rewrite Z.mod_add by done. apply Z.mod_small. lia.
    + pose proof (Z.div_mod p PGSIZE). unfold PGSIZE in *. lia.
Qed.
Lemma page_of_in p a : p mod PGSIZE = 0 → p ≤ a < p + PGSIZE → page_of a = p.
Proof. intros Hp Ha. by apply page_of_spec. Qed.
#[export] Hint Resolve page_of_in : core.

Lemma used_kpage s a : inv s → used s a → kpage_ok a.
Proof.
  intros (Hk & Hu & _) [H|H]; destruct H as (Hm & Hr & _);
    [destruct Hk as (_ & Hb & _ & He)|destruct Hu as (_ & Hb & _ & He)];
    (split; [done|]); unfold pool_end in *;
    pose proof (Z.div_mod a PGSIZE); unfold PGSIZE in *; lia.
Qed.

(** The entry for the page of [u] in a directory whose page tables are [ts], by their
    index; 0 if there is no page table. *)
Definition pte_addr (pt u : Z) : Z := pt + 4 * pt_no u.
Definition pte (m : mmu) (ts : gmap Z Z) (u : Z) : Z :=
  match ts !! pd_no u with Some pt => load32 (mem m) (pte_addr pt u) | None => 0 end.

(** The pages of a directory. *)
Definition own (pd : Z) (ts : gmap Z Z) (a : Z) : Prop := a = pd ∨ ∃ i, ts !! i = Some a.
Definition owned (D : gmap Z (gmap Z Z)) (a : Z) : Prop := ∃ pd ts, D !! pd = Some ts ∧ own pd ts a.

Record pd_ok (m : mmu) (pd : Z) (ts : gmap Z Z) : Prop := {
  pd_used a : own pd ts a → used (pal m) a;
  pd_entry i : 0 ≤ i < 768 →
    let e := load32 (mem m) (pd + 4 * i) in
    match ts !! i with Some pt => page_at e = pt ∧ flag e PTE_P = true | None => e = 0 end;
  pd_index i pt : ts !! i = Some pt → 0 ≤ i < 768 ∧ pt ≠ pd;
  pd_inj i j pt : ts !! i = Some pt → ts !! j = Some pt → i = j;
  pd_frame u : 0 ≤ u < PHYS_BASE → flag (pte m ts u) PTE_P = true → page_at (pte m ts u) < 2 ^ 32
}.

Record mmu_ok (m : mmu) : Prop := {
  mm_inv : inv (pal m);
  mm_ram user : pool_end (get_pool (pal m) user) ≤ PHYS_BASE + PGSIZE * init_ram_pages m;
  mm_init : used (pal m) (init_page_dir m);
  mm_zero i : 0 ≤ i < 768 → load32 (mem m) (init_page_dir m + 4 * i) = 0
}.

(** [D] gives the page tables of each directory. *)
Record dirs_ok (m : mmu) (D : gmap Z (gmap Z Z)) : Prop := {
  di_mmu : mmu_ok m;
  di_pd pd ts : D !! pd = Some ts → pd_ok m pd ts;
  di_sep pd ts pd' ts' a : D !! pd = Some ts → D !! pd' = Some ts' → own pd ts a → own pd' ts' a → pd = pd';
  di_init : ¬ owned D (init_page_dir m)
}.

(** What an entry of the lookaside buffer must agree with. *)
Definition agrees (w e : Z) : Prop :=
  page_at w = page_at e ∧ flag w PTE_P = true ∧ flag w PTE_A = true
  ∧ (flag e PTE_W = true → flag w PTE_W = true) ∧ (flag e PTE_D = true → flag w PTE_D = true).
Record tlb_ok (m : mmu) (D : gmap Z (gmap Z Z)) : Prop := {
  tl_base : kpage_ok (cr3 m + PHYS_BASE);
  tl_entry vp e : tlb m !! vp = Some e →
    ∃ ts, D !! (cr3 m + PHYS_BASE) = Some ts ∧ 0 ≤ vp < 0xc0000 ∧ agrees (pte m ts (vp * PGSIZE)) e
}.

(** *** Facts about addresses *)

Lemma user_index u : 0 ≤ u < PHYS_BASE → 0 ≤ pd_no u < 768 ∧ 0 ≤ pt_no u < 1024.
Proof.
  unfold PHYS_BASE. intros Hu. destruct (vaddr_decompose u) as (_ & _ & H); [lia|]. split; [|done].
  rewrite pd_no_spec. split; [apply Z.div_pos; lia|apply Z.div_lt_upper_bound; lia].
Qed.
Lemma same_index u v : 0 ≤ u < 2 ^ 32 → 0 ≤ v < 2 ^ 32 →
  pd_no u = pd_no v ∧ pt_no u = pt_no v ↔ pg_round_down u = pg_round_down v.
Proof.
  intros Hu Hv. destruct (vaddr_decompose u Hu) as (Eu & _), (vaddr_decompose v Hv) as (Ev & _).
  destruct (pg_round_down_split u Hu) as (Su & Ou & _), (pg_round_down_split v Hv) as (Sv & Ov & _).
  split; [intros [E1 E2]; rewrite E1, E2 in Eu; lia|]. intros E.
  assert (Hd : u / PGSIZE = v / PGSIZE).
  { rewrite !pg_round_down_spec in E by done. pose proof (Z.div_mod u PGSIZE). pose proof (Z.div_mod v PGSIZE).
    unfold PGSIZE in *. lia. }
  rewrite !pd_no_spec, !pt_no_spec by done. change (2 ^ 12) with PGSIZE. rewrite Hd. split; [|done].
  change (2 ^ 22) with (PGSIZE * 1024). by rewrite <- !Z.div_div, Hd.
Qed.
Lemma pte_round m ts u : 0 ≤ u < 2 ^ 32 → pte m ts (pg_round_down u) = pte m ts u.
Proof.
  intros Hu. destruct (pg_round_down_split u Hu) as (_ & Ho & _ & Hr).
  destruct (proj2 (same_index (pg_round_down u) u ltac:(lia) Hu)) as [E1 E2].
  - rewrite !pg_round_down_spec by lia. rewrite pg_ofs_mod in Ho. rewrite pg_round_down_spec in Ho by done. lia.
  - unfold pte, pte_addr. by rewrite E1, E2.
Qed.

(** *** What other code may do to the rest of memory *)

Lemma own_page m pd ts a x : mmu_ok m → pd_ok m pd ts → own pd ts a → a ≤ x < a + PGSIZE → page_of x = a.
Proof. intros Hm Hp Ha Hx. apply page_of_in; [|done]. apply (used_kpage (pal m)); [apply Hm|by apply (pd_used m pd ts)]. Qed.

Lemma pte_ext m m' pd ts u :
  mmu_ok m → pd_ok m pd ts → 0 ≤ u < PHYS_BASE →
  (∀ x, own pd ts (page_of x) → mem m' x = mem m x) → pte m' ts u = pte m ts u.
Proof.
  intros Hm Hp Hu H. unfold pte. destruct (ts !! pd_no u) as [pt|] eqn:E; [|done]. apply load32_ext. intros x Hx.
  assert (Ho : own pd ts pt) by (right; by exists (pd_no u)).
  apply H. rewrite (own_page m pd ts pt x); [done..|]. pose proof (user_index u Hu). unfold pte_addr in Hx. unfold PGSIZE. lia.
Qed.

Lemma pd_ok_ext m m' pd ts :
  mmu_ok m → pd_ok m pd ts → (∀ x, own pd ts (page_of x) → mem m' x = mem m x) →
  (∀ a, own pd ts a → used (pal m') a) → pd_ok m' pd ts.
Proof.
  intros Hm Hp H Hu. pose proof Hp as [H1 H2 H3 H4 H5]. split; [done| |done|done|].
  - intros i Hi. rewrite (load32_ext (mem m)); [by apply H2|]. intros x Hx. apply H.
    rewrite (own_page m pd ts pd x); [by left|done|done|by left|unfold PGSIZE; lia].
  - intros u Hur. rewrite (pte_ext m m' pd ts) by done. by apply H5.
Qed.

(** Storing an entry. *)
Lemma store_pte m D pd ts pt u v :
  dirs_ok m D → D !! pd = Some ts → ts !! pd_no u = Some pt → 0 ≤ u < PHYS_BASE → 0 ≤ v < 2 ^ 32 →
  (flag v PTE_P = true → page_at v < 2 ^ 32) →
  let m' := set_mem m (store32 (mem m) (pte_addr pt u) v) in
  dirs_ok m' D
  ∧ (∀ pd' ts' u', D !! pd' = Some ts' → 0 ≤ u' < PHYS_BASE →
       pte m' ts' u' = if decide (pd' = pd ∧ pg_round_down u' = pg_round_down u) then v else pte m ts' u')
  ∧ ∀ x, page_of x ≠ pt → mem m' x = mem m x.
Proof.
  intros HD Hpd Hpt Hu Hv Hfr m'. pose proof HD as [Hm Hp Hs Hi]. pose proof (Hp pd ts Hpd) as Hok.
  destruct (user_index u Hu) as [Hu1 Hu2]. assert (Hown : own pd ts pt) by (right; by exists (pd_no u)).
  assert (Hmem : ∀ x, page_of x ≠ pt → mem m' x = mem m x).
  { intros x Hx. apply store32_out. destruct (decide (pte_addr pt u ≤ x < pte_addr pt u + 4)) as [Hin|]; [|lia].
    destruct Hx. apply (own_page m pd ts pt x); [done..|]. unfold pte_addr in Hin. unfold PGSIZE. lia. }
  assert (Hpte : ∀ pd' ts' u', D !! pd' = Some ts' → 0 ≤ u' < PHYS_BASE →
       pte m' ts' u' = if decide (pd' = pd ∧ pg_round_down u' = pg_round_down u) then v else pte m ts' u').
  { intros pd' ts' u' Hpd' Hu'. unfold PHYS_BASE in Hu, Hu'. destruct (decide (pd' = pd)) as [->|Hne].
    - assert (ts' = ts) as -> by congruence. pose proof (same_index u' u ltac:(lia) ltac:(lia)) as Hsi.
      unfold pte. destruct (ts !! pd_no u') as [pt'|] eqn:E'.
      + destruct (decide (_ ∧ _)) as [[_ Hr]|Hr].
        * apply Hsi in Hr as [Hr1 Hr2]. assert (pt' = pt) as -> by congruence. unfold pte_addr. rewrite Hr2.
          by apply load32_store.
        * apply load32_store_ne. unfold pte_addr. destruct (decide (pd_no u' = pd_no u)) as [Hr1|Hr1].
          -- assert (pt' = pt) as -> by congruence. assert (pt_no u' ≠ pt_no u) by (intros ?; apply Hr; tauto). lia.
          -- assert (pt' ≠ pt) by (intros ->; apply Hr1; by apply (pd_inj m pd ts Hok _ _ pt)).
             destruct (user_index u' Hu') as [_ Hu2'].
             assert (own pd ts pt') by (right; by exists (pd_no u')).
             assert (kpage_ok pt) as (Ha & _) by (apply (used_kpage (pal m)); [apply Hm|by apply (pd_used m pd ts)]).
             assert (kpage_ok pt') as (Ha' & _) by (apply (used_kpage (pal m)); [apply Hm|by apply (pd_used m pd ts)]).
             pose proof (Z.div_mod pt PGSIZE). pose proof (Z.div_mod pt' PGSIZE). unfold PGSIZE in *. lia.
      + rewrite decide_False; [done|]. intros [_ Hr]. apply Hsi in Hr as [Hr1 _]. congruence.
    - rewrite decide_False by tauto. apply (pte_ext m m' pd' ts'); [done|by apply Hp|done|].
      intros x Hx. apply Hmem. intros E. apply Hne. symmetry. apply (Hs pd ts pd' ts' pt); [done..|by rewrite <- E]. }
  split; [|done]. split.
  - destruct Hm as [M1 M3 M4 M5]. split; [done|done|done|].
    + intros i Hi'. rewrite (load32_ext (mem m)); [by apply M5|]. intros x Hx. apply Hmem. intros E.
      apply Hi. exists pd, ts. split; [done|]. change (init_page_dir m') with (init_page_dir m) in *.
      assert (page_of x = init_page_dir m) as <-; [|by rewrite E].
      apply page_of_in; [by apply (used_kpage (pal m))|unfold PGSIZE; lia].
  - intros pd' ts' Hpd'. pose proof (Hp pd' ts' Hpd') as Hok'. pose proof Hok' as [P1 P2 P3 P4 P5].
    split; [done| |done|done|].
    + intros i Hi'. rewrite (load32_ext (mem m)); [by apply P2|]. intros x Hx. apply Hmem. intros E.
      assert (Hx' : page_of x = pd') by (apply (own_page m pd' ts'); [done..|by left|unfold PGSIZE; lia]).
      assert (pd' = pd) as -> by (apply (Hs pd' ts' pd ts pt); [done..|left; congruence|done]).
      destruct (pd_index m pd ts Hok _ _ Hpt) as [_ Hne]. congruence.
    + intros u' Hu'. rewrite (Hpte pd' ts' u' Hpd' Hu'). destruct (decide _); [done|]. by apply P5.
  - done.
  - done.
Qed.

(** ** Specifications *)

(** The pages in use before stay in use; only pages of directories and new pages
    change. *)
Record pages_kept (m : mmu) (D : gmap Z (gmap Z Z)) (m' : mmu) (D' : gmap Z (gmap Z Z)) : Prop := {
  pk_used a : used (pal m) a → used (pal m') a;
  pk_mem x : used (pal m) (page_of x) → ¬ owned D (page_of x) → mem m' x = mem m x;
  pk_new a : owned D' a → owned D a ∨ ¬ used (pal m) a;
  pk_init : init_page_dir m' = init_page_dir m ∧ init_ram_pages m' = init_ram_pages m
}.
Lemma pages_kept_refl m D : pages_kept m D m D.
Proof. split; auto. Qed.
Lemma pages_kept_trans m D m1 D1 m2 D2 :
  pages_kept m D m1 D1 → pages_kept m1 D1 m2 D2 → pages_kept m D m2 D2.
Proof.
  intros [A1 A2 A3 [A4 A5]] [B1 B2 B3 [B4 B5]]. split; [auto| | |split; congruence].
  - intros x Hu Hd. rewrite B2; [by apply A2|by apply A1|]. intros Ho. destruct (A3 _ Ho); done.
  - intros a Ha. destruct (B3 a Ha) as [Ho|Hn]; [by apply A3|]. right. auto.
Qed.

(** The entry for the page of [u] in directory [pd] becomes [w]; no other one changes. *)
Definition pte_set (m m' : mmu) (D : gmap Z (gmap Z Z)) (pd u w : Z) : Prop :=
  ∀ pd' ts' u', D !! pd' = Some ts' → 0 ≤ u' < PHYS_BASE →
    pte m' ts' u' = if decide (pd' = pd ∧ pg_round_down u' = pg_round_down u) then w else pte m ts' u'.

Lemma dirs_ok_cpu m m' D :
  pal m' = pal m → init_page_dir m' = init_page_dir m → init_ram_pages m' = init_ram_pages m →
  dirs_ok m D → dirs_ok m' D.
Proof.
  intros E1 E2 E3. assert (E : m' = Mmu (pal m) (init_page_dir m) (init_ram_pages m) (cr3 m') (tlb m')).
  { destruct m'; simpl in *; congruence. }
  rewrite E. intros [[H1 H3 H4 H5] H6 H7 H8]. split; [by split| |done|done].
  intros pd ts Hpd. destruct (H6 pd ts Hpd). by split.
Qed.

Lemma dirs_kpage m D pd ts a : dirs_ok m D → D !! pd = Some ts → own pd ts a → kpage_ok a.
Proof. intros [Hm Hp _ _] Hpd Ha. apply (used_kpage (pal m)); [apply Hm|]. by apply (pd_used m pd ts (Hp pd ts Hpd)). Qed.

Section operations.
Context (m : mmu) (D : gmap Z (gmap Z Z)) (pd : Z) (ts : gmap Z Z).
Context (HD : dirs_ok m D) (Hpd : D !! pd = Some ts).

Lemma pd_nonzero : (pd =? 0) = false.
Proof. destruct (dirs_kpage m D pd ts pd HD Hpd (or_introl eq_refl)) as (_ & H & _). apply Z.eqb_neq. unfold PHYS_BASE in H. lia. Qed.

Lemma table_addr u pt : 0 ≤ u < PHYS_BASE → ts !! pd_no u = Some pt →
  (pte_addr pt u =? 0) = false ∧ pde_get_pt (load32 (mem m) (pd + 4 * pd_no u)) = Ok pt
  ∧ (load32 (mem m) (pd + 4 * pd_no u) =? 0) = false.
Proof.
  intros Hu Hpt. destruct (user_index u Hu) as [H1 H2].
  destruct (dirs_kpage m D pd ts pt HD Hpd) as (Ha & Hb & Hc); [right; by eexists|].
  pose proof (pd_entry m pd ts (di_pd m D HD pd ts Hpd) _ H1) as He. cbv zeta in He. rewrite Hpt in He. destruct He as [He1 He2].
  pose proof (load32_range (mem m) (pd + 4 * pd_no u)) as Hr.
  set (e := load32 (mem m) (pd + 4 * pd_no u)) in *. split_and!.
  - apply Z.eqb_neq. unfold pte_addr, PHYS_BASE in *. lia.
  - unfold pde_get_pt. rewrite <- He1. fold (flag e PTE_P). rewrite He2. apply ptov_page; [done|]. rewrite He1. unfold PGSIZE in Hc. lia.
  - apply Z.eqb_neq. intros E. by rewrite E in He2.
Qed.

Lemma lookup_get u : 0 ≤ u < PHYS_BASE →
  lookup_page m pd u false = Ok (match ts !! pd_no u with Some pt => pte_addr pt u | None => 0 end, m).
Proof.
  intros Hu. unfold lookup_page. rewrite pd_nonzero. cbn [negb orb].
  destruct (ts !! pd_no u) as [pt|] eqn:Hpt.
  - destruct (table_addr u pt Hu Hpt) as (_ & E2 & E3). rewrite E3. cbn [mbind res_bind]. by rewrite E2.
  - pose proof (pd_entry m pd ts (di_pd m D HD pd ts Hpd) (pd_no u) (proj1 (user_index u Hu))) as He.
    rewrite Hpt in He. cbv zeta in He. by rewrite He.
Qed.

Lemma pte_range u : 0 ≤ pte m ts u < 2 ^ 32.
Proof. unfold pte. destruct (ts !! pd_no u); [|lia]. apply load32_range. Qed.

(** Reading the entry, by way of its address. *)
Lemma read_pte {A} u (f : Z → A) (x : A) : 0 ≤ u < PHYS_BASE → x = f 0 →
  ('(a, m) ← lookup_page m pd u false; Ok (if negb (a =? 0) then f (load32 (mem m) a) else x)) = Ok (f (pte m ts u)).
Proof.
  intros Hu Hx. rewrite lookup_get by done. cbn [mbind res_bind]. unfold pte. destruct (ts !! pd_no u) as [pt|] eqn:Hpt.
  - by rewrite (proj1 (table_addr u pt Hu Hpt)).
  - by rewrite Hx.
Qed.

Lemma pagedir_is_dirty_spec u : 0 ≤ u < PHYS_BASE → pagedir_is_dirty m pd u = Ok (flag (pte m ts u) PTE_D).
Proof. intros Hu. by rewrite <- (read_pte u (λ e, flag e PTE_D) false). Qed.
Lemma pagedir_is_accessed_spec u : 0 ≤ u < PHYS_BASE → pagedir_is_accessed m pd u = Ok (flag (pte m ts u) PTE_A).
Proof. intros Hu. by rewrite <- (read_pte u (λ e, flag e PTE_A) false). Qed.

Lemma pagedir_get_page_spec u : 0 ≤ u < PHYS_BASE →
  pagedir_get_page m pd u = Ok (if flag (pte m ts u) PTE_P then page_at (pte m ts u) + pg_ofs u else 0).
Proof.
  intros Hu. unfold pagedir_get_page, is_user_vaddr. rewrite (proj2 (Z.ltb_lt _ _)) by lia.
  rewrite lookup_get by done. cbn [mbind res_bind]. pose proof (pte_range u) as Hr.
  pose proof (pd_frame m pd ts (di_pd m D HD pd ts Hpd) u Hu) as Hf.
  unfold pte in *. destruct (ts !! pd_no u) as [pt|] eqn:Hpt; [|done].
  rewrite (proj1 (table_addr u pt Hu Hpt)). cbn [negb andb]. destruct (flag _ PTE_P) eqn:E; [|done].
  unfold pte_get_page. rewrite ptov_page by auto. done.
Qed.

End operations.

(** *** Changing an entry *)

Record pte_changed (m m' : mmu) (D : gmap Z (gmap Z Z)) (pd u w : Z) : Prop := {
  pc_dirs : dirs_ok m' D;
  pc_tlb : tlb_ok m' D;
  pc_set : pte_set m m' D pd u w;
  pc_pools : kernel_pool (pal m') = kernel_pool (pal m) ∧ user_pool (pal m') = user_pool (pal m);
  pc_mem x : ¬ owned D (page_of x) → mem m' x = mem m x;
  pc_cpu : cr3 m' = cr3 m ∧ init_page_dir m' = init_page_dir m ∧ init_ram_pages m' = init_ram_pages m
}.

Lemma pte_changed_used m m' D pd u w a : pte_changed m m' D pd u w → used (pal m') a ↔ used (pal m) a.
Proof. intros H. destruct (pc_pools _ _ _ _ _ _ H) as [E1 E2]. unfold used. by rewrite E1, E2. Qed.
Lemma pte_changed_kept m m' D pd u w : pte_changed m m' D pd u w → pages_kept m D m' D.
Proof.
  intros H. split.
  - intros a. by apply (pte_changed_used m m' D pd u w).
  - intros x _. apply (pc_mem _ _ _ _ _ _ H).
  - auto.
  - apply (pc_cpu _ _ _ _ _ _ H).
Qed.

Lemma round_page vp : 0 ≤ vp < 0xc0000 → 0 ≤ vp * PGSIZE < PHYS_BASE ∧ pg_round_down (vp * PGSIZE) = vp * PGSIZE.
Proof.
  intros Hv. assert (0 ≤ vp * PGSIZE < PHYS_BASE) by (unfold PGSIZE, PHYS_BASE; lia). split; [done|].
  rewrite pg_round_down_spec, Z.mod_mul by (unfold PHYS_BASE in *; done || lia). lia.
Qed.

(** The cached entries stay right when the new entry agrees with what the old one
    agreed with. *)
Lemma tlb_ok_set m m' D pd u w :
  tlb_ok m D → cr3 m' = cr3 m → tlb m' = tlb m → 0 ≤ u < PHYS_BASE → pte_set m m' D pd u w →
  (∀ ts e, D !! pd = Some ts → cr3 m + PHYS_BASE = pd → agrees (pte m ts u) e → agrees w e) → tlb_ok m' D.
Proof.
  intros [T1 T2] E1 E2 Hu Hset Hag. split; rewrite E1; [done|]. rewrite E2. intros vp e He.
  destruct (T2 vp e He) as (ts & Hts & Hvp & Ha). exists ts. split; [done|]. split; [done|].
  destruct (round_page vp Hvp) as [Hr1 Hr2]. rewrite (Hset _ ts _ Hts Hr1).
  destruct (decide _) as [[Hp Hr]|]; [|done]. apply (Hag ts); [by rewrite <- Hp|done|].
  unfold PHYS_BASE in *. rewrite <- (pte_round m ts (vp * PGSIZE)), Hr, pte_round in Ha by lia. done.
Qed.

Lemma invalidate_spec m D pd :
  dirs_ok m D → kpage_ok pd → kpage_ok (cr3 m + PHYS_BASE) → (cr3 m + PHYS_BASE ≠ pd → tlb_ok m D) →
  ∃ m', invalidate_pagedir m pd = Ok m' ∧ tlb_ok m' D ∧ pal m' = pal m ∧ cr3 m' = cr3 m
    ∧ init_page_dir m' = init_page_dir m ∧ init_ram_pages m' = init_ram_pages m.
Proof.
  intros HD Hk Hc Ht. unfold invalidate_pagedir, active_pd.
  destruct (ptov_vtop (cr3 m)) as (a & -> & _ & ->). { destruct Hc as (_ & ? & ?). unfold PHYS_BASE, PGSIZE in *. lia. }
  cbn [mbind res_bind]. destruct (Z.eqb_spec (cr3 m + PHYS_BASE) pd) as [E|Hne].
  - unfold pagedir_activate. destruct (kpage_vtop pd Hk) as (Ev & _).
    rewrite (proj2 (Z.eqb_neq pd 0)) by (destruct Hk as (_ & ? & _); unfold PHYS_BASE in *; lia).
    rewrite Ev. cbn [mbind res_bind]. eexists. split; [done|]. simpl. split_and!; try done; [|lia].
    split; [|done]. simpl. by replace (pd - PHYS_BASE + PHYS_BASE) with pd by lia.
  - exists m. split; [done|]. auto.
Qed.

Section change.
Context (m : mmu) (D : gmap Z (gmap Z Z)) (pd : Z) (ts : gmap Z Z).
Context (HD : dirs_ok m D) (HT : tlb_ok m D) (Hpd : D !! pd = Some ts).

Lemma table_owned u pt : ts !! pd_no u = Some pt → owned D pt.
Proof. intros H. exists pd, ts. split; [done|]. right. by eexists. Qed.

(** An entry is stored that agrees with what the old one agreed with. *)
Lemma store_agrees u pt w :
  0 ≤ u < PHYS_BASE → ts !! pd_no u = Some pt → 0 ≤ w < 2 ^ 32 → (flag w PTE_P = true → page_at w < 2 ^ 32) →
  (∀ e, agrees (pte m ts u) e → agrees w e) →
  pte_changed m (set_mem m (store32 (mem m) (pte_addr pt u) w)) D pd u w.
Proof.
  intros Hu Hpt Hw Hfr Hag. destruct (store_pte m D pd ts pt u w HD Hpd Hpt Hu Hw Hfr) as (H1 & H2 & H3). split; [done| |done|done| |done].
  - apply (tlb_ok_set m _ D pd u w); try done. intros ts' e Hts' _. assert (ts' = ts) as -> by congruence. apply Hag.
  - intros x Hx. apply H3. intros E. rewrite E in Hx. by apply Hx, (table_owned u).
Qed.

(** Any entry is stored, and the lookaside buffer flushed. *)
Lemma store_flush u pt w :
  0 ≤ u < PHYS_BASE → ts !! pd_no u = Some pt → 0 ≤ w < 2 ^ 32 → (flag w PTE_P = true → page_at w < 2 ^ 32) →
  ∃ m', invalidate_pagedir (set_mem m (store32 (mem m) (pte_addr pt u) w)) pd = Ok m' ∧ pte_changed m m' D pd u w.
Proof.
  intros Hu Hpt Hw Hfr. destruct (store_pte m D pd ts pt u w HD Hpd Hpt Hu Hw Hfr) as (H1 & H2 & H3).
  set (m1 := set_mem m _) in *.
  destruct (invalidate_spec m1 D pd H1) as (m' & E & HT' & Ep & Ec & E1 & E2).
  - apply (dirs_kpage m D pd ts pd HD Hpd). by left.
  - apply HT.
  - intros Hne. apply (tlb_ok_set m m1 D pd u w); try done.
  - exists m'. split; [done|]. split.
    + by apply (dirs_ok_cpu m1).
    + done.
    + intros pd' ts' u' Hpd' Hu'. unfold pte, mem. rewrite Ep. by apply H2.
    + by rewrite Ep.
    + intros x Hx. unfold mem. rewrite Ep. apply H3. intros Ex. rewrite Ex in Hx. by apply Hx, (table_owned u).
    + done.
Qed.

(** Nothing changes. *)
Lemma unchanged u : 0 ≤ u < PHYS_BASE → pte_changed m m D pd u (pte m ts u).
Proof.
  intros Hu. split; try done. intros pd' ts' u' Hpd' Hu'. destruct (decide _) as [[-> E]|]; [|done].
  assert (ts' = ts) as -> by congruence. unfold PHYS_BASE in *. by rewrite <- (pte_round m ts u'), E, pte_round by lia.
Qed.

Lemma pte_some u : pte m ts u ≠ 0 → is_Some (ts !! pd_no u).
Proof. unfold pte. by destruct (ts !! pd_no u). Qed.

Lemma pagedir_clear_page_spec u :
  0 ≤ u < PHYS_BASE → u mod PGSIZE = 0 →
  ∃ m' w, pagedir_clear_page m pd u = Ok m' ∧ pte_changed m m' D pd u w ∧ flag w PTE_P = false
    ∧ flag w PTE_D = flag (pte m ts u) PTE_D.
Proof.
  intros Hu Hal. unfold pagedir_clear_page, is_user_vaddr. rewrite pg_ofs_mod, Hal, (proj2 (Z.ltb_lt _ _)) by lia. cbn [Z.eqb].
  rewrite (lookup_get m D pd ts HD Hpd u Hu). cbn [mbind res_bind]. pose proof (unchanged u Hu) as Hun.
  pose proof (pte_range m ts u) as Hr.
  unfold pte in Hun, Hr |- *. destruct (ts !! pd_no u) as [pt|] eqn:Hpt.
  2: { exists m, 0. split; [done|]. by split. }
  rewrite (proj1 (table_addr m D pd ts HD Hpd u pt Hu Hpt)). cbn [negb andb].
  set (e := load32 (mem m) (pte_addr pt u)) in *. destruct (flag e PTE_P) eqn:Ep.
  - assert (Hnp : flag (Z.land e (u32 (Z.lnot PTE_P))) PTE_P = false) by (flags; done).
    destruct (store_flush u pt (Z.land e (u32 (Z.lnot PTE_P))) Hu Hpt) as (m' & E & Hc).
    + by apply land_range.
    + by rewrite Hnp.
    + exists m'. eexists. split; [done|]. split; [done|]. split; [done|]. by flags.
  - exists m, e. split; [done|]. by split.
Qed.

(** Setting or clearing a flag other than [PTE_P]. *)
Lemma set_flag_spec bit u on :
  bit = PTE_A ∨ bit = PTE_D → 0 ≤ u < PHYS_BASE →
  ∃ m' w, set_flag bit m pd u on = Ok m' ∧ pte_changed m m' D pd u w ∧ page_at w = page_at (pte m ts u)
    ∧ flag w PTE_P = flag (pte m ts u) PTE_P ∧ flag w PTE_W = flag (pte m ts u) PTE_W
    ∧ (ts !! pd_no u ≠ None → flag w bit = on)
    ∧ (bit = PTE_A → flag w PTE_D = flag (pte m ts u) PTE_D) ∧ (bit = PTE_D → flag w PTE_A = flag (pte m ts u) PTE_A).
Proof.
  intros Hbit Hu. unfold set_flag. rewrite (lookup_get m D pd ts HD Hpd u Hu). cbn [mbind res_bind].
  pose proof (unchanged u Hu) as Hun. pose proof (pte_range m ts u) as Hr.
  pose proof (pd_frame m pd ts (di_pd m D HD pd ts Hpd) u Hu) as Hf. pose proof (store_agrees u) as Hag.
  unfold pte in Hun, Hr, Hf, Hag |- *. destruct (ts !! pd_no u) as [pt|] eqn:Hpt.
  2: { exists m, 0. split; [done|]. split_and!; done. }
  rewrite (proj1 (table_addr m D pd ts HD Hpd u pt Hu Hpt)). cbn [negb].
  set (e := load32 (mem m) (pte_addr pt u)) in *.
  assert (Hbits : Z.land bit PTE_ADDR = 0 ∧ Z.land (u32 (Z.lnot bit)) PTE_ADDR = PTE_ADDR ∧ 0 ≤ bit < 2 ^ 32)
    by (destruct Hbit as [->| ->]; split_and!; try done; vm_compute; done).
  destruct Hbits as (Hb1 & Hb2 & Hb3). clearbody e. destruct on.
  - assert (Hp : page_at (Z.lor e bit) = page_at e) by (by apply page_at_lor).
    assert (Hfl : flag (Z.lor e bit) PTE_P = flag e PTE_P ∧ flag (Z.lor e bit) PTE_W = flag e PTE_W ∧ flag (Z.lor e bit) bit = true
      ∧ (bit = PTE_A → flag (Z.lor e bit) PTE_D = flag e PTE_D) ∧ (bit = PTE_D → flag (Z.lor e bit) PTE_A = flag e PTE_A)).
    { destruct Hbit as [->| ->]; split_and!; try discriminate; try intros _; by flags. }
    exists (set_mem m (store32 (mem m) (pte_addr pt u) (Z.lor e bit))), (Z.lor e bit).
    split; [done|]. split; [|tauto]. apply Hag; [done|done|by apply lor_range|by rewrite Hp, (proj1 Hfl)|].
    intros e' (A1 & A2 & A3 & A4 & A5). unfold agrees. rewrite Hp, (proj1 Hfl), (proj1 (proj2 Hfl)). split_and!; try done.
    + destruct Hbit as [->| ->]; [by flags|]. flags. by rewrite flag_A in A3.
    + intros Hd%A5. destruct Hbit as [->| ->]; [|by flags]. flags. by rewrite flag_D in Hd.
  - assert (Hfl : flag (Z.land e (u32 (Z.lnot bit))) PTE_P = flag e PTE_P ∧ flag (Z.land e (u32 (Z.lnot bit))) PTE_W = flag e PTE_W
      ∧ flag (Z.land e (u32 (Z.lnot bit))) bit = false
      ∧ (bit = PTE_A → flag (Z.land e (u32 (Z.lnot bit))) PTE_D = flag e PTE_D)
      ∧ (bit = PTE_D → flag (Z.land e (u32 (Z.lnot bit))) PTE_A = flag e PTE_A)).
    { destruct Hbit as [->| ->]; split_and!; try discriminate; try intros _; by flags. }
    assert (Hp : page_at (Z.land e (u32 (Z.lnot bit))) = page_at e) by (by apply page_at_land).
    destruct (store_flush u pt (Z.land e (u32 (Z.lnot bit))) Hu Hpt) as (m' & E & Hc).
    + by apply land_range.
    + by rewrite Hp, (proj1 Hfl).
    + exists m', (Z.land e (u32 (Z.lnot bit))). split; [done|]. split; [done|]. tauto.
Qed.

End change.

(** *** Pages from the allocator *)

Lemma set_multiple_cnt b start n v b' :
  Bitmap.bitmap_set_multiple b start n v = Ok b' → Bitmap.bit_cnt b' = Bitmap.bit_cnt b.
Proof.
  unfold Bitmap.bitmap_set_multiple. destruct (_ <=? _); [|done]. destruct (_ <=? _); [|done].
  generalize 0 as i. revert b. induction (Z.to_nat n) as [|k IH]; intros b i E; cbn [Bitmap.set_loop] in E; [by injection E as ->|].
  apply bind_Ok in E as (b1 & E1 & E2). rewrite (IH _ _ E2). unfold Bitmap.bitmap_set in E1.
  destruct (_ <? _); [|done]. by destruct v; apply bind_Ok in E1 as (w & _ & [= <-]).
Qed.

Lemma in_group_one p a : p mod PGSIZE = 0 → in_group p 1 a ↔ a = p.
Proof.
  intros Hp. unfold in_group. split; [|intros ->; split; [unfold PGSIZE; lia|done]]. intros [Ha Hm].
  pose proof (Z.div_mod a PGSIZE). pose proof (Z.div_mod p PGSIZE). unfold PGSIZE in *. lia.
Qed.

Lemma get_page_spec s flags :
  inv s → flag flags PAL_ASSERT = false →
  palloc_get_page s flags = Ok (0, s) ∨
  ∃ p s', palloc_get_page s flags = Ok (p, s') ∧ inv s' ∧ ¬ used s p ∧ (∀ a, used s' a ↔ used s a ∨ a = p)
    ∧ ram s' = (if flag flags PAL_ZERO then fill (ram s) p 0 PGSIZE else ram s)
    ∧ (∀ user, pool_end (get_pool s' user) = pool_end (get_pool s user)).
Proof.
  intros Hi Hf. unfold palloc_get_page.
  destruct (get_multiple_spec s flags 1 Hi ltac:(lia)) as [(p & s' & E & Hg & Hr)|[_ E]]; [right|left; by rewrite E, Hf].
  exists p, s'. destruct Hg as (H1 & H2 & H3 & H4 & H5 & H6 & H7). split_and!; try done.
  - apply H6. by apply in_group_one.
  - intros a. rewrite H7. by rewrite in_group_one.
  - intros user. unfold palloc_get_multiple in E. cbn [Z.eqb] in E. apply bind_Ok in E as ([idx b] & E1 & E2).
    assert (Hc : Bitmap.bit_cnt b = Bitmap.bit_cnt (used_map (get_pool s (flag flags PAL_USER)))).
    { unfold Bitmap.bitmap_scan_and_flip in E1. apply bind_Ok in E1 as (i & _ & E1).
      destruct (negb _); [|by injection E1 as <- <-]. apply bind_Ok in E1 as (b' & E1 & [= <- <-]).
      by apply set_multiple_cnt in E1. }
    assert (Hp : kernel_pool s' = kernel_pool (set_pool s (flag flags PAL_USER) (Pool b (base (get_pool s (flag flags PAL_USER)))))
      ∧ user_pool s' = user_pool (set_pool s (flag flags PAL_USER) (Pool b (base (get_pool s (flag flags PAL_USER)))))).
    { destruct (negb (_ =? 0)); [destruct (flag flags PAL_ZERO)|rewrite Hf in E2]; by injection E2 as _ <-. }
    destruct Hp as [Hp1 Hp2]. unfold pool_end. destruct user, (flag flags PAL_USER); simpl in *; rewrite ?Hp1, ?Hp2; simpl; congruence.
Qed.

Lemma free_page_spec s p :
  inv s → used s p →
  ∃ s', palloc_free_page s p = Ok s' ∧ inv s' ∧ (∀ a, used s' a ↔ used s a ∧ a ≠ p)
    ∧ ram s' = fill (ram s) p 0xcc PGSIZE
    ∧ (∀ user, pool_end (get_pool s' user) = pool_end (get_pool s user)).
Proof.
  intros Hi Hu. destruct (used_kpage s p Hi Hu) as (Hm & Hb & _). unfold palloc_free_page.
  destruct (free_multiple_spec s p 1 Hi ltac:(lia)) as (s' & E & H1 & H2 & H3); [unfold PHYS_BASE in Hb; lia|done| |].
  { intros x. rewrite in_group_one by done. by intros ->. }
  exists s'. split_and!; try done.
  - intros a. rewrite H2. by rewrite in_group_one.
  - intros user. unfold palloc_free_multiple in E. destruct (_ =? 0); [|done].
    destruct (_ || _); [by injection E as <-|]. apply bind_Ok in E as (us & _ & E). apply bind_Ok in E as (al & _ & E).
    destruct al; [|done]. apply bind_Ok in E as (b & E1 & [= <-]). apply set_multiple_cnt in E1.
    unfold pool_end. destruct user, us; simpl in *; congruence.
Qed.

Definition pte_of (m : mmu) (D : gmap Z (gmap Z Z)) (pd u : Z) : Z :=
  match D !! pd with Some ts => pte m ts u | None => 0 end.
Definition pte_same (m : mmu) (D : gmap Z (gmap Z Z)) (m' : mmu) (D' : gmap Z (gmap Z Z)) : Prop :=
  ∀ pd u, 0 ≤ u < PHYS_BASE → pte_of m' D' pd u = pte_of m D pd u.

Lemma load32_zero r a n x : n ≤ x → x + 4 ≤ n + a → load32 (fill r n 0 a) x = 0.
Proof.
  intros H1 H2. unfold load32. assert (E : peek (fill r n 0 a) x 4 = [0; 0; 0; 0]); [|by rewrite E].
  unfold peek, fill. change (seqZ 0 4) with [0; 1; 2; 3]. cbn [fmap list_fmap].
  by repeat rewrite (proj2 (Z.leb_le _ _)), (proj2 (Z.ltb_lt _ _)) by lia.
Qed.
Lemma fill_out r a v n x : x < a ∨ a + n ≤ x → fill r a v n x = r x.
Proof. intros Hx. unfold fill. destruct (Z.leb_spec a x), (Z.ltb_spec x (a + n)); simpl; done || lia. Qed.

(** A page table is added: [m1] is the state with the new page, zeroed. *)
Section new_table.
Context (m : mmu) (D : gmap Z (gmap Z Z)) (pd : Z) (ts : gmap Z Z) (u pt : Z) (s : palloc).
Context (HD : dirs_ok m D) (HT : tlb_ok m D) (Hpd : D !! pd = Some ts) (Hu : 0 ≤ u < PHYS_BASE).
Context (Hnone : ts !! pd_no u = None) (Hinv : inv s) (Hnew : ¬ used (pal m) pt).
Context (Hused : ∀ a, used s a ↔ used (pal m) a ∨ a = pt) (Hram : ram s = fill (mem m) pt 0 PGSIZE).
Context (Hend : ∀ user, pool_end (get_pool s user) = pool_end (get_pool (pal m) user)).
Let m' := set_mem (set_pal m s) (store32 (mem (set_pal m s)) (pd + 4 * pd_no u) (table_entry pt)).
Let ts' := <[pd_no u := pt]> ts.
Let D' := <[pd := ts']> D.

Lemma new_used a : used (pal m') a ↔ used (pal m) a ∨ a = pt.
Proof. apply Hused. Qed.
Lemma new_kpage : kpage_ok pt.
Proof. apply (used_kpage s); [done|]. apply Hused. by right. Qed.
Lemma pd_used' : used (pal m) pd.
Proof. apply (pd_used m pd ts (di_pd m D HD pd ts Hpd)). by left. Qed.
Lemma pd_kpage : kpage_ok pd.
Proof. apply (used_kpage (pal m)); [apply HD|apply pd_used']. Qed.

Lemma new_mem x : page_of x ≠ pt → ¬ (pd + 4 * pd_no u ≤ x < pd + 4 * pd_no u + 4) → mem m' x = mem m x.
Proof.
  intros H1 H2. change (mem m' x) with (store32 (ram s) (pd + 4 * pd_no u) (table_entry pt) x).
  rewrite store32_out, Hram by lia. apply fill_out.
  destruct (decide (pt ≤ x < pt + PGSIZE)) as [Hin|]; [|lia]. destruct H1. apply page_of_in; [apply new_kpage|done].
Qed.

Lemma pd_not_pt : pd ≠ pt.
Proof. intros E. apply Hnew. rewrite <- E. apply pd_used'. Qed.

Lemma new_mem_page x : page_of x ≠ pt → page_of x ≠ pd → mem m' x = mem m x.
Proof.
  intros H1 H2. apply new_mem; [done|]. intros Hin. apply H2. destruct (user_index u Hu) as [? _].
  apply page_of_in; [apply pd_kpage|]. unfold PGSIZE. lia.
Qed.

Lemma new_entry i : 0 ≤ i < 768 → load32 (mem m') (pd + 4 * i) = if decide (i = pd_no u) then table_entry pt else load32 (mem m) (pd + 4 * i).
Proof.
  intros Hi. destruct (decide _) as [->|Hne].
  - change (mem m') with (store32 (ram s) (pd + 4 * pd_no u) (table_entry pt)). apply load32_store.
    destruct (pde_create_spec pt new_kpage) as (_ & ? & _). lia.
  - apply load32_ext. intros x Hx. apply new_mem; [|lia]. rewrite (page_of_in pd); [apply pd_not_pt|apply pd_kpage|unfold PGSIZE; lia].
Qed.

Lemma new_pte u' : 0 ≤ u' < PHYS_BASE → pte m' ts' u' = pte m ts u'.
Proof.
  intros Hu'. destruct (user_index u' Hu') as [Hi Hi2]. unfold pte, ts'. destruct (decide (pd_no u' = pd_no u)) as [E|Hne].
  - rewrite E, Hnone, lookup_insert_eq.
    rewrite <- (load32_zero (mem m) PGSIZE pt (pte_addr pt u')) by (unfold pte_addr, PGSIZE; lia). rewrite <- Hram.
    apply load32_store_ne. pose proof pd_not_pt. destruct new_kpage as (H1 & _), pd_kpage as (H2 & _).
    destruct (user_index u Hu) as [Hi' _].
    pose proof (Z.div_mod pt PGSIZE). pose proof (Z.div_mod pd PGSIZE). unfold pte_addr, PGSIZE in *. lia.
  - rewrite lookup_insert_ne by done. destruct (ts !! pd_no u') as [pt'|] eqn:Hpt'; [|done].
    apply load32_ext. intros x Hx.
    assert (Hx' : page_of x = pt').
    { apply (own_page m pd ts); [apply HD|by apply (di_pd m D HD)|right; by eexists|unfold pte_addr in Hx; unfold PGSIZE; lia]. }
    destruct (pd_index m pd ts (di_pd m D HD pd ts Hpd) _ _ Hpt') as [_ Hne'].
    apply new_mem_page; rewrite Hx'; [|done]. intros ->. apply Hnew. apply (pd_used m pd ts (di_pd m D HD pd ts Hpd)). right. by eexists.
Qed.

Lemma new_own a : own pd ts' a → own pd ts a ∨ a = pt.
Proof.
  unfold own, ts'. intros [->|[i Hi]]; [auto|]. destruct (decide (i = pd_no u)) as [->|].
  - rewrite lookup_insert_eq in Hi. right. congruence.
  - rewrite lookup_insert_ne in Hi by done. left. right. by exists i.
Qed.
Lemma own_used pd1 ts1 a : D !! pd1 = Some ts1 → own pd1 ts1 a → used (pal m) a.
Proof. intros H. apply (pd_used m pd1 ts1). by apply (di_pd m D HD). Qed.

Lemma new_owned a : owned D' a → owned D a ∨ a = pt.
Proof.
  intros (pd1 & ts1 & H1 & H2). unfold D' in H1. destruct (decide (pd1 = pd)) as [->|].
  - rewrite lookup_insert_eq in H1. injection H1 as <-. destruct (new_own a H2); [|auto]. left. by exists pd, ts.
  - rewrite lookup_insert_ne in H1 by done. left. by exists pd1, ts1.
Qed.

Lemma new_pd_ok : pd_ok m' pd ts'.
Proof.
  pose proof (di_pd m D HD pd ts Hpd) as Hp. destruct (pde_create_spec pt new_kpage) as (_ & _ & E1 & E2).
  destruct (user_index u Hu) as [Hi _]. split.
  - intros a [Ha| ->]%new_own; apply new_used; [left|by right]. by apply (own_used pd ts).
  - intros i Hi'. cbv zeta. rewrite (new_entry i Hi'). unfold ts'. destruct (decide (i = pd_no u)) as [->|Hne].
    + by rewrite lookup_insert_eq.
    + rewrite lookup_insert_ne by done. by apply (pd_entry m pd ts Hp).
  - intros i pt' H. unfold ts' in H. destruct (decide (i = pd_no u)) as [->|Hne].
    + rewrite lookup_insert_eq in H. injection H as <-. split; [done|]. intros E. by apply pd_not_pt.
    + rewrite lookup_insert_ne in H by done. by apply (pd_index m pd ts Hp).
  - assert (Hfresh : ∀ i, ts !! i ≠ Some pt). { intros i H. apply Hnew. apply (own_used pd ts); [done|right; by exists i]. }
    intros i j pt' H1 H2. unfold ts' in *. destruct (decide (i = pd_no u)) as [->|Hne1], (decide (j = pd_no u)) as [->|Hne2]; try done.
    + rewrite lookup_insert_eq in H1. rewrite lookup_insert_ne in H2 by done. injection H1 as <-. by destruct (Hfresh j).
    + rewrite lookup_insert_eq in H2. rewrite lookup_insert_ne in H1 by done. injection H2 as <-. by destruct (Hfresh i).
    + rewrite lookup_insert_ne in H1, H2 by done. by apply (pd_inj m pd ts Hp _ _ pt').
  - intros u' Hu'. rewrite new_pte by done. by apply (pd_frame m pd ts Hp).
Qed.

Lemma other_mem pd1 ts1 x : D !! pd1 = Some ts1 → pd1 ≠ pd → own pd1 ts1 (page_of x) → mem m' x = mem m x.
Proof.
  intros H1 Hne Ho. apply new_mem_page; intros E; rewrite E in Ho.
  - apply Hnew. by apply (own_used pd1 ts1).
  - apply Hne. apply (di_sep m D HD pd1 ts1 pd ts pd); [done..|by left].
Qed.

Lemma new_dirs : dirs_ok m' D'.
Proof.
  pose proof HD as [[M1 M3 M4 M5] Hp Hs Hi0]. destruct (user_index u Hu) as [Hi _].
  assert (Hini : init_page_dir m ≠ pd). { intros E. apply Hi0. exists pd, ts. split; [done|by left]. }
  assert (Hini' : init_page_dir m ≠ pt) by (intros E; apply Hnew; by rewrite <- E).
  split.
  - split; [done| | |].
    + intros user. change (get_pool (pal m') user) with (get_pool s user) || (replace (get_pool (pal m') user) with (get_pool s user) by (by destruct user)).
      rewrite Hend. apply M3.
    + apply new_used. by left.
    + intros i Hi'. rewrite (load32_ext (mem m)); [by apply M5|]. change (init_page_dir m') with (init_page_dir m).
      intros x Hx. assert (page_of x = init_page_dir m) by (apply page_of_in; [by apply (used_kpage (pal m))|unfold PGSIZE; lia]).
      apply new_mem_page; congruence.
  - intros pd1 ts1 H1. unfold D' in H1. destruct (decide (pd1 = pd)) as [->|Hne].
    + rewrite lookup_insert_eq in H1. injection H1 as <-. apply new_pd_ok.
    + rewrite lookup_insert_ne in H1 by done. apply (pd_ok_ext m); [apply HD|by apply Hp| |].
      * intros x. by apply other_mem.
      * intros a Ha. apply new_used. left. by apply (own_used pd1 ts1).
  - assert (Hcase : ∀ pd1 ts1 a, D' !! pd1 = Some ts1 → own pd1 ts1 a →
      (∃ ts0, D !! pd1 = Some ts0 ∧ own pd1 ts0 a) ∨ (pd1 = pd ∧ a = pt)).
    { intros pd1 ts1 a H1 Ha. unfold D' in H1. destruct (decide (pd1 = pd)) as [->|Hne].
      - rewrite lookup_insert_eq in H1. injection H1 as <-. destruct (new_own a Ha); [left; by exists ts|by right].
      - rewrite lookup_insert_ne in H1 by done. left. by exists ts1. }
    intros pd1 ts1 pd2 ts2 a H1 H2 Ha1 Ha2.
    destruct (Hcase pd1 ts1 a H1 Ha1) as [(t1 & G1 & G2)|[-> ->]], (Hcase pd2 ts2 _ H2 Ha2) as [(t2 & K1 & K2)|[-> K2]]; try done.
    + by apply (Hs pd1 t1 pd2 t2 a).
    + destruct Hnew. rewrite <- K2. by apply (own_used pd1 t1).
    + destruct Hnew. by apply (own_used pd2 t2).
  - intros [H|H]%new_owned; [by apply Hi0|by apply Hini'].
Qed.

Lemma new_pte_same : pte_same m D m' D'.
Proof.
  intros pd1 u' Hu'. unfold pte_of, D'. destruct (decide (pd1 = pd)) as [->|Hne].
  - rewrite lookup_insert_eq, Hpd. by apply new_pte.
  - rewrite lookup_insert_ne by done. destruct (D !! pd1) as [ts1|] eqn:H1; [|done].
    apply (pte_ext m m' pd1 ts1); [apply HD|by apply (di_pd m D HD)|done|]. intros x. by apply other_mem.
Qed.

Lemma new_kept : pages_kept m D m' D'.
Proof.
  split; [|intros x Hx Ho|intros a Ha|done].
  - intros a Ha. apply new_used. by left.
  - apply new_mem_page; intros E; [apply Hnew; by rewrite <- E|]. apply Ho. exists pd, ts. split; [done|]. by left.
  - destruct (new_owned a Ha) as [?| ->]; auto.
Qed.

End new_table.

(** The translations that are cached depend on the entries only. *)
Lemma tlb_ok_same m D m' D' :
  tlb_ok m D → cr3 m' = cr3 m → tlb m' = tlb m → (∀ pd, is_Some (D !! pd) → is_Some (D' !! pd)) →
  pte_same m D m' D' → tlb_ok m' D'.
Proof.
  intros [T1 T2] E1 E2 Hs H. split; rewrite E1; [done|]. rewrite E2. intros vp e He.
  destruct (T2 vp e He) as (ts & Hts & Hvp & Ha). destruct (Hs _ (mk_is_Some _ _ Hts)) as [ts' Hts'].
  exists ts'. split; [done|]. split; [done|]. specialize (H (cr3 m + PHYS_BASE) (vp * PGSIZE)). unfold pte_of in H.
  rewrite Hts, Hts' in H. rewrite H; [done|]. by apply round_page.
Qed.

Lemma is_Some_insert {A} (D : gmap Z A) k v k' : is_Some (D !! k') → is_Some ((<[k := v]> D) !! k').
Proof. intros [x H]. destruct (decide (k' = k)) as [->|]; [by rewrite lookup_insert_eq|by rewrite lookup_insert_ne, H by done]. Qed.

Lemma lookup_create m D pd ts u :
  dirs_ok m D → tlb_ok m D → D !! pd = Some ts → 0 ≤ u < PHYS_BASE →
  (lookup_page m pd u true = Ok (0, m) ∧ ts !! pd_no u = None) ∨
  ∃ m' ts' pt, lookup_page m pd u true = Ok (pte_addr pt u, m') ∧ ts' !! pd_no u = Some pt
    ∧ dirs_ok m' (<[pd := ts']> D) ∧ tlb_ok m' (<[pd := ts']> D) ∧ pages_kept m D m' (<[pd := ts']> D)
    ∧ pte_same m D m' (<[pd := ts']> D) ∧ cr3 m' = cr3 m ∧ ∀ i, is_Some (ts !! i) → is_Some (ts' !! i).
Proof.
  intros HD HT Hpd Hu. unfold lookup_page, is_user_vaddr. rewrite (pd_nonzero m D pd ts HD Hpd), (proj2 (Z.ltb_lt _ _)) by lia.
  cbn [negb orb]. destruct (ts !! pd_no u) as [pt|] eqn:Hpt.
  - right. destruct (table_addr m D pd ts HD Hpd u pt Hu Hpt) as (_ & E2 & E3). rewrite E3. cbn [mbind res_bind]. rewrite E2.
    exists m, ts, pt. rewrite (insert_id D) by done. split_and!; try done. apply pages_kept_refl.
  - pose proof (pd_entry m pd ts (di_pd m D HD pd ts Hpd) (pd_no u) (proj1 (user_index u Hu))) as He.
    rewrite Hpt in He. cbv zeta in He. rewrite He. cbn [Z.eqb].
    destruct (get_page_spec (pal m) PAL_ZERO) as [E|(pt & s & E & H1 & H2 & H3 & H4 & H5)]; [apply HD|done| |]; rewrite E; cbn [mbind res_bind].
    + left. cbn [Z.eqb mbind res_bind]. split; [|done]. by destruct m.
    + right. pose proof (used_kpage s pt H1 (proj2 (H3 pt) (or_intror eq_refl))) as Hk.
      rewrite (proj2 (Z.eqb_neq pt 0)) by (destruct Hk as (_ & ? & _); unfold PHYS_BASE in *; lia).
      destruct (pde_create_spec pt Hk) as (-> & Hr & Hp1 & Hp2). cbn [mbind res_bind].
      set (m' := set_mem (set_pal m s) (store32 (mem (set_pal m s)) (pd + 4 * pd_no u) (table_entry pt))).
      exists m', (<[pd_no u := pt]> ts), pt. split.
      { change (mem m') with (store32 (ram s) (pd + 4 * pd_no u) (table_entry pt)). rewrite load32_store by lia.
        unfold pde_get_pt. fold (flag (table_entry pt) PTE_P). rewrite Hp2, ptov_page by (rewrite ?Hp1; destruct Hk as (_ & _ & ?); unfold PGSIZE in *; lia).
        cbn [mbind res_bind]. by rewrite Hp1. }
      split; [apply lookup_insert_eq|]. split; [by apply new_dirs|].
      pose proof (new_pte_same m D pd ts u pt s HD Hpd Hu Hpt H1 H2 H3 H4) as Hsame.
      split; [|split; [by apply (new_kept m D pd ts u pt s)|split; [done|split; [done|]]]].
      2: { intros i. apply is_Some_insert. }
      apply (tlb_ok_same m D); try done. intros pd1. apply is_Some_insert.
Qed.

Lemma used_ram m a : mmu_ok m → used (pal m) a → Z.shiftr (a - PHYS_BASE) PTSHIFT < init_ram_pages m.
Proof.
  intros Hm Hu. destruct (used_kpage (pal m) a (mm_inv m Hm) Hu) as (Hal & Hb & _).
  assert (Hlt : a < PHYS_BASE + PGSIZE * init_ram_pages m).
  { pose proof (mm_ram m Hm true). pose proof (mm_ram m Hm false). destruct Hu as [(_ & ? & _)|(_ & ? & _)]; simpl in *; lia. }
  change PTSHIFT with 12. rewrite Z.shiftr_div_pow2 by lia. change (2 ^ 12) with PGSIZE. apply Z.div_lt_upper_bound; [done|lia].
Qed.

Definition same_page (pd u pd' u' : Z) : Prop := pd' = pd ∧ pg_round_down u' = pg_round_down u.
#[export] Instance same_page_dec pd u pd' u' : Decision (same_page pd u pd' u').
Proof. unfold same_page. apply _. Defined.

Lemma pagedir_set_page_spec m D pd ts u k w :
  dirs_ok m D → tlb_ok m D → D !! pd = Some ts → 0 ≤ u < PHYS_BASE → u mod PGSIZE = 0 → used (pal m) k →
  flag (pte m ts u) PTE_P = false →
  (pagedir_set_page m pd u k w = Ok (false, m) ∧ ts !! pd_no u = None) ∨
  ∃ m' ts', pagedir_set_page m pd u k w = Ok (true, m')
    ∧ dirs_ok m' (<[pd := ts']> D) ∧ tlb_ok m' (<[pd := ts']> D) ∧ pages_kept m D m' (<[pd := ts']> D)
    ∧ (∀ pd' u', 0 ≤ u' < PHYS_BASE → pte_of m' (<[pd := ts']> D) pd' u' =
         if decide (same_page pd u pd' u') then user_entry k w else pte_of m D pd' u')
    ∧ cr3 m' = cr3 m ∧ ∀ i, is_Some (ts !! i) → is_Some (ts' !! i).
Proof.
  intros HD HT Hpd Hu Hal Hk Hp. pose proof (used_kpage (pal m) k (mm_inv m (di_mmu m D HD)) Hk) as Hkp.
  destruct (kpage_vtop k Hkp) as (Ev & Eo & _). unfold pagedir_set_page, is_user_vaddr.
  rewrite pg_ofs_mod, Hal, Eo, (proj2 (Z.ltb_lt _ _)) by lia. cbn [Z.eqb]. rewrite Ev. cbn [mbind res_bind].
  rewrite (proj2 (Z.ltb_lt _ _)) by (by apply used_ram; [apply HD|]).
  rewrite (proj2 (Z.eqb_neq pd (init_page_dir m))) by (intros E; apply (di_init m D HD); exists pd, ts; split; [done|by left]).
  cbn [negb]. destruct (lookup_create m D pd ts u HD HT Hpd Hu) as [[E Hn]|(m1 & ts1 & pt & E & Hpt & HD1 & HT1 & Hkept & Hsame & Ec & Hts)]; rewrite E; cbn [mbind res_bind].
  { by left. }
  right. assert (Hl : (<[pd := ts1]> D : gmap Z (gmap Z Z)) !! pd = Some ts1) by apply lookup_insert_eq.
  rewrite (proj1 (table_addr m1 _ pd ts1 HD1 Hl u pt Hu Hpt)). cbn [negb].
  assert (Ep : load32 (mem m1) (pte_addr pt u) = pte m ts u).
  { pose proof (Hsame pd u Hu) as G. unfold pte_of in G. rewrite Hl, Hpd in G. unfold pte in G at 1. by rewrite Hpt in G. }
  rewrite Ep, Hp. cbn [negb]. destruct (pte_create_user_spec k w Hkp) as (-> & Hr & Hpg & HP & _). cbn [mbind res_bind].
  assert (Hc : pte_changed m1 (set_mem m1 (store32 (mem m1) (pte_addr pt u) (user_entry k w))) (<[pd := ts1]> D) pd u (user_entry k w)).
  { apply (store_agrees m1 _ pd ts1 HD1 HT1 Hl u pt); [done..|rewrite Hpg; destruct Hkp as (_ & _ & ?); unfold PGSIZE in *; lia|].
    intros e (_ & HPe & _). unfold pte in HPe. rewrite Hpt, Ep, Hp in HPe. done. }
  destruct Hc as [C1 C2 C3 C4 C5 C6] eqn:HcE. clear HcE.
  eexists _, ts1. split; [done|]. split; [done|]. split; [done|]. split; [|split; [|split; [rewrite <- Ec; apply C6|done]]].
  - apply (pages_kept_trans m D m1 (<[pd := ts1]> D)); [done|]. by apply (pte_changed_kept m1 _ _ pd u (user_entry k w)).
  - intros pd' u' Hu'. rewrite <- Hsame by done. unfold pte_of. destruct ((<[pd := ts1]> D : gmap Z (gmap Z Z)) !! pd') as [ts'|] eqn:Hl'.
    + by apply C3.
    + destruct (decide (same_page pd u pd' u')) as [[-> _]|]; [congruence|done].
Qed.

(** A directory without page tables is added, in the new page [pd]. *)
Section new_dir.
Context (m m' : mmu) (D : gmap Z (gmap Z Z)) (pd : Z).
Context (HD : dirs_ok m D) (HT : tlb_ok m D) (Hinv : inv (pal m')) (Hnew : ¬ used (pal m) pd).
Context (Hused : ∀ a, used (pal m') a ↔ used (pal m) a ∨ a = pd).
Context (Hend : ∀ user, pool_end (get_pool (pal m') user) = pool_end (get_pool (pal m) user)).
Context (Hmem : ∀ x, page_of x ≠ pd → mem m' x = mem m x).
Context (Hzero : ∀ i, 0 ≤ i < 768 → load32 (mem m') (pd + 4 * i) = 0).
Context (Hinit : init_page_dir m' = init_page_dir m) (Hrp : init_ram_pages m' = init_ram_pages m).
Let D' : gmap Z (gmap Z Z) := <[pd := ∅]> D.

Lemma dir_old pd1 ts1 a : D !! pd1 = Some ts1 → own pd1 ts1 a → a ≠ pd.
Proof. intros G1 G2 ->. apply Hnew. by apply (own_used m D HD pd1 ts1). Qed.
Lemma dir_none : D !! pd = None.
Proof. destruct (D !! pd) as [ts1|] eqn:G; [|done]. by destruct (dir_old pd ts1 pd G (or_introl eq_refl)). Qed.
Lemma dir_own pd1 ts1 a :
  D' !! pd1 = Some ts1 → own pd1 ts1 a → D !! pd1 = Some ts1 ∨ (pd1 = pd ∧ a = pd).
Proof.
  unfold D'. intros G1 G2. destruct (decide (pd1 = pd)) as [->|].
  - rewrite lookup_insert_eq in G1. injection G1 as <-. right. destruct G2 as [->|[i Hi']]; [done|].
    by rewrite lookup_empty in Hi'.
  - rewrite lookup_insert_ne in G1 by done. by left.
Qed.

Lemma dir_pte_same : pte_same m D m' D'.
Proof.
  intros pd1 u Hu. unfold pte_of, D'. destruct (decide (pd1 = pd)) as [->|].
  - rewrite lookup_insert_eq, dir_none. unfold pte. by rewrite lookup_empty.
  - rewrite lookup_insert_ne by done. destruct (D !! pd1) as [ts1|] eqn:G; [|done].
    apply (pte_ext m m' pd1 ts1); [apply HD|by apply (di_pd m D HD)|done|]. intros x Hx. apply Hmem. by apply (dir_old pd1 ts1).
Qed.

Lemma dir_pd_ok : pd_ok m' pd ∅.
Proof.
  split.
  - intros a [->|[i Hi]]; [apply Hused; by right|by rewrite lookup_empty in Hi].
  - intros i Hi. rewrite lookup_empty. by apply Hzero.
  - intros i pt Hi. by rewrite lookup_empty in Hi.
  - intros i j pt Hi. by rewrite lookup_empty in Hi.
  - intros u _. unfold pte. by rewrite lookup_empty.
Qed.

Lemma dir_dirs : dirs_ok m' D'.
Proof.
  pose proof HD as [[M1 M3 M4 M5] Hp Hs Hi0].
  assert (Hini : init_page_dir m ≠ pd) by (intros E; apply Hnew; by rewrite <- E).
  split.
  - split; [done| | |].
    + intros user. rewrite Hend, Hrp. apply M3.
    + apply Hused. left. by rewrite Hinit.
    + intros i Hi'. rewrite Hinit, (load32_ext (mem m)); [by apply M5|]. intros x Hx. apply Hmem.
      rewrite (page_of_in (init_page_dir m)); [done|by apply (used_kpage (pal m))|unfold PGSIZE; lia].
  - intros pd1 ts1 H1. unfold D' in H1. destruct (decide (pd1 = pd)) as [->|Hne].
    + rewrite lookup_insert_eq in H1. injection H1 as <-. apply dir_pd_ok.
    + rewrite lookup_insert_ne in H1 by done. apply (pd_ok_ext m); [apply HD|by apply Hp| |].
      * intros x Hx. apply Hmem. by apply (dir_old pd1 ts1).
      * intros a Ha. apply Hused. left. by apply (own_used m D HD pd1 ts1).
  - intros pd1 ts1 pd2 ts2 a H1 H2 Ha1 Ha2.
    destruct (dir_own pd1 ts1 a H1 Ha1) as [G1|[-> ->]], (dir_own pd2 ts2 _ H2 Ha2) as [G2|[-> G2]]; try done.
    + by apply (Hs pd1 ts1 pd2 ts2 a).
    + by destruct (dir_old pd1 ts1 a G1 Ha1).
    + by destruct (dir_old pd2 ts2 pd G2 Ha2).
  - rewrite Hinit. intros (pd1 & ts1 & G1 & G2). destruct (dir_own pd1 ts1 _ G1 G2) as [G|[_ G]]; [|by apply Hini].
    apply Hi0. by exists pd1, ts1.
Qed.

Lemma dir_kept : pages_kept m D m' D'.
Proof.
  split; [| |intros a (pd1 & ts1 & G1 & G2)|done].
  - intros a Ha. apply Hused. by left.
  - intros x Hx _. apply Hmem. intros Ex. by rewrite Ex in Hx.
  - destruct (dir_own pd1 ts1 a G1 G2) as [G|(-> & ->)]; [left; by exists pd1, ts1|by right].
Qed.

End new_dir.

Lemma pagedir_create_spec m D :
  dirs_ok m D → tlb_ok m D →
  pagedir_create m = Ok (0, m) ∨
  ∃ pd m', pagedir_create m = Ok (pd, m') ∧ kpage_ok pd ∧ ¬ used (pal m) pd
    ∧ dirs_ok m' (<[pd := ∅]> D) ∧ tlb_ok m' (<[pd := ∅]> D) ∧ pages_kept m D m' (<[pd := ∅]> D)
    ∧ pte_same m D m' (<[pd := ∅]> D) ∧ cr3 m' = cr3 m.
Proof.
  intros HD HT. unfold pagedir_create. pose proof (di_mmu m D HD) as Hm.
  destruct (get_page_spec (pal m) 0) as [E|(pd & s & E & H1 & H2 & H3 & H4 & H5)]; [apply Hm|done| |]; rewrite E; cbn [mbind res_bind].
  { left. cbn [Z.eqb negb]. by destruct m. }
  right. change (flag 0 PAL_ZERO) with false in H4. cbv iota in H4.
  pose proof (used_kpage s pd H1 (proj2 (H3 pd) (or_intror eq_refl))) as Hk.
  rewrite (proj2 (Z.eqb_neq pd 0)) by (destruct Hk as (_ & ? & _); unfold PHYS_BASE in *; lia). cbn [negb].
  change (mem (set_pal m s)) with (ram s). rewrite H4. change (init_page_dir (set_pal m s)) with (init_page_dir m).
  remember (peek (ram (pal m)) (init_page_dir m) PGSIZE) as src eqn:Es.
  assert (Hlen : Zlength src = PGSIZE) by (rewrite Es; by apply length_peek).
  assert (Hmem : ∀ x, page_of x ≠ pd → blit (ram (pal m)) pd src x = mem m x).
  { intros x Hx. apply blit_out. destruct (decide (pd ≤ x < pd + Zlength src)) as [Hin|]; [|lia].
    destruct Hx. apply page_of_in; [apply Hk|lia]. }
  assert (Hzero : ∀ i, 0 ≤ i < 768 → load32 (blit (ram (pal m)) pd src) (pd + 4 * i) = 0).
  { intros i Hi. rewrite <- (mm_zero m Hm i Hi). unfold load32. f_equal. f_equal. apply list_fmap_ext.
    intros j x Hx%list_elem_of_lookup_2. apply elem_of_seqZ in Hx. rewrite blit_in by (rewrite Hlen; unfold PGSIZE; lia).
    rewrite Es, lookup_peek by (unfold PGSIZE; lia). cbn [default from_option]. unfold mem, id. f_equal. lia. }
  exists pd, (set_mem (set_pal m s) (blit (ram (pal m)) pd src)). clear Es.
  remember (blit (ram (pal m)) pd src) as r eqn:Er. clear Er.
  set (m' := set_mem (set_pal m s) r).
  assert (Hsame : pte_same m D m' (<[pd := ∅]> D)) by (by apply dir_pte_same).
  split; [done|]. split; [done|]. split; [done|]. split; [|split; [|split; [|done]]].
  - by apply (dir_dirs m m' D pd).
  - apply (tlb_ok_same m D); try done. intros pd1. apply is_Some_insert.
  - by apply (dir_kept m m').
Qed.

(** *** Destroying a directory *)

(** The pages [ps] are given back. *)
Record freed (m m' : mmu) (ps : list Z) : Prop := {
  fr_inv : inv (pal m');
  fr_used a : used (pal m') a ↔ used (pal m) a ∧ a ∉ ps;
  fr_mem x : page_of x ∉ ps → mem m' x = mem m x;
  fr_end user : pool_end (get_pool (pal m') user) = pool_end (get_pool (pal m) user);
  fr_cpu : init_page_dir m' = init_page_dir m ∧ init_ram_pages m' = init_ram_pages m ∧ cr3 m' = cr3 m ∧ tlb m' = tlb m
}.
Lemma freed_nil m : inv (pal m) → freed m m [].
Proof. intros H. split; try done. intros a. split; [intros Ha; split; [done|apply not_elem_of_nil]|tauto]. Qed.
Lemma freed_trans m m1 m2 ps qs : freed m m1 ps → freed m1 m2 qs → freed m m2 (ps ++ qs).
Proof.
  intros [A1 A2 A3 A5 (A6 & A7 & A8 & A9)] [B1 B2 B3 B5 (B6 & B7 & B8 & B9)]. split.
  - done.
  - intros a. rewrite B2, A2, elem_of_app. tauto.
  - intros x Hx. rewrite elem_of_app in Hx. rewrite B3, A3 by tauto. done.
  - intros user. by rewrite B5.
  - split_and!; congruence.
Qed.
Lemma freed_one m p : inv (pal m) → used (pal m) p →
  ∃ s, palloc_free_page (pal m) p = Ok s ∧ freed m (set_pal m s) [p].
Proof.
  intros Hi Hu. destruct (free_page_spec (pal m) p Hi Hu) as (s & E & H1 & H2 & H3 & H4). exists s. split; [done|].
  destruct (used_kpage (pal m) p Hi Hu) as (Hal & _). split; try done.
  - intros a. rewrite list_elem_of_singleton. apply H2.
  - intros x Hx. rewrite list_elem_of_singleton in Hx. unfold mem at 1. simpl. rewrite H3. apply fill_out.
    destruct (decide (p ≤ x < p + PGSIZE)) as [Hin|]; [|lia]. destruct Hx. by apply page_of_in.
Qed.

(** The pages that the entries [l] of the table at [a] refer to, and those that the
    entries [l] of the directory at [a] do, the page tables included. *)
Definition targets (r : Z → Z) (a : Z) (l : list Z) : list Z :=
  l ≫= λ i, let e := load32 r (a + 4 * i) in if flag e PTE_P then [page_at e] else [].
Definition table_targets (r : Z → Z) (a : Z) (l : list Z) : list Z :=
  l ≫= λ i, let e := load32 r (a + 4 * i) in
    if flag e PTE_P then targets r (page_at e) (seqZ 0 1024) ++ [page_at e] else [].

Lemma targets_ext r r' a l :
  (∀ i x, i ∈ l → a + 4 * i ≤ x < a + 4 * i + 4 → r' x = r x) → targets r' a l = targets r a l.
Proof.
  intros H. induction l as [|i l IH]; [done|]. unfold targets in *. cbn [mbind list_bind]. rewrite IH.
  - rewrite (load32_ext r); [done|]. intros x. apply H. by left.
  - intros j x Hj. apply H. by right.
Qed.

Lemma free_pages_spec n m a i :
  inv (pal m) →
  let ps := targets (mem m) a (seqZ i (Z.of_nat n)) in
  NoDup ps → (∀ p, p ∈ ps → used (pal m) p) →
  (∀ j x, i ≤ j < i + Z.of_nat n → a + 4 * j ≤ x < a + 4 * j + 4 → page_of x ∉ ps) →
  ∃ m', free_pages n m (a + 4 * i) = Ok m' ∧ freed m m' ps.
Proof.
  revert m i. induction n as [|n IH]; intros m i Hi ps Hnd Hus Hsep.
  { exists m. split; [done|]. by apply freed_nil. }
  cbn [free_pages]. set (e := load32 (mem m) (a + 4 * i)).
  assert (Eps : ps = (if flag e PTE_P then [page_at e] else []) ++ targets (mem m) a (seqZ (i + 1) (Z.of_nat n))).
  { unfold ps. rewrite Nat2Z.inj_succ, seqZ_cons by lia. rewrite Z.pred_succ. by rewrite <- Z.add_1_r. }
  assert (H1 : ∃ m1, (if flag e PTE_P then page ← pte_get_page e; p ← palloc_free_page (pal m) page; Ok (set_pal m p) else Ok m) = Ok m1
    ∧ freed m m1 (if flag e PTE_P then [page_at e] else [])).
  { destruct (flag e PTE_P); [|exists m; split; [done|by apply freed_nil]].
    assert (Hu : used (pal m) (page_at e)) by (apply Hus; rewrite Eps; by left).
    destruct (used_kpage (pal m) _ Hi Hu) as (_ & _ & Hr). pose proof (load32_range (mem m) (a + 4 * i)).
    unfold pte_get_page. rewrite ptov_page by (unfold PGSIZE in *; fold e; lia). cbn [mbind res_bind].
    destruct (freed_one m (page_at e) Hi Hu) as (s & -> & Hf). by eexists. }
  destruct H1 as (m1 & -> & Hf1). cbn [mbind res_bind]. rewrite Eps in Hnd. apply NoDup_app in Hnd as (_ & Hnd1 & Hnd2).
  assert (Et : targets (mem m1) a (seqZ (i + 1) (Z.of_nat n)) = targets (mem m) a (seqZ (i + 1) (Z.of_nat n))).
  { apply targets_ext. intros j x Hj Hx. apply elem_of_seqZ in Hj. apply (fr_mem _ _ _ Hf1). intros Hin.
    apply (Hsep j x); [lia|done|]. rewrite Eps. apply elem_of_app. by left. }
  replace (a + 4 * i + 4) with (a + 4 * (i + 1)) by lia.
  destruct (IH m1 (i + 1)) as (m' & E & Hf2).
  - apply Hf1.
  - by rewrite Et.
  - intros p Hp. rewrite Et in Hp. apply (fr_used _ _ _ Hf1). split; [apply Hus; rewrite Eps; apply elem_of_app; by right|].
    intros Hp'. by apply (Hnd1 p).
  - intros j x Hj Hx. rewrite Et. intros Hin. apply (Hsep j x); [lia|done|]. rewrite Eps. apply elem_of_app. by right.
  - exists m'. split; [done|]. rewrite Eps. rewrite Et in Hf2. by apply (freed_trans m m1).
Qed.

Lemma elem_of_targets r a l p :
  p ∈ targets r a l ↔ ∃ i, i ∈ l ∧ flag (load32 r (a + 4 * i)) PTE_P = true ∧ p = page_at (load32 r (a + 4 * i)).
Proof.
  unfold targets. rewrite list_elem_of_bind. split.
  - intros (i & Hp & Hi). exists i. cbv zeta in Hp. destruct (flag _ _); [|by apply not_elem_of_nil in Hp].
    by apply list_elem_of_singleton in Hp.
  - intros (i & Hi & HP & ->). exists i. cbv zeta. rewrite HP. split; [by left|done].
Qed.
Lemma elem_of_table_targets r a l p :
  p ∈ table_targets r a l ↔ ∃ i, i ∈ l ∧ flag (load32 r (a + 4 * i)) PTE_P = true ∧
    (p ∈ targets r (page_at (load32 r (a + 4 * i))) (seqZ 0 1024) ∨ p = page_at (load32 r (a + 4 * i))).
Proof.
  unfold table_targets. rewrite list_elem_of_bind. split.
  - intros (i & Hp & Hi). exists i. cbv zeta in Hp. destruct (flag _ _); [|by apply not_elem_of_nil in Hp].
    by rewrite elem_of_app, list_elem_of_singleton in Hp.
  - intros (i & Hi & HP & Hp). exists i. cbv zeta. rewrite HP. by rewrite elem_of_app, list_elem_of_singleton.
Qed.
Lemma table_targets_ext r r' a l :
  (∀ i x, i ∈ l → a + 4 * i ≤ x < a + 4 * i + 4 → r' x = r x) →
  (∀ i x, i ∈ l → flag (load32 r (a + 4 * i)) PTE_P = true →
    page_at (load32 r (a + 4 * i)) ≤ x < page_at (load32 r (a + 4 * i)) + PGSIZE → r' x = r x) →
  table_targets r' a l = table_targets r a l.
Proof.
  intros H1 H2. induction l as [|i l IH]; [done|]. unfold table_targets in *. cbn [mbind list_bind]. rewrite IH.
  - rewrite (load32_ext r) by (intros x; apply H1; by left). cbv zeta. destruct (flag _ _) eqn:HP; [|done].
    rewrite (targets_ext r); [done|]. intros j x Hj Hx. apply elem_of_seqZ in Hj. apply (H2 i); [by left|done|unfold PGSIZE; lia].
  - intros j x Hj. apply H1. by right.
  - intros j x Hj. apply H2. by right.
Qed.

(** One page table and the pages that it refers to. *)
Lemma free_table_spec m e :
  inv (pal m) → 0 ≤ e < 2 ^ 32 → flag e PTE_P = true →
  let ps := targets (mem m) (page_at e) (seqZ 0 1024) ++ [page_at e] in
  NoDup ps → (∀ p, p ∈ ps → used (pal m) p) →
  ∃ m', (pt ← pde_get_pt e; m ← free_pages (Z.to_nat (PGSIZE / 4)) m pt; p ← palloc_free_page (pal m) pt; Ok (set_pal m p)) = Ok m'
    ∧ freed m m' ps.
Proof.
  intros Hi He HP ps Hnd Hus. set (pt := page_at e) in *.
  assert (Hu : used (pal m) pt) by (apply Hus; unfold ps; apply elem_of_app; right; by apply list_elem_of_singleton).
  destruct (used_kpage (pal m) pt Hi Hu) as (Hal & _ & Hr).
  unfold pde_get_pt. fold (flag e PTE_P). rewrite HP, ptov_page by (unfold PGSIZE in *; fold pt; lia). fold pt. cbn [mbind res_bind].
  apply NoDup_app in Hnd as (Hnd1 & Hnd2 & _).
  destruct (free_pages_spec (Z.to_nat (PGSIZE / 4)) m pt 0 Hi) as (m1 & E & Hf1).
  - done.
  - intros p Hp. apply Hus. apply elem_of_app. by left.
  - intros j x Hj Hx Hin. apply (Hnd2 pt); [|by left]. rewrite (page_of_in pt x) in Hin; [done|done|].
    change (Z.of_nat (Z.to_nat (PGSIZE / 4))) with 1024 in Hj. unfold PGSIZE. lia.
  - replace (pt + 4 * 0) with pt in E by lia. rewrite E. cbn [mbind res_bind].
    destruct (freed_one m1 pt) as (s & -> & Hf2); [apply Hf1|apply (fr_used _ _ _ Hf1); split; [done|]|].
    { intros Hin. apply (Hnd2 pt); [done|by left]. }
    eexists. split; [done|]. by apply (freed_trans m m1).
Qed.

Lemma free_tables_spec n m a i :
  inv (pal m) →
  let ps := table_targets (mem m) a (seqZ i (Z.of_nat n)) in
  NoDup ps → (∀ p, p ∈ ps → used (pal m) p) →
  (∀ j x, i ≤ j < i + Z.of_nat n → a + 4 * j ≤ x < a + 4 * j + 4 → page_of x ∉ ps) →
  ∃ m', free_tables n m (a + 4 * i) = Ok m' ∧ freed m m' ps.
Proof.
  revert m i. induction n as [|n IH]; intros m i Hi ps Hnd Hus Hsep.
  { exists m. split; [done|]. by apply freed_nil. }
  cbn [free_tables]. set (e := load32 (mem m) (a + 4 * i)).
  set (here := if flag e PTE_P then targets (mem m) (page_at e) (seqZ 0 1024) ++ [page_at e] else []).
  set (rest := table_targets (mem m) a (seqZ (i + 1) (Z.of_nat n))).
  assert (Eps : ps = here ++ rest).
  { unfold ps. rewrite Nat2Z.inj_succ, seqZ_cons by lia. rewrite Z.pred_succ. by rewrite <- Z.add_1_r. }
  rewrite Eps in Hnd, Hus, Hsep |- *. apply NoDup_app in Hnd as (Hnd0 & Hnd1 & Hnd2).
  assert (H1 : ∃ m1, (if flag e PTE_P then pt ← pde_get_pt e; m ← free_pages (Z.to_nat (PGSIZE / 4)) m pt; p ← palloc_free_page (pal m) pt; Ok (set_pal m p)
      else Ok m) = Ok m1 ∧ freed m m1 here).
  { unfold here in *. destruct (flag e PTE_P) eqn:HP; [|exists m; split; [done|by apply freed_nil]].
    apply free_table_spec; [done|by apply load32_range|done|done|]. intros p Hp. apply Hus, elem_of_app. by left. }
  destruct H1 as (m1 & -> & Hf1). cbn [mbind res_bind].
  assert (Hkeep : ∀ p, p ∈ rest → p ∉ here) by (intros p Hp Hp'; by apply (Hnd1 p)).
  assert (Et : table_targets (mem m1) a (seqZ (i + 1) (Z.of_nat n)) = rest).
  { apply table_targets_ext.
    - intros j x Hj Hx. apply elem_of_seqZ in Hj. apply (fr_mem _ _ _ Hf1). intros Hin. apply (Hsep j x); [lia|done|].
      apply elem_of_app. by left.
    - intros j x Hj HP Hx. assert (Hin : page_at (load32 (mem m) (a + 4 * j)) ∈ rest)
        by (apply elem_of_table_targets; eauto). apply (fr_mem _ _ _ Hf1).
      rewrite (page_of_in (page_at (load32 (mem m) (a + 4 * j))) x); [by apply Hkeep| |done].
      apply (used_kpage (pal m)); [done|]. apply Hus, elem_of_app. by right. }
  replace (a + 4 * i + 4) with (a + 4 * (i + 1)) by lia.
  destruct (IH m1 (i + 1)) as (m' & E & Hf2).
  - apply Hf1.
  - by rewrite Et.
  - intros p Hp. rewrite Et in Hp. apply (fr_used _ _ _ Hf1). split; [apply Hus, elem_of_app; by right|auto].
  - intros j x Hj Hx. rewrite Et. intros Hin. apply (Hsep j x); [lia|done|]. apply elem_of_app. by right.
  - exists m'. split; [done|]. rewrite Et in Hf2. by apply (freed_trans m m1).
Qed.

(** Page [u] is mapped to [p]. *)
Definition mapped (m : mmu) (ts : gmap Z Z) (u p : Z) : Prop :=
  0 ≤ u < PHYS_BASE ∧ u mod PGSIZE = 0 ∧ flag (pte m ts u) PTE_P = true ∧ page_at (pte m ts u) = p.

Lemma index_address i j : 0 ≤ i < 768 → 0 ≤ j < 1024 →
  let u := i * 2 ^ 22 + j * 2 ^ 12 in 0 ≤ u < PHYS_BASE ∧ u mod PGSIZE = 0 ∧ pd_no u = i ∧ pt_no u = j.
Proof.
  intros Hi Hj u. assert (Hu : 0 ≤ u < PHYS_BASE) by (unfold u, PHYS_BASE; lia). unfold PHYS_BASE in Hu. split_and!; try (unfold PHYS_BASE; lia).
  - unfold u. change (2 ^ 22) with (1024 * PGSIZE). change (2 ^ 12) with PGSIZE. rewrite Z.mul_assoc, <- Z.mul_add_distr_r. by apply Z.mod_mul.
  - rewrite pd_no_spec. unfold u. rewrite Z.div_add_l by lia. rewrite Z.div_small; lia.
  - rewrite pt_no_spec by lia. unfold u. change (2 ^ 22) with (1024 * 2 ^ 12). rewrite Z.mul_assoc, <- Z.mul_add_distr_r, Z.div_mul by lia.
    rewrite Z.add_comm, Z.mod_add, Z.mod_small by lia. done.
Qed.

Section destroy.
Context (m : mmu) (D : gmap Z (gmap Z Z)) (pd : Z) (ts : gmap Z Z).
Context (HD : dirs_ok m D) (HT : tlb_ok m D) (Hpd : D !! pd = Some ts) (Hactive : cr3 m + PHYS_BASE ≠ pd).
Context (Hpages : ∀ u p, mapped m ts u p → used (pal m) p ∧ ¬ owned D p ∧ p ≠ init_page_dir m).
Context (Hinj : ∀ u v p, mapped m ts u p → mapped m ts v p → u = v).

Lemma dir_entry_present i : 0 ≤ i < 768 → flag (load32 (mem m) (pd + 4 * i)) PTE_P = true →
  ts !! i = Some (page_at (load32 (mem m) (pd + 4 * i))).
Proof.
  intros Hi HP. pose proof (pd_entry m pd ts (di_pd m D HD pd ts Hpd) i Hi) as He. cbv zeta in He.
  destruct (ts !! i) as [pt|]; [f_equal; symmetry; apply He|]. by rewrite He in HP.
Qed.

Lemma target_mapped i pt p : ts !! i = Some pt →
  p ∈ targets (mem m) pt (seqZ 0 1024) ↔ ∃ u, mapped m ts u p ∧ pd_no u = i.
Proof.
  intros Hpt. destruct (pd_index m pd ts (di_pd m D HD pd ts Hpd) i pt Hpt) as [Hi _]. rewrite elem_of_targets. split.
  - intros (j & Hj & HP & ->). apply elem_of_seqZ in Hj. destruct (index_address i j Hi ltac:(lia)) as (H1 & H2 & H3 & H4).
    exists (i * 2 ^ 22 + j * 2 ^ 12). split; [|done]. unfold mapped, pte, pte_addr. by rewrite H3, Hpt, H4.
  - intros (u & (Hu & Hal & HP & Hp) & Hi'). unfold pte in *. rewrite Hi', Hpt in *. exists (pt_no u). split.
    + apply elem_of_seqZ. pose proof (user_index u Hu). lia.
    + by rewrite <- Hp.
Qed.

Lemma freed_pages p : p ∈ table_targets (mem m) pd (seqZ 0 768) ↔ (∃ i, ts !! i = Some p) ∨ ∃ u, mapped m ts u p.
Proof.
  rewrite elem_of_table_targets. split.
  - intros (i & Hi & HP & Hp). apply elem_of_seqZ in Hi. pose proof (dir_entry_present i ltac:(lia) HP) as Hpt.
    destruct Hp as [Hp| ->]; [right|left; by exists i]. apply (target_mapped i _ p Hpt) in Hp as (u & Hu & _). by exists u.
  - assert (Hpres : ∀ i pt, ts !! i = Some pt → i ∈ seqZ 0 768 ∧ flag (load32 (mem m) (pd + 4 * i)) PTE_P = true ∧ page_at (load32 (mem m) (pd + 4 * i)) = pt).
    { intros i pt Hpt. destruct (pd_index m pd ts (di_pd m D HD pd ts Hpd) i pt Hpt) as [Hi _]. split; [apply elem_of_seqZ; lia|].
      pose proof (pd_entry m pd ts (di_pd m D HD pd ts Hpd) i Hi) as He. cbv zeta in He. rewrite Hpt in He. tauto. }
    intros [[i Hp]|[u Hu]].
    + destruct (Hpres i p Hp) as (H1 & H2 & H3). exists i. auto.
    + pose proof Hu as (_ & _ & HP & _). unfold pte in HP. destruct (ts !! pd_no u) as [pt|] eqn:Hpt; [|done].
      destruct (Hpres _ pt Hpt) as (H1 & H2 & H3). exists (pd_no u). split; [done|]. split; [done|]. left. rewrite H3.
      apply (target_mapped _ pt p Hpt). by exists u.
Qed.

Lemma table_not_mapped i pt u : ts !! i = Some pt → ¬ mapped m ts u pt.
Proof. intros Hpt Hm. destruct (Hpages u pt Hm) as (_ & Ho & _). apply Ho. exists pd, ts. split; [done|]. right. by exists i. Qed.

Lemma freed_nodup : NoDup (table_targets (mem m) pd (seqZ 0 768)).
Proof.
  apply NoDup_bind; [| |apply NoDup_seqZ].
  - intros i1 i2 p Hi1 Hi2 Hp1 Hp2. apply elem_of_seqZ in Hi1, Hi2. cbv zeta in Hp1, Hp2.
    destruct (flag (load32 (mem m) (pd + 4 * i1)) PTE_P) eqn:P1; [|by apply not_elem_of_nil in Hp1].
    destruct (flag (load32 (mem m) (pd + 4 * i2)) PTE_P) eqn:P2; [|by apply not_elem_of_nil in Hp2].
    apply dir_entry_present in P1; [|lia]. apply dir_entry_present in P2; [|lia].
    rewrite elem_of_app, list_elem_of_singleton, (target_mapped i1) in Hp1 by done.
    rewrite elem_of_app, list_elem_of_singleton, (target_mapped i2) in Hp2 by done.
    destruct Hp1 as [(u1 & M1 & <-)|E1], Hp2 as [(u2 & M2 & <-)|E2].
    + by rewrite (Hinj u1 u2 p).
    + rewrite E2 in M1. by destruct (table_not_mapped _ _ u1 P2 M1).
    + rewrite E1 in M2. by destruct (table_not_mapped _ _ u2 P1 M2).
    + apply (pd_inj m pd ts (di_pd m D HD pd ts Hpd) _ _ p); congruence.
  - intros i Hi. apply elem_of_seqZ in Hi. cbv zeta. destruct (flag (load32 (mem m) (pd + 4 * i)) PTE_P) eqn:P1; [|constructor].
    apply dir_entry_present in P1; [|lia]. set (pt := page_at _) in *. apply NoDup_app. split_and!; [| |apply NoDup_singleton].
    + apply NoDup_bind; [| |apply NoDup_seqZ].
      * intros j1 j2 p Hj1 Hj2 Hp1 Hp2. apply elem_of_seqZ in Hj1, Hj2. cbv zeta in Hp1, Hp2.
        destruct (index_address i j1 ltac:(lia) ltac:(lia)) as (A1 & A2 & A3 & A4).
        destruct (index_address i j2 ltac:(lia) ltac:(lia)) as (B1 & B2 & B3 & B4).
        set (u1 := i * 2 ^ 22 + j1 * 2 ^ 12) in *. set (u2 := i * 2 ^ 22 + j2 * 2 ^ 12) in *. rewrite <- A4, <- B4. f_equal.
        apply (Hinj u1 u2 p); unfold mapped, pte, pte_addr; rewrite ?A3, ?B3, P1, ?A4, ?B4.
        -- destruct (flag (load32 (mem m) (pt + 4 * j1)) PTE_P) eqn:Q; [|by apply not_elem_of_nil in Hp1]. apply list_elem_of_singleton in Hp1. done.
        -- destruct (flag (load32 (mem m) (pt + 4 * j2)) PTE_P) eqn:Q; [|by apply not_elem_of_nil in Hp2]. apply list_elem_of_singleton in Hp2. done.
      * intros j _. cbv zeta. destruct (flag _ _); [apply NoDup_singleton|constructor].
    + intros p Hp Hp'. apply list_elem_of_singleton in Hp'. apply (target_mapped i pt p P1) in Hp as (u & Hu & _). rewrite Hp' in Hu.
      by destruct (table_not_mapped i pt u P1 Hu).
Qed.

(** The pages of the directory and the pages that it maps. *)
Definition gone (a : Z) : Prop := own pd ts a ∨ ∃ u, mapped m ts u a.

Lemma gone_used a : gone a → used (pal m) a.
Proof. intros [H|[u H]]; [by apply (own_used m D HD pd ts)|by apply (Hpages u)]. Qed.
Lemma gone_not_own pd1 ts1 a : D !! pd1 = Some ts1 → pd1 ≠ pd → own pd1 ts1 a → ¬ gone a.
Proof.
  intros H1 Hne Ha [H|[u H]]; [apply Hne; by apply (di_sep m D HD pd1 ts1 pd ts a)|].
  destruct (Hpages u a H) as (_ & Ho & _). apply Ho. by exists pd1, ts1.
Qed.

Lemma pagedir_destroy_frees : ∃ m', pagedir_destroy m pd = Ok m' ∧ freed m m' (table_targets (mem m) pd (seqZ 0 768) ++ [pd]).
Proof.
  pose proof (mm_inv m (di_mmu m D HD)) as Hi. pose proof (own_used m D HD pd ts pd Hpd (or_introl eq_refl)) as Hu.
  destruct (used_kpage (pal m) pd Hi Hu) as (Hal & _).
  assert (Hpd' : pd ∉ table_targets (mem m) pd (seqZ 0 768)).
  { rewrite freed_pages. intros [[i H]|[u H]].
    - by destruct (pd_index m pd ts (di_pd m D HD pd ts Hpd) i pd H).
    - destruct (Hpages u pd H) as (_ & Ho & _). apply Ho. exists pd, ts. split; [done|by left]. }
  unfold pagedir_destroy. rewrite (pd_nonzero m D pd ts HD Hpd).
  rewrite (proj2 (Z.eqb_neq pd (init_page_dir m))) by (intros E; apply (di_init m D HD); exists pd, ts; split; [done|by left]).
  cbn [negb]. change (Z.to_nat (pd_no PHYS_BASE)) with (Z.to_nat 768). destruct (free_tables_spec (Z.to_nat 768) m pd 0 Hi) as (m1 & E & Hf1).
  - apply freed_nodup.
  - intros p Hp. apply freed_pages in Hp as [[i Hp]|[u Hp]]; apply gone_used; [left; right; by exists i|right; by exists u].
  - intros j x Hj Hx. change (Z.of_nat (Z.to_nat 768)) with 768 in *. rewrite (page_of_in pd); [done|done|unfold PGSIZE; lia].
  - change (Z.of_nat (Z.to_nat 768)) with 768 in Hf1. replace (pd + 4 * 0) with pd in E by lia. rewrite E. cbn [mbind res_bind].
    destruct (freed_one m1 pd) as (s & -> & Hf2); [apply Hf1|apply (fr_used _ _ _ Hf1); by split|].
    eexists. split; [done|]. by apply (freed_trans m m1).
Qed.

Lemma pagedir_destroy_spec :
  ∃ m', pagedir_destroy m pd = Ok m' ∧ dirs_ok m' (delete pd D) ∧ tlb_ok m' (delete pd D)
    ∧ (∀ a, used (pal m') a ↔ used (pal m) a ∧ ¬ gone a)
    ∧ (∀ x, ¬ gone (page_of x) → mem m' x = mem m x)
    ∧ (∀ pd' u, pd' ≠ pd → 0 ≤ u < PHYS_BASE → pte_of m' (delete pd D) pd' u = pte_of m D pd' u)
    ∧ cr3 m' = cr3 m.
Proof.
  destruct pagedir_destroy_frees as (m' & E & [F1 F2 F3 F5 (F6 & F7 & F8 & F9)]). exists m'. split; [done|].
  assert (Hgone : ∀ a, a ∈ table_targets (mem m) pd (seqZ 0 768) ++ [pd] ↔ gone a).
  { intros a. rewrite elem_of_app, freed_pages, list_elem_of_singleton. unfold gone, own. tauto. }
  setoid_rewrite Hgone in F2. assert (Hmem : ∀ x, ¬ gone (page_of x) → mem m' x = mem m x) by (intros x Hx; apply F3; by rewrite Hgone).
  pose proof HD as [[M1 M3 M4 M5] Hp Hs Hi0].
  assert (Hini : ¬ gone (init_page_dir m)).
  { intros [H|[u H]]; [apply Hi0; by exists pd, ts|]. by destruct (Hpages u _ H) as (_ & _ & ?). }
  assert (Hother : ∀ pd1 ts1 x, D !! pd1 = Some ts1 → pd1 ≠ pd → own pd1 ts1 (page_of x) → mem m' x = mem m x).
  { intros pd1 ts1 x H1 Hne Ho. apply Hmem. by apply (gone_not_own pd1 ts1). }
  assert (Hpte : ∀ pd' u, pd' ≠ pd → 0 ≤ u < PHYS_BASE → pte_of m' (delete pd D) pd' u = pte_of m D pd' u).
  { intros pd' u Hne Hu. unfold pte_of. rewrite lookup_delete_ne by done. destruct (D !! pd') as [ts'|] eqn:H1; [|done].
    apply (pte_ext m m' pd' ts'); [apply HD|by apply Hp|done|]. intros x Hx. by apply (Hother pd' ts'). }
  split; [|split; [|done]].
  - split.
    + split; [done| | |].
      * intros user. rewrite F5, F7. apply M3.
      * rewrite F6. by apply F2.
      * intros i Hi. rewrite F6, (load32_ext (mem m)); [by apply M5|]. intros x Hx. apply Hmem.
        rewrite (page_of_in (init_page_dir m)); [done|by apply (used_kpage (pal m))|unfold PGSIZE; lia].
    + intros pd1 ts1 H1. apply lookup_delete_Some in H1 as [Hne H1]. apply (pd_ok_ext m); [apply HD|by apply Hp| |].
      * intros x Hx. by apply (Hother pd1 ts1).
      * intros a Ha. apply F2. split; [by apply (own_used m D HD pd1 ts1)|by apply (gone_not_own pd1 ts1)].
    + intros pd1 ts1 pd2 ts2 a H1 H2. apply lookup_delete_Some in H1 as [_ H1], H2 as [_ H2]. by apply (Hs pd1 ts1 pd2 ts2).
    + rewrite F6. intros (pd1 & ts1 & H1 & H2). apply lookup_delete_Some in H1 as [_ H1]. apply Hi0. by exists pd1, ts1.
  - destruct HT as [T1 T2]. split; rewrite F8; [done|]. rewrite F9. intros vp e He. destruct (T2 vp e He) as (ts1 & G1 & G2 & G3).
    exists ts1. rewrite lookup_delete_ne by done. split; [done|]. split; [done|].
    specialize (Hpte (cr3 m + PHYS_BASE) (vp * PGSIZE)). unfold pte_of in Hpte. rewrite lookup_delete_ne, G1 in Hpte by done.
    rewrite Hpte; [done|done|]. by apply round_page.
Qed.

End destroy.

(** *** The processor *)

(** What [mmu_access] should do, from the page tables alone. *)
Definition translate (m : mmu) (ts : gmap Z Z) (va : Z) (write : bool) : option Z :=
  if allows (pte m ts va) write then Some (page_at (pte m ts va) + pg_ofs va) else None.

Lemma page_number va : 0 ≤ va < PHYS_BASE → 0 ≤ pg_no va < 0xc0000 ∧ pg_no va * PGSIZE = pg_round_down va.
Proof.
  unfold PHYS_BASE. intros Hva. rewrite pg_no_div, pg_round_down_spec by lia. pose proof (Z.div_mod va PGSIZE).
  split; [split; [apply Z.div_pos; [lia|done]|apply Z.div_lt_upper_bound; [done|unfold PGSIZE; lia]]|unfold PGSIZE in *; lia].
Qed.

(** The entry after an access. *)
Definition touched (e : Z) (write : bool) : Z := Z.lor (Z.lor e PTE_A) (if write then PTE_D else 0).
Lemma touched_spec e write : 0 ≤ e < 2 ^ 32 →
  0 ≤ touched e write < 2 ^ 32 ∧ page_at (touched e write) = page_at e ∧ flag (touched e write) PTE_P = flag e PTE_P
  ∧ flag (touched e write) PTE_W = flag e PTE_W ∧ flag (touched e write) PTE_A = true
  ∧ flag (touched e write) PTE_D = flag e PTE_D || write.
Proof.
  intros He. unfold touched. split; [by apply lor_range; [done|apply lor_range|destruct write]|]. split_and!.
  - rewrite !page_at_lor; [done|done|by destruct write].
  - destruct write; by flags.
  - destruct write; by flags.
  - destruct write; by flags.
  - destruct write; by flags.
Qed.

Section access.
Context (m : mmu) (D : gmap Z (gmap Z Z)) (ts : gmap Z Z) (va : Z) (write : bool).
Context (HD : dirs_ok m D) (HT : tlb_ok m D) (Hpd : D !! (cr3 m + PHYS_BASE) = Some ts) (Hva : 0 ≤ va < PHYS_BASE).

(** The page walk. *)
Lemma access_walk pt :
  ts !! pd_no va = Some pt → allows (pte m ts va) write = true →
  let w := touched (pte m ts va) write in
  let m' := Mmu (Pal (kernel_pool (pal m)) (user_pool (pal m)) (store32 (mem m) (pte_addr pt va) w))
              (init_page_dir m) (init_ram_pages m) (cr3 m) (<[pg_no va := w]> (tlb m)) in
  pte_changed m m' D (cr3 m + PHYS_BASE) va w.
Proof.
  intros Hpt Hal w m'. pose proof (pte_range m ts va) as Hr.
  destruct (touched_spec (pte m ts va) write Hr) as (Hw & Hw1 & Hw2 & Hw3 & Hw4 & Hw5). fold w in Hw, Hw1, Hw2, Hw3, Hw4, Hw5.
  assert (HP : flag (pte m ts va) PTE_P = true) by (unfold allows in Hal; by apply andb_true_iff in Hal as [? _]).
  destruct (store_pte m D (cr3 m + PHYS_BASE) ts pt va w HD Hpd Hpt Hva Hw) as (H1 & H2 & H3).
  { intros _. rewrite Hw1. by apply (pd_frame m _ ts (di_pd m D HD _ ts Hpd)). }
  assert (Hset : pte_set m m' D (cr3 m + PHYS_BASE) va w) by done.
  split; [by apply (dirs_ok_cpu (set_mem m (store32 (mem m) (pte_addr pt va) w)))| |done|done| |done].
  - destruct HT as [T1 T2]. split; [done|]. simpl. intros vp e He. destruct (page_number va Hva) as [Hn1 Hn2].
    destruct (decide (vp = pg_no va)) as [->|Hne].
    + rewrite lookup_insert_eq in He. injection He as <-. exists ts. split; [done|]. split; [done|].
      rewrite Hn2. destruct (pg_round_down_split va) as (_ & Ho & _ & Hrd); [unfold PHYS_BASE in Hva; lia|].
      rewrite (Hset _ ts) by (done || lia). rewrite decide_True.
      * unfold agrees. rewrite Hw2, Hw3, Hw4. done.
      * split; [done|]. rewrite pg_ofs_mod in Ho. unfold PHYS_BASE in Hva. rewrite (pg_round_down_spec (pg_round_down va)) by lia. lia.
    + rewrite lookup_insert_ne in He by done. destruct (T2 vp e He) as (ts1 & G1 & G2 & G3). exists ts1. split; [done|]. split; [done|].
      destruct (round_page vp G2) as [R1 R2]. rewrite (Hset _ ts1) by done. rewrite decide_False; [done|].
      intros [_ Hc]. rewrite R2, <- Hn2 in Hc. unfold PGSIZE in Hc. lia.
  - intros x Hx. apply H3. intros E. apply Hx. rewrite E. by apply (table_owned D (cr3 m + PHYS_BASE) ts Hpd va).
Qed.

Lemma mmu_access_spec :
  match mmu_access m va write with
  | Some (k, m') =>
      translate m ts va write = Some k ∧ ∃ w, pte_changed m m' D (cr3 m + PHYS_BASE) va w
        ∧ page_at w = page_at (pte m ts va) ∧ flag w PTE_P = true ∧ flag w PTE_W = flag (pte m ts va) PTE_W
        ∧ flag w PTE_A = true ∧ flag w PTE_D = flag (pte m ts va) PTE_D || write
  | None => translate m ts va write = None
  end.
Proof.
  unfold mmu_access. destruct (page_number va Hva) as [Hn1 Hn2]. pose proof (pte_range m ts va) as Hr.
  assert (Hva32 : 0 ≤ va < 2 ^ 32) by (unfold PHYS_BASE in Hva; lia).
  destruct (tlb m !! pg_no va ≫= _) as [e|] eqn:Hhit.
  - apply bind_Some in Hhit as (e' & He & Hg). apply bind_Some in Hg as (Hg & _ & [= ->]).
    destruct (tl_entry m D HT _ _ He) as (ts' & G1 & _ & G3). assert (ts' = ts) as -> by congruence. rewrite Hn2, pte_round in G3 by done.
    destruct G3 as (A1 & A2 & A3 & A4 & A5). apply Is_true_true, andb_true_iff in Hg as [Hg1 Hg2]. unfold allows in Hg1. apply andb_true_iff in Hg1 as [_ Hg1].
    assert (Ht : allows (pte m ts va) write = true).
    { unfold allows. rewrite A2. destruct write; [|done]. simpl in *. by apply A4. }
    unfold translate. rewrite Ht. fold (page_at e). rewrite <- A1. split; [done|]. exists (pte m ts va). split; [by apply unchanged|].
    split_and!; try done. destruct write; [|by rewrite orb_false_r]. simpl in Hg2. by rewrite A5.
  - clear Hhit. pose proof (pd_entry m _ ts (di_pd m D HD _ ts Hpd) (pd_no va) (proj1 (user_index va Hva))) as He. cbv zeta in He.
    destruct (ts !! pd_no va) as [pt|] eqn:Hpt.
    + destruct He as [He1 He2]. rewrite He2. fold (page_at (load32 (mem m) (cr3 m + PHYS_BASE + 4 * pd_no va))). rewrite He1.
      change (pt + 4 * pt_no va) with (pte_addr pt va).
      assert (Ep : load32 (mem m) (pte_addr pt va) = pte m ts va) by (unfold pte; by rewrite Hpt). rewrite Ep.
      unfold translate. destruct (allows (pte m ts va) write) eqn:Hal; [|done].
      fold (touched (pte m ts va) write). fold (page_at (touched (pte m ts va) write)).
      destruct (touched_spec (pte m ts va) write Hr) as (Hw & Hw1 & Hw2 & Hw3 & Hw4 & Hw5). rewrite Hw1. split; [done|].
      exists (touched (pte m ts va) write). split; [by apply access_walk|]. rewrite Hw2. unfold allows in Hal. apply andb_true_iff in Hal as [HP _].
      done.
    + rewrite He. cbn. unfold translate, pte. by rewrite Hpt.
Qed.

End access.

(** ** Correctness *)

(** A directory maps no page when it is new, so the entry is given by [pte_of]. *)
Lemma get_page_of m D pd va :
  dirs_ok m D → is_Some (D !! pd) → 0 ≤ va < PHYS_BASE →
  pagedir_get_page m pd va = Ok (if flag (pte_of m D pd va) PTE_P then page_at (pte_of m D pd va) + pg_ofs va else 0).
Proof. intros HD [ts Hts] Hva. unfold pte_of. rewrite Hts. by apply (pagedir_get_page_spec m D pd ts). Qed.

Lemma pte_changed_of m m' D pd u w pd' va :
  pte_changed m m' D pd u w → is_Some (D !! pd') → 0 ≤ va < PHYS_BASE →
  pte_of m' D pd' va = if decide (same_page pd u pd' va) then w else pte_of m D pd' va.
Proof. intros H [ts Hts] Hva. unfold pte_of. rewrite Hts. by apply (pc_set _ _ _ _ _ _ H). Qed.


(** C33: [pagedir_destroy] gives back exactly the pages of the directory: the directory
    itself, its page tables and the pages that it maps (each of them mapped once and not
    part of another directory).  The rest of memory and the other directories are
    unchanged. *)
Theorem pagedir_destroy_exact m D pd ts :
  dirs_ok m D → tlb_ok m D → D !! pd = Some ts → cr3 m + PHYS_BASE ≠ pd →
  (∀ u p, mapped m ts u p → used (pal m) p ∧ ¬ owned D p ∧ p ≠ init_page_dir m) →
  (∀ u v p, mapped m ts u p → mapped m ts v p → u = v) →
  ∃ m', pagedir_destroy m pd = Ok m' ∧ dirs_ok m' (delete pd D) ∧ tlb_ok m' (delete pd D)
    ∧ (∀ a, used (pal m') a ↔ used (pal m) a ∧ ¬ (own pd ts a ∨ ∃ u, mapped m ts u a))
    ∧ (∀ x, used (pal m') (page_of x) → mem m' x = mem m x)
    ∧ ∀ pd' va, pd' ≠ pd → is_Some (D !! pd') → 0 ≤ va < PHYS_BASE → pagedir_get_page m' pd' va = pagedir_get_page m pd' va.
Proof.
  intros HD HT Hts Hne Hpg Hinj. destruct (pagedir_destroy_spec m D pd ts HD HT Hts Hne Hpg Hinj) as (m' & E & HD' & HT' & Hus & Hmem & Hpte & _).
  exists m'. split; [done|]. split; [done|]. split; [done|]. split; [done|]. split.
  - intros x Hx. apply Hus in Hx as [_ Hx]. by apply Hmem.
  - intros pd' va Hn Hs Hva. rewrite (get_page_of m' (delete pd D)), Hpte, (get_page_of m D); try done. by rewrite lookup_delete_ne.
Qed.

(** *** The lookaside buffer *)

(** The operations on live directories and the accesses of the processor. *)
Inductive pstep (live : gset Z) (m : mmu) : gset Z → mmu → Prop :=
  | step_create pd m' : pagedir_create m = Ok (pd, m') → pstep live m (if pd =? 0 then live else {[pd]} ∪ live) m'
  | step_set pd u k w ok m' :
      pd ∈ live → 0 ≤ u < PHYS_BASE → u mod PGSIZE = 0 → used (pal m) k → pagedir_get_page m pd u = Ok 0 →
      pagedir_set_page m pd u k w = Ok (ok, m') → pstep live m live m'
  | step_clear pd u m' :
      pd ∈ live → 0 ≤ u < PHYS_BASE → u mod PGSIZE = 0 → pagedir_clear_page m pd u = Ok m' → pstep live m live m'
  | step_dirty pd u on m' :
      pd ∈ live → 0 ≤ u < PHYS_BASE → pagedir_set_dirty m pd u on = Ok m' → pstep live m live m'
  | step_accessed pd u on m' :
      pd ∈ live → 0 ≤ u < PHYS_BASE → pagedir_set_accessed m pd u on = Ok m' → pstep live m live m'
  | step_activate pd m' : pd ∈ live ∨ pd = 0 → pagedir_activate m pd = Ok m' → pstep live m live m'
  | step_access va write k m' :
      0 ≤ va < PHYS_BASE → mmu_access m va write = Some (k, m') → pstep live m live m'.

Definition coherent (live : gset Z) (m : mmu) : Prop :=
  ∃ D, dirs_ok m D ∧ tlb_ok m D ∧ dom D = live
    ∧ (cr3 m + PHYS_BASE ∈ live ∨ cr3 m + PHYS_BASE = init_page_dir m).

Lemma coherent_changed live m m' D pd u w :
  pte_changed m m' D pd u w → dom D = live → cr3 m + PHYS_BASE ∈ live ∨ cr3 m + PHYS_BASE = init_page_dir m → coherent live m'.
Proof. intros [H1 H2 _ _ _ (E1 & E2 & _)] Hd Ha. exists D. split; [done|]. split; [done|]. rewrite E1, E2. done. Qed.

Lemma live_dir (D : gmap Z (gmap Z Z)) live pd : dom D = live → pd ∈ live → ∃ ts, D !! pd = Some ts.
Proof. intros <- H%elem_of_dom. done. Qed.

Lemma access_kernel m D va write :
  dirs_ok m D → tlb_ok m D → cr3 m + PHYS_BASE = init_page_dir m → 0 ≤ va < PHYS_BASE → mmu_access m va write = None.
Proof.
  intros HD HT Ha Hva. unfold mmu_access. assert (Htlb : tlb m !! pg_no va = None).
  { destruct (tlb m !! pg_no va) as [e|] eqn:E; [|done]. destruct (tl_entry m D HT _ _ E) as (ts & H & _). rewrite Ha in H.
    destruct (di_init m D HD). exists (init_page_dir m), ts. split; [done|by left]. }
  rewrite Htlb, Ha. destruct (user_index va Hva) as [Hi _]. rewrite (mm_zero m (di_mmu m D HD) (pd_no va) Hi). done.
Qed.

Lemma pstep_coherent live m live' m' : coherent live m → pstep live m live' m' → coherent live' m'.
Proof.
  intros (D & HD & HT & Hdom & Hact) Hstep. destruct Hstep as [pd m' E|pd u k w ok m' Hl Hu Hal Hk Hg E|pd u m' Hl Hu Hal E|
    pd u on m' Hl Hu E|pd u on m' Hl Hu E|pd m' Hl E|va write k m' Hva E].
  - destruct (pagedir_create_spec m D HD HT) as [E'|(pd' & m1 & E' & Hk & Hn & HD' & HT' & Hkept & _ & Ec)]; rewrite E in E'; injection E' as -> ->.
    + by exists D.
    + rewrite (proj2 (Z.eqb_neq pd' 0)) by (destruct Hk as (_ & ? & _); unfold PHYS_BASE in *; lia).
      exists (<[pd' := ∅]> D). rewrite dom_insert_L, Hdom, Ec, (proj1 (pk_init _ _ _ _ Hkept)). split_and!; try done. set_solver.
  - destruct (live_dir D live pd Hdom Hl) as [ts Hts].
    assert (HP : flag (pte m ts u) PTE_P = false).
    { rewrite (pagedir_get_page_spec m D pd ts) in Hg by done. destruct (flag (pte m ts u) PTE_P); [|done]. injection Hg as Hg.
      pose proof (page_at_aligned (pte m ts u) (pte_range m ts u)).
      destruct (pg_round_down_split u) as (_ & _ & ? & _); unfold PHYS_BASE in *; lia. }
    destruct (pagedir_set_page_spec m D pd ts u k w HD HT Hts Hu Hal Hk HP) as [[E' _]|(m1 & ts' & E' & HD' & HT' & Hkept & _ & Ec & _)];
      rewrite E in E'; injection E' as -> ->; [by exists D|].
    exists (<[pd := ts']> D). rewrite dom_insert_L, Hdom, Ec, (proj1 (pk_init _ _ _ _ Hkept)). split_and!; try done. set_solver.
  - destruct (live_dir D live pd Hdom Hl) as [ts Hts].
    destruct (pagedir_clear_page_spec m D pd ts HD HT Hts u Hu Hal) as (m1 & e & E' & Hc & _). rewrite E in E'. injection E' as ->.
    by apply (coherent_changed live m m1 D pd u e).
  - destruct (live_dir D live pd Hdom Hl) as [ts Hts].
    destruct (set_flag_spec m D pd ts HD HT Hts PTE_D u on) as (m1 & e & E' & Hc & _); [by right|done|].
    unfold pagedir_set_dirty in E. rewrite E in E'. injection E' as ->. by apply (coherent_changed live m m1 D pd u e).
  - destruct (live_dir D live pd Hdom Hl) as [ts Hts].
    destruct (set_flag_spec m D pd ts HD HT Hts PTE_A u on) as (m1 & e & E' & Hc & _); [by left|done|].
    unfold pagedir_set_accessed in E. rewrite E in E'. injection E' as ->. by apply (coherent_changed live m m1 D pd u e).
  - set (pd0 := if pd =? 0 then init_page_dir m else pd).
    assert (Hk : kpage_ok pd0 ∧ (pd0 ∈ live ∨ pd0 = init_page_dir m)).
    { assert (Hi : kpage_ok (init_page_dir m)) by (apply (used_kpage (pal m)); apply HD).
      unfold pd0. destruct (Z.eqb_spec pd 0); [auto|]. destruct Hl as [Hl|]; [|done]. split; [|auto].
      destruct (live_dir D live pd Hdom Hl) as [ts Hts]. apply (dirs_kpage m D pd ts); [done|done|by left]. }
    destruct Hk as [Hk Hl']. destruct (kpage_vtop pd0 Hk) as (Ev & _). unfold pagedir_activate in E. fold pd0 in E. rewrite Ev in E.
    injection E as <-. exists D. simpl. replace (pd0 - PHYS_BASE + PHYS_BASE) with pd0 by lia. split_and!; try done; [by apply (dirs_ok_cpu m)|].
    split; simpl; [by replace (pd0 - PHYS_BASE + PHYS_BASE) with pd0 by lia|done].
  - destruct Hact as [Hl|Hi].
    + destruct (live_dir D live _ Hdom Hl) as [ts Hts]. pose proof (mmu_access_spec m D ts va write HD HT Hts Hva) as H.
      rewrite E in H. destruct H as (_ & e & Hc & _). apply (coherent_changed live m m' D _ va e Hc Hdom). by left.
    + by rewrite (access_kernel m D) in E.
Qed.

(** C12: the processor never uses a stale translation.  After any sequence of operations
    on page directories and accesses by the processor, starting with directories in order,
    an access to a user address succeeds exactly when the entry in the active directory is
    present and, for a write, writable, and it goes to the address that [pagedir_get_page]
    gives. *)
Theorem tlb_coherent live m live' m' va write :
  coherent live m → rtc (λ x y, pstep x.1 x.2 y.1 y.2) (live, m) (live', m') → 0 ≤ va < PHYS_BASE →
  ∃ D, dirs_ok m' D ∧ dom D = live' ∧
    fst <$> mmu_access m' va write = (ts ← D !! (cr3 m' + PHYS_BASE); translate m' ts va write) ∧
    ∀ k m'', mmu_access m' va write = Some (k, m'') → pagedir_get_page m' (cr3 m' + PHYS_BASE) va = Ok k.
Proof.
  intros Hc Hsteps Hva. assert (Hc' : coherent live' m').
  { remember (live, m) as x eqn:Ex. remember (live', m') as y eqn:Ey. revert live m Ex Hc.
    induction Hsteps as [x|x y z Hxy _ IH]; intros live m -> Hc; [by injection Ey as -> ->|].
    apply (IH Ey y.1 y.2); [by destruct y|]. by apply (pstep_coherent live m). }
  destruct Hc' as (D & HD & HT & Hdom & Hact). exists D. split; [done|]. split; [done|].
  destruct (D !! (cr3 m' + PHYS_BASE)) as [ts|] eqn:Hts; cbn [mbind option_bind].
  - pose proof (mmu_access_spec m' D ts va write HD HT Hts Hva) as H. destruct (mmu_access m' va write) as [[k m'']|]; [|by rewrite H].
    destruct H as [H _]. rewrite H. split; [done|]. intros k' m3 [= <- <-]. rewrite (pagedir_get_page_spec m' D _ ts) by done.
    unfold translate, allows in H. destruct (flag (pte m' ts va) PTE_P); [|done]. simpl in H. destruct (negb write || _); [|done]. by injection H as <-.
  - destruct Hact as [Hl|Hi]; [rewrite <- Hdom in Hl; apply elem_of_dom in Hl as [? ?]; congruence|].
    by rewrite (access_kernel m' D).
Qed.

(** Memory of zeros; one directory, without page tables, is active. *)
Definition demo_mmu : mmu :=
  Mmu (Pal (kernel_pool demo_pools) (user_pool demo_pools) (λ _, 0)) (PHYS_BASE + 0x100000) 1024 0x101000 ∅.
Definition demo_dir : Z := PHYS_BASE + 0x101000.

Lemma demo_used i : 0 ≤ i < 5 → used (pal demo_mmu) (PHYS_BASE + 0x100000 + i * PGSIZE).
Proof.
  intros Hi. left. assert (i = 0 ∨ i = 1 ∨ i = 2 ∨ i = 3 ∨ i = 4) as [->|[->|[->|[->| ->]]]] by lia;
    (split; [reflexivity|]; split; [vm_compute; split; congruence|reflexivity]).
Qed.
Lemma demo_dirs : dirs_ok demo_mmu {[demo_dir := ∅]} ∧ tlb_ok demo_mmu {[demo_dir := ∅]}.
Proof.
  assert (Hz : ∀ a, load32 (mem demo_mmu) a = 0) by (intros a; reflexivity).
  split; [split|split].
  - split; [apply demo_inv|intros []; vm_compute; congruence| |intros; apply Hz].
    apply (demo_used 0). lia.
  - intros pd ts [<- <-]%lookup_singleton_Some. split.
    + intros a [->|[i Hi]]; [by apply (demo_used 1)|by rewrite lookup_empty in Hi].
    + intros i _. rewrite lookup_empty. apply Hz.
    + intros i pt Hi. by rewrite lookup_empty in Hi.
    + intros i j pt Hi. by rewrite lookup_empty in Hi.
    + intros u _. unfold pte. by rewrite lookup_empty.
  - by intros pd ts pd' ts' a [<- _]%lookup_singleton_Some [<- _]%lookup_singleton_Some.
  - intros (pd & ts & [<- <-]%lookup_singleton_Some & [H|[i H]]); [by vm_compute in H|by rewrite lookup_empty in H].
  - by vm_compute.
  - done.
Qed.


Lemma pagedir_destroy_exact_witness :
  ∃ m', pagedir_destroy (Mmu (pal demo_mmu) (init_page_dir demo_mmu) 1024 0x100000 ∅) demo_dir = Ok m'.
Proof.
  destruct demo_dirs as [HD HT].
  destruct (pagedir_destroy_exact (Mmu (pal demo_mmu) (init_page_dir demo_mmu) 1024 0x100000 ∅) {[demo_dir := ∅]} demo_dir ∅)
    as (m' & E & _).
  - by apply (dirs_ok_cpu demo_mmu).
  - split; [by vm_compute|done].
  - apply lookup_singleton_eq.
  - by vm_compute.
  - intros u p (_ & _ & H & _). unfold pte in H. by rewrite lookup_empty in H.
  - intros u v p (_ & _ & H & _). unfold pte in H. by rewrite lookup_empty in H.
  - by exists m'.
Defined.

Lemma tlb_coherent_witness :
  ∃ D : gmap Z (gmap Z Z), dom D = {[demo_dir]} ∧
    fst <$> mmu_access demo_mmu 0x8048000 false = (ts ← D !! (0x101000 + PHYS_BASE); translate demo_mmu ts 0x8048000 false).
Proof.
  destruct demo_dirs as [HD HT].
  destruct (tlb_coherent {[demo_dir]} demo_mmu {[demo_dir]} demo_mmu 0x8048000 false) as (D & _ & Hd & H & _).
  - exists {[demo_dir := ∅]}. split; [done|]. split; [done|]. split; [apply dom_singleton_L|]. left. by apply elem_of_singleton.
  - apply rtc_refl.
  - vm_compute. split; congruence.
  - by exists D.
Defined.

End Pagedir.
