(* ===== verification/Paging.v ===== *)
(** * The kernel's page directory, [paging_init] of [threads/init.c]

    Before there are processes the kernel builds a page directory that maps all physical
    memory above [PHYS_BASE].  It satisfies the invariant on which [Pagedir] relies. *)

From S2P Require Import Prelude Bitmap Vaddr Palloc Disk Pagedir.

Module Paging.
Import Bitmap Palloc Pagedir.

Section image.
(** The addresses [_start] and [_end_kernel_text] of the linker. *)
Context (start end_kernel_text : Z).

Definition in_kernel_text (vaddr : Z) : bool := (start <=? vaddr) && (vaddr <? end_kernel_text).

Fixpoint map_loop (n : nat) (m : mmu) (pd pt page : Z) : res mmu :=
  match n with
  | O => Ok m
  | S n =>
      let paddr := u32 (page * PGSIZE) in
      vaddr ← ptov paddr;
      let pde := pd + 4 * pd_no vaddr in
      '(m, pt) ← (if load32 (mem m) pde =? 0 then
          '(pt, p) ← palloc_get_page (pal m) (Z.lor PAL_ASSERT PAL_ZERO);
          let m := set_pal m p in
          e ← pde_create pt;
          Ok (set_mem m (store32 (mem m) pde e), pt)
        else Ok (m, pt));
      e ← pte_create_kernel vaddr (negb (in_kernel_text vaddr));
      map_loop n (set_mem m (store32 (mem m) (pt + 4 * pt_no vaddr) e)) pd pt (page + 1)
  end.
Definition paging_init (m : mmu) : res mmu :=
  '(pd, p) ← palloc_get_page (pal m) (Z.lor PAL_ASSERT PAL_ZERO);
  m ← map_loop (Z.to_nat (init_ram_pages m)) (Mmu p pd (init_ram_pages m) (cr3 m) (tlb m)) pd 0 0;
  c ← vtop pd;
  Ok (Mmu (pal m) (init_page_dir m) (init_ram_pages m) c ∅).

(** ** Pages for the tables *)

Lemma get_page_assert s :
  palloc_get_page s (Z.lor PAL_ASSERT PAL_ZERO) =
  ('(p, s') ← palloc_get_page s PAL_ZERO; if p =? 0 then Panic else Ok (p, s')).
Proof.
  unfold palloc_get_page, palloc_get_multiple. change (flag (Z.lor PAL_ASSERT PAL_ZERO) PAL_USER) with false.
  change (flag PAL_ZERO PAL_USER) with false. change (flag (Z.lor PAL_ASSERT PAL_ZERO) PAL_ZERO) with true. change (flag PAL_ZERO PAL_ZERO) with true.
  change (flag (Z.lor PAL_ASSERT PAL_ZERO) PAL_ASSERT) with true. change (flag PAL_ZERO PAL_ASSERT) with false. change (1 =? 0) with false. cbv iota.
  destruct (Bitmap.bitmap_scan_and_flip _ 0 1 false) as [[i b]| |]; [|done..]. cbn [mbind res_bind].
  set (q := if negb (i =? BITMAP_ERROR) then _ else _). destruct (q =? 0) eqn:E; cbn [negb mbind res_bind]; by rewrite E.
Qed.

Lemma get_page_base s flags p s' user : palloc_get_page s flags = Ok (p, s') → base (get_pool s' user) = base (get_pool s user).
Proof.
  unfold palloc_get_page, palloc_get_multiple. change (1 =? 0) with false. cbv iota. intros E. apply bind_Ok in E as ([i b] & _ & E).
  destruct (negb (_ =? 0)); [destruct (flag flags PAL_ZERO)|destruct (flag flags PAL_ASSERT); [done|]]; injection E as <- <-;
    by destruct (flag flags PAL_USER), user.
Qed.

(** A page of the kernel pool. *)
Definition pool_page (s : palloc) (a : Z) : Prop := a mod PGSIZE = 0 ∧ base (kernel_pool s) ≤ a < pool_end (kernel_pool s).

Lemma get_table s a : inv s → pool_page s a → ¬ used s a →
  ∃ p s', palloc_get_page s (Z.lor PAL_ASSERT PAL_ZERO) = Ok (p, s') ∧ inv s' ∧ ¬ used s p ∧ (∀ a, used s' a ↔ used s a ∨ a = p)
    ∧ ram s' = fill (ram s) p 0 PGSIZE ∧ kpage_ok p
    ∧ (∀ user, pool_end (get_pool s' user) = pool_end (get_pool s user)) ∧ (∀ user, base (get_pool s' user) = base (get_pool s user)).
Proof.
  intros Hi (Hm & Ha) Hu. rewrite get_page_assert.
  assert (Hne : ∀ s', palloc_get_page s PAL_ZERO ≠ Ok (0, s')).
  { intros s' E. destruct (get_multiple_spec s PAL_ZERO 1 Hi ltac:(lia)) as [(p & s1 & E1 & Hg & _)|[H _]].
    - unfold palloc_get_page in E. rewrite E in E1. injection E1 as <- <-. destruct Hg as (_ & Hg & _). lia.
    - change (get_pool s (flag PAL_ZERO PAL_USER)) with (kernel_pool s) in H.
      destruct (H a) as (x & Hx & Hux); [lia|done| |by apply in_group_one in Hx as ->].
      destruct Hi as ((_ & _ & Hb & _) & _). unfold pool_end in *.
      pose proof (Z.div_mod a PGSIZE). pose proof (Z.div_mod (base (kernel_pool s)) PGSIZE). unfold PGSIZE in *. lia. }
  destruct (get_page_spec s PAL_ZERO Hi eq_refl) as [E|(p & s' & E & H1 & H2 & H3 & H4 & H5)]; [by apply Hne in E|].
  rewrite E. cbn [mbind res_bind]. destruct (Z.eqb_spec p 0) as [->|Hp]; [by apply Hne in E|].
  exists p, s'. split; [done|]. split; [done|]. split; [done|]. split; [done|]. split; [done|]. split.
  { apply (used_kpage s'); [done|]. apply H3. by right. }
  split; [done|]. intros user. by eapply get_page_base.
Qed.

(** ** What the tables contain *)

Definition kernel_page (k : Z) : Z := k * PGSIZE + PHYS_BASE.
Definition kernel_entry (k : Z) : Z :=
  Z.lor (Z.lor (k * PGSIZE) PTE_P) (if negb (in_kernel_text (kernel_page k)) then PTE_W else 0).

Lemma kernel_page_spec k : 0 ≤ k < 2 ^ 18 →
  ptov (u32 (k * PGSIZE)) = Ok (kernel_page k) ∧ pd_no (kernel_page k) = 768 + k / 1024 ∧ pt_no (kernel_page k) = k mod 1024.
Proof.
  intros Hk. unfold kernel_page, PGSIZE. split; [|split].
  - rewrite u32_small by lia. destruct (ptov_vtop (k * 4096)) as (v & E & _ & ->); [unfold PHYS_BASE; lia|done].
  - rewrite pd_no_spec. change (2 ^ 22) with 4194304. unfold PHYS_BASE. Z.to_euclidean_division_equations; lia.
  - rewrite pt_no_spec by (unfold PHYS_BASE; lia). change (2 ^ 12) with 4096. change (2 ^ 10) with 1024. unfold PHYS_BASE. Z.to_euclidean_division_equations; lia.
Qed.

Lemma kernel_entry_spec k : 0 ≤ k < 2 ^ 18 →
  pte_create_kernel (kernel_page k) (negb (in_kernel_text (kernel_page k))) = Ok (kernel_entry k) ∧ 0 ≤ kernel_entry k < 2 ^ 32
  ∧ page_at (kernel_entry k) = kernel_page k ∧ flag (kernel_entry k) PTE_P = true
  ∧ flag (kernel_entry k) PTE_W = negb (in_kernel_text (kernel_page k)) ∧ flag (kernel_entry k) PTE_U = false.
Proof.
  intros Hk. assert (Hp : kpage_ok (kernel_page k)).
  { unfold kpage_ok, kernel_page, PHYS_BASE, PGSIZE. split; [|lia]. Z.to_euclidean_division_equations; lia. }
  destruct (kpage_vtop _ Hp) as (E1 & E2 & Hr & Hm). set (w := negb (in_kernel_text (kernel_page k))).
  assert (Ew : kernel_entry k = Z.lor (kernel_page k - PHYS_BASE) (Z.lor PTE_P (if w then PTE_W else 0))).
  { unfold kernel_entry. fold w. rewrite Z.lor_assoc. do 2 f_equal. unfold kernel_page. lia. }
  assert (Hlow : ∀ i, 0 ≤ i < 12 → Z.testbit (kernel_page k - PHYS_BASE) i = false).
  { intros i Hi. rewrite <- (Z.mod_pow2_bits_low _ 12) by lia. change (2 ^ 12) with PGSIZE. rewrite Hm. apply Z.bits_0. }
  split. { unfold pte_create_kernel. rewrite E2, E1, Z.eqb_refl. cbn [mbind res_bind]. f_equal. by rewrite Ew, Z.lor_assoc. }
  rewrite Ew. destruct (entry_lor (kernel_page k) (Z.lor PTE_P (if w then PTE_W else 0)) Hp) as [H1 H2].
  { destruct w; vm_compute; split; congruence. }
  split; [done|]. split; [done|]. change PTE_U with (2 ^ 2). rewrite flag_P, flag_W, flag_testbit, !(Z.lor_spec (kernel_page k - PHYS_BASE)), !Hlow by lia.
  by destruct w.
Qed.

(** The directory has [c] page tables for the kernel, with entries for [k] pages; these are all
    the pages in use. *)
Record tables (m : mmu) (pd : Z) (ts : gmap Z Z) (c k : Z) : Prop := {
  tb_inv : inv (pal m);
  tb_used a : used (pal m) a ↔ a = pd ∨ ∃ i, ts !! i = Some a;
  tb_dom i : is_Some (ts !! i) ↔ 0 ≤ i < c;
  tb_inj i j a : ts !! i = Some a → ts !! j = Some a → i = j;
  tb_ne i a : ts !! i = Some a → a ≠ pd;
  tb_dir i : 0 ≤ i < 1024 → load32 (mem m) (pd + 4 * i) = match ts !! (i - 768) with Some pt => table_entry pt | None => 0 end;
  tb_pte i pt j : ts !! i = Some pt → 0 ≤ j < 1024 →
    load32 (mem m) (pt + 4 * j) = if i * 1024 + j <? k then kernel_entry (i * 1024 + j) else 0
}.

Lemma kpages_apart a b : kpage_ok a → kpage_ok b → a ≠ b → a + PGSIZE ≤ b ∨ b + PGSIZE ≤ a.
Proof.
  intros (Ha & _) (Hb & _) Hne. pose proof (Z.div_mod a PGSIZE). pose proof (Z.div_mod b PGSIZE). unfold PGSIZE in *. lia.
Qed.
Lemma tb_kpage m pd ts c k : tables m pd ts c k → kpage_ok pd ∧ ∀ i a, ts !! i = Some a → kpage_ok a.
Proof.
  intros H. pose proof (tb_inv _ _ _ _ _ H) as Hi. split; [|intros i a Ha]; apply (used_kpage (pal m)); try done; apply H; [by left|right; by exists i].
Qed.

(** One more table. *)
Lemma add_table m pd ts c k p s : tables m pd ts c k → 0 ≤ c < 256 → k ≤ c * 1024 → inv s → ¬ used (pal m) p → kpage_ok p →
  (∀ a, used s a ↔ used (pal m) a ∨ a = p) → ram s = fill (mem m) p 0 PGSIZE →
  tables (set_mem (set_pal m s) (store32 (mem (set_pal m s)) (pd + 4 * (768 + c)) (table_entry p))) pd (<[c := p]> ts) (c + 1) k.
Proof.
  intros H Hc Hk Hi Hnew Hp Hus Hram. destruct (tb_kpage _ _ _ _ _ H) as [Hpd Hts].
  assert (Hnone : ts !! c = None) by (apply eq_None_not_Some; rewrite (tb_dom _ _ _ _ _ H); lia).
  assert (Hpne : p ≠ pd) by (intros ->; apply Hnew, H; by left).
  assert (Htne : ∀ i a, ts !! i = Some a → a ≠ p) by (intros i a Ha ->; apply Hnew, H; right; by exists i).
  assert (Hm : ∀ q x, kpage_ok q → q ≠ p → q ≤ x → x + 4 ≤ q + PGSIZE → (q = pd → x ≠ pd + 4 * (768 + c) ∧ (x - pd) mod 4 = 0) →
    load32 (store32 (ram s) (pd + 4 * (768 + c)) (table_entry p)) x = load32 (mem m) x).
  { intros q x Hq Hqp Hx1 Hx2 Hqd. rewrite load32_store_ne.
    - rewrite Hram. apply load32_ext. intros y Hy. apply fill_out. destruct (kpages_apart q p Hq Hp Hqp); lia.
    - destruct (decide (q = pd)) as [->|Hn]; [|destruct (kpages_apart q pd Hq Hpd Hn); unfold PGSIZE in *; lia].
      destruct (Hqd eq_refl) as [H1 H2]. Z.to_euclidean_division_equations; lia. }
  split; cbn [pal set_mem set_pal mem ram].
  - exact Hi.
  - intros a. change (used _ a) with (used s a). rewrite Hus, (tb_used _ _ _ _ _ H). split.
    + intros [Hx|Hx]; [|subst; right; exists c; by rewrite lookup_insert_eq]. destruct Hx as [Hx|(i & Ha)]; [by left|].
      right. exists i. rewrite lookup_insert_ne; [done|]. intros ->. congruence.
    + intros [Hx|(i & Ha)]; [by left; left|]. destruct (decide (i = c)) as [->|]; [rewrite lookup_insert_eq in Ha; injection Ha as ->; by right|].
      rewrite lookup_insert_ne in Ha by done. left. right. by exists i.
  - intros i. destruct (decide (i = c)) as [->|]; [rewrite lookup_insert_eq; split; [lia|by eexists]|].
    rewrite lookup_insert_ne, (tb_dom _ _ _ _ _ H) by done. lia.
  - intros i j a Ha Hb. destruct (decide (i = c)) as [->|], (decide (j = c)) as [->|]; rewrite ?lookup_insert_eq in *;
      rewrite ?lookup_insert_ne in * by done; try done; simplify_eq; try (by eapply (tb_inj _ _ _ _ _ H)); by destruct (Htne _ _ ltac:(eassumption)).
  - intros i a Ha. destruct (decide (i = c)) as [->|]; [by rewrite lookup_insert_eq in Ha; injection Ha as <-|].
    rewrite lookup_insert_ne in Ha by done. by eapply (tb_ne _ _ _ _ _ H).
  - intros i Hr. destruct (pde_create_spec p Hp) as (_ & Hte & _). destruct (decide (i = 768 + c)) as [->|Hne].
    + rewrite load32_store by lia. replace (768 + c - 768) with c by lia. by rewrite lookup_insert_eq.
    + rewrite (Hm pd), lookup_insert_ne by (done || (unfold PGSIZE; lia) || (intros _; split; [lia|Z.to_euclidean_division_equations; lia])). by apply H.
  - intros i pt j Ha Hj. destruct (decide (i = c)) as [->|Hne].
    + rewrite lookup_insert_eq in Ha. injection Ha as <-. rewrite (proj2 (Z.ltb_ge _ _)) by lia.
      rewrite load32_store_ne by (destruct (kpages_apart p pd Hp Hpd Hpne); unfold PGSIZE in *; lia).
      change (mem (set_pal m s)) with (ram s). rewrite Hram. apply load32_zero; unfold PGSIZE; lia.
    + rewrite lookup_insert_ne in Ha by done. pose proof (tb_ne _ _ _ _ _ H _ _ Ha).
      rewrite (Hm pt) by (done || (unfold PGSIZE; lia) || by eauto). by apply H.
Qed.

(** One more entry. *)
Lemma add_kernel_entry m pd ts c k pt : tables m pd ts c k → 0 ≤ k < 2 ^ 18 → ts !! (k / 1024) = Some pt →
  tables (set_mem m (store32 (mem m) (pt + 4 * (k mod 1024)) (kernel_entry k))) pd ts c (k + 1).
Proof.
  intros H Hk Hpt. destruct (tb_kpage _ _ _ _ _ H) as [Hpd Hts]. pose proof (tb_ne _ _ _ _ _ H _ _ Hpt) as Hne.
  pose proof (Z.mod_pos_bound k 1024 ltac:(lia)) as Hj. pose proof (Z.div_mod k 1024 ltac:(lia)) as Hdm. destruct (kernel_entry_spec k Hk) as (_ & Her & _).
  split; cbn [pal set_mem set_pal mem ram]; try apply H.
  - intros i Hr. rewrite load32_store_ne; [by apply H|]. destruct (kpages_apart pt pd (Hts _ _ Hpt) Hpd Hne); unfold PGSIZE in *; lia.
  - intros i a j Ha Hr. destruct (decide (i = k / 1024 ∧ j = k mod 1024)) as [[-> ->]|Hn].
    + rewrite Hpt in Ha. injection Ha as <-. rewrite load32_store by done. rewrite (proj2 (Z.ltb_lt _ _)) by lia. f_equal. lia.
    + rewrite load32_store_ne.
      * rewrite (tb_pte _ _ _ _ _ H i a j Ha Hr). destruct (Z.ltb_spec (i * 1024 + j) k), (Z.ltb_spec (i * 1024 + j) (k + 1)); done || lia.
      * destruct (decide (a = pt)) as [->|Hap]; [|destruct (kpages_apart a pt (Hts _ _ Ha) (Hts _ _ Hpt) Hap); unfold PGSIZE in *; lia].
        assert (i = k / 1024) by (by eapply (tb_inj _ _ _ _ _ H)). assert (j ≠ k mod 1024) by (intros ->; by apply Hn). lia.
Qed.

(** A pool with more pages than there are tables has a free page. *)
#[local] Instance pool_used_dec p a : Decision (pool_used p a).
Proof. unfold pool_used. apply _. Defined.
#[local] Instance used_dec s a : Decision (used s a).
Proof. unfold used. apply _. Defined.

Lemma free_page_left m pd ts c k : tables m pd ts c k → 0 ≤ c → c + 1 < bit_cnt (used_map (kernel_pool (pal m))) →
  ∃ a, pool_page (pal m) a ∧ ¬ used (pal m) a.
Proof.
  intros H Hc Hn. set (b := base (kernel_pool (pal m))). set (n := bit_cnt (used_map (kernel_pool (pal m)))) in *.
  assert (Hpage : ∀ i, 0 ≤ i < n → pool_page (pal m) (b + PGSIZE * i)).
  { intros i Hi. destruct (tb_inv _ _ _ _ _ H) as ((_ & _ & Hb & _) & _). fold b in Hb. unfold pool_page, pool_end. fold b n. split; [|unfold PGSIZE; lia].
    by rewrite Z.mul_comm, Z.mod_add. }
  destruct (decide (Exists (λ i, ¬ used (pal m) (b + PGSIZE * i)) (seqZ 0 n))) as [He|He].
  - apply Exists_exists in He as (i & Hi & Hu). apply elem_of_seqZ in Hi. exists (b + PGSIZE * i). split; [apply Hpage; lia|done].
  - exfalso. assert (Hl : ((λ i, b + PGSIZE * i) <$> seqZ 0 n) ⊆+ pd :: ((λ i, default 0 (ts !! i)) <$> seqZ 0 c)).
    { apply NoDup_submseteq; [apply NoDup_fmap_2_strong; [intros i j _ _ Hij; unfold PGSIZE in Hij; lia|apply NoDup_seqZ]|].
      intros a Ha. apply list_elem_of_fmap in Ha as (i & -> & Hi). destruct (decide (used (pal m) (b + PGSIZE * i))) as [Hu|Hu].
      - apply H in Hu as [->|(j & Hj)]; [by left|]. right. apply list_elem_of_fmap. exists j. rewrite Hj. split; [done|].
        apply elem_of_seqZ. pose proof (proj1 (tb_dom _ _ _ _ _ H j) ltac:(by eexists)). lia.
      - destruct He. apply Exists_exists. by exists i. }
    apply submseteq_length in Hl. rewrite length_cons, !length_fmap, !length_seqZ in Hl. lia.
Qed.

(** What the loop leaves alone. *)
Definition same_cpu (m m' : mmu) : Prop :=
  init_page_dir m' = init_page_dir m ∧ init_ram_pages m' = init_ram_pages m ∧ cr3 m' = cr3 m ∧ tlb m' = tlb m
  ∧ (∀ user, pool_end (get_pool (pal m') user) = pool_end (get_pool (pal m) user))
  ∧ (∀ user, base (get_pool (pal m') user) = base (get_pool (pal m) user)).
Lemma same_cpu_trans m1 m2 m3 : same_cpu m1 m2 → same_cpu m2 m3 → same_cpu m1 m3.
Proof. unfold same_cpu. intros (A1 & A2 & A3 & A4 & A5 & A6) (B1 & B2 & B3 & B4 & B5 & B6). split_and!; congruence || (intros user; by rewrite ?B5, ?B6, ?A5, ?A6). Qed.

(** The pages of a pool, from its bounds. *)
Lemma pool_pages m m' : same_cpu m m' → bit_cnt (used_map (kernel_pool (pal m'))) = bit_cnt (used_map (kernel_pool (pal m))).
Proof. intros (_ & _ & _ & _ & He & Hb). specialize (He false). specialize (Hb false). cbn [get_pool] in *. unfold pool_end in He. rewrite Hb in He. unfold PGSIZE in He. lia. Qed.

Lemma need_table m pd ts k : tables m pd ts ((k + 1023) / 1024) k → 0 ≤ k < 2 ^ 18 → k mod 1024 = 0 → (k + 1023) / 1024 + 1 < bit_cnt (used_map (kernel_pool (pal m))) →
  load32 (mem m) (pd + 4 * (768 + k / 1024)) = 0
  ∧ ∃ p s, palloc_get_page (pal m) (Z.lor PAL_ASSERT PAL_ZERO) = Ok (p, s) ∧ pde_create p = Ok (table_entry p)
    ∧ tables (set_mem (set_pal m s) (store32 (mem (set_pal m s)) (pd + 4 * (768 + k / 1024)) (table_entry p))) pd (<[k / 1024 := p]> ts) ((k + 1 + 1023) / 1024) k
    ∧ same_cpu m (set_mem (set_pal m s) (store32 (mem (set_pal m s)) (pd + 4 * (768 + k / 1024)) (table_entry p))).
Proof.
  intros H Hk Hm Hn. assert (Ec : (k + 1023) / 1024 = k / 1024) by (Z.to_euclidean_division_equations; lia).
  assert (Ec1 : (k + 1 + 1023) / 1024 = k / 1024 + 1) by (Z.to_euclidean_division_equations; lia).
  assert (Hq : 0 ≤ k / 1024 < 256) by (Z.to_euclidean_division_equations; lia). rewrite Ec, ?Ec1 in *.
  split. { rewrite (tb_dir _ _ _ _ _ H) by lia. replace (768 + k / 1024 - 768) with (k / 1024) by lia.
           destruct (ts !! (k / 1024)) as [q|] eqn:E; [|done]. pose proof (proj1 (tb_dom _ _ _ _ _ H (k / 1024)) ltac:(by eexists)). lia. }
  destruct (free_page_left m pd ts (k / 1024) k H) as (a & Ha & Hu); [lia|lia|].
  destruct (get_table (pal m) a (tb_inv _ _ _ _ _ H) Ha Hu) as (p & s & E & Hi & Hnew & Hus & Hram & Hp & He & Hb).
  exists p, s. split; [done|]. split; [apply pde_create_spec, Hp|]. split; [apply add_table; try done; Z.to_euclidean_division_equations; lia|].
  repeat split; try done.
Qed.

Lemma map_loop_spec pd n : ∀ m pt k ts,
  tables m pd ts ((k + 1023) / 1024) k → (k mod 1024 ≠ 0 → ts !! (k / 1024) = Some pt) → 0 ≤ k → k + Z.of_nat n ≤ 2 ^ 18 →
  (k + Z.of_nat n + 1023) / 1024 + 1 ≤ bit_cnt (used_map (kernel_pool (pal m))) →
  ∃ m' ts', map_loop n m pd pt k = Ok m' ∧ tables m' pd ts' ((k + Z.of_nat n + 1023) / 1024) (k + Z.of_nat n) ∧ same_cpu m m'.
Proof.
  induction n as [|n IH]; intros m pt k ts H Hpt Hk Hn Hc; cbn [map_loop].
  { exists m, ts. rewrite Z.add_0_r. split; [done|]. split; [done|]. by repeat split. }
  destruct (kernel_page_spec k) as (E1 & E2 & E3); [lia|]. rewrite E1, bind_ret. cbv zeta. rewrite E2, E3.
  destruct (kernel_entry_spec k) as (E4 & _); [lia|].
  assert (Hstep : ∃ m1 pt1 ts1, (if load32 (mem m) (pd + 4 * (768 + k / 1024)) =? 0 then
      '(pt, p) ← palloc_get_page (pal m) (Z.lor PAL_ASSERT PAL_ZERO);
      e ← pde_create pt; Ok (set_mem (set_pal m p) (store32 (mem (set_pal m p)) (pd + 4 * (768 + k / 1024)) e), pt)
    else Ok (m, pt)) = Ok (m1, pt1) ∧ tables m1 pd ts1 ((k + 1 + 1023) / 1024) k ∧ ts1 !! (k / 1024) = Some pt1 ∧ same_cpu m m1).
  { destruct (decide (k mod 1024 = 0)) as [Hm|Hm].
    - destruct (need_table m pd ts k H) as (-> & p & s & -> & Hpde & Ht & Hs); [lia|done|Z.to_euclidean_division_equations; lia|]. cbn [mbind res_bind].
      rewrite Hpde. eexists _, _, _. split; [done|]. split; [exact Ht|]. split; [by rewrite lookup_insert_eq|done].
    - rewrite (tb_dir _ _ _ _ _ H) by (Z.to_euclidean_division_equations; lia). replace (768 + k / 1024 - 768) with (k / 1024) by lia.
      rewrite (Hpt Hm). destruct (tb_kpage _ _ _ _ _ H) as [_ Hts]. destruct (pde_create_spec pt (Hts _ _ (Hpt Hm))) as (_ & Hr & _).
      rewrite (proj2 (Z.eqb_neq _ _)) by lia. exists m, pt, ts. split; [done|]. split; [|by split; [apply Hpt|]].
      by replace ((k + 1 + 1023) / 1024) with ((k + 1023) / 1024) by (Z.to_euclidean_division_equations; lia). }
  destruct Hstep as (m1 & pt1 & ts1 & -> & H1 & Hpt1 & Hs1). rewrite bind_ret, E4, bind_ret.
  pose proof (add_kernel_entry m1 pd ts1 _ k pt1 H1 ltac:(lia) Hpt1) as H2. set (m2 := set_mem m1 _) in *.
  assert (Hs2 : same_cpu m m2) by (apply (same_cpu_trans m m1); [done|by repeat split]).
  destruct (IH m2 pt1 (k + 1) ts1 H2) as (m' & ts' & E & H' & Hs').
  - intros Hm. rewrite <- Hpt1. f_equal. Z.to_euclidean_division_equations; lia.
  - lia.
  - lia.
  - rewrite (pool_pages m m2 Hs2). replace (k + 1 + Z.of_nat n) with (k + Z.of_nat (S n)) by lia. done.
  - exists m', ts'. split; [exact E|]. replace (k + Z.of_nat (S n)) with (k + 1 + Z.of_nat n) by lia. split; [done|]. by apply (same_cpu_trans m m2).
Qed.

(** ** The kernel's view of memory *)

(** The entry for [va] in the active directory; 0 if there is no page table. *)
Definition leaf (m : mmu) (va : Z) : Z :=
  let pde := load32 (mem m) (cr3 m + PHYS_BASE + 4 * pd_no va) in
  if flag pde PTE_P then load32 (mem m) (Z.land pde PTE_ADDR + PHYS_BASE + 4 * pt_no va) else 0.

Lemma access_leaf m va w : tlb m = ∅ →
  fst <$> mmu_access m va w = if allows (leaf m va) w then Some (page_at (leaf m va) + pg_ofs va) else None.
Proof.
  intros Ht. unfold mmu_access, leaf. rewrite Ht, lookup_empty. cbn [mbind option_bind]. cbv zeta.
  destruct (flag (load32 (mem m) (cr3 m + PHYS_BASE + 4 * pd_no va)) PTE_P); [|done].
  set (e := load32 (mem m) (Z.land _ PTE_ADDR + PHYS_BASE + 4 * pt_no va)). destruct (allows e w); [|done]. csimpl. f_equal.
  change (Z.land (Z.lor (Z.lor e PTE_A) (if w then PTE_D else 0)) PTE_ADDR + PHYS_BASE) with (page_at (Z.lor (Z.lor e PTE_A) (if w then PTE_D else 0))).
  by rewrite !page_at_lor by (by destruct w).
Qed.

(** The directory maps the first [n] pages of physical memory. *)
Record maps_ram (m : mmu) (n : Z) : Prop := {
  mr_access va w : 0 ≤ va < 2 ^ 32 →
    fst <$> mmu_access m va w =
    if bool_decide (PHYS_BASE ≤ va < PHYS_BASE + n * PGSIZE) && negb (w && in_kernel_text (pg_round_down va)) then Some va else None;
  mr_user va : 0 ≤ va < 2 ^ 32 → flag (leaf m va) PTE_U = false
}.

Lemma leaf_spec m pd ts n va : tables m pd ts ((n + 1023) / 1024) n → cr3 m = pd - PHYS_BASE → 0 ≤ n ≤ 2 ^ 18 → 0 ≤ va < 2 ^ 32 →
  leaf m va = if bool_decide (PHYS_BASE ≤ va < PHYS_BASE + n * PGSIZE) then kernel_entry ((va - PHYS_BASE) / PGSIZE) else 0.
Proof.
  intros H Hc Hn Hva. destruct (vaddr_decompose va Hva) as (Ed & Hi & Hj). assert (Hofs : 0 ≤ pg_ofs va < 4096) by (rewrite pg_ofs_mod; by apply Z.mod_pos_bound).
  unfold leaf. rewrite Hc. replace (pd - PHYS_BASE + PHYS_BASE) with pd by lia. rewrite (tb_dir _ _ _ _ _ H) by done.
  destruct (ts !! (pd_no va - 768)) as [pt|] eqn:Et.
  - pose proof (proj1 (tb_dom _ _ _ _ _ H _) ltac:(by eexists)) as Hr. destruct (tb_kpage _ _ _ _ _ H) as [_ Hts].
    destruct (pde_create_spec pt (Hts _ _ Et)) as (_ & _ & Ep & ->). fold (page_at (table_entry pt)). rewrite Ep, (tb_pte _ _ _ _ _ H _ _ _ Et Hj).
    assert (Ek : (va - PHYS_BASE) / PGSIZE = (pd_no va - 768) * 1024 + pt_no va).
    { symmetry. apply Z.div_unique with (pg_ofs va); unfold PGSIZE, PHYS_BASE; change (2 ^ 22) with 4194304 in Ed; change (2 ^ 12) with 4096 in Ed; lia. }
    rewrite Ek. change (2 ^ 22) with 4194304 in Ed. change (2 ^ 12) with 4096 in Ed.
    destruct (Z.ltb_spec ((pd_no va - 768) * 1024 + pt_no va) n).
    + by rewrite bool_decide_eq_true_2 by (unfold PHYS_BASE, PGSIZE in *; lia).
    + by rewrite bool_decide_eq_false_2 by (unfold PHYS_BASE, PGSIZE in *; lia).
  - change (flag 0 PTE_P) with false. cbv iota. rewrite bool_decide_eq_false_2; [done|]. intros Hr.
    assert (is_Some (ts !! (pd_no va - 768))) as [? Es]; [|congruence]. apply H.
    rewrite pd_no_spec. change (2 ^ 22) with 4194304. unfold PHYS_BASE, PGSIZE in Hr. Z.to_euclidean_division_equations; lia.
Qed.

Lemma tables_map m pd ts n : tables m pd ts ((n + 1023) / 1024) n → cr3 m = pd - PHYS_BASE → tlb m = ∅ → 0 ≤ n ≤ 2 ^ 18 → maps_ram m n.
Proof.
  intros H Hc Ht Hn. split; intros va.
  - intros w Hva. rewrite access_leaf, (leaf_spec m pd ts n va) by done. case_bool_decide as Hr; [|by destruct w].
    destruct (kernel_entry_spec ((va - PHYS_BASE) / PGSIZE)) as (_ & _ & Ep & EP & EW & _); [unfold PHYS_BASE, PGSIZE in *; Z.to_euclidean_division_equations; lia|].
    assert (Ek : kernel_page ((va - PHYS_BASE) / PGSIZE) = pg_round_down va).
    { rewrite pg_round_down_spec by done. unfold kernel_page, PHYS_BASE, PGSIZE in *. Z.to_euclidean_division_equations; lia. }
    unfold allows. rewrite EP, EW, Ep, Ek. cbn [andb]. rewrite negb_andb. destruct (negb w || _); [|done]. f_equal.
    destruct (pg_round_down_split va Hva) as (E & _). lia.
  - intros Hva. rewrite (leaf_spec m pd ts n va) by done. case_bool_decide as Hr; [|done].
    apply kernel_entry_spec. unfold PHYS_BASE, PGSIZE in *. Z.to_euclidean_division_equations; lia.
Qed.

Lemma first_page m : inv (pal m) → (∀ a, ¬ used (pal m) a) → 1 ≤ bit_cnt (used_map (kernel_pool (pal m))) →
  ∃ pd s, palloc_get_page (pal m) (Z.lor PAL_ASSERT PAL_ZERO) = Ok (pd, s)
    ∧ tables (Mmu s pd (init_ram_pages m) (cr3 m) (tlb m)) pd ∅ 0 0 ∧ kpage_ok pd
    ∧ (∀ user, pool_end (get_pool s user) = pool_end (get_pool (pal m) user)) ∧ (∀ user, base (get_pool s user) = base (get_pool (pal m) user)).
Proof.
  intros Hi Hu Hn. destruct (get_table (pal m) (base (kernel_pool (pal m))) Hi) as (pd & s & E & Hi' & _ & Hus & Hram & Hp & He & Hb).
  - destruct Hi as ((_ & _ & Hb & _) & _). split; [done|]. unfold pool_end, PGSIZE. lia.
  - apply Hu.
  - exists pd, s. split; [done|]. split; [|by split; [|split]]. split; cbn [pal mem ram].
    + done.
    + intros a. rewrite Hus. split; [intros [Ha|Ha]; [by apply Hu in Ha|by left]|]. intros [Ha|(i & Ha)]; [by right|by rewrite lookup_empty in Ha].
    + intros i. rewrite lookup_empty. split; [by intros [? ?]|lia].
    + intros i j a Ha. by rewrite lookup_empty in Ha.
    + intros i a Ha. by rewrite lookup_empty in Ha.
    + intros i Hr. rewrite lookup_empty. unfold mem. cbn [pal]. rewrite Hram. apply load32_zero; unfold PGSIZE; lia.
    + intros i pt j Ha. by rewrite lookup_empty in Ha.
Qed.

Lemma paging_init_spec m n : init_ram_pages m = n → 0 ≤ n ≤ 2 ^ 18 → inv (pal m) → (∀ a, ¬ used (pal m) a) →
  (∀ user, pool_end (get_pool (pal m) user) ≤ PHYS_BASE + PGSIZE * n) → (n + 1023) / 1024 + 1 ≤ bit_cnt (used_map (kernel_pool (pal m))) →
  ∃ m', paging_init m = Ok m' ∧ dirs_ok m' ∅ ∧ tlb_ok m' ∅ ∧ maps_ram m' n.
Proof.
  intros Hn Hr Hi Hu Hend Hc. assert (0 ≤ (n + 1023) / 1024) by (apply Z.div_pos; lia).
  destruct (first_page m Hi Hu ltac:(lia)) as (pd & s & E & H0 & Hp & He & Hb).
  unfold paging_init. rewrite E. cbn [mbind res_bind]. set (m0 := Mmu s pd _ _ _) in *.
  assert (Hs0 : bit_cnt (used_map (kernel_pool s)) = bit_cnt (used_map (kernel_pool (pal m)))).
  { specialize (He false). specialize (Hb false). cbn [get_pool] in *. unfold pool_end, PGSIZE in He. lia. }
  destruct (map_loop_spec pd (Z.to_nat n) m0 0 0 ∅ H0) as (m1 & ts & E1 & H1 & (S1 & S2 & S3 & S4 & S5 & S6)); [done|lia|lia|cbn [pal m0]; rewrite Z2Nat.id, Z.add_0_l, Hs0 by lia; done|].
  rewrite Hn, E1. cbn [mbind res_bind]. destruct (kpage_vtop pd Hp) as (-> & _ & Hv & _). cbn [mbind res_bind]. rewrite Z.add_0_l, Z2Nat.id in H1 by lia.
  eexists. split; [done|]. set (m' := Mmu _ _ _ _ _).
  assert (H' : tables m' pd ts ((n + 1023) / 1024) n) by (destruct H1; by split). cbn [init_page_dir init_ram_pages m0] in S1, S2.
  split; [|split; [|by apply (tables_map m' pd ts)]].
  - split; [|intros ? ? Hx; by rewrite lookup_empty in Hx|intros ? ? ? ? ? Hx; by rewrite lookup_empty in Hx|intros (? & ? & Hx & _); by rewrite lookup_empty in Hx]. split.
    + apply H1.
    + intros user. cbn [pal m' init_ram_pages]. rewrite S5, S2, Hn. cbn [pal m0]. rewrite He. apply Hend.
    + cbn [pal m' init_page_dir]. rewrite S1. apply H1. by left.
    + intros i Hx. cbn [m' init_page_dir]. rewrite S1. change (mem m') with (mem m1). rewrite (tb_dir _ _ _ _ _ H1) by lia.
      destruct (ts !! (i - 768)) eqn:Et; [|done]. pose proof (proj1 (tb_dom _ _ _ _ _ H1 (i - 768)) ltac:(by eexists)). lia.
  - split; [cbn [cr3 m']; by replace (pd - PHYS_BASE + PHYS_BASE) with pd by lia|]. intros vp e Hx. cbn [tlb m'] in Hx. by rewrite lookup_empty in Hx.
Qed.

Lemma bitmap_pages_bound c : 1 ≤ c < 2 ^ 18 → 1 ≤ DIV_ROUND_UP (bitmap_buf_size c) PGSIZE ≤ c / 32768 + 2 ∧ DIV_ROUND_UP (bitmap_buf_size c) PGSIZE ≤ c.
Proof.
  intros Hc. unfold bitmap_buf_size, byte_cnt, elem_cnt, DIV_ROUND_UP, PGSIZE, ELEM_BITS.
  rewrite (u32_small (c + 32 - 1)) by lia. assert (Hw : 0 ≤ (c + 32 - 1) / 32 < 2 ^ 18) by (Z.to_euclidean_division_equations; lia).
  rewrite (u32_small (4 * _)), (u32_small (8 + _)), (u32_small (8 + _ + 4096 - 1)) by lia. Z.to_euclidean_division_equations; lia.
Qed.

(** C13: what the kernel does with memory before anything else: [palloc_init] and [paging_init] succeed
    with at least 2 MB of memory, and leave a state that satisfies the invariants of page
    directories and of the translation cache.  Every byte of physical memory is mapped above
    [PHYS_BASE], the text of the kernel read-only; nothing else is mapped, and nothing is accessible
    to user programs. *)
Theorem boot_memory ram_pages limit junk1 junk2 ram c t :
  512 ≤ ram_pages < 2 ^ 18 → 1 ≤ limit →
  let user_pages := Z.min limit ((ram_pages - 256) / 2) in
  let kernel_pages := ram_pages - 256 - user_pages in
  buffer (kernel_pages - DIV_ROUND_UP (bitmap_buf_size kernel_pages) PGSIZE) junk1 →
  buffer (user_pages - DIV_ROUND_UP (bitmap_buf_size user_pages) PGSIZE) junk2 →
  ∃ s m, palloc_init ram_pages limit junk1 junk2 ram = Ok s
    ∧ paging_init (Mmu s 0 ram_pages c t) = Ok m ∧ dirs_ok m ∅ ∧ tlb_ok m ∅ ∧ maps_ram m ram_pages.
Proof.
  intros Hr Hl user_pages kernel_pages Hj1 Hj2.
  assert (Hu : 1 ≤ user_pages ∧ (ram_pages - 256) / 2 ≤ kernel_pages ∧ user_pages < 2 ^ 18 ∧ kernel_pages < 2 ^ 18 ∧ user_pages + kernel_pages = ram_pages - 256).
  { unfold kernel_pages, user_pages. Z.to_euclidean_division_equations; lia. }
  pose proof (bitmap_pages_bound user_pages ltac:(lia)) as Hbu. pose proof (bitmap_pages_bound kernel_pages ltac:(Z.to_euclidean_division_equations; lia)) as Hbk.
  destruct (palloc_init_spec ram_pages limit junk1 junk2 ram) as (s & E & Hi & Hus & Hb & Hk & He); [lia|lia| | |done|done|].
  1, 2: fold user_pages; fold kernel_pages; Z.to_euclidean_division_equations; lia.
  fold user_pages in Hb, Hk. fold kernel_pages in Hb, Hk.
  destruct (paging_init_spec (Mmu s 0 ram_pages c t) ram_pages) as (m & Em & H); [done|lia|done|done| | |by exists s, m].
  - intros [|]; cbn [pal get_pool]; [lia|rewrite Hk; unfold PGSIZE; lia].
  - cbn [pal]. unfold pool_end in Hk. rewrite Hb in Hk. unfold PGSIZE in Hk, Hbk |- *. clear Hj1 Hj2. Z.to_euclidean_division_equations; lia.
Qed.

End image.

(** Four megabytes of memory. *)
Lemma boot_memory_witness :
  ∃ s m, palloc_init 1024 (2 ^ 32 - 1) (replicate 12 0xcccccccc) (replicate 12 0xcccccccc) (λ _, 0) = Ok s
    ∧ paging_init 0xc0020000 0xc0030000 (Mmu s 0 1024 0 ∅) = Ok m ∧ dirs_ok m ∅ ∧ tlb_ok m ∅ ∧ maps_ram 0xc0020000 0xc0030000 m 1024.
Proof.
  apply (boot_memory 0xc0020000 0xc0030000 1024 (2 ^ 32 - 1) (replicate 12 0xcccccccc) (replicate 12 0xcccccccc) (λ _, 0) 0 ∅); [lia|lia|..].
  - split; [reflexivity|]. apply Forall_replicate. lia.
  - split; [reflexivity|]. apply Forall_replicate. lia.
Defined.

End Paging.
