(* ===== verification/Vm.v ===== *)
(** * Virtual memory, [vm/swap.c], [vm/frame.c], [vm/page.c], [vm/mmap.c], and page faults

    Demand paging with eviction.  [vm] is the state that these files share: memory and the
    page directories, the file system, the swap device, the frame table and, for each
    thread, its supplemental page table and mappings.  The supplemental page table is the
    finite map that [Hash] proves the hash table to represent; the order in which
    [hash_destroy] visits the entries is an argument.  Each function runs without
    interference by other threads, so its locks are left out.  [malloc] is represented by
    its contract, as in [Inode]. *)

From S2P Require Import Prelude Bitmap Vaddr Palloc Disk Inode Pagedir Hash.

Module Vm.
Import Bitmap Palloc Disk Inode Pagedir.

(** ** The state *)

Inductive page_type := PAGE_FILE | PAGE_SWAP | PAGE_ZERO | PAGE_MMAP.
#[export] Instance page_type_eq_dec : EqDecision page_type.
Proof. solve_decision. Defined.

Record spt_entry := SptEntry {
  upage : Z;
  kpage : Z;
  ptype : page_type;
  writable : bool;
  loaded : bool;
  efile : Z;
  file_offset : Z;
  read_bytes : Z;
  zero_bytes : Z;
  swap_slot : Z;
  mapid : Z
}.
Notation spt := (gmap Z spt_entry).

Record frame_entry := FrameEntry { fkpage : Z; fupage : Z; owner : Z; pinned : bool }.

Record mmap_mapping := Mapping { m_id : Z; m_file : Z; start_addr : Z; page_count : Z }.

(** The members of [struct thread] that user programs and virtual memory use. *)
Record proc := Proc {
  pagedir : Z;
  ptable : option spt;
  mmap_list : list mmap_mapping;
  esp_on_syscall : Z;
  file_descriptors : list Z;
  executable : Z
}.

Record vm := VM {
  mach : mmu;
  sys : fs;
  swap_block : option block;
  swap_table : option bitmap;
  frames : gmap Z frame_entry;
  frame_table : list Z;
  clock_hand : Z;
  procs : gmap Z proc;
  cur : Z;
  next_mapid : Z;
  vsupply : nat → bool;
  vcalls : nat
}.

Definition set_mach (v : vm) (m : mmu) : vm :=
  VM m (sys v) (swap_block v) (swap_table v) (frames v) (frame_table v) (clock_hand v) (procs v) (cur v)
     (next_mapid v) (vsupply v) (vcalls v).
Definition set_sys (v : vm) (s : fs) : vm :=
  VM (mach v) s (swap_block v) (swap_table v) (frames v) (frame_table v) (clock_hand v) (procs v) (cur v)
     (next_mapid v) (vsupply v) (vcalls v).
Definition set_swap (v : vm) (b : option block) (t : option bitmap) : vm :=
  VM (mach v) (sys v) b t (frames v) (frame_table v) (clock_hand v) (procs v) (cur v)
     (next_mapid v) (vsupply v) (vcalls v).
Definition set_frames (v : vm) (fs : gmap Z frame_entry) (l : list Z) (hand : Z) : vm :=
  VM (mach v) (sys v) (swap_block v) (swap_table v) fs l hand (procs v) (cur v)
     (next_mapid v) (vsupply v) (vcalls v).
Definition set_procs (v : vm) (ps : gmap Z proc) : vm :=
  VM (mach v) (sys v) (swap_block v) (swap_table v) (frames v) (frame_table v) (clock_hand v) ps (cur v)
     (next_mapid v) (vsupply v) (vcalls v).
Definition set_next_mapid (v : vm) (n : Z) : vm :=
  VM (mach v) (sys v) (swap_block v) (swap_table v) (frames v) (frame_table v) (clock_hand v) (procs v) (cur v)
     n (vsupply v) (vcalls v).

(** [malloc]: null (0) or a new address. *)
Definition kmalloc (v : vm) : Z * vm :=
  (if vsupply v (vcalls v) then 16 * (Z.of_nat (vcalls v) + 1) else 0,
   VM (mach v) (sys v) (swap_block v) (swap_table v) (frames v) (frame_table v) (clock_hand v) (procs v) (cur v)
      (next_mapid v) (vsupply v) (S (vcalls v))).

Definition get_proc (v : vm) (t : Z) : res proc := from_opt (procs v !! t).
Definition upd_proc (v : vm) (t : Z) (f : proc → proc) : vm := set_procs v (alter f t (procs v)).
Definition with_table (p : proc) (s : spt) : proc :=
  Proc (pagedir p) (Some s) (mmap_list p) (esp_on_syscall p) (file_descriptors p) (executable p).
Definition with_mmaps (p : proc) (l : list mmap_mapping) : proc :=
  Proc (pagedir p) (ptable p) l (esp_on_syscall p) (file_descriptors p) (executable p).

Definition vmem (v : vm) : Z → Z := mem (mach v).
Definition set_vmem (v : vm) (r : Z → Z) : vm := set_mach v (set_mem (mach v) r).

(** ** [vm/swap.c] *)

Definition SECTORS_PER_PAGE : Z := PGSIZE / BLOCK_SECTOR_SIZE.

(** [dev] is what [block_get_role] returns; [mem1] and [mem2] are the outcomes of the
    allocations in [bitmap_create]. *)
Definition swap_init (v : vm) (dev : option block) (mem1 : bool) (mem2 : option (list Z)) : res vm :=
  match dev with
  | None => Ok (set_swap v None (swap_table v))
  | Some b =>
      let swap_size := block_size b / SECTORS_PER_PAGE in
      t ← bitmap_create mem1 mem2 swap_size;
      t ← (match t with
           | Some t => t ← bitmap_set_all t false; Ok (Some t)
           | None => Ok None
           end);
      Ok (set_swap v (Some b) t)
  end.

Fixpoint swap_write (n : nat) (r : Z → Z) (b : block) (slot kpage i : Z) : res block :=
  match n with
  | O => Ok b
  | S n =>
      let sector := u32 (slot * SECTORS_PER_PAGE + i) in
      b ← block_write b sector (peek r (kpage + i * BLOCK_SECTOR_SIZE) BLOCK_SECTOR_SIZE);
      swap_write n r b slot kpage (i + 1)
  end.
Definition swap_out (v : vm) (kpage : Z) : res (Z * vm) :=
  t ← from_opt (swap_table v);
  '(slot, t) ← bitmap_scan_and_flip t 0 1 false;
  if slot =? BITMAP_ERROR then Panic else
  b ← from_opt (swap_block v);
  b ← swap_write (Z.to_nat SECTORS_PER_PAGE) (vmem v) b slot kpage 0;
  Ok (slot, set_swap v (Some b) (Some t)).

Fixpoint swap_read (n : nat) (r : Z → Z) (b : block) (slot kpage i : Z) : res ((Z → Z) * block) :=
  match n with
  | O => Ok (r, b)
  | S n =>
      let sector := u32 (slot * SECTORS_PER_PAGE + i) in
      '(buf, b) ← block_read b sector;
      swap_read n (blit r (kpage + i * BLOCK_SECTOR_SIZE) buf) b slot kpage (i + 1)
  end.
Definition swap_in (v : vm) (slot kpage : Z) : res vm :=
  t ← from_opt (swap_table v);
  used ← bitmap_test t slot;
  ASSERT (used : bool);;
  b ← from_opt (swap_block v);
  '(r, b) ← swap_read (Z.to_nat SECTORS_PER_PAGE) (vmem v) b slot kpage 0;
  t ← bitmap_set t slot false;
  Ok (set_vmem (set_swap v (Some b) (Some t)) r).

Definition swap_free (v : vm) (slot : Z) : res vm :=
  t ← from_opt (swap_table v);
  used ← bitmap_test t slot;
  if (used : bool) then t ← bitmap_set t slot false; Ok (set_swap v (swap_block v) (Some t)) else Ok v.

(** ** Lookup in the supplemental page table *)

Definition get_table (v : vm) (t : Z) : res spt := p ← get_proc v t; from_opt (ptable p).
Definition put_entry (v : vm) (t : Z) (e : spt_entry) : vm :=
  upd_proc v t (λ p, with_table p (<[upage e := e]> (default ∅ (ptable p)))).
Definition del_entry (v : vm) (t u : Z) : vm :=
  upd_proc v t (λ p, with_table p (delete u (default ∅ (ptable p)))).

Definition spt_get_entry (v : vm) (t u : Z) : res (option spt_entry) :=
  s ← get_table v t; Ok (s !! pg_round_down u).

(** What [hash_insert] relies on. *)
Definition spt_hash_func (e : spt_entry) : Z := Hash.hash_bytes (le_bytes 4 (upage e)).
Definition spt_less_func (a b : spt_entry) : bool := upage a <? upage b.

(** ** [vm/frame.c] *)

Definition frame_init (v : vm) : vm := set_frames v (frames v) [] 0.

(** The frame after [a], the first one after the last: [list_next], and [list_begin] when
    that is [list_end].  An element that is not in the list is memory that was freed. *)
Definition next_frame (v : vm) (a : Z) : res Z :=
  ASSERT bool_decide (a ∈ frame_table v);;
  Ok (default (hd 0 (frame_table v)) (after a (frame_table v))).

Fixpoint find_loop (fs : gmap Z frame_entry) (kpage : Z) (l : list Z) : res (option Z) :=
  match l with
  | [] => Ok None
  | a :: l =>
      e ← from_opt (fs !! a);
      if fkpage e =? kpage then Ok (Some a) else find_loop fs kpage l
  end.
Definition find_frame (v : vm) (kpage : Z) : res (option Z) := find_loop (frames v) kpage (frame_table v).

Definition remove_frame (v : vm) (a hand : Z) : vm :=
  set_frames v (delete a (frames v)) (filter (λ x, x ≠ a) (frame_table v)) hand.

(** The loop of [evict_frame]; the hand stays on the victim. *)
Fixpoint clock_loop (n : nat) (v : vm) : res (option Z * vm) :=
  match n with
  | O => Ok (None, v)
  | S n =>
      e ← from_opt (frames v !! clock_hand v);
      '(victim, v) ← (if negb (pinned e) then
          p ← get_proc v (owner e);
          acc ← pagedir_is_accessed (mach v) (pagedir p) (fupage e);
          if (acc : bool) then
            m ← pagedir_set_accessed (mach v) (pagedir p) (fupage e) false;
            Ok (false, set_mach v m)
          else Ok (true, v)
        else Ok (false, v));
      if (victim : bool) then Ok (Some (clock_hand v), v) else
      h ← next_frame v (clock_hand v);
      clock_loop n (set_frames v (frames v) (frame_table v) h)
  end.

(** [clock_hand] is never [list_end]: it is only set by [next_frame] on a list that is not
    empty. *)
Definition start_hand (v : vm) : vm :=
  if clock_hand v =? 0 then set_frames v (frames v) (frame_table v) (hd 0 (frame_table v)) else v.

(** After the victim has left the frame table: its page goes to the file that it maps, to
    swap, or nowhere. *)
Definition evict_page (v : vm) (own up kp : Z) (dirty : bool) : res vm :=
  e ← spt_get_entry v own up;
  match e with
  | None => Ok v
  | Some e =>
      let e1 := SptEntry (upage e) 0 (ptype e) (writable e) false (efile e) (file_offset e) (read_bytes e)
                  (zero_bytes e) (swap_slot e) (mapid e) in
      let v := put_entry v own e1 in
      let is_mmap := bool_decide (ptype e = PAGE_MMAP) in
      if is_mmap && dirty then
        s ← file_seek (sys v) (efile e) (file_offset e);
        '(_, s) ← file_write s (efile e) (peek (vmem v) kp (read_bytes e)) (s32 (read_bytes e));
        Ok (set_sys v s)
      else if negb is_mmap && (dirty || writable e) then
        '(slot, v) ← swap_out v kp;
        Ok (put_entry v own (SptEntry (upage e) 0 PAGE_SWAP (writable e) false (efile e) (file_offset e)
                              (read_bytes e) (zero_bytes e) slot (mapid e)))
      else Ok v
  end.

(** The part after the loop. *)
Definition evict_victim (v : vm) (a : Z) : res (Z * vm) :=
  e ← from_opt (frames v !! a);
  p ← get_proc v (owner e);
  dirty ← pagedir_is_dirty (mach v) (pagedir p) (fupage e);
  m ← pagedir_clear_page (mach v) (pagedir p) (fupage e);
  let v := set_mach v m in
  h ← next_frame v a;
  let v := remove_frame v a h in
  v ← evict_page v (owner e) (fupage e) (fkpage e) dirty;
  Ok (fkpage e, v).

Definition evict_frame (v : vm) : res (Z * vm) :=
  if bool_decide (frame_table v = []) then Ok (0, v) else
  let v := start_hand v in
  let max_iterations := u32 (Zlength (frame_table v) * 2) in
  '(victim, v) ← clock_loop (Z.to_nat max_iterations) v;
  match victim with
  | None => Ok (0, v)
  | Some a => evict_victim v a
  end.

Definition frame_alloc (v : vm) (flags up : Z) : res (Z * vm) :=
  ASSERT flag flags PAL_USER;;
  '(k, s) ← palloc_get_page (pal (mach v)) flags;
  let v := set_mach v (set_pal (mach v) s) in
  '(k, v) ← (if k =? 0 then
      '(k, v) ← evict_frame v;
      if k =? 0 then Panic else
      if flag flags PAL_ZERO then Ok (k, set_vmem v (fill (vmem v) k 0 PGSIZE)) else Ok (k, v)
    else Ok (k, v));
  let '(a, v) := kmalloc v in
  if a =? 0 then
    s ← palloc_free_page (pal (mach v)) k;
    Ok (0, set_mach v (set_pal (mach v) s))
  else
    Ok (k, set_frames v (<[a := FrameEntry k up (cur v) false]> (frames v)) (frame_table v ++ [a]) (clock_hand v)).

Definition frame_free (v : vm) (k : Z) : res vm :=
  a ← find_frame v k;
  v ← (match a with
       | Some a =>
           h ← (if clock_hand v =? a then next_frame v a else Ok (clock_hand v));
           Ok (remove_frame v a h)
       | None => Ok v
       end);
  s ← palloc_free_page (pal (mach v)) k;
  Ok (set_mach v (set_pal (mach v) s)).

Definition set_pinned (v : vm) (k : Z) (on : bool) : res vm :=
  a ← find_frame v k;
  match a with
  | Some a => Ok (set_frames v (alter (λ e, FrameEntry (fkpage e) (fupage e) (owner e) on) a (frames v))
                    (frame_table v) (clock_hand v))
  | None => Ok v
  end.
Definition frame_pin (v : vm) (k : Z) : res vm := set_pinned v k true.
Definition frame_unpin (v : vm) (k : Z) : res vm := set_pinned v k false.

(** ** [vm/page.c] *)

(** [hash_init] fails when [malloc] does; [spt_init] does not check. *)
Definition spt_init (v : vm) (t : Z) (mem : bool) : vm :=
  upd_proc v t (λ p, Proc (pagedir p) (if mem then Some ∅ else None) (mmap_list p) (esp_on_syscall p)
    (file_descriptors p) (executable p)).

(** Adding an entry, as [spt_set_file], [spt_set_zero] and [spt_set_mmap] do. *)
Definition spt_add (v : vm) (t : Z) (e : spt_entry) : res (bool * vm) :=
  let '(a, v) := kmalloc v in
  if a =? 0 then Ok (false, v) else
  s ← get_table v t;
  match s !! upage e with
  | Some _ => Ok (false, v)
  | None => Ok (true, put_entry v t e)
  end.
Definition spt_set_file (v : vm) (t up file ofs rb zb : Z) (wr : bool) : res (bool * vm) :=
  spt_add v t (SptEntry (pg_round_down up) 0 PAGE_FILE wr false file ofs rb zb 0 (-1)).
Definition spt_set_zero (v : vm) (t up : Z) (wr : bool) : res (bool * vm) :=
  spt_add v t (SptEntry (pg_round_down up) 0 PAGE_ZERO wr false 0 0 0 PGSIZE 0 (-1)).
Definition spt_set_mmap (v : vm) (t up file ofs rb zb mid : Z) : res (bool * vm) :=
  spt_add v t (SptEntry (pg_round_down up) 0 PAGE_MMAP true false file ofs rb zb 0 mid).

Definition with_frame (e : spt_entry) (k : Z) : spt_entry :=
  SptEntry (upage e) k (ptype e) (writable e) true (efile e) (file_offset e) (read_bytes e) (zero_bytes e)
    (swap_slot e) (mapid e).
Definition spt_set_loaded (v : vm) (t up k : Z) : res (bool * vm) :=
  e ← spt_get_entry v t up;
  match e with
  | None => Ok (false, v)
  | Some e => Ok (true, put_entry v t (with_frame e k))
  end.

Definition spt_set_swap (v : vm) (t up slot : Z) : res (bool * vm) :=
  e ← spt_get_entry v t up;
  match e with
  | None => Ok (false, v)
  | Some e => Ok (true, put_entry v t (SptEntry (upage e) 0 PAGE_SWAP (writable e) false (efile e) (file_offset e)
                          (read_bytes e) (zero_bytes e) slot (mapid e)))
  end.

Definition spt_remove_entry (v : vm) (t up : Z) : res vm :=
  s ← get_table v t;
  match s !! pg_round_down up with
  | None => Ok v
  | Some e =>
      let v := del_entry v t (pg_round_down up) in
      if bool_decide (ptype e = PAGE_SWAP) && negb (swap_slot e =? 0) then swap_free v (swap_slot e) else Ok v
  end.

(** Filling the frame [k]: [false] when the file is too short, after which the frame is
    freed. *)
Definition load_contents (v : vm) (e : spt_entry) (k : Z) : res (bool * vm) :=
  match ptype e with
  | PAGE_FILE | PAGE_MMAP =>
      '(ok, v) ← (if 0 <? read_bytes e then
          s ← file_seek (sys v) (efile e) (file_offset e);
          '(buf, s) ← file_read s (efile e) (s32 (read_bytes e));
          let v := set_vmem (set_sys v s) (blit (vmem v) k buf) in
          Ok (Zlength buf =? s32 (read_bytes e), v)
        else Ok (true, v));
      if (ok : bool) then Ok (true, set_vmem v (fill (vmem v) (k + read_bytes e) 0 (zero_bytes e)))
      else Ok (false, v)
  | PAGE_ZERO => Ok (true, set_vmem v (fill (vmem v) k 0 PGSIZE))
  | PAGE_SWAP => v ← swap_in v (swap_slot e) k; Ok (true, v)
  end.

Definition spt_load_page (v : vm) (t up : Z) : res (bool * vm) :=
  e ← spt_get_entry v t up;
  match e with
  | None => Ok (false, v)
  | Some e =>
      if loaded e then Ok (false, v) else
      '(k, v) ← frame_alloc v PAL_USER (upage e);
      if k =? 0 then Ok (false, v) else
      '(ok, v) ← load_contents v e k;
      if (ok : bool) then
        p ← get_proc v (cur v);
        '(set, m) ← pagedir_set_page (mach v) (pagedir p) (upage e) k (writable e);
        let v := set_mach v m in
        if (set : bool) then
          e' ← spt_get_entry v t up;
          match e' with
          | Some e' => Ok (true, put_entry v t (with_frame e' k))
          | None => Ok (true, v)
          end
        else v ← frame_free v k; Ok (false, v)
      else v ← frame_free v k; Ok (false, v)
  end.

Definition check_write_back (v : vm) (e : spt_entry) : res vm :=
  if bool_decide (ptype e = PAGE_MMAP) && loaded e && negb (kpage e =? 0) then
    p ← get_proc v (cur v);
    k ← pagedir_get_page (mach v) (pagedir p) (upage e);
    dirty ← (if negb (k =? 0) then pagedir_is_dirty (mach v) (pagedir p) (upage e) else Ok false);
    if (dirty : bool) then
      '(_, s) ← file_write_at (sys v) (efile e) (peek (vmem v) k (read_bytes e)) (s32 (read_bytes e)) (file_offset e);
      Ok (set_sys v s)
    else Ok v
  else Ok v.

Definition spt_destroy_func (v : vm) (e : spt_entry) : res vm :=
  v ← check_write_back v e;
  p ← get_proc v (cur v);
  k ← pagedir_get_page (mach v) (pagedir p) (upage e);
  v ← (if negb (k =? 0) then
         m ← pagedir_clear_page (mach v) (pagedir p) (upage e);
         frame_free (set_mach v m) k
       else Ok v);
  if bool_decide (ptype e = PAGE_SWAP) && negb (swap_slot e =? 0) then swap_free v (swap_slot e) else Ok v.

Fixpoint destroy_entries (v : vm) (l : list spt_entry) : res vm :=
  match l with
  | [] => Ok v
  | e :: l => v ← spt_destroy_func v e; destroy_entries v l
  end.
(** [order] is the order in which [hash_destroy] visits the entries; the buckets are freed
    at the end. *)
Definition spt_destroy (v : vm) (t : Z) (order : list Z) : res vm :=
  s ← get_table v t;
  v ← destroy_entries v (omap (λ u, s !! u) order);
  Ok (upd_proc v t (λ p, Proc (pagedir p) None (mmap_list p) (esp_on_syscall p) (file_descriptors p) (executable p))).

(** ** [vm/mmap.c] *)

Definition mmap_init (v : vm) (t : Z) : vm := upd_proc v t (λ p, with_mmaps p []).

(** Removing the first [n] pages again. *)
Fixpoint mmap_undo (n : nat) (v : vm) (t addr j : Z) : res vm :=
  match n with
  | O => Ok v
  | S n => v ← spt_remove_entry v t (u32 (addr + j * PGSIZE)); mmap_undo n v t addr (j + 1)
  end.
Fixpoint mmap_pages (n : nat) (v : vm) (t addr file mid i up ofs remaining : Z) : res (bool * vm) :=
  match n with
  | O => Ok (true, v)
  | S n =>
      let page_read_bytes := if remaining <? PGSIZE then remaining else PGSIZE in
      let page_zero_bytes := PGSIZE - page_read_bytes in
      '(ok, v) ← spt_set_mmap v t up file ofs page_read_bytes page_zero_bytes mid;
      if (ok : bool) then
        mmap_pages n v t addr file mid (i + 1) (u32 (up + PGSIZE)) (s32 (ofs + page_read_bytes))
          (remaining - page_read_bytes)
      else v ← mmap_undo (Z.to_nat i) v t addr 0; Ok (false, v)
  end.
Definition mmap_map (v : vm) (addr file offset length : Z) : res (Z * vm) :=
  let t := cur v in
  let '(a, v) := kmalloc v in
  if a =? 0 then Ok (-1, v) else
  let mid := next_mapid v in
  let v := set_next_mapid v (s32 (mid + 1)) in
  let cnt := u32 (length + PGSIZE - 1) / PGSIZE in
  '(ok, v) ← mmap_pages (Z.to_nat cnt) v t addr file mid 0 addr offset length;
  if (ok : bool) then
    Ok (mid, upd_proc v t (λ p, with_mmaps p (mmap_list p ++ [Mapping mid file addr cnt])))
  else Ok (-1, v).

(** Page [i] of a mapping that goes away. *)
Definition unmap_page (v : vm) (t up : Z) : res vm :=
  p ← get_proc v t;
  k ← pagedir_get_page (mach v) (pagedir p) up;
  v ← (if negb (k =? 0) then
         dirty ← pagedir_is_dirty (mach v) (pagedir p) up;
         v ← (if (dirty : bool) then
                e ← spt_get_entry v t up;
                match e with
                | Some e =>
                    if bool_decide (ptype e = PAGE_MMAP) && (0 <? read_bytes e) then
                      s ← file_seek (sys v) (efile e) (file_offset e);
                      '(_, s) ← file_write s (efile e) (peek (vmem v) k (read_bytes e)) (s32 (read_bytes e));
                      Ok (set_sys v s)
                    else Ok v
                | None => Ok v
                end
              else Ok v);
         v ← frame_free v k;
         m ← pagedir_clear_page (mach v) (pagedir p) up;
         Ok (set_mach v m)
       else Ok v);
  spt_remove_entry v t up.
Fixpoint unmap_pages (n : nat) (v : vm) (t addr i : Z) : res vm :=
  match n with
  | O => Ok v
  | S n => v ← unmap_page v t (u32 (addr + i * PGSIZE)); unmap_pages n v t addr (i + 1)
  end.

Definition mmap_get_mapping (v : vm) (mid : Z) : res (option mmap_mapping) :=
  p ← get_proc v (cur v); Ok (head (filter (λ m, m_id m = mid) (mmap_list p))).

(** Removes the first mapping with the number from a list. *)
Fixpoint drop_mapping (mid : Z) (l : list mmap_mapping) : list mmap_mapping :=
  match l with
  | [] => []
  | m :: l => if m_id m =? mid then l else m :: drop_mapping mid l
  end.
Definition mmap_unmap (v : vm) (mid : Z) : res vm :=
  let t := cur v in
  m ← mmap_get_mapping v mid;
  match m with
  | None => Ok v
  | Some m =>
      v ← unmap_pages (Z.to_nat (page_count m)) v t (start_addr m) 0;
      s ← file_close (sys v) (m_file m);
      let v := set_sys v s in
      Ok (upd_proc v t (λ p, with_mmaps p (drop_mapping mid (mmap_list p))))
  end.
Fixpoint unmap_all_loop (n : nat) (v : vm) : res vm :=
  match n with
  | O => Fuel
  | S n =>
      p ← get_proc v (cur v);
      match mmap_list p with
      | [] => Ok v
      | m :: _ => v ← mmap_unmap v (m_id m); unmap_all_loop n v
      end
  end.
(** Each turn removes one mapping. *)
Definition mmap_unmap_all (v : vm) : res vm :=
  p ← get_proc v (cur v); unmap_all_loop (S (length (mmap_list p))) v.

(** ** Page faults, [userprog/exception.c] *)

(** [true] when the access is to be repeated, [false] when the handler calls [kill].  [esp]
    is the stack pointer of the interrupt frame. *)
Definition page_fault (v : vm) (fault_addr : Z) (not_present user : bool) (esp : Z) : res (bool * vm) :=
  let t := cur v in
  if is_user_vaddr fault_addr && (0x08048000 <=? fault_addr) then
    p ← get_proc v t;
    let esp := if user then esp else esp_on_syscall p in
    '(done, v) ← (if (u32 (esp - 32) <=? fault_addr) && (fault_addr <? PHYS_BASE) then
        let page := pg_round_down fault_addr in
        if PHYS_BASE - page <=? 8 * 1024 * 1024 then
          '(ok, v) ← spt_set_zero v t page true;
          if (ok : bool) then spt_load_page v t page else Ok (false, v)
        else Ok (false, v)
      else Ok (false, v));
    if (done : bool) then Ok (true, v)
    else if not_present then spt_load_page v t fault_addr
    else Ok (false, v)
  else Ok (false, v).

(** An access to user memory by the running thread: the processor tries, and tries again
    after each fault that the handler could resolve.  [None] when the handler gives up.
    The result is the kernel address of the byte. *)
Fixpoint touch (n : nat) (v : vm) (va : Z) (write user : bool) (esp : Z) : res (option Z * vm) :=
  match n with
  | O => Fuel
  | S n =>
      match mmu_access (mach v) va write with
      | Some (k, m) => Ok (Some k, set_mach v m)
      | None =>
          p ← get_proc v (cur v);
          k ← pagedir_get_page (mach v) (pagedir p) va;
          '(ok, v) ← page_fault v va (k =? 0) user esp;
          if (ok : bool) then touch n v va write user esp else Ok (None, v)
      end
  end.

(** A load and a store of a byte by the running process; null and [false] when the process
    is killed instead. *)
Definition user_load (v : vm) (va : Z) (user : bool) (esp : Z) : res (option Z * vm) :=
  '(k, v) ← touch 2 v va false user esp;
  match k with
  | Some k => Ok (Some (vmem v k), v)
  | None => Ok (None, v)
  end.
Definition user_store (v : vm) (va b : Z) (user : bool) (esp : Z) : res (bool * vm) :=
  '(k, v) ← touch 2 v va true user esp;
  match k with
  | Some k => Ok (true, set_vmem v (blit (vmem v) k [b]))
  | None => Ok (false, v)
  end.

End Vm.
