(* ===== verification/VmInv.v ===== *)
(** * The invariant of virtual memory

    Frames, page tables and supplemental page tables agree: a page is mapped exactly when
    its entry is loaded, and then its frame is in the frame table under its owner.  The
    contents of a page that is not loaded are on the swap device, in a file, or zero. *)

From S2P Require Import Prelude Bitmap Vaddr Palloc Disk Inode Directory FsInv FileInv DirInv Filesys FsSpec Pagedir Vm.

Module VmInv.
Import Bitmap Palloc Disk Inode Pagedir Vm.

Notation dirs := (gmap Z (gmap Z Z)).

(** ** Looking things up *)

Definition entry_at (v : vm) (t u : Z) : option spt_entry := p ← procs v !! t; s ← ptable p; s !! u.
Definition pte_at (v : vm) (D : dirs) (t u : Z) : Z :=
  match procs v !! t with Some p => pte_of (mach v) D (pagedir p) u | None => 0 end.

Definition user_page (u : Z) : Prop := 0 ≤ u < PHYS_BASE ∧ u mod PGSIZE = 0.
Lemma user_page_round u : user_page u → pg_round_down u = u.
Proof. intros [H1 H2]. unfold PHYS_BASE in H1. rewrite pg_round_down_spec, H2 by lia. lia. Qed.

(** ** The parts of the invariant *)

Record frames_ok (v : vm) : Prop := {
  fo_nodup : NoDup (frame_table v);
  fo_dom x : x ∈ frame_table v ↔ is_Some (frames v !! x);
  fo_addr x : x ∈ frame_table v → 0 < x ≤ 16 * Z.of_nat (vcalls v);
  fo_uniq x y e e' : frames v !! x = Some e → frames v !! y = Some e' → fkpage e = fkpage e' → x = y
}.
Definition hand_ok (v : vm) : Prop := clock_hand v = 0 ∨ clock_hand v ∈ frame_table v.

Record procs_ok (v : vm) (D : dirs) : Prop := {
  po_table t p : procs v !! t = Some p → is_Some (ptable p) ∧ is_Some (D !! pagedir p);
  po_inj t t' p p' : procs v !! t = Some p → procs v !! t' = Some p' → pagedir p = pagedir p' → t = t';
  po_cur : ∃ p, procs v !! cur v = Some p ∧ cr3 (mach v) + PHYS_BASE = pagedir p
}.

(** A page that no frame, page table or directory uses. *)
Definition spare (v : vm) (D : dirs) (k : Z) : Prop :=
  used (pal (mach v)) k ∧ ¬ owned D k ∧ k ≠ init_page_dir (mach v).

Record links_ok (v : vm) (D : dirs) : Prop := {
  lo_frame x f : frames v !! x = Some f →
    ∃ e, entry_at v (owner f) (fupage f) = Some e ∧ loaded e = true ∧ kpage e = fkpage f;
  lo_loaded t u e : entry_at v t u = Some e → loaded e = true →
    ∃ x f, frames v !! x = Some f ∧ owner f = t ∧ fupage f = u;
  lo_spare x f : frames v !! x = Some f → spare v D (fkpage f);
  lo_entry t u e : entry_at v t u = Some e → upage e = u ∧ user_page u;
  lo_pte t u : is_Some (procs v !! t) → user_page u →
    match entry_at v t u with
    | Some e =>
        if loaded e then flag (pte_at v D t u) PTE_P = true ∧ page_at (pte_at v D t u) = kpage e
                         ∧ flag (pte_at v D t u) PTE_W = writable e
        else flag (pte_at v D t u) PTE_P = false
    | None => flag (pte_at v D t u) PTE_P = false
    end
}.

(** ** The clock *)

(** The states that differ in accessed bits and in the hand only. *)
Record aged (D : dirs) (v v' : vm) : Prop := {
  ag_same : ∃ m h, v' = set_frames (set_mach v m) (frames v) (frame_table v) h;
  ag_dirs : dirs_ok (mach v) D → dirs_ok (mach v') D;
  ag_tlb : dirs_ok (mach v) D → tlb_ok (mach v) D → tlb_ok (mach v') D;
  ag_used x : used (pal (mach v')) x ↔ used (pal (mach v)) x;
  ag_mem x : ¬ owned D (page_of x) → vmem v' x = vmem v x;
  ag_cpu : cr3 (mach v') = cr3 (mach v) ∧ init_page_dir (mach v') = init_page_dir (mach v);
  ag_pte pd u : 0 ≤ u < PHYS_BASE →
    let w := pte_of (mach v) D pd u in
    let w' := pte_of (mach v') D pd u in
    flag w' PTE_P = flag w PTE_P ∧ flag w' PTE_W = flag w PTE_W ∧ flag w' PTE_D = flag w PTE_D
    ∧ page_at w' = page_at w ∧ (flag w' PTE_A = true → flag w PTE_A = true)
}.
Lemma aged_hand D v h : aged D v (set_frames v (frames v) (frame_table v) h).
Proof.
  split; try done. exists (mach v), h. by destruct v.
Qed.
Lemma aged_refl D v : aged D v v.
Proof. replace v with (set_frames v (frames v) (frame_table v) (clock_hand v)) at 2 by (by destruct v). apply aged_hand. Qed.
Lemma aged_trans D v1 v2 v3 : aged D v1 v2 → aged D v2 v3 → aged D v1 v3.
Proof.
  intros [(m & h & E) A1 A2 A3 A4 [A5 A6] A7] [(m' & h' & E') B1 B2 B3 B4 [B5 B6] B7]. split.
  - exists m', h'. rewrite E', E. done.
  - auto.
  - auto.
  - intros x. by rewrite B3, A3.
  - intros x Hx. by rewrite B4, A4.
  - split; congruence.
  - intros pd u Hu. destruct (A7 pd u Hu) as (P1 & P2 & P3 & P4 & P5), (B7 pd u Hu) as (Q1 & Q2 & Q3 & Q4 & Q5).
    cbv zeta. split_and!; [congruence..|auto].
Qed.

Section clock.
Context (D : dirs).

(** What the clock needs of a frame. *)
Definition can_scan (v : vm) : Prop :=
  dirs_ok (mach v) D ∧ tlb_ok (mach v) D ∧ NoDup (frame_table v) ∧ ∀ x, x ∈ frame_table v → ∃ f p,
    frames v !! x = Some f ∧ procs v !! owner f = Some p ∧ is_Some (D !! pagedir p) ∧ 0 ≤ fupage f < PHYS_BASE.

Lemma can_scan_aged v v' : aged D v v' → can_scan v → can_scan v'.
Proof.
  intros A (H1 & H2 & H3 & H4). pose proof A as [(m & h & E) A1 A2 _ _ _ _]. split; [auto|]. split; [auto|].
  rewrite E. done.
Qed.

Definition unpinned (v : vm) (x : Z) : Prop := ∃ f, frames v !! x = Some f ∧ pinned f = false.
Definition accessed (v : vm) (x : Z) : Prop :=
  ∃ f, frames v !! x = Some f ∧ flag (pte_at v D (owner f) (fupage f)) PTE_A = true.

Lemma aged_unpinned v v' x : aged D v v' → unpinned v' x ↔ unpinned v x.
Proof. intros [(m & h & ->) _ _ _ _ _ _]. done. Qed.
Lemma aged_accessed v v' x : aged D v v' → can_scan v → x ∈ frame_table v → accessed v' x → accessed v x.
Proof.
  intros A (_ & _ & _ & Hs) Hx (f & Hf & Ha). destruct (Hs x Hx) as (f' & p & Hf' & Hp & _ & Hu).
  pose proof A as [(m & h & E) _ _ _ _ _ A7]. exists f. rewrite E in Hf. simpl in Hf. split; [done|].
  assert (f' = f) as -> by congruence. unfold pte_at in *. rewrite Hp. rewrite E in Ha at 1. simpl in Ha. rewrite Hp in Ha.
  by apply (A7 (pagedir p) (fupage f) Hu).
Qed.

(** The successor in the circle. *)
Lemma next_frame_mid v l1 x y l2 :
  NoDup (frame_table v) → frame_table v = l1 ++ x :: y :: l2 → next_frame v x = Ok y.
Proof.
  intros Hn E. unfold next_frame. rewrite bool_decide_eq_true_2 by (rewrite E; apply elem_of_app; right; by left).
  rewrite E in *. by rewrite after_middle by done.
Qed.
Lemma next_frame_last v l1 x :
  NoDup (frame_table v) → frame_table v = l1 ++ [x] → next_frame v x = Ok (hd 0 (frame_table v)).
Proof.
  intros Hn E. unfold next_frame. rewrite bool_decide_eq_true_2 by (rewrite E; apply elem_of_app; right; by left).
  rewrite E in *. by rewrite after_middle by done.
Qed.

Lemma pte_of_page m D' pd ts u u' :
  D' !! pd = Some ts → 0 ≤ u < PHYS_BASE → 0 ≤ u' < PHYS_BASE → pg_round_down u' = pg_round_down u →
  pte_of m D' pd u' = pte m ts u.
Proof.
  intros Hpd Hu Hu' E. unfold pte_of. rewrite Hpd. unfold PHYS_BASE in *.
  by rewrite <- (pte_round m ts u'), E, pte_round by lia.
Qed.

Lemma clear_accessed v pd ts u :
  dirs_ok (mach v) D → tlb_ok (mach v) D → D !! pd = Some ts → 0 ≤ u < PHYS_BASE → flag (pte (mach v) ts u) PTE_A = true →
  ∃ m, pagedir_set_accessed (mach v) pd u false = Ok m ∧ aged D v (set_mach v m)
    ∧ flag (pte_of m D pd u) PTE_A = false.
Proof.
  intros HD HT Hpd Hu Ha.
  destruct (set_flag_spec (mach v) D pd ts HD HT Hpd PTE_A u false) as (m & w & E & Hc & W1 & W2 & W3 & W4 & W5 & _); [by left|done|].
  assert (Hsome : ts !! pd_no u ≠ None). { intros E'. unfold pte in Ha. by rewrite E' in Ha. }
  specialize (W4 Hsome). specialize (W5 eq_refl). exists m. split; [done|]. pose proof Hc as [C1 C2 C3 C4 C5 (C6 & C7 & C8)].
  split; [split|].
  - exists m, (clock_hand v). by destruct v.
  - intros _. apply C1.
  - intros _ _. apply C2.
  - intros x. by apply (pte_changed_used (mach v) m D pd u w).
  - intros x Hx. by apply C5.
  - done.
  - intros pd' u' Hu'. cbv zeta. change (mach (set_mach v m)) with m. destruct (decide (is_Some (D !! pd'))) as [Hs|Hn].
    + rewrite (pte_changed_of (mach v) m D pd u w pd' u' Hc Hs Hu'). destruct (decide (same_page pd u pd' u')) as [[-> Hr]|]; [|done].
      rewrite (pte_of_page (mach v) D pd ts u u' Hpd Hu Hu' Hr). rewrite W4. done.
    + unfold pte_of. destruct (D !! pd') as [ts'|]; [by destruct Hn|done].
  - rewrite (pte_changed_of (mach v) m D pd u w pd u Hc (mk_is_Some _ _ Hpd) Hu). by rewrite decide_True.
Qed.

(** One turn of the clock. *)
Lemma clock_visit n v x :
  can_scan v → x ∈ frame_table v → clock_hand v = x →
  (unpinned v x ∧ clock_loop (S n) v = Ok (Some x, v)) ∨
  ∃ v1, clock_loop (S n) v = (h ← next_frame v x; clock_loop n (set_frames v1 (frames v) (frame_table v) h))
    ∧ aged D v v1 ∧ (unpinned v x → accessed v x ∧ ¬ accessed v1 x).
Proof.
  intros (HD & HT & Hn & Hs) Hx Hh. destruct (Hs x Hx) as (f & p & Hf & Hp & [ts Hts] & Hu).
  cbn [clock_loop]. rewrite Hh, Hf. cbn [from_opt mbind res_bind]. destruct (pinned f) eqn:Hpin; cbn [negb].
  { right. exists v. cbn [mbind res_bind]. rewrite Hh. split; [done|]. split; [apply aged_refl|].
    intros (f' & Hf' & Hpin'). congruence. }
  unfold get_proc. rewrite Hp. cbn [from_opt mbind res_bind]. rewrite (pagedir_is_accessed_spec (mach v) D (pagedir p) ts) by done.
  cbn [mbind res_bind]. destruct (flag (pte (mach v) ts (fupage f)) PTE_A) eqn:Ha.
  - right. destruct (clear_accessed v (pagedir p) ts (fupage f) HD HT Hts Hu Ha) as (m & E & A & Hc). rewrite E. cbn [mbind res_bind].
    exists (set_mach v m). split; [simpl; by rewrite Hh|]. split; [done|]. intros _. split.
    + exists f. split; [done|]. unfold pte_at, pte_of. by rewrite Hp, Hts.
    + intros (f' & Hf' & Ha'). simpl in Hf'. assert (f' = f) as -> by congruence. unfold pte_at in Ha'. simpl in Ha'. rewrite Hp in Ha'. congruence.
  - left. cbn [mbind res_bind]. rewrite Hh. split; [by exists f|done].
Qed.

(** The hand moves along a stretch of the frame table. *)
Lemma clock_walk seg : ∀ n v l1 l3,
  can_scan v → frame_table v = l1 ++ seg ++ l3 → seg ≠ [] → clock_hand v = hd 0 seg → (length seg ≤ n)%nat →
  (∃ x v', clock_loop n v = Ok (Some x, v') ∧ aged D v v' ∧ clock_hand v' = x ∧ x ∈ frame_table v ∧ unpinned v x) ∨
  (∃ v', clock_loop n v = clock_loop (n - length seg) v' ∧ aged D v v'
    ∧ clock_hand v' = hd (hd 0 (frame_table v)) l3
    ∧ ∀ x, x ∈ seg → unpinned v x → accessed v x ∧ ¬ accessed v' x).
Proof.
  induction seg as [|x seg IH]; intros n v l1 l3 Hs E Hne Hh Hn; [done|]. destruct n as [|n]; [simpl in Hn; lia|].
  simpl in Hh, Hn. assert (Hx : x ∈ frame_table v) by (rewrite E; apply elem_of_app; right; by left).
  destruct (clock_visit n v x Hs Hx Hh) as [[Hu Ev]|(v1 & Ev & A1 & Hacc)].
  { left. exists x, v. split; [done|]. split; [apply aged_refl|]. done. }
  assert (Hnd : NoDup (frame_table v)) by apply Hs.
  pose proof (aged_trans D v v1 _ A1 (aged_hand D v1 (hd (hd 0 (frame_table v)) (seg ++ l3)))) as A2.
  pose proof A1 as [(m & h & E1) _ _ _ _ _ _].
  assert (Enext : next_frame v x = Ok (hd (hd 0 (frame_table v)) (seg ++ l3))).
  { destruct (seg ++ l3) as [|y l] eqn:El.
    - apply (next_frame_last v l1); [done|]. rewrite E. f_equal. simpl. by rewrite El.
    - apply (next_frame_mid v l1 x y l); [done|]. rewrite E. f_equal. simpl. by rewrite El. }
  rewrite Enext in Ev. cbn [mbind res_bind] in Ev.
  set (v2 := set_frames v1 (frames v1) (frame_table v1) (hd (hd 0 (frame_table v)) (seg ++ l3))) in *.
  assert (Ev2 : set_frames v1 (frames v) (frame_table v) (hd (hd 0 (frame_table v)) (seg ++ l3)) = v2) by (unfold v2; by rewrite E1).
  rewrite Ev2 in Ev. pose proof (can_scan_aged v v2 A2 Hs) as Hs2.
  assert (Eft : frame_table v2 = frame_table v) by (unfold v2; by rewrite E1).
  assert (Hacc2 : ¬ accessed v1 x → ¬ accessed v2 x) by done.
  destruct seg as [|y seg].
  { right. exists v2. split; [rewrite Ev; simpl; by rewrite Nat.sub_0_r|]. split; [done|]. split; [done|].
    intros z Hz Hzu. apply list_elem_of_singleton in Hz as ->. destruct (Hacc Hzu). auto. }
  destruct (IH n v2 (l1 ++ [x]) l3 Hs2) as [(z & v' & Ez & A3 & Hz & Hzt & Hzu)|(v' & Ez & A3 & Hh3 & Hacc3)].
  - rewrite Eft, E. by rewrite <- app_assoc.
  - done.
  - done.
  - simpl in *. lia.
  - left. exists z, v'. split; [by rewrite Ev|]. split; [by apply (aged_trans D v v2)|]. split; [done|]. rewrite Eft in Hzt.
    split; [done|]. by apply (aged_unpinned v v2).
  - right. exists v'. split; [by rewrite Ev|]. split; [by apply (aged_trans D v v2)|]. split; [by rewrite Eft in Hh3|].
    intros z Hz Hzu. apply elem_of_cons in Hz as [->|Hz].
    + destruct (Hacc Hzu) as [H1 H2]. split; [done|]. intros Ha. apply H2. apply (aged_accessed v2 v'); [done|done| |done].
      by rewrite Eft.
    + destruct (Hacc3 z Hz) as [H1 H2]; [by apply (aged_unpinned v v2)|]. split; [|done]. apply (aged_accessed v v2); [done|done| |done].
      rewrite E. apply elem_of_app. right. apply elem_of_app. left. by right.
Qed.

(** A full turn. *)
Lemma clock_round n v l1 l2 :
  can_scan v → frame_table v = l1 ++ l2 → l2 ≠ [] → clock_hand v = hd 0 l2 → (length (frame_table v) ≤ n)%nat →
  (∃ x v', clock_loop n v = Ok (Some x, v') ∧ aged D v v' ∧ clock_hand v' = x ∧ x ∈ frame_table v ∧ unpinned v x) ∨
  (∃ v', clock_loop n v = clock_loop (n - length (frame_table v)) v' ∧ aged D v v' ∧ clock_hand v' = hd 0 l2
    ∧ ∀ x, x ∈ frame_table v → unpinned v x → accessed v x ∧ ¬ accessed v' x).
Proof.
  intros Hs E Hne Hh Hn. assert (El : length (frame_table v) = (length l1 + length l2)%nat) by (rewrite E; apply length_app).
  destruct (clock_walk l2 n v l1 [] Hs) as [H|(v1 & E1 & A1 & Hh1 & Hacc1)]; [by rewrite app_nil_r|done|done|lia|by left|].
  simpl in Hh1. destruct l1 as [|y l1].
  { right. exists v1. rewrite El. split; [done|]. split; [done|]. rewrite E in Hh1 |- *. done. }
  pose proof (can_scan_aged v v1 A1 Hs) as Hs1. pose proof A1 as [(m & h & Ev1) _ _ _ _ _ _].
  assert (Eft : frame_table v1 = frame_table v) by (by rewrite Ev1).
  destruct (clock_walk (y :: l1) (n - length l2) v1 [] l2 Hs1) as [(x & v' & E2 & A2 & Hx)|(v2 & E2 & A2 & Hh2 & Hacc2)].
  - by rewrite Eft, E.
  - done.
  - rewrite Hh1, E. done.
  - lia.
  - left. exists x, v'. rewrite E1. split; [done|]. split; [by apply (aged_trans D v v1)|]. rewrite Eft in Hx. destruct Hx as (? & ? & ?).
    split; [done|]. split; [done|]. by apply (aged_unpinned v v1).
  - right. exists v2. rewrite E1, E2, El. split; [f_equal; lia|]. split; [by apply (aged_trans D v v1)|].
    split; [rewrite Hh2; by destruct l2|]. intros x Hx Hu. rewrite E in Hx. apply elem_of_app in Hx as [Hx|Hx].
    + destruct (Hacc2 x Hx) as [H1 H2]; [by apply (aged_unpinned v v1)|]. split; [|done]. apply (aged_accessed v v1); [done|done| |done].
      rewrite E. apply elem_of_app. by left.
    + destruct (Hacc1 x Hx Hu) as [H1 H2]. split; [done|]. intros Ha. apply H2. apply (aged_accessed v1 v2); [done|done| |done].
      rewrite Eft, E. apply elem_of_app. by right.
Qed.

(** The clock finds a victim whenever some frame is not pinned. *)
Lemma clock_finds v l1 l2 :
  can_scan v → frame_table v = l1 ++ l2 → l2 ≠ [] → clock_hand v = hd 0 l2 →
  (∃ x v', clock_loop (2 * length (frame_table v)) v = Ok (Some x, v') ∧ aged D v v' ∧ clock_hand v' = x
     ∧ x ∈ frame_table v ∧ unpinned v x) ∨
  (∃ v', clock_loop (2 * length (frame_table v)) v = Ok (None, v') ∧ aged D v v'
     ∧ clock_hand v' = hd 0 l2 ∧ ∀ x, x ∈ frame_table v → ¬ unpinned v x).
Proof.
  intros Hs E Hne Hh. destruct (clock_round (2 * length (frame_table v)) v l1 l2 Hs E Hne Hh) as [H|(v1 & E1 & A1 & Hh1 & Hacc1)]; [lia|by left|].
  pose proof (can_scan_aged v v1 A1 Hs) as Hs1. pose proof A1 as [(m & h & Ev1) _ _ _ _ _ _].
  assert (Eft : frame_table v1 = frame_table v) by (by rewrite Ev1).
  destruct (clock_round (2 * length (frame_table v) - length (frame_table v)) v1 l1 l2 Hs1) as [(x & v' & E2 & A2 & Hx)|(v2 & E2 & A2 & Hh2 & Hacc2)].
  - by rewrite Eft.
  - done.
  - done.
  - rewrite Eft. lia.
  - left. exists x, v'. rewrite E1. split; [done|]. split; [by apply (aged_trans D v v1)|]. rewrite Eft in Hx. destruct Hx as (? & ? & ?).
    split; [done|]. split; [done|]. by apply (aged_unpinned v v1).
  - right. exists v2. rewrite E1, E2, Eft. split; [replace (_ - _ - _)%nat with O by lia; done|]. split; [by apply (aged_trans D v v1)|].
    split; [done|]. intros x Hx Hu. destruct (Hacc1 x Hx Hu) as [_ H1]. apply H1. apply Hacc2; [by rewrite Eft|].
    by apply (aged_unpinned v v1).
Qed.

End clock.

(** ** The swap device *)

Definition swap_ok (v : vm) : Prop :=
  ∃ b t, swap_block v = Some b ∧ swap_table v = Some t ∧ block_ok b ∧ wf t ∧ bit_cnt t * SECTORS_PER_PAGE ≤ size b.
Definition slot_used (v : vm) (slot : Z) : Prop :=
  ∃ t, swap_table v = Some t ∧ 0 ≤ slot < bit_cnt t ∧ bit t slot = true.
Definition swap_full (v : vm) : Prop :=
  ∃ t, swap_table v = Some t ∧ ∀ slot, 0 ≤ slot < bit_cnt t → bit t slot = true.
Definition slot_data (v : vm) (slot : Z) : list Z :=
  match swap_block v with Some b => slice (slot * PGSIZE) PGSIZE (data b) | None => [] end.

Lemma peek_app r a n m : 0 ≤ n → 0 ≤ m → peek r a n ++ peek r (a + n) m = peek r a (n + m).
Proof.
  intros Hn Hm. unfold peek. rewrite seqZ_app, fmap_app by done. f_equal. apply list_eq. intros i.
  rewrite !list_lookup_fmap. destruct (decide (Z.of_nat i < m)).
  - rewrite !lookup_seqZ_lt by lia. simpl. do 2 f_equal. lia.
  - by rewrite !lookup_seqZ_ge by lia.
Qed.

Lemma swap_write_spec n r b slot k i :
  block_ok b → 0 ≤ slot → 0 ≤ i → slot * 8 + i + Z.of_nat n ≤ size b →
  ∃ b', swap_write n r b slot k i = Ok b' ∧ block_ok b' ∧ size b' = size b
    ∧ data b' = splice (512 * (slot * 8 + i)) (peek r (k + i * 512) (512 * Z.of_nat n)) (data b).
Proof.
  revert b i. induction n as [|n IH]; intros b i Hb Hs Hi Hle; cbn [swap_write].
  { exists b. split; [done|]. split; [done|]. split; [done|]. simpl. unfold peek. simpl. by rewrite splice_nil. }
  change SECTORS_PER_PAGE with 8. change BLOCK_SECTOR_SIZE with 512. pose proof Hb as (Hb1 & Hb2 & Hb3). unfold BLOCK_SECTOR_SIZE in Hb2.
  rewrite u32_small by lia. rewrite block_write_ok by (done || lia). cbn [mbind res_bind].
  assert (Hl : Zlength (peek r (k + i * 512) 512) = 512) by (by apply length_peek).
  destruct (IH (set_data b (splice (512 * (slot * 8 + i)) (peek r (k + i * 512) 512) (data b))) (i + 1)) as (b' & E & Hb' & Hsz & Hd).
  - apply block_ok_write; [done|lia|lia].
  - done.
  - lia.
  - simpl. lia.
  - exists b'. split; [done|]. split; [done|]. split; [done|]. rewrite Hd. simpl data.
    replace (512 * (slot * 8 + (i + 1))) with (512 * (slot * 8 + i) + Zlength (peek r (k + i * 512) 512)) by lia.
    rewrite splice_app.
    + f_equal. replace (k + (i + 1) * 512) with (k + i * 512 + 512) by lia. rewrite peek_app by lia. f_equal. lia.
    + lia.
    + rewrite Hl, length_peek by lia. lia.
Qed.

Lemma swap_out_spec v k :
  swap_ok v →
  (swap_out v k = Panic ∧ swap_full v) ∨
  ∃ slot b t, swap_out v k = Ok (slot, set_swap v (Some b) (Some t)) ∧ let v' := set_swap v (Some b) (Some t) in
    swap_ok v' ∧ ¬ slot_used v slot ∧ slot_data v' slot = peek (vmem v) k PGSIZE
    ∧ (∀ s, slot_used v' s ↔ slot_used v s ∨ s = slot) ∧ (∀ s, slot_used v s → slot_data v' s = slot_data v s).
Proof.
  intros (b & t & Eb & Et & Hb & Ht & Hsz). unfold swap_out. rewrite Et. cbn [from_opt mbind res_bind].
  change SECTORS_PER_PAGE with 8 in Hsz. pose proof Hb as (Hb1 & Hb2 & Hb3). unfold BLOCK_SECTOR_SIZE in Hb2.
  destruct (scan_and_flip_spec t 0 1 false) as (slot & t' & E & Ht' & Hc & Hcase); [done|destruct Ht; lia|lia|]. rewrite E. cbn [mbind res_bind].
  destruct Hcase as [(Hne & H0 & H1 & Hall & _ & Hbit)|(-> & -> & Hnone)].
  - right. rewrite (proj2 (Z.eqb_neq _ _) Hne). rewrite Eb. cbn [from_opt mbind res_bind].
    destruct (swap_write_spec (Z.to_nat SECTORS_PER_PAGE) (vmem v) b slot k 0) as (b' & E' & Hb' & Hs' & Hd').
    { done. } { done. } { done. } { change (Z.of_nat (Z.to_nat SECTORS_PER_PAGE)) with 8. lia. }
    rewrite E'. cbn [mbind res_bind]. exists slot, b', t'. split; [done|]. cbv zeta.
    change (512 * Z.of_nat (Z.to_nat SECTORS_PER_PAGE)) with PGSIZE in Hd'.
    replace (512 * (slot * 8 + 0)) with (slot * PGSIZE) in Hd' by (unfold PGSIZE; lia). rewrite Z.add_0_r in Hd'.
    assert (Hlen : Zlength (peek (vmem v) k PGSIZE) = PGSIZE) by (by apply length_peek).
    split_and!.
    + exists b', t'. split; [done|]. split; [done|]. split; [done|]. split; [done|]. rewrite Hc, Hs'. done.
    + intros (t0 & E0 & _ & Hu). rewrite Et in E0. injection E0 as <-. specialize (Hall slot ltac:(lia)). congruence.
    + unfold slot_data. simpl. rewrite Hd'. apply slice_splice_eq; [done|unfold PGSIZE; lia|unfold PGSIZE; lia].
    + intros s. unfold slot_used. simpl. rewrite Et. split.
      * intros (t0 & [= <-] & Hs & Hu). rewrite Hc in Hs. rewrite Hbit in Hu by lia.
        destruct (decide (s = slot)) as [->|Hns]; [by right|left]. exists t. split; [done|]. split; [done|].
        destruct (Z.leb_spec slot s), (Z.ltb_spec s (slot + 1)); simpl in Hu; done || lia.
      * intros [(t0 & [= <-] & Hs & Hu)| ->]; exists t'; (split; [done|]); (split; [lia|]); rewrite Hbit by lia.
        -- rewrite Hu. by destruct (_ && _).
        -- by rewrite (proj2 (Z.leb_le _ _)), (proj2 (Z.ltb_lt _ _)) by lia.
    + intros s (t0 & E0 & Hs & Hu). rewrite Et in E0. injection E0 as <-. unfold slot_data. simpl. rewrite Eb, Hd'.
      assert (s ≠ slot). { intros ->. specialize (Hall slot ltac:(lia)). congruence. }
      apply slice_splice_other; unfold PGSIZE in *; lia.
  - left. rewrite Z.eqb_refl. split; [done|]. exists t. split; [done|]. intros s Hs. apply not_false_is_true. intros Hf.
    apply (Hnone s); [lia|lia|]. intros j Hj. by replace j with s by lia.
Qed.

Lemma swap_read_spec n r b slot k i :
  block_ok b → 0 ≤ slot → 0 ≤ i → slot * 8 + i + Z.of_nat n ≤ size b →
  ∃ r' b', swap_read n r b slot k i = Ok (r', b') ∧ block_ok b' ∧ size b' = size b ∧ data b' = data b
    ∧ ∀ x, r' x = blit r (k + i * 512) (slice (512 * (slot * 8 + i)) (512 * Z.of_nat n) (data b)) x.
Proof.
  revert r b i. induction n as [|n IH]; intros r b i Hb Hs Hi Hle; cbn [swap_read].
  { exists r, b. do 4 (split; [done|]). intros x. by rewrite blit_out by (simpl; lia). }
  change SECTORS_PER_PAGE with 8. change BLOCK_SECTOR_SIZE with 512. pose proof Hb as (Hb1 & Hb2 & Hb3). unfold BLOCK_SECTOR_SIZE in Hb2.
  rewrite u32_small by lia. rewrite block_read_ok by (done || lia). cbn [mbind res_bind].
  set (here := slice (512 * (slot * 8 + i)) 512 (data b)). assert (Hl : Zlength here = 512) by (apply length_slice; lia).
  destruct (IH (blit r (k + i * 512) here) (count_read b) (i + 1)) as (r' & b' & E & Hb' & Hsz & Hd & Hr); [done|done|lia|simpl; lia|].
  exists r', b'. split; [done|]. split; [done|]. split; [done|]. split; [done|]. intros x. rewrite Hr. simpl data.
  set (rest := slice (512 * (slot * 8 + (i + 1))) (512 * Z.of_nat n) (data b)).
  assert (Hlr : Zlength rest = 512 * Z.of_nat n) by (apply length_slice; lia).
  assert (E2 : slice (512 * (slot * 8 + i)) (512 * Z.of_nat (S n)) (data b) = here ++ rest).
  { unfold here, rest. replace (512 * (slot * 8 + (i + 1))) with (512 * (slot * 8 + i) + 512) by lia. rewrite slice_app by lia. f_equal. lia. }
  rewrite E2. unfold blit. rewrite length_app.
  destruct (Z.leb_spec (k + (i + 1) * 512) x), (Z.ltb_spec x (k + (i + 1) * 512 + Zlength rest)),
    (Z.leb_spec (k + i * 512) x), (Z.ltb_spec x (k + i * 512 + Zlength here)), (Z.ltb_spec x (k + i * 512 + Z.of_nat (length here + length rest)));
    simpl; try lia; try done.
  - rewrite lookup_app_r by lia. do 2 f_equal. lia.
  - by rewrite lookup_app_l by lia.
Qed.

Lemma swap_in_spec v slot k :
  swap_ok v → slot_used v slot →
  ∃ b t r, swap_in v slot k = Ok (set_vmem (set_swap v (Some b) (Some t)) r) ∧ let v' := set_swap v (Some b) (Some t) in
    swap_ok v' ∧ (∀ s, slot_used v' s ↔ slot_used v s ∧ s ≠ slot) ∧ (∀ s, slot_data v' s = slot_data v s)
    ∧ Zlength (slot_data v slot) = PGSIZE ∧ ∀ x, r x = blit (vmem v) k (slot_data v slot) x.
Proof.
  intros (b & t & Eb & Et & Hb & Ht & Hsz) (t0 & Et0 & Hslot & Hbit). rewrite Et in Et0. injection Et0 as <-.
  change SECTORS_PER_PAGE with 8 in Hsz. pose proof Hb as (Hb1 & Hb2 & Hb3). unfold BLOCK_SECTOR_SIZE in Hb2.
  unfold swap_in. rewrite Et. cbn [from_opt mbind res_bind]. rewrite bitmap_test_spec by (done || lia).
  rewrite (proj2 (Z.ltb_lt _ _)), Hbit by lia. cbn [mbind res_bind]. rewrite Eb. cbn [from_opt mbind res_bind].
  destruct (swap_read_spec (Z.to_nat SECTORS_PER_PAGE) (vmem v) b slot k 0) as (r & b' & E & Hb' & Hs' & Hd & Hr).
  { done. } { lia. } { done. } { change (Z.of_nat (Z.to_nat SECTORS_PER_PAGE)) with 8. lia. }
  rewrite E. cbn [mbind res_bind]. destruct (bitmap_set_spec t slot false) as (t' & E' & Ht' & Hc & Hbit'); [done|done|]. rewrite E'.
  cbn [mbind res_bind]. exists b', t', r. split; [done|]. cbv zeta. split_and!.
  - exists b', t'. split; [done|]. split; [done|]. split; [done|]. split; [done|]. rewrite Hc, Hs'. done.
  - intros s. unfold slot_used. simpl. rewrite Et. split.
    + intros (t0 & [= <-] & Hs & Hu). rewrite Hc in Hs. rewrite Hbit' in Hu by lia. destruct (Z.eqb_spec s slot); [done|].
      split; [by exists t|done].
    + intros [(t0 & [= <-] & Hs & Hu) Hne]. exists t'. split; [done|]. split; [lia|]. rewrite Hbit' by lia.
      by rewrite (proj2 (Z.eqb_neq _ _) Hne).
  - intros s. unfold slot_data. simpl. by rewrite Eb, Hd.
  - unfold slot_data. rewrite Eb. apply length_slice; unfold PGSIZE; lia.
  - intros x. rewrite Hr, Z.add_0_r. unfold slot_data. rewrite Eb. f_equal. f_equal. unfold PGSIZE. lia.
Qed.

End VmInv.
