(* ===== verification/VmData.v ===== *)
(** * What the pages of user programs contain

    The contents of a page are in its frame when it is loaded, and otherwise on the swap
    device, in a file, or zero.  This file states where the contents of each page are, and
    shows that evicting and loading pages changes the place only. *)

From S2P Require Import Prelude Bitmap Vaddr Palloc Disk Inode Directory FsInv FileInv DirInv Filesys FsSpec Pagedir Vm VmInv.

Module VmData.
Import Bitmap Palloc Disk Inode FsSpec Pagedir Vm VmInv.

(** ** Contents *)

(** Of a mapped file only the bytes that the file has are kept. *)
Definition visible (e : spt_entry) (l : list Z) : list Z :=
  if decide (ptype e = PAGE_MMAP) then take (Z.to_nat (read_bytes e)) l else l.

Definition file_page (a : afs) (e : spt_entry) : option (list Z) :=
  h ← ahandles a !! efile e;
  xs ← astore a !! hid h;
  if decide (read_bytes e = 0 ∨ file_offset e + read_bytes e ≤ Zlength xs)
  then Some (slice (file_offset e) (read_bytes e) xs ++ replicate (Z.to_nat (zero_bytes e)) 0) else None.

(** The contents of a page that is not loaded; none if the file is too short. *)
Definition backing (v : vm) (a : afs) (e : spt_entry) : option (list Z) :=
  match ptype e with
  | PAGE_ZERO => Some (replicate (Z.to_nat PGSIZE) 0)
  | PAGE_SWAP => Some (slot_data v (swap_slot e))
  | PAGE_FILE | PAGE_MMAP => file_page a e
  end.
Definition frame_data (v : vm) (e : spt_entry) : list Z := peek (vmem v) (kpage e) PGSIZE.
Definition contents (v : vm) (a : afs) (t u : Z) : option (list Z) :=
  e ← entry_at v t u; visible e <$> (if loaded e then Some (frame_data v e) else backing v a e).

(** ** The invariant *)

Definition file_ok (a : afs) (e : spt_entry) : Prop :=
  is_Some (ahandles a !! efile e) ∧ 0 ≤ file_offset e < 2 ^ 31
  ∧ 0 ≤ read_bytes e ∧ 0 ≤ zero_bytes e ∧ read_bytes e + zero_bytes e = PGSIZE.

(** What the code relies on for each type of page; [pd] is the page directory. *)
Definition type_ok (v : vm) (D : dirs) (a : afs) (pd : Z) (e : spt_entry) : Prop :=
  match ptype e with
  | PAGE_ZERO => True
  | PAGE_SWAP =>
      writable e = true ∧ (∃ ts, D !! pd = Some ts ∧ is_Some (ts !! pd_no (upage e)))
      ∧ (loaded e = false → slot_used v (swap_slot e))
  | PAGE_FILE => file_ok a e ∧ ∀ h, ahandles a !! efile e = Some h → hdeny h = true
  | PAGE_MMAP =>
      file_ok a e ∧ writable e = true ∧
      ∀ h xs, ahandles a !! efile e = Some h → astore a !! hid h = Some xs →
        ¬ denied_id a (hid h) ∧ file_offset e + read_bytes e ≤ Zlength xs
  end.

(** Two pages do not share a swap slot or mapped bytes of a file. *)
Definition apart (a : afs) (e e' : spt_entry) : Prop :=
  (ptype e = PAGE_SWAP → ptype e' = PAGE_SWAP → loaded e = false → loaded e' = false → swap_slot e ≠ swap_slot e')
  ∧ (ptype e = PAGE_MMAP → ptype e' = PAGE_MMAP →
     (hid <$> ahandles a !! efile e) = (hid <$> ahandles a !! efile e') →
     file_offset e + read_bytes e ≤ file_offset e' ∨ file_offset e' + read_bytes e' ≤ file_offset e).
Lemma apart_sym a e e' : apart a e e' → apart a e' e.
Proof. intros [H1 H2]. split; [intros; apply not_eq_sym; auto|intros; apply or_comm; auto]. Qed.

(** A frame may be dropped when it is not dirty and comes from a file, or cannot be
    written. *)
Definition clean (v : vm) (D : dirs) (a : afs) (t : Z) (e : spt_entry) : Prop :=
  loaded e = true →
  (flag (pte_at v D t (upage e)) PTE_D = true → writable e = true)
  ∧ (flag (pte_at v D t (upage e)) PTE_D = false → ptype e = PAGE_MMAP ∨ writable e = false →
     visible e <$> backing v a e = Some (visible e (frame_data v e))).

Record data_ok (v : vm) (D : dirs) (a : afs) : Prop := {
  da_sys : abstracts (sys v) a;
  da_swap : swap_ok v;
  da_type t p u e : procs v !! t = Some p → entry_at v t u = Some e → type_ok v D a (pagedir p) e;
  da_clean t u e : entry_at v t u = Some e → clean v D a t e;
  da_apart t u e t' u' e' : entry_at v t u = Some e → entry_at v t' u' = Some e' → (t, u) ≠ (t', u') → apart a e e'
}.

Definition same_hids (a a' : afs) : Prop := ∀ f, hid <$> ahandles a' !! f = hid <$> ahandles a !! f.

Lemma entry_proc v t u e : entry_at v t u = Some e → ∃ p, procs v !! t = Some p.
Proof. unfold entry_at. intros H. apply bind_Some in H as (p & Hp & _). by exists p. Qed.

(** The entries outside [ch] and what they refer to stay; the ones in [ch] are right. *)
Section step.
Context (v v' : vm) (D D' : dirs) (a a' : afs) (ch : Z → Z → Prop) `{Hdec : ∀ t u, Decision (ch t u)}.
Context (H : data_ok v D a) (Hsys : abstracts (sys v') a') (Hswap : swap_ok v') (Hhid : same_hids a a').
Context (Hsame : ∀ t u, ¬ ch t u → entry_at v' t u = entry_at v t u).
Context (Hpd : ∀ t p', procs v' !! t = Some p' → ∃ p, procs v !! t = Some p ∧ pagedir p = pagedir p').
Context (Hup : ∀ t u e, entry_at v t u = Some e → upage e = u).
Context (Hkeep : ∀ t p u e, ¬ ch t u → procs v !! t = Some p → entry_at v t u = Some e →
  type_ok v' D' a' (pagedir p) e
  ∧ (ptype e = PAGE_SWAP → loaded e = true ∨ backing v' a' e = backing v a e)
  ∧ (ptype e ≠ PAGE_SWAP → backing v' a' e = backing v a e)
  ∧ (loaded e = true → frame_data v' e = frame_data v e
       ∧ flag (pte_at v' D' t u) PTE_D = flag (pte_at v D t u) PTE_D)).
Context (Hch : ∀ t p u e, ch t u → procs v' !! t = Some p → entry_at v' t u = Some e →
  type_ok v' D' a' (pagedir p) e ∧ clean v' D' a' t e
  ∧ ∀ t' u' e', entry_at v' t' u' = Some e' → (t, u) ≠ (t', u') → apart a' e e').

Lemma step_clean t u e : ¬ ch t u → entry_at v t u = Some e → clean v' D' a' t e.
Proof.
  intros Hn He Hl. destruct (entry_proc v t u e He) as [p Hp]. destruct (Hkeep t p u e Hn Hp He) as (K1 & K2 & K3 & K4).
  destruct (K4 Hl) as [K5 K6]. destruct (da_clean v D a H t u e He Hl) as [C1 C2]. rewrite (Hup t u e He) in *. rewrite K5, K6.
  split; [done|]. intros Hd Hc. rewrite <- (C2 Hd Hc). destruct (decide (ptype e = PAGE_SWAP)) as [Hs|Hs]; [|by rewrite K3].
  pose proof (da_type v D a H t p u e Hp He) as Ht. unfold type_ok in Ht. rewrite Hs in Ht. destruct Ht as [Hw _]. destruct Hc; congruence.
Qed.
Lemma data_step : data_ok v' D' a'.
Proof.
  split; [done|done| | |].
  - intros t p u e Hp He. destruct (decide (ch t u)) as [Hc|Hn]; [by apply (Hch t p u e)|].
    destruct (Hpd t p Hp) as (p0 & Hp0 & <-). rewrite Hsame in He by done. by apply (Hkeep t p0 u e).
  - intros t u e He. destruct (decide (ch t u)) as [Hc|Hn].
    + destruct (entry_proc v' t u e He) as [p Hp]. by apply (Hch t p u e).
    + rewrite Hsame in He by done. by apply (step_clean t u).
  - intros t u e t' u' e' He He' Hne. destruct (decide (ch t u)) as [Hc|Hn].
    { destruct (entry_proc v' t u e He) as [p Hp]. destruct (Hch t p u e Hc Hp He) as (_ & _ & Hx). by apply (Hx t' u' e'). }
    destruct (decide (ch t' u')) as [Hc'|Hn'].
    { destruct (entry_proc v' t' u' e' He') as [p Hp]. destruct (Hch t' p u' e' Hc' Hp He') as (_ & _ & Hx). apply apart_sym, (Hx t u e He). congruence. }
    rewrite Hsame in He, He' by done. destruct (da_apart v D a H t u e t' u' e' He He' Hne) as [A1 A2]. split; [done|].
    intros Hm Hm'. rewrite !Hhid. auto.
Qed.
Lemma contents_step t u : ¬ ch t u → contents v' a' t u = contents v a t u.
Proof.
  intros Hn. unfold contents. rewrite Hsame by done. destruct (entry_at v t u) as [e|] eqn:He; [|done]. cbn [mbind option_bind].
  destruct (entry_proc v t u e He) as [p Hp]. destruct (Hkeep t p u e Hn Hp He) as (K1 & K2 & K3 & K4). destruct (loaded e) eqn:Hl.
  - by rewrite (proj1 (K4 eq_refl)).
  - destruct (decide (ptype e = PAGE_SWAP)) as [Hs|Hs]; [|by rewrite K3]. destruct (K2 Hs) as [?|E]; [done|]. by rewrite E.
Qed.
End step.

(** ** Reading and writing backing files *)

Definition moved (a a' : afs) : Prop :=
  anames a' = anames a ∧ ∀ f, (λ h, (hid h, hdeny h)) <$> ahandles a' !! f = (λ h, (hid h, hdeny h)) <$> ahandles a !! f.

Lemma moved_trans a b c : moved a b → moved b c → moved a c.
Proof. intros [H1 H2] [H3 H4]. split; [congruence|]. intros f. by rewrite H4, H2. Qed.
Lemma moved_handle a a' f h : moved a a' → ahandles a !! f = Some h → ∃ h', ahandles a' !! f = Some h' ∧ hid h' = hid h ∧ hdeny h' = hdeny h.
Proof. intros [_ M] Hh. specialize (M f). rewrite Hh in M. apply fmap_Some in M as (h' & Hh' & [= E1 E2]). by exists h'. Qed.
Lemma moved_handle' a a' f h' : moved a a' → ahandles a' !! f = Some h' → ∃ h, ahandles a !! f = Some h ∧ hid h' = hid h ∧ hdeny h' = hdeny h.
Proof. intros [_ M] Hh. specialize (M f). rewrite Hh in M. symmetry in M. apply fmap_Some in M as (h & Hh' & [= E1 E2]). by exists h. Qed.
Lemma moved_hids a a' : moved a a' → same_hids a a'.
Proof.
  intros M f. destruct (ahandles a !! f) as [h|] eqn:E.
  - destruct (moved_handle a a' f h M E) as (h' & -> & E1 & _). simpl. by rewrite E1.
  - destruct (ahandles a' !! f) as [h'|] eqn:E'; [|done]. destruct (moved_handle' a a' f h' M E') as (h & Hh & _). congruence.
Qed.
Lemma moved_denied a a' id : moved a a' → denied_id a' id ↔ denied_id a id.
Proof.
  intros M. split; intros (f & h & Hh & Hi & Hd).
  - destruct (moved_handle' a a' f h M Hh) as (h' & Hh' & E1 & E2). exists f, h'. split; [done|]. split; congruence.
  - destruct (moved_handle a a' f h M Hh) as (h' & Hh' & E1 & E2). exists f, h'. split; [done|]. split; congruence.
Qed.
Lemma set_handle_moved a f h h' :
  ahandles a !! f = Some h → hid h' = hid h → hdeny h' = hdeny h → ∀ st, moved a (AFS (anames a) st (<[f := h']> (ahandles a))).
Proof.
  intros Hh E1 E2 st. split; [done|]. intros g. simpl. destruct (decide (g = f)) as [->|Hne]; [|by rewrite lookup_insert_ne].
  rewrite lookup_insert_eq, Hh. simpl. by rewrite E1, E2.
Qed.

Lemma abstracts_store s a f h : abstracts s a → ahandles a !! f = Some h → ∃ xs, astore a !! hid h = Some xs.
Proof.
  intros (T & R & Hy & Est & Eh) Hh. destruct (handle_open_a s a T R Hy Est Eh f) as (fl & i & _ & _ & _ & _ & _ & _ & Hh' & Hxs & _); [by eexists|].
  rewrite Hh in Hh'. injection Hh' as ->. by eexists.
Qed.

Lemma seek_step s a f h p :
  abstracts s a → ahandles a !! f = Some h → 0 ≤ p < 2 ^ 31 →
  ∃ s', file_seek s f p = Ok s' ∧ abstracts s' (set_handle a f (Handle (hid h) p (hdeny h))).
Proof.
  intros (T & R & Hy & Est & Eh) Hh Hp. destruct (refines_seek s a T R Hy Est Eh f p) as (r & s' & a' & E & Hst & Hab); [by split; [eexists|]|].
  simpl in E. apply bind_Ok in E as (s1 & E & [= <- <-]). exists s1. split; [done|].
  inversion Hst; subst; congruence || (assert (h0 = h) as -> by congruence; done).
Qed.

Lemma read_file_spec s a f h xs p n :
  abstracts s a → ahandles a !! f = Some h → astore a !! hid h = Some xs → 0 ≤ p < 2 ^ 31 → 0 ≤ n < 2 ^ 31 →
  ∃ s1 s2 a', file_seek s f p = Ok s1 ∧ file_read s1 f n = Ok (slice p (transfer (Zlength xs) p n) xs, s2)
    ∧ abstracts s2 a' ∧ moved a a' ∧ astore a' = astore a.
Proof.
  intros Ha Hh Hxs Hp Hn. destruct (seek_step s a f h p Ha Hh Hp) as (s1 & E1 & (T & R & Hy & Est & Eh)).
  set (a1 := set_handle a f (Handle (hid h) p (hdeny h))) in *. assert (Hh1 : ahandles a1 !! f = Some (Handle (hid h) p (hdeny h))) by apply lookup_insert_eq.
  destruct (refines_read s1 a1 T R Hy Est Eh f n) as (r & s2 & a2 & E & Hst & Hab); [by split; [eexists|]|].
  simpl in E. apply bind_Ok in E as ([l s3] & E & [= <- <-]). exists s1, s3, a2. inversion Hst; subst.
  assert (h0 = Handle (hid h) p (hdeny h)) as -> by congruence. assert (xs0 = xs) as -> by (simpl in *; congruence). simpl in *.
  split; [done|]. split; [done|]. split; [done|]. split; [|done].
  apply (moved_trans a a1); [by apply (set_handle_moved a f h)|]. by apply (set_handle_moved a1 f (Handle (hid h) p (hdeny h))).
Qed.

Lemma write_file_spec s a f h xs p buf n :
  abstracts s a → ahandles a !! f = Some h → astore a !! hid h = Some xs → 0 ≤ p < 2 ^ 31 → 0 ≤ n < 2 ^ 31 →
  Zlength buf = n → p + n ≤ Zlength xs → ¬ denied_id a (hid h) →
  ∃ s1 s2 a', file_seek s f p = Ok s1 ∧ file_write s1 f buf n = Ok (n, s2)
    ∧ abstracts s2 a' ∧ moved a a' ∧ astore a' = <[hid h := splice p buf xs]> (astore a).
Proof.
  intros Ha Hh Hxs Hp Hn Hb Hr Hd. destruct (seek_step s a f h p Ha Hh Hp) as (s1 & E1 & (T & R & Hy & Est & Eh)).
  set (a1 := set_handle a f (Handle (hid h) p (hdeny h))) in *. assert (Hh1 : ahandles a1 !! f = Some (Handle (hid h) p (hdeny h))) by apply lookup_insert_eq.
  assert (M1 : moved a a1) by (by apply (set_handle_moved a f h)).
  destruct (refines_write s1 a1 T R Hy Est Eh f buf n) as (r & s2 & a2 & E & Hst & Hab); [split; [by eexists|lia]|].
  simpl in E. apply bind_Ok in E as ([l s3] & E & [= <- <-]). exists s1, s3, a2. inversion Hst; subst.
  assert (h0 = Handle (hid h) p (hdeny h)) as -> by congruence. assert (xs0 = xs) as -> by (simpl in *; congruence). simpl in *.
  assert (Em : l = Zlength buf).
  { rewrite H7; [unfold transfer; lia|]. by rewrite (moved_denied a a1 _ M1). }
  split; [done|]. split; [by rewrite E, Em|]. split; [done|]. split; [|by rewrite Em, Nat2Z.id, firstn_all].
  apply (moved_trans a a1); [done|]. by apply (set_handle_moved a1 f (Handle (hid h) p (hdeny h))).
Qed.

(** Positions in files do not matter. *)
Lemma file_page_moved a a' e : moved a a' → astore a' = astore a → file_page a' e = file_page a e.
Proof.
  intros M E. unfold file_page. rewrite E. destruct (ahandles a !! efile e) as [h|] eqn:Hh.
  - destruct (moved_handle a a' _ h M Hh) as (h' & -> & E1 & _). cbn [mbind option_bind]. by rewrite E1.
  - destruct (ahandles a' !! efile e) as [h'|] eqn:Hh'; [|done]. destruct (moved_handle' a a' _ h' M Hh') as (h & ? & _). congruence.
Qed.
Lemma backing_moved v v' a a' e :
  moved a a' → astore a' = astore a → (ptype e = PAGE_SWAP → slot_data v' (swap_slot e) = slot_data v (swap_slot e)) →
  backing v' a' e = backing v a e.
Proof.
  intros M E Hs. unfold backing. destruct (ptype e); [by apply file_page_moved|by rewrite Hs|done|by apply file_page_moved].
Qed.

(** The page tables of [D] are still there in [D']. *)
Definition tables_kept (D D' : dirs) : Prop :=
  ∀ pd ts, D !! pd = Some ts → ∃ ts', D' !! pd = Some ts' ∧ ∀ i, is_Some (ts !! i) → is_Some (ts' !! i).
Lemma tables_kept_refl D : tables_kept D D.
Proof. intros pd ts H. by exists ts. Qed.

Lemma file_ok_moved a a' e : moved a a' → file_ok a e → file_ok a' e.
Proof.
  intros M ([h Hh] & Hr). destruct (moved_handle a a' _ h M Hh) as (h' & Hh' & _). split; [by exists h'|done].
Qed.
(** File lengths count, and the slot of this page. *)
Lemma type_ok_kept v v' D D' a a' pd e :
  type_ok v D a pd e → tables_kept D D' → moved a a' →
  (∀ id xs, astore a' !! id = Some xs → ∃ ys, astore a !! id = Some ys ∧ Zlength ys = Zlength xs) →
  (ptype e = PAGE_SWAP → loaded e = false → slot_used v (swap_slot e) → slot_used v' (swap_slot e)) →
  type_ok v' D' a' pd e.
Proof.
  intros Ht Hk M Hlen Hs. unfold type_ok in *. destruct (ptype e).
  - destruct Ht as [Hf Hd]. split; [by apply (file_ok_moved a)|]. intros h' Hh'. destruct (moved_handle' a a' _ h' M Hh') as (h & Hh & _ & ->). auto.
  - destruct Ht as (Hw & (ts & Hts & Hi) & Hsl). split; [done|]. split; [|auto]. destruct (Hk pd ts Hts) as (ts' & Hts' & Hi'). exists ts'. auto.
  - done.
  - destruct Ht as (Hf & Hw & Hr). split; [by apply (file_ok_moved a)|]. split; [done|]. intros h' xs' Hh' Hxs'.
    destruct (moved_handle' a a' _ h' M Hh') as (h & Hh & E1 & _). destruct (Hlen _ _ Hxs') as (ys & Hys & <-). rewrite E1 in *.
    destruct (Hr h ys Hh Hys) as [H1 H2]. split; [|done]. by rewrite (moved_denied a a').
Qed.

(** ** The whole invariant *)

Record vm_inv (v : vm) (D : dirs) (a : afs) : Prop := {
  vi_dirs : dirs_ok (mach v) D;
  vi_tlb : tlb_ok (mach v) D;
  vi_frames : frames_ok v;
  vi_hand : hand_ok v;
  vi_procs : procs_ok v D;
  vi_links : links_ok v D;
  vi_data : data_ok v D a
}.

(** There are not more frames than pages of memory. *)
Lemma frames_bound v D a : vm_inv v D a → Zlength (frame_table v) ≤ 2 ^ 20.
Proof.
  intros H. destruct (vi_frames v D a H) as [F1 F2 F3 F4]. set (page := λ x, match frames v !! x with Some f => fkpage f / PGSIZE | None => 0 end).
  assert (Hpg : ∀ x f, frames v !! x = Some f → fkpage f mod PGSIZE = 0 ∧ 0 ≤ page x < 2 ^ 20).
  { intros x f Hf. destruct (lo_spare v D (vi_links v D a H) x f Hf) as (S & _).
    destruct (used_kpage (pal (mach v)) (fkpage f) (mm_inv _ (di_mmu _ _ (vi_dirs v D a H))) S) as (Hm & Hb & He). split; [done|].
    unfold page. rewrite Hf. unfold PHYS_BASE in Hb. split; [apply Z.div_pos; [lia|done]|]. apply Z.div_lt_upper_bound; [done|]. unfold PGSIZE in *. lia. }
  assert (Hsub : page <$> frame_table v ⊆+ seqZ 0 (2 ^ 20)).
  { apply NoDup_submseteq.
    - apply NoDup_fmap_2_strong; [|done]. intros x y Hx%F2 Hy%F2 E. destruct Hx as [f Hf], Hy as [g Hg]. apply (F4 x y f g Hf Hg).
      destruct (Hpg x f Hf) as [M1 _], (Hpg y g Hg) as [M2 _]. unfold page in E. rewrite Hf, Hg in E.
      pose proof (Z.div_mod (fkpage f) PGSIZE). pose proof (Z.div_mod (fkpage g) PGSIZE). unfold PGSIZE in *. lia.
    - intros y (x & -> & Hx%F2)%list_elem_of_fmap. destruct Hx as [f Hf]. apply elem_of_seqZ. destruct (Hpg x f Hf). lia. }
  apply submseteq_length in Hsub. rewrite length_fmap, length_seqZ in Hsub. lia.
Qed.

(** What counts of an entry of a page table. *)
Definition similar (w w' : Z) : Prop :=
  flag w' PTE_P = flag w PTE_P ∧ flag w' PTE_W = flag w PTE_W ∧ flag w' PTE_D = flag w PTE_D ∧ page_at w' = page_at w.

Record mach_kept (v : vm) (D : dirs) (m' : mmu) (D' : dirs) : Prop := {
  mk_dirs : dirs_ok m' D';
  mk_tlb : tlb_ok m' D';
  mk_tables : tables_kept D D';
  mk_cpu : cr3 m' = cr3 (mach v) ∧ init_page_dir m' = init_page_dir (mach v);
  mk_pte pd u : is_Some (D !! pd) → 0 ≤ u < PHYS_BASE → similar (pte_of (mach v) D pd u) (pte_of m' D' pd u);
  mk_frame x f : frames v !! x = Some f →
    used (pal m') (fkpage f) ∧ ¬ owned D' (fkpage f) ∧ ∀ y, fkpage f ≤ y < fkpage f + PGSIZE → mem m' y = vmem v y
}.

Record same_pages (v v' : vm) : Prop := {
  sp_frames : frames v' = frames v;
  sp_table : frame_table v' = frame_table v;
  sp_procs : procs v' = procs v;
  sp_cur : cur v' = cur v;
  sp_calls : (vcalls v ≤ vcalls v')%nat;
  sp_swap : swap_block v' = swap_block v ∧ swap_table v' = swap_table v
}.

Section kept.
Context (v : vm) (D : dirs) (a : afs) (v' : vm) (D' : dirs) (a' : afs).
Context (H : vm_inv v D a) (Hp : same_pages v v') (Hm : mach_kept v D (mach v') D') (Hh : hand_ok v').

Lemma kept_entry t u : entry_at v' t u = entry_at v t u.
Proof. unfold entry_at. by rewrite (sp_procs v v' Hp). Qed.
Lemma kept_pte t u : is_Some (procs v !! t) → 0 ≤ u < PHYS_BASE → similar (pte_at v D t u) (pte_at v' D' t u).
Proof.
  intros [p Hp0] Hu. unfold pte_at. rewrite (sp_procs v v' Hp), Hp0. apply (mk_pte v D _ D' Hm); [|done].
  by apply (po_table v D (vi_procs v D a H) t p).
Qed.
Lemma kept_frames : frames_ok v'.
Proof.
  destruct (vi_frames v D a H) as [F1 F2 F3 F4]. destruct Hp as [E1 E2 _ _ E3 _]. split; rewrite ?E1, ?E2; try done.
  intros x Hx. specialize (F3 x Hx). lia.
Qed.
Lemma kept_procs : procs_ok v' D'.
Proof.
  destruct (vi_procs v D a H) as [P1 P2 P3]. destruct Hp as [_ _ E1 E2 _ _]. split; rewrite ?E1, ?E2; try done.
  - intros t p Hp0. destruct (P1 t p Hp0) as [Q1 [ts Q2]]. split; [done|]. destruct (mk_tables v D _ D' Hm _ ts Q2) as (ts' & Hts' & _). by eexists.
  - by rewrite (proj1 (mk_cpu v D _ D' Hm)).
Qed.
Lemma kept_links : links_ok v' D'.
Proof.
  destruct (vi_links v D a H) as [L1 L2 L3 L4 L5]. pose proof (sp_frames v v' Hp) as Ef. split.
  - intros x f Hf. rewrite Ef in Hf. rewrite kept_entry. by apply (L1 x).
  - intros t u e He. rewrite kept_entry in He. rewrite Ef. by apply (L2 t u e).
  - intros x f Hf. rewrite Ef in Hf. destruct (mk_frame v D _ D' Hm x f Hf) as (K1 & K2 & _). split; [done|]. split; [done|].
    rewrite (proj2 (mk_cpu v D _ D' Hm)). by apply (L3 x).
  - intros t u e He. rewrite kept_entry in He. by apply (L4 t u e).
  - intros t u Ht Hu. rewrite (sp_procs v v' Hp) in Ht. rewrite kept_entry. specialize (L5 t u Ht Hu).
    destruct (kept_pte t u Ht (proj1 Hu)) as (S1 & S2 & S3 & S4). rewrite S1, S2, S4. done.
Qed.
(** The pages of the frames are as before. *)
Lemma kept_frame_data t u e : entry_at v t u = Some e → loaded e = true → frame_data v' e = frame_data v e.
Proof.
  intros He Hl. destruct (lo_loaded v D (vi_links v D a H) t u e He Hl) as (x & f & Hf & <- & <-).
  destruct (lo_frame v D (vi_links v D a H) x f Hf) as (e' & He' & _ & Hk). assert (e' = e) as -> by congruence.
  apply peek_ext. rewrite Hk. apply (mk_frame v D _ D' Hm x f Hf).
Qed.

Context (Hsys : abstracts (sys v') a') (Hmv : moved a a') (Hst : astore a' = astore a).

Lemma kept_keeps t p u e : procs v !! t = Some p → entry_at v t u = Some e →
  type_ok v' D' a' (pagedir p) e ∧ backing v' a' e = backing v a e
  ∧ (loaded e = true → frame_data v' e = frame_data v e ∧ flag (pte_at v' D' t u) PTE_D = flag (pte_at v D t u) PTE_D).
Proof.
  intros Hpr He. destruct (sp_swap v v' Hp) as [Eb Et]. split_and!.
  - apply (type_ok_kept v v' D D' a a'); [by apply (da_type v D a (vi_data v D a H) t p u)|apply Hm|done| |].
    + intros id xs. rewrite Hst. intros E. by exists xs.
    + intros _ _. unfold slot_used. by rewrite Et.
  - apply backing_moved; [done|done|]. intros _. unfold slot_data. by rewrite Eb.
  - intros Hl. split; [by apply (kept_frame_data t u)|]. destruct (lo_entry v D (vi_links v D a H) t u e He) as [_ Hu].
    apply (kept_pte t u); [by eexists|apply Hu].
Qed.

Lemma inv_kept : vm_inv v' D' a' ∧ ∀ t u, contents v' a' t u = contents v a t u.
Proof.
  pose proof (vi_data v D a H) as Hd. pose proof (sp_procs v v' Hp) as Epr. destruct (sp_swap v v' Hp) as [Eb Et].
  assert (Hk : ∀ t p u e, ¬ (λ _ _ : Z, False) t u → procs v !! t = Some p → entry_at v t u = Some e →
    type_ok v' D' a' (pagedir p) e
    ∧ (ptype e = PAGE_SWAP → loaded e = true ∨ backing v' a' e = backing v a e)
    ∧ (ptype e ≠ PAGE_SWAP → backing v' a' e = backing v a e)
    ∧ (loaded e = true → frame_data v' e = frame_data v e ∧ flag (pte_at v' D' t u) PTE_D = flag (pte_at v D t u) PTE_D)).
  { intros t p u e _ Hpr He. destruct (kept_keeps t p u e Hpr He) as (K1 & K2 & K3). auto. }
  split; [split|].
  - apply Hm.
  - apply Hm.
  - apply kept_frames.
  - done.
  - apply kept_procs.
  - apply kept_links.
  - apply (data_step v v' D D' a a' (λ _ _, False)); try done.
    + destruct (da_swap v D a Hd) as (b & s & Hb). exists b, s. by rewrite Eb, Et.
    + by apply moved_hids.
    + intros t u _. apply kept_entry.
    + intros t p'. rewrite Epr. by exists p'.
    + intros t u e He. by apply (lo_entry v D (vi_links v D a H) t u e).
  - intros t u. apply (contents_step v v' D D' a a' (λ _ _, False)); [intros t' u' _; apply kept_entry|done|tauto].
Qed.
End kept.

(** ** Changing one page *)

(** The processes have the same page directories. *)
Record procs_like (v v' : vm) : Prop := {
  pl_pd t : pagedir <$> procs v' !! t = pagedir <$> procs v !! t;
  pl_table t p' : procs v' !! t = Some p' → is_Some (ptable p')
}.
Lemma like_proc v v' t p : procs_like v v' → procs v !! t = Some p → ∃ p', procs v' !! t = Some p' ∧ pagedir p' = pagedir p.
Proof. intros [L _] Hp. specialize (L t). rewrite Hp in L. apply fmap_Some in L as (p' & Hp' & E). by exists p'. Qed.
Lemma like_proc' v v' t p' : procs_like v v' → procs v' !! t = Some p' → ∃ p, procs v !! t = Some p ∧ pagedir p = pagedir p'.
Proof. intros [L _] Hp. specialize (L t). rewrite Hp in L. symmetry in L. apply fmap_Some in L as (p & Hp' & E). by exists p. Qed.
Lemma like_pte v v' D' t p u : procs_like v v' → procs v !! t = Some p → pte_at v' D' t u = pte_of (mach v') D' (pagedir p) u.
Proof. intros L Hp. destruct (like_proc v v' t p L Hp) as (p' & Hp' & E). unfold pte_at. by rewrite Hp', E. Qed.

Lemma procs_step v v' D D' :
  procs_ok v D → procs_like v v' → cur v' = cur v → cr3 (mach v') = cr3 (mach v) → tables_kept D D' → procs_ok v' D'.
Proof.
  intros [P1 P2 (p & P3 & P4)] L Ec Er Hk. split.
  - intros t p' Hp'. split; [by apply (pl_table v v' L t)|]. destruct (like_proc' v v' t p' L Hp') as (p0 & Hp0 & <-).
    destruct (P1 t p0 Hp0) as [_ [ts Hts]]. destruct (Hk _ ts Hts) as (ts' & Hts' & _). by eexists.
  - intros t t' q q' Hq Hq' E. destruct (like_proc' v v' t q L Hq) as (q0 & Hq0 & E0), (like_proc' v v' t' q' L Hq') as (q1 & Hq1 & E1).
    apply (P2 t t' q0 q1); congruence.
  - destruct (like_proc v v' _ p L P3) as (p' & Hp' & E'). exists p'. by rewrite Ec, Er, E', P4.
Qed.

(** The same user page of the same directory is the same page of the same process. *)
Lemma same_page_key v D t p t' p' u u' :
  procs_ok v D → procs v !! t = Some p → procs v !! t' = Some p' → user_page u → user_page u' →
  same_page (pagedir p) u (pagedir p') u' → (t', u') = (t, u).
Proof.
  intros Hok Hp Hp' Hu Hu' [E1 E2]. rewrite !user_page_round in E2 by done. f_equal; [|done]. by apply (po_inj v D Hok t' t p' p).
Qed.

(** A frame is known by its page. *)
Lemma frame_key v D a x f y g :
  vm_inv v D a → frames v !! x = Some f → frames v !! y = Some g → owner f = owner g → fupage f = fupage g → x = y.
Proof.
  intros H Hf Hg E1 E2. destruct (lo_frame v D (vi_links v D a H) x f Hf) as (e & He & _ & Hk), (lo_frame v D (vi_links v D a H) y g Hg) as (e' & He' & _ & Hk').
  apply (fo_uniq v (vi_frames v D a H) x y f g); [done|done|]. congruence.
Qed.

Section links.
Context (v v' : vm) (D D' : dirs) (t0 u0 : Z).
Context (H : links_ok v D) (L : procs_like v v') (Hu0 : user_page u0).
Context (Hent : ∀ t u, (t, u) ≠ (t0, u0) → entry_at v' t u = entry_at v t u).
Context (Hfr : ∀ x f, (owner f, fupage f) ≠ (t0, u0) → frames v' !! x = Some f ↔ frames v !! x = Some f).
Context (Hsp : ∀ x f, frames v' !! x = Some f → spare v' D' (fkpage f)).
Context (Hpte : ∀ t u, (t, u) ≠ (t0, u0) → is_Some (procs v !! t) → user_page u → similar (pte_at v D t u) (pte_at v' D' t u)).

Lemma links_step :
  match entry_at v' t0 u0 with
  | Some e =>
      upage e = u0 ∧
      if loaded e then
        (∃ x f, frames v' !! x = Some f ∧ owner f = t0 ∧ fupage f = u0)
        ∧ (∀ x f, frames v' !! x = Some f → owner f = t0 → fupage f = u0 → kpage e = fkpage f)
        ∧ flag (pte_at v' D' t0 u0) PTE_P = true ∧ page_at (pte_at v' D' t0 u0) = kpage e ∧ flag (pte_at v' D' t0 u0) PTE_W = writable e
      else (∀ x f, frames v' !! x = Some f → (owner f, fupage f) ≠ (t0, u0)) ∧ flag (pte_at v' D' t0 u0) PTE_P = false
  | None => (∀ x f, frames v' !! x = Some f → (owner f, fupage f) ≠ (t0, u0)) ∧ flag (pte_at v' D' t0 u0) PTE_P = false
  end → links_ok v' D'.
Proof.
  intros Hkey. destruct H as [L1 L2 L3 L4 L5]. split.
  - intros x f Hf. destruct (decide ((owner f, fupage f) = (t0, u0))) as [[= E1 E2]|Hne].
    + rewrite E1, E2. destruct (entry_at v' t0 u0) as [e|]; [|destruct Hkey as [Hno _]; destruct (Hno x f Hf); congruence].
      destruct Hkey as [_ Hkey]. destruct (loaded e) eqn:Hl; [|destruct Hkey as [Hno _]; destruct (Hno x f Hf); congruence].
      exists e. split; [done|]. split; [done|]. destruct Hkey as (_ & Hk & _). by apply (Hk x f).
    + rewrite Hent by done. apply Hfr in Hf; [|done]. by apply (L1 x).
  - intros t u e He Hl. destruct (decide ((t, u) = (t0, u0))) as [[= -> ->]|Hne].
    + rewrite He, Hl in Hkey. by destruct Hkey as (_ & Hk & _).
    + rewrite Hent in He by done. destruct (L2 t u e He Hl) as (x & f & Hf & E1 & E2). exists x, f. split; [|done]. apply Hfr; [congruence|done].
  - done.
  - intros t u e He. destruct (decide ((t, u) = (t0, u0))) as [[= -> ->]|Hne].
    + rewrite He in Hkey. by split; [apply Hkey|].
    + rewrite Hent in He by done. by apply (L4 t u e).
  - intros t u Ht Hu. destruct (decide ((t, u) = (t0, u0))) as [[= -> ->]|Hne].
    + destruct (entry_at v' t0 u0) as [e|]; [|apply Hkey]. destruct Hkey as [_ Hkey]. destruct (loaded e); tauto.
    + rewrite Hent by done. destruct Ht as [p' Hp']. destruct (like_proc' v v' t p' L Hp') as (p & Hp & _).
      specialize (L5 t u (mk_is_Some _ _ Hp) Hu). destruct (Hpte t u Hne (mk_is_Some _ _ Hp) Hu) as (S1 & S2 & _ & S4). by rewrite S1, S2, S4.
Qed.
End links.

(** The entries of the page tables when one of them changes. *)
Lemma pte_similar v v' D D' t0 p0 u0 w :
  procs_ok v D → procs_like v v' → procs v !! t0 = Some p0 → user_page u0 →
  (∀ pd u, is_Some (D !! pd) → 0 ≤ u < PHYS_BASE →
     pte_of (mach v') D' pd u = if decide (same_page (pagedir p0) u0 pd u) then w else pte_of (mach v) D pd u) →
  pte_at v' D' t0 u0 = w ∧
  ∀ t u, (t, u) ≠ (t0, u0) → is_Some (procs v !! t) → user_page u → similar (pte_at v D t u) (pte_at v' D' t u).
Proof.
  intros Hok L Hp0 Hu0 Hpte. split.
  - rewrite (like_pte v v' D' t0 p0) by done. rewrite Hpte; [by rewrite decide_True|by apply (po_table v D Hok t0 p0)|apply Hu0].
  - intros t u Hne [p Hp] Hu. rewrite (like_pte v v' D' t p) by done. unfold pte_at. rewrite Hp.
    rewrite Hpte; [|by apply (po_table v D Hok t p)|apply Hu]. rewrite decide_False; [done|].
    intros Hs. apply Hne. by apply (same_page_key v D t0 p0 t p).
Qed.

(** Storing an entry of a supplemental page table. *)
Lemma entry_put v t e t' u' :
  entry_at (put_entry v t e) t' u' =
  if decide ((t', u') = (t, upage e) ∧ is_Some (procs v !! t)) then Some e else entry_at v t' u'.
Proof.
  unfold entry_at, put_entry, upd_proc. simpl. destruct (decide (t' = t)) as [->|Hne].
  - rewrite lookup_alter_eq. destruct (procs v !! t) as [p|] eqn:Hp; cbn [fmap option_fmap option_map mbind option_bind].
    + simpl. destruct (decide (u' = upage e)) as [->|Hu].
      * by rewrite lookup_insert_eq, decide_True by eauto.
      * rewrite lookup_insert_ne, decide_False by (done || intros [[= ?] _]; congruence). by destruct (ptable p).
    + rewrite decide_False; [done|]. intros [_ [? ?]]. done.
  - rewrite lookup_alter_ne, decide_False; [done|intros [[= ?] _]; congruence|done].
Qed.
Lemma put_put v t e e' b s :
  upage e = upage e' → put_entry (set_swap (put_entry v t e) b s) t e' = put_entry (set_swap v b s) t e'.
Proof.
  intros E. unfold put_entry, upd_proc, set_swap, set_procs. simpl. f_equal. apply map_eq. intros i.
  destruct (decide (i = t)) as [->|Hne]; [|by rewrite !lookup_alter_ne]. rewrite !lookup_alter_eq. destruct (procs v !! t) as [p|]; [|done].
  simpl. f_equal. unfold with_table. simpl. by rewrite E, insert_insert_eq.
Qed.
Lemma put_like v t e : (∀ t p, procs v !! t = Some p → is_Some (ptable p)) → procs_like v (put_entry v t e).
Proof.
  intros Hok. unfold put_entry, upd_proc. split; simpl.
  - intros t'. destruct (decide (t' = t)) as [->|Hne]; [|by rewrite lookup_alter_ne]. rewrite lookup_alter_eq. by destruct (procs v !! t).
  - intros t' p' Hp'. destruct (decide (t' = t)) as [->|Hne].
    + rewrite lookup_alter_eq in Hp'. apply fmap_Some in Hp' as (p & _ & ->). by eexists.
    + rewrite lookup_alter_ne in Hp' by done. by apply (Hok t').
Qed.

(** ** Taking a page out of memory *)

Lemma next_frame_other v x :
  NoDup (frame_table v) → x ∈ frame_table v → 2 ≤ Zlength (frame_table v) →
  ∃ h, next_frame v x = Ok h ∧ h ∈ frame_table v ∧ h ≠ x.
Proof.
  intros Hn Hx Hl. apply list_elem_of_split in Hx as (l1 & l2 & E). pose proof Hn as Hn'. rewrite E in Hn', Hl.
  apply NoDup_app in Hn' as (_ & Hd & Hn2). destruct l2 as [|y l2].
  - destruct l1 as [|z l1]; [simpl in Hl; lia|]. exists z. split; [|split].
    + rewrite (next_frame_last v (z :: l1)) by done. by rewrite E.
    + rewrite E. by left.
    + intros ->. apply (Hd x); by left.
  - exists y. split; [by apply (next_frame_mid v l1 x y l2)|]. split.
    + rewrite E. apply elem_of_app. right. right. by left.
    + intros ->. apply NoDup_cons in Hn2 as [Hn2 _]. apply Hn2. by left.
Qed.

Section unload.
Context (v : vm) (D : dirs) (a : afs) (H : vm_inv v D a).
Context (x : Z) (f : frame_entry) (p : proc) (e : spt_entry) (w : Z).
Context (Hf : frames v !! x = Some f) (Hp : procs v !! owner f = Some p) (He : entry_at v (owner f) (fupage f) = Some e).
Context (v' : vm) (a' : afs) (e2 : spt_entry).
Context (Hc : pte_changed (mach v) (mach v') D (pagedir p) (fupage f) w) (Hw : flag w PTE_P = false).
Context (Efr : frames v' = delete x (frames v)) (Etab : frame_table v' = filter (λ y, y ≠ x) (frame_table v)).
Context (Hhand : clock_hand v' ∈ frame_table v ∧ clock_hand v' ≠ x).
Context (Ecur : cur v' = cur v) (Ecalls : vcalls v' = vcalls v) (Hlike : procs_like v v').
Context (Hent : ∀ t u, entry_at v' t u = if decide ((t, u) = (owner f, fupage f)) then Some e2 else entry_at v t u).
Context (He2 : upage e2 = fupage f ∧ loaded e2 = false).

Lemma unload_user : user_page (fupage f).
Proof. by apply (lo_entry v D (vi_links v D a H) (owner f) (fupage f) e). Qed.
Lemma unload_frame y g : frames v' !! y = Some g ↔ y ≠ x ∧ frames v !! y = Some g.
Proof. rewrite Efr, lookup_delete_Some. naive_solver. Qed.
Lemma unload_key y g : frames v' !! y = Some g → (owner g, fupage g) ≠ (owner f, fupage f).
Proof. intros [Hne Hg]%unload_frame [= E1 E2]. apply Hne. by apply (frame_key v D a y g x f). Qed.
Lemma unload_ptes :
  pte_at v' D (owner f) (fupage f) = w ∧
  ∀ t u, (t, u) ≠ (owner f, fupage f) → is_Some (procs v !! t) → user_page u → similar (pte_at v D t u) (pte_at v' D t u).
Proof.
  apply (pte_similar v v' D D (owner f) p (fupage f) w); [apply H|done|done|apply unload_user|].
  intros pd u Hs Hu. by apply (pte_changed_of (mach v) (mach v') D (pagedir p) (fupage f) w).
Qed.
Lemma unload_spare k : spare v' D k ↔ spare v D k.
Proof.
  unfold spare. destruct (pc_cpu _ _ _ _ _ _ Hc) as (_ & -> & _). by rewrite (pte_changed_used (mach v) (mach v') D (pagedir p) (fupage f) w).
Qed.
Lemma unload_frame_data e' t u : (t, u) ≠ (owner f, fupage f) → entry_at v t u = Some e' → loaded e' = true → frame_data v' e' = frame_data v e'.
Proof.
  intros _ He' Hl. destruct (lo_loaded v D (vi_links v D a H) t u e' He' Hl) as (y & g & Hg & <- & <-).
  destruct (lo_frame v D (vi_links v D a H) y g Hg) as (e1 & He1 & _ & Hk). assert (e1 = e') as -> by congruence.
  destruct (lo_spare v D (vi_links v D a H) y g Hg) as (S1 & S2 & _). apply peek_ext. intros z Hz. apply (pc_mem _ _ _ _ _ _ Hc).
  rewrite (page_of_in (fkpage g)); [done|by apply (used_kpage (pal (mach v))), S1; apply (vi_dirs v D a H)|by rewrite <- Hk].
Qed.

Lemma unload_links : links_ok v' D.
Proof.
  destruct unload_ptes as [Ew Hs]. apply (links_step v v' D D (owner f) (fupage f)); [apply H|done|apply unload_user| | | |done|].
  - intros t u Hne. by rewrite Hent, decide_False.
  - intros y g Hne. rewrite unload_frame. split; [tauto|]. intros Hg. split; [|done]. intros ->. apply Hne. congruence.
  - intros y g [_ Hg]%unload_frame. apply unload_spare. by apply (lo_spare v D (vi_links v D a H) y).
  - rewrite Hent, decide_True, Ew by done. destruct He2 as [-> ->]. split; [done|]. split; [|done]. apply unload_key.
Qed.
Lemma unload_frames : frames_ok v' ∧ hand_ok v'.
Proof.
  destruct (vi_frames v D a H) as [F1 F2 F3 F4]. split; [split|].
  - rewrite Etab. by apply NoDup_filter.
  - intros y. rewrite Etab, Efr, list_elem_of_filter, F2, lookup_delete_is_Some. naive_solver.
  - intros y. rewrite Etab, list_elem_of_filter, Ecalls. intros [_ Hy]. by apply F3.
  - intros y z g g' [_ Hg]%unload_frame [_ Hg']%unload_frame. by apply F4.
  - right. rewrite Etab. apply list_elem_of_filter. tauto.
Qed.

Context (Hsys : abstracts (sys v') a') (Hswap : swap_ok v') (Hhid : same_hids a a').
Context (Hkeep : ∀ t q u e', (t, u) ≠ (owner f, fupage f) → procs v !! t = Some q → entry_at v t u = Some e' →
  type_ok v' D a' (pagedir q) e' ∧ (ptype e' = PAGE_SWAP → loaded e' = true ∨ backing v' a' e' = backing v a e')
  ∧ (ptype e' ≠ PAGE_SWAP → backing v' a' e' = backing v a e')).
Context (Htype : type_ok v' D a' (pagedir p) e2).
Context (Hapart : ∀ t u e', (t, u) ≠ (owner f, fupage f) → entry_at v t u = Some e' → apart a' e2 e').
Context (Hval : visible e2 <$> backing v' a' e2 = Some (visible e (frame_data v e))).

Lemma inv_unload : vm_inv v' D a' ∧ ∀ t u, contents v' a' t u = contents v a t u.
Proof.
  set (ch := λ t u, (t, u) = (owner f, fupage f)). destruct unload_ptes as [Ew Hs].
  assert (Hn : ∀ t u, ¬ ch t u → entry_at v' t u = entry_at v t u) by (intros t u Hn; by rewrite Hent, decide_False).
  assert (Hl : loaded e = true).
  { by destruct (lo_frame v D (vi_links v D a H) x f Hf) as (e1 & He1 & Hl1 & _); simplify_eq. }
  assert (Hk : ∀ t q u e', ¬ ch t u → procs v !! t = Some q → entry_at v t u = Some e' →
    type_ok v' D a' (pagedir q) e' ∧ (ptype e' = PAGE_SWAP → loaded e' = true ∨ backing v' a' e' = backing v a e')
    ∧ (ptype e' ≠ PAGE_SWAP → backing v' a' e' = backing v a e')
    ∧ (loaded e' = true → frame_data v' e' = frame_data v e' ∧ flag (pte_at v' D t u) PTE_D = flag (pte_at v D t u) PTE_D)).
  { intros t q u e' Hne Hq He'. destruct (Hkeep t q u e' Hne Hq He') as (K1 & K2 & K3). split_and!; [done..|].
    intros Hl'. split; [by apply (unload_frame_data e' t u)|]. apply Hs; [done|by eexists|by apply (lo_entry v D (vi_links v D a H) t u e')]. }
  assert (Hdec : ∀ t u, Decision (ch t u)) by (intros; unfold ch; apply _).
  split; [split|].
  - apply Hc.
  - apply Hc.
  - apply unload_frames.
  - apply unload_frames.
  - apply (procs_step v v' D D); [apply H|done|done|apply Hc|apply tables_kept_refl].
  - apply unload_links.
  - apply (data_step v v' D D a a' ch); [apply H|done..| | |done|].
    + intros t p' Hp'. by apply (like_proc' v v').
    + intros t u e' He'. by apply (lo_entry v D (vi_links v D a H) t u e').
    + intros t q u e' Hcu Hq He'. unfold ch in Hcu. injection Hcu as -> ->. rewrite Hent, decide_True in He' by done. injection He' as <-.
      destruct (like_proc v v' _ p Hlike Hp) as (p' & Hp' & Epd). assert (p' = q) as -> by congruence. rewrite Epd. split; [done|].
      split; [intros Hl2; by rewrite (proj2 He2) in Hl2|]. intros t' u' e' He' Hne. rewrite Hn in He' by (intros Hx; by apply Hne).
      apply (Hapart t' u'); [by apply not_eq_sym|done].
  - intros t u. destruct (decide (ch t u)) as [Hcu|Hcu]; [|by apply (contents_step v v' D D a a' ch)].
    unfold ch in Hcu. injection Hcu as -> ->. unfold contents. rewrite Hent, decide_True, He by done. cbn [mbind option_bind].
    by rewrite (proj2 He2), Hl, Hval.
Qed.
End unload.

(** ** Paging is not visible *)

(** What of an entry never changes while pages move. *)
Definition mapping_of (e : spt_entry) : option (Z * Z * Z) :=
  if decide (ptype e = PAGE_MMAP) then Some (efile e, file_offset e, read_bytes e) else None.
Definition fixed (e : spt_entry) : Z * bool * option (Z * Z * Z) := (upage e, writable e, mapping_of e).

(** Byte [i] of the file [id] is mapped into memory. *)
Definition mapped_byte (v : vm) (a : afs) (id i : Z) : Prop :=
  ∃ t u e h, entry_at v t u = Some e ∧ ptype e = PAGE_MMAP ∧ ahandles a !! efile e = Some h ∧ hid h = id
    ∧ file_offset e ≤ i < file_offset e + read_bytes e.

Record carries (v : vm) (a : afs) (v' : vm) (a' : afs) : Prop := {
  ca_contents t u : contents v' a' t u = contents v a t u;
  ca_cur : cur v' = cur v;
  ca_like : procs_like v v';
  ca_moved : moved a a';
  ca_fixed t u : fixed <$> entry_at v' t u = fixed <$> entry_at v t u;
  ca_files id xs : astore a !! id = Some xs → ∃ ys, astore a' !! id = Some ys ∧ Zlength ys = Zlength xs
    ∧ ∀ i, ¬ mapped_byte v a id (Z.of_nat i) → ys !! i = xs !! i
}.

Lemma mapped_byte_fixed v a v' a' id i :
  (∀ t u, fixed <$> entry_at v' t u = fixed <$> entry_at v t u) → moved a a' → mapped_byte v' a' id i → mapped_byte v a id i.
Proof.
  intros Hfx M (t & u & e' & h' & He' & Hm & Hh' & Hi & Hr). specialize (Hfx t u). rewrite He' in Hfx. symmetry in Hfx.
  apply fmap_Some in Hfx as (e & He & Hfe). unfold fixed, mapping_of in Hfe. rewrite decide_True in Hfe by done. injection Hfe as _ _ Hfe.
  destruct (decide (ptype e = PAGE_MMAP)); [|done]. injection Hfe as E1 E2 E3.
  destruct (moved_handle' a a' _ h' M Hh') as (h & Hh & E4 & _). exists t, u, e, h. rewrite <- E1, <- E2, <- E3. by rewrite <- E4.
Qed.
Lemma carries_trans v a v1 a1 v2 a2 : carries v a v1 a1 → carries v1 a1 v2 a2 → carries v a v2 a2.
Proof.
  intros [A1 A2 A3 A4 A5 A6] [B1 B2 B3 B4 B5 B6]. split.
  - intros t u. by rewrite B1, A1.
  - congruence.
  - split; [|apply B3]. intros t. by rewrite (pl_pd v1 v2 B3), (pl_pd v v1 A3).
  - by apply (moved_trans a a1).
  - intros t u. by rewrite B5, A5.
  - intros id xs Hxs. destruct (A6 id xs Hxs) as (ys & Hys & L1 & P1), (B6 id ys Hys) as (zs & Hzs & L2 & P2).
    exists zs. split; [done|]. split; [lia|]. intros i Hi. rewrite P2; [by apply P1|]. intros Hm. apply Hi.
    by apply (mapped_byte_fixed v a v1 a1).
Qed.
Lemma same_files v a a' id xs :
  astore a' = astore a → astore a !! id = Some xs →
  ∃ ys, astore a' !! id = Some ys ∧ Zlength ys = Zlength xs ∧ ∀ i, ¬ mapped_byte v a id (Z.of_nat i) → ys !! i = xs !! i.
Proof. intros E Hxs. exists xs. by rewrite E. Qed.
Lemma moved_refl a : moved a a.
Proof. done. Qed.

Lemma get_entry_at v D t u : procs_ok v D → is_Some (procs v !! t) → spt_get_entry v t u = Ok (entry_at v t (pg_round_down u)).
Proof.
  intros Hok [p Hp]. destruct (po_table v D Hok t p Hp) as [[s Hs] _]. unfold spt_get_entry, get_table, get_proc, entry_at.
  rewrite Hp. cbn [from_opt mbind res_bind option_bind]. by rewrite Hs.
Qed.

(** *** Writing back a mapped page *)

Lemma peek_prefix r k n m : 0 ≤ n ≤ m → take (Z.to_nat n) (peek r k m) = peek r k n.
Proof.
  intros Hn. replace m with (n + (m - n)) by lia. rewrite <- peek_app by lia. rewrite take_app_le.
  - rewrite take_ge; [done|]. pose proof (length_peek r k n). lia.
  - pose proof (length_peek r k n). lia.
Qed.

(** Only the pages that map the bytes that are written see the change. *)
Lemma file_page_written v D a a' pd e e' h xs buf :
  type_ok v D a pd e → ptype e = PAGE_MMAP → ahandles a !! efile e = Some h → astore a !! hid h = Some xs →
  Zlength buf = read_bytes e → moved a a' → astore a' = <[hid h := splice (file_offset e) buf xs]> (astore a) →
  (ptype e' = PAGE_FILE → ∀ h', ahandles a !! efile e' = Some h' → hdeny h' = true) →
  (ptype e' = PAGE_FILE ∨ ptype e' = PAGE_MMAP) → file_ok a e' → apart a e e' →
  file_page a' e' = file_page a e'.
Proof.
  intros Ht Hty Hh Hxs Hb M Est Hdeny Hty' Hf' [_ Hap]. unfold type_ok in Ht. rewrite Hty in Ht. destruct Ht as ((_ & Hof & _) & _ & Hr).
  destruct (Hr h xs Hh Hxs) as [Hnd Hin]. destruct Hf' as ([h' Hh'] & Ho' & Hr' & _). unfold file_page. rewrite Hh'.
  destruct (moved_handle a a' _ h' M Hh') as (h2 & -> & E2 & _). cbn [mbind option_bind]. rewrite E2, Est.
  destruct (decide (hid h' = hid h)) as [Eid|Hne]; [|by rewrite lookup_insert_ne].
  rewrite Eid, lookup_insert_eq, Hxs. cbn [mbind option_bind]. rewrite length_splice by lia.
  destruct (decide (_ ∨ _)) as [Hok|]; [|done]. do 2 f_equal. destruct Hty' as [Hty'|Hty'].
  - destruct Hnd. exists (efile e'), h'. auto.
  - destruct (decide (read_bytes e' = 0)) as [->|Hnz]; [done|]. apply slice_splice_other; [lia|lia|lia|].
    rewrite Hb. rewrite Hh, Hh' in Hap. simpl in Hap. rewrite Eid in Hap. destruct (Hap Hty Hty' eq_refl); lia.
Qed.

(** The bytes that are not mapped stay. *)
Lemma write_files v a a' t u e h xs buf :
  entry_at v t u = Some e → ptype e = PAGE_MMAP → ahandles a !! efile e = Some h → astore a !! hid h = Some xs →
  0 ≤ file_offset e → Zlength buf = read_bytes e → file_offset e + read_bytes e ≤ Zlength xs →
  astore a' = <[hid h := splice (file_offset e) buf xs]> (astore a) →
  ∀ id ys, astore a !! id = Some ys → ∃ zs, astore a' !! id = Some zs ∧ Zlength zs = Zlength ys
    ∧ ∀ i, ¬ mapped_byte v a id (Z.of_nat i) → zs !! i = ys !! i.
Proof.
  intros He Hm Hh Hxs Ho Hb Hr Est id ys Hys. rewrite Est. destruct (decide (id = hid h)) as [->|Hne].
  - assert (ys = xs) as -> by congruence. rewrite lookup_insert_eq. eexists. split; [done|]. rewrite length_splice by lia. split; [done|].
    intros i Hi. rewrite lookup_splice by lia. rewrite decide_False; [done|]. intros Hin. apply Hi. exists t, u, e, h. rewrite <- Hb. done.
  - rewrite lookup_insert_ne by done. by exists ys.
Qed.
Lemma written_lengths a a' id xs ys :
  astore a !! id = Some xs → Zlength ys = Zlength xs → astore a' = <[id := ys]> (astore a) →
  ∀ id' zs, astore a' !! id' = Some zs → ∃ xs', astore a !! id' = Some xs' ∧ Zlength xs' = Zlength zs.
Proof.
  intros Hxs Hl -> id' zs. destruct (decide (id' = id)) as [->|Hne].
  - rewrite lookup_insert_eq. intros [= <-]. by exists xs.
  - rewrite lookup_insert_ne by done. intros Hzs. by exists zs.
Qed.

(** ** Eviction *)

Section evict.
Context (v : vm) (D : dirs) (a : afs) (H : vm_inv v D a).
Context (x : Z) (f : frame_entry) (p : proc) (e : spt_entry) (m : mmu) (w h : Z).
Context (Hf : frames v !! x = Some f) (Hp : procs v !! owner f = Some p) (He : entry_at v (owner f) (fupage f) = Some e).
Context (Hc : pte_changed (mach v) m D (pagedir p) (fupage f) w) (Hw : flag w PTE_P = false).
Context (Hh : h ∈ frame_table v ∧ h ≠ x).

Definition gone : vm := remove_frame (set_mach v m) x h.
Definition unloaded (ty : page_type) (slot : Z) : spt_entry :=
  SptEntry (upage e) 0 ty (writable e) false (efile e) (file_offset e) (read_bytes e) (zero_bytes e) slot (mapid e).

Lemma evict_loaded : loaded e = true ∧ kpage e = fkpage f.
Proof. by destruct (lo_frame v D (vi_links v D a H) x f Hf) as (e' & He' & ?); simplify_eq. Qed.
Lemma evict_upage : upage e = fupage f.
Proof. by apply (lo_entry v D (vi_links v D a H) (owner f) (fupage f) e). Qed.
(** The frame is not a part of a page directory. *)
Lemma evict_mem : peek (mem m) (fkpage f) PGSIZE = frame_data v e.
Proof.
  destruct evict_loaded as [_ Hk]. unfold frame_data. rewrite Hk. apply peek_ext. intros z Hz. apply (pc_mem _ _ _ _ _ _ Hc).
  destruct (lo_spare v D (vi_links v D a H) x f Hf) as (S1 & S2 & _).
  rewrite (page_of_in (fkpage f)); [done|by apply (used_kpage (pal (mach v))), S1; apply (vi_dirs v D a H)|done].
Qed.
Lemma evict_like v0 e' : procs v0 = procs v → procs_like v (put_entry v0 (owner f) e').
Proof.
  intros E. pose proof (put_like v0 (owner f) e') as [L1 L2].
  - rewrite E. intros t q Hq. by apply (po_table v D (vi_procs v D a H) t q).
  - split; [|done]. intros t. by rewrite L1, E.
Qed.
Lemma evict_entry v0 e' t u : procs v0 = procs v → upage e' = upage e →
  entry_at (put_entry v0 (owner f) e') t u = if decide ((t, u) = (owner f, fupage f)) then Some e' else entry_at v t u.
Proof.
  intros E Eu. rewrite entry_put, Eu, evict_upage, E, Hp. replace (entry_at v0 t u) with (entry_at v t u) by (unfold entry_at; by rewrite E).
  destruct (decide (_ ∧ _)) as [[Hk _]|Hn], (decide ((t, u) = _)) as [Hk'|Hn']; try done. destruct Hn. eauto.
Qed.
Lemma evict_fixed v' e' :
  (∀ t u, entry_at v' t u = if decide ((t, u) = (owner f, fupage f)) then Some e' else entry_at v t u) → fixed e' = fixed e →
  ∀ t u, fixed <$> entry_at v' t u = fixed <$> entry_at v t u.
Proof. intros Hent Hfx t u. rewrite Hent. destruct (decide _) as [[= -> ->]|]; [|done]. rewrite He. simpl. by rewrite Hfx. Qed.

Lemma unloaded_backing v' ty slot : ty = ptype e → ty ≠ PAGE_SWAP →
  visible (unloaded ty slot) <$> backing v' a (unloaded ty slot) = visible e <$> backing v a e.
Proof.
  intros -> Hn. unfold backing, visible, file_page, unloaded. cbn [ptype efile file_offset read_bytes zero_bytes]. by destruct (ptype e).
Qed.
Lemma unloaded_type v' ty slot pd : ty = ptype e → ty ≠ PAGE_SWAP → type_ok v D a pd e → type_ok v' D a pd (unloaded ty slot).
Proof.
  intros -> Hn. unfold type_ok, file_ok, unloaded. cbn [ptype efile file_offset read_bytes zero_bytes writable]. by destruct (ptype e).
Qed.

(** The page is dropped. *)
Lemma evict_drop :
  let v' := put_entry gone (owner f) (unloaded (ptype e) (swap_slot e)) in
  flag (pte_at v D (owner f) (fupage f)) PTE_D = false → ptype e = PAGE_MMAP ∨ writable e = false →
  vm_inv v' D a ∧ carries v a v' a.
Proof.
  intros v' Hd Hty. set (e2 := unloaded (ptype e) (swap_slot e)). pose proof (vi_data v D a H) as Hdat.
  assert (Hent : ∀ t u, entry_at v' t u = if decide ((t, u) = (owner f, fupage f)) then Some e2 else entry_at v t u) by (intros; by apply evict_entry).
  pose proof (da_type v D a Hdat _ p _ e Hp He) as Ht.
  assert (Hns : ptype e ≠ PAGE_SWAP). { intros E. unfold type_ok in Ht. rewrite E in Ht. destruct Ht as [Hwr _]. destruct Hty; congruence. }
  destruct (inv_unload v D a H x f p e w Hf Hp He v' a e2) as [HI HC].
  - exact Hc.
  - exact Hw.
  - reflexivity.
  - reflexivity.
  - exact Hh.
  - reflexivity.
  - reflexivity.
  - by apply evict_like.
  - exact Hent.
  - split; [apply evict_upage|done].
  - apply Hdat.
  - apply Hdat.
  - intros f'. done.
  - intros t q u e' Hne Hq He'. split; [by apply (da_type v D a Hdat t q u)|]. auto.
  - by apply unloaded_type.
  - intros t u e' Hne He'. destruct (da_apart v D a Hdat _ _ e _ _ e' He He') as [_ A2]; [by apply not_eq_sym|]. by split.
  - rewrite <- (proj2 (da_clean v D a Hdat _ _ e He (proj1 evict_loaded))); [|by rewrite evict_upage|done].
    unfold e2. by rewrite unloaded_backing.
  - split; [exact HI|]. split.
    + exact HC.
    + reflexivity.
    + by apply evict_like.
    + apply moved_refl.
    + by apply (evict_fixed v' e2).
    + intros id xs. by apply same_files.
Qed.

(** A page that was loaded has a page table. *)
Lemma evict_table : ∃ ts, D !! pagedir p = Some ts ∧ is_Some (ts !! pd_no (fupage f)).
Proof.
  destruct (po_table v D (vi_procs v D a H) _ p Hp) as [_ [ts Hts]]. exists ts. split; [done|]. apply (pte_some (mach v) ts).
  destruct (lo_entry v D (vi_links v D a H) _ _ e He) as [_ Hu]. pose proof (lo_pte v D (vi_links v D a H) _ _ (mk_is_Some _ _ Hp) Hu) as Hl.
  rewrite He, (proj1 evict_loaded) in Hl. destruct Hl as [Hl _]. unfold pte_at, pte_of in Hl. rewrite Hp, Hts in Hl. intros E. by rewrite E in Hl.
Qed.

(** The page goes to the swap device. *)
Lemma evict_swap slot b t :
  ptype e ≠ PAGE_MMAP → writable e = true →
  let vs := set_swap v (Some b) (Some t) in
  swap_ok vs → ¬ slot_used v slot → slot_data vs slot = frame_data v e →
  (∀ s, slot_used vs s ↔ slot_used v s ∨ s = slot) → (∀ s, slot_used v s → slot_data vs s = slot_data v s) →
  let v' := put_entry (set_swap gone (Some b) (Some t)) (owner f) (unloaded PAGE_SWAP slot) in
  vm_inv v' D a ∧ carries v a v' a.
Proof.
  intros Hnm Hwr vs Hsw Hfree Hdata Hused Hkept v'. set (e2 := unloaded PAGE_SWAP slot). pose proof (vi_data v D a H) as Hdat.
  assert (Hent : ∀ t u, entry_at v' t u = if decide ((t, u) = (owner f, fupage f)) then Some e2 else entry_at v t u) by (intros; by apply evict_entry).
  assert (Hlike : procs_like v v') by (by apply evict_like).
  destruct (inv_unload v D a H x f p e w Hf Hp He v' a e2) as [HI HC].
  - exact Hc.
  - exact Hw.
  - reflexivity.
  - reflexivity.
  - exact Hh.
  - reflexivity.
  - reflexivity.
  - exact Hlike.
  - exact Hent.
  - split; [apply evict_upage|done].
  - apply Hdat.
  - exact Hsw.
  - intros f'. done.
  - intros t' q u e' Hne Hq He'. pose proof (da_type v D a Hdat t' q u e' Hq He') as Ht. split_and!.
    + apply (type_ok_kept v v' D D a a); [exact Ht|apply tables_kept_refl|apply moved_refl|intros id xs Hxs; by exists xs|].
      intros _ _ Hu. apply Hused. by left.
    + intros Hs. destruct (loaded e') eqn:Hl; [by left|right]. unfold type_ok in Ht. rewrite Hs in Ht. destruct Ht as (_ & _ & Ht).
      apply backing_moved; [apply moved_refl|reflexivity|]. intros _. apply Hkept. auto.
    + intros Hs. apply backing_moved; [apply moved_refl|reflexivity|]. intros E. by destruct (Hs E).
  - unfold type_ok. cbn [e2 unloaded ptype writable upage loaded swap_slot]. split; [done|]. split.
    + rewrite evict_upage. apply evict_table.
    + intros _. apply Hused. by right.
  - intros t' u e' Hne He'. split; [|done]. intros _ Hs _ Hl. cbn [e2 unloaded swap_slot]. intros ->. apply Hfree.
    destruct (entry_proc v t' u e' He') as [q Hq]. pose proof (da_type v D a Hdat t' q u e' Hq He') as Ht. unfold type_ok in Ht. rewrite Hs in Ht.
    destruct Ht as (_ & _ & Ht). auto.
  - unfold backing. cbn [e2 unloaded ptype swap_slot fmap option_fmap option_map]. unfold visible.
    rewrite decide_False by done. rewrite decide_False by done. f_equal. exact Hdata.
  - split; [exact HI|]. split.
    + exact HC.
    + reflexivity.
    + exact Hlike.
    + apply moved_refl.
    + apply (evict_fixed v' e2); [exact Hent|]. unfold fixed, mapping_of. cbn [e2 unloaded upage writable ptype]. by rewrite !decide_False.
    + intros id xs. by apply same_files.
Qed.

(** The page is written to the file that it maps. *)
Lemma evict_write s' a' fh xs :
  ptype e = PAGE_MMAP → ahandles a !! efile e = Some fh → astore a !! hid fh = Some xs →
  abstracts s' a' → moved a a' →
  astore a' = <[hid fh := splice (file_offset e) (peek (mem m) (fkpage f) (read_bytes e)) xs]> (astore a) →
  let v' := set_sys (put_entry gone (owner f) (unloaded (ptype e) (swap_slot e))) s' in
  vm_inv v' D a' ∧ carries v a v' a'.
Proof.
  intros Hty Hfh Hxs Hab M Est v'. set (e2 := unloaded (ptype e) (swap_slot e)). pose proof (vi_data v D a H) as Hdat.
  assert (Hent : ∀ t u, entry_at v' t u = if decide ((t, u) = (owner f, fupage f)) then Some e2 else entry_at v t u) by (intros; by apply evict_entry).
  assert (Hlike : procs_like v v') by (destruct (evict_like gone e2 eq_refl) as [L1 L2]; split; [exact L1|exact L2]).
  pose proof (da_type v D a Hdat _ p _ e Hp He) as Ht. pose proof Ht as Ht'. unfold type_ok in Ht'. rewrite Hty in Ht'.
  destruct Ht' as ((_ & Hof & Hr0 & Hz0 & Hsum) & Hwr & Hrg). destruct (Hrg fh xs Hfh Hxs) as [Hnd Hin].
  assert (Hb : Zlength (peek (mem m) (fkpage f) (read_bytes e)) = read_bytes e) by (by apply length_peek).
  assert (Hls : Zlength (splice (file_offset e) (peek (mem m) (fkpage f) (read_bytes e)) xs) = Zlength xs) by (rewrite length_splice; lia).
  pose proof (written_lengths a a' (hid fh) xs _ Hxs Hls Est) as Hlen.
  assert (Hoth : ∀ t q u e', (t, u) ≠ (owner f, fupage f) → procs v !! t = Some q → entry_at v t u = Some e' → backing v' a' e' = backing v a e').
  { intros t q u e' Hne Hq He'. pose proof (da_type v D a Hdat t q u e' Hq He') as Ht2.
    assert (Hap : apart a e e') by (apply (da_apart v D a Hdat _ _ e t u e' He He'); by apply not_eq_sym).
    unfold backing. unfold type_ok in Ht2. destruct (ptype e') eqn:Ety; [|reflexivity|done|].
    - apply (file_page_written v D a a' _ e e' fh xs _ Ht Hty Hfh Hxs Hb M Est); [by intros _; apply Ht2|by left|apply Ht2|done].
    - apply (file_page_written v D a a' _ e e' fh xs _ Ht Hty Hfh Hxs Hb M Est); [by rewrite Ety|by right|apply Ht2|done]. }
  destruct (inv_unload v D a H x f p e w Hf Hp He v' a' e2) as [HI HC].
  - exact Hc.
  - exact Hw.
  - reflexivity.
  - reflexivity.
  - exact Hh.
  - reflexivity.
  - reflexivity.
  - exact Hlike.
  - exact Hent.
  - split; [apply evict_upage|done].
  - exact Hab.
  - apply Hdat.
  - by apply moved_hids.
  - intros t q u e' Hne Hq He'. split; [|split; intros _; [right|]; by apply (Hoth t q u)].
    apply (type_ok_kept v v' D D a a'); [by apply (da_type v D a Hdat t q u)|apply tables_kept_refl|done|done|]. intros _ _ Hu. exact Hu.
  - apply (type_ok_kept v v' D D a a'); [|apply tables_kept_refl|done|done|by intros _ _ Hu].
    apply unloaded_type; [done|by rewrite Hty|done].
  - intros t u e' Hne He'. destruct (da_apart v D a Hdat _ _ e _ _ e' He He') as [_ A2]; [by apply not_eq_sym|].
    split; [by cbn [e2 unloaded ptype]; rewrite Hty|]. intros Hm1 Hm2. rewrite !(moved_hids a a' M). by apply A2.
  - unfold backing, visible, file_page. cbn [e2 unloaded ptype efile file_offset read_bytes zero_bytes]. rewrite Hty.
    destruct (moved_handle a a' _ fh M Hfh) as (h2 & -> & E2 & _). cbn [mbind option_bind]. rewrite E2, Est, lookup_insert_eq.
    cbn [mbind option_bind]. rewrite length_splice by lia. rewrite decide_True by (right; lia).
    cbn [fmap option_fmap option_map]. rewrite !decide_True by done. rewrite slice_splice_eq by lia. f_equal.
    rewrite take_app_le, take_ge by lia. rewrite <- evict_mem, peek_prefix by lia. done.
  - split; [exact HI|]. split.
    + exact HC.
    + reflexivity.
    + exact Hlike.
    + exact M.
    + apply (evict_fixed v' e2); [exact Hent|]. unfold fixed, mapping_of. cbn [e2 unloaded upage writable ptype efile file_offset read_bytes]. done.
    + intros id ys. apply (write_files v a a' _ _ e fh xs (peek (mem m) (fkpage f) (read_bytes e)) He Hty Hfh Hxs); [lia|exact Hb|lia|done].
Qed.

Lemma gone_procs : procs_ok gone D.
Proof.
  apply (procs_step v gone D D); [apply H| |done|apply Hc|apply tables_kept_refl]. split; [done|]. intros t q Hq.
  by apply (po_table v D (vi_procs v D a H) t q).
Qed.

(** Where the page goes. *)
Lemma evict_page_spec :
  let dirty := flag (pte_at v D (owner f) (fupage f)) PTE_D in
  (evict_page gone (owner f) (fupage f) (fkpage f) dirty = Panic ∧ swap_full v) ∨
  ∃ v' a', evict_page gone (owner f) (fupage f) (fkpage f) dirty = Ok v' ∧ vm_inv v' D a' ∧ carries v a v' a'
    ∧ mach v' = m ∧ frames v' = delete x (frames v) ∧ frame_table v' = filter (λ y, y ≠ x) (frame_table v)
    ∧ vsupply v' = vsupply v ∧ vcalls v' = vcalls v
    ∧ ∀ t u, (t, u) ≠ (owner f, fupage f) → entry_at v' t u = entry_at v t u.
Proof.
  intros dirty. pose proof (vi_data v D a H) as Hdat. unfold evict_page. rewrite (get_entry_at gone D); [|apply gone_procs|by exists p].
  rewrite user_page_round by (by apply (lo_entry v D (vi_links v D a H) (owner f) (fupage f) e)).
  change (entry_at gone (owner f) (fupage f)) with (entry_at v (owner f) (fupage f)). rewrite He. cbn [mbind res_bind].
  fold (unloaded (ptype e) (swap_slot e)). set (v1 := put_entry gone (owner f) (unloaded (ptype e) (swap_slot e))).
  pose proof (da_type v D a Hdat _ p _ e Hp He) as Ht. destruct (da_clean v D a Hdat _ _ e He (proj1 evict_loaded)) as [Hdw _]. rewrite evict_upage in Hdw.
  assert (Hother : ∀ e' t u, upage e' = upage e → (t, u) ≠ (owner f, fupage f) → ∀ v0, procs v0 = procs v →
    entry_at (put_entry v0 (owner f) e') t u = entry_at v t u) by (intros e' t u Eu Hne v0 E; by rewrite evict_entry, decide_False).
  destruct (decide (ptype e = PAGE_MMAP)) as [Hty|Hty]; [rewrite bool_decide_eq_true_2 by done|rewrite bool_decide_eq_false_2 by done]; cbn [negb andb].
  - destruct dirty eqn:Hd; cbn [andb].
    + right. unfold type_ok in Ht. rewrite Hty in Ht. destruct Ht as (([fh Hfh] & Hof & Hr0 & Hz0 & Hsum) & _ & Hrg).
      destruct (abstracts_store _ _ _ _ (da_sys v D a Hdat) Hfh) as [xs Hxs]. destruct (Hrg fh xs Hfh Hxs) as [Hnd Hin].
      destruct (write_file_spec (sys v) a (efile e) fh xs (file_offset e) (peek (mem m) (fkpage f) (read_bytes e)) (read_bytes e)) as
        (s1 & s2 & a' & E1 & E2 & Hab & M & Est); try done; [apply Hdat|unfold PGSIZE in Hsum; lia|by apply length_peek|].
      change (sys v1) with (sys v). rewrite E1. cbn [mbind res_bind]. change (vmem v1) with (mem m). rewrite s32_small by (unfold PGSIZE in Hsum; lia).
      rewrite E2. cbn [mbind res_bind]. exists (set_sys v1 s2), a'. split; [done|].
      destruct (evict_write s2 a' fh xs Hty Hfh Hxs Hab M Est) as [HI HC]. split; [exact HI|]. split; [exact HC|]. do 5 (split; [reflexivity|]).
      intros t u Hne. by apply (Hother (unloaded (ptype e) (swap_slot e))).
    + right. exists v1, a. split; [done|]. destruct evict_drop as [HI HC]; [done|by left|]. split; [exact HI|]. split; [exact HC|].
      do 5 (split; [reflexivity|]). intros t u Hne. by apply Hother.
  - destruct (dirty || writable e) eqn:Hdwr.
    + assert (Hwr : writable e = true) by (apply orb_true_iff in Hdwr as [Hd|]; auto).
      destruct (swap_out_spec v1 (fkpage f)) as [[E Hfull]|(slot & b & s & E & Hsw & Hfree & Hdata & Hused & Hkept)]; [apply Hdat|by left; rewrite E|].
      right. rewrite E. cbn [mbind res_bind]. exists (put_entry (set_swap gone (Some b) (Some s)) (owner f) (unloaded PAGE_SWAP slot)), a.
      split; [f_equal; by apply put_put|]. destruct (evict_swap slot b s) as [HI HC]; try assumption.
      { rewrite <- evict_mem. exact Hdata. }
      split; [exact HI|]. split; [exact HC|]. do 5 (split; [reflexivity|]). intros t u Hne. by apply Hother.
    + apply orb_false_iff in Hdwr as [Hd Hwr]. right. exists v1, a. split; [done|]. destruct evict_drop as [HI HC]; [done|by right|].
      split; [exact HI|]. split; [exact HC|]. do 5 (split; [reflexivity|]). intros t u Hne. by apply Hother.
Qed.

End evict.

(** Steps that keep the pages where they are. *)
Lemma kept_carries v D a v' D' a' :
  vm_inv v D a → same_pages v v' → mach_kept v D (mach v') D' → hand_ok v' →
  abstracts (sys v') a' → moved a a' → astore a' = astore a → vm_inv v' D' a' ∧ carries v a v' a'.
Proof.
  intros H Hp Hm Hh Hs M E. destruct (inv_kept v D a v' D' a' H Hp Hm Hh Hs M E) as [HI HC]. split; [done|].
  split; [done|apply Hp| |done| |].
  - split; rewrite (sp_procs v v' Hp); [done|]. intros t p. by apply (po_table v D (vi_procs v D a H) t p).
  - intros t u. by rewrite (kept_entry v v' Hp).
  - intros id xs. by apply same_files.
Qed.

Lemma aged_kept v D a v' : vm_inv v D a → aged D v v' → hand_ok v' → vm_inv v' D a ∧ carries v a v' a.
Proof.
  intros H A Hh. destruct A as [(m & h & E) A1 A2 A3 A4 [A5 A6] A7].
  assert (Em : mach v' = m) by (by rewrite E).
  apply (kept_carries v D a v' D a); [done|by rewrite E| |done|rewrite E; apply H|apply moved_refl|done]. split.
  - apply A1, H.
  - apply A2; apply H.
  - apply tables_kept_refl.
  - done.
  - intros pd u _ Hu. destruct (A7 pd u Hu) as (S1 & S2 & S3 & S4 & _). done.
  - intros x f Hf. destruct (lo_spare v D (vi_links v D a H) x f Hf) as (S1 & S2 & _). rewrite A3. split; [done|]. split; [done|].
    intros y Hy. apply A4. rewrite (page_of_in (fkpage f)); [done|by apply (used_kpage (pal (mach v))), S1; apply (vi_dirs v D a H)|done].
Qed.

Lemma inv_scan v D a : vm_inv v D a → can_scan D v.
Proof.
  intros H. split; [apply H|]. split; [apply H|]. split; [apply (vi_frames v D a H)|]. intros x Hx.
  apply (fo_dom v (vi_frames v D a H)) in Hx as [f Hf]. destruct (lo_frame v D (vi_links v D a H) x f Hf) as (e & He & _).
  destruct (entry_proc v _ _ e He) as [p Hp]. exists f, p. split; [done|]. split; [done|].
  split; [by apply (po_table v D (vi_procs v D a H) (owner f) p)|]. by apply (lo_entry v D (vi_links v D a H) (owner f) (fupage f) e).
Qed.

Lemma start_hand_spec v D a : vm_inv v D a → frame_table v ≠ [] →
  aged D v (start_hand v) ∧ ∃ l1 l2, frame_table v = l1 ++ l2 ∧ l2 ≠ [] ∧ clock_hand (start_hand v) = hd 0 l2
    ∧ clock_hand (start_hand v) ∈ frame_table v.
Proof.
  intros H Hne. unfold start_hand. destruct (Z.eqb_spec (clock_hand v) 0) as [E|E].
  - split; [apply aged_hand|]. exists [], (frame_table v). simpl. destruct (frame_table v); [done|]. split; [done|]. split; [done|]. split; [done|by left].
  - split; [apply aged_refl|]. destruct (vi_hand v D a H) as [?|Hin]; [done|]. pose proof Hin as (l1 & l2 & Es)%list_elem_of_split.
    exists l1, (clock_hand v :: l2). done.
Qed.

(** A page that the page allocator has given out and nobody uses. *)
Definition free_frame (v : vm) (D : dirs) (k : Z) : Prop :=
  spare v D k ∧ ∀ x f, frames v !! x = Some f → fkpage f ≠ k.

Lemma length_filter_one (x : Z) (l : list Z) : NoDup l → Zlength l ≤ Zlength (filter (λ y, y ≠ x) l) + 1.
Proof.
  intros Hn. induction Hn as [|y l Hy Hn IH]; [simpl; lia|]. destruct (decide (y = x)) as [->|Hne].
  - rewrite filter_cons_False by (by intros ?). rewrite filter_Forall; [simpl; lia|]. apply Forall_forall. by intros z Hz ->.
  - rewrite filter_cons_True by done. simpl. lia.
Qed.

Lemma evict_victim_spec v D a x :
  vm_inv v D a → 2 ≤ Zlength (frame_table v) → x ∈ frame_table v →
  (evict_victim v x = Panic ∧ swap_full v) ∨
  ∃ k v' a', evict_victim v x = Ok (k, v') ∧ vm_inv v' D a' ∧ carries v a v' a' ∧ free_frame v' D k
    ∧ vsupply v' = vsupply v ∧ vcalls v' = vcalls v ∧ Zlength (frame_table v) ≤ Zlength (frame_table v') + 1
    ∧ ∀ t u e, entry_at v t u = Some e → loaded e = false → entry_at v' t u = Some e.
Proof.
  intros H Hlen Hx. pose proof Hx as [f Hf]%(fo_dom v (vi_frames v D a H)). unfold evict_victim. rewrite Hf. cbn [from_opt mbind res_bind].
  destruct (lo_frame v D (vi_links v D a H) x f Hf) as (e & He & Hl & Hk). destruct (entry_proc v _ _ e He) as [p Hp].
  destruct (po_table v D (vi_procs v D a H) _ p Hp) as [_ [ts Hts]]. destruct (lo_entry v D (vi_links v D a H) _ _ e He) as [_ [Hu1 Hu2]].
  unfold get_proc. rewrite Hp. cbn [from_opt mbind res_bind]. pose proof (vi_dirs v D a H) as HD. pose proof (vi_tlb v D a H) as HT.
  rewrite (pagedir_is_dirty_spec (mach v) D (pagedir p) ts HD Hts) by done. cbn [mbind res_bind].
  destruct (pagedir_clear_page_spec (mach v) D (pagedir p) ts HD HT Hts (fupage f) Hu1 Hu2) as (m & w & Em & Hc & Hw & _). rewrite Em. cbn [mbind res_bind].
  destruct (next_frame_other v x (fo_nodup v (vi_frames v D a H)) Hx Hlen) as (h & Eh & Hh).
  change (next_frame (set_mach v m) x) with (next_frame v x). rewrite Eh. cbn [mbind res_bind]. fold (gone v x m h).
  pose proof (evict_page_spec v D a H x f p e m w h Hf Hp He Hc Hw Hh) as Hev. cbv zeta in Hev. unfold pte_at, pte_of in Hev. rewrite Hp, Hts in Hev.
  destruct Hev as [[E Hfull]|(v' & a' & E & HI & HC & Em' & Efr & Etab & Es1 & Es2 & Hoth)]; rewrite E; cbn [mbind res_bind]; [by left|right].
  exists (fkpage f), v', a'. split; [done|]. split; [done|]. split; [done|]. split; [|split; [done|split; [done|split]]].
  - destruct (lo_spare v D (vi_links v D a H) x f Hf) as (S1 & S2 & S3). split; [split; [|split]|].
    + rewrite Em'. by apply (pte_changed_used (mach v) m D (pagedir p) (fupage f) w).
    + done.
    + rewrite Em'. by destruct (pc_cpu _ _ _ _ _ _ Hc) as (_ & -> & _).
    + intros y g. rewrite Efr, lookup_delete_Some. intros [Hne Hg] E'. apply Hne. by apply (fo_uniq v (vi_frames v D a H) x y f g).
  - rewrite Etab. by apply length_filter_one, (fo_nodup v (vi_frames v D a H)).
  - intros t u e' He' Hl'. rewrite Hoth; [done|]. intros [= -> ->]. congruence.
Qed.

Lemma evict_frame_spec v D a :
  vm_inv v D a → 2 ≤ Zlength (frame_table v) →
  (∃ v', evict_frame v = Ok (0, v') ∧ ∀ x, x ∈ frame_table v → ¬ unpinned v x) ∨
  (evict_frame v = Panic ∧ swap_full v) ∨
  ∃ k v' a', evict_frame v = Ok (k, v') ∧ vm_inv v' D a' ∧ carries v a v' a' ∧ free_frame v' D k
    ∧ vsupply v' = vsupply v ∧ vcalls v' = vcalls v ∧ Zlength (frame_table v) ≤ Zlength (frame_table v') + 1
    ∧ ∀ t u e, entry_at v t u = Some e → loaded e = false → entry_at v' t u = Some e.
Proof.
  intros H Hlen. assert (Hne : frame_table v ≠ []) by (intros E; rewrite E in Hlen; simpl in Hlen; lia).
  unfold evict_frame. rewrite bool_decide_eq_false_2 by done. destruct (start_hand_spec v D a H Hne) as (A0 & l1 & l2 & Et & Hl2 & Eh & Hin).
  set (v0 := start_hand v) in *. assert (Et0 : frame_table v0 = frame_table v) by (unfold v0, start_hand; by destruct (_ =? 0)).
  destruct (aged_kept v D a v0 H A0) as [H0 C0]; [right; by rewrite Et0|].
  rewrite Et0, u32_small by (pose proof (frames_bound v D a H); lia).
  replace (Z.to_nat (Zlength (frame_table v) * 2)) with (2 * length (frame_table v0))%nat by (rewrite Et0; lia).
  destruct (clock_finds D v0 l1 l2 (inv_scan v0 D a H0)) as [(x & v1 & E1 & A1 & Eh1 & Hx & Hu)|(v1 & E1 & _ & _ & Hnone)].
  { by rewrite Et0. } { done. } { done. }
  2: { left. exists v1. rewrite E1. split; [done|]. intros x Hx Hu. apply (Hnone x); [by rewrite Et0|]. by apply (aged_unpinned D v v0). }
  right. rewrite E1. cbn [mbind res_bind]. pose proof A1 as [(m1 & h1 & Ev1) _ _ _ _ _ _].
  assert (Et1 : frame_table v1 = frame_table v0) by (by rewrite Ev1).
  destruct (aged_kept v0 D a v1 H0 A1) as [H1 C1]; [right; by rewrite Eh1, Et1|].
  pose proof (carries_trans v a v0 a v1 a C0 C1) as C. rewrite Et0 in Et1, Hx.
  destruct (evict_victim_spec v1 D a x H1) as [[E Hfull]|(k & v' & a' & E & HI & HC & Hk & Es1 & Es2 & Hlen' & Hun)]; [by rewrite Et1|by rewrite Et1|..]; rewrite E.
  - left. split; [done|]. destruct Hfull as (s & Hs & Hall). exists s. split; [|done]. rewrite <- Hs, Ev1. unfold v0, start_hand. by destruct (_ =? 0).
  - right. exists k, v', a'. split; [done|]. split; [done|]. split; [by apply (carries_trans v a v1 a)|]. split; [done|].
    assert (Esame : vsupply v1 = vsupply v ∧ vcalls v1 = vcalls v ∧ procs v1 = procs v) by (rewrite Ev1; unfold v0, start_hand; by destruct (_ =? 0)).
    destruct Esame as (Esu & Eca & Epr). split; [congruence|]. split; [congruence|]. split; [by rewrite <- Et1|]. intros t u e He. apply Hun. unfold entry_at. by rewrite Epr.
Qed.

End VmData.
