(* ===== verification/VmLoad.v ===== *)
(** * Loading pages

    [frame_alloc] and [spt_load_page]: a page that is not in memory is given a frame,
    which may mean to evict another page, and is filled from where its contents are. *)

From S2P Require Import Prelude Bitmap Vaddr Palloc Disk Inode Directory FsInv FileInv DirInv Filesys FsSpec Pagedir Vm VmInv VmData.

Module VmLoad.
Import Bitmap Palloc Disk Inode FsSpec Pagedir Vm VmInv VmData.

(** ** Pages that are not in use *)

Definition busy (v : vm) (D : dirs) (k : Z) : Prop :=
  owned D k ∨ k = init_page_dir (mach v) ∨ ∃ x f, frames v !! x = Some f ∧ fkpage f = k.

Lemma dirs_pages m m' D :
  dirs_ok m D → inv (pal m') → (∀ user, pool_end (get_pool (pal m') user) = pool_end (get_pool (pal m) user)) →
  init_page_dir m' = init_page_dir m → init_ram_pages m' = init_ram_pages m →
  (∀ k, owned D k ∨ k = init_page_dir m → used (pal m') k) →
  (∀ x, owned D (page_of x) ∨ page_of x = init_page_dir m → mem m' x = mem m x) →
  dirs_ok m' D ∧ pte_same m D m' D.
Proof.
  intros HD Hi Hend E1 E2 Hu Hm. pose proof HD as [[M1 M2 M3 M4] Hp Hs Hd].
  assert (Ho : ∀ pd ts k, D !! pd = Some ts → own pd ts k → owned D k) by (intros pd ts k Hpd Hk; by exists pd, ts).
  split; [split; [split| | |]|].
  - done.
  - intros user. rewrite Hend, E2. apply M2.
  - rewrite E1. apply Hu. by right.
  - intros i Hi'. rewrite E1, (load32_ext (mem m)); [by apply M4|]. intros x Hx. apply Hm. right.
    apply page_of_in; [by apply (used_kpage (pal m))|unfold PGSIZE; lia].
  - intros pd ts Hpd. apply (pd_ok_ext m); [apply HD|by apply Hp| |].
    + intros x Hx. apply Hm. left. by apply (Ho pd ts).
    + intros k Hk. apply Hu. left. by apply (Ho pd ts).
  - done.
  - by rewrite E1.
  - intros pd u Hur. unfold pte_of. destruct (D !! pd) as [ts|] eqn:Hpd; [|done].
    apply (pte_ext m m' pd ts); [apply HD|by apply Hp|done|]. intros x Hx. apply Hm. left. by apply (Ho pd ts).
Qed.

Lemma pal_kept v D a m' :
  vm_inv v D a → inv (pal m') → (∀ user, pool_end (get_pool (pal m') user) = pool_end (get_pool (pal (mach v)) user)) →
  init_page_dir m' = init_page_dir (mach v) ∧ init_ram_pages m' = init_ram_pages (mach v) ∧ cr3 m' = cr3 (mach v) ∧ tlb m' = tlb (mach v) →
  (∀ k, busy v D k → used (pal m') k) → (∀ x, busy v D (page_of x) → mem m' x = vmem v x) →
  mach_kept v D m' D.
Proof.
  intros H Hi Hend (E1 & E2 & E3 & E4) Hu Hm. destruct (dirs_pages (mach v) m' D) as [HD Hs]; try done; [apply H|..].
  { intros k Hk. apply Hu. unfold busy. tauto. } { intros x Hx. apply Hm. unfold busy. tauto. }
  split; [done| |apply tables_kept_refl|done| |].
  - apply (tlb_ok_same (mach v) D); [apply H|done|done|done|done].
  - intros pd u _ Hur. by rewrite (Hs pd u Hur).
  - intros x f Hf. destruct (lo_spare v D (vi_links v D a H) x f Hf) as (S1 & S2 & _).
    assert (Hb : busy v D (fkpage f)) by (right; right; by exists x, f). split; [by apply Hu|]. split; [done|].
    intros y Hy. apply Hm. rewrite (page_of_in (fkpage f)); [done|by apply (used_kpage (pal (mach v))), S1; apply (vi_dirs v D a H)|done].
Qed.

Lemma free_frame_busy v D k : free_frame v D k → ¬ busy v D k.
Proof. intros [(S1 & S2 & S3) Hf] [Ho|[->|(x & f & Hx & E)]]; [done..|]. by apply (Hf x f). Qed.
Lemma busy_used v D a k : vm_inv v D a → busy v D k → used (pal (mach v)) k.
Proof.
  intros H [(pd & ts & Hpd & Ho)|[->|(x & f & Hf & <-)]].
  - by apply (pd_used (mach v) pd ts (di_pd _ _ (vi_dirs v D a H) pd ts Hpd)).
  - apply (vi_dirs v D a H).
  - apply (lo_spare v D (vi_links v D a H) x f Hf).
Qed.

(** Changes of state that leave the pages where they are. *)
Lemma set_mach_carries v D a m' :
  vm_inv v D a → mach_kept v D m' D → vm_inv (set_mach v m') D a ∧ carries v a (set_mach v m') a.
Proof.
  intros H Hm. apply (kept_carries v D a (set_mach v m') D a); [done|done|done|apply H|apply H|apply moved_refl|done].
Qed.

(** A new page from the allocator. *)
Lemma take_page v D a k s :
  vm_inv v D a → inv s → ¬ used (pal (mach v)) k → (∀ x, used s x ↔ used (pal (mach v)) x ∨ x = k) →
  (∀ x, page_of x ≠ k → ram s x = vmem v x) →
  (∀ user, pool_end (get_pool s user) = pool_end (get_pool (pal (mach v)) user)) →
  let v' := set_mach v (set_pal (mach v) s) in
  vm_inv v' D a ∧ carries v a v' a ∧ free_frame v' D k.
Proof.
  intros H Hi Hn Hu Hr Hend v'. pose proof (λ x, busy_used v D a x H) as Hb.
  destruct (set_mach_carries v D a (set_pal (mach v) s)) as [HI HC]; [done| |].
  - apply (pal_kept v D a); [done|done|done|done| |].
    + intros x Hx. apply Hu. left. by apply Hb.
    + intros x Hx. apply Hr. intros E. apply Hn, Hb. by rewrite <- E.
  - split; [done|]. split; [done|]. split; [split; [|split]|].
    + apply Hu. by right.
    + intros Ho. apply Hn, Hb. by left.
    + intros E. apply Hn, Hb. right. by left.
    + intros x f Hf E. apply Hn, Hb. right. right. by exists x, f.
Qed.

(** Giving back a page that is not in use. *)
Lemma give_page v D a k :
  vm_inv v D a → free_frame v D k →
  ∃ s, palloc_free_page (pal (mach v)) k = Ok s ∧ let v' := set_mach v (set_pal (mach v) s) in vm_inv v' D a ∧ carries v a v' a.
Proof.
  intros H Hk. pose proof (free_frame_busy v D k Hk) as Hnb. destruct Hk as [(S1 & _ & _) _].
  assert (Hi : inv (pal (mach v))) by apply (vi_dirs v D a H).
  destruct (freed_one (mach v) k Hi S1) as (s & E & [F1 F2 F3 F4 F5]). exists s. split; [done|].
  apply set_mach_carries; [done|]. apply (pal_kept v D a); [done|done|done|done| |].
  - intros x Hx. apply F2. split; [by apply (busy_used v D a)|]. rewrite list_elem_of_singleton. by intros ->.
  - intros x Hx. apply F3. rewrite list_elem_of_singleton. by intros E'; rewrite E' in Hx.
Qed.

(** Counting calls of [malloc]. *)
Lemma kmalloc_carries v D a : vm_inv v D a → vm_inv (kmalloc v).2 D a ∧ carries v a (kmalloc v).2 a.
Proof.
  intros H. apply (kept_carries v D a (kmalloc v).2 D a); [done| | |apply H|apply H|apply moved_refl|done].
  - split; try done. simpl. lia.
  - apply (pal_kept v D a); try done; [apply (vi_dirs v D a H)|]. intros k. by apply (busy_used v D a).
Qed.

(** ** [frame_alloc] *)

(** There is a free page, or another frame to turn to after eviction. *)
Definition room (v : vm) : Prop :=
  2 ≤ Zlength (frame_table v) ∨ ∃ k s, palloc_get_page (pal (mach v)) PAL_USER = Ok (k, s) ∧ k ≠ 0.
Definition all_pinned (v : vm) : Prop := ∀ x, x ∈ frame_table v → ¬ unpinned v x.

(** The frame table with a new frame; its address was just returned by [malloc]. *)
Definition push (v : vm) (k u : Z) : vm :=
  let x := 16 * Z.of_nat (vcalls v) in
  set_frames v (<[x := FrameEntry k u (cur v) false]> (frames v)) (frame_table v ++ [x]) (clock_hand v).

Definition still_unloaded (v v' : vm) : Prop :=
  ∀ t u e, entry_at v t u = Some e → loaded e = false → entry_at v' t u = Some e.

(** The callers ask for a page of the user pool, some of them for zeros. *)
Definition user_flags (flags : Z) : Prop := flags = PAL_USER ∨ flags = Z.lor PAL_USER PAL_ZERO.
Lemma get_page_flags s flags k s' :
  user_flags flags → palloc_get_page s PAL_USER = Ok (k, s') → k ≠ 0 → palloc_get_page s flags ≠ Ok (0, s).
Proof.
  intros [->| ->] E Hk; [congruence|]. unfold palloc_get_page, palloc_get_multiple in *. change (1 =? 0) with false in *. cbv iota in *.
  change (flag (Z.lor PAL_USER PAL_ZERO) PAL_USER) with true. change (flag PAL_USER PAL_USER) with true in E.
  change (flag (Z.lor PAL_USER PAL_ZERO) PAL_ZERO) with true. change (flag (Z.lor PAL_USER PAL_ZERO) PAL_ASSERT) with false.
  change (flag PAL_USER PAL_ZERO) with false in E. change (flag PAL_USER PAL_ASSERT) with false in E.
  destruct (bitmap_scan_and_flip _ _ _ _) as [[idx b]| |]; [|done..]. cbn [mbind res_bind] in E |- *.
  set (pages := if negb (idx =? BITMAP_ERROR) then _ else _) in *. destruct (Z.eqb_spec pages 0); cbn [negb] in *; congruence.
Qed.

Lemma peek_fill r k c n : 0 ≤ n → peek (fill r k c n) k n = replicate (Z.to_nat n) c.
Proof.
  intros Hn. apply list_eq. intros i. destruct (decide (Z.of_nat i < n)).
  - rewrite lookup_peek, lookup_replicate_2 by lia. unfold fill. by rewrite (proj2 (Z.leb_le _ _)), (proj2 (Z.ltb_lt _ _)) by lia.
  - rewrite !lookup_ge_None_2; [done|rewrite length_replicate; lia|]. pose proof (length_peek (fill r k c n) k n). lia.
Qed.

Lemma page_outside k x : k mod PGSIZE = 0 → page_of x ≠ k → x < k ∨ k + PGSIZE ≤ x.
Proof. intros Hk Hx. destruct (decide (k ≤ x < k + PGSIZE)) as [Hin|]; [|lia]. destruct Hx. by apply page_of_in. Qed.

(** Writing to a page that is not in use. *)
Lemma write_free v D a k r :
  vm_inv v D a → free_frame v D k → (∀ x, page_of x ≠ k → r x = vmem v x) →
  vm_inv (set_vmem v r) D a ∧ carries v a (set_vmem v r) a ∧ free_frame (set_vmem v r) D k.
Proof.
  intros H Hk Hr. pose proof (free_frame_busy v D k Hk) as Hnb.
  destruct (set_mach_carries v D a (set_mem (mach v) r) H) as [HI HC]; [|done].
  apply (pal_kept v D a); [done|apply (vi_dirs v D a H)|done|done| |].
  - intros x. apply (busy_used v D a x H).
  - intros x Hx. apply Hr. intros E. by rewrite E in Hx.
Qed.

(** The page for the new frame. *)
Lemma alloc_page v D a flags :
  vm_inv v D a → room v → user_flags flags →
  let r := ('(k, s) ← palloc_get_page (pal (mach v)) flags;
            let v := set_mach v (set_pal (mach v) s) in
            if k =? 0 then
              '(k, v) ← evict_frame v;
              if k =? 0 then Panic else
              if flag flags PAL_ZERO then Ok (k, set_vmem v (fill (vmem v) k 0 PGSIZE)) else Ok (k, v)
            else Ok (k, v)) in
  (r = Panic ∧ (swap_full v ∨ all_pinned v)) ∨
  ∃ k v' a', r = Ok (k, v') ∧ k ≠ 0 ∧ vm_inv v' D a' ∧ carries v a v' a' ∧ free_frame v' D k ∧ still_unloaded v v'
    ∧ vsupply v' = vsupply v ∧ vcalls v' = vcalls v ∧ Zlength (frame_table v) ≤ Zlength (frame_table v') + 1
    ∧ (flag flags PAL_ZERO = true → peek (vmem v') k PGSIZE = replicate (Z.to_nat PGSIZE) 0).
Proof.
  intros H Hroom Hfl r. unfold r. assert (Hi : inv (pal (mach v))) by apply (vi_dirs v D a H).
  assert (Hkp : ∀ v' k, dirs_ok (mach v') D → free_frame v' D k → kpage_ok k).
  { intros v' k Hd [(S & _) _]. exact (used_kpage (pal (mach v')) k (mm_inv _ (di_mmu _ _ Hd)) S). }
  assert (Hnz : ∀ k, kpage_ok k → k ≠ 0) by (intros k (_ & ? & _); unfold PHYS_BASE in *; lia).
  destruct (get_page_spec (pal (mach v)) flags Hi) as [E|(k & s & E & H1 & H2 & H3 & H4 & H5)]; [by destruct Hfl as [->| ->]| |];
    rewrite E; cbn [mbind res_bind].
  - rewrite Z.eqb_refl. replace (set_mach v (set_pal (mach v) (pal (mach v)))) with v by (by destruct v as [[] ? ? ? ? ? ? ? ? ? ? ?]).
    destruct Hroom as [Hl|(k & s & E' & Hk)]; [|by destruct (get_page_flags _ flags k s Hfl E' Hk)].
    destruct (evict_frame_spec v D a H Hl) as [(v' & E' & Hp)|[[E' Hf]|(k & v' & a' & E' & HI & HC & Hk & Es1 & Es2 & Hlen & Hun)]]; rewrite E'; cbn [mbind res_bind].
    + left. rewrite Z.eqb_refl. split; [done|]. by right.
    + left. split; [done|]. by left.
    + right. pose proof (Hkp v' k (vi_dirs v' D a' HI) Hk) as Hk0. rewrite (proj2 (Z.eqb_neq k 0)) by (by apply Hnz).
      destruct (flag flags PAL_ZERO).
      * destruct (write_free v' D a' k (fill (vmem v') k 0 PGSIZE) HI Hk) as (HI' & HC' & Hk').
        { intros x Hx. apply fill_out. by apply page_outside; [apply Hk0|]. }
        exists k, (set_vmem v' (fill (vmem v') k 0 PGSIZE)), a'. split; [done|]. split; [by apply Hnz|]. split; [exact HI'|].
        split; [by apply (carries_trans v a v' a')|]. split; [exact Hk'|]. split; [exact Hun|]. do 3 (split; [done|]). intros _. by apply peek_fill.
      * exists k, v', a'. split; [done|]. split; [by apply Hnz|]. done.
  - right. destruct (take_page v D a k s H H1 H2 H3) as (HI & HC & Hk); [|done|].
    { intros x Hx. rewrite H4. destruct (flag flags PAL_ZERO); [|done]. apply fill_out. apply page_outside; [|done].
      apply (used_kpage s k H1). apply H3. by right. }
    pose proof (Hkp _ k (vi_dirs _ D a HI) Hk) as Hk0. rewrite (proj2 (Z.eqb_neq k 0)) by (by apply Hnz).
    exists k, (set_mach v (set_pal (mach v) s)), a. split; [done|]. split; [by apply Hnz|]. do 3 (split; [done|]).
    split; [by intros t u e He _|]. split; [done|]. split; [done|]. split; [simpl; lia|].
    intros Hz. rewrite Hz in H4. change (vmem (set_mach v (set_pal (mach v) s))) with (ram s). rewrite H4. by apply peek_fill.
Qed.

Lemma frame_alloc_spec v D a flags u :
  vm_inv v D a → room v → user_flags flags →
  (frame_alloc v flags u = Panic ∧ (swap_full v ∨ all_pinned v)) ∨
  (∃ v' a', frame_alloc v flags u = Ok (0, v') ∧ vm_inv v' D a' ∧ carries v a v' a' ∧ still_unloaded v v'
     ∧ vsupply v (vcalls v) = false ∧ Zlength (frame_table v) ≤ Zlength (frame_table v') + 1) ∨
  ∃ k v' a', frame_alloc v flags u = Ok (k, push v' k u) ∧ k ≠ 0 ∧ vm_inv v' D a' ∧ carries v a v' a' ∧ still_unloaded v v'
    ∧ free_frame v' D k ∧ (0 < vcalls v')%nat ∧ (∀ x, x ∈ frame_table v' → x < 16 * Z.of_nat (vcalls v'))
    ∧ Zlength (frame_table v) ≤ Zlength (frame_table v') + 1
    ∧ (flag flags PAL_ZERO = true → peek (vmem v') k PGSIZE = replicate (Z.to_nat PGSIZE) 0).
Proof.
  intros H Hroom Hfl. assert (Hus : flag flags PAL_USER = true) by (by destruct Hfl as [->| ->]).
  destruct (alloc_page v D a flags H Hroom Hfl) as [[E Hp]|(k & v1 & a1 & E & Hk0 & H1 & C1 & Hk & Hun & Es & Ec & Hlen & Hz)].
  all: unfold frame_alloc; cbn [mbind res_bind] in E |- *; rewrite Hus; cbn [mbind res_bind];
    destruct (palloc_get_page (pal (mach v)) flags) as [[k0 s0]| |] eqn:E0; cbn [mbind res_bind] in E |- *; try discriminate E.
  - left. by rewrite E.
  - by left.
  - right. rewrite E. cbn [mbind res_bind]. unfold kmalloc. destruct (kmalloc_carries v1 D a1 H1) as [H2 C2].
    assert (Hk2 : free_frame (kmalloc v1).2 D k) by exact Hk.
    pose proof (carries_trans v a v1 a1 _ a1 C1 C2) as C. assert (Hun2 : still_unloaded v (kmalloc v1).2) by exact Hun.
    unfold kmalloc in *. cbn [snd] in *. set (v2 := VM _ _ _ _ _ _ _ _ _ _ _ _) in *. destruct (vsupply v1 (vcalls v1)) eqn:Esup.
    + right. rewrite (proj2 (Z.eqb_neq _ 0)) by lia. exists k, v2, a1. split.
      { unfold push. change (vcalls v2) with (S (vcalls v1)). replace (16 * Z.of_nat (S (vcalls v1))) with (16 * (Z.of_nat (vcalls v1) + 1)) by lia. done. }
      do 5 (split; [done|]). split; [simpl; lia|]. split; [|split; [done|exact Hz]].
      intros x Hx. pose proof (fo_addr v1 (vi_frames v1 D a1 H1) x Hx). change (vcalls v2) with (S (vcalls v1)). lia.
    + left. rewrite Z.eqb_refl. destruct (give_page v2 D a1 k H2 Hk2) as (s & Es' & H3 & C3). change (pal (mach v2)) with (pal (mach v1)) in *.
      rewrite Es'. cbn [mbind res_bind]. exists (set_mach v2 (set_pal (mach v2) s)), a1. split; [done|]. split; [done|].
      split; [by apply (carries_trans v a v2 a1)|]. split; [exact Hun|]. split; [by rewrite <- Es, <- Ec|done].
Qed.

(** ** Filling a frame *)

(** The bytes of a file, and zeros after them. *)
Lemma peek_file r r' k buf n m :
  Zlength buf = n → 0 ≤ m → (∀ x, k ≤ x < k + n → r x = blit r' k buf x) →
  peek (fill r (k + n) 0 m) k (n + m) = buf ++ replicate (Z.to_nat m) 0.
Proof.
  intros Hb Hm Hr. rewrite <- peek_app by lia. rewrite peek_fill by lia. f_equal. rewrite <- (peek_blit r' k buf n) by done.
  apply peek_ext. intros x Hx. rewrite fill_out by lia. by apply Hr.
Qed.

(** What filling the frame [k] for the entry [e] does; [ok] when there is enough to
    read. *)
Record filled (v : vm) (a : afs) (e : spt_entry) (k : Z) (ok : bool) (s' : fs) (b : option block) (t : option bitmap)
    (r : Z → Z) (a' : afs) : Prop := {
  fi_sys : abstracts s' a';
  fi_moved : moved a a';
  fi_store : astore a' = astore a;
  fi_mem x : page_of x ≠ k → r x = vmem v x;
  fi_swap : swap_ok (set_swap v b t);
  fi_data s : slot_data (set_swap v b t) s = slot_data v s;
  fi_used s : slot_used (set_swap v b t) s ↔ slot_used v s ∧ ¬ (ptype e = PAGE_SWAP ∧ s = swap_slot e);
  fi_other : ptype e ≠ PAGE_SWAP → b = swap_block v ∧ t = swap_table v;
  fi_ok : backing v a e = if ok then Some (peek r k PGSIZE) else None
}.

Lemma set_swap_same v : set_swap v (swap_block v) (swap_table v) = v.
Proof. by destruct v. Qed.
(** Without the swap device. *)
Lemma filled_other v D a e k (ok : bool) s' r a' :
  data_ok v D a → ptype e ≠ PAGE_SWAP → abstracts s' a' → moved a a' → astore a' = astore a →
  (∀ x, page_of x ≠ k → r x = vmem v x) → (backing v a e = if ok then Some (peek r k PGSIZE) else None) →
  filled v a e k ok s' (swap_block v) (swap_table v) r a'.
Proof.
  intros Hd Hty Hs M E Hm Hb. split; rewrite ?set_swap_same; try done; [apply Hd|]. intros s. tauto.
Qed.

Lemma load_file_spec v D a e k u :
  vm_inv v D a → file_ok a e → ptype e = PAGE_FILE ∨ ptype e = PAGE_MMAP → k mod PGSIZE = 0 →
  ∃ ok s' r a', load_contents (push v k u) e k = Ok (ok, set_vmem (set_sys (push v k u) s') r)
    ∧ filled v a e k ok s' (swap_block v) (swap_table v) r a'.
Proof.
  intros H ([h Hh] & Hof & Hrb & Hzb & Hsum) Hty Hk. pose proof (vi_data v D a H) as Hd. pose proof (page_outside k) as Hout.
  destruct (abstracts_store _ _ _ _ (da_sys v D a Hd) Hh) as [xs Hxs].
  assert (Hns : ptype e ≠ PAGE_SWAP) by (destruct Hty; congruence).
  assert (Eb : backing v a e = file_page a e) by (unfold backing; by destruct Hty as [->| ->]).
  unfold file_page in Eb. rewrite Hh in Eb. cbn [mbind option_bind] in Eb. rewrite Hxs in Eb. cbn [mbind option_bind] in Eb.
  set (w := push v k u). assert (Elc : load_contents w e k =
    ('(ok, v) ← (if 0 <? read_bytes e then
          s ← file_seek (sys v) (efile e) (file_offset e);
          '(buf, s) ← file_read s (efile e) (s32 (read_bytes e));
          let v := set_vmem (set_sys w s) (blit (vmem v) k buf) in
          Ok (Zlength buf =? s32 (read_bytes e), v)
        else Ok (true, w));
      if (ok : bool) then Ok (true, set_vmem v (fill (vmem v) (k + read_bytes e) 0 (zero_bytes e)))
      else Ok (false, v))) by (unfold load_contents; by destruct Hty as [->| ->]).
  rewrite Elc. clear Elc. destruct (Z.ltb_spec 0 (read_bytes e)) as [Hpos|Hz].
  - rewrite s32_small by (unfold PGSIZE in Hsum; lia).
    destruct (read_file_spec (sys v) a (efile e) h xs (file_offset e) (read_bytes e)) as (s1 & s2 & a' & E1 & E2 & Hab & M & Est);
      try done; [apply Hd|unfold PGSIZE in Hsum; lia|]. rewrite E1. cbn [mbind res_bind]. rewrite E2. cbn [mbind res_bind].
    set (n := transfer (Zlength xs) (file_offset e) (read_bytes e)) in *.
    destruct (decide (file_offset e + read_bytes e ≤ Zlength xs)) as [Hin|Hin].
    + assert (En : n = read_bytes e) by (unfold n, transfer; lia). rewrite En.
      assert (Hl : Zlength (slice (file_offset e) (read_bytes e) xs) = read_bytes e) by (apply length_slice; lia).
      rewrite Hl, Z.eqb_refl. rewrite decide_True in Eb by (by right). eexists true, s2, _, a'. split; [reflexivity|].
      apply (filled_other v D a); try done.
      * intros x Hx. change (vmem (set_vmem ?y ?z)) with z. rewrite fill_out, blit_out by (specialize (Hout x Hk Hx); lia). done.
      * rewrite Eb. f_equal. rewrite <- Hsum. symmetry. by apply (peek_file _ (vmem v)).
    + assert (Hl : Zlength (slice (file_offset e) n xs) < read_bytes e).
      { assert (Zlength (slice (file_offset e) n xs) ≤ n); [|unfold n, transfer in *; lia].
        unfold slice. rewrite length_take. unfold n, transfer. lia. }
      rewrite (proj2 (Z.eqb_neq _ _)) by lia. rewrite decide_False in Eb by lia. eexists false, s2, _, a'. split; [reflexivity|].
      apply (filled_other v D a); try done. intros x Hx. apply blit_out. specialize (Hout x Hk Hx). lia.
  - assert (Ez : read_bytes e = 0) by lia. cbn [mbind res_bind]. rewrite decide_True in Eb by (by left).
    eexists true, (sys v), _, a. split; [reflexivity|]. apply (filled_other v D a); try done; [apply Hd| |].
    + intros x Hx. apply fill_out. specialize (Hout x Hk Hx). lia.
    + rewrite Eb, Ez, Z.add_0_r. f_equal. replace (zero_bytes e) with PGSIZE by lia. by rewrite peek_fill.
Qed.

Lemma load_contents_spec v D a pd e k u :
  vm_inv v D a → type_ok v D a pd e → loaded e = false → k mod PGSIZE = 0 →
  ∃ ok s' b t r a', load_contents (push v k u) e k = Ok (ok, set_vmem (set_swap (set_sys (push v k u) s') b t) r)
    ∧ filled v a e k ok s' b t r a'.
Proof.
  intros H Ht Hl Hk. pose proof (vi_data v D a H) as Hd. unfold type_ok in Ht. destruct (ptype e) eqn:Hty.
  - destruct (load_file_spec v D a e k u H (proj1 Ht) (or_introl Hty) Hk) as (ok & s' & r & a' & E & F).
    exists ok, s', (swap_block v), (swap_table v), r, a'. by split.
  - destruct Ht as (_ & _ & Hsl). unfold load_contents. rewrite Hty.
    destruct (swap_in_spec (push v k u) (swap_slot e) k) as (b & t & r & E & Hsw & Hus & Hda & Hlen & Hr); [apply Hd|by apply Hsl|].
    rewrite E. cbn [mbind res_bind]. exists true, (sys v), (Some b), (Some t), r, a. split; [reflexivity|].
    split; try done.
    + apply Hd.
    + intros x Hx. rewrite Hr. apply blit_out. pose proof (page_outside k x Hk Hx). change (Zlength (slot_data v (swap_slot e)) = PGSIZE) in Hlen.
      change (x < k ∨ k + Zlength (slot_data v (swap_slot e)) ≤ x). lia.
    + intros s. split; [intros [Hu Hne]%Hus|intros [Hu Hne]]; [split; [done|tauto]|]. apply Hus. split; [done|]. intros ->. by apply Hne.
    + unfold backing. rewrite Hty. f_equal. symmetry. rewrite (peek_ext (blit (vmem v) k (slot_data v (swap_slot e)))).
      * apply peek_blit. by symmetry.
      * intros x _. apply Hr.
  - unfold load_contents. rewrite Hty. eexists true, (sys v), (swap_block v), (swap_table v), _, a. split; [reflexivity|].
    apply (filled_other v D a); try done; [by rewrite Hty|apply Hd| |].
    + intros x Hx. apply fill_out. pose proof (page_outside k x Hk Hx). lia.
    + unfold backing. rewrite Hty. by rewrite peek_fill.
  - destruct (load_file_spec v D a e k u H (proj1 Ht) (or_intror Hty) Hk) as (ok & s' & r & a' & E & F).
    exists ok, s', (swap_block v), (swap_table v), r, a'. by split.
Qed.

(** ** Installing the frame *)

Section install.
Context (v : vm) (D : dirs) (a : afs) (H : vm_inv v D a).
Context (p : proc) (u k : Z) (e : spt_entry).
Context (Hp : procs v !! cur v = Some p) (He : entry_at v (cur v) u = Some e) (Hl : loaded e = false) (Hk : free_frame v D k).
Context (s' : fs) (b : option block) (t : option bitmap) (r : Z → Z) (a' : afs).
Context (ok : bool) (F : filled v a e k ok s' b t r a').

Definition with_contents : vm := set_vmem (set_swap (set_sys v s') b t) r.

Lemma install_user : user_page u ∧ upage e = u.
Proof. by destruct (lo_entry v D (vi_links v D a H) (cur v) u e He). Qed.

(** Writing to a page that is not in use. *)
Lemma contents_kept : mach_kept v D (mach with_contents) D.
Proof.
  pose proof (free_frame_busy v D k Hk) as Hnb. apply (pal_kept v D a); [done|apply (vi_dirs v D a H)|done|done| |].
  - intros x. apply (busy_used v D a x H).
  - intros x Hx. apply (fi_mem _ _ _ _ _ _ _ _ _ _ F). intros E. apply Hnb. by rewrite <- E.
Qed.

Context (m : mmu) (ts ts' : gmap Z Z) (Hts : D !! pagedir p = Some ts).
Let D' : dirs := <[pagedir p := ts']> D.
Context (HD : dirs_ok m D') (HT : tlb_ok m D') (Hpk : pages_kept (mach with_contents) D m D').
Context (Hpte : ∀ pd u', 0 ≤ u' < PHYS_BASE → pte_of m D' pd u' =
  if decide (same_page (pagedir p) u pd u') then user_entry k (writable e) else pte_of (mach with_contents) D pd u').
Context (Hcr : cr3 m = cr3 (mach with_contents)) (Hgrow : ∀ i, is_Some (ts !! i) → is_Some (ts' !! i)).
Context (Hok : ok = true) (Hcalls : (0 < vcalls v)%nat) (Hfresh : ∀ x, x ∈ frame_table v → x < 16 * Z.of_nat (vcalls v)).

Definition installed : vm :=
  put_entry (set_mach (set_vmem (set_swap (set_sys (push v k u) s') b t) r) m) (cur v) (with_frame e k).

Lemma install_tables : tables_kept D D'.
Proof.
  intros pd ts0 Hpd. unfold D'. destruct (decide (pd = pagedir p)) as [->|Hne].
  - rewrite lookup_insert_eq. exists ts'. split; [done|]. assert (ts0 = ts) as -> by congruence. done.
  - rewrite lookup_insert_ne by done. by exists ts0.
Qed.
Lemma install_entry t0 u0 : entry_at installed t0 u0 = if decide ((t0, u0) = (cur v, u)) then Some (with_frame e k) else entry_at v t0 u0.
Proof.
  unfold installed. rewrite entry_put. change (upage (with_frame e k)) with (upage e). rewrite (proj2 install_user).
  change (procs (set_mach (set_vmem (set_swap (set_sys (push v k u) s') b t) r) m)) with (procs v). rewrite Hp.
  change (entry_at (set_mach (set_vmem (set_swap (set_sys (push v k u) s') b t) r) m) t0 u0) with (entry_at v t0 u0).
  destruct (decide (_ ∧ _)) as [[Hx _]|Hn], (decide ((t0, u0) = _)) as [Hx'|Hn']; try done. destruct Hn. eauto.
Qed.
Lemma install_like : procs_like v installed.
Proof.
  destruct (put_like (set_mach (set_vmem (set_swap (set_sys (push v k u) s') b t) r) m) (cur v) (with_frame e k)) as [L1 L2].
  - intros t0 q Hq. by apply (po_table v D (vi_procs v D a H) t0 q).
  - split; [exact L1|exact L2].
Qed.
Lemma install_frame x f :
  frames installed !! x = Some f ↔
  (x = 16 * Z.of_nat (vcalls v) ∧ f = FrameEntry k u (cur v) false) ∨ frames v !! x = Some f.
Proof.
  change (frames installed) with (<[16 * Z.of_nat (vcalls v) := FrameEntry k u (cur v) false]> (frames v)).
  assert (Hn : frames v !! (16 * Z.of_nat (vcalls v)) = None).
  { apply eq_None_not_Some. intros Hs. apply (fo_dom v (vi_frames v D a H)) in Hs. specialize (Hfresh _ Hs). lia. }
  rewrite lookup_insert_Some. split; [naive_solver|]. intros [[-> ->]|Hf]; [by left|right]. split; [|done]. intros <-. congruence.
Qed.

Lemma install_k : kpage_ok k.
Proof. apply (used_kpage (pal (mach v))); [apply (vi_dirs v D a H)|apply Hk]. Qed.
(** The pages that were in use before. *)
Lemma install_spare k0 : spare v D k0 → spare installed D' k0.
Proof.
  intros (S1 & S2 & S3). split; [by apply (pk_used _ _ _ _ Hpk)|]. split.
  - intros Ho. by destruct (pk_new _ _ _ _ Hpk k0 Ho).
  - change (k0 ≠ init_page_dir m). by rewrite (proj1 (pk_init _ _ _ _ Hpk)).
Qed.
Lemma install_mem x : spare v D (page_of x) → vmem installed x = r x.
Proof. intros (S1 & S2 & S3). by apply (pk_mem _ _ _ _ Hpk). Qed.

Lemma install_ptes :
  pte_at installed D' (cur v) u = user_entry k (writable e) ∧
  ∀ t0 u0, (t0, u0) ≠ (cur v, u) → is_Some (procs v !! t0) → user_page u0 → similar (pte_at v D t0 u0) (pte_at installed D' t0 u0).
Proof.
  destruct install_user as [Hu _]. destruct (po_table v D (vi_procs v D a H) _ p Hp) as [_ Hpd]. split.
  - rewrite (like_pte v installed D' (cur v) p) by (done || apply install_like). change (mach installed) with m.
    rewrite Hpte by apply Hu. by rewrite decide_True.
  - intros t0 u0 Hne [q Hq] Hu0. rewrite (like_pte v installed D' t0 q) by (done || apply install_like). change (mach installed) with m.
    rewrite Hpte by apply Hu0. rewrite decide_False.
    + unfold pte_at. rewrite Hq. apply (mk_pte v D _ D contents_kept); [by apply (po_table v D (vi_procs v D a H) t0 q)|apply Hu0].
    + intros Hs. apply Hne. by apply (same_page_key v D (cur v) p t0 q u u0); [apply H|..].
Qed.

Lemma install_links : links_ok installed D'.
Proof.
  destruct install_ptes as [Ek Hs]. destruct install_user as [Hu Eu]. destruct (pte_create_user_spec k (writable e) install_k) as (_ & _ & W1 & W2 & W3 & _).
  assert (Hno : ∀ x f, frames v !! x = Some f → (owner f, fupage f) ≠ (cur v, u)).
  { intros x f Hf [= E1 E2]. destruct (lo_frame v D (vi_links v D a H) x f Hf) as (e0 & He0 & Hl0 & _). congruence. }
  apply (links_step v installed D D' (cur v) u); [apply H|apply install_like|done| | | |done|].
  - intros t0 u0 Hne. by rewrite install_entry, decide_False.
  - intros x f Hne. rewrite install_frame. split; [|auto]. intros [[_ ->]|]; [by destruct Hne|done].
  - intros x f [[_ ->]|Hf]%install_frame; apply install_spare; [apply Hk|by apply (lo_spare v D (vi_links v D a H) x)].
  - rewrite install_entry, decide_True, Ek, W1, W2, W3 by done. split; [done|]. cbn [with_frame loaded kpage writable]. split_and!; try done.
    + exists (16 * Z.of_nat (vcalls v)), (FrameEntry k u (cur v) false). split; [|done]. apply install_frame. by left.
    + intros x f [[_ ->]|Hf]%install_frame E1 E2; [done|]. destruct (Hno x f Hf). congruence.
Qed.

Lemma install_frames : frames_ok installed ∧ hand_ok installed.
Proof.
  destruct (vi_frames v D a H) as [F1 F2 F3 F4]. set (x0 := 16 * Z.of_nat (vcalls v)) in *.
  assert (Et : frame_table installed = frame_table v ++ [x0]) by done. split; [split|].
  - rewrite Et. apply NoDup_app. split; [done|]. split; [|apply NoDup_singleton]. intros x Hx E%list_elem_of_singleton. specialize (Hfresh x Hx). lia.
  - intros x. rewrite Et, elem_of_app, list_elem_of_singleton, F2. split.
    + intros [[f Hf]| ->]; eexists; apply install_frame; [by right|by left].
    + intros [f [[-> _]|Hf]%install_frame]; [by right|left; by exists f].
  - intros x. rewrite Et, elem_of_app, list_elem_of_singleton. change (vcalls installed) with (vcalls v).
    intros [Hx| ->]; [by apply F3|]. unfold x0. lia.
  - intros x y f g [[-> ->]|Hf]%install_frame [[-> ->]|Hg]%install_frame E; try done.
    + by destruct (proj2 Hk y g Hg).
    + by destruct (proj2 Hk x f Hf).
    + by apply (F4 x y f g).
  - destruct (vi_hand v D a H) as [E|Hin]; [by left|right]. rewrite Et. apply elem_of_app. by left.
Qed.

(** The contents of the frames. *)
Lemma install_new_data : frame_data installed (with_frame e k) = peek r k PGSIZE.
Proof.
  apply peek_ext. intros x Hx. apply install_mem. rewrite (page_of_in k); [apply Hk|apply install_k|done].
Qed.
Lemma install_old_data t0 u0 e0 : entry_at v t0 u0 = Some e0 → loaded e0 = true → frame_data installed e0 = frame_data v e0.
Proof.
  intros He0 Hl0. destruct (lo_loaded v D (vi_links v D a H) t0 u0 e0 He0 Hl0) as (x & f & Hf & <- & <-).
  destruct (lo_frame v D (vi_links v D a H) x f Hf) as (e1 & He1 & _ & Hkp). assert (e1 = e0) as -> by congruence.
  pose proof (lo_spare v D (vi_links v D a H) x f Hf) as Hs. apply peek_ext. rewrite Hkp. intros y Hy.
  assert (Epg : page_of y = fkpage f) by (apply page_of_in; [apply (used_kpage (pal (mach v))); [apply (vi_dirs v D a H)|apply Hs]|done]).
  rewrite install_mem by (by rewrite Epg). apply (fi_mem _ _ _ _ _ _ _ _ _ _ F). rewrite Epg. by apply (proj2 Hk x f).
Qed.

Lemma install_keep t0 q u0 e0 : (t0, u0) ≠ (cur v, u) → procs v !! t0 = Some q → entry_at v t0 u0 = Some e0 →
  type_ok installed D' a' (pagedir q) e0 ∧ backing installed a' e0 = backing v a e0
  ∧ (loaded e0 = true → frame_data installed e0 = frame_data v e0
       ∧ flag (pte_at installed D' t0 u0) PTE_D = flag (pte_at v D t0 u0) PTE_D).
Proof.
  intros Hne Hq He0. pose proof (vi_data v D a H) as Hd. destruct F as [F1 F2 F3 F4 F5 F6 F7 F8 F9]. split_and!.
  - apply (type_ok_kept v installed D D' a a'); [by apply (da_type v D a Hd t0 q u0)|apply install_tables|done| |].
    + rewrite F3. intros id xs Hxs. by exists xs.
    + intros Hs Hu0 Hus. apply F7. split; [done|]. intros [Hse Eslot].
      destruct (da_apart v D a Hd t0 u0 e0 _ _ e He0 He Hne) as [A1 _]. by apply A1.
  - apply backing_moved; [done|done|]. intros _. apply F6.
  - intros Hl0. split; [by apply (install_old_data t0 u0)|]. apply install_ptes; [done|by exists q|by apply (lo_entry v D (vi_links v D a H) t0 u0 e0)].
Qed.

Lemma install_type : type_ok installed D' a' (pagedir p) (with_frame e k).
Proof.
  pose proof (da_type v D a (vi_data v D a H) _ p u e Hp He) as Ht. destruct F as [F1 F2 F3 F4 F5 F6 F7 F8 F9].
  apply (type_ok_kept v installed D D' a a'); [|apply install_tables|done|rewrite F3; intros id xs Hxs; by exists xs|done].
  unfold type_ok, file_ok in *. cbn [with_frame ptype efile file_offset read_bytes zero_bytes writable upage loaded swap_slot] in *.
  destruct (ptype e); try done. destruct Ht as (W1 & W2 & _). by split.
Qed.

Lemma install_backing : ptype e ≠ PAGE_SWAP → backing installed a' (with_frame e k) = Some (peek r k PGSIZE).
Proof.
  intros Hns. destruct F as [F1 F2 F3 F4 F5 F6 F7 F8 F9]. rewrite Hok in F9. rewrite <- F9.
  transitivity (backing installed a' e).
  - unfold backing, file_page. cbn [with_frame ptype efile file_offset read_bytes zero_bytes]. by destruct (ptype e).
  - apply backing_moved; [done|done|]. intros E. by destruct (Hns E).
Qed.

Lemma install_data : data_ok installed D' a' ∧ ∀ t0 u0, contents installed a' t0 u0 = contents v a t0 u0.
Proof.
  set (ch := λ t0 u0, (t0, u0) = (cur v, u)). pose proof (vi_data v D a H) as Hd. pose proof F as [F1 F2 F3 F4 F5 F6 F7 F8 F9].
  assert (Hdec : ∀ t0 u0, Decision (ch t0 u0)) by (intros; unfold ch; apply _).
  assert (Hn : ∀ t0 u0, ¬ ch t0 u0 → entry_at installed t0 u0 = entry_at v t0 u0) by (intros t0 u0 Hne; by rewrite install_entry, decide_False).
  assert (Hkp : ∀ t0 q u0 e0, ¬ ch t0 u0 → procs v !! t0 = Some q → entry_at v t0 u0 = Some e0 →
    type_ok installed D' a' (pagedir q) e0 ∧ (ptype e0 = PAGE_SWAP → loaded e0 = true ∨ backing installed a' e0 = backing v a e0)
    ∧ (ptype e0 ≠ PAGE_SWAP → backing installed a' e0 = backing v a e0)
    ∧ (loaded e0 = true → frame_data installed e0 = frame_data v e0
         ∧ flag (pte_at installed D' t0 u0) PTE_D = flag (pte_at v D t0 u0) PTE_D)).
  { intros t0 q u0 e0 Hne Hq He0. destruct (install_keep t0 q u0 e0 Hne Hq He0) as (K1 & K2 & K3). auto. }
  split.
  - apply (data_step v installed D D' a a' ch); [done|done|done|by apply moved_hids|done| | |done|].
    + intros t0 p' Hp'. apply (like_proc' v installed t0 p' install_like Hp').
    + intros t0 u0 e0 He0. by apply (lo_entry v D (vi_links v D a H) t0 u0 e0).
    + intros t0 q u0 e0 Hc Hq He0. unfold ch in Hc. injection Hc as -> ->. rewrite install_entry, decide_True in He0 by done. injection He0 as <-.
      destruct (like_proc v installed _ p install_like Hp) as (p' & Hp' & Epd). assert (p' = q) as -> by congruence. rewrite Epd.
      split; [apply install_type|]. split.
      * intros _. change (upage (with_frame e k)) with (upage e). rewrite (proj2 install_user), (proj1 install_ptes).
        destruct (pte_create_user_spec k (writable e) install_k) as (_ & _ & _ & _ & _ & W5 & _). rewrite W5. split; [done|].
        intros _ Hcl. rewrite install_new_data, install_backing; [done|].
        intros Hs. pose proof (da_type v D a Hd _ p u e Hp He) as Ht. unfold type_ok in Ht. rewrite Hs in Ht. destruct Ht as (Hw & _).
        change (ptype (with_frame e k)) with (ptype e) in Hcl. change (writable (with_frame e k)) with (writable e) in Hcl. destruct Hcl; congruence.
      * intros t1 u1 e1 He1 Hne. rewrite Hn in He1 by (intros Hx; by apply Hne). split; [done|].
        destruct (da_apart v D a Hd _ _ e t1 u1 e1 He He1 Hne) as [_ A2]. intros Hm1 Hm2. rewrite !(moved_hids a a' F2). by apply A2.
  - intros t0 u0. destruct (decide (ch t0 u0)) as [Hc|Hc]; [|by apply (contents_step v installed D D' a a' ch)].
    unfold ch in Hc. injection Hc as -> ->. unfold contents. rewrite install_entry, decide_True, He by done. cbn [mbind option_bind].
    rewrite Hl, F9, Hok. change (loaded (with_frame e k)) with true. by rewrite install_new_data.
Qed.

Lemma inv_install : vm_inv installed D' a' ∧ carries v a installed a'.
Proof.
  destruct install_data as [Hd HC]. split; [split|split].
  - done.
  - done.
  - apply install_frames.
  - apply install_frames.
  - apply (procs_step v installed D D'); [apply H|apply install_like|done|exact Hcr|apply install_tables].
  - apply install_links.
  - done.
  - done.
  - done.
  - apply install_like.
  - apply F.
  - intros t0 u0. rewrite install_entry. destruct (decide _) as [[= -> ->]|]; [|done]. by rewrite He.
  - intros id xs. apply same_files. apply F.
Qed.

End install.

(** ** Giving up *)

Lemma find_loop_last fs k l x f :
  (∀ y, y ∈ l → ∃ g, fs !! y = Some g ∧ fkpage g ≠ k) → fs !! x = Some f → fkpage f = k → find_loop fs k (l ++ [x]) = Ok (Some x).
Proof.
  intros Hl Hx Hk. induction l as [|y l IH]; cbn [app find_loop].
  - rewrite Hx. cbn [from_opt mbind res_bind]. by rewrite Hk, Z.eqb_refl.
  - destruct (Hl y) as (g & -> & Hg); [by left|]. cbn [from_opt mbind res_bind]. rewrite (proj2 (Z.eqb_neq _ _)) by done.
    apply IH. intros z Hz. apply Hl. by right.
Qed.

(** The frame that was pushed last is taken away again. *)
Lemma unpush v D a k u s' b t r :
  vm_inv v D a → free_frame v D k → (0 < vcalls v)%nat → (∀ x, x ∈ frame_table v → x < 16 * Z.of_nat (vcalls v)) →
  frame_free (set_vmem (set_swap (set_sys (push v k u) s') b t) r) k =
  (let v3 := with_contents v s' b t r in s ← palloc_free_page (pal (mach v3)) k; Ok (set_mach v3 (set_pal (mach v3) s))).
Proof.
  intros H Hk Hc Hfresh. destruct (vi_frames v D a H) as [F1 F2 F3 F4]. set (x0 := 16 * Z.of_nat (vcalls v)) in *.
  assert (Hx0 : x0 ∉ frame_table v) by (intros Hx; specialize (Hfresh _ Hx); lia).
  set (v2 := set_vmem (set_swap (set_sys (push v k u) s') b t) r). unfold frame_free.
  assert (Ef : find_frame v2 k = Ok (Some x0)).
  { apply (find_loop_last _ _ (frame_table v) x0 (FrameEntry k u (cur v) false)); [|apply lookup_insert_eq|done].
    intros y Hy. pose proof Hy as [g Hg]%F2. exists g. split; [|by apply (proj2 Hk y)]. rewrite <- Hg. apply lookup_insert_ne. by intros <-. }
  rewrite Ef. cbn [mbind res_bind]. rewrite (proj2 (Z.eqb_neq _ _)).
  2: { change (clock_hand v ≠ x0). destruct (vi_hand v D a H) as [-> |Hin]; [unfold x0; lia|]. by intros E; rewrite E in Hin. }
  cbn [mbind res_bind]. assert (Er : remove_frame v2 x0 (clock_hand v2) = with_contents v s' b t r); [|by rewrite Er].
  unfold remove_frame, with_contents. replace (delete x0 (frames v2)) with (frames v).
  - replace (filter (λ y, y ≠ x0) (frame_table v2)) with (frame_table v); [done|].
    change (frame_table v2) with (frame_table v ++ [x0]). rewrite filter_app, filter_cons_False by (by intros ?).
    rewrite app_nil_r. symmetry. apply filter_Forall, Forall_forall. by intros y Hy ->.
  - change (frames v2) with (<[x0 := FrameEntry k u (cur v) false]> (frames v)). rewrite delete_insert_id; [done|].
    apply eq_None_not_Some. by rewrite <- F2.
Qed.

Lemma abandon_frame v D a k u e ok s' b t r a' :
  vm_inv v D a → free_frame v D k → (0 < vcalls v)%nat → (∀ x, x ∈ frame_table v → x < 16 * Z.of_nat (vcalls v)) →
  filled v a e k ok s' b t r a' → ptype e ≠ PAGE_SWAP →
  ∃ v', frame_free (set_vmem (set_swap (set_sys (push v k u) s') b t) r) k = Ok v' ∧ vm_inv v' D a' ∧ carries v a v' a'
    ∧ frame_table v' = frame_table v.
Proof.
  intros H Hk Hc Hfresh F Hns. rewrite (unpush v D a) by done. destruct (fi_other _ _ _ _ _ _ _ _ _ _ F Hns) as [-> ->].
  destruct (kept_carries v D a (with_contents v s' (swap_block v) (swap_table v) r) D a') as [H3 C3]; [done|done| |apply H|apply F|apply F|apply F|].
  { by apply (contents_kept v D a H k e Hk s' _ _ r a' ok). }
  destruct (give_page _ D a' k H3) as (s & E & H4 & C4); [done|]. cbv zeta. rewrite E. cbn [mbind res_bind].
  eexists. split; [done|]. split; [done|]. split; [|done]. by apply (carries_trans v a _ a' _ a' C3).
Qed.

(** ** [spt_load_page] *)

(** Why a page cannot be loaded: the file is too short, or there is no memory for the
    frame table or for a page table. *)
Definition cannot_load (v : vm) (D : dirs) (a : afs) (u : Z) : Prop :=
  contents v a (cur v) u = None ∨ vsupply v (vcalls v) = false
  ∨ ∃ p ts, procs v !! cur v = Some p ∧ D !! pagedir p = Some ts ∧ ts !! pd_no u = None.

Lemma unloaded_contents v a u e :
  entry_at v (cur v) u = Some e → loaded e = false → backing v a e = None → contents v a (cur v) u = None.
Proof. intros He Hl Hb. unfold contents. rewrite He. cbn [mbind option_bind]. by rewrite Hl, Hb. Qed.

(** From the frame on. *)
Lemma load_into v D a t0 up u e k p :
  vm_inv v D a → t0 = cur v → pg_round_down up = u → procs v !! cur v = Some p → entry_at v (cur v) u = Some e → loaded e = false → free_frame v D k →
  (0 < vcalls v)%nat → (∀ x, x ∈ frame_table v → x < 16 * Z.of_nat (vcalls v)) →
  ∃ ok v' D' a',
    ('(ok, v) ← load_contents (push v k u) e k;
     if (ok : bool) then
       p ← get_proc v (cur v);
       '(set, m) ← pagedir_set_page (mach v) (pagedir p) (upage e) k (writable e);
       let v := set_mach v m in
       if (set : bool) then
         e' ← spt_get_entry v t0 up;
         match e' with
         | Some e' => Ok (true, put_entry v t0 (with_frame e' k))
         | None => Ok (true, v)
         end
       else v ← frame_free v k; Ok (false, v)
     else v ← frame_free v k; Ok (false, v)) = Ok (ok, v') ∧ vm_inv v' D' a' ∧ carries v a v' a'
    ∧ (if (ok : bool) then entry_at v' (cur v) u = Some (with_frame e k)
       else contents v a (cur v) u = None ∨ ∃ ts, D !! pagedir p = Some ts ∧ ts !! pd_no u = None)
    ∧ Zlength (frame_table v) + (if (ok : bool) then 1 else 0) = Zlength (frame_table v').
Proof.
  intros H -> Eup Hp He Hl Hk Hc Hfresh. destruct (lo_entry v D (vi_links v D a H) (cur v) u e He) as [Eu [Hu1 Hu2]].
  pose proof (da_type v D a (vi_data v D a H) _ p u e Hp He) as Ht. destruct (po_table v D (vi_procs v D a H) _ p Hp) as [Hst [ts Hts]].
  assert (Hkp : kpage_ok k) by (apply (used_kpage (pal (mach v))); [apply (vi_dirs v D a H)|apply Hk]).
  destruct (load_contents_spec v D a (pagedir p) e k u H Ht Hl (proj1 Hkp)) as (ok & s' & b & t & r & a' & E & F). rewrite E. cbn [mbind res_bind].
  destruct ok.
  - set (v2 := set_vmem (set_swap (set_sys (push v k u) s') b t) r). change (get_proc v2 (cur v2)) with (from_opt (procs v !! cur v)). rewrite Hp.
    cbn [from_opt mbind res_bind]. change (mach v2) with (mach (with_contents v s' b t r)). rewrite Eu.
    destruct (contents_kept v D a H k e Hk s' b t r a' true F) as [K1 K2 _ K4 K5 _].
    assert (HP : flag (pte (mach (with_contents v s' b t r)) ts u) PTE_P = false).
    { pose proof (lo_pte v D (vi_links v D a H) (cur v) u (mk_is_Some _ _ Hp) (conj Hu1 Hu2)) as Hlp. rewrite He, Hl in Hlp.
      destruct (K5 (pagedir p) u (mk_is_Some _ _ Hts) Hu1) as (S1 & _). unfold pte_at in Hlp. rewrite Hp in Hlp. unfold pte_of in *. rewrite Hts in *. congruence. }
    destruct (pagedir_set_page_spec _ D (pagedir p) ts u k (writable e) K1 K2 Hts Hu1 Hu2 (proj1 (proj1 Hk)) HP) as
      [[Em Hno]|(m & ts' & Em & HD & HT & Hpk & Hpte & Hcr & Hgrow)]; rewrite Em; cbn [mbind res_bind].
    + assert (Hns : ptype e ≠ PAGE_SWAP).
      { intros Hs. unfold type_ok in Ht. rewrite Hs in Ht. destruct Ht as (_ & (ts0 & Hts0 & [pt Hpt]) & _). rewrite Eu in Hpt. congruence. }
      destruct (abandon_frame v D a k u e true s' b t r a' H Hk Hc Hfresh F Hns) as (v' & Ev & HI & HC & Etab).
      replace (set_mach v2 (mach (with_contents v s' b t r))) with v2 by done. unfold v2. rewrite Ev. cbn [mbind res_bind].
      exists false, v', D, a'. split; [done|]. split; [done|]. split; [done|]. split; [right; by exists ts|]. rewrite Etab. lia.
    + assert (Eg : spt_get_entry (set_mach v2 m) (cur v) up = Ok (Some e)).
      { unfold spt_get_entry, get_table, get_proc. change (procs (set_mach v2 m)) with (procs v). rewrite Hp.
        cbn [from_opt mbind res_bind]. destruct Hst as [s Hs]. rewrite Hs. cbn [from_opt mbind res_bind].
        rewrite Eup. unfold entry_at in He. rewrite Hp in He. cbn [mbind option_bind] in He. by rewrite Hs in He; cbn [mbind option_bind] in He; rewrite He. }
      rewrite Eg. cbn [mbind res_bind].
      destruct (inv_install v D a H p u k e Hp He Hl Hk s' b t r a' true F m ts ts' Hts HD HT Hpk Hpte Hcr Hgrow eq_refl Hc Hfresh) as [HI HC].
      exists true, (installed v u k e s' b t r m), (<[pagedir p := ts']> D), a'. split; [done|]. split; [done|]. split; [done|].
      split; [rewrite (install_entry v D a H p u k e Hp He); by rewrite decide_True|].
      change (frame_table (installed v u k e s' b t r m)) with (frame_table v ++ [16 * Z.of_nat (vcalls v)]). rewrite length_app. simpl. lia.
  - assert (Hns : ptype e ≠ PAGE_SWAP).
    { intros Hs. pose proof (fi_ok _ _ _ _ _ _ _ _ _ _ F) as Hb. unfold backing in Hb. by rewrite Hs in Hb. }
    destruct (abandon_frame v D a k u e false s' b t r a' H Hk Hc Hfresh F Hns) as (v' & Ev & HI & HC & Etab). rewrite Ev. cbn [mbind res_bind].
    exists false, v', D, a'. split; [done|]. split; [done|]. split; [done|]. rewrite Etab. split; [|lia].
    left. apply (unloaded_contents v a u e He Hl). apply (fi_ok _ _ _ _ _ _ _ _ _ _ F).
Qed.

Lemma spt_load_page_spec v D a up :
  vm_inv v D a → room v → let u := pg_round_down up in
  match entry_at v (cur v) u with
  | Some e =>
      if loaded e then spt_load_page v (cur v) up = Ok (false, v)
      else (spt_load_page v (cur v) up = Panic ∧ (swap_full v ∨ all_pinned v)) ∨
        ∃ ok v' D' a', spt_load_page v (cur v) up = Ok (ok, v') ∧ vm_inv v' D' a' ∧ carries v a v' a'
          ∧ if (ok : bool) then (∃ k, entry_at v' (cur v) u = Some (with_frame e k)) ∧ Zlength (frame_table v) ≤ Zlength (frame_table v')
             else cannot_load v D a u ∧ Zlength (frame_table v) ≤ Zlength (frame_table v') + 1
  | None => spt_load_page v (cur v) up = Ok (false, v)
  end.
Proof.
  intros H Hroom u. destruct (po_cur v D (vi_procs v D a H)) as (p & Hp & _). unfold spt_load_page.
  rewrite (get_entry_at v D (cur v) up) by (apply H || by exists p). fold u. cbn [mbind res_bind].
  destruct (entry_at v (cur v) u) as [e|] eqn:He; [|done]. destruct (loaded e) eqn:Hl; [done|].
  destruct (lo_entry v D (vi_links v D a H) (cur v) u e He) as [Eu Hu]. rewrite Eu.
  destruct (frame_alloc_spec v D a PAL_USER u H Hroom (or_introl eq_refl)) as
    [[E Hx]|[(v1 & a1 & E & H1 & C1 & _ & Hs & Hlen)|(k & v1 & a1 & E & Hk0 & H1 & C1 & Hun & Hk & Hc & Hfresh & Hlen & _)]];
    rewrite E; cbn [mbind res_bind].
  - by left.
  - right. rewrite Z.eqb_refl. exists false, v1, D, a1. split; [done|]. split; [done|]. split; [done|]. split; [|done]. right. by left.
  - right. rewrite (proj2 (Z.eqb_neq k 0)) by done. pose proof (ca_cur _ _ _ _ C1) as Ec.
    destruct (like_proc v v1 _ p (ca_like _ _ _ _ C1) Hp) as (p1 & Hp1 & Epd).
    destruct (load_into v1 D a1 (cur v) up u e k p1) as (ok & v' & D' & a' & El & HI & HC & Hres & Htab); try done; [by rewrite Ec|rewrite Ec; by apply Hun|].
    exists ok, v', D', a'. rewrite Eu in El. split; [exact El|]. split; [done|]. split; [by apply (carries_trans v a v1 a1)|].
    destruct ok; [split; [exists k; by rewrite <- Ec|lia]|]. split; [|lia]. destruct Hres as [Hcn|(ts & Hts & Hn)].
    + left. rewrite <- (ca_contents _ _ _ _ C1), <- Ec. done.
    + right. right. exists p, ts. rewrite <- Epd. done.
Qed.

End VmLoad.
