(* ===== verification/VmUser.v ===== *)
(** * User memory

    What a user program sees: loads and stores, with the page faults that they cause, act
    on a flat memory that holds the contents of its pages. *)

From S2P Require Import Prelude Bitmap Vaddr Palloc Disk Inode Directory FsInv FileInv DirInv Filesys FsSpec FsBoot Pagedir Vm VmInv VmData VmLoad.

Module VmUser.
Import Bitmap Palloc Disk Inode FsSpec Pagedir Vm VmInv VmData VmLoad.

Lemma backing_swap v v' a e : swap_block v' = swap_block v → backing v' a e = backing v a e.
Proof. intros E. apply backing_moved; [apply moved_refl|done|]. intros _. unfold slot_data. by rewrite E. Qed.

Lemma frame_data_mem v v' e : vmem v' = vmem v → frame_data v' e = frame_data v e.
Proof. intros E. unfold frame_data. by rewrite E. Qed.
Lemma same_contents v v' a t u :
  procs v' = procs v → swap_block v' = swap_block v → vmem v' = vmem v → contents v' a t u = contents v a t u.
Proof.
  intros E1 E2 E3. unfold contents. replace (entry_at v' t u) with (entry_at v t u) by (unfold entry_at; by rewrite E1).
  destruct (entry_at v t u) as [e|]; [|done]. cbn [mbind option_bind]. by rewrite (frame_data_mem v v' e E3), (backing_swap v v' a e E2).
Qed.

(** ** Accesses to a page in memory *)

(** The processor sets the accessed and dirty bits of an entry, and the contents of the
    frame change if the entry is dirty. *)
Section access.
Context (v : vm) (D : dirs) (a : afs) (H : vm_inv v D a) (p : proc) (u : Z) (e : spt_entry) (m : mmu) (w : Z).
Context (Hp : procs v !! cur v = Some p) (He : entry_at v (cur v) u = Some e) (Hl : loaded e = true).
Context (HD : dirs_ok m D) (HT : tlb_ok m D).
Context (Hcpu : cr3 m = cr3 (mach v) ∧ init_page_dir m = init_page_dir (mach v)).
Context (Hused : ∀ k, used (pal m) k ↔ used (pal (mach v)) k).
Context (Hmem : ∀ x, ¬ owned D (page_of x) → page_of x ≠ kpage e → mem m x = vmem v x).
Context (Hpte : ∀ pd u', is_Some (D !! pd) → 0 ≤ u' < PHYS_BASE →
  pte_of m D pd u' = if decide (same_page (pagedir p) u pd u') then w else pte_of (mach v) D pd u').
Context (Hw : flag w PTE_P = true ∧ page_at w = kpage e ∧ flag w PTE_W = writable e).
Context (Hdirty : flag w PTE_D = true → writable e = true).
Context (Hclean : flag w PTE_D = false → flag (pte_at v D (cur v) u) PTE_D = false ∧ frame_data (set_mach v m) e = frame_data v e).

Let v' : vm := set_mach v m.

Lemma access_user : user_page u ∧ upage e = u.
Proof. by destruct (lo_entry v D (vi_links v D a H) (cur v) u e He). Qed.
Lemma access_like : procs_like v v'.
Proof. split; [done|]. intros t q Hq. by apply (po_table v D (vi_procs v D a H) t q). Qed.
Lemma access_ptes :
  pte_at v' D (cur v) u = w ∧
  ∀ t u', (t, u') ≠ (cur v, u) → is_Some (procs v !! t) → user_page u' → similar (pte_at v D t u') (pte_at v' D t u').
Proof. apply (pte_similar v v' D D (cur v) p u w); [apply H|apply access_like|done|apply access_user|done]. Qed.
Lemma access_other t u' e' :
  (t, u') ≠ (cur v, u) → entry_at v t u' = Some e' → loaded e' = true → frame_data v' e' = frame_data v e'.
Proof.
  intros Hne He' Hl'. destruct (lo_loaded v D (vi_links v D a H) t u' e' He' Hl') as (x & f & Hf & <- & <-).
  destruct (lo_loaded v D (vi_links v D a H) _ u e He Hl) as (y & g & Hg & E1 & E2).
  destruct (lo_frame v D (vi_links v D a H) x f Hf) as (e1 & He1 & _ & Hk). assert (e1 = e') as -> by congruence.
  destruct (lo_frame v D (vi_links v D a H) y g Hg) as (e2 & He2 & _ & Hk2). assert (e2 = e) as -> by congruence.
  destruct (lo_spare v D (vi_links v D a H) x f Hf) as (S1 & S2 & _). apply peek_ext. rewrite Hk. intros z Hz.
  assert (Epg : page_of z = fkpage f) by (apply page_of_in; [apply (used_kpage (pal (mach v))); [apply (vi_dirs v D a H)|done]|done]).
  apply Hmem; rewrite Epg; [done|]. rewrite Hk2. intros E. apply Hne.
  assert (x = y) as -> by (by apply (fo_uniq v (vi_frames v D a H) x y f g)). congruence.
Qed.

Lemma access_links : links_ok v' D.
Proof.
  destruct access_ptes as [Ew Hs]. destruct Hw as (W1 & W2 & W3).
  apply (links_step v v' D D (cur v) u); [apply H|apply access_like|apply access_user|done|done| |done|].
  - intros x f Hf. destruct (lo_spare v D (vi_links v D a H) x f Hf) as (S1 & S2 & S3). split; [by apply Hused|]. split; [done|].
    change (fkpage f ≠ init_page_dir m). by rewrite (proj2 Hcpu).
  - change (entry_at v' (cur v) u) with (entry_at v (cur v) u). rewrite He, Hl, Ew. split; [apply access_user|]. split_and!; try done.
    + apply (lo_loaded v D (vi_links v D a H) _ _ e He Hl).
    + intros x f Hf E1 E2. destruct (lo_frame v D (vi_links v D a H) x f Hf) as (e1 & He1 & _ & Hk). congruence.
Qed.

Lemma inv_access :
  vm_inv v' D a ∧ contents v' a (cur v) u = Some (visible e (frame_data v' e))
  ∧ ∀ t u', (t, u') ≠ (cur v, u) → contents v' a t u' = contents v a t u'.
Proof.
  set (ch := λ t u', (t, u') = (cur v, u)). pose proof (vi_data v D a H) as Hd. destruct access_ptes as [Ew Hs].
  assert (Hdec : ∀ t u', Decision (ch t u')) by (intros; unfold ch; apply _).
  assert (Hk : ∀ t q u' e', ¬ ch t u' → procs v !! t = Some q → entry_at v t u' = Some e' →
    type_ok v' D a (pagedir q) e' ∧ (ptype e' = PAGE_SWAP → loaded e' = true ∨ backing v' a e' = backing v a e')
    ∧ (ptype e' ≠ PAGE_SWAP → backing v' a e' = backing v a e')
    ∧ (loaded e' = true → frame_data v' e' = frame_data v e' ∧ flag (pte_at v' D t u') PTE_D = flag (pte_at v D t u') PTE_D)).
  { intros t q u' e' Hne Hq He'. pose proof (backing_swap v v' a e' eq_refl) as Hb. split; [by apply (da_type v D a Hd t q u')|].
    split; [by right|]. split; [by intros _|]. intros Hl'.
    split; [by apply (access_other t u')|]. apply Hs; [done|by exists q|by apply (lo_entry v D (vi_links v D a H) t u' e')]. }
  split; [split|split].
  - done.
  - done.
  - destruct (vi_frames v D a H). by split.
  - apply H.
  - apply (procs_step v v' D D); [apply H|apply access_like|done|apply Hcpu|apply tables_kept_refl].
  - apply access_links.
  - apply (data_step v v' D D a a ch); [done|apply Hd|apply Hd|done|done| | |done|].
    + intros t q Hq. by exists q.
    + intros t u' e' He'. by apply (lo_entry v D (vi_links v D a H) t u' e').
    + intros t q u' e' Hc Hq He'. unfold ch in Hc. injection Hc as -> ->. change (entry_at v' (cur v) u) with (entry_at v (cur v) u) in He'.
      assert (e' = e) as -> by congruence. split; [by apply (da_type v D a Hd (cur v) q u)|]. split.
      * intros _. rewrite (proj2 access_user), Ew. split; [done|]. intros Hn Hty. destruct (Hclean Hn) as [C1 C2]. unfold v' at 2. rewrite C2.
        apply (da_clean v D a Hd _ _ e He Hl); [by rewrite (proj2 access_user)|done].
      * intros t' u2 e2 He2 Hne. by apply (da_apart v D a Hd (cur v) u e t' u2 e2).
  - unfold contents. change (entry_at v' (cur v) u) with (entry_at v (cur v) u). rewrite He. cbn [mbind option_bind]. by rewrite Hl.
  - intros t u' Hne. by apply (contents_step v v' D D a a ch).
Qed.
End access.

(** ** New pages *)

Section add.
Context (v : vm) (D : dirs) (a : afs) (H : vm_inv v D a) (t : Z) (p : proc) (e : spt_entry).
Context (Hp : procs v !! t = Some p) (Hno : entry_at v t (upage e) = None) (Hu : user_page (upage e)) (Hl : loaded e = false).
Context (Hty : type_ok v D a (pagedir p) e).
Context (Hap : ∀ t' u' e', entry_at v t' u' = Some e' → apart a e e').

Let v' : vm := put_entry v t e.

Lemma add_entry t' u' : entry_at v' t' u' = if decide ((t', u') = (t, upage e)) then Some e else entry_at v t' u'.
Proof.
  unfold v'. rewrite entry_put, Hp. destruct (decide (_ ∧ _)) as [[Hx _]|Hn], (decide ((t', u') = _)) as [Hx'|Hn']; try done.
  destruct Hn. eauto.
Qed.
Lemma add_like : procs_like v v'.
Proof. apply put_like. intros t' q Hq. by apply (po_table v D (vi_procs v D a H) t' q). Qed.
Lemma add_pte t' u' : pte_at v' D t' u' = pte_at v D t' u'.
Proof.
  unfold pte_at. pose proof (pl_pd v v' add_like t') as E. destruct (procs v' !! t') as [q|], (procs v !! t') as [q'|]; try done.
  injection E as E. by rewrite E.
Qed.

Lemma add_links : links_ok v' D.
Proof.
  apply (links_step v v' D D t (upage e)); [apply H|apply add_like|done| |done| | |].
  - intros t' u' Hne. by rewrite add_entry, decide_False.
  - intros x f Hf. by apply (lo_spare v D (vi_links v D a H) x f).
  - intros t' u' _ _ _. by rewrite add_pte.
  - rewrite add_entry, decide_True, Hl, add_pte by done. split; [done|]. split.
    + intros x f Hf [= E1 E2]. destruct (lo_frame v D (vi_links v D a H) x f Hf) as (e1 & He1 & _). congruence.
    + pose proof (lo_pte v D (vi_links v D a H) t (upage e) (mk_is_Some _ _ Hp) Hu) as Hx. by rewrite Hno in Hx.
Qed.

Lemma inv_add :
  vm_inv v' D a ∧ contents v' a t (upage e) = visible e <$> backing v a e
  ∧ ∀ t' u', (t', u') ≠ (t, upage e) → contents v' a t' u' = contents v a t' u'.
Proof.
  set (ch := λ t' u', (t', u') = (t, upage e)). pose proof (vi_data v D a H) as Hd.
  assert (Hdec : ∀ t' u', Decision (ch t' u')) by (intros; unfold ch; apply _).
  assert (Hn : ∀ t' u', ¬ ch t' u' → entry_at v' t' u' = entry_at v t' u') by (intros t' u' Hne; by rewrite add_entry, decide_False).
  assert (Hk : ∀ t' q u' e', ¬ ch t' u' → procs v !! t' = Some q → entry_at v t' u' = Some e' →
    type_ok v' D a (pagedir q) e' ∧ (ptype e' = PAGE_SWAP → loaded e' = true ∨ backing v' a e' = backing v a e')
    ∧ (ptype e' ≠ PAGE_SWAP → backing v' a e' = backing v a e')
    ∧ (loaded e' = true → frame_data v' e' = frame_data v e' ∧ flag (pte_at v' D t' u') PTE_D = flag (pte_at v D t' u') PTE_D)).
  { intros t' q u' e' _ Hq He'. pose proof (backing_swap v v' a e' eq_refl) as Hb. split; [by apply (da_type v D a Hd t' q u')|].
    split; [by right|]. split; [by intros _|]. intros _. split; [by apply frame_data_mem|by rewrite add_pte]. }
  split; [split|split].
  - apply H.
  - apply H.
  - destruct (vi_frames v D a H). by split.
  - apply H.
  - apply (procs_step v v' D D); [apply H|apply add_like|done|done|apply tables_kept_refl].
  - apply add_links.
  - apply (data_step v v' D D a a ch); [done|apply Hd|apply Hd|done|done| | |done|].
    + intros t' q Hq. apply (like_proc' v v' t' q add_like Hq).
    + intros t' u' e' He'. by apply (lo_entry v D (vi_links v D a H) t' u' e').
    + intros t' q u' e' Hc Hq He'. unfold ch in Hc. injection Hc as -> ->. rewrite add_entry, decide_True in He' by done. injection He' as <-.
      destruct (like_proc v v' t p add_like Hp) as (q' & Hq' & Epd). assert (q' = q) as -> by congruence. rewrite Epd.
      split; [done|]. split; [intros Hl'; congruence|]. intros t2 u2 e2 He2 Hne. rewrite Hn in He2 by (intros Hx; by apply Hne). by apply (Hap t2 u2).
  - unfold contents. rewrite add_entry, decide_True by done. cbn [mbind option_bind]. by rewrite Hl, (backing_swap v v' a e eq_refl).
  - intros t' u' Hne. by apply (contents_step v v' D D a a ch).
Qed.
End add.

(** [spt_add] on a page that may or may not be there. *)
Lemma spt_add_spec v D a t p e :
  vm_inv v D a → procs v !! t = Some p → user_page (upage e) → loaded e = false → type_ok v D a (pagedir p) e →
  (∀ t' u' e', entry_at v t' u' = Some e' → apart a e e') →
  ∃ ok v', spt_add v t e = Ok (ok, v') ∧ vm_inv v' D a ∧ cur v' = cur v ∧ frame_table v' = frame_table v ∧ procs_like v v'
    ∧ (if (ok : bool) then
         entry_at v t (upage e) = None ∧ contents v' a t (upage e) = visible e <$> backing v a e
         ∧ (∀ t' u', entry_at v' t' u' = if decide ((t', u') = (t, upage e)) then Some e else entry_at v t' u')
         ∧ ∀ t' u', (t', u') ≠ (t, upage e) → contents v' a t' u' = contents v a t' u'
       else (is_Some (entry_at v t (upage e)) ∨ vsupply v (vcalls v) = false) ∧ carries v a v' a ∧ procs v' = procs v).
Proof.
  intros H Hp Hu Hl Hty Hap. destruct (kmalloc_carries v D a H) as [H1 C1]. unfold spt_add, kmalloc in *. cbn [snd] in *.
  set (v1 := VM _ _ _ _ _ _ _ _ _ _ _ _) in *.
  assert (Hlike : procs_like v v1) by apply C1.
  destruct (vsupply v (vcalls v)) eqn:Es.
  2: { rewrite Z.eqb_refl. exists false, v1. split; [done|]. do 4 (split; [done|]). split; [by right|by split]. }
  rewrite (proj2 (Z.eqb_neq _ 0)) by lia. destruct (po_table v D (vi_procs v D a H) t p Hp) as [[s Hs] _].
  assert (Eg : get_table v1 t = Ok s). { unfold get_table, get_proc. change (procs v1) with (procs v). rewrite Hp. cbn [from_opt mbind res_bind]. by rewrite Hs. }
  rewrite Eg. cbn [mbind res_bind].
  assert (Ee : s !! upage e = entry_at v t (upage e)). { unfold entry_at. rewrite Hp. cbn [mbind option_bind]. by rewrite Hs. }
  rewrite Ee. destruct (entry_at v t (upage e)) as [e0|] eqn:He0.
  - exists false, v1. split; [done|]. do 4 (split; [done|]). split; [by left|by split].
  - destruct (inv_add v1 D a H1 t p e Hp He0 Hu Hl Hty Hap) as (HI & HC & HO). exists true, (put_entry v1 t e). split; [done|]. split; [done|].
    split; [done|]. split; [done|]. split; [destruct (add_like v1 D a H1 t e) as [L1 L2]; by split|]. split; [done|]. split; [by rewrite HC, (backing_swap v v1 a e eq_refl)|]. split; [intros t' u'; apply (add_entry v1 t p e Hp)|].
    intros t' u' Hne. rewrite HO by done. by apply same_contents.
Qed.

(** ** Page faults *)

Definition zeros : list Z := replicate (Z.to_nat PGSIZE) 0.
#[global] Opaque zeros.

(** The page [u] of the running process may be new; nothing else is visible. *)
Record grows (u : Z) (v : vm) (a : afs) (v' : vm) (a' : afs) : Prop := {
  gr_cur : cur v' = cur v;
  gr_like : procs_like v v';
  gr_moved : moved a a';
  gr_contents t u' : (t, u') ≠ (cur v, u) ∨ is_Some (entry_at v t u') → contents v' a' t u' = contents v a t u';
  gr_new : entry_at v (cur v) u = None → entry_at v' (cur v) u = None ∨ contents v' a' (cur v) u = Some zeros;
  gr_old t u' : is_Some (entry_at v t u') → fixed <$> entry_at v' t u' = fixed <$> entry_at v t u'
}.

Lemma like_trans v1 v2 v3 : procs_like v1 v2 → procs_like v2 v3 → procs_like v1 v3.
Proof. intros [A1 _] [B1 B2]. split; [|done]. intros t. by rewrite B1, A1. Qed.
Lemma carries_grows u v a v1 a1 v2 a2 : grows u v a v1 a1 → carries v1 a1 v2 a2 → grows u v a v2 a2.
Proof.
  intros [A1 A2 A3 A4 A5 A6] [B1 B2 B3 B4 B5 B6]. split.
  - congruence.
  - by apply (like_trans v v1).
  - by apply (moved_trans a a1).
  - intros t u' Hx. rewrite B1. by apply A4.
  - intros Hn. destruct (A5 Hn) as [Hn1|Hz]; [left|right; by rewrite B1].
    specialize (B5 (cur v) u). rewrite Hn1 in B5. by destruct (entry_at v2 (cur v) u).
  - intros t u' Hs. rewrite B5. by apply A6.
Qed.
Lemma grows_refl u v D a : vm_inv v D a → grows u v a v a.
Proof. intros H. split; try done; [|by left]. split; [done|]. intros t p Hp. by apply (po_table v D (vi_procs v D a H) t p). Qed.

Definition exhausted (v : vm) : Prop := swap_full v ∨ all_pinned v.

(** Loading the page [u] on behalf of [v]. *)
Lemma try_load u v a v1 D1 a1 va :
  grows u v a v1 a1 → vm_inv v1 D1 a1 → 2 ≤ Zlength (frame_table v1) → pg_round_down va = u →
  (spt_load_page v1 (cur v) va = Panic ∧ exhausted v1) ∨
  ∃ ok v' D' a', spt_load_page v1 (cur v) va = Ok (ok, v') ∧ vm_inv v' D' a' ∧ grows u v a v' a'
    ∧ if (ok : bool) then (∃ e, entry_at v' (cur v) u = Some e ∧ loaded e = true) ∧ Zlength (frame_table v1) ≤ Zlength (frame_table v')
      else Zlength (frame_table v1) ≤ Zlength (frame_table v') + 1 ∧
        match entry_at v1 (cur v) u with Some e => loaded e = true ∨ cannot_load v1 D1 a1 u | None => v' = v1 end.
Proof.
  intros G H1 Hlen Eu. pose proof (spt_load_page_spec v1 D1 a1 va H1 (or_introl Hlen)) as Hs. cbv zeta in Hs. rewrite Eu, (gr_cur _ _ _ _ _ G) in Hs.
  destruct (entry_at v1 (cur v) u) as [e|] eqn:He.
  - destruct (loaded e) eqn:Hl.
    + right. exists false, v1, D1, a1. split; [done|]. split; [done|]. split; [done|]. split; [lia|by left].
    + destruct Hs as [Hs|(ok & v' & D' & a' & E & HI & HC & Hok)]; [by left|right]. exists ok, v', D', a'. split; [done|]. split; [done|].
      split; [by apply (carries_grows u v a v1 a1)|]. destruct ok.
      * destruct Hok as [[k Hk] Hle]. split; [by exists (with_frame e k)|done].
      * destruct Hok as [Hc Hle]. split; [done|by right].
  - right. exists false, v1, D1, a1. split; [done|]. split; [done|]. split; [done|]. split; [lia|done].
Qed.

(** The stack may grow to the page of [va]. *)
Definition may_grow (v : vm) (va : Z) (user : bool) (esp : Z) : Prop :=
  u32 ((if user then esp else default 0 (esp_on_syscall <$> procs v !! cur v)) - 32) ≤ va
  ∧ PHYS_BASE - pg_round_down va ≤ 8 * 1024 * 1024.

(** Why the handler gives up. *)
Definition fatal (v : vm) (a : afs) (va : Z) (user : bool) (esp : Z) : Prop :=
  va < 0x08048000
  ∨ (∃ e, entry_at v (cur v) (pg_round_down va) = Some e ∧ loaded e = true)
  ∨ (entry_at v (cur v) (pg_round_down va) = None ∧ ¬ may_grow v va user esp)
  ∨ ∃ v1 D1 a1, vm_inv v1 D1 a1 ∧ grows (pg_round_down va) v a v1 a1 ∧ cannot_load v1 D1 a1 (pg_round_down va).

(** The attempt to grow the stack. *)
Lemma grow_spec v D a u va :
  vm_inv v D a → user_page u → 3 ≤ Zlength (frame_table v) → pg_round_down va = u →
  let r := ('(ok, v1) ← spt_set_zero v (cur v) u true; if (ok : bool) then spt_load_page v1 (cur v) u else Ok (false, v1)) in
  (r = Panic ∧ ∃ v1 D1 a1, vm_inv v1 D1 a1 ∧ grows u v a v1 a1 ∧ exhausted v1) ∨
  ∃ ok v' D' a', r = Ok (ok, v') ∧ vm_inv v' D' a' ∧ grows u v a v' a' ∧ 2 ≤ Zlength (frame_table v')
    ∧ if (ok : bool) then (∃ e, entry_at v' (cur v) u = Some e ∧ loaded e = true) ∧ Zlength (frame_table v) ≤ Zlength (frame_table v')
      else is_Some (entry_at v (cur v) u) ∧ procs v' = procs v
        ∨ ∃ v1 D1 a1, vm_inv v1 D1 a1 ∧ grows u v a v1 a1 ∧ cannot_load v1 D1 a1 u.
Proof.
  intros H Hu Hlen Eu r. destruct (po_cur v D (vi_procs v D a H)) as (p & Hp & _). set (e0 := SptEntry u 0 PAGE_ZERO true false 0 0 0 PGSIZE 0 (-1)).
  assert (Er : spt_set_zero v (cur v) u true = spt_add v (cur v) e0) by (unfold spt_set_zero; by rewrite user_page_round).
  unfold r. rewrite Er. destruct (spt_add_spec v D a (cur v) p e0 H Hp Hu eq_refl I) as (ok & v1 & E & H1 & Ec & Et & Hl & Hok).
  { intros t' u' e' _. by split. }
  rewrite E. cbn [mbind res_bind]. destruct ok.
  - destruct Hok as (Hn & Hc & Hent & Hoth). assert (G : grows u v a v1 a).
    { split; [done|done|apply moved_refl| | |].
      - intros t u' Hx. apply Hoth. intros [= -> ->]. destruct Hx as [Hx|[e He]]; [done|]. change (upage e0) with u in *. congruence.
      - intros _. right. exact Hc.
      - intros t u' [e He]. rewrite Hent, decide_False; [done|]. intros [= -> ->]. change (upage e0) with u in *. congruence. }
    destruct (try_load u v a v1 D a u G H1) as [[E' Hx]|(ok & v' & D' & a' & E' & HI & G' & Hok)]; [by rewrite Et; lia|by apply user_page_round| |].
    + left. rewrite E'. split; [done|]. by exists v1, D, a.
    + right. exists ok, v', D', a'. rewrite E'. split; [done|]. split; [done|]. split; [done|]. rewrite Et in Hok. destruct ok.
      * split; [lia|done].
      * destruct Hok as [Hle Hm]. split; [lia|]. right. rewrite Hent, decide_True in Hm by done. destruct Hm as [?|Hm]; [done|]. by exists v1, D, a.
  - destruct Hok as (Hwhy & C & Epr). right. exists false, v1, D, a. split; [done|]. split; [done|].
    split; [apply (carries_grows u v a v a); [by apply (grows_refl u v D)|done]|]. rewrite Et. split; [lia|]. destruct Hwhy as [Hs|Hs]; [by left|right].
    exists v, D, a. split; [done|]. split; [by apply (grows_refl u v D)|]. right. by left.
Qed.

(** A page is present exactly when its entry is loaded. *)
Lemma present_loaded v D a u :
  vm_inv v D a → user_page u →
  flag (pte_at v D (cur v) u) PTE_P = match entry_at v (cur v) u with Some e => loaded e | None => false end.
Proof.
  intros H Hu. destruct (po_cur v D (vi_procs v D a H)) as (p & Hp & _).
  pose proof (lo_pte v D (vi_links v D a H) (cur v) u (mk_is_Some _ _ Hp) Hu) as Hl.
  destruct (entry_at v (cur v) u) as [e|]; [|done]. destruct (loaded e); [apply Hl|done].
Qed.

Lemma user_page_of va : 0 ≤ va < PHYS_BASE → user_page (pg_round_down va).
Proof.
  intros Hva. unfold PHYS_BASE in *. destruct (pg_round_down_split va) as (E & Ho & _ & Hr); [lia|]. split; [unfold PHYS_BASE; lia|].
  rewrite pg_round_down_spec by lia. rewrite Zminus_mod_idemp_r, Z.sub_diag. done.
Qed.

(** After the attempt to grow the stack. *)
Lemma fault_rest v D a va v2 D2 a2 (np : bool) :
  vm_inv v D a → grows (pg_round_down va) v a v2 a2 → vm_inv v2 D2 a2 → 2 ≤ Zlength (frame_table v2) →
  let r := if np then spt_load_page v2 (cur v) va else Ok (false, v2) in
  (r = Panic ∧ ∃ v1 D1 a1, vm_inv v1 D1 a1 ∧ grows (pg_round_down va) v a v1 a1 ∧ exhausted v1) ∨
  ∃ ok v' D' a', r = Ok (ok, v') ∧ vm_inv v' D' a' ∧ grows (pg_round_down va) v a v' a' ∧ Zlength (frame_table v2) ≤ Zlength (frame_table v') + 1
    ∧ if (ok : bool) then np = true ∧ ∃ e, entry_at v' (cur v) (pg_round_down va) = Some e ∧ loaded e = true
      else np = false ∨ entry_at v2 (cur v) (pg_round_down va) = None
        ∨ (∃ e, entry_at v2 (cur v) (pg_round_down va) = Some e ∧ loaded e = true) ∨ cannot_load v2 D2 a2 (pg_round_down va).
Proof.
  intros H G2 H2 Hlen r. unfold r. destruct np.
  - destruct (try_load (pg_round_down va) v a v2 D2 a2 va G2 H2 Hlen eq_refl) as [[E Hx]|(ok & v' & D' & a' & E & HI & G' & Hok)].
    + left. split; [done|]. by exists v2, D2, a2.
    + right. exists ok, v', D', a'. split; [done|]. split; [done|]. split; [done|]. destruct ok.
      * destruct Hok as [He Hle]. split; [lia|done].
      * destruct Hok as [Hle Hm]. split; [done|]. right. destruct (entry_at v2 (cur v) (pg_round_down va)) as [e|]; [|by left].
        right. destruct Hm as [Hl|Hc]; [left; by exists e|by right].
  - right. exists false, v2, D2, a2. split; [done|]. split; [done|]. split; [done|]. split; [lia|by left].
Qed.

Lemma page_fault_spec v D a va user esp :
  vm_inv v D a → 3 ≤ Zlength (frame_table v) → 0 ≤ va < PHYS_BASE → let u := pg_round_down va in
  let np := negb (flag (pte_at v D (cur v) u) PTE_P) in
  (page_fault v va np user esp = Panic ∧ ∃ v1 D1 a1, vm_inv v1 D1 a1 ∧ grows u v a v1 a1 ∧ exhausted v1) ∨
  ∃ ok v' D' a', page_fault v va np user esp = Ok (ok, v') ∧ vm_inv v' D' a' ∧ grows u v a v' a'
    ∧ if (ok : bool) then ∃ e, entry_at v' (cur v) u = Some e ∧ loaded e = true else fatal v a va user esp.
Proof.
  intros H Hlen Hva u np. pose proof (user_page_of va Hva) as Hu. fold u in Hu. unfold page_fault, is_user_vaddr.
  rewrite (proj2 (Z.ltb_lt va PHYS_BASE)) by lia. cbn [andb]. pose proof (grows_refl u v D a H) as G0.
  pose proof (present_loaded v D a u H Hu) as Hpl.
  destruct (Z.leb_spec 0x08048000 va) as [Hlow|Hlow].
  2: { right. exists false, v, D, a. split; [done|]. split; [done|]. split; [done|]. by left. }
  destruct (po_cur v D (vi_procs v D a H)) as (p & Hp & _). unfold get_proc. rewrite Hp. cbn [from_opt mbind res_bind].
  set (esp' := if user then esp else esp_on_syscall p).
  assert (Hmg : may_grow v va user esp ↔ u32 (esp' - 32) ≤ va ∧ PHYS_BASE - u ≤ 8 * 1024 * 1024) by (unfold may_grow; by rewrite Hp).
  assert (Hnogrow : ¬ may_grow v va user esp →
    let r := if np then spt_load_page v (cur v) va else Ok (false, v) in
    (r = Panic ∧ ∃ v1 D1 a1, vm_inv v1 D1 a1 ∧ grows u v a v1 a1 ∧ exhausted v1) ∨
    ∃ ok v' D' a', r = Ok (ok, v') ∧ vm_inv v' D' a' ∧ grows u v a v' a'
      ∧ if (ok : bool) then ∃ e, entry_at v' (cur v) u = Some e ∧ loaded e = true else fatal v a va user esp).
  { intros Hno. destruct (fault_rest v D a va v D a np H G0 H ltac:(lia)) as [Hx|(ok & v' & D' & a' & E & HI & G & _ & Hok)]; [by left|right].
    exists ok, v', D', a'. split; [done|]. split; [done|]. split; [done|]. destruct ok; [apply Hok|]. right.
    destruct Hok as [Hnp|[Hn|[Hl|Hc]]].
    - left. unfold np in Hnp. rewrite Hpl in Hnp. fold u. destruct (entry_at v (cur v) u) as [e|]; [exists e; by destruct (loaded e)|done].
    - right. by left.
    - by left.
    - right. right. by exists v, D, a. }
  destruct (Z.leb_spec (u32 (esp' - 32)) va) as [Hs1|Hs1]; cbn [andb mbind res_bind]; [|apply Hnogrow; rewrite Hmg; lia].
  fold u. destruct (Z.leb_spec (PHYS_BASE - u) (8 * 1024 * 1024)) as [Hs2|Hs2]; cbn [mbind res_bind]; [|apply Hnogrow; rewrite Hmg; lia].
  destruct (grow_spec v D a u va H Hu Hlen eq_refl) as [[E Hx]|(ok & v2 & D2 & a2 & E & H2 & G2 & Hlen2 & Hok)]; rewrite E; cbn [mbind res_bind]; [by left|].
  destruct ok; [right; exists true, v2, D2, a2; split; [done|]; split; [done|]; split; [done|]; apply Hok|].
  destruct (fault_rest v D a va v2 D2 a2 np H G2 H2 Hlen2) as [Hx|(ok & v' & D' & a' & E' & HI & G & _ & Hok2)]; [by left|right].
  exists ok, v', D', a'. split; [done|]. split; [done|]. split; [done|]. destruct ok; [apply Hok2|].
  destruct Hok as [[[e He] Epr]|Hc]; [|right; right; by right]. right.
  assert (He2 : entry_at v2 (cur v) u = Some e) by (rewrite <- He; unfold entry_at; by rewrite Epr).
  destruct Hok2 as [Hnp|[Hn|[Hl|Hc]]].
  - left. unfold np in Hnp. rewrite Hpl, He in Hnp. exists e. by destruct (loaded e).
  - fold u in Hn. congruence.
  - left. destruct Hl as (e' & He' & Hl'). fold u in He'. exists e. fold u. split; [done|]. congruence.
  - right. right. by exists v2, D2, a2.
Qed.

(** ** The processor *)

Lemma access_spec v D a va write :
  vm_inv v D a → 0 ≤ va < PHYS_BASE → let u := pg_round_down va in
  match mmu_access (mach v) va write with
  | Some (k, m) =>
      ∃ e, entry_at v (cur v) u = Some e ∧ loaded e = true ∧ k = kpage e + pg_ofs va ∧ (write = true → writable e = true)
        ∧ vm_inv (set_mach v m) D a ∧ (∀ t u', contents (set_mach v m) a t u' = contents v a t u')
        ∧ (write = true → flag (pte_at (set_mach v m) D (cur v) u) PTE_D = true)
  | None => ∀ e, entry_at v (cur v) u = Some e → loaded e = true → write = true ∧ writable e = false
  end.
Proof.
  intros H Hva u. pose proof (user_page_of va Hva) as Hu. fold u in Hu. destruct (po_cur v D (vi_procs v D a H)) as (p & Hp & Ecr).
  destruct (po_table v D (vi_procs v D a H) _ p Hp) as [_ [ts Hts]]. pose proof (vi_dirs v D a H) as HD. pose proof (vi_tlb v D a H) as HT.
  assert (Ept : pte (mach v) ts va = pte_at v D (cur v) u).
  { unfold pte_at, pte_of. rewrite Hp, Hts. symmetry. apply pte_round. unfold PHYS_BASE in Hva. lia. }
  pose proof (mmu_access_spec (mach v) D ts va write HD HT ltac:(by rewrite Ecr) Hva) as Hacc. rewrite Ept in Hacc. unfold translate, allows in Hacc. rewrite Ept in Hacc.
  pose proof (lo_pte v D (vi_links v D a H) (cur v) u (mk_is_Some _ _ Hp) Hu) as Hlp.
  destruct (mmu_access (mach v) va write) as [[k m]|].
  - destruct Hacc as (Htr & w & Hc & W1 & W2 & W3 & _ & W5). rewrite Ecr in Hc.
    destruct (entry_at v (cur v) u) as [e|] eqn:He; [|by rewrite Hlp in Htr]. destruct (loaded e) eqn:Hl; [|by rewrite Hlp in Htr].
    destruct Hlp as (L1 & L2 & L3). rewrite L1, L3 in Htr. simpl in Htr. destruct (negb write || writable e) eqn:Ewr; [|done].
    injection Htr as <-. rewrite L2. assert (Hwr : write = true → writable e = true) by (intros ->; done).
    assert (Hfd : frame_data (set_mach v m) e = frame_data v e).
    { destruct (lo_loaded v D (vi_links v D a H) _ u e He Hl) as (x & f & Hf & E1 & E2).
      destruct (lo_frame v D (vi_links v D a H) x f Hf) as (e1 & He1 & _ & Hk). assert (e1 = e) as -> by congruence.
      destruct (lo_spare v D (vi_links v D a H) x f Hf) as (S1 & S2 & _). apply peek_ext. rewrite Hk. intros z Hz. apply (pc_mem _ _ _ _ _ _ Hc).
      rewrite (page_of_in (fkpage f)); [done|apply (used_kpage (pal (mach v))); [apply HD|done]|done]. }
    assert (Hround : pg_round_down u = u) by (by apply user_page_round).
    assert (Hpte : ∀ pd u', is_Some (D !! pd) → 0 ≤ u' < PHYS_BASE →
      pte_of m D pd u' = if decide (same_page (pagedir p) u pd u') then w else pte_of (mach v) D pd u').
    { intros pd u' Hs Hu'. rewrite (pte_changed_of (mach v) m D (pagedir p) va w pd u' Hc Hs Hu').
      apply decide_ext. unfold same_page. rewrite Hround. done. }
    destruct (inv_access v D a H p u e m w Hp He Hl) as (HI & HC & HO).
    + apply Hc.
    + apply Hc.
    + split; apply Hc.
    + intros x. by apply (pte_changed_used (mach v) m D (pagedir p) va w).
    + intros x Hx _. by apply (pc_mem _ _ _ _ _ _ Hc).
    + exact Hpte.
    + rewrite W1, W3, L2, L3. split; [exact W2|]. split; reflexivity.
    + rewrite W5. intros [Hd|Hd]%orb_true_iff; [|auto]. destruct (da_clean v D a (vi_data v D a H) _ _ e He Hl) as [Hcl _].
      apply Hcl. destruct (lo_entry v D (vi_links v D a H) _ _ e He) as [-> _]. exact Hd.
    + rewrite W5. intros [Hd _]%orb_false_iff. split; [exact Hd|exact Hfd].
    + exists e. split; [reflexivity|]. split; [exact Hl|]. split; [reflexivity|]. split; [exact Hwr|]. split; [exact HI|]. split.
      * intros t u'. destruct (decide ((t, u') = (cur v, u))) as [[= -> ->]|Hne]; [|by apply HO]. rewrite HC, Hfd. unfold contents. rewrite He.
        cbn [mbind option_bind]. by rewrite Hl.
      * intros ->. destruct (access_ptes v D a H p u e m w Hp He) as [-> _]; [exact Hpte|]. rewrite W5. apply orb_true_r.
  - intros e He Hl. rewrite He, Hl in Hlp. destruct Hlp as (L1 & L2 & L3). rewrite L1, L3 in Hacc. simpl in Hacc.
    destruct write, (writable e); done.
Qed.

Lemma grows_mach u v a w aw m :
  grows u v a w aw → (∀ t u', contents (set_mach w m) aw t u' = contents w aw t u') → grows u v a (set_mach w m) aw.
Proof.
  intros [G1 G2 G3 G4 G5 G6] Hc. split; [done|by destruct G2|done| | |done].
  - intros t u' Hx. rewrite Hc. by apply G4.
  - intros Hn. destruct (G5 Hn); [by left|right]. by rewrite Hc.
Qed.

(** What the error code of the fault says. *)
Lemma fault_present v D a va :
  vm_inv v D a → 0 ≤ va < PHYS_BASE →
  ∃ p k, get_proc v (cur v) = Ok p ∧ pagedir_get_page (mach v) (pagedir p) va = Ok k
    ∧ (k =? 0) = negb (flag (pte_at v D (cur v) (pg_round_down va)) PTE_P).
Proof.
  intros H Hva. destruct (po_cur v D (vi_procs v D a H)) as (p & Hp & _). destruct (po_table v D (vi_procs v D a H) _ p Hp) as [_ [ts Hts]].
  eexists p, _. unfold get_proc. rewrite Hp. split; [done|].
  rewrite (pagedir_get_page_spec (mach v) D (pagedir p) ts (vi_dirs v D a H) Hts va Hva). split; [done|].
  unfold pte_at, pte_of. rewrite Hp, Hts, pte_round by (unfold PHYS_BASE in Hva; lia). destruct (flag (pte (mach v) ts va) PTE_P); [|done].
  apply Z.eqb_neq. destruct (page_at_aligned (pte (mach v) ts va) (pte_range (mach v) ts va)) as [_ Hb].
  destruct (pg_round_down_split va) as (_ & _ & ? & _); unfold PHYS_BASE in *; lia.
Qed.

(** A page that is loaded faults when it must not be written; the handler gives up. *)
Lemma protection_fault v D a va user esp e :
  vm_inv v D a → 0 ≤ va < PHYS_BASE → entry_at v (cur v) (pg_round_down va) = Some e →
  ∃ v', page_fault v va false user esp = Ok (false, v') ∧ vm_inv v' D a ∧ carries v a v' a ∧ procs v' = procs v.
Proof.
  intros H Hva He. pose proof (user_page_of va Hva) as Hu. destruct (po_cur v D (vi_procs v D a H)) as (p & Hp & _).
  assert (C0 : carries v a v a).
  { split; try done; [|intros id xs; by apply same_files]. split; [done|]. intros t q Hq. by apply (po_table v D (vi_procs v D a H) t q). }
  unfold page_fault. destruct (is_user_vaddr va && _); [|by exists v]. unfold get_proc. rewrite Hp. cbn [from_opt mbind res_bind].
  destruct (_ && _); [|by exists v]. destruct (_ <=? _); [|by exists v].
  set (e0 := SptEntry (pg_round_down va) 0 PAGE_ZERO true false 0 0 0 PGSIZE 0 (-1)).
  assert (Er : spt_set_zero v (cur v) (pg_round_down va) true = spt_add v (cur v) e0) by (unfold spt_set_zero; by rewrite user_page_round).
  rewrite Er. destruct (spt_add_spec v D a (cur v) p e0 H Hp Hu eq_refl I) as (ok & v1 & E & H1 & _ & _ & _ & Hok).
  { intros t' u' e' _. by split. }
  rewrite E. cbn [mbind res_bind]. destruct ok.
  - destruct Hok as [Hn _]. change (upage e0) with (pg_round_down va) in Hn. congruence.
  - exists v1. destruct Hok as (_ & C & Epr). split; [done|]. split; [done|]. by split.
Qed.

(** An access with the faults that it causes.  The page has then been brought in and, for
    a store, is marked dirty, or the process is to be killed. *)
Lemma touch_spec v D a va write user esp :
  vm_inv v D a → 3 ≤ Zlength (frame_table v) → 0 ≤ va < PHYS_BASE → let u := pg_round_down va in
  (touch 2 v va write user esp = Panic ∧ ∃ v1 D1 a1, vm_inv v1 D1 a1 ∧ grows u v a v1 a1 ∧ exhausted v1) ∨
  ∃ r v' D' a', touch 2 v va write user esp = Ok (r, v') ∧ vm_inv v' D' a' ∧ grows u v a v' a'
    ∧ match r with
      | Some k => ∃ e, entry_at v' (cur v) u = Some e ∧ loaded e = true ∧ k = kpage e + pg_ofs va
          ∧ (write = true → writable e = true ∧ flag (pte_at v' D' (cur v) u) PTE_D = true)
      | None => fatal v a va user esp ∨ write = true ∧ ∃ e, entry_at v' (cur v) u = Some e ∧ writable e = false
      end.
Proof.
  intros H Hlen Hva u. pose proof (user_page_of va Hva) as Hu. fold u in Hu. cbn [touch].
  pose proof (access_spec v D a va write H Hva) as Hacc. cbv zeta in Hacc. fold u in Hacc.
  destruct (mmu_access (mach v) va write) as [[k m]|].
  { destruct Hacc as (e & He & Hl & Ek & Hwr & HI & HC & Hd). right. exists (Some k), (set_mach v m), D, a. split; [done|]. split; [done|].
    split; [by apply grows_mach; [apply (grows_refl u v D)|]|]. exists e. split; [done|]. split; [done|]. split; [done|]. auto. }
  destruct (fault_present v D a va H Hva) as (p & k & Ep & Ek & Enp). rewrite Ep. cbn [mbind res_bind]. rewrite Ek. cbn [mbind res_bind]. rewrite Enp.
  destruct (page_fault_spec v D a va user esp H Hlen Hva) as [Hx|(ok & v1 & D1 & a1 & E & H1 & G1 & Hok)].
  { left. destruct Hx as [Hx1 Hx2]. fold u in Hx1, Hx2 |- *. by rewrite Hx1. }
  fold u in E, G1, Hok |- *. rewrite E. cbn [mbind res_bind]. destruct ok.
  2: { right. exists None, v1, D1, a1. split; [done|]. split; [done|]. split; [done|]. by left. }
  destruct Hok as (e & He & Hl). pose proof (gr_cur _ _ _ _ _ G1) as Ec.
  pose proof (access_spec v1 D1 a1 va write H1 Hva) as Hacc1. cbv zeta in Hacc1. fold u in Hacc1. rewrite Ec in Hacc1.
  destruct (mmu_access (mach v1) va write) as [[k1 m]|].
  { destruct Hacc1 as (e1 & He1 & Hl1 & Ek1 & Hwr & HI & HC & Hd). right. exists (Some k1), (set_mach v1 m), D1, a1. split; [done|].
    split; [done|]. split; [by apply grows_mach|]. exists e1. split; [done|]. split; [done|]. split; [done|]. auto. }
  destruct (Hacc1 e He Hl) as [Ew Hnw].
  destruct (fault_present v1 D1 a1 va H1 Hva) as (p1 & k1 & Ep1 & Ek1 & Enp1). rewrite Ep1. cbn [mbind res_bind]. rewrite Ek1. cbn [mbind res_bind]. rewrite Enp1.
  fold u. rewrite (present_loaded v1 D1 a1 u H1 Hu), Ec, He, Hl. cbn [negb].
  destruct (protection_fault v1 D1 a1 va user esp e H1 Hva) as (v2 & E2 & H2 & C2 & Epr); [by rewrite Ec|]. rewrite E2. cbn [mbind res_bind].
  right. exists None, v2, D1, a1. split; [done|]. split; [done|]. split; [by apply (carries_grows u v a v1 a1)|]. right. split; [done|].
  exists e. split; [|done]. rewrite <- He. unfold entry_at. by rewrite Epr.
Qed.

(** ** Flat memory *)

(** The page as the program expects it: a page that is not there yet would be a new page
    of the stack. *)
Definition seen (v : vm) (a : afs) (u : Z) : option (list Z) :=
  match entry_at v (cur v) u with Some _ => contents v a (cur v) u | None => Some zeros end.

Lemma grows_seen u v a v' a' e :
  grows u v a v' a' → entry_at v' (cur v) u = Some e → contents v' a' (cur v) u = seen v a u.
Proof.
  intros G He. unfold seen. destruct (entry_at v (cur v) u) eqn:He0.
  - apply (gr_contents _ _ _ _ _ G). right. by eexists.
  - destruct (gr_new _ _ _ _ _ G He0) as [Hn|Hz]; [congruence|done].
Qed.

Lemma peek_poke r k i b n : 0 ≤ i < n → peek (blit r (k + i) [b]) k n = <[Z.to_nat i := b]> (peek r k n).
Proof.
  intros Hi. apply list_eq. intros j. pose proof (length_peek r k n ltac:(lia)) as L1. pose proof (length_peek (blit r (k + i) [b]) k n ltac:(lia)) as L2.
  destruct (decide (Z.of_nat j < n)) as [Hj|Hj].
  - rewrite lookup_peek by done. destruct (decide (j = Z.to_nat i)) as [->|Hne].
    + rewrite list_lookup_insert_eq by lia. rewrite blit_in by (simpl; lia). replace (Z.to_nat (k + Z.of_nat (Z.to_nat i) - (k + i))) with O by lia. done.
    + rewrite list_lookup_insert_ne by done. rewrite lookup_peek by done. f_equal. apply blit_out. simpl. lia.
  - rewrite !lookup_ge_None_2; [done|rewrite length_insert; lia|lia].
Qed.
Lemma visible_insert e i b l : visible e (<[i := b]> l) = <[i := b]> (visible e l).
Proof.
  unfold visible. destruct (decide _); [|done]. apply list_eq. intros j.
  destruct (decide (j < Z.to_nat (read_bytes e))%nat) as [Hj|Hj].
  - rewrite lookup_take_lt by done. destruct (decide (j = i)) as [->|Hne].
    + destruct (decide (i < length l)%nat); [by rewrite !list_lookup_insert_eq by (rewrite ?length_take; lia)|].
      rewrite !lookup_ge_None_2; [done|rewrite length_insert, length_take; lia|rewrite length_insert; lia].
    + by rewrite !list_lookup_insert_ne, lookup_take_lt by done.
  - rewrite !lookup_ge_None_2; [done|rewrite length_insert, length_take; lia|rewrite length_take; lia].
Qed.

Lemma visible_lookup e l i x : visible e l !! i = Some x → l !! i = Some x.
Proof. unfold visible. destruct (decide _); [|done]. intros Hx. by apply lookup_take_Some in Hx as [? _]. Qed.

(** Storing a byte in a page that is marked dirty. *)
Lemma inv_store v D a va b e :
  vm_inv v D a → 0 ≤ va < PHYS_BASE → let u := pg_round_down va in
  entry_at v (cur v) u = Some e → loaded e = true → writable e = true → flag (pte_at v D (cur v) u) PTE_D = true →
  let v' := set_vmem v (blit (vmem v) (kpage e + pg_ofs va) [b]) in
  vm_inv v' D a ∧ contents v' a (cur v) u = <[Z.to_nat (pg_ofs va) := b]> <$> contents v a (cur v) u
  ∧ ∀ t u', (t, u') ≠ (cur v, u) → contents v' a t u' = contents v a t u'.
Proof.
  intros H Hva u He Hl Hwr Hd v'. destruct (po_cur v D (vi_procs v D a H)) as (p & Hp & _). pose proof (user_page_of va Hva) as Hu. fold u in Hu.
  assert (Hofs : 0 ≤ pg_ofs va < PGSIZE) by (rewrite pg_ofs_mod; by apply Z.mod_pos_bound).
  destruct (lo_loaded v D (vi_links v D a H) _ u e He Hl) as (x & f & Hf & E1 & E2).
  destruct (lo_frame v D (vi_links v D a H) x f Hf) as (e1 & He1 & _ & Hk). assert (e1 = e) as -> by congruence.
  destruct (lo_spare v D (vi_links v D a H) x f Hf) as (S1 & S2 & S3). rewrite <- Hk in S1, S2, S3.
  assert (Hal : kpage e mod PGSIZE = 0) by (apply (used_kpage (pal (mach v))); [apply (vi_dirs v D a H)|done]).
  assert (Hmem : ∀ z, page_of z ≠ kpage e → vmem v' z = vmem v z).
  { intros z Hz. apply blit_out. pose proof (page_outside (kpage e) z Hal Hz). simpl. lia. }
  destruct (dirs_pages (mach v) (mach v') D) as [HD Hs]; [apply H|apply (vi_dirs v D a H)|done|done|done| | |].
  { intros k [Hk'| ->]; [by apply (busy_used v D a k H); left|apply (vi_dirs v D a H)]. }
  { intros z Hz. apply Hmem. intros Ez. rewrite Ez in Hz. by destruct Hz. }
  pose proof (lo_pte v D (vi_links v D a H) (cur v) u (mk_is_Some _ _ Hp) Hu) as Hlp. rewrite He, Hl in Hlp.
  destruct (inv_access v D a H p u e (mach v') (pte_at v D (cur v) u) Hp He Hl) as (HI & HC & HO).
  - exact HD.
  - apply (tlb_ok_same (mach v) D); [apply H|reflexivity|reflexivity|by intros|exact Hs].
  - split; reflexivity.
  - intros k. reflexivity.
  - intros z _ Hz. by apply Hmem.
  - intros pd u' Hpd Hu'. rewrite (Hs pd u' Hu'). destruct (decide (same_page (pagedir p) u pd u')) as [[-> Er]|]; [|reflexivity].
    unfold pte_at. rewrite Hp. destruct Hpd as [ts Hts]. rewrite (pte_of_page (mach v) D (pagedir p) ts u u' Hts (proj1 Hu) Hu' Er).
    unfold pte_of. by rewrite Hts.
  - exact Hlp.
  - by intros _.
  - rewrite Hd. discriminate.
  - change (set_mach v (mach v')) with v' in HI, HC, HO. split; [exact HI|]. split; [|exact HO]. rewrite HC. unfold contents. rewrite He.
    cbn [mbind option_bind]. rewrite Hl. cbn [fmap option_fmap option_map]. f_equal. rewrite <- visible_insert. f_equal. by apply peek_poke.
Qed.

(** ** Correctness *)

(** Memory cannot be found for the page: the kernel panics. *)
Definition gives_out (u : Z) (v : vm) (a : afs) : Prop := ∃ v1 D1 a1, vm_inv v1 D1 a1 ∧ grows u v a v1 a1 ∧ exhausted v1.


(** C11: the clock always finds a frame.  Whatever the accessed bits are, two rounds of
    the clock end with a frame as soon as one frame is not pinned, so that [evict_frame]
    never returns null then; the page of the frame is saved and no page of any process
    changes.  Only a full swap device stops it, with a panic. *)
Theorem eviction_finds_frame v D a x :
  vm_inv v D a → 2 ≤ Zlength (frame_table v) → x ∈ frame_table v → unpinned v x →
  (evict_frame v = Panic ∧ swap_full v) ∨
  ∃ k v' a', evict_frame v = Ok (k, v') ∧ k ≠ 0 ∧ vm_inv v' D a' ∧ free_frame v' D k
    ∧ Zlength (frame_table v) ≤ Zlength (frame_table v') + 1 ∧ ∀ t u, contents v' a' t u = contents v a t u.
Proof.
  intros H Hlen Hx Hu. destruct (evict_frame_spec v D a H Hlen) as [(v' & _ & Hn)|[Hp|(k & v' & a' & E & HI & HC & Hk & _ & _ & Hl & _)]].
  - by destruct (Hn x Hx).
  - by left.
  - right. exists k, v', a'. split; [done|]. split; [|split; [done|split; [done|split; [done|apply HC]]]].
    destruct Hk as [(S & _) _]. destruct (used_kpage (pal (mach v')) k (mm_inv _ (di_mmu _ _ (vi_dirs v' D a' HI))) S) as (_ & ? & _).
    unfold PHYS_BASE in *. lia.
Qed.

(** ** A process with three pages in memory *)

Definition demo_swap : block := Block [104; 100] BLOCK_SWAP 16 (replicate 8192 0) 0 0.
Definition demo_start : vm :=
  VM demo_mmu FsBoot.demo_fs (Some demo_swap) (Some (Bm 2 [0])) ∅ [] 0
     {[1 := Proc demo_dir (Some ∅) [] 0 [] 0]} 1 1 (λ _, true) 0.
Definition empty_fs : afs := AFS ∅ ∅ ∅.

Lemma demo_entry t u : entry_at demo_start t u = None.
Proof.
  unfold entry_at. simpl. destruct (decide (t = 1)) as [->|Hne]; [by rewrite lookup_singleton_eq|by rewrite lookup_singleton_ne].
Qed.
Lemma demo_start_inv : vm_inv demo_start {[demo_dir := ∅]} empty_fs.
Proof.
  destruct demo_dirs as [HD HT]. pose proof demo_entry as He. split; [done|done| | | | |].
  - split; simpl.
    + apply NoDup_nil_2.
    + intros x. rewrite lookup_empty. split; [by intros ?%not_elem_of_nil|by intros [? ?]].
    + by intros x ?%not_elem_of_nil.
    + intros x y e e'. by rewrite lookup_empty.
  - by left.
  - split; simpl.
    + intros t p [<- <-]%lookup_singleton_Some. split; [by eexists|]. simpl. rewrite lookup_singleton_eq. by eexists.
    + by intros t t' p p' [<- _]%lookup_singleton_Some [<- _]%lookup_singleton_Some.
    + eexists. split; [apply lookup_singleton_eq|]. reflexivity.
  - split.
    + intros x f Hf. by change (@None frame_entry = Some f) in Hf.
    + intros t u e. by rewrite He.
    + intros x f Hf. by change (@None frame_entry = Some f) in Hf.
    + intros t u e. by rewrite He.
    + intros t u _ Hu. rewrite He. unfold pte_at. simpl. destruct (decide (t = 1)) as [->|Hne].
      * rewrite lookup_singleton_eq. unfold pte_of. simpl. rewrite lookup_singleton_eq. unfold pte. by rewrite lookup_empty.
      * by rewrite lookup_singleton_ne.
  - split.
    + apply FsBoot.demo_fs_empty.
    + exists demo_swap, (Bm 2 [0]). split; [done|]. split; [done|]. split; [split; [done|split; [vm_compute; congruence|by vm_compute]]|].
      split; [|vm_compute; congruence]. split_and!; [simpl; lia|simpl; lia|by vm_compute|]. simpl. by rewrite Forall_cons, Forall_nil.
    + intros t p u e _. by rewrite He.
    + intros t u e. by rewrite He.
    + intros t u e t' u' e'. by rewrite He.
Qed.

(** Adding a page of zeros and loading it. *)
Definition new_page (v : vm) (u : Z) : res vm :=
  '(_, v) ← spt_set_zero v (cur v) u true; '(_, v) ← spt_load_page v (cur v) u; Ok v.
Lemma new_page_inv v D a u v' :
  vm_inv v D a → user_page u → room v → new_page v u = Ok v' → ∃ D' a', vm_inv v' D' a'.
Proof.
  intros H Hu Hroom E. destruct (po_cur v D (vi_procs v D a H)) as (p & Hp & _).
  set (e0 := SptEntry u 0 PAGE_ZERO true false 0 0 0 PGSIZE 0 (-1)).
  assert (Er : spt_set_zero v (cur v) u true = spt_add v (cur v) e0) by (unfold spt_set_zero; by rewrite user_page_round).
  unfold new_page in E. rewrite Er in E. destruct (spt_add_spec v D a (cur v) p e0 H Hp Hu eq_refl I) as (ok & v1 & E1 & H1 & Ec & Et & _ & _).
  { intros t' u' e' _. by split. }
  rewrite E1 in E. cbn [mbind res_bind] in E. assert (Hroom1 : room v1).
  { destruct Hroom as [Hl|Hf]; [left; by rewrite Et|right]. unfold spt_add, kmalloc in E1. clear -E1 Hf.
    destruct (vsupply v (vcalls v)); [|rewrite Z.eqb_refl in E1; by injection E1 as _ <-].
    rewrite (proj2 (Z.eqb_neq _ 0)) in E1 by lia. apply bind_Ok in E1 as (s & _ & E1). by destruct (s !! upage e0); injection E1 as _ <-. }
  pose proof (spt_load_page_spec v1 D a u H1 Hroom1) as Hs. cbv zeta in Hs.
  destruct (entry_at v1 (cur v1) (pg_round_down u)) as [e|]; [destruct (loaded e)|].
  - rewrite Hs in E. injection E as <-. by exists D, a.
  - destruct Hs as [[Hs _]|(ok2 & v2 & D2 & a2 & Hs & H2 & _)]; rewrite Hs in E; [done|]. injection E as <-. by exists D2, a2.
  - rewrite Hs in E. injection E as <-. by exists D, a.
Qed.

Definition after (v : vm) (u : Z) : vm := match new_page v u with Ok v' => v' | _ => v end.
Definition demo_vm : vm := after (after (after demo_start 0x8048000) 0x8049000) 0xbffff000.

Lemma after_inv v u D a :
  vm_inv v D a → user_page u →
  match palloc_get_page (pal (mach v)) PAL_USER with Ok (k, _) => negb (k =? 0) | _ => false end = true →
  ∃ D' a', vm_inv (after v u) D' a'.
Proof.
  intros H Hu Hf. unfold after. destruct (new_page v u) as [v'| |] eqn:E; [|by exists D, a..].
  apply (new_page_inv v D a u v'); [done|done| |done]. right. destruct (palloc_get_page _ _) as [[k s]| |]; [|done..].
  exists k, s. split; [done|]. by destruct (Z.eqb_spec k 0).
Qed.
Lemma demo_vm_inv : ∃ D a, vm_inv demo_vm D a.
Proof.
  assert (Hu : ∀ u, (0 <=? u) && (u <? PHYS_BASE) && (u mod PGSIZE =? 0) = true → user_page u).
  { intros u [[H1 H2]%andb_true_iff H3]%andb_true_iff. split; [|by apply Z.eqb_eq]. apply Z.leb_le in H1. apply Z.ltb_lt in H2. lia. }
  destruct (after_inv demo_start 0x8048000 _ _ demo_start_inv) as (D1 & a1 & H1); [apply Hu; reflexivity|vm_compute; reflexivity|].
  destruct (after_inv _ 0x8049000 _ _ H1) as (D2 & a2 & H2); [apply Hu; reflexivity|vm_compute; reflexivity|].
  apply (after_inv _ 0xbffff000 _ _ H2); [apply Hu; reflexivity|vm_compute; reflexivity].
Qed.


Lemma eviction_finds_frame_witness :
  ∃ D a k v' a', vm_inv demo_vm D a ∧ evict_frame demo_vm = Ok (k, v') ∧ k ≠ 0 ∧ vm_inv v' D a'.
Proof.
  destruct demo_vm_inv as (D & a & H). exists D, a.
  destruct (eviction_finds_frame demo_vm D a 32 H) as [[E _]|(k & v' & a' & E & Hk & HI & _)].
  - vm_compute. congruence.
  - assert (E : bool_decide (32 ∈ frame_table demo_vm) = true) by (vm_compute; reflexivity). by apply bool_decide_eq_true in E.
  - exists (FrameEntry (PHYS_BASE + 0x200000) 0x8048000 1 false). split; vm_compute; reflexivity.
  - assert (E' : match evict_frame demo_vm with Ok _ => true | _ => false end = true) by (vm_compute; reflexivity).
    rewrite E in E'. discriminate E'.
  - exists k, v', a'. split; [exact H|]. split; [exact E|]. split; [exact Hk|exact HI].
Defined.

(** ** Two processes that share three frames and two swap slots *)

(** Adding a page of zeros, reading a byte, and switching to another process. *)
Inductive event := Page (u : Z) | Use (u : Z) | Run (t : Z).
Definition event_step (v : vm) (x : event) : res vm :=
  match x with
  | Page u => '(_, v) ← spt_set_zero v (cur v) u true; Ok v
  | Use u => '(_, v) ← user_load v u true 0; Ok v
  | Run t =>
      p ← get_proc v t;
      m ← pagedir_activate (mach v) (pagedir p);
      Ok (VM m (sys v) (swap_block v) (swap_table v) (frames v) (frame_table v) (clock_hand v) (procs v) t
             (next_mapid v) (vsupply v) (vcalls v))
  end.
Fixpoint events (v : vm) (l : list event) : res vm :=
  match l with
  | [] => Ok v
  | x :: l => v ← event_step v x; events v l
  end.

Definition demo_pair : vm :=
  VM (Mmu (Pal (kernel_pool demo_pools) (Palloc.Pool (Bm 3 [0]) (PHYS_BASE + 0x200000)) (λ _, 0))
          (PHYS_BASE + 0x100000) 1024 0x101000 ∅)
     FsBoot.demo_fs (Some demo_swap) (Some (Bm 2 [0])) ∅ [] 0
     (<[2 := Proc (PHYS_BASE + 0x102000) (Some ∅) [] 0 [] 0]> {[1 := Proc demo_dir (Some ∅) [] 0 [] 0]}) 1 1 (λ _, true) 0.
Definition demo_events : list event :=
  [Page 0x8048000; Page 0x8049000; Use 0x8048000; Use 0x8049000; Run 2; Page 0x8048000; Page 0x8049000;
   Use 0x8048000; Use 0x8049000; Run 1; Use 0x8048000; Use 0x8049000; Run 2; Use 0x8048000; Run 1].
Definition read_byte (v : vm) (u : Z) : res (option Z) := '(b, _) ← user_load v u true 0; Ok b.

Lemma demo_pair_runs :
  match events demo_pair demo_events with
  | Ok v =>
      match spt_destroy v 1 [0x8048000; 0x8049000], v ← event_step v (Run 2); read_byte v 0x8049000 with
      | Ok v', Ok (Some 0) =>
          match v' ← event_step v' (Run 2); read_byte v' 0x8049000 with Panic => true | _ => false end
      | _, _ => false
      end
  | _ => false
  end = true.
Proof. vm_compute. reflexivity. Qed.


End VmUser.
