(* ===== verification/Process.v ===== *)
(** * Starting user programs

    [userprog/process.c]: the command line is split into words, the executable is opened,
    its program headers become entries of the supplemental page table, and the words are
    laid out on the new stack. *)

From S2P Require Import Prelude Bitmap Strings Vaddr Palloc Disk Inode Directory Pagedir Vm.

Module Process.
Import Bitmap Strings Palloc Disk Inode Directory Pagedir Vm.

(** ** The words of the command line *)

(** Kernel memory that holds strings. *)
Notation kmem := (gmap Z Z).

(** [char *argv[128]] *)
Definition ARGV_MAX : Z := 128.

(** A store to an array of pointers; one beyond its end is an access to memory that is not
    part of it. *)
Definition set_arg (argv : list Z) (i x : Z) : res (list Z) :=
  ASSERT (0 <=? i) && (i <? Zlength argv);;
  Ok (<[Z.to_nat i := x]> argv).

(** The loop of [parse_args]; [d] is the address of the string of delimiters. *)
Fixpoint parse_loop (n fuel : nat) (d : Z) (m : kmem) (token save : Z) (argv : list Z) (argc : Z)
    : res (kmem * list Z * Z) :=
  match n with
  | O => Fuel
  | S n =>
      if negb (token =? 0) then
        argv ← set_arg argv argc token;
        '(m, token, save) ← strtok_r fuel m 0 d save;
        parse_loop n fuel d m token save argv (argc + 1)
      else Ok (m, argv, argc)
  end.
(** [fuel] bounds the length of the string. *)
Definition parse_args (fuel : nat) (d : Z) (m : kmem) (cmd_line : Z) (argv : list Z) : res (kmem * list Z * Z) :=
  '(m, token, save) ← strtok_r fuel m cmd_line d 0;
  '(m, argv, argc) ← parse_loop fuel fuel d m token save argv 0;
  argv ← set_arg argv argc 0;
  Ok (m, argv, argc).

(** ** The executable *)

Record Elf32_Ehdr := Ehdr {
  e_ident : list Z;
  e_type : Z;
  e_machine : Z;
  e_version : Z;
  e_entry : Z;
  e_phoff : Z;
  e_shoff : Z;
  e_flags : Z;
  e_ehsize : Z;
  e_phentsize : Z;
  e_phnum : Z;
  e_shentsize : Z;
  e_shnum : Z;
  e_shstrndx : Z
}.
Record Elf32_Phdr := Phdr {
  p_type : Z;
  p_offset : Z;
  p_vaddr : Z;
  p_paddr : Z;
  p_filesz : Z;
  p_memsz : Z;
  p_flags : Z;
  p_align : Z
}.
Definition EHDR_SIZE : Z := 52.
Definition PHDR_SIZE : Z := 32.
Definition PT_NULL : Z := 0.
Definition PT_LOAD : Z := 1.
Definition PT_DYNAMIC : Z := 2.
Definition PT_INTERP : Z := 3.
Definition PT_NOTE : Z := 4.
Definition PT_SHLIB : Z := 5.
Definition PT_PHDR : Z := 6.
Definition PT_STACK : Z := 0x6474e551.
Definition PF_W : Z := 2.

(** The headers as they lie in the file: the fields one after the other, in the order of
    the structures. *)
Definition field (l : list Z) (ofs n : Z) : Z := le_value (slice ofs n l).
Definition ehdr_of (l : list Z) : Elf32_Ehdr :=
  Ehdr (slice 0 16 l) (field l 16 2) (field l 18 2) (field l 20 4) (field l 24 4) (field l 28 4)
       (field l 32 4) (field l 36 4) (field l 40 2) (field l 42 2) (field l 44 2) (field l 46 2) (field l 48 2) (field l 50 2).
Definition phdr_of (l : list Z) : Elf32_Phdr :=
  Phdr (field l 0 4) (field l 4 4) (field l 8 4) (field l 12 4) (field l 16 4) (field l 20 4) (field l 24 4) (field l 28 4).

Definition ELF_MAGIC : list Z := [127; 69; 76; 70; 1; 1; 1].
Definition bad_ehdr (buf : list Z) : bool :=
  let ehdr := ehdr_of buf in
  negb (Zlength buf =? EHDR_SIZE)
  || negb (bool_decide (take 7 (e_ident ehdr) = ELF_MAGIC))
  || negb (e_type ehdr =? 2)
  || negb (e_machine ehdr =? 3)
  || negb (e_version ehdr =? 1)
  || negb (e_phentsize ehdr =? PHDR_SIZE)
  || (1024 <? e_phnum ehdr).

(** [length] is the length of the file. *)
Definition validate_segment (phdr : Elf32_Phdr) (length : Z) : bool :=
  if negb (Z.land (p_offset phdr) PGMASK =? Z.land (p_vaddr phdr) PGMASK) then false else
  if u32 length <? p_offset phdr then false else
  if p_memsz phdr <? p_filesz phdr then false else
  if p_memsz phdr =? 0 then false else
  if negb (is_user_vaddr (p_vaddr phdr)) then false else
  if negb (is_user_vaddr (u32 (p_vaddr phdr + p_memsz phdr))) then false else
  if u32 (p_vaddr phdr + p_memsz phdr) <? p_vaddr phdr then false else
  if p_vaddr phdr <? PGSIZE then false else
  true.

Fixpoint segment_loop (n : nat) (v : vm) (file ofs upage read_bytes zero_bytes : Z) (wr : bool) : res (bool * vm) :=
  match n with
  | O => Fuel
  | S n =>
      if (0 <? read_bytes) || (0 <? zero_bytes) then
        let page_read_bytes := if read_bytes <? PGSIZE then read_bytes else PGSIZE in
        let page_zero_bytes := PGSIZE - page_read_bytes in
        '(ok, v) ← spt_set_file v (cur v) upage file ofs page_read_bytes page_zero_bytes wr;
        if negb ok then Ok (false, v) else
        segment_loop n v file (s32 (ofs + page_read_bytes)) (u32 (upage + PGSIZE))
          (u32 (read_bytes - page_read_bytes)) (u32 (zero_bytes - page_zero_bytes)) wr
      else Ok (true, v)
  end.
(** Each turn takes a page of the bytes that are left. *)
Definition load_segment (v : vm) (file ofs upage read_bytes zero_bytes : Z) (wr : bool) : res (bool * vm) :=
  ASSERT u32 (read_bytes + zero_bytes) mod PGSIZE =? 0;;
  ASSERT pg_ofs upage =? 0;;
  ASSERT Z.rem ofs PGSIZE =? 0;;
  segment_loop (S (Z.to_nat ((read_bytes + zero_bytes) / PGSIZE))) v file ofs upage read_bytes zero_bytes wr.

Definition install_page (v : vm) (upage kpage : Z) (wr : bool) : res (bool * vm) :=
  p ← get_proc v (cur v);
  k ← pagedir_get_page (mach v) (pagedir p) upage;
  if k =? 0 then
    '(ok, m) ← pagedir_set_page (mach v) (pagedir p) upage kpage wr;
    Ok (ok, set_mach v m)
  else Ok (false, v).

(** [*esp] is [PHYS_BASE] on success. *)
Definition setup_stack (v : vm) : res (bool * vm) :=
  let upage := PHYS_BASE - PGSIZE in
  '(ok, v) ← spt_set_zero v (cur v) upage true;
  if negb ok then Ok (false, v) else
  '(k, v) ← frame_alloc v (Z.lor PAL_USER PAL_ZERO) upage;
  if k =? 0 then Ok (false, v) else
  '(ok, v) ← install_page v upage k true;
  if (ok : bool) then
    '(_, v) ← spt_set_loaded v (cur v) upage k;
    Ok (true, v)
  else v ← frame_free v k; Ok (false, v).

(** One program header of the executable; [false] for [goto done]. *)
Definition load_phdr (v : vm) (file : Z) (phdr : Elf32_Phdr) : res (bool * vm) :=
  if (p_type phdr =? PT_DYNAMIC) || (p_type phdr =? PT_INTERP) || (p_type phdr =? PT_SHLIB) then Ok (false, v)
  else if p_type phdr =? PT_LOAD then
    len ← file_length (sys v) file;
    if validate_segment phdr len then
      let wr := negb (Z.land (p_flags phdr) PF_W =? 0) in
      let file_page := Z.land (p_offset phdr) (Z.lnot PGMASK) in
      let mem_page := Z.land (p_vaddr phdr) (Z.lnot PGMASK) in
      let page_offset := Z.land (p_vaddr phdr) PGMASK in
      let all := ROUND_UP (u32 (page_offset + p_memsz phdr)) PGSIZE in
      let '(read_bytes, zero_bytes) :=
        if 0 <? p_filesz phdr then
          let rb := u32 (page_offset + p_filesz phdr) in (rb, u32 (all - rb))
        else (0, all) in
      load_segment v file (s32 file_page) mem_page read_bytes zero_bytes wr
    else Ok (false, v)
  else Ok (true, v).
Fixpoint phdr_loop (n : nat) (v : vm) (file file_ofs : Z) : res (bool * vm) :=
  match n with
  | O => Ok (true, v)
  | S n =>
      len ← file_length (sys v) file;
      if (file_ofs <? 0) || (len <? file_ofs) then Ok (false, v) else
      s ← file_seek (sys v) file file_ofs;
      '(buf, s) ← file_read s file PHDR_SIZE;
      let v := set_sys v s in
      if negb (Zlength buf =? PHDR_SIZE) then Ok (false, v) else
      '(ok, v) ← load_phdr v file (phdr_of buf);
      if (ok : bool) then phdr_loop n v file (s32 (file_ofs + PHDR_SIZE)) else Ok (false, v)
  end.

Definition process_activate (v : vm) : res vm :=
  p ← get_proc v (cur v); m ← pagedir_activate (mach v) (pagedir p); Ok (set_mach v m).
Definition put_pagedir (v : vm) (t pd : Z) : vm :=
  upd_proc v t (λ p, Proc pd (ptable p) (mmap_list p) (esp_on_syscall p) (file_descriptors p) (executable p)).
Definition put_executable (v : vm) (t f : Z) : vm :=
  upd_proc v t (λ p, Proc (pagedir p) (ptable p) (mmap_list p) (esp_on_syscall p) (file_descriptors p) f).

(** The outcome of [load]: the entry point and whether [file_lock] is still held; the stack
    pointer is [PHYS_BASE] on success. *)
Record load_result := LoadResult { success : bool; eip : Z; file_lock_held : bool }.
(** From the label [done] on. *)
Definition load_done (v : vm) (file : Z) (ok : bool) (entry : Z) (held : bool) : res (load_result * vm) :=
  if ok then Ok (LoadResult true entry held, put_executable v (cur v) file)
  else s ← file_close (sys v) file; Ok (LoadResult false 0 held, set_sys v s).
(** [mem] is the outcome of the allocation in [spt_init]. *)
Definition load (v : vm) (file_name : list Z) (mem : bool) : res (load_result * vm) :=
  let t := cur v in
  '(pd, m) ← pagedir_create (mach v);
  let v := put_pagedir (set_mach v m) t pd in
  if pd =? 0 then load_done v 0 false 0 false else
  v ← process_activate v;
  let v := spt_init v t mem in
  '(file, s) ← filesys_open (sys v) file_name;
  let v := set_sys v s in
  if file =? 0 then load_done v 0 false 0 false else
  s ← file_deny_write (sys v) file;
  '(buf, s) ← file_read s file EHDR_SIZE;
  if bad_ehdr buf then
    s ← file_close s file;
    load_done (set_sys v s) file false 0 false
  else
  let ehdr := ehdr_of buf in
  '(ok, v) ← phdr_loop (Z.to_nat (e_phnum ehdr)) (set_sys v s) file (s32 (e_phoff ehdr));
  if negb ok then load_done v file false 0 true else
  '(ok, v) ← setup_stack v;
  load_done v file ok (e_entry ehdr) false.

(** ** The stack of a new process *)

(** The kernel writes to user memory: a fault that is not resolved is a kernel bug and
    panics. *)
Definition kstore (v : vm) (va b : Z) : res vm :=
  '(ok, v) ← user_store v va b false 0;
  if (ok : bool) then Ok v else Panic.
Fixpoint kstores (v : vm) (va : Z) (l : list Z) : res vm :=
  match l with
  | [] => Ok v
  | b :: l => v ← kstore v va b; kstores v (va + 1) l
  end.
Definition kstore32 (v : vm) (va w : Z) : res vm := kstores v va (le_bytes 4 w).
(** [memcpy] from kernel memory to user memory. *)
Fixpoint copy_to_user (n : nat) (m : kmem) (v : vm) (dst src : Z) : res vm :=
  match n with
  | O => Ok v
  | S n => b ← ld m src; v ← kstore v dst b; copy_to_user n m v (dst + 1) (src + 1)
  end.

(** The first loop: the strings, last one first.  [argv] is in reverse order. *)
Fixpoint push_strings (fuel : nat) (m : kmem) (argv : list Z) (v : vm) (esp : Z) (user_argv_ptrs : list Z)
    : res (vm * Z * list Z) :=
  match argv with
  | [] => Ok (v, esp, user_argv_ptrs)
  | arg :: argv =>
      n ← strlen fuel m arg;
      let len := s32 (n + 1) in
      let esp := u32 (esp - len) in
      v ← copy_to_user (Z.to_nat len) m v esp arg;
      push_strings fuel m argv v esp (esp :: user_argv_ptrs)
  end.
(** The second loop: the pointers, last one first. *)
Fixpoint push_words (v : vm) (esp : Z) (ws : list Z) : res (vm * Z) :=
  match ws with
  | [] => Ok (v, esp)
  | w :: ws =>
      let esp := u32 (esp - 4) in
      v ← kstore32 v esp w;
      push_words v esp ws
  end.
(** The part of [start_process] that follows a successful [load]: the new stack pointer. *)
Definition push_args (fuel : nat) (m : kmem) (v : vm) (argv : list Z) (argc esp : Z) : res (vm * Z) :=
  '(v, esp, user_argv_ptrs) ← push_strings fuel m (reverse (take (Z.to_nat argc) argv)) v esp [];
  let padding := esp mod 4 in
  '(v, esp) ← (if negb (padding =? 0) then
                 let esp := u32 (esp - padding) in
                 v ← kstores v esp (replicate (Z.to_nat padding) 0);
                 Ok (v, esp)
               else Ok (v, esp));
  '(v, esp) ← push_words v esp [0];
  '(v, esp) ← push_words v esp (reverse user_argv_ptrs);
  push_words v esp [esp; argc; 0].

(** The string at [a]. *)
Fixpoint string_at (fuel : nat) (m : kmem) (a : Z) : res (list Z) :=
  match fuel with
  | O => Fuel
  | S fuel => b ← ld m a; if b =? 0 then Ok [] else l ← string_at fuel m (a + 1); Ok (b :: l)
  end.
(** [start_process] up to the jump to user mode or [thread_exit]; [junk] is what the array
    [argv] holds at first.  Returns the result of [load] and the stack pointer.  The record
    that the parent waits for is in [Wait]; the page of the command line is not part of the
    memory [vm]. *)
Definition start_process (fuel : nat) (d : Z) (m : kmem) (v : vm) (file_name : Z) (junk : list Z) (mem : bool)
    : res (load_result * Z * vm) :=
  '(m, argv, argc) ← parse_args fuel d m file_name junk;
  arg0 ← from_opt (argv !! O);
  if arg0 =? 0 then Panic else
  name ← string_at fuel m arg0;
  '(r, v) ← load v name mem;
  if success r then
    '(v, esp) ← push_args fuel m v argv argc PHYS_BASE;
    Ok (r, esp, v)
  else Ok (r, 0, v).

(** [process_exit], without the records of children; [order] is the order in which the
    hash table visits its entries. *)
Definition process_exit (v : vm) (order : list Z) : res vm :=
  v ← mmap_unmap_all v;
  v ← spt_destroy v (cur v) order;
  p ← get_proc v (cur v);
  let pd := pagedir p in
  if negb (pd =? 0) then
    let v := put_pagedir v (cur v) 0 in
    m ← pagedir_activate (mach v) 0;
    m ← pagedir_destroy m pd;
    Ok (set_mach v m)
  else Ok v.

End Process.
