(* ===== verification/ProcArgs.v ===== *)
(** * The arguments of a new process

    [parse_args] and the construction of the initial stack by [start_process]: [main] finds
    the words of the command line in [argv]. *)

From S2P Require Import Prelude Bitmap Strings Vaddr Palloc Disk Inode FsSpec Pagedir Vm VmInv VmData VmLoad VmUser Process.

Module ProcArgs.
Import Bitmap Strings Palloc Disk Inode FsSpec Pagedir Vm VmInv VmData VmLoad VmUser Process.

(** ** Splitting the command line *)

Section parse.
Context (fuel : nat) (d : Z).

Lemma parse_loop_tokens n : ∀ m s save m' ps argv argc n',
  tokenize fuel d n m s save = Ok (m', ps) → (n ≤ n')%nat → 0 ≤ argc ≤ Zlength argv →
  ('(m1, token, save1) ← strtok_r fuel m s d save; parse_loop n' fuel d m1 token save1 argv argc)
  = if decide (argc + Zlength ps ≤ Zlength argv) then Ok (m', splice argc ps argv, argc + Zlength ps) else Panic.
Proof.
  induction n as [|n IH]; intros m s save m' ps argv argc n' Ht Hn Ha; [done|]. simpl in Ht.
  destruct (strtok_r fuel m s d save) as [[[m1 token] save1]| |]; [|done..]. cbn [mbind res_bind] in Ht |- *.
  destruct n' as [|n']; [lia|]. cbn [parse_loop]. destruct (Z.eqb_spec token 0) as [->|Hne]; cbn [negb].
  - injection Ht as <- <-. simpl. rewrite decide_True by lia. rewrite Z.add_0_r. unfold splice. simpl.
    by rewrite Nat.add_0_r, take_drop.
  - destruct (tokenize fuel d n m1 0 save1) as [[m2 ps2]| |] eqn:E; [|done..]. injection Ht as <- <-.
    unfold set_arg. destruct (Z.ltb_spec argc (Zlength argv)) as [Hlt|Hge].
    + rewrite (proj2 (Z.leb_le 0 argc)) by lia. cbn [andb mbind res_bind]. set (argv' := <[Z.to_nat argc := token]> argv).
      assert (Hl : Zlength argv' = Zlength argv) by (unfold argv'; rewrite length_insert; done).
      specialize (IH m1 0 save1 m2 ps2 argv' (argc + 1) n' E ltac:(lia) ltac:(lia)). rewrite Hl in IH.
      destruct (strtok_r fuel m1 0 d save1) as [[[m3 token3] save3]| |]; cbn [mbind res_bind] in IH |- *; rewrite IH.
      all: assert (EZ : Zlength (token :: ps2) = 1 + Zlength ps2) by (simpl; lia).
      all: destruct (decide (argc + Zlength (token :: ps2) ≤ Zlength argv)) as [Hd|Hd]; [|rewrite decide_False by lia; done].
      all: rewrite decide_True by lia; f_equal; f_equal; [f_equal|lia].
      all: apply list_eq; intros k; rewrite !lookup_splice by lia.
      all: destruct (decide (argc ≤ Z.of_nat k < argc + Zlength (token :: ps2))) as [Hk|Hk].
      all: try (destruct (decide (Z.of_nat k = argc)) as [Hk0|Hk0];
        [rewrite decide_False by lia; unfold argv'; replace k with (Z.to_nat argc) by lia;
         rewrite list_lookup_insert_eq by lia; replace (Z.to_nat (Z.of_nat (Z.to_nat argc) - argc)) with O by lia; reflexivity
        |rewrite decide_True by lia; replace (Z.to_nat (Z.of_nat k - argc)) with (S (Z.to_nat (Z.of_nat k - (argc + 1)))) by lia; reflexivity]).
      all: rewrite decide_False by lia; unfold argv'; rewrite list_lookup_insert_ne by lia; reflexivity.
    + rewrite andb_false_r. cbn [mbind res_bind]. rewrite decide_False; [done|]. simpl. lia.
Qed.

(** The words of [s] and a null pointer behind them; 128 words are too many. *)
Lemma parse_args_spec m cmd s argv :
  str_at m d [32] → 0 < d → (1 < fuel)%nat → 0 < cmd → str_at m cmd s → (length s < fuel)%nat →
  cmd + Z.of_nat (length s) < d ∨ d + 1 < cmd →
  let args := tokens [32] s in
  if decide (Zlength args < Zlength argv) then
    ∃ m' ps, parse_args fuel d m cmd argv = Ok (m', splice 0 (ps ++ [0]) argv, Zlength args) ∧ Forall2 (str_at m') ps args
      ∧ same_but m m' cmd (Z.of_nat (length s))
  else parse_args fuel d m cmd argv = Panic.
Proof.
  intros Hd Hd0 Hfu Hc Hs Hf Hdis args.
  destruct (tokenize_spec [32] fuel d Hd0 Hfu fuel m cmd s cmd 0) as (m' & ps & Et & Hps & Hsame); [done..|by left|].
  fold args in Hps. apply Forall2_length in Hps as Hlen.
  assert (E : parse_args fuel d m cmd argv =
    ('(m, argv, argc) ← ('(m1, token, save1) ← strtok_r fuel m cmd d 0; parse_loop fuel fuel d m1 token save1 argv 0);
     argv ← set_arg argv argc 0; Ok (m, argv, argc))) by (unfold parse_args; by destruct (strtok_r fuel m cmd d 0) as [[[? ?] ?]| |]).
  rewrite E, (parse_loop_tokens fuel m cmd 0 m' ps argv 0 fuel Et) by lia. clear E. rewrite !Z.add_0_l.
  destruct (decide (Zlength args < Zlength argv)) as [Hl|Hl].
  - rewrite decide_True by lia. cbn [mbind res_bind]. unfold set_arg.
    assert (HL : Zlength (splice 0 ps argv) = Zlength argv) by (rewrite length_splice; lia).
    rewrite HL, (proj2 (Z.leb_le _ _)), (proj2 (Z.ltb_lt _ _)) by lia. cbn [andb mbind res_bind].
    exists m', ps. split; [|done]. f_equal. f_equal; [f_equal|lia]. apply list_eq. intros k.
    rewrite (lookup_splice 0 (ps ++ [0])) by (rewrite ?length_app; simpl; lia). rewrite length_app. cbn [length].
    destruct (decide (k = Z.to_nat (Zlength ps))) as [->|Hne].
    + rewrite list_lookup_insert_eq by lia. rewrite decide_True by lia. rewrite lookup_app_r by lia.
      by replace (Z.to_nat (Z.of_nat (Z.to_nat (Zlength ps)) - 0) - length ps)%nat with O by lia.
    + rewrite list_lookup_insert_ne by done. rewrite lookup_splice by lia.
      destruct (decide (0 ≤ Z.of_nat k < 0 + Zlength ps)) as [Hk|Hk].
      * rewrite decide_True by lia. rewrite lookup_app_l by lia. done.
      * rewrite decide_False by lia. done.
  - destruct (decide (Zlength ps ≤ Zlength argv)) as [Hle|Hle]; [|done]. cbn [mbind res_bind]. unfold set_arg.
    rewrite length_splice by lia. rewrite (proj2 (Z.ltb_ge _ _)) by lia. by rewrite andb_false_r.
Qed.

End parse.

(** ** Stores to a page that is loaded *)

Definition STACK : Z := PHYS_BASE - PGSIZE.

(** Nothing but the memory of the current process has changed. *)
Record only_memory (v v' : vm) : Prop := {
  om_cur : cur v' = cur v;
  om_procs : procs v' = procs v;
  om_sys : sys v' = sys v;
  om_frames : frames v' = frames v ∧ frame_table v' = frame_table v
}.
Lemma om_refl v : only_memory v v.
Proof. by split. Qed.
Lemma om_trans v1 v2 v3 : only_memory v1 v2 → only_memory v2 v3 → only_memory v1 v3.
Proof. intros [? ? ? [? ?]] [? ? ? [? ?]]. split; [..|split]; congruence. Qed.
Lemma om_entry v v' t u : only_memory v v' → entry_at v' t u = entry_at v t u.
Proof. intros O. unfold entry_at. by rewrite (om_procs _ _ O). Qed.

Lemma kstore_loaded v D a va b e :
  vm_inv v D a → 0 ≤ va < PHYS_BASE → let u := pg_round_down va in
  entry_at v (cur v) u = Some e → loaded e = true → Vm.writable e = true →
  ∃ v', kstore v va b = Ok v' ∧ vm_inv v' D a ∧ only_memory v v'
    ∧ contents v' a (cur v) u = <[Z.to_nat (pg_ofs va) := b]> <$> contents v a (cur v) u
    ∧ ∀ t u', (t, u') ≠ (cur v, u) → contents v' a t u' = contents v a t u'.
Proof.
  intros H Hva u He Hl Hw. pose proof (access_spec v D a va true H Hva) as Hacc. cbv zeta in Hacc. fold u in Hacc.
  unfold kstore, user_store. cbn [touch]. destruct (mmu_access (mach v) va true) as [[k m]|].
  - destruct Hacc as (e' & He' & Hl' & -> & _ & HI & HC & Hd). assert (e' = e) as -> by congruence. cbn [mbind res_bind].
    destruct (inv_store (set_mach v m) D a va b e HI Hva) as (HI2 & HC2 & HO2); [exact He|done|done|by apply Hd|]. fold u in HC2, HO2.
    eexists. split; [reflexivity|]. split; [exact HI2|]. split; [by split|]. split.
    + rewrite <- HC. exact HC2.
    + intros t u' Hne. rewrite <- HC. by apply HO2.
  - by destruct (Hacc e He Hl) as [_ ?]; congruence.
Qed.

(** The bytes [bs] end up in the page of the address [va], the rest stays. *)
Section stack.
Context (v0 : vm) (D : dirs) (a : afs) (e : spt_entry) (page : list Z).
Context (He : entry_at v0 (cur v0) STACK = Some e) (Hl : loaded e = true) (Hw : Vm.writable e = true).
Context (Hpage : Zlength page = PGSIZE).

(** The stack page holds [l]; nothing else differs from [v0]. *)
Record on_page (v : vm) (l : list Z) : Prop := {
  on_inv : vm_inv v D a;
  on_cur : cur v = cur v0;
  on_entry t u : entry_at v t u = entry_at v0 t u;
  on_page_is : contents v a (cur v0) STACK = Some l;
  on_other t u : (t, u) ≠ (cur v0, STACK) → contents v a t u = contents v0 a t u
}.

Lemma stack_addr va : STACK ≤ va < PHYS_BASE → pg_round_down va = STACK ∧ pg_ofs va = va - STACK.
Proof.
  unfold STACK, PHYS_BASE, PGSIZE. intros Hva. rewrite pg_round_down_spec, pg_ofs_mod by lia. unfold PGSIZE.
  assert (va mod 4096 = va - 3221221376) as -> by (symmetry; apply (Z.mod_unique _ _ 786431); lia). lia.
Qed.

Lemma splice_cons (i : Z) (b : Z) (bs l : list Z) :
  0 ≤ i → i + Zlength (b :: bs) ≤ Zlength l → splice (i + 1) bs (<[Z.to_nat i := b]> l) = splice i (b :: bs) l.
Proof.
  intros Hi Hl'. assert (EZ : Zlength (b :: bs) = 1 + Zlength bs) by (simpl; lia).
  apply list_eq. intros k. rewrite !lookup_splice by (rewrite ?length_insert; lia).
  destruct (decide (i ≤ Z.of_nat k < i + Zlength (b :: bs))) as [Hk|Hk].
  - destruct (decide (Z.of_nat k = i)) as [Hk0|Hk0].
    + rewrite decide_False by lia. replace k with (Z.to_nat i) by lia. rewrite list_lookup_insert_eq by lia.
      by replace (Z.to_nat (Z.of_nat (Z.to_nat i) - i)) with O by lia.
    + rewrite decide_True by lia. by replace (Z.to_nat (Z.of_nat k - i)) with (S (Z.to_nat (Z.of_nat k - (i + 1)))) by lia.
  - rewrite decide_False by lia. rewrite list_lookup_insert_ne by lia. done.
Qed.

Lemma kstores_page bs : ∀ v l va,
  on_page v l → Zlength l = PGSIZE → STACK ≤ va → va + Zlength bs ≤ PHYS_BASE →
  ∃ v', kstores v va bs = Ok v' ∧ on_page v' (splice (va - STACK) bs l).
Proof.
  induction bs as [|b bs IH]; intros v l va Hon Hll Hva Hend.
  - exists v. split; [done|]. unfold splice. simpl. by rewrite Nat.add_0_r, take_drop.
  - assert (EZ : Zlength (b :: bs) = 1 + Zlength bs) by (simpl; lia).
    destruct (stack_addr va ltac:(lia)) as [E1 E2]. destruct Hon as [H1 H2 H3 H4 H5].
    assert (Hsp : 0 ≤ STACK) by (unfold STACK, PHYS_BASE, PGSIZE; lia).
    destruct (kstore_loaded v D a va b e H1 ltac:(lia)) as (v1 & Ek & HI & O & HC & HO); [by rewrite E1, H2, H3|done|done|].
    pose proof (om_cur _ _ O) as Ec. assert (Hent : ∀ t u, entry_at v1 t u = entry_at v t u) by (intros; by apply om_entry).
    rewrite E1, E2, H2 in HC. rewrite E1, H2 in HO. cbn [kstores]. rewrite Ek. cbn [mbind res_bind].
    destruct (IH v1 (<[Z.to_nat (va - STACK) := b]> l) (va + 1)) as (v' & -> & Hon'); [|by rewrite length_insert|lia|lia|].
    + split; [done|congruence|intros; by rewrite Hent|by rewrite HC, H4|intros t u Hne; by rewrite HO, H5].
    + exists v'. split; [done|]. rewrite <- splice_cons by (unfold STACK, PHYS_BASE, PGSIZE in *; lia).
      by replace (va - STACK + 1) with (va + 1 - STACK) by lia.
Qed.

(** [img] has been pushed on the empty stack. *)
Definition pushed (v : vm) (img : list Z) : Prop := Zlength img ≤ PGSIZE ∧ on_page v (take (Z.to_nat (PGSIZE - Zlength img)) page ++ img).
Definition top (img : list Z) : Z := PHYS_BASE - Zlength img.

Lemma push_bytes v img bs :
  pushed v img → Zlength bs + Zlength img ≤ PGSIZE → ∃ v', kstores v (top (bs ++ img)) bs = Ok v' ∧ pushed v' (bs ++ img).
Proof.
  intros [Hi Hon] Hb. set (n := Z.to_nat (PGSIZE - Zlength img)) in *. assert (Hn : length (take n page) = n) by (rewrite length_take; lia).
  destruct (kstores_page bs v _ (top (bs ++ img)) Hon) as (v' & E & Hon').
  - rewrite length_app, Hn. lia.
  - unfold top, STACK. rewrite length_app. lia.
  - unfold top. rewrite length_app. lia.
  - exists v'. split; [done|]. split; [rewrite length_app; lia|].
    assert (Es : splice (top (bs ++ img) - STACK) bs (take n page ++ img)
      = take (Z.to_nat (PGSIZE - Zlength (bs ++ img))) page ++ bs ++ img); [|by rewrite <- Es].
    unfold splice, top, STACK. rewrite length_app. replace (Z.to_nat _) with (n - length bs)%nat by lia.
    rewrite take_app_le, take_take by lia. replace ((n - length bs) `min` n)%nat with (n - length bs)%nat by lia.
    replace (Z.to_nat (PGSIZE - _)) with (n - length bs)%nat by lia. f_equal. f_equal.
    rewrite drop_app_ge by lia. replace (_ - _)%nat with O by lia. by rewrite drop_0.
Qed.

(** ** The loops of [start_process] *)

Lemma copy_kstores l : ∀ m v dst src, bytes_at m src l → copy_to_user (length l) m v dst src = kstores v dst l.
Proof.
  induction l as [|b l IH]; intros m v dst src Hb; [done|]. destruct Hb as [Hb1 Hb2]. simpl. unfold ld. rewrite Hb1. cbn [from_opt mbind res_bind].
  destruct (kstore v dst b) as [v1| |]; [|done..]. cbn [mbind res_bind]. by apply IH.
Qed.

Definition cstr (s : list Z) : list Z := s ++ [0].

(** Pushing the strings [args] one by one: the bytes and the addresses. *)
Fixpoint place (args : list (list Z)) (img ptrs : list Z) : list Z * list Z :=
  match args with
  | [] => (img, ptrs)
  | s :: args => place args (cstr s ++ img) (top (cstr s ++ img) :: ptrs)
  end.
Definition total (args : list (list Z)) : Z := Zlength (concat (cstr <$> args)).

Lemma total_cons s args : total (s :: args) = Zlength (cstr s) + total args.
Proof using. clear. unfold total. cbn [fmap list_fmap concat]. rewrite length_app. lia. Qed.
Lemma place_length args : ∀ img ptrs, Zlength (place args img ptrs).1 = total args + Zlength img.
Proof.
  induction args as [|s args IH]; intros img ptrs; [unfold total; simpl; lia|]. cbn [place]. rewrite IH, total_cons, length_app. lia.
Qed.

Lemma push_strings_spec fuel m ps args : Forall2 (str_at m) ps args → ∀ v img ptrs,
  Forall (λ s, (length s < fuel)%nat) args → pushed v img → total args + Zlength img ≤ PGSIZE →
  ∃ v', push_strings fuel m ps v (top img) ptrs = Ok (v', top (place args img ptrs).1, (place args img ptrs).2)
    ∧ pushed v' (place args img ptrs).1.
Proof.
  induction 1 as [|p s ps args Hs Hps IH]; intros v img ptrs Hf Hp Ht; [by exists v|]. apply Forall_cons in Hf as [Hf1 Hf2].
  rewrite total_cons in Ht. assert (Ec : Zlength (cstr s) = Zlength s + 1) by (unfold cstr; rewrite length_app; simpl; lia).
  assert (Ht0 : 0 ≤ total args) by (unfold total; lia). pose proof Hs as (Hp0 & _ & Hb). unfold PGSIZE in *.
  destruct (push_bytes v img (cstr s) Hp) as (v1 & E1 & Hp1); [unfold PGSIZE; lia|].
  cbn [push_strings]. assert (El : strlen fuel m p = Ok (Zlength s)).
  { unfold strlen. rewrite (proj2 (Z.eqb_neq p 0)) by done. cbn [negb]. rewrite (strlen_loop_spec s) by (try done; by apply str_at_tail). f_equal. lia. }
  rewrite El. cbn [mbind res_bind]. rewrite s32_small by lia.
  assert (Et : u32 (top img - (Zlength s + 1)) = top (cstr s ++ img)).
  { unfold top. rewrite length_app. unfold PHYS_BASE. rewrite u32_small by lia. lia. }
  rewrite Et. replace (Z.to_nat (Zlength s + 1)) with (length (cstr s)) by lia.
  rewrite (copy_kstores (cstr s)) by done. rewrite E1. cbn [mbind res_bind].
  apply (IH v1 (cstr s ++ img) _ Hf2 Hp1). rewrite length_app. lia.
Qed.

Definition words (ws : list Z) : list Z := concat (le_bytes 4 <$> ws).
Lemma length_words ws : Zlength (words ws) = 4 * Zlength ws.
Proof. induction ws as [|w ws IH]; [done|]. unfold words in *. cbn [fmap list_fmap concat]. rewrite length_app, length_le_bytes. cbn [length]. lia. Qed.

Lemma push_words_spec ws : ∀ v img, pushed v img → 4 * Zlength ws + Zlength img ≤ PGSIZE →
  ∃ v', push_words v (top img) ws = Ok (v', top (words (reverse ws) ++ img)) ∧ pushed v' (words (reverse ws) ++ img).
Proof.
  induction ws as [|w ws IH]; intros v img Hp Hn; [by exists v|]. cbn [push_words length] in *. unfold kstore32.
  pose proof (length_le_bytes 4 w) as L4. unfold PGSIZE in *. assert (Hp' := proj1 Hp).
  assert (Et : u32 (top img - 4) = top (le_bytes 4 w ++ img)).
  { unfold top. rewrite length_app, L4. unfold PHYS_BASE, PGSIZE in *. rewrite u32_small by lia. lia. }
  rewrite Et. destruct (push_bytes v img (le_bytes 4 w) Hp) as (v1 & -> & Hp1); [rewrite L4; unfold PGSIZE; lia|]. cbn [mbind res_bind].
  destruct (IH v1 _ Hp1) as (v' & E & Hp2); [rewrite length_app, L4; lia|]. exists v'.
  assert (Ew : words (reverse (w :: ws)) = words (reverse ws) ++ le_bytes 4 w).
  { unfold words. rewrite reverse_cons, fmap_app, concat_app. cbn [fmap list_fmap concat]. by rewrite app_nil_r. }
  rewrite Ew, <- app_assoc. done.
Qed.

(** ** What the new program finds *)

(** The image of the stack; [strs] and [ptrs] are the strings and their addresses. *)
Definition padded (strs : list Z) : list Z := replicate (Z.to_nat (top strs mod 4)) 0 ++ strs.
Definition vector (strs ptrs : list Z) : list Z := words ptrs ++ words [0] ++ padded strs.
Definition image (strs ptrs : list Z) : list Z :=
  words [0; Zlength ptrs; top (vector strs ptrs)] ++ vector strs ptrs.

Lemma place_ptrs args : ∀ img ptrs, Zlength (place args img ptrs).2 = Zlength args + Zlength ptrs.
Proof. induction args as [|s args IH]; intros img ptrs; [simpl; lia|]. cbn [place]. rewrite IH. simpl. lia. Qed.

Lemma push_args_spec fuel m argv args v :
  (length args ≤ length argv)%nat → Forall2 (str_at m) (take (length args) argv) args →
  Forall (λ s, (length s < fuel)%nat) args → on_page v page → total args + 3 + 4 * (Zlength args + 4) ≤ PGSIZE →
  let r := place (reverse args) [] [] in
  ∃ v', push_args fuel m v argv (Zlength args) PHYS_BASE = Ok (v', top (image r.1 r.2)) ∧ pushed v' (image r.1 r.2).
Proof.
  intros Hle Hps Hf Hon Hsz r. unfold push_args. rewrite Nat2Z.id.
  assert (Hp0 : pushed v []).
  { split; [unfold PGSIZE; simpl; lia|]. replace (Z.to_nat (PGSIZE - Z.of_nat (length (@nil Z)))) with (length page) by (simpl; lia).
    by rewrite firstn_all, app_nil_r. }
  assert (Etot : total (reverse args) = total args).
  { clear. unfold total. induction args as [|s args IH]; [done|]. rewrite reverse_cons, fmap_app, concat_app, length_app.
    cbn [fmap list_fmap concat]. rewrite app_nil_r, length_app. lia. }
  destruct (push_strings_spec fuel m (reverse (take (length args) argv)) (reverse args)) with (v := v) (img := @nil Z) (ptrs := @nil Z)
    as (v1 & E1 & Hp1); [by apply Forall2_reverse|by apply Forall_reverse|done|rewrite Etot; simpl; lia|].
  change (top []) with PHYS_BASE in E1. rewrite E1. cbn [mbind res_bind]. fold r in Hp1 |- *.
  assert (Hr1 : Zlength r.1 = total args) by (unfold r; rewrite place_length, Etot; simpl; lia).
  assert (Hr2 : Zlength r.2 = Zlength args) by (unfold r; rewrite place_ptrs, length_reverse; simpl; lia).
  pose proof (Z.mod_pos_bound (top r.1) 4 ltac:(lia)) as Hm. set (pad := top r.1 mod 4) in *.
  assert (Hpad : Zlength (padded r.1) = pad + Zlength r.1) by (unfold padded; fold pad; rewrite length_app, length_replicate; lia).
  assert (E2 : ∃ v2, (if negb (pad =? 0) then v2 ← kstores v1 (u32 (top r.1 - pad)) (replicate (Z.to_nat pad) 0); Ok (v2, u32 (top r.1 - pad))
                      else Ok (v1, top r.1)) = Ok (v2, top (padded r.1)) ∧ pushed v2 (padded r.1)).
  { destruct (Z.eqb_spec pad 0) as [Ep|Ep].
    - exists v1. cbn [negb]. unfold padded. fold pad. rewrite Ep. done.
    - cbn [negb]. assert (Et : u32 (top r.1 - pad) = top (padded r.1)).
      { unfold top. rewrite Hpad. unfold PHYS_BASE, PGSIZE in *. rewrite u32_small by lia. lia. }
      rewrite Et. destruct (push_bytes v1 r.1 (replicate (Z.to_nat pad) 0) Hp1) as (v2 & E & Hp2); [rewrite length_replicate; lia|].
      exists v2. unfold padded. fold pad. rewrite E. done. }
  destruct E2 as (v2 & E2 & Hp2). rewrite E2. cbn [mbind res_bind].
  destruct (push_words_spec [0] v2 _ Hp2) as (v3 & E3 & Hp3); [simpl; lia|]. change (reverse [0]) with [0] in E3, Hp3.
  rewrite E3. cbn [mbind res_bind]. pose proof (length_words [0]) as Lw. cbn [length] in Lw.
  destruct (push_words_spec (reverse r.2) v3 _ Hp3) as (v4 & E4 & Hp4); [rewrite length_reverse, length_app; lia|].
  rewrite reverse_involutive in E4, Hp4. fold (vector r.1 r.2) in E4, Hp4. rewrite E4. cbn [mbind res_bind].
  destruct (push_words_spec [top (vector r.1 r.2); Zlength args; 0] v4 _ Hp4) as (v5 & E5 & Hp5).
  { unfold vector. rewrite !length_app. pose proof (length_words r.2). cbn [length]. lia. }
  exists v5. unfold image. rewrite Hr2. done.
Qed.

(** [bs] lies in the image at the address [va]. *)
Definition holds (img : list Z) (va : Z) (bs : list Z) : Prop := ∃ X Y, img = X ++ bs ++ Y ∧ va = top (bs ++ Y).

Lemma holds_prefix X img va bs : holds img va bs → holds (X ++ img) va bs.
Proof. intros (X' & Y & -> & ->). exists (X ++ X'), Y. by rewrite app_assoc. Qed.
Lemma holds_here bs img : holds (bs ++ img) (top (bs ++ img)) bs.
Proof. by exists [], img. Qed.
Lemma top_app X Y : top (X ++ Y) = top Y - Zlength X.
Proof. unfold top. rewrite length_app. lia. Qed.

Lemma place_holds args : ∀ img ptrs args0,
  Forall2 (λ p s, holds img p (cstr s)) ptrs args0 →
  Forall2 (λ p s, holds (place args img ptrs).1 p (cstr s)) (place args img ptrs).2 (reverse args ++ args0).
Proof.
  induction args as [|s args IH]; intros img ptrs args0 H; [done|]. cbn [place]. rewrite reverse_cons, <- app_assoc.
  apply IH. constructor; [apply holds_here|]. eapply Forall2_impl; [done|]. intros p s' Hp. by apply holds_prefix.
Qed.

Lemma words_holds ptrs img i p : ptrs !! i = Some p → holds (words ptrs ++ img) (top (words ptrs ++ img) + 4 * Z.of_nat i) (le_bytes 4 p).
Proof.
  intros Hi. pose proof (take_drop_middle ptrs i p Hi) as E. pose proof (lookup_lt_Some _ _ _ Hi) as Hlt.
  assert (Ew : words ptrs ++ img = words (take i ptrs) ++ le_bytes 4 p ++ words (drop (S i) ptrs) ++ img).
  { rewrite <- E at 1. unfold words. rewrite fmap_app, concat_app. cbn [fmap list_fmap concat]. by rewrite <- !app_assoc. }
  exists (words (take i ptrs)), (words (drop (S i) ptrs) ++ img). split; [done|]. rewrite Ew, top_app, length_words, length_take. lia.
Qed.

Definition ubyte (v : vm) (a : afs) (va : Z) : option Z :=
  l ← contents v a (cur v) (pg_round_down va); l !! Z.to_nat (pg_ofs va).
Definition ubytes (v : vm) (a : afs) (va : Z) (bs : list Z) : Prop :=
  ∀ j x, bs !! j = Some x → ubyte v a (va + Z.of_nat j) = Some x.

Lemma pushed_ubytes v img va bs : pushed v img → holds img va bs → ubytes v a va bs.
Proof.
  intros [Hn [_ H2 _ H4 _]] (X & Y & -> & ->) j x Hj. pose proof (lookup_lt_Some _ _ _ Hj) as Hlt. rewrite !length_app in Hn.
  destruct (stack_addr (top (bs ++ Y) + Z.of_nat j)) as [E1 E2].
  { unfold STACK, top. rewrite length_app. lia. }
  unfold ubyte. rewrite E1, E2, H2, H4. cbn [mbind option_bind]. unfold top, STACK.
  assert (Ht : length (take (Z.to_nat (PGSIZE - Zlength (X ++ bs ++ Y))) page) = Z.to_nat (PGSIZE - Zlength (X ++ bs ++ Y)))
    by (rewrite length_take; lia).
  rewrite !length_app in *. rewrite lookup_app_r by lia. rewrite Ht, lookup_app_r by lia. rewrite lookup_app_l by lia.
  rewrite <- Hj. f_equal. lia.
Qed.

(** [main] is called with [args]: above a return address are [argc] and [argv], which points
    to the vector of the addresses of the strings. *)
Definition main_args (v : vm) (a : afs) (esp : Z) (args : list (list Z)) : Prop :=
  esp mod 4 = 0
  ∧ ubytes v a esp (le_bytes 4 0)
  ∧ ubytes v a (esp + 4) (le_bytes 4 (Zlength args))
  ∧ ubytes v a (esp + 8) (le_bytes 4 (esp + 12))
  ∧ (∀ i s, args !! i = Some s → ∃ p, ubytes v a (esp + 12 + 4 * Z.of_nat i) (le_bytes 4 p) ∧ ubytes v a p (s ++ [0]))
  ∧ ubytes v a (esp + 12 + 4 * Zlength args) (le_bytes 4 0).

Lemma image_main v args :
  let r := place (reverse args) [] [] in
  pushed v (image r.1 r.2) → main_args v a (top (image r.1 r.2)) args.
Proof.
  intros r Hp. pose proof (place_holds (reverse args) [] [] [] (Forall2_nil_2 _ _ _)) as Hh. fold r in Hh.
  rewrite reverse_involutive, app_nil_r in Hh. pose proof (Forall2_length _ _ _ Hh) as Hlen.
  assert (Hv : top (vector r.1 r.2) = top (image r.1 r.2) + 12) by (unfold image; rewrite (top_app (words _)), length_words; simpl; lia).
  assert (Hat : ∀ i w, [0; Zlength r.2; top (vector r.1 r.2)] !! i = Some w → ubytes v a (top (image r.1 r.2) + 4 * Z.of_nat i) (le_bytes 4 w)).
  { intros i w Hi. apply (pushed_ubytes v (image r.1 r.2)); [done|]. by apply words_holds. }
  split_and!.
  - unfold image, vector. rewrite !top_app, !length_words. unfold padded. rewrite top_app, length_replicate.
    pose proof (Z.mod_pos_bound (top r.1) 4 ltac:(lia)). pose proof (Z.div_mod (top r.1) 4 ltac:(lia)) as Hdm. cbn [length].
    set (q := top r.1 / 4) in *. rewrite Z2Nat.id by lia.
    replace (_ - _ - _ - _ - _) with ((q - Zlength r.2 - 4) * 4) by lia. apply Z_mod_mult.
  - rewrite <- (Z.add_0_r (top _)). by apply (Hat O).
  - rewrite <- Hlen. by apply (Hat 1%nat).
  - rewrite <- Hv. by apply (Hat 2%nat).
  - intros i s Hi. destruct (Forall2_lookup_r _ _ _ _ _ Hh Hi) as (p & Hpi & Hps). exists p. rewrite <- Hv.
    split; apply (pushed_ubytes v (image r.1 r.2)); try done; unfold image; apply holds_prefix.
    + unfold vector. by apply words_holds.
    + unfold vector, padded. do 3 apply holds_prefix. exact Hps.
  - rewrite <- Hv, <- Hlen. apply (pushed_ubytes v (image r.1 r.2)); [done|]. unfold image. apply holds_prefix. unfold vector. apply holds_prefix.
    rewrite top_app, length_words. replace (_ - _ + _) with (top (words [0] ++ padded r.1) + 4 * Z.of_nat 0) by lia. by apply words_holds.
Qed.

End stack.

(** The strings need no more room than the command line. *)
Lemma total_tokens s : ∀ cur, total (tokens_from [32] cur s) ≤ Zlength cur + Zlength s + 1.
Proof.
  induction s as [|c s IH]; intros cur; cbn [tokens_from].
  - destruct cur as [|x cur]; [unfold total; simpl; lia|]. rewrite total_cons. unfold total, cstr. rewrite length_app. simpl. lia.
  - destruct (decide (c ∈ [32])).
    + specialize (IH []). destruct cur as [|x cur]; [simpl in *; lia|]. rewrite total_cons. unfold cstr. rewrite length_app. simpl in *. lia.
    + specialize (IH (cur ++ [c])). rewrite length_app in IH. simpl in *. lia.
Qed.
Lemma token_length ts s : s ∈ ts → Zlength s < total ts.
Proof.
  induction 1 as [s ts|s s' ts Hs IH]; rewrite total_cons; unfold cstr; rewrite length_app; cbn [length]; unfold total in *; lia.
Qed.

(** From the command line to the stack. *)
Lemma arguments_spec fuel d m v D a e page cmd s argv :
  vm_inv v D a → entry_at v (cur v) STACK = Some e → loaded e = true → Vm.writable e = true →
  contents v a (cur v) STACK = Some page → Zlength page = PGSIZE →
  str_at m d [32] → 0 < d → 0 < cmd → str_at m cmd s → (S (length s) < fuel)%nat →
  cmd + Z.of_nat (length s) < d ∨ d + 1 < cmd → Zlength argv = ARGV_MAX → Zlength s ≤ 3500 →
  let args := tokens [32] s in
  if decide (Zlength args < ARGV_MAX) then
    ∃ m' argv' v' esp, parse_args fuel d m cmd argv = Ok (m', argv', Zlength args)
      ∧ Forall2 (str_at m') (take (length args) argv') args
      ∧ push_args fuel m' v argv' (Zlength args) PHYS_BASE = Ok (v', esp)
      ∧ vm_inv v' D a ∧ cur v' = cur v ∧ main_args v' a esp args ∧ (∀ t u, entry_at v' t u = entry_at v t u)
      ∧ ∀ t u, (t, u) ≠ (cur v, STACK) → contents v' a t u = contents v a t u
  else parse_args fuel d m cmd argv = Panic.
Proof.
  intros H He Hl Hw Hc Hpg Hd Hd0 Hc0 Hs Hf Hdis Hargv Hs5 args.
  pose proof (parse_args_spec fuel d m cmd s argv Hd Hd0 ltac:(lia) Hc0 Hs ltac:(lia) Hdis) as Hp. cbv zeta in Hp. fold args in Hp.
  rewrite Hargv in Hp. destruct (decide (Zlength args < ARGV_MAX)) as [Hn|]; [|done].
  destruct Hp as (m' & ps & Ep & Hps & _). pose proof (Forall2_length _ _ _ Hps) as Hlen.
  pose proof (total_tokens s []) as Htot. change (tokens_from [32] [] s) with args in Htot. cbn [length] in Htot.
  set (argv' := splice 0 (ps ++ [0]) argv). unfold ARGV_MAX in *.
  assert (Htake : take (length args) argv' = ps).
  { unfold argv', splice. change (Z.to_nat 0) with O. rewrite take_0, app_nil_l, <- app_assoc. by rewrite <- Hlen, take_app_length. }
  destruct (push_args_spec v D a e page He Hl Hw Hpg fuel m' argv' args v) as (v' & E & Hpu).
  - unfold argv'. rewrite length_splice by (rewrite ?length_app; simpl; lia). lia.
  - by rewrite Htake.
  - apply Forall_forall. intros x Hx. pose proof (token_length args x Hx). lia.
  - by split.
  - unfold PGSIZE. lia.
  - eexists m', argv', v', _. split; [done|]. split; [by rewrite Htake|]. split; [exact E|].
    pose proof (image_main v D a page Hpg v' args Hpu) as Hm. destruct Hpu as [_ [O1 O2 O3 _ O5]]. done.
Qed.

End ProcArgs.
