(* ===== verification/ProcLoad.v ===== *)
(** * Loading an executable

    [load] gives a new process a page directory, opens the executable, enters the pages of
    its segments into the supplemental page table and sets up the stack.  After it the
    pages of the process are the ones that the program headers describe, and the pages of
    all other processes are as before. *)

From S2P Require Import Prelude Bitmap Strings Vaddr Palloc Disk Inode Directory FsInv FileInv DirInv Filesys FsSpec Pagedir Vm VmInv VmData VmLoad VmUser Process ProcArgs.

Module ProcLoad.
Import Bitmap Palloc Disk Inode Directory FsInv FileInv DirInv Filesys FsSpec Pagedir Vm VmInv VmData VmLoad VmUser Process ProcArgs.

(** ** Operations on other files *)

(** A step of the file system that the pages of processes do not see. *)
Record fs_compat (v : vm) (a a' : afs) : Prop := {
  fc_handle t u e h : entry_at v t u = Some e → ptype e = PAGE_FILE ∨ ptype e = PAGE_MMAP → ahandles a !! efile e = Some h →
    ∃ h', ahandles a' !! efile e = Some h' ∧ hid h' = hid h ∧ hdeny h' = hdeny h ∧ astore a' !! hid h = astore a !! hid h;
  fc_deny t u e h : entry_at v t u = Some e → ptype e = PAGE_MMAP → ahandles a !! efile e = Some h →
    denied_id a' (hid h) → denied_id a (hid h)
}.

Lemma file_page_compat v a a' t u e :
  fs_compat v a a' → entry_at v t u = Some e → ptype e = PAGE_FILE ∨ ptype e = PAGE_MMAP → is_Some (ahandles a !! efile e) →
  file_page a' e = file_page a e.
Proof.
  intros C He Hty [h Hh]. destruct (fc_handle _ _ _ C t u e h He Hty Hh) as (h' & Hh' & E1 & _ & E2). unfold file_page.
  rewrite Hh, Hh'. cbn [mbind option_bind]. by rewrite E1, E2.
Qed.

Lemma file_ok_compat v a a' t u e :
  fs_compat v a a' → entry_at v t u = Some e → ptype e = PAGE_FILE ∨ ptype e = PAGE_MMAP → file_ok a e → file_ok a' e.
Proof.
  intros C He Hty ([h Hh] & Hr). destruct (fc_handle _ _ _ C t u e h He Hty Hh) as (h' & Hh' & _). split; [by exists h'|done].
Qed.

Lemma data_sys v D a s' a' :
  data_ok v D a → abstracts s' a' → fs_compat v a a' →
  data_ok (set_sys v s') D a' ∧ ∀ t u, contents (set_sys v s') a' t u = contents v a t u.
Proof.
  intros [A1 A2 A3 A4 A5] Hs C.
  assert (Hfile : ∀ t p u e, procs v !! t = Some p → entry_at v t u = Some e → ptype e = PAGE_FILE ∨ ptype e = PAGE_MMAP →
    file_page a' e = file_page a e).
  { intros t p u e Hp He Hty. apply (file_page_compat v a a' t u); try done. pose proof (A3 t p u e Hp He) as Ht. unfold type_ok in Ht.
    destruct Hty as [E|E]; rewrite E in Ht; apply Ht. }
  assert (Hb : ∀ t u e, entry_at v t u = Some e → backing (set_sys v s') a' e = backing v a e).
  { intros t u e He. destruct (entry_proc v t u e He) as [p Hp]. unfold backing. destruct (ptype e) eqn:Hty; try done; apply (Hfile t p u e Hp He); auto. }
  split; [split|].
  - done.
  - done.
  - intros t p u e Hp He. pose proof (A3 t p u e Hp He) as Ht. unfold type_ok in *. destruct (ptype e) eqn:Hty; try done.
    + destruct Ht as [Hf Hd]. split; [by apply (file_ok_compat v a a' t u); auto|]. intros h' Hh'. destruct Hf as ([h Hh] & _).
      destruct (fc_handle _ _ _ C t u e h He (or_introl Hty) Hh) as (h2 & Hh2 & _ & Ed & _). assert (h2 = h') as -> by congruence. rewrite Ed. by apply Hd.
    + destruct Ht as (Hf & Hw & Hd). split; [by apply (file_ok_compat v a a' t u); auto|]. split; [done|]. intros h' xs Hh' Hxs. destruct Hf as ([h Hh] & _).
      destruct (fc_handle _ _ _ C t u e h He (or_intror Hty) Hh) as (h2 & Hh2 & E1 & Ed & E2). assert (h2 = h') as -> by congruence.
      rewrite E1 in Hxs |- *. rewrite E2 in Hxs. destruct (Hd h xs Hh Hxs) as [Hn Hl]. split; [|done]. intros Hden. apply Hn. by apply (fc_deny _ _ _ C t u e h).
  - intros t u e He Hl. destruct (A4 t u e He Hl) as [C1 C2]. split; [exact C1|]. rewrite (Hb t u e He), (frame_data_mem v (set_sys v s') e eq_refl). exact C2.
  - intros t u e t' u' e' He He' Hne. destruct (A5 t u e t' u' e' He He' Hne) as [P1 P2]. split; [done|]. intros Hm Hm' Eh. apply P2; [done|done|].
    assert (Hkeep : ∀ t u e, entry_at v t u = Some e → ptype e = PAGE_MMAP → hid <$> ahandles a' !! efile e = hid <$> ahandles a !! efile e).
    { intros t0 u0 e0 He0 Hm0. destruct (entry_proc v t0 u0 e0 He0) as [p0 Hp0]. pose proof (A3 t0 p0 u0 e0 Hp0 He0) as Ht. unfold type_ok in Ht.
      rewrite Hm0 in Ht. destruct Ht as (([h Hh] & _) & _). destruct (fc_handle _ _ _ C t0 u0 e0 h He0 (or_intror Hm0) Hh) as (h' & Hh' & E1 & _).
      rewrite Hh, Hh'. simpl. by rewrite E1. }
    by rewrite <- (Hkeep t u e He Hm), <- (Hkeep t' u' e' He' Hm').
  - intros t u. unfold contents. change (entry_at (set_sys v s') t u) with (entry_at v t u). destruct (entry_at v t u) as [e|] eqn:He; [|done].
    cbn [mbind option_bind]. rewrite (Hb t u e He), (frame_data_mem v (set_sys v s') e eq_refl). reflexivity.
Qed.

Lemma inv_sys v D a s' a' :
  vm_inv v D a → abstracts s' a' → fs_compat v a a' →
  vm_inv (set_sys v s') D a' ∧ ∀ t u, contents (set_sys v s') a' t u = contents v a t u.
Proof.
  intros [I1 I2 I3 I4 I5 I6 I7] Hs C. destruct (data_sys v D a s' a' I7 Hs C) as [Hd Hc]. split; [|exact Hc]. split; try done.
  - destruct I3. by split.
  - destruct I5. by split.
  - destruct I6. by split.
Qed.

(** ** A new process *)

(** The invariant in the thread of a process that is about to be loaded. *)
Record fresh (v : vm) (D : dirs) (a : afs) : Prop := {
  fr_dirs : dirs_ok (mach v) D;
  fr_tlb : tlb_ok (mach v) D;
  fr_frames : frames_ok v;
  fr_hand : hand_ok v;
  fr_links : links_ok v D;
  fr_data : data_ok v D a;
  fr_table t p : t ≠ cur v → procs v !! t = Some p → is_Some (ptable p) ∧ is_Some (D !! pagedir p);
  fr_inj t t' p p' : t ≠ cur v → t' ≠ cur v → procs v !! t = Some p → procs v !! t' = Some p' → pagedir p = pagedir p' → t = t';
  fr_cur : ∃ p, procs v !! cur v = Some p ∧ ptable p = Some ∅ ∧ pagedir p = 0
}.

(** The state after [pagedir_create], [process_activate] and [spt_init]. *)
Definition started (v : vm) (pd : Z) (m : mmu) : vm :=
  spt_init (set_mach (put_pagedir (set_mach v m) (cur v) pd)
    (Mmu (pal m) (init_page_dir m) (init_ram_pages m) (pd - PHYS_BASE) ∅)) (cur v) true.

Section start.
Context (v : vm) (D : dirs) (a : afs) (H : fresh v D a).
Context (pd : Z) (m : mmu) (Hpd : kpage_ok pd) (Hnew : ¬ used (pal (mach v)) pd).
Let D' : dirs := <[pd := ∅]> D.
Context (HD : dirs_ok m D') (HT : tlb_ok m D') (Hk : pages_kept (mach v) D m D') (Hs : pte_same (mach v) D m D').

Lemma start_procs t :
  procs (started v pd m) !! t =
  if decide (t = cur v) then (λ p, Proc pd (Some ∅) (mmap_list p) (esp_on_syscall p) (file_descriptors p) (executable p)) <$> procs v !! t
  else procs v !! t.
Proof.
  unfold started, spt_init, put_pagedir, upd_proc. cbn [procs set_procs set_mach]. destruct (decide (t = cur v)) as [->|Hne].
  - rewrite lookup_alter_eq, lookup_alter_eq. by destruct (procs v !! cur v).
  - by rewrite !lookup_alter_ne by done.
Qed.
Lemma start_entry t u : entry_at (started v pd m) t u = entry_at v t u.
Proof.
  unfold entry_at. rewrite start_procs. destruct (decide (t = cur v)) as [->|]; [|done].
  destruct (fr_cur v D a H) as (p & Hp & Ht & _). rewrite Hp. cbn [fmap option_fmap option_map mbind option_bind]. by rewrite Ht.
Qed.
Lemma start_unmapped u : entry_at v (cur v) u = None.
Proof.
  unfold entry_at. destruct (fr_cur v D a H) as (p & Hp & Ht & _). rewrite Hp. cbn [mbind option_bind]. rewrite Ht. done.
Qed.
Lemma start_fresh : D !! pd = None.
Proof.
  apply eq_None_not_Some. intros [ts Hts]. apply Hnew. apply (pd_used (mach v) pd ts (di_pd _ _ (fr_dirs v D a H) pd ts Hts)). by left.
Qed.
Lemma start_pte t u : t ≠ cur v → 0 ≤ u < PHYS_BASE → pte_at (started v pd m) D' t u = pte_at v D t u.
Proof.
  intros Hne Hu. unfold pte_at. rewrite start_procs, decide_False by done. destruct (procs v !! t) as [p|]; [|done]. apply (Hs (pagedir p) u Hu).
Qed.
Lemma start_tables : tables_kept D D'.
Proof.
  intros pd0 ts Hts. exists ts. split; [|done]. unfold D'. rewrite lookup_insert_ne; [done|]. intros <-. by rewrite start_fresh in Hts.
Qed.
Lemma start_spare k : spare v D k → spare (started v pd m) D' k.
Proof.
  intros (S1 & S2 & S3). split; [by apply (pk_used _ _ _ _ Hk)|]. split.
  - intros Ho. by destruct (pk_new _ _ _ _ Hk k Ho).
  - change (k ≠ init_page_dir m). by rewrite (proj1 (pk_init _ _ _ _ Hk)).
Qed.
Lemma start_mem t u e : entry_at v t u = Some e → loaded e = true → frame_data (started v pd m) e = frame_data v e.
Proof.
  intros He Hl. destruct (lo_loaded v D (fr_links v D a H) t u e He Hl) as (x & f & Hf & <- & <-).
  destruct (lo_frame v D (fr_links v D a H) x f Hf) as (e1 & He1 & _ & Hkp). assert (e1 = e) as -> by congruence.
  destruct (lo_spare v D (fr_links v D a H) x f Hf) as (S1 & S2 & S3). apply peek_ext. rewrite Hkp. intros y Hy.
  assert (Epg : page_of y = fkpage f) by (apply page_of_in; [apply (used_kpage (pal (mach v))); [apply (fr_dirs v D a H)|apply S1]|done]).
  change (vmem (started v pd m) y) with (mem m y). apply (pk_mem _ _ _ _ Hk); by rewrite Epg.
Qed.

Lemma start_links : links_ok (started v pd m) D'.
Proof.
  destruct (fr_links v D a H) as [L1 L2 L3 L4 L5]. split.
  - intros x f Hf. rewrite start_entry. by apply (L1 x f).
  - intros t u e. rewrite start_entry. apply L2.
  - intros x f Hf. apply start_spare. by apply (L3 x f).
  - intros t u e. rewrite start_entry. apply L4.
  - intros t u [p Hp] Hu. rewrite start_entry. rewrite start_procs in Hp. destruct (decide (t = cur v)) as [->|Hne].
    + rewrite start_unmapped. unfold pte_at. rewrite start_procs, decide_True by done. destruct (fr_cur v D a H) as (q & Hq & _). rewrite Hq.
      cbn [fmap option_fmap option_map pagedir]. unfold pte_of, D'. rewrite lookup_insert_eq. unfold pte. by rewrite lookup_empty.
    + rewrite (start_pte t u Hne (proj1 Hu)). apply L5; [by exists p|done].
Qed.

Lemma start_keep t p u e : procs v !! t = Some p → entry_at v t u = Some e →
  type_ok (started v pd m) D' a (pagedir p) e ∧ backing (started v pd m) a e = backing v a e
  ∧ (loaded e = true → frame_data (started v pd m) e = frame_data v e
      ∧ flag (pte_at (started v pd m) D' t u) PTE_D = flag (pte_at v D t u) PTE_D).
Proof.
  intros Hp He. split; [|split].
  - apply (type_ok_kept v (started v pd m) D D' a a); [by apply (da_type v D a (fr_data v D a H) t p u)|apply start_tables|apply moved_refl| |done].
    intros id xs Hxs. by exists xs.
  - by apply backing_swap.
  - intros Hl. split; [by apply (start_mem t u)|]. rewrite start_pte; [done| |by apply (lo_entry v D (fr_links v D a H) t u e)].
    intros ->. by rewrite start_unmapped in He.
Qed.

Lemma start_inv :
  vm_inv (started v pd m) D' a ∧ (∀ t u, contents (started v pd m) a t u = contents v a t u) ∧ ∀ u, entry_at (started v pd m) (cur v) u = None.
Proof.
  pose proof (fr_data v D a H) as Hd. assert (Hdec : ∀ t u : Z, Decision ((λ _ _ : Z, False) t u)) by (intros; apply _).
  assert (Hkp : ∀ t p u e, ¬ (λ _ _ : Z, False) t u → procs v !! t = Some p → entry_at v t u = Some e →
    type_ok (started v pd m) D' a (pagedir p) e
    ∧ (ptype e = PAGE_SWAP → loaded e = true ∨ backing (started v pd m) a e = backing v a e)
    ∧ (ptype e ≠ PAGE_SWAP → backing (started v pd m) a e = backing v a e)
    ∧ (loaded e = true → frame_data (started v pd m) e = frame_data v e
         ∧ flag (pte_at (started v pd m) D' t u) PTE_D = flag (pte_at v D t u) PTE_D)).
  { intros t p u e _ Hp He. destruct (start_keep t p u e Hp He) as (K1 & K2 & K3). auto. }
  split; [split|split].
  - by apply (dirs_ok_cpu m).
  - split; [|intros vp e0 E; by change (@None Z = Some e0) in E]. change (kpage_ok (pd - PHYS_BASE + PHYS_BASE)). by replace (pd - PHYS_BASE + PHYS_BASE) with pd by lia.
  - destruct (fr_frames v D a H). by split.
  - apply (fr_hand v D a H).
  - assert (Hcase : ∀ t p, procs (started v pd m) !! t = Some p →
      (t = cur v ∧ ptable p = Some ∅ ∧ pagedir p = pd) ∨ (t ≠ cur v ∧ procs v !! t = Some p)).
    { intros t p. rewrite start_procs. destruct (decide (t = cur v)) as [->|Hne]; [|by right]. intros (q & _ & ->)%fmap_Some. by left. }
    split.
    + intros t p Hp. destruct (Hcase t p Hp) as [(_ & -> & ->)|[Hne Hp0]].
      * split; [by eexists|]. unfold D'. rewrite lookup_insert_eq. by eexists.
      * destruct (fr_table v D a H t p Hne Hp0) as [T1 [ts T2]]. split; [done|]. destruct (start_tables (pagedir p) ts T2) as (ts' & ? & _). by exists ts'.
    + intros t t' p p' Hp Hp' E. destruct (Hcase t p Hp) as [(-> & _ & E1)|[Hne Hp0]], (Hcase t' p' Hp') as [(-> & _ & E2)|[Hne' Hp0']]; try done.
      * destruct (fr_table v D a H t' p' Hne' Hp0') as [_ [ts T2]]. rewrite <- E, E1, start_fresh in T2. done.
      * destruct (fr_table v D a H t p Hne Hp0) as [_ [ts T2]]. rewrite E, E2, start_fresh in T2. done.
      * by apply (fr_inj v D a H t t' p p').
    + destruct (fr_cur v D a H) as (q & Hq & _). eexists. split.
      * change (cur (started v pd m)) with (cur v). rewrite start_procs, decide_True, Hq by done. reflexivity.
      * change (pd - PHYS_BASE + PHYS_BASE = pd). lia.
  - apply start_links.
  - split; [apply Hd|apply Hd| | |].
    + intros t p u e Hp He. rewrite start_entry in He. rewrite start_procs in Hp. destruct (decide (t = cur v)) as [->|Hne]; [by rewrite start_unmapped in He|].
      by apply (start_keep t p u e).
    + intros t u e He. rewrite start_entry in He. apply (step_clean v (started v pd m) D D' a a (λ _ _, False)) with (u := u); [exact Hd| |exact Hkp|by intros ?|exact He].
      intros t0 u0 e0 He0. by apply (lo_entry v D (fr_links v D a H) t0 u0 e0).
    + intros t u e t' u' e' He He'. rewrite start_entry in He, He'. by apply (da_apart v D a Hd t u e t' u' e').
  - intros t u. apply (contents_step v (started v pd m) D D' a a (λ _ _, False)); [|exact Hkp|by intros ?]. intros t0 u0 _. apply start_entry.
  - intros u. rewrite start_entry. apply start_unmapped.
Qed.
End start.

(** ** Pages of a segment *)

(** The pages of a process: [None] for a page that is there but cannot be loaded. *)
Notation pages := (gmap Z (option (list Z))).
Definition view (v : vm) (a : afs) (t u : Z) : option (option (list Z)) :=
  match entry_at v t u with Some _ => Some (contents v a t u) | None => None end.
Definition pages_are (v : vm) (a : afs) (M : pages) : Prop := ∀ u, view v a (cur v) u = M !! u.
Definition others (v : vm) (a : afs) (v' : vm) (a' : afs) : Prop := ∀ t u, t ≠ cur v → contents v' a' t u = contents v a t u.

(** Adding pages that are not there yet. *)
Fixpoint add_pages (l : list (Z * option (list Z))) (M : pages) : option pages :=
  match l with
  | [] => Some M
  | (u, c) :: l => match M !! u with Some _ => None | None => add_pages l (<[u := c]> M) end
  end.

(** [n] bytes of the file from [ofs] on and zeros after them; none if the file is too
    short. *)
Definition page_data (xs : list Z) (ofs n : Z) : option (list Z) :=
  if decide (n = 0 ∨ ofs + n ≤ Zlength xs) then Some (slice ofs n xs ++ replicate (Z.to_nat (PGSIZE - n)) 0) else None.

(** What adding entries leaves. *)
Record quiet (v v' : vm) : Prop := {
  q_cur : cur v' = cur v;
  q_table : frame_table v' = frame_table v;
  q_mach : mach v' = mach v;
  q_sys : sys v' = sys v;
  q_supply : vsupply v' = vsupply v
}.
Lemma quiet_refl v : quiet v v.
Proof. by split. Qed.
Lemma quiet_trans v1 v2 v3 : quiet v1 v2 → quiet v2 v3 → quiet v1 v3.
Proof. intros [] []. split; congruence. Qed.
Lemma spt_add_quiet v t e ok v' : spt_add v t e = Ok (ok, v') → quiet v v'.
Proof.
  unfold spt_add, kmalloc. intros E. destruct (_ =? 0); [by injection E as _ <-|]. apply bind_Ok in E as (s & _ & E).
  by destruct (s !! upage e); injection E as _ <-.
Qed.

Section segment.
Context (D : dirs) (a : afs) (file : Z) (h : handle) (xs : list Z).
Context (Hh : ahandles a !! file = Some h) (Hdeny : hdeny h = true) (Hxs : astore a !! hid h = Some xs).

Lemma add_view v M e ok v' c :
  vm_inv v D a → pages_are v a M → user_page (upage e) → loaded e = false →
  (∀ pd, type_ok v D a pd e) → (ptype e = PAGE_FILE ∨ ptype e = PAGE_ZERO) → backing v a e = c →
  spt_add v (cur v) e = Ok (ok, v') →
  vm_inv v' D a ∧ quiet v v' ∧ others v a v' a ∧
  if ok then M !! upage e = None ∧ pages_are v' a (<[upage e := c]> M) ∧ entry_at v' (cur v) (upage e) = Some e
  else pages_are v' a M ∧ (is_Some (M !! upage e) ∨ vsupply v (vcalls v) = false).
Proof.
  intros H HM Hu Hl Hty Hpt Hc E. destruct (po_cur v D (vi_procs v D a H)) as (p & Hp & _). pose proof (spt_add_quiet _ _ _ _ _ E) as Q.
  destruct (spt_add_spec v D a (cur v) p e H Hp Hu Hl (Hty _)) as (ok' & v1 & E' & HI & Ec & _ & _ & Hok).
  { intros t' u' e' _. split; intros Hx; destruct Hpt; congruence. }
  rewrite E in E'. injection E' as <- <-. split; [exact HI|]. split; [exact Q|]. pose proof (HM (upage e)) as HMu. unfold view in HMu. destruct ok.
  - destruct Hok as (Hn & Hco & Hent & Hoth). rewrite Hn in HMu. split; [intros t u Hne; apply Hoth; congruence|]. split; [done|]. split.
    + intros u. unfold view. rewrite Ec, Hent. destruct (decide ((cur v, u) = (cur v, upage e))) as [[= ->]|Hne].
      * rewrite lookup_insert_eq, Hco, Hc. f_equal. destruct c as [l|]; [|done]. cbn [fmap option_fmap option_map]. unfold visible.
        by rewrite decide_False by (destruct Hpt; congruence).
      * rewrite lookup_insert_ne by congruence. rewrite <- HM. unfold view. by rewrite Hoth.
    + by rewrite Hent, decide_True.
  - destruct Hok as (Hwhy & Hca & Epr). split; [intros t u _; apply Hca|]. split.
    + intros u. unfold view. rewrite Ec, (ca_contents _ _ _ _ Hca). unfold entry_at. rewrite Epr. apply HM.
    + destruct Hwhy as [[e0 He0]|Hs]; [left; rewrite He0 in HMu; by eexists|by right].
Qed.

Lemma set_file_spec v M u ofs n wr :
  vm_inv v D a → pages_are v a M → user_page u → 0 ≤ ofs < 2 ^ 31 → 0 ≤ n ≤ PGSIZE →
  ∃ ok v', spt_set_file v (cur v) u file ofs n (PGSIZE - n) wr = Ok (ok, v') ∧ vm_inv v' D a ∧ quiet v v' ∧ others v a v' a ∧
  if ok then M !! u = None ∧ pages_are v' a (<[u := page_data xs ofs n]> M)
  else is_Some (M !! u) ∨ vsupply v (vcalls v) = false.
Proof.
  intros H HM Hu Ho Hn. unfold spt_set_file. rewrite user_page_round by done. set (e := SptEntry u 0 PAGE_FILE wr false file ofs n (PGSIZE - n) 0 (-1)).
  destruct (po_cur v D (vi_procs v D a H)) as (p & Hp & _).
  assert (Hty : ∀ pd, type_ok v D a pd e).
  { intros pd. unfold type_ok. cbn [e ptype]. split; [|intros h' Hh'; cbn [e efile] in Hh'; congruence].
    split; [by exists h|]. cbn [e file_offset read_bytes zero_bytes]. lia. }
  destruct (spt_add_spec v D a (cur v) p e H Hp Hu eq_refl (Hty _)) as (ok & v' & E & _); [by intros t' u' e' _; split|].
  destruct (add_view v M e ok v' (page_data xs ofs n) H HM Hu eq_refl Hty (or_introl eq_refl)) as (HI & Q & O & Hok); [|done|].
  - unfold backing, file_page, page_data. cbn [e ptype efile file_offset read_bytes zero_bytes]. rewrite Hh. cbn [mbind option_bind]. rewrite Hxs.
    cbn [mbind option_bind]. by apply decide_ext.
  - exists ok, v'. split; [done|]. split; [done|]. split; [done|]. split; [done|]. change (upage e) with u in Hok. destruct ok; [by destruct Hok as (? & ? & _)|apply Hok].
Qed.

(** Page [i] of [cnt] pages at [up] that hold [rb] bytes of the file from [fo] on. *)
Definition seg_page (fo up rb i : Z) : Z * option (list Z) :=
  (up + i * PGSIZE, page_data xs (fo + i * PGSIZE) (Z.max 0 (Z.min PGSIZE (rb - i * PGSIZE)))).

Lemma segment_step n v ofs up rb zb wr :
  segment_loop (S n) v file ofs up rb zb wr =
  if (0 <? rb) || (0 <? zb) then
    let k := if rb <? PGSIZE then rb else PGSIZE in
    '(ok, v) ← spt_set_file v (cur v) up file ofs k (PGSIZE - k) wr;
    if negb ok then Ok (false, v) else
    segment_loop n v file (s32 (ofs + k)) (u32 (up + PGSIZE)) (u32 (rb - k)) (u32 (zb - (PGSIZE - k))) wr
  else Ok (true, v).
Proof. reflexivity. Qed.
Lemma segment_loop_spec fo up rb cnt wr :
  user_page up → up + cnt * PGSIZE ≤ PHYS_BASE → 0 ≤ fo → 0 ≤ rb ≤ cnt * PGSIZE → fo + rb < 2 ^ 31 →
  ∀ k i v M, 0 ≤ i → i + Z.of_nat k = cnt → vm_inv v D a → pages_are v a M →
  ∃ ok v', segment_loop (S k) v file (fo + Z.min rb (i * PGSIZE)) (up + i * PGSIZE)
      (Z.max 0 (rb - i * PGSIZE)) ((cnt - i) * PGSIZE - Z.max 0 (rb - i * PGSIZE)) wr = Ok (ok, v')
    ∧ vm_inv v' D a ∧ quiet v v' ∧ others v a v' a ∧
    if ok then ∃ M', add_pages (seg_page fo up rb <$> seqZ i (Z.of_nat k)) M = Some M' ∧ pages_are v' a M'
    else add_pages (seg_page fo up rb <$> seqZ i (Z.of_nat k)) M = None ∨ ∃ n, vsupply v n = false.
Proof.
  intros [Hu1 Hu2] Hend Hfo Hrb Hsum. unfold PGSIZE, PHYS_BASE in *.
  induction k as [|k IH]; intros i v M Hi Hk H HM; rewrite segment_step; cbv zeta.
  - rewrite (proj2 (Z.ltb_ge _ _)), (proj2 (Z.ltb_ge _ _)) by lia. cbn [orb]. exists true, v. split; [done|]. split; [done|].
    split; [apply quiet_refl|]. split; [by intros ? ?|]. by exists M.
  - replace ((0 <? Z.max 0 (rb - i * 4096)) || _) with true by (symmetry; apply orb_true_iff; rewrite !Z.ltb_lt; lia).
    set (n := if Z.max 0 (rb - i * 4096) <? PGSIZE then Z.max 0 (rb - i * 4096) else PGSIZE).
    assert (En : n = Z.max 0 (Z.min 4096 (rb - i * 4096))) by (unfold n, PGSIZE; destruct (Z.ltb_spec (Z.max 0 (rb - i * 4096)) 4096); lia).
    assert (Hup : user_page (up + i * 4096)).
    { split; [unfold PHYS_BASE; lia|]. unfold PGSIZE. rewrite Z.add_mod, Hu2, Z_mod_mult by lia. done. }
    destruct (set_file_spec v M (up + i * 4096) (fo + Z.min rb (i * 4096)) n wr H HM Hup) as (ok & v1 & E & H1 & Q1 & O1 & Hok); [lia|unfold PGSIZE; lia|].
    rewrite E. cbn [mbind res_bind]. rewrite (seqZ_cons i) by lia. replace (Z.pred (Z.of_nat (S k))) with (Z.of_nat k) by lia.
    cbn [fmap list_fmap add_pages]. unfold seg_page at 1 3. cbn [fst snd]. change PGSIZE with 4096 in *.
    assert (Ed : page_data xs (fo + i * 4096) (Z.max 0 (Z.min 4096 (rb - i * 4096))) = page_data xs (fo + Z.min rb (i * 4096)) n).
    { rewrite <- En. destruct (decide (n = 0)) as [->|Hn0]; [|by replace (Z.min rb (i * 4096)) with (i * 4096) by lia].
      unfold page_data. by rewrite !decide_True by (by left). }
    destruct ok; cbn [negb].
    + destruct Hok as [HMn HM1]. rewrite HMn, Ed. destruct (IH (i + 1) v1 (<[up + i * 4096 := page_data xs (fo + Z.min rb (i * 4096)) n]> M)) as
        (ok & v' & E' & HI & Q' & O' & Hok); [lia|lia|done|done|].
      exists ok, v'. split.
      * rewrite <- E'. f_equal.
        -- rewrite s32_small by lia. lia.
        -- rewrite u32_small by lia. lia.
        -- rewrite u32_small by lia. lia.
        -- rewrite u32_small by lia. lia.
      * split; [done|]. split; [by apply (quiet_trans v v1)|]. split.
        { intros t u Hne. rewrite O' by (rewrite (q_cur _ _ Q1); done). by apply O1. }
        replace (Z.succ i) with (i + 1) by lia. destruct ok; [done|]. destruct Hok as [?|[n' Hn']]; [by left|right]. exists n'. by rewrite <- (q_supply _ _ Q1).
    + exists false, v1. split; [done|]. split; [done|]. split; [done|]. split; [done|]. destruct Hok as [[c ->]|Hs]; [by left|right; by eexists].
Qed.

(** ** Program headers *)

Definition seg_file (ph : Elf32_Phdr) : Z := p_offset ph - p_offset ph mod PGSIZE.
Definition seg_start (ph : Elf32_Phdr) : Z := p_vaddr ph - p_vaddr ph mod PGSIZE.
Definition seg_read (ph : Elf32_Phdr) : Z := if 0 <? p_filesz ph then p_vaddr ph mod PGSIZE + p_filesz ph else 0.
Definition seg_cnt (ph : Elf32_Phdr) : Z := (p_vaddr ph mod PGSIZE + p_memsz ph + PGSIZE - 1) / PGSIZE.

(** A segment lies in user memory above the first page, at the same offset in its first
    page as in the file. *)
Definition seg_valid (ph : Elf32_Phdr) : Prop :=
  p_offset ph mod PGSIZE = p_vaddr ph mod PGSIZE ∧ p_offset ph ≤ Zlength xs ∧ p_filesz ph ≤ p_memsz ph ∧ 0 < p_memsz ph
  ∧ PGSIZE ≤ p_vaddr ph ∧ p_vaddr ph + p_memsz ph < PHYS_BASE.
#[local] Instance seg_valid_dec ph : Decision (seg_valid ph).
Proof. unfold seg_valid. apply _. Defined.

Definition phdr_range (ph : Elf32_Phdr) : Prop :=
  0 ≤ p_offset ph < 2 ^ 32 ∧ 0 ≤ p_vaddr ph < 2 ^ 32 ∧ 0 ≤ p_filesz ph < 2 ^ 32 ∧ 0 ≤ p_memsz ph < 2 ^ 32.

Lemma land_mask z : Z.land z PGMASK = z mod PGSIZE ∧ Z.land z (Z.lnot PGMASK) = z - z mod PGSIZE.
Proof.
  change PGMASK with (Z.ones 12). change PGSIZE with (2 ^ 12). split; [by rewrite Z.land_ones|].
  rewrite <- Z.ldiff_land, Z.ldiff_ones_r, Z.shiftl_mul_pow2, Z.shiftr_div_pow2 by lia. pose proof (Z.div_mod z (2 ^ 12) ltac:(lia)). lia.
Qed.

Lemma validate_segment_spec ph :
  phdr_range ph → Zlength xs < 2 ^ 31 → validate_segment ph (Zlength xs) = bool_decide (seg_valid ph).
Proof.
  intros (R1 & R2 & R3 & R4) Hx. unfold validate_segment, is_user_vaddr. rewrite !(proj1 (land_mask _)), (u32_small (Zlength xs)) by lia.
  unfold seg_valid. assert (Hw : p_vaddr ph < PHYS_BASE ∧ u32 (p_vaddr ph + p_memsz ph) < PHYS_BASE ∧ p_vaddr ph ≤ u32 (p_vaddr ph + p_memsz ph)
    ↔ p_vaddr ph + p_memsz ph < PHYS_BASE).
  { unfold PHYS_BASE. split; [|intros ?; rewrite u32_small by lia; lia]. intros (H1 & H2 & H3).
    destruct (decide (p_vaddr ph + p_memsz ph < 2 ^ 32)); [rewrite u32_small in H2 by lia; lia|].
    rewrite (u32_wrap (-1)) in H3 by lia. lia. }
  symmetry. destruct (Z.eqb_spec (p_offset ph mod PGSIZE) (p_vaddr ph mod PGSIZE)); cbn [negb]; [|apply bool_decide_eq_false; tauto].
  destruct (Z.ltb_spec (Zlength xs) (p_offset ph)); [apply bool_decide_eq_false; lia|].
  destruct (Z.ltb_spec (p_memsz ph) (p_filesz ph)); [apply bool_decide_eq_false; lia|].
  destruct (Z.eqb_spec (p_memsz ph) 0); [apply bool_decide_eq_false; lia|].
  destruct (Z.ltb_spec (p_vaddr ph) PHYS_BASE); cbn [negb]; [|apply bool_decide_eq_false; lia].
  destruct (Z.ltb_spec (u32 (p_vaddr ph + p_memsz ph)) PHYS_BASE); cbn [negb]; [|apply bool_decide_eq_false; rewrite <- Hw; lia].
  destruct (Z.ltb_spec (u32 (p_vaddr ph + p_memsz ph)) (p_vaddr ph)); [apply bool_decide_eq_false; rewrite <- Hw; lia|].
  destruct (Z.ltb_spec (p_vaddr ph) PGSIZE); [apply bool_decide_eq_false; lia|]. apply bool_decide_eq_true. rewrite <- Hw. lia.
Qed.

(** The sizes as [load] computes them. *)
Lemma seg_sizes ph :
  phdr_range ph → seg_valid ph →
  let all := ROUND_UP (u32 (p_vaddr ph mod PGSIZE + p_memsz ph)) PGSIZE in
  let rb := u32 (p_vaddr ph mod PGSIZE + p_filesz ph) in
  (if 0 <? p_filesz ph then (rb, u32 (all - rb)) else (0, all)) = (seg_read ph, seg_cnt ph * PGSIZE - seg_read ph)
  ∧ 0 ≤ seg_read ph ≤ seg_cnt ph * PGSIZE ∧ 1 ≤ seg_cnt ph ∧ seg_start ph + seg_cnt ph * PGSIZE ≤ PHYS_BASE
  ∧ seg_start ph mod PGSIZE = 0 ∧ seg_file ph mod PGSIZE = 0 ∧ 0 ≤ seg_start ph ∧ 0 ≤ seg_file ph
  ∧ seg_file ph + seg_read ph ≤ p_offset ph + p_filesz ph.
Proof.
  intros (R1 & R2 & R3 & R4) (V1 & V2 & V3 & V4 & V5 & V6) all rb. unfold seg_start, seg_file, seg_read in *.
  pose proof (Z.mod_pos_bound (p_vaddr ph) PGSIZE eq_refl) as Hm. pose proof (Z.div_mod (p_vaddr ph) PGSIZE ltac:(done)) as Hdm.
  pose proof (Z.div_mod (p_offset ph) PGSIZE ltac:(done)) as Hdo.
  set (po := p_vaddr ph mod PGSIZE) in *. set (q := p_vaddr ph / PGSIZE) in *. set (qo := p_offset ph / PGSIZE) in *.
  pose proof (Z.div_mod (po + p_memsz ph + PGSIZE - 1) PGSIZE ltac:(done)) as Hdc.
  pose proof (Z.mod_pos_bound (po + p_memsz ph + PGSIZE - 1) PGSIZE eq_refl) as Hmc. change ((po + p_memsz ph + PGSIZE - 1) / PGSIZE) with (seg_cnt ph) in *.
  rewrite V1 in *. replace (p_vaddr ph - po) with (q * PGSIZE) by lia. replace (p_offset ph - po) with (qo * PGSIZE) by lia. unfold PGSIZE, PHYS_BASE in *.
  assert (Hall : all = seg_cnt ph * 4096).
  { unfold all, ROUND_UP. rewrite (u32_small (po + p_memsz ph)), (u32_small (po + p_memsz ph + 4096 - 1)) by lia.
    change ((po + p_memsz ph + 4096 - 1) / 4096) with (seg_cnt ph). rewrite u32_small by lia. lia. }
  rewrite !Z_mod_mult. unfold rb. rewrite Hall, (u32_small (po + p_filesz ph)) by lia.
  destruct (Z.ltb_spec 0 (p_filesz ph)); [rewrite u32_small by lia|]; split_and!; try (done || lia). f_equal. lia.
Qed.

Lemma load_segment_spec v M ph wr :
  vm_inv v D a → pages_are v a M → phdr_range ph → seg_valid ph → p_offset ph + p_filesz ph < 2 ^ 31 →
  let l := seg_page (seg_file ph) (seg_start ph) (seg_read ph) <$> seqZ 0 (seg_cnt ph) in
  ∃ ok v', load_segment v file (s32 (seg_file ph)) (seg_start ph) (seg_read ph) (seg_cnt ph * PGSIZE - seg_read ph) wr = Ok (ok, v')
    ∧ vm_inv v' D a ∧ quiet v v' ∧ others v a v' a ∧
    if ok then ∃ M', add_pages l M = Some M' ∧ pages_are v' a M' else add_pages l M = None ∨ ∃ n, vsupply v n = false.
Proof.
  intros H HM HR HV Hsane l. destruct (seg_sizes ph HR HV) as (_ & S2 & S3 & S4 & S5 & S6 & S7 & S8 & S9).
  unfold load_segment. set (rb := seg_read ph) in *. set (c := seg_cnt ph) in *. set (st := seg_start ph) in *. set (fo := seg_file ph) in *.
  replace (rb + (c * PGSIZE - rb)) with (c * PGSIZE) by lia. assert (Hbig : c * PGSIZE < 2 ^ 32) by (unfold PHYS_BASE in *; lia).
  rewrite u32_small, Z_mod_mult, Z.eqb_refl, pg_ofs_mod, S5, Z.eqb_refl by (unfold PGSIZE in *; lia). cbn [mbind res_bind].
  rewrite s32_small, Z.rem_mod_nonneg, S6, Z.eqb_refl by (unfold PGSIZE in *; lia). cbn [mbind res_bind]. rewrite Z.div_mul by done.
  destruct (segment_loop_spec fo st rb c wr) with (k := Z.to_nat c) (i := 0) (v := v) (M := M) as (ok & v' & E & Hrest); try done; try lia.
  - split; [unfold PHYS_BASE, PGSIZE in *; lia|done].
  - exists ok, v'. rewrite Z2Nat.id in Hrest by lia. split; [|exact Hrest]. rewrite <- E. unfold PGSIZE in *. f_equal; lia.
Qed.

(** The pages that a program header asks for; none if the header is not acceptable. *)
Definition phdr_pages (ph : Elf32_Phdr) : option (list (Z * option (list Z))) :=
  if decide (p_type ph = PT_DYNAMIC ∨ p_type ph = PT_INTERP ∨ p_type ph = PT_SHLIB) then None
  else if decide (p_type ph = PT_LOAD) then
    if decide (seg_valid ph) then Some (seg_page (seg_file ph) (seg_start ph) (seg_read ph) <$> seqZ 0 (seg_cnt ph)) else None
  else Some [].
(** Some allocation fails. *)
Definition short (v : vm) : Prop := ∃ n, vsupply v n = false.

Lemma load_phdr_spec v M ph :
  vm_inv v D a → pages_are v a M → phdr_range ph → (p_type ph = PT_LOAD → p_offset ph + p_filesz ph < 2 ^ 31) →
  file_length (sys v) file = Ok (Zlength xs) → Zlength xs < 2 ^ 31 →
  ∃ ok v', load_phdr v file ph = Ok (ok, v') ∧ vm_inv v' D a ∧ quiet v v' ∧ others v a v' a ∧
    if ok then ∃ M', (l ← phdr_pages ph; add_pages l M) = Some M' ∧ pages_are v' a M'
    else (l ← phdr_pages ph; add_pages l M) = None ∨ short v.
Proof.
  intros H HM HR Hsane Hlen Hx. unfold load_phdr, phdr_pages.
  assert (Hdone : ∀ ok : bool, ∃ v', Ok (ok, v) = Ok (ok, v') ∧ vm_inv v' D a ∧ quiet v v' ∧ others v a v' a ∧ v' = v).
  { intros ok. exists v. split; [done|]. split; [done|]. split; [apply quiet_refl|]. by split; [intros ? ?|]. }
  destruct ((p_type ph =? PT_DYNAMIC) || _ || _) eqn:Ebad.
  - rewrite decide_True. 2: { apply orb_true_iff in Ebad as [[?%Z.eqb_eq|?%Z.eqb_eq]%orb_true_iff|?%Z.eqb_eq]; auto. }
    destruct (Hdone false) as (v' & E & H1 & H2 & H3 & _). exists false, v'. rewrite E. do 4 (split; [done|]). by left.
  - rewrite decide_False. 2: { apply orb_false_iff in Ebad as [[?%Z.eqb_neq ?%Z.eqb_neq]%orb_false_iff ?%Z.eqb_neq]. tauto. }
    destruct (Z.eqb_spec (p_type ph) PT_LOAD) as [Hld|Hld].
    + rewrite (decide_True _ _ Hld), Hlen. cbn [mbind res_bind]. rewrite (validate_segment_spec ph HR Hx). case_bool_decide as HV.
      * rewrite decide_True by done. rewrite !(proj2 (land_mask _)), !(proj1 (land_mask _)).
        destruct (seg_sizes ph HR HV) as [Es _]. cbv zeta in Es |- *. rewrite Es. cbv beta iota.
        apply (load_segment_spec v M ph (negb (Z.land (p_flags ph) PF_W =? 0)) H HM HR HV (Hsane Hld)).
      * rewrite decide_False by done. destruct (Hdone false) as (v' & E & H1 & H2 & H3 & _). exists false, v'. rewrite E. do 4 (split; [done|]). by left.
    + rewrite decide_False by done. destruct (Hdone true) as (v' & E & H1 & H2 & H3 & Ev). exists true, v'. rewrite E. do 4 (split; [done|]). subst v'. by exists M.
Qed.

End segment.

Lemma moved_compat v a a' : moved a a' → astore a' = astore a → fs_compat v a a'.
Proof.
  intros M E. split.
  - intros t u e h _ _ Hh. destruct (moved_handle a a' _ h M Hh) as (h' & Hh' & E1 & E2). exists h'. by rewrite E.
  - intros t u e h _ _ _ Hd. by apply (moved_denied a a').
Qed.
Lemma pages_sys v a s' a' M : (∀ t u, contents (set_sys v s') a' t u = contents v a t u) → pages_are v a M → pages_are (set_sys v s') a' M.
Proof. intros Hc HM u. rewrite <- HM. unfold view. by rewrite Hc. Qed.

Lemma length_step s a f h xs : abstracts s a → ahandles a !! f = Some h → astore a !! hid h = Some xs →
  file_length s f = Ok (Zlength xs) ∧ Zlength xs < 2 ^ 31.
Proof.
  intros (T & R & Hy & Est & Eh) Hh Hxs. destruct (handle_open_a s a T R Hy Est Eh f) as (fl & i & Hm & Hfl & Hi & HT & H0 & H1 & Hh' & Hxs' & Hlen & Hpos); [by eexists|].
  rewrite Hh in Hh'. injection Hh' as ->. assert (xs = file_data s (idata i)) as -> by (simpl in Hxs; congruence).
  destruct (k_disk _ _ _ _ (y_ok _ _ _ _ Hy) _ _ HT) as (_ & _ & (_ & O2 & _)). split.
  - unfold file_length. rewrite Hfl. cbn [from_opt mbind res_bind]. rewrite Hi. cbn [from_opt mbind res_bind]. unfold inode_length. by rewrite <- Hlen.
  - rewrite Hlen. lia.
Qed.

(** The pages that the [n] headers from [ofs] on ask for. *)
Fixpoint elf_pages (n : nat) (xs : list Z) (ofs : Z) : option (list (Z * option (list Z))) :=
  match n with
  | O => Some []
  | S n =>
      if decide (0 ≤ ofs ∧ ofs + PHDR_SIZE ≤ Zlength xs) then
        l ← phdr_pages xs (phdr_of (slice ofs PHDR_SIZE xs));
        l' ← elf_pages n xs (ofs + PHDR_SIZE);
        Some (l ++ l')
      else None
  end.

Lemma add_pages_app l l' : ∀ M, add_pages (l ++ l') M = (M' ← add_pages l M; add_pages l' M').
Proof. induction l as [|[u c] l IH]; intros M; [done|]. cbn [app add_pages]. destruct (M !! u); [done|]. apply IH. Qed.

(** The offsets of a file that segments refer to fit in an [off_t]. *)
Definition phdr_sane (ph : Elf32_Phdr) : Prop := p_type ph = PT_LOAD → p_offset ph + p_filesz ph < 2 ^ 31.

Lemma phdr_of_range l : Forall byte l → phdr_range (phdr_of l).
Proof.
  intros Hb. assert (Hf : ∀ o, 0 ≤ field l o 4 < 2 ^ 32).
  { intros o. unfold field. assert (Hs : Forall byte (slice o 4 l)) by (unfold slice; by apply Forall_take, Forall_drop).
    pose proof (le_value_range _ Hs) as Hr. assert (Hl : Zlength (slice o 4 l) ≤ 4) by (unfold slice; rewrite length_take; lia).
    change (2 ^ 32) with (256 ^ 4). pose proof (Z.pow_le_mono_r 256 (Zlength (slice o 4 l)) 4). lia. }
  unfold phdr_range, phdr_of. cbn [p_offset p_vaddr p_filesz p_memsz]. done.
Qed.

Lemma phdr_loop_spec file id xs D n : ∀ ofs v a h M,
  Forall byte xs → (∀ i, 0 ≤ i < Z.of_nat n → phdr_sane (phdr_of (slice (ofs + i * PHDR_SIZE) PHDR_SIZE xs))) →
  ahandles a !! file = Some h → hid h = id → hdeny h = true → astore a !! id = Some xs →
  - 2 ^ 31 ≤ ofs < 2 ^ 31 → vm_inv v D a → pages_are v a M →
  ∃ ok v' a', phdr_loop n v file ofs = Ok (ok, v') ∧ vm_inv v' D a' ∧ moved a a' ∧ astore a' = astore a
    ∧ cur v' = cur v ∧ frame_table v' = frame_table v ∧ mach v' = mach v ∧ vsupply v' = vsupply v ∧ others v a v' a' ∧
    if ok then ∃ M', (l ← elf_pages n xs ofs; add_pages l M) = Some M' ∧ pages_are v' a' M'
    else (l ← elf_pages n xs ofs; add_pages l M) = None ∨ short v.
Proof.
  induction n as [|n IH]; intros ofs v a h M Hb Hsane Hh Hid Hd Hxs Hofs H HM.
  - exists true, v, a. split; [done|]. split; [done|]. split; [apply moved_refl|]. do 5 (split; [done|]). split; [by intros ? ?|]. by exists M.
  - cbn [phdr_loop elf_pages]. subst id. destruct (length_step (sys v) a file h xs (da_sys v D a (vi_data v D a H)) Hh Hxs) as [El Hx].
    rewrite El. cbn [mbind res_bind]. unfold PHDR_SIZE in *. destruct ((ofs <? 0) || (Zlength xs <? ofs)) eqn:Erng.
    { exists false, v, a. split; [done|]. split; [done|]. split; [apply moved_refl|]. do 5 (split; [done|]). split; [by intros ? ?|]. left.
      rewrite decide_False; [done|]. apply orb_true_iff in Erng as [?%Z.ltb_lt|?%Z.ltb_lt]; lia. }
    apply orb_false_iff in Erng as [Hr1%Z.ltb_ge Hr2%Z.ltb_ge].
    destruct (read_file_spec (sys v) a file h xs ofs 32 (da_sys v D a (vi_data v D a H)) Hh Hxs) as (s1 & s2 & a1 & E1 & E2 & Ha1 & M1 & Es1); [lia|lia|].
    rewrite E1. cbn [mbind res_bind]. rewrite E2. cbn [mbind res_bind].
    destruct (inv_sys v D a s2 a1 H Ha1 (moved_compat v a a1 M1 Es1)) as [H1 C1]. pose proof (pages_sys v a s2 a1 M C1 HM) as HM1.
    assert (Hlen : Zlength (slice ofs (transfer (Zlength xs) ofs 32) xs) = Z.min 32 (Zlength xs - ofs)).
    { unfold transfer. rewrite length_slice by lia. lia. }
    rewrite Hlen. destruct (decide (0 ≤ ofs ∧ ofs + 32 ≤ Zlength xs)) as [Hin|Hin].
    2: { rewrite (proj2 (Z.eqb_neq _ _)) by lia. cbn [negb]. exists false, (set_sys v s2), a1. split; [done|]. split; [done|]. split; [done|]. split; [done|].
         do 4 (split; [done|]). split; [intros t u _; apply C1|]. by left. }
    replace (Z.min 32 (Zlength xs - ofs)) with 32 by lia. rewrite Z.eqb_refl. cbn [negb]. replace (transfer (Zlength xs) ofs 32) with 32 by (unfold transfer; lia).
    set (ph := phdr_of (slice ofs 32 xs)). destruct (moved_handle a a1 file h M1 Hh) as (h1 & Hh1 & Ei1 & Ed1).
    assert (Hs0 : phdr_sane ph). { specialize (Hsane 0 ltac:(lia)). by rewrite Z.add_0_r in Hsane. }
    assert (Hxs1 : astore a1 !! hid h1 = Some xs) by (rewrite Ei1, Es1; done).
    destruct (load_phdr_spec D a1 file h1 xs Hh1 ltac:(congruence) Hxs1 (set_sys v s2) M ph) as (ok & v2 & E3 & H2 & Q2 & O2 & Hok); try done.
    { apply phdr_of_range. unfold slice. by apply Forall_take, Forall_drop. }
    { by apply (length_step s2 a1 file h1 xs). }
    rewrite E3. cbn [mbind res_bind]. destruct Q2 as [q1 q2 q3 q4 q5].
    assert (O : others v a v2 a1) by (intros t u Hne; rewrite O2 by done; apply C1).
    destruct ok.
    2: { exists false, v2, a1. split; [done|]. split; [done|]. split; [done|]. split; [done|]. do 4 (split; [done|]). split; [done|].
         destruct Hok as [Hn|Hn]; [left|by right]. destruct (phdr_pages xs ph) as [l|]; [|done]. cbn [mbind option_bind] in Hn |- *.
         destruct (elf_pages n xs (ofs + 32)) as [l'|]; [|done]. cbn [mbind option_bind]. by rewrite add_pages_app, Hn. }
    destruct Hok as (M2 & Ep & HM2). rewrite s32_small by lia.
    destruct (IH (ofs + 32) v2 a1 h1 M2 Hb) as (ok & v' & a' & E' & HI & MM & ES & e1 & e2 & e3 & e4 & OO & Hok); try done; [|congruence|by rewrite Es1|lia|].
    { intros i Hi. specialize (Hsane (i + 1) ltac:(lia)). by replace (ofs + 32 + i * 32) with (ofs + (i + 1) * 32) by lia. }
    exists ok, v', a'. split; [done|]. split; [done|]. split; [by apply (moved_trans a a1)|]. split; [congruence|]. split; [by rewrite e1, q1|]. split; [by rewrite e2, q2|].
    split; [by rewrite e3, q3|]. split; [by rewrite e4, q5|]. split; [intros t u Hne; rewrite OO by (by rewrite q1); by apply O|].
    destruct (phdr_pages xs ph) as [l|]; [|done]. cbn [mbind option_bind] in Ep |- *.
    assert (Eapp : (l0 ← (l' ← elf_pages n xs (ofs + 32); Some (l ++ l')); add_pages l0 M) = (l' ← elf_pages n xs (ofs + 32); add_pages l' M2)).
    { destruct (elf_pages n xs (ofs + 32)) as [l'|]; [|done]. cbn [mbind option_bind]. by rewrite add_pages_app, Ep. }
    rewrite Eapp. destruct ok; [done|]. destruct Hok as [Hn|[k Hk]]; [by left|right]. exists k. by rewrite <- Hk, q5.
Qed.

(** ** The stack *)

Lemma zeros_eq : zeros = replicate (Z.to_nat PGSIZE) 0.
Proof. with_strategy transparent [zeros] reflexivity. Qed.
Lemma carries_view v a v' a' t u : carries v a v' a' → view v' a' t u = view v a t u.
Proof.
  intros C. unfold view. rewrite (ca_contents _ _ _ _ C). pose proof (ca_fixed _ _ _ _ C t u) as E.
  by destruct (entry_at v' t u), (entry_at v t u).
Qed.
Lemma same_push v k u : set_vmem (set_swap (set_sys (push v k u) (sys v)) (swap_block v) (swap_table v)) (vmem v) = push v k u.
Proof. by destruct v as [[[] ? ? ? ?] ? ? ? ? ? ? ? ? ? ? ?]. Qed.
Lemma stack_page : user_page STACK.
Proof. split; [unfold STACK, PHYS_BASE, PGSIZE; lia|reflexivity]. Qed.

(** The page is zero in the frame. *)
Lemma filled_zero v D a e k :
  vm_inv v D a → ptype e = PAGE_ZERO → peek (vmem v) k PGSIZE = replicate (Z.to_nat PGSIZE) 0 →
  filled v a e k true (sys v) (swap_block v) (swap_table v) (vmem v) a.
Proof.
  intros H Ht Hz. apply (filled_other v D a); [apply H|congruence|apply H|apply moved_refl|done|done|]. unfold backing. by rewrite Ht, Hz.
Qed.

(** From the frame on. *)
Lemma install_stack v D a k e p ts :
  vm_inv v D a → procs v !! cur v = Some p → D !! pagedir p = Some ts → entry_at v (cur v) STACK = Some e → loaded e = false →
  ptype e = PAGE_ZERO → Vm.writable e = true → free_frame v D k → (0 < vcalls v)%nat → (∀ x, x ∈ frame_table v → x < 16 * Z.of_nat (vcalls v)) →
  peek (vmem v) k PGSIZE = replicate (Z.to_nat PGSIZE) 0 →
  ∃ ok v' D', ('(ok, v1) ← install_page (push v k STACK) STACK k true;
       if (ok : bool) then '(_, v2) ← spt_set_loaded v1 (cur v1) STACK k; Ok (true, v2)
       else v2 ← frame_free v1 k; Ok (false, v2)) = Ok (ok, v') ∧ vm_inv v' D' a ∧ carries v a v' a
    ∧ if (ok : bool) then entry_at v' (cur v) STACK = Some (with_frame e k) else D' = D ∧ ts !! pd_no STACK = None.
Proof.
  intros H Hp Hts He Hl Hty Hw Hk Hc Hfresh Hz. destruct stack_page as [Hu1 Hu2]. pose proof (filled_zero v D a e k H Hty Hz) as F.
  destruct (po_table v D (vi_procs v D a H) _ p Hp) as [[s Hs] _].
  assert (HP : flag (pte (mach v) ts STACK) PTE_P = false).
  { pose proof (lo_pte v D (vi_links v D a H) (cur v) STACK (mk_is_Some _ _ Hp) stack_page) as Hlp. rewrite He, Hl in Hlp.
    unfold pte_at, pte_of in Hlp. by rewrite Hp, Hts in Hlp. }
  unfold install_page. change (cur (push v k STACK)) with (cur v). change (mach (push v k STACK)) with (mach v).
  unfold get_proc at 1. change (procs (push v k STACK)) with (procs v). rewrite Hp. cbn [from_opt mbind res_bind].
  rewrite (pagedir_get_page_spec (mach v) D (pagedir p) ts (vi_dirs v D a H) Hts STACK Hu1), HP. cbn [mbind res_bind]. rewrite Z.eqb_refl.
  destruct (pagedir_set_page_spec (mach v) D (pagedir p) ts STACK k true (vi_dirs v D a H) (vi_tlb v D a H) Hts Hu1 Hu2 (proj1 (proj1 Hk)) HP) as
    [[Em Hno]|(m & ts' & Em & HD & HT & Hpk & Hpte & Hcr & Hgrow)]; rewrite Em; cbn [mbind res_bind].
  - destruct (abandon_frame v D a k STACK e true _ _ _ _ a H Hk Hc Hfresh F ltac:(congruence)) as (v' & Ev & HI & HC & _).
    rewrite same_push in Ev. replace (set_mach (push v k STACK) (mach v)) with (push v k STACK) by done. rewrite Ev. cbn [mbind res_bind].
    exists false, v', D. split; [reflexivity|]. split; [exact HI|]. split; [exact HC|]. split; [reflexivity|exact Hno].
  - rewrite <- Hw in Hpte.
    destruct (inv_install v D a H p STACK k e Hp He Hl Hk (sys v) (swap_block v) (swap_table v) (vmem v) a true F m ts ts' Hts HD HT) as [HI HC];
      [|exact Hpte|exact Hcr|exact Hgrow|reflexivity|exact Hc|exact Hfresh|].
    { destruct Hpk as [K1 K2 K3 K4]. by split. }
    assert (Eg : spt_get_entry (set_mach (push v k STACK) m) (cur v) STACK = Ok (Some e)).
    { unfold spt_get_entry, get_table, get_proc. change (procs (set_mach (push v k STACK) m)) with (procs v). rewrite Hp.
      cbn [from_opt mbind res_bind]. rewrite Hs. cbn [from_opt mbind res_bind]. rewrite user_page_round by (apply stack_page).
      unfold entry_at in He. rewrite Hp in He. cbn [mbind option_bind] in He. rewrite Hs in He. cbn [mbind option_bind] in He. by rewrite He. }
    unfold spt_set_loaded. change (cur (set_mach (push v k STACK) m)) with (cur v). rewrite Eg. cbn [mbind res_bind].
    exists true, (installed v STACK k e (sys v) (swap_block v) (swap_table v) (vmem v) m), (<[pagedir p := ts']> D). split.
    { unfold installed. by rewrite same_push. }
    split; [done|]. split; [done|]. rewrite (install_entry v D a H p STACK k e Hp He). by rewrite decide_True.
Qed.

Lemma setup_stack_spec v D a M :
  vm_inv v D a → pages_are v a M → room v →
  (setup_stack v = Panic ∧ ∃ v1, vm_inv v1 D a ∧ others v a v1 a ∧ exhausted v1) ∨
  ∃ ok v' D' a', setup_stack v = Ok (ok, v') ∧ vm_inv v' D' a' ∧ cur v' = cur v ∧ moved a a' ∧ others v a v' a'
    ∧ if (ok : bool) then M !! STACK = None ∧ pages_are v' a' (<[STACK := Some zeros]> M)
          ∧ ∃ e, entry_at v' (cur v) STACK = Some e ∧ loaded e = true ∧ Vm.writable e = true
      else is_Some (M !! STACK) ∨ short v ∨ ∃ p ts, procs v' !! cur v = Some p ∧ D' !! pagedir p = Some ts ∧ ts !! pd_no STACK = None.
Proof.
  intros H HM Hroom. unfold setup_stack. change (PHYS_BASE - PGSIZE) with STACK. set (e := SptEntry STACK 0 PAGE_ZERO true false 0 0 0 PGSIZE 0 (-1)).
  assert (Er : spt_set_zero v (cur v) STACK true = spt_add v (cur v) e) by (unfold spt_set_zero; by rewrite user_page_round by apply stack_page).
  rewrite Er. destruct (po_cur v D (vi_procs v D a H)) as (p & Hp & _).
  destruct (spt_add_spec v D a (cur v) p e H Hp stack_page eq_refl I) as (ok & v1 & E & _ & _ & _ & Hlike & _); [by intros t' u' e' _; split|].
  destruct (add_view D a v M e ok v1 (Some zeros) H HM stack_page eq_refl) as (H1 & Q1 & O1 & Hok); [done|by right|unfold backing; by rewrite zeros_eq|done|].
  rewrite E. cbn [mbind res_bind]. destruct ok; cbn [negb].
  2: { right. exists false, v1, D, a. split; [done|]. split; [done|]. split; [apply Q1|]. split; [apply moved_refl|]. split; [done|].
       destruct Hok as [_ [?|?]]; [by left|right; left; by eexists]. }
  destruct Hok as (HMn & HM1 & He1). change (upage e) with STACK in *. destruct Q1 as [q1 q2 q3 q4 q5].
  assert (Hroom1 : room v1) by (unfold room; by rewrite q2, q3).
  destruct (frame_alloc_spec v1 D a (Z.lor PAL_USER PAL_ZERO) STACK H1 Hroom1 (or_intror eq_refl)) as
    [[E2 Hx]|[(v2 & a2 & E2 & H2 & C2 & _ & Hs & _)|(k & v2 & a2 & E2 & Hk0 & H2 & C2 & Hun & Hk & Hc & Hfresh & _ & Hz)]]; rewrite E2; cbn [mbind res_bind].
  - left. split; [done|]. by exists v1.
  - rewrite Z.eqb_refl. right. exists false, v2, D, a2. split; [done|]. split; [done|]. split; [by rewrite (ca_cur _ _ _ _ C2)|]. split; [apply C2|].
    split; [intros t u Hne; rewrite (ca_contents _ _ _ _ C2); by apply O1|]. right. left. eexists. by rewrite <- q5.
  - rewrite (proj2 (Z.eqb_neq k 0)) by done. pose proof (ca_cur _ _ _ _ C2) as Ec.
    destruct (like_proc v v1 _ p Hlike Hp) as (p1 & Hp1 & Epd1).
    destruct (like_proc v1 v2 _ p1 (ca_like _ _ _ _ C2) Hp1) as (p2 & Hp2 & Epd2).
    assert (Ec2 : cur v2 = cur v) by congruence. rewrite <- Ec2 in Hp2.
    destruct (po_table v2 D (vi_procs v2 D a2 H2) _ p2 Hp2) as [_ [ts Hts]].
    destruct (install_stack v2 D a2 k e p2 ts H2 Hp2 Hts) as (ok & v' & D' & E3 & HI & HC & Hres);
      [|reflexivity|reflexivity|reflexivity|exact Hk|exact Hc|exact Hfresh|by apply Hz|].
    { rewrite Ec2. by apply Hun. }
    right. exists ok, v', D', a2. split; [exact E3|]. split; [done|]. split; [by rewrite (ca_cur _ _ _ _ HC)|]. split; [apply C2|].
    pose proof (carries_trans v1 a v2 a2 v' a2 C2 HC) as CC.
    split; [intros t u Hne; rewrite (ca_contents _ _ _ _ CC); by apply O1|]. destruct ok.
    + split; [done|]. split.
      * intros u. rewrite (ca_cur _ _ _ _ CC), (carries_view _ _ _ _ _ _ CC). apply HM1.
      * exists (with_frame e k). rewrite <- Ec2. split; [exact Hres|]. split; reflexivity.
    + right. right. destruct Hres as [-> Hres]. destruct (like_proc v2 v' _ p2 (ca_like _ _ _ _ HC) Hp2) as (p' & Hp' & Epd'). exists p', ts. rewrite <- Ec2, Epd'. split; [exact Hp'|]. split; [exact Hts|exact Hres].
Qed.

(** ** [load] *)

(** Other members of the processes do not matter. *)
Definition core (p : proc) : Z * option spt := (pagedir p, ptable p).
Lemma inv_procs v D a ps :
  vm_inv v D a → (∀ t, core <$> ps !! t = core <$> procs v !! t) →
  vm_inv (set_procs v ps) D a ∧ (∀ t u, entry_at (set_procs v ps) t u = entry_at v t u)
  ∧ ∀ t u, contents (set_procs v ps) a t u = contents v a t u.
Proof.
  intros H Hps. set (v' := set_procs v ps). assert (Hpr : ∀ t p', ps !! t = Some p' → ∃ p, procs v !! t = Some p ∧ pagedir p = pagedir p' ∧ ptable p = ptable p').
  { intros t p' Hp'. specialize (Hps t). rewrite Hp' in Hps. symmetry in Hps. apply fmap_Some in Hps as (p & Hp & [= E1 E2]). by exists p. }
  assert (He : ∀ t u, entry_at v' t u = entry_at v t u).
  { intros t u. unfold entry_at. change (procs v') with ps. specialize (Hps t). destruct (ps !! t) as [p'|], (procs v !! t) as [p|]; try done.
    injection Hps as E1 E2. cbn [mbind option_bind]. by rewrite E2. }
  assert (Hpt : ∀ t u, pte_at v' D t u = pte_at v D t u).
  { intros t u. unfold pte_at. change (procs v') with ps. specialize (Hps t). destruct (ps !! t) as [p'|], (procs v !! t) as [p|]; try done.
    injection Hps as E1 E2. by rewrite E1. }
  assert (Hc : ∀ t u, contents v' a t u = contents v a t u).
  { intros t u. unfold contents. rewrite He. destruct (entry_at v t u) as [e|]; [|done]. cbn [mbind option_bind].
    by rewrite (backing_swap v v' a e eq_refl), (frame_data_mem v v' e eq_refl). }
  split; [|split; [exact He|exact Hc]]. destruct H as [I1 I2 I3 I4 I5 I6 I7]. split; [exact I1|exact I2| |exact I4| | |].
  - destruct I3. by split.
  - destruct I5 as [P1 P2 (p & P3 & P4)]. split.
    + intros t p' Hp'. destruct (Hpr t p' Hp') as (q & Hq & <- & <-). by apply P1 in Hq.
    + intros t t' p1 p2 H1 H2 E. destruct (Hpr t p1 H1) as (q1 & Hq1 & E1 & _), (Hpr t' p2 H2) as (q2 & Hq2 & E2 & _). apply (P2 t t' q1 q2); congruence.
    + specialize (Hps (cur v)). rewrite P3 in Hps. apply fmap_Some in Hps as (q & Hq & [= E1 E2]). exists q. split; [exact Hq|]. by rewrite <- E1.
  - destruct I6 as [L1 L2 L3 L4 L5]. split.
    + intros x f Hf. rewrite He. by apply (L1 x f).
    + intros t u e. rewrite He. apply L2.
    + exact L3.
    + intros t u e. rewrite He. apply L4.
    + intros t u [p' Hp'] Hu. destruct (Hpr t p' Hp') as (q & Hq & _). rewrite He, Hpt. apply L5; [by exists q|done].
  - destruct I7 as [A1 A2 A3 A4 A5]. split; [exact A1|exact A2| | |].
    + intros t p' u e Hp' Hen. rewrite He in Hen. destruct (Hpr t p' Hp') as (q & Hq & <- & _). exact (A3 t q u e Hq Hen).
    + intros t u e Hen Hl. rewrite He in Hen. destruct (A4 t u e Hen Hl) as [C1 C2]. rewrite Hpt, (backing_swap v v' a e eq_refl), (frame_data_mem v v' e eq_refl). done.
    + intros t u e t' u' e'. rewrite !He. apply A5.
Qed.

(** The pages of the executable as its headers describe them. *)
Definition elf_header (xs : list Z) : Elf32_Ehdr := ehdr_of (slice 0 EHDR_SIZE xs).
Definition elf_image (xs : list Z) : option pages :=
  l ← elf_pages (Z.to_nat (e_phnum (elf_header xs))) xs (s32 (e_phoff (elf_header xs)));
  add_pages l ∅.
Definition elf_sane (xs : list Z) : Prop :=
  ∀ i, 0 ≤ i < e_phnum (elf_header xs) → phdr_sane (phdr_of (slice (s32 (e_phoff (elf_header xs)) + i * PHDR_SIZE) PHDR_SIZE xs)).

(** Opening the executable and reading its header. *)
Lemma open_spec v D a name id xs :
  data_ok v D a → anames a !! name = Some id → astore a !! id = Some xs → bad_ehdr (slice 0 EHDR_SIZE xs) = false →
  (∀ t u e h, entry_at v t u = Some e → ptype e = PAGE_MMAP → ahandles a !! efile e = Some h → hid h ≠ id) →
  ∃ f s1 s2 s3 a' h, filesys_open (sys v) name = Ok (f, s1) ∧ f ≠ 0 ∧ file_deny_write s1 f = Ok s2
    ∧ file_read s2 f EHDR_SIZE = Ok (slice 0 EHDR_SIZE xs, s3) ∧ abstracts s3 a' ∧ fs_compat v a a'
    ∧ ahandles a' !! f = Some h ∧ hid h = id ∧ hdeny h = true ∧ astore a' = astore a.
Proof.
  intros Hd Hn Hxs Hbad Hmm. destruct (da_sys v D a Hd) as (T & R & Hy & Est & Eh).
  destruct (refines_open (sys v) a T R Hy Est Eh name) as (r & s1 & a1 & E1 & S1 & (T1 & R1 & Hy1 & Est1 & Eh1)).
  simpl in E1. apply bind_Ok in E1 as ([f s1'] & E1 & [= <- <-]). inversion S1; subst; [|congruence].
  match goal with HN : anames a !! name = Some ?i, H0 : f ≠ 0, Hf : ahandles a !! f = None |- _ =>
    assert (i = id) as -> by congruence; rename H0 into Hf0; rename Hf into Hfn end. set (a1 := set_handle a f (Handle id 0 false)) in *.
  assert (Hh1 : ahandles a1 !! f = Some (Handle id 0 false)) by apply lookup_insert_eq.
  destruct (refines_deny s1' a1 T1 R1 Hy1 Est1 Eh1 f) as (r & s2 & a2 & E2 & S2 & (T2 & R2 & Hy2 & Est2 & Eh2)); [by eexists|].
  simpl in E2. apply bind_Ok in E2 as (s2' & E2 & [= <- <-]).
  assert (Ea2 : a2 = set_handle a1 f (Handle id 0 true)) by (inversion S2; subst; assert (h = Handle id 0 false) as -> by congruence; done).
  assert (Hh2 : ahandles a2 !! f = Some (Handle id 0 true)) by (rewrite Ea2; apply lookup_insert_eq).
  assert (Hst2 : astore a2 = astore a) by (by rewrite Ea2).
  destruct (refines_read s2' a2 T2 R2 Hy2 Est2 Eh2 f EHDR_SIZE) as (r & s3 & a3 & E3 & S3 & Ha3); [by split; [eexists|]|].
  simpl in E3. apply bind_Ok in E3 as ([buf s3'] & E3 & [= <- <-]).
  inversion S3; subst. match goal with Hh : ahandles _ !! f = Some ?h3, Hx : astore _ !! hid ?h3 = Some ?x |- _ =>
    assert (h3 = Handle id 0 true) as -> by congruence; rename Hx into Hx3; rename x into xs3 end.
  assert (xs3 = xs) as -> by (change (astore a !! id = Some xs3) in Hx3; congruence).
  assert (Hlen : Zlength (slice 0 EHDR_SIZE xs) = EHDR_SIZE).
  { unfold bad_ehdr in Hbad. repeat (apply orb_false_iff in Hbad as [Hbad _]). by apply negb_false_iff, Z.eqb_eq in Hbad. }
  assert (Hlx : EHDR_SIZE ≤ Zlength xs) by (unfold slice in Hlen; rewrite length_take, length_drop in Hlen; unfold EHDR_SIZE in *; lia).
  cbn [hid hpos hdeny] in *. assert (Et : transfer (Zlength xs) 0 EHDR_SIZE = EHDR_SIZE) by (unfold transfer, EHDR_SIZE in *; lia). rewrite Et in *.
  set (a2 := set_handle a1 f (Handle id 0 true)) in *.
  exists f, s1', s2', s3', (set_handle a2 f (Handle id (0 + EHDR_SIZE) true)), (Handle id (0 + EHDR_SIZE) true).
  do 5 (split; [done|]). split; [|split; [apply lookup_insert_eq|done]].
  assert (Hother : ∀ g, g ≠ f → ahandles (set_handle a2 f (Handle id (0 + EHDR_SIZE) true)) !! g = ahandles a !! g).
  { intros g Hg. simpl. by rewrite !lookup_insert_ne. }
  split.
  - intros t u e h He Hty Hh. exists h. rewrite Hother by congruence. done.
  - intros t u e h He Hty Hh (g & hg & Hg & Hi & Hdn). destruct (decide (g = f)) as [->|Hgf].
    + simpl in Hg. rewrite lookup_insert_eq in Hg. injection Hg as <-. by destruct (Hmm t u e h He Hty Hh).
    + rewrite Hother in Hg by done. by exists g, hg.
Qed.

(** A page of the kernel pool does not change the user pool. *)
Lemma user_room p p' : user_pool p' = user_pool p →
  (∃ k s, palloc_get_page p PAL_USER = Ok (k, s) ∧ k ≠ 0) → ∃ k s, palloc_get_page p' PAL_USER = Ok (k, s) ∧ k ≠ 0.
Proof.
  intros E (k & s & Ek & Hk). unfold palloc_get_page, palloc_get_multiple in *. change (1 =? 0) with false in *. cbv iota in *.
  change (flag PAL_USER PAL_USER) with true in *. change (flag PAL_USER PAL_ZERO) with false in *. cbn [get_pool] in *. rewrite E.
  destruct (bitmap_scan_and_flip _ _ _ _) as [[idx b]| |]; [|done..]. cbn [mbind res_bind] in Ek |- *.
  set (pg := if negb (idx =? BITMAP_ERROR) then _ else _) in *. destruct (Z.eqb_spec pg 0); cbn [negb] in *.
  - change (flag PAL_USER PAL_ASSERT) with false in Ek. congruence.
  - by eexists pg, _.
Qed.
Lemma create_user_pool m pd m' : pagedir_create m = Ok (pd, m') → user_pool (pal m') = user_pool (pal m).
Proof.
  unfold pagedir_create, palloc_get_page, palloc_get_multiple. change (1 =? 0) with false. change (flag 0 PAL_USER) with false.
  change (flag 0 PAL_ZERO) with false. change (flag 0 PAL_ASSERT) with false. cbv iota. intros E.
  destruct (bitmap_scan_and_flip _ _ _ _) as [[idx b]| |]; [|done..]. cbn [mbind res_bind] in E.
  set (pg := if negb (idx =? BITMAP_ERROR) then _ else _) in *. destruct (Z.eqb_spec pg 0) as [E0|E0]; cbn [negb mbind res_bind] in E.
  - rewrite E0 in E. cbn [Z.eqb negb] in E. by injection E as _ <-.
  - rewrite (proj2 (Z.eqb_neq pg 0)) in E by done. cbn [negb] in E. by injection E as _ <-.
Qed.

Lemma start_room v pd m : room v → pagedir_create (mach v) = Ok (pd, m) → room (started v pd m).
Proof.
  intros [Hl|Hk] E; [by left|right]. change (pal (mach (started v pd m))) with (pal m).
  apply (user_room (pal (mach v))); [by apply (create_user_pool _ pd)|done].
Qed.

(** From [process_activate] to [spt_init]. *)
Lemma activate_started v D a pd m : fresh v D a → kpage_ok pd →
  process_activate (put_pagedir (set_mach v m) (cur v) pd) =
  Ok (set_mach (put_pagedir (set_mach v m) (cur v) pd) (Mmu (pal m) (init_page_dir m) (init_ram_pages m) (pd - PHYS_BASE) ∅)).
Proof.
  intros H Hpd. destruct (fr_cur v D a H) as (p & Hp & _). unfold process_activate, get_proc.
  change (procs (put_pagedir (set_mach v m) (cur v) pd) !! cur (put_pagedir (set_mach v m) (cur v) pd)) with
    (alter (λ p, Proc pd (ptable p) (mmap_list p) (esp_on_syscall p) (file_descriptors p) (executable p)) (cur v) (procs v) !! cur v).
  rewrite lookup_alter_eq, Hp. cbn [fmap option_fmap option_map from_opt mbind res_bind pagedir]. unfold pagedir_activate.
  rewrite (proj2 (Z.eqb_neq pd 0)) by (destruct Hpd as (_ & ? & _); unfold PHYS_BASE in *; lia).
  destruct (kpage_vtop pd Hpd) as [-> _]. done.
Qed.

Lemma close_file v D a f h : vm_inv v D a → ahandles a !! f = Some h → ∃ s, file_close (sys v) f = Ok s.
Proof.
  intros H Hh. destruct (da_sys v D a (vi_data v D a H)) as (T & R & Hy & Est & Eh).
  destruct (refines_close (sys v) a T R Hy Est Eh f) as (r & s' & a' & E & _); [by eexists|]. simpl in E. apply bind_Ok in E as (s1 & E & _). by exists s1.
Qed.

(** What a process that is ready to run looks like. *)
Definition loaded_as (v : vm) (a : afs) (v' : vm) (xs : list Z) : Prop :=
  cur v' = cur v ∧ ∃ D' a' M e, vm_inv v' D' a' ∧ elf_image xs = Some M ∧ M !! STACK = None
    ∧ pages_are v' a' (<[STACK := Some zeros]> M) ∧ others v a v' a'
    ∧ entry_at v' (cur v) STACK = Some e ∧ loaded e = true ∧ Vm.writable e = true.
(** Why an executable with a good header is not loaded; [file_lock] is released only when
    the headers were all accepted. *)
Definition not_loaded (v v' : vm) (r : load_result) (xs : list Z) : Prop :=
  if file_lock_held r then elf_image xs = None ∨ short v
  else (∃ m, pagedir_create (mach v) = Ok (0, m)) ∨ (∃ M, elf_image xs = Some M ∧ is_Some (M !! STACK)) ∨ short v
    ∨ ∃ v1 D1 a1 s p ts, v' = set_sys v1 s ∧ vm_inv v1 D1 a1 ∧ procs v1 !! cur v = Some p
        ∧ D1 !! pagedir p = Some ts ∧ ts !! pd_no STACK = None.

Lemma load_spec v D a name id xs :
  fresh v D a → room v → anames a !! name = Some id → astore a !! id = Some xs → Forall byte xs →
  bad_ehdr (slice 0 EHDR_SIZE xs) = false → elf_sane xs →
  (∀ t u e h, entry_at v t u = Some e → ptype e = PAGE_MMAP → ahandles a !! efile e = Some h → hid h ≠ id) →
  (load v name true = Panic ∧ ∃ v1 D1 a1, vm_inv v1 D1 a1 ∧ others v a v1 a1 ∧ exhausted v1) ∨
  ∃ r v', load v name true = Ok (r, v') ∧
    if success r then eip r = e_entry (elf_header xs) ∧ file_lock_held r = false ∧ loaded_as v a v' xs else not_loaded v v' r xs.
Proof.
  intros H Hroom Hn Hxs Hb Hbad Hsane Hmm. unfold load.
  destruct (pagedir_create_spec (mach v) D (fr_dirs v D a H) (fr_tlb v D a H)) as [E|(pd & m & E & Hpd & Hnew & HD & HT & Hk & Hs & _)]; rewrite E; cbn [mbind res_bind].
  { right. rewrite Z.eqb_refl. unfold load_done. cbn [file_close Z.eqb mbind res_bind]. eexists _, _. split; [reflexivity|]. cbn [success]. left. by eexists. }
  rewrite (proj2 (Z.eqb_neq pd 0)) by (destruct Hpd as (_ & ? & _); unfold PHYS_BASE in *; lia).
  rewrite (activate_started v D a) by done. cbn [mbind res_bind]. fold (started v pd m). set (v1 := started v pd m).
  destruct (start_inv v D a H pd m Hpd Hnew HD Hk Hs) as (H1 & C1 & Hno). fold v1 in H1, C1, Hno. set (D1 := <[pd := ∅]> D) in *.
  assert (Hmm1 : ∀ t u e h, entry_at v1 t u = Some e → ptype e = PAGE_MMAP → ahandles a !! efile e = Some h → hid h ≠ id).
  { intros t u e h He. apply Hmm with (t := t) (u := u). rewrite <- He. symmetry. by apply (start_entry v D a). }
  destruct (open_spec v1 D1 a name id xs (vi_data v1 D1 a H1) Hn Hxs Hbad Hmm1) as (f & s1 & s2 & s3 & a3 & h & E1 & Hf0 & E2 & E3 & Ha3 & Hcp & Hh & Hid & Hdn & Est).
  rewrite E1. cbn [mbind res_bind]. rewrite (proj2 (Z.eqb_neq f 0)) by done. change (sys (set_sys v1 s1)) with s1. rewrite E2. cbn [mbind res_bind].
  rewrite E3. cbn [mbind res_bind]. rewrite Hbad. fold (elf_header xs). change (set_sys (set_sys v1 s1) s3) with (set_sys v1 s3).
  destruct (inv_sys v1 D1 a s3 a3 H1 Ha3 Hcp) as [H3 C3]. set (v3 := set_sys v1 s3) in *.
  assert (HM0 : pages_are v3 a3 ∅). { intros u. unfold view. change (entry_at v3 (cur v3) u) with (entry_at v1 (cur v) u). by rewrite Hno, lookup_empty. }
  set (n := e_phnum (elf_header xs)) in *. set (po := s32 (e_phoff (elf_header xs))) in *.
  destruct (phdr_loop_spec f id xs D1 (Z.to_nat n) po v3 a3 h ∅) as (ok & v4 & a4 & E4 & H4 & M4 & Es4 & e1 & e2 & e3 & e4 & O4 & Hok); try done.
  { intros i Hi. apply Hsane. fold n. lia. } { by rewrite Est. } { apply s32_range. }
  rewrite E4. cbn [mbind res_bind]. destruct (moved_handle a3 a4 f h M4 Hh) as (h4 & Hh4 & _).
  assert (O : others v a v4 a4) by (intros t u Hne; rewrite O4 by done; rewrite C3; apply C1).
  destruct ok; cbn [negb].
  2: { right. destruct (close_file v4 D1 a4 f h4 H4 Hh4) as (s & Es). unfold load_done. rewrite Es. cbn [mbind res_bind].
       eexists _, _. split; [reflexivity|]. cbn [success]. exact Hok. }
  destruct Hok as (M & HMe & HM4). assert (Hroom4 : room v4).
  { unfold room. rewrite e2, e3. apply (start_room v pd m Hroom E). }
  destruct (setup_stack_spec v4 D1 a4 M H4 HM4 Hroom4) as [[E5 (v5 & H5 & O5 & Hx)]|(ok & v5 & D5 & a5 & E5 & H5 & Ec5 & M5 & O5 & Hok)]; rewrite E5; cbn [mbind res_bind].
  { left. split; [done|]. exists v5, D1, a4. split; [done|]. split; [|done]. intros t u Hne. rewrite O5 by (by rewrite e1). by apply O. }
  right. unfold load_done. destruct ok.
  - eexists _, _. split; [reflexivity|]. cbn [success eip file_lock_held]. split; [done|]. split; [done|]. destruct Hok as (HMn & HM5 & e & He & Hl & Hw).
    set (ps := alter (λ p, Proc (pagedir p) (ptable p) (mmap_list p) (esp_on_syscall p) (file_descriptors p) f) (cur v5) (procs v5)).
    destruct (inv_procs v5 D5 a5 ps H5) as (H6 & He6 & C6).
    { intros t. unfold ps. destruct (decide (t = cur v5)) as [->|Hne]; [|by rewrite lookup_alter_ne]. rewrite lookup_alter_eq. by destruct (procs v5 !! cur v5). }
    change (put_executable v5 (cur v5) f) with (set_procs v5 ps). rewrite e1 in *. split; [exact Ec5|]. exists D5, a5, M, e. split; [exact H6|]. split; [exact HMe|].
    split; [exact HMn|]. split.
    { intros u. rewrite <- HM5. unfold view. change (cur (set_procs v5 ps)) with (cur v5). by rewrite He6, C6. }
    split; [intros t u Hne; rewrite C6, O5 by (by rewrite e1); by apply O|]. rewrite He6. done.
  - destruct (moved_handle a4 a5 f h4 M5 Hh4) as (h5 & Hh5 & _). destruct (close_file v5 D5 a5 f h5 H5 Hh5) as (s & Es). rewrite Es. cbn [mbind res_bind].
    eexists _, _. split; [reflexivity|]. cbn [success]. unfold not_loaded. cbn [file_lock_held]. right. rewrite e1 in Hok.
    destruct Hok as [Hc|[[k Hk']|(p & ts & Hp & Hts & Hno')]]; [left; by exists M|right; left; exists k; by rewrite <- Hk', e4|right; right]. by exists v5, D5, a5, s, p, ts.
Qed.

End ProcLoad.
