(* ===== verification/ProcStart.v ===== *)
(** * From the command line to the first instruction

    [start_process] as a whole: it loads the program that the first word of the command
    line names and passes it all the words. *)

From S2P Require Import Prelude Bitmap Strings Vaddr Palloc Disk Inode Directory FsInv FileInv DirInv Filesys FsSpec FsBoot Pagedir Vm VmInv VmData VmLoad VmUser Process ProcArgs ProcLoad.

Module ProcStart.
Import Bitmap Strings Palloc Disk Inode Directory FsSpec Pagedir Vm VmInv VmData VmLoad VmUser Process ProcArgs ProcLoad.

Lemma string_at_spec s : ∀ fuel m a, bytes_at m a (s ++ [0]) → Forall (λ c, 0 < c < 2 ^ 8) s → (length s < fuel)%nat → string_at fuel m a = Ok s.
Proof.
  induction s as [|c s IH]; intros [|fuel] m a Hb Hs Hf; simpl in *; try lia; destruct Hb as [Hc Hb]; unfold ld; rewrite Hc; cbn [from_opt mbind res_bind].
  - done.
  - apply Forall_cons in Hs as [Hc0 Hs]. rewrite (proj2 (Z.eqb_neq c 0)) by lia. rewrite (IH fuel) by (done || lia). done.
Qed.

(** The program that starts: its entry point, its pages and its arguments; [STACK] holds the
    arguments. *)
Definition runs_as (v : vm) (a : afs) (v' : vm) (esp : Z) (xs : list Z) (args : list (list Z)) : Prop :=
  ∃ D' a' M, vm_inv v' D' a' ∧ cur v' = cur v ∧ elf_image xs = Some M ∧ M !! STACK = None
    ∧ (∀ u, u ≠ STACK → view v' a' (cur v) u = M !! u) ∧ main_args v' a' esp args ∧ others v a v' a'.


(** ** An executable *)

(** One segment of two pages, the second one of zeros; the program is an endless loop. *)
Definition demo_elf : list Z :=
  [127; 69; 76; 70; 1; 1; 1; 0; 0; 0; 0; 0; 0; 0; 0; 0; 2; 0; 3; 0; 1; 0; 0; 0; 84; 128; 4; 8; 52; 0;
   0; 0; 0; 0; 0; 0; 0; 0; 0; 0; 52; 0; 32; 0; 1; 0; 0; 0; 0; 0; 0; 0; 1; 0; 0; 0; 0; 0; 0; 0; 0; 128;
   4; 8; 0; 128; 4; 8; 86; 0; 0; 0; 136; 19; 0; 0; 5; 0; 0; 0; 0; 16; 0; 0; 235; 254].
Definition demo_name : list Z := [112; 114; 103].
Definition elf_steps (s : fs) : res (Z * fs) :=
  '(_, s) ← exec s (Create demo_name 86 (replicate 20 1));
  '(f, s) ← filesys_open s demo_name;
  '(_, s) ← exec s (Write f demo_elf 86);
  '(_, s) ← exec s (Close f);
  Ok (f, s).
Definition elf_fs : fs := match elf_steps FsBoot.demo_fs with Ok (_, s) => s | _ => FsBoot.demo_fs end.

Lemma step_create full a name sz junk a' :
  astep full a (Create name sz junk) (Num 1) a' →
  ∃ id, a' = AFS (<[name := id]> (anames a)) (<[id := replicate (Z.to_nat sz) 0]> (astore a)) (ahandles a).
Proof. inversion 1; subst. by eexists. Qed.
Lemma step_open full a name id f a' :
  anames a !! name = Some id → astep full a (Open name) (Num f) a' → ahandles a !! f = None ∧ a' = set_handle a f (Handle id 0 false).
Proof.
  intros Hn. inversion 1; subst; [|congruence].
  match goal with HN : anames a !! name = Some ?i |- _ => assert (i = id) as -> by congruence end. done.
Qed.
Lemma step_write full a f h buf n xs r a' :
  ahandles a !! f = Some h → astore a !! hid h = Some xs → ¬ denied_id a (hid h) → astep full a (Write f buf n) r a' →
  a' = AFS (anames a) (<[hid h := splice (hpos h) (take (Z.to_nat (transfer (Zlength xs) (hpos h) n)) buf) xs]> (astore a))
         (<[f := Handle (hid h) (hpos h + transfer (Zlength xs) (hpos h) n) (hdeny h)]> (ahandles a)).
Proof.
  intros Hh Hx Hd. inversion 1 as [| | | | | | | | |? h' ? ? xs' m Hh' Hx' Hm1 Hm2| | | | |]; subst.
  assert (h' = h) as -> by congruence. assert (xs' = xs) as -> by congruence. by rewrite (Hm2 Hd).
Qed.
Lemma step_close full a f h r a' :
  ahandles a !! f = Some h → named a (hid h) → astep full a (Close f) r a' → a' = AFS (anames a) (astore a) (delete f (ahandles a)).
Proof.
  intros Hh Hn. inversion 1 as [| | | | | |? h' st a2 Hh' Hs1 Hs2| | | | | | | |]; subst. assert (h' = h) as -> by congruence.
  rewrite Hs1 by (by right). done.
Qed.

Lemma elf_fs_abs :
  ∃ a id, abstracts elf_fs a ∧ anames a !! demo_name = Some id ∧ astore a !! id = Some demo_elf ∧ ahandles a = ∅.
Proof.
  destruct FsBoot.demo_fs_empty as (T0 & R0 & Hy0 & Est0 & Eh0). set (a0 := AFS ∅ ∅ ∅) in *.
  destruct (refines_create FsBoot.demo_fs a0 T0 R0 Hy0 Est0 Eh0 demo_name 86 (replicate 20 1)) as (r1 & s1 & a1 & E1 & S1 & (T1 & R1 & Hy1 & Est1 & Eh1)).
  { split; [lia|]. split; [|done]. repeat constructor; done. }
  assert (Er1 : match exec FsBoot.demo_fs (Create demo_name 86 (replicate 20 1)) with Ok (Num 1, _) => true | _ => false end = true) by (vm_compute; reflexivity).
  rewrite E1 in Er1. assert (r1 = Num 1) as -> by (destruct r1 as [[|[?|?|]|?]|?]; done). destruct (step_create _ _ _ _ _ _ S1) as (id & Ea1).
  destruct (refines_open s1 a1 T1 R1 Hy1 Est1 Eh1 demo_name) as (r2 & s2 & a2 & E2 & S2 & (T2 & R2 & Hy2 & Est2 & Eh2)).
  simpl in E2. apply bind_Ok in E2 as ([f s2'] & E2 & [= <- <-]).
  assert (Hn1 : anames a1 !! demo_name = Some id) by (rewrite Ea1; apply lookup_insert_eq). destruct (step_open _ _ _ id _ _ Hn1 S2) as [_ Ea2].
  assert (Eh1' : ahandles a1 = ∅) by (by rewrite Ea1).
  assert (Hh2 : ahandles a2 !! f = Some (Handle id 0 false)) by (rewrite Ea2; apply lookup_insert_eq).
  assert (Hx2 : astore a2 !! id = Some (replicate (Z.to_nat 86) 0)) by (rewrite Ea2, Ea1; apply lookup_insert_eq).
  destruct (refines_write s2' a2 T2 R2 Hy2 Est2 Eh2 f demo_elf 86) as (r3 & s3 & a3 & E3 & S3 & (T3 & R3 & Hy3 & Est3 & Eh3)).
  { split; [by eexists|]. split; [lia|]. vm_compute. congruence. }
  assert (Hnd : ¬ denied_id a2 id).
  { intros (g & h & Hg & _ & Hd). rewrite Ea2 in Hg. cbn [ahandles set_handle] in Hg. rewrite Eh1', lookup_insert_Some, lookup_empty in Hg.
    by destruct Hg as [[_ <-]|[_ ?]]. }
  pose proof (step_write _ a2 f _ demo_elf 86 _ r3 a3 Hh2 Hx2 Hnd S3) as Ea3. cbn [hid hpos hdeny] in Ea3.
  destruct (refines_close s3 a3 T3 R3 Hy3 Est3 Eh3 f) as (r4 & s4 & a4 & E4 & S4 & Ha4); [rewrite Ea3; eexists; apply lookup_insert_eq|].
  assert (Hh3 : ahandles a3 !! f = Some (Handle id (0 + transfer (Zlength (replicate (Z.to_nat 86) 0)) 0 86) false)) by (rewrite Ea3; apply lookup_insert_eq).
  assert (Hnm : named a3 id) by (exists demo_name; by rewrite Ea3, Ea2).
  pose proof (step_close _ a3 f _ r4 a4 Hh3 Hnm S4) as Ea4.
  assert (Es : elf_fs = s4).
  { unfold elf_fs, elf_steps. rewrite E1. cbn [mbind res_bind]. rewrite E2. cbn [mbind res_bind]. rewrite E3. cbn [mbind res_bind]. by rewrite E4. }
  rewrite Es. exists a4, id. split; [done|]. rewrite Ea4, Ea3. cbn [anames astore ahandles]. split; [by rewrite Ea2|]. split; [by rewrite lookup_insert_eq|].
  rewrite Ea2. cbn [ahandles set_handle]. rewrite Eh1', insert_insert_eq. apply map_eq. intros g. rewrite lookup_empty.
  destruct (decide (g = f)) as [->|]; [apply lookup_delete_eq|]. by rewrite lookup_delete_ne, lookup_insert_ne.
Qed.

(** ** Running it *)

(** The thread of a new process, with the directory of the kernel. *)
Definition kernel_mmu : mmu := Mmu (pal demo_mmu) (init_page_dir demo_mmu) (init_ram_pages demo_mmu) 0x100000 ∅.
Definition demo_new : vm :=
  VM kernel_mmu elf_fs (Some demo_swap) (Some (Bm 2 [0])) ∅ [] 0 {[1 := Proc 0 (Some ∅) [] 0 [] 0]} 1 1 (λ _, true) 0.

Lemma demo_new_entry t u : entry_at demo_new t u = None.
Proof.
  unfold entry_at. change (procs demo_new) with ({[1 := Proc 0 (Some ∅) [] 0 [] 0]} : gmap Z proc).
  destruct (decide (t = 1)) as [->|Hne]; [by rewrite lookup_singleton_eq|by rewrite lookup_singleton_ne].
Qed.
Lemma demo_new_fresh a : abstracts elf_fs a → fresh demo_new ∅ a.
Proof.
  intros Ha. pose proof demo_new_entry as He. destruct (demo_dirs) as [[Hm _ _ _] _].
  assert (Hp : ∀ t p, procs demo_new !! t = Some p → t = 1).
  { intros t p. change (procs demo_new) with ({[1 := Proc 0 (Some ∅) [] 0 [] 0]} : gmap Z proc). by intros [<- _]%lookup_singleton_Some. }
  split.
  - split; [destruct Hm as [M1 M2 M3 M4]; by split|done|done|]. by intros (pd & ts & Hts & _).
  - split; [|done]. split; [reflexivity|]. split; vm_compute; congruence.
  - split; [apply NoDup_nil_2| | |].
    + intros x. change (frames demo_new) with (∅ : gmap Z frame_entry). rewrite lookup_empty. split; [by intros ?%not_elem_of_nil|by intros [? ?]].
    + by intros x ?%not_elem_of_nil.
    + intros x y f f' Hf. by change (@None frame_entry = Some f) in Hf.
  - by left.
  - split.
    + intros x f Hf. by change (@None frame_entry = Some f) in Hf.
    + intros t u e. by rewrite He.
    + intros x f Hf. by change (@None frame_entry = Some f) in Hf.
    + intros t u e. by rewrite He.
    + intros t u _ _. rewrite He. unfold pte_at. destruct (procs demo_new !! t) as [p|]; [|done]. unfold pte_of. by rewrite lookup_empty.
  - split.
    + exact Ha.
    + exact (da_swap _ _ _ (vi_data _ _ _ demo_start_inv)).
    + intros t p u e _. by rewrite He.
    + intros t u e. by rewrite He.
    + intros t u e t' u' e'. by rewrite He.
  - intros t p Hne Ht. by apply Hp in Ht.
  - intros t t' p p' Hne _ Ht. by apply Hp in Ht.
  - eexists. split; [apply lookup_singleton_eq|done].
Qed.

(** The command line "prg -x" at address 1, the delimiter at 20. *)
Definition demo_line : list Z := [112; 114; 103; 32; 45; 120].
Definition demo_mem : gmap Z Z := list_to_map (zip (seqZ 1 7) (demo_line ++ [0]) ++ [(20, 32); (21, 0)]).


End ProcStart.
