(* ===== verification/Wait.v ===== *)
(** * Parents and children, [userprog/process.c] and [sys_exit]

    [process_execute], [start_process], [process_wait], [sys_exit] and [process_exit] share a
    [struct child_process] for each child.  Interrupts are on while they run, so any thread
    can run between two of their statements: the model has one step for each statement that
    reads or writes a record.  What else a process does between its calls is not restricted;
    the outcome of [load] and of the allocations is part of the event.  Access to a record
    after [free] is a fault. *)

From S2P Require Import Prelude.

Module Wait.

(** ** The state *)

(** [struct child_process] without [waited], which the code does not use; the semaphores are
    their values. *)
Record child_process := Child {
  pid : Z;
  exit_status : Z;
  exited : bool;
  wait_sema : Z;
  load_sema : Z;
  load_status : bool;
  parent_thread : Z
}.

(** Where a thread is: in [process_execute], [start_process], [process_wait], [sys_exit] or
    [process_exit], or elsewhere. *)
Inductive pc :=
  | Run
  | ExecPid (child tid : Z)
  | ExecDown (child : Z)
  | ExecCheck (child : Z)
  | StartLoad (child : Z)
  | StartStatus (child : Z) (success : bool)
  | StartUp (child : Z) (success : bool)
  | WaitDown (child : Z)
  | WaitRead (child : Z)
  | WaitFree (child status : Z)
  | ExitStatus (status : Z)
  | ExitExited
  | ExitUp
  | ExitParent
  | ExitFree
  | ProcExit
  | ProcParent (child : Z)
  | ProcCheck (child : Z)
  | Dead.

Record thread := Thread { children : list Z; my_record : Z; where_ : pc }.

(** [recs] holds the records that are allocated.  The last three members are not part of
    the program: the child and the parent that a record was made for, the statuses that
    processes passed to [exit], and what [process_wait] returned for children. *)
Record state := State {
  recs : gmap Z child_process;
  next_rec : Z;
  threads : gmap Z thread;
  next_tid : Z;
  born : gmap Z (Z * Z);
  ended : gmap Z Z;
  answers : list (Z * Z * Z)
}.

(** The first thread of the kernel. *)
Definition boot : state := State ∅ 16 {[ 1 := Thread [] 0 Run ]} 2 ∅ ∅ [].

Definition put_rec (s : state) (r : Z) (c : child_process) : state :=
  State (<[r := c]> (recs s)) (next_rec s) (threads s) (next_tid s) (born s) (ended s) (answers s).
Definition put_thread (s : state) (t : Z) (th : thread) : state :=
  State (recs s) (next_rec s) (<[t := th]> (threads s)) (next_tid s) (born s) (ended s) (answers s).
Definition get_rec (s : state) (r : Z) : res child_process := from_opt (recs s !! r).
Definition free (s : state) (r : Z) : res state :=
  _ ← get_rec s r;
  Ok (State (delete r (recs s)) (next_rec s) (threads s) (next_tid s) (born s) (ended s) (answers s)).
Definition goto (s : state) (t : Z) (th : thread) (l : pc) : state :=
  put_thread s t (Thread (children th) (my_record th) l).

(** ** The calls *)

Inductive call :=
  | CExec (memory : bool)
  | CWait (child_tid : Z)
  | CExit (status : Z).

(** [process_execute] up to [thread_create]: [memory] tells whether the allocations, that of
    the thread included, succeed. *)
Definition process_execute (s : state) (t : Z) (th : thread) (memory : bool) : state :=
  if memory then
    let r := next_rec s in
    let tid := next_tid s in
    let child := Child (-1) (-1) false 0 0 false t in
    State (<[r := child]> (recs s)) (r + 16)
      (<[tid := Thread [] 0 (StartLoad r)]> (<[t := Thread (children th) (my_record th) (ExecPid r tid)]> (threads s)))
      (tid + 1) (<[r := (tid, t)]> (born s)) (ended s) (answers s)
  else s.

(** The loop of [process_wait]: the child and the other children. *)
Fixpoint get_child (s : state) (l : list Z) (child_tid : Z) : res (option Z) :=
  match l with
  | [] => Ok None
  | r :: l => c ← get_rec s r; if pid c =? child_tid then Ok (Some r) else get_child s l child_tid
  end.
(** [list_remove]. *)
Fixpoint without (r : Z) (l : list Z) : list Z :=
  match l with
  | [] => []
  | x :: l => if x =? r then l else x :: without r l
  end.
(** Up to [sema_down]; -1 is returned at once when there is no such child. *)
Definition process_wait (s : state) (t : Z) (th : thread) (child_tid : Z) : res state :=
  child ← get_child s (children th) child_tid;
  match child with
  | None => Ok s
  | Some r => Ok (put_thread s t (Thread (without r (children th)) (my_record th) (WaitDown r)))
  end.
Definition sys_exit (s : state) (t : Z) (th : thread) (status : Z) : state :=
  if my_record th =? 0 then goto s t th ProcExit else goto s t th (ExitStatus status).

(** ** The steps of the calls *)

(** The next statement of thread [t]; [None] when the thread is blocked in [sema_down] or has
    no statement.  [success] is the result of [load]. *)
Definition advance (s : state) (t : Z) (th : thread) (success : bool) : option (res state) :=
  match where_ th with
  | Run | Dead => None
  | ExecPid r tid => Some (
      c ← get_rec s r;
      let c := Child tid (exit_status c) (exited c) (wait_sema c) (load_sema c) (load_status c) (parent_thread c) in
      Ok (goto (put_rec s r c) t th (ExecDown r)))
  | ExecDown r =>
      match recs s !! r with
      | Some c =>
          if load_sema c =? 0 then None else
          let c := Child (pid c) (exit_status c) (exited c) (wait_sema c) (load_sema c - 1) (load_status c) (parent_thread c) in
          Some (Ok (goto (put_rec s r c) t th (ExecCheck r)))
      | None => Some Panic
      end
  | ExecCheck r => Some (
      c ← get_rec s r;
      if load_status c then Ok (put_thread s t (Thread (children th ++ [r]) (my_record th) Run))
      else s ← free s r; Ok (goto s t th Run))
  | StartLoad r => Some (
      Ok (put_thread s t (Thread (children th) (if success then r else my_record th) (StartStatus r success))))
  | StartStatus r success => Some (
      c ← get_rec s r;
      let c := Child (pid c) (exit_status c) (exited c) (wait_sema c) (load_sema c) success (parent_thread c) in
      Ok (goto (put_rec s r c) t th (StartUp r success)))
  | StartUp r success => Some (
      c ← get_rec s r;
      let c := Child (pid c) (exit_status c) (exited c) (wait_sema c) (load_sema c + 1) (load_status c) (parent_thread c) in
      Ok (goto (put_rec s r c) t th (if success then Run else ProcExit)))
  | WaitDown r =>
      match recs s !! r with
      | Some c =>
          if wait_sema c =? 0 then None else
          let c := Child (pid c) (exit_status c) (exited c) (wait_sema c - 1) (load_sema c) (load_status c) (parent_thread c) in
          Some (Ok (goto (put_rec s r c) t th (WaitRead r)))
      | None => Some Panic
      end
  | WaitRead r => Some (c ← get_rec s r; Ok (goto s t th (WaitFree r (exit_status c))))
  | WaitFree r status => Some (
      c ← get_rec s r;
      s ← free s r;
      let s := goto s t th Run in
      Ok (State (recs s) (next_rec s) (threads s) (next_tid s) (born s) (ended s) (answers s ++ [(t, pid c, status)])))
  | ExitStatus status => Some (
      let r := my_record th in
      c ← get_rec s r;
      let c := Child (pid c) status (exited c) (wait_sema c) (load_sema c) (load_status c) (parent_thread c) in
      let s := goto (put_rec s r c) t th ExitExited in
      Ok (State (recs s) (next_rec s) (threads s) (next_tid s) (born s) (<[t := status]> (ended s)) (answers s)))
  | ExitExited => Some (
      let r := my_record th in
      c ← get_rec s r;
      let c := Child (pid c) (exit_status c) true (wait_sema c) (load_sema c) (load_status c) (parent_thread c) in
      Ok (goto (put_rec s r c) t th ExitUp))
  | ExitUp => Some (
      let r := my_record th in
      c ← get_rec s r;
      let c := Child (pid c) (exit_status c) (exited c) (wait_sema c + 1) (load_sema c) (load_status c) (parent_thread c) in
      Ok (goto (put_rec s r c) t th ExitParent))
  | ExitParent => Some (
      c ← get_rec s (my_record th);
      if parent_thread c =? 0 then Ok (goto s t th ExitFree)
      else Ok (put_thread s t (Thread (children th) 0 ProcExit)))
  | ExitFree => Some (s ← free s (my_record th); Ok (put_thread s t (Thread (children th) 0 ProcExit)))
  | ProcExit => Some (
      match children th with
      | [] => Ok (goto s t th Dead)
      | r :: _ => Ok (goto s t th (ProcParent r))
      end)
  | ProcParent r => Some (
      c ← get_rec s r;
      let c := Child (pid c) (exit_status c) (exited c) (wait_sema c) (load_sema c) (load_status c) 0 in
      Ok (put_thread (put_rec s r c) t (Thread (without r (children th)) (my_record th) (ProcCheck r))))
  | ProcCheck r => Some (
      c ← get_rec s r;
      if exited c then s ← free s r; Ok (goto s t th ProcExit) else Ok (goto s t th ProcExit))
  end.

(** ** Interleavings *)

Inductive event := Call (t : Z) (c : call) | Go (t : Z) (success : bool).
Definition thread_of (e : event) : Z := match e with Call t _ | Go t _ => t end.

(** A process in user mode calls the kernel, or a thread in the kernel goes on. *)
Definition step (s : state) (e : event) : option (res state) :=
  th ← threads s !! thread_of e;
  match e with
  | Call t c =>
      match where_ th with
      | Run => Some (match c with
                     | CExec memory => Ok (process_execute s t th memory)
                     | CWait child_tid => process_wait s t th child_tid
                     | CExit status => Ok (sys_exit s t th status)
                     end)
      | _ => None
      end
  | Go t success => advance s t th success
  end.

(** A schedule; [None] when one of its events cannot happen. *)
Fixpoint runs (s : state) (l : list event) : option (res state) :=
  match l with
  | [] => Some (Ok s)
  | e :: l =>
      match step s e with
      | Some (Ok s) => runs s l
      | r => r
      end
  end.

Inductive reachable : state → Prop :=
  | reach_boot : reachable boot
  | reach_step s e s' : reachable s → step s e = Some (Ok s') → reachable s'.

(** ** Three races *)

(** The first thread starts a child, which loads and runs. *)
Definition started : list event :=
  [Call 1 (CExec true); Go 1 true; Go 2 true; Go 2 true; Go 2 true; Go 1 true; Go 1 true].

(** After the schedule [l], the event [e] faults. *)
Definition faults (l : list event) (e : event) : Prop :=
  ∃ s, runs boot l = Some (Ok s) ∧ step s e = Some Panic.


(** ** The invariant *)

(** The record that a step of the parent is about. *)
Definition pc_child (l : pc) : list Z :=
  match l with
  | ExecPid r _ | ExecDown r | ExecCheck r | WaitDown r | WaitRead r | WaitFree r _ => [r]
  | _ => []
  end.
(** The records that a parent keeps. *)
Definition holds (th : thread) : list Z := pc_child (where_ th) ++ children th.
(** The record that a thread reports to. *)
Definition record_of (th : thread) : Z :=
  match where_ th with
  | StartLoad r | StartStatus r _ | StartUp r _ => r
  | _ => my_record th
  end.
(** The process has ended but not told its parent yet. *)
Definition unsignalled (l : pc) : bool :=
  match l with ExitExited | ExitUp => true | _ => false end.
(** [process_wait] has got past [sema_down] for the record. *)
Definition reaped (l : pc) (r : Z) : Prop := l = WaitRead r ∨ ∃ v, l = WaitFree r v.

Definition null (s : state) (r : Z) : Prop :=
  is_Some (born s !! r) ∧ ∀ c, recs s !! r = Some c → parent_thread c = 0.
(** The record of child [t], which has not loaded yet. *)
Definition not_loaded (s : state) (t r : Z) : Prop :=
  (∃ pt, born s !! r = Some (t, pt)) ∧ ∀ c, recs s !! r = Some c → load_status c = false.

(** What holds at each place. *)
Definition at_ok (s : state) (t : Z) (th : thread) : Prop :=
  match where_ th with
  | ExecPid r tid => ended s !! t = None ∧ born s !! r = Some (tid, t)
  | StartLoad r => ended s !! t = None ∧ not_loaded s t r ∧ my_record th = 0
  | StartStatus r success => ended s !! t = None ∧ not_loaded s t r ∧ my_record th = if success then r else 0
  | StartUp r success => ended s !! t = None ∧ my_record th = if success then r else 0
  | WaitRead r => ended s !! t = None ∧ ∃ ct, born s !! r = Some (ct, t) ∧ is_Some (ended s !! ct)
  | WaitFree r v => ended s !! t = None ∧ ∃ ct, born s !! r = Some (ct, t) ∧ ended s !! ct = Some v
  | ExitExited | ExitUp | ExitParent => is_Some (ended s !! t)
  | ExitFree => is_Some (ended s !! t) ∧ null s (my_record th)
  | ProcExit | Dead => my_record th = 0
  | ProcParent r => my_record th = 0 ∧ r ∈ children th
  | ProcCheck r => my_record th = 0 ∧ null s r
  | _ => ended s !! t = None
  end.

Record thread_ok (s : state) (t : Z) (th : thread) : Prop := {
  o_tid : 0 < t < next_tid s;
  o_hold : ∀ r, r ∈ holds th →
    ∃ c ct, recs s !! r = Some c ∧ born s !! r = Some (ct, t) ∧ parent_thread c = t
      ∧ (pid c = ct ∨ where_ th = ExecPid r ct);
  o_nodup : NoDup (holds th);
  o_own : record_of th ≠ 0 → ∃ pt, born s !! record_of th = Some (t, pt);
  o_mine : my_record th ≠ 0 → my_record th = record_of th;
  o_loaded : ∀ r c, r ∈ children th ∨ where_ th = WaitDown r → recs s !! r = Some c → load_status c;
  o_at : at_ok s t th
}.

(** The child of a record has a place to report to, or has done so. *)
Definition attached (s : state) (ct r : Z) : Prop :=
  is_Some (ended s !! ct) ∨ ∃ cth, threads s !! ct = Some cth ∧ my_record cth = r.
Definition signalled (s : state) (ct pt r : Z) (c : child_process) : Prop :=
  wait_sema c ≠ 0
  ∨ (∃ cth, threads s !! ct = Some cth ∧ my_record cth = r ∧ unsignalled (where_ cth))
  ∨ (∃ th, threads s !! pt = Some th ∧ reaped (where_ th) r).

Definition rec_ok (s : state) (r : Z) (c : child_process) : Prop :=
  ∃ ct pt, born s !! r = Some (ct, pt) ∧ 0 ≤ wait_sema c
    ∧ (∀ st, ended s !! ct = Some st → exit_status c = st)
    ∧ (wait_sema c ≠ 0 → is_Some (ended s !! ct))
    ∧ (load_status c → attached s ct r)
    ∧ (is_Some (ended s !! ct) → signalled s ct pt r c).

Record inv (s : state) : Prop := {
  i_thread : ∀ t th, threads s !! t = Some th → thread_ok s t th;
  i_rec : ∀ r c, recs s !! r = Some c → rec_ok s r c;
  i_next : 0 < next_rec s ∧ 0 < next_tid s;
  i_born : ∀ r ct pt, born s !! r = Some (ct, pt) → 0 < r < next_rec s ∧ is_Some (threads s !! ct);
  i_inj : ∀ r1 r2 ct p1 p2, born s !! r1 = Some (ct, p1) → born s !! r2 = Some (ct, p2) → r1 = r2;
  i_ended : ∀ t, is_Some (ended s !! t) → is_Some (threads s !! t);
  i_ans : ∀ t p v, (t, p, v) ∈ answers s → ended s !! p = Some v ∧ ∃ r, born s !! r = Some (p, t) ∧ recs s !! r = None;
  i_once : NoDup ((λ x, x.1.2) <$> answers s)
}.

(** ** Frames *)

(** What a step of thread [t] leaves for other threads. *)
Record evolves (t : Z) (s s' : state) : Prop := {
  v_born : born s ⊆ born s';
  v_tid : next_tid s ≤ next_tid s';
  v_ended : ended s ⊆ ended s';
  v_other : ∀ x, x ≠ t → ended s' !! x = ended s !! x;
  v_held : ∀ x c, recs s !! x = Some c → parent_thread c ≠ t → parent_thread c ≠ 0 →
    ∃ c', recs s' !! x = Some c' ∧ pid c' = pid c ∧ parent_thread c' = parent_thread c;
  v_old : ∀ x c', is_Some (born s !! x) → recs s' !! x = Some c' →
    ∃ c, recs s !! x = Some c ∧ (parent_thread c = 0 → parent_thread c' = 0)
      ∧ (load_status c → load_status c') ∧ (load_status c' → load_status c ∨ ∃ pt, born s !! x = Some (t, pt))
}.

Lemma null_frame t s s' r : evolves t s s' → null s r → null s' r.
Proof.
  intros V [[b Hb] Hn]. split; [exists b; by eapply lookup_weaken; [|apply V]|].
  intros c' E'. destruct (v_old _ _ _ V r c') as (c&E&Hp&_); eauto.
Qed.
Lemma not_loaded_frame t s s' r t0 : evolves t s s' → t0 ≠ t → not_loaded s t0 r → not_loaded s' t0 r.
Proof.
  intros V Ht [[pt Hb] Hn]. split; [exists pt; by eapply lookup_weaken; [|apply V]|].
  intros c' E'. destruct (v_old _ _ _ V r c') as (c&E&_&_&Hl); [by eexists|done|].
  destruct (load_status c') eqn:El; [|done].
  destruct (Hl I) as [H|(pt'&H)]; [by rewrite (Hn _ E) in H|]. naive_solver.
Qed.

Lemma at_frame t s s' t0 th0 : evolves t s s' → t0 ≠ t → at_ok s t0 th0 → at_ok s' t0 th0.
Proof.
  intros V Ht. unfold at_ok. pose proof (v_other _ _ _ V _ Ht) as Ee.
  assert (∀ ct v, ended s !! ct = Some v → ended s' !! ct = Some v) as He by (intros; by eapply lookup_weaken; [|apply V]).
  assert (∀ r x, born s !! r = Some x → born s' !! r = Some x) as Hb by (intros; by eapply lookup_weaken; [|apply V]).
  destruct (where_ th0); rewrite ?Ee; try done.
  - intros [? ?]. eauto.
  - intros (?&?&?). eauto using not_loaded_frame.
  - intros (?&?&?). eauto using not_loaded_frame.
  - intros (?&ct&?&v&?). split; [done|]. exists ct. split; [auto|]. exists v. auto.
  - intros (?&ct&?&?). eauto 10.
  - intros [? ?]. eauto using null_frame.
  - intros [? ?]. eauto using null_frame.
Qed.

Lemma thread_frame t s s' t0 th0 : evolves t s s' → t0 ≠ t → thread_ok s t0 th0 → thread_ok s' t0 th0.
Proof.
  intros V Ht [Htid Hh Hnd Hown Hm Hl Hat].
  assert (∀ r x, born s !! r = Some x → born s' !! r = Some x) as Hb by (intros; by eapply lookup_weaken; [|apply V]).
  split; [pose proof (v_tid _ _ _ V); lia| |done| |done| |by eapply at_frame].
  - intros r Hr. destruct (Hh r Hr) as (c&ct&Er&Eb&Ep&Hp).
    destruct (v_held _ _ _ V _ _ Er) as (c'&E'&Hpid&Hpar); [lia..|].
    exists c', ct. rewrite Hpid, Hpar. auto.
  - intros Hr. destruct (Hown Hr) as (pt&E). eauto.
  - intros r c' Hr E'. assert (r ∈ holds th0) as Hr'.
    { unfold holds. destruct Hr as [Hr|Hr]; [|rewrite Hr; simpl]; set_solver. }
    destruct (Hh r Hr') as (c&ct&Er&Eb&_). destruct (v_old _ _ _ V r c') as (c0&E0&_&Hmono&_); [by eexists|done|].
    simplify_eq. apply Hmono. eauto.
Qed.

(** The thread that runs goes from [th] to [th'] without effect on what record [x] says. *)
Definition keeps (s s' : state) (t : Z) (th th' : thread) (x : Z) : Prop :=
  (∀ pt, born s !! x = Some (t, pt) →
     ended s' !! t = ended s !! t
     ∧ (my_record th = x → (my_record th' = x ∨ is_Some (ended s' !! t))
        ∧ (unsignalled (where_ th) → my_record th' = x ∧ unsignalled (where_ th'))))
  ∧ (reaped (where_ th) x → reaped (where_ th') x).

Lemma rec_frame s s' t th th' x c :
  threads s !! t = Some th → threads s' = <[t := th']> (threads s) → born s' = born s → evolves t s s' →
  keeps s s' t th th' x → rec_ok s x c → rec_ok s' x c.
Proof.
  intros Et Ets Eb V [Hk1 Hk2] (ct&pt&Hb&H0&Hst&Hse&Hl&Hsi). exists ct, pt. rewrite Eb.
  assert (ended s' !! ct = ended s !! ct) as Ee.
  { destruct (decide (ct = t)) as [->|Hn]; [by apply (Hk1 pt)|by apply (v_other _ _ _ V)]. }
  rewrite Ee. split; [done|]. split; [done|]. split; [done|]. split; [done|]. split.
  - intros Hload. destruct (Hl Hload) as [|(cth&Ec&Em)]; [left; by rewrite Ee|].
    destruct (decide (ct = t)) as [->|Hn].
    + simplify_eq. destruct (Hk1 pt Hb) as (_&Hk). destruct (Hk eq_refl) as [[?|?] _]; [right|by left].
      exists th'. by rewrite Ets, lookup_insert_eq.
    + right. exists cth. by rewrite Ets, lookup_insert_ne.
  - intros He. destruct (Hsi He) as [?|[(cth&Ec&Em&Hu)|(y&Ey&Hr)]]; [by left|right; left|right; right].
    + destruct (decide (ct = t)) as [->|Hn].
      * simplify_eq. destruct (Hk1 pt Hb) as (_&Hk). destruct (Hk eq_refl) as [_ [??]]; [done|].
        exists th'. by rewrite Ets, lookup_insert_eq.
      * exists cth. by rewrite Ets, lookup_insert_ne.
    + destruct (decide (pt = t)) as [->|Hn].
      * simplify_eq. exists th'. rewrite Ets, lookup_insert_eq. auto.
      * exists y. by rewrite Ets, lookup_insert_ne.
Qed.

Definition ans_ok (s : state) : Prop :=
  (∀ t p v, (t, p, v) ∈ answers s → ended s !! p = Some v ∧ ∃ r, born s !! r = Some (p, t) ∧ recs s !! r = None)
  ∧ NoDup ((λ x, x.1.2) <$> answers s).

Lemma ans_frame t s s' p0 p v : inv s → evolves t s s' → (p0, p, v) ∈ answers s →
  ended s' !! p = Some v ∧ ∃ r, born s' !! r = Some (p, p0) ∧ recs s' !! r = None.
Proof.
  intros I V Ha. destruct (i_ans _ I _ _ _ Ha) as (He&r&Hb&Hr).
  split; [by eapply lookup_weaken; [|apply V]|]. exists r. split; [by eapply lookup_weaken; [|apply V]|].
  destruct (recs s' !! r) as [c'|] eqn:E'; [|done].
  destruct (v_old _ _ _ V r c') as (c&Ec&_); [by eexists|done|]. congruence.
Qed.

(** One step of thread [t] that touches at most record [r]. *)
Lemma inv_step s s' t th th' r :
  inv s → threads s !! t = Some th → threads s' = <[t := th']> (threads s) →
  born s' = born s → next_rec s' = next_rec s → evolves t s s' → thread_ok s' t th' →
  (∀ x, x ≠ r → recs s' !! x = recs s !! x) → (∀ x, x ≠ 0 → x ≠ r → keeps s s' t th th' x) →
  (∀ c', recs s' !! r = Some c' → rec_ok s' r c') → ans_ok s' → inv s'.
Proof.
  intros I Et Ets Eb En V Hth Hx Hk Hr [Ha Ho]. split; try done.
  - intros t0 th0. rewrite Ets. intros [[<- <-]|[Hn E0]]%lookup_insert_Some; [done|].
    eapply thread_frame; [done..|]. by apply I.
  - intros x c' E'. destruct (decide (x = r)) as [->|Hn]; [by apply Hr|].
    rewrite Hx in E' by done. pose proof (i_rec _ I _ _ E') as Ho'.
    eapply rec_frame; [done..| |done]. apply Hk; [|done].
    destruct Ho' as (ct&pt&E&_). destruct (i_born _ I _ _ _ E). lia.
  - rewrite En. destruct (i_next _ I). pose proof (v_tid _ _ _ V). lia.
  - intros x ct pt. rewrite Eb, En, Ets, lookup_insert_is_Some'. intros E. destruct (i_born _ I _ _ _ E). auto.
  - rewrite Eb. apply I.
  - intros t0 He. rewrite Ets, lookup_insert_is_Some'. destruct (decide (t0 = t)) as [->|Hn]; [by left|right].
    apply I. by rewrite <- (v_other _ _ _ V).
Qed.

(** The step changes no record. *)
Lemma inv_goto s t th th' :
  inv s → threads s !! t = Some th → thread_ok s t th' →
  (∀ x, x ≠ 0 → keeps s s t th th' x) → inv (put_thread s t th').
Proof.
  intros I Et Hth Hk. assert (evolves t s (put_thread s t th')) as V.
  { split; simpl; try done; [by eauto|]. intros x c' _ E'. exists c'. auto. }
  apply (inv_step s _ t th th' 0); try done.
  - destruct Hth; by split.
  - intros x Hx _. by apply Hk.
  - simpl. intros c' E'. destruct (i_rec _ I _ _ E') as (ct&pt&E&_). destruct (i_born _ I _ _ _ E). lia.
  - split; [|apply I]. exact (λ p0 p v, ans_frame t s _ p0 p v I V).
Qed.

(** The step changes record [r]. *)
Lemma evolves_put s t th' r c c' :
  recs s !! r = Some c →
  (parent_thread c ≠ t → pid c' = pid c ∧ parent_thread c' = parent_thread c) →
  (parent_thread c = 0 → parent_thread c' = 0) →
  (load_status c → load_status c') → (load_status c' → load_status c ∨ ∃ pt, born s !! r = Some (t, pt)) →
  evolves t s (put_thread (put_rec s r c') t th').
Proof.
  intros Er Hp Hz Hl1 Hl2. split; simpl; try done.
  - intros x c0 E0 Hn Hn0. destruct (decide (x = r)) as [->|].
    + rewrite lookup_insert_eq. simplify_eq. destruct (Hp Hn). eauto.
    + rewrite lookup_insert_ne by done. eauto.
  - intros x c0 Hb [[<- <-]|[Hn E0]]%lookup_insert_Some; [eauto 10|]. exists c0. auto.
Qed.
Lemma inv_put s t th th' r c c' :
  inv s → threads s !! t = Some th → recs s !! r = Some c →
  evolves t s (put_thread (put_rec s r c') t th') →
  thread_ok (put_rec s r c') t th' → (∀ x, x ≠ 0 → x ≠ r → keeps s s t th th' x) →
  rec_ok (put_thread (put_rec s r c') t th') r c' → inv (put_thread (put_rec s r c') t th').
Proof.
  intros I Et Er V Hth Hk Hr. apply (inv_step s _ t th th' r); try done.
  - destruct Hth; by split.
  - intros x Hx. simpl. by rewrite lookup_insert_ne.
  - simpl. rewrite lookup_insert_eq. by intros ? [= <-].
  - split; [|apply I]. exact (λ p0 p v, ans_frame t s _ p0 p v I V).
Qed.

(** The step frees record [r]. *)
Definition drop_rec (s : state) (r : Z) : state :=
  State (delete r (recs s)) (next_rec s) (threads s) (next_tid s) (born s) (ended s) (answers s).
Lemma evolves_free s t th' r c :
  recs s !! r = Some c → parent_thread c = t ∨ parent_thread c = 0 → evolves t s (put_thread (drop_rec s r) t th').
Proof.
  intros Er Hp. split; simpl; try done.
  - intros x c0 E0 Hn Hn0. rewrite lookup_delete_ne by naive_solver. eauto.
  - intros x c0 Hb [Hn E0]%lookup_delete_Some. exists c0. auto.
Qed.
Lemma inv_free s t th th' r c :
  inv s → threads s !! t = Some th → recs s !! r = Some c → parent_thread c = t ∨ parent_thread c = 0 →
  thread_ok (drop_rec s r) t th' → (∀ x, x ≠ 0 → x ≠ r → keeps s s t th th' x) → inv (put_thread (drop_rec s r) t th').
Proof.
  intros I Et Er Hp Hth Hk. assert (V := evolves_free s t th' r c Er Hp).
  apply (inv_step s _ t th th' r); try done.
  - destruct Hth; by split.
  - intros x Hx. simpl. by rewrite lookup_delete_ne.
  - simpl. by rewrite lookup_delete_eq.
  - split; [|apply I]. exact (λ p0 p v, ans_frame t s _ p0 p v I V).
Qed.

(** *** The thread that runs *)

Lemma without_sub r l x : x ∈ without r l → x ∈ l.
Proof. induction l as [|y l IH]; simpl; [done|]. destruct (y =? r); set_solver. Qed.
Lemma without_nodup r l : NoDup l → NoDup (without r l) ∧ r ∉ without r l.
Proof.
  induction 1 as [|y l Hy Hl [IH1 IH2]]; simpl; [split; [constructor|set_solver]|].
  destruct (Z.eqb_spec y r) as [->|]; [done|]. split; [|set_solver].
  constructor; [|done]. intros Hx%without_sub. done.
Qed.
Lemma get_child_Some s l p r : get_child s l p = Ok (Some r) → r ∈ l ∧ ∃ c, recs s !! r = Some c ∧ pid c = p.
Proof.
  induction l as [|x l IH]; simpl; [done|]. intros (c&Ec%from_opt_Ok&E)%bind_Ok.
  destruct (Z.eqb_spec (pid c) p); [|set_solver]. simplify_eq. set_solver.
Qed.

Lemma thread_goto s t th th' :
  thread_ok s t th → (∀ r ct, where_ th ≠ ExecPid r ct) → NoDup (holds th') → (∀ r, r ∈ holds th' → r ∈ holds th) →
  (record_of th' ≠ 0 → record_of th' = record_of th) → (my_record th' ≠ 0 → my_record th' = record_of th') →
  (∀ r, r ∈ children th' ∨ where_ th' = WaitDown r →
     r ∈ children th ∨ ∀ c, recs s !! r = Some c → load_status c) →
  at_ok s t th' → thread_ok s t th'.
Proof.
  intros [Htid Hh Hnd Hown Hm Hl Hat] Hpc Hnd' Hsub Hrec Hmine Hload Hat'. split; try done.
  - intros r Hr. destruct (Hh r (Hsub r Hr)) as (c&ct&Er&Eb&Ep&[Hp|Hp]); [eauto 10|]. by destruct (Hpc r ct).
  - intros Hr. rewrite Hrec in * by done. auto.
  - intros r c Hr Er. destruct (Hload r Hr) as [|]; eauto.
Qed.

Definition starting (l : pc) : bool :=
  match l with StartLoad _ | StartStatus _ _ => true | _ => false end.
Lemma thread_put s t th r c c' :
  thread_ok s t th → starting (where_ th) = false → recs s !! r = Some c →
  pid c' = pid c → parent_thread c' = parent_thread c → (load_status c → load_status c') →
  thread_ok (put_rec s r c') t th.
Proof.
  intros [Htid Hh Hnd Hown Hm Hl Hat] Hs Er Hpid Hpar Hload.
  assert (∀ x, null s x → null (put_rec s r c') x) as Hnull.
  { intros x [Hb Hn]. split; [done|]. intros c0 E0. simpl in E0.
    apply lookup_insert_Some in E0 as [[<- <-]|[_ E0]]; [rewrite Hpar|]; auto. }
  split; try done.
  - intros x Hx. destruct (Hh x Hx) as (c0&ct&E0&Eb&Ep&Hp). simpl. destruct (decide (x = r)) as [->|].
    + exists c', ct. rewrite lookup_insert_eq. simplify_eq. rewrite Hpid, Hpar. auto.
    + exists c0, ct. rewrite lookup_insert_ne by done. auto.
  - intros x c0 Hx E0. simpl in E0. apply lookup_insert_Some in E0 as [[<- <-]|[_ E0]]; eauto.
  - unfold at_ok in *. destruct (where_ th); try done; destruct Hat; auto.
Qed.

(** A step that changes neither the status nor [wait_sema] of the record. *)
Lemma inv_touch s t th th' r c c' :
  inv s → threads s !! t = Some th → recs s !! r = Some c →
  evolves t s (put_thread (put_rec s r c') t th') →
  wait_sema c' = wait_sema c → exit_status c' = exit_status c →
  (load_status c' → load_status c ∨ my_record th' = r ∧ ∃ pt, born s !! r = Some (t, pt)) →
  thread_ok (put_rec s r c') t th' → (∀ x, x ≠ 0 → keeps s s t th th' x) →
  inv (put_thread (put_rec s r c') t th').
Proof.
  intros I Et Er V Ew Es Hl Hth Hk. destruct (i_rec _ I _ _ Er) as (ct&pt&Hb&H0&Hst&Hse&Hld&Hsi).
  assert (r ≠ 0) by (destruct (i_born _ I _ _ _ Hb); lia).
  assert (∀ x, x ≠ 0 → keeps s (put_thread (put_rec s r c') t th') t th th' x) as Hk' by done.
  assert (rec_ok s r (Child (pid c') (exit_status c) (exited c') (wait_sema c) (load_sema c') (load_status c) (parent_thread c')))
    as Hr by (exists ct, pt; eauto 10).
  apply (rec_frame s (put_thread (put_rec s r c') t th') t th th') in Hr as (ct'&pt'&Hb'&Hrest); auto.
  simpl in Hb'. simplify_eq.
  eapply inv_put; try done; [by auto|].
  exists ct, pt. simpl in *. rewrite Ew, Es. destruct Hrest as (?&?&?&Hld'&Hsi'). repeat (split; [done|]). split.
  - intros [Hl'|[Hm [pt' Hb']]]%Hl; [auto|]. simplify_eq. right. exists th'. simpl. by rewrite lookup_insert_eq.
  - unfold signalled in *. simpl in *. by rewrite Ew.
Qed.

Lemma thread_drop s t th r : thread_ok s t th → r ∉ holds th → thread_ok (drop_rec s r) t th.
Proof.
  intros [Htid Hh Hnd Hown Hm Hl Hat] Hr.
  assert (∀ x c, recs (drop_rec s r) !! x = Some c → recs s !! x = Some c) as Hdrop
    by (intros x c E; simpl in E; by apply lookup_delete_Some in E as [_ E]).
  split; try done.
  - intros x Hx. destruct (Hh x Hx) as (c0&ct&E0&Eb&Ep&Hp). exists c0, ct. simpl.
    rewrite lookup_delete_ne by set_solver. auto.
  - intros x c Hx E%Hdrop. eauto.
  - unfold at_ok, not_loaded, null in *. destruct (where_ th); naive_solver.
Qed.

(** A thread holds no record that has lost its parent. *)
Lemma orphan_not_held s t th r c :
  thread_ok s t th → recs s !! r = Some c → parent_thread c = 0 → r ∉ holds th.
Proof.
  intros O Er Hp Hr. destruct (o_hold _ _ _ O r Hr) as (c'&ct&Er'&_&Hp'&_). pose proof (o_tid _ _ _ O).
  simplify_eq. lia.
Qed.

Local Ltac keep :=
  intros x Hx; unfold keeps, reaped; simpl;
  repeat match goal with H : Thread _ _ _ = _ |- _ => destruct H end;
  split; [intros ? ?; split; [done|]; intros ->; simpl; by auto|by intros [?|[? ?]]; simplify_eq; eauto].

(** *** [process_execute] *)

Lemma exec_steps s t th b s' : inv s → threads s !! t = Some th →
  (∃ r tid, where_ th = ExecPid r tid) ∨ (∃ r, where_ th = ExecDown r ∨ where_ th = ExecCheck r) →
  advance s t th b = Some (Ok s') → inv s'.
Proof.
  intros I Et Hpc H. pose proof (i_thread _ I _ _ Et) as O. destruct th as [ch mine l]. unfold advance in H. simpl in *.
  destruct Hpc as [(r&tid&->)|(r&[->| ->])].
  - destruct (o_hold _ _ _ O r) as (c&ct&Er&Eb&Ep&_); [unfold holds; simpl; set_solver|].
    destruct (o_at _ _ _ O) as [Hne Eb']. simpl in Eb'. unfold get_rec in H. rewrite Er in H. simpl in H. simplify_eq.
    eapply inv_touch; [exact I|exact Et|exact Er| |done|done|by auto| |keep].
    + eapply evolves_put; [exact Er|done..|by auto].
    + destruct O as [Htid Hh Hnd Hown Hm Hl Hat]. split; try done.
      * intros x Hx. simpl. destruct (decide (x = r)) as [->|Hn].
        { rewrite lookup_insert_eq. eexists _, _. split; [done|]. split; [exact Eb|]. split; [done|by left]. }
        rewrite lookup_insert_ne by done. destruct (Hh x Hx) as (c0&ct0&E0&Eb0&Ep0&[Hp|Hp]); [by eauto 10|].
        simpl in Hp. simplify_eq.
      * intros x c0 [Hx|Hx] E0; [|done]. simpl in E0. apply lookup_insert_Some in E0 as [[<- <-]|[_ E0]]; simpl; eauto.
  - destruct (recs s !! r) as [c|] eqn:Er; [|done]. destruct (load_sema c =? 0); [done|]. simplify_eq.
    eapply inv_touch; [exact I|exact Et|exact Er| |done|done|by auto| |keep].
    + eapply evolves_put; [exact Er|done..|by auto].
    + eapply thread_put; [|done|exact Er|done..].
      eapply thread_goto; [exact O|done|exact (o_nodup _ _ _ O)|done|done|exact (o_mine _ _ _ O)| |exact (o_at _ _ _ O)].
      intros x [Hx|Hx]; [by left|done].
  - unfold get_rec in H. destruct (recs s !! r) as [c|] eqn:Er; [|done]. simpl in H.
    destruct (load_status c) eqn:El.
    + simplify_eq. eapply inv_goto; [exact I|exact Et| |keep].
      assert (holds (Thread (ch ++ [r]) mine Run) ≡ₚ holds (Thread ch mine (ExecCheck r))) as Hp
        by (unfold holds; simpl; by rewrite (comm app ch [r])).
      eapply thread_goto; [exact O|done|by rewrite Hp; apply O|by intros x; rewrite Hp|done|exact (o_mine _ _ _ O)| |exact (o_at _ _ _ O)].
      intros x [Hx|Hx]; [|done]. simpl in Hx. apply elem_of_app in Hx as [Hx|Hx]; [by left|right].
      apply list_elem_of_singleton in Hx as ->. intros c0 E0. simplify_eq. by rewrite El.
    + unfold free, get_rec in H. rewrite Er in H. simpl in H. simplify_eq.
      destruct (o_hold _ _ _ O r) as (c0&ct&E0&Eb&Ep&_); [unfold holds; simpl; set_solver|]. simplify_eq.
      eapply inv_free; [exact I|exact Et|exact Er|by left| |intros x Hx _; revert x Hx; keep].
      pose proof (o_nodup _ _ _ O) as Hnd. unfold holds in Hnd. simpl in Hnd. apply NoDup_cons in Hnd as [Hn Hnd].
      apply thread_drop; [|done].
      eapply thread_goto; [exact O|done|done| |done|exact (o_mine _ _ _ O)| |exact (o_at _ _ _ O)].
      * intros x Hx. unfold holds in *. simpl in *. set_solver.
      * intros x [Hx|Hx]; [by left|done].
Qed.

(** *** [start_process] *)

Lemma start_steps s t th b s' : inv s → threads s !! t = Some th →
  (∃ r, where_ th = StartLoad r) ∨ (∃ r ok, where_ th = StartStatus r ok ∨ where_ th = StartUp r ok) →
  advance s t th b = Some (Ok s') → inv s'.
Proof.
  intros I Et Hpc H. pose proof (i_thread _ I _ _ Et) as O. destruct th as [ch mine l]. unfold advance in H. simpl in *.
  destruct Hpc as [(r&->)|(r&ok&[->| ->])].
  - simplify_eq. destruct (o_at _ _ _ O) as (Hne&Hnl&Hm). simpl in *. subst mine.
    eapply inv_goto; [exact I|exact Et| |].
    + eapply thread_goto; [exact O|done|exact (o_nodup _ _ _ O)|done|done| | |].
      * simpl. by destruct b.
      * intros x [Hx|Hx]; [by left|done].
      * simpl. by destruct b.
    + intros x Hx. split; [|by intros [?|[? ?]]]. intros pt Hb. split; [done|]. intros <-. done.
  - unfold get_rec in H. destruct (recs s !! r) as [c|] eqn:Er; [|done]. simpl in H. simplify_eq.
    destruct (o_at _ _ _ O) as (Hne&[Hb Hnl]&Hm). simpl in *. specialize (Hnl _ Er).
    eapply inv_touch; [exact I|exact Et|exact Er| |done|done| | |keep].
    + eapply evolves_put; [exact Er|done|done|by rewrite Hnl|by right].
    + simpl. intros Hok. right. split; [by destruct ok|done].
    + eapply thread_put; [|done|exact Er|done|done|by rewrite Hnl].
      eapply thread_goto; [exact O|done|exact (o_nodup _ _ _ O)|done|done|exact (o_mine _ _ _ O)| |exact (conj Hne Hm)].
      intros x [Hx|Hx]; [by left|done].
  - unfold get_rec in H. destruct (recs s !! r) as [c|] eqn:Er; [|done]. simpl in H. simplify_eq.
    destruct (o_at _ _ _ O) as (Hne&Hm). simpl in *.
    eapply inv_touch; [exact I|exact Et|exact Er| |done|done|by left| |destruct ok; keep].
    + eapply evolves_put; [exact Er|done..|by left].
    + eapply thread_put; [|by destruct ok|exact Er|done..].
      eapply thread_goto; [exact O|done| | | | | |].
      * pose proof (o_nodup _ _ _ O). by destruct ok.
      * by destruct ok.
      * unfold record_of. simpl. by destruct ok, mine.
      * unfold record_of. simpl. by destruct ok.
      * intros x [Hx|Hx]; [by left|]. by destruct ok.
      * by destruct ok.
Qed.

(** *** [process_wait] *)

Lemma wait_call s t th child_tid s' : inv s → threads s !! t = Some th → where_ th = Run →
  process_wait s t th child_tid = Ok s' → inv s'.
Proof.
  intros I Et Hpc H. pose proof (i_thread _ I _ _ Et) as O. destruct th as [ch mine l]. simpl in *. subst l.
  unfold process_wait in H. apply bind_Ok in H as ([r|]&Hc&H); simplify_eq; [|done].
  apply get_child_Some in Hc as (Hr&c&Er&_). simpl in Hr.
  pose proof (o_nodup _ _ _ O) as Hnd. unfold holds in Hnd. simpl in Hnd.
  destruct (without_nodup r ch Hnd) as [Hnd' Hn].
  eapply inv_goto; [exact I|exact Et| |keep].
  eapply thread_goto; [exact O|done|by constructor| |done|exact (o_mine _ _ _ O)| |exact (o_at _ _ _ O)].
  - intros x. unfold holds. simpl. rewrite elem_of_cons. intros [->|Hx%without_sub]; done.
  - intros x [Hx%without_sub|[= ->]]; by left.
Qed.

(** The answer is recorded. *)
Definition answer (s : state) (x : Z * Z * Z) : state :=
  State (recs s) (next_rec s) (threads s) (next_tid s) (born s) (ended s) (answers s ++ [x]).
Lemma inv_answer s t p v r :
  inv s → ended s !! p = Some v → born s !! r = Some (p, t) → recs s !! r = None →
  (∀ t' v', (t', p, v') ∉ answers s) → inv (answer s (t, p, v)).
Proof.
  intros [Hth Hrec Hn Hb Hj He Ha Ho] Ee Eb Er Hnew. split; try done.
  - intros t0 th0 E0. destruct (Hth _ _ E0); by split.
  - intros t0 p0 v0. simpl. rewrite elem_of_app, list_elem_of_singleton. intros [H|[= -> -> ->]]; [by apply Ha|eauto].
  - simpl. rewrite fmap_app. apply NoDup_app. split; [done|]. split; [|apply NoDup_singleton].
    intros x [[[t' p'] v'] [-> Hx]]%list_elem_of_fmap. simpl. rewrite list_elem_of_singleton. intros ->. by apply (Hnew t' v').
Qed.

Lemma wait_steps s t th b s' : inv s → threads s !! t = Some th →
  (∃ r, where_ th = WaitDown r ∨ where_ th = WaitRead r) ∨ (∃ r v, where_ th = WaitFree r v) →
  advance s t th b = Some (Ok s') → inv s'.
Proof.
  intros I Et Hpc H. pose proof (i_thread _ I _ _ Et) as O. destruct th as [ch mine l]. unfold advance in H. simpl in *.
  destruct Hpc as [(r&[->| ->])|(r&v&->)].
  - destruct (recs s !! r) as [c|] eqn:Er; [|done]. destruct (Z.eqb_spec (wait_sema c) 0); [done|]. simplify_eq.
    destruct (o_hold _ _ _ O r) as (c0&ct&E0&Eb&Ep&_); [unfold holds; simpl; set_solver|]. simplify_eq.
    destruct (i_rec _ I _ _ Er) as (ct'&pt&Eb'&H0&Hst&Hse&Hld&Hsi). simplify_eq.
    eapply inv_put; [exact I|exact Et|exact Er| | |intros x Hx _; revert x Hx; keep|].
    + eapply evolves_put; [exact Er|done..|by auto].
    + eapply thread_put; [|done|exact Er|done..].
      eapply thread_goto; [exact O|done|exact (o_nodup _ _ _ O)|done|done|exact (o_mine _ _ _ O)| |].
      * intros x [Hx|Hx]; [by left|done].
      * split; [exact (o_at _ _ _ O)|]. eauto.
    + eexists _, _. split; [exact Eb|]. simpl. split; [lia|]. split; [done|]. split; [by auto|]. split.
      * intros Hl. destruct (Hld Hl) as [|(cth&Ec&Em)]; [by left|right]. simpl.
        destruct (decide (ct = parent_thread c)) as [->|]; [|exists cth; by rewrite lookup_insert_ne].
        rewrite Et in Ec. injection Ec as <-. rewrite lookup_insert_eq. eexists; split; [done|exact Em].
      * intros _. right; right. simpl. rewrite lookup_insert_eq. eexists; split; [done|by left].
  - unfold get_rec in H. destruct (recs s !! r) as [c|] eqn:Er; [|done]. simpl in H. simplify_eq.
    destruct (o_at _ _ _ O) as (Hne&ct&Eb&[st Est]). destruct (i_rec _ I _ _ Er) as (ct'&pt&Eb'&_&Hst&_). simplify_eq.
    eapply inv_goto; [exact I|exact Et| |].
    + eapply thread_goto; [exact O|done|exact (o_nodup _ _ _ O)|done|done|exact (o_mine _ _ _ O)| |].
      * intros x [Hx|Hx]; [by left|done].
      * split; [done|]. exists ct. split; [done|]. by rewrite (Hst _ Est).
    + intros x Hx. split; [intros ? ?; split; [done|]; intros ->; simpl; by auto|].
      intros [[= ->]|[? ?]]; [right; by eexists|done].
  - unfold free, get_rec in H. destruct (recs s !! r) as [c|] eqn:Er; [|done]. simpl in H. simplify_eq.
    destruct (o_at _ _ _ O) as (Hne&ct&Eb&Est).
    destruct (o_hold _ _ _ O r) as (c0&ct0&E0&Eb0&Ep&[Hp|Hp]); [unfold holds; simpl; set_solver| |done]. simplify_eq.
    apply (inv_answer (put_thread (drop_rec s r) (parent_thread c) (Thread ch mine Run)) _ (pid c) _ r); simpl; try done.
    + eapply inv_free; [exact I|exact Et|exact Er|by left| |].
      * pose proof (o_nodup _ _ _ O) as Hnd. unfold holds in Hnd. simpl in Hnd. apply NoDup_cons in Hnd as [Hn Hnd].
        apply thread_drop; [|done].
        eapply thread_goto; [exact O|done|done| |done|exact (o_mine _ _ _ O)| |done].
        { intros x Hx. unfold holds in *. simpl in *. set_solver. }
        intros x [Hx|Hx]; [by left|done].
      * intros x Hx Hn. unfold keeps, reaped. simpl. split; [intros ? ?; split; [done|]; intros ->; by auto|].
        intros [?|[? ?]]; simplify_eq.
    + by rewrite lookup_delete_eq.
    + intros t' v' Ha. destruct (i_ans _ I _ _ _ Ha) as (_&r'&Eb'&Er'). rewrite (i_inj _ I _ _ _ _ _ Eb Eb') in Er. congruence.
Qed.

(** *** [sys_exit] *)

Lemma exit_call s t th status : inv s → threads s !! t = Some th → where_ th = Run → inv (sys_exit s t th status).
Proof.
  intros I Et Hpc. pose proof (i_thread _ I _ _ Et) as O. destruct th as [ch mine l]. simpl in *. subst l.
  unfold sys_exit. simpl. destruct (Z.eqb_spec mine 0) as [->|Hm]; (eapply inv_goto; [exact I|exact Et| |keep]).
  all: eapply thread_goto; [exact O|done|exact (o_nodup _ _ _ O)|done|done|exact (o_mine _ _ _ O)
    |by intros x [Hx|Hx]; [left|]|first [done|exact (o_at _ _ _ O)]].
Qed.

Definition set_ended (s : state) (t status : Z) : state :=
  State (recs s) (next_rec s) (threads s) (next_tid s) (born s) (<[t := status]> (ended s)) (answers s).
Lemma exit_status_step s t ch mine status c :
  let th := Thread ch mine (ExitStatus status) in
  let th' := Thread ch mine ExitExited in
  let c' := Child (pid c) status (exited c) (wait_sema c) (load_sema c) (load_status c) (parent_thread c) in
  inv s → threads s !! t = Some th → recs s !! mine = Some c →
  inv (set_ended (put_thread (put_rec s mine c') t th') t status).
Proof.
  intros th th' c' I Et Er. pose proof (i_thread _ I _ _ Et) as O.
  destruct (i_rec _ I _ _ Er) as (ct&pt&Eb&H0&Hst&Hse&Hld&Hsi).
  pose proof (i_born _ I _ _ _ Eb) as [Hr _].
  assert (ct = t) as ->.
  { destruct (o_own _ _ _ O) as (pt'&E'); [simpl; unfold record_of; simpl; lia|]. unfold record_of in E'. simpl in E'. congruence. }
  pose proof (o_at _ _ _ O) as Hne. unfold at_ok in Hne. simpl in Hne.
  assert (evolves t s (set_ended (put_thread (put_rec s mine c') t th') t status)) as V.
  { destruct (evolves_put s t th' mine c c' Er) as [V1 V2 V3 V4 V5 V6]; [done|done|done|by auto|].
    split; try done; simpl; [by apply insert_subseteq|]. intros x Hx. by rewrite lookup_insert_ne. }
  eapply (inv_step s _ t th th' mine); [exact I|exact Et|done|done|done|exact V| | | | |].
  - assert (thread_ok (put_rec s mine c') t th) as O' by (by eapply thread_put).
    destruct O' as [Htid Hh Hnd Hown Hm Hl Hat]. split; try done; simpl.
    + intros x Hx. destruct (Hh x Hx) as (c0&ct0&E0&Eb0&Ep0&[Hp|Hp]); [by eauto 10|done].
    + intros x c0 [Hx|Hx] E0; [by eauto|done].
    + unfold at_ok. simpl. by rewrite lookup_insert_eq.
  - intros x Hx. simpl. by rewrite lookup_insert_ne.
  - intros x Hx Hn. split; [|by intros [?|[? ?]]]. intros pt' Hb. by destruct Hn; eapply (i_inj _ I).
  - intros c0 E0. simpl in E0. rewrite lookup_insert_eq in E0. simplify_eq. exists t, pt. simpl.
    unfold attached, signalled. simpl. rewrite !lookup_insert_eq.
    split; [done|]. split; [done|]. split; [by intros ? [= ->]|]. split; [done|]. split; [by left|].
    intros _. right; left. by eexists.
  - split; [|apply I]. exact (λ p0 p v, ans_frame t s _ p0 p v I V).
Qed.

Lemma exit_steps s t th b s' : inv s → threads s !! t = Some th →
  (∃ st, where_ th = ExitStatus st) ∨ where_ th = ExitExited ∨ where_ th = ExitUp ∨ where_ th = ExitParent
    ∨ where_ th = ExitFree →
  advance s t th b = Some (Ok s') → inv s'.
Proof.
  intros I Et Hpc H. pose proof (i_thread _ I _ _ Et) as O. destruct th as [ch mine l]. unfold advance in H. simpl in *.
  pose proof (o_at _ _ _ O) as Hat. unfold at_ok in Hat. simpl in Hat.
  destruct Hpc as [(st&->)|[->|[->|[->| ->]]]]; unfold free, get_rec in H;
    (destruct (recs s !! mine) as [c|] eqn:Er; [|done]); simpl in H.
  - simplify_eq. by apply exit_status_step.
  - simplify_eq. eapply inv_touch; [exact I|exact Et|exact Er| |done|done|by left| |keep].
    + eapply evolves_put; [exact Er|done..|by left].
    + eapply thread_put; [|done|exact Er|done..].
      eapply thread_goto; [exact O|done|exact (o_nodup _ _ _ O)|done|done|exact (o_mine _ _ _ O)| |done].
      intros x [Hx|Hx]; [by left|done].
  - simplify_eq. destruct (i_rec _ I _ _ Er) as (ct&pt&Eb&H0&Hst&Hse&Hld&Hsi).
    destruct (o_own _ _ _ O) as (pt'&E'); [unfold record_of; simpl; destruct (i_born _ I _ _ _ Eb); lia|].
    unfold record_of in E'. simpl in E'. simplify_eq.
    eapply inv_put; [exact I|exact Et|exact Er| | | |].
    + eapply evolves_put; [exact Er|done..|by left].
    + eapply thread_put; [|done|exact Er|done..].
      eapply thread_goto; [exact O|done|exact (o_nodup _ _ _ O)|done|done|exact (o_mine _ _ _ O)| |done].
      intros x [Hx|Hx]; [by left|done].
    + intros x Hx Hn. split; [|by intros [?|[? ?]]]. intros pt'' Hb. by destruct Hn; eapply (i_inj _ I).
    + eexists _, _. simpl. split; [eassumption|]. split; [lia|]. split; [done|]. split; [done|]. split; [by left|].
      intros _. left. simpl. lia.
  - destruct (Z.eqb_spec (parent_thread c) 0) as [Hp|Hp]; simplify_eq; (eapply inv_goto; [exact I|exact Et| |]).
    + eapply thread_goto; [exact O|done|exact (o_nodup _ _ _ O)|done|done|exact (o_mine _ _ _ O)| |].
      * intros x [Hx|Hx]; [by left|done].
      * split; [done|]. split; [|intros c0 E0; simpl in E0; congruence].
        destruct (i_rec _ I _ _ Er) as (ct&pt&Eb&_). by eexists.
    + keep.
    + eapply thread_goto; [exact O|done|exact (o_nodup _ _ _ O)|done|done|done| |done].
      intros x [Hx|Hx]; [by left|done].
    + intros x Hx. split; [|by intros [?|[? ?]]]. intros pt Hb. split; [done|]. intros _. split; [by right|done].
  - simplify_eq. destruct Hat as [He [_ Hn]]. specialize (Hn _ Er).
    eapply inv_free; [exact I|exact Et|exact Er|by right| |].
    + apply thread_drop; [|exact (orphan_not_held _ _ _ _ _ O Er Hn)].
      eapply thread_goto; [exact O|done|exact (o_nodup _ _ _ O)|done|done|done| |done].
      intros x [Hx|Hx]; [by left|done].
    + intros x Hx _. split; [|by intros [?|[? ?]]]. intros pt Hb. split; [done|]. intros _. split; [by right|done].
Qed.

(** *** [process_exit] *)

Lemma proc_steps s t th b s' : inv s → threads s !! t = Some th →
  where_ th = ProcExit ∨ (∃ r, where_ th = ProcParent r ∨ where_ th = ProcCheck r) →
  advance s t th b = Some (Ok s') → inv s'.
Proof.
  intros I Et Hpc H. pose proof (i_thread _ I _ _ Et) as O. destruct th as [ch mine l]. unfold advance in H. simpl in *.
  pose proof (o_at _ _ _ O) as Hat. unfold at_ok in Hat. simpl in Hat.
  destruct Hpc as [->|(r&[->| ->])].
  - destruct ch as [|r ch]; simplify_eq; (eapply inv_goto; [exact I|exact Et| |keep]).
    all: eapply thread_goto; [exact O|done|exact (o_nodup _ _ _ O)|done|done|done|by intros x [Hx|Hx]; [left|]|].
    + done.
    + split; [done|]. simpl. set_solver.
  - unfold get_rec in H. destruct (recs s !! r) as [c|] eqn:Er; [|done]. simpl in H. simplify_eq.
    destruct Hat as [-> Hr]. destruct (o_hold _ _ _ O r) as (c0&ct&E0&Eb&Ep&_); [done|]. simplify_eq.
    eapply inv_touch; [exact I|exact Et|exact Er| |done|done|by left| |keep].
    + eapply evolves_put; [exact Er|done..|by left].
    + destruct O as [Htid Hh Hnd Hown Hm Hl _]. destruct (without_nodup r ch Hnd) as [Hnd' Hn]. split; try done.
      * intros x Hx. simpl in *. assert (x ∈ holds (Thread ch 0 (ProcParent r))) as Hx' by (eapply without_sub; exact Hx).
        destruct (Hh x Hx') as (c0&ct0&E0&Eb0&Ep0&[Hp|Hp]); [|done]. exists c0, ct0.
        rewrite lookup_insert_ne; [by auto|]. intros <-. done.
      * intros x c0 [Hx|Hx] E0; [|done]. simpl in *. rewrite lookup_insert_ne in E0 by (intros <-; done).
        eapply Hl; [left; by eapply without_sub|done].
      * split; [done|]. split; [by eexists|]. simpl. rewrite lookup_insert_eq. by intros ? [= <-].
  - unfold free, get_rec in H. destruct (recs s !! r) as [c|] eqn:Er; [|done]. simpl in H.
    destruct Hat as [-> [_ Hn]]. specialize (Hn _ Er).
    assert (thread_ok s t (Thread ch 0 ProcExit)) as O'.
    { eapply thread_goto; [exact O|done|exact (o_nodup _ _ _ O)|done|done|done| |done].
      intros x [Hx|Hx]; [by left|done]. }
    destruct (exited c); simplify_eq.
    + eapply inv_free; [exact I|exact Et|exact Er|by right| |intros x Hx _; revert x Hx; keep].
      apply thread_drop; [done|]. exact (orphan_not_held _ _ _ _ _ O' Er Hn).
    + eapply inv_goto; [exact I|exact Et|done|keep].
Qed.

(** *** A new process *)

Lemma no_rec s r : inv s → next_rec s ≤ r → born s !! r = None ∧ recs s !! r = None.
Proof.
  intros I Hr. assert (born s !! r = None) as Hb.
  { destruct (born s !! r) as [[ct pt]|] eqn:E; [|done]. destruct (i_born _ I _ _ _ E). lia. }
  split; [done|]. destruct (recs s !! r) as [c|] eqn:E; [|done].
  destruct (i_rec _ I _ _ E) as (ct&pt&E'&_). congruence.
Qed.

Lemma exec_evolves s t th : inv s → evolves t s (process_execute s t th true).
Proof.
  intros I. destruct (no_rec s (next_rec s) I) as [Hb Hr]; [lia|]. split; simpl; try done; [by apply insert_subseteq|lia| |].
  - intros x c E _ _. exists c. rewrite lookup_insert_ne by congruence. auto.
  - intros x c' [b Eb] E'. rewrite lookup_insert_ne in E' by congruence. exists c'. auto.
Qed.

Lemma exec_rec s t th r c : inv s → threads s !! t = Some th → where_ th = Run →
  recs s !! r = Some c → rec_ok (process_execute s t th true) r c.
Proof.
  intros I Et Hpc Er. destruct (i_rec _ I _ _ Er) as (ct&pt&Eb&H0&Hst&Hse&Hld&Hsi).
  destruct (no_rec s (next_rec s) I) as [Hb' _]; [lia|].
  assert (∀ x y, threads s !! x = Some y → x ≠ next_tid s) as Hold
    by (intros x y E; pose proof (o_tid _ _ _ (i_thread _ I _ _ E)); lia).
  exists ct, pt. unfold attached, signalled. simpl. rewrite lookup_insert_ne by congruence. repeat (split; [done|]). split.
  - intros Hl. destruct (Hld Hl) as [He|(cth&Ec&Em)]; [by left|right].
    rewrite lookup_insert_ne by (symmetry; by eapply Hold). destruct (decide (ct = t)) as [->|Hn].
    + rewrite lookup_insert_eq. simplify_eq. by eexists.
    + rewrite lookup_insert_ne by done. by eexists.
  - intros He. destruct (Hsi He) as [Hw|[(cth&Ec&Em&Hu)|(y&Ey&Hr)]]; [by left|right; left|right; right].
    + exists cth. rewrite lookup_insert_ne by (symmetry; by eapply Hold). rewrite lookup_insert_ne; [done|].
      intros <-. simplify_eq. by rewrite Hpc in Hu.
    + exists y. rewrite lookup_insert_ne by (symmetry; by eapply Hold). rewrite lookup_insert_ne; [done|].
      intros <-. simplify_eq. rewrite Hpc in Hr. by destruct Hr as [?|[? ?]].
Qed.

Lemma exec_caller s t th : inv s → threads s !! t = Some th → where_ th = Run →
  thread_ok (process_execute s t th true) t (Thread (children th) (my_record th) (ExecPid (next_rec s) (next_tid s))).
Proof.
  intros I Et Hpc. destruct (i_thread _ I _ _ Et) as [Htid Hh Hnd Hown Hm Hl Hat].
  destruct th as [ch mine l]. simpl in *. subst l. destruct (no_rec s (next_rec s) I) as [Hb Hr]; [lia|].
  assert (∀ x, x ∈ ch → recs s !! x ≠ None) as Hin by (intros x Hx; destruct (Hh x Hx) as (c&?&E&_); by rewrite E).
  split; simpl; try done.
  - lia.
  - intros x. unfold holds. simpl. rewrite elem_of_cons. intros [->|Hx].
    + rewrite !lookup_insert_eq. eexists _, _. split; [done|]. split; [done|]. split; [done|by right].
    + destruct (Hh x Hx) as (c&ct&E&Eb&Ep&[Hp|Hp]); [|done].
      rewrite !lookup_insert_ne by congruence. eauto 10.
  - constructor; [|done]. intros Hx. by destruct (Hin _ Hx).
  - intros Hr'. destruct (Hown Hr') as (pt&E). exists pt. unfold record_of in *. simpl in *.
    by rewrite lookup_insert_ne by congruence.
  - intros x c [Hx|Hx] E; [|done]. rewrite lookup_insert_ne in E by (intros <-; by destruct (Hin _ Hx)). eauto.
  - split; [exact Hat|]. simpl. by rewrite lookup_insert_eq.
Qed.

Lemma not_ended s : inv s → ended s !! next_tid s = None.
Proof.
  intros I. destruct (ended s !! next_tid s) eqn:E; [|done].
  destruct (i_ended _ I (next_tid s)) as [y Ey]; [by eexists|]. pose proof (o_tid _ _ _ (i_thread _ I _ _ Ey)). lia.
Qed.
Lemma exec_child s t th : inv s →
  thread_ok (process_execute s t th true) (next_tid s) (Thread [] 0 (StartLoad (next_rec s))).
Proof.
  intros I. pose proof (i_next _ I). pose proof (not_ended s I) as He.
  split; simpl; try done.
  - lia.
  - unfold holds. simpl. set_solver.
  - apply NoDup_nil_2.
  - intros _. exists t. unfold record_of. simpl. by rewrite lookup_insert_eq.
  - intros x c [Hx|Hx]; [set_solver|done].
  - split; [done|]. split; [|done]. split; [exists t; simpl; by rewrite lookup_insert_eq|].
    simpl. rewrite lookup_insert_eq. by intros ? [= <-].
Qed.

Lemma exec_call s t th memory : inv s → threads s !! t = Some th → where_ th = Run →
  inv (process_execute s t th memory).
Proof.
  intros I Et Hpc. destruct memory; [|done]. pose proof (exec_evolves s t th I) as V.
  destruct (no_rec s (next_rec s) I) as [Hb Hr]; [lia|]. pose proof (i_next _ I).
  assert (∀ x y, threads s !! x = Some y → x ≠ next_tid s) as Hold
    by (intros x y E; pose proof (o_tid _ _ _ (i_thread _ I _ _ E)); lia).
  assert (∀ x, is_Some (threads s !! x) → is_Some (threads (process_execute s t th true) !! x)) as Hkeep
    by (intros x Hx; simpl; rewrite !lookup_insert_is_Some'; auto).
  split.
  - intros t0 th0 E0. simpl in E0. apply lookup_insert_Some in E0 as [[<- <-]|[_ E0]]; [by apply exec_child|].
    apply lookup_insert_Some in E0 as [[<- <-]|[Hn E0]]; [by apply exec_caller|].
    eapply thread_frame; [exact V|done|by apply I].
  - intros r c E. simpl in E. apply lookup_insert_Some in E as [[<- <-]|[_ E]]; [|by eapply exec_rec].
    exists (next_tid s), t. simpl. rewrite lookup_insert_eq. rewrite (not_ended s I).
    split; [done|]. split; [lia|]. split; [done|]. split; [lia|]. split; [done|]. by intros [? ?].
  - simpl. lia.
  - intros r ct pt E. simpl in E. apply lookup_insert_Some in E as [[<- [= <- <-]]|[_ E]].
    + simpl. rewrite lookup_insert_is_Some'. split; [lia|by left].
    + destruct (i_born _ I _ _ _ E). split; [simpl; lia|by apply Hkeep].
  - intros r1 r2 ct p1 p2 E1 E2. simpl in *.
    assert (∀ r p, born s !! r ≠ Some (next_tid s, p)) as Hnew.
    { intros r p E. destruct (i_born _ I _ _ _ E) as [_ [y Ey]]. by destruct (Hold _ _ Ey). }
    apply lookup_insert_Some in E1 as [[<- E1]|[_ E1]], E2 as [[<- E2]|[_ E2]]; simplify_eq; try done.
    + by destruct (Hnew _ _ E2).
    + by destruct (Hnew _ _ E1).
    + by eapply (i_inj _ I).
  - intros t0 He. apply Hkeep. by apply I.
  - exact (λ p0 p v, ans_frame t s _ p0 p v I V).
  - apply I.
Qed.

(** ** The theorem *)

Lemma inv_boot : inv boot.
Proof.
  split; simpl; try done; try (by intros ? ? H; rewrite lookup_empty in H); try set_solver.
  - intros t th [<- <-]%lookup_singleton_Some. split; simpl; try done; try set_solver. apply NoDup_nil_2.
  - intros t [? H]. by rewrite lookup_empty in H.
  - apply NoDup_nil_2.
Qed.

Lemma inv_event s e s' : inv s → step s e = Some (Ok s') → inv s'.
Proof.
  intros I H. unfold step in H. destruct (threads s !! thread_of e) as [th|] eqn:Et; [|done]. simpl in H.
  destruct e as [t c|t b]; simpl in *.
  - destruct (where_ th) eqn:Hpc; try done. destruct c; simplify_eq.
    + by apply exec_call.
    + by eapply wait_call.
    + by apply exit_call.
  - destruct (where_ th) eqn:Hpc; try (unfold advance in H; by rewrite Hpc in H).
    all: first [by eapply exec_steps; eauto 10|by eapply start_steps; eauto 10|by eapply wait_steps; eauto 10
      |by eapply exit_steps; eauto 10|by eapply proc_steps; eauto 10].
Qed.

Lemma wait_inv s : reachable s → inv s.
Proof. induction 1; [exact inv_boot|by eapply inv_event]. Qed.

Lemma get_child_ok s l p : (∀ r, r ∈ l → is_Some (recs s !! r)) → get_child s l p ≠ Panic.
Proof.
  induction l as [|r l IH]; simpl; [done|]. intros Hl. destruct (Hl r) as [c Ec]; [set_solver|].
  unfold get_rec. rewrite Ec. simpl. destruct (pid c =? p); [done|]. apply IH. set_solver.
Qed.


Lemma runs_reachable l : ∀ s s', reachable s → runs s l = Some (Ok s') → reachable s'.
Proof.
  induction l as [|e l IH]; intros s s' Hs H; simpl in H; [by simplify_eq|].
  destruct (step s e) as [[s1| |]|] eqn:E; try done. eapply IH; [|done]. by eapply reach_step.
Qed.
Definition demo_wait : list event :=
  started ++ [Call 2 (CExit 7); Go 2 true; Go 2 true; Go 2 true; Go 2 true; Go 2 true;
    Call 1 (CWait 2); Go 1 true; Go 1 true; Go 1 true].

End Wait.
