(* ===== verification/Syscall.v ===== *)
(** * System calls

    [userprog/syscall.c]: the handler takes the number and the arguments of a call from the
    stack of the process, checks the addresses that the process passes, and calls the file
    system, the virtual memory system or the process manager.  A call runs without
    interference by other threads; [process_execute] and [process_wait] block, so the model
    of the handler ends where it calls them, and [Wait] goes on from there. *)

From Stdlib Require Import String.
From S2P Require Import Prelude Bitmap Strings Stdio Vaddr Palloc Disk Inode Directory Pagedir Vm Process Wait.

Module Syscall.
Import Bitmap Palloc Disk Inode Directory Pagedir Vm Process.

(** ** The state and its monad *)

(** The console, the keys that will be typed, the name of the running thread, and the
    records of children. *)
Record kst := Kst {
  kv : vm;
  console : list Z;
  keys : nat → Z;
  taken : nat;
  kname : list Z;
  kids : Wait.state
}.
Definition set_kv (s : kst) (v : vm) : kst := Kst v (console s) (keys s) (taken s) (kname s) (kids s).

(** A system call returns to the process, ends the process, switches the machine off, or
    ends in a call of [process_execute] or [process_wait]. *)
Inductive outcome (A : Type) :=
  | Ret (x : A)
  | Exit (status : Z)
  | Halt
  | Execute (cmd_line : list Z)
  | Await (pid : Z).
Arguments Ret {A} x.
Arguments Exit {A} status.
Arguments Halt {A}.
Arguments Execute {A} cmd_line.
Arguments Await {A} pid.
Definition sc (A : Type) : Type := kst → res (outcome A * kst).
#[export] Instance sc_ret : MRet sc := λ A x s, Ok (Ret x, s).
#[export] Instance sc_bind : MBind sc := λ A B k m s,
  '(o, s) ← m s;
  match o with
  | Ret x => k x s
  | Exit st => Ok (Exit st, s)
  | Halt => Ok (Halt, s)
  | Execute l => Ok (Execute l, s)
  | Await p => Ok (Await p, s)
  end.
Definition quit {A} (o : outcome A) : sc A := λ s, Ok (o, s).
(** The bound of a loop was too small. *)
Definition no_fuel {A} : sc A := λ _, Fuel.
Definition lift {A} (m : vm → res (A * vm)) : sc A := λ s, '(x, v) ← m (kv s); Ok (Ret x, set_kv s v).
Definition run (m : vm → res vm) : sc () := λ s, v ← m (kv s); Ok (Ret (), set_kv s v).
Definition ask {A} (m : vm → res A) : sc A := λ s, x ← m (kv s); Ok (Ret x, s).
(** An operation on the file system. *)
Definition fsys_op {A} (m : fs → res (A * fs)) : sc A := lift (λ v, '(x, f) ← m (sys v); Ok (x, set_sys v f)).
Definition fsys_do (m : fs → res fs) : sc () := run (λ v, f ← m (sys v); Ok (set_sys v f)).

(** ** File descriptors *)

Definition FD_MAX : Z := 128.

Definition put_fds (v : vm) (t : Z) (l : list Z) : vm :=
  upd_proc v t (λ p, Proc (pagedir p) (ptable p) (mmap_list p) (esp_on_syscall p) l (executable p)).

Definition fd_get (fd : Z) : sc Z :=
  if (fd <? 2) || (FD_MAX <=? fd) then mret 0 else
  ask (λ v, p ← get_proc v (cur v); from_opt (file_descriptors p !! Z.to_nat fd)).
Definition fd_detach (fd : Z) : sc Z :=
  if (fd <? 2) || (FD_MAX <=? fd) then mret 0 else
  lift (λ v,
    p ← get_proc v (cur v);
    f ← from_opt (file_descriptors p !! Z.to_nat fd);
    Ok (f, put_fds v (cur v) (<[Z.to_nat fd := 0]> (file_descriptors p)))).

(** The loop of [fd_close_all] from [i] on. *)
Fixpoint close_loop (n : nat) (v : vm) (i : nat) : res vm :=
  match n with
  | O => Ok v
  | S n =>
      p ← get_proc v (cur v);
      f ← from_opt (file_descriptors p !! i);
      v ← (if negb (f =? 0) then
             s ← file_close (sys v) f;
             Ok (put_fds (set_sys v s) (cur v) (<[i := 0]> (file_descriptors p)))
           else Ok v);
      close_loop n v (S i)
  end.
Definition fd_close_all : sc () := run (λ v, close_loop (Z.to_nat (FD_MAX - 2)) v 2).

(** ** Ending a process *)

(** The steps of thread [t] in [Wait] until it is dead. *)
Fixpoint finish (n : nat) (s : Wait.state) (t : Z) : res Wait.state :=
  match n with
  | O => Fuel
  | S n =>
      th ← from_opt (Wait.threads s !! t);
      match Wait.where_ th with
      | Wait.Dead => Ok s
      | _ =>
          match Wait.advance s t th false with
          | Some r => s ← r; finish n s t
          | None => Panic
          end
      end
  end.
(** The part of [sys_exit] and of [process_exit] on the records: at most six statements, and
    three for each child. *)
Definition report_exit (status : Z) : sc () := λ s,
  let t := cur (kv s) in
  th ← from_opt (Wait.threads (kids s) !! t);
  k ← finish (8 + 3 * length (Wait.children th)) (Wait.sys_exit (kids s) t th status) t;
  Ok (Ret (), Kst (kv s) (console s) (keys s) (taken s) (kname s) k).
(** [printf ("%s: exit(%d)\n", cur_thread->name, status)] *)
Definition print_exit (status : Z) : sc () := λ s,
  '(l, _) ← Stdio.printf (S (length (kname s))) (Stdio.place 1 (kname s)) (console s)
              (Stdio.chars "%s: exit(%d)" ++ [10]) [1; u32 status];
  Ok (Ret (), Kst (kv s) l (keys s) (taken s) (kname s) (kids s)).

(** [order] is the order in which [hash_destroy] visits the pages. *)
Section order.
Context (order : list Z).

Definition sys_exit {A} (status : Z) : sc A :=
  _ ← print_exit status;
  _ ← fd_close_all;
  exe ← ask (λ v, p ← get_proc v (cur v); Ok (executable p));
  _ ← (if negb (exe =? 0) then
         _ ← fsys_do (λ f, file_allow_write f exe);
         _ ← fsys_do (λ f, file_close f exe);
         run (λ v, Ok (put_executable v (cur v) 0))
       else mret ());
  _ ← report_exit status;
  _ ← run (λ v, process_exit v order);
  quit (Exit status).
Definition sys_halt {A} : sc A := quit Halt.

(** ** User memory *)

(** The kernel reads user memory: a fault that is not resolved panics. *)
Definition kload (v : vm) (va : Z) : res (Z * vm) :=
  '(b, v) ← user_load v va false 0;
  match b with Some b => Ok (b, v) | None => Panic end.
Fixpoint kloads (n : nat) (v : vm) (va : Z) : res (list Z * vm) :=
  match n with
  | O => Ok ([], v)
  | S n => '(b, v) ← kload v va; '(l, v) ← kloads n v (va + 1); Ok (b :: l, v)
  end.

Definition valid_uaddr (v : vm) (uaddr : Z) (writable : bool) : res bool :=
  if (uaddr =? 0) || negb (is_user_vaddr uaddr) then Ok false else
  p ← get_proc v (cur v);
  entry ← spt_get_entry v (cur v) (pg_round_down uaddr);
  match entry with
  | Some e => if writable && negb (Vm.writable e) then Ok false else Ok true
  | None =>
      let esp := esp_on_syscall p in
      if (PHYS_BASE - 8 * 1024 * 1024 <=? uaddr) && (uaddr <? PHYS_BASE) then
        if u32 (esp - 32) <=? uaddr then
          e ← spt_get_entry v (cur v) (pg_round_down esp);
          Ok (match e with Some _ => true | None => false end)
        else Ok false
      else Ok false
  end.
Definition uaddr_check (u : Z) : sc () :=
  ok ← ask (λ v, valid_uaddr v u false);
  if (ok : bool) then mret () else sys_exit (-1).

Definition valid_urange (v : vm) (uaddr size : Z) (writable : bool) : res bool :=
  if uaddr =? 0 then Ok false else
  if size =? 0 then Ok true else
  ok ← valid_uaddr v uaddr writable;
  if negb ok then Ok false else
  ok ← valid_uaddr v (u32 (uaddr + size - 1)) writable;
  if negb ok then Ok false else
  Ok true.

(** [copy_in] returns what it has read. *)
Definition copy_in (usrc n : Z) : sc (option (list Z)) :=
  lift (λ v,
    ok ← valid_urange v usrc n false;
    if negb ok then Ok (None, v) else
    '(l, v) ← kloads (Z.to_nat n) v usrc;
    Ok (Some l, v)).
Definition copy_out (udst : Z) (src : list Z) : sc bool :=
  lift (λ v,
    ok ← valid_urange v udst (Zlength src) true;
    if negb ok then Ok (false, v) else
    v ← kstores v udst src;
    Ok (true, v)).

(** The loop of [copy_in_cstr]: -1 for an invalid address, -2 for a string that does not
    end, or its length, and the bytes. *)
Fixpoint cstr_loop (n : nat) (v : vm) (ustr i : Z) (kbuf : list Z) : res (Z * list Z * vm) :=
  match n with
  | O => Ok (-2, kbuf, v)
  | S n =>
      ok ← valid_uaddr v (u32 (ustr + i)) false;
      if negb ok then Ok (-1, kbuf, v) else
      '(c, v) ← kload v (u32 (ustr + i));
      if c =? 0 then Ok (i, kbuf, v) else
      cstr_loop n v ustr (i + 1) (kbuf ++ [c])
  end.
Definition copy_in_cstr (ustr cap : Z) : sc (Z * list Z) :=
  lift (λ v,
    ok ← valid_uaddr v ustr false;
    if negb ok then Ok (-1, [], v) else
    '(n, kbuf, v) ← cstr_loop (Z.to_nat cap) v ustr 0 [];
    Ok (n, kbuf, v)).

(** Argument [i] of the call; [esp] is the stack pointer of the interrupt frame. *)
Definition uarg (esp i : Z) : sc Z :=
  let p := u32 (esp + 4 * i) in
  if (p =? 0) || negb (is_user_vaddr p) then sys_exit (-1) else
  if negb (is_user_vaddr (u32 (p + 3))) then sys_exit (-1) else
  lift (λ v, '(l, v) ← kloads 4 v p; Ok (le_value l, v)).
Definition uarg_ptr (esp i : Z) : sc Z :=
  raw ← uarg esp i;
  if (raw =? 0) && negb (is_user_vaddr raw) then sys_exit (-1) else mret raw.
Definition uarg_cstr (esp i : Z) : sc Z := uarg_ptr esp i.

Fixpoint pin_loop (n : nat) (v : vm) (page end_ : Z) : res vm :=
  match n with
  | O => Fuel
  | S n =>
      if page <=? end_ then
        p ← get_proc v (cur v);
        k ← pagedir_get_page (mach v) (pagedir p) page;
        '(k, v) ← (if k =? 0 then
            '(ok, v) ← spt_load_page v (cur v) page;
            if (ok : bool) then
              p ← get_proc v (cur v); k ← pagedir_get_page (mach v) (pagedir p) page; Ok (k, v)
            else Ok (0, v)
          else Ok (k, v));
        v ← (if negb (k =? 0) then frame_pin v k else Ok v);
        pin_loop n v (u32 (page + PGSIZE)) end_
      else Ok v
  end.
Fixpoint unpin_loop (n : nat) (v : vm) (page end_ : Z) : res vm :=
  match n with
  | O => Fuel
  | S n =>
      if page <=? end_ then
        p ← get_proc v (cur v);
        k ← pagedir_get_page (mach v) (pagedir p) page;
        v ← (if negb (k =? 0) then frame_unpin v k else Ok v);
        unpin_loop n v (u32 (page + PGSIZE)) end_
      else Ok v
  end.
(** The turns of the loops: one for each page of the buffer, and the last test. *)
Definition buffer_pages (buffer size : Z) : nat :=
  S (Z.to_nat ((pg_round_down (u32 (buffer + size - 1)) - pg_round_down buffer) / PGSIZE + 1)).
Definition pin_buffer (buffer size : Z) : sc () :=
  if size =? 0 then mret () else
  run (λ v, pin_loop (buffer_pages buffer size) v (pg_round_down buffer) (pg_round_down (u32 (buffer + size - 1)))).
Definition unpin_buffer (buffer size : Z) : sc () :=
  if size =? 0 then mret () else
  run (λ v, unpin_loop (buffer_pages buffer size) v (pg_round_down buffer) (pg_round_down (u32 (buffer + size - 1)))).

(** ** Reading and writing *)

Definition CHUNK : Z := 512.

Definition input_getc : sc Z := λ s, Ok (Ret (u8 (keys s (taken s))), Kst (kv s) (console s) (keys s) (S (taken s)) (kname s) (kids s)).
Definition putbuf (l : list Z) : sc () := λ s, Ok (Ret (), Kst (kv s) (console s ++ l) (keys s) (taken s) (kname s) (kids s)).

(** The loop over keys. *)
Fixpoint key_loop (n : nat) (ubuf size i : Z) : sc Z :=
  match n with
  | O => mret i
  | S n =>
      c ← input_getc;
      ok ← copy_out (u32 (ubuf + i)) [c];
      if negb ok then _ ← unpin_buffer ubuf size; sys_exit (-1) else
      key_loop n ubuf size (i + 1)
  end.
(** The loop over a file; [total] bytes have been read. *)
Fixpoint read_loop (n : nat) (f ubuf size total : Z) : sc Z :=
  match n with
  | O => no_fuel
  | S n =>
      if total <? size then
        let want := if CHUNK <? size - total then CHUNK else size - total in
        buf ← fsys_op (λ s, file_read s f want);
        if Zlength buf =? 0 then mret total else
        ok ← copy_out (u32 (ubuf + total)) buf;
        if negb ok then _ ← unpin_buffer ubuf size; sys_exit (-1) else
        read_loop n f ubuf size (total + Zlength buf)
      else mret total
  end.
Definition sys_read (fd ubuf size : Z) : sc Z :=
  if size =? 0 then mret 0 else
  if fd =? 1 then mret (-1) else
  ok ← ask (λ v, valid_urange v ubuf size true);
  if negb ok then sys_exit (-1) else
  _ ← pin_buffer ubuf size;
  if fd =? 0 then
    n ← key_loop (Z.to_nat size) ubuf size 0;
    _ ← unpin_buffer ubuf size;
    mret (s32 n)
  else
  f ← fd_get fd;
  if f =? 0 then _ ← unpin_buffer ubuf size; mret (-1) else
  total ← read_loop (S (Z.to_nat size)) f ubuf size 0;
  _ ← unpin_buffer ubuf size;
  mret (s32 total).

Fixpoint console_loop (n : nat) (ubuf size done : Z) : sc Z :=
  match n with
  | O => no_fuel
  | S n =>
      if done <? size then
        let k := if CHUNK <? size - done then CHUNK else size - done in
        l ← copy_in (u32 (ubuf + done)) k;
        match l with
        | None => _ ← unpin_buffer ubuf size; sys_exit (-1)
        | Some l => _ ← putbuf l; console_loop n ubuf size (done + k)
        end
      else mret done
  end.
Fixpoint write_loop (n : nat) (f ubuf size total : Z) : sc Z :=
  match n with
  | O => no_fuel
  | S n =>
      if total <? size then
        let want := if CHUNK <? size - total then CHUNK else size - total in
        l ← copy_in (u32 (ubuf + total)) want;
        match l with
        | None => _ ← unpin_buffer ubuf size; sys_exit (-1)
        | Some kbuf =>
            k ← fsys_op (λ s, file_write s f kbuf want);
            if k <? 0 then mret (-1) else
            if k =? 0 then mret total else
            write_loop n f ubuf size (total + k)
        end
      else mret total
  end.
Definition sys_write (fd ubuf size : Z) : sc Z :=
  if size =? 0 then mret 0 else
  ok ← ask (λ v, valid_urange v ubuf size false);
  if negb ok then sys_exit (-1) else
  if fd =? 0 then mret (-1) else
  _ ← pin_buffer ubuf size;
  if fd =? 1 then
    n ← console_loop (S (Z.to_nat size)) ubuf size 0;
    _ ← unpin_buffer ubuf size;
    mret (s32 n)
  else
  f ← fd_get fd;
  if f =? 0 then _ ← unpin_buffer ubuf size; mret (-1) else
  total ← write_loop (S (Z.to_nat size)) f ubuf size 0;
  _ ← unpin_buffer ubuf size;
  mret (s32 total).

(** ** Files *)

Definition bool_z (b : bool) : Z := if b then 1 else 0.

(** [junk] is what the directory entry of [dir_add] holds on the stack. *)
Definition sys_create (junk : list Z) (u_file initial_size : Z) : sc Z :=
  if u_file =? 0 then sys_exit (-1) else
  '(len, kname) ← copy_in_cstr u_file (NAME_MAX + 1);
  if len =? -1 then sys_exit (-1) else
  if len =? -2 then mret 0 else
  if len =? 0 then mret 0 else
  ok ← fsys_op (λ s, filesys_create s kname (s32 initial_size) junk);
  mret (bool_z ok).
Definition sys_remove (u_file : Z) : sc Z :=
  if u_file =? 0 then sys_exit (-1) else
  '(len, kname) ← copy_in_cstr u_file 256;
  if len =? -1 then sys_exit (-1) else
  if len =? -2 then mret 0 else
  if len =? 0 then mret 0 else
  ok ← fsys_op (λ s, filesys_remove s kname);
  mret (bool_z ok).

(** The first free descriptor from [fd] on. *)
Fixpoint free_fd (l : list Z) (fd : nat) : option nat :=
  match l with
  | [] => None
  | f :: l => if f =? 0 then Some fd else free_fd l (S fd)
  end.
Definition sys_open (u_file : Z) : sc Z :=
  if u_file =? 0 then sys_exit (-1) else
  '(len, kname) ← copy_in_cstr u_file 256;
  if len =? -1 then sys_exit (-1) else
  if len =? -2 then mret (-1) else
  if len =? 0 then mret (-1) else
  f ← fsys_op (λ s, filesys_open s kname);
  if f =? 0 then mret (-1) else
  fds ← ask (λ v, p ← get_proc v (cur v); Ok (file_descriptors p));
  match free_fd (drop 2 fds) 2 with
  | Some fd =>
      _ ← run (λ v, Ok (put_fds v (cur v) (<[fd := f]> fds)));
      mret (Z.of_nat fd)
  | None => _ ← fsys_do (λ s, file_close s f); mret (-1)
  end.
Definition sys_close (fd : Z) : sc () :=
  if (fd =? 0) || (fd =? 1) then mret () else
  f ← fd_detach fd;
  if f =? 0 then mret () else
  fsys_do (λ s, file_close s f).
Definition sys_filesize (fd : Z) : sc Z :=
  if fd <=? 1 then mret (-1) else
  f ← fd_get fd;
  if f =? 0 then mret (-1) else
  ask (λ v, file_length (sys v) f).
Definition sys_seek (fd position : Z) : sc () :=
  f ← fd_get fd;
  if f =? 0 then mret () else
  fsys_do (λ s, file_seek s f (s32 position)).
Definition sys_tell (fd : Z) : sc Z :=
  if fd <=? 1 then mret 0 else
  f ← fd_get fd;
  if f =? 0 then mret 0 else
  n ← ask (λ v, file_tell (sys v) f);
  mret (u32 n).

(** ** Mappings *)

(** Some page of the range is in use already. *)
Fixpoint range_used (n : nat) (v : vm) (page : Z) : res bool :=
  match n with
  | O => Ok false
  | S n =>
      p ← get_proc v (cur v);
      k ← pagedir_get_page (mach v) (pagedir p) page;
      if negb (k =? 0) then Ok true else
      e ← spt_get_entry v (cur v) page;
      match e with
      | Some _ => Ok true
      | None => range_used n v (u32 (page + PGSIZE))
      end
  end.
Definition sys_mmap (fd addr : Z) : sc Z :=
  if (addr =? 0) || negb (pg_ofs addr =? 0) then mret (-1) else
  if (fd =? 0) || (fd =? 1) then mret (-1) else
  if negb (is_user_vaddr addr) then mret (-1) else
  f ← fd_get fd;
  if f =? 0 then mret (-1) else
  length ← ask (λ v, file_length (sys v) f);
  if length =? 0 then mret (-1) else
  let page_count := u32 (Z.quot (s32 (length + PGSIZE - 1)) PGSIZE) in
  used ← ask (λ v, range_used (Z.to_nat page_count) v addr);
  if (used : bool) then mret (-1) else
  file_copy ← fsys_op (λ s, file_reopen s f);
  if file_copy =? 0 then mret (-1) else
  mapid ← lift (λ v, mmap_map v addr file_copy 0 length);
  if mapid =? -1 then _ ← fsys_do (λ s, file_close s file_copy); mret mapid
  else mret mapid.
Definition sys_munmap (mapid : Z) : sc () :=
  if mapid <? 0 then mret () else run (λ v, mmap_unmap v mapid).

(** ** The handler *)

Definition sys_exec (cmd_line : Z) : sc Z :=
  _ ← uaddr_check cmd_line;
  '(len, kcmd_line) ← copy_in_cstr cmd_line 256;
  if len <? 0 then sys_exit (-1) else
  if len =? 0 then mret (-1) else
  quit (Execute kcmd_line).
Definition sys_wait (pid : Z) : sc Z := quit (Await pid).

Definition put_esp (v : vm) (t esp : Z) : vm :=
  upd_proc v t (λ p, Proc (pagedir p) (ptable p) (mmap_list p) esp (file_descriptors p) (executable p)).

(** The value is stored in [eax], if the call has one. *)
Definition syscall_handler (junk : list Z) (esp : Z) : sc (option Z) :=
  _ ← run (λ v, Ok (put_esp v (cur v) esp));
  _ ← uaddr_check esp;
  no ← uarg esp 0;

  let eax (m : sc Z) : sc (option Z) := x ← m; mret (Some (u32 x)) in
  let none (m : sc ()) : sc (option Z) := _ ← m; mret None in
  if no =? 0 then sys_halt
  else if no =? 1 then st ← uarg esp 1; sys_exit (s32 st)
  else if no =? 2 then cmd ← uarg_cstr esp 1; eax (sys_exec cmd)
  else if no =? 3 then pid ← uarg esp 1; eax (sys_wait (s32 pid))
  else if no =? 4 then name ← uarg_cstr esp 1; initial ← uarg esp 2; eax (sys_create junk name initial)
  else if no =? 5 then name ← uarg_cstr esp 1; eax (sys_remove name)
  else if no =? 6 then name ← uarg_cstr esp 1; eax (sys_open name)
  else if no =? 7 then fd ← uarg esp 1; eax (sys_filesize (s32 fd))
  else if no =? 8 then fd ← uarg esp 1; ubuf ← uarg_ptr esp 2; size ← uarg esp 3; eax (sys_read (s32 fd) ubuf size)
  else if no =? 9 then fd ← uarg esp 1; ubuf ← uarg_ptr esp 2; size ← uarg esp 3; eax (sys_write (s32 fd) ubuf size)
  else if no =? 10 then fd ← uarg esp 1; position ← uarg esp 2; none (sys_seek (s32 fd) position)
  else if no =? 11 then fd ← uarg esp 1; eax (sys_tell (s32 fd))
  else if no =? 12 then fd ← uarg esp 1; none (sys_close (s32 fd))
  else if no =? 13 then fd ← uarg esp 1; addr ← uarg_ptr esp 2; eax (sys_mmap (s32 fd) addr)
  else if no =? 14 then mapid ← uarg esp 1; none (sys_munmap (s32 mapid))
  else sys_exit (-1).

End order.

End Syscall.
