(* ===== verification/SysMem.v ===== *)
(** * The kernel and the memory of processes

    What [copy_in], [copy_out], [pin_buffer] and the checks of addresses in
    [userprog/syscall.c] do when the pages concerned are in memory. *)

From S2P Require Import Prelude Bitmap Strings Vaddr Palloc Disk Inode FsSpec Pagedir Vm VmInv VmData VmLoad VmUser.
From S2P Require Import Process ProcArgs ProcLoad Wait Syscall.

Module SysMem.
Import Bitmap Palloc Disk Inode FsSpec Pagedir Vm VmInv VmData VmLoad VmUser Process ProcArgs ProcLoad Syscall.

(** ** Bytes *)

Lemma same_page_ofs x y : 0 ≤ x < PHYS_BASE → 0 ≤ y < PHYS_BASE → pg_round_down x = pg_round_down y → x ≠ y →
  Z.to_nat (pg_ofs x) ≠ Z.to_nat (pg_ofs y).
Proof.
  intros Hx Hy E Hne. unfold PHYS_BASE in *. rewrite !pg_round_down_spec in E by lia. rewrite !pg_ofs_mod.
  pose proof (Z.mod_pos_bound x PGSIZE ltac:(done)). pose proof (Z.mod_pos_bound y PGSIZE ltac:(done)). lia.
Qed.

(** The byte is in memory, and may be written if [wr]. *)
Definition resident (v : vm) (a : afs) (wr : bool) (x : Z) : Prop :=
  is_Some (ubyte v a x) ∧ ∃ e, entry_at v (cur v) (pg_round_down x) = Some e ∧ loaded e = true ∧ (wr → writable e = true).

Lemma kstore_byte v D a va b :
  vm_inv v D a → 0 ≤ va < PHYS_BASE → resident v a true va →
  ∃ v', kstore v va b = Ok v' ∧ vm_inv v' D a ∧ only_memory v v' ∧ ubyte v' a va = Some b
    ∧ (∀ x, 0 ≤ x < PHYS_BASE → x ≠ va → ubyte v' a x = ubyte v a x)
    ∧ (∀ t u, t ≠ cur v → contents v' a t u = contents v a t u).
Proof.
  intros H Hva [[b0 Hb0] (e & He & Hl & Hw)].
  destruct (kstore_loaded v D a va b e H Hva He Hl (Hw I)) as (v' & E & HI & O & HC & HO).
  exists v'. split; [exact E|]. split; [exact HI|]. split; [exact O|].
  unfold ubyte in *. rewrite (om_cur _ _ O). split; [|split].
  - rewrite HC. destruct (contents v a (cur v) (pg_round_down va)) as [l|]; [|done]. cbn [fmap option_fmap option_map mbind option_bind] in *.
    apply list_lookup_insert_eq. by apply lookup_lt_Some in Hb0.
  - intros x Hx Hne. destruct (decide (pg_round_down x = pg_round_down va)) as [Ep|Ep].
    + rewrite Ep, HC. destruct (contents v a (cur v) (pg_round_down va)) as [l|]; [|done]. cbn [fmap option_fmap option_map mbind option_bind].
      apply list_lookup_insert_ne. apply same_page_ofs; auto.
    + by rewrite HO by congruence.
  - intros t u Ht. apply HO. congruence.
Qed.

Lemma kload_byte v D a va b :
  vm_inv v D a → 0 ≤ va < PHYS_BASE → resident v a false va → ubyte v a va = Some b →
  ∃ v', kload v va = Ok (b, v') ∧ vm_inv v' D a ∧ only_memory v v' ∧ ∀ t u, contents v' a t u = contents v a t u.
Proof.
  intros H Hva [_ (e & He & Hl & _)] Hb. pose proof (access_spec v D a va false H Hva) as Hacc. cbv zeta in Hacc.
  unfold kload, user_load. cbn [touch]. destruct (mmu_access (mach v) va false) as [[k m]|].
  - destruct Hacc as (e' & He' & Hl' & -> & _ & HI & HC & _). assert (e' = e) as -> by congruence. cbn [mbind res_bind].
    exists (set_mach v m). split; [|split; [exact HI|split; [by split|exact HC]]]. do 3 f_equal.
    unfold ubyte in Hb. rewrite <- HC in Hb. unfold contents in Hb. change (entry_at (set_mach v m)) with (entry_at v) in Hb.
    rewrite He in Hb. cbn [mbind option_bind] in Hb. rewrite Hl in Hb. cbn [fmap option_fmap option_map mbind option_bind] in Hb.
    apply visible_lookup in Hb. unfold frame_data in Hb.
    assert (0 ≤ pg_ofs va < PGSIZE) by (rewrite pg_ofs_mod; by apply Z.mod_pos_bound).
    rewrite lookup_peek in Hb by lia. rewrite Z2Nat.id in Hb by lia. congruence.
  - by destruct (Hacc e He Hl) as [? _].
Qed.

Lemma resident_kept v v' a wr x : only_memory v v' → (ubyte v a x = ubyte v' a x ∨ is_Some (ubyte v' a x)) →
  resident v a wr x → resident v' a wr x.
Proof.
  intros O Hb [Hs (e & He)]. split; [destruct Hb as [<-|]; done|]. exists e. by rewrite (om_cur _ _ O), (om_entry _ _ _ _ O).
Qed.

Lemma kstores_bytes D a l : ∀ v va,
  vm_inv v D a → 0 ≤ va → va + Zlength l ≤ PHYS_BASE → (∀ x, va ≤ x < va + Zlength l → resident v a true x) →
  ∃ v', kstores v va l = Ok v' ∧ vm_inv v' D a ∧ only_memory v v' ∧ ubytes v' a va l
    ∧ (∀ x, 0 ≤ x < PHYS_BASE → x < va ∨ va + Zlength l ≤ x → ubyte v' a x = ubyte v a x)
    ∧ (∀ t u, t ≠ cur v → contents v' a t u = contents v a t u).
Proof.
  induction l as [|b l IH]; intros v va H Hva Hend Hr.
  - exists v. split; [done|]. split; [done|]. split; [apply om_refl|]. split; [by intros j x|]. split; [done|done].
  - assert (Zlength (b :: l) = 1 + Zlength l) as El by (simpl; lia). rewrite El in Hend, Hr |- *.
    destruct (kstore_byte v D a va b H) as (v1 & E1 & H1 & O1 & Hb & Ho & Hc); [lia|apply Hr; lia|].
    destruct (IH v1 (va + 1) H1) as (v' & E2 & H2 & O2 & Hb2 & Ho2 & Hc2); [lia|lia| |].
    { intros x Hx. apply (resident_kept v v1); [done| |apply Hr; lia]. left. symmetry. apply Ho; lia. }
    exists v'. cbn [kstores]. rewrite E1. split; [exact E2|]. split; [done|]. split; [by eapply om_trans|]. split_and!.
    + intros [|j] x Hj; simpl in Hj.
      * injection Hj as <-. rewrite Z.add_0_r. by rewrite Ho2 by lia.
      * replace (va + Z.of_nat (S j)) with (va + 1 + Z.of_nat j) by lia. by apply Hb2.
    + intros x Hx Hout. rewrite Ho2 by lia. apply Ho; lia.
    + intros t u Ht. rewrite Hc2 by (by rewrite (om_cur _ _ O1)). by apply Hc.
Qed.

Lemma contents_ubyte v v' a x : cur v' = cur v → (∀ t u, contents v' a t u = contents v a t u) → ubyte v' a x = ubyte v a x.
Proof. intros Ec Hc. unfold ubyte. by rewrite Ec, Hc. Qed.

Lemma kloads_bytes D a l : ∀ v va,
  vm_inv v D a → 0 ≤ va → va + Zlength l ≤ PHYS_BASE → (∀ x, va ≤ x < va + Zlength l → resident v a false x) →
  ubytes v a va l →
  ∃ v', kloads (length l) v va = Ok (l, v') ∧ vm_inv v' D a ∧ only_memory v v' ∧ ∀ t u, contents v' a t u = contents v a t u.
Proof.
  induction l as [|b l IH]; intros v va H Hva Hend Hr Hb.
  - exists v. split; [done|]. split; [done|]. split; [apply om_refl|done].
  - assert (Zlength (b :: l) = 1 + Zlength l) as El by (simpl; lia). rewrite El in Hend, Hr.
    destruct (kload_byte v D a va b H) as (v1 & E1 & H1 & O1 & Hc); [lia|apply Hr; lia|by rewrite <- (Hb O b), Z.add_0_r|].
    destruct (IH v1 (va + 1) H1) as (v' & E2 & H2 & O2 & Hc2); [lia|lia| | |].
    { intros x Hx. apply (resident_kept v v1); [done| |apply Hr; lia]. left. symmetry. apply contents_ubyte; [apply O1|done]. }
    { intros j x Hj. rewrite (contents_ubyte v v1 a); [|apply O1|done]. rewrite <- (Hb (S j) x Hj). f_equal. lia. }
    exists v'. cbn [kloads length]. rewrite E1. cbn [mbind res_bind]. rewrite E2. split; [done|]. split; [done|].
    split; [by eapply om_trans|]. intros t u. by rewrite Hc2, Hc.
Qed.

(** ** Pinning *)

Definition unpin (f : frame_entry) : Z * Z * Z := (fkpage f, fupage f, owner f).
(** At most the pins of frames differ. *)
Definition repinned (v v' : vm) : Prop :=
  ∃ fs, v' = set_frames v fs (frame_table v) (clock_hand v) ∧ ∀ x, unpin <$> fs !! x = unpin <$> frames v !! x.

Lemma repinned_refl v : repinned v v.
Proof. exists (frames v). split; [by destruct v|done]. Qed.
Lemma repinned_trans v1 v2 v3 : repinned v1 v2 → repinned v2 v3 → repinned v1 v3.
Proof. intros (f & -> & H1) (g & -> & H2). exists g. split; [done|]. intros x. rewrite H2. apply H1. Qed.

Lemma inv_repinned v D a v' : vm_inv v D a → repinned v v' → vm_inv v' D a.
Proof.
  intros [I1 I2 I3 I4 I5 I6 I7] (fs & -> & Hf).
  assert (∀ x f, fs !! x = Some f → ∃ g, frames v !! x = Some g ∧ fkpage g = fkpage f ∧ fupage g = fupage f ∧ owner g = owner f) as Hb.
  { intros x f E. specialize (Hf x). rewrite E in Hf. symmetry in Hf. apply fmap_Some in Hf as (g & Hg & Eg). injection Eg as E1 E2 E3. eauto 10. }
  assert (∀ x g, frames v !! x = Some g → ∃ f, fs !! x = Some f ∧ fkpage g = fkpage f ∧ fupage g = fupage f ∧ owner g = owner f) as Hb'.
  { intros x g E. specialize (Hf x). rewrite E in Hf. apply fmap_Some in Hf as (f & Hg & Eg). injection Eg as E1 E2 E3. eauto 10. }
  split; try done.
  - destruct I3 as [F1 F2 F3 F4]. split; try done.
    + intros x. rewrite F2. specialize (Hf x). change (frames (set_frames v fs (frame_table v) (clock_hand v))) with fs.
      destruct (fs !! x), (frames v !! x); try done; split; intros [? ?]; by eexists || done.
    + intros x y f g Ef Eg E. destruct (Hb x f Ef) as (f' & Ef' & K1 & _), (Hb y g Eg) as (g' & Eg' & K2 & _). apply (F4 x y f' g'); congruence.
  - destruct I5. by split.
  - destruct I6 as [L1 L2 L3 L4 L5]. split; try done.
    + intros x f Ef. destruct (Hb x f Ef) as (g & Eg & K1 & K2 & K3). destruct (L1 x g Eg) as (e & He & Hl & Hk).
      exists e. rewrite K3, K2 in He. split; [exact He|]. split; [exact Hl|congruence].
    + intros t u e He Hl. destruct (L2 t u e He Hl) as (x & g & Eg & K1 & K2). destruct (Hb' x g Eg) as (f & Ef & _ & K4 & K5).
      exists x, f. split; [exact Ef|]. split; congruence.
    + intros x f Ef. destruct (Hb x f Ef) as (g & Eg & K1 & _). rewrite <- K1. exact (L3 x g Eg).
  - destruct I7. by split.
Qed.

Lemma find_loop_ok fs k l : (∀ x, x ∈ l → is_Some (fs !! x)) → ∃ o, find_loop fs k l = Ok o.
Proof.
  induction l as [|x l IH]; simpl; [by eexists|]. intros Hl. destruct (Hl x) as [f Ef]; [set_solver|]. rewrite Ef. simpl.
  destruct (fkpage f =? k); [by eexists|]. apply IH. set_solver.
Qed.
Lemma set_pinned_ok v D a k on : vm_inv v D a → ∃ v', set_pinned v k on = Ok v' ∧ repinned v v'.
Proof.
  intros H. unfold set_pinned, find_frame. destruct (vi_frames v D a H) as [_ F2 _ _].
  destruct (find_loop_ok (frames v) k (frame_table v)) as [o ->]; [intros x; apply F2|]. cbn [mbind res_bind].
  destruct o as [x|]; [|exists v; split; [done|apply repinned_refl]]. eexists. split; [done|].
  eexists. split; [done|]. intros y. destruct (decide (y = x)) as [->|]; [rewrite lookup_alter_eq|by rewrite lookup_alter_ne].
  by destruct (frames v !! x).
Qed.

(** The pages from [page] to [end_] are in memory. *)
Definition pages_loaded (v : vm) (page end_ : Z) : Prop :=
  ∀ u, page ≤ u ≤ end_ → user_page u → ∃ e, entry_at v (cur v) u = Some e ∧ loaded e = true.

Lemma page_present v D a u :
  vm_inv v D a → user_page u → (∃ e, entry_at v (cur v) u = Some e ∧ loaded e = true) →
  ∃ p k, get_proc v (cur v) = Ok p ∧ pagedir_get_page (mach v) (pagedir p) u = Ok k ∧ (k =? 0) = false.
Proof.
  intros H Hu (e & He & Hl). destruct (fault_present v D a u H (proj1 Hu)) as (p & k & E1 & E2 & E3).
  exists p, k. split; [done|]. split; [done|]. rewrite E3, user_page_round by done.
  rewrite (present_loaded v D a u H Hu), He, Hl. done.
Qed.

Lemma next_page u : user_page u → u + PGSIZE < PHYS_BASE → user_page (u + PGSIZE).
Proof. intros [H1 H2] Hb. split; [unfold PGSIZE in *; lia|]. rewrite <- Zplus_mod_idemp_l, H2. done. Qed.

Lemma pin_loops D a end_ : user_page end_ → ∀ n v page,
  vm_inv v D a → 0 ≤ page → page mod PGSIZE = 0 → page ≤ end_ + PGSIZE → pages_loaded v page end_ →
  (end_ - page) / PGSIZE + 1 < Z.of_nat n →
  (∃ v', pin_loop n v page end_ = Ok v' ∧ repinned v v') ∧ (∃ v', unpin_loop n v page end_ = Ok v' ∧ repinned v v').
Proof.
  intros Hend. induction n as [|n IH]; intros v page H H0 Hal Hpe Hl Hn.
  { assert (-1 ≤ (end_ - page) / PGSIZE) by (apply Z.div_le_lower_bound; unfold PGSIZE in *; lia). lia. }
  cbn [pin_loop unpin_loop]. destruct (Z.leb_spec page end_) as [Hle|Hgt]; [|split; exists v; (split; [done|apply repinned_refl])].
  assert (user_page page) as Hu by (destruct Hend; split; [lia|done]).
  destruct (page_present v D a page H Hu (Hl page ltac:(lia) Hu)) as (p & k & E1 & E2 & E3).
  rewrite E1. cbn [mbind res_bind]. rewrite E2. cbn [mbind res_bind]. rewrite E3. cbn [mbind res_bind negb].
  assert (u32 (page + PGSIZE) = page + PGSIZE) as Eu by (apply u32_small; destruct Hend; unfold PHYS_BASE, PGSIZE in *; lia).
  rewrite Eu.
  assert (∀ v1, repinned v v1 →
    (∃ v', pin_loop n v1 (page + PGSIZE) end_ = Ok v' ∧ repinned v1 v') ∧ (∃ v', unpin_loop n v1 (page + PGSIZE) end_ = Ok v' ∧ repinned v1 v')) as Hnext.
  { intros v1 Hv1. apply IH; [by eapply inv_repinned|unfold PGSIZE; lia| |lia| |].
    - rewrite <- Zplus_mod_idemp_l, Hal. done.
    - intros u Hu1 Hu2. destruct Hv1 as (fs & -> & _). apply Hl; [unfold PGSIZE in *; lia|done].
    - replace (end_ - (page + PGSIZE)) with (end_ - page + -1 * PGSIZE) by lia. rewrite Z.div_add by done. lia. }
  destruct (set_pinned_ok v D a k true H) as (v1 & Ev1 & Hv1), (set_pinned_ok v D a k false H) as (v2 & Ev2 & Hv2).
  unfold frame_pin, frame_unpin. rewrite Ev1, Ev2, ?E3. cbn [mbind res_bind negb].
  destruct (Hnext v1 Hv1) as [(w1 & F1 & G1) _], (Hnext v2 Hv2) as [_ (w2 & F2 & G2)].
  split.
  - exists w1. split; [exact F1|exact (repinned_trans v v1 w1 Hv1 G1)].
  - exists w2. split; [exact F2|exact (repinned_trans v v2 w2 Hv2 G2)].
Qed.

(** ** Addresses *)

Lemma valid_resident v D a x wr : vm_inv v D a → 0 < x < PHYS_BASE → resident v a wr x → valid_uaddr v x wr = Ok true.
Proof.
  intros H Hx [_ (e & He & _ & Hw)]. unfold valid_uaddr.
  rewrite (proj2 (Z.eqb_neq x 0)) by lia. unfold is_user_vaddr. rewrite (proj2 (Z.ltb_lt x PHYS_BASE)) by lia. cbn [negb orb].
  destruct (po_cur v D (vi_procs v D a H)) as (p & Hp & _). unfold get_proc. rewrite Hp. cbn [from_opt mbind res_bind].
  pose proof (user_page_of x ltac:(lia)) as Hu.
  rewrite (get_entry_at v D (cur v) (pg_round_down x)) by (try apply H; by eexists).
  rewrite (user_page_round _ Hu), He. cbn [mbind res_bind].
  destruct wr; [by rewrite (Hw I)|done].
Qed.

Lemma valid_range v D a x n wr : vm_inv v D a → 0 < x → 0 ≤ n → x + n ≤ PHYS_BASE →
  (∀ y, x ≤ y < x + n → resident v a wr y) → valid_urange v x n wr = Ok true.
Proof.
  intros H Hx Hn Hend Hr. unfold valid_urange. rewrite (proj2 (Z.eqb_neq x 0)) by lia.
  destruct (Z.eqb_spec n 0) as [|Hn0]; [done|]. rewrite (valid_resident v D a x wr H) by (try apply Hr; lia).
  cbn [mbind res_bind negb]. rewrite u32_small by (unfold PHYS_BASE in Hend; lia).
  rewrite (valid_resident v D a (x + n - 1) wr H) by (try apply Hr; lia). done.
Qed.

Lemma resident_pages v D a x n wr : vm_inv v D a → 0 ≤ x → 0 < n → x + n ≤ PHYS_BASE →
  (∀ y, x ≤ y < x + n → resident v a wr y) → pages_loaded v (pg_round_down x) (pg_round_down (x + n - 1)).
Proof.
  intros H Hx Hn Hend Hr u Hu [Hu1 Hu2].
  assert (∃ y, x ≤ y < x + n ∧ pg_round_down y = u) as (y & Hy & Ey).
  { unfold PHYS_BASE in *. destruct (pg_round_down_split x) as (E1 & _ & _ & R1); [lia|].
    destruct (pg_round_down_split (x + n - 1)) as (E2 & _ & _ & R2); [lia|].
    destruct (Z.le_gt_cases x u) as [Hxu|Hxu].
    - exists u. split; [lia|]. rewrite pg_round_down_spec, Hu2 by lia. lia.
    - exists x. split; [lia|]. rewrite pg_round_down_spec in * by lia. rewrite pg_ofs_mod in *.
      assert (u / PGSIZE = x / PGSIZE) as Eq.
      { apply Z.le_antisymm; [apply Z.div_le_mono; [done|lia]|]. apply Z.div_le_lower_bound; [done|].
        pose proof (Z.div_mod x PGSIZE ltac:(done)). lia. }
      pose proof (Z.div_mod x PGSIZE ltac:(done)). pose proof (Z.div_mod u PGSIZE ltac:(done)). lia. }
  destruct (Hr y Hy) as [_ (e & He & Hl & _)]. exists e. rewrite <- Ey. done.
Qed.

Lemma pin_buffer_spec s D a x n wr :
  vm_inv (kv s) D a → 0 ≤ x → 0 < n → x + n ≤ PHYS_BASE → (∀ y, x ≤ y < x + n → resident (kv s) a wr y) →
  (∃ v', pin_buffer x n s = Ok (Ret (), set_kv s v') ∧ repinned (kv s) v')
  ∧ (∃ v', unpin_buffer x n s = Ok (Ret (), set_kv s v') ∧ repinned (kv s) v').
Proof.
  intros H Hx Hn Hend Hr. unfold pin_buffer, unpin_buffer, buffer_pages, run. rewrite (proj2 (Z.eqb_neq n 0)) by lia.
  rewrite u32_small by (unfold PHYS_BASE in Hend; lia). unfold PHYS_BASE in Hend.
  destruct (pg_round_down_split x) as (E1 & O1 & R1 & _); [lia|]. destruct (pg_round_down_split (x + n - 1)) as (E2 & O2 & R2 & _); [lia|].
  pose proof (user_page_of (x + n - 1) ltac:(unfold PHYS_BASE; lia)) as Hu2. pose proof (user_page_of x ltac:(unfold PHYS_BASE; lia)) as [Hu1 Hu1'].
  destruct (pin_loops D a (pg_round_down (x + n - 1)) Hu2 (S (Z.to_nat ((pg_round_down (x + n - 1) - pg_round_down x) / PGSIZE + 1)))
    (kv s) (pg_round_down x) H) as [(v1 & F1 & G1) (v2 & F2 & G2)].
  - lia.
  - done.
  - unfold PGSIZE in *. lia.
  - by apply (resident_pages (kv s) D a x n wr).
  - assert (-1 ≤ (pg_round_down (x + n - 1) - pg_round_down x) / PGSIZE); [|lia].
    apply Z.div_le_lower_bound; unfold PGSIZE in *; lia.
  - rewrite F1, F2. split; by eexists.
Qed.

End SysMem.
