(* ===== verification/SysRw.v ===== *)
(** * The system calls [read] and [write]

    What [sys_read] and [sys_write] of [userprog/syscall.c] do with a file and a buffer that
    is in memory, whatever pages the buffer spans. *)

From S2P Require Import Prelude Bitmap Strings Vaddr Palloc Disk Inode Directory FsInv FileInv DirInv Filesys FsSpec.
From S2P Require Import Pagedir Vm VmInv VmData VmLoad VmUser Process ProcArgs ProcLoad ProcStart Wait Syscall SysMem.

Module SysRw.
Import Bitmap Palloc Disk Inode Directory FsInv FileInv DirInv Filesys FsSpec.
Import Pagedir Vm VmInv VmData VmLoad VmUser Process ProcArgs ProcLoad ProcStart Syscall SysMem.

(** ** Preliminaries *)

Lemma sc_step {A B} (m : sc A) (k : A → sc B) s x s1 : m s = Ok (Ret x, s1) → (m ≫= k) s = k x s1.
Proof. intros E. unfold mbind, sc_bind. by rewrite E. Qed.
Lemma fsys_op_step {A} (m : fs → res (A * fs)) s x s' :
  m (sys (kv s)) = Ok (x, s') → fsys_op m s = Ok (Ret x, set_kv s (set_sys (kv s) s')).
Proof. intros E. unfold fsys_op, lift. by rewrite E. Qed.

(** The process has descriptor [fd] for the handle [f]. *)
Definition open_fd (v : vm) (fd f : Z) : Prop :=
  2 ≤ fd < FD_MAX ∧ f ≠ 0 ∧ ∃ p, procs v !! cur v = Some p ∧ file_descriptors p !! Z.to_nat fd = Some f.

Lemma fd_get_open s fd f : open_fd (kv s) fd f → fd_get fd s = Ok (Ret f, s).
Proof.
  intros (Hfd & _ & p & Hp & Hf). unfold fd_get. rewrite (proj2 (Z.ltb_ge fd 2)), (proj2 (Z.leb_gt FD_MAX fd)) by lia.
  unfold orb, ask, get_proc. rewrite Hp. cbn [from_opt mbind res_bind]. by rewrite Hf.
Qed.

(** What the loops do not change. *)
Record kept (v v' : vm) : Prop := {
  kp_cur : cur v' = cur v;
  kp_procs : procs v' = procs v
}.
Lemma kept_refl v : kept v v.
Proof. by split. Qed.
Lemma kept_trans v1 v2 v3 : kept v1 v2 → kept v2 v3 → kept v1 v3.
Proof. intros [? ?] [? ?]. split; congruence. Qed.
Lemma memory_kept v v' : only_memory v v' → kept v v'.
Proof. intros [? ? _ _]. by split. Qed.
Lemma resident_same v a v' a' wr x :
  kept v v' → ubyte v' a' x = ubyte v a x ∨ is_Some (ubyte v' a' x) → resident v a wr x → resident v' a' wr x.
Proof.
  intros [Ec Ep] Hb [Hs (e & He)]. split; [by destruct Hb as [->|]|]. exists e. unfold entry_at in *. by rewrite Ec, Ep.
Qed.
Lemma contents_byte v a v' a' x :
  cur v' = cur v → (∀ t u, contents v' a' t u = contents v a t u) → ubyte v' a' x = ubyte v a x.
Proof. intros Ec Hc. unfold ubyte. by rewrite Ec, Hc. Qed.

Lemma ubytes_app v a va l k : ubytes v a va l → ubytes v a (va + Zlength l) k → ubytes v a va (l ++ k).
Proof.
  intros Hl Hk j x [Hj|[Hlen Hj]]%lookup_app_Some; [by apply Hl|].
  replace (va + Z.of_nat j) with (va + Zlength l + Z.of_nat (j - length l)) by lia. by apply Hk.
Qed.
Lemma ubytes_ext v a v' a' va l :
  (∀ x, va ≤ x < va + Zlength l → ubyte v' a' x = ubyte v a x) → ubytes v a va l → ubytes v' a' va l.
Proof. intros He Hl j x Hj. pose proof (lookup_lt_Some _ _ _ Hj). rewrite He by lia. by apply Hl. Qed.
Lemma ubytes_slice v a va l i n : 0 ≤ i → 0 ≤ n → i + n ≤ Zlength l → ubytes v a va l → ubytes v a (va + i) (slice i n l).
Proof.
  intros Hi Hn Hin Hl j x Hj. replace (va + i + Z.of_nat j) with (va + Z.of_nat (Z.to_nat i + j)) by lia. apply Hl.
  unfold slice in Hj. apply lookup_take_Some in Hj as [Hj _]. by rewrite lookup_drop in Hj.
Qed.
Lemma slice_none {A} i (l : list A) : slice i 0 l = [].
Proof. done. Qed.

Lemma set_handle_id a f h : ahandles a !! f = Some h → set_handle a f h = a.
Proof. intros E. unfold set_handle. rewrite insert_id by done. by destruct a. Qed.
Lemma set_handle_twice a f h h' : set_handle (set_handle a f h) f h' = set_handle a f h'.
Proof. unfold set_handle. simpl. by rewrite insert_insert_eq. Qed.

(** ** Reading *)

Lemma read_step s a f h xs n :
  abstracts s a → ahandles a !! f = Some h → astore a !! hid h = Some xs → 0 ≤ n < 2 ^ 31 →
  let m := transfer (Zlength xs) (hpos h) n in
  ∃ s', file_read s f n = Ok (slice (hpos h) m xs, s') ∧ abstracts s' (set_handle a f (Handle (hid h) (hpos h + m) (hdeny h))).
Proof.
  intros (T & R & Hy & Est & Eh) Hh Hxs Hn m.
  destruct (refines_read s a T R Hy Est Eh f n) as (r & s2 & a2 & E & Hst & Hab); [by split; [eexists|]|].
  simpl in E. apply bind_Ok in E as ([l s3] & E & [= <- <-]). exists s3. inversion Hst; subst.
  match goal with H1 : ahandles a !! f = Some ?h0 |- _ => assert (h0 = h) as -> by congruence end.
  match goal with H1 : astore a !! hid h = Some ?x0 |- _ => assert (x0 = xs) as -> by congruence end. done.
Qed.

Lemma pos_nonneg s a f h : abstracts s a → ahandles a !! f = Some h → 0 ≤ hpos h.
Proof.
  intros (T & R & Hy & Est & Eh) Hh. destruct (handle_open_a s a T R Hy Est Eh f) as (fl & i & Hm & Hfl & Hi & HT & H0 & H1 & Hh' & Hxs' & Hlen & Hpos); [by eexists|].
  rewrite Hh in Hh'. injection Hh' as ->. simpl. lia.
Qed.

Section read.
Context (order : list Z) (D : dirs) (f id pos : Z) (deny : bool) (xs : list Z) (ubuf size : Z).
Context (Hpos : 0 ≤ pos) (Hubuf : 0 < ubuf) (Hsize : 0 < size) (Hend : ubuf + size ≤ PHYS_BASE).
Let T := transfer (Zlength xs) pos size.
Let at_pos (a : afs) (p : Z) : afs := set_handle a f (Handle id p deny).

(** Where [read_loop] has come to. *)
Record filling (v : vm) (a : afs) (total : Z) : Prop := {
  fi_inv : vm_inv v D a;
  fi_handle : ahandles a !! f = Some (Handle id (pos + total) deny);
  fi_store : astore a !! id = Some xs;
  fi_total : 0 ≤ total ≤ T;
  fi_resident x : ubuf ≤ x < ubuf + size → resident v a true x
}.

(** What a number of rounds of it have done. *)
Record filled (v v' : vm) (a a' : afs) (total total' : Z) : Prop := {
  fd_kept : kept v v';
  fd_bytes : ubytes v' a' (ubuf + total) (slice (pos + total) (total' - total) xs);
  fd_rest x : 0 ≤ x < PHYS_BASE → x < ubuf + total ∨ ubuf + total' ≤ x → ubyte v' a' x = ubyte v a x;
  fd_others t u : t ≠ cur v → contents v' a' t u = contents v a t u
}.

Lemma got_length i n : 0 ≤ i → 0 ≤ n → i + n ≤ T → Zlength (slice (pos + i) n xs) = n.
Proof.
  intros Hi Hn HT. unfold T, transfer in HT. destruct (decide (n = 0)) as [->|]; [done|]. apply length_slice; lia.
Qed.

Lemma filled_nothing v a total : filled v v a a total total.
Proof. split; [apply kept_refl| |done|done]. rewrite Z.sub_diag. by intros j x. Qed.

Lemma filled_trans v1 v2 v3 a1 a2 a3 i j k :
  0 ≤ i ≤ j → j ≤ k ≤ T → ubuf + k ≤ PHYS_BASE →
  filled v1 v2 a1 a2 i j → filled v2 v3 a2 a3 j k → filled v1 v3 a1 a3 i k.
Proof.
  intros Hij Hjk Hk [K1 B1 R1 O1] [K2 B2 R2 O2]. split.
  - by eapply kept_trans.
  - replace (k - i) with ((j - i) + (k - j)) by lia. rewrite <- slice_app by lia.
    assert (Hl : Zlength (slice (pos + i) (j - i) xs) = j - i) by (apply got_length; lia). apply ubytes_app; rewrite ?Hl.
    + apply (ubytes_ext v2 a2); [|done]. rewrite Hl. intros x Hx'. apply R2; lia.
    + replace (ubuf + i + (j - i)) with (ubuf + j) by lia. by replace (pos + i + (j - i)) with (pos + j) by lia.
  - intros x Hx1 Hx2. rewrite R2, R1 by lia. done.
  - intros t u Ht. rewrite O2, O1; [done|done|]. by rewrite (kp_cur _ _ K1).
Qed.

Lemma filled_resident v v' a a' total total' x :
  0 ≤ total ≤ total' → total' ≤ T → 0 ≤ x < PHYS_BASE →
  filled v v' a a' total total' → resident v a true x → resident v' a' true x.
Proof.
  intros Ht Hx Hx' [K B R _]. apply resident_same; [done|].
  destruct (decide (ubuf + total ≤ x < ubuf + total')) as [Hin|Hout]; [right|left; apply R; lia].
  destruct (lookup_lt_is_Some_2 (slice (pos + total) (total' - total) xs) (Z.to_nat (x - (ubuf + total)))) as [b Hb].
  { pose proof (got_length total (total' - total)). lia. }
  exists b. rewrite <- (B _ b Hb). f_equal. lia.
Qed.

Lemma read_round v a total want :
  filling v a total → 0 < want ≤ size - total → want < 2 ^ 31 →
  let k := transfer (Zlength xs) (pos + total) want in
  ∃ s1 v2, file_read (sys v) f want = Ok (slice (pos + total) k xs, s1)
    ∧ valid_urange (set_sys v s1) (ubuf + total) k true = Ok true
    ∧ kstores (set_sys v s1) (ubuf + total) (slice (pos + total) k xs) = Ok v2
    ∧ filling v2 (at_pos a (pos + (total + k))) (total + k) ∧ filled v v2 a (at_pos a (pos + (total + k))) total (total + k).
Proof.
  intros [H Hh Hx [Ht0 Ht] Hr] Hw Hw' k. set (a1 := at_pos a (pos + (total + k))).
  assert (Hk : 0 ≤ k ∧ total + k ≤ T ∧ k ≤ want) by (unfold k, T, transfer in *; lia). destruct Hk as (Hk0 & HkT & Hkw).
  destruct (read_step (sys v) a f _ xs want (da_sys v D a (vi_data v D a H)) Hh Hx) as (s1 & E1 & Ha1); [lia|].
  cbn [hpos hid hdeny] in E1, Ha1. fold k in E1, Ha1. rewrite <- Z.add_assoc in Ha1. fold (at_pos a (pos + (total + k))) in Ha1. fold a1 in Ha1.
  destruct (inv_sys v D a s1 a1 H Ha1) as [H1 Hc1].
  { apply moved_compat; [|done]. by apply (set_handle_moved a f (Handle id (pos + total) deny)). }
  assert (K1 : kept v (set_sys v s1)) by done.
  assert (Hub : ∀ x, ubyte (set_sys v s1) a1 x = ubyte v a x) by (intros x; by apply contents_byte).
  assert (Hr1 : ∀ x, ubuf ≤ x < ubuf + size → resident (set_sys v s1) a1 true x).
  { intros x Hx'. apply (resident_same v a); [done|by left|by apply Hr]. }
  assert (Hl : Zlength (slice (pos + total) k xs) = k) by (by apply got_length).
  destruct (kstores_bytes D a1 (slice (pos + total) k xs) (set_sys v s1) (ubuf + total) H1) as (v2 & E2 & H2 & O2 & Hb & Ho & Hc2);
    rewrite ?Hl; [lia|lia|intros x Hx'; apply Hr1; lia|].
  rewrite Hl in Ho.
  assert (F : filled v v2 a a1 total (total + k)).
  { split.
    - apply (kept_trans v (set_sys v s1)); [done|by apply memory_kept].
    - by replace (total + k - total) with k by lia.
    - intros x Hx1 Hx2. rewrite Ho by lia. apply Hub.
    - intros t u Htc. by rewrite Hc2, Hc1. }
  exists s1, v2. split; [exact E1|]. split; [apply (valid_range _ D a1); try lia; [done|intros y Hy; apply Hr1; lia]|].
  split; [exact E2|]. split; [|exact F]. split; [done| | |lia|].
  - unfold a1, at_pos, set_handle. simpl. by rewrite lookup_insert_eq.
  - exact Hx.
  - intros x Hx'. apply (filled_resident v v2 a a1 total (total + k)); try done; try lia. by apply Hr.
Qed.

Lemma read_loop_correct n : ∀ s a total,
  filling (kv s) a total → size - total < Z.of_nat n →
  ∃ v', read_loop order n f ubuf size total s = Ok (Ret T, set_kv s v')
    ∧ filling v' (at_pos a (pos + T)) T ∧ filled (kv s) v' a (at_pos a (pos + T)) total T.
Proof.
  induction n as [|n IH]; intros s a total F Hn; [destruct F as [_ _ _ Ht _]; unfold T, transfer in Ht; lia|].
  pose proof (fi_total _ _ _ F) as Ht. assert (T ≤ size) as HTs by (unfold T, transfer; lia).
  cbn [read_loop]. destruct (Z.ltb_spec total size) as [Hlt|Hge].
  2:{ assert (total = T) as -> by lia. assert (at_pos a (pos + T) = a) as -> by apply set_handle_id, F.
      exists (kv s). split; [by destruct s|]. split; [done|apply filled_nothing]. }
  set (want := if CHUNK <? size - total then CHUNK else size - total).
  assert (Hw : 0 < want ≤ size - total ∧ want ≤ 512) by (unfold want, CHUNK; destruct (Z.ltb_spec 512 (size - total)); lia).
  set (k := transfer (Zlength xs) (pos + total) want).
  assert (Hk : 0 ≤ k ∧ total + k ≤ T ∧ (k = 0 → total = T)) by (unfold k, T, transfer in *; lia). destruct Hk as (Hk0 & HkT & Hkz).
  destruct (read_round (kv s) a total want F) as (s1 & v2 & E1 & E2 & E3 & F2 & G2); [lia|lia|]. fold k in E1, E2, E3, F2, G2.
  assert (Hl : Zlength (slice (pos + total) k xs) = k) by (apply got_length; lia).
  erewrite sc_step by (apply fsys_op_step; exact E1). rewrite Hl. destruct (Z.eqb_spec k 0) as [Ek|Ek].
  - rewrite Ek in E3, F2, G2. injection E3 as <-. rewrite Z.add_0_r, (Hkz Ek) in F2, G2. eexists. split; [by rewrite (Hkz Ek)|]. by rewrite (Hkz Ek).
  - erewrite sc_step; [|unfold copy_out, lift; cbn [kv set_kv]; rewrite u32_small by (unfold PHYS_BASE in Hend; lia);
      rewrite Hl, E2; cbn [mbind res_bind negb]; rewrite E3; reflexivity].
    cbn [negb]. destruct (IH (set_kv (set_kv s (set_sys (kv s) s1)) v2) _ _ F2) as (v' & E4 & F4 & G4); [lia|].
    exists v'. rewrite E4. unfold at_pos in *. rewrite set_handle_twice in F4, G4. split; [done|]. split; [done|].
    eapply filled_trans; [..|exact G2|exact G4]; lia.
Qed.

End read.

(** ** Writing *)

Lemma write_step s a f h buf xs n :
  abstracts s a → ahandles a !! f = Some h → astore a !! hid h = Some xs → ¬ denied_id a (hid h) → 0 ≤ n < 2 ^ 31 → n ≤ Zlength buf →
  let m := transfer (Zlength xs) (hpos h) n in
  ∃ s', file_write s f buf n = Ok (m, s')
    ∧ abstracts s' (AFS (anames a) (<[hid h := splice (hpos h) (take (Z.to_nat m) buf) xs]> (astore a))
        (<[f := Handle (hid h) (hpos h + m) (hdeny h)]> (ahandles a))).
Proof.
  intros (T & R & Hy & Est & Eh) Hh Hxs Hd Hn Hb m.
  destruct (refines_write s a T R Hy Est Eh f buf n) as (r & s2 & a2 & E & Hst & Hab); [by split; [eexists|]|].
  simpl in E. apply bind_Ok in E as ([k s3] & E & [= <- <-]). exists s3.
  rewrite (step_write _ a f h buf n xs _ a2 Hh Hxs Hd Hst) in Hab. split; [|exact Hab]. rewrite E. do 2 f_equal.
  inversion Hst; subst.
  match goal with H1 : ahandles a !! f = Some ?h0 |- _ => assert (h0 = h) as -> by congruence end.
  match goal with H1 : astore a !! hid h = Some ?x0 |- _ => assert (x0 = xs) as -> by congruence end. auto.
Qed.

(** No page of a process has its data in the file. *)
Definition not_mapped (v : vm) (a : afs) (id : Z) : Prop :=
  ∀ t u e h, entry_at v t u = Some e → ptype e = PAGE_FILE ∨ ptype e = PAGE_MMAP → ahandles a !! efile e = Some h → hid h ≠ id.

Section write.
Context (order : list Z) (D : dirs) (f id pos : Z) (deny : bool) (ubuf : Z) (data : list Z).
Let size := Zlength data.
Context (Hpos : 0 ≤ pos) (Hubuf : 0 < ubuf) (Hsize : 0 < size) (Hend : ubuf + size ≤ PHYS_BASE).

(** The file with new bytes at [p], and the handle at [q]. *)
Definition written (a : afs) (p : Z) (bs xs : list Z) (q : Z) : afs :=
  AFS (anames a) (<[id := splice p bs xs]> (astore a)) (<[f := Handle id q deny]> (ahandles a)).

(** Where [write_loop] has come to; [xs] is the file as it is now. *)
Record draining (v : vm) (a : afs) (xs : list Z) (total : Z) : Prop := {
  dr_inv : vm_inv v D a;
  dr_handle : ahandles a !! f = Some (Handle id (pos + total) deny);
  dr_store : astore a !! id = Some xs;
  dr_deny : ¬ denied_id a id;
  dr_free : not_mapped v a id;
  dr_total : 0 ≤ total ≤ transfer (Zlength xs) pos size;
  dr_data : ubytes v a ubuf data;
  dr_resident x : ubuf ≤ x < ubuf + size → resident v a false x
}.

(** User memory is as it was. *)
Definition same_memory (v v' : vm) (a a' : afs) : Prop := kept v v' ∧ ∀ t u, contents v' a' t u = contents v a t u.
Lemma same_memory_trans v1 v2 v3 a1 a2 a3 : same_memory v1 v2 a1 a2 → same_memory v2 v3 a2 a3 → same_memory v1 v3 a1 a3.
Proof. intros [K1 C1] [K2 C2]. split; [by eapply kept_trans|]. intros t u. by rewrite C2, C1. Qed.

Lemma written_compat v a p bs xs q p0 :
  not_mapped v a id → ahandles a !! f = Some (Handle id p0 deny) → fs_compat v a (written a p bs xs q).
Proof.
  intros Hn Hf. split.
  - intros t u e h He Hty Hh. pose proof (Hn t u e h He Hty Hh) as Hne. exists h. unfold written. simpl.
    assert (efile e ≠ f) by (intros E; rewrite E, Hf in Hh; by injection Hh as <-). by rewrite !lookup_insert_ne by congruence.
  - intros t u e h He Hty Hh. apply (moved_denied a). by apply (set_handle_moved a f (Handle id p0 deny)).
Qed.

Lemma not_mapped_kept v v' a a' : kept v v' → same_hids a a' → not_mapped v a id → not_mapped v' a' id.
Proof.
  intros [Ec Ep] Hs Hn t u e h He Hty Hh. assert (entry_at v t u = Some e) as He' by (unfold entry_at in *; by rewrite <- Ep).
  specialize (Hs (efile e)). rewrite Hh in Hs. destruct (ahandles a !! efile e) as [h0|] eqn:E; [|done].
  injection Hs as Hs. pose proof (Hn t u e h0 He' Hty E). congruence.
Qed.

Lemma write_round v a xs total want :
  draining v a xs total → 0 < want ≤ size - total → want < 2 ^ 31 →
  let k := transfer (Zlength xs) (pos + total) want in
  let bs := slice total k data in
  let a' := written a (pos + total) bs xs (pos + (total + k)) in
  valid_urange v (ubuf + total) want false = Ok true
  ∧ ∃ v1 s2, kloads (Z.to_nat want) v (ubuf + total) = Ok (slice total want data, v1)
    ∧ file_write (sys v1) f (slice total want data) want = Ok (k, s2)
    ∧ draining (set_sys v1 s2) a' (splice (pos + total) bs xs) (total + k) ∧ same_memory v (set_sys v1 s2) a a'.
Proof.
  intros [H Hh Hx Hd Hf [Ht0 Ht] Hb Hr] Hw Hw' k bs a'.
  assert (Hk : 0 ≤ k ∧ total + k ≤ transfer (Zlength xs) pos size ∧ k ≤ want) by (unfold k, transfer in *; lia).
  destruct Hk as (Hk0 & HkT & Hkw).
  assert (Hl : Zlength (slice total want data) = want) by (apply length_slice; unfold size in *; lia).
  split; [apply (valid_range _ D a); try lia; [done|intros y Hy; apply Hr; lia]|].
  destruct (kloads_bytes D a (slice total want data) v (ubuf + total) H) as (v1 & E1 & H1 & O1 & C1); rewrite ?Hl;
    [lia|lia|intros y Hy; apply Hr; lia|apply ubytes_slice; try done; unfold size in *; lia|].
  destruct (write_step (sys v1) a f _ (slice total want data) xs want (da_sys v1 D a (vi_data v1 D a H1)) Hh Hx Hd) as (s2 & E2 & Ha2); [lia|lia|].
  cbn [hpos hid hdeny] in E2, Ha2. fold k in E2, Ha2.
  assert (Etk : take (Z.to_nat k) (slice total want data) = bs).
  { change (take (Z.to_nat k) (slice total want data)) with (slice 0 k (slice total want data)).
    rewrite slice_slice, Z.add_0_r by lia. done. }
  rewrite Etk, <- Z.add_assoc in Ha2. fold (written a (pos + total) bs xs (pos + (total + k))) in Ha2. fold a' in Ha2.
  assert (K1 : kept v v1) by (by apply memory_kept).
  assert (Hf1 : not_mapped v1 a id) by (by apply (not_mapped_kept v v1 a a)).
  destruct (inv_sys v1 D a s2 a' H1 Ha2) as [H2 C2]; [by apply (written_compat v1 a _ _ _ _ (pos + total))|].
  assert (M : same_memory v (set_sys v1 s2) a a').
  { split; [by apply (kept_trans v v1)|]. intros t u. by rewrite C2, C1. }
  assert (Hub : ∀ x, ubyte (set_sys v1 s2) a' x = ubyte v a x) by (intros x; apply contents_byte; apply M).
  assert (moved a a') as Hmv by (by apply (set_handle_moved a f (Handle id (pos + total) deny))).
  exists v1, s2. split; [by replace (Z.to_nat want) with (length (slice total want data)) by lia|]. split; [exact E2|]. split; [|exact M]. split.
  - done.
  - unfold a', written. simpl. by rewrite lookup_insert_eq.
  - unfold a', written. simpl. by rewrite lookup_insert_eq.
  - by rewrite (moved_denied a a').
  - apply (not_mapped_kept v1 _ a a'); [done|by apply moved_hids|done].
  - assert (Zlength (splice (pos + total) bs xs) = Zlength xs) as ->; [|lia].
    destruct (decide (k = 0)) as [Ek|]; [unfold bs; by rewrite Ek, slice_none, splice_nil|].
    f_equal. apply length_splice; [lia|]. unfold bs. rewrite length_slice by (unfold size in *; lia). unfold k, transfer in *. lia.
  - apply (ubytes_ext v a); [|done]. intros x _. apply Hub.
  - intros x Hx'. apply (resident_same v a); [apply M|by left|by apply Hr].
Qed.

Lemma written_id a xs p : ahandles a !! f = Some (Handle id p deny) → astore a !! id = Some xs → written a p [] xs p = a.
Proof. intros Hh Hx. unfold written. rewrite splice_nil, !insert_id by done. by destruct a. Qed.
Lemma splice_twice xs i k n :
  0 ≤ i → 0 ≤ k → 0 ≤ n → pos + i + k + n ≤ Zlength xs → i + k + n ≤ size →
  splice (pos + (i + k)) (slice (i + k) n data) (splice (pos + i) (slice i k data) xs) = splice (pos + i) (slice i (k + n) data) xs.
Proof.
  intros Hi Hk Hn Hx Hs. rewrite <- slice_app by lia.
  assert (Zlength (slice i k data) = k) as Hl by (apply length_slice; unfold size in *; lia).
  rewrite <- splice_app; rewrite ?Hl, ?length_slice by (unfold size in *; lia); [|lia|lia]. f_equal. lia.
Qed.

Lemma write_loop_correct n : ∀ s a xs total,
  let T := transfer (Zlength xs) pos size in
  let a' := written a (pos + total) (slice total (T - total) data) xs (pos + T) in
  draining (kv s) a xs total → size - total < Z.of_nat n →
  ∃ v', write_loop order n f ubuf size total s = Ok (Ret T, set_kv s v') ∧ same_memory (kv s) v' a a'
    ∧ draining v' a' (splice (pos + total) (slice total (T - total) data) xs) T.
Proof.
  induction n as [|n IH]; intros s a xs total T a' F Hn; [destruct F as [_ _ _ _ _ Ht _ _]; unfold transfer in Ht; lia|].
  pose proof (dr_total _ _ _ _ F) as Ht. fold T in Ht. assert (T ≤ size) as HTs by (unfold T, transfer; lia).
  assert (Hstop : total = T → written a (pos + total) (slice total (T - total) data) xs (pos + T) = a).
  { intros <-. rewrite Z.sub_diag. apply written_id; apply F. }
  cbn [write_loop]. destruct (Z.ltb_spec total size) as [Hlt|Hge].
  2:{ assert (total = T) as E by lia. subst a'. rewrite Hstop, <- E, Z.sub_diag, slice_none, splice_nil by done.
      exists (kv s). split; [by destruct s|]. split; [|done]. split; [apply kept_refl|done]. }
  set (want := if CHUNK <? size - total then CHUNK else size - total).
  assert (Hw : 0 < want ≤ size - total ∧ want ≤ 512) by (unfold want, CHUNK; destruct (Z.ltb_spec 512 (size - total)); lia).
  set (k := transfer (Zlength xs) (pos + total) want).
  assert (Hk : 0 ≤ k ∧ total + k ≤ T ∧ (k = 0 → total = T)) by (unfold k, T, transfer in *; lia). destruct Hk as (Hk0 & HkT & Hkz).
  destruct (write_round (kv s) a xs total want F) as (E0 & v1 & s2 & E1 & E2 & F2 & M2); [lia|lia|]. fold k in E1, E2, F2, M2.
  erewrite sc_step; [|unfold copy_in, lift; rewrite u32_small by (unfold PHYS_BASE in Hend; lia);
    rewrite E0; cbn [mbind res_bind negb]; rewrite E1; reflexivity].
  cbv beta iota. erewrite sc_step by (apply fsys_op_step; exact E2). rewrite (proj2 (Z.ltb_ge k 0)) by lia. destruct (Z.eqb_spec k 0) as [Ek|Ek].
  - rewrite Ek, Z.add_0_r, (Hkz Ek) in F2, M2. subst a'. rewrite (Hkz Ek), Z.sub_diag. by eexists.
  - destruct (IH (set_kv (set_kv s v1) (set_sys v1 s2)) _ _ _ F2) as (v' & E4 & M4 & F4); [lia|].
    assert (El : Zlength (splice (pos + total) (slice total k data) xs) = Zlength xs).
    { f_equal. apply length_splice; [lia|]. rewrite length_slice by (unfold size in *; lia). unfold k, transfer in *. lia. }
    rewrite El in E4, M4, F4. fold T in E4, M4, F4. exists v'. split; [exact E4|].
    pose proof (splice_twice xs total k (T - (total + k))) as Ew. replace (k + (T - (total + k))) with (T - total) in Ew by lia.
    specialize (Ew ltac:(lia) ltac:(lia) ltac:(lia) ltac:(unfold k, T, transfer in *; lia) ltac:(lia)).
    unfold written in M4 at 2, F4. cbn [anames astore ahandles written] in M4, F4. rewrite Ew, !insert_insert_eq in M4, F4. split; [by eapply same_memory_trans|done].
Qed.

End write.

(** ** The system calls *)

Lemma repinned_memory v v' a : repinned v v' → same_memory v v' a a ∧ ∀ x, ubyte v' a x = ubyte v a x.
Proof. intros (fs & -> & _). done. Qed.
Lemma same_resident v v' a a' wr x : same_memory v v' a a' → resident v a wr x → resident v' a' wr x.
Proof. intros [K C]. apply resident_same; [done|]. left. apply contents_byte; [apply K|done]. Qed.
Lemma small_transfer len p n : 0 ≤ p → 0 ≤ len < 2 ^ 31 → s32 (transfer len p n) = transfer len p n.
Proof. intros Hp Hl. apply s32_small. unfold transfer. lia. Qed.

Section calls.
Context (order : list Z) (s : kst) (D : dirs) (a : afs) (fd f ubuf size : Z) (h : handle) (xs : list Z) (wr : bool).
Context (Hinv : vm_inv (kv s) D a) (Hfd : open_fd (kv s) fd f) (Hh : ahandles a !! f = Some h) (Hx : astore a !! hid h = Some xs).
Context (Hubuf : 0 < ubuf) (Hsize : 0 < size) (Hend : ubuf + size ≤ PHYS_BASE).
Context (Hr : ∀ x, ubuf ≤ x < ubuf + size → resident (kv s) a wr x).

(** What both calls do before their loops. *)
Lemma call_prologue :
  valid_urange (kv s) ubuf size wr = Ok true ∧ s32 (transfer (Zlength xs) (hpos h) size) = transfer (Zlength xs) (hpos h) size
  ∧ 0 ≤ hpos h ∧ ∃ v1, pin_buffer ubuf size s = Ok (Ret (), set_kv s v1) ∧ vm_inv v1 D a ∧ same_memory (kv s) v1 a a
    ∧ open_fd v1 fd f ∧ ∀ x, ubuf ≤ x < ubuf + size → resident v1 a wr x.
Proof.
  pose proof (da_sys _ D a (vi_data _ D a Hinv)) as Ha. destruct (length_step _ a f h xs Ha Hh Hx) as [_ Hl].
  pose proof (pos_nonneg _ a f h Ha Hh) as Hp. split; [apply (valid_range _ D a); try done; lia|]. split; [apply small_transfer; lia|].
  split; [done|]. destruct (pin_buffer_spec s D a ubuf size wr Hinv) as [(v1 & E1 & R1) _]; try done; [lia|].
  exists v1. split; [exact E1|]. split; [by apply (inv_repinned (kv s))|]. destruct (repinned_memory _ _ a R1) as [M _].
  split; [exact M|]. split; [|intros x Hx'; apply (same_resident (kv s) v1 a a); auto].
  destruct M as [[Ec Ep] _]. unfold open_fd. by rewrite Ec, Ep.
Qed.

(** What they do after them. *)
Lemma call_epilogue v2 a2 :
  vm_inv v2 D a2 → (∀ x, ubuf ≤ x < ubuf + size → resident v2 a2 wr x) →
  ∃ v3, unpin_buffer ubuf size (set_kv s v2) = Ok (Ret (), set_kv s v3) ∧ vm_inv v3 D a2 ∧ same_memory v2 v3 a2 a2.
Proof.
  intros H2 Hr2. destruct (pin_buffer_spec (set_kv s v2) D a2 ubuf size wr H2) as [_ (v3 & E3 & R3)]; try done; [lia|].
  exists v3. split; [exact E3|]. split; [by apply (inv_repinned v2)|]. by apply repinned_memory.
Qed.
End calls.

(** C8: [read] from an open file into memory that the process may write: the call returns the
    number of bytes between the position and the end of the file, at most [size]; those
    bytes of the file are in the buffer, the position is behind them, and no other byte of the
    process, no other process and no file changes.  The buffer can span pages. *)
Theorem sys_read_correct order s D a fd f h xs ubuf size :
  vm_inv (kv s) D a → open_fd (kv s) fd f → ahandles a !! f = Some h → astore a !! hid h = Some xs →
  0 < ubuf → 0 < size → ubuf + size ≤ PHYS_BASE → (∀ x, ubuf ≤ x < ubuf + size → resident (kv s) a true x) →
  let n := transfer (Zlength xs) (hpos h) size in
  let a' := set_handle a f (Handle (hid h) (hpos h + n) (hdeny h)) in
  ∃ v', sys_read order fd ubuf size s = Ok (Ret n, set_kv s v') ∧ vm_inv v' D a'
    ∧ ubytes v' a' ubuf (slice (hpos h) n xs)
    ∧ (∀ x, 0 ≤ x < PHYS_BASE → x < ubuf ∨ ubuf + n ≤ x → ubyte v' a' x = ubyte (kv s) a x)
    ∧ (∀ t u, t ≠ cur (kv s) → contents v' a' t u = contents (kv s) a t u).
Proof.
  intros H Hfd Hh Hx Hu Hs Hend Hr n a'.
  destruct (call_prologue s D a fd f ubuf size h xs true H Hfd Hh Hx Hu Hs Hend Hr) as (Ev & En & Hp & v1 & E1 & H1 & [K1 C1] & Hfd1 & Hr1).
  assert (F : filling D f (hid h) (hpos h) (hdeny h) xs ubuf size v1 a 0).
  { split; try done; [by rewrite Z.add_0_r; destruct h|unfold transfer; lia]. }
  destruct (read_loop_correct order D f (hid h) (hpos h) (hdeny h) xs ubuf size Hp Hu Hs Hend (S (Z.to_nat size)) (set_kv s v1) a 0 F) as
    (v2 & E2 & [H2 _ _ _ Hr2] & [K2 B2 R2 O2]); [lia|]. fold n in E2, H2, Hr2, B2, R2, O2. fold a' in H2, Hr2, B2, R2, O2.
  destruct (call_epilogue s D ubuf size true Hu Hs Hend v2 a' H2 Hr2) as (v3 & E3 & H3 & [K3 C3]).
  destruct Hfd as ([Hfd2 _] & Hf & _).
  exists v3. split.
  { unfold sys_read. rewrite (proj2 (Z.eqb_neq size 0)), (proj2 (Z.eqb_neq fd 1)) by lia.
    erewrite sc_step by (unfold ask; rewrite Ev; reflexivity). cbn [negb]. rewrite (sc_step _ _ _ _ _ E1), (proj2 (Z.eqb_neq fd 0)) by lia.
    rewrite (sc_step _ _ _ _ _ (fd_get_open (set_kv s v1) fd f Hfd1)), (proj2 (Z.eqb_neq f 0)) by done.
    rewrite (sc_step _ _ _ _ _ E2). rewrite (sc_step _ _ _ _ _ E3). fold n in En. by rewrite En. }
  split; [exact H3|]. rewrite !Z.add_0_r, Z.sub_0_r in B2.
  assert (Hub : ∀ x, ubyte v3 a' x = ubyte v2 a' x) by (intros x; apply contents_byte; [apply K3|done]).
  split; [by apply (ubytes_ext v2 a')|]. split.
  - intros x Hx1 Hx2. rewrite Hub, R2 by lia. cbn [kv set_kv]. apply contents_byte; [apply K1|done].
  - intros t u Ht. rewrite C3, O2; [apply C1|]. cbn [kv set_kv]. by rewrite (kp_cur _ _ K1).
Qed.


(** ** A process with a file *)

(** The process of [demo_vm], with the file of [elf_fs] open as descriptor 2. *)
Definition open_handle : Z := match filesys_open elf_fs demo_name with Ok (f, _) => f | _ => 0 end.
Definition open_fs : fs := match filesys_open elf_fs demo_name with Ok (_, s) => s | _ => elf_fs end.
Definition demo_rw : vm :=
  put_fds (set_sys demo_vm open_fs) 1 (<[2%nat := open_handle]> (replicate 128 0)).
Definition demo_kst : kst := Kst demo_rw [] (λ _, 0) O [] Wait.boot.

Lemma open_fs_abs : ∃ a id, abstracts open_fs (set_handle a open_handle (Handle id 0 false)) ∧ astore a !! id = Some demo_elf ∧ ahandles a = ∅.
Proof.
  destruct elf_fs_abs as (a & id & (T & R & Hy & Est & Eh) & Hn & Hx & Hh). exists a, id.
  destruct (refines_open elf_fs a T R Hy Est Eh demo_name) as (r & s & a2 & E & St & Ha). simpl in E.
  apply bind_Ok in E as ([f s2] & E & [= <- <-]). destruct (step_open _ _ _ id _ _ Hn St) as [_ ->].
  unfold open_fs, open_handle. rewrite E. split; [exact Ha|]. split; [exact Hx|exact Hh].
Qed.

Lemma demo_zero t u e : entry_at demo_vm t u = Some e → ptype e = PAGE_ZERO.
Proof.
  assert (E : forallb (λ '(_, p), match ptable p with
    | Some m => forallb (λ '(_, e), bool_decide (ptype e = PAGE_ZERO)) (map_to_list m) | None => true end) (map_to_list (procs demo_vm)) = true)
    by (vm_compute; reflexivity).
  rewrite forallb_forall in E. unfold entry_at. intros He.
  destruct (procs demo_vm !! t) as [p|] eqn:Ep; [|discriminate He]. apply elem_of_map_to_list, list_elem_of_In, E in Ep.
  cbn [mbind option_bind] in He. destruct (ptable p) as [m|]; [|discriminate He]. change (m !! u = Some e) in He. rewrite forallb_forall in Ep.
  apply elem_of_map_to_list, list_elem_of_In, Ep, bool_decide_eq_true in He. exact He.
Qed.

Lemma other_files v D a0 s' a t l :
  vm_inv v D a0 → abstracts s' a → (∀ t u e, entry_at v t u = Some e → ptype e = PAGE_ZERO) →
  vm_inv (put_fds (set_sys v s') t l) D a ∧ ∀ t' u, entry_at (put_fds (set_sys v s') t l) t' u = entry_at v t' u.
Proof.
  intros H Ha Hz. destruct (inv_sys v D a0 s' a H Ha) as [H1 _].
  { split; intros t' u e h He; rewrite (Hz t' u e He); [by intros [?|?]|done]. }
  destruct (inv_procs (set_sys v s') D a (procs (put_fds (set_sys v s') t l)) H1) as (H2 & He & _); [|by split].
  intros t'. unfold put_fds, upd_proc. cbn [procs set_procs].
  destruct (decide (t' = t)) as [->|]; [rewrite lookup_alter_eq|by rewrite lookup_alter_ne]. by destruct (procs (set_sys v s') !! t).
Qed.

Lemma demo_rw_inv :
  ∃ D a id, vm_inv demo_rw D a ∧ open_fd demo_rw 2 open_handle ∧ ahandles a = {[open_handle := Handle id 0 false]}
    ∧ astore a !! id = Some demo_elf ∧ ∀ t u e, entry_at demo_rw t u = Some e → ptype e = PAGE_ZERO.
Proof.
  destruct demo_vm_inv as (D & a0 & H0), open_fs_abs as (a & id & Ha & Hx & Hh). set (a1 := set_handle a open_handle (Handle id 0 false)) in *.
  destruct (other_files demo_vm D a0 open_fs a1 1 (<[2%nat := open_handle]> (replicate 128 0)) H0 Ha demo_zero) as [H1 He].
  exists D, a1, id. split; [exact H1|]. split.
  - split; [unfold FD_MAX; lia|]. split; [vm_compute; congruence|].
    eexists. split; vm_compute; reflexivity.
  - split; [unfold a1; cbn [set_handle ahandles]; by rewrite Hh|]. split; [exact Hx|]. intros t u e Hu. apply (demo_zero t u).
    rewrite <- (He t u). exact Hu.
Qed.

(** The bytes from [x] on are zeros of loaded pages. *)
Definition zero_range (v : vm) (x n : Z) : bool :=
  forallb (λ y, match entry_at v (cur v) (pg_round_down y) with
    | Some e => loaded e && writable e && bool_decide (ptype e = PAGE_ZERO) && (vmem v (kpage e + pg_ofs y) =? 0)
    | None => false end) (seqZ x n).
Lemma zero_range_spec v a x n y : zero_range v x n = true → 0 ≤ x → x + n ≤ PHYS_BASE → x ≤ y < x + n →
  resident v a true y ∧ ubyte v a y = Some 0.
Proof.
  intros E H0 H1 Hy. apply forallb_forall with (x := y) in E; [|by apply list_elem_of_In, elem_of_seqZ].
  destruct (entry_at v (cur v) (pg_round_down y)) as [e|] eqn:He; [|done].
  apply andb_true_iff in E as [[[El Ew]%andb_true_iff Et]%andb_true_iff Ez]. apply bool_decide_eq_true in Et. apply Z.eqb_eq in Ez.
  assert (ubyte v a y = Some 0) as Hb.
  { unfold ubyte, contents. rewrite He. cbn [mbind option_bind]. rewrite El. cbn [fmap option_fmap option_map option_bind mbind].
    unfold visible. rewrite decide_False by congruence. unfold frame_data.
    destruct (pg_round_down_split y) as (_ & _ & Ho & _); [unfold PHYS_BASE in *; lia|].
    rewrite lookup_peek by (unfold PGSIZE in *; lia). rewrite Z2Nat.id by lia. by rewrite Ez. }
  split; [|done]. split; [by rewrite Hb|]. by exists e.
Qed.

Lemma sys_read_correct_witness :
  ∃ D a id v', vm_inv demo_rw D a ∧ sys_read [] 2 0x8048ff0 40 demo_kst = Ok (Ret 40, set_kv demo_kst v')
    ∧ ubytes v' (set_handle a open_handle (Handle id 40 false)) 0x8048ff0 (slice 0 40 demo_elf).
Proof.
  destruct demo_rw_inv as (D & a & id & H & Hfd & Hh & Hx & _). assert (E : zero_range demo_rw 0x8048ff0 40 = true) by (vm_compute; reflexivity).
  destruct (sys_read_correct [] demo_kst D a 2 open_handle (Handle id 0 false) demo_elf 0x8048ff0 40 H Hfd) as (v' & E1 & _ & Hb & _).
  - by rewrite Hh, lookup_singleton_eq.
  - exact Hx.
  - lia.
  - lia.
  - unfold PHYS_BASE. lia.
  - intros x Hr. by apply (zero_range_spec demo_rw a 0x8048ff0 40).
  - exists D, a, id, v'. split; [exact H|]. split; [exact E1|exact Hb].
Defined.


End SysRw.
