(* ===== verification/SysFault.v ===== *)
(** * System calls that bring the kernel down

    The checks of [userprog/syscall.c] accept addresses that the page fault handler of
    [userprog/exception.c] does not resolve.  The fault is then one of kernel code, and
    [kill] panics. *)

From S2P Require Import Prelude Strings Vaddr Disk Inode Directory FsSpec Pagedir Vm VmInv VmData VmUser Process ProcArgs ProcLoad ProcStart Syscall SysMem SysRw.

Module SysFault.
Import Disk Inode Directory FsSpec Pagedir Vm VmInv VmData VmUser Process ProcArgs ProcLoad ProcStart Syscall SysMem SysRw.

(** A page fault at [va] is not resolved: there is no page there and it is too low for the
    stack, or the page is below the address where programs start. *)
Definition unreachable (v : vm) (va : Z) : Prop :=
  match entry_at v (cur v) (pg_round_down va) with
  | None => pg_round_down va < PHYS_BASE - 8 * 1024 * 1024
  | Some e => loaded e = false ∧ va < 0x08048000
  end.

Lemma kload_panics v D a va : vm_inv v D a → 0 ≤ va < PHYS_BASE → unreachable v va → kload v va = Panic.
Proof.
  intros H Hva Hun. unfold kload, user_load. cbn [touch].
  pose proof (access_spec v D a va false H Hva) as Hacc. cbv zeta in Hacc. unfold unreachable in Hun.
  destruct (mmu_access (mach v) va false) as [[k m]|].
  { destruct Hacc as (e & He & Hl & _). rewrite He in Hun. destruct Hun. congruence. }
  destruct (fault_present v D a va H Hva) as (p & k & Ep & Ek & _). rewrite Ep. cbn [mbind res_bind]. rewrite Ek. cbn [mbind res_bind].
  assert (page_fault v va (k =? 0) false 0 = Ok (false, v)) as ->; [|done].
  unfold page_fault. rewrite Ep. cbn [mbind res_bind]. destruct (Z.leb_spec 0x08048000 va); rewrite ?andb_false_r, ?andb_true_r; [|done].
  destruct (entry_at v (cur v) (pg_round_down va)) as [e|] eqn:He; [lia|]. rewrite (proj2 (Z.leb_gt (PHYS_BASE - pg_round_down va) (8 * 1024 * 1024))) by lia.
  assert (spt_load_page v (cur v) va = Ok (false, v)) as Eload.
  { unfold spt_load_page. destruct (po_cur v D (vi_procs v D a H)) as (p' & Hp & _).
    by rewrite (get_entry_at v D (cur v) va (vi_procs v D a H) (mk_is_Some _ _ Hp)), He. }
  destruct (is_user_vaddr va); [|done]. destruct (_ && _); cbn [mbind res_bind]; rewrite Eload; by destruct (k =? 0).
Qed.

Lemma unreachable_same v v' va :
  cur v' = cur v → (∀ t u, entry_at v' t u = entry_at v t u) → unreachable v va → unreachable v' va.
Proof. intros Ec He. unfold unreachable. by rewrite Ec, He. Qed.
Lemma memory_entries v v' t u : only_memory v v' → entry_at v' t u = entry_at v t u.
Proof. intros [_ Ep _ _]. unfold entry_at. by rewrite Ep. Qed.

(** Reading up to an address that is not reachable. *)
Lemma kloads_panics D a n j : ∀ v va,
  vm_inv v D a → 0 ≤ va → va + Z.of_nat j < PHYS_BASE → (∀ x, va ≤ x < va + Z.of_nat j → resident v a false x) →
  unreachable v (va + Z.of_nat j) → kloads (j + S n) v va = Panic.
Proof.
  induction j as [|j IH]; intros v va H Hva Hend Hr Hun.
  - cbn [kloads Nat.add]. rewrite Z.add_0_r in Hun, Hend. by rewrite (kload_panics v D a va) by (done || lia).
  - cbn [kloads Nat.add]. destruct (Hr va ltac:(lia)) as [[b Hb] _].
    destruct (kload_byte v D a va b H) as (v1 & E1 & H1 & O1 & C1); [lia|apply Hr; lia|done|].
    rewrite E1. cbn [mbind res_bind]. rewrite (IH v1 (va + 1)); [done|done|lia|lia| |].
    + intros x Hx. apply (resident_same v a); [by apply memory_kept| |apply Hr; lia]. left. apply contents_byte; [apply O1|done].
    + apply (unreachable_same v); [apply O1|intros; by apply memory_entries|]. by replace (va + 1 + Z.of_nat j) with (va + Z.of_nat (S j)) by lia.
Qed.

Lemma put_esp_inv v D a t esp :
  vm_inv v D a → vm_inv (put_esp v t esp) D a ∧ (∀ t' u, entry_at (put_esp v t esp) t' u = entry_at v t' u)
    ∧ ∀ x, ubyte (put_esp v t esp) a x = ubyte v a x.
Proof.
  intros H. destruct (inv_procs v D a (procs (put_esp v t esp)) H) as (H1 & He & Hc).
  - intros t'. unfold put_esp, upd_proc. cbn [procs set_procs].
    destruct (decide (t' = t)) as [->|]; [rewrite lookup_alter_eq|by rewrite lookup_alter_ne]. by destruct (procs v !! t).
  - split; [exact H1|]. split; [exact He|]. intros x. by apply contents_byte.
Qed.

(** The page of a process is accepted as an address, loaded or not. *)
Lemma valid_entry v D a x : vm_inv v D a → 0 < x < PHYS_BASE → is_Some (entry_at v (cur v) (pg_round_down x)) → valid_uaddr v x false = Ok true.
Proof.
  intros H Hx [e He]. unfold valid_uaddr. rewrite (proj2 (Z.eqb_neq x 0)) by lia. unfold is_user_vaddr.
  rewrite (proj2 (Z.ltb_lt x PHYS_BASE)) by lia. cbn [negb orb].
  destruct (po_cur v D (vi_procs v D a H)) as (p & Hp & _). unfold get_proc. rewrite Hp. cbn [from_opt mbind res_bind].
  rewrite (get_entry_at v D (cur v) (pg_round_down x)) by (try apply H; by eexists).
  rewrite (user_page_round _ (user_page_of x ltac:(lia))), He. done.
Qed.

Lemma sc_panic {A B} (m : sc A) (k : A → sc B) s : m s = Panic → (m ≫= k) s = Panic.
Proof. intros E. unfold mbind, sc_bind. by rewrite E. Qed.

Lemma cstr_panics s D a u cap :
  vm_inv (kv s) D a → 0 < u < PHYS_BASE → is_Some (entry_at (kv s) (cur (kv s)) (pg_round_down u)) → unreachable (kv s) u → 0 < cap →
  copy_in_cstr u cap s = Panic.
Proof.
  intros H Hu He Hun Hc. unfold copy_in_cstr, lift. rewrite (valid_entry _ D a) by done. cbn [mbind res_bind negb].
  destruct (Z.to_nat cap) as [|n] eqn:E; [lia|]. cbn [cstr_loop]. rewrite Z.add_0_r, u32_small by (unfold PHYS_BASE in Hu; lia).
  rewrite (valid_entry _ D a) by done. cbn [mbind res_bind negb]. by rewrite (kload_panics _ D a) by (done || lia).
Qed.

(** C35: two calls that panic the kernel, from any state.  First, any system call whose number
    is stored across the end of the last page of a data segment: [uarg] checks only that the
    four bytes are below [PHYS_BASE].  Second, [exec], [create], [remove] and [open] with a name in a page
    that is mapped below 0x08048000 and not yet loaded: [mmap] accepts such addresses, and the
    page fault handler refuses them. *)
Theorem syscall_panics order junk s D a :
  vm_inv (kv s) D a →
  (∀ esp j, 0 < esp → (0 < j < 4)%nat → esp + 3 < PHYS_BASE →
     (∀ x, esp ≤ x < esp + Z.of_nat j → resident (kv s) a false x) → unreachable (kv s) (esp + Z.of_nat j) →
     syscall_handler order junk esp s = Panic)
  ∧ (∀ u size e, 0 < u < 0x08048000 → entry_at (kv s) (cur (kv s)) (pg_round_down u) = Some e → loaded e = false →
     sys_exec order u s = Panic ∧ sys_create order junk u size s = Panic ∧ sys_remove order u s = Panic ∧ sys_open order u s = Panic).
Proof.
  intros H. split.
  - intros esp j He Hj Hend Hr Hun. destruct (put_esp_inv (kv s) D a (cur (kv s)) esp H) as (H1 & Hen & Hub).
    set (v1 := put_esp (kv s) (cur (kv s)) esp) in *.
    assert (Hr1 : ∀ x, esp ≤ x < esp + Z.of_nat j → resident v1 a false x).
    { intros x Hx. destruct (Hr x Hx) as [Hs (e & He1 & He2)]. split; [by rewrite Hub|]. exists e. by rewrite Hen. }
    unfold syscall_handler. erewrite sc_step by reflexivity. fold v1.
    erewrite sc_step; [|unfold uaddr_check; erewrite sc_step; [|unfold ask; cbn [kv set_kv]; rewrite (valid_resident v1 D a esp false H1); [reflexivity|lia|apply Hr1; lia]]; reflexivity].
    apply sc_panic. unfold uarg. rewrite Z.mul_0_r, Z.add_0_r, u32_small by (unfold PHYS_BASE in *; lia).
    rewrite (u32_small (esp + 3)) by (unfold PHYS_BASE in *; lia). rewrite (proj2 (Z.eqb_neq esp 0)) by lia.
    unfold is_user_vaddr. rewrite !(proj2 (Z.ltb_lt _ PHYS_BASE)) by lia. cbn [negb orb]. unfold lift. cbn [kv set_kv].
    replace 4%nat with (j + S (3 - j))%nat by lia. rewrite (kloads_panics D a) by (done || lia || by apply (unreachable_same (kv s))). done.
  - intros u size e Hu He Hl. assert (Hun : unreachable (kv s) u) by (unfold unreachable; rewrite He; split; [done|lia]).
    assert (Hup : 0 < u < PHYS_BASE) by (unfold PHYS_BASE; lia).
    assert (Hc : ∀ cap, 0 < cap → copy_in_cstr u cap s = Panic).
    { intros cap Hcap. by apply (cstr_panics s D a). }
    unfold sys_exec, sys_create, sys_remove, sys_open. rewrite (proj2 (Z.eqb_neq u 0)) by lia. split_and!.
    + erewrite sc_step; [|unfold uaddr_check; erewrite sc_step; [|unfold ask; rewrite (valid_entry _ D a) by (try done; by rewrite He); reflexivity]; reflexivity].
      by apply sc_panic, Hc.
    + by apply sc_panic, Hc.
    + by apply sc_panic, Hc.
    + by apply sc_panic, Hc.
Qed.

(** [demo_rw] with a page at 0x1000 that is not loaded. *)
Definition demo_low : kst :=
  match spt_set_zero demo_rw 1 0x1000 true with Ok (_, v) => set_kv demo_kst v | _ => demo_kst end.

Lemma demo_low_inv : ∃ D a, vm_inv (kv demo_low) D a.
Proof.
  destruct demo_rw_inv as (D & a & _ & H & _). exists D, a.
  assert (Ep : match procs demo_rw !! 1 with Some _ => true | None => false end = true) by (vm_compute; reflexivity).
  destruct (procs demo_rw !! 1) as [p|] eqn:Hp; [|discriminate Ep].
  destruct (spt_add_spec demo_rw D a 1 p (SptEntry 0x1000 0 PAGE_ZERO true false 0 0 0 PGSIZE 0 (-1)) H Hp) as (ok & v' & E & H' & _).
  - split; [unfold PHYS_BASE; simpl; lia|reflexivity].
  - reflexivity.
  - exact I.
  - intros t u e _. split; [discriminate|discriminate].
  - unfold demo_low. change (spt_set_zero demo_rw 1 0x1000 true) with (spt_add demo_rw 1 (SptEntry 0x1000 0 PAGE_ZERO true false 0 0 0 PGSIZE 0 (-1))).
    rewrite E. exact H'.
Qed.

(** The second panic after a call of [mmap] for two pages at 0x1000. *)
Lemma syscall_panics_witness :
  syscall_handler [] [] 0x8049ffd demo_low = Panic ∧ sys_open [] 0x1000 demo_low = Panic
  ∧ match sys_mmap 2 0x1000 demo_kst with Ok (Ret m, s) => (m =? 1) && match sys_open [] 0x1000 s with Panic => true | _ => false end | _ => false end = true.
Proof.
  destruct demo_low_inv as (D & a & H). destruct (syscall_panics [] [] demo_low D a H) as [H1 H2].
  assert (E : zero_range (kv demo_low) 0x8049ffd 3 = true) by (vm_compute; reflexivity). split; [|split].
  - apply (H1 0x8049ffd 3%nat); [lia|lia|unfold PHYS_BASE; lia| |].
    + intros x Hx. destruct (zero_range_spec (kv demo_low) a 0x8049ffd 3 x E) as [[Hs (e & He & Hl & _)] _]; [lia|unfold PHYS_BASE; lia|lia|].
      split; [exact Hs|]. exists e. split; [exact He|]. split; [exact Hl|intros []].
    + vm_compute. reflexivity.
  - assert (Ee : match entry_at (kv demo_low) (cur (kv demo_low)) (pg_round_down 0x1000) with Some e => negb (loaded e) | None => false end = true)
      by (vm_compute; reflexivity).
    destruct (entry_at (kv demo_low) (cur (kv demo_low)) (pg_round_down 0x1000)) as [e|] eqn:He; [|discriminate Ee].
    apply (H2 0x1000 0 e); [lia|exact He|by apply negb_true_iff].
  - vm_compute. reflexivity.
Defined.

End SysFault.
